(* ===== verification/_CoqProject ===== *)
-Q . S2P
Prelude.v
Lock.v
BlockCache.v
Bio.v
Log.v
Transaction.v
KString.v
NetUtil.v
Mbuf.v
DList.v
Arp.v
SockCb.v
Ipv4.v
Eth.v
Tcp.v
PageAlloc.v
Vm.v
UserMem.v
FsDisk.v
FsBlocks.v
FsInode.v
FsFile.v
FsDir.v
FsPath.v
FsTx.v
FsSpec.v
Pipe.v
Proc.v
ULib.v
Grep.v
IntMap.v
P9.v
P9Server.v
Umalloc.v
Shell.v
Printf.v
UPrintf.v
Console.v
KList.v
Buddy.v
BuddyTree.v
BuddySpec.v
Ufk.v
UfkSpec.v
KAlloc.v
File.v
FileSpec.v
Sysfile.v
SysfileSpec.v
Socket.v
SocketSpec.v
Virtio.v
VirtioSpec.v
Exec.v
ExecSpec.v
HashMap.v
HashMapTable.v
HashMapSpec.v
Syscall.v
Trap.v
TrapSpec.v
TrapKernel.v
Mkfs.v
MkfsFile.v
MkfsImage.v
MkfsSpec.v
