(* ===== verification/Prelude.v ===== *)
(** * xv6 with a network stack: a verification development

    The program is a kernel for RISC-V derived from xv6, with a TCP/IP stack, a
    9P file server in user space and a small set of user programs.  This
    development translates its core into executable definitions and proves the
    theorems that make the parts correct.

    ** The parts of the program and how they interact

    Processes (kernel/proc) share an address-space layer (kernel/mem/vm.c) that
    takes its pages from the page allocator (kernel/lib/kalloc.c).  They open files
    of the file system (kernel/fs/fs.c), whose every change runs inside a transaction
    of the write-ahead log (kernel/fs/log.c), which works on the buffer cache
    (kernel/fs/bio.c) over the disk.  Pipes (kernel/proc/pipe.c) connect processes
    through sleep and wakeup.  The network stack (kernel/net) moves packet buffers
    from the card through Ethernet, ARP, IPv4, UDP and TCP to socket control
    blocks.  Spin locks and sleep locks (kernel/lock) protect all of it.

    ** Files

    - Prelude.v: machine integers with their wrap-around, bytes and
      little-endian words, lemmas on lists, the tactics of the development.
    - Lock.v: kernel/lock/spinlock.c and sleeplock.c.  [lock_step] interleaves the
      atomic actions of the CPUs.
    - BlockCache.v: the interface between the buffer cache and the log: the class
      [BlockCache] of operations and [BlockCacheLaws] of promises over the abstract
      cache [acache].  Bio.v: kernel/fs/bio.c, an instance of it.
    - Log.v: kernel/fs/log.c over any [BlockCache].  Transaction.v: the log over
      the cache of Bio.v, crashes and recovery.
    - KString.v: kernel/lib/string.c.
    - NetUtil.v, Mbuf.v, DList.v, Arp.v, SockCb.v, Ipv4.v, Eth.v, Tcp.v:
      kernel/net from byte order and checksum to TCP.  DList.v is the doubly linked
      bucket list that the ARP table and the socket tables share.
    - PageAlloc.v: the interface of the page allocator and kernel/lib/kalloc.c, an
      instance of it.  Vm.v: kernel/mem/vm.c over any page allocator.  UserMem.v:
      the theorems on user memory.
    - FsDisk.v: the state of the file system and the transactional interface
      ([TxDisk], [TxDiskLaws]) that it uses.  FsBlocks.v, FsInode.v, FsFile.v, FsDir.v,
      FsPath.v: kernel/fs/fs.c over any [TxDisk].  FsTx.v: the log over the buffer
      cache as a [TxDisk].  FsSpec.v: the theorems on complete operations.
    - Pipe.v: kernel/proc/pipe.c.  Proc.v: kernel/proc/proc.c.
    - Sysfile.v, SysfileSpec.v: the
      calls of kernel/sys/sysfile.c on path names.
    - KList.v (kernel/lib/list.c), Buddy.v (kernel/lib/buddy.c and the part of
      ufkalloc.c that repeats it), BuddyTree.v and BuddySpec.v (the trees of blocks that
      the bitmaps stand for), Ufk.v and UfkSpec.v (kernel/lib/ufkalloc.c over both).
      KAlloc.v: the interface of the kernel's heap, an instance of it.
    - File.v, FileSpec.v: kernel/fs/file.c, the calls on descriptors, pipealloc, over any
      [KAlloc].
    - Socket.v, SocketSpec.v: kernel/net/socket.c and kernel/sys/sysnet.c.
    - Virtio.v, VirtioSpec.v: kernel/dev/virtio_disk.c, with the device as its
      environment.
    - Printf.v, Console.v: kernel/lib/printf.c, kernel/dev/console.c, kernel/dev/uart.c.
    - Exec.v, ExecSpec.v: kernel/proc/exec.c over the page tables of Vm.v.
    - HashMap.v, HashMapTable.v, HashMapSpec.v: kernel/lib/hashmap.c, the invariant of
      its tables, and the refinement of a finite map.
    - Syscall.v: kernel/sys/syscall.c and kernel/sys/sysproc.c over Proc.v.  Trap.v,
      TrapSpec.v, TrapKernel.v: kernel/trap.c, kernel/trampoline.S, kernel/kernelvec.S.
    - Mkfs.v, MkfsFile.v, MkfsImage.v, MkfsSpec.v: mkfs/mkfs.c, the files of an image under
      construction, and the finished image as the file system of the kernel.
    - User space: ULib.v, Umalloc.v, UPrintf.v, IntMap.v (user/ulib), Grep.v
      (user/grep.c), Shell.v (the parser of user/sh.c), P9.v and P9Server.v (user/9psv).

    ** How state and operations correspond to the code

    An operation has the name of the C function.  A [struct] is a record, a
    pointer into a static array is an index of it, a pointer to an allocated
    object is a key of a heap ([gmap]), a page or a block is the list of its
    bytes.  Integers are [Z] with the wrap-around of their width written out
    ([u8], [u16], [u32], [u64], [s16], [s32]).  An operation that can panic or sleep
    returns an option or a result type: [None] is the panic (or the sleep, where
    the comment says so), an error return of the C function is a value.  The code between
    taking and releasing a lock is one atomic step; the systems [lock_step],
    [pstep], [proc_step] and [tcp_step] interleave such steps, and where the code
    releases its locks in the middle of a function (exit, the wait loops), there is one
    definition per part.

    ** What the theorems show

    - Storage.  A transaction is atomic with respect to a crash at any point of its
      writes, and recovery completes it, also when it is itself interrupted
      (Transaction.v).  The file system over the log inherits this: a write to a
      file appears after a crash completely or not at all (FsSpec.v).  What is
      written is read back, truncation gives back exactly the blocks of the file, a linked
      name is found, and a path lookup returns with every lock and reference
      released but the one of its result.
    - Buffer cache: refinement of the abstract cache.
    - Locks: mutual exclusion, with interrupts off while a lock is held.
    - Processes: an invariant of the process table over every interleaving.
      Pipes: the bytes read are the bytes written, in order, over the wrapping counters;
      no wakeup is lost.
    - Memory: fork gives the child a copy and its own pages; freeing returns every page;
      copies to and from user memory are inverse to each other.
    - Network: what is sent is received (UDP over IPv4 with checksums, TCP segments),
      the TCP receiver delivers a prefix of the stream, ARP replies release the
      packets that wait for them, the socket and ARP tables are maps.
    - Paths: unlink and mknod either change nothing and return -1, or make the change that
      they promise, in one transaction (SysfileSpec.v).
    - Image: what mkfs builds satisfies the assumptions on the disk of the theorems above,
      and every file is found with its contents (MkfsSpec.v).
    - Disk driver: with the device and the interrupt in any order, a request transfers its own
      block, descriptors are never shared or lost, and no wakeup is lost
      (VirtioSpec.v).
    - Open files: the reference count of a file is the number of its descriptors, and
      what a file holds is given back once, when the last one is closed (FileSpec.v).
    - Kernel heap: blocks handed out never overlap, freeing gives back exactly the block
      and joins it with its buddies, allocation fails only without a large enough block
      (UfkSpec.v).  User heap: the same of malloc and free (Umalloc.v).
    - Sockets: the bytes of a send go out as consecutive segments, a receive gives the
      bytes in order (SocketSpec.v).
    - Hash map: every run of operations returns the results of a finite map, but for
      insertions that found no memory (HashMapSpec.v).
    - Traps: an interrupted program goes on with all its registers, a system call
      returns behind its ecall with its result, a device interrupt runs the handler
      registered last (TrapSpec.v, TrapKernel.v).
    - Exec: the stack of the new program has the arguments that it was given (ExecSpec.v).
    - Console and printf: the ring refines a line editor on strings, what printf writes
      reads back as the numbers and strings that it was given, and the user's printf
      agrees with the kernel's.
    - 9P: parsing inverts the encoding of requests, composing writes the encoding of
      responses, the receive loop reassembles messages.  grep matches the language of the
      pattern; the parser of the shell inverts the printing of command lines, and
      ends on every line.

    Theorems of kind "error" state a behaviour of the code that is not the intended
    one, at a concrete input: lost updates after recovery, packets that dangle in a
    queue, and the like.

    ** Fuel

    Loops over an array or a range are structural on the number of their
    iterations.  The loops that follow a list carry the number of nodes of the heap as
    fuel, and the theorems show that it is enough: the search returns, it does not run out.
    [namex] recurs once for every element of the path and carries the length of
    the path; [namei_walk] states that it returns a result.  [pipewrite] and
    [piperead] stop where the process sleeps; the steps of the system then continue
    them, so no bound is needed.  A loop that takes at least one byte or one node per
    turn carries the length of its input ([iappend_loop], [copy_loop], the parsers), and its
    theorem states that it returns.

    ** Not modelled

    plic.c, pci.c and the set-up and receive side of e1000.c are accesses to registers; what
    the rest sees of them is the number of an interrupt and the frames.  start.c,
    main.c and the timer vector in machine mode are privileged set-up.  swtch and
    forkret switch stacks; the interleavings of Proc.v are what they make possible.
    usertests.c, the test directories and the small user programs only make system calls.
    The file ramdisk.c is not built.

    ** What is left

    Running the commands of the shell and nsh.c are sequences of the system calls of File.v,
    Proc.v and Exec.v, and would need the composition of these three into one state.
    The calls of the table in Syscall.v that are modelled elsewhere ([sys_other]) would
    be put in by the same composition. *)

From stdpp Require Export base tactics numbers list gmap strings.
From Stdlib Require Export ZArith Lia FunctionalExtensionality.

#[global] Open Scope Z_scope.
#[global] Set Default Goal Selector "!".
#[global] Set Warnings "-clear-no-such-hyp".

(** * Machine integers

    A C integer of width w is a [Z]; the wrap-around of an assignment or of
    an unsigned operation is written out with these functions. *)

Definition wrap (w z : Z) : Z := z mod 2 ^ w.

Definition u8 (z : Z) : Z := wrap 8 z.
Definition u16 (z : Z) : Z := wrap 16 z.
Definition u32 (z : Z) : Z := wrap 32 z.
Definition u64 (z : Z) : Z := wrap 64 z.

(** Conversion to [short] and to [int]: two's complement reading. *)
Definition s16 (z : Z) : Z := wrap 16 (z + 2 ^ 15) - 2 ^ 15.
Definition s32 (z : Z) : Z := wrap 32 (z + 2 ^ 31) - 2 ^ 31.

Create HintDb xv6.

Lemma wrap_range w z : 0 <= w -> 0 <= wrap w z < 2 ^ w.
Proof. intros. unfold wrap. apply Z.mod_pos_bound. lia. Qed.

Lemma wrap_small w z : 0 <= z < 2 ^ w -> wrap w z = z.
Proof. intros. unfold wrap. by apply Z.mod_small. Qed.

Lemma wrap_idemp w z : wrap w (wrap w z) = wrap w z.
Proof. unfold wrap. apply Zmod_mod. Qed.

Lemma wrap_add_l w a b : wrap w (wrap w a + b) = wrap w (a + b).
Proof. unfold wrap. apply Zplus_mod_idemp_l. Qed.

Lemma wrap_add_r w a b : wrap w (a + wrap w b) = wrap w (a + b).
Proof. unfold wrap. apply Zplus_mod_idemp_r. Qed.

Lemma wrap_sub_l w a b : wrap w (wrap w a - b) = wrap w (a - b).
Proof. unfold wrap. apply Zminus_mod_idemp_l. Qed.

Lemma wrap_sub_r w a b : wrap w (a - wrap w b) = wrap w (a - b).
Proof. unfold wrap. apply Zminus_mod_idemp_r. Qed.

Lemma u8_range z : 0 <= u8 z < 256.
Proof. by apply wrap_range. Qed.
Lemma u16_range z : 0 <= u16 z < 65536.
Proof. by apply wrap_range. Qed.
Lemma u32_range z : 0 <= u32 z < 4294967296.
Proof. by apply wrap_range. Qed.
Lemma u64_range z : 0 <= u64 z < 18446744073709551616.
Proof. by apply wrap_range. Qed.

Lemma u8_small z : 0 <= z < 256 -> u8 z = z.
Proof. intros. unfold u8. apply wrap_small. lia. Qed.
Lemma u16_small z : 0 <= z < 65536 -> u16 z = z.
Proof. intros. unfold u16. apply wrap_small. lia. Qed.
Lemma u32_small z : 0 <= z < 4294967296 -> u32 z = z.
Proof. intros. unfold u32. apply wrap_small. lia. Qed.
Lemma u64_small z : 0 <= z < 18446744073709551616 -> u64 z = z.
Proof. intros. unfold u64. apply wrap_small. lia. Qed.
Lemma s32_small z : -2147483648 <= z < 2147483648 -> s32 z = z.
Proof. intros. unfold s32. rewrite wrap_small; lia. Qed.
Lemma s16_small z : -32768 <= z < 32768 -> s16 z = z.
Proof. intros. unfold s16. rewrite wrap_small; lia. Qed.

#[export] Hint Resolve u8_range u16_range u32_range u64_range : xv6.

(** Replace a wrap of a value known (by [lia]) to be in range by the value. *)
Ltac unwrap :=
  repeat first
    [ rewrite u8_small by lia | rewrite u16_small by lia
    | rewrite u32_small by lia | rewrite u64_small by lia
    | rewrite s16_small by lia | rewrite s32_small by lia ].

(** Case analysis on the comparisons of the code. *)
Ltac zbool :=
  repeat match goal with
  | H : context [?a =? ?b] |- _ => destruct (Z.eqb_spec a b)
  | H : context [?a <? ?b] |- _ => destruct (Z.ltb_spec a b)
  | H : context [?a <=? ?b] |- _ => destruct (Z.leb_spec a b)
  | |- context [?a =? ?b] => destruct (Z.eqb_spec a b)
  | |- context [?a <? ?b] => destruct (Z.ltb_spec a b)
  | |- context [?a <=? ?b] => destruct (Z.leb_spec a b)
  end.

(** * Effects

    Kernel code threads a state, may call [panic] (which never returns), may
    put the calling process to sleep (the state reached when it sleeps is kept;
    on wake-up the caller re-runs its loop), may access memory outside of an
    array ([Undef]: C gives it no meaning), and a loop whose bound is not
    structural carries fuel. *)

Inductive outcome (S A : Type) : Type :=
| Ok (a : A) (s : S)
| Panic (msg : string)
| Sleep (s : S)
| OutOfFuel
| Undef.
Arguments Ok {S A} a s.
Arguments Panic {S A} msg.
Arguments Sleep {S A} s.
Arguments OutOfFuel {S A}.
Arguments Undef {S A}.

Definition M (S A : Type) : Type := S -> outcome S A.

Definition ret {S A} (a : A) : M S A := fun s => Ok a s.

Definition bind {S A B} (m : M S A) (f : A -> M S B) : M S B := fun s =>
  match m s with
  | Ok a s' => f a s'
  | Panic msg => Panic msg
  | Sleep s' => Sleep s'
  | OutOfFuel => OutOfFuel
  | Undef => Undef
  end.

Declare Scope xv6_scope.
Delimit Scope xv6_scope with xv6.
Notation "x ← y ; z" := (bind y (fun x => z)) : xv6_scope.
Notation "' x ← y ; z" := (bind y (fun x => z)) : xv6_scope.
Notation "x ;; z" := (bind x (fun _ => z)) : xv6_scope.
#[global] Open Scope xv6_scope.

Definition get {S} : M S S := fun s => Ok s s.
Definition put {S} (s' : S) : M S unit := fun _ => Ok tt s'.
Definition modify {S} (f : S -> S) : M S unit := fun s => Ok tt (f s).
Definition gets {S A} (f : S -> A) : M S A := fun s => Ok (f s) s.
Definition panic {S A} (msg : string) : M S A := fun _ => Panic msg.
Definition block {S A} : M S A := fun s => Sleep s.
Definition nofuel {S A} : M S A := fun _ => OutOfFuel.
Definition undef {S A} : M S A := fun _ => Undef.
Definition when {S} (b : bool) (m : M S unit) : M S unit :=
  if b then m else ret tt.

Section monad.
Context {S A B : Type}.
Implicit Types (s : S).

Lemma bind_ok (m : M S A) (f : A -> M S B) s a s' :
  m s = Ok a s' -> bind m f s = f a s'.
Proof. intros H. unfold bind. by rewrite H. Qed.

Lemma bind_inv (m : M S A) (f : A -> M S B) s b s'' :
  bind m f s = Ok b s'' -> exists a s', m s = Ok a s' /\ f a s' = Ok b s''.
Proof. unfold bind. destruct (m s); naive_solver. Qed.

Lemma bind_panic (m : M S A) (f : A -> M S B) s msg :
  m s = Panic msg -> bind m f s = Panic msg.
Proof. intros H. unfold bind. by rewrite H. Qed.

Lemma ret_ok (a : A) s : (ret a : M S A) s = Ok a s.
Proof. done. Qed.
End monad.

(** Split a successful run of a sequence into the runs of its parts. *)
Ltac minv H :=
  lazymatch type of H with
  | bind _ _ _ = Ok _ _ =>
      let a := fresh "a" in let s := fresh "s" in
      let H1 := fresh "H" in let H2 := fresh "H" in
      apply bind_inv in H as (a & s & H1 & H2); cbv beta in H2;
      minv H1; minv H2
  | ret _ _ = Ok _ _ => unfold ret in H; simplify_eq
  | modify _ _ = Ok _ _ => unfold modify in H; simplify_eq
  | gets _ _ = Ok _ _ => unfold gets in H; simplify_eq
  | get _ = Ok _ _ => unfold get in H; simplify_eq
  | panic _ _ = Ok _ _ => discriminate H
  | block _ = Ok _ _ => discriminate H
  | nofuel _ = Ok _ _ => discriminate H
  | undef _ = Ok _ _ => discriminate H
  | (if ?b then _ else _) _ = Ok _ _ =>
      let E := fresh "E" in destruct b eqn:E; minv H
  | _ => idtac
  end.

(** [m] runs to completion from [s] and ends as [Q] says. *)
Definition runs {S A} (m : M S A) (s : S) (Q : A -> S -> Prop) : Prop :=
  exists a s', m s = Ok a s' /\ Q a s'.

Section runs.
Context {S A B : Type}.
Implicit Types (s : S).

Lemma runs_ret (a : A) s (Q : A -> S -> Prop) : Q a s -> runs (ret a) s Q.
Proof. intros. by exists a, s. Qed.

Lemma runs_bind (m : M S A) (g : A -> M S B) s Q :
  runs m s (fun a s' => runs (g a) s' Q) -> runs (bind m g) s Q.
Proof.
  intros (a & s' & E & b & s'' & E' & HQ). exists b, s''. split; [|done].
  by rewrite (bind_ok _ _ _ _ _ E).
Qed.

Lemma runs_gets (g : S -> A) s (Q : A -> S -> Prop) : Q (g s) s -> runs (gets g) s Q.
Proof. intros. by exists (g s), s. Qed.

Lemma runs_get s (Q : S -> S -> Prop) : Q s s -> runs get s Q.
Proof. intros. by exists s, s. Qed.

Lemma runs_modify (g : S -> S) s (Q : unit -> S -> Prop) : Q tt (g s) -> runs (modify g) s Q.
Proof. intros. by exists tt, (g s). Qed.

Lemma runs_mono (m : M S A) s (Q Q' : A -> S -> Prop) :
  runs m s Q -> (forall a s', Q a s' -> Q' a s') -> runs m s Q'.
Proof. intros (a & s' & E & HQ) H. exists a, s'. auto. Qed.
End runs.

(** Run the next primitive of a sequence in the goal. *)
Ltac mstep := unfold bind, ret, get, put, modify, gets, when; simpl.

(** Run the first part of a sequence whose result is given by [E]. *)
Ltac mrun E := etransitivity; [eapply bind_ok; exact E|]; cbv beta.
Ltac mpure := etransitivity; [eapply bind_ok; reflexivity|]; cbv beta.

(** * Lists of bytes

    Memory and disk contents are lists of byte values. *)

Abbreviation bytes := (list Z).

Definition is_byte (b : Z) : Prop := 0 <= b < 256.

#[global] Instance is_byte_dec b : Decision (is_byte b).
Proof. unfold is_byte. apply _. Defined.

(** [len] bytes from offset [off]; the bytes of [v] stored from [off] on. *)
Definition sub_bytes (off len : nat) (l : bytes) : bytes := take len (drop off l).
Definition upd_bytes (off : nat) (v l : bytes) : bytes :=
  take off l ++ v ++ drop (off + length v) l.

Lemma length_sub_bytes off n l :
  (off + n <= length l)%nat -> length (sub_bytes off n l) = n.
Proof. intros. unfold sub_bytes. rewrite length_take, length_drop. lia. Qed.

Lemma length_upd_bytes off v l :
  (off + length v <= length l)%nat -> length (upd_bytes off v l) = length l.
Proof.
  intros. unfold upd_bytes.
  rewrite !length_app, length_take, length_drop. lia.
Qed.

Lemma lookup_upd_bytes off v l i :
  (off + length v <= length l)%nat ->
  upd_bytes off v l !! i =
  if decide (off <= i < off + length v)%nat then v !! (i - off)%nat else l !! i.
Proof.
  intros Hl. unfold upd_bytes. case_decide as Hi.
  - rewrite lookup_app_r by (rewrite length_take; lia).
    rewrite length_take, lookup_app_l by lia. f_equal. lia.
  - destruct (decide (i < off)%nat).
    + rewrite lookup_app_l by (rewrite length_take; lia).
      by rewrite lookup_take_lt by lia.
    + rewrite lookup_app_r by (rewrite length_take; lia).
      rewrite length_take, lookup_app_r by lia.
      rewrite lookup_drop. f_equal. lia.
Qed.

Lemma lookup_sub_bytes off n l i :
  sub_bytes off n l !! i = if decide (i < n)%nat then l !! (off + i)%nat else None.
Proof.
  unfold sub_bytes. case_decide.
  - by rewrite lookup_take_lt, lookup_drop by lia.
  - by rewrite lookup_take_ge by lia.
Qed.

Lemma sub_upd_same off v l :
  (off + length v <= length l)%nat -> sub_bytes off (length v) (upd_bytes off v l) = v.
Proof.
  intros. apply list_eq. intros i.
  rewrite lookup_sub_bytes, lookup_upd_bytes by done.
  destruct (decide (i < length v)%nat).
  - rewrite decide_True by lia. f_equal. lia.
  - symmetry. apply lookup_ge_None. lia.
Qed.

Lemma sub_upd_disjoint off n o' v l :
  (o' + length v <= length l)%nat ->
  (off + n <= o' \/ o' + length v <= off)%nat ->
  sub_bytes off n (upd_bytes o' v l) = sub_bytes off n l.
Proof.
  intros. apply list_eq. intros i.
  rewrite !lookup_sub_bytes. case_decide; [|done].
  rewrite lookup_upd_bytes by done. by rewrite decide_False by lia.
Qed.

Lemma sub_bytes_app off n m l :
  sub_bytes off (n + m) l = sub_bytes off n l ++ sub_bytes (off + n) m l.
Proof. unfold sub_bytes. rewrite <-drop_drop. by rewrite take_take_drop. Qed.

Lemma upd_bytes_app off a b k :
  (off + length a + length b <= length k)%nat ->
  upd_bytes (off + length a) b (upd_bytes off a k) = upd_bytes off (a ++ b) k.
Proof.
  intros Hl. apply list_eq. intros j.
  rewrite !lookup_upd_bytes by (rewrite ?length_upd_bytes, ?length_app; lia). rewrite length_app.
  repeat case_decide; try lia; try done.
  - rewrite lookup_app_r by lia. f_equal. lia.
  - by rewrite lookup_app_l by lia.
Qed.

Lemma upd_bytes_byte off v l :
  Forall is_byte v -> Forall is_byte l -> Forall is_byte (upd_bytes off v l).
Proof.
  intros. unfold upd_bytes.
  repeat apply Forall_app_2; auto using Forall_take, Forall_drop.
Qed.

(** Little-endian integers, the byte order of the target machine. *)

Fixpoint le_enc (n : nat) (z : Z) : bytes :=
  match n with
  | O => []
  | S n' => z mod 256 :: le_enc n' (z / 256)
  end.

Fixpoint le_dec (l : bytes) : Z :=
  match l with
  | [] => 0
  | b :: l' => b + 256 * le_dec l'
  end.

Lemma length_le_enc n z : length (le_enc n z) = n.
Proof. revert z. induction n; intros; simpl; auto. Qed.

Lemma le_enc_byte n z : Forall is_byte (le_enc n z).
Proof.
  revert z. induction n; intros; simpl; constructor; [|done].
  apply Z.mod_pos_bound. lia.
Qed.

Lemma le_dec_enc n z : le_dec (le_enc n z) = z mod 256 ^ Z.of_nat n.
Proof.
  revert z. induction n as [|n IH]; intros z.
  - simpl. symmetry. apply Z.mod_1_r.
  - cbn [le_enc le_dec]. rewrite IH, Nat2Z.inj_succ, Z.pow_succ_r by lia.
    rewrite Z.rem_mul_r; lia.
Qed.

Lemma le_dec_range l :
  Forall is_byte l -> 0 <= le_dec l < 256 ^ Z.of_nat (length l).
Proof.
  induction 1 as [|b l [Hb1 Hb2] Hl IH]; cbn [le_dec length]; [lia|].
  rewrite Nat2Z.inj_succ, Z.pow_succ_r by lia. nia.
Qed.

Lemma le_enc_dec l n :
  Forall is_byte l -> length l = n -> le_enc n (le_dec l) = l.
Proof.
  intros H <-. induction H as [|b l [Hb1 Hb2] Hl IH]; [done|].
  cbn [le_dec length le_enc].
  assert (Hm : (b + 256 * le_dec l) mod 256 = b).
  { rewrite (Z.mul_comm 256), Z.mod_add by lia. apply Z.mod_small. lia. }
  assert (Hd : (b + 256 * le_dec l) / 256 = le_dec l).
  { rewrite (Z.mul_comm 256), Z.div_add by lia.
    rewrite Z.div_small by lia. lia. }
  by rewrite Hm, Hd, IH.
Qed.

(** A field of [n] bytes read from, or stored at, offset [off]. *)
Definition get_le (n off : nat) (l : bytes) : Z := le_dec (sub_bytes off n l).
Definition put_le (n off : nat) (z : Z) (l : bytes) : bytes :=
  upd_bytes off (le_enc n z) l.

Lemma length_put_le n off z l :
  (off + n <= length l)%nat -> length (put_le n off z l) = length l.
Proof. intros. apply length_upd_bytes. by rewrite length_le_enc. Qed.

Lemma get_put_le n off z l :
  (off + n <= length l)%nat -> 0 <= z < 256 ^ Z.of_nat n ->
  get_le n off (put_le n off z l) = z.
Proof.
  intros Hl Hz. unfold get_le, put_le.
  pose proof (sub_upd_same off (le_enc n z) l) as H.
  rewrite length_le_enc in H. rewrite H by done.
  rewrite le_dec_enc. by apply Z.mod_small.
Qed.

Lemma get_put_le_ne n off m o' z l :
  (o' + m <= length l)%nat -> (off + n <= o' \/ o' + m <= off)%nat ->
  get_le n off (put_le m o' z l) = get_le n off l.
Proof.
  intros. unfold get_le, put_le.
  by rewrite sub_upd_disjoint by (rewrite length_le_enc; lia).
Qed.

Lemma get_le_range n off l :
  Forall is_byte l -> 0 <= get_le n off l < 256 ^ Z.of_nat n.
Proof.
  intros Hb. unfold get_le.
  assert (Forall is_byte (sub_bytes off n l)) as H.
  { by apply Forall_take, Forall_drop. }
  apply le_dec_range in H.
  assert ((length (sub_bytes off n l) <= n)%nat).
  { unfold sub_bytes. rewrite length_take. lia. }
  split; [lia|]. eapply Z.lt_le_trans; [apply H|].
  apply Z.pow_le_mono_r; lia.
Qed.

Lemma put_le_byte n off z l :
  Forall is_byte l -> Forall is_byte (put_le n off z l).
Proof. intros. apply upd_bytes_byte; [apply le_enc_byte|done]. Qed.

#[export] Hint Resolve le_enc_byte put_le_byte upd_bytes_byte : xv6.

(** * Finite maps as memories

    [fupd] is point update of a total map; used for arrays indexed by [Z]. *)

Definition fupd {A} (f : Z -> A) (k : Z) (v : A) : Z -> A :=
  fun x => if x =? k then v else f x.

Lemma fupd_eq {A} (f : Z -> A) k v : fupd f k v k = v.
Proof. unfold fupd. by rewrite Z.eqb_refl. Qed.

Lemma fupd_ne {A} (f : Z -> A) k v x : x <> k -> fupd f k v x = f x.
Proof. intros. unfold fupd. zbool; congruence. Qed.

Lemma fupd_fupd {A} (f : Z -> A) k v w : fupd (fupd f k v) k w = fupd f k w.
Proof. apply functional_extensionality. intros x. unfold fupd. by destruct (x =? k). Qed.

Lemma fupd_id {A} (f : Z -> A) k : fupd f k (f k) = f.
Proof. apply functional_extensionality. intros x. unfold fupd. by destruct (Z.eqb_spec x k) as [->|]. Qed.

Lemma fupd_comm {A} (f : Z -> A) j k v w :
  j <> k -> fupd (fupd f j v) k w = fupd (fupd f k w) j v.
Proof.
  intros. apply functional_extensionality. intros x. unfold fupd. zbool; congruence.
Qed.

(** * Prefixes *)

Lemma prefix_app_split {A} (p l1 l2 : list A) :
  p `prefix_of` l1 ++ l2 ->
  p `prefix_of` l1 \/ exists q, p = l1 ++ q /\ q `prefix_of` l2.
Proof.
  intros [r Hr]. destruct (decide (length p <= length l1)%nat) as [Hl|Hl].
  - left. apply (f_equal (take (length p))) in Hr.
    rewrite take_app_le, take_app_length in Hr by done. rewrite <-Hr.
    exists (drop (length p) l1). by rewrite take_drop.
  - right. apply (f_equal (take (length p))) in Hr as Hr'.
    rewrite take_app_length, take_app_ge in Hr' by lia.
    exists (take (length p - length l1) l2). split; [done|].
    exists (drop (length p - length l1) l2). by rewrite take_drop.
Qed.

Lemma prefix_single {A} (p : list A) x : p `prefix_of` [x] -> p = [] \/ p = [x].
Proof.
  intros [r Hr]. destruct p as [|y p]; [auto|]. destruct p; [|done].
  right. by simplify_eq/=.
Qed.

Lemma prefix_elem {A} (p l : list A) x : p `prefix_of` l -> x ∈ p -> x ∈ l.
Proof. intros [r ->] Hx. set_solver. Qed.

(** * Reachability *)

Inductive star {S} (R : S -> S -> Prop) : S -> S -> Prop :=
| star_refl s : star R s s
| star_step s t u : R s t -> star R t u -> star R s u.

Lemma star_invariant {S} (R : S -> S -> Prop) (I : S -> Prop) s t :
  (forall a b, I a -> R a b -> I b) -> I s -> star R s t -> I t.
Proof. intros HR Hs. induction 1; eauto. Qed.
