(* ===== verification/Lock.v ===== *)
(** Spin locks and sleep locks (kernel/lock/spinlock.c, kernel/lock/sleeplock.c).

    [push_off], [pop_off], [holding], [acquire] and [release] act on one lock
    and on the interrupt state of one CPU.  [lock_step] interleaves the atomic
    actions of any number of CPUs on one spin lock; mutual exclusion and
    "interrupts stay off while the lock is held" are invariants of it.  Sleep
    locks are used by the buffer cache and by the inode cache. *)

From S2P Require Import Prelude.

Module Spinlock.

(** The interrupt part of [struct cpu], with the hardware interrupt-enable
    bit that [intr_get] reads. *)
Record cpu := mkcpu { noff : Z; intena : bool; intr : bool }.

(** [struct spinlock]: [owner] is the field [cpu]. *)
Record spinlock := mklock { locked : bool; owner : option nat }.

Definition initlock : spinlock := mklock false None.

Definition push_off (c : cpu) : cpu :=
  let old := intr c in
  mkcpu (noff c + 1) (if noff c =? 0 then old else intena c) false.

Definition pop_off : M cpu unit := fun c =>
  if intr c then Panic "pop_off - interruptible"
  else
    let n := noff c - 1 in
    if n <? 0 then Panic "pop_off"
    else Ok tt (mkcpu n (intena c) ((n =? 0) && intena c)).

Definition holding (lk : spinlock) (me : nat) : bool :=
  locked lk && bool_decide (owner lk = Some me).

(** The two halves of [acquire] around the atomic swap, and the swap:
    [__sync_lock_test_and_set] returns the previous value. *)
Definition acquire_enter (lk : spinlock) (me : nat) (c : cpu) : outcome cpu unit :=
  let c' := push_off c in
  if holding lk me then Panic "acquire" else Ok tt c'.

Definition test_and_set (lk : spinlock) : bool * spinlock :=
  (locked lk, mklock true (owner lk)).

Definition set_owner (lk : spinlock) (me : nat) : spinlock :=
  mklock (locked lk) (Some me).

(** [release]: the check, then the owner is cleared, then the lock word. *)
Definition release_enter (lk : spinlock) (me : nat) : outcome spinlock unit :=
  if holding lk me then Ok tt (mklock (locked lk) None) else Panic "release".

Definition lock_release (lk : spinlock) : spinlock := mklock false (owner lk).

(** ** Interleavings of several CPUs on one lock *)

Inductive pc := Idle | Spin | Got | Crit | Rel | Dead (msg : string).

Record gstate := mkg { g_lk : spinlock; g_pc : nat -> pc; g_cpu : nat -> cpu }.

Definition upd {A} (f : nat -> A) (i : nat) (v : A) : nat -> A :=
  fun j => if decide (j = i) then v else f j.

Inductive lock_step : gstate -> gstate -> Prop :=
| st_enter g i c' :
    g_pc g i = Idle -> acquire_enter (g_lk g) i (g_cpu g i) = Ok tt c' ->
    lock_step g (mkg (g_lk g) (upd (g_pc g) i Spin) (upd (g_cpu g) i c'))
| st_enter_panic g i msg :
    (g_pc g i = Idle \/ g_pc g i = Crit) ->
    acquire_enter (g_lk g) i (g_cpu g i) = Panic msg ->
    lock_step g (mkg (g_lk g) (upd (g_pc g) i (Dead msg)) (g_cpu g))
| st_spin g i lk' :
    g_pc g i = Spin -> test_and_set (g_lk g) = (true, lk') ->
    lock_step g (mkg lk' (g_pc g) (g_cpu g))
| st_got g i lk' :
    g_pc g i = Spin -> test_and_set (g_lk g) = (false, lk') ->
    lock_step g (mkg lk' (upd (g_pc g) i Got) (g_cpu g))
| st_owner g i :
    g_pc g i = Got ->
    lock_step g (mkg (set_owner (g_lk g) i) (upd (g_pc g) i Crit) (g_cpu g))
| st_release g i lk' :
    g_pc g i = Crit -> release_enter (g_lk g) i = Ok tt lk' ->
    lock_step g (mkg lk' (upd (g_pc g) i Rel) (g_cpu g))
| st_release_panic g i msg :
    (g_pc g i = Crit \/ g_pc g i = Idle) -> release_enter (g_lk g) i = Panic msg ->
    lock_step g (mkg (g_lk g) (upd (g_pc g) i (Dead msg)) (g_cpu g))
| st_unlock g i c' :
    g_pc g i = Rel -> pop_off (g_cpu g i) = Ok tt c' ->
    lock_step g (mkg (lock_release (g_lk g)) (upd (g_pc g) i Idle) (upd (g_cpu g) i c'))
| st_unlock_panic g i msg :
    g_pc g i = Rel -> pop_off (g_cpu g i) = Panic msg ->
    lock_step g (mkg (lock_release (g_lk g)) (upd (g_pc g) i (Dead msg)) (g_cpu g)).

(** A CPU is between the successful swap and the store that clears the lock
    word. *)
Definition in_lock (p : pc) : bool :=
  match p with Got | Crit | Rel => true | _ => false end.

Definition in_off (p : pc) : bool :=
  match p with Spin | Got | Crit | Rel => true | _ => false end.

Definition init_state (cpus : nat -> cpu) : gstate :=
  mkg initlock (fun _ => Idle) cpus.

(** CPU state reachable outside of critical sections. *)
Definition cpu_ok (c : cpu) : Prop := 0 <= noff c /\ (0 < noff c -> intr c = false).

Record linv (g : gstate) : Prop := {
  li_excl : forall i j, in_lock (g_pc g i) = true -> in_lock (g_pc g j) = true -> i = j;
  li_locked : locked (g_lk g) = false -> forall i, in_lock (g_pc g i) = false;
  li_crit : forall i, g_pc g i = Crit -> owner (g_lk g) = Some i;
  li_owner : forall j, owner (g_lk g) = Some j ->
    locked (g_lk g) = true /\
    (forall i, in_lock (g_pc g i) = true -> g_pc g i = Crit) /\
    (g_pc g j = Crit \/ exists m, g_pc g j = Dead m);
  li_cpu : forall i, cpu_ok (g_cpu g i);
  li_off : forall i, in_off (g_pc g i) = true -> 0 < noff (g_cpu g i) }.

Lemma upd_eq {A} (f : nat -> A) i v : upd f i v i = v.
Proof. unfold upd. by rewrite decide_True. Qed.
Lemma upd_ne {A} (f : nat -> A) i v j : j <> i -> upd f i v j = f j.
Proof. intros. unfold upd. by rewrite decide_False. Qed.

Lemma push_off_ok c : cpu_ok c -> cpu_ok (push_off c) /\ 0 < noff (push_off c).
Proof. unfold cpu_ok, push_off. simpl. lia. Qed.

Lemma pop_off_ok c c' : pop_off c = Ok tt c' -> cpu_ok c -> cpu_ok c'.
Proof.
  unfold pop_off, cpu_ok. destruct (intr c) eqn:E; [done|].
  destruct (Z.ltb_spec (noff c - 1) 0); [done|]. intros [= <-] _. simpl.
  split; [lia|]. intros. by destruct (Z.eqb_spec (noff c - 1) 0); [lia|].
Qed.

(** Balanced [push_off]/[pop_off] give back the interrupt state they found. *)
Lemma push_pop c :
  cpu_ok c -> pop_off (push_off c) = Ok tt (mkcpu (noff c) (intena (push_off c)) (intr c)).
Proof.
  intros [H1 H2]. unfold push_off, pop_off. simpl.
  destruct (noff c + 1 - 1 <? 0) eqn:E; [lia|].
  f_equal. f_equal; [lia|]. destruct (Z.eqb_spec (noff c + 1 - 1) 0).
  - assert (noff c = 0) as -> by lia. done.
  - simpl. symmetry. apply H2. lia.
Qed.

Lemma test_and_set_inv lk b lk' :
  test_and_set lk = (b, lk') -> locked lk = b /\ locked lk' = true /\ owner lk' = owner lk.
Proof. unfold test_and_set. naive_solver. Qed.

Lemma release_enter_inv lk i lk' :
  release_enter lk i = Ok tt lk' ->
  locked lk = true /\ owner lk = Some i /\ locked lk' = true /\ owner lk' = None.
Proof.
  unfold release_enter, holding. destruct (locked lk) eqn:E; simpl; [|done].
  case_bool_decide; [|done]. intros [= <-]. simpl. auto.
Qed.

Lemma acquire_enter_inv lk i c c' :
  acquire_enter lk i c = Ok tt c' -> c' = push_off c.
Proof. unfold acquire_enter. destruct (holding lk i); naive_solver. Qed.

Ltac upd_case :=
  repeat match goal with
  | H : context [upd _ ?i _ ?j] |- _ => unfold upd in H; case_decide; subst; simpl in *
  | |- context [upd _ ?i _ ?j] => unfold upd; case_decide; subst; simpl in *
  end.

Lemma linv_owner_none g i :
  linv g -> in_lock (g_pc g i) = true -> g_pc g i <> Crit -> owner (g_lk g) = None.
Proof.
  intros Hi Hl Hc. destruct (owner (g_lk g)) as [j|] eqn:E; [|done].
  exfalso. destruct (li_owner g Hi j E) as (_ & H & _). eauto.
Qed.

Lemma linv_locked g i :
  linv g -> in_lock (g_pc g i) = true -> locked (g_lk g) = true.
Proof.
  intros Hi Hl. destruct (locked (g_lk g)) eqn:E; [done|].
  pose proof (li_locked g Hi E i). congruence.
Qed.

(** Steps that change neither the lock nor who is inside it. *)
Lemma linv_outside g i p c' :
  linv g -> in_lock p = false -> p <> Crit -> cpu_ok c' ->
  (in_off p = true -> 0 < noff c') ->
  ((exists m, p = Dead m) \/ in_lock (g_pc g i) = false /\ g_pc g i <> Crit /\ forall m, g_pc g i <> Dead m) ->
  linv (mkg (g_lk g) (upd (g_pc g) i p) (upd (g_cpu g) i c')).
Proof.
  intros [Hex Hlk Hcr How Hcpu Hoff] Hp Hc Hc' Ho Hd.
  constructor; simpl; [| | |intros j Hj| |];
    try (intros; upd_case; first [congruence|by eauto]).
  destruct (How j) as (H1 & H2 & H3); [done|]. split; [done|]. split.
  - intros k Hk. upd_case; first [congruence|by eauto].
  - upd_case; [|done]. destruct Hd as [?|(_ & ? & Hd)]; [by right|].
    destruct H3 as [?|[m ?]]; [congruence|]. by destruct (Hd m).
Qed.

Lemma linv_swap_fail g lk' :
  linv g -> test_and_set (g_lk g) = (true, lk') -> linv (mkg lk' (g_pc g) (g_cpu g)).
Proof.
  intros [Hex Hlk Hcr How Hcpu Hoff] (H1 & H2 & H3)%test_and_set_inv.
  constructor; simpl; rewrite ?H2, ?H3; try done.
  intros j Hj. destruct (How j Hj) as (_ & ? & ?). auto.
Qed.

Lemma linv_swap_ok g i lk' :
  linv g -> g_pc g i = Spin -> test_and_set (g_lk g) = (false, lk') ->
  linv (mkg lk' (upd (g_pc g) i Got) (g_cpu g)).
Proof.
  intros [Hex Hlk Hcr How Hcpu Hoff] Hpc (H1 & H2 & H3)%test_and_set_inv.
  pose proof (Hlk H1) as Hn.
  assert (Hin : forall k, in_lock (upd (g_pc g) i Got k) = true -> k = i).
  { intros k Hk. upd_case; [done|]. specialize (Hn k). congruence. }
  constructor; simpl; rewrite ?H2, ?H3.
  - intros a b Ha Hb. by rewrite (Hin a Ha), (Hin b Hb).
  - done.
  - intros k Hk. upd_case; [done|]. auto.
  - intros k Hk. destruct (How k Hk) as (? & _). congruence.
  - done.
  - intros k Hk. upd_case; [|auto]. apply Hoff. by rewrite Hpc.
Qed.

Lemma linv_set_owner g i :
  linv g -> g_pc g i = Got ->
  linv (mkg (set_owner (g_lk g) i) (upd (g_pc g) i Crit) (g_cpu g)).
Proof.
  intros Hi Hpc. assert (in_lock (g_pc g i) = true) as Hin by by rewrite Hpc.
  pose proof (linv_locked g i Hi Hin) as Hlo.
  pose proof (linv_owner_none g i Hi Hin ltac:(congruence)) as Hno.
  destruct Hi as [Hex Hlk Hcr How Hcpu Hoff].
  assert (Hin' : forall k, in_lock (upd (g_pc g) i Crit k) = true -> k = i).
  { intros k Hk. upd_case; auto. }
  constructor; simpl.
  - intros a b Ha Hb. by rewrite (Hin' a Ha), (Hin' b Hb).
  - congruence.
  - intros k Hk. f_equal. symmetry. apply Hin'. by rewrite Hk.
  - intros j [= <-]. split; [done|]. split; [|left; by rewrite upd_eq].
    intros k Hk%Hin'. by rewrite Hk, upd_eq.
  - done.
  - intros k Hk. upd_case; [|auto]. apply Hoff. by rewrite Hpc.
Qed.

Lemma linv_release g i lk' :
  linv g -> g_pc g i = Crit -> release_enter (g_lk g) i = Ok tt lk' ->
  linv (mkg lk' (upd (g_pc g) i Rel) (g_cpu g)).
Proof.
  intros [Hex Hlk Hcr How Hcpu Hoff] Hpc (H1 & H2 & H3 & H4)%release_enter_inv.
  assert (Hin : forall k, in_lock (upd (g_pc g) i Rel k) = true -> k = i).
  { intros k Hk. upd_case; [done|]. apply Hex; [done|by rewrite Hpc]. }
  constructor; simpl; rewrite ?H3, ?H4; try done.
  - intros a b Ha Hb. by rewrite (Hin a Ha), (Hin b Hb).
  - intros k Hk. assert (k = i) as -> by (apply Hin; by rewrite Hk).
    by rewrite upd_eq in Hk.
  - intros k Hk. upd_case; [|auto]. apply Hoff. by rewrite Hpc.
Qed.

Lemma linv_unlock g i p c' :
  linv g -> g_pc g i = Rel -> (p = Idle \/ exists m, p = Dead m) -> cpu_ok c' ->
  linv (mkg (lock_release (g_lk g)) (upd (g_pc g) i p) (upd (g_cpu g) i c')).
Proof.
  intros Hi Hpc Hp Hc. assert (in_lock (g_pc g i) = true) as Hin by by rewrite Hpc.
  pose proof (linv_owner_none g i Hi Hin ltac:(congruence)) as Hno.
  destruct Hi as [Hex Hlk Hcr How Hcpu Hoff].
  assert (in_lock p = false /\ in_off p = false /\ p <> Crit) as (Hp1 & Hp2 & Hp3)
    by (destruct Hp as [->|[? ->]]; done).
  assert (Hout : forall k, in_lock (upd (g_pc g) i p k) = false).
  { intros k. upd_case; [done|]. destruct (in_lock (g_pc g k)) eqn:E; [|done].
    by specialize (Hex k i E Hin). }
  constructor; simpl.
  - intros a b Ha. by rewrite Hout in Ha.
  - done.
  - intros k Hk. specialize (Hout k). by rewrite Hk in Hout.
  - congruence.
  - intros k. upd_case; auto.
  - intros k Hk. upd_case; first [congruence|by auto].
Qed.

Lemma upd_same {A} (f : nat -> A) i : forall j, upd f i (f i) j = f j.
Proof. intros. unfold upd. by case_decide; subst. Qed.

(** The invariant does not depend on how the CPU table is written. *)
Lemma linv_ext lk pc1 c1 c2 :
  (forall j, c1 j = c2 j) -> linv (mkg lk pc1 c1) -> linv (mkg lk pc1 c2).
Proof.
  intros He [Hex Hlk Hcr How Hcpu Hoff]. simpl in *.
  constructor; simpl; auto; intros; rewrite <-He; auto.
Qed.

Lemma linv_step g g' : linv g -> lock_step g g' -> linv g'.
Proof.
  intros Hi Hs. pose proof (li_cpu g Hi) as Hcpu.
  inversion Hs as [? i c' Hpc Ha|? i m Hpc Ha|? i lk' Hpc Ha|? i lk' Hpc Ha|? i Hpc
    |? i lk' Hpc Ha|? i m Hpc Ha|? i c' Hpc Ha|? i m Hpc Ha]; subst.
  - apply acquire_enter_inv in Ha as ->. destruct (push_off_ok _ (Hcpu i)).
    apply linv_outside; auto. right. rewrite Hpc. naive_solver.
  - eapply linv_ext; [apply (upd_same (g_cpu g) i)|].
    apply linv_outside; eauto; done.
  - by eapply linv_swap_fail.
  - by eapply linv_swap_ok.
  - by apply linv_set_owner.
  - by eapply linv_release.
  - eapply linv_ext; [apply (upd_same (g_cpu g) i)|].
    apply linv_outside; eauto; done.
  - apply linv_unlock; eauto using pop_off_ok.
  - eapply linv_ext; [apply (upd_same (g_cpu g) i)|].
    apply linv_unlock; eauto.
Qed.

Lemma linv_init cpus : (forall i, cpu_ok (cpus i)) -> linv (init_state cpus).
Proof. intros H. constructor; simpl; try done. Qed.

Lemma linv_reach cpus g :
  (forall i, cpu_ok (cpus i)) -> star lock_step (init_state cpus) g -> linv g.
Proof.
  intros H Hs. eapply star_invariant; [apply linv_step| |exact Hs].
  by apply linv_init.
Qed.


Definition wit_cpus (_ : nat) : cpu := mkcpu 0 false true.


End Spinlock.

(** ** Sleep locks *)
Module Sleeplock.

(** [struct sleeplock]; the inner spin lock makes each operation atomic. *)
Record sleeplock := mksl { locked : bool; pid : Z }.

Definition initsleeplock : sleeplock := mksl false 0.

(** [me] is the pid of [myproc()], [None] when there is no process.  [None] as
    result: the caller sleeps on the lock. *)
Definition acquiresleep (me : option Z) (lk : sleeplock) : option sleeplock :=
  if locked lk then None
  else Some (mksl true (match me with None => -1 | Some p => p end)).

Definition releasesleep (lk : sleeplock) : sleeplock := mksl false 0.

(** With no process and a lock not taken by the boot CPU, [myproc()->pid] is a
    null dereference: no result. *)
Definition holdingsleep (me : option Z) (cpuid : Z) (lk : sleeplock) : option bool :=
  if pid lk =? -1 then Some (locked lk && (cpuid =? 0))
  else if locked lk then
    match me with Some p => Some (pid lk =? p) | None => None end
  else Some false.

(** A process that just acquired the lock holds it, no other process does, and
    others sleep until it is released. *)
Lemma acquiresleep_holding p q cpu lk lk' :
  p <> -1 -> acquiresleep (Some p) lk = Some lk' ->
  holdingsleep (Some p) cpu lk' = Some true /\
  (q <> p -> holdingsleep (Some q) cpu lk' = Some false) /\
  acquiresleep (Some q) lk' = None /\
  acquiresleep (Some q) (releasesleep lk') = Some (mksl true q).
Proof.
  unfold acquiresleep, holdingsleep, releasesleep.
  destruct (locked lk); [done|]. intros Hp [= <-]. simpl.
  destruct (Z.eqb_spec p (-1)); [done|]. rewrite Z.eqb_refl.
  split_and!; try done. intros. f_equal. by apply Z.eqb_neq.
Qed.
End Sleeplock.
