(* ===== verification/BlockCache.v ===== *)
(** What the buffer cache promises to the log.

    [acache] is the abstract state of a cache over one disk: the durable
    contents, the contents that [bread] shows, and the referenced buffers
    with their reference counts.  [BlockCache] is the set of operations of
    kernel/fs/bio.c as the log uses them and [BlockCacheLaws] states that they
    behave as the abstract operations; Bio.v proves it of the cache of the
    kernel and Log.v uses nothing else. *)

From S2P Require Import Prelude.

Section acache.
Context {H : Type}.

(** A referenced buffer: its handle, its reference count (32 bits, it wraps),
    whether its sleep lock is held by the running process. *)
Record aref := mkref { r_h : H; r_cnt : Z; r_held : bool }.

(** [a_trace] is the sequence of block writes the disk has received since the
    start, oldest first. *)
Record acache := mkcache {
  a_disk : Z -> bytes;
  a_view : Z -> bytes;
  a_refs : gmap Z aref;
  a_trace : list (Z * bytes) }.

Definition set_refs (f : gmap Z aref -> gmap Z aref) (a : acache) : acache :=
  mkcache (a_disk a) (a_view a) (f (a_refs a)) (a_trace a).

Definition cnt_of (o : option aref) : Z :=
  match o with Some r => r_cnt r | None => 0 end.

Definition a_bread (b : Z) (h : H) (a : acache) : acache :=
  set_refs (fun m => <[b := mkref h (u32 (cnt_of (m !! b) + 1)) true]> m) a.

Definition a_store (b : Z) (v : bytes) (a : acache) : acache :=
  mkcache (a_disk a) (fupd (a_view a) b v) (a_refs a) (a_trace a).

Definition a_bwrite (b : Z) (a : acache) : acache :=
  mkcache (fupd (a_disk a) b (a_view a b)) (a_view a) (a_refs a)
    (a_trace a ++ [(b, a_view a b)]).

Definition a_brelse (b : Z) (r : aref) (a : acache) : acache :=
  set_refs (fun m => if u32 (r_cnt r - 1) =? 0 then delete b m
                     else <[b := mkref (r_h r) (u32 (r_cnt r - 1)) false]> m) a.

Definition a_bpin (b : Z) (r : aref) (a : acache) : acache :=
  set_refs (<[b := mkref (r_h r) (u32 (r_cnt r + 1)) (r_held r)]>) a.

Definition a_bunpin (b : Z) (r : aref) (a : acache) : acache :=
  set_refs (<[b := mkref (r_h r) (u32 (r_cnt r - 1)) (r_held r)]>) a.

(** A buffer can be had for [b]: no referenced buffer looks unused, and [b] is
    referenced and free to lock, or not every buffer is referenced. *)
Definition can_bread (nbuf : nat) (b : Z) (a : acache) : Prop :=
  (forall b' r, a_refs a !! b' = Some r -> r_cnt r <> 0) /\
  match a_refs a !! b with
  | Some r => r_held r = false
  | None => (size (a_refs a) < nbuf)%nat
  end.

End acache.
Arguments aref : clear implicits.
Arguments acache : clear implicits.

(** The contents of the disk after a sequence of block writes. *)
Definition apply_writes (ws : list (Z * bytes)) (d : Z -> bytes) : Z -> bytes :=
  fold_left (fun d w => fupd d w.1 w.2) ws d.

Lemma apply_writes_app ws1 ws2 d :
  apply_writes (ws1 ++ ws2) d = apply_writes ws2 (apply_writes ws1 d).
Proof. apply fold_left_app. Qed.

Lemma apply_writes_eq ws d e b : d b = e b -> apply_writes ws d b = apply_writes ws e b.
Proof.
  revert d e. induction ws as [|[c v] ws IH]; intros d e Hb; [done|].
  apply IH. simpl. unfold fupd. by destruct (b =? c).
Qed.

Lemma apply_writes_notin ws d b :
  b ∉ ws.*1 -> apply_writes ws d b = d b.
Proof.
  revert d. induction ws as [|[c v] ws IH]; intros d Hb; [done|].
  rewrite fmap_cons, not_elem_of_cons in Hb. destruct Hb as [H1 H2]. simpl in *.
  change (apply_writes ws (fupd d c v) b = d b). rewrite IH by done.
  by apply fupd_ne.
Qed.

(** Operations: [bread], access to the data of a held buffer, [bwrite],
    [brelse], [bpin], [bunpin]. *)
Class BlockCache (S H : Type) := {
  bc_bread : Z -> M S H;
  bc_data : H -> M S bytes;
  bc_store : H -> bytes -> M S unit;
  bc_bwrite : H -> M S unit;
  bc_brelse : H -> M S unit;
  bc_bpin : H -> M S unit;
  bc_bunpin : H -> M S unit }.

Class BlockCacheLaws (S H : Type) `{!BlockCache S H} (nbuf : nat) := {
  bc_rel : S -> acache H -> Prop;
  bc_bread_ok s a b :
    bc_rel s a -> 0 <= b < 2 ^ 32 -> can_bread nbuf b a ->
    exists h s', bc_bread b s = Ok h s' /\ bc_rel s' (a_bread b h a) /\
      (forall r, a_refs a !! b = Some r -> h = r_h r);
  bc_data_ok s a b r :
    bc_rel s a -> a_refs a !! b = Some r ->
    bc_data (r_h r) s = Ok (a_view a b) s;
  bc_store_ok s a b r v :
    bc_rel s a -> a_refs a !! b = Some r -> r_held r = true ->
    exists s', bc_store (r_h r) v s = Ok tt s' /\ bc_rel s' (a_store b v a);
  bc_bwrite_ok s a b r :
    bc_rel s a -> a_refs a !! b = Some r -> r_held r = true ->
    exists s', bc_bwrite (r_h r) s = Ok tt s' /\ bc_rel s' (a_bwrite b a);
  bc_brelse_ok s a b r :
    bc_rel s a -> a_refs a !! b = Some r -> r_held r = true ->
    (r_cnt r = 1 -> a_view a b = a_disk a b) ->
    exists s', bc_brelse (r_h r) s = Ok tt s' /\ bc_rel s' (a_brelse b r a);
  bc_bpin_ok s a b r :
    bc_rel s a -> a_refs a !! b = Some r -> r_held r = true ->
    exists s', bc_bpin (r_h r) s = Ok tt s' /\ bc_rel s' (a_bpin b r a);
  bc_bunpin_ok s a b r :
    bc_rel s a -> a_refs a !! b = Some r -> r_held r = true ->
    exists s', bc_bunpin (r_h r) s = Ok tt s' /\ bc_rel s' (a_bunpin b r a) }.
