(* ===== verification/Bio.v ===== *)
(** The buffer cache (kernel/fs/bio.c).

    A fixed array of [NBUF] buffers and the list that orders them from the
    most to the least recently released.  A buffer caches one block of one
    device; its contents may differ from the disk only while it is referenced.
    The disk is the device under virtio_disk_rw: a synchronous store of blocks
    that also keeps the sequence of the writes it received. *)

From S2P Require Import Prelude Lock BlockCache.
Import Sleeplock.

Definition NBUF : nat := 30.
Definition BSIZE : nat := 1024.

(** [struct buf]; [prev] and [next] are the list [order] of the cache. *)
Record buf := mkbuf {
  valid : bool;
  dev : Z;
  blockno : Z;
  lock : sleeplock;
  refcnt : Z;
  data : bytes }.

(** The cache [bcache], the running process, and the disk. *)
Record bcache := mkbcache {
  bufs : list buf;
  order : list nat;
  me : option Z;
  cpuid : Z;
  disk : Z -> bytes;
  trace : list (Z * bytes) }.

Definition set_bufs (l : list buf) (s : bcache) : bcache :=
  mkbcache l (order s) (me s) (cpuid s) (disk s) (trace s).
Definition set_order (l : list nat) (s : bcache) : bcache :=
  mkbcache (bufs s) l (me s) (cpuid s) (disk s) (trace s).

(** Access to buffer [i] of the array. *)
Definition get_buf (i : nat) : M bcache buf := fun s =>
  match bufs s !! i with Some b => Ok b s | None => Undef end.
Definition set_buf (i : nat) (b : buf) : M bcache unit := fun s =>
  Ok tt (set_bufs (<[i := b]> (bufs s)) s).

(** Each buffer is linked in at the head of the list, in array order. *)
Definition binit (s : bcache) : bcache :=
  fold_left (fun s i =>
    let b := default (mkbuf false 0 0 initsleeplock 0 []) (bufs s !! i) in
    let b' := mkbuf (valid b) (dev b) (blockno b) initsleeplock (refcnt b) (data b) in
    set_order (i :: order s) (set_bufs (<[i := b']> (bufs s)) s))
    (seq 0 NBUF) (set_order [] s).

(** [acquiresleep] on the lock of buffer [i]. *)
Definition buf_acquiresleep (i : nat) : M bcache unit :=
  b ← get_buf i;
  s ← get;
  match acquiresleep (me s) (lock b) with
  | None => block
  | Some lk => set_buf i (mkbuf (valid b) (dev b) (blockno b) lk (refcnt b) (data b))
  end.

(** The two scans of [bget]: by block from the most recently used on, and for
    an unused buffer from the least recently used on. *)
Fixpoint find_cached (bs : list buf) (l : list nat) (d bno : Z) : option nat :=
  match l with
  | [] => None
  | i :: l' =>
      match bs !! i with
      | Some b => if (dev b =? d) && (blockno b =? bno) then Some i
                  else find_cached bs l' d bno
      | None => find_cached bs l' d bno
      end
  end.

Fixpoint find_unused (bs : list buf) (l : list nat) : option nat :=
  match l with
  | [] => None
  | i :: l' =>
      match bs !! i with
      | Some b => if refcnt b =? 0 then Some i else find_unused bs l'
      | None => find_unused bs l'
      end
  end.

Definition bget (d bno : Z) : M bcache nat :=
  s ← get;
  match find_cached (bufs s) (order s) d bno with
  | Some i =>
      b ← get_buf i;
      set_buf i (mkbuf (valid b) (dev b) (blockno b) (lock b) (u32 (refcnt b + 1)) (data b));;
      buf_acquiresleep i;;
      ret i
  | None =>
      match find_unused (bufs s) (reverse (order s)) with
      | Some i =>
          b ← get_buf i;
          set_buf i (mkbuf false d bno (lock b) 1 (data b));;
          buf_acquiresleep i;;
          ret i
      | None => panic "bget: no buffers"
      end
  end.

(** The disk serves a read or a write of the block of buffer [i]. *)
Definition virtio_disk_rw (i : nat) (write : bool) : M bcache unit :=
  b ← get_buf i;
  s ← get;
  if write then
    put (mkbcache (bufs s) (order s) (me s) (cpuid s)
           (fupd (disk s) (blockno b) (data b)) (trace s ++ [(blockno b, data b)]))
  else
    set_buf i (mkbuf (valid b) (dev b) (blockno b) (lock b) (refcnt b) (disk s (blockno b))).

Definition bread (d bno : Z) : M bcache nat :=
  i ← bget d bno;
  b ← get_buf i;
  when (negb (valid b))
    (virtio_disk_rw i false;;
     b' ← get_buf i;
     set_buf i (mkbuf true (dev b') (blockno b') (lock b') (refcnt b') (data b')));;
  ret i.

(** [holdingsleep(&b->lock)]. *)
Definition buf_holding (i : nat) : M bcache bool :=
  b ← get_buf i;
  s ← get;
  match holdingsleep (me s) (cpuid s) (lock b) with
  | Some r => ret r
  | None => undef
  end.

Definition bwrite (i : nat) : M bcache unit :=
  h ← buf_holding i;
  if h then virtio_disk_rw i true else panic "bwrite".

(** A buffer nobody references any more moves to the head of the list. *)
Definition brelse (i : nat) : M bcache unit :=
  h ← buf_holding i;
  if negb h then panic "brelse"
  else
    b ← get_buf i;
    let n := u32 (refcnt b - 1) in
    set_buf i (mkbuf (valid b) (dev b) (blockno b) (releasesleep (lock b)) n (data b));;
    when (n =? 0) (modify (fun s => set_order (i :: filter (fun j => j <> i) (order s)) s)).

Definition bpin (i : nat) : M bcache unit :=
  b ← get_buf i;
  set_buf i (mkbuf (valid b) (dev b) (blockno b) (lock b) (u32 (refcnt b + 1)) (data b)).

Definition bunpin (i : nat) : M bcache unit :=
  b ← get_buf i;
  set_buf i (mkbuf (valid b) (dev b) (blockno b) (lock b) (u32 (refcnt b - 1)) (data b)).

(** A holder of a buffer reads and writes its data in place. *)
Definition buf_data (i : nat) : M bcache bytes := b ← get_buf i; ret (data b).
Definition buf_store (i : nat) (v : bytes) : M bcache unit :=
  b ← get_buf i;
  set_buf i (mkbuf (valid b) (dev b) (blockno b) (lock b) (refcnt b) v).

(** ** The cache implements the abstract cache *)

Section refinement.
(** The device of the file system and the running process. *)
Context (d p : Z) (Hp : p <> -1).

(** What is known of a buffer [i] holding [b]: the abstract cache has a
    reference to it, or it is unused and clean. *)
Definition buf_ref (a : acache nat) (i : nat) (b : buf) (r : aref nat) : Prop :=
  dev b = d /\ a_refs a !! blockno b = Some r /\ r_h r = i /\ valid b = true /\
  refcnt b = r_cnt r /\ 0 <= refcnt b < 2 ^ 32 /\ (r_cnt r = 0 -> r_held r = true) /\
  locked (lock b) = r_held r /\ (r_held r = true -> pid (lock b) = p) /\
  a_view a (blockno b) = data b.

Definition buf_ok (a : acache nat) (i : nat) (b : buf) : Prop :=
  (exists r, buf_ref a i b r) \/
  (refcnt b = 0 /\ locked (lock b) = false /\
   (dev b = d -> a_refs a !! blockno b = None /\
      (valid b = true -> data b = a_disk a (blockno b)))).

Record brel (s : bcache) (a : acache nat) : Prop := {
  br_len : length (bufs s) = NBUF;
  br_order : order s ≡ₚ seq 0 NBUF;
  br_me : me s = Some p;
  br_disk : a_disk a = disk s;
  br_trace : a_trace a = trace s;
  br_uniq i j bi bj : bufs s !! i = Some bi -> bufs s !! j = Some bj ->
    dev bi = d -> dev bj = d -> blockno bi = blockno bj -> i = j;
  br_bufs i b : bufs s !! i = Some b -> buf_ok a i b;
  br_refs bn r : a_refs a !! bn = Some r ->
    exists b, bufs s !! r_h r = Some b /\ dev b = d /\ blockno b = bn;
  br_clean bn : a_refs a !! bn = None -> a_view a bn = a_disk a bn }.

(** Changing one buffer, the abstract state of its block and nothing else. *)
Lemma brel_change s a s' a' i b0 b' :
  brel s a -> bufs s !! i = Some b0 -> bufs s' = <[i := b']> (bufs s) ->
  order s' ≡ₚ order s -> me s' = me s ->
  a_disk a' = disk s' -> a_trace a' = trace s' -> dev b' = d ->
  (forall bn, bn <> blockno b' -> a_refs a' !! bn = a_refs a !! bn) ->
  (forall bn, bn <> blockno b' -> a_view a' bn = a_view a bn) ->
  (forall bn, bn <> blockno b' -> a_disk a' bn = a_disk a bn) ->
  (forall j bj, j <> i -> bufs s !! j = Some bj -> dev bj = d -> blockno bj <> blockno b') ->
  (dev b0 = d -> blockno b0 <> blockno b' -> a_refs a !! blockno b0 = None) ->
  buf_ok a' i b' ->
  (forall r, a_refs a' !! blockno b' = Some r -> r_h r = i) ->
  (a_refs a' !! blockno b' = None -> a_view a' (blockno b') = a_disk a' (blockno b')) ->
  brel s' a'.
Proof.
  intros [Hlen Hord Hme Hdsk Htr Hun Hbu Hre Hcl] Hi Hb Ho Hm Hd Ht Hdev Hr Hv Hdd Huq Hold Hok Hnew Hclean.
  assert (i < length (bufs s))%nat as Hlt by by eapply lookup_lt_Some.
  assert (forall j bj, bufs s' !! j = Some bj ->
    j = i /\ bj = b' \/ j <> i /\ bufs s !! j = Some bj) as Hcase.
  { intros j bj. rewrite Hb. destruct (decide (j = i)) as [->|].
    - rewrite list_lookup_insert_eq by done. intros [= <-]. by left.
    - rewrite list_lookup_insert_ne by done. by right. }
  constructor; try congruence.
  - by rewrite Hb, length_insert.
  - by rewrite Ho.
  - intros j k bj bk [[-> ->]|[? Hj]]%Hcase [[-> ->]|[? Hk]]%Hcase D1 D2 E; [done| | |eauto].
    + exfalso. by eapply (Huq k).
    + exfalso. by eapply (Huq j).
  - intros j bj [[-> ->]|[Hne Hj]]%Hcase; [done|].
    destruct (Hbu j bj Hj) as [(r & D & Hx)|(H1 & H2 & H3)]; [left|right].
    + assert (blockno bj <> blockno b') by eauto.
      exists r. unfold buf_ref. by rewrite Hr, Hv by done.
    + split_and!; try done. intros D. rewrite Hr, Hdd by eauto. auto.
  - intros bn r Hbn. rewrite Hb. destruct (decide (bn = blockno b')) as [->|Hne].
    + rewrite (Hnew r Hbn). exists b'. by rewrite list_lookup_insert_eq.
    + rewrite Hr in Hbn by done. destruct (Hre bn r Hbn) as (b & ? & ? & ?).
      exists b. split_and!; try done. rewrite list_lookup_insert_ne; [done|].
      intros ->. assert (b0 = b) as -> by congruence. subst bn.
      rewrite Hold in Hbn by done. done.
  - intros bn Hbn. destruct (decide (bn = blockno b')) as [->|Hne]; [by apply Hclean|].
    rewrite Hv, Hdd by done. apply Hcl. by rewrite <-Hr.
Qed.

(** The buffer of a referenced block. *)
Lemma brel_ref s a bn r :
  brel s a -> a_refs a !! bn = Some r ->
  exists b, bufs s !! r_h r = Some b /\ blockno b = bn /\ buf_ref a (r_h r) b r.
Proof.
  intros Hrel Hr. destruct (br_refs s a Hrel bn r Hr) as (b & Hb & Hd & Hbn).
  exists b. split_and!; [done..|].
  destruct (br_bufs s a Hrel _ b Hb) as [(r' & Hx)|(_ & _ & Hx)].
  - assert (r' = r) as ->; [|done]. destruct Hx as (_ & Hx & _). congruence.
  - destruct (Hx Hd) as [Hx1 _]. congruence.
Qed.

Lemma brel_others s a i b :
  brel s a -> bufs s !! i = Some b -> dev b = d ->
  forall j bj, j <> i -> bufs s !! j = Some bj -> dev bj = d -> blockno bj <> blockno b.
Proof. intros Hrel Hb D j bj Hne Hj Dj E. apply Hne. by eapply br_uniq. Qed.

(** Same block, still referenced: the new buffer and reference agree. *)
Lemma brel_same s a s' a' bn r b b' r' :
  brel s a -> a_refs a !! bn = Some r -> bufs s !! r_h r = Some b -> blockno b = bn ->
  bufs s' = <[r_h r := b']> (bufs s) -> order s' ≡ₚ order s -> me s' = me s ->
  a_disk a' = disk s' -> a_trace a' = trace s' -> blockno b' = bn ->
  a_refs a' = <[bn := r']> (a_refs a) ->
  (forall x, x <> bn -> a_view a' x = a_view a x) ->
  (forall x, x <> bn -> a_disk a' x = a_disk a x) ->
  buf_ref a' (r_h r) b' r' ->
  brel s' a'.
Proof.
  intros Hrel Hr Hb Ebn Hb' Ho Hm Hd Ht E2 Hrefs Hv Hdd Hok.
  pose proof Hok as (Dev & Hr' & Hh' & _).
  destruct (brel_ref s a bn r Hrel Hr) as (b1 & Hb1 & Ebn1 & D & _).
  assert (b1 = b) as -> by congruence.
  eapply (brel_change s a s' a' (r_h r) b b'); rewrite ?E2; auto.
  - intros x Hx. rewrite Hrefs. by rewrite lookup_insert_ne by congruence.
  - rewrite <-Ebn. by eapply brel_others.
  - congruence.
  - left. eauto.
  - rewrite <-E2. congruence.
  - rewrite <-E2. congruence.
Qed.

Lemma get_buf_ok s i b : bufs s !! i = Some b -> get_buf i s = Ok b s.
Proof. intros H. unfold get_buf. by rewrite H. Qed.

Lemma get_set_buf s i b l :
  (i < length l)%nat -> get_buf i (set_bufs (<[i := b]> l) s) = Ok b (set_bufs (<[i := b]> l) s).
Proof. intros. apply get_buf_ok. by apply list_lookup_insert_eq. Qed.

(** The buffer of a referenced block and what is known of it. *)
Ltac open_ref Hrel Hr b :=
  let Hok := fresh "Hok" in
  destruct (brel_ref _ _ _ _ Hrel Hr) as (b & Hb & Ebn & Hok);
  pose proof Hok as (D & Hr' & Hh & V & C & C2 & C0 & L & P & Vw); clear Hok.

Lemma holding_ok s a bn r :
  brel s a -> a_refs a !! bn = Some r -> r_held r = true -> buf_holding (r_h r) s = Ok true s.
Proof.
  intros Hrel Hr Hheld. open_ref Hrel Hr b.
  unfold buf_holding. erewrite bind_ok by by apply get_buf_ok.
  erewrite bind_ok by done. rewrite (br_me s a Hrel). unfold holdingsleep.
  rewrite L, Hheld, P by done. destruct (Z.eqb_spec p (-1)); [done|]. by rewrite Z.eqb_refl.
Qed.

Lemma store_ok s a bn r v :
  brel s a -> a_refs a !! bn = Some r ->
  exists s', buf_store (r_h r) v s = Ok tt s' /\ brel s' (a_store bn v a).
Proof.
  intros Hrel Hr. open_ref Hrel Hr b.
  eexists. unfold buf_store. erewrite bind_ok by by apply get_buf_ok. split; [done|].
  eapply (brel_same s a _ _ bn r b (mkbuf (valid b) (dev b) (blockno b) (lock b) (refcnt b) v) r);
    simpl; auto.
  - by rewrite (br_disk s a Hrel).
  - by rewrite (br_trace s a Hrel).
  - by rewrite insert_id.
  - intros. by apply fupd_ne.
  - unfold buf_ref. simpl. rewrite Ebn, fupd_eq. auto 15.
Qed.

Lemma data_ok s a bn r :
  brel s a -> a_refs a !! bn = Some r -> buf_data (r_h r) s = Ok (a_view a bn) s.
Proof.
  intros Hrel Hr. open_ref Hrel Hr b.
  unfold buf_data. erewrite bind_ok by by apply get_buf_ok. by rewrite <-Ebn, Vw.
Qed.

Lemma bwrite_ok s a bn r :
  brel s a -> a_refs a !! bn = Some r -> r_held r = true ->
  exists s', bwrite (r_h r) s = Ok tt s' /\ brel s' (a_bwrite bn a).
Proof.
  intros Hrel Hr Hheld. open_ref Hrel Hr b.
  eexists. unfold bwrite. erewrite bind_ok by by eapply holding_ok. cbv beta iota.
  unfold virtio_disk_rw. erewrite bind_ok by by apply get_buf_ok.
  erewrite bind_ok by done. split; [done|]. rewrite Ebn in Vw.
  eapply (brel_same s a _ _ bn r b b r); simpl; auto.
  - by rewrite list_insert_id.
  - by rewrite (br_disk s a Hrel), Ebn, Vw.
  - by rewrite (br_trace s a Hrel), Ebn, Vw.
  - by rewrite insert_id.
  - intros. by apply fupd_ne.
  - unfold buf_ref. simpl. rewrite Ebn in *. auto 15.
Qed.

Lemma bpin_ok s a bn r :
  brel s a -> a_refs a !! bn = Some r -> r_held r = true ->
  exists s', bpin (r_h r) s = Ok tt s' /\ brel s' (a_bpin bn r a).
Proof.
  intros Hrel Hr Hheld. open_ref Hrel Hr b.
  eexists. unfold bpin. erewrite bind_ok by by apply get_buf_ok. split; [done|].
  eapply (brel_same s a _ _ bn r b
    (mkbuf (valid b) (dev b) (blockno b) (lock b) (u32 (refcnt b + 1)) (data b))
    (mkref (r_h r) (u32 (r_cnt r + 1)) (r_held r))); simpl; auto.
  - apply (br_disk s a Hrel).
  - apply (br_trace s a Hrel).
  - unfold buf_ref. simpl. rewrite Ebn, lookup_insert_eq, C. rewrite Ebn in Vw.
    pose proof (u32_range (r_cnt r + 1)). auto 15.
Qed.

Lemma bunpin_ok s a bn r :
  brel s a -> a_refs a !! bn = Some r -> r_held r = true ->
  exists s', bunpin (r_h r) s = Ok tt s' /\ brel s' (a_bunpin bn r a).
Proof.
  intros Hrel Hr Hheld. open_ref Hrel Hr b.
  eexists. unfold bunpin. erewrite bind_ok by by apply get_buf_ok. split; [done|].
  eapply (brel_same s a _ _ bn r b
    (mkbuf (valid b) (dev b) (blockno b) (lock b) (u32 (refcnt b - 1)) (data b))
    (mkref (r_h r) (u32 (r_cnt r - 1)) (r_held r))); simpl; auto.
  - apply (br_disk s a Hrel).
  - apply (br_trace s a Hrel).
  - unfold buf_ref. simpl. rewrite Ebn, lookup_insert_eq, C. rewrite Ebn in Vw.
    pose proof (u32_range (r_cnt r - 1)). auto 15.
Qed.

Lemma order_move i l n :
  l ≡ₚ seq 0 n -> i ∈ l -> i :: filter (fun j => j <> i) l ≡ₚ l.
Proof.
  intros Hl Hi. assert (NoDup l) as Hnd by (rewrite Hl; apply NoDup_seq).
  apply NoDup_Permutation; [|done|].
  - constructor; [|by apply NoDup_filter]. rewrite list_elem_of_filter. naive_solver.
  - intros x. rewrite elem_of_cons, list_elem_of_filter.
    destruct (decide (x = i)); naive_solver.
Qed.

Lemma in_order s a i b : brel s a -> bufs s !! i = Some b -> i ∈ order s.
Proof.
  intros Hrel Hb. rewrite (br_order s a Hrel). apply elem_of_seq.
  apply lookup_lt_Some in Hb. rewrite (br_len s a Hrel) in Hb. lia.
Qed.

Lemma u32_pred_zero c : 0 <= c < 2 ^ 32 -> u32 (c - 1) = 0 -> c = 1.
Proof. unfold u32, wrap. intros Hc H0. apply Z.mod_divide in H0 as [k Hk]; lia. Qed.

Lemma brelse_ok s a bn r :
  brel s a -> a_refs a !! bn = Some r -> r_held r = true ->
  (r_cnt r = 1 -> a_view a bn = a_disk a bn) ->
  exists s', brelse (r_h r) s = Ok tt s' /\ brel s' (a_brelse bn r a).
Proof.
  intros Hrel Hr Hheld Hclean. open_ref Hrel Hr b.
  unfold brelse. erewrite bind_ok by by eapply holding_ok. cbv beta iota delta [negb].
  erewrite bind_ok by by apply get_buf_ok. erewrite bind_ok by done.
  unfold a_brelse, when. rewrite <-C.
  set (b' := mkbuf (valid b) (dev b) (blockno b) (releasesleep (lock b)) (u32 (refcnt b - 1)) (data b)).
  destruct (Z.eqb_spec (u32 (refcnt b - 1)) 0) as [Hz|Hz].
  - eexists. split; [done|]. assert (r_cnt r = 1) as Hc1 by (rewrite <-C; by apply u32_pred_zero).
    eapply (brel_change s a _ _ (r_h r) b b'); simpl; rewrite ?Ebn; auto; try done.
    + eapply order_move; [by eapply br_order|by eapply in_order].
    + apply (br_disk s a Hrel).
    + apply (br_trace s a Hrel).
    + intros x Hx. by rewrite lookup_delete_ne by congruence.
    + rewrite <-Ebn. by eapply brel_others.
    + right. simpl. split_and!; try done. rewrite Ebn, lookup_delete_eq. intros _.
      split; [done|]. intros _. rewrite <-Vw, Ebn. auto.
    + intros r1. by rewrite lookup_delete_eq.
  - eexists. split; [done|].
    eapply (brel_same s a _ _ bn r b b' (mkref (r_h r) (u32 (refcnt b - 1)) false)); simpl; auto.
    + apply (br_disk s a Hrel).
    + apply (br_trace s a Hrel).
    + unfold buf_ref. simpl. rewrite Ebn, lookup_insert_eq. rewrite Ebn in Vw.
      pose proof (u32_range (refcnt b - 1)). split_and!; auto; first [lia|congruence].
Qed.

Lemma find_cached_Some bs l bn i :
  find_cached bs l d bn = Some i -> exists b, bs !! i = Some b /\ dev b = d /\ blockno b = bn.
Proof.
  induction l as [|j l IH]; simpl; [done|].
  destruct (bs !! j) as [b|] eqn:E; [|auto].
  destruct (Z.eqb_spec (dev b) d); simpl; [|auto].
  destruct (Z.eqb_spec (blockno b) bn); simpl; [|auto].
  intros [= <-]. eauto.
Qed.

Lemma find_cached_None bs l bn j b :
  find_cached bs l d bn = None -> j ∈ l -> bs !! j = Some b -> dev b = d -> blockno b <> bn.
Proof.
  induction l as [|k l IH]; simpl; intros Hf Hj; [by apply elem_of_nil in Hj|].
  apply elem_of_cons in Hj as [<-|Hj].
  - intros Hb D E. rewrite Hb, D, E, !Z.eqb_refl in Hf. done.
  - apply IH; [|done]. destruct (bs !! k); [|done]. by destruct (_ && _).
Qed.

Lemma find_unused_Some bs l i :
  find_unused bs l = Some i -> exists b, bs !! i = Some b /\ refcnt b = 0.
Proof.
  induction l as [|j l IH]; simpl; [done|].
  destruct (bs !! j) as [b|] eqn:E; [|auto].
  destruct (Z.eqb_spec (refcnt b) 0); [|auto]. intros [= <-]. eauto.
Qed.

Lemma find_unused_None bs l j b :
  find_unused bs l = None -> j ∈ l -> bs !! j = Some b -> refcnt b <> 0.
Proof.
  induction l as [|k l IH]; simpl; intros Hf Hj; [by apply elem_of_nil in Hj|].
  apply elem_of_cons in Hj as [<-|Hj].
  - intros Hb E. rewrite Hb, E in Hf. done.
  - apply IH; [|done]. destruct (bs !! k); [|done]. by destruct (_ =? _).
Qed.

Lemma buf_acquire_ok s i b :
  bufs s !! i = Some b -> me s = Some p -> locked (lock b) = false ->
  buf_acquiresleep i s =
    Ok tt (set_bufs (<[i := mkbuf (valid b) (dev b) (blockno b) (mksl true p) (refcnt b) (data b)]> (bufs s)) s).
Proof.
  intros Hb Hm Hl. unfold buf_acquiresleep. erewrite bind_ok by by apply get_buf_ok.
  erewrite bind_ok by done. unfold acquiresleep. by rewrite Hl, Hm.
Qed.

(** Some buffer is unused while fewer than [NBUF] blocks are referenced. *)
Lemma unused_exists s a :
  brel s a -> (size (a_refs a) < NBUF)%nat ->
  exists i b, find_unused (bufs s) (reverse (order s)) = Some i /\
    bufs s !! i = Some b /\ refcnt b = 0.
Proof.
  intros Hrel Hsz. destruct (find_unused _ _) as [i|] eqn:E.
  { destruct (find_unused_Some _ _ _ E) as (b & ? & ?). eauto. }
  exfalso.
  assert (forall i b, bufs s !! i = Some b -> dev b = d /\ is_Some (a_refs a !! blockno b)) as Hin.
  { intros i b Hb. assert (refcnt b <> 0) as Hnz.
    { eapply find_unused_None; [exact E| |done]. apply elem_of_reverse. by eapply in_order. }
    destruct (br_bufs s a Hrel i b Hb) as [(r & ? & ? & _)|[? _]]; [eauto|done]. }
  assert (NoDup (blockno <$> bufs s)) as Hnd.
  { apply NoDup_alt. intros i j x Hi Hj. rewrite list_lookup_fmap in Hi, Hj.
    apply fmap_Some in Hi as (bi & Hi & ->). apply fmap_Some in Hj as (bj & Hj & Ej).
    eapply (br_uniq s a Hrel i j bi bj); try done; by eapply Hin. }
  assert (list_to_set (blockno <$> bufs s) ⊆ dom (a_refs a)) as Hsub.
  { intros x Hx. apply elem_of_list_to_set, list_elem_of_fmap in Hx as (b & -> & Hb).
    apply list_elem_of_lookup in Hb as [i Hb]. apply elem_of_dom. by eapply Hin. }
  apply subseteq_size in Hsub. rewrite size_list_to_set in Hsub by done.
  rewrite length_fmap, (br_len s a Hrel), size_dom in Hsub. lia.
Qed.

(** Filling a buffer whose block is not valid leaves the block of the disk. *)
Definition filled (s : bcache) (b : buf) : bytes :=
  if valid b then data b else disk s (blockno b).

(** A cached buffer of a block that can be had. *)
Lemma cached_ok s a bn i b :
  brel s a -> can_bread NBUF bn a -> bufs s !! i = Some b -> dev b = d -> blockno b = bn ->
  locked (lock b) = false /\ refcnt b = cnt_of (a_refs a !! bn) /\
  (valid b = true -> data b = a_view a bn) /\
  (forall r, a_refs a !! bn = Some r -> i = r_h r /\ valid b = true).
Proof.
  intros Hrel [_ Hcan] Hb D Ebn.
  destruct (br_bufs s a Hrel i b Hb) as [(r & _ & Hr & Hh & V & C & _ & _ & L & _ & Vw)|(C & L & Hx)];
    rewrite Ebn in *.
  - rewrite Hr in *. rewrite L. split_and!; try done. intros r' [= <-]. done.
  - destruct (Hx D) as [Hr Hd]. rewrite Hr in *. split_and!; try done.
    intros V. rewrite (br_clean s a Hrel bn Hr). auto.
Qed.

(** The buffer chosen for recycling: nobody refers to it. *)
Lemma unused_ok s a i b :
  brel s a -> (forall bn r, a_refs a !! bn = Some r -> r_cnt r <> 0) ->
  bufs s !! i = Some b -> refcnt b = 0 ->
  locked (lock b) = false /\ (dev b = d -> a_refs a !! blockno b = None).
Proof.
  intros Hrel Hnz Hb Hz.
  destruct (br_bufs s a Hrel i b Hb) as [(r & _ & Hr & _ & _ & C & _)|(_ & L & Hx)].
  - exfalso. apply (Hnz _ _ Hr). congruence.
  - split; [done|]. intros D. by apply Hx.
Qed.

Lemma bget_ok s a bn :
  brel s a -> can_bread NBUF bn a ->
  exists i b0 b1, bget d bn s = Ok i (set_bufs (<[i := b1]> (bufs s)) s) /\
    bufs s !! i = Some b0 /\ dev b1 = d /\ blockno b1 = bn /\ lock b1 = mksl true p /\
    refcnt b1 = u32 (cnt_of (a_refs a !! bn) + 1) /\
    (valid b1 = true -> data b1 = a_view a bn) /\
    (forall r, a_refs a !! bn = Some r -> i = r_h r /\ valid b1 = true) /\
    (forall j bj, j <> i -> bufs s !! j = Some bj -> dev bj = d -> blockno bj <> bn) /\
    (dev b0 = d -> blockno b0 <> bn -> a_refs a !! blockno b0 = None).
Proof.
  intros Hrel Hcan. unfold bget. erewrite bind_ok by done.
  destruct (find_cached (bufs s) (order s) d bn) as [i|] eqn:E.
  - destruct (find_cached_Some _ _ _ _ E) as (b & Hb & D & Ebn).
    assert (i < length (bufs s))%nat as Hlt by by eapply lookup_lt_Some.
    destruct (cached_ok s a bn i b Hrel Hcan Hb D Ebn) as (Hl & Hc & Hv & Hh).
    eexists i, b, _. erewrite bind_ok by by apply get_buf_ok. erewrite bind_ok by done.
    erewrite bind_ok.
    2:{ apply buf_acquire_ok; [by apply list_lookup_insert_eq|by apply br_me in Hrel|done]. }
    simpl. rewrite list_insert_insert_eq. split; [done|]. simpl.
    split_and!; try done; [by rewrite Hc|]. rewrite <-Ebn. by eapply brel_others.
  - assert (a_refs a !! bn = None) as Er.
    { destruct (a_refs a !! bn) as [r|] eqn:Er; [|done]. exfalso.
      destruct (brel_ref s a bn r Hrel Er) as (b' & Hb' & Ebn' & D' & _).
      eapply find_cached_None; [exact E|by eapply in_order|done|done|done]. }
    destruct Hcan as [Hnz Hcan]. rewrite Er in Hcan.
    destruct (unused_exists s a Hrel Hcan) as (i & b & Hf & Hb & Hz). rewrite Hf.
    assert (i < length (bufs s))%nat as Hlt by by eapply lookup_lt_Some.
    destruct (unused_ok s a i b Hrel Hnz Hb Hz) as [Hl Hn].
    eexists i, b, _. erewrite bind_ok by by apply get_buf_ok. erewrite bind_ok by done.
    erewrite bind_ok.
    2:{ apply buf_acquire_ok; [by apply list_lookup_insert_eq|by apply br_me in Hrel|done]. }
    simpl. rewrite list_insert_insert_eq. split; [done|]. simpl.
    rewrite Er. split_and!; try done; [|auto].
    intros j bj _ Hj Dj. eapply find_cached_None; [exact E|by eapply in_order|done|done].
Qed.

Lemma bread_ok s a bn :
  brel s a -> can_bread NBUF bn a ->
  exists h s', bread d bn s = Ok h s' /\ brel s' (a_bread bn h a) /\
    (forall r, a_refs a !! bn = Some r -> h = r_h r).
Proof.
  intros Hrel Hcan.
  destruct (bget_ok s a bn Hrel Hcan) as
    (i & b0 & b1 & Hg & Hb0 & D & Ebn & Hl & Hc & Hv & Hh & Huq & Hold).
  assert (i < length (bufs s))%nat as Hlt by by eapply lookup_lt_Some.
  set (b2 := mkbuf true d bn (mksl true p) (refcnt b1) (a_view a bn)).
  assert (bread d bn s = Ok i (set_bufs (<[i := b2]> (bufs s)) s)) as Hbr.
  { unfold bread. erewrite bind_ok by exact Hg.
    erewrite bind_ok by (apply get_buf_ok; simpl; by apply list_lookup_insert_eq).
    unfold when. destruct (valid b1) eqn:V; simpl.
    - erewrite bind_ok by done. unfold ret. do 4 f_equal. subst b2.
      destruct b1; simpl in *. rewrite <-(Hv eq_refl). congruence.
    - assert (a_view a bn = disk s bn) as Hclean.
      { rewrite <-(br_disk s a Hrel). apply (br_clean s a Hrel).
        destruct (a_refs a !! bn) eqn:Er; [|done]. by destruct (Hh _ eq_refl). }
      unfold virtio_disk_rw, bind, get, set_buf.
      rewrite get_set_buf by done. cbn [set_bufs disk bufs].
      change (mkbcache ?l (order s) (me s) (cpuid s) (disk s) (trace s)) with (set_bufs l s).
      rewrite get_set_buf by by rewrite length_insert.
      unfold set_bufs. simpl. rewrite !list_insert_insert_eq. unfold ret. subst b2.
      by rewrite D, Ebn, Hl, Hclean. }
  exists i, (set_bufs (<[i := b2]> (bufs s)) s). split; [exact Hbr|].
  split; [|by intros r Hr; destruct (Hh r Hr)].
  eapply (brel_change s a _ _ i b0 b2); simpl; auto.
  - apply (br_disk s a Hrel).
  - apply (br_trace s a Hrel).
  - intros x Hx. by rewrite lookup_insert_ne by congruence.
  - left. eexists. unfold buf_ref. simpl. rewrite lookup_insert_eq.
    pose proof (u32_range (cnt_of (a_refs a !! bn) + 1)). rewrite Hc.
    split_and!; try done; lia.
  - intros r. rewrite lookup_insert_eq. by intros [= <-].
  - by rewrite lookup_insert_eq.
Qed.
End refinement.

#[export] Instance bio_ops : BlockCache bcache nat := {
  bc_bread := bread 1;
  bc_data := buf_data;
  bc_store := buf_store;
  bc_bwrite := bwrite;
  bc_brelse := brelse;
  bc_bpin := bpin;
  bc_bunpin := bunpin }.

(** The cache of the kernel keeps the promise, for the file system's device and
    a running process [p]. *)
#[export] Instance bio_laws (p : Z) (Hp : p <> -1) : BlockCacheLaws bcache nat NBUF := {
  bc_rel := brel 1 p;
  bc_bread_ok s a b Hr _ Hc := bread_ok 1 p s a b Hr Hc;
  bc_data_ok := data_ok 1 p;
  bc_store_ok s a b r v H1 H2 _ := store_ok 1 p s a b r v H1 H2;
  bc_bwrite_ok := bwrite_ok 1 p Hp;
  bc_brelse_ok := brelse_ok 1 p Hp;
  bc_bpin_ok := bpin_ok 1 p;
  bc_bunpin_ok := bunpin_ok 1 p }.

(** The memory of the kernel is zero when it starts. *)
Definition zero_buf : buf := mkbuf false 0 0 (mksl false 0) 0 (replicate BSIZE 0).
Definition boot_cache (p : Z) (dsk : Z -> bytes) : bcache :=
  mkbcache (replicate NBUF zero_buf) [] (Some p) 0 dsk [].

Definition empty_acache (dsk : Z -> bytes) : acache nat := mkcache dsk dsk ∅ [].

(** Linking in the buffers one by one: the array is unchanged up to the locks
    and the list is the reverse of the array order. *)
Lemma binit_boot p dsk :
  binit (boot_cache p dsk) =
    mkbcache (replicate NBUF zero_buf) (reverse (seq 0 NBUF)) (Some p) 0 dsk [].
Proof. reflexivity. Qed.

Lemma boot_rel p dsk : brel 1 p (binit (boot_cache p dsk)) (empty_acache dsk).
Proof.
  rewrite binit_boot. constructor; try done.
  - apply reverse_Permutation.
  - intros i j bi bj Hi _ Hd. apply lookup_replicate in Hi as [-> _]. done.
  - intros i b Hb. apply lookup_replicate in Hb as [-> _]. by right.
Qed.

Lemma empty_can_bread dsk b : can_bread NBUF b (empty_acache dsk).
Proof.
  split; simpl.
  - intros b' r Hr. by rewrite lookup_empty in Hr.
  - rewrite lookup_empty, map_size_empty. unfold NBUF. lia.
Qed.

(** C20: in every state of the cache that represents an abstract cache [a],
    [bread] of a block that can be had returns a buffer that is locked by the
    caller and whose data is the current contents of the block ([a_view a bn]:
    the last stored contents, or the disk's), and the state reached represents
    [a] with one more reference to the block; no disk write happens and the
    contents of no block change. *)
Theorem bread_refines p s a bn :
  p <> -1 -> brel 1 p s a -> can_bread NBUF bn a ->
  exists i s', bread 1 bn s = Ok i s' /\ brel 1 p s' (a_bread bn i a) /\
    buf_data i s' = Ok (a_view a bn) s' /\ buf_holding i s' = Ok true s' /\
    trace s' = trace s /\ disk s' = disk s.
Proof.
  intros Hp Hrel Hcan. destruct (bread_ok 1 p s a bn Hrel Hcan) as (i & s' & Hb & Hrel' & _).
  exists i, s'. split; [done|]. split; [done|].
  assert (a_refs (a_bread bn i a) !! bn = Some (mkref i (u32 (cnt_of (a_refs a !! bn) + 1)) true)) as Hr.
  { simpl. by rewrite lookup_insert_eq. }
  split_and!.
  - apply (data_ok 1 p s' _ bn _ Hrel' Hr).
  - apply (holding_ok 1 p Hp s' _ bn _ Hrel' Hr eq_refl).
  - by rewrite <-(br_trace 1 p _ _ Hrel), <-(br_trace 1 p _ _ Hrel').
  - by rewrite <-(br_disk 1 p _ _ Hrel), <-(br_disk 1 p _ _ Hrel').
Qed.

Definition wit_disk (b : Z) : bytes := replicate 4 (b mod 256).

Lemma bread_refines_witness :
  exists i s', bread 1 7 (binit (boot_cache 3 wit_disk)) = Ok i s' /\
    buf_data i s' = Ok [7; 7; 7; 7] s'.
Proof.
  destruct (bread_refines 3 (binit (boot_cache 3 wit_disk)) (empty_acache wit_disk) 7)
    as (i & s' & H1 & _ & H2 & _); [lia|apply boot_rel|apply empty_can_bread|].
  exists i, s'. by split.
Defined.
