(* ===== verification/Log.v ===== *)
(** The write-ahead log (kernel/fs/log.c).

    Everything here is written against the interface of the buffer cache
    ([BlockCache]) and proved from its laws.  A transaction updates blocks in
    the cache and records their numbers ([log_write]); [commit] copies them to
    the log area, writes the header (the commit point), installs them at home
    and clears the header; [recover_from_log] replays a committed header after
    a crash.  A crash keeps a prefix of the block writes the disk received. *)

From S2P Require Import Prelude BlockCache.

Definition MAXOPBLOCKS : Z := 10.
Definition LOGSIZE : Z := 30.

(** [struct log] with its [struct logheader]; [wakeups] counts the calls of
    [wakeup(&log)]. *)
Record log := mklog {
  start : Z;
  lsize : Z;
  outstanding : Z;
  committing : bool;
  ldev : Z;
  lh_n : Z;
  lh_block : list Z;
  wakeups : Z }.

Definition set_lh (n : Z) (bl : list Z) (l : log) : log :=
  mklog (start l) (lsize l) (outstanding l) (committing l) (ldev l) n bl (wakeups l).
Definition set_ops (o : Z) (c : bool) (l : log) : log :=
  mklog (start l) (lsize l) o c (ldev l) (lh_n l) (lh_block l) (wakeups l).
Definition add_wakeup (l : log) : log :=
  mklog (start l) (lsize l) (outstanding l) (committing l) (ldev l) (lh_n l) (lh_block l) (wakeups l + 1).

Section code.
Context {S H : Type} `{!BlockCache S H}.

Record lstate := mkls { lg : log; bc : S }.

Definition lift {A} (m : M S A) : M lstate A := fun s =>
  match m (bc s) with
  | Ok a b => Ok a (mkls (lg s) b)
  | Panic msg => Panic msg
  | Sleep b => Sleep (mkls (lg s) b)
  | OutOfFuel => OutOfFuel
  | Undef => Undef
  end.

Definition get_log : M lstate log := gets lg.
Definition mod_log (f : log -> log) : M lstate unit :=
  modify (fun s => mkls (f (lg s)) (bc s)).

(** [log.lh.block[i]], an array of [LOGSIZE] entries. *)
Definition lh_get (i : Z) : M lstate Z :=
  l ← get_log;
  match lh_block l !! Z.to_nat i with Some b => ret b | None => undef end.

Definition lh_set (i b : Z) : M lstate unit :=
  l ← get_log;
  if i <? LOGSIZE then mod_log (set_lh (lh_n l) (<[Z.to_nat i := b]> (lh_block l)))
  else undef.

(** The loops below run while [tail < log.lh.n]; an index beyond the array is
    undefined, so [LOGSIZE + 1] steps are enough. *)
Definition log_fuel : nat := 31.

Fixpoint install_loop (fuel : nat) (tail : Z) : M lstate unit :=
  match fuel with
  | O => nofuel
  | Datatypes.S fuel' =>
      l ← get_log;
      if tail <? lh_n l then
        lbuf ← lift (bc_bread (u32 (start l + tail + 1)));
        blk ← lh_get tail;
        dbuf ← lift (bc_bread (u32 blk));
        ldata ← lift (bc_data lbuf);
        lift (bc_store dbuf ldata);;
        lift (bc_bwrite dbuf);;
        lift (bc_bunpin dbuf);;
        lift (bc_brelse lbuf);;
        lift (bc_brelse dbuf);;
        install_loop fuel' (tail + 1)
      else ret tt
  end.

Definition install_trans : M lstate unit := install_loop log_fuel 0.

(** [lh->n] and [lh->block[i]] of a header block. *)
Definition hdr_n (h : bytes) : Z := s32 (get_le 4 0 h).
Definition hdr_block (h : bytes) (i : nat) : Z := s32 (get_le 4 (4 + 4 * i) h).

Fixpoint read_blocks (fuel : nat) (h : bytes) (i : Z) : M lstate unit :=
  match fuel with
  | O => nofuel
  | Datatypes.S fuel' =>
      l ← get_log;
      if i <? lh_n l then
        lh_set i (hdr_block h (Z.to_nat i));;
        read_blocks fuel' h (i + 1)
      else ret tt
  end.

Definition read_head : M lstate unit :=
  l ← get_log;
  buf ← lift (bc_bread (u32 (start l)));
  h ← lift (bc_data buf);
  mod_log (set_lh (hdr_n h) (lh_block l));;
  read_blocks log_fuel h 0;;
  lift (bc_brelse buf).

Fixpoint write_blocks (fuel : nat) (buf : H) (i : Z) : M lstate unit :=
  match fuel with
  | O => nofuel
  | Datatypes.S fuel' =>
      l ← get_log;
      if i <? lh_n l then
        b ← lh_get i;
        h ← lift (bc_data buf);
        lift (bc_store buf (put_le 4 (4 + 4 * Z.to_nat i) b h));;
        write_blocks fuel' buf (i + 1)
      else ret tt
  end.

Definition write_head : M lstate unit :=
  l ← get_log;
  buf ← lift (bc_bread (u32 (start l)));
  h ← lift (bc_data buf);
  lift (bc_store buf (put_le 4 0 (lh_n l) h));;
  write_blocks log_fuel buf 0;;
  lift (bc_bwrite buf);;
  lift (bc_brelse buf).

Definition recover_from_log : M lstate unit :=
  read_head;;
  install_trans;;
  l ← get_log;
  mod_log (set_lh 0 (lh_block l));;
  write_head.

Definition initlog (dev sb_logstart sb_nlog : Z) : M lstate unit :=
  mod_log (fun l => mklog (s32 sb_logstart) (s32 sb_nlog) (outstanding l)
                      (committing l) dev (lh_n l) (lh_block l) (wakeups l));;
  recover_from_log.

(** One round of the loop of [begin_op]; the caller sleeps on the log and
    tries again. *)
Definition begin_op : M lstate unit :=
  l ← get_log;
  if committing l then block
  else if LOGSIZE <? lh_n l + (outstanding l + 1) * MAXOPBLOCKS then block
  else mod_log (set_ops (outstanding l + 1) (committing l)).

Fixpoint write_log_loop (fuel : nat) (tail : Z) : M lstate unit :=
  match fuel with
  | O => nofuel
  | Datatypes.S fuel' =>
      l ← get_log;
      if tail <? lh_n l then
        to ← lift (bc_bread (u32 (start l + tail + 1)));
        blk ← lh_get tail;
        from ← lift (bc_bread (u32 blk));
        fdata ← lift (bc_data from);
        lift (bc_store to fdata);;
        lift (bc_bwrite to);;
        lift (bc_brelse from);;
        lift (bc_brelse to);;
        write_log_loop fuel' (tail + 1)
      else ret tt
  end.

Definition write_log : M lstate unit := write_log_loop log_fuel 0.

Definition commit : M lstate unit :=
  l ← get_log;
  if 0 <? lh_n l then
    write_log;;
    write_head;;
    install_trans;;
    l' ← get_log;
    mod_log (set_lh 0 (lh_block l'));;
    write_head
  else ret tt.

Definition end_op : M lstate unit :=
  l ← get_log;
  let o := outstanding l - 1 in
  mod_log (set_ops o (committing l));;
  if committing l then panic "log.committing"
  else if o =? 0 then
    mod_log (set_ops o true);;
    commit;;
    mod_log (fun l' => add_wakeup (set_ops (outstanding l') false l'))
  else mod_log add_wakeup.

(** The index of the first entry equal to [bno], or [n] ("log absorption"). *)
Fixpoint find_slot (fuel : nat) (bl : list Z) (n bno i : Z) : option Z :=
  match fuel with
  | O => None
  | Datatypes.S fuel' =>
      if i <? n then
        match bl !! Z.to_nat i with
        | Some b => if u32 b =? bno then Some i else find_slot fuel' bl n bno (i + 1)
        | None => None
        end
      else Some i
  end.

(** [log_write(b)]; [bno] is [b->blockno]. *)
Definition log_write (b : H) (bno : Z) : M lstate unit :=
  l ← get_log;
  if (LOGSIZE <=? lh_n l) || (lsize l - 1 <=? lh_n l) then panic "too big a transaction"
  else if outstanding l <? 1 then panic "log_write outside of trans"
  else
    match find_slot log_fuel (lh_block l) (lh_n l) bno 0 with
    | None => undef
    | Some i =>
        lh_set i (s32 bno);;
        if i =? lh_n l then
          lift (bc_bpin b);;
          mod_log (fun l => set_lh (lh_n l + 1) (lh_block l) l)
        else ret tt
    end.

(** The use of [log_write] that its comment documents: read a block, modify it,
    log it, release it. *)
Definition log_update (b : Z) (f : bytes -> bytes) : M lstate unit :=
  bp ← lift (bc_bread b);
  v ← lift (bc_data bp);
  lift (bc_store bp (f v));;
  log_write bp b;;
  lift (bc_brelse bp).

(** A system call: a transaction around a sequence of updates. *)
Fixpoint log_updates (us : list (Z * (bytes -> bytes))) : M lstate unit :=
  match us with
  | [] => ret tt
  | (b, f) :: us' => log_update b f;; log_updates us'
  end.

Definition transaction (us : list (Z * (bytes -> bytes))) : M lstate unit :=
  begin_op;; log_updates us;; end_op.
End code.
Arguments lstate : clear implicits.

(** ** Running log code over an abstract cache *)

(** The header block with the count and the block numbers stored in it. *)
Fixpoint put_blocks (i : nat) (bl : list Z) (h : bytes) : bytes :=
  match bl with
  | [] => h
  | b :: bl' => put_blocks (i + 1) bl' (put_le 4 (4 + 4 * i) b h)
  end.
Definition hdr_enc (n : Z) (bl : list Z) (h : bytes) : bytes :=
  put_blocks 0 bl (put_le 4 0 n h).

(** The block numbers that a header block lists. *)
Definition hdr_list (h : bytes) : list Z := hdr_block h <$> seq 0 (Z.to_nat (hdr_n h)).

Lemma length_put_blocks i bl h :
  (4 + 4 * (i + length bl) <= length h)%nat -> length (put_blocks i bl h) = length h.
Proof.
  revert i h. induction bl as [|b bl IH]; intros i h Hl; simpl in *; [done|].
  rewrite IH; rewrite length_put_le; lia.
Qed.

Lemma get_put_blocks_ne i bl h off :
  (4 + 4 * (i + length bl) <= length h)%nat -> (off + 4 <= 4 + 4 * i)%nat ->
  get_le 4 off (put_blocks i bl h) = get_le 4 off h.
Proof.
  revert i h. induction bl as [|b bl IH]; intros i h Hl Ho; simpl in *; [done|].
  rewrite IH; [|rewrite length_put_le; lia|lia]. rewrite get_put_le_ne; [done|lia|lia].
Qed.

Lemma get_put_blocks i bl h k b :
  (4 + 4 * (i + length bl) <= length h)%nat -> bl !! k = Some b -> 0 <= b < 2 ^ 32 ->
  get_le 4 (4 + 4 * (i + k)) (put_blocks i bl h) = b.
Proof.
  revert i h k. induction bl as [|c bl IH]; intros i h k Hl Hk Hb; [done|].
  cbn [put_blocks length] in *. destruct k as [|k].
  - injection Hk as ->. rewrite get_put_blocks_ne; [|rewrite length_put_le; lia|lia].
    rewrite Nat.add_0_r. apply get_put_le; [lia|done].
  - replace (4 + 4 * (i + S k))%nat with (4 + 4 * ((i + 1) + k))%nat by lia.
    apply IH; [rewrite length_put_le; lia|done|done].
Qed.

Section hdr.
Context (n : Z) (bl : list Z) (h : bytes).
Hypothesis (Hn : n = Z.of_nat (length bl)) (Hlen : n <= LOGSIZE).
Hypothesis (Hh : length h = 1024%nat) (Hbl : Forall (fun b => 0 <= b < 2 ^ 31) bl).

Lemma length_hdr_enc : length (hdr_enc n bl h) = 1024%nat.
Proof.
  unfold hdr_enc, LOGSIZE in *. rewrite length_put_blocks; rewrite length_put_le; lia.
Qed.

Lemma hdr_n_enc : hdr_n (hdr_enc n bl h) = n.
Proof.
  unfold hdr_n, hdr_enc, LOGSIZE in *.
  rewrite get_put_blocks_ne; [|rewrite length_put_le; lia|lia].
  rewrite get_put_le; [apply s32_small; lia|lia|simpl; lia].
Qed.

Lemma hdr_list_enc : hdr_list (hdr_enc n bl h) = bl.
Proof.
  apply list_eq. intros k. unfold hdr_list. rewrite hdr_n_enc, list_lookup_fmap, Hn, Nat2Z.id.
  destruct (bl !! k) as [b|] eqn:E.
  - pose proof (lookup_lt_Some _ _ _ E). rewrite lookup_seq_lt by done. simpl. f_equal.
    rewrite Forall_lookup in Hbl. specialize (Hbl _ _ E).
    unfold hdr_block, hdr_enc, LOGSIZE in *.
    rewrite <-(Nat.add_0_l k) at 1.
    rewrite (get_put_blocks 0 bl _ k b); [apply s32_small; lia| |done|lia].
    rewrite length_put_le; lia.
  - apply lookup_ge_None in E. by rewrite lookup_seq_ge by lia.
Qed.
End hdr.

(** The writes of [write_log] and of [install_trans] for the blocks [bl], the
    first of them being entry [i] of the header. *)
Fixpoint log_copies (st : Z) (i : nat) (bl : list Z) (v : Z -> bytes) : list (Z * bytes) :=
  match bl with
  | [] => []
  | b :: bl' => (st + Z.of_nat i + 1, v b) :: log_copies st (i + 1) bl' v
  end.
Fixpoint installs (st : Z) (i : nat) (bl : list Z) (v : Z -> bytes) : list (Z * bytes) :=
  match bl with
  | [] => []
  | b :: bl' => (b, v (st + Z.of_nat i + 1)) :: installs st (i + 1) bl' v
  end.

(** The blocks of the log: the header and the copies. *)
Definition in_log (st b : Z) : Prop := st <= b < st + LOGSIZE.

Lemma log_copies_ext st i bl v w :
  (forall b, b ∈ bl -> v b = w b) -> log_copies st i bl v = log_copies st i bl w.
Proof.
  revert i. induction bl as [|b bl IH]; intros i H; simpl; [done|].
  rewrite H by set_solver. f_equal. apply IH. set_solver.
Qed.

Lemma installs_ext st i bl v w :
  (forall k, (i <= k < i + length bl)%nat -> v (st + Z.of_nat k + 1) = w (st + Z.of_nat k + 1)) ->
  installs st i bl v = installs st i bl w.
Proof.
  revert i. induction bl as [|b bl IH]; intros i H; simpl in *; [done|].
  rewrite H by lia. f_equal. apply IH. intros k Hk. apply H. lia.
Qed.

(** ** Replay

    The disk that recovery makes of a disk: every block that the header lists
    is taken from its copy in the log. *)

Definition replay (st : Z) (d : Z -> bytes) : Z -> bytes :=
  apply_writes (installs st 0 (hdr_list (d st)) d) d.

(** Block numbers that can be logged, the header block of the log being [st]. *)
Definition loggable (st b : Z) : Prop := 0 <= b < 2 ^ 31 /\ ~ in_log st b.

Definition wf_blocks (st : Z) (bl : list Z) : Prop :=
  NoDup bl /\ Forall (loggable st) bl /\ Z.of_nat (length bl) < LOGSIZE.

(** The header block is one that [write_head] can have written. *)
Definition disk_log_ok (st : Z) (d : Z -> bytes) : Prop :=
  length (d st) = 1024%nat /\ 0 <= hdr_n (d st) < LOGSIZE /\ wf_blocks st (hdr_list (d st)).

(** Equality of disks outside of the log. *)
Definition same_data (st : Z) (d e : Z -> bytes) : Prop :=
  forall b, ~ in_log st b -> d b = e b.

#[global] Instance same_data_equiv st : Equivalence (same_data st).
Proof.
  split.
  - by intros d b.
  - intros d e H b Hb. symmetry. by apply H.
  - intros d e f H1 H2 b Hb. rewrite H1 by done. by apply H2.
Qed.

Lemma installs_fst st i bl v : (installs st i bl v).*1 = bl.
Proof. revert i. induction bl as [|b bl IH]; intros i; simpl; [done|]. by rewrite IH. Qed.

Lemma log_copies_fst st i bl v x :
  x ∈ (log_copies st i bl v).*1 -> st + Z.of_nat i < x <= st + Z.of_nat i + Z.of_nat (length bl).
Proof.
  revert i. induction bl as [|b bl IH]; intros i; simpl; [set_solver|].
  intros [->|H]%elem_of_cons; [lia|]. apply IH in H. lia.
Qed.

Lemma apply_cons x y ws d : apply_writes ((x, y) :: ws) d = apply_writes ws (fupd d x y).
Proof. done. Qed.

Lemma apply_installs st i bl v d k b :
  NoDup bl -> bl !! k = Some b ->
  apply_writes (installs st i bl v) d b = v (st + Z.of_nat (i + k) + 1).
Proof.
  revert i k d. induction bl as [|c bl IH]; intros i k d Hnd Hk; [done|].
  apply NoDup_cons in Hnd as [Hc Hnd]. cbn [installs]. rewrite apply_cons.
  destruct k as [|k]; simpl in Hk.
  - simplify_eq. rewrite apply_writes_notin by by rewrite installs_fst.
    rewrite fupd_eq, Nat.add_0_r. done.
  - rewrite (IH _ k) by done. f_equal. lia.
Qed.

Lemma apply_log_copies st i bl v d k b :
  bl !! k = Some b ->
  apply_writes (log_copies st i bl v) d (st + Z.of_nat (i + k) + 1) = v b.
Proof.
  revert i k d. induction bl as [|c bl IH]; intros i k d Hk; [done|].
  cbn [log_copies]. rewrite apply_cons. destruct k as [|k]; simpl in Hk.
  - simplify_eq. rewrite apply_writes_notin.
    + rewrite Nat.add_0_r. by rewrite fupd_eq.
    + intros H%log_copies_fst. lia.
  - rewrite <-(IH (i + 1)%nat k (fupd d (st + Z.of_nat i + 1) (v c))) by done.
    f_equal. lia.
Qed.

(** Writes to the blocks of a set. *)
Definition writes_in (P : Z -> Prop) (ws : list (Z * bytes)) : Prop := Forall P ws.*1.

Lemma writes_in_prefix P p ws : p `prefix_of` ws -> writes_in P ws -> writes_in P p.
Proof. intros [r ->]. unfold writes_in. rewrite fmap_app, Forall_app. naive_solver. Qed.

Lemma writes_in_out (P : Z -> Prop) ws d b : writes_in P ws -> ~ P b -> apply_writes ws d b = d b.
Proof.
  intros Hw Hb. apply apply_writes_notin. intros Hin.
  unfold writes_in in Hw. rewrite Forall_forall in Hw. auto.
Qed.

Lemma log_copies_in st bl v :
  Z.of_nat (length bl) < LOGSIZE ->
  writes_in (fun b => st < b < st + LOGSIZE) (log_copies st 0 bl v).
Proof.
  intros Hl. apply Forall_forall. intros x Hx%log_copies_fst. lia.
Qed.

Lemma installs_in st i bl v : writes_in (fun b => b ∈ bl) (installs st i bl v).
Proof. unfold writes_in. rewrite installs_fst. by apply Forall_forall. Qed.

(** A disk whose header lists nothing is its own replay. *)
Lemma replay_empty st d : hdr_n (d st) = 0 -> replay st d = d.
Proof. intros H. unfold replay, hdr_list. by rewrite H. Qed.

Lemma hdr_empty h :
  length h = 1024%nat -> hdr_n (hdr_enc 0 [] h) = 0 /\ length (hdr_enc 0 [] h) = 1024%nat.
Proof. intros. split; [by apply hdr_n_enc|by apply length_hdr_enc]. Qed.

Lemma disk_log_empty st d :
  length (d st) = 1024%nat -> hdr_n (d st) = 0 -> disk_log_ok st d.
Proof.
  intros Hl Hn. split; [done|]. rewrite Hn. split; [done|].
  unfold hdr_list. rewrite Hn. split; [constructor|split; [constructor|done]].
Qed.

(** ** What a crash can leave

    The writes of [commit] and of recovery, as lists: any prefix of them may
    have reached the disk. *)

Section crash.
Context (st : Z) (bl : list Z).
Hypothesis (Hwf : wf_blocks st bl).

Lemma wf_not_log b : b ∈ bl -> ~ in_log st b.
Proof. destruct Hwf as (_ & H & _). rewrite Forall_forall in H. intros Hb. by destruct (H b Hb). Qed.

Lemma wf_range : Forall (fun b => 0 <= b < 2 ^ 31) bl.
Proof. destruct Hwf as (_ & H & _). eapply Forall_impl; [exact H|]. by intros b [? _]. Qed.

Lemma installs_log i v ws d b :
  ws `prefix_of` installs st i bl v -> in_log st b -> apply_writes ws d b = d b.
Proof.
  intros Hp Hb. eapply writes_in_out; [eapply writes_in_prefix; [exact Hp|apply installs_in]|].
  intros Hin. by apply (wf_not_log b).
Qed.

(** The disk once the header lists [bl], whatever part of the blocks has been
    installed: replaying it gives the logged contents. *)
Lemma replay_committed (e : Z -> bytes) ws v :
  hdr_list (e st) = bl ->
  ws `prefix_of` installs st 0 bl v ->
  same_data st (replay st (apply_writes ws e)) (replay st e).
Proof.
  intros He Hp b Hb. unfold replay.
  rewrite (installs_log 0 v ws e st Hp) by (unfold in_log, LOGSIZE; lia). rewrite He.
  destruct (decide (b ∈ bl)) as [Hin|Hin].
  - apply list_elem_of_lookup in Hin as [k Hk]. destruct Hwf as (Hnd & _ & Hlen).
    pose proof (lookup_lt_Some _ _ _ Hk).
    rewrite !(apply_installs st 0 bl _ _ k b) by done.
    apply (installs_log 0 v ws); [done|unfold in_log in *; lia].
  - rewrite !(apply_writes_notin (installs _ _ _ _)) by by rewrite installs_fst.
    eapply writes_in_out; [eapply writes_in_prefix; [exact Hp|apply installs_in]|done].
Qed.

(** The writes of [commit]: copies, header, installation, empty header. *)
Definition commit_writes (v : Z -> bytes) (h : bytes) : list (Z * bytes) :=
  let h1 := hdr_enc (Z.of_nat (length bl)) bl h in
  log_copies st 0 bl v ++ [(st, h1)] ++
  ((fun b => (b, v b)) <$> bl) ++ [(st, hdr_enc 0 [] h1)].

Context (d v : Z -> bytes).
Hypothesis (Hlen : length (d st) = 1024%nat) (Hemp : hdr_n (d st) = 0).
Hypothesis (Hout : forall b, ~ in_log st b -> b ∉ bl -> v b = d b).

Let h1 := hdr_enc (Z.of_nat (length bl)) bl (d st).
Let e1 := apply_writes (log_copies st 0 bl v) d.
Let e2 := fupd e1 st h1.

Lemma e2_hdr : length h1 = 1024%nat /\ hdr_n h1 = Z.of_nat (length bl) /\ hdr_list h1 = bl.
Proof.
  destruct Hwf as (_ & _ & Hl). pose proof wf_range.
  split; [|split]; [apply length_hdr_enc|apply hdr_n_enc|apply hdr_list_enc]; try done; lia.
Qed.

Lemma e2_copies : installs st 0 bl e2 = (fun b => (b, v b)) <$> bl.
Proof.
  assert (forall i c, (forall k b, c !! k = Some b -> bl !! (i + k)%nat = Some b) ->
            installs st i c e2 = (fun b => (b, v b)) <$> c) as H.
  2: { by apply (H 0%nat bl). }
  intros i c. revert i. induction c as [|b c IH]; intros i Hc; [done|].
  cbn [installs fmap list_fmap]. f_equal.
  - f_equal. unfold e2. rewrite fupd_ne by lia. unfold e1.
    rewrite <-(apply_log_copies st 0 bl v d i b); [done|].
    rewrite <-(Nat.add_0_r i). by apply Hc.
  - apply IH. intros k x Hk. rewrite <-Nat.add_assoc. by apply Hc.
Qed.

Lemma e1_data : same_data st e1 d.
Proof.
  intros b Hb. eapply writes_in_out; [apply log_copies_in; by destruct Hwf as (_ & _ & ?)|].
  unfold in_log, LOGSIZE in *. cbv beta. lia.
Qed.

Lemma replay_e2 : same_data st (replay st e2) v.
Proof.
  intros b Hb. unfold replay. change (e2 st) with (fupd e1 st h1 st).
  rewrite fupd_eq. destruct e2_hdr as (_ & _ & ->).
  destruct (decide (b ∈ bl)) as [Hin|Hin].
  - apply list_elem_of_lookup in Hin as [k Hk]. destruct Hwf as (Hnd & _ & _).
    rewrite (apply_installs st 0 bl _ _ k b) by done.
    unfold e2. rewrite fupd_ne by lia. by apply apply_log_copies.
  - rewrite apply_writes_notin by by rewrite installs_fst.
    rewrite Hout by done. unfold e2.
    rewrite fupd_ne by (unfold in_log, LOGSIZE in Hb; lia). by apply e1_data.
Qed.

(** Old or new, nothing in between; and a disk recovery can work on. *)
Definition crash_ok (e : Z -> bytes) : Prop :=
  disk_log_ok st e /\ (same_data st (replay st e) d \/ same_data st (replay st e) v).

Lemma crash_copies p : p `prefix_of` log_copies st 0 bl v -> crash_ok (apply_writes p d).
Proof.
  intros Hp. assert (writes_in (fun b => st < b < st + LOGSIZE) p) as Hw.
  { eapply writes_in_prefix; [exact Hp|]. apply log_copies_in. by destruct Hwf as (_ & _ & ?). }
  assert (apply_writes p d st = d st) as Hs by (eapply writes_in_out; [exact Hw|cbv beta; lia]).
  split; [apply disk_log_empty; by rewrite Hs|].
  left. rewrite replay_empty by by rewrite Hs. intros b Hb.
  eapply writes_in_out; [exact Hw|]. unfold in_log, LOGSIZE in *. cbv beta. lia.
Qed.

Lemma crash_installs q :
  q `prefix_of` ((fun b => (b, v b)) <$> bl) -> crash_ok (apply_writes q e2).
Proof.
  rewrite <-e2_copies. intros Hq. destruct e2_hdr as (H1 & H2 & H3).
  assert (e2 st = h1) as Hs by apply fupd_eq.
  assert (apply_writes q e2 st = h1) as Hs'.
  { rewrite (installs_log 0 e2 q) by (done || (unfold in_log, LOGSIZE; lia)). done. }
  split.
  - unfold disk_log_ok. rewrite Hs', H1, H2, H3. destruct Hwf as (?&?&?). repeat split; try done; lia.
  - right. transitivity (replay st e2); [|apply replay_e2].
    apply (replay_committed e2 q e2); [by rewrite Hs|done].
Qed.

Lemma crash_final :
  let e := apply_writes (commit_writes v (d st)) d in
  crash_ok e /\ same_data st e v /\ hdr_n (e st) = 0 /\ length (e st) = 1024%nat.
Proof.
  unfold commit_writes. rewrite !apply_writes_app. fold e1 h1. simpl apply_writes at 2.
  set (e3 := apply_writes ((fun b => (b, v b)) <$> bl) e2).
  change (apply_writes [(st, hdr_enc 0 [] h1)] _) with (fupd e3 st (hdr_enc 0 [] h1)).
  destruct e2_hdr as (H1 & H2 & H3). destruct (hdr_empty h1 H1) as [E0 El].
  assert (same_data st (fupd e3 st (hdr_enc 0 [] h1)) v) as Hd.
  { intros b Hb. rewrite fupd_ne by (unfold in_log, LOGSIZE in Hb; lia).
    transitivity (replay st e2 b); [|by apply replay_e2].
    unfold replay, e3. rewrite <-e2_copies.
    assert (e2 st = h1) as -> by apply fupd_eq. by rewrite H3. }
  cbv zeta. split; [split|split; [done|by rewrite fupd_eq]].
  - apply disk_log_empty; by rewrite fupd_eq.
  - right. rewrite replay_empty by by rewrite fupd_eq. done.
Qed.

Lemma crash_commit p : p `prefix_of` commit_writes v (d st) -> crash_ok (apply_writes p d).
Proof.
  intros [Hp|(q & -> & [Hp|(q' & -> & [Hp|(q'' & -> & [->| ->]%prefix_single)]%prefix_app_split)]%prefix_app_split)]%prefix_app_split.
  - by apply crash_copies.
  - apply prefix_single in Hp as [->| ->]; rewrite apply_writes_app.
    + apply (crash_copies (log_copies st 0 bl v)). done.
    + apply (crash_installs []). apply prefix_nil.
  - rewrite !apply_writes_app. by apply (crash_installs q').
  - rewrite app_nil_r, !apply_writes_app. by apply crash_installs.
  - apply crash_final.
Qed.
End crash.

Section lwp.
Context {S H : Type} `{!BlockCache S H} {nbuf : nat} `{!BlockCacheLaws S H nbuf}.
Implicit Types (l : log) (a : acache H).

(** [m] runs to completion from any state whose log is [l] and whose cache
    represents [a], and ends in a state of which [Q] holds. *)
Definition lwp {A} (m : M (lstate S) A) (Q : A -> log -> acache H -> Prop) l a : Prop :=
  forall s, lg s = l -> bc_rel (bc s) a ->
  exists x s' a', m s = Ok x s' /\ bc_rel (bc s') a' /\ Q x (lg s') a'.

Lemma lwp_mono {A} (m : M (lstate S) A) (Q Q' : A -> log -> acache H -> Prop) l a :
  lwp m Q l a -> (forall x l' a', Q x l' a' -> Q' x l' a') -> lwp m Q' l a.
Proof. intros Hm HQ s Hl Hr. destruct (Hm s Hl Hr) as (x & s' & a' & ? & ? & ?). eauto 10. Qed.

Lemma lwp_ret {A} (x : A) (Q : A -> log -> acache H -> Prop) l a :
  Q x l a -> lwp (ret x) Q l a.
Proof. intros HQ s <- Hr. exists x, s, a. done. Qed.

Lemma lwp_bind {A B} (m : M (lstate S) A) (f : A -> M (lstate S) B) Q l a :
  lwp m (fun x l' a' => lwp (f x) Q l' a') l a -> lwp (bind m f) Q l a.
Proof.
  intros Hm s Hl Hr. destruct (Hm s Hl Hr) as (x & s' & a' & E & Hr' & Hf).
  destruct (Hf s' eq_refl Hr') as (y & s'' & a'' & E' & Hr'' & HQ).
  exists y, s'', a''. split; [|done]. by rewrite (bind_ok _ _ _ _ _ E).
Qed.

Lemma lwp_get_log Q l a : Q l l a -> lwp get_log Q l a.
Proof. intros HQ s <- Hr. exists (lg s), s, a. done. Qed.

Lemma lwp_mod_log f Q l a : Q tt (f l) a -> lwp (mod_log f) Q l a.
Proof. intros HQ s <- Hr. eexists tt, _, a. split; [done|]. done. Qed.

Lemma lwp_lift {A} (m : M S A) Q l a :
  (forall b, bc_rel b a -> exists x b' a', m b = Ok x b' /\ bc_rel b' a' /\ Q x l a') ->
  lwp (lift m) Q l a.
Proof.
  intros Hm s <- Hr. destruct (Hm (bc s) Hr) as (x & b' & a' & E & Hr' & HQ).
  exists x, (mkls (lg s) b'), a'. split; [|done]. unfold lift. by rewrite E.
Qed.

Lemma lwp_bread b Q l a :
  0 <= b < 2 ^ 32 -> can_bread nbuf b a ->
  (forall h, (forall r, a_refs a !! b = Some r -> h = r_h r) -> Q h l (a_bread b h a)) ->
  lwp (lift (bc_bread b)) Q l a.
Proof.
  intros Hb Hc HQ. apply lwp_lift. intros s Hr.
  destruct (bc_bread_ok s a b Hr Hb Hc) as (h & s' & ? & ? & Hh). eauto 10.
Qed.

Lemma lwp_data b r Q l a :
  a_refs a !! b = Some r -> Q (a_view a b) l a -> lwp (lift (bc_data (r_h r))) Q l a.
Proof.
  intros Hr HQ. apply lwp_lift. intros s Hs.
  exists (a_view a b), s, a. split; [|done]. by apply bc_data_ok.
Qed.

Lemma lwp_store b r v Q l a :
  a_refs a !! b = Some r -> r_held r = true -> Q tt l (a_store b v a) ->
  lwp (lift (bc_store (r_h r) v)) Q l a.
Proof.
  intros Hr Hh HQ. apply lwp_lift. intros s Hs.
  destruct (bc_store_ok s a b r v Hs Hr Hh) as (s' & ? & ?). eauto 10.
Qed.

Lemma lwp_bwrite b r Q l a :
  a_refs a !! b = Some r -> r_held r = true -> Q tt l (a_bwrite b a) ->
  lwp (lift (bc_bwrite (r_h r))) Q l a.
Proof.
  intros Hr Hh HQ. apply lwp_lift. intros s Hs.
  destruct (bc_bwrite_ok s a b r Hs Hr Hh) as (s' & ? & ?). eauto 10.
Qed.

Lemma lwp_brelse b r Q l a :
  a_refs a !! b = Some r -> r_held r = true -> (r_cnt r = 1 -> a_view a b = a_disk a b) ->
  Q tt l (a_brelse b r a) -> lwp (lift (bc_brelse (r_h r))) Q l a.
Proof.
  intros Hr Hh Hc HQ. apply lwp_lift. intros s Hs.
  destruct (bc_brelse_ok s a b r Hs Hr Hh Hc) as (s' & ? & ?). eauto 10.
Qed.

Lemma lwp_bunpin b r Q l a :
  a_refs a !! b = Some r -> r_held r = true ->
  Q tt l (a_bunpin b r a) -> lwp (lift (bc_bunpin (r_h r))) Q l a.
Proof.
  intros Hr Hh HQ. apply lwp_lift. intros s Hs.
  destruct (bc_bunpin_ok s a b r Hs Hr Hh) as (s' & ? & ?). eauto 10.
Qed.

Lemma lwp_bpin b r Q l a :
  a_refs a !! b = Some r -> r_held r = true ->
  Q tt l (a_bpin b r a) -> lwp (lift (bc_bpin (r_h r))) Q l a.
Proof.
  intros Hr Hh HQ. apply lwp_lift. intros s Hs.
  destruct (bc_bpin_ok s a b r Hs Hr Hh) as (s' & ? & ?). eauto 10.
Qed.

Lemma lwp_lh_get i b Q l a :
  lh_block l !! Z.to_nat i = Some b -> Q b l a -> lwp (lh_get i) Q l a.
Proof.
  intros Hb HQ. apply lwp_bind, lwp_get_log. rewrite Hb. by apply lwp_ret.
Qed.

Lemma lwp_lh_set i b Q l a :
  i < LOGSIZE -> Q tt (set_lh (lh_n l) (<[Z.to_nat i := b]> (lh_block l)) l) a ->
  lwp (lh_set i b) Q l a.
Proof.
  intros Hi HQ. apply lwp_bind, lwp_get_log.
  destruct (Z.ltb_spec i LOGSIZE); [|lia]. by apply lwp_mod_log.
Qed.

(** Blocks nobody holds and whose buffers all look used. *)
Definition quiet a : Prop :=
  forall b r, a_refs a !! b = Some r -> r_held r = false /\ r_cnt r <> 0.

(** One block written: the disk and the view both change there. *)
Definition a_write (b : Z) (v : bytes) a : acache H :=
  mkcache (fupd (a_disk a) b v) (fupd (a_view a) b v) (a_refs a) (a_trace a ++ [(b, v)]).

Definition a_writes (ws : list (Z * bytes)) a : acache H :=
  mkcache (apply_writes ws (a_disk a)) (apply_writes ws (a_view a)) (a_refs a)
    (a_trace a ++ ws).

Lemma a_writes_cons b v ws a : a_writes ((b, v) :: ws) a = a_writes ws (a_write b v a).
Proof. unfold a_writes, a_write. simpl. by rewrite <-app_assoc. Qed.


Lemma quiet_bread b a :
  quiet a -> (a_refs a !! b = None -> (size (a_refs a) < nbuf)%nat) -> can_bread nbuf b a.
Proof.
  intros Hq Hs. split.
  - intros b' r Hr. by apply (Hq b').
  - destruct (a_refs a !! b) as [r|] eqn:E; [by apply (Hq b)|auto].
Qed.

(** With one more, held, buffer. *)
Lemma quiet_bread2 b b' h a :
  quiet a -> b' <> b -> a_refs a !! b = None ->
  (a_refs a !! b' = None -> (size (a_refs a) + 1 < nbuf)%nat) ->
  can_bread nbuf b' (a_bread b h a).
Proof.
  intros Hq Hne Hb Hs. split; simpl.
  - intros x r Hr. rewrite Hb in Hr. simpl in Hr.
    destruct (decide (x = b)) as [->|].
    + rewrite lookup_insert_eq in Hr. by injection Hr as <-.
    + rewrite lookup_insert_ne in Hr by congruence. by apply (Hq x).
  - rewrite lookup_insert_ne by congruence.
    destruct (a_refs a !! b') as [r|] eqn:E; [by apply (Hq b')|].
    rewrite map_size_insert_None by done. specialize (Hs eq_refl). lia.
Qed.

Lemma u32_succ_pred c : 0 <= c < 2 ^ 32 -> u32 (u32 (c + 1) - 1) = c.
Proof.
  intros. unfold u32. rewrite wrap_sub_l. replace (c + 1 - 1) with c by lia.
  by apply wrap_small.
Qed.

(** One round of [write_log]: block [f], pinned, is copied to block [t] of the
    log area. *)
Lemma lwp_write_log_step fuel tail t f blk r Q l a :
  tail < lh_n l -> u32 (start l + tail + 1) = t -> u32 blk = f -> f <> t ->
  lh_block l !! Z.to_nat tail = Some blk ->
  quiet a -> a_refs a !! t = None -> a_refs a !! f = Some r ->
  0 < r_cnt r < 2 ^ 32 -> (size (a_refs a) < nbuf)%nat ->
  lwp (write_log_loop fuel (tail + 1)) Q l (a_write t (a_view a f) a) ->
  lwp (write_log_loop (Datatypes.S fuel) tail) Q l a.
Proof.
  intros Htail Et Ef Hne Hblk Hq Ht Hf Hc Hsz Hk. simpl.
  pose proof (u32_range (start l + tail + 1)) as Rt. rewrite Et in Rt.
  pose proof (u32_range blk) as Rf. rewrite Ef in Rf.
  apply lwp_bind, lwp_get_log. destruct (Z.ltb_spec tail (lh_n l)); [|lia]. rewrite Et.
  apply lwp_bind, lwp_bread; [done|by apply quiet_bread|]. intros h1 _.
  apply lwp_bind. eapply lwp_lh_get; [done|]. rewrite Ef.
  apply lwp_bind, lwp_bread; [done|apply quiet_bread2; [done|congruence|done|congruence]|]. intros h2 Hh2.
  simpl in Hh2. rewrite lookup_insert_ne in Hh2 by congruence. rewrite (Hh2 r Hf). clear Hh2 h2.
  set (r1 := mkref h1 1 true). set (r2 := mkref (r_h r) (u32 (r_cnt r + 1)) true).
  set (a2 := a_bread f (r_h r) (a_bread t h1 a)).
  assert (a_refs a2 = <[f := r2]> (<[t := r1]> (a_refs a))) as E2.
  { simpl. rewrite Ht. simpl. by rewrite lookup_insert_ne, Hf by congruence. }
  assert (a_view a2 = a_view a /\ a_disk a2 = a_disk a /\ a_trace a2 = a_trace a)
    as (Ev & Ed & Etr) by done. clearbody a2.
  assert (a_refs a2 !! f = Some r2) as Lf by by rewrite E2, lookup_insert_eq.
  assert (a_refs a2 !! t = Some r1) as Lt
    by by rewrite E2, lookup_insert_ne, lookup_insert_eq by congruence.
  assert (u32 (u32 (r_cnt r + 1) - 1) = r_cnt r) as Hu by (apply u32_succ_pred; lia).
  apply lwp_bind. eapply (lwp_data f r2); [done|].
  apply lwp_bind. eapply (lwp_store t r1); [done|done|].
  apply lwp_bind. eapply (lwp_bwrite t r1); [done|done|].
  apply lwp_bind. eapply (lwp_brelse f r2); [done|done|simpl|].
  { intros E1. rewrite E1 in Hu. change (u32 (1 - 1)) with 0 in Hu. lia. }
  apply lwp_bind. eapply (lwp_brelse t r1); [|done|simpl|].
  { simpl. rewrite Hu. destruct (Z.eqb_spec (r_cnt r) 0); [lia|].
    by rewrite lookup_insert_ne by congruence. }
  { intros _. by rewrite !fupd_eq. }
  match goal with |- lwp _ _ _ ?x => replace x with (a_write t (a_view a f) a); [done|] end.
  unfold a_write, a_brelse, a_bwrite, a_store, set_refs.
  cbn [a_disk a_view a_refs a_trace r1 r2 r_cnt r_h].
  rewrite !fupd_eq, Ev, Ed, Etr, E2. f_equal. rewrite Hu.
  destruct (Z.eqb_spec (r_cnt r) 0); [lia|]. simpl.
  rewrite insert_insert_eq, delete_insert_ne by congruence.
  rewrite delete_insert_id by done. symmetry. apply insert_id.
  destruct (Hq f r Hf) as [Hheld _]. destruct r; simpl in *. by subst.
Qed.

(** The reference that [install_trans] drops for block [f], whether or not the
    block was pinned. *)
Definition a_unpin (f : Z) (h : H) a : acache H :=
  set_refs (fun m => let c := u32 (cnt_of (m !! f) - 1) in
                     if c =? 0 then delete f m else <[f := mkref h c false]> m) a.

(** One round of [install_trans]: block [t] of the log area is copied to its
    home [f] and a reference of [f] is dropped. *)
Lemma lwp_install_step fuel tail t f blk Q l a :
  tail < lh_n l -> u32 (start l + tail + 1) = t -> u32 blk = f -> f <> t ->
  lh_block l !! Z.to_nat tail = Some blk ->
  quiet a -> a_refs a !! t = None -> a_view a t = a_disk a t ->
  0 <= cnt_of (a_refs a !! f) < 2 ^ 32 - 1 ->
  (size (a_refs a) < nbuf)%nat ->
  (a_refs a !! f = None -> (size (a_refs a) + 1 < nbuf)%nat) ->
  (forall h, lwp (install_loop fuel (tail + 1)) Q l (a_unpin f h (a_write f (a_view a t) a))) ->
  lwp (install_loop (Datatypes.S fuel) tail) Q l a.
Proof.
  intros Htail Et Ef Hne Hblk Hq Ht Hcl Hc Hsz Hsz2 Hk. simpl.
  pose proof (u32_range (start l + tail + 1)) as Rt. rewrite Et in Rt.
  pose proof (u32_range blk) as Rf. rewrite Ef in Rf.
  apply lwp_bind, lwp_get_log. destruct (Z.ltb_spec tail (lh_n l)); [|lia]. rewrite Et.
  apply lwp_bind, lwp_bread; [done|by apply quiet_bread|]. intros h1 _.
  apply lwp_bind. eapply lwp_lh_get; [done|]. rewrite Ef.
  apply lwp_bind, lwp_bread; [done|by apply quiet_bread2|]. intros h2 _.
  set (c := cnt_of (a_refs a !! f)) in *.
  set (r1 := mkref h1 1 true). set (r2 := mkref h2 (u32 (c + 1)) true).
  set (r3 := mkref h2 c true).
  set (a2 := a_bread f h2 (a_bread t h1 a)).
  assert (a_refs a2 = <[f := r2]> (<[t := r1]> (a_refs a))) as E2.
  { simpl. rewrite Ht. simpl. by rewrite lookup_insert_ne by congruence. }
  assert (a_view a2 = a_view a /\ a_disk a2 = a_disk a /\ a_trace a2 = a_trace a)
    as (Ev & Ed & Etr) by done. clearbody a2.
  assert (a_refs a2 !! f = Some r2) as Lf by by rewrite E2, lookup_insert_eq.
  assert (a_refs a2 !! t = Some r1) as Lt
    by by rewrite E2, lookup_insert_ne, lookup_insert_eq by congruence.
  assert (u32 (u32 (c + 1) - 1) = c) as Hu by (apply u32_succ_pred; lia).
  apply lwp_bind. eapply (lwp_data t r1); [done|].
  apply lwp_bind. eapply (lwp_store f r2); [done|done|].
  apply lwp_bind. eapply (lwp_bwrite f r2); [done|done|].
  apply lwp_bind. eapply (lwp_bunpin f r2); [done|done|].
  apply lwp_bind. eapply (lwp_brelse t r1); [|done| |].
  { simpl. by rewrite lookup_insert_ne by congruence. }
  { intros _. simpl. rewrite !fupd_eq, !fupd_ne by congruence. by rewrite Ev, Ed. }
  apply lwp_bind. eapply (lwp_brelse f r3); [|done| |].
  { simpl. rewrite Hu. rewrite lookup_delete_ne by congruence. apply lookup_insert_eq. }
  { intros _. simpl. by rewrite !fupd_eq. }
  match goal with |- lwp _ _ _ ?x =>
    replace x with (a_unpin f h2 (a_write f (a_view a t) a)); [done|] end.
  unfold a_unpin, a_write, a_brelse, a_bunpin, a_bwrite, a_store, set_refs.
  cbn [a_disk a_view a_refs a_trace r1 r2 r3 r_cnt r_h r_held].
  rewrite !fupd_eq, Ev, Ed, Etr, E2, Hu. fold c. f_equal.
  change (u32 (1 - 1) =? 0) with true. cbn match.
  rewrite insert_insert_eq, delete_insert_ne by congruence.
  assert (delete t (<[t := r1]> (a_refs a)) = a_refs a) as -> by by apply delete_insert_id.
  destruct (u32 (c - 1) =? 0).
  - by rewrite delete_insert_eq.
  - by rewrite insert_insert_eq.
Qed.

Lemma a_store_store b v w a : a_store b w (a_store b v a) = a_store b w a.
Proof. unfold a_store. simpl. by rewrite fupd_fupd. Qed.

Lemma a_store_id b a : a_store b (a_view a b) a = a.
Proof. unfold a_store. rewrite fupd_id. by destruct a. Qed.

Lemma lwp_write_blocks b r rest i fuel Q l a :
  (length rest < fuel)%nat -> Z.of_nat i + Z.of_nat (length rest) = lh_n l ->
  (forall k x, rest !! k = Some x -> lh_block l !! (i + k)%nat = Some x) ->
  a_refs a !! b = Some r -> r_held r = true ->
  Q tt l (a_store b (put_blocks i rest (a_view a b)) a) ->
  lwp (write_blocks fuel (r_h r) (Z.of_nat i)) Q l a.
Proof.
  revert i fuel a. induction rest as [|x rest IH]; intros i fuel a Hf Hn Hl Hr Hh HQ;
    destruct fuel as [|fuel]; simpl in *; try lia; apply lwp_bind, lwp_get_log.
  - destruct (Z.ltb_spec (Z.of_nat i) (lh_n l)); [lia|]. apply lwp_ret.
    by rewrite a_store_id in HQ.
  - destruct (Z.ltb_spec (Z.of_nat i) (lh_n l)); [|lia].
    apply lwp_bind. eapply (lwp_lh_get _ x).
    { rewrite Nat2Z.id. rewrite <-(Nat.add_0_r i). by apply Hl. }
    apply lwp_bind. apply (lwp_data b); [done|].
    apply lwp_bind. apply (lwp_store b); [done|done|].
    replace (Z.of_nat i + 1) with (Z.of_nat (i + 1)) by lia.
    apply IH; [lia|lia| |done|done|].
    + intros k y Hk. rewrite <-Nat.add_assoc. by apply Hl.
    + simpl. by rewrite fupd_eq, a_store_store, Nat2Z.id.
Qed.

Lemma lwp_write_head st Q l a :
  u32 (start l) = st -> 0 <= lh_n l <= LOGSIZE -> Z.of_nat (length (lh_block l)) = LOGSIZE ->
  quiet a -> a_refs a !! st = None -> (size (a_refs a) < nbuf)%nat ->
  Q tt l (a_write st (hdr_enc (lh_n l) (take (Z.to_nat (lh_n l)) (lh_block l)) (a_view a st)) a) ->
  lwp write_head Q l a.
Proof.
  intros Est Hn Hlen Hq Hst Hsz HQ. unfold write_head, LOGSIZE in *.
  pose proof (u32_range (start l)) as Rt. rewrite Est in Rt.
  apply lwp_bind, lwp_get_log. rewrite Est.
  apply lwp_bind, lwp_bread; [done|by apply quiet_bread|]. intros h1 _.
  set (r1 := mkref h1 1 true). set (a2 := a_bread st h1 a).
  assert (a_refs a2 = <[st := r1]> (a_refs a)) as E2 by (simpl; by rewrite Hst).
  assert (a_view a2 = a_view a /\ a_disk a2 = a_disk a /\ a_trace a2 = a_trace a)
    as (Ev & Ed & Etr) by done. clearbody a2.
  assert (a_refs a2 !! st = Some r1) as L1 by by rewrite E2, lookup_insert_eq.
  apply lwp_bind, (lwp_data st r1); [done|].
  apply lwp_bind, (lwp_store st r1); [done|done|].
  apply lwp_bind. change 0 with (Z.of_nat 0).
  apply (lwp_write_blocks st r1 (take (Z.to_nat (lh_n l)) (lh_block l)));
    [rewrite length_take; unfold log_fuel; lia|rewrite length_take; lia| |done|done|].
  { intros k x [Hk _]%lookup_take_Some. done. }
  simpl. rewrite fupd_eq, a_store_store.
  apply lwp_bind, (lwp_bwrite st r1); [done|done|].
  apply (lwp_brelse st r1); [done|done| |].
  { intros _. simpl. by rewrite !fupd_eq. }
  match goal with |- Q _ _ ?x => revert HQ; match goal with |- Q _ _ ?y -> _ =>
    replace x with y; [done|] end end.
  unfold a_write, a_brelse, a_bwrite, a_store, set_refs.
  cbn [a_disk a_view a_refs a_trace r1 r_cnt r_h r_held].
  rewrite !fupd_eq, Ev, Ed, Etr, E2. f_equal. symmetry. by apply delete_insert_id.
Qed.

Lemma lwp_read_blocks h m i fuel Q l a :
  (m < fuel)%nat -> Z.of_nat i + Z.of_nat m = lh_n l -> lh_n l <= LOGSIZE ->
  Z.of_nat (length (lh_block l)) = LOGSIZE ->
  (forall bl, length bl = length (lh_block l) -> take i bl = take i (lh_block l) ->
     (forall k, (i <= k < i + m)%nat -> bl !! k = Some (hdr_block h k)) ->
     Q tt (set_lh (lh_n l) bl l) a) ->
  lwp (read_blocks fuel h (Z.of_nat i)) Q l a.
Proof.
  unfold LOGSIZE.
  revert i fuel l. induction m as [|m IH]; intros i fuel l Hf Hn Hlt Hl HQ;
    destruct fuel as [|fuel]; cbn [read_blocks]; try lia; apply lwp_bind, lwp_get_log.
  - destruct (Z.ltb_spec (Z.of_nat i) (lh_n l)); [lia|]. apply lwp_ret.
    specialize (HQ (lh_block l) eq_refl eq_refl). destruct l. apply HQ. intros k Hk. lia.
  - destruct (Z.ltb_spec (Z.of_nat i) (lh_n l)); [|lia].
    apply lwp_bind, lwp_lh_set; [unfold LOGSIZE; lia|]. rewrite Nat2Z.id.
    replace (Z.of_nat i + 1) with (Z.of_nat (i + 1)) by lia.
    apply IH; [lia|simpl; lia|simpl; lia|simpl; by rewrite length_insert|].
    simpl. rewrite length_insert. intros bl Hbl Ht Hk. unfold set_lh at 1. simpl.
    apply HQ; [done| |].
    + apply (f_equal (take i)) in Ht. rewrite !take_take in Ht.
      replace (i `min` (i + 1))%nat with i in Ht by lia.
      rewrite Ht. by rewrite take_insert_ge by lia.
    + intros k Hk'. destruct (decide (k = i)) as [->|]; [|apply Hk; lia].
      apply (f_equal (fun x => x !! i)) in Ht. rewrite !lookup_take_lt in Ht by lia.
      rewrite Ht. apply list_lookup_insert_eq. lia.
Qed.

Lemma lwp_read_head st Q l a :
  u32 (start l) = st -> 0 <= hdr_n (a_view a st) <= LOGSIZE ->
  Z.of_nat (length (lh_block l)) = LOGSIZE ->
  quiet a -> a_refs a !! st = None -> a_view a st = a_disk a st -> (size (a_refs a) < nbuf)%nat ->
  (forall bl, length bl = length (lh_block l) ->
     take (Z.to_nat (hdr_n (a_view a st))) bl = hdr_list (a_view a st) ->
     Q tt (set_lh (hdr_n (a_view a st)) bl l) a) ->
  lwp read_head Q l a.
Proof.
  intros Est Hn Hlen Hq Hst Hcl Hsz HQ. unfold read_head, LOGSIZE in *.
  pose proof (u32_range (start l)) as Rt. rewrite Est in Rt.
  apply lwp_bind, lwp_get_log. rewrite Est.
  apply lwp_bind, lwp_bread; [done|by apply quiet_bread|]. intros h1 _.
  set (r1 := mkref h1 1 true). set (a2 := a_bread st h1 a).
  assert (a_refs a2 = <[st := r1]> (a_refs a)) as E2 by (simpl; by rewrite Hst).
  assert (a_view a2 = a_view a /\ a_disk a2 = a_disk a /\ a_trace a2 = a_trace a)
    as (Ev & Ed & Etr) by done. clearbody a2.
  assert (a_refs a2 !! st = Some r1) as L1 by by rewrite E2, lookup_insert_eq.
  apply lwp_bind, (lwp_data st r1); [done|]. rewrite Ev.
  set (h := a_view a st) in *.
  apply lwp_bind, lwp_mod_log. apply lwp_bind. change 0 with (Z.of_nat 0).
  apply (lwp_read_blocks h (Z.to_nat (hdr_n h))); simpl; unfold log_fuel, LOGSIZE; [lia..|].
  intros bl Hbl _ Hk. apply (lwp_brelse st r1); [done|done|by rewrite Ev, Ed|].
  match goal with |- Q _ _ ?x => replace x with a end.
  { apply (HQ bl Hbl). apply list_eq. intros k. unfold hdr_list.
    rewrite list_lookup_fmap. destruct (decide (k < Z.to_nat (hdr_n h))%nat).
    - rewrite lookup_take_lt, lookup_seq_lt by done. simpl. apply Hk. lia.
    - rewrite lookup_take_ge, lookup_seq_ge by lia. done. }
  unfold a_brelse, set_refs. cbn [r1 r_cnt r_h]. rewrite Ev, Ed, Etr, E2. simpl.
  rewrite delete_insert_id by done. by destruct a.
Qed.

Definition log_place l : Prop := 0 <= start l /\ start l + LOGSIZE < 2 ^ 31.

Lemma lwp_write_log rest i fuel Q l a :
  (length rest < fuel)%nat -> Z.of_nat i + Z.of_nat (length rest) = lh_n l ->
  lh_n l < LOGSIZE -> log_place l ->
  (forall k x, rest !! k = Some x -> lh_block l !! (i + k)%nat = Some x) ->
  (forall b, b ∈ rest -> loggable (start l) b /\ 0 < cnt_of (a_refs a !! b) < 2 ^ 32) ->
  (forall b, in_log (start l) b -> a_refs a !! b = None) ->
  quiet a -> (size (a_refs a) < nbuf)%nat ->
  Q tt l (a_writes (log_copies (start l) i rest (a_view a)) a) ->
  lwp (write_log_loop fuel (Z.of_nat i)) Q l a.
Proof.
  unfold log_place, loggable, in_log, LOGSIZE.
  revert i fuel a. induction rest as [|b rest IH];
    intros i fuel a Hf Hn Hlt Hpl Hl Hb Hlog Hq Hsz HQ; (destruct fuel as [|fuel]; [simpl in *; lia|]).
  - simpl in *. apply lwp_bind, lwp_get_log. destruct (Z.ltb_spec (Z.of_nat i) (lh_n l)); [lia|].
    apply lwp_ret. unfold a_writes in HQ. simpl in HQ. rewrite app_nil_r in HQ. by destruct a.
  - cbn [length] in *. destruct (Hb b) as [[Hb1 Hb2] Hb3]; [set_solver|].
    destruct (a_refs a !! b) as [r|] eqn:Er; simpl in Hb3; [|lia].
    eapply (lwp_write_log_step fuel (Z.of_nat i) (start l + Z.of_nat i + 1) b b r);
      [lia|apply u32_small; lia|apply u32_small; lia|lia| |done|apply Hlog; lia|done|lia|done|].
    { rewrite Nat2Z.id, <-(Nat.add_0_r i). by apply Hl. }
    replace (Z.of_nat i + 1) with (Z.of_nat (i + 1)) by lia.
    apply IH; [lia|lia|done|done| | |done|done|done|].
    + intros k x Hk. rewrite <-Nat.add_assoc. by apply Hl.
    + intros c Hc. simpl. apply Hb. set_solver.
    + rewrite <-a_writes_cons. simpl in HQ.
      rewrite (log_copies_ext _ _ _ _ (a_view a)); [done|].
      intros c Hc. simpl. apply fupd_ne. destruct (Hb c); [set_solver|]. lia.
Qed.

(** What [install_trans] leaves of the references: a pinned block is released;
    a block that was not pinned keeps a reference count of [-1]. *)
Definition inst_refs (pinned : bool) (bl : list Z) (m m' : gmap Z (aref H)) : Prop :=
  (forall b, b ∉ bl -> m' !! b = m !! b) /\
  (forall b, b ∈ bl -> if pinned then m' !! b = None
                      else exists h, m' !! b = Some (mkref h (2 ^ 32 - 1) false)) /\
  (size m' <= size m + if pinned then 0 else length bl)%nat.

Lemma quiet_unpin b h a : quiet a -> quiet (a_unpin b h a).
Proof.
  intros Hq x r Hr. unfold a_unpin, set_refs in Hr. simpl in Hr.
  destruct (Z.eqb_spec (u32 (cnt_of (a_refs a !! b) - 1)) 0).
  - apply lookup_delete_Some in Hr as [_ Hr]. by apply (Hq x).
  - apply lookup_insert_Some in Hr as [[<- <-]|[_ Hr]]; [done|by apply (Hq x)].
Qed.

Lemma lwp_install (pinned : bool) rest i fuel Q l a :
  (length rest < fuel)%nat -> Z.of_nat i + Z.of_nat (length rest) = lh_n l ->
  lh_n l < LOGSIZE -> log_place l ->
  (forall k x, rest !! k = Some x -> lh_block l !! (i + k)%nat = Some x) ->
  NoDup rest ->
  (forall b, b ∈ rest -> loggable (start l) b /\
     if pinned then cnt_of (a_refs a !! b) = 1 else a_refs a !! b = None) ->
  (forall b, in_log (start l) b -> a_refs a !! b = None) ->
  (forall b, in_log (start l) b -> a_view a b = a_disk a b) ->
  quiet a -> (size (a_refs a) + (if pinned then 0 else length rest) < nbuf)%nat ->
  (forall m', inst_refs pinned rest (a_refs a) m' ->
     let ws := installs (start l) i rest (a_view a) in
     Q tt l (mkcache (apply_writes ws (a_disk a)) (apply_writes ws (a_view a)) m' (a_trace a ++ ws))) ->
  lwp (install_loop fuel (Z.of_nat i)) Q l a.
Proof.
  unfold log_place, loggable, in_log, LOGSIZE.
  revert i fuel a. induction rest as [|b rest IH];
    intros i fuel a Hf Hn Hlt Hpl Hl Hnd Hb Hlog Hcl Hq Hsz HQ; (destruct fuel as [|fuel]; [simpl in *; lia|]).
  - simpl in *. apply lwp_bind, lwp_get_log. destruct (Z.ltb_spec (Z.of_nat i) (lh_n l)); [lia|].
    apply lwp_ret. specialize (HQ (a_refs a)). rewrite app_nil_r in HQ. destruct a. apply HQ.
    split; [done|split; [set_solver|lia]].
  - cbn [length] in *. destruct (Hb b) as [[Hb1 Hb2] Hb3]; [set_solver|].
    apply NoDup_cons in Hnd as [Hnin Hnd].
    eapply (lwp_install_step fuel (Z.of_nat i) (start l + Z.of_nat i + 1) b b);
      [lia|apply u32_small; lia|apply u32_small; lia|lia| |done|apply Hlog; lia|apply Hcl; lia| | | |].
    { rewrite Nat2Z.id, <-(Nat.add_0_r i). by apply Hl. }
    { destruct pinned; rewrite Hb3; simpl; lia. }
    { destruct pinned; lia. }
    { intros E. destruct pinned; [rewrite E in Hb3; simpl in Hb3; lia|lia]. }
    intros h. replace (Z.of_nat i + 1) with (Z.of_nat (i + 1)) by lia.
    set (m1 := a_refs (a_unpin b h (a_write b (a_view a (start l + Z.of_nat i + 1)) a))).
    assert (Hm1 : forall x, x <> b -> m1 !! x = a_refs a !! x).
    { intros x Hx. subst m1. simpl.
      destruct (u32 (cnt_of (a_refs a !! b) - 1) =? 0);
        [by rewrite lookup_delete_ne|by rewrite lookup_insert_ne]. }
    assert (Hm1b : if pinned then m1 !! b = None else m1 !! b = Some (mkref h (2 ^ 32 - 1) false)).
    { subst m1. simpl. destruct pinned; rewrite Hb3; simpl.
      - apply lookup_delete_eq.
      - rewrite lookup_insert_eq. done. }
    assert (Hs1 : (size m1 + (if pinned then 0 else length rest)
                   <= size (a_refs a) + (if pinned then 0 else 1 + length rest))%nat).
    { subst m1. simpl. destruct pinned; rewrite Hb3; simpl.
      - pose proof (map_size_delete b (a_refs a)) as Hd. destruct (a_refs a !! b); simpl in *; lia.
      - rewrite map_size_insert_None by done. lia. }
    apply IH; [lia|lia|done|done| |done| | | | | |].
    + intros k x Hk. rewrite <-Nat.add_assoc. by apply Hl.
    + intros c Hc. fold m1. rewrite Hm1 by congruence. apply Hb. set_solver.
    + intros c Hc. fold m1. rewrite Hm1 by lia. by apply Hlog.
    + intros c Hc. simpl. rewrite !fupd_ne by lia. by apply Hcl.
    + by apply quiet_unpin.
    + fold m1. destruct pinned; lia.
    + intros m' (Hm'1 & Hm'2 & Hm'3). fold m1 in Hm'1, Hm'3.
      assert (inst_refs pinned (b :: rest) (a_refs a) m') as HI.
      { split; [|split].
        - intros x [Hx1 Hx2]%not_elem_of_cons. rewrite Hm'1 by done. by apply Hm1.
        - intros x [->|Hx]%elem_of_cons; [|by apply Hm'2].
          rewrite Hm'1 by done. destruct pinned; [done|eauto].
        - cbn [length]. destruct pinned; lia. }
      specialize (HQ m' HI). cbn [installs] in HQ.
      change (apply_writes ((?x, ?y) :: ?ws) ?d) with (apply_writes ws (fupd d x y)) in HQ.
      rewrite <-(installs_ext (start l) (i + 1) rest
        (a_view (a_unpin b h (a_write b (a_view a (start l + Z.of_nat i + 1)) a)))) in HQ.
      * simpl. rewrite <-app_assoc. simpl. done.
      * intros k Hk. simpl. apply fupd_ne. lia.
Qed.

Definition logged l : list Z := take (Z.to_nat (lh_n l)) (lh_block l).

(** The state in which [end_op] calls [commit]: the logged blocks are pinned,
    no buffer of the log area is referenced. *)
Record commit_ready l a : Prop := {
  cr_place : log_place l;
  cr_n : 0 <= lh_n l < LOGSIZE;
  cr_len : Z.of_nat (length (lh_block l)) = LOGSIZE;
  cr_wf : wf_blocks (start l) (logged l);
  cr_pinned : forall b, b ∈ logged l -> cnt_of (a_refs a !! b) = 1;
  cr_log : forall b, in_log (start l) b -> a_refs a !! b = None;
  cr_clean : forall b, in_log (start l) b -> a_view a b = a_disk a b;
  cr_quiet : quiet a;
  cr_size : (size (a_refs a) < nbuf)%nat;
  cr_hdr : length (a_view a (start l)) = 1024%nat }.

Lemma logged_length l :
  0 <= lh_n l < LOGSIZE -> Z.of_nat (length (lh_block l)) = LOGSIZE ->
  Z.of_nat (length (logged l)) = lh_n l.
Proof. intros. unfold logged. rewrite length_take. lia. Qed.

Lemma logged_lookup l k x : logged l !! k = Some x -> lh_block l !! (0 + k)%nat = Some x.
Proof. by intros [? _]%lookup_take_Some. Qed.

Lemma in_log_start st : in_log st st.
Proof. unfold in_log, LOGSIZE. lia. Qed.

Lemma u32_place l : log_place l -> u32 (start l) = start l.
Proof. unfold log_place, LOGSIZE. intros. apply u32_small. lia. Qed.

(** [write_log] and [install_trans] of the whole transaction. *)
Lemma lwp_write_log_all Q l a :
  commit_ready l a ->
  Q tt l (a_writes (log_copies (start l) 0 (logged l) (a_view a)) a) ->
  lwp write_log Q l a.
Proof.
  intros [] HQ. pose proof (logged_length l cr_n0 cr_len0) as Hl.
  destruct cr_wf0 as (_ & Hf & _). rewrite Forall_forall in Hf.
  apply (lwp_write_log (logged l) 0 log_fuel); try done; unfold log_fuel, LOGSIZE in *; try lia.
  - apply logged_lookup.
  - intros b Hb. split; [by apply Hf|]. rewrite cr_pinned0 by done. lia.
Qed.

Lemma lwp_commit l a :
  commit_ready l a -> 0 < lh_n l ->
  let W := commit_writes (start l) (logged l) (a_view a) (a_view a (start l)) in
  lwp commit (fun _ l' a' =>
    l' = set_lh 0 (lh_block l) l /\ inst_refs true (logged l) (a_refs a) (a_refs a') /\
    a_disk a' = apply_writes W (a_disk a) /\ a_view a' = apply_writes W (a_view a) /\
    a_trace a' = a_trace a ++ W) l a.
Proof.
  intros Hcr Hn W. pose proof Hcr as []. pose proof (in_log_start (start l)) as Hst.
  pose proof (logged_length l cr_n0 cr_len0) as Hl. pose proof (u32_place l cr_place0) as Hu.
  set (st := start l) in *. set (bl := logged l) in *. set (v := a_view a) in *.
  set (W1 := log_copies st 0 bl v). set (a1 := a_writes W1 a).
  assert (writes_in (fun b => st < b < st + LOGSIZE) W1) as HW1.
  { apply log_copies_in. unfold LOGSIZE in *. lia. }
  assert (a_view a1 st = v st) as E1 by (eapply writes_in_out; [exact HW1|cbv beta; lia]).
  set (h1 := hdr_enc (Z.of_nat (length bl)) bl (v st)). set (a2 := a_write st h1 a1).
  unfold commit. apply lwp_bind, lwp_get_log. destruct (Z.ltb_spec 0 (lh_n l)); [|lia].
  apply lwp_bind, lwp_write_log_all; [done|]. fold st bl v W1 a1.
  apply lwp_bind, (lwp_write_head st); [done|lia|done|done|by apply cr_log0|done|].
  fold st. rewrite E1. fold (logged l). fold bl. rewrite <-Hl. fold h1 a2.
  apply lwp_bind. apply (lwp_install true bl 0 log_fuel); try done; fold st; unfold log_fuel; try (unfold LOGSIZE in *; lia).
  { apply logged_lookup. }
  { by destruct cr_wf0. }
  { intros b Hb. destruct cr_wf0 as (_ & Hf & _). rewrite Forall_forall in Hf.
    split; [by apply Hf|]. simpl. by apply cr_pinned0. }
  { intros b Hb. simpl. unfold fupd. destruct (b =? st); [done|].
    apply apply_writes_eq. by apply cr_clean0. }
  { simpl. lia. }
  intros m' Hm'. cbv zeta.
  replace (installs st 0 bl (a_view a2)) with ((fun b => (b, v b)) <$> bl)
    by (symmetry; by apply (e2_copies st bl v v)).
  set (W3 := (fun b => (b, v b)) <$> bl).
  assert (writes_in (fun b => b ∈ bl) W3) as HW3.
  { unfold writes_in, W3. rewrite <-list_fmap_compose. simpl.
    rewrite list_fmap_id. by apply Forall_forall. }
  assert (~ st ∈ bl) as Hnst by (intros Hin; by apply (wf_not_log st bl cr_wf0 st)).
  set (a3 := mkcache (apply_writes W3 (a_disk a2)) (apply_writes W3 (a_view a2)) m' (a_trace a2 ++ W3)).
  assert (a_view a3 st = h1) as E3.
  { simpl. rewrite (writes_in_out _ _ _ _ HW3) by done. apply fupd_eq. }
  assert (quiet a3) as Hq3.
  { intros b r Hr. destruct Hm' as (Hm1 & Hm2 & _).
    destruct (decide (b ∈ bl)) as [Hb|Hb].
    - specialize (Hm2 b Hb). simpl in *. congruence.
    - apply (cr_quiet0 b). transitivity (m' !! b); [symmetry; apply (Hm1 b Hb)|done]. }
  apply lwp_bind, lwp_get_log. apply lwp_bind, lwp_mod_log.
  apply (lwp_write_head st); [done|done|done|done| |destruct Hm' as (_ & _ & ?); simpl in *; lia|].
  { destruct Hm' as (Hm1 & _). simpl. rewrite (Hm1 st Hnst). by apply cr_log0. }
  rewrite E3. simpl lh_n. rewrite take_0.
  assert (W = W1 ++ [(st, h1)] ++ W3 ++ [(st, hdr_enc 0 [] h1)]) as -> by done.
  rewrite !apply_writes_app. repeat split; try apply Hm'.
  simpl. by rewrite <-!app_assoc.
Qed.

(** The state at boot, before recovery: an empty cache over the disk. *)
Record boot_ready l a : Prop := {
  bt_place : log_place l;
  bt_len : Z.of_nat (length (lh_block l)) = LOGSIZE;
  bt_disk : disk_log_ok (start l) (a_disk a);
  bt_refs : a_refs a = ∅;
  bt_view : a_view a = a_disk a;
  bt_nbuf : LOGSIZE <= Z.of_nat nbuf }.

Definition recover_writes (st : Z) (d : Z -> bytes) : list (Z * bytes) :=
  installs st 0 (hdr_list (d st)) d ++ [(st, hdr_enc 0 [] (d st))].

Lemma lwp_recover l a :
  boot_ready l a ->
  let W := recover_writes (start l) (a_disk a) in
  lwp recover_from_log (fun _ l' a' =>
    lh_n l' = 0 /\ inst_refs false (hdr_list (a_disk a (start l))) ∅ (a_refs a') /\
    a_disk a' = apply_writes W (a_disk a) /\ a_view a' = a_disk a' /\
    a_trace a' = a_trace a ++ W) l a.
Proof.
  intros [Hpl Hlen Hok Hrefs Hview Hnb] W. pose proof (in_log_start (start l)) as Hst.
  pose proof (u32_place l Hpl) as Hu. destruct Hok as (Hd1 & Hd2 & Hwf).
  set (st := start l) in *. set (d := a_disk a) in *. set (bl := hdr_list (d st)) in *.
  assert (quiet a) as Hq by (intros b r; by rewrite Hrefs).
  assert (length bl = Z.to_nat (hdr_n (d st))) as Hbl
    by (unfold bl, hdr_list; by rewrite length_fmap, length_seq).
  assert (size (a_refs a) = 0)%nat as Hsz by (rewrite Hrefs; apply map_size_empty).
  assert (forall b : Z, a_refs a !! b = None) as Hnone by (intros; by rewrite Hrefs).
  unfold LOGSIZE in *. unfold recover_from_log.
  apply lwp_bind, (lwp_read_head st); try done; rewrite ?Hview; try done;
    [unfold LOGSIZE; fold d; lia|lia|].
  fold d. intros bl' Hbl' Htake. fold bl in Htake.
  apply lwp_bind. apply (lwp_install false bl 0 log_fuel); try done; simpl; fold st;
    unfold log_fuel, LOGSIZE; try lia.
  { intros k x Hk. rewrite <-Htake in Hk. by apply lookup_take_Some in Hk as [? _]. }
  { by destruct Hwf. }
  { intros b Hb. split; [|done]. destruct Hwf as (_ & Hf & _). rewrite Forall_forall in Hf. by apply Hf. }
  { intros b _. by rewrite Hview. }
  rewrite Hview, Hrefs. fold d. intros m' Hm'.
  set (W3 := installs st 0 bl d).
  assert (writes_in (fun b => b ∈ bl) W3) as HW3 by apply installs_in.
  assert (~ st ∈ bl) as Hnst by (intros Hin; by apply (wf_not_log st bl Hwf st)).
  set (a3 := mkcache (apply_writes W3 d) (apply_writes W3 d) m' (a_trace a ++ W3)).
  assert (a_view a3 st = d st) as E3 by by apply (writes_in_out _ _ _ _ HW3).
  assert (quiet a3) as Hq3.
  { intros b r Hr. destruct Hm' as (Hm1 & Hm2 & _).
    destruct (decide (b ∈ bl)) as [Hb|Hb].
    - specialize (Hm2 b Hb) as [h Hh]. simpl in *. rewrite Hh in Hr. by simplify_eq.
    - simpl in Hr. by rewrite (Hm1 b Hb) in Hr. }
  apply lwp_bind, lwp_get_log. apply lwp_bind, lwp_mod_log.
  apply (lwp_write_head st); [done|done| |done| | |]; simpl.
  { unfold LOGSIZE. lia. }
  { destruct Hm' as (Hm1 & _). by rewrite (Hm1 st Hnst). }
  { destruct Hm' as (_ & _ & Hs). rewrite map_size_empty in Hs. lia. }
  simpl in E3. rewrite E3, take_0.
  unfold W, recover_writes. fold bl W3. rewrite !apply_writes_app.
  repeat split; try apply Hm'. simpl. by rewrite <-!app_assoc.
Qed.

Lemma recover_prefix st d p :
  disk_log_ok st d -> p `prefix_of` recover_writes st d ->
  disk_log_ok st (apply_writes p d) /\ same_data st (replay st (apply_writes p d)) (replay st d).
Proof.
  intros (Hl & Hn & Hwf) [Hp|(q & -> & [->| ->]%prefix_single)]%prefix_app_split.
  - assert (apply_writes p d st = d st) as Hs
      by (apply (installs_log st _ Hwf 0 d); [done|apply in_log_start]).
    split; [unfold disk_log_ok; by rewrite Hs|]. by apply (replay_committed st _ Hwf d p d).
  - rewrite app_nil_r.
    assert (apply_writes (installs st 0 (hdr_list (d st)) d) d st = d st) as Hs
      by (apply (installs_log st _ Hwf 0 d); [done|apply in_log_start]).
    split; [unfold disk_log_ok; by rewrite Hs|]. by apply (replay_committed st _ Hwf d _ d).
  - rewrite apply_writes_app. fold (replay st d).
    change (apply_writes [(st, hdr_enc 0 [] (d st))] _) with (fupd (replay st d) st (hdr_enc 0 [] (d st))).
    destruct (hdr_empty (d st) Hl) as [E0 El].
    split; [apply disk_log_empty; by rewrite fupd_eq|].
    rewrite replay_empty by by rewrite fupd_eq. intros b Hb. apply fupd_ne.
    intros ->. by apply Hb, in_log_start.
Qed.

(** ** Transactions *)

Lemma find_slot_spec fuel bl n bno i :
  (Z.to_nat n < fuel + i)%nat -> Z.of_nat i <= n -> n <= Z.of_nat (length bl) ->
  exists j, find_slot fuel bl n bno (Z.of_nat i) = Some (Z.of_nat j) /\ (i <= j)%nat /\
    Z.of_nat j <= n /\
    (Z.of_nat j < n -> exists b, bl !! j = Some b /\ u32 b = bno) /\
    (forall k b, (i <= k < j)%nat -> bl !! k = Some b -> u32 b <> bno).
Proof.
  revert i. induction fuel as [|fuel IH]; intros i Hf Hi Hn; [lia|]. cbn [find_slot].
  destruct (Z.ltb_spec (Z.of_nat i) n) as [Hlt|Hge].
  - destruct (lookup_lt_is_Some_2 bl i) as [b Hb]; [lia|]. rewrite Nat2Z.id, Hb.
    destruct (Z.eqb_spec (u32 b) bno) as [Heq|Hne].
    + exists i. repeat split; [lia|lia|eauto|lia].
    + replace (Z.of_nat i + 1) with (Z.of_nat (i + 1)) by lia.
      destruct (IH (i + 1)%nat) as (j & -> & H1 & H2 & H3 & H4); [lia..|].
      exists j. repeat split; [lia|done|done|]. intros k c Hk Hc.
      destruct (decide (k = i)) as [->|]; [congruence|]. apply (H4 k); [lia|done].
  - exists i. repeat split; [lia|lia|lia|lia].
Qed.

(** During a transaction: [commit] could run, the log on disk is empty and
    only logged blocks differ from the disk. *)
Record tx_inv l a : Prop := {
  tx_ready : commit_ready l a;
  tx_empty : hdr_n (a_disk a (start l)) = 0;
  tx_clean : forall b, ~ in_log (start l) b -> b ∉ logged l -> a_view a b = a_disk a b }.

Definition log_after (b : Z) l : log :=
  if decide (b ∈ logged l) then l
  else set_lh (lh_n l + 1) (<[Z.to_nat (lh_n l) := b]> (lh_block l)) l.

Lemma logged_after b l :
  0 <= lh_n l < LOGSIZE -> Z.of_nat (length (lh_block l)) = LOGSIZE -> b ∉ logged l ->
  logged (log_after b l) = logged l ++ [b].
Proof.
  intros Hn Hl Hb. unfold log_after. rewrite decide_False by done. unfold logged. simpl.
  unfold LOGSIZE in *. replace (Z.to_nat (lh_n l + 1)) with (Datatypes.S (Z.to_nat (lh_n l))) by lia.
  rewrite (take_S_r _ _ b).
  - by rewrite take_insert_ge by lia.
  - apply list_lookup_insert_eq. lia.
Qed.

(** [log_write] of a held buffer, on both branches. *)
Lemma lwp_log_write r b Q l a :
  lh_n l < LOGSIZE -> lh_n l < lsize l - 1 -> 1 <= outstanding l -> 0 <= lh_n l ->
  Z.of_nat (length (lh_block l)) = LOGSIZE -> Forall (fun b => 0 <= b < 2 ^ 31) (logged l) ->
  NoDup (logged l) -> 0 <= b < 2 ^ 31 -> a_refs a !! b = Some r -> r_held r = true ->
  Q tt (log_after b l) (if decide (b ∈ logged l) then a else a_bpin b r a) ->
  lwp (log_write (r_h r) b) Q l a.
Proof.
  intros H1 H2 H3 H4 Hlen Hr Hnd Hb Hrb Hh HQ. unfold log_write, LOGSIZE in *.
  apply lwp_bind, lwp_get_log.
  destruct (Z.leb_spec 30 (lh_n l)); [lia|]. destruct (Z.leb_spec (lsize l - 1) (lh_n l)); [lia|].
  destruct (Z.ltb_spec (outstanding l) 1); [lia|]. cbn [orb].
  destruct (find_slot_spec log_fuel (lh_block l) (lh_n l) b 0) as (j & Hj & _ & Hjn & Hin & Hout);
    [unfold log_fuel; lia|lia|lia|]. change (Z.of_nat 0) with 0 in Hj. rewrite Hj.
  assert (forall k c, Z.of_nat k < lh_n l -> lh_block l !! k = Some c -> u32 c = c /\ c ∈ logged l) as Hlg.
  { intros k c Hk Hc. assert (logged l !! k = Some c) as Hc'
      by (unfold logged; rewrite lookup_take_lt by lia; done).
    split; [|by eapply list_elem_of_lookup_2]. rewrite Forall_lookup in Hr.
    specialize (Hr _ _ Hc'). apply u32_small. lia. }
  apply lwp_bind, lwp_lh_set; [unfold LOGSIZE; lia|]. rewrite s32_small by lia. rewrite Nat2Z.id.
  unfold log_after in HQ. destruct (Z.eqb_spec (Z.of_nat j) (lh_n l)) as [Hjl|Hjl].
  - assert (b ∉ logged l) as Hnin.
    { intros [k Hk]%list_elem_of_lookup. apply lookup_take_Some in Hk as [Hk Hkn].
      destruct (Hlg k b) as [Hu _]; [lia|done|]. apply (Hout k b); [lia|done|done]. }
    rewrite !decide_False in HQ by done. apply lwp_bind, (lwp_bpin b); [done|done|].
    apply lwp_mod_log. replace j with (Z.to_nat (lh_n l)) by lia. done.
  - apply lwp_ret. destruct Hin as (c & Hc & Hcb); [lia|].
    destruct (Hlg j c) as [Hu Hin]; [lia|done|]. rewrite Hu in Hcb. subst c.
    rewrite !decide_True in HQ by done. rewrite list_insert_id by done. by destruct l.
Qed.

Definition tx_can l a (b : Z) : Prop :=
  loggable (start l) b /\ 1 <= outstanding l /\ lh_n l + 1 < LOGSIZE /\ lh_n l < lsize l - 1 /\
  (b ∉ logged l -> a_refs a !! b = None /\ (size (a_refs a) + 1 < nbuf)%nat).

Lemma log_after_fields b l :
  start (log_after b l) = start l /\ lsize (log_after b l) = lsize l /\
  outstanding (log_after b l) = outstanding l /\ committing (log_after b l) = committing l /\
  length (lh_block (log_after b l)) = length (lh_block l) /\
  lh_n (log_after b l) = lh_n l + if decide (b ∈ logged l) then 0 else 1.
Proof.
  unfold log_after. case_decide; simpl; rewrite ?length_insert, ?Z.add_0_r; done.
Qed.

(** The logged blocks after a [log_write]. *)
Lemma logged_after_elem b l c :
  0 <= lh_n l < LOGSIZE -> Z.of_nat (length (lh_block l)) = LOGSIZE ->
  c ∈ logged (log_after b l) <-> c = b \/ c ∈ logged l.
Proof.
  intros Hn Hl. destruct (decide (b ∈ logged l)) as [Hb|Hb].
  - unfold log_after. rewrite decide_True by done. naive_solver.
  - rewrite logged_after by done. set_solver.
Qed.

Lemma wf_blocks_after b l :
  0 <= lh_n l -> lh_n l + 1 < LOGSIZE -> Z.of_nat (length (lh_block l)) = LOGSIZE ->
  loggable (start l) b -> wf_blocks (start l) (logged l) ->
  wf_blocks (start l) (logged (log_after b l)).
Proof.
  intros H0 Hn Hl Hb Hwf. destruct (decide (b ∈ logged l)) as [Hin|Hin].
  - unfold log_after. by rewrite decide_True.
  - rewrite logged_after by (done || lia). destruct Hwf as (Hnd & Hf & Hlen).
    split; [|split].
    + apply NoDup_app. split; [done|]. split; [set_solver|]. apply NoDup_singleton.
    + apply Forall_app. split; [done|]. by constructor.
    + rewrite length_app. simpl. unfold logged. rewrite length_take. lia.
Qed.

Lemma quiet_insert b h a d v tr :
  quiet a -> quiet (mkcache d v (<[b := mkref h 1 false]> (a_refs a)) tr).
Proof.
  intros Hq x r. simpl. intros [[<- <-]|[_ Hr]]%lookup_insert_Some; [done|by apply (Hq x)].
Qed.

Lemma tx_after b h v l a :
  tx_inv l a -> tx_can l a b ->
  tx_inv (log_after b l)
    (mkcache (a_disk a) (fupd (a_view a) b v) (<[b := mkref h 1 false]> (a_refs a)) (a_trace a)).
Proof.
  intros [[] He Hc] (Hlg & Ho & Hn & Hs & Hnew).
  destruct (log_after_fields b l) as (F1 & F2 & F3 & F4 & F5 & F6).
  assert (b <> start l) as Hbs by (intros ->; apply Hlg, in_log_start).
  assert (forall c, in_log (start l) c -> c <> b) as Hne by (intros c Hc' ->; by apply Hlg).
  split; [|by rewrite F1|].
  - split; rewrite ?F1, ?F5; try done.
    + unfold log_place. by rewrite F1.
    + rewrite F6. case_decide; lia.
    + apply wf_blocks_after; try done; lia.
    + intros c. rewrite logged_after_elem by (done || lia). simpl.
      destruct (decide (c = b)) as [->|Hcb]; [by rewrite lookup_insert_eq|].
      rewrite lookup_insert_ne by congruence. intros [?|?]; [done|by apply cr_pinned0].
    + intros c Hin. simpl. rewrite lookup_insert_ne by (symmetry; by apply Hne). by apply cr_log0.
    + intros c Hin. simpl. rewrite fupd_ne by by apply Hne. by apply cr_clean0.
    + by apply quiet_insert.
    + simpl. destruct (decide (b ∈ logged l)) as [Hin|Hin].
      * specialize (cr_pinned0 b Hin). destruct (a_refs a !! b) as [r|] eqn:E; [|simpl in *; lia].
        rewrite map_size_insert_Some by eauto. done.
      * destruct (Hnew Hin) as [E ?]. rewrite map_size_insert_None by done. lia.
    + simpl. by rewrite fupd_ne by congruence.
  - intros c Hout. rewrite F1 in Hout. rewrite logged_after_elem by (done || lia).
    intros Hc'. simpl. rewrite fupd_ne by naive_solver. apply Hc; naive_solver.
Qed.

Lemma lwp_log_update b f l a :
  tx_inv l a -> tx_can l a b ->
  lwp (log_update b f) (fun _ l' a' =>
    l' = log_after b l /\ exists h, a' =
      mkcache (a_disk a) (fupd (a_view a) b (f (a_view a b)))
        (<[b := mkref h 1 false]> (a_refs a)) (a_trace a)) l a.
Proof.
  intros Htx (Hlg & Ho & Hn & Hs & Hnew). pose proof (tx_ready _ _ Htx) as [].
  assert (0 <= b < 2 ^ 31) as Hb by apply Hlg.
  set (c := cnt_of (a_refs a !! b)).
  assert (c = if decide (b ∈ logged l) then 1 else 0) as Hc.
  { unfold c. case_decide as Hin; [by apply cr_pinned0|]. by destruct (Hnew Hin) as [-> _]. }
  unfold log_update. apply lwp_bind, lwp_bread; [lia| |].
  { apply quiet_bread; [done|]. intros E. done. }
  intros h _. set (r1 := mkref h (c + 1) true). set (a1 := a_bread b h a).
  assert (a_refs a1 = <[b := r1]> (a_refs a)) as E1.
  { simpl. fold c. rewrite u32_small; [done|]. case_decide; lia. }
  assert (a_view a1 = a_view a /\ a_disk a1 = a_disk a /\ a_trace a1 = a_trace a)
    as (Ev & Ed & Et) by done. clearbody a1.
  assert (a_refs a1 !! b = Some r1) as L1 by by rewrite E1, lookup_insert_eq.
  apply lwp_bind, (lwp_data b r1); [done|]. apply lwp_bind, (lwp_store b r1); [done|done|].
  apply lwp_bind, (lwp_log_write r1 b); try done; try lia.
  { apply (wf_range _ _ cr_wf0). }
  { by destruct cr_wf0. }
  rewrite Ev. set (a2 := a_store b _ a1).
  assert (forall x, a_refs x = <[b := mkref h 2 true]> (a_refs a) ->
    a_view x = a_view a2 -> a_disk x = a_disk a -> a_trace x = a_trace a ->
    lwp (lift (bc_brelse h)) (fun _ l' a' => l' = log_after b l /\ exists h, a' =
      mkcache (a_disk a) (fupd (a_view a) b (f (a_view a b)))
        (<[b := mkref h 1 false]> (a_refs a)) (a_trace a)) (log_after b l) x) as Hfin.
  { intros x Hx1 Hx2 Hx3 Hx4. apply (lwp_brelse b (mkref h 2 true));
      [by rewrite Hx1, lookup_insert_eq|done|done|].
    split; [done|]. exists h. unfold a_brelse, set_refs. simpl.
    rewrite Hx1, Hx2, Hx3, Hx4, insert_insert_eq. simpl. by rewrite Ev. }
  apply Hfin.
  - case_decide as Hin; subst a2; simpl; rewrite E1; unfold r1; rewrite Hc.
    + done.
    + by rewrite insert_insert_eq.
  - by case_decide.
  - case_decide; simpl; by rewrite Ed.
  - case_decide; simpl; by rewrite Et.
Qed.

(** The effect of a list of updates on the contents of the disk. *)
Definition apply_updates (us : list (Z * (bytes -> bytes))) (v : Z -> bytes) : Z -> bytes :=
  fold_left (fun v u => fupd v u.1 (u.2 (v u.1))) us v.

Definition same_params l l' : Prop :=
  start l' = start l /\ lsize l' = lsize l /\ outstanding l' = outstanding l /\
  committing l' = committing l.

Lemma lwp_log_updates us l a :
  tx_inv l a -> 1 <= outstanding l ->
  lh_n l + Z.of_nat (length us) < LOGSIZE -> lh_n l + Z.of_nat (length us) < lsize l ->
  (forall b, b ∈ us.*1 -> loggable (start l) b /\ (b ∉ logged l -> a_refs a !! b = None)) ->
  (size (a_refs a) + length us < nbuf)%nat ->
  lwp (log_updates us) (fun _ l' a' =>
    tx_inv l' a' /\ same_params l l' /\ a_view a' = apply_updates us (a_view a) /\
    a_disk a' = a_disk a /\ a_trace a' = a_trace a) l a.
Proof.
  revert l a. induction us as [|[b f] us IH]; intros l a Htx Ho Hn Hs Hb Hsz.
  - by apply lwp_ret.
  - cbn [length fmap list_fmap fst] in *. cbn [log_updates]. apply lwp_bind.
    destruct (log_after_fields b l) as (F1 & F2 & F3 & F4 & F5 & F6).
    destruct (Hb b) as [Hlb Hrb]; [set_solver|]. pose proof (tx_ready _ _ Htx) as [].
    assert (tx_can l a b) as Hcan.
    { split; [done|]. split; [done|]. split; [lia|]. split; [lia|].
      intros Hin. split; [by apply Hrb|lia]. }
    eapply lwp_mono; [by apply lwp_log_update|]. intros _ l' a' [-> [h ->]].
    pose proof (tx_after b h (f (a_view a b)) l a Htx Hcan) as Htx'.
    assert (lh_n (log_after b l) <= lh_n l + 1) by (rewrite F6; case_decide; lia).
    eapply lwp_mono; [apply IH; rewrite ?F1, ?F2, ?F3; try done; try lia|].
    + intros c Hc. simpl. destruct (Hb c) as [Hlc Hrc]; [set_solver|]. split; [done|].
      rewrite logged_after_elem by (done || lia). intros Hnc.
      rewrite lookup_insert_ne by naive_solver. apply Hrc. naive_solver.
    + simpl. pose proof (map_size_insert (M := gmap Z) b (mkref h 1 false) (a_refs a)) as Hi.
      destruct (a_refs a !! b); unfold id in *; lia.
    + intros _ l'' a'' (H1 & (P1 & P2 & P3 & P4) & H2 & H3 & H4). simpl in *.
      split; [done|]. split; [unfold same_params; rewrite <-F1, <-F2, <-F3, <-F4; done|]. done.
Qed.

Lemma tx_set_ops o c l a : tx_inv l a -> tx_inv (set_ops o c l) a.
Proof. intros [[] ? ?]. split; [by split|done|done]. Qed.

Lemma tx_wakeup l a : tx_inv l a -> tx_inv (add_wakeup l) a.
Proof. intros [[] ? ?]. split; [by split|done|done]. Qed.

(** Every crash point of a run that performed the writes [W] on disk [d]
    leaves, after replay, the old contents [d] or the new contents [v]. *)
Definition crash_atomic (st : Z) (W : list (Z * bytes)) (d v : Z -> bytes) : Prop :=
  forall p, p `prefix_of` W ->
    disk_log_ok st (apply_writes p d) /\
    (same_data st (replay st (apply_writes p d)) d \/ same_data st (replay st (apply_writes p d)) v).

Lemma lwp_commit_tx l a :
  tx_inv l a ->
  lwp commit (fun _ l' a' => exists W,
    tx_inv l' a' /\ lh_n l' = 0 /\ same_params l l' /\
    a_trace a' = a_trace a ++ W /\ a_disk a' = apply_writes W (a_disk a) /\
    crash_atomic (start l) W (a_disk a) (a_view a) /\
    same_data (start l) (a_disk a') (a_view a) /\ same_data (start l) (a_view a') (a_view a)) l a.
Proof.
  intros Htx. pose proof Htx as [Hcr He Hc]. pose proof Hcr as [].
  pose proof (in_log_start (start l)) as Hst.
  assert (a_view a (start l) = a_disk a (start l)) as Hvd by by apply cr_clean0.
  destruct (decide (0 < lh_n l)) as [Hn|Hn].
  - eapply lwp_mono; [by apply lwp_commit|]. rewrite Hvd.
    intros _ l' a' (-> & (Hm1 & Hm2 & Hm3) & Hd & Hv & Ht).
    set (W := commit_writes _ _ _ _) in *. exists W.
    rewrite Hvd in cr_hdr0.
    destruct (crash_final _ _ cr_wf0 (a_disk a) (a_view a) cr_hdr0 Hc) as (_ & Hf1 & Hf2 & Hf3).
    destruct (crash_final _ _ cr_wf0 (a_view a) (a_view a)) as (_ & Hg1 & _); [by rewrite Hvd|done|].
    rewrite Hvd in Hg1. fold W in Hf1, Hf2, Hf3, Hg1. rewrite <-Hd in Hf1, Hf2, Hf3. rewrite <-Hv in Hg1.
    assert (forall b, in_log (start l) b -> a_view a' b = a_disk a' b) as Hcl.
    { intros b Hb. rewrite Hd, Hv. apply apply_writes_eq. by apply cr_clean0. }
    split; [|split; [done|split; [done|split; [done|split; [done|split; [|done]]]]]].
    + split; [|done|].
      * split; simpl; try done.
        -- unfold logged. simpl. rewrite take_0. by split; [constructor|split; [constructor|done]].
        -- intros b. unfold logged. simpl. rewrite take_0. set_solver.
        -- intros b Hb. rewrite Hm1; [by apply cr_log0|]. intros Hin.
           by apply (wf_not_log _ _ cr_wf0 b).
        -- intros b r Hr. destruct (decide (b ∈ logged l)) as [Hin|Hin].
           ++ specialize (Hm2 b Hin). simpl in Hm2. congruence.
           ++ apply (cr_quiet0 b). by rewrite <-Hm1.
        -- lia.
        -- by rewrite Hcl.
      * intros b Hb _. rewrite Hf1, Hg1 by done. done.
    + intros p Hp. by apply (crash_commit _ _ cr_wf0).
  - unfold commit. apply lwp_bind, lwp_get_log. destruct (Z.ltb_spec 0 (lh_n l)); [lia|].
    apply lwp_ret. exists []. rewrite app_nil_r.
    assert (lh_n l = 0) as Hn0 by lia.
    assert (same_data (start l) (a_disk a) (a_view a)) as Hs.
    { intros b Hb. symmetry. apply Hc; [done|]. unfold logged. rewrite Hn0, take_0. set_solver. }
    split; [done|]. split; [done|]. split; [done|]. split; [done|]. split; [done|].
    split; [|done]. intros p ->%prefix_nil_inv. simpl. rewrite replay_empty by done.
    split; [|by left]. apply disk_log_empty; [by rewrite <-Hvd|done].
Qed.

(** No transaction is running. *)
Record log_idle l a : Prop := {
  li_tx : tx_inv l a;
  li_n : lh_n l = 0;
  li_out : outstanding l = 0;
  li_comm : committing l = false;
  li_size : MAXOPBLOCKS + 2 <= lsize l }.

(** What a system call may do in one transaction. *)
Definition tx_ops_ok l a (us : list (Z * (bytes -> bytes))) : Prop :=
  Z.of_nat (length us) <= MAXOPBLOCKS /\
  (forall b, b ∈ us.*1 -> loggable (start l) b /\ a_refs a !! b = None) /\
  (size (a_refs a) + length us < nbuf)%nat.

Lemma lwp_transaction us l a :
  log_idle l a -> tx_ops_ok l a us ->
  lwp (transaction us) (fun _ l' a' => exists W,
    log_idle l' a' /\ start l' = start l /\
    a_trace a' = a_trace a ++ W /\ a_disk a' = apply_writes W (a_disk a) /\
    crash_atomic (start l) W (a_disk a) (apply_updates us (a_view a)) /\
    same_data (start l) (a_disk a') (apply_updates us (a_view a)) /\
    same_data (start l) (a_view a') (apply_updates us (a_view a))) l a.
Proof.
  intros [Htx Hn Ho Hcm Hs] (Hlen & Hb & Hsz). unfold MAXOPBLOCKS in *. unfold transaction.
  apply lwp_bind. unfold begin_op. apply lwp_bind, lwp_get_log. rewrite Hcm, Hn, Ho.
  change (LOGSIZE <? _) with false. apply lwp_mod_log. set (l1 := set_ops _ _ l).
  apply lwp_bind. eapply lwp_mono.
  { apply (lwp_log_updates us l1); unfold LOGSIZE; simpl; try lia.
    - by apply tx_set_ops.
    - intros b Hin. destruct (Hb b Hin) as [H1 H2]. done. }
  intros _ l2 a2 (Htx2 & (P1 & P2 & P3 & P4) & Hv & Hd & Ht). simpl in *.
  unfold end_op. apply lwp_bind, lwp_get_log. apply lwp_bind, lwp_mod_log.
  rewrite P3, P4. change (0 + 1 - 1 =? 0) with true. cbn match.
  apply lwp_bind, lwp_mod_log, lwp_bind. eapply lwp_mono.
  { apply lwp_commit_tx. by apply tx_set_ops, tx_set_ops. }
  intros _ l3 a3 (W & Htx3 & Hn3 & (R1 & R2 & R3 & R4) & Ht3 & Hd3 & Hca & Hs1 & Hs2).
  simpl in *. apply lwp_mod_log. exists W. rewrite <-Hv, <-Ht, <-Hd. rewrite P1 in *.
  split; [|done]. split; simpl; [by apply tx_wakeup, tx_set_ops|done|lia|done|].
  unfold MAXOPBLOCKS. lia.
Qed.
End lwp.
