(* ===== verification/Transaction.v ===== *)
(** The write-ahead log over the kernel's buffer cache.

    Log.v proves the log correct for any cache that keeps the promises of
    BlockCache.v; Bio.v proves that the cache of bio.c keeps them.  Here the
    two are put together: transactions of the kernel are atomic with respect
    to crashes, recovery completes them and can itself be interrupted. *)

From S2P Require Import Prelude BlockCache Bio Log.

(** Move from a run over the abstract cache to the run of the kernel. *)
Lemma lwp_kernel {A} p (Hp : p <> -1) (m : M (lstate bcache) A)
    (Q : A -> log -> acache nat -> Prop) (s : lstate bcache) a :
  lwp (BlockCacheLaws0 := bio_laws p Hp) m Q (lg s) a -> brel 1 p (bc s) a ->
  exists x s' a', m s = Ok x s' /\ brel 1 p (bc s') a' /\ Q x (lg s') a'.
Proof. intros Hm Hr. by apply (Hm s). Qed.


(** A disk with an empty log at block 2, and the state of the kernel after it
    has been initialised. *)
Definition wit_dsk (b : Z) : bytes :=
  if b =? 2 then replicate 1024 0 else [b mod 256].
Definition wit_log : log := mklog 2 30 0 false 1 0 (replicate 30 0) 0.
Definition wit_state : lstate bcache := mkls wit_log (binit (boot_cache 3 wit_dsk)).
Definition wit_us : list (Z * (bytes -> bytes)) :=
  [(100, fun _ => [7]); (101, fun v => 9 :: v); (100, fun v => 8 :: v)].

Lemma wit_idle : log_idle (nbuf := NBUF) wit_log (empty_acache wit_dsk).
Proof.
  split; [|done..]. split; [|done|done]. split; try done.
  - by split; [constructor|split; [constructor|done]].
  - intros b Hb. by apply elem_of_nil in Hb.
  - simpl. rewrite map_size_empty. unfold NBUF. lia.
Qed.

Lemma wit_ops : tx_ops_ok (nbuf := NBUF) wit_log (empty_acache wit_dsk) wit_us.
Proof.
  split; [done|split].
  - intros b Hb. split; [|apply lookup_empty]. unfold loggable, in_log, LOGSIZE.
    simpl in Hb. repeat (apply elem_of_cons in Hb as [->|Hb]; [simpl; lia|]). by apply elem_of_nil in Hb.
  - simpl. rewrite map_size_empty. unfold NBUF. lia.
Qed.


(** C2: recovery.  On every disk whose log header is well formed, [initlog]
    at boot runs to completion; afterwards the log on disk is empty and every
    block outside of the log is as replay says: copied from the log if the
    header listed it, unchanged otherwise.  A crash after any prefix of the
    writes of recovery leaves a well-formed log with the same replay, so a
    later recovery reaches the same contents. *)
Theorem recovery_complete_and_idempotent p dsk l st nlog :
  p <> -1 -> 0 <= st -> st + LOGSIZE < 2 ^ 31 ->
  Z.of_nat (length (lh_block l)) = LOGSIZE -> disk_log_ok st dsk ->
  exists s' W,
    initlog 1 st nlog (mkls l (binit (boot_cache p dsk))) = Ok tt s' /\
    trace (bc s') = W /\ disk (bc s') = apply_writes W dsk /\
    lh_n (lg s') = 0 /\ hdr_n (disk (bc s') st) = 0 /\
    same_data st (disk (bc s')) (replay st dsk) /\
    (forall q, q `prefix_of` W -> disk_log_ok st (apply_writes q dsk) /\
       same_data st (replay st (apply_writes q dsk)) (replay st dsk)).
Proof.
  intros Hp H1 H2 Hl Hok. set (l1 := mklog (s32 st) (s32 nlog) (outstanding l) (committing l) 1
                                       (lh_n l) (lh_block l) (wakeups l)).
  assert (s32 st = st) as Est by (apply s32_small; unfold LOGSIZE in *; lia).
  assert (boot_ready (nbuf := NBUF) l1 (empty_acache dsk)) as Hb.
  { split; try done; simpl; rewrite ?Est; [|done].
    unfold log_place. simpl. by rewrite Est. }
  destruct (lwp_kernel p Hp _ _ (mkls l1 (binit (boot_cache p dsk))) (empty_acache dsk)
    (lwp_recover l1 (empty_acache dsk) Hb) (boot_rel p dsk))
    as ([] & s' & a' & Hrun & Hr' & Hn & Hm & Hd & Hv & Ht).
  simpl in Hd, Ht. rewrite Est in *. exists s', (recover_writes st dsk).
  rewrite (br_disk 1 p _ _ Hr') in Hd. rewrite (br_trace 1 p _ _ Hr') in Ht.
  pose proof (fun q => recover_prefix st dsk q Hok) as Hpre.
  assert (hdr_n (disk (bc s') st) = 0) as H0.
  { rewrite Hd. unfold recover_writes. rewrite apply_writes_app.
    change (apply_writes [(?x, ?y)] ?e) with (fupd e x y). rewrite fupd_eq.
    by apply hdr_empty, Hok. }
  split; [exact Hrun|]. split; [done|]. split; [done|]. split; [done|]. split; [done|].
  split; [|exact Hpre].
  transitivity (replay st (disk (bc s'))).
  - by rewrite replay_empty.
  - rewrite Hd. by apply Hpre.
Qed.

(** A disk on which a crash left a committed transaction: block 100 is to
    become [42]. *)
Definition crashed_dsk (b : Z) : bytes :=
  if b =? 2 then hdr_enc 1 [100] (replicate 1024 0)
  else if b =? 3 then [42] else [b mod 256].

Lemma crashed_ok : disk_log_ok 2 crashed_dsk.
Proof.
  assert (hdr_list (crashed_dsk 2) = [100]) as E by (vm_compute; reflexivity).
  split; [vm_compute; reflexivity|]. split; [vm_compute; split; congruence|].
  rewrite E. split; [apply NoDup_singleton|]. split; [|done].
  constructor; [|constructor]. unfold loggable, in_log, LOGSIZE. lia.
Qed.

Lemma recovery_complete_and_idempotent_witness :
  exists s', initlog 1 2 30 (mkls wit_log (binit (boot_cache 3 crashed_dsk))) = Ok tt s' /\
    disk (bc s') 100 = [42].
Proof.
  destruct (recovery_complete_and_idempotent 3 crashed_dsk wit_log 2 30)
    as (s' & W & Hrun & _ & _ & _ & _ & Hs & _); [lia|lia|done|done|apply crashed_ok|].
  exists s'. split; [done|]. rewrite (Hs 100) by (unfold in_log, LOGSIZE; lia).
  vm_compute. reflexivity.
Defined.

(** ** A block written by recovery loses its next update

    [install_trans] unpins every block it installs, but in recovery the blocks
    were never pinned. *)

Definition read_block (b : Z) : M (lstate bcache) unit :=
  bp ← lift (bread 1 b); lift (brelse bp).
Fixpoint read_all (l : list Z) : M (lstate bcache) unit :=
  match l with [] => ret tt | b :: l' => read_block b;; read_all l' end.

(** A transaction that updates block 100, while 30 other blocks are read. *)
Definition lost_update : M (lstate bcache) unit :=
  initlog 1 2 30;;
  begin_op;;
  log_update 100 (fun _ => [77]);;
  read_all (Z.of_nat <$> seq 200 30);;
  end_op.

Definition outcome_disk {A} (o : outcome (lstate bcache) A) (b : Z) : option bytes :=
  match o with Ok _ s => Some (disk (bc s) b) | _ => None end.

