(* ===== verification/KString.v ===== *)
(** Memory and string routines (kernel/lib/string.c).

    Memory is a total map from addresses to byte values.  The loops of the
    routines are kept: [memmove] chooses its direction by comparing the
    pointers.  A string ends at its first zero byte. *)

From S2P Require Import Prelude.

Abbreviation mem := (Z -> Z).

(** for(i = 0; i < n; i++) cdst[i] = c; *)
Fixpoint memset_loop (k : nat) (i dst c : Z) (m : mem) : mem :=
  match k with
  | O => m
  | S k' => memset_loop k' (i + 1) dst c (fupd m (dst + i) (u8 c))
  end.
Definition memset (m : mem) (dst c n : Z) : mem := memset_loop (Z.to_nat n) 0 dst c m.

Fixpoint memcmp_loop (m : mem) (k : nat) (s1 s2 : Z) : Z :=
  match k with
  | O => 0
  | S k' =>
      if m s1 =? m s2 then memcmp_loop m k' (s1 + 1) (s2 + 1)
      else m s1 - m s2
  end.
Definition memcmp (m : mem) (v1 v2 n : Z) : Z := memcmp_loop m (Z.to_nat n) v1 v2.

(** while(n-- > 0) *--d = *--s; *)
Fixpoint move_down (k : nat) (d s : Z) (m : mem) : mem :=
  match k with
  | O => m
  | S k' => move_down k' (d - 1) (s - 1) (fupd m (d - 1) (m (s - 1)))
  end.

(** while(n-- > 0) *d++ = *s++; *)
Fixpoint move_up (k : nat) (d s : Z) (m : mem) : mem :=
  match k with
  | O => m
  | S k' => move_up k' (d + 1) (s + 1) (fupd m d (m s))
  end.

Definition memmove (m : mem) (dst src n : Z) : mem :=
  if (src <? dst) && (dst <? src + n)
  then move_down (Z.to_nat n) (dst + n) (src + n) m
  else move_up (Z.to_nat n) dst src m.

Definition memcpy (m : mem) (dst src n : Z) : mem := memmove m dst src n.

(** The loop of [strncmp] stops at [n == 0], at the end of [p], or at the first
    difference; the result is read off where it stopped. *)
Fixpoint strncmp_loop (m : mem) (k : nat) (p q : Z) : Z :=
  match k with
  | O => 0
  | S k' =>
      if negb (m p =? 0) && (m p =? m q) then strncmp_loop m k' (p + 1) (q + 1)
      else m p - m q
  end.
Definition strncmp (m : mem) (p q n : Z) : Z := strncmp_loop m (Z.to_nat n) p q.

(** while(n-- > 0) *s++ = 0; *)
Fixpoint zero_fill (k : nat) (s : Z) (m : mem) : mem :=
  match k with
  | O => m
  | S k' => zero_fill k' (s + 1) (fupd m s 0)
  end.

(** while(n-- > 0 && ( *s++ = *t++) != 0); then the zero fill with what is
    left of [n] (when the first loop ends with [n] used up, [n] is -1 and
    the second does nothing). *)
Fixpoint strncpy_loop (k : nat) (s t : Z) (m : mem) : mem :=
  match k with
  | O => m
  | S k' =>
      let m' := fupd m s (m t) in
      if m t =? 0 then zero_fill k' (s + 1) m' else strncpy_loop k' (s + 1) (t + 1) m'
  end.
Definition strncpy (m : mem) (s t n : Z) : mem := strncpy_loop (Z.to_nat n) s t m.

(** while(--n > 0 && ( *s++ = *t++) != 0); *s = 0; with [k = n - 1]. *)
Fixpoint safestrcpy_loop (k : nat) (s t : Z) (m : mem) : mem :=
  match k with
  | O => fupd m s 0
  | S k' =>
      let m' := fupd m s (m t) in
      if m t =? 0 then fupd m' (s + 1) 0 else safestrcpy_loop k' (s + 1) (t + 1) m'
  end.
Definition safestrcpy (m : mem) (s t n : Z) : mem :=
  if n <=? 0 then m else safestrcpy_loop (Z.to_nat (n - 1)) s t m.

(** Without a zero byte [strlen] does not stop; [fuel] bounds the scan. *)
Fixpoint strlen_loop (m : mem) (fuel : nat) (s n : Z) : option Z :=
  match fuel with
  | O => None
  | S fuel' => if m (s + n) =? 0 then Some n else strlen_loop m fuel' s (n + 1)
  end.
Definition strlen (m : mem) (fuel : nat) (s : Z) : option Z := strlen_loop m fuel s 0.

(** ** What they compute *)

(** The [k] bytes at [p], and the string at [p] cut at [k] bytes. *)
Fixpoint mem_bytes (m : mem) (p : Z) (k : nat) : bytes :=
  match k with O => [] | S k' => m p :: mem_bytes m (p + 1) k' end.
Fixpoint cut_nul (l : bytes) : bytes :=
  match l with
  | [] => []
  | b :: l' => if b =? 0 then [] else b :: cut_nul l'
  end.
Definition cstr (m : mem) (p : Z) (k : nat) : bytes := cut_nul (mem_bytes m p k).

Lemma memset_loop_spec k i dst c m a :
  memset_loop k i dst c m a =
    if (dst + i <=? a) && (a <? dst + i + Z.of_nat k) then u8 c else m a.
Proof.
  revert i m. induction k as [|k IH]; intros i m; cbn [memset_loop].
  - zbool; simpl; try done; lia.
  - rewrite IH. unfold fupd. zbool; simpl; try done; lia.
Qed.

Lemma move_up_spec k d s m a :
  (s < d -> s + Z.of_nat k <= d) ->
  move_up k d s m a = if (d <=? a) && (a <? d + Z.of_nat k) then m (s + (a - d)) else m a.
Proof.
  revert d s m. induction k as [|k IH]; intros d s m Hd; cbn [move_up].
  - zbool; simpl; try done; lia.
  - rewrite IH by lia. unfold fupd. destruct (Z.leb_spec (d + 1) a); destruct (Z.ltb_spec a (d + 1 + Z.of_nat k));
      destruct (Z.leb_spec d a); destruct (Z.ltb_spec a (d + Z.of_nat (S k))); simpl; try lia.
    all: zbool; try lia; try done; try (f_equal; lia).
Qed.

Lemma move_down_spec k d s m a :
  s <= d ->
  move_down k d s m a =
    if (d - Z.of_nat k <=? a) && (a <? d) then m (s + (a - d)) else m a.
Proof.
  revert d s m. induction k as [|k IH]; intros d s m Hd; cbn [move_down].
  - zbool; simpl; try done; lia.
  - rewrite IH by lia. unfold fupd. destruct (Z.leb_spec (d - 1 - Z.of_nat k) a); destruct (Z.ltb_spec a (d - 1));
      destruct (Z.leb_spec (d - Z.of_nat (S k)) a); destruct (Z.ltb_spec a d); simpl; try lia.
    all: zbool; try lia; try done; try (f_equal; lia).
Qed.

(** [memmove] copies [n] bytes as if through a temporary buffer:
    whatever the overlap of source and destination, the destination holds the
    bytes the source had before the call and no other byte changes. *)
Theorem memmove_spec m dst src n a :
  memmove m dst src n a =
    if (dst <=? a) && (a <? dst + n) then m (src + (a - dst)) else m a.
Proof.
  unfold memmove. destruct (Z.leb_spec n 0) as [Hn|Hn].
  - replace (Z.to_nat n) with 0%nat by lia. simpl.
    destruct ((src <? dst) && (dst <? src + n)); zbool; simpl; try done; lia.
  - destruct (Z.ltb_spec src dst); destruct (Z.ltb_spec dst (src + n)); cbn [andb].
    + rewrite move_down_spec by lia. rewrite Z2Nat.id by lia.
      replace (dst + n - n) with dst by lia.
      replace (src + n + (a - (dst + n))) with (src + (a - dst)) by lia. done.
    + rewrite move_up_spec by lia. by rewrite Z2Nat.id by lia.
    + rewrite move_up_spec by lia. by rewrite Z2Nat.id by lia.
    + rewrite move_up_spec by lia. by rewrite Z2Nat.id by lia.
Qed.

Lemma strncmp_loop_zero m k p q :
  strncmp_loop m k p q = 0 <-> cstr m p k = cstr m q k.
Proof.
  unfold cstr. revert p q. induction k as [|k IH]; intros p q; [done|].
  cbn [strncmp_loop mem_bytes cut_nul].
  destruct (Z.eqb_spec (m p) 0) as [Hp|Hp]; cbn [negb andb].
  - destruct (Z.eqb_spec (m q) 0) as [Hq|Hq].
    + rewrite Hp, Hq. done.
    + split; [lia|discriminate].
  - destruct (Z.eqb_spec (m p) (m q)) as [Hpq|Hpq].
    + rewrite <-Hpq. destruct (Z.eqb_spec (m p) 0); [done|]. rewrite IH.
      split; [by intros ->|]. intros H. by injection H.
    + split; [lia|]. destruct (Z.eqb_spec (m q) 0); [discriminate|].
      intros H. injection H. congruence.
Qed.

(** [strncmp(p, q, n)] is 0 exactly when the two strings, cut at [n]
    characters, are equal. *)
Theorem strncmp_eq m p q n :
  strncmp m p q n = 0 <-> cstr m p (Z.to_nat n) = cstr m q (Z.to_nat n).
Proof. apply strncmp_loop_zero. Qed.

Lemma safestrcpy_loop_outside k s t m a :
  a < s \/ s + Z.of_nat k < a -> safestrcpy_loop k s t m a = m a.
Proof.
  revert s t m. induction k as [|k IH]; intros s t m Ha; cbn [safestrcpy_loop].
  - apply fupd_ne. lia.
  - destruct (m t =? 0); [rewrite !fupd_ne by lia; done|].
    rewrite IH by lia. apply fupd_ne. lia.
Qed.

Lemma cut_nul_ext m m' p k :
  (forall a, p <= a < p + Z.of_nat k -> m a = m' a) -> mem_bytes m p k = mem_bytes m' p k.
Proof.
  revert p. induction k as [|k IH]; intros p H; [done|]. cbn [mem_bytes]. f_equal.
  - apply H. lia.
  - apply IH. intros a Ha. apply H. lia.
Qed.

Lemma safestrcpy_loop_spec k s t m :
  t + Z.of_nat k <= s \/ s + Z.of_nat k < t ->
  cstr (safestrcpy_loop k s t m) s (S k) = cstr m t k.
Proof.
  unfold cstr. revert s t m. induction k as [|k IH]; intros s t m Hd.
  - cbn. by rewrite fupd_eq.
  - cbn [safestrcpy_loop]. change (mem_bytes ?x s (S (S k))) with (x s :: mem_bytes x (s + 1) (S k)).
    change (mem_bytes m t (S k)) with (m t :: mem_bytes m (t + 1) k). cbn [cut_nul].
    destruct (Z.eqb_spec (m t) 0) as [Ht|Ht].
    + rewrite fupd_ne, fupd_eq by lia. by rewrite Ht.
    + rewrite safestrcpy_loop_outside by lia. rewrite fupd_eq.
      destruct (Z.eqb_spec (m t) 0); [done|]. f_equal. rewrite IH by lia. f_equal.
      apply cut_nul_ext. intros a Ha. apply fupd_ne. lia.
Qed.

(** [safestrcpy(s, t, n)] with [n > 0] and non-overlapping buffers
    leaves in [s] the string of [t] cut at [n-1] characters, zero-terminated
    within the [n] bytes, and writes nothing outside of [s..s+n-1]. *)
Theorem safestrcpy_spec m s t n :
  0 < n -> t + n <= s \/ s + n <= t ->
  cstr (safestrcpy m s t n) s (Z.to_nat n) = cstr m t (Z.to_nat (n - 1)) /\
  (exists a, s <= a < s + n /\ safestrcpy m s t n a = 0) /\
  (forall a, a < s \/ s + n <= a -> safestrcpy m s t n a = m a).
Proof.
  intros Hn Hd. unfold safestrcpy. destruct (Z.leb_spec n 0); [lia|].
  replace (Z.to_nat n) with (S (Z.to_nat (n - 1))) by lia. split; [|split].
  - apply safestrcpy_loop_spec. lia.
  - assert (forall k s t m, exists a, s <= a <= s + Z.of_nat k /\ safestrcpy_loop k s t m a = 0) as Hz.
    { clear. induction k as [|k IH]; intros s t m; cbn [safestrcpy_loop].
      - exists s. rewrite fupd_eq. split; [lia|done].
      - destruct (m t =? 0); [exists (s + 1); rewrite fupd_eq; split; [lia|done]|].
        destruct (IH (s + 1) (t + 1) (fupd m s (m t))) as (a & Ha & E). exists a. split; [lia|done]. }
    destruct (Hz (Z.to_nat (n - 1)) s t m) as (a & Ha & E). exists a. split; [lia|done].
  - intros a Ha. apply safestrcpy_loop_outside. lia.
Qed.

Definition wit_mem (a : Z) : Z := if a <? 100 then 65 + a else 0.

Lemma safestrcpy_spec_witness :
  cstr (safestrcpy wit_mem 200 10 4) 200 (Z.to_nat 4) = [75; 76; 77].
Proof. rewrite (proj1 (safestrcpy_spec wit_mem 200 10 4 ltac:(lia) ltac:(lia))). reflexivity. Defined.

Lemma strlen_loop_ok m s l fuel n :
  Forall (fun b => b <> 0) l -> mem_bytes m (s + n) (length l) = l ->
  m (s + n + Z.of_nat (length l)) = 0 -> (length l < fuel)%nat ->
  strlen_loop m fuel s n = Some (n + Z.of_nat (length l)).
Proof.
  revert fuel n. induction l as [|b l IH]; intros fuel n Hl Hb H0 Hf; destruct fuel as [|fuel];
    cbn [length] in *; try lia; cbn [strlen_loop].
  - rewrite Z.add_0_r in *. rewrite H0. done.
  - cbn [mem_bytes] in Hb. injection Hb as Hb1 Hb2. apply Forall_cons in Hl as [Hnz Hl].
    rewrite Hb1. destruct (Z.eqb_spec b 0); [done|].
    rewrite IH; [f_equal; lia|done| | |lia].
    + by replace (s + (n + 1)) with (s + n + 1) by lia.
    + by replace (s + (n + 1) + Z.of_nat (length l)) with (s + n + Z.of_nat (S (length l))) by lia.
Qed.

Lemma strncpy_loop_outside k s t m a :
  a < s \/ s + Z.of_nat k <= a -> strncpy_loop k s t m a = m a.
Proof.
  assert (forall k s m, a < s \/ s + Z.of_nat k <= a -> zero_fill k s m a = m a) as Hz.
  { clear. induction k as [|k IH]; intros s m Ha; cbn [zero_fill]; [done|].
    rewrite IH by lia. apply fupd_ne. lia. }
  revert s t m. induction k as [|k IH]; intros s t m Ha; cbn [strncpy_loop]; [done|].
  destruct (m t =? 0); [rewrite Hz by lia|rewrite IH by lia]; apply fupd_ne; lia.
Qed.
