(* ===== verification/NetUtil.v ===== *)
(** Byte order and the Internet checksum (include/net/byteorder.h,
    kernel/net/netutil.c). *)

From S2P Require Import Prelude.

Definition bswaps (val : Z) : Z :=
  u16 (Z.lor (Z.shiftl (Z.land val 255) 8) (Z.shiftr (Z.land val 65280) 8)).

Definition bswapl (val : Z) : Z :=
  u32 (Z.lor (Z.lor (Z.lor (Z.shiftl (Z.land val 255) 24)
                           (Z.shiftl (Z.land val 65280) 8))
                    (Z.shiftr (Z.land val 16711680) 8))
             (Z.shiftr (Z.land val 4278190080) 24)).

Definition ntohs := bswaps.
Definition htons := bswaps.
Definition ntohl := bswapl.
Definition htonl := bswapl.

(** The loop of [cksum16]: two bytes per round while [size > 1], one if one is
    left; [sum] is 32 bits wide. *)
Fixpoint cksum_loop (data : bytes) (sum : Z) : Z :=
  match data with
  | b1 :: b2 :: data' => cksum_loop data' (u32 (u32 (sum + Z.shiftl b1 8) + b2))
  | [b] => u32 (sum + Z.shiftl b 8)
  | [] => sum
  end.

Definition fold16 (sum : Z) : Z := u32 (Z.land sum 65535 + Z.shiftr sum 16).

Definition cksum16 (data : bytes) (init : Z) : Z :=
  u16 (Z.lnot (fold16 (fold16 (cksum_loop data (u32 init))))).

(** ** Byte order *)

Ltac all_bytes :=
  repeat (apply Forall_cons_2; [first [assumption|unfold is_byte; lia]|]); apply Forall_nil_2.

Lemma lor_disjoint x y n : 0 <= n -> 0 <= y < 2 ^ n -> Z.lor (x * 2 ^ n) y = x * 2 ^ n + y.
Proof.
  intros Hn Hy. assert (Z.land (x * 2 ^ n) y = 0) as H0.
  { apply Z.bits_inj'. intros k Hk. rewrite Z.land_spec, Z.bits_0, <-Z.shiftl_mul_pow2 by lia.
    destruct (Z.ltb_spec k n).
    - rewrite Z.shiftl_spec_low by lia. done.
    - rewrite <-(Z.mod_small y (2 ^ n)) by lia.
      rewrite Z.mod_pow2_bits_high by lia. apply andb_false_r. }
  pose proof (Z.add_lor_land (x * 2 ^ n) y). lia.
Qed.

Lemma land_byte v k : 0 <= k -> Z.land v (255 * 2 ^ k) = ((v / 2 ^ k) mod 256) * 2 ^ k.
Proof.
  intros Hk. rewrite <-!Z.shiftl_mul_pow2 by lia. rewrite <-Z.shiftr_div_pow2 by lia.
  change 256 with (2 ^ 8). rewrite <-Z.land_ones by lia. change (Z.ones 8) with 255.
  rewrite Z.shiftl_land. apply Z.bits_inj'. intros j Hj. rewrite !Z.land_spec.
  destruct (Z.ltb_spec j k).
  - rewrite !(Z.shiftl_spec_low _ _ j) by lia. by rewrite !andb_false_r.
  - rewrite (Z.shiftl_spec (Z.shiftr v k)) by lia. rewrite Z.shiftr_spec by lia. f_equal. f_equal. lia.
Qed.

Lemma le4 b0 b1 b2 b3 : le_dec [b0; b1; b2; b3] = b0 + 256 * b1 + 65536 * b2 + 16777216 * b3.
Proof. cbn [le_dec]. lia. Qed.

Lemma le_byte b0 b1 b2 b3 :
  is_byte b0 -> is_byte b1 -> is_byte b2 -> is_byte b3 ->
  let v := le_dec [b0; b1; b2; b3] in
  v mod 256 = b0 /\ (v / 256) mod 256 = b1 /\ (v / 65536) mod 256 = b2 /\ (v / 16777216) mod 256 = b3.
Proof.
  unfold is_byte. intros. cbv zeta. rewrite le4. repeat split.
  - symmetry. apply (Z.mod_unique _ _ (b1 + 256 * b2 + 65536 * b3)); lia.
  - rewrite <-(Z.div_unique _ 256 (b1 + 256 * b2 + 65536 * b3) b0) by lia.
    symmetry. apply (Z.mod_unique _ _ (b2 + 256 * b3)); lia.
  - rewrite <-(Z.div_unique _ 65536 (b2 + 256 * b3) (b0 + 256 * b1)) by lia.
    symmetry. apply (Z.mod_unique _ _ b3); lia.
  - rewrite <-(Z.div_unique _ 16777216 b3 (b0 + 256 * b1 + 65536 * b2)) by lia.
    apply Z.mod_small. lia.
Qed.

(** [bswapl] exchanges the byte order of a 32-bit value. *)
Lemma bswapl_rev b0 b1 b2 b3 :
  is_byte b0 -> is_byte b1 -> is_byte b2 -> is_byte b3 ->
  bswapl (le_dec [b0; b1; b2; b3]) = le_dec [b3; b2; b1; b0].
Proof.
  intros H0 H1 H2 H3. unfold bswapl. set (v := le_dec [b0; b1; b2; b3]).
  destruct (le_byte b0 b1 b2 b3) as (E0 & E1 & E2 & E3); [done..|]. fold v in E0, E1, E2, E3.
  pose proof (land_byte v 0 ltac:(lia)) as L0. pose proof (land_byte v 8 ltac:(lia)) as L1.
  pose proof (land_byte v 16 ltac:(lia)) as L2. pose proof (land_byte v 24 ltac:(lia)) as L3.
  change (255 * 2 ^ 0) with 255 in L0. change (255 * 2 ^ 8) with 65280 in L1.
  change (255 * 2 ^ 16) with 16711680 in L2. change (255 * 2 ^ 24) with 4278190080 in L3.
  change (2 ^ 0) with 1 in L0. change (2 ^ 8) with 256 in L1.
  change (2 ^ 16) with 65536 in L2. change (2 ^ 24) with 16777216 in L3.
  rewrite Z.div_1_r in L0. rewrite L0, L1, L2, L3, E0, E1, E2, E3. unfold is_byte in *.
  rewrite !Z.shiftl_mul_pow2, !Z.shiftr_div_pow2 by lia.
  replace (b2 * 65536 / 2 ^ 8) with (b2 * 2 ^ 8) by (apply Z.div_unique_exact; lia).
  replace (b3 * 16777216 / 2 ^ 24) with b3 by (apply Z.div_unique_exact; lia).
  replace (b1 * 256 * 2 ^ 8) with (b1 * 2 ^ 16) by lia.
  rewrite (lor_disjoint (b0 * 1) (b1 * 2 ^ 16)) by lia.
  replace (b0 * 1 * 2 ^ 24 + b1 * 2 ^ 16) with ((b0 * 256 + b1) * 2 ^ 16) by lia.
  rewrite (lor_disjoint (b0 * 256 + b1)) by lia.
  replace ((b0 * 256 + b1) * 2 ^ 16 + b2 * 2 ^ 8) with ((b0 * 65536 + b1 * 256 + b2) * 2 ^ 8) by lia.
  rewrite lor_disjoint by lia. rewrite le4. rewrite u32_small by lia. lia.
Qed.

Lemma bswaps_rev b0 b1 :
  is_byte b0 -> is_byte b1 -> bswaps (le_dec [b0; b1]) = le_dec [b1; b0].
Proof.
  intros H0 H1. unfold bswaps. set (v := le_dec [b0; b1]).
  pose proof (land_byte v 0 ltac:(lia)) as L0. pose proof (land_byte v 8 ltac:(lia)) as L1.
  change (255 * 2 ^ 0) with 255 in L0. change (255 * 2 ^ 8) with 65280 in L1.
  change (2 ^ 0) with 1 in L0. change (2 ^ 8) with 256 in L1. rewrite Z.div_1_r in L0.
  unfold is_byte in *. assert (v = b0 + 256 * b1) as Ev by (subst v; cbn [le_dec]; lia).
  rewrite <-(Z.mod_unique v 256 b1 b0) in L0 by lia.
  rewrite <-(Z.div_unique v 256 b1 b0) in L1 by lia. rewrite Z.mod_small in L1 by lia.
  rewrite L0, L1, Z.shiftl_mul_pow2, Z.shiftr_div_pow2 by lia.
  replace (b1 * 256 / 2 ^ 8) with b1 by (apply Z.div_unique_exact; lia).
  rewrite lor_disjoint by lia. cbn [le_dec]. rewrite u16_small by lia. lia.
Qed.

Lemma four_bytes v : 0 <= v < 2 ^ 32 ->
  exists b0 b1 b2 b3, is_byte b0 /\ is_byte b1 /\ is_byte b2 /\ is_byte b3 /\
    v = le_dec [b0; b1; b2; b3].
Proof.
  intros Hv. pose proof (le_dec_enc 4 v) as E. pose proof (le_enc_byte 4 v) as B.
  rewrite Z.mod_small in E by (simpl; lia). cbn [le_enc] in *.
  rewrite !Forall_cons in B. destruct B as (?&?&?&?&_).
  do 4 eexists. repeat split; try (symmetry; exact E); apply H || apply H0 || apply H1 || apply H2.
Qed.

Lemma two_bytes v : 0 <= v < 2 ^ 16 ->
  exists b0 b1, is_byte b0 /\ is_byte b1 /\ v = le_dec [b0; b1].
Proof.
  intros Hv. pose proof (le_dec_enc 2 v) as E. pose proof (le_enc_byte 2 v) as B.
  rewrite Z.mod_small in E by (simpl; lia). cbn [le_enc] in *.
  rewrite !Forall_cons in B. destruct B as (?&?&_).
  do 2 eexists. repeat split; try (symmetry; exact E); apply H || apply H0.
Qed.

Lemma byteorder_ok :
  (forall v, 0 <= v < 2 ^ 32 -> ntohl (htonl v) = v /\ le_enc 4 (htonl v) = rev (le_enc 4 v)) /\
  (forall v, 0 <= v < 2 ^ 16 -> ntohs (htons v) = v /\ le_enc 2 (htons v) = rev (le_enc 2 v)).
Proof.
  split; intros v Hv.
  - destruct (four_bytes v Hv) as (b0 & b1 & b2 & b3 & H0 & H1 & H2 & H3 & ->).
    unfold ntohl, htonl. rewrite !bswapl_rev by done. split; [done|].
    rewrite !le_enc_dec by (done || all_bytes). done.
  - destruct (two_bytes v Hv) as (b0 & b1 & H0 & H1 & ->).
    unfold ntohs, htons. rewrite !bswaps_rev by done. split; [done|].
    rewrite !le_enc_dec by (done || all_bytes). done.
Qed.

(** the byte-order conversions are their own inverses on values of
    their width, and what they compute is the value whose bytes in memory are
    reversed. *)
Theorem byteorder_roundtrip :
  (forall v, 0 <= v < 2 ^ 32 -> ntohl (htonl v) = v /\ le_enc 4 (htonl v) = rev (le_enc 4 v)) /\
  (forall v, 0 <= v < 2 ^ 16 -> ntohs (htons v) = v /\ le_enc 2 (htons v) = rev (le_enc 2 v)).
Proof. exact byteorder_ok. Qed.

(** ** The checksum *)

(** The sum of the 16-bit big-endian words of [data]. *)
Fixpoint word_sum (data : bytes) : Z :=
  match data with
  | b1 :: b2 :: data' => 256 * b1 + b2 + word_sum data'
  | [b] => 256 * b
  | [] => 0
  end.

Lemma bytes_ind2 (P : bytes -> Prop) :
  P [] -> (forall b, P [b]) -> (forall b1 b2 l, P l -> P (b1 :: b2 :: l)) -> forall l, P l.
Proof.
  intros H0 H1 H2. fix IH 1. intros [|b1 [|b2 l]]; [exact H0|apply H1|apply H2, IH].
Qed.

Lemma word_sum_range data :
  Forall is_byte data -> 0 <= word_sum data <= 32768 * (Z.of_nat (length data) + 1).
Proof.
  induction data as [|b|b1 b2 data IH] using bytes_ind2; intros Hb; cbn [word_sum length].
  - lia.
  - apply Forall_cons in Hb as [? _]. unfold is_byte in *. lia.
  - rewrite !Forall_cons in Hb. destruct Hb as (? & ? & Hb). specialize (IH Hb).
    unfold is_byte in *. lia.
Qed.

Lemma cksum_loop_sum data sum :
  Forall is_byte data -> 0 <= sum -> sum + word_sum data < 2 ^ 32 ->
  cksum_loop data sum = sum + word_sum data.
Proof.
  revert sum. induction data as [|b|b1 b2 data IH] using bytes_ind2;
    intros sum Hb H0 Hs; cbn [word_sum cksum_loop] in *.
  - lia.
  - apply Forall_cons in Hb as [? _]. unfold is_byte in *.
    rewrite Z.shiftl_mul_pow2 by lia. rewrite u32_small; lia.
  - rewrite !Forall_cons in Hb. destruct Hb as (? & ? & Hb).
    pose proof (word_sum_range data Hb). unfold is_byte in *.
    rewrite Z.shiftl_mul_pow2 by lia. rewrite (u32_small (sum + b1 * 2 ^ 8)) by lia.
    rewrite u32_small by lia. rewrite IH; [lia|done|lia|lia].
Qed.

Lemma fold16_arith x : 0 <= x < 2 ^ 32 -> fold16 x = x mod 65536 + x / 65536.
Proof.
  intros Hx. unfold fold16. change 65535 with (Z.ones 16). rewrite Z.land_ones by lia.
  rewrite Z.shiftr_div_pow2 by lia. change (2 ^ 16) with 65536.
  pose proof (Z.mod_pos_bound x 65536). pose proof (Z.div_mod x 65536).
  apply u32_small. lia.
Qed.

(** Two folds give the 16-bit ones' complement representative. *)
Lemma fold16_twice x :
  0 <= x < 2 ^ 32 -> let f := fold16 (fold16 x) in
  0 <= f <= 65535 /\ (exists k, x = f + 65535 * k) /\ (f = 0 <-> x = 0).
Proof.
  intros Hx. cbv zeta. rewrite (fold16_arith x) by lia.
  pose proof (Z.mod_pos_bound x 65536 ltac:(lia)). pose proof (Z.div_mod x 65536 ltac:(lia)) as E.
  assert (0 <= x / 65536 < 65536) by (split; [apply Z.div_pos; lia|apply Z.div_lt_upper_bound; lia]).
  set (y := x mod 65536 + x / 65536). rewrite fold16_arith by (subst y; lia).
  pose proof (Z.mod_pos_bound y 65536 ltac:(lia)). pose proof (Z.div_mod y 65536 ltac:(lia)) as E'.
  assert (0 <= y / 65536 <= 1).
  { split; [apply Z.div_pos; subst y; lia|]. assert (y / 65536 < 2); [|lia].
    apply Z.div_lt_upper_bound; subst y; lia. }
  split; [|split]; subst y.
  - lia.
  - exists (x / 65536 + (x mod 65536 + x / 65536) / 65536). lia.
  - lia.
Qed.

Lemma cksum16_value data init :
  Forall is_byte data -> 0 <= init -> init + word_sum data < 2 ^ 32 ->
  cksum16 data init = 65535 - fold16 (fold16 (init + word_sum data)).
Proof.
  intros Hb Hi Hs. pose proof (word_sum_range data Hb). unfold cksum16.
  rewrite (u32_small init) by lia. rewrite cksum_loop_sum by done.
  destruct (fold16_twice (init + word_sum data)) as (Hf & _); [lia|].
  unfold u16, wrap. rewrite Z.lnot_eq_pred_opp || unfold Z.lnot.
  symmetry. apply (Z.mod_unique _ _ (-1)); lia.
Qed.

Lemma word_sum_app_even l l' :
  Nat.Even (length l) -> word_sum (l ++ l') = word_sum l + word_sum l'.
Proof.
  induction l as [|b|b1 b2 l IH] using bytes_ind2; intros He.
  - done.
  - destruct He as [k Hk]. simpl in Hk. lia.
  - cbn [app word_sum]. rewrite IH; [lia|]. destruct He as [k Hk]. cbn [length] in Hk.
    exists (k - 1)%nat. lia.
Qed.

Lemma cksum16_zero pre post init :
  let data := pre ++ [0; 0] ++ post in
  let c := cksum16 data init in
  Forall is_byte pre -> Forall is_byte post -> Nat.Even (length pre) ->
  Z.of_nat (length data) <= 65535 -> 0 <= init < 2 ^ 31 - 65536 ->
  cksum16 (pre ++ [c / 256; c mod 256] ++ post) init = 0.
Proof.
  intros data c Hpre Hpost He Hl Hi.
  assert (Forall is_byte data) as Hb.
  { apply Forall_app. split; [done|]. apply Forall_app. split; [|done]. all_bytes. }
  pose proof (word_sum_range data Hb) as Hr.
  set (s := init + word_sum data).
  assert (c = 65535 - fold16 (fold16 s)) as Hc by (apply cksum16_value; [done|lia|lia]).
  destruct (fold16_twice s) as (Hf & [k Hk] & Hz); [subst s; lia|].
  pose proof (Z.mod_pos_bound c 256 ltac:(lia)). pose proof (Z.div_mod c 256 ltac:(lia)) as Ec.
  assert (0 <= c / 256 < 256) by (split; [apply Z.div_pos; lia|apply Z.div_lt_upper_bound; lia]).
  assert (word_sum (pre ++ [c / 256; c mod 256] ++ post) = word_sum data + c) as Hw.
  { subst data. rewrite !(word_sum_app_even pre) by done. cbn [app word_sum]. lia. }
  rewrite cksum16_value; rewrite ?Hw; [| |lia|lia].
  - replace (init + (word_sum data + c)) with (s + c) by (subst s; lia).
    destruct (fold16_twice (s + c)) as (Hf' & [k' Hk'] & Hz'); [subst s; lia|].
    assert (s + c = 65535 * (k + 1)) by lia. lia.
  - apply Forall_app. split; [done|]. apply Forall_app. split; [|done].
    all_bytes.
Qed.

(** a packet whose checksum field (two bytes at an even offset, zero
    while summing) is filled, high byte first, with the value [cksum16]
    computes, is accepted by the receiver: [cksum16] of the filled packet is
    0.  Packets are at most 65535 bytes long and [init] is the sum of a pseudo
    header. *)
Theorem cksum16_verifies pre post init :
  let data := pre ++ [0; 0] ++ post in
  let c := cksum16 data init in
  Forall is_byte pre -> Forall is_byte post -> Nat.Even (length pre) ->
  Z.of_nat (length data) <= 65535 -> 0 <= init < 2 ^ 31 - 65536 ->
  cksum16 (pre ++ [c / 256; c mod 256] ++ post) init = 0.
Proof. apply cksum16_zero. Qed.

Lemma cksum16_verifies_witness :
  cksum16 [69; 0] 7 = 47864 /\
  cksum16 ([69; 0] ++ [47864 / 256; 47864 mod 256] ++ [1; 2; 3]) 7 <> 0 /\
  cksum16 ([69; 0] ++ [cksum16 ([69; 0] ++ [0; 0] ++ [1; 2; 3]) 7 / 256;
                       cksum16 ([69; 0] ++ [0; 0] ++ [1; 2; 3]) 7 mod 256] ++ [1; 2; 3]) 7 = 0.
Proof.
  split; [reflexivity|]. split; [vm_compute; congruence|].
  apply (cksum16_verifies [69; 0] [1; 2; 3] 7);
    [all_bytes|all_bytes|by exists 1%nat|simpl; lia|lia].
Defined.
