(* ===== verification/Mbuf.v ===== *)
(** Packet buffers and packet queues (kernel/net/mbuf.c, include/net/mbuf.h).

    A packet buffer is a record in a heap; pointers to buffers are locations of
    the heap and the pointer [head] into the buffer is its offset from [buf].
    A queue is a linked list through the [next] fields. *)

From S2P Require Import Prelude.

Definition MBUF_SIZE : Z := 8192.
Definition MBUF_DEFAULT_HEADROOM : Z := 128.

Definition loc := positive.

Record tcp_params := mkparams { sndnxt : Z; pflg : Z; datalen : Z }.
Definition zero_params : tcp_params := mkparams 0 0 0.

Record mbuf := mkmbuf {
  raddr : Z;
  next : option loc;
  head : Z;
  len : Z;
  mdata : bytes;
  params : tcp_params;
  tcphdr : option Z }.

Definition set_pos (h l : Z) (m : mbuf) : mbuf :=
  mkmbuf (raddr m) (next m) h l (mdata m) (params m) (tcphdr m).
Definition mset_next (n : option loc) (m : mbuf) : mbuf :=
  mkmbuf (raddr m) n (head m) (len m) (mdata m) (params m) (tcphdr m).

(** ** The four positions: pull, push, put, trim

    Each gives the pointer it returns (an offset, [None] for the null pointer)
    and the buffer after the call. *)

Definition mbufpull (m : mbuf) (n : Z) : option Z * mbuf :=
  if len m <? n then (None, m)
  else (Some (head m), set_pos (head m + n) (len m - n) m).

(** [None] at the outside is a panic. *)
Definition mbufpush (m : mbuf) (n : Z) : option (Z * mbuf) :=
  if head m - n <? 0 then None
  else Some (head m - n, set_pos (head m - n) (u32 (len m + n)) m).

Definition mbufput (m : mbuf) (n : Z) : option (Z * mbuf) :=
  if MBUF_SIZE <? u32 (len m + n) then None
  else Some (head m + len m, set_pos (head m) (u32 (len m + n)) m).

Definition mbuftrim (m : mbuf) (n : Z) : option Z * mbuf :=
  if len m <? n then (None, m)
  else (Some (head m + (len m - n)), set_pos (head m) (len m - n) m).

(** ** Allocation and queues *)

Record mstate := mkms { heap : gmap loc mbuf }.

Definition fresh_loc (s : mstate) : loc := fresh (dom (heap s)).

Definition mbufalloc (headroom : Z) : M mstate (option loc) := fun s =>
  if MBUF_SIZE <? headroom then Ok None s
  else
    let m := mkmbuf 0 None headroom 0 (replicate (Z.to_nat MBUF_SIZE) 0) zero_params None in
    let l := fresh_loc s in
    Ok (Some l) (mkms (<[l := m]> (heap s))).

Definition get_mbuf (l : loc) : M mstate mbuf := fun s =>
  match heap s !! l with Some m => Ok m s | None => Undef end.
Definition set_mbuf (l : loc) (m : mbuf) : M mstate unit :=
  modify (fun s => mkms (<[l := m]> (heap s))).

Definition mbuffree (l : loc) : M mstate unit :=
  modify (fun s => mkms (delete l (heap s))).

Definition mbuf_copy (l : loc) : M mstate loc :=
  d ← mbufalloc 0;
  match d with
  | None => undef
  | Some dst =>
      m ← get_mbuf l;
      set_mbuf dst m;;
      c ← get_mbuf dst;
      set_mbuf dst (mset_next None c);;
      ret dst
  end.

(** The queue object; [tail] has no meaning while [head] is null. *)
Record mbufq := mkq { qhead : option loc; qtail : option loc }.

Definition mbufq_init (q : mbufq) : mbufq := mkq None (qtail q).
Definition mbufq_empty (q : mbufq) : bool :=
  match qhead q with None => true | Some _ => false end.

Definition mbufq_pushtail (q : mbufq) (l : loc) : M mstate mbufq :=
  m ← get_mbuf l;
  set_mbuf l (mset_next None m);;
  match qhead q with
  | None => ret (mkq (Some l) (Some l))
  | Some _ =>
      match qtail q with
      | None => undef
      | Some t =>
          mt ← get_mbuf t;
          set_mbuf t (mset_next (Some l) mt);;
          ret (mkq (qhead q) (Some l))
      end
  end.

Definition mbufq_pushhead (q : mbufq) (l : loc) : M mstate mbufq :=
  m ← get_mbuf l;
  set_mbuf l (mset_next (qhead q) m);;
  ret (mkq (Some l) (qtail q)).

Definition mbufq_pophead (q : mbufq) : M mstate (option loc * mbufq) :=
  match qhead q with
  | None => ret (None, q)
  | Some h =>
      m ← get_mbuf h;
      ret (Some h, mkq (next m) (qtail q))
  end.

(** ** The data of a buffer *)

(** The buffer lies within its array. *)
Definition mbuf_ok (m : mbuf) : Prop :=
  0 <= head m /\ 0 <= len m /\ head m + len m <= MBUF_SIZE /\
  Z.of_nat (length (mdata m)) = MBUF_SIZE.

Definition payload (m : mbuf) : bytes := sub_bytes (Z.to_nat (head m)) (Z.to_nat (len m)) (mdata m).

(** Store the bytes [v] at offset [p], as the caller does through the pointer
    it got. *)
Definition mwrite (p : Z) (v : bytes) (m : mbuf) : mbuf :=
  mkmbuf (raddr m) (next m) (head m) (len m) (upd_bytes (Z.to_nat p) v (mdata m))
    (params m) (tcphdr m).

Lemma length_payload m : mbuf_ok m -> Z.of_nat (length (payload m)) = len m.
Proof.
  intros (H1 & H2 & H3 & H4). unfold payload. rewrite length_sub_bytes; lia.
Qed.

Lemma sub_upd_app off n v l :
  (off + n + length v <= length l)%nat ->
  sub_bytes off (n + length v) (upd_bytes (off + n) v l) = sub_bytes off n l ++ v.
Proof.
  intros H. rewrite sub_bytes_app. rewrite sub_upd_same by done.
  rewrite sub_upd_disjoint by (done || lia). done.
Qed.

Lemma sub_upd_app_l off v n l :
  (off + length v + n <= length l)%nat ->
  sub_bytes off (length v + n) (upd_bytes off v l) = v ++ sub_bytes (off + length v) n l.
Proof.
  intros H. rewrite sub_bytes_app. rewrite sub_upd_same by lia.
  rewrite sub_upd_disjoint by (done || lia). done.
Qed.

(** A header that is pushed and filled in, and pulled again. *)
Lemma mbuf_push_pull m (h : bytes) :
  mbuf_ok m -> Z.of_nat (length h) <= head m ->
  let n := Z.of_nat (length h) in
  exists m', mbufpush m n = Some (head m - n, m') /\
     let m2 := mwrite (head m - n) h m' in
     mbuf_ok m2 /\ len m2 = len m + n /\ payload m2 = h ++ payload m /\
     exists m3, mbufpull m2 n = (Some (head m - n), m3) /\ head m3 = head m /\
       len m3 = len m /\ payload m3 = payload m /\ mbuf_ok m3.
Proof.
  intros Hok Hn n. pose proof Hok as (H1 & H2 & H3 & H4). unfold MBUF_SIZE in *.
  unfold mbufpush. destruct (Z.ltb_spec (head m - n) 0); [lia|]. eexists. split; [done|].
  rewrite u32_small by lia. cbv zeta.
  assert (length (upd_bytes (Z.to_nat (head m - n)) h (mdata m)) = length (mdata m)) as Hlen
    by (apply length_upd_bytes; lia).
  split; [unfold mbuf_ok, MBUF_SIZE; simpl; rewrite Hlen; lia|]. split; [done|].
  unfold payload at 1. simpl. split.
  - replace (Z.to_nat (len m + n)) with (length h + Z.to_nat (len m))%nat by lia.
    rewrite sub_upd_app_l by lia. unfold payload. do 2 f_equal. lia.
  - unfold mbufpull. simpl. destruct (Z.ltb_spec (len m + n) n); [lia|].
    eexists. split; [done|]. simpl. split; [lia|]. split; [lia|].
    unfold payload, mbuf_ok, MBUF_SIZE. simpl. rewrite Hlen.
    replace (head m - n + n) with (head m) by lia.
    replace (len m + n - n) with (len m) by lia. split; [apply sub_upd_disjoint; lia|lia].
Qed.

(** what the positions do to the data of a packet: pushing a header
    prepends it, pulling a header returns where it lies and removes it,
    appending appends, trimming removes from the end; each keeps the packet
    inside its buffer, push and put when the room is there.  A header that was
    pushed is the one that is pulled. *)
Theorem mbuf_data_ops m (h : bytes) :
  mbuf_ok m ->
  let n := Z.of_nat (length h) in
  (n <= head m -> exists m', mbufpush m n = Some (head m - n, m') /\
     let m2 := mwrite (head m - n) h m' in
     mbuf_ok m2 /\ payload m2 = h ++ payload m /\
     exists m3, mbufpull m2 n = (Some (head m - n), m3) /\ head m3 = head m /\
       len m3 = len m /\ payload m3 = payload m) /\
  (head m + len m + n <= MBUF_SIZE -> exists m', mbufput m n = Some (head m + len m, m') /\
     let m2 := mwrite (head m + len m) h m' in
     mbuf_ok m2 /\ payload m2 = payload m ++ h) /\
  (n <= len m -> exists m', mbufpull m n = (Some (head m), m') /\ mbuf_ok m' /\
     payload m' = drop (length h) (payload m)) /\
  (n <= len m -> exists m', mbuftrim m n = (Some (head m + (len m - n)), m') /\ mbuf_ok m' /\
     payload m' = take (Z.to_nat (len m - n)) (payload m)) /\
  (len m < n -> mbufpull m n = (None, m) /\ mbuftrim m n = (None, m)).
Proof.
  intros Hok n. pose proof Hok as (H1 & H2 & H3 & H4). unfold MBUF_SIZE in *.
  split; [|split; [|split; [|split]]]; intros Hn.
  - destruct (mbuf_push_pull m h Hok Hn) as (m' & E & Ho & _ & Hp & m3 & E3 & ? & ? & ? & _).
    exists m'. split; [done|]. cbv zeta. split; [done|]. split; [done|]. by exists m3.
  - unfold mbufput, MBUF_SIZE. rewrite u32_small by lia.
    destruct (Z.ltb_spec 8192 (len m + n)); [lia|]. eexists. split; [done|]. cbv zeta.
    assert (length (upd_bytes (Z.to_nat (head m + len m)) h (mdata m)) = length (mdata m)) as Hlen
      by (apply length_upd_bytes; lia).
    split; [unfold mbuf_ok, MBUF_SIZE; simpl; rewrite Hlen; lia|].
    unfold payload. simpl.
    replace (Z.to_nat (len m + n)) with (Z.to_nat (len m) + length h)%nat by lia.
    replace (Z.to_nat (head m + len m)) with (Z.to_nat (head m) + Z.to_nat (len m))%nat by lia.
    apply sub_upd_app. lia.
  - unfold mbufpull. destruct (Z.ltb_spec (len m) n); [lia|]. eexists. split; [done|].
    split; [unfold mbuf_ok, MBUF_SIZE; simpl; lia|]. unfold payload, sub_bytes. simpl.
    rewrite <-take_drop_commute || rewrite skipn_firstn_comm.
    replace (Z.to_nat (head m + n)) with (Z.to_nat (head m) + length h)%nat by lia.
    rewrite drop_drop. f_equal. lia.
  - unfold mbuftrim. destruct (Z.ltb_spec (len m) n); [lia|]. eexists. split; [done|].
    split; [unfold mbuf_ok, MBUF_SIZE; simpl; lia|]. unfold payload, sub_bytes. simpl.
    rewrite take_take. f_equal. lia.
  - unfold mbufpull, mbuftrim. destruct (Z.ltb_spec (len m) n); [done|lia].
Qed.

Definition wit_mbuf : mbuf := mkmbuf 0 None 128 3 (replicate (Z.to_nat MBUF_SIZE) 5) zero_params None.

Lemma mbuf_data_ops_witness :
  exists m', mbufpush wit_mbuf 2 = Some (126, m') /\
    payload (mwrite 126 [1; 2] m') = [1; 2] ++ payload wit_mbuf.
Proof.
  destruct (mbuf_data_ops wit_mbuf [1; 2]) as ((m' & H1 & _ & H2 & _) & _).
  - unfold mbuf_ok, MBUF_SIZE, wit_mbuf. cbn [head len mdata].
    rewrite length_replicate, Z2Nat.id by done. split; [lia|]. split; [lia|]. split; [lia|done].
  - simpl. lia.
  - exists m'. split; [exact H1|exact H2].
Defined.

(** the check of [mbufput] bounds the length of the packet and not its
    end: a packet allocated with the default headroom can be extended past
    the end of its buffer without a panic. *)
Theorem mbufput_overruns :
  exists m s, mbufalloc MBUF_DEFAULT_HEADROOM (mkms ∅) = Ok (Some (fresh_loc (mkms ∅))) s /\
    heap s !! fresh_loc (mkms ∅) = Some m /\ mbuf_ok m /\
    exists m', mbufput m MBUF_SIZE = Some (128, m') /\ MBUF_SIZE < head m' + len m'.
Proof.
  eexists _, _. split; [reflexivity|]. cbn [heap]. rewrite lookup_insert_eq. split; [reflexivity|].
  split.
  - unfold mbuf_ok, MBUF_SIZE, MBUF_DEFAULT_HEADROOM. cbn [head len mdata].
    rewrite length_replicate, Z2Nat.id by done. lia.
  - eexists. split; [reflexivity|]. unfold MBUF_SIZE. cbn [head len set_pos]. unfold MBUF_DEFAULT_HEADROOM.
    rewrite u32_small by lia. lia.
Qed.

(** ** Queues refine lists *)

(** From [o], the [next] pointers lead through the locations [l] and end. *)
Fixpoint chain (h : gmap loc mbuf) (o : option loc) (l : list loc) : Prop :=
  match l with
  | [] => o = None
  | x :: l' => o = Some x /\ exists m, h !! x = Some m /\ chain h (next m) l'
  end.

Definition is_queue (h : gmap loc mbuf) (q : mbufq) (l : list loc) : Prop :=
  NoDup l /\ chain h (qhead q) l /\ (l <> [] -> last l = qtail q).

Lemma chain_ext h h' o l :
  (forall x, x ∈ l -> h' !! x = h !! x) -> chain h o l -> chain h' o l.
Proof.
  revert o. induction l as [|x l IH]; intros o Hx; simpl; [done|].
  intros (-> & m & Hm & Hc). split; [done|]. exists m. split; [rewrite Hx by set_solver; done|].
  apply IH; [set_solver|done].
Qed.

Lemma chain_append h o l t m x mx :
  NoDup (l ++ [t]) -> chain h o (l ++ [t]) -> h !! t = Some m -> x ∉ l ++ [t] ->
  h !! x = Some mx -> next mx = None ->
  chain (<[t := mset_next (Some x) m]> h) o ((l ++ [t]) ++ [x]).
Proof.
  revert o. induction l as [|y l IH]; intros o Hnd Hc Ht Hx Hmx Hn; simpl in *.
  - destruct Hc as (-> & m' & Hm' & Hc). split; [done|].
    eexists. rewrite lookup_insert_eq. split; [done|]. simpl. split; [done|].
    exists mx. rewrite lookup_insert_ne by set_solver. done.
  - destruct Hc as (-> & m' & Hm' & Hc). split; [done|]. exists m'.
    apply NoDup_cons in Hnd as [Hy Hnd].
    rewrite lookup_insert_ne by set_solver. split; [done|]. apply IH; auto. set_solver.
Qed.

Lemma mbufq_pushtail_ok h q l x m :
  is_queue h q l -> h !! x = Some m -> x ∉ l ->
  exists h' q', mbufq_pushtail q x (mkms h) = Ok q' (mkms h') /\ is_queue h' q' (l ++ [x]) /\
    (forall y, y ∉ l ++ [x] -> h' !! y = h !! y).
Proof.
  intros (Hnd & Hc & Hl) Hx Hxl.
  unfold mbufq_pushtail. mstep. unfold get_mbuf at 1. simpl. rewrite Hx. simpl.
  set (h1 := <[x := mset_next None m]> h).
  assert (chain h1 (qhead q) l) as Hc1.
  { eapply chain_ext; [|exact Hc]. intros y Hy. apply lookup_insert_ne. congruence. }
  destruct (decide (l = [])) as [->|Hne].
  + simpl in Hc. rewrite Hc. eexists _, _. split; [done|]. split.
    { split; [apply NoDup_singleton|]. split; [|done]. simpl. split; [done|].
      eexists. unfold h1. rewrite lookup_insert_eq. done. }
    intros y Hy. apply lookup_insert_ne. set_solver.
  + specialize (Hl Hne). destruct l as [|y l0]; [done|]. pose proof Hc as (Hq & _). rewrite Hq.
    destruct (exists_last Hne) as (l1 & t & E). rewrite E in *. rewrite last_snoc in Hl. rewrite <-Hl.
    assert (exists mt, h1 !! t = Some mt) as [mt Hmt].
    { clear -Hc1. revert Hc1. generalize (qhead q). induction l1 as [|z l1 IH]; intros o; simpl.
      - intros (_ & m' & ? & _). eauto.
      - intros (_ & m' & ? & Hc). by apply (IH (next m')). }
    unfold get_mbuf. simpl. rewrite Hmt. eexists _, _. split; [done|]. simpl.
    split; [split; [|split]|].
    * apply NoDup_app. split; [done|]. split; [set_solver|apply NoDup_singleton].
    * rewrite <-Hq. eapply chain_append; [done|done|done|done| |].
      -- unfold h1. apply lookup_insert_eq.
      -- done.
    * intros _. by rewrite last_snoc.
    * intros z Hz. unfold h1. rewrite !lookup_insert_ne by set_solver. done.
Qed.

(** a packet queue is a first-in first-out list: [mbufq_pushtail] of a
    buffer that is not in the queue appends it, [mbufq_pophead] returns and
    removes the first one (or null when there is none), [mbufq_init] makes the
    queue empty and [mbufq_empty] tells whether it is. *)
Theorem mbufq_fifo h q l x m :
  is_queue h q l -> h !! x = Some m -> x ∉ l ->
  (exists h' q', mbufq_pushtail q x (mkms h) = Ok q' (mkms h') /\ is_queue h' q' (l ++ [x])) /\
  (exists q', mbufq_pophead q (mkms h) = Ok (hd_error l, q') (mkms h) /\ is_queue h q' (tl l)) /\
  is_queue h (mbufq_init q) [] /\
  (mbufq_empty q = true <-> l = []).
Proof.
  intros HQ Hx Hxl. pose proof HQ as (Hnd & Hc & Hl). split; [|split; [|split]].
  - destruct (mbufq_pushtail_ok h q l x m HQ Hx Hxl) as (h' & q' & E & Hq' & _). by exists h', q'.
  - unfold mbufq_pophead. destruct l as [|y l]; simpl in Hc.
    + rewrite Hc. eexists. split; [done|]. by split.
    + destruct Hc as (Hq & m' & Hm' & Hc). rewrite Hq. mstep. unfold get_mbuf. simpl. rewrite Hm'.
      eexists. split; [done|]. apply NoDup_cons in Hnd as [_ Hnd]. split; [done|]. split; [done|].
      simpl. intros Hne. rewrite <-Hl by done. destruct l; done.
  - split; [constructor|]. by split.
  - unfold mbufq_empty. destruct l as [|y l]; simpl in Hc.
    + by rewrite Hc.
    + destruct Hc as (-> & _). done.
Qed.

Definition wit_heap : gmap loc mbuf := <[1%positive := wit_mbuf]> (<[2%positive := wit_mbuf]> ∅).

Lemma mbufq_fifo_witness :
  exists h' q', mbufq_pushtail (mkq (Some 2%positive) (Some 2%positive)) 1%positive (mkms wit_heap)
                = Ok q' (mkms h') /\ is_queue h' q' [2%positive; 1%positive].
Proof.
  apply (mbufq_fifo wit_heap (mkq (Some 2%positive) (Some 2%positive)) [2%positive] 1%positive wit_mbuf).
  - split; [apply NoDup_singleton|]. split; [|done]. simpl. split; [done|].
    exists wit_mbuf. split; [|done]. unfold wit_heap.
    rewrite lookup_insert_ne by discriminate. apply lookup_insert_eq.
  - apply lookup_insert_eq.
  - intros H. apply list_elem_of_singleton in H. discriminate H.
Defined.

(** [mbufq_pushhead] does not set [tail]: on an empty queue whose
    [tail] still names a packet that was taken out before, a packet that is
    then appended is lost. *)
Theorem mbufq_pushhead_loses :
  exists h q h' q' h'' q'',
    is_queue h q [] /\
    mbufq_pushhead q 1%positive (mkms h) = Ok q' (mkms h') /\
    mbufq_pushtail q' 2%positive (mkms h') = Ok q'' (mkms h'') /\
    is_queue h'' (mkq (qhead q'') (Some 1%positive)) [1%positive].
Proof.
  exists (<[3%positive := wit_mbuf]> wit_heap), (mkq None (Some 3%positive)).
  do 4 eexists. split; [by split; [constructor|]|].
  split; [reflexivity|]. split; [reflexivity|].
  split; [apply NoDup_singleton|]. split; [|done]. simpl. split; [done|].
  eexists. split; reflexivity.
Qed.
