(* ===== verification/DList.v ===== *)
(** Doubly linked bucket lists.

    The ARP table and the socket tables keep hash buckets as lists linked in
    both directions through their nodes.  This file holds what the two share:
    the shape of such a list in a heap, the search loop, appending and
    unlinking, against an interface of nodes. *)

From S2P Require Import Prelude.

Class DNode (N : Type) := {
  nprev : N -> option positive;
  nnext : N -> option positive;
  set_prev : option positive -> N -> N;
  set_next : option positive -> N -> N;
  nprev_set_prev o n : nprev (set_prev o n) = o;
  nnext_set_prev o n : nnext (set_prev o n) = nnext n;
  nprev_set_next o n : nprev (set_next o n) = nprev n;
  nnext_set_next o n : nnext (set_next o n) = o }.

Section dlist.
Context {N : Type} `{!DNode N}.
Implicit Types (h : gmap positive N) (l : list positive) (o p : option positive) (q : N -> bool).

(** The nodes [l], linked from [o] on, the first one's [prev] being [p]. *)
Fixpoint dseg h p o l : Prop :=
  match l with
  | [] => o = None
  | x :: l' => o = Some x /\ exists n, h !! x = Some n /\ nprev n = p /\ dseg h (Some x) (nnext n) l'
  end.

(** Walk the list until a node satisfies [q]: the node found, if any, and the
    last node passed. *)
Fixpoint dfind (fuel : nat) h q p o : option (option positive * option positive) :=
  match fuel with
  | O => None
  | S fuel' =>
      match o with
      | None => Some (None, p)
      | Some x =>
          match h !! x with
          | None => None
          | Some n => if q n then Some (Some x, p) else dfind fuel' h q (Some x) (nnext n)
          end
      end
  end.

Definition last_or p l : option positive := match last l with Some x => Some x | None => p end.

Lemma last_or_cons p x l : last_or p (x :: l) = last_or (Some x) l.
Proof. unfold last_or. rewrite last_cons. by destruct (last l). Qed.

Lemma last_or_snoc p l x : last_or p (l ++ [x]) = Some x.
Proof. unfold last_or. by rewrite last_snoc. Qed.

Lemma dseg_heap h p o l x : dseg h p o l -> x ∈ l -> exists n, h !! x = Some n.
Proof.
  revert p o. induction l as [|y l IH]; intros p o; simpl; [set_solver|].
  intros (-> & n & Hn & _ & Hs) [->|Hx]%elem_of_cons; eauto.
Qed.

Lemma dseg_ext h h' p o l :
  (forall x, x ∈ l -> h' !! x = h !! x) -> dseg h p o l -> dseg h' p o l.
Proof.
  revert p o. induction l as [|x l IH]; intros p o Hx; simpl; [done|].
  intros (-> & n & Hn & Hp & Hs). split; [done|]. exists n.
  split; [rewrite Hx by set_solver; done|]. split; [done|]. apply IH; [set_solver|done].
Qed.

(** Change the contents of nodes but not their links. *)
Lemma dseg_links h h' p o l :
  (forall x n, x ∈ l -> h !! x = Some n ->
     exists n', h' !! x = Some n' /\ nprev n' = nprev n /\ nnext n' = nnext n) ->
  dseg h p o l -> dseg h' p o l.
Proof.
  revert p o. induction l as [|x l IH]; intros p o Hx; simpl; [done|].
  intros (-> & n & Hn & Hp & Hs). split; [done|].
  destruct (Hx x n) as (n' & Hn' & E1 & E2); [set_solver|done|].
  exists n'. split; [done|]. split; [congruence|]. rewrite E2. apply IH; [|done].
  intros y m Hy. apply Hx. set_solver.
Qed.

Definition none_of h q l : Prop := forall x n, x ∈ l -> h !! x = Some n -> q n = false.

Lemma dfind_spec fuel h q p o l :
  dseg h p o l -> (length l < fuel)%nat ->
  (exists l1 x l2 n, l = l1 ++ x :: l2 /\ h !! x = Some n /\ q n = true /\ none_of h q l1 /\
     dfind fuel h q p o = Some (Some x, last_or p l1)) \/
  (none_of h q l /\ dfind fuel h q p o = Some (None, last_or p l)).
Proof.
  revert fuel p o. induction l as [|x l IH]; intros fuel p o Hs Hf;
    (destruct fuel as [|fuel]; [simpl in *; lia|]); simpl in Hs.
  - subst o. right. split; [intros ?; set_solver|done].
  - destruct Hs as (-> & n & Hn & Hp & Hs). cbn [dfind]. rewrite Hn.
    destruct (q n) eqn:Eq.
    + left. exists [], x, l, n. repeat split; try done. intros ?; set_solver.
    + destruct (IH fuel (Some x) (nnext n) Hs) as [(l1 & y & l2 & m & -> & Hm & Hq & Hno & E)|[Hno E]];
        [simpl in Hf; lia| |].
      * left. exists (x :: l1), y, l2, m. split; [done|]. split; [done|]. split; [done|].
        split; [|by rewrite last_or_cons].
        intros z k [->|Hz]%elem_of_cons Hk; [congruence|by apply (Hno z)].
      * right. split; [|by rewrite last_or_cons].
        intros z k [->|Hz]%elem_of_cons Hk; [congruence|by apply (Hno z)].
Qed.

(** Append node [x]: the old last node points to it. *)
Lemma dseg_append h p o l t nt x nx :
  NoDup (l ++ [t]) -> dseg h p o (l ++ [t]) -> h !! t = Some nt -> x ∉ l ++ [t] ->
  nprev nx = Some t -> nnext nx = None ->
  dseg (<[x := nx]> (<[t := set_next (Some x) nt]> h)) p o ((l ++ [t]) ++ [x]).
Proof.
  revert p o. induction l as [|y l IH]; intros p o Hnd Hs Ht Hx Hp Hn; simpl in *.
  - destruct Hs as (-> & n & Hm & Hpn & Hnn). assert (n = nt) as -> by congruence.
    split; [done|]. eexists. rewrite lookup_insert_ne by set_solver.
    rewrite lookup_insert_eq. split; [done|]. rewrite nprev_set_next, nnext_set_next.
    split; [done|]. split; [done|]. exists nx. rewrite lookup_insert_eq. done.
  - destruct Hs as (-> & n & Hm & Hpn & Hs). apply NoDup_cons in Hnd as [Hy Hnd].
    split; [done|]. exists n. rewrite !lookup_insert_ne by set_solver.
    split; [done|]. split; [done|]. apply IH; auto. set_solver.
Qed.

(** The heap after unlinking a node whose neighbours are [np] and [nn]. *)
Definition link_next h (np nn : option positive) : gmap positive N :=
  match np with
  | Some a => match h !! a with Some m => <[a := set_next nn m]> h | None => h end
  | None => h
  end.
Definition link_prev h (nn np : option positive) : gmap positive N :=
  match nn with
  | Some b => match h !! b with Some m => <[b := set_prev np m]> h | None => h end
  | None => h
  end.

Lemma dseg_prev_change h p p' o l :
  NoDup l -> dseg h p o l -> dseg (link_prev h o p') p' o l.
Proof.
  destruct l as [|x l]; simpl.
  - by intros _ ->.
  - intros [Hx Hnd]%NoDup_cons (-> & n & Hn & Hp & Hs). simpl. rewrite Hn. split; [done|].
    eexists. rewrite lookup_insert_eq. split; [done|]. rewrite nprev_set_prev, nnext_set_prev.
    split; [done|]. eapply dseg_ext; [|exact Hs]. intros y Hy. apply lookup_insert_ne. set_solver.
Qed.

Lemma link_prev_ne h o p x : o <> Some x -> link_prev h o p !! x = h !! x.
Proof.
  intros Hx. unfold link_prev. destruct o as [b|]; [|done]. destruct (h !! b); [|done].
  apply lookup_insert_ne. congruence.
Qed.

(** Unlinking node [x] from the middle, the front or the end of a list. *)
Lemma dseg_remove h p o l1 x l2 n :
  NoDup (l1 ++ x :: l2) -> dseg h p o (l1 ++ x :: l2) -> h !! x = Some n ->
  nprev n = last_or p l1 /\
  dseg (match last l1 with
        | Some _ => link_next (link_prev h (nnext n) (nprev n)) (nprev n) (nnext n)
        | None => link_prev h (nnext n) (nprev n)
        end) p (match l1 with [] => nnext n | _ => o end) (l1 ++ l2).
Proof.
  revert p o. induction l1 as [|y l1 IH]; intros p o Hnd Hs Hx.
  - simpl in *. destruct Hs as (-> & m & Hm & Hp & Hs). assert (m = n) as -> by congruence.
    apply NoDup_cons in Hnd as [_ Hnd]. split; [done|]. rewrite Hp. by eapply dseg_prev_change.
  - cbn [app] in *. destruct Hs as (-> & m & Hm & Hp & Hs).
    apply NoDup_cons in Hnd as [Hy Hnd]. destruct (IH (Some y) (nnext m) Hnd Hs Hx) as [HP HS].
    split; [by rewrite last_or_cons|]. rewrite last_cons.
    assert (forall b, nnext n = Some b -> b ∈ l2) as Hb.
    { clear -Hs Hx.
      revert Hs. generalize (Some y), (nnext m). induction l1 as [|z l1 IH]; intros p o; simpl.
      - intros (-> & k & Hk & _ & Hs) b Hb. assert (k = n) as -> by congruence. rewrite Hb in Hs.
        destruct l2 as [|c l2]; simpl in Hs; [done|]. destruct Hs as (Hs & _). set_solver.
      - intros (_ & k & _ & _ & Hs). by apply (IH _ _ Hs). }
    assert (forall P, link_prev h (nnext n) P !! y = Some m) as Hly.
    { intros P. rewrite link_prev_ne; [done|]. intros E. apply Hy.
      apply elem_of_app. right. apply elem_of_cons. right. by apply Hb. }
    destruct (last l1) as [t|] eqn:El.
    + destruct l1 as [|z l1]; [done|].
      split; [done|]. exists m.
      assert (nprev n = Some t) as Et by (rewrite HP; unfold last_or; by rewrite El).
      assert (t ∈ z :: l1) as Htin by (apply last_Some in El as [? ->]; set_solver).
      split.
      { rewrite Et. unfold link_next. destruct (link_prev h (nnext n) (Some t) !! t); [|by rewrite Hly].
        rewrite lookup_insert_ne; [by rewrite Hly|]. intros ->. apply Hy. set_solver. }
      split; [done|]. exact HS.
    + destruct l1 as [|z l1]; [|by rewrite last_None in El].
      split; [done|]. simpl in HP. unfold last_or in HP. simpl in HP. rewrite HP.
      unfold link_next. rewrite Hly. eexists. rewrite lookup_insert_eq. split; [done|].
      rewrite nprev_set_next, nnext_set_next. split; [done|].
      rewrite HP in HS. eapply dseg_ext; [|exact HS]. intros w Hw. apply lookup_insert_ne.
      intros ->. apply Hy. simpl in *. set_solver.
Qed.
End dlist.

(** ** Hash tables of such lists *)

Record htab (N : Type) := mkhtab {
  hheap : gmap positive N;
  hheads : list (option positive) }.
Arguments mkhtab {N} _ _.
Arguments hheap {N} _.
Arguments hheads {N} _.

(** A list in the heap is no longer than the heap. *)
Definition list_fuel {A} (h : gmap positive A) : nat := S (size h).

Section first.
Context {N : Type}.
Implicit Types (h : gmap positive N) (l : list positive) (q : N -> bool).

(** The first node of a list that satisfies [q]. *)
Fixpoint first h q l : option positive :=
  match l with
  | [] => None
  | x :: l' =>
      match h !! x with
      | Some n => if q n then Some x else first h q l'
      | None => None
      end
  end.

Lemma first_none h q l : none_of h q l -> first h q l = None.
Proof.
  induction l as [|x l IH]; intros Hno; simpl; [done|].
  destruct (h !! x) as [n|] eqn:E; [|done]. rewrite (Hno x n) by set_solver.
  apply IH. intros y m Hy. apply Hno. set_solver.
Qed.

Lemma first_app h q l1 x n l2 :
  none_of h q l1 -> (forall y, y ∈ l1 -> is_Some (h !! y)) -> h !! x = Some n -> q n = true ->
  first h q (l1 ++ x :: l2) = Some x.
Proof.
  induction l1 as [|y l1 IH]; intros Hno Hs Hx Hq; simpl.
  - by rewrite Hx, Hq.
  - destruct (Hs y) as [m Hm]; [set_solver|]. rewrite Hm, (Hno y m) by set_solver.
    apply IH; [intros z k Hz; apply Hno; set_solver|set_solver|done|done].
Qed.

Lemma first_snoc h q l x n :
  (forall y, y ∈ l -> is_Some (h !! y)) -> h !! x = Some n ->
  first h q (l ++ [x]) = match first h q l with Some y => Some y | None => if q n then Some x else None end.
Proof.
  induction l as [|y l IH]; intros Hs Hx; simpl; [by rewrite Hx|].
  destruct (Hs y) as [m Hm]; [set_solver|]. rewrite Hm.
  destruct (q m); [done|]. apply IH; [set_solver|done].
Qed.

Lemma first_ext h h' q l :
  (forall x, x ∈ l -> option_map q (h' !! x) = option_map q (h !! x)) ->
  first h' q l = first h q l.
Proof.
  induction l as [|x l IH]; intros Hx; simpl; [done|].
  specialize (Hx x ltac:(set_solver)) as Hx0.
  destruct (h' !! x) as [a|], (h !! x) as [b|]; simpl in Hx0; try done.
  injection Hx0 as Hx0. rewrite Hx0, IH; [done|]. intros y Hy. apply Hx. set_solver.
Qed.

Lemma first_remove h q l1 x l2 :
  (forall y, y ∈ l1 ++ x :: l2 -> is_Some (h !! y)) ->
  first h q (l1 ++ x :: l2) <> Some x -> first h q (l1 ++ l2) = first h q (l1 ++ x :: l2).
Proof.
  induction l1 as [|y l1 IH]; intros Hs; simpl.
  - destruct (Hs x) as [n ->]; [set_solver|]. by destruct (q n).
  - destruct (Hs y) as [n ->]; [set_solver|]. destruct (q n); [done|]. apply IH. set_solver.
Qed.

Lemma first_in h q l x : first h q l = Some x -> x ∈ l /\ exists n, h !! x = Some n /\ q n = true.
Proof.
  induction l as [|y l IH]; simpl; [done|].
  destruct (h !! y) as [n|] eqn:E; [|done]. destruct (q n) eqn:Eq.
  - intros [= ->]. split; [set_solver|eauto].
  - intros Hf. destruct (IH Hf). split; [set_solver|done].
Qed.
End first.

Section htab.
Context {N : Type} `{!DNode N} (hash : N -> nat).
Implicit Types (t : htab N) (h : gmap positive N) (l : list positive) (q : N -> bool).

(** A property of nodes that does not depend on their links. *)
Definition link_free {A} (f : N -> A) : Prop :=
  forall o n, f (set_prev o n) = f n /\ f (set_next o n) = f n.

(** Bucket [i] holds the nodes [l], in this order. *)
Definition hbucket t (i : nat) l : Prop :=
  NoDup l /\ (exists hd, hheads t !! i = Some hd /\ dseg (hheap t) None hd l) /\
  (forall x n, x ∈ l -> hheap t !! x = Some n -> hash n = i).

Definition hwf (size : nat) t : Prop := forall i, (i < size)%nat -> exists l, hbucket t i l.

Lemma hbucket_heap t i l x : hbucket t i l -> x ∈ l -> is_Some (hheap t !! x).
Proof. intros (_ & (hd & _ & Hs) & _) Hx. destruct (dseg_heap _ _ _ _ x Hs Hx); eauto. Qed.

Lemma hbucket_fuel t i l : hbucket t i l -> (length l < list_fuel (hheap t))%nat.
Proof.
  intros Hb. unfold list_fuel. apply Nat.lt_succ_r.
  rewrite <-size_dom, <-(size_list_to_set (C := gset positive)) by apply Hb.
  apply subseteq_size. intros x Hx%elem_of_list_to_set. apply elem_of_dom.
  by eapply hbucket_heap.
Qed.

(** The search loop finds the first match and, when there is none, ends at the
    last node. *)
Lemma hfind_spec t i l hd q :
  hbucket t i l -> hheads t !! i = Some hd ->
  exists p, dfind (list_fuel (hheap t)) (hheap t) q None hd = Some (first (hheap t) q l, p) /\
    (first (hheap t) q l = None -> p = last_or None l).
Proof.
  intros Hb Hhd. pose proof (hbucket_fuel _ _ _ Hb) as Hf.
  destruct Hb as (Hnd & (hd' & Hhd' & Hs) & _). assert (hd' = hd) as -> by congruence.
  destruct (dfind_spec _ _ q _ _ _ Hs Hf) as [(l1 & x & l2 & n & -> & Hn & Hq & Hno & E)|[Hno E]];
    rewrite E.
  - assert (first (hheap t) q (l1 ++ x :: l2) = Some x) as ->.
    { apply (first_app _ _ _ _ n); try done. intros y Hy.
      destruct (dseg_heap _ _ _ _ y Hs); [set_solver|eauto]. }
    eexists. split; [done|discriminate].
  - rewrite first_none by done. eauto.
Qed.

Lemma dseg_unique h p o l l' : dseg h p o l -> dseg h p o l' -> l = l'.
Proof.
  revert p o l'. induction l as [|x l IH]; intros p o [|y l']; simpl; [done| | |].
  - intros -> (? & _). done.
  - intros (-> & _). done.
  - intros (-> & n & Hn & _ & Hs) ([= ->] & m & Hm & _ & Hs'). assert (n = m) as -> by congruence.
    f_equal. by eapply IH.
Qed.

Lemma hbucket_unique t i l l' : hbucket t i l -> hbucket t i l' -> l = l'.
Proof.
  intros (_ & (hd & Hhd & Hs) & _) (_ & (hd' & Hhd' & Hs') & _). assert (hd = hd') as -> by congruence.
  by eapply dseg_unique.
Qed.

Lemma buckets_disjoint t i j li lj x :
  hbucket t i li -> hbucket t j lj -> x ∈ li -> x ∈ lj -> i = j.
Proof.
  intros Hi Hj Hxi Hxj. destruct (hbucket_heap _ _ _ _ Hi Hxi) as [n Hn].
  destruct Hi as (_ & _ & Hi), Hj as (_ & _ & Hj). rewrite <-(Hi x n), <-(Hj x n) by done. done.
Qed.

(** Append node [x] to bucket [i], whose last node is [p]. *)
Definition happend (i : nat) (x : positive) (nx : N) (p : option positive) t : htab N :=
  mkhtab (<[x := set_prev p (set_next None nx)]> (link_next (hheap t) p (Some x)))
    (match p with None => <[i := Some x]> (hheads t) | Some _ => hheads t end).

Lemma happend_heap i x nx p t y n :
  hheap t !! y = Some n -> y <> x ->
  hheap (happend i x nx p t) !! y = Some (if decide (p = Some y) then set_next (Some x) n else n).
Proof.
  intros Hn Hy. unfold happend. simpl. rewrite lookup_insert_ne by congruence.
  unfold link_next. destruct p as [a|]; [|by rewrite decide_False].
  destruct (decide (Some a = Some y)) as [[= ->]|Hne].
  - by rewrite Hn, lookup_insert_eq.
  - destruct (hheap t !! a); [|done]. by rewrite lookup_insert_ne by congruence.
Qed.

Hypothesis (Hhash : link_free hash).

(** Node [x] is in no list of the table. *)
Definition unlinked (x : positive) t : Prop := forall j lj, hbucket t j lj -> x ∉ lj.

Lemma fresh_unlinked x t : hheap t !! x = None -> unlinked x t.
Proof. intros Hx j lj Hb Hin. destruct (hbucket_heap _ _ _ _ Hb Hin). congruence. Qed.

Lemma happend_bucket i x nx l t :
  hbucket t i l -> unlinked x t -> hash nx = i ->
  hbucket (happend i x nx (last_or None l) t) i (l ++ [x]).
Proof.
  intros Hb Hx Hi. pose proof Hb as (Hnd & (hd & Hhd & Hs) & Hh).
  assert (x ∉ l) as Hxl by by eapply Hx.
  split; [|split].
  - apply NoDup_app. split; [done|]. split; [set_solver|apply NoDup_singleton].
  - destruct (decide (l = [])) as [->|Hne].
    + exists (Some x). simpl in *. subst hd. split.
      * apply list_lookup_insert_eq. by eapply lookup_lt_Some.
      * split; [done|]. eexists. rewrite lookup_insert_eq. split; [done|].
        by rewrite nprev_set_prev, nnext_set_prev, nnext_set_next.
    + destruct (exists_last Hne) as (l1 & a & ->). exists hd. unfold happend.
      rewrite last_or_snoc. simpl. split; [done|].
      destruct (dseg_heap _ _ _ _ a Hs) as [k Hk]; [set_solver|]. rewrite Hk.
      apply dseg_append; try done; by rewrite ?nprev_set_prev, ?nnext_set_prev, ?nnext_set_next.
  - intros y n [Hy| ->%list_elem_of_singleton]%elem_of_app.
    + destruct (hbucket_heap _ _ _ _ Hb Hy) as [m Hm].
      rewrite (happend_heap _ _ _ _ _ _ m) by (done || congruence). intros [= <-].
      case_decide; [destruct (Hhash (Some x) m) as [_ ->]|]; by apply (Hh y).
    + unfold happend. simpl. rewrite lookup_insert_eq. intros [= <-].
      destruct (Hhash (last_or None l) (set_next None nx)) as [-> _].
      by destruct (Hhash None nx) as [_ ->].
Qed.

Lemma happend_other i x nx l t j lj :
  hbucket t i l -> unlinked x t -> hbucket t j lj -> j <> i ->
  hbucket (happend i x nx (last_or None l) t) j lj.
Proof.
  intros Hb Hx Hj Hne. assert (x ∉ lj) as Hxl by by eapply Hx.
  assert (forall y, y ∈ lj -> hheap (happend i x nx (last_or None l) t) !! y = hheap t !! y) as He.
  { intros y Hy. destruct (hbucket_heap _ _ _ _ Hj Hy) as [m Hm].
    rewrite (happend_heap _ _ _ _ _ _ m) by (done || congruence). rewrite decide_False; [done|].
    intros El. apply Hne. apply (buckets_disjoint t j i lj l y); try done.
    unfold last_or in El. destruct (last l) eqn:E2; [|done]. simplify_eq.
    apply last_Some in E2 as [l' ->]. set_solver. }
  destruct Hj as (Hnd & (hd & Hhd & Hs) & Hh). split; [done|]. split.
  - exists hd. split.
    + unfold happend. simpl. destruct (last_or None l); [done|]. by rewrite list_lookup_insert_ne.
    + by eapply dseg_ext.
  - intros y n Hy. rewrite He by done. by apply Hh.
Qed.

Lemma happend_wf size i x nx l t :
  hwf size t -> hbucket t i l -> unlinked x t -> hash nx = i ->
  hwf size (happend i x nx (last_or None l) t).
Proof.
  intros Hwf Hb Hx Hi j Hj. destruct (decide (j = i)) as [->|Hne].
  - eexists. by apply happend_bucket.
  - destruct (Hwf j Hj) as [lj Hlj]. eexists. by apply happend_other.
Qed.

Lemma dseg_split h p o l1 x l2 :
  dseg h p o (l1 ++ x :: l2) -> exists n, h !! x = Some n /\ dseg h (Some x) (nnext n) l2.
Proof.
  revert p o. induction l1 as [|y l1 IH]; intros p o; simpl.
  - intros (_ & n & Hn & _ & Hs). eauto.
  - intros (_ & n & _ & _ & Hs). by eapply IH.
Qed.

(** The loop that walks to the last node of a non-empty list. *)
Lemma dfind_tail t i l hd q :
  hbucket t i l -> hheads t !! i = Some (Some hd) ->
  (forall n, q n = true <-> nnext n = None) ->
  exists p a, last_or None l = Some a /\
    dfind (list_fuel (hheap t)) (hheap t) q None (Some hd) = Some (Some a, p).
Proof.
  intros Hb Hhd Hq. pose proof (hbucket_fuel _ _ _ Hb) as Hf.
  destruct Hb as (Hnd & (hd' & Hhd' & Hs) & _). assert (hd' = Some hd) as -> by congruence.
  destruct (dfind_spec _ _ q _ _ _ Hs Hf) as [(l1 & x & l2 & n & -> & Hn & Hqn & Hno & E)|[Hno E]].
  - apply Hq in Hqn. destruct (dseg_split _ _ _ _ _ _ Hs) as (m & Hm & Hs2).
    assert (m = n) as -> by congruence. rewrite Hqn in Hs2.
    destruct l2 as [|y l2]; [|by destruct Hs2]. rewrite last_or_snoc. eauto.
  - destruct l as [|y l]; [done|]. destruct (exists_last (l := y :: l)) as (l1 & a & El); [done|].
    rewrite El in *. destruct (dseg_split _ _ _ _ _ _ Hs) as (m & Hm & Hs2). simpl in Hs2.
    specialize (Hno a m ltac:(set_solver) Hm). apply Hq in Hs2. congruence.
Qed.

(** Unlinking and deleting node [x] of bucket [i]. *)
Definition hremove (i : nat) (x : positive) (n : N) t : htab N :=
  let h1 := link_prev (hheap t) (nnext n) (nprev n) in
  match nprev n with
  | Some _ => mkhtab (delete x (link_next h1 (nprev n) (nnext n))) (hheads t)
  | None => mkhtab (delete x h1) (<[i := nnext n]> (hheads t))
  end.

(** The links around the removed node belong to its bucket. *)
Lemma link_next_ne h p o x : p <> Some x -> link_next h p o !! x = h !! x.
Proof.
  intros Hx. unfold link_next. destruct p as [b|]; [|done]. destruct (h !! b); [|done].
  apply lookup_insert_ne. congruence.
Qed.

Lemma link_hash h h' i l :
  (h' = h \/ (exists a o, h' = link_next h a o) \/ (exists a o, h' = link_prev h a o)) ->
  (forall x n, x ∈ l -> h !! x = Some n -> hash n = i) ->
  (forall x n, x ∈ l -> h' !! x = Some n -> hash n = i).
Proof.
  intros [->|[(a & o & ->)|(a & o & ->)]] Hh x n Hx; [by apply Hh|..];
    unfold link_next, link_prev; destruct a as [b|]; try (by apply Hh);
    destruct (h !! b) as [m|] eqn:E; try (by apply Hh);
    intros [[<- <-]|[_ Hn]]%lookup_insert_Some; try (by eapply Hh).
  - destruct (Hhash o m) as [_ ->]. by eapply Hh.
  - destruct (Hhash o m) as [-> _]. by eapply Hh.
Qed.

Lemma hremove_bucket i x n l1 l2 t :
  hbucket t i (l1 ++ x :: l2) -> hheap t !! x = Some n ->
  hbucket (hremove i x n t) i (l1 ++ l2).
Proof.
  intros (Hnd & (hd & Hhd & Hs) & Hh) Hn.
  destruct (dseg_remove _ _ _ _ _ _ _ Hnd Hs Hn) as [Hp Hs'].
  apply NoDup_app in Hnd as (Hnd1 & Hdis & [Hx2 Hnd2]%NoDup_cons).
  assert (x ∉ l1 ++ l2) as Hx by set_solver.
  set (h1 := link_prev (hheap t) (nnext n) (nprev n)) in *.
  set (h2 := match last l1 with Some _ => link_next h1 (nprev n) (nnext n) | None => h1 end) in *.
  assert (hremove i x n t = mkhtab (delete x h2)
            (match l1 with [] => <[i := nnext n]> (hheads t) | _ => hheads t end)) as ->.
  { unfold hremove. fold h1. subst h2. rewrite Hp. unfold last_or. destruct l1 as [|y l1]; [done|].
    by destruct (last_is_Some (y :: l1)) as [_ [z ->]]. }
  split; [|split].
  - apply NoDup_app. split; [done|]. split; [set_solver|done].
  - exists (match l1 with [] => nnext n | _ => hd end). split.
    + destruct l1; [|done]. apply list_lookup_insert_eq. by eapply lookup_lt_Some.
    + eapply dseg_ext; [|exact Hs']. intros y Hy. simpl. apply lookup_delete_ne. congruence.
  - intros y m Hy. simpl. rewrite lookup_delete_ne by congruence.
    revert y m Hy. eapply (link_hash h1); [subst h2; destruct (last l1); eauto|].
    eapply (link_hash (hheap t)); [eauto|]. intros y m Hy. apply Hh. set_solver.
Qed.

Lemma hremove_heap i x n l1 l2 t y :
  hbucket t i (l1 ++ x :: l2) -> hheap t !! x = Some n -> y <> x -> y ∉ l1 ++ l2 ->
  hheap (hremove i x n t) !! y = hheap t !! y.
Proof.
  intros (Hnd & (hd & Hhd & Hs) & Hh) Hn Hyx Hy.
  destruct (dseg_remove _ _ _ _ _ _ _ Hnd Hs Hn) as [Hp _].
  destruct (dseg_split _ _ _ _ _ _ Hs) as (m & Hm & Hs2). assert (m = n) as -> by congruence.
  assert (nnext n <> Some y) as Hny.
  { intros E. rewrite E in Hs2. destruct l2 as [|z l2]; simpl in Hs2; [done|].
    destruct Hs2 as ([= ->] & _). set_solver. }
  assert (nprev n <> Some y) as Hpy.
  { rewrite Hp. unfold last_or. destruct (last l1) as [z|] eqn:E; [|done]. intros [= ->].
    apply last_Some in E as [l' ->]. set_solver. }
  unfold hremove. destruct (nprev n) as [a|]; cbn [hheap]; rewrite lookup_delete_ne by congruence.
  - rewrite link_next_ne by done. by rewrite link_prev_ne.
  - by rewrite link_prev_ne.
Qed.

Lemma hremove_other i x n l1 l2 t j lj :
  hbucket t i (l1 ++ x :: l2) -> hheap t !! x = Some n -> hbucket t j lj -> j <> i ->
  hbucket (hremove i x n t) j lj.
Proof.
  intros Hb Hn Hj Hne.
  assert (forall y, y ∈ lj -> hheap (hremove i x n t) !! y = hheap t !! y) as He.
  { intros y Hy. assert (y ∉ l1 ++ x :: l2) as Hno.
    { intros Hin. apply Hne. by apply (buckets_disjoint t j i lj (l1 ++ x :: l2) y). }
    apply (hremove_heap _ _ _ l1 l2); [done|done|set_solver|set_solver]. }
  destruct Hj as (Hnd & (hd & Hhd & Hs) & Hh). split; [done|]. split.
  - exists hd. split; [|by eapply dseg_ext].
    unfold hremove. destruct (nprev n); simpl; [done|]. by rewrite list_lookup_insert_ne.
  - intros y m Hy. rewrite He by done. by apply Hh.
Qed.

Lemma hremove_wf size i x n l1 l2 t :
  hwf size t -> hbucket t i (l1 ++ x :: l2) -> hheap t !! x = Some n -> hwf size (hremove i x n t).
Proof.
  intros Hwf Hb Hn j Hj. destruct (decide (j = i)) as [->|Hne].
  - eexists. by apply hremove_bucket.
  - destruct (Hwf j Hj) as [lj Hlj]. eexists. by eapply hremove_other.
Qed.

(** Removal does not change what a link-independent test says of a node. *)
Lemma hremove_test {A} (g : N -> A) i x n t y :
  link_free g -> y <> x -> option_map g (hheap (hremove i x n t) !! y) = option_map g (hheap t !! y).
Proof.
  intros Hg Hy.
  assert (forall h a o, option_map g (link_next h a o !! y) = option_map g (h !! y)) as H1.
  { intros h a o. unfold link_next. destruct a as [b|]; [|done]. destruct (h !! b) as [m|] eqn:E; [|done].
    destruct (decide (y = b)) as [->|]; [|by rewrite lookup_insert_ne].
    rewrite lookup_insert_eq, E. simpl. by destruct (Hg o m) as [_ ->]. }
  assert (forall h a o, option_map g (link_prev h a o !! y) = option_map g (h !! y)) as H2.
  { intros h a o. unfold link_prev. destruct a as [b|]; [|done]. destruct (h !! b) as [m|] eqn:E; [|done].
    destruct (decide (y = b)) as [->|]; [|by rewrite lookup_insert_ne].
    rewrite lookup_insert_eq, E. simpl. by destruct (Hg o m) as [-> _]. }
  unfold hremove. destruct (nprev n); cbn [hheap]; rewrite lookup_delete_ne by congruence; by rewrite ?H1, ?H2.
Qed.

(** Changing the contents of a node and not its links. *)
Definition hupd (x : positive) (f : N -> N) t : htab N := mkhtab (alter f x (hheap t)) (hheads t).

Lemma hupd_bucket x f i l t :
  (forall n, nprev (f n) = nprev n /\ nnext (f n) = nnext n /\ hash (f n) = hash n) ->
  hbucket t i l -> hbucket (hupd x f t) i l.
Proof.
  intros Hf (Hnd & (hd & Hhd & Hs) & Hh). split; [done|]. split.
  - exists hd. split; [done|]. eapply dseg_links; [|exact Hs]. intros y n _ Hn. simpl.
    destruct (decide (y = x)) as [->|].
    + rewrite lookup_alter_eq, Hn. eexists. split; [done|]. split; apply Hf.
    + rewrite lookup_alter_ne, Hn by done. eauto.
  - intros y n Hy. simpl. destruct (decide (y = x)) as [->|].
    + rewrite lookup_alter_eq. destruct (hheap t !! x) as [m|] eqn:E; [|done]. intros [= <-].
      destruct (Hf m) as (_ & _ & ->). by apply (Hh x).
    + rewrite lookup_alter_ne by done. by apply Hh.
Qed.
End htab.
