(* ===== verification/Arp.v ===== *)
(** The ARP table (kernel/net/arptable.c): a hash table from IP addresses to
    Ethernet addresses, its buckets doubly linked lists (DList.v). *)

From S2P Require Import Prelude DList.

Definition ARP_DEFUALT_ENTRY_NUM : Z := 32.
Definition ETH_ADDR_LEN : nat := 6.

Record arp_cache := mkarp {
  resolved : bool;
  aip : Z;
  amac : bytes;
  aprev : option positive;
  anext : option positive }.

#[export] Instance arp_node : DNode arp_cache := {
  nprev := aprev;
  nnext := anext;
  set_prev o n := mkarp (resolved n) (aip n) (amac n) o (anext n);
  set_next o n := mkarp (resolved n) (aip n) (amac n) (aprev n) o;
  nprev_set_prev _ _ := eq_refl;
  nnext_set_prev _ _ := eq_refl;
  nprev_set_next _ _ := eq_refl;
  nnext_set_next _ _ := eq_refl }.

(** The array [arptable] and the nodes it leads to. *)
Abbreviation arptab := (htab arp_cache).

Definition bucket_of (ip : Z) : nat := Z.to_nat (ip mod ARP_DEFUALT_ENTRY_NUM).

Definition ip_is (ip : Z) (n : arp_cache) : bool := aip n =? ip.

Definition get_arp_cache (ip : Z) : M arptab positive := fun t =>
  match hheads t !! bucket_of ip with
  | None => Undef
  | Some hd =>
      match dfind (list_fuel (hheap t)) (hheap t) (ip_is ip) None hd with
      | None => Undef
      | Some (Some x, _) => Ok x t
      | Some (None, prev) =>
          let x := fresh (dom (hheap t)) in
          let h1 := link_next (hheap t) prev (Some x) in
          let h2 := <[x := mkarp false ip (replicate ETH_ADDR_LEN 0) prev None]> h1 in
          let hds := match hd with
                     | None => <[bucket_of ip := Some x]> (hheads t)
                     | Some _ => hheads t
                     end in
          Ok x (mkhtab h2 hds)
      end
  end.

Definition arp_cache_free (x : positive) : M arptab unit := fun t =>
  match hheap t !! x with
  | None => Undef
  | Some n =>
      let h1 := link_next (hheap t) (aprev n) (anext n) in
      let h2 := link_prev h1 (anext n) (aprev n) in
      let hds := match anext n with
                 | Some _ => hheads t
                 | None => <[bucket_of (aip n) := anext n]> (hheads t)
                 end in
      Ok tt (mkhtab (delete x h2) hds)
  end.

Definition arptable_init (t : arptab) : arptab :=
  mkhtab (hheap t) (replicate (Z.to_nat ARP_DEFUALT_ENTRY_NUM) None).

Definition set_mac (mac : bytes) (n : arp_cache) : arp_cache :=
  mkarp true (aip n) mac (aprev n) (anext n).

Definition arptable_add (ip : Z) (mac : bytes) : M arptab unit :=
  x ← get_arp_cache ip;
  modify (hupd x (set_mac mac)).

(** 0 and the address, or -1. *)
Definition arptable_get_mac (ip : Z) : M arptab (option bytes) :=
  x ← get_arp_cache ip;
  t ← get;
  match hheap t !! x with
  | None => undef
  | Some n => ret (if resolved n then Some (amac n) else None)
  end.

Definition arptable_del (ip : Z) : M arptab unit :=
  x ← get_arp_cache ip;
  arp_cache_free x.

(** ** The table as a map *)

Definition ahash (n : arp_cache) : nat := bucket_of (aip n).

Definition wf_arp (t : arptab) : Prop := hwf ahash (Z.to_nat ARP_DEFUALT_ENTRY_NUM) t.

(** The address that the table resolves [ip] to, read without the creation of
    an entry. *)
Definition alookup (t : arptab) (ip : Z) : option bytes :=
  match hheads t !! bucket_of ip with
  | Some hd =>
      match dfind (list_fuel (hheap t)) (hheap t) (ip_is ip) None hd with
      | Some (Some x, _) =>
          match hheap t !! x with
          | Some n => if resolved n then Some (amac n) else None
          | None => None
          end
      | _ => None
      end
  | None => None
  end.

Lemma bucket_of_lt ip : (bucket_of ip < Z.to_nat ARP_DEFUALT_ENTRY_NUM)%nat.
Proof.
  unfold bucket_of, ARP_DEFUALT_ENTRY_NUM. pose proof (Z.mod_pos_bound ip 32). lia.
Qed.

Lemma ahash_links : link_free ahash.
Proof. by intros o n. Qed.

(** What an entry says, independent of its links. *)
Definition answer (n : arp_cache) : option bytes := if resolved n then Some (amac n) else None.

Lemma alookup_first t ip l :
  hbucket ahash t (bucket_of ip) l ->
  alookup t ip = first (hheap t) (ip_is ip) l ≫= (fun x => hheap t !! x ≫= answer).
Proof.
  intros Hb. pose proof Hb as (_ & (hd & Hhd & _) & _). unfold alookup. rewrite Hhd.
  destruct (hfind_spec ahash t _ l hd (ip_is ip) Hb Hhd) as (p & -> & _).
  destruct (first _ _ l) as [x|]; [|done]. simpl. by destruct (hheap t !! x).
Qed.

(** The state that [get_arp_cache] appends its new entry in. *)
Definition new_entry (ip : Z) : arp_cache := mkarp false ip (replicate ETH_ADDR_LEN 0) None None.

Lemma get_arp_cache_run t ip l :
  hbucket ahash t (bucket_of ip) l ->
  get_arp_cache ip t =
    match first (hheap t) (ip_is ip) l with
    | Some x => Ok x t
    | None => let x := fresh (dom (hheap t)) in
        Ok x (happend (bucket_of ip) x (new_entry ip) (last_or None l) t)
    end.
Proof.
  intros Hb. pose proof Hb as (_ & (hd & Hhd & Hs) & _). unfold get_arp_cache. rewrite Hhd.
  destruct (hfind_spec ahash t _ l hd (ip_is ip) Hb Hhd) as (p & -> & Hp).
  destruct (first _ _ l) as [x|]; [done|]. rewrite (Hp eq_refl). cbv zeta. f_equal.
  unfold happend. f_equal. destruct l as [|y l]; simpl in Hs.
  - by rewrite Hs.
  - destruct Hs as (-> & _). by rewrite last_or_cons; unfold last_or; destruct (last l).
Qed.

Lemma fresh_none t : hheap (N := arp_cache) t !! fresh (dom (hheap t)) = None.
Proof. apply not_elem_of_dom, is_fresh. Qed.

Lemma fresh_entry t : unlinked ahash (fresh (dom (hheap t))) t.
Proof. apply fresh_unlinked, fresh_none. Qed.

(** Appending an unresolved entry changes no answer. *)
Lemma append_lookup t ip l ip' :
  wf_arp t -> hbucket ahash t (bucket_of ip) l ->
  alookup (happend (bucket_of ip) (fresh (dom (hheap t))) (new_entry ip) (last_or None l) t) ip' =
  alookup t ip'.
Proof.
  intros Hwf Hb. set (x := fresh (dom (hheap t))). pose proof (fresh_none t) as Hx. fold x in Hx.
  set (t' := happend _ _ _ _ _).
  assert (hbucket ahash t' (bucket_of ip) (l ++ [x])) as Fb
    by (apply happend_bucket; [apply ahash_links|done|apply fresh_entry|done]).
  assert (forall j lj, hbucket ahash t j lj -> j <> bucket_of ip -> hbucket ahash t' j lj) as Fo
    by (intros; apply happend_other; [apply ahash_links|done|apply fresh_entry|done|done]).
  assert (exists nx, hheap t' !! x = Some nx /\ answer nx = None) as (nx & Hxn & Hxa)
    by (eexists; split; [apply lookup_insert_eq|done]).
  assert (forall y n, hheap t !! y = Some n -> exists n', hheap t' !! y = Some n' /\
            aip n' = aip n /\ answer n' = answer n) as Hk.
  { intros y n Hn. eexists. split; [apply happend_heap; [done|congruence]|]. by case_decide. }
  clearbody t'. destruct (Hwf _ (bucket_of_lt ip')) as [l' Hb'].
  assert (forall y, y ∈ l' -> exists n n', hheap t !! y = Some n /\ hheap t' !! y = Some n' /\
            aip n' = aip n /\ answer n' = answer n) as Hl.
  { intros y Hy. destruct (hbucket_heap _ _ _ _ _ Hb' Hy) as [n Hn]. exists n.
    destruct (Hk y n Hn) as (n' & ?). eauto. }
  assert (first (hheap t') (ip_is ip') l' = first (hheap t) (ip_is ip') l') as Ef.
  { apply first_ext. intros y Hy. destruct (Hl y Hy) as (n & n' & -> & -> & E & _).
    simpl. unfold ip_is. by rewrite E. }
  assert (forall y, first (hheap t) (ip_is ip') l' = Some y ->
            (hheap t' !! y ≫= answer) = (hheap t !! y ≫= answer)) as Ha.
  { intros y [Hy _]%first_in. destruct (Hl y Hy) as (n & n' & -> & -> & _ & E). done. }
  rewrite (alookup_first t ip' l') by done.
  destruct (decide (bucket_of ip' = bucket_of ip)) as [Eb|Eb].
  - rewrite <-Eb in Fb, Hb. rewrite (hbucket_unique _ _ _ _ _ Hb Hb') in Fb.
    rewrite (alookup_first t' ip' (l' ++ [x])) by done.
    rewrite (first_snoc _ _ _ x nx), Ef; [| |done].
    + destruct (first (hheap t) (ip_is ip') l') as [y|]; cbn [mbind option_bind]; [by apply Ha|].
      destruct (ip_is ip' nx); [|done]. cbn [mbind option_bind]. by rewrite Hxn.
    + intros y Hy. destruct (Hl y Hy) as (n & n' & _ & -> & _). eauto.
  - rewrite (alookup_first t' ip' l') by auto. rewrite Ef.
    destruct (first (hheap t) (ip_is ip') l') as [y|]; [|done]. by apply Ha.
Qed.

(** [get_arp_cache] gives the entry of [ip], in a table with the same answers. *)
Lemma get_arp_cache_spec t ip :
  wf_arp t ->
  exists x t' l n, get_arp_cache ip t = Ok x t' /\ wf_arp t' /\
    hbucket ahash t' (bucket_of ip) l /\ first (hheap t') (ip_is ip) l = Some x /\
    hheap t' !! x = Some n /\ aip n = ip /\ answer n = alookup t ip /\
    (forall ip', alookup t' ip' = alookup t ip').
Proof.
  intros Hwf. destruct (Hwf _ (bucket_of_lt ip)) as [l Hb].
  rewrite (get_arp_cache_run t ip l Hb).
  destruct (first (hheap t) (ip_is ip) l) as [x|] eqn:Ef.
  - destruct (first_in _ _ _ _ Ef) as (Hx & n & Hn & Hq). exists x, t, l, n.
    apply Z.eqb_eq in Hq. split_and!; try done.
    rewrite (alookup_first t ip l), Ef by done. cbn [mbind option_bind]. by rewrite Hn.
  - set (x := fresh (dom (hheap t))). pose proof (fresh_none t) as Hx. fold x in Hx.
    assert (hbucket ahash (happend (bucket_of ip) x (new_entry ip) (last_or None l) t)
              (bucket_of ip) (l ++ [x])) as Fb by (apply happend_bucket; [apply ahash_links|done|apply fresh_entry|done]).
    eexists x, _, (l ++ [x]), _. split; [done|].
    split; [apply happend_wf; [apply ahash_links|done|done|apply fresh_entry|done]|]. split; [done|].
    assert (hheap (happend (bucket_of ip) x (new_entry ip) (last_or None l) t) !! x =
      Some (mkarp false ip (replicate ETH_ADDR_LEN 0) (last_or None l) None)) as Hn by apply lookup_insert_eq.
    split; [|split; [exact Hn|split; [done|split]]].
    + rewrite (first_snoc _ _ _ x _) by
        (exact Hn || (intros y Hy; eapply hbucket_heap; [exact Fb|set_solver])).
      replace (first _ _ l) with (@None positive).
      * unfold ip_is. simpl. by rewrite Z.eqb_refl.
      * rewrite <-Ef. symmetry. apply first_ext. intros y Hy.
        destruct (hbucket_heap _ _ _ _ _ Hb Hy) as [n Hy'].
        rewrite (happend_heap _ _ _ _ _ _ n), Hy' by (done || congruence). simpl. by case_decide.
    + rewrite (alookup_first t ip l), Ef by done. done.
    + intros ip'. by apply append_lookup.
Qed.

Lemma set_mac_bucket x mac i l t : hbucket ahash t i l -> hbucket ahash (hupd x (set_mac mac) t) i l.
Proof. by apply hupd_bucket. Qed.

(** Recording an address for the entry [x] of [ip]. *)
Lemma set_mac_lookup t ip l x mac ip' :
  wf_arp t -> hbucket ahash t (bucket_of ip) l -> first (hheap t) (ip_is ip) l = Some x ->
  alookup (hupd x (set_mac mac) t) ip' = if ip' =? ip then Some mac else alookup t ip'.
Proof.
  intros Hwf Hb Hf. destruct (first_in _ _ _ _ Hf) as (_ & nx & Hnx & Hqx). apply Z.eqb_eq in Hqx.
  assert (forall q l', (forall n, q (set_mac mac n) = q n) ->
            first (hheap (hupd x (set_mac mac) t)) q l' = first (hheap t) q l') as He.
  { intros q l' Hq. apply first_ext. intros y _. simpl. destruct (decide (y = x)) as [->|].
    - rewrite lookup_alter_eq. destruct (hheap t !! x); [|done]. simpl. by rewrite Hq.
    - by rewrite lookup_alter_ne. }
  destruct (Hwf _ (bucket_of_lt ip')) as [l' Hb'].
  rewrite (alookup_first _ ip' l'), He by (done || by apply set_mac_bucket).
  rewrite (alookup_first t ip' l') by done.
  destruct (Z.eqb_spec ip' ip) as [->|Hne].
  - rewrite (hbucket_unique _ _ _ _ _ Hb' Hb), Hf. cbn [mbind option_bind]. simpl.
    by rewrite lookup_alter_eq, Hnx.
  - destruct (first (hheap t) (ip_is ip') l') as [y|] eqn:Ey; [|done]. cbn [mbind option_bind].
    destruct (first_in _ _ _ _ Ey) as (_ & ny & Hny & Hqy). apply Z.eqb_eq in Hqy.
    simpl. rewrite lookup_alter_ne; [done|]. congruence.
Qed.

Lemma arptable_ok t ip mac :
  wf_arp t ->
  (exists t', arptable_add ip mac t = Ok tt t' /\ wf_arp t' /\
     forall ip', alookup t' ip' = if ip' =? ip then Some mac else alookup t ip') /\
  (exists t', arptable_get_mac ip t = Ok (alookup t ip) t' /\ wf_arp t' /\
     forall ip', alookup t' ip' = alookup t ip') /\
  (wf_arp (arptable_init t) /\ forall ip', alookup (arptable_init t) ip' = None).
Proof.
  intros Hwf. destruct (get_arp_cache_spec t ip Hwf)
    as (x & t' & l & n & Hrun & Hwf' & Hb & Hf & Hn & Hip & Ha & Hsame).
  split; [|split].
  - exists (hupd x (set_mac mac) t'). unfold arptable_add. rewrite (bind_ok _ _ _ _ _ Hrun).
    split; [done|]. split.
    + intros i Hi. destruct (Hwf' i Hi) as [li Hli]. exists li. by apply set_mac_bucket.
    + intros ip'. rewrite (set_mac_lookup t' ip l) by done. by rewrite Hsame.
  - exists t'. unfold arptable_get_mac. rewrite (bind_ok _ _ _ _ _ Hrun). mstep. rewrite Hn.
    split; [|done]. by rewrite <-Ha.
  - assert (forall ip', hheads (arptable_init t) !! bucket_of ip' = Some None) as Hh.
    { intros ip'. apply lookup_replicate_2, bucket_of_lt. }
    split.
    + intros i Hi. exists []. split; [constructor|]. split; [|set_solver].
      exists None. split; [|done]. by apply lookup_replicate_2.
    + intros ip'. unfold alookup. by rewrite Hh.
Qed.

(** the ARP table is a map.  After [arptable_init] nothing is resolved;
    after [arptable_add ip mac], [arptable_get_mac ip] gives [mac] and every
    other address resolves as before; looking up an address, which may create
    an unresolved entry, changes no answer.  The operations keep the table
    well formed and none of them follows a pointer outside of it. *)
Theorem arptable_map t ip mac :
  wf_arp t ->
  (exists t', arptable_add ip mac t = Ok tt t' /\ wf_arp t' /\
     forall ip', alookup t' ip' = if ip' =? ip then Some mac else alookup t ip') /\
  (exists t', arptable_get_mac ip t = Ok (alookup t ip) t' /\ wf_arp t' /\
     forall ip', alookup t' ip' = alookup t ip') /\
  (wf_arp (arptable_init t) /\ forall ip', alookup (arptable_init t) ip' = None).
Proof. apply arptable_ok. Qed.

Definition wit_arptab : arptab := arptable_init (mkhtab ∅ []).

Lemma wit_arptab_wf : wf_arp wit_arptab.
Proof.
  intros i Hi. exists []. split; [constructor|]. split; [|set_solver].
  exists None. split; [|done]. by apply lookup_replicate_2.
Qed.

Lemma arptable_map_witness :
  exists t', arptable_add 3232244482 [82; 84; 0; 18; 52; 86] wit_arptab = Ok tt t' /\
    alookup t' 3232244482 = Some [82; 84; 0; 18; 52; 86] /\ alookup t' 3232244450 = None.
Proof.
  destruct (arptable_map wit_arptab 3232244482 [82; 84; 0; 18; 52; 86] wit_arptab_wf)
    as ((t' & Hr & _ & Hl) & _). exists t'. split; [exact Hr|].
  split; [by rewrite (Hl 3232244482)|by rewrite (Hl 3232244450)].
Defined.

(** [arp_cache_free] confuses the first and the last entry of a
    bucket: deleting the last entry of a bucket of two (34 and 2 share bucket
    2) makes the other entry unreachable. *)
Theorem arptable_del_drops_bucket :
  exists t1 t2 t3, arptable_add 2 [1] wit_arptab = Ok tt t1 /\
    arptable_add 34 [2] t1 = Ok tt t2 /\ alookup t2 2 = Some [1] /\
    arptable_del 34 t2 = Ok tt t3 /\ alookup t3 2 = None.
Proof. do 3 eexists. repeat split; vm_compute; reflexivity. Qed.
