(* ===== verification/SockCb.v ===== *)
(** Socket control blocks (kernel/net/sock_cb.c, include/net/sock_cb.h) and the
    table of local ports (kernel/net/socket.c).

    The control blocks of a protocol live in a hash table by local port
    (DList.v).  A queue of packets is a list: Mbuf.v shows that the linked
    queue is one. *)

From S2P Require Import Prelude DList Mbuf.

Definition SOCK_CB_LEN : Z := 128.
Definition PGSIZE : Z := 4096.
Definition SOCK_UDP : Z := 1.
Definition SOCK_TCP : Z := 2.

Inductive sock_cb_state :=
| SOCK_CB_CLOSED | SOCK_CB_LISTEN | SOCK_CB_SYN_SENT | SOCK_CB_SYN_RCVD
| SOCK_CB_ESTAB | SOCK_CB_FIN_WAIT_1 | SOCK_CB_FIN_WAIT_2 | SOCK_CB_CLOSING
| SOCK_CB_TIME_WAIT | SOCK_CB_CLOSE_WAIT | SOCK_CB_LAST_ACK.

#[export] Instance sock_cb_state_dec : EqDecision sock_cb_state.
Proof. solve_decision. Defined.

Record snd_vars := mksnd {
  snd_init_seq : Z; snd_unack : Z; snd_nxt_seq : Z; snd_wnd : Z; snd_wl1 : Z; snd_wl2 : Z }.
Record rcv_vars := mkrcv { rcv_init_seq : Z; rcv_nxt_seq : Z; rcv_wnd : Z }.

(** [slocked] is the sleep lock of the block; [nonblockable] is the flag of the
    file it belongs to. *)
Record sock_cb := mkscb {
  sfile : option positive;
  nonblockable : bool;
  slocked : bool;
  socktype : Z;
  acpt_scb : option positive;
  state : sock_cb_state;
  sport : Z;
  sraddr : Z;
  dport : Z;
  snd : snd_vars;
  rcv : rcv_vars;
  txq : list mbuf;
  rxq : list mbuf;
  sprev : option positive;
  snext : option positive }.

#[export] Instance scb_node : DNode sock_cb := {
  nprev := sprev;
  nnext := snext;
  set_prev o n := mkscb (sfile n) (nonblockable n) (slocked n) (socktype n) (acpt_scb n) (state n)
    (sport n) (sraddr n) (dport n) (snd n) (rcv n) (txq n) (rxq n) o (snext n);
  set_next o n := mkscb (sfile n) (nonblockable n) (slocked n) (socktype n) (acpt_scb n) (state n)
    (sport n) (sraddr n) (dport n) (snd n) (rcv n) (txq n) (rxq n) (sprev n) o;
  nprev_set_prev _ _ := eq_refl;
  nnext_set_prev _ _ := eq_refl;
  nprev_set_next _ _ := eq_refl;
  nnext_set_next _ _ := eq_refl }.

(** The table of one protocol. *)
Abbreviation scbtab := (htab sock_cb).

Definition entry_of (port : Z) : nat := Z.to_nat (port mod SOCK_CB_LEN).

Definition new_sock_cb (fl : option positive) (nb : bool) (ra sp dp ty : Z) : sock_cb :=
  mkscb fl nb false ty None SOCK_CB_CLOSED sp ra dp
    (mksnd 0 0 0 0 0 0) (mkrcv 0 0 PGSIZE) [] [] None None.

Definition alloc_sock_cb (fl : option positive) (nb : bool) (ra sp dp ty : Z) : M scbtab positive :=
  fun t =>
    let x := fresh (dom (hheap t)) in
    Ok x (mkhtab (<[x := new_sock_cb fl nb ra sp dp ty]> (hheap t)) (hheads t)).

(** [while (tail->next != 0) tail = tail->next;] stops at the first block
    without a successor. *)
Definition no_next (n : sock_cb) : bool := match snext n with None => true | Some _ => false end.

Definition add_sock_cb (x : positive) : M scbtab unit := fun t =>
  match hheap t !! x with
  | None => Undef
  | Some n =>
      match hheads t !! entry_of (sport n) with
      | None => Undef
      | Some None =>
          Ok tt (mkhtab (<[x := set_prev None (set_next None n)]> (hheap t))
                        (<[entry_of (sport n) := Some x]> (hheads t)))
      | Some (Some hd) =>
          match dfind (list_fuel (hheap t)) (hheap t) no_next None (Some hd) with
          | Some (Some tail, _) =>
              let h1 := link_next (hheap t) (Some tail) (Some x) in
              Ok tt (mkhtab (<[x := set_prev (Some tail) (set_next None n)]> h1) (hheads t))
          | _ => Undef
          end
      end
  end.

Definition scb_match (sp ra dp : Z) (n : sock_cb) : bool :=
  (sport n =? sp) && ((dport n =? 0) || ((dport n =? dp) && (sraddr n =? ra))).

Definition get_sock_cb (sp ra dp : Z) : M scbtab (option positive) := fun t =>
  match hheads t !! entry_of sp with
  | None => Undef
  | Some hd =>
      match dfind (list_fuel (hheap t)) (hheap t) (scb_match sp ra dp) None hd with
      | Some (r, _) => Ok r t
      | None => Undef
      end
  end.

(** The part of [free_sock_cb] that unlinks and frees the block. *)
Definition unlink_sock_cb (x : positive) : M scbtab unit := fun t =>
  match hheap t !! x with
  | None => Undef
  | Some n =>
      let t1 :=
        if negb (dport n =? 0) then
          let h1 := link_prev (hheap t) (snext n) (sprev n) in
          match sprev n with
          | Some _ => mkhtab (link_next h1 (sprev n) (snext n)) (hheads t)
          | None => mkhtab h1 (<[entry_of (sport n) := snext n]> (hheads t))
          end
        else t in
      Ok tt (mkhtab (delete x (hheap t1)) (hheads t1))
  end.

Definition set_queues (tx rx : list mbuf) (n : sock_cb) : sock_cb :=
  mkscb (sfile n) (nonblockable n) (slocked n) (socktype n) (acpt_scb n) (state n)
    (sport n) (sraddr n) (dport n) (snd n) (rcv n) tx rx (sprev n) (snext n).

Definition push_to_scb_rxq (m : mbuf) (n : sock_cb) : sock_cb :=
  set_queues (txq n) (rxq n ++ [mset_next None m]) n.

Definition pop_from_scb_rxq (n : sock_cb) : option mbuf * sock_cb :=
  match rxq n with [] => (None, n) | m :: q => (Some m, set_queues (txq n) q n) end.

Definition push_to_scb_txq (m : mbuf) (sndnxt flg datalen : Z) (n : sock_cb) : sock_cb :=
  set_queues (txq n ++ [mkmbuf (raddr m) None (head m) (len m) (mdata m)
                          (mkparams (u32 sndnxt) (u8 flg) (u16 datalen)) (tcphdr m)]) (rxq n) n.

Definition pop_from_scb_txq (n : sock_cb) : option mbuf * sock_cb :=
  match txq n with [] => (None, n) | m :: q => (Some m, set_queues q (rxq n) n) end.

(** ** Local ports *)

Definition START_OF_SPORT : Z := 20000.
Definition SPORT_NUM : Z := 65535.
Definition SPORT_ELEM : Z := SPORT_NUM / 8.

Record ports := mkports { sport_table : list Z; current_sport : Z }.

Definition port_byte (i : Z) : M ports Z := fun s =>
  match sport_table s !! Z.to_nat i with Some b => Ok b s | None => Undef end.
Definition set_port_byte (i b : Z) : M ports unit := fun s =>
  match sport_table s !! Z.to_nat i with
  | Some _ => Ok tt (mkports (<[Z.to_nat i := u8 b]> (sport_table s)) (current_sport s))
  | None => Undef
  end.

(** [for (int i = 0; i < 8; i++) if ((byte & (1 << i)) == 0) ...]: the first
    clear bit. *)
Fixpoint clear_bit (k : nat) (i b : Z) : option Z :=
  match k with
  | O => None
  | S k' => if Z.land b (Z.shiftl 1 i) =? 0 then Some i else clear_bit k' (i + 1) b
  end.

Fixpoint new_sport_loop (fuel : nat) (islooped : Z) : M ports Z :=
  match fuel with
  | O => nofuel
  | S fuel' =>
      if islooped <? 2 then
        s ← get;
        let cur := current_sport s in
        b ← port_byte (cur / 8);
        match (if Z.land b 255 <? 255 then clear_bit 8 0 b else None) with
        | Some i =>
            set_port_byte (cur / 8) (Z.lor b (Z.shiftl 1 i));;
            ret (u16 (cur + i))
        | None =>
            if SPORT_NUM <=? cur + 8 then
              modify (fun s => mkports (sport_table s) START_OF_SPORT);;
              new_sport_loop fuel' (islooped + 1)
            else
              modify (fun s => mkports (sport_table s) (u16 (cur + 8)));;
              new_sport_loop fuel' islooped
        end
      else panic "[get_new_sport] sport is full\n"
  end.

(** At most two passes over the 5692 groups of eight ports. *)
Definition sport_fuel : nat := Z.to_nat 11400.
Definition get_new_sport : M ports Z := new_sport_loop sport_fuel 0.

Definition get_specified_sport (port : Z) : M ports Z :=
  b ← port_byte (port / 8);
  if Z.land b (Z.shiftl 1 (port mod 8)) =? 0 then
    set_port_byte (port / 8) (Z.lor b (Z.shiftl 1 (port mod 8)));;
    ret port
  else ret (u16 (-1)).

Definition release_sport (port : Z) : M ports unit :=
  if SPORT_NUM <? port then ret tt
  else
    b ← port_byte (port / 8);
    if 1 <=? Z.land b (Z.shiftl 1 (port mod 8)) then
      set_port_byte (port / 8) (Z.lxor b (Z.shiftl 1 (port mod 8)))
    else ret tt.

(** ** The table of control blocks *)

Definition shash (n : sock_cb) : nat := entry_of (sport n).

Definition wf_scbs (t : scbtab) : Prop := hwf shash (Z.to_nat SOCK_CB_LEN) t.

Lemma entry_of_lt p : (entry_of p < Z.to_nat SOCK_CB_LEN)%nat.
Proof. unfold entry_of, SOCK_CB_LEN. pose proof (Z.mod_pos_bound p 128). lia. Qed.

Lemma shash_links : link_free shash.
Proof. by intros o n. Qed.

Lemma scb_match_links sp ra dp : link_free (scb_match sp ra dp).
Proof. by intros o n. Qed.

Lemma get_run t sp ra dp l :
  hbucket shash t (entry_of sp) l ->
  get_sock_cb sp ra dp t = Ok (first (hheap t) (scb_match sp ra dp) l) t.
Proof.
  intros Hb. pose proof Hb as (_ & (hd & Hhd & _) & _). unfold get_sock_cb. rewrite Hhd.
  by destruct (hfind_spec shash t _ l hd (scb_match sp ra dp) Hb Hhd) as (p & -> & _).
Qed.

Lemma add_run t x n l :
  hbucket shash t (entry_of (sport n)) l -> hheap t !! x = Some n -> unlinked shash x t ->
  add_sock_cb x t = Ok tt (happend (entry_of (sport n)) x n (last_or None l) t).
Proof.
  intros Hb Hn Hx. pose proof Hb as (_ & (hd & Hhd & Hs) & _). unfold add_sock_cb. rewrite Hn, Hhd.
  destruct hd as [hd|].
  - destruct (dfind_tail shash shash_links t _ l hd no_next Hb Hhd) as (p & a & -> & ->); [|done].
    intros m. unfold no_next. simpl. by destruct (snext m).
  - destruct l as [|y l]; [done|]. by destruct Hs.
Qed.

(** A packet for another port does not match. *)
Lemma scb_match_port sp ra dp n : scb_match sp ra dp n = true -> sport n = sp.
Proof. unfold scb_match. intros [H _]%andb_true_iff. by apply Z.eqb_eq. Qed.

(** [add_sock_cb] of an allocated block that is in no list keeps the
    table well formed and makes the block the last candidate of its port:
    [get_sock_cb], which never follows a dangling pointer in a well-formed
    table, gives the block it gave before, or else the new block if it matches
    the addresses. *)
Theorem scb_add_get t x n :
  wf_scbs t -> hheap t !! x = Some n -> unlinked shash x t ->
  exists t', add_sock_cb x t = Ok tt t' /\ wf_scbs t' /\
    forall sp ra dp, exists r, get_sock_cb sp ra dp t = Ok r t /\
      get_sock_cb sp ra dp t' = Ok (match r with
                                    | Some y => Some y
                                    | None => if scb_match sp ra dp n then Some x else None
                                    end) t'.
Proof.
  intros Hwf Hn Hx. destruct (Hwf _ (entry_of_lt (sport n))) as [l Hb].
  eexists. split; [by apply (add_run t x n l)|].
  split; [by apply happend_wf; [apply shash_links|..]|].
  set (t' := happend _ _ _ _ _). intros sp ra dp.
  assert (forall y, y <> x -> option_map (scb_match sp ra dp) (hheap t' !! y) =
                     option_map (scb_match sp ra dp) (hheap t !! y) \/ hheap t !! y = None) as He.
  { intros y Hy. destruct (hheap t !! y) as [m|] eqn:Em; [left|by right]. subst t'.
    rewrite (happend_heap _ _ _ _ _ _ m) by done. simpl. by case_decide. }
  destruct (decide (entry_of sp = entry_of (sport n))) as [Ee|Ee].
  - assert (hbucket shash t' (entry_of (sport n)) (l ++ [x])) as Hb'
      by (apply happend_bucket; [apply shash_links|done..]).
    rewrite <-Ee in Hb, Hb'. rewrite (get_run t sp ra dp l), (get_run t' sp ra dp (l ++ [x])) by done.
    eexists. split; [done|]. f_equal.
    rewrite (first_snoc _ _ _ x (set_prev (last_or None l) (set_next None n)));
      [| |apply lookup_insert_eq].
    + rewrite (first_ext (hheap t)); [done|]. intros y Hy.
      destruct (hbucket_heap _ _ _ _ _ Hb Hy) as [m Hm]. destruct (He y) as [H|H]; [|done|congruence].
      intros ->. by apply (Hx _ _ Hb).
    + intros y Hy. eapply hbucket_heap; [exact Hb'|set_solver].
  - destruct (Hwf _ (entry_of_lt sp)) as [lj Hj].
    assert (hbucket shash t' (entry_of sp) lj) as Hj'
      by (apply happend_other; [apply shash_links|done..]).
    rewrite (get_run t sp ra dp lj), (get_run t' sp ra dp lj) by done.
    eexists. split; [done|]. f_equal.
    rewrite (first_ext (hheap t)).
    + destruct (first _ _ lj); [done|]. destruct (scb_match sp ra dp n) eqn:Em; [|done].
      apply scb_match_port in Em. congruence.
    + intros y Hy. destruct (hbucket_heap _ _ _ _ _ Hj Hy) as [m Hm].
      destruct (He y) as [H|H]; [|done|congruence]. intros ->. by apply (Hx _ _ Hj).
Qed.

Definition wit_scbtab : scbtab := mkhtab ∅ (replicate (Z.to_nat SOCK_CB_LEN) None).

Lemma wit_scbtab_wf h : wf_scbs (mkhtab h (replicate (Z.to_nat SOCK_CB_LEN) None)).
Proof.
  intros i Hi. exists []. split; [constructor|]. split; [|set_solver].
  exists None. split; [|done]. by apply lookup_replicate_2.
Qed.

Definition wit_scb : sock_cb := new_sock_cb None false 167772161 8080 50000 SOCK_TCP.

Lemma scb_add_get_witness :
  exists t', add_sock_cb 1 (mkhtab {[1%positive := wit_scb]} (hheads wit_scbtab)) = Ok tt t' /\
    get_sock_cb 8080 167772161 50000 t' = Ok (Some 1%positive) t' /\
    get_sock_cb 8080 167772161 50001 t' = Ok None t'.
Proof.
  destruct (scb_add_get (mkhtab {[1%positive := wit_scb]} (hheads wit_scbtab)) 1%positive wit_scb)
    as (t' & H1 & _ & H2).
  - apply wit_scbtab_wf.
  - apply lookup_singleton_eq.
  - intros j lj (_ & (hd & Hhd & Hs) & _). apply lookup_replicate in Hhd as [-> _].
    destruct lj as [|y lj]; [set_solver|]. by destruct Hs.
  - exists t'. split; [exact H1|]. split.
    + destruct (H2 8080 167772161 50000) as (r & Hr & E). vm_compute in Hr. injection Hr as <-. exact E.
    + destruct (H2 8080 167772161 50001) as (r & Hr & E). vm_compute in Hr. injection Hr as <-. exact E.
Defined.

(** freeing a linked block that has a remote port unlinks it: the table
    stays well formed, [get_sock_cb] no longer gives it, and every lookup that
    gave another block still gives that one. *)
Theorem scb_free_unlinks t x n i l1 l2 :
  wf_scbs t -> hbucket shash t i (l1 ++ x :: l2) -> hheap t !! x = Some n -> dport n <> 0 ->
  exists t', unlink_sock_cb x t = Ok tt t' /\ wf_scbs t' /\
    forall sp ra dp, exists r r', get_sock_cb sp ra dp t = Ok r t /\
      get_sock_cb sp ra dp t' = Ok r' t' /\ r' <> Some x /\ (r <> Some x -> r' = r).
Proof.
  intros Hwf Hb Hn Hd. assert (shash n = i) as Hi by (apply Hb with x; [set_solver|done]).
  exists (hremove i x n t). split; [|split].
  - unfold unlink_sock_cb. rewrite Hn. destruct (Z.eqb_spec (dport n) 0); [done|]. simpl.
    unfold hremove. simpl. rewrite <-Hi. unfold shash. by destruct (sprev n).
  - by eapply hremove_wf; [apply shash_links|..].
  - intros sp ra dp. set (q := scb_match sp ra dp).
    assert (forall l, x ∉ l -> first (hheap (hremove i x n t)) q l = first (hheap t) q l) as He.
    { intros l Hx. apply first_ext. intros y Hy. apply hremove_test; [apply scb_match_links|congruence]. }
    assert (NoDup (l1 ++ x :: l2)) as Hnd by apply Hb.
    apply NoDup_app in Hnd as (_ & Hdis & [Hx2 _]%NoDup_cons).
    assert (x ∉ l1 ++ l2) as Hx by set_solver.
    destruct (decide (entry_of sp = i)) as [Ei|Ei].
    + rewrite (get_run t sp ra dp (l1 ++ x :: l2)) by by rewrite Ei.
      rewrite (get_run _ sp ra dp (l1 ++ l2)) by
        (rewrite Ei; apply hremove_bucket; [apply shash_links|done..]).
      fold q. rewrite He by done. eexists _, _. split; [done|]. split; [done|]. split.
      * intros Hf%first_in. naive_solver.
      * intros Hf. apply first_remove; [|done]. intros y Hy. by eapply hbucket_heap.
    + destruct (Hwf _ (entry_of_lt sp)) as [lj Hj].
      assert (x ∉ lj) as Hxj.
      { intros Hin. apply Ei. eapply (buckets_disjoint shash t); [exact Hj|exact Hb|exact Hin|set_solver]. }
      rewrite (get_run t sp ra dp lj) by done.
      rewrite (get_run _ sp ra dp lj) by (eapply hremove_other; [apply shash_links|done..]).
      fold q. rewrite He by done. eexists _, _. split; [done|]. split; [done|]. split; [|done].
      intros Hf%first_in. naive_solver.
Qed.

(** The table with [wit_scb] linked as block 1. *)
Definition wit_linked : scbtab :=
  mkhtab {[1%positive := wit_scb]} (<[entry_of 8080 := Some 1%positive]> (hheads wit_scbtab)).

Lemma wit_linked_bucket : hbucket shash wit_linked (entry_of 8080) [1%positive].
Proof.
  split; [apply NoDup_singleton|]. split.
  - exists (Some 1%positive). split; [reflexivity|]. simpl. split; [done|].
    exists wit_scb. by rewrite lookup_singleton_eq.
  - intros x n ->%list_elem_of_singleton. simpl. rewrite lookup_singleton_eq. by intros [= <-].
Qed.

Lemma wit_linked_wf : wf_scbs wit_linked.
Proof.
  intros i Hi. destruct (decide (i = entry_of 8080)) as [->|Hne]; [exists [1%positive]; apply wit_linked_bucket|].
  exists []. split; [constructor|]. split; [|set_solver]. exists None. split; [|done].
  unfold wit_linked. cbn [hheads]. rewrite list_lookup_insert_ne by done. by apply lookup_replicate_2.
Qed.

Lemma scb_free_unlinks_witness :
  exists t', unlink_sock_cb 1 wit_linked = Ok tt t' /\
    get_sock_cb 8080 167772161 50000 t' = Ok None t'.
Proof.
  destruct (scb_free_unlinks wit_linked 1%positive wit_scb (entry_of 8080) [] [])
    as (t' & H1 & _ & H2);
    [apply wit_linked_wf|apply wit_linked_bucket|apply lookup_singleton_eq|done|].
  exists t'. split; [exact H1|].
  vm_compute in H1. injection H1 as <-. reflexivity.
Defined.

(** [free_sock_cb] frees a block without unlinking it when its
    remote port is still 0, as for a block that waits in [accept]: the list of
    its port then leads to freed memory, which the next lookup of the port
    reads. *)
Theorem scb_free_dangles :
  let n := new_sock_cb None false 0 8080 0 SOCK_TCP in
  exists t1 t2, add_sock_cb 1 (mkhtab {[1%positive := n]} (hheads wit_scbtab)) = Ok tt t1 /\
    unlink_sock_cb 1 t1 = Ok tt t2 /\ hheap t2 !! 1%positive = None /\
    get_sock_cb 8080 167772161 50000 t2 = Undef.
Proof. do 2 eexists. repeat split; vm_compute; reflexivity. Qed.

(** ** Ports *)

Definition port_used (s : ports) (p : Z) : bool :=
  match sport_table s !! Z.to_nat (p / 8) with
  | Some b => Z.testbit b (p mod 8)
  | None => false
  end.

Definition wf_ports (s : ports) : Prop :=
  Z.of_nat (length (sport_table s)) = SPORT_ELEM /\ Forall is_byte (sport_table s).

Lemma land_bit b i : 0 <= i -> (Z.land b (Z.shiftl 1 i) =? 0) = negb (Z.testbit b i).
Proof.
  intros Hi. rewrite Z.shiftl_1_l. destruct (Z.testbit b i) eqn:E; simpl.
  - apply Z.eqb_neq. intros H0. apply (f_equal (fun z => Z.testbit z i)) in H0.
    rewrite Z.land_spec, E, Z.pow2_bits_true, Z.bits_0 in H0 by done. done.
  - apply Z.eqb_eq. apply Z.bits_inj'. intros k Hk. rewrite Z.land_spec, Z.bits_0.
    destruct (decide (k = i)) as [->|]; [by rewrite E|].
    rewrite Z.pow2_bits_false by congruence. apply andb_false_r.
Qed.

Lemma clear_bit_spec k i b :
  0 <= i ->
  match clear_bit k i b with
  | Some j => i <= j < i + Z.of_nat k /\ Z.testbit b j = false
  | None => forall j, i <= j < i + Z.of_nat k -> Z.testbit b j = true
  end.
Proof.
  revert i. induction k as [|k IH]; intros i Hi; cbn [clear_bit]; [lia|].
  rewrite land_bit by done. destruct (Z.testbit b i) eqn:E; simpl.
  - specialize (IH (i + 1) ltac:(lia)). destruct (clear_bit k (i + 1) b).
    + split; [lia|apply IH].
    + intros j Hj. destruct (decide (j = i)) as [->|]; [done|]. apply IH. lia.
  - split; [lia|done].
Qed.

Lemma byte_full b : is_byte b -> (forall j, 0 <= j < 8 -> Z.testbit b j = true) -> b = 255.
Proof.
  intros Hb Hj. apply Z.bits_inj'. intros k Hk. destruct (Z.ltb_spec k 8).
  - rewrite Hj by lia. assert (k = 0 \/ k = 1 \/ k = 2 \/ k = 3 \/ k = 4 \/ k = 5 \/ k = 6 \/ k = 7) as Hc by lia.
    destruct Hc as [->|[->|[->|[->|[->|[->|[->| ->]]]]]]]; reflexivity.
  - rewrite <-(Z.mod_small b (2 ^ 8)) by (unfold is_byte in Hb; lia).
    rewrite Z.mod_pow2_bits_high by lia. symmetry.
    change 255 with (Z.ones 8). apply Z.ones_spec_high. lia.
Qed.

Lemma lor_bit_byte b i : is_byte b -> 0 <= i < 8 -> u8 (Z.lor b (Z.shiftl 1 i)) = Z.lor b (Z.shiftl 1 i).
Proof.
  intros Hb Hi. unfold u8, wrap. apply Z.bits_inj'. intros k Hk. destruct (Z.ltb_spec k 8).
  - by rewrite Z.mod_pow2_bits_low.
  - rewrite Z.mod_pow2_bits_high by lia. symmetry. rewrite Z.lor_spec, Z.shiftl_1_l.
    rewrite Z.pow2_bits_false by lia. rewrite <-(Z.mod_small b (2 ^ 8)) by (unfold is_byte in Hb; lia).
    by rewrite Z.mod_pow2_bits_high by lia.
Qed.

(** The table with the bit of port [p] set. *)
Definition mark_port (p : Z) (s : ports) : ports :=
  match sport_table s !! Z.to_nat (p / 8) with
  | Some b => mkports (<[Z.to_nat (p / 8) := Z.lor b (Z.shiftl 1 (p mod 8))]> (sport_table s)) (current_sport s)
  | None => s
  end.

Lemma mark_port_used s p p' :
  0 <= p -> 0 <= p' -> (Z.to_nat (p / 8) < length (sport_table s))%nat ->
  port_used (mark_port p s) p' = (p' =? p) || port_used s p'.
Proof.
  intros H0 H0' Hl. destruct (lookup_lt_is_Some_2 _ _ Hl) as [b Hb].
  unfold mark_port, port_used. rewrite Hb. simpl.
  pose proof (Z.div_mod p 8 ltac:(lia)). pose proof (Z.div_mod p' 8 ltac:(lia)).
  pose proof (Z.mod_pos_bound p 8 ltac:(lia)). pose proof (Z.mod_pos_bound p' 8 ltac:(lia)).
  destruct (decide (p' / 8 = p / 8)) as [E|E].
  - rewrite E, list_lookup_insert_eq by done. rewrite Hb, Z.lor_spec, Z.shiftl_1_l.
    destruct (Z.eqb_spec p' p) as [->|Hne].
    + rewrite Z.pow2_bits_true by lia. by rewrite orb_true_r.
    + rewrite Z.pow2_bits_false by lia. by rewrite orb_false_r.
  - rewrite list_lookup_insert_ne; [|assert (0 <= p / 8) by (by apply Z.div_pos); assert (0 <= p' / 8) by (by apply Z.div_pos); lia].
    destruct (Z.eqb_spec p' p) as [->|]; done.
Qed.

(** One group of eight ports in the loop of [get_new_sport]. *)
Lemma new_sport_step fuel lp s b :
  lp < 2 -> 0 <= current_sport s -> current_sport s mod 8 = 0 -> current_sport s + 8 <= 65536 ->
  sport_table s !! Z.to_nat (current_sport s / 8) = Some b -> is_byte b ->
  (exists i, 0 <= i < 8 /\ port_used s (current_sport s + i) = false /\
     new_sport_loop (S fuel) lp s = Ok (current_sport s + i) (mark_port (current_sport s + i) s)) \/
  (b = 255 /\ new_sport_loop (S fuel) lp s =
     if SPORT_NUM <=? current_sport s + 8
     then new_sport_loop fuel (lp + 1) (mkports (sport_table s) START_OF_SPORT)
     else new_sport_loop fuel lp (mkports (sport_table s) (current_sport s + 8))).
Proof.
  intros Hlp H0 Hm Hle Hb Hby. set (cur := current_sport s) in *.
  pose proof (clear_bit_spec 8 0 b ltac:(lia)) as Hc.
  assert (Z.land b 255 = b) as Hland.
  { change 255 with (Z.ones 8). rewrite Z.land_ones by lia. apply Z.mod_small. done. }
  cbn [new_sport_loop]. destruct (Z.ltb_spec lp 2); [|lia].
  revert Hc. generalize (clear_bit 8 0). intros cb Hc. mstep. unfold port_byte. fold cur.
  rewrite Hb, Hland. destruct (Z.ltb_spec b 255) as [Hlt|Hge].
  - destruct (cb b) as [i|].
    + left. destruct Hc as [Hi Ht]. exists i. split; [lia|].
      assert ((cur + i) / 8 = cur / 8 /\ (cur + i) mod 8 = i) as [Ed Em].
      { pose proof (Z.div_mod cur 8 ltac:(lia)). split.
        - symmetry. apply (Z.div_unique _ _ _ i); lia.
        - symmetry. apply (Z.mod_unique _ _ (cur / 8)); lia. }
      split; [unfold port_used; by rewrite Ed, Em, Hb|].
      unfold set_port_byte, mark_port. rewrite Ed, Em, Hb.
      rewrite lor_bit_byte by done.
      rewrite u16_small by lia. done.
    + exfalso. assert (b = 255); [|lia]. apply byte_full; [done|]. intros j Hj. apply Hc. lia.
  - right. split; [unfold is_byte in Hby; lia|].
    destruct (Z.leb_spec SPORT_NUM (cur + 8)); [done|]. rewrite u16_small; [done|].
    unfold SPORT_NUM in *. lia.
Qed.

Lemma full_group s p :
  0 <= p -> sport_table s !! Z.to_nat (p / 8) = Some 255 -> port_used s p = true.
Proof.
  intros Hp Hb. unfold port_used. rewrite Hb. pose proof (Z.mod_pos_bound p 8 ltac:(lia)).
  change 255 with (Z.ones 8). apply Z.ones_spec_low. lia.
Qed.

Lemma new_sport_run (k fuel : nat) s :
  current_sport s = 65528 - 8 * Z.of_nat k -> 0 <= current_sport s -> wf_ports s -> (k < fuel)%nat ->
  (exists p c, current_sport s <= p < 65528 /\ port_used s p = false /\
     new_sport_loop fuel 0 s = Ok p (mark_port p (mkports (sport_table s) c))) \/
  ((forall p, current_sport s <= p < 65528 -> port_used s p = true) /\ new_sport_loop fuel 0 s = Undef).
Proof.
  revert fuel s. induction k as [|k IH]; intros fuel s Hc H0 [Hl Hb] Hf;
    (destruct fuel as [|fuel]; [lia|]).
  - right. split; [lia|]. cbn [new_sport_loop Z.ltb]. change (0 <? 2) with true. cbn match.
    unfold bind at 1, get. unfold bind, port_byte. rewrite Hc.
    replace (sport_table s !! Z.to_nat ((65528 - 8 * Z.of_nat 0) / 8)) with (@None Z); [done|].
    symmetry. apply lookup_ge_None. change (65528 - 8 * Z.of_nat 0) with 65528.
    change (65528 / 8) with 8191. unfold SPORT_ELEM, SPORT_NUM in Hl.
    change (65535 / 8) with 8191 in Hl. lia.
  - unfold SPORT_ELEM, SPORT_NUM in Hl. change (65535 / 8) with 8191 in Hl.
    assert (current_sport s mod 8 = 0) as Hm.
    { symmetry. apply (Z.mod_unique _ _ (8191 - Z.of_nat (S k))); lia. }
    assert (current_sport s / 8 = 8191 - Z.of_nat (S k)) as Hd.
    { symmetry. apply (Z.div_unique _ _ _ 0); lia. }
    destruct (lookup_lt_is_Some_2 (sport_table s) (Z.to_nat (current_sport s / 8))) as [b Hlk]; [lia|].
    assert (is_byte b) as Hby by (rewrite Forall_lookup in Hb; by eapply Hb).
    destruct (new_sport_step fuel 0 s b) as [(i & Hi & Hu & E)|[-> E]]; try done; try lia.
    + left. exists (current_sport s + i), (current_sport s). split; [lia|]. split; [done|].
      rewrite E. by destruct s.
    + unfold SPORT_NUM in E. destruct (Z.leb_spec 65535 (current_sport s + 8)); [lia|].
      destruct (IH fuel (mkports (sport_table s) (current_sport s + 8)))
        as [(p & c & Hp & Hu & E')|[Hall E']]; simpl in *; try done; try lia.
      * left. exists p, c. split; [lia|]. split; [done|]. by rewrite E.
      * right. split; [|by rewrite E]. intros p Hp.
        destruct (decide (p < current_sport s + 8)) as [Hlt|Hge]; [|apply Hall; lia].
        apply full_group; [lia|]. replace (p / 8) with (current_sport s / 8); [done|].
        rewrite Hd. apply (Z.div_unique _ _ _ (p - current_sport s)); lia.
Qed.

(** [get_new_sport] gives a port at or above the current group that
    was not in use and marks exactly that port as used.  When every port from
    the current group up to 65527 is in use it does not wrap around to the
    ports that were released below: it reads the table one byte past its end
    (the table has 65535/8 = 8191 bytes, ports 65528 and up have none). *)
Theorem get_new_sport_spec (k : nat) s :
  wf_ports s -> current_sport s = START_OF_SPORT + 8 * Z.of_nat k -> current_sport s <= 65528 ->
  (exists p s', get_new_sport s = Ok p s' /\ current_sport s <= p < 65528 /\
     port_used s p = false /\ forall p', 0 <= p' -> port_used s' p' = (p' =? p) || port_used s p') \/
  ((forall p, current_sport s <= p < 65528 -> port_used s p = true) /\ get_new_sport s = Undef).
Proof.
  intros Hwf Hc Hle. unfold START_OF_SPORT in Hc.
  destruct (new_sport_run (Z.to_nat (5691 - Z.of_nat k)) sport_fuel s) as [(p & c & Hp & Hu & E)|H];
    [lia|lia|done|unfold sport_fuel; lia| |by right].
  left. exists p, (mark_port p (mkports (sport_table s) c)). split; [done|]. split; [done|]. split; [done|].
  intros p' Hp'. rewrite mark_port_used; simpl; [done|lia|done|].
  destruct Hwf as [Hl _]. unfold SPORT_ELEM, SPORT_NUM in Hl. change (65535 / 8) with 8191 in Hl.
  assert (p / 8 < 8191) by (apply Z.div_lt_upper_bound; lia). lia.
Qed.

Definition wit_ports : ports := mkports (replicate (Z.to_nat SPORT_ELEM) 0) 20000.

Lemma wit_ports_wf : wf_ports wit_ports.
Proof.
  split.
  - unfold wit_ports. cbn [sport_table]. rewrite length_replicate. by rewrite Z2Nat.id.
  - apply Forall_replicate. unfold is_byte. lia.
Qed.

Lemma get_new_sport_spec_witness :
  exists p s', get_new_sport wit_ports = Ok p s' /\ port_used wit_ports p = false.
Proof.
  destruct (get_new_sport_spec 0 wit_ports) as [(p & s' & H1 & _ & H2 & _)|[H _]];
    [apply wit_ports_wf|reflexivity|simpl; lia|by exists p, s'|].
  exfalso. specialize (H 20000 ltac:(simpl; lia)). vm_compute in H. discriminate.
Defined.

(** [get_specified_sport]: 65535 stands for -1. *)
Lemma get_specified_sport_spec s p :
  wf_ports s -> 0 <= p < 65528 ->
  (port_used s p = false /\ get_specified_sport p s = Ok p (mark_port p s)) \/
  (port_used s p = true /\ get_specified_sport p s = Ok 65535 s).
Proof.
  intros [Hl Hb] Hp. unfold SPORT_ELEM, SPORT_NUM in Hl. change (65535 / 8) with 8191 in Hl.
  assert (0 <= p / 8 < 8191) by (split; [apply Z.div_pos; lia|apply Z.div_lt_upper_bound; lia]).
  pose proof (Z.mod_pos_bound p 8 ltac:(lia)).
  destruct (lookup_lt_is_Some_2 (sport_table s) (Z.to_nat (p / 8))) as [b Hlk]; [lia|].
  assert (is_byte b) as Hby by (rewrite Forall_lookup in Hb; by eapply Hb).
  unfold get_specified_sport, port_used, mark_port.
  unfold bind, port_byte. rewrite Hlk, land_bit by lia.
  destruct (Z.testbit b (p mod 8)); [by right|left].
  split; [done|]. cbn [negb]. unfold set_port_byte. rewrite Hlk, lor_bit_byte by done. done.
Qed.
