(* ===== verification/Ipv4.v ===== *)
(** IP and UDP (kernel/net/ipv4.c, kernel/net/udp.c and their headers).

    A protocol header is a record; [*_bytes] is its layout in memory (the
    machine is little-endian, [packed] or naturally aligned) and [*_parse]
    reads it back.  Sending builds the header in front of the packet;
    receiving validates it and says what becomes of the packet. *)

From S2P Require Import Prelude NetUtil Mbuf.

(** ** Layout of 8, 16 and 32-bit fields *)

Lemma le_dec1 x : le_dec [x] = x.
Proof. cbn [le_dec]. lia. Qed.

Lemma le_dec2 x : 0 <= x < 2 ^ 16 -> le_dec [x mod 256; (x / 256) mod 256] = x.
Proof.
  intros Hx. pose proof (le_dec_enc 2 x) as H. cbn [le_enc] in H. rewrite H.
  apply Z.mod_small. done.
Qed.

Lemma le_dec4 x : 0 <= x < 2 ^ 32 ->
  le_dec [x mod 256; (x / 256) mod 256; (x / 256 / 256) mod 256; (x / 256 / 256 / 256) mod 256] = x.
Proof.
  intros Hx. pose proof (le_dec_enc 4 x) as H. cbn [le_enc] in H. rewrite H.
  apply Z.mod_small. done.
Qed.

Lemma bswaps_range v : 0 <= bswaps v < 2 ^ 16.
Proof. apply u16_range. Qed.
Lemma bswapl_range v : 0 <= bswapl v < 2 ^ 32.
Proof. apply u32_range. Qed.

(** A 16-bit value stored in network order is its high byte, then its low. *)
Lemma htons_bytes v : 0 <= v < 2 ^ 16 -> le_enc 2 (htons v) = [v / 256; v mod 256].
Proof.
  intros Hv. destruct byteorder_ok as [_ H]. destruct (H v Hv) as [_ ->]. cbn [le_enc rev app].
  rewrite (Z.mod_small (v / 256)); [done|]. split; [apply Z.div_pos; lia|apply Z.div_lt_upper_bound; lia].
Qed.

(** ** The IP header *)

Record ipv4 := mkip {
  ip_vhl : Z; ip_tos : Z; ip_len : Z; ip_id : Z; ip_off : Z; ip_ttl : Z; ip_p : Z;
  ip_sum : Z; ip_src : Z; ip_dst : Z }.

Definition IP_HDR : Z := 20.
Definition IPPROTO_TCP : Z := 6.
Definition IPPROTO_UDP : Z := 17.
Definition IP_GET_OFF (off : Z) : Z := Z.land off 8191.

Definition ipv4_bytes (h : ipv4) : bytes :=
  [ip_vhl h; ip_tos h] ++ le_enc 2 (ip_len h) ++ le_enc 2 (ip_id h) ++ le_enc 2 (ip_off h) ++
  [ip_ttl h; ip_p h] ++ le_enc 2 (ip_sum h) ++ le_enc 4 (ip_src h) ++ le_enc 4 (ip_dst h).

Definition ipv4_parse (b : bytes) : ipv4 :=
  mkip (get_le 1 0 b) (get_le 1 1 b) (get_le 2 2 b) (get_le 2 4 b) (get_le 2 6 b)
    (get_le 1 8 b) (get_le 1 9 b) (get_le 2 10 b) (get_le 4 12 b) (get_le 4 16 b).

Definition ipv4_range (h : ipv4) : Prop :=
  0 <= ip_len h < 2 ^ 16 /\ 0 <= ip_id h < 2 ^ 16 /\ 0 <= ip_off h < 2 ^ 16 /\
  0 <= ip_sum h < 2 ^ 16 /\ 0 <= ip_src h < 2 ^ 32 /\ 0 <= ip_dst h < 2 ^ 32.

Lemma ipv4_parse_bytes h : ipv4_range h -> ipv4_parse (ipv4_bytes h) = h.
Proof.
  destruct h as [a b c d e g p s sr ds]. unfold ipv4_range. simpl. intros (Hl & Hi & Ho & Hs & H1 & H2).
  unfold ipv4_parse, ipv4_bytes, get_le, sub_bytes. cbn [ip_vhl ip_tos ip_len ip_id ip_off ip_ttl ip_p
    ip_sum ip_src ip_dst le_enc app drop take].
  rewrite !le_dec1, !le_dec2, !le_dec4 by done. done.
Qed.

Lemma length_ipv4_bytes h : length (ipv4_bytes h) = 20%nat.
Proof. reflexivity. Qed.

(** The IP header of a packet of [total] bytes, before and with its checksum. *)
Definition ip_header (local_ip proto dip total sum : Z) : ipv4 :=
  mkip 69 0 (htons (u16 total)) 0 0 100 proto sum (htonl local_ip) (htonl dip).

(** [ip_send] up to the call of [eth_send]; [None] is the panic of
    [mbufpush]. *)
Definition set_raddr (a : Z) (m : mbuf) : mbuf :=
  mkmbuf a (next m) (head m) (len m) (mdata m) (params m) (tcphdr m).

Definition ip_send_hdr (local_ip : Z) (m : mbuf) (proto dip : Z) : option mbuf :=
  match mbufpush (set_raddr dip m) IP_HDR with
  | None => None
  | Some (p, m1) =>
      let h0 := ip_header local_ip proto dip (len m1) 0 in
      let ck := htons (cksum16 (ipv4_bytes h0) 0) in
      Some (mwrite p (ipv4_bytes (ip_header local_ip proto dip (len m1) ck)) m1)
  end.

(** What [ip_recv] does with a packet: drop it, or hand it to a protocol with
    its header and the length of the payload. *)
Inductive ip_action :=
| IpDrop
| IpUdp (m : mbuf) (plen : Z) (h : ipv4)
| IpTcp (m : mbuf) (plen : Z) (h : ipv4).

Definition ip_recv (local_ip : Z) (m : mbuf) : ip_action :=
  match mbufpull m IP_HDR with
  | (None, _) => IpDrop
  | (Some p, m1) =>
      let raw := sub_bytes (Z.to_nat p) 20 (mdata m1) in
      let h := ipv4_parse raw in
      if negb (ip_vhl h =? 69) then IpDrop
      else if negb (cksum16 raw 0 =? 0) then IpDrop
      else if negb (IP_GET_OFF (htons (ip_off h)) =? 0) then IpDrop
      else if negb (htonl (ip_dst h) =? local_ip) then IpDrop
      else
        let plen := u16 (ntohs (ip_len h) - IP_HDR) in
        if ip_p h =? IPPROTO_UDP then IpUdp m1 plen h
        else if ip_p h =? IPPROTO_TCP then IpTcp m1 plen h
        else IpDrop
  end.

(** The bytes of a header that [ip_send] built sum to zero. *)
Lemma ip_header_cksum local_ip proto dip total :
  is_byte proto -> 0 <= total < 2 ^ 16 -> 0 <= local_ip < 2 ^ 32 -> 0 <= dip < 2 ^ 32 ->
  let ck := cksum16 (ipv4_bytes (ip_header local_ip proto dip total 0)) 0 in
  cksum16 (ipv4_bytes (ip_header local_ip proto dip total (htons ck))) 0 = 0.
Proof.
  intros Hp Ht Hl Hd ck.
  set (pre := [69; 0] ++ le_enc 2 (htons (u16 total)) ++ [0; 0; 0; 0; 100; proto]).
  set (post := le_enc 4 (htonl local_ip) ++ le_enc 4 (htonl dip)).
  assert (forall s, ipv4_bytes (ip_header local_ip proto dip total s) = pre ++ le_enc 2 s ++ post) as E
    by done.
  assert (Forall is_byte pre /\ Forall is_byte post) as [Hpre Hpost].
  { split; repeat apply Forall_app_2; try apply le_enc_byte; all_bytes. }
  assert (0 <= ck < 2 ^ 16) as Hck by apply u16_range.
  rewrite E, htons_bytes by done. unfold ck. rewrite E.
  apply (cksum16_zero pre post 0); [done|done|by exists 5%nat|simpl; lia|lia].
Qed.

Lemma htonl_htonl v : 0 <= v < 2 ^ 32 -> htonl (htonl v) = v.
Proof. intros Hv. destruct byteorder_ok as [H _]. by destruct (H v Hv). Qed.
Lemma htons_htons v : 0 <= v < 2 ^ 16 -> htons (htons v) = v.
Proof. intros Hv. destruct byteorder_ok as [_ H]. by destruct (H v Hv). Qed.

Lemma ip_send_recv_ok local_ip m proto dip :
  mbuf_ok m -> IP_HDR <= head m -> len m + IP_HDR < 2 ^ 16 ->
  0 <= local_ip < 2 ^ 32 -> 0 <= dip < 2 ^ 32 -> proto = IPPROTO_UDP \/ proto = IPPROTO_TCP ->
  exists m1 m2 h, ip_send_hdr local_ip m proto dip = Some m1 /\ mbuf_ok m1 /\
    ip_recv dip m1 = (if proto =? IPPROTO_UDP then IpUdp m2 (len m) h else IpTcp m2 (len m) h) /\
    payload m2 = payload m /\ mbuf_ok m2 /\ len m2 = len m /\ ntohl (ip_src h) = local_ip /\
    head m2 = head m /\ ip_src h = htonl local_ip /\ ip_dst h = htonl dip /\ ip_p h = proto.
Proof.
  intros Hok Hh Hlen Hl Hd Hp. unfold IP_HDR in *.
  assert (is_byte proto) as Hpb by (unfold is_byte, IPPROTO_UDP, IPPROTO_TCP in *; lia).
  unfold ip_send_hdr. set (mr := set_raddr dip m).
  set (ck := htons (cksum16 (ipv4_bytes (ip_header local_ip proto dip (len m + 20) 0)) 0)).
  set (hb := ipv4_bytes (ip_header local_ip proto dip (len m + 20) ck)).
  destruct (mbuf_push_pull mr hb) as (m1 & Epush & Hok1 & _ & Hpay & m3 & Epull & Hhd & Hl3 & Hpay3 & Hok3);
    [done|unfold hb; rewrite length_ipv4_bytes; simpl; lia|].
  change (Z.of_nat (length hb)) with 20 in *. change (set_raddr dip m) with mr. unfold IP_HDR. rewrite Epush.
  destruct Hok as (O1 & O2 & O3 & O4). unfold MBUF_SIZE in *.
  assert (len m1 = len m + 20) as El.
  { unfold mbufpush in Epush. destruct (Z.ltb_spec (head mr - 20) 0); [done|].
    injection Epush as <-. simpl. apply u32_small. lia. }
  cbv zeta. rewrite El. fold ck. fold hb.
  exists (mwrite (head mr - 20) hb m1), m3, (ip_header local_ip proto dip (len m + 20) ck).
  split; [done|]. split; [done|]. split; [|split; [exact Hpay3|split; [exact Hok3|split; [exact Hl3|]]]].
  2: { split; [simpl; by apply htonl_htonl|]. split; [exact Hhd|done]. }
  unfold ip_recv. unfold IP_HDR. rewrite Epull.
  assert (sub_bytes (Z.to_nat (head mr - 20)) 20 (mdata m3) = hb) as Eraw.
  { assert (mdata m3 = mdata (mwrite (head mr - 20) hb m1)) as ->.
    { unfold mbufpull in Epull. destruct (_ <? _); [done|]. by injection Epull as _ <-. }
    simpl. change 20%nat with (length hb). apply sub_upd_same.
    assert (mdata m1 = mdata m) as ->.
    { unfold mbufpush in Epush. destruct (_ <? _); [done|]. by injection Epush as <-. }
    change (length hb) with 20%nat. simpl. lia. }
  assert (ipv4_parse hb = ip_header local_ip proto dip (len m + 20) ck) as Eparse.
  { apply ipv4_parse_bytes. unfold ipv4_range. simpl.
    split; [apply bswaps_range|]. split; [lia|]. split; [lia|]. split; [apply bswaps_range|].
    split; apply bswapl_range. }
  assert (cksum16 hb 0 = 0) as Eck by (apply (ip_header_cksum local_ip proto dip (len m + 20)); [done|lia|done|done]).
  rewrite Eraw. cbv zeta. rewrite Eparse, Eck. cbn [ip_header ip_vhl ip_off ip_dst ip_len ip_p].
  change (69 =? 69) with true. change (0 =? 0) with true.
  change (IP_GET_OFF (htons 0) =? 0) with true. rewrite htonl_htonl by done. rewrite Z.eqb_refl.
  cbn [negb]. rewrite (u16_small (len m + 20)) by lia.
  change (ntohs (htons (len m + 20))) with (htons (htons (len m + 20))).
  rewrite htons_htons by lia. rewrite (u16_small (len m + 20 - 20)) by lia.
  replace (len m + 20 - 20) with (len m) by lia.
  destruct Hp as [-> | ->]; done.
Qed.

(** what [ip_send] sends, the machine it is addressed to accepts: for a
    packet that fits into an IP datagram, the header that [ip_send] puts in
    front of it passes every check of [ip_recv] (version, checksum, fragment
    offset, destination) and the payload is delivered to its protocol
    unchanged and with its length. *)
Theorem ip_send_recv local_ip m proto dip :
  mbuf_ok m -> IP_HDR <= head m -> len m + IP_HDR < 2 ^ 16 ->
  0 <= local_ip < 2 ^ 32 -> 0 <= dip < 2 ^ 32 -> proto = IPPROTO_UDP \/ proto = IPPROTO_TCP ->
  exists m1 m2 h, ip_send_hdr local_ip m proto dip = Some m1 /\ mbuf_ok m1 /\
    ip_recv dip m1 = (if proto =? IPPROTO_UDP then IpUdp m2 (len m) h else IpTcp m2 (len m) h) /\
    payload m2 = payload m /\ mbuf_ok m2 /\ len m2 = len m /\ ntohl (ip_src h) = local_ip.
Proof.
  intros H1 H2 H3 H4 H5 H6.
  destruct (ip_send_recv_ok local_ip m proto dip H1 H2 H3 H4 H5 H6)
    as (m1 & m2 & h & ? & ? & ? & ? & ? & ? & ? & _). by exists m1, m2, h.
Qed.

Definition wit_packet : mbuf := mkmbuf 0 None 128 4 (replicate (Z.to_nat MBUF_SIZE) 9) zero_params None.

Lemma wit_packet_ok : mbuf_ok wit_packet.
Proof.
  unfold mbuf_ok, wit_packet, MBUF_SIZE. cbn [head len mdata].
  rewrite length_replicate, Z2Nat.id by done. lia.
Qed.

Lemma ip_send_recv_witness :
  exists m1 m2 h, ip_send_hdr 3232244482 wit_packet IPPROTO_UDP 3232244483 = Some m1 /\
    ip_recv 3232244483 m1 = IpUdp m2 4 h /\ payload m2 = [9; 9; 9; 9].
Proof.
  destruct (ip_send_recv 3232244482 wit_packet IPPROTO_UDP 3232244483)
    as (m1 & m2 & h & H1 & _ & H2 & H3 & _);
    [apply wit_packet_ok|unfold IP_HDR; simpl; lia|unfold IP_HDR; simpl; lia|lia|lia|by left|].
  exists m1, m2, h. split; [exact H1|]. split; [exact H2|]. rewrite H3. reflexivity.
Defined.

(** ** UDP *)

Record udp := mkudp { uh_sport : Z; uh_dport : Z; uh_ulen : Z; uh_sum : Z }.

Definition UDP_HDR : Z := 8.

Definition udp_bytes (h : udp) : bytes :=
  le_enc 2 (uh_sport h) ++ le_enc 2 (uh_dport h) ++ le_enc 2 (uh_ulen h) ++ le_enc 2 (uh_sum h).
Definition udp_parse (b : bytes) : udp :=
  mkudp (get_le 2 0 b) (get_le 2 2 b) (get_le 2 4 b) (get_le 2 6 b).

Lemma udp_parse_bytes h :
  0 <= uh_sport h < 2 ^ 16 -> 0 <= uh_dport h < 2 ^ 16 -> 0 <= uh_ulen h < 2 ^ 16 ->
  0 <= uh_sum h < 2 ^ 16 -> udp_parse (udp_bytes h) = h.
Proof.
  destruct h. simpl. intros. unfold udp_parse, udp_bytes, get_le, sub_bytes.
  cbn [uh_sport uh_dport uh_ulen uh_sum le_enc app drop take].
  rewrite !le_dec2 by done. done.
Qed.

(** [udp_send]: the packet that goes to the Ethernet layer. *)
Definition udp_send (local_ip : Z) (m : mbuf) (dip sp dp : Z) : option mbuf :=
  match mbufpush m UDP_HDR with
  | None => None
  | Some (p, m1) =>
      let h := mkudp (htons sp) (htons dp) (htons (u16 (len m1))) 0 in
      ip_send_hdr local_ip (mwrite p (udp_bytes h) m1) IPPROTO_UDP dip
  end.

(** [udp_recv] up to the lookup of the control block: the packet, trimmed to
    the length its header gives, with the key of the block: local port,
    remote address, remote port. *)
Definition udp_recv (m : mbuf) (plen : Z) (ih : ipv4) : option (mbuf * Z * Z * Z) :=
  match mbufpull m UDP_HDR with
  | (None, _) => None
  | (Some p, m1) =>
      let h := udp_parse (sub_bytes (Z.to_nat p) 8 (mdata m1)) in
      if negb (ntohs (uh_ulen h) =? plen) then None
      else
        let plen' := u16 (plen - UDP_HDR) in
        if len m1 <? plen' then None
        else
          let '(_, m2) := mbuftrim m1 (len m1 - plen') in
          Some (m2, ntohs (uh_dport h), ntohl (ip_src ih), ntohs (uh_sport h))
  end.

(** Pulling the header that a send wrote, and what it parses to. *)
Lemma push_write_pull m hb n :
  mbuf_ok m -> Z.of_nat (length hb) = n -> n <= head m ->
  exists m1, mbufpush m n = Some (head m - n, m1) /\ len m1 = len m + n /\
    mbuf_ok (mwrite (head m - n) hb m1) /\ head (mwrite (head m - n) hb m1) = head m - n /\
    forall mx, len mx = len m + n -> head mx = head m - n -> mbuf_ok mx ->
      payload mx = payload (mwrite (head m - n) hb m1) ->
      exists m3, mbufpull mx n = (Some (head m - n), m3) /\ mbuf_ok m3 /\ len m3 = len m /\
        payload m3 = payload m /\ sub_bytes (Z.to_nat (head m - n)) (length hb) (mdata m3) = hb.
Proof.
  intros Hok Hn Hh. subst n.
  destruct (mbuf_push_pull m hb Hok Hh) as (m1 & E & Hok1 & Hl & Hp & m3 & E3 & Hh3 & Hl3 & Hp3 & Hok3).
  pose proof Hok as (O1 & O2 & O3 & O4). unfold MBUF_SIZE in *.
  exists m1. split; [done|]. split; [done|]. split; [done|].
  assert (head m1 = head m - Z.of_nat (length hb)) as Hh1.
  { unfold mbufpush in E. destruct (_ <? _); [done|]. by injection E as <-. }
  split; [done|]. intros mx Hlx Hhx Hokx Hpx. rewrite Hp in Hpx.
  unfold mbufpull. rewrite Hlx, Hhx. destruct (Z.ltb_spec (len m + Z.of_nat (length hb)) (Z.of_nat (length hb))); [lia|].
  eexists. split; [done|]. pose proof Hokx as (X1 & X2 & X3 & X4). unfold MBUF_SIZE in *.
  assert (payload mx = sub_bytes (Z.to_nat (head m - Z.of_nat (length hb))) (length hb + Z.to_nat (len m)) (mdata mx)) as Ex.
  { unfold payload. rewrite Hhx, Hlx. f_equal. lia. }
  rewrite Hpx, sub_bytes_app in Ex. apply app_inj_1 in Ex as [Ea Eb].
  2: { rewrite length_sub_bytes; lia. }
  split; [unfold mbuf_ok, MBUF_SIZE; simpl; lia|]. split; [simpl; lia|]. split; [|done].
  rewrite Eb. unfold payload. simpl. f_equal; [|f_equal]; lia.
Qed.

(** a datagram that [udp_send] sends arrives at the control block of its
    destination: on the machine with address [dip], [ip_recv] and [udp_recv]
    accept the packet, and deliver exactly the payload that was sent, under
    the local port [dp], remote address [local_ip] and remote port [sp]. *)
Theorem udp_send_recv local_ip m dip sp dp :
  mbuf_ok m -> IP_HDR + UDP_HDR <= head m -> len m + IP_HDR + UDP_HDR < 2 ^ 16 ->
  0 <= local_ip < 2 ^ 32 -> 0 <= dip < 2 ^ 32 -> 0 <= sp < 2 ^ 16 -> 0 <= dp < 2 ^ 16 ->
  exists m1 m2 h m3, udp_send local_ip m dip sp dp = Some m1 /\
    ip_recv dip m1 = IpUdp m2 (len m + UDP_HDR) h /\
    udp_recv m2 (len m + UDP_HDR) h = Some (m3, dp, local_ip, sp) /\
    payload m3 = payload m /\ len m3 = len m.
Proof.
  intros Hok Hh Hlen Hl Hd Hsp Hdp. unfold IP_HDR, UDP_HDR in *.
  set (h := mkudp (htons sp) (htons dp) (htons (u16 (len m + 8))) 0).
  destruct (push_write_pull m (udp_bytes h) 8) as (m1 & E1 & Hl1 & Hok1 & Hh1 & Hpull);
    [done|done|lia|]. pose proof Hok as (_ & O2 & _).
  set (mu := mwrite (head m - 8) (udp_bytes h) m1) in *.
  assert (len mu = len m + 8) as Hlu by done.
  destruct (ip_send_recv_ok local_ip mu IPPROTO_UDP dip) as
    (mi & m2 & ih & Es & _ & Er & Hp2 & Hok2 & Hl2 & Hsrc & Hh2 & _);
    try done; unfold IP_HDR; try lia.
  destruct (Hpull m2) as (m3 & E3 & Hok3 & Hl3 & Hp3 & Hraw); [lia|congruence|done|done|].
  rewrite Hlu in Er.
  exists mi, m2, ih, (set_pos (head m3) (len m3 - 0) m3). split; [|split; [exact Er|]].
  { unfold udp_send, UDP_HDR. rewrite E1, Hl1. exact Es. }
  change (length (udp_bytes h)) with 8%nat in Hraw.
  unfold udp_recv, UDP_HDR. rewrite E3, Hraw. cbv zeta.
  rewrite udp_parse_bytes; simpl; try apply bswaps_range; try lia.
  change (ntohs (htons ?x)) with (htons (htons x)).
  rewrite (u16_small (len m + 8)), !htons_htons by lia. rewrite Z.eqb_refl. cbn [negb].
  replace (len m + 8 - 8) with (len m) by lia. rewrite u16_small by lia. rewrite Hl3.
  destruct (Z.ltb_spec (len m) (len m)); [lia|]. unfold mbuftrim. rewrite Hl3, Z.sub_diag.
  destruct (Z.ltb_spec (len m) 0); [lia|]. rewrite Hsrc. split; [done|].
  simpl. split; [|lia]. rewrite <-Hp3. unfold payload. simpl. f_equal. lia.
Qed.

Lemma udp_send_recv_witness :
  exists m1 m2 h m3, udp_send 3232244482 wit_packet 3232244483 2000 53 = Some m1 /\
    ip_recv 3232244483 m1 = IpUdp m2 12 h /\
    udp_recv m2 12 h = Some (m3, 53, 3232244482, 2000) /\ payload m3 = [9; 9; 9; 9].
Proof.
  destruct (udp_send_recv 3232244482 wit_packet 3232244483 2000 53)
    as (m1 & m2 & h & m3 & H1 & H2 & H3 & H4 & _);
    [apply wit_packet_ok|unfold IP_HDR, UDP_HDR; simpl; lia|unfold IP_HDR, UDP_HDR; simpl; lia|lia|lia|lia|lia|].
  exists m1, m2, h, m3. split; [exact H1|]. split; [exact H2|]. split; [exact H3|].
  rewrite H4. reflexivity.
Defined.
