(* ===== verification/Eth.v ===== *)
(** Ethernet and ARP (kernel/net/ethernet.c, kernel/net/arp.c) and the transmit
    side of the network card (kernel/net/dev/e1000.c).

    A packet to an address whose Ethernet address is not known waits in [arp_q]
    while a request is broadcast; the answer releases it.  The state holds the
    heap of packets (Mbuf.v), the ARP table (Arp.v), the queue and the transmit
    ring; [wire] are the frames handed to the card, in order. *)

From S2P Require Import Prelude NetUtil Mbuf DList Arp Ipv4.

Definition ETH_TYPE_IP : Z := 0x0800.
Definition ETH_TYPE_ARP : Z := 0x0806.
Definition ETH_HDR : Z := 14.
Definition ARP_HDR : Z := 28.
Definition ARP_HRD_ETHER : Z := 1.
Definition ARP_OP_REQUEST : Z := 1.
Definition ARP_OP_REPLY : Z := 2.
Definition local_mac : bytes := [0x52; 0x54; 0x00; 0x12; 0x34; 0x56].
Definition broadcast_mac : bytes := [0xFF; 0xFF; 0xFF; 0xFF; 0xFF; 0xFF].

Record eth := mketh { e_dhost : bytes; e_shost : bytes; e_type : Z }.

Definition eth_bytes (h : eth) : bytes := e_dhost h ++ e_shost h ++ le_enc 2 (e_type h).
Definition eth_parse (b : bytes) : eth :=
  mketh (sub_bytes 0 6 b) (sub_bytes 6 6 b) (get_le 2 12 b).

Record arp := mkarph {
  ar_hrd : Z; ar_pro : Z; ar_hln : Z; ar_pln : Z; ar_op : Z;
  ar_sha : bytes; ar_sip : Z; ar_tha : bytes; ar_tip : Z }.

Definition arp_bytes (h : arp) : bytes :=
  le_enc 2 (ar_hrd h) ++ le_enc 2 (ar_pro h) ++ [ar_hln h; ar_pln h] ++ le_enc 2 (ar_op h) ++
  ar_sha h ++ le_enc 4 (ar_sip h) ++ ar_tha h ++ le_enc 4 (ar_tip h).
Definition arp_parse (b : bytes) : arp :=
  mkarph (get_le 2 0 b) (get_le 2 2 b) (get_le 1 4 b) (get_le 1 5 b) (get_le 2 6 b)
    (sub_bytes 8 6 b) (get_le 4 14 b) (sub_bytes 18 6 b) (get_le 4 24 b).

(** The transmit ring of the card: the index register, the status bytes (which
    the card sets) and the packets in flight. *)
Definition TX_RING_SIZE : Z := 16.
Record txring := mkring { tdt : Z; tx_status : list Z; tx_mbuf : list (option loc) }.

Record est := mkest {
  ms : mstate; tab : arptab; arp_q : mbufq; ring : txring; wire : list bytes }.

Definition on_ms {A} (k : M mstate A) : M est A := fun s =>
  match k (ms s) with
  | Ok a m => Ok a (mkest m (tab s) (arp_q s) (ring s) (wire s))
  | Panic msg => Panic msg
  | Sleep m => Sleep (mkest m (tab s) (arp_q s) (ring s) (wire s))
  | OutOfFuel => OutOfFuel
  | Undef => Undef
  end.
Definition on_arp {A} (k : M arptab A) : M est A := fun s =>
  match k (tab s) with
  | Ok a t => Ok a (mkest (ms s) t (arp_q s) (ring s) (wire s))
  | Panic msg => Panic msg
  | Sleep t => Sleep (mkest (ms s) t (arp_q s) (ring s) (wire s))
  | OutOfFuel => OutOfFuel
  | Undef => Undef
  end.
Definition set_arp_q (q : mbufq) : M est unit :=
  modify (fun s => mkest (ms s) (tab s) q (ring s) (wire s)).
Definition set_ring (r : txring) : M est unit :=
  modify (fun s => mkest (ms s) (tab s) (arp_q s) r (wire s)).
Definition to_wire (f : bytes) : M est unit :=
  modify (fun s => mkest (ms s) (tab s) (arp_q s) (ring s) (wire s ++ [f])).

Definition lookupM {A} (l : list A) (i : Z) : M est A :=
  match l !! Z.to_nat i with Some x => ret x | None => undef end.

(** [!status & DD] is [(!status) & DD]: busy when the status byte is zero. *)
Definition e1000_transmit (l : loc) : M est Z :=
  r ← gets ring;
  st ← lookupM (tx_status r) (tdt r);
  if st =? 0 then ret (-1)
  else
    let pi := if tdt r =? 0 then TX_RING_SIZE - 1 else tdt r - 1 in
    prev ← lookupM (tx_mbuf r) pi;
    bufs ← match prev with
           | Some p => on_ms (mbuffree p);; ret (<[Z.to_nat pi := None]> (tx_mbuf r))
           | None => ret (tx_mbuf r)
           end;
    m ← on_ms (get_mbuf l);
    to_wire (sub_bytes (Z.to_nat (head m)) (Z.to_nat (u16 (len m))) (mdata m));;
    set_ring (mkring ((tdt r + 1) mod TX_RING_SIZE) (<[Z.to_nat (tdt r) := 0]> (tx_status r))
                (<[Z.to_nat (tdt r) := Some l]> bufs));;
    ret 0.

(** The end of [eth_send]: the header, and the packet to the card. *)
Definition eth_out (l : loc) (ethtype : Z) (dhost : bytes) : M est unit :=
  m ← on_ms (get_mbuf l);
  match mbufpush m ETH_HDR with
  | None => panic "mbufpush"
  | Some (p, m1) =>
      on_ms (set_mbuf l (mwrite p (eth_bytes (mketh dhost local_mac (htons ethtype))) m1));;
      r ← e1000_transmit l;
      when (r =? -1) (on_ms (mbuffree l))
  end.

(** [eth_send], with the call of [arp_send] as an argument. *)
Definition eth_send_with (arp_send : Z -> bytes -> Z -> M est Z) (l : loc) (ethtype dip : Z) : M est unit :=
  mac ← on_arp (arptable_get_mac dip);
  match mac with
  | None =>
      if negb (ethtype =? ETH_TYPE_ARP) then
        _ ← arp_send ARP_OP_REQUEST broadcast_mac dip;
        q ← gets arp_q;
        q' ← on_ms (mbufq_pushtail q l);
        set_arp_q q'
      else eth_out l ethtype broadcast_mac
  | Some dhost => eth_out l ethtype dhost
  end.

Section arp.
Context (local_ip : Z).

Definition arp_header (op : Z) (dmac : bytes) (dip : Z) : arp :=
  mkarph (htons ARP_HRD_ETHER) (htons ETH_TYPE_IP) 6 4 (htons op)
    local_mac (htonl local_ip) dmac (htonl dip).

(** An ARP packet is sent with type ARP, for which [eth_send] does not call
    [arp_send] again. *)
Definition arp_send (op : Z) (dmac : bytes) (dip : Z) : M est Z :=
  o ← on_ms (mbufalloc MBUF_DEFAULT_HEADROOM);
  match o with
  | None => ret (-1)
  | Some l =>
      m ← on_ms (get_mbuf l);
      match mbufput m ARP_HDR with
      | None => panic "mbufput"
      | Some (p, m1) =>
          on_ms (set_mbuf l (mwrite p (arp_bytes (arp_header op dmac dip)) m1));;
          eth_send_with (fun _ _ _ => undef) l ETH_TYPE_ARP dip;;
          ret 0
      end
  end.

Definition eth_send (l : loc) (ethtype dip : Z) : M est unit := eth_send_with arp_send l ethtype dip.

(** The walk of [arp_recv] over the queue: packets to [sip] are sent and
    unlinked.  [fuel] bounds the length of the queue. *)
Fixpoint arp_flush (fuel : nat) (sip : Z) (prev now : option loc) : M est unit :=
  match fuel with
  | O => nofuel
  | S fuel' =>
      match now with
      | None => ret tt
      | Some n =>
          m ← on_ms (get_mbuf n);
          if raddr m =? sip then
            eth_send n ETH_TYPE_IP (raddr m);;
            m' ← on_ms (get_mbuf n);
            match prev with
            | Some p =>
                mp ← on_ms (get_mbuf p);
                on_ms (set_mbuf p (mset_next (next m') mp))
            | None => q ← gets arp_q; set_arp_q (mkq (next m') (qtail q))
            end;;
            arp_flush fuel' sip prev (next m')
          else arp_flush fuel' sip now (next m)
      end
  end.

Definition arp_valid (h : arp) : bool :=
  (ntohs (ar_hrd h) =? ARP_HRD_ETHER) && (ntohs (ar_pro h) =? ETH_TYPE_IP) &&
  (ar_hln h =? 6) && (ar_pln h =? 4).

Definition arp_recv (l : loc) : M est unit :=
  m ← on_ms (get_mbuf l);
  match mbufpull m ARP_HDR with
  | (None, _) => ret tt
  | (Some p, m1) =>
      on_ms (set_mbuf l m1);;
      let h := arp_parse (sub_bytes (Z.to_nat p) (Z.to_nat ARP_HDR) (mdata m1)) in
      if negb (arp_valid h) then ret tt
      else
        let tip := ntohl (ar_tip h) in
        let sip := ntohl (ar_sip h) in
        on_arp (arptable_add sip (ar_sha h));;
        q ← gets arp_q;
        s ← get;
        arp_flush (S (size (heap (ms s)))) sip None (qhead q);;
        if negb (ntohs (ar_op h) =? ARP_OP_REQUEST) || negb (tip =? local_ip) then ret tt
        else _ ← arp_send ARP_OP_REPLY (ar_sha h) sip; ret tt
  end.

(** What [eth_recv] does with a frame: drop it, or hand the rest to IP or ARP. *)
Inductive eth_action := EthDrop | EthIp (m : mbuf) | EthArp (m : mbuf).

Definition eth_recv (m : mbuf) : eth_action :=
  match mbufpull m ETH_HDR with
  | (None, _) => EthDrop
  | (Some p, m1) =>
      let type := ntohs (e_type (eth_parse (sub_bytes (Z.to_nat p) 14 (mdata m1)))) in
      if type =? ETH_TYPE_IP then EthIp m1
      else if type =? ETH_TYPE_ARP then EthArp m1
      else EthDrop
  end.

Definition arpinit (s : est) : est :=
  mkest (ms s) (arptable_init (tab s)) (mbufq_init (arp_q s)) (ring s) (wire s).
End arp.

(** ** Handing a packet to the card *)

(** The card has room for [k] frames; [inflight] are the packets it holds. *)
Record ring_ok (r : txring) (k : nat) : Prop := {
  ro_tdt : 0 <= tdt r < TX_RING_SIZE;
  ro_status : length (tx_status r) = Z.to_nat TX_RING_SIZE;
  ro_mbuf : length (tx_mbuf r) = Z.to_nat TX_RING_SIZE;
  ro_max : (k <= Z.to_nat TX_RING_SIZE)%nat;
  ro_room : forall j st, 0 <= j < Z.of_nat k ->
    tx_status r !! Z.to_nat ((tdt r + j) mod TX_RING_SIZE) = Some st -> st <> 0 }.

Definition inflight (r : txring) (p : loc) : Prop := exists i, tx_mbuf r !! i = Some (Some p).

(** The card holds distinct packets that are allocated, and has room for [k]
    frames; the ARP table is well formed. *)
Record est_ok (s : est) (k : nat) : Prop := {
  eo_ring : ring_ok (ring s) k;
  eo_heap : forall p, inflight (ring s) p -> is_Some (heap (ms s) !! p);
  eo_inj : forall i j p, tx_mbuf (ring s) !! i = Some (Some p) ->
    tx_mbuf (ring s) !! j = Some (Some p) -> i = j;
  eo_tab : wf_arp (tab s) }.

Definition packet_ok (m : mbuf) : Prop := mbuf_ok m /\ ETH_HDR <= head m /\ len m + ETH_HDR < 2 ^ 16.

Definition frame (type : Z) (dmac : bytes) (m : mbuf) : bytes :=
  eth_bytes (mketh dmac local_mac (htons type)) ++ payload m.

Lemma ring_next r k bufs l :
  ring_ok r (S k) -> length bufs = Z.to_nat TX_RING_SIZE ->
  ring_ok (mkring ((tdt r + 1) mod TX_RING_SIZE) (<[Z.to_nat (tdt r) := 0]> (tx_status r))
             (<[Z.to_nat (tdt r) := Some l]> bufs)) k.
Proof.
  unfold TX_RING_SIZE. intros [H1 H2 H3 H4 H5] Hb. unfold TX_RING_SIZE in *.
  split; simpl; rewrite ?length_insert; unfold TX_RING_SIZE; try done; try lia.
  { apply Z.mod_pos_bound. lia. }
  intros j st Hj. rewrite Zplus_mod_idemp_l, <-Z.add_assoc, (Z.add_comm 1 j).
  pose proof (Z.mod_pos_bound (tdt r + (j + 1)) 16 ltac:(lia)).
  rewrite list_lookup_insert_ne.
  - intros Hst. apply (H5 (j + 1)); [lia|done].
  - intros E. apply Z2Nat.inj in E; [|lia..].
    pose proof (Z.div_mod (tdt r + (j + 1)) 16 ltac:(lia)). lia.
Qed.

(** [eth_out] of a packet, when the card has room: the frame is on the wire, the
    packet stays allocated with its [next] pointer, and at most the packet that
    was sent before is freed. *)
Lemma eth_out_ok s l m type dmac k :
  heap (ms s) !! l = Some m -> packet_ok m -> length dmac = 6%nat -> est_ok s (S k) ->
  ~ inflight (ring s) l ->
  exists s' m', eth_out l type dmac s = Ok tt s' /\
    tab s' = tab s /\ arp_q s' = arp_q s /\ wire s' = wire s ++ [frame type dmac m] /\
    est_ok s' k /\ (forall p, inflight (ring s') p -> p = l \/ inflight (ring s) p) /\
    heap (ms s') !! l = Some m' /\ next m' = next m /\
    (forall x, x <> l -> ~ inflight (ring s) x -> heap (ms s') !! x = heap (ms s) !! x).
Proof.
  intros Hl (Hok & Hh & Hlen) Hd [Hr Hin Hinj Htab] Hnf.
  set (hb := eth_bytes (mketh dmac local_mac (htons type))).
  assert (length hb = 14%nat) as Hhb.
  { unfold hb, eth_bytes. simpl. rewrite !length_app, Hd. done. }
  destruct (mbuf_push_pull m hb Hok) as (m1 & E & Hok2 & Hlen2 & Hp2 & _); [rewrite Hhb; done|].
  rewrite Hhb in *. change (Z.of_nat 14) with ETH_HDR in *. set (m2 := mwrite _ hb m1) in *.
  assert (next m2 = next m) as Hn.
  { unfold m2. simpl. unfold mbufpush in E. destruct (_ <? 0); [done|]. by injection E as <-. }
  pose proof Hr as [R1 R2 R3 R4 R5]. unfold TX_RING_SIZE in *.
  destruct (lookup_lt_is_Some_2 (tx_status (ring s)) (Z.to_nat (tdt (ring s)))) as [st Hst]; [lia|].
  assert (st <> 0) as Hst0.
  { apply (R5 0); [lia|]. rewrite Z.add_0_r, Z.mod_small by lia. done. }
  set (pi := if tdt (ring s) =? 0 then TX_RING_SIZE - 1 else tdt (ring s) - 1).
  assert (0 <= pi < 16) as Hpi by (unfold pi, TX_RING_SIZE; destruct (Z.eqb_spec (tdt (ring s)) 0); lia).
  destruct (lookup_lt_is_Some_2 (tx_mbuf (ring s)) (Z.to_nat pi)) as [prev Hprev]; [lia|].
  unfold eth_out. unfold bind, on_ms, get_mbuf at 1. cbv beta. rewrite Hl, E. fold hb m2.
  unfold set_mbuf, modify. cbn [ms tab arp_q ring wire heap].
  unfold e1000_transmit, bind, gets, lookupM. cbn [ring]. rewrite Hst. cbn [ret].
  unfold ret at 1. destruct (Z.eqb_spec st 0); [done|]. fold pi. rewrite Hprev.
  clearbody m2. set (h2 := <[l := m2]> (heap (ms s))).
  set (bufs := match prev with Some p => <[Z.to_nat pi := None]> (tx_mbuf (ring s)) | None => tx_mbuf (ring s) end).
  set (h3 := match prev with Some p => delete p h2 | None => h2 end).
  assert (h3 !! l = Some m2) as Hl3.
  { unfold h3, h2. destruct prev as [p|]; [|apply lookup_insert_eq].
    rewrite lookup_delete_ne; [apply lookup_insert_eq|]. intros ->. apply Hnf. by exists (Z.to_nat pi). }
  assert (length bufs = Z.to_nat TX_RING_SIZE) as Hlb.
  { unfold bufs, TX_RING_SIZE. destruct prev; rewrite ?length_insert; done. }
  set (s' := mkest (mkms h3) (tab s) (arp_q s)
    (mkring ((tdt (ring s) + 1) mod TX_RING_SIZE) (<[Z.to_nat (tdt (ring s)) := 0]> (tx_status (ring s)))
             (<[Z.to_nat (tdt (ring s)) := Some l]> bufs))
    (wire s ++ [frame type dmac m])).
  assert (forall i p, tx_mbuf (ring s') !! i = Some (Some p) ->
    p = l /\ i = Z.to_nat (tdt (ring s)) \/ tx_mbuf (ring s) !! i = Some (Some p) /\ prev <> Some p) as Hbufs.
  { intros i p Hi. unfold s' in Hi. cbn [ring tx_mbuf] in Hi.
    apply list_lookup_insert_Some in Hi as [(<- & [= <-] & _)|[_ Hi]]; [by left|right].
    unfold bufs in Hi. destruct prev as [q|]; [|done].
    apply list_lookup_insert_Some in Hi as [(_ & ? & _)|[Hne Hi]]; [done|].
    split; [done|]. intros [= ->]. apply Hne. by apply (Hinj _ _ p). }
  exists s', m2. split; [|split; [done|split; [done|split; [done|split; [split|split]]]]].
  - assert (sub_bytes (Z.to_nat (head m2)) (Z.to_nat (u16 (len m2))) (mdata m2) = frame type dmac m) as Ef.
    { rewrite u16_small by (rewrite Hlen2; destruct Hok as (_ & ? & _); unfold ETH_HDR in *; lia). exact Hp2. }
    unfold s', h3, bufs, h2, ret. destruct prev as [p|]; simpl in *;
      unfold mbuffree, modify, get_mbuf; simpl; unfold on_ms; simpl.
    + unfold h3, h2 in Hl3. simpl in Hl3. rewrite Hl3, Ef. done.
    + unfold h3, h2 in Hl3. simpl in Hl3. rewrite Hl3, Ef. done.
  - by apply ring_next.
  - intros p (i & Hi). apply Hbufs in Hi as [[-> _]|(Hi & Hp)]; [by exists m2|].
    unfold s'. cbn [ms heap]. destruct (decide (p = l)) as [->|Hpl]; [by exists m2|].
    destruct (Hin p) as [mp Hmp]; [by exists i|]. exists mp. unfold h3, h2.
    destruct prev as [q|]; [|by rewrite lookup_insert_ne].
    rewrite lookup_delete_ne; [by rewrite lookup_insert_ne|congruence].
  - intros i j p Hi Hj. apply Hbufs in Hi as [[-> Ei]|(Hi & _)]; apply Hbufs in Hj as [[Hpl Ej]|(Hj & _)].
    + congruence.
    + exfalso. apply Hnf. by exists j.
    + subst p. exfalso. apply Hnf. by exists i.
    + by apply (Hinj i j p).
  - done.
  - intros p (i & Hi). apply Hbufs in Hi as [[-> _]|(Hi & _)]; [by left|right; by exists i].
  - split; [done|]. split; [done|]. intros x Hx Hnx. unfold s', h3, h2. simpl.
    destruct prev as [p|]; [|by rewrite lookup_insert_ne].
    rewrite lookup_delete_ne; [by rewrite lookup_insert_ne|]. intros ->. apply Hnx. by exists (Z.to_nat pi).
Qed.

(** ** Packets that wait for an answer *)

Lemma chain_iff h o l :
  chain h o l <-> o = hd_error l /\
    forall i x, l !! i = Some x -> exists m, h !! x = Some m /\ next m = l !! S i.
Proof.
  revert o. induction l as [|y l IH]; intros o; simpl.
  - split; [intros ->; by split|by intros [-> _]].
  - split.
    + intros (-> & m & Hm & Hc). split; [done|]. apply IH in Hc as [Hn Hc].
      intros [|i] x Hi; simplify_eq/=; [|by apply Hc]. exists m. split; [done|]. rewrite Hn. by destruct l.
    + intros [-> H]. split; [done|]. destruct (H 0%nat y eq_refl) as (m & Hm & Hn). exists m.
      split; [done|]. apply IH. split; [rewrite Hn; by destruct l|].
      intros i x Hi. by apply (H (S i)).
Qed.

(** Unlinking [n]: its predecessor, if there is one, points behind it. *)
Lemma chain_remove h h' o l1 n l2 m :
  NoDup (l1 ++ n :: l2) -> chain h o (l1 ++ n :: l2) -> h !! n = Some m ->
  (forall x, x ∈ l1 ++ l2 -> last l1 <> Some x -> h' !! x = h !! x) ->
  (forall p, last l1 = Some p -> exists mp, h' !! p = Some mp /\ next mp = next m) ->
  chain h' (match last l1 with Some _ => o | None => next m end) (l1 ++ l2) /\ next m = hd_error l2.
Proof.
  intros Hnd. rewrite !chain_iff. intros [-> Hc] Hn Hsame Hlast.
  assert (next m = hd_error l2) as Hnm.
  { destruct (Hc (length l1) n) as (m' & Hm' & E).
    - by rewrite lookup_app_r, Nat.sub_diag by lia.
    - rewrite Hn in Hm'. simplify_eq. rewrite E, lookup_app_r by lia.
      replace (S (length l1) - length l1)%nat with 1%nat by lia. by destruct l2. }
  split; [|done]. split.
  { destruct l1 as [|y l1]; simpl; [done|]. destruct (last (y :: l1)) eqn:E; [done|].
    by apply last_None in E. }
  assert (forall x i, last l1 = Some x -> (l1 ++ l2) !! i = Some x -> S i = length l1) as Huniq.
  { intros x i Hx Hi. rewrite last_lookup in Hx. pose proof (lookup_lt_Some _ _ _ Hx).
    assert (NoDup (l1 ++ l2)) as Hnd' by (rewrite <-Permutation_middle in Hnd; by apply NoDup_cons in Hnd as [_ ?]).
    assert ((l1 ++ l2) !! pred (length l1) = Some x) as Hx' by (by rewrite lookup_app_l).
    pose proof (NoDup_lookup _ _ _ _ Hnd' Hi Hx'). lia. }
  intros i x Hi. destruct (decide (last l1 = Some x)) as [Hx|Hx].
  - pose proof (Huniq x i Hx Hi). destruct (Hlast x Hx) as (mp & Hp & E). exists mp. split; [done|].
    rewrite E, Hnm, lookup_app_r by lia. replace (S i - length l1)%nat with 0%nat by lia. by destruct l2.
  - rewrite Hsame; [|by apply (list_elem_of_lookup_2 _ i)|done].
    destruct (decide (i < length l1)%nat) as [Hlt|Hge].
    + rewrite lookup_app_l in Hi by done.
      destruct (Hc i x) as (mx & Hx' & E); [by rewrite lookup_app_l|].
      exists mx. split; [done|]. rewrite E.
      assert (S i <> length l1) by (intros Hl; apply Hx; rewrite last_lookup; by replace (pred (length l1)) with i by lia).
      by rewrite !lookup_app_l by lia.
    + rewrite lookup_app_r in Hi by lia.
      destruct (Hc (S i) x) as (mx & Hx' & E).
      { rewrite lookup_app_r by lia. by replace (S i - length l1)%nat with (S (i - length l1)) by lia. }
      exists mx. split; [done|]. rewrite E, !lookup_app_r by lia.
      replace (S (S i) - length l1)%nat with (S (S (i - length l1))) by lia.
      by replace (S i - length l1)%nat with (S (i - length l1)) by lia.
Qed.

(** Sending to an address that is resolved. *)
Lemma eth_send_known ip s l m type dip mac k :
  heap (ms s) !! l = Some m -> packet_ok m -> length mac = 6%nat -> est_ok s (S k) ->
  ~ inflight (ring s) l -> alookup (tab s) dip = Some mac ->
  exists s' m', eth_send ip l type dip s = Ok tt s' /\ est_ok s' k /\
    (forall a, alookup (tab s') a = alookup (tab s) a) /\
    arp_q s' = arp_q s /\ wire s' = wire s ++ [frame type mac m] /\ (forall p, inflight (ring s') p -> p = l \/ inflight (ring s) p) /\
    heap (ms s') !! l = Some m' /\ next m' = next m /\
    (forall x, x <> l -> ~ inflight (ring s) x -> heap (ms s') !! x = heap (ms s) !! x).
Proof.
  intros Hl Hok Hd [Hr Hin Hinj Hwf] Hnf Hmac.
  destruct (arptable_ok (tab s) dip [] Hwf) as (_ & (t' & Hget & Hwf' & Hsame) & _).
  rewrite Hmac in Hget.
  destruct (eth_out_ok (mkest (ms s) t' (arp_q s) (ring s) (wire s)) l m type mac k)
    as (s' & m' & Hrun & Ht & Hq & Hw & Hr' & Hfl & Hl' & Hn & Hh); try done.
  exists s', m'. unfold eth_send, eth_send_with, on_arp, bind. rewrite Hget.
  split; [exact Hrun|]. rewrite Ht. done.
Qed.

Definition to_ip (ip : Z) (p : loc * mbuf) : bool := raddr p.2 =? ip.
Definition not_to_ip (ip : Z) (p : loc * mbuf) : bool := negb (raddr p.2 =? ip).

(** The walk over the queue [kept ++ pk.*1]: of the packets [pk] still to be
    looked at, those to [sip] go out in order, the others stay. *)
Lemma arp_flush_ok lip sip mac pk : length mac = 6%nat -> forall kept s fuel k,
  (length pk < fuel)%nat -> NoDup (kept ++ pk.*1) ->
  chain (heap (ms s)) (qhead (arp_q s)) (kept ++ pk.*1) ->
  Forall (fun p => heap (ms s) !! p.1 = Some p.2) pk ->
  Forall (fun p => to_ip sip p -> packet_ok p.2) pk ->
  est_ok s k -> (length (filter (to_ip sip) pk) <= k)%nat ->
  (forall x, x ∈ kept ++ pk.*1 -> ~ inflight (ring s) x) ->
  alookup (tab s) sip = Some mac ->
  exists s', arp_flush lip fuel sip (last kept) (hd_error pk.*1) s = Ok tt s' /\
    wire s' = wire s ++ (frame ETH_TYPE_IP mac ∘ snd <$> filter (to_ip sip) pk) /\
    chain (heap (ms s')) (qhead (arp_q s')) (kept ++ (filter (not_to_ip sip) pk).*1) /\
    qtail (arp_q s') = qtail (arp_q s) /\
    est_ok s' (k - length (filter (to_ip sip) pk)) /\
    (forall a, alookup (tab s') a = alookup (tab s) a) /\
    (forall x, x ∈ kept ++ (filter (not_to_ip sip) pk).*1 -> ~ inflight (ring s') x).
Proof.
  intros Hmac6. induction pk as [|[n m] pk IH]; intros kept s fuel k Hf Hnd Hc Hh Hok Hr Hk Hfl Hmac.
  { destruct fuel as [|fuel]; [simpl in Hf; lia|]. exists s. simpl. rewrite app_nil_r, Nat.sub_0_r.
    simpl in Hc. done. }
  destruct fuel as [|fuel]; [simpl in Hf; lia|].
  apply Forall_cons in Hh as [Hn Hh]. apply Forall_cons in Hok as [Hm Hok]. cbn [fst snd] in Hn, Hm.
  cbn [fmap list_fmap fst hd_error] in *. cbn [arp_flush].
  unfold bind at 1, on_ms at 1, get_mbuf at 1. cbv beta. rewrite Hn.
  replace (mkest (ms s) (tab s) (arp_q s) (ring s) (wire s)) with s by (by destruct s).
  destruct (raddr m =? sip) eqn:Esip.
  - assert (to_ip sip (n, m)) as Ht by (unfold to_ip; simpl; by rewrite Esip).
    assert (~ not_to_ip sip (n, m)) as Hnt by (unfold not_to_ip; simpl; rewrite Esip; simpl; tauto).
    rewrite (filter_cons_True (fun p => to_ip sip p) _ _ Ht) in Hk |- *.
    rewrite (filter_cons_False (fun p => not_to_ip sip p) _ _ Hnt).
    destruct k as [|k]; [simpl in Hk; lia|].
    apply Z.eqb_eq in Esip. rewrite Esip.
    destruct (eth_send_known lip s n m ETH_TYPE_IP sip mac k) as
      (s1 & m1 & E1 & Hr1 & Hsame1 & Hq1 & Hw1 & Hfl1 & Hn1 & Hnx & Hh1); auto.
    { apply Hfl. set_solver. }
    unfold bind at 1. rewrite E1. unfold bind at 1, on_ms at 1, get_mbuf at 1. cbv beta. rewrite Hn1.
    replace (mkest (ms s1) (tab s1) (arp_q s1) (ring s1) (wire s1)) with s1 by (by destruct s1).
    assert (NoDup (kept ++ pk.*1)) as Hnd' by (rewrite <-Permutation_middle in Hnd; by apply NoDup_cons in Hnd as [_ ?]).
    assert (n ∉ kept ++ pk.*1) as Hnin by (rewrite <-Permutation_middle in Hnd; by apply NoDup_cons in Hnd as [? _]).
    assert (forall x, x ∈ kept ++ pk.*1 -> heap (ms s1) !! x = heap (ms s) !! x) as Hsame.
    { intros x Hx. apply Hh1; [by intros ->|]. apply Hfl. set_solver. }
    assert (exists s2, (match last kept with
        | Some p => mp ← on_ms (get_mbuf p); on_ms (set_mbuf p (mset_next (next m1) mp))
        | None => q ← gets arp_q; set_arp_q (mkq (next m1) (qtail q))
        end) s1 = Ok tt s2 /\ tab s2 = tab s1 /\ ring s2 = ring s1 /\ wire s2 = wire s1 /\
        qtail (arp_q s2) = qtail (arp_q s1) /\
        qhead (arp_q s2) = (match last kept with Some _ => qhead (arp_q s) | None => next m end) /\
        (forall x, last kept <> Some x -> heap (ms s2) !! x = heap (ms s1) !! x) /\
        (forall p, last kept = Some p -> exists mp, heap (ms s2) !! p = Some mp /\ next mp = next m)) as
      (s2 & E2 & Ht2 & Hr2 & Hw2 & Hqt2 & Hqh2 & Hh2 & Hl2).
    { rewrite Hnx. destruct (last kept) as [p|] eqn:El.
      - assert (p ∈ kept) as Hp by (apply last_Some in El as [? ->]; set_solver).
        assert (exists mp, heap (ms s1) !! p = Some mp) as [mp Hmp].
        { rewrite Hsame by set_solver. apply chain_iff in Hc as [_ Hc].
          apply list_elem_of_lookup in Hp as [i Hi]. destruct (Hc i p) as (mp & ? & _); [|by exists mp].
          by apply lookup_app_l_Some. }
        eexists. split.
        + unfold bind, on_ms, get_mbuf. cbv beta. rewrite Hmp. unfold set_mbuf, modify. reflexivity.
        + cbn [tab ring wire arp_q ms heap qtail qhead]. rewrite Hq1.
          repeat (split; [done|]). split.
          * intros x Hx. rewrite lookup_insert_ne by congruence. done.
          * intros p' [= <-]. eexists. by rewrite lookup_insert_eq.
      - eexists. split; [reflexivity|]. cbn [tab ring wire arp_q ms heap qtail qhead]. rewrite Hq1.
        repeat (split; [done|]). done. }
    unfold bind at 1. rewrite E2. rewrite Hnx.
    destruct (chain_remove (heap (ms s)) (heap (ms s2)) (qhead (arp_q s)) kept n pk.*1 m)
      as [Hc' Hnm]; auto.
    { intros x Hx Hlx. rewrite Hh2 by done. by apply Hsame. }
    rewrite Hnm.
    destruct (IH kept s2 fuel k) as (s' & E & Hw & Hc2 & Hqt & Hr' & Hal & Hfl'); auto.
    { simpl in Hf. lia. }
    { by rewrite Hqh2. }
    { apply Forall_forall. intros [x mx] Hx. rewrite Forall_forall in Hh.
      assert (x ∈ pk.*1) as Hx1 by (apply list_elem_of_fmap; by exists (x, mx)).
      cbn [fst snd]. rewrite Hh2.
      - rewrite Hsame by set_solver. by apply (Hh (x, mx)).
      - intros El. assert (x ∈ kept) by (apply last_Some in El as [? ->]; set_solver).
        apply NoDup_app in Hnd' as (_ & Hdis & _). by apply (Hdis x). }
    { destruct Hr1 as [R1 R2 R3 R4]. split; rewrite ?Hr2, ?Ht2; try done.
      intros p Hp. destruct (decide (last kept = Some p)) as [El|El].
      - destruct (Hl2 p El) as (mp & -> & _). by exists mp.
      - rewrite Hh2 by done. by apply R2. }
    { simpl in Hk. lia. }
    { intros x Hx. rewrite Hr2. intros Hi. apply Hfl1 in Hi as [->|Hi]; [done|]. apply (Hfl x); [set_solver|done]. }
    { by rewrite Ht2, Hsame1. }
    exists s'. split; [done|]. split; [|split; [done|split; [by rewrite Hqt, Hqt2, Hq1|split; [done|split; [|done]]]]].
    + rewrite Hw, Hw2, Hw1. cbn [fmap list_fmap compose snd]. by rewrite <-app_assoc.
    + intros a. by rewrite Hal, Ht2, Hsame1.
  - assert (not_to_ip sip (n, m)) as Ht by (unfold not_to_ip; simpl; by rewrite Esip).
    assert (~ to_ip sip (n, m)) as Hnt by (unfold to_ip; simpl; rewrite Esip; simpl; tauto).
    rewrite (filter_cons_False (fun p => to_ip sip p) _ _ Hnt) in Hk |- *.
    rewrite (filter_cons_True (fun p => not_to_ip sip p) _ _ Ht).
    assert (next m = hd_error pk.*1) as Hnm.
    { apply chain_iff in Hc as [_ Hc]. destruct (Hc (length kept) n) as (m' & Hm' & E).
      - by rewrite lookup_app_r, Nat.sub_diag by lia.
      - rewrite Hn in Hm'. injection Hm' as <-. rewrite E, lookup_app_r by lia.
        replace (S (length kept) - length kept)%nat with 1%nat by lia. by destruct pk. }
    rewrite Hnm. rewrite <-(last_snoc n kept).
    destruct (IH (kept ++ [n]) s fuel k) as (s' & E & Hw & Hc2 & Hqt & Hr' & Hal & Hfl'); rewrite <-?app_assoc; auto.
    { simpl in Hf. lia. }
    exists s'. rewrite <-!app_assoc in *. done.
Qed.

Definition mac_or_broadcast (s : est) (ip : Z) : bytes := default broadcast_mac (alookup (tab s) ip).

Definition arp_frame (lip op : Z) (dmac : bytes) (dip : Z) (dhost : bytes) : bytes :=
  eth_bytes (mketh dhost local_mac (htons ETH_TYPE_ARP)) ++ arp_bytes (arp_header lip op dmac dip).

(** [arp_send]: one frame, from a buffer that was not allocated before. *)
Lemma arp_send_ok lip op dmac dip s k :
  est_ok s (S k) -> length dmac = 6%nat -> length (mac_or_broadcast s dip) = 6%nat ->
  exists s', arp_send lip op dmac dip s = Ok 0 s' /\ est_ok s' k /\
    (forall a, alookup (tab s') a = alookup (tab s) a) /\ arp_q s' = arp_q s /\
    wire s' = wire s ++ [arp_frame lip op dmac dip (mac_or_broadcast s dip)] /\
    (forall x, is_Some (heap (ms s) !! x) -> ~ inflight (ring s) x ->
       heap (ms s') !! x = heap (ms s) !! x /\ ~ inflight (ring s') x).
Proof.
  intros Hok Hd Hmac. pose proof Hok as [Hr Hin Hinj Hwf].
  destruct (arptable_ok (tab s) dip [] Hwf) as (_ & (t' & Hget & Hwf' & Hsame) & _).
  set (l := fresh_loc (ms s)).
  assert (heap (ms s) !! l = None) as Hl by (apply (not_elem_of_dom (D:=gset loc)); unfold l, fresh_loc; apply is_fresh).
  set (pay := arp_bytes (arp_header lip op dmac dip)).
  assert (length pay = 28%nat) as Hpay.
  { unfold pay, arp_bytes, arp_header. cbn [ar_hrd ar_pro ar_hln ar_pln ar_op ar_sha ar_sip ar_tha ar_tip].
    rewrite !length_app, !length_le_enc, Hd. done. }
  set (m1 := mkmbuf 0 None 128 28 (upd_bytes (Z.to_nat 128) pay (replicate (Z.to_nat MBUF_SIZE) 0)) zero_params None).
  assert (length (mdata m1) = Z.to_nat MBUF_SIZE) as Hlen.
  { unfold m1. cbn [mdata]. rewrite length_upd_bytes; rewrite length_replicate; [done|]. rewrite Hpay. unfold MBUF_SIZE. lia. }
  assert (payload m1 = pay) as Hp1.
  { unfold payload. unfold m1. cbn [head len mdata]. replace (Z.to_nat 28) with (length pay) by (rewrite Hpay; done).
    apply sub_upd_same. rewrite length_replicate, Hpay. unfold MBUF_SIZE. lia. }
  set (s1 := mkest (mkms (<[l := m1]> (heap (ms s)))) t' (arp_q s) (ring s) (wire s)).
  assert (forall p, inflight (ring s) p -> p <> l) as Hfresh.
  { intros p Hp ->. destruct (Hin l Hp) as [? ?]. congruence. }
  destruct (eth_out_ok s1 l m1 ETH_TYPE_ARP (mac_or_broadcast s dip) k) as
    (s' & m' & Hrun & Ht & Hq & Hw & Hok' & Hfl & Hl' & Hn & Hh); auto.
  { apply lookup_insert_eq. }
  { split; [unfold mbuf_ok; rewrite Hlen; unfold m1, MBUF_SIZE; cbn [head len]; lia|].
    unfold m1, ETH_HDR; cbn [head len]; lia. }
  { split; try done. cbn [ring ms heap s1]. intros p Hp. rewrite lookup_insert_ne by (intros E; exact (Hfresh p Hp (eq_sym E))).
    by apply Hin. }
  { intros Hi. by apply (Hfresh l). }
  exists s'. split.
  { unfold arp_send, bind, on_ms, mbufalloc. cbn [ms heap]. change (MBUF_SIZE <? MBUF_DEFAULT_HEADROOM) with false.
    cbv iota beta zeta. fold l. unfold get_mbuf. cbn [ms heap]. rewrite lookup_insert_eq.
    unfold mbufput, ARP_HDR, MBUF_DEFAULT_HEADROOM, MBUF_SIZE. cbn [len head]. rewrite u32_small by lia.
    change (8192 <? 0 + 28) with false. cbv iota beta. unfold set_mbuf, modify. cbn [ms tab arp_q ring wire heap].
    rewrite insert_insert_eq. unfold eth_send_with, on_arp, bind. cbn [ms tab arp_q ring wire].
    rewrite Hget. unfold mac_or_broadcast in Hrun. fold pay. change (Z.to_nat 8192) with (Z.to_nat MBUF_SIZE).
    unfold s1, m1 in Hrun. destruct (alookup (tab s) dip) as [mac|]; cbn [default] in Hrun;
      [|change (negb (ETH_TYPE_ARP =? ETH_TYPE_ARP)) with false; cbv iota]; cbn [mwrite]; exact (bind_ok _ _ _ _ _ Hrun). }
  split; [done|]. rewrite Ht, Hq, Hw. split; [done|]. split; [done|]. split.
  { unfold frame, arp_frame. by rewrite Hp1. }
  intros x [mx Hx] Hnf. assert (x <> l) as Hxl by congruence.
  split; [|intros Hi; apply Hfl in Hi as [?|?]; done].
  rewrite Hh by done. unfold s1. cbn [ms heap]. by rewrite lookup_insert_ne.
Qed.

(** sending over Ethernet.  To an address that the ARP table resolves, the
    packet goes out in one frame with that Ethernet address, and no other
    packet, table entry or queued packet changes.  To an address that is not
    resolved, one ARP request for it is broadcast and the packet is appended to
    the queue of waiting packets. *)
Theorem eth_send_resolves lip s l m dip k waiting :
  est_ok s (S k) -> heap (ms s) !! l = Some m -> packet_ok m -> ~ inflight (ring s) l ->
  is_queue (heap (ms s)) (arp_q s) waiting -> l ∉ waiting ->
  (forall x, x ∈ waiting -> ~ inflight (ring s) x) ->
  match alookup (tab s) dip with
  | Some mac => length mac = 6%nat -> exists s', eth_send lip l ETH_TYPE_IP dip s = Ok tt s' /\
      est_ok s' k /\ wire s' = wire s ++ [frame ETH_TYPE_IP mac m] /\
      is_queue (heap (ms s')) (arp_q s') waiting /\ (forall a, alookup (tab s') a = alookup (tab s) a)
  | None => exists s', eth_send lip l ETH_TYPE_IP dip s = Ok tt s' /\
      wire s' = wire s ++ [arp_frame lip ARP_OP_REQUEST broadcast_mac dip broadcast_mac] /\
      is_queue (heap (ms s')) (arp_q s') (waiting ++ [l]) /\ (forall a, alookup (tab s') a = alookup (tab s) a)
  end.
Proof.
  intros Hok Hl Hm Hnf HQ Hlw Hw. pose proof HQ as (Hnd & Hc & Hlast).
  assert (forall x, x ∈ waiting -> is_Some (heap (ms s) !! x)) as Hsome.
  { intros x Hx. apply chain_iff in Hc as [_ Hc]. apply list_elem_of_lookup in Hx as [i Hi].
    destruct (Hc i x Hi) as (mx & ? & _). by exists mx. }
  destruct (alookup (tab s) dip) as [mac|] eqn:Emac.
  - intros Hmac. destruct (eth_send_known lip s l m ETH_TYPE_IP dip mac k) as
      (s' & m' & E & Hok' & Hal & Hq & Hw' & Hfl & Hl' & Hn & Hh); auto.
    exists s'. split; [done|]. split; [done|]. split; [done|]. split; [|done].
    rewrite Hq. split; [done|]. split; [|done]. apply (chain_ext (heap (ms s))); [|done].
    intros x Hx. apply Hh; [by intros ->|by apply Hw].
  - pose proof Hok as [_ _ _ Hwf].
    destruct (arptable_ok (tab s) dip [] Hwf) as (_ & (t' & Hget & Hwf' & Hsame) & _). rewrite Emac in Hget.
    set (s0 := mkest (ms s) t' (arp_q s) (ring s) (wire s)).
    assert (mac_or_broadcast s0 dip = broadcast_mac) as Hb by (unfold mac_or_broadcast; cbn [tab s0]; by rewrite Hsame, Emac).
    destruct (arp_send_ok lip ARP_OP_REQUEST broadcast_mac dip s0 k) as (s1 & E1 & Hok1 & Hal1 & Hq1 & Hw1 & Hh1).
    { destruct Hok. by split. }
    { done. }
    { by rewrite Hb. }
    assert (forall x, x ∈ waiting ++ [l] -> heap (ms s1) !! x = heap (ms s) !! x) as Hsame1.
    { intros x Hx. apply elem_of_app in Hx as [Hx|Hx].
      - apply (Hh1 x); [by apply Hsome|by apply Hw].
      - apply list_elem_of_singleton in Hx as ->. apply (Hh1 l); [by exists m|done]. }
    destruct (mbufq_pushtail_ok (heap (ms s1)) (arp_q s1) waiting l m) as (h' & q' & E2 & HQ' & _).
    { rewrite Hq1. split; [done|]. split; [|done]. apply (chain_ext (heap (ms s))); [|done].
      intros x Hx. apply Hsame1. set_solver. }
    { rewrite Hsame1 by set_solver. done. }
    { done. }
    exists (mkest (mkms h') (tab s1) q' (ring s1) (wire s1)). split.
    { unfold eth_send, eth_send_with. unfold bind at 1, on_arp. rewrite Hget. fold s0.
      change (negb (ETH_TYPE_IP =? ETH_TYPE_ARP)) with true. cbv iota.
      rewrite (bind_ok _ _ _ _ _ E1). unfold bind, gets, on_ms. destruct (ms s1) as [h1]. cbn [heap] in E2. rewrite E2. done. }
    cbn [wire ms heap arp_q tab]. rewrite Hw1, Hb. split; [done|]. split; [done|].
    intros a. by rewrite Hal1.
Qed.

(** Every location of a queue is allocated: the heap is at least as large. *)
Lemma chain_size h o l : NoDup l -> chain h o l -> (length l <= size h)%nat.
Proof.
  intros Hnd Hc. apply chain_iff in Hc as [_ Hc].
  rewrite <-size_dom. rewrite <-(size_list_to_set (C:=gset loc) l Hnd).
  apply subseteq_size. intros x Hx. apply elem_of_list_to_set in Hx.
  apply list_elem_of_lookup in Hx as [i Hi]. destruct (Hc i x Hi) as (m & ? & _).
  apply elem_of_dom. by exists m.
Qed.

Definition asks_for (lip : Z) (h : arp) : bool :=
  (ntohs (ar_op h) =? ARP_OP_REQUEST) && (ntohl (ar_tip h) =? lip).

(** receiving an ARP packet with a valid header.  The sender's Ethernet
    address is recorded; every queued packet to the sender goes out in a frame
    with that address, in the order they were queued, and leaves the queue while
    the others stay in order; a request for the local address is answered with
    one reply after them. *)
Theorem arp_recv_releases lip s l m pk k :
  let h := arp_parse (sub_bytes 0 28 (payload m)) in
  let sip := ntohl (ar_sip h) in
  est_ok s (S k) -> heap (ms s) !! l = Some m -> mbuf_ok m -> ARP_HDR <= len m -> arp_valid h = true ->
  NoDup pk.*1 -> l ∉ pk.*1 -> chain (heap (ms s)) (qhead (arp_q s)) pk.*1 ->
  Forall (fun p => heap (ms s) !! p.1 = Some p.2) pk ->
  Forall (fun p => to_ip sip p -> packet_ok p.2) pk ->
  (forall x, x ∈ pk.*1 -> ~ inflight (ring s) x) ->
  (length (filter (to_ip sip) pk) <= k)%nat ->
  exists s', arp_recv lip l s = Ok tt s' /\
    (forall a, alookup (tab s') a = if a =? sip then Some (ar_sha h) else alookup (tab s) a) /\
    wire s' = wire s ++ (frame ETH_TYPE_IP (ar_sha h) ∘ snd <$> filter (to_ip sip) pk) ++
      (if asks_for lip h then [arp_frame lip ARP_OP_REPLY (ar_sha h) sip (ar_sha h)] else []) /\
    chain (heap (ms s')) (qhead (arp_q s')) (filter (not_to_ip sip) pk).*1.
Proof.
  intros h sip Hok Hl Hm Hlen Hv Hnd Hlpk Hc Hh Hpk Hfl Hk.
  pose proof Hok as [Hr Hin Hinj Hwf].
  assert (length (ar_sha h) = 6%nat) as Hsha.
  { unfold h, arp_parse. cbn [ar_sha]. pose proof (length_payload m Hm). unfold ARP_HDR in Hlen.
    rewrite !length_sub_bytes; rewrite ?length_sub_bytes; lia. }
  destruct (arptable_ok (tab s) sip (ar_sha h) Hwf) as ((t' & Hadd & Hwf' & Hal) & _ & _).
  set (m1 := set_pos (head m + 28) (len m - 28) m).
  set (s1 := mkest (mkms (<[l := m1]> (heap (ms s)))) t' (arp_q s) (ring s) (wire s)).
  destruct (arp_flush_ok lip sip (ar_sha h) pk Hsha [] s1 (S (size (heap (ms s1)))) (S k))
    as (s2 & E2 & Hw2 & Hc2 & Hqt2 & Hok2 & Hal2 & Hfl2); cbn [app s1 ms heap arp_q ring tab]; auto.
  { pose proof (chain_size (<[l := m1]> (heap (ms s))) (qhead (arp_q s)) pk.*1 Hnd) as Hs.
    rewrite length_fmap in Hs. apply Nat.lt_succ_r, Hs. apply (chain_ext (heap (ms s))); [|done].
    intros x Hx. apply lookup_insert_ne. congruence. }
  { apply (chain_ext (heap (ms s))); [|done]. intros x Hx. apply lookup_insert_ne. congruence. }
  { apply Forall_forall. intros [x mx] Hx. rewrite Forall_forall in Hh. cbn [fst snd].
    rewrite lookup_insert_ne; [by apply (Hh (x, mx))|]. intros ->. apply Hlpk.
    apply list_elem_of_fmap. by exists (x, mx). }
  { split; try done. intros p Hp. unfold s1. cbn [ms heap]. destruct (decide (p = l)) as [->|].
    - rewrite lookup_insert_eq. by exists m1.
    - rewrite lookup_insert_ne by done. by apply Hin. }
  { by rewrite Hal, Z.eqb_refl. }
  assert (arp_recv lip l s = (if negb (asks_for lip h) then ret tt
    else _ ← arp_send lip ARP_OP_REPLY (ar_sha h) sip; ret tt) s2) as Erun.
  { unfold arp_recv. unfold bind at 1, on_ms at 1, get_mbuf. cbv beta. rewrite Hl.
    unfold mbufpull, ARP_HDR in *. destruct (Z.ltb_spec (len m) 28); [lia|].
    unfold bind at 1, on_ms at 1, set_mbuf, modify. cbn [ms tab arp_q ring wire heap].
    change (mdata (set_pos (head m + 28) (len m - 28) m)) with (mdata m).
    assert (sub_bytes (Z.to_nat (head m)) (Z.to_nat 28) (mdata m) = sub_bytes 0 28 (payload m)) as ->.
    { unfold payload, sub_bytes. rewrite drop_0, take_take. f_equal. lia. }
    fold h. rewrite Hv. cbn [negb]. fold sip. fold m1. unfold bind at 1, on_arp at 1. cbn [ms tab arp_q ring wire].
    rewrite Hadd. unfold bind at 1, gets. unfold bind at 1, get. fold s1.
    unfold bind at 1. change (qhead (arp_q s1)) with (qhead (arp_q s)).
    assert (qhead (arp_q s) = hd_error pk.*1) as -> by (by apply chain_iff in Hc as [-> _]).
    cbn [last] in E2. rewrite E2. unfold asks_for. by rewrite negb_andb. }
  rewrite Erun. destruct (asks_for lip h); cbn [negb].
  - destruct (arp_send_ok lip ARP_OP_REPLY (ar_sha h) sip s2 (k - length (filter (to_ip sip) pk)))
      as (s' & E & Hok' & Hal' & Hq' & Hw' & Hh').
    { replace (S (k - _)) with (S k - length (filter (to_ip sip) pk))%nat by lia. done. }
    { done. }
    { unfold mac_or_broadcast. rewrite Hal2. cbn [tab s1]. rewrite Hal, Z.eqb_refl. done. }
    exists s'. split; [by rewrite (bind_ok _ _ _ _ _ E)|]. split; [intros a; by rewrite Hal', Hal2; apply Hal|].
    assert (mac_or_broadcast s2 sip = ar_sha h) as Emac.
    { unfold mac_or_broadcast. rewrite Hal2. cbn [tab s1]. by rewrite Hal, Z.eqb_refl. }
    split; [rewrite Hw', Hw2, Emac; by rewrite <-app_assoc|].
    rewrite Hq'. apply (chain_ext (heap (ms s2))); [|done]. intros x Hx. apply Hh'.
    + apply chain_iff in Hc2 as [_ Hc2]. apply list_elem_of_lookup in Hx as [i Hi].
      destruct (Hc2 i x Hi) as (mx & ? & _). by exists mx.
    + by apply Hfl2.
  - exists s2. split; [done|]. split; [intros a; rewrite Hal2; apply Hal|].
    rewrite app_nil_r. done.
Qed.

(** ** A state in which two packets wait *)

Definition wit_ip : Z := 0x0a000202.
Definition wit_peer : Z := 0x0a000203.
Definition wit_other : Z := 0x0a000204.
Definition wit_mac : bytes := [2; 0; 0; 0; 0; 7].

Definition wit_packet (dst : Z) (nx : option loc) (pay : bytes) : mbuf :=
  mkmbuf dst nx 128 (Z.of_nat (length pay))
    (upd_bytes 128 pay (replicate (Z.to_nat MBUF_SIZE) 0)) zero_params None.
Definition wit_reply (ip : Z) : mbuf :=
  wit_packet 0 None (arp_bytes (mkarph (htons ARP_HRD_ETHER) (htons ETH_TYPE_IP) 6 4 (htons ARP_OP_REPLY)
    wit_mac (htonl ip) local_mac (htonl wit_ip))).

Definition wit_queue : list (loc * mbuf) :=
  [(1%positive, wit_packet wit_other (Some 2%positive) [1]); (2%positive, wit_packet wit_peer None [2])].
Definition wit_est : est :=
  mkest (mkms (list_to_map (wit_queue ++
           [(3%positive, wit_reply wit_peer); (4%positive, wit_packet wit_other None [4]);
            (5%positive, wit_reply wit_other)])))
    wit_arptab (mkq (Some 1%positive) (Some 2%positive))
    (mkring 0 (replicate 16 1) (replicate 16 None)) [].

Lemma eth_wit_packet_ok dst nx pay : (length pay <= 100)%nat -> packet_ok (wit_packet dst nx pay).
Proof.
  intros H. unfold packet_ok, mbuf_ok, wit_packet, ETH_HDR. cbn [head len mdata].
  rewrite length_upd_bytes; rewrite length_replicate; unfold MBUF_SIZE; lia.
Qed.

Lemma wit_ring_ok k : (k <= 16)%nat -> ring_ok (ring wit_est) k.
Proof.
  intros Hk. split; cbn [ring wit_est tdt tx_status tx_mbuf]; unfold TX_RING_SIZE; try done; [lia..|].
  intros j st _ Hst. apply lookup_replicate in Hst as [-> _]. done.
Qed.

Lemma wit_not_inflight p : ~ inflight (ring wit_est) p.
Proof. intros [i Hi]. cbn [ring wit_est tx_mbuf] in Hi. by apply lookup_replicate in Hi as [? _]. Qed.

Lemma wit_est_ok k : (k <= 16)%nat -> est_ok wit_est k.
Proof.
  intros Hk. split; [by apply wit_ring_ok| | |exact wit_arptab_wf].
  - intros p Hp. by apply wit_not_inflight in Hp.
  - intros i j p Hi _. exfalso. apply (wit_not_inflight p). by exists i.
Qed.

Lemma wit_is_queue : is_queue (heap (ms wit_est)) (arp_q wit_est) wit_queue.*1.
Proof.
  split; [apply (bool_decide_unpack _); by vm_compute|]. split; [|done].
  split; [done|]. eexists. split; [reflexivity|]. split; [done|]. eexists. split; [reflexivity|]. done.
Qed.

Lemma eth_send_resolves_witness :
  exists s', eth_send wit_ip 4%positive ETH_TYPE_IP wit_other wit_est = Ok tt s' /\
    is_queue (heap (ms s')) (arp_q s') [1%positive; 2%positive; 4%positive].
Proof.
  pose proof (eth_send_resolves wit_ip wit_est 4%positive (wit_packet wit_other None [4]) wit_other 3 wit_queue.*1
    (wit_est_ok 4 ltac:(lia)) eq_refl (eth_wit_packet_ok wit_other None [4] ltac:(simpl; lia)) (wit_not_inflight _) wit_is_queue) as H.
  change (alookup (tab wit_est) wit_other) with (@None bytes) in H.
  destruct H as (s' & H1 & _ & H2 & _).
  - apply (bool_decide_unpack _). by vm_compute.
  - intros x _. apply wit_not_inflight.
  - exists s'. split; [exact H1|exact H2].
Defined.

Lemma arp_recv_releases_witness :
  exists s', arp_recv wit_ip 3%positive wit_est = Ok tt s' /\
    wire s' = [frame ETH_TYPE_IP wit_mac (wit_packet wit_peer None [2])] /\
    alookup (tab s') wit_peer = Some wit_mac.
Proof.
  destruct (arp_recv_releases wit_ip wit_est 3%positive (wit_reply wit_peer) wit_queue 3) as (s' & H1 & H2 & H3 & _).
  - apply wit_est_ok. lia.
  - reflexivity.
  - apply eth_wit_packet_ok. vm_compute. lia.
  - vm_compute. congruence.
  - by vm_compute.
  - apply wit_is_queue.
  - apply (bool_decide_unpack _). by vm_compute.
  - apply wit_is_queue.
  - repeat constructor.
  - unfold wit_queue. repeat (apply Forall_cons; split); [| |apply Forall_nil; done]; intros _; apply eth_wit_packet_ok; simpl; lia.
  - intros x _. apply wit_not_inflight.
  - vm_compute. lia.
  - exists s'. split; [exact H1|]. split.
    + rewrite H3. by vm_compute.
    + rewrite H2. by vm_compute.
Defined.

(** [arp_recv] unlinks a packet without moving [arp_q.tail].  When the last
    packet of the queue is sent and another one stays, the tail is the packet
    that was handed to the card; the next packet to an unresolved address first
    broadcasts its request, whose transmission frees that packet, and then links
    itself behind the freed buffer. *)
Theorem arp_queue_tail_dangles :
  exists s, arp_recv wit_ip 3%positive wit_est = Ok tt s /\
    (qhead (arp_q s), qtail (arp_q s)) = (Some 1%positive, Some 2%positive) /\
    next <$> heap (ms s) !! 1%positive = Some None /\
    eth_send wit_ip 4%positive ETH_TYPE_IP wit_other s = Undef.
Proof.
  enough (match arp_recv wit_ip 3%positive wit_est with
          | Ok _ s => (qhead (arp_q s), qtail (arp_q s), next <$> heap (ms s) !! 1%positive,
                       match eth_send wit_ip 4%positive ETH_TYPE_IP wit_other s with Undef => true | _ => false end)
          | _ => (None, None, None, false)
          end = (Some 1%positive, Some 2%positive, Some None, true)) as H.
  - revert H. generalize (arp_recv wit_ip 3%positive wit_est). intros [[] s| | | |] H; try discriminate H.
    exists s. split; [done|]. injection H as H1 H2 H3 H4. rewrite H1, H2.
    split; [done|]. split; [done|]. by destruct (eth_send _ _ _ _ s).
  - vm_compute. reflexivity.
Qed.
