(* ===== verification/Tcp.v ===== *)
(** TCP (kernel/net/tcp.c).

    The functions of tcp.c work on one control block; what they send is
    recorded: the packet handed to [ip_send] and its destination.  Sequence
    numbers and windows are 32 bits wide, segment lengths 16. *)

From S2P Require Import Prelude NetUtil Mbuf DList SockCb Ipv4.

Definition TCP_FLG_FIN : Z := 1.
Definition TCP_FLG_SYN : Z := 2.
Definition TCP_FLG_RST : Z := 4.
Definition TCP_FLG_PSH : Z := 8.
Definition TCP_FLG_ACK : Z := 16.
Definition ETH_MAX_SIZE : Z := 4000.
Definition TCP_HDR : Z := 20.
Definition SOCK_CB_DEFAULT_WND_SIZE : Z := PGSIZE.

(** The results of the checks, [TCP_OP_*]. *)
Inductive tcp_op :=
| TCP_OP_RETRANS | TCP_OP_CLOSE_SCB | TCP_OP_SND_RST | TCP_OP_ERR
| TCP_OP_OK | TCP_OP_SND_ACK | TCP_OP_TXT_OK | TCP_OP_FREE_MBUF.

Definition TCP_FLG_ISSET (x y : Z) : bool := negb (Z.land (Z.land x 63) y =? 0).

(** ** The TCP header *)

Record tcp := mktcp {
  th_sport : Z; th_dport : Z; th_seq : Z; th_ack : Z; th_off : Z; th_flg : Z;
  th_wnd : Z; th_sum : Z; th_urg : Z }.

Definition tcp_bytes (h : tcp) : bytes :=
  le_enc 2 (th_sport h) ++ le_enc 2 (th_dport h) ++ le_enc 4 (th_seq h) ++ le_enc 4 (th_ack h) ++
  [th_off h; th_flg h] ++ le_enc 2 (th_wnd h) ++ le_enc 2 (th_sum h) ++ le_enc 2 (th_urg h).

Definition tcp_parse (b : bytes) : tcp :=
  mktcp (get_le 2 0 b) (get_le 2 2 b) (get_le 4 4 b) (get_le 4 8 b) (get_le 1 12 b)
    (get_le 1 13 b) (get_le 2 14 b) (get_le 2 16 b) (get_le 2 18 b).

(** [TCP_HDR_LEN] and [TCP_DATA_LEN] (assigned to 16 bits). *)
Definition TCP_HDR_LEN (h : tcp) : Z := Z.shiftl (Z.shiftr (th_off h) 4) 2.
Definition TCP_DATA_LEN (h : tcp) (l : Z) : Z := u16 (l - TCP_HDR_LEN h).

Definition tcp_pseudo (ip_src ip_dst ip_p l : Z) : Z :=
  ntohs (Z.land (Z.shiftr ip_src 16) 65535) + ntohs (Z.land ip_src 65535) +
  ntohs (Z.land (Z.shiftr ip_dst 16) 65535) + ntohs (Z.land ip_dst 65535) + ip_p + l.

(** [seg] are the [l] bytes from the header on. *)
Definition tcp_checksum (ip_src ip_dst ip_p : Z) (seg : bytes) (l : Z) : Z :=
  cksum16 seg (tcp_pseudo ip_src ip_dst ip_p l).

(** ** The state of one connection *)

Record tst := mktst { scb : sock_cb; out : list (mbuf * Z) }.

Definition get_scb : M tst sock_cb := gets scb.
Definition put_scb (c : sock_cb) : M tst unit := modify (fun s => mktst c (out s)).
Definition upd (g : sock_cb -> sock_cb) : M tst unit := modify (fun s => mktst (g (scb s)) (out s)).

Definition set_state (st : sock_cb_state) (c : sock_cb) : sock_cb :=
  mkscb (sfile c) (nonblockable c) (slocked c) (socktype c) (acpt_scb c) st (sport c) (sraddr c)
    (dport c) (snd c) (rcv c) (txq c) (rxq c) (sprev c) (snext c).
Definition set_slocked (b : bool) (c : sock_cb) : sock_cb :=
  mkscb (sfile c) (nonblockable c) b (socktype c) (acpt_scb c) (state c) (sport c) (sraddr c)
    (dport c) (snd c) (rcv c) (txq c) (rxq c) (sprev c) (snext c).
Definition set_remote (ra dp : Z) (c : sock_cb) : sock_cb :=
  mkscb (sfile c) (nonblockable c) (slocked c) (socktype c) (acpt_scb c) (state c) (sport c) ra
    dp (snd c) (rcv c) (txq c) (rxq c) (sprev c) (snext c).
Definition set_snd (v : snd_vars) (c : sock_cb) : sock_cb :=
  mkscb (sfile c) (nonblockable c) (slocked c) (socktype c) (acpt_scb c) (state c) (sport c) (sraddr c)
    (dport c) v (rcv c) (txq c) (rxq c) (sprev c) (snext c).
Definition set_rcv (v : rcv_vars) (c : sock_cb) : sock_cb :=
  mkscb (sfile c) (nonblockable c) (slocked c) (socktype c) (acpt_scb c) (state c) (sport c) (sraddr c)
    (dport c) (snd c) v (txq c) (rxq c) (sprev c) (snext c).

Definition set_snd_nxt (n : Z) (c : sock_cb) : sock_cb :=
  let v := snd c in
  set_snd (mksnd (snd_init_seq v) (snd_unack v) (u32 n) (snd_wnd v) (snd_wl1 v) (snd_wl2 v)) c.
Definition set_snd_init (n : Z) (c : sock_cb) : sock_cb :=
  let v := snd c in
  set_snd (mksnd n (snd_unack v) (snd_nxt_seq v) (snd_wnd v) (snd_wl1 v) (snd_wl2 v)) c.
Definition set_snd_unack (n : Z) (c : sock_cb) : sock_cb :=
  let v := snd c in
  set_snd (mksnd (snd_init_seq v) n (snd_nxt_seq v) (snd_wnd v) (snd_wl1 v) (snd_wl2 v)) c.
Definition set_snd_wnd (w wl1 wl2 : Z) (c : sock_cb) : sock_cb :=
  let v := snd c in
  set_snd (mksnd (snd_init_seq v) (snd_unack v) (snd_nxt_seq v) w wl1 wl2) c.
Definition set_rcv_nxt (n : Z) (c : sock_cb) : sock_cb :=
  let v := rcv c in set_rcv (mkrcv (rcv_init_seq v) (u32 n) (rcv_wnd v)) c.
Definition set_rcv_init (n : Z) (c : sock_cb) : sock_cb :=
  let v := rcv c in set_rcv (mkrcv n (rcv_nxt_seq v) (rcv_wnd v)) c.
Definition set_rcv_wnd (w : Z) (c : sock_cb) : sock_cb :=
  let v := rcv c in set_rcv (mkrcv (rcv_init_seq v) (rcv_nxt_seq v) (u32 w)) c.

(** [mbufalloc(ETH_MAX_SIZE)]. *)
Definition new_mbuf : mbuf :=
  mkmbuf 0 None ETH_MAX_SIZE 0 (replicate (Z.to_nat MBUF_SIZE) 0) zero_params None.

Section local.
Context (local_ip : Z).

(** The header that [tcp_send_core] fills in. *)
Definition tcp_header (sp dp seq ack wnd flg sum : Z) : tcp :=
  mktcp (htons sp) (htons dp) (htonl seq) (if TCP_FLG_ISSET flg TCP_FLG_ACK then htonl ack else 0)
    (Z.shiftl (Z.shiftr TCP_HDR 2) 4) flg (htons (u16 wnd)) sum 0.

Definition tcp_send_core (m : mbuf) (ra sp dp sndnxt rcvnxt rcvwnd flg payload_len : Z) : M tst unit :=
  match mbufpush m TCP_HDR with
  | None => panic "mbufpush"
  | Some (p, m1) =>
      let l := u16 (payload_len + TCP_HDR) in
      let m2 := mwrite p (tcp_bytes (tcp_header sp dp sndnxt rcvnxt rcvwnd flg 0)) m1 in
      let ck := tcp_checksum (htonl local_ip) (htonl ra) IPPROTO_TCP
                  (sub_bytes (Z.to_nat p) (Z.to_nat l) (mdata m2)) l in
      let m3 := mwrite p (tcp_bytes (tcp_header sp dp sndnxt rcvnxt rcvwnd flg (htons ck))) m1 in
      modify (fun s => mktst (scb s) (out s ++ [(m3, ra)]))
  end.

(** A segment without data on the connection of the block. *)
Definition tcp_ctl (flg : Z) (seq ack : Z) : M tst unit :=
  c ← get_scb;
  tcp_send_core new_mbuf (sraddr c) (sport c) (dport c) seq ack (rcv_wnd (rcv c)) flg 0.

Definition send_ack : M tst unit :=
  c ← get_scb;
  tcp_ctl TCP_FLG_ACK (snd_nxt_seq (snd c)) (rcv_nxt_seq (rcv c)).

(** ** Calls of the user *)

(** 0 or -1; when the connection has to be waited for, the sleep lock of the
    block is taken and the caller waits until it is released. *)
Definition tcp_acquiresleep (killed : bool) : M tst Z :=
  c ← get_scb;
  if decide (state c = SOCK_CB_ESTAB) then ret 0
  else if nonblockable c then
    if decide (state c = SOCK_CB_SYN_RCVD) then ret 0 else ret (-1)
  else if slocked c then block
  else
    upd (set_slocked true);;
    if killed then upd (set_slocked false);; ret (-1)
    else block.

Definition tcp_listen : M tst Z :=
  upd (set_state SOCK_CB_LISTEN);; ret 0.

Definition tcp_accept (killed : bool) : M tst Z := tcp_acquiresleep killed.

Definition tcp_connect (killed : bool) : M tst Z :=
  c ← get_scb;
  if negb (socktype c =? SOCK_TCP) then ret (-1)
  else
    upd (set_rcv_wnd SOCK_CB_DEFAULT_WND_SIZE);;
    c ← get_scb;
    tcp_send_core new_mbuf (sraddr c) (sport c) (dport c) (snd_nxt_seq (snd c))
      (rcv_nxt_seq (rcv c)) (rcv_wnd (rcv c)) TCP_FLG_SYN 0;;
    upd (set_state SOCK_CB_SYN_SENT);;
    upd (fun c => set_snd_nxt (snd_init_seq (snd c) + 1) c);;
    tcp_acquiresleep killed.

(** The loop of [tcp_send] over the queue of packets to send. *)
Fixpoint send_queue (fuel : nat) : M tst unit :=
  match fuel with
  | O => nofuel
  | S fuel' =>
      c ← get_scb;
      match pop_from_scb_txq c with
      | (None, _) => ret tt
      | (Some m, c1) =>
          put_scb c1;;
          tcp_send_core m (sraddr c1) (sport c1) (dport c1) (sndnxt (params m)) (rcv_nxt_seq (rcv c1))
            (rcv_wnd (rcv c1)) (pflg (params m)) (datalen (params m));;
          upd (fun c => set_snd_nxt (snd_nxt_seq (snd c) + datalen (params m)) c);;
          send_queue fuel'
      end
  end.

Definition tcp_send (m : mbuf) (flg : Z) : M tst Z :=
  c ← get_scb;
  match state c with
  | SOCK_CB_LISTEN =>
      if negb (sraddr c =? 0) then
        upd (set_snd_init 0);;
        c ← get_scb;
        tcp_send_core m (sraddr c) (sport c) (dport c) (snd_init_seq (snd c)) (rcv_nxt_seq (rcv c))
          (rcv_wnd (rcv c)) TCP_FLG_SYN 0;;
        upd (set_state SOCK_CB_SYN_SENT);;
        upd (fun c => set_snd_unack (snd_init_seq (snd c)) c);;
        upd (fun c => set_snd_nxt (snd_init_seq (snd c) + 1) c);;
        ret 0
      else ret (-1)
  | SOCK_CB_SYN_SENT | SOCK_CB_SYN_RCVD =>
      upd (push_to_scb_txq m (snd_nxt_seq (snd c)) flg (len m));; ret 0
  | SOCK_CB_ESTAB =>
      upd (push_to_scb_txq m (snd_nxt_seq (snd c)) flg (len m));;
      c ← get_scb;
      send_queue (S (length (txq c)));; ret 0
  | _ => ret (-1)
  end.

(** 0 when the block is to be freed, -1 when the close handshake runs. *)
Definition tcp_close : M tst Z :=
  c ← get_scb;
  match state c with
  | SOCK_CB_SYN_RCVD =>
      (match txq c with
       | [] => upd (push_to_scb_txq new_mbuf (snd_nxt_seq (snd c)) (Z.lor TCP_FLG_FIN TCP_FLG_ACK) 0)
       | _ :: _ =>
           tcp_ctl (Z.lor TCP_FLG_FIN TCP_FLG_ACK) (snd_nxt_seq (snd c)) (rcv_nxt_seq (rcv c));;
           upd (fun c => set_snd_nxt (snd_nxt_seq (snd c) + 1) c);;
           upd (set_state SOCK_CB_FIN_WAIT_1)
       end);;
      ret (-1)
  | SOCK_CB_ESTAB =>
      tcp_ctl (Z.lor TCP_FLG_FIN TCP_FLG_ACK) (snd_nxt_seq (snd c)) (rcv_nxt_seq (rcv c));;
      upd (fun c => set_snd_nxt (snd_nxt_seq (snd c) + 1) c);;
      upd (set_state SOCK_CB_FIN_WAIT_1);;
      ret (-1)
  | SOCK_CB_CLOSE_WAIT =>
      tcp_ctl (Z.lor TCP_FLG_FIN TCP_FLG_ACK) (snd_nxt_seq (snd c)) (rcv_nxt_seq (rcv c));;
      upd (fun c => set_snd_nxt (snd_nxt_seq (snd c) + 1) c);;
      upd (set_state SOCK_CB_LAST_ACK);;
      ret (-1)
  | _ => ret 0
  end.

(** ** Arrival of a segment *)

Definition is_seq_valid (rcvwnd rcvnxt segseq seglen : Z) : bool :=
  if rcvwnd =? 0 then (seglen =? 0) && (segseq =? rcvnxt) && (seglen =? 0)
  else if seglen =? 0 then (rcvnxt <=? segseq) && (segseq <? u32 (rcvnxt + rcvwnd))
  else ((rcvnxt <=? segseq) && (segseq <? u32 (rcvnxt + rcvwnd))) ||
       ((rcvnxt <=? u32 (segseq + seglen - 1)) && (u32 (segseq + seglen - 1) <? u32 (rcvnxt + rcvwnd))).

(** The header of a received packet, [m->tcphdr]. *)
Definition seg_header (m : mbuf) : tcp :=
  match tcphdr m with
  | Some p => tcp_parse (sub_bytes (Z.to_nat p) 20 (mdata m))
  | None => mktcp 0 0 0 0 0 0 0 0 0
  end.

Definition tcp_recv_listen (m : mbuf) (ra dp : Z) : M tst tcp_op :=
  c ← get_scb;
  let h := seg_header m in
  if TCP_FLG_ISSET (th_flg h) TCP_FLG_RST then ret TCP_OP_ERR
  else if TCP_FLG_ISSET (th_flg h) TCP_FLG_ACK then
    tcp_send_core new_mbuf ra (sport c) dp (ntohl (th_ack h)) 0 (rcv_wnd (rcv c))
      (Z.lor TCP_FLG_RST TCP_FLG_ACK) 0;;
    ret TCP_OP_ERR
  else if TCP_FLG_ISSET (th_flg h) TCP_FLG_SYN then
    upd (set_remote ra dp);;
    upd (set_rcv_wnd SOCK_CB_DEFAULT_WND_SIZE);;
    upd (set_rcv_init (ntohl (th_seq h)));;
    upd (set_rcv_nxt (ntohl (th_seq h) + 1));;
    upd (set_snd_init 0);;
    upd (set_snd_nxt 1);;
    upd (fun c => set_snd_unack (snd_init_seq (snd c)) c);;
    c ← get_scb;
    tcp_ctl (Z.lor TCP_FLG_SYN TCP_FLG_ACK) (snd_init_seq (snd c)) (rcv_nxt_seq (rcv c));;
    upd (set_state SOCK_CB_SYN_RCVD);;
    ret TCP_OP_OK
  else ret TCP_OP_ERR.

Definition tcp_recv_syn_sent (m : mbuf) : M tst tcp_op :=
  c ← get_scb;
  let h := seg_header m in
  let ack := ntohl (th_ack h) in
  let seq := ntohl (th_seq h) in
  if TCP_FLG_ISSET (th_flg h) TCP_FLG_ACK &&
     ((ack <=? snd_init_seq (snd c)) || (snd_nxt_seq (snd c) <? ack)) then
    tcp_ctl (Z.lor TCP_FLG_RST TCP_FLG_ACK) (snd_nxt_seq (snd c)) (rcv_nxt_seq (rcv c));;
    upd (fun c => set_snd_nxt (snd_init_seq (snd c) + 1) c);;
    ret TCP_OP_ERR
  else if TCP_FLG_ISSET (th_flg h) TCP_FLG_RST then ret TCP_OP_ERR
  else if TCP_FLG_ISSET (th_flg h) TCP_FLG_SYN && TCP_FLG_ISSET (th_flg h) TCP_FLG_ACK then
    upd (set_rcv_nxt (seq + 1));;
    upd (set_rcv_init seq);;
    upd (set_snd_unack ack);;
    c ← get_scb;
    (if snd_init_seq (snd c) <? snd_unack (snd c) then
       upd (set_state SOCK_CB_ESTAB);;
       upd (set_slocked false);;
       send_ack
     else
       upd (set_state SOCK_CB_SYN_RCVD);;
       tcp_ctl (Z.lor TCP_FLG_SYN TCP_FLG_ACK) (snd_init_seq (snd c)) (rcv_nxt_seq (rcv c)));;
    ret TCP_OP_OK
  else ret TCP_OP_ERR.

Definition check_rst (c : sock_cb) (flg : Z) : tcp_op * sock_cb :=
  if TCP_FLG_ISSET flg TCP_FLG_RST then
    match state c with
    | SOCK_CB_SYN_RCVD => (TCP_OP_CLOSE_SCB, set_state SOCK_CB_LISTEN c)
    | SOCK_CB_ESTAB | SOCK_CB_FIN_WAIT_1 | SOCK_CB_FIN_WAIT_2 | SOCK_CB_CLOSE_WAIT
    | SOCK_CB_CLOSING | SOCK_CB_LAST_ACK | SOCK_CB_TIME_WAIT =>
        (TCP_OP_CLOSE_SCB, set_state SOCK_CB_CLOSED c)
    | _ => (TCP_OP_OK, c)
    end
  else (TCP_OP_OK, c).

Definition check_ack (c : sock_cb) (flg ack seq sndwnd : Z) : tcp_op * sock_cb :=
  if negb (TCP_FLG_ISSET flg TCP_FLG_ACK) then (TCP_OP_ERR, c)
  else
    let una := snd_unack (snd c) in
    let nxt := snd_nxt_seq (snd c) in
    let is_valid_nxtack := (una <? ack) && (ack <=? nxt) in
    let is_old_ack := ack <? una in
    let is_future_ack := nxt <? ack in
    match state c with
    | SOCK_CB_SYN_RCVD =>
        if is_valid_nxtack then (TCP_OP_OK, set_slocked false (set_state SOCK_CB_ESTAB c))
        else (TCP_OP_SND_RST, c)
    | SOCK_CB_ESTAB | SOCK_CB_FIN_WAIT_1 | SOCK_CB_FIN_WAIT_2 | SOCK_CB_CLOSE_WAIT | SOCK_CB_CLOSING =>
        if negb is_valid_nxtack && is_old_ack then (TCP_OP_ERR, c)
        else if negb is_valid_nxtack && is_future_ack then (TCP_OP_SND_ACK, c)
        else
          let c1 :=
            if is_valid_nxtack then
              let c0 := set_snd_unack ack c in
              if (snd_wl1 (snd c) <? seq) || ((snd_wl1 (snd c) =? seq) && (snd_wl2 (snd c) <=? ack))
              then set_snd_wnd sndwnd seq ack c0 else c0
            else c in
          match state c1 with
          | SOCK_CB_FIN_WAIT_1 => (TCP_OP_OK, set_state SOCK_CB_FIN_WAIT_2 c1)
          | SOCK_CB_CLOSING => (TCP_OP_CLOSE_SCB, set_state SOCK_CB_CLOSED c1)
          | _ => (TCP_OP_OK, c1)
          end
    | SOCK_CB_LAST_ACK => (TCP_OP_CLOSE_SCB, set_state SOCK_CB_CLOSED c)
    | _ => (TCP_OP_OK, c)
    end.

Definition check_syn (c : sock_cb) (flg : Z) : tcp_op :=
  match state c with
  | SOCK_CB_SYN_RCVD | SOCK_CB_ESTAB | SOCK_CB_FIN_WAIT_1 | SOCK_CB_FIN_WAIT_2
  | SOCK_CB_CLOSE_WAIT | SOCK_CB_CLOSING | SOCK_CB_LAST_ACK | SOCK_CB_TIME_WAIT =>
      if TCP_FLG_ISSET flg TCP_FLG_SYN then TCP_OP_SND_RST else TCP_OP_OK
  | _ => TCP_OP_OK
  end.

Definition check_text (c : sock_cb) (seq datalen : Z) : tcp_op * sock_cb :=
  match state c with
  | SOCK_CB_ESTAB | SOCK_CB_FIN_WAIT_1 | SOCK_CB_FIN_WAIT_2 =>
      if (0 <? datalen) && (rcv_nxt_seq (rcv c) =? seq) then
        if datalen <? rcv_wnd (rcv c) then
          (TCP_OP_TXT_OK, set_rcv_wnd (rcv_wnd (rcv c) - datalen)
                            (set_rcv_nxt (rcv_nxt_seq (rcv c) + datalen) c))
        else (TCP_OP_RETRANS, c)
      else (TCP_OP_OK, c)
  | _ => (TCP_OP_ERR, c)
  end.

Definition check_fin (c : sock_cb) (flg : Z) : tcp_op * sock_cb :=
  if TCP_FLG_ISSET flg TCP_FLG_FIN then
    match state c with
    | SOCK_CB_SYN_RCVD | SOCK_CB_ESTAB =>
        (TCP_OP_SND_ACK, set_state SOCK_CB_CLOSE_WAIT (set_rcv_nxt (rcv_nxt_seq (rcv c) + 1) c))
    | SOCK_CB_FIN_WAIT_1 | SOCK_CB_FIN_WAIT_2 =>
        (TCP_OP_CLOSE_SCB, set_rcv_nxt (rcv_nxt_seq (rcv c) + 1) c)
    | _ => (TCP_OP_ERR, c)
    end
  else (TCP_OP_OK, c).

(** [m->len = datalen; m->params.tcp.flg = tcphdr->flg;] *)
Definition text_mbuf (m : mbuf) (datalen flg : Z) : mbuf :=
  mkmbuf (raddr m) (next m) (head m) datalen (mdata m)
    (mkparams (sndnxt (params m)) flg (Mbuf.datalen (params m))) (tcphdr m).

Definition tcp_recv_core (m : mbuf) (l : Z) : M tst tcp_op :=
  c ← get_scb;
  let h := seg_header m in
  let ack := ntohl (th_ack h) in
  let seq := ntohl (th_seq h) in
  let flg := th_flg h in
  let datalen := TCP_DATA_LEN h l in
  if negb (is_seq_valid (rcv_wnd (rcv c)) (rcv_nxt_seq (rcv c)) seq datalen) then
    (if negb (TCP_FLG_ISSET flg TCP_FLG_RST) then send_ack else ret tt);;
    ret TCP_OP_ERR
  else
    let '(r, c1) := check_rst c flg in
    put_scb c1;;
    match r with
    | TCP_OP_CLOSE_SCB => ret TCP_OP_CLOSE_SCB
    | TCP_OP_ERR => ret TCP_OP_ERR
    | _ =>
        match check_syn c1 flg with
        | TCP_OP_SND_RST => tcp_ctl TCP_FLG_RST ack seq;; ret TCP_OP_CLOSE_SCB
        | _ =>
            let '(a, c2) := check_ack c1 flg ack seq (ntohl (th_wnd h)) in
            put_scb c2;;
            match a with
            | TCP_OP_CLOSE_SCB => ret TCP_OP_CLOSE_SCB
            | TCP_OP_SND_RST =>
                tcp_ctl TCP_FLG_RST (snd_nxt_seq (snd c2)) (rcv_nxt_seq (rcv c2));;
                ret TCP_OP_ERR
            | TCP_OP_ERR => ret TCP_OP_ERR
            | TCP_OP_SND_ACK => send_ack;; ret TCP_OP_ERR
            | _ =>
                let '(t, c3) := check_text c2 seq datalen in
                put_scb c3;;
                match t with
                | TCP_OP_ERR => ret TCP_OP_ERR
                | TCP_OP_TXT_OK =>
                    upd (push_to_scb_rxq (text_mbuf m datalen flg));;
                    send_ack;;
                    ret TCP_OP_OK
                | _ =>
                    let '(fn, c4) := check_fin c3 flg in
                    put_scb c4;;
                    match fn with
                    | TCP_OP_RETRANS => send_ack;; ret TCP_OP_OK
                    | TCP_OP_CLOSE_SCB => send_ack;; ret TCP_OP_CLOSE_SCB
                    | TCP_OP_SND_ACK => send_ack;; ret TCP_OP_ERR
                    | _ => ret TCP_OP_FREE_MBUF
                    end
                end
            end
        end
    end.
End local.

(** ** The whole of [tcp_recv]

    The state of the protocol: the table of control blocks, the ports, what was
    sent, and the files that were freed. *)

Record nst := mknst {
  ntab : scbtab;
  nports : ports;
  nout : list (mbuf * Z);
  nfreed : list positive }.

(** Run code on the control block [x]. *)
Definition on_scb {A} (x : positive) (k : M tst A) : M nst A := fun s =>
  match hheap (ntab s) !! x with
  | None => Undef
  | Some c =>
      let back t := mknst (hupd x (fun _ => scb t) (ntab s)) (nports s) (out t) (nfreed s) in
      match k (mktst c (nout s)) with
      | Ok a t => Ok a (back t)
      | Panic msg => Panic msg
      | Sleep t => Sleep (back t)
      | OutOfFuel => OutOfFuel
      | Undef => Undef
      end
  end.

Definition on_tab {A} (k : M scbtab A) : M nst A := fun s =>
  match k (ntab s) with
  | Ok a t => Ok a (mknst t (nports s) (nout s) (nfreed s))
  | Panic msg => Panic msg
  | Sleep t => Sleep (mknst t (nports s) (nout s) (nfreed s))
  | OutOfFuel => OutOfFuel
  | Undef => Undef
  end.

Definition on_ports {A} (k : M ports A) : M nst A := fun s =>
  match k (nports s) with
  | Ok a t => Ok a (mknst (ntab s) t (nout s) (nfreed s))
  | Panic msg => Panic msg
  | Sleep t => Sleep (mknst (ntab s) t (nout s) (nfreed s))
  | OutOfFuel => OutOfFuel
  | Undef => Undef
  end.

(** [free_sock_cb]: the file is freed, the packets not yet sent are dropped, the
    port is released and the block unlinked. *)
Definition free_sock_cb (x : positive) : M nst unit :=
  c ← on_scb x get_scb;
  match sfile c with
  | Some fl => modify (fun s => mknst (ntab s) (nports s) (nout s) (nfreed s ++ [fl]))
  | None => ret tt
  end;;
  on_scb x (upd (fun c => set_queues [] (rxq c) c));;
  on_ports (release_sport (sport c));;
  on_tab (unlink_sock_cb x).

(** The packet after its TCP header was pulled. *)
Definition tcp_pulled (m : mbuf) : option (Z * mbuf) :=
  match mbufpull m TCP_HDR with
  | (None, _) => None
  | (Some p, m1) => Some (p, mkmbuf (raddr m1) (next m1) (head m1) (len m1) (mdata m1) (params m1) (Some p))
  end.

Section recv.
Context (local_ip : Z).

Definition tcp_recv (m : mbuf) (l : Z) (ih : ipv4) : M nst unit :=
  match tcp_pulled m with
  | None => ret tt
  | Some (p, m1) =>
      let h := seg_header m1 in
      let ra := ntohl (ip_src ih) in
      let sp := ntohs (th_dport h) in
      let dp := ntohs (th_sport h) in
      if negb (tcp_checksum (ip_src ih) (ip_dst ih) (ip_p ih)
                 (sub_bytes (Z.to_nat p) (Z.to_nat l) (mdata m1)) l =? 0) then ret tt
      else
        o ← on_tab (get_sock_cb sp ra dp);
        match o with
        | None => ret tt
        | Some x =>
            c ← on_scb x get_scb;
            if negb (bool_decide (state c = SOCK_CB_LISTEN)) &&
               negb (bool_decide (state c = SOCK_CB_CLOSED)) && negb (dport c =? dp) then ret tt
            else
              match state c with
              | SOCK_CB_CLOSED => ret tt
              | SOCK_CB_LISTEN => on_scb x (tcp_recv_listen local_ip m1 ra dp);; ret tt
              | SOCK_CB_SYN_SENT => on_scb x (tcp_recv_syn_sent local_ip m1);; ret tt
              | _ =>
                  r ← on_scb x (tcp_recv_core local_ip m1 l);
                  match r with
                  | TCP_OP_CLOSE_SCB => free_sock_cb x
                  | _ => ret tt
                  end
              end
        end
  end.
End recv.

(** ** Sending never fails for want of headroom *)

Section props.
Context (local_ip : Z).

Lemma new_mbuf_ok : mbuf_ok new_mbuf.
Proof.
  unfold mbuf_ok, new_mbuf, MBUF_SIZE, ETH_MAX_SIZE. cbn [head len mdata].
  rewrite length_replicate, Z2Nat.id by done. lia.
Qed.

(** A packet with room for the header is sent; the block does not change. *)
Lemma send_core_runs m ra sp dp sq ak wnd flg pl s Q :
  TCP_HDR <= head m ->
  (forall p, Q tt (mktst (scb s) (out s ++ [(p, ra)]))) ->
  runs (tcp_send_core local_ip m ra sp dp sq ak wnd flg pl) s Q.
Proof.
  intros Hh HQ. unfold tcp_send_core, mbufpush.
  destruct (Z.ltb_spec (head m - TCP_HDR) 0); [unfold TCP_HDR in *; lia|].
  apply runs_modify. apply HQ.
Qed.

Lemma ctl_runs flg sq ak s Q :
  (forall p, Q tt (mktst (scb s) (out s ++ [(p, sraddr (scb s))]))) ->
  runs (tcp_ctl local_ip flg sq ak) s Q.
Proof.
  intros HQ. unfold tcp_ctl, get_scb. apply runs_bind, runs_gets.
  apply send_core_runs; [|done]. unfold TCP_HDR, new_mbuf, ETH_MAX_SIZE. simpl. lia.
Qed.

Lemma send_ack_runs s Q :
  (forall p, Q tt (mktst (scb s) (out s ++ [(p, sraddr (scb s))]))) ->
  runs (send_ack local_ip) s Q.
Proof. intros HQ. unfold send_ack, get_scb. apply runs_bind, runs_gets. by apply ctl_runs. Qed.

(** ** The stream that is delivered *)

(** The bytes that wait for the reader. *)
Definition delivered (c : sock_cb) : bytes := concat (map payload (rxq c)).

(** States in which segment text is accepted, or will be. *)
Definition receiving (st : sock_cb_state) : bool :=
  match st with
  | SOCK_CB_SYN_RCVD | SOCK_CB_ESTAB | SOCK_CB_FIN_WAIT_1 | SOCK_CB_FIN_WAIT_2 => true
  | _ => false
  end.

(** What was received is a prefix of the stream that the peer sends from its
    initial sequence number [irs] on, and the next byte expected is the one
    after it. *)
Definition stream_inv (irs : Z) (stream : bytes) (c : sock_cb) : Prop :=
  delivered c `prefix_of` stream /\
  (receiving (state c) = true ->
   rcv_nxt_seq (rcv c) = u32 (irs + 1 + Z.of_nat (length (delivered c)))).

(** The text of a segment is the part of the stream at its sequence number. *)
Definition seg_carries (irs : Z) (stream : bytes) (m : mbuf) (l : Z) : Prop :=
  let h := seg_header m in
  let dl := TCP_DATA_LEN h l in
  let text := payload (text_mbuf m dl (th_flg h)) in
  Z.of_nat (length text) = dl /\
  text = sub_bytes (Z.to_nat (u32 (ntohl (th_seq h) - irs - 1))) (Z.to_nat dl) stream.

(** Fields of the block that the checks leave alone. *)
Definition same_rx (c c' : sock_cb) : Prop := rxq c' = rxq c /\ rcv_nxt_seq (rcv c') = rcv_nxt_seq (rcv c).

Lemma check_rst_spec c flg r c1 :
  check_rst c flg = (r, c1) -> same_rx c c1 /\ (r = TCP_OP_CLOSE_SCB \/ (r = TCP_OP_OK /\ c1 = c)).
Proof.
  unfold check_rst, same_rx. destruct (TCP_FLG_ISSET flg TCP_FLG_RST);
    [destruct (state c)|]; intros [= <- <-]; auto.
Qed.

Lemma check_ack_spec c flg ack seq w r c1 :
  check_ack c flg ack seq w = (r, c1) ->
  same_rx c c1 /\ (r = TCP_OP_CLOSE_SCB \/ (receiving (state c1) = true -> receiving (state c) = true)) /\
  (r = TCP_OP_OK \/ r = TCP_OP_ERR \/ r = TCP_OP_CLOSE_SCB \/ r = TCP_OP_SND_RST \/ r = TCP_OP_SND_ACK).
Proof.
  unfold check_ack, same_rx. destruct (TCP_FLG_ISSET flg TCP_FLG_ACK); cbn [negb];
    [|intros [= <- <-]; auto 10].
  destruct (state c) eqn:Es; repeat case_match; intros [= <- <-]; simpl in *;
    rewrite ?Es in *; try discriminate; auto 10.
Qed.

Lemma prefix_extend (d stream : bytes) k :
  d `prefix_of` stream -> d ++ sub_bytes (length d) k stream `prefix_of` stream.
Proof.
  intros [r ->]. unfold sub_bytes. rewrite drop_app_length. exists (drop k r).
  rewrite <-app_assoc. f_equal. by rewrite take_drop.
Qed.

Lemma stream_offset irs n : 0 <= n < 2 ^ 32 -> u32 (u32 (irs + 1 + n) - irs - 1) = n.
Proof.
  intros Hn. unfold u32. replace (wrap 32 (irs + 1 + n) - irs - 1) with (wrap 32 (irs + 1 + n) - (irs + 1)) by lia.
  rewrite wrap_sub_l. replace (irs + 1 + n - (irs + 1)) with n by lia. by apply wrap_small.
Qed.

(** Accepting the text of the next segment. *)
Lemma stream_accept irs stream c m l :
  Z.of_nat (length stream) < 2 ^ 32 -> stream_inv irs stream c -> seg_carries irs stream m l ->
  receiving (state c) = true -> rcv_nxt_seq (rcv c) = ntohl (th_seq (seg_header m)) ->
  let dl := TCP_DATA_LEN (seg_header m) l in
  stream_inv irs stream (push_to_scb_rxq (text_mbuf m dl (th_flg (seg_header m)))
    (set_rcv_wnd (rcv_wnd (rcv c) - dl) (set_rcv_nxt (rcv_nxt_seq (rcv c) + dl) c))).
Proof.
  intros Hs [Hp Hn] Hc Hr Hseq dl. specialize (Hn Hr).
  unfold seg_carries in Hc. cbv zeta in Hc. fold dl in Hc. destruct Hc as [Hl Ht].
  set (text := payload (text_mbuf m dl (th_flg (seg_header m)))) in *.
  assert (Z.of_nat (length (delivered c)) < 2 ^ 32) as Hd
    by (apply prefix_length in Hp; lia).
  rewrite <-Hseq, Hn, stream_offset, Nat2Z.id in Ht by lia.
  assert (delivered (push_to_scb_rxq (text_mbuf m dl (th_flg (seg_header m)))
    (set_rcv_wnd (rcv_wnd (rcv c) - dl) (set_rcv_nxt (rcv_nxt_seq (rcv c) + dl) c))) =
    delivered c ++ text) as E.
  { unfold delivered. simpl. rewrite map_app, concat_app. simpl. by rewrite app_nil_r. }
  split; rewrite E.
  - rewrite Ht. by apply prefix_extend.
  - intros _. simpl. rewrite Hn. unfold u32. rewrite wrap_add_l, length_app. f_equal. lia.
Qed.

Lemma same_rx_inv irs stream c c' :
  stream_inv irs stream c -> same_rx c c' ->
  (receiving (state c') = true -> receiving (state c) = true) -> stream_inv irs stream c'.
Proof.
  intros [Hp Hn] [E1 E2] Hr. unfold stream_inv, delivered. rewrite E1, E2. split; [done|].
  intros H. by apply Hn, Hr.
Qed.

Lemma same_rx_delivered c c' : same_rx c c' -> delivered c' = delivered c.
Proof. intros [E _]. unfold delivered. by rewrite E. Qed.

Lemma check_syn_cases c flg : check_syn c flg = TCP_OP_SND_RST \/ check_syn c flg = TCP_OP_OK.
Proof. unfold check_syn. destruct (state c), (TCP_FLG_ISSET flg TCP_FLG_SYN); auto. Qed.

Lemma check_fin_spec c flg r c1 :
  check_fin c flg = (r, c1) ->
  rxq c1 = rxq c /\
  ((r = TCP_OP_CLOSE_SCB) \/ receiving (state c1) = false \/ c1 = c).
Proof.
  unfold check_fin. destruct (TCP_FLG_ISSET flg TCP_FLG_FIN);
    [destruct (state c)|]; intros [= <- <-]; auto.
Qed.

(** What one segment may do to the delivered stream. *)
Definition stream_step irs stream (c : sock_cb) (op : tcp_op) (s : tst) : Prop :=
  delivered c `prefix_of` delivered (scb s) /\ delivered (scb s) `prefix_of` stream /\
  (op = TCP_OP_CLOSE_SCB \/ stream_inv irs stream (scb s)).

Lemma step_same irs stream c c' op o :
  stream_inv irs stream c -> same_rx c c' ->
  (op = TCP_OP_CLOSE_SCB \/ (receiving (state c') = true -> receiving (state c) = true)) ->
  stream_step irs stream c op (mktst c' o).
Proof.
  intros Hi Hs Hr. unfold stream_step. simpl. rewrite (same_rx_delivered _ _ Hs).
  split; [done|]. split; [apply Hi|]. destruct Hr as [|Hr]; [by left|right]. by eapply same_rx_inv.
Qed.

(** The part of [tcp_recv_core] after the ACK field was found in order. *)
Lemma recv_text_runs irs stream c c2 m l flg ofs Q :
  Z.of_nat (length stream) < 2 ^ 32 -> stream_inv irs stream c -> seg_carries irs stream m l ->
  same_rx c c2 -> (receiving (state c2) = true -> receiving (state c) = true) ->
  flg = th_flg (seg_header m) ->
  (forall op s, stream_step irs stream c op s -> Q op s) ->
  runs (let '(t, c3) := check_text c2 (ntohl (th_seq (seg_header m))) (TCP_DATA_LEN (seg_header m) l) in
        put_scb c3;;
        match t with
        | TCP_OP_ERR => ret TCP_OP_ERR
        | TCP_OP_TXT_OK =>
            upd (push_to_scb_rxq (text_mbuf m (TCP_DATA_LEN (seg_header m) l) flg));;
            send_ack local_ip;;
            ret TCP_OP_OK
        | _ =>
            let '(fn, c4) := check_fin c3 flg in
            put_scb c4;;
            match fn with
            | TCP_OP_RETRANS => send_ack local_ip;; ret TCP_OP_OK
            | TCP_OP_CLOSE_SCB => send_ack local_ip;; ret TCP_OP_CLOSE_SCB
            | TCP_OP_SND_ACK => send_ack local_ip;; ret TCP_OP_ERR
            | _ => ret TCP_OP_FREE_MBUF
            end
        end) (mktst c2 ofs) Q.
Proof.
  intros Hlen Hi Hc Hs Hr -> HQ. set (dl := TCP_DATA_LEN (seg_header m) l).
  pose proof (same_rx_inv _ _ _ _ Hi Hs Hr) as Hi2.
  assert (forall r c4 o op, check_fin c2 (th_flg (seg_header m)) = (r, c4) ->
            (r = TCP_OP_CLOSE_SCB -> op = TCP_OP_CLOSE_SCB) -> stream_step irs stream c op (mktst c4 o)) as Hfin.
  { intros r c4 o op [E Hcase]%check_fin_spec Hop. unfold stream_step. simpl.
    assert (delivered c4 = delivered c2) as Ed by (unfold delivered; by rewrite E).
    rewrite Ed, (same_rx_delivered _ _ Hs). split; [done|]. split; [apply Hi|].
    destruct Hcase as [->|[Hf| ->]]; [left; by apply Hop|right|by right].
    unfold stream_inv. rewrite Ed. split; [apply Hi2|congruence]. }
  assert (forall o, runs (let '(fn, c4) := check_fin c2 (th_flg (seg_header m)) in
            put_scb c4;;
            match fn with
            | TCP_OP_RETRANS => send_ack local_ip;; ret TCP_OP_OK
            | TCP_OP_CLOSE_SCB => send_ack local_ip;; ret TCP_OP_CLOSE_SCB
            | TCP_OP_SND_ACK => send_ack local_ip;; ret TCP_OP_ERR
            | _ => ret TCP_OP_FREE_MBUF
            end) (mktst c2 o) Q) as Htail.
  { intros o. destruct (check_fin c2 (th_flg (seg_header m))) as [fn c4] eqn:Ef.
    apply runs_bind, runs_modify. simpl.
    destruct fn; try (apply runs_ret, HQ; by eapply Hfin);
      apply runs_bind, send_ack_runs; intros p; apply runs_ret, HQ; by eapply Hfin. }
  unfold check_text. destruct (state c2) eqn:Es2;
    try (apply runs_bind, runs_modify, runs_ret, HQ, step_same; [done|done|right; by rewrite Es2]).
  all: destruct ((0 <? dl) && (rcv_nxt_seq (rcv c2) =? ntohl (th_seq (seg_header m)))) eqn:Ec;
    [|apply runs_bind, runs_modify, Htail].
  all: destruct (dl <? rcv_wnd (rcv c2)); [|apply runs_bind, runs_modify, Htail].
  all: apply andb_true_iff in Ec as [_ Eq%Z.eqb_eq].
  all: apply runs_bind, runs_modify, runs_bind, runs_modify, runs_bind, send_ack_runs; intros p; apply runs_ret, HQ.
  all: pose proof (stream_accept irs stream c2 m l Hlen Hi2 Hc ltac:(by rewrite Es2) Eq) as Ha; simpl.
  all: split; [|split; [apply Ha|by right]]; rewrite <-(same_rx_delivered _ _ Hs).
  all: unfold delivered; simpl; rewrite map_app, concat_app; by apply prefix_app_r.
Qed.


(** ** Segments *)

Lemma tcp_parse_bytes h :
  0 <= th_sport h < 2 ^ 16 -> 0 <= th_dport h < 2 ^ 16 -> 0 <= th_seq h < 2 ^ 32 ->
  0 <= th_ack h < 2 ^ 32 -> 0 <= th_wnd h < 2 ^ 16 -> 0 <= th_sum h < 2 ^ 16 ->
  0 <= th_urg h < 2 ^ 16 -> tcp_parse (tcp_bytes h) = h.
Proof.
  destruct h. simpl. intros. unfold tcp_parse, tcp_bytes, get_le, sub_bytes.
  cbn [th_sport th_dport th_seq th_ack th_off th_flg th_wnd th_sum th_urg le_enc app drop take].
  rewrite !le_dec1, !le_dec2, !le_dec4 by done. done.
Qed.

Lemma tcp_header_parse sp dp sq ak wnd flg sum :
  0 <= sum < 2 ^ 16 ->
  tcp_parse (tcp_bytes (tcp_header sp dp sq ak wnd flg sum)) = tcp_header sp dp sq ak wnd flg sum.
Proof.
  intros Hs. apply tcp_parse_bytes; simpl; try apply bswaps_range; try apply bswapl_range; try lia.
  destruct (TCP_FLG_ISSET flg TCP_FLG_ACK); [apply bswapl_range|lia].
Qed.

Lemma pseudo_range src dst p l :
  is_byte p -> 0 <= l < 2 ^ 16 -> 0 <= tcp_pseudo src dst p l < 2 ^ 31 - 65536.
Proof.
  intros Hp Hl. unfold tcp_pseudo, ntohs, is_byte in *.
  pose proof (bswaps_range (Z.land (Z.shiftr src 16) 65535)). pose proof (bswaps_range (Z.land src 65535)).
  pose proof (bswaps_range (Z.land (Z.shiftr dst 16) 65535)). pose proof (bswaps_range (Z.land dst 65535)).
  lia.
Qed.

(** The header that a segment of [tcp_send_core] carries, its checksum filled
    in: the sum over header and payload is zero. *)
Lemma tcp_header_cksum src dst sp dp sq ak wnd flg (pl : bytes) :
  is_byte flg -> Forall is_byte pl -> Z.of_nat (length pl) + 20 < 2 ^ 16 ->
  let l := Z.of_nat (length pl) + 20 in
  let ck := tcp_checksum src dst IPPROTO_TCP (tcp_bytes (tcp_header sp dp sq ak wnd flg 0) ++ pl) l in
  tcp_checksum src dst IPPROTO_TCP (tcp_bytes (tcp_header sp dp sq ak wnd flg (htons ck)) ++ pl) l = 0.
Proof.
  intros Hf Hpl Hlen l ck.
  set (h0 := tcp_header sp dp sq ak wnd flg 0).
  set (pre := le_enc 2 (th_sport h0) ++ le_enc 2 (th_dport h0) ++ le_enc 4 (th_seq h0) ++
              le_enc 4 (th_ack h0) ++ [th_off h0; th_flg h0] ++ le_enc 2 (th_wnd h0)).
  assert (forall s, tcp_bytes (tcp_header sp dp sq ak wnd flg s) ++ pl =
                    pre ++ le_enc 2 s ++ ([0; 0] ++ pl)) as E by done.
  assert (Forall is_byte pre) as Hpre.
  { subst pre. change [th_off h0; th_flg h0] with [80; flg].
    repeat apply Forall_app_2; try apply le_enc_byte. all_bytes. }
  assert (0 <= ck < 2 ^ 16) as Hck by apply u16_range.
  unfold tcp_checksum in *. rewrite E, htons_bytes by done. unfold ck. fold h0. unfold h0. rewrite E.
  apply (cksum16_zero pre ([0; 0] ++ pl)); try done.
  - apply Forall_app_2; [all_bytes|done].
  - by exists 8%nat.
  - rewrite !length_app. simpl. lia.
  - apply pseudo_range; [unfold is_byte, IPPROTO_TCP; lia|lia].
Qed.

(** The packet of a segment: header and payload, as [tcp_send_core] hands it to
    [ip_send]. *)
Lemma send_core_packet m ra sp dp sq ak wnd flg s :
  mbuf_ok m -> TCP_HDR <= head m -> is_byte flg -> Forall is_byte (payload m) ->
  len m + TCP_HDR < 2 ^ 16 ->
  exists m3 ck, tcp_send_core local_ip m ra sp dp sq ak wnd flg (len m) s =
      Ok tt (mktst (scb s) (out s ++ [(m3, ra)])) /\
    mbuf_ok m3 /\ head m3 = head m - TCP_HDR /\ len m3 = len m + TCP_HDR /\ 0 <= ck < 2 ^ 16 /\
    payload m3 = tcp_bytes (tcp_header sp dp sq ak wnd flg ck) ++ payload m /\
    tcp_checksum (htonl local_ip) (htonl ra) IPPROTO_TCP (payload m3) (len m3) = 0.
Proof.
  intros Hok Hh Hf Hpb Hl. unfold TCP_HDR in *. pose proof (length_payload m Hok) as Hpl.
  set (hb := fun sum => tcp_bytes (tcp_header sp dp sq ak wnd flg sum)).
  destruct (push_write_pull m (hb 0) 20) as (m1 & E1 & Hl1 & Hok1 & Hh1 & _); [done|done|lia|].
  assert (forall sum, mbuf_ok (mwrite (head m - 20) (hb sum) m1) /\
            payload (mwrite (head m - 20) (hb sum) m1) = hb sum ++ payload m) as Hw.
  { intros sum. destruct (mbuf_push_pull m (hb sum) Hok) as (m1' & E1' & Hok' & _ & Hp' & _).
    - change (length (hb sum)) with 20%nat. lia.
    - change (Z.of_nat (length (hb sum))) with 20 in E1', Hok', Hp'. rewrite E1 in E1'.
      by injection E1' as <-. }
  pose proof Hok as (O1 & O2 & O3 & _). unfold MBUF_SIZE in O3.
  assert (sub_bytes (Z.to_nat (head m - 20)) (Z.to_nat (u16 (len m + 20)))
            (mdata (mwrite (head m - 20) (hb 0) m1)) = hb 0 ++ payload m) as Eseg.
  { destruct (Hw 0) as [_ <-]. unfold payload. rewrite Hh1, u16_small by lia.
    change (len (mwrite (head m - 20) (hb 0) m1)) with (len m1). by rewrite Hl1. }
  unfold tcp_send_core, TCP_HDR. rewrite E1. cbv zeta. fold (hb 0). rewrite Eseg.
  eexists _, _. split; [reflexivity|]. fold (hb 0).
  rewrite u16_small by lia.
  set (ck := tcp_checksum _ _ _ _ _). fold (hb (htons ck)).
  destruct (Hw (htons ck)) as [Hok3 Hp3].
  split; [done|]. split; [simpl; by rewrite <-Hh1|]. split; [simpl; lia|].
  split; [apply bswaps_range|]. split; [done|].
  rewrite Hp3. simpl len. rewrite Hl1. unfold ck.
  pose proof (tcp_header_cksum (htonl local_ip) (htonl ra) sp dp sq ak wnd flg (payload m) Hf Hpb) as Hck.
  cbv zeta in Hck. rewrite Hpl in Hck. apply Hck. lia.
Qed.

(** a segment that [tcp_send_core] sends is accepted at its destination:
    on the machine with address [ra], [ip_recv] delivers it to TCP, the header
    that [tcp_recv] reads holds the ports, sequence and acknowledgement number
    and flags that were sent, the checksum over pseudo header, header and
    payload is zero, and the payload is the one that was sent. *)
Theorem tcp_segment_accepted m ra sp dp sq ak wnd flg s :
  mbuf_ok m -> TCP_HDR + IP_HDR <= head m -> is_byte flg -> Forall is_byte (payload m) ->
  len m + TCP_HDR + IP_HDR < 2 ^ 16 -> 0 <= local_ip < 2 ^ 32 -> 0 <= ra < 2 ^ 32 ->
  exists m3 mi m2 ih p m4 ck,
    tcp_send_core local_ip m ra sp dp sq ak wnd flg (len m) s =
      Ok tt (mktst (scb s) (out s ++ [(m3, ra)])) /\
    ip_send_hdr local_ip m3 IPPROTO_TCP ra = Some mi /\
    ip_recv ra mi = IpTcp m2 (len m + TCP_HDR) ih /\
    tcp_pulled m2 = Some (p, m4) /\
    seg_header m4 = tcp_header sp dp sq ak wnd flg ck /\
    tcp_checksum (ip_src ih) (ip_dst ih) (ip_p ih)
      (sub_bytes (Z.to_nat p) (Z.to_nat (len m + TCP_HDR)) (mdata m4)) (len m + TCP_HDR) = 0 /\
    payload m4 = payload m.
Proof.
  intros Hok Hh Hf Hpb Hl Hip Hra. unfold TCP_HDR, IP_HDR in *. pose proof Hok as (_ & O2 & _).
  destruct (send_core_packet m ra sp dp sq ak wnd flg s)
    as (m3 & ck & E1 & Hok3 & Hh3 & Hl3 & Hck & Hp3 & Hsum); try done; unfold TCP_HDR in *; try lia.
  destruct (ip_send_recv_ok local_ip m3 IPPROTO_TCP ra)
    as (mi & m2 & ih & Es & _ & Er & Hp2 & Hok2 & Hl2 & _ & Hh2 & Hi1 & Hi2 & Hi3);
    try done; unfold IP_HDR; try lia.
  set (hb := tcp_bytes (tcp_header sp dp sq ak wnd flg ck)) in *.
  destruct (push_write_pull m hb 20) as (m1 & Ep & Hl1 & Hok1 & Hh1 & Hpull); [done|done|lia|].
  assert (payload (mwrite (head m - 20) hb m1) = hb ++ payload m) as Hpm.
  { destruct (mbuf_push_pull m hb Hok) as (m1' & E1' & _ & _ & Hp' & _).
    - change (length hb) with 20%nat. lia.
    - change (Z.of_nat (length hb)) with 20 in E1', Hp'. rewrite Ep in E1'. by injection E1' as <-. }
  destruct (Hpull m2) as (m4 & E4 & Hok4 & Hl4 & Hp4 & Hraw); [lia|lia|done|congruence|].
  assert (mdata m4 = mdata m2) as Ed.
  { unfold mbufpull in E4. destruct (_ <? _); [done|]. by injection E4 as _ <-. }
  rewrite Hl3 in Er. change (length hb) with 20%nat in Hraw.
  exists m3, mi, m2, ih, (head m - 20). eexists. exists ck.
  split; [done|]. split; [done|]. split; [exact Er|].
  unfold tcp_pulled, TCP_HDR. rewrite E4. split; [reflexivity|].
  split; [unfold seg_header; simpl; rewrite Hraw; by apply tcp_header_parse|].
  split; [|exact Hp4].
  simpl. rewrite Hi1, Hi2, Hi3, Ed, <-Hsum, <-Hp2. f_equal; [|lia].
  unfold payload. rewrite Hl2, Hh2, Hh3, Hl3. done.
Qed.

Lemma new_mbuf_payload : payload new_mbuf = [].
Proof. reflexivity. Qed.

(** A segment without data, as sent and as the receiver reads its header. *)
Lemma send_core_ctl ra sp dp sq ak wnd flg s :
  is_byte flg ->
  exists m3 p m4 ck, tcp_send_core local_ip new_mbuf ra sp dp sq ak wnd flg 0 s =
      Ok tt (mktst (scb s) (out s ++ [(m3, ra)])) /\
    tcp_pulled m3 = Some (p, m4) /\ seg_header m4 = tcp_header sp dp sq ak wnd flg ck.
Proof.
  intros Hf.
  destruct (send_core_packet new_mbuf ra sp dp sq ak wnd flg s)
    as (m3 & ck & E & (O1 & O2 & O3 & O4) & Hh & Hl & Hck & Hp & _);
    [apply new_mbuf_ok|unfold TCP_HDR, new_mbuf, ETH_MAX_SIZE; simpl; lia|done| |
     unfold TCP_HDR; simpl; lia|].
  { rewrite new_mbuf_payload. constructor. }
  rewrite new_mbuf_payload, app_nil_r in Hp. unfold TCP_HDR, MBUF_SIZE, new_mbuf, ETH_MAX_SIZE in *.
  cbn [head len] in *.
  eexists m3, _, _, ck. split; [exact E|].
  unfold tcp_pulled, mbufpull, TCP_HDR. rewrite Hl. change (0 + 20 <? 20) with false.
  split; [reflexivity|].
  unfold seg_header. cbn [tcphdr mdata set_pos head]. unfold payload in Hp. rewrite Hl in Hp.
  change (Z.to_nat (0 + 20)) with 20%nat in Hp. rewrite Hp. by apply tcp_header_parse.
Qed.
End props.

Lemma ntohl_htonl v : 0 <= v < 2 ^ 32 -> ntohl (htonl v) = v.
Proof. apply htonl_htonl. Qed.

(** the three-way handshake works.  A client block for address
    [sip], port [sp] that connects, and a server block that listens on [sp],
    exchange SYN, SYN+ACK and ACK: the client waits until the SYN+ACK wakes it
    up, then both blocks are established, each one's next sequence number is
    the one the other expects, and the server block is bound to the client's
    address and port. *)
Theorem tcp_handshake cip sip cp sp cf sf :
  let c0 := new_sock_cb cf false sip cp sp SOCK_TCP in
  let s0 := set_state SOCK_CB_LISTEN (new_sock_cb sf false 0 sp 0 SOCK_TCP) in
  exists c1 q1 o1 m1 s1 q2 o2 m2 c2 q3 o3 m3 s2,
    tcp_connect cip false (mktst c0 []) = Sleep (mktst c1 [(q1, sip)]) /\
    tcp_pulled q1 = Some (o1, m1) /\
    tcp_recv_listen sip m1 cip cp (mktst s0 []) = Ok TCP_OP_OK (mktst s1 [(q2, cip)]) /\
    tcp_pulled q2 = Some (o2, m2) /\
    tcp_recv_syn_sent cip m2 (mktst c1 []) = Ok TCP_OP_OK (mktst c2 [(q3, sip)]) /\
    tcp_pulled q3 = Some (o3, m3) /\
    tcp_recv_core sip m3 20 (mktst s1 []) = Ok TCP_OP_FREE_MBUF (mktst s2 []) /\
    slocked c1 = true /\ slocked c2 = false /\
    state c2 = SOCK_CB_ESTAB /\ state s2 = SOCK_CB_ESTAB /\
    rcv_nxt_seq (rcv s2) = snd_nxt_seq (snd c2) /\ rcv_nxt_seq (rcv c2) = snd_nxt_seq (snd s2) /\
    sraddr s2 = cip /\ dport s2 = cp.
Proof.
  intros c0 s0.
  destruct (send_core_ctl cip sip cp sp 0 0 4096 TCP_FLG_SYN (mktst (set_rcv_wnd 4096 c0) []))
    as (q1 & o1 & m1 & k1 & E1 & P1 & H1); [unfold is_byte, TCP_FLG_SYN; lia|].
  pose (s1' := set_snd_unack 0 (set_snd_nxt 1 (set_snd_init 0 (set_rcv_nxt 1 (set_rcv_init 0
                (set_rcv_wnd 4096 (set_remote cip cp s0))))))).
  destruct (send_core_ctl sip cip sp cp 0 1 4096 (Z.lor TCP_FLG_SYN TCP_FLG_ACK) (mktst s1' []))
    as (q2 & o2 & m2 & k2 & E2 & P2 & H2); [unfold is_byte; change (Z.lor TCP_FLG_SYN TCP_FLG_ACK) with 18; lia|].
  pose (c1 := set_slocked true (set_snd_nxt 1 (set_state SOCK_CB_SYN_SENT (set_rcv_wnd 4096 c0)))).
  pose (c2 := set_slocked false (set_state SOCK_CB_ESTAB (set_snd_unack 1 (set_rcv_init 0 (set_rcv_nxt 1 c1))))).
  destruct (send_core_ctl cip sip cp sp 1 1 4096 TCP_FLG_ACK (mktst c2 []))
    as (q3 & o3 & m3 & k3 & E3 & P3 & H3); [unfold is_byte, TCP_FLG_ACK; lia|].
  exists c1, q1, o1, m1, (set_state SOCK_CB_SYN_RCVD s1'), q2, o2, m2, c2, q3, o3, m3,
    (set_slocked false (set_state SOCK_CB_ESTAB s1')).
  split; [|split; [exact P1|split; [|split; [exact P2|split; [|split; [exact P3|split]]]]]].
  - unfold tcp_connect. mpure.
    change (negb (socktype c0 =? SOCK_TCP)) with false. cbn match.
    do 2 mpure. mrun E1. do 2 mpure. reflexivity.
  - unfold tcp_recv_listen. rewrite H1. mpure.
    change (TCP_FLG_ISSET (th_flg _) TCP_FLG_RST) with false.
    change (TCP_FLG_ISSET (th_flg _) TCP_FLG_ACK) with false.
    change (TCP_FLG_ISSET (th_flg _) TCP_FLG_SYN) with true. cbn match.
    do 8 mpure. mrun E2. reflexivity.
  - unfold tcp_recv_syn_sent. rewrite H2. mpure.
    match goal with |- (if ?b then _ else _) _ = _ => change b with false end. cbn match.
    match goal with |- (if ?b then _ else _) _ = _ => change b with false end. cbn match.
    match goal with |- (if ?b then _ else _) _ = _ => change b with true end. cbn match.
    do 4 mpure.
    match goal with |- bind (if ?b then _ else _) _ _ = _ => change b with true end. cbn match.
    etransitivity; [eapply bind_ok; do 2 mpure; exact E3|]. reflexivity.
  - unfold tcp_recv_core. rewrite H3. reflexivity.
  - repeat split.
Qed.

(** ** The states of a connection *)

Section steps.
Context (local_ip : Z).

(** A call or the arrival of a segment takes a block from [c] to [c'];
    [tcp_recv] chooses the handler by the state. *)
Inductive tcp_step (c : sock_cb) : sock_cb -> Prop :=
| step_listen o r s : tcp_listen (mktst c o) = Ok r s -> tcp_step c (scb s)
| step_accept k o r s : tcp_accept k (mktst c o) = Ok r s -> tcp_step c (scb s)
| step_accept_wait k o s : tcp_accept k (mktst c o) = Sleep s -> tcp_step c (scb s)
| step_connect k o r s : tcp_connect local_ip k (mktst c o) = Ok r s -> tcp_step c (scb s)
| step_connect_wait k o s : tcp_connect local_ip k (mktst c o) = Sleep s -> tcp_step c (scb s)
| step_send m flg o r s : tcp_send local_ip m flg (mktst c o) = Ok r s -> tcp_step c (scb s)
| step_close o r s : tcp_close local_ip (mktst c o) = Ok r s -> tcp_step c (scb s)
| step_recv_listen m ra dp o r s :
    state c = SOCK_CB_LISTEN -> tcp_recv_listen local_ip m ra dp (mktst c o) = Ok r s ->
    tcp_step c (scb s)
| step_recv_syn_sent m o r s :
    state c = SOCK_CB_SYN_SENT -> tcp_recv_syn_sent local_ip m (mktst c o) = Ok r s ->
    tcp_step c (scb s)
| step_recv_core m l o r s :
    state c <> SOCK_CB_CLOSED -> state c <> SOCK_CB_LISTEN -> state c <> SOCK_CB_SYN_SENT ->
    tcp_recv_core local_ip m l (mktst c o) = Ok r s -> tcp_step c (scb s).

(** The states CLOSING and TIME_WAIT are not used, and once a connection is
    established nobody is left waiting on the sleep lock of its block. *)
Definition conn_ok (c : sock_cb) : Prop :=
  state c <> SOCK_CB_CLOSING /\ state c <> SOCK_CB_TIME_WAIT /\
  (state c = SOCK_CB_ESTAB -> slocked c = false).

(** Same state and sleep lock. *)
Definition same_conn (c c' : sock_cb) : Prop := state c' = state c /\ slocked c' = slocked c.

Lemma same_conn_ok c c' : conn_ok c -> same_conn c c' -> conn_ok c'.
Proof. unfold conn_ok, same_conn. intros H [-> ->]. done. Qed.

Lemma send_core_scb m ra sp dp sq ak w flg pl s r s' :
  tcp_send_core local_ip m ra sp dp sq ak w flg pl s = Ok r s' -> scb s' = scb s.
Proof.
  unfold tcp_send_core. destruct (mbufpush m TCP_HDR) as [[p m1]|]; [|done].
  unfold modify. by intros [= _ <-].
Qed.

Lemma ctl_scb flg sq ak s r s' : tcp_ctl local_ip flg sq ak s = Ok r s' -> scb s' = scb s.
Proof. unfold tcp_ctl, get_scb. intros H. minv H. by eapply send_core_scb. Qed.

Lemma send_ack_scb s r s' : send_ack local_ip s = Ok r s' -> scb s' = scb s.
Proof. unfold send_ack, get_scb. intros H. minv H. by eapply ctl_scb. Qed.

Ltac scb_facts :=
  repeat match goal with
  | H : tcp_send_core _ _ _ _ _ _ _ _ _ _ _ = Ok _ _ |- _ => apply send_core_scb in H
  | H : tcp_ctl _ _ _ _ _ = Ok _ _ |- _ => apply ctl_scb in H
  | H : send_ack _ _ = Ok _ _ |- _ => apply send_ack_scb in H
  end; simpl in *.

Lemma send_queue_conn fuel s r s' : send_queue local_ip fuel s = Ok r s' -> same_conn (scb s) (scb s').
Proof.
  revert s r s'. induction fuel as [|fuel IH]; intros s r s' H; [done|].
  cbn [send_queue] in H. apply bind_inv in H as (c & s1 & H1 & H). unfold get_scb, gets in H1. simplify_eq.
  unfold pop_from_scb_txq in H. destruct (txq (scb s1)) as [|m q]; [by minv H|].
  unfold put_scb, upd in H. minv H.
  match goal with H : send_queue _ _ _ = _ |- _ => apply IH in H end.
  scb_facts. unfold same_conn in *. simpl in *.
  match goal with H : scb _ = _ |- _ => rewrite H in * end. done.
Qed.

Lemma acquiresleep_conn k s r :
  tcp_acquiresleep k s = r ->
  match r with
  | Ok _ s' | Sleep s' =>
      state (scb s') = state (scb s) /\ (state (scb s) = SOCK_CB_ESTAB -> slocked (scb s') = slocked (scb s))
  | _ => True
  end.
Proof.
  intros <-. unfold tcp_acquiresleep, get_scb, bind, gets.
  destruct (decide (state (scb s) = SOCK_CB_ESTAB)); [done|].
  destruct (nonblockable (scb s)); [by case_decide|].
  destruct (slocked (scb s)); [done|]. by destruct k.
Qed.

Lemma check_rst_state c flg r c' :
  check_rst c flg = (r, c') ->
  same_conn c c' \/ state c' = SOCK_CB_LISTEN \/ state c' = SOCK_CB_CLOSED.
Proof.
  unfold check_rst, same_conn. destruct (TCP_FLG_ISSET flg TCP_FLG_RST);
    [destruct (state c) eqn:E|]; intros [= <- <-]; simpl; auto.
Qed.

Lemma check_ack_conn c flg ack seq w r c' :
  conn_ok c -> check_ack c flg ack seq w = (r, c') -> conn_ok c'.
Proof.
  unfold check_ack, conn_ok. intros (H1 & H2 & H3).
  destruct (TCP_FLG_ISSET flg TCP_FLG_ACK); cbn [negb]; [|by intros [= <- <-]].
  destruct (state c) eqn:E; repeat case_match; intros [= <- <-]; simpl in *; rewrite ?E in *;
    try done; naive_solver.
Qed.

Lemma check_text_conn c seq dl r c' : check_text c seq dl = (r, c') -> same_conn c c'.
Proof.
  unfold check_text, same_conn. destruct (state c) eqn:E; repeat case_match; intros [= <- <-]; auto.
Qed.

Lemma check_fin_conn c flg r c' : conn_ok c -> check_fin c flg = (r, c') -> conn_ok c'.
Proof.
  unfold check_fin, conn_ok. intros (H1 & H2 & H3).
  destruct (TCP_FLG_ISSET flg TCP_FLG_FIN); [|by intros [= <- <-]].
  destruct (state c) eqn:E; intros [= <- <-]; simpl; rewrite ?E; done.
Qed.

Lemma recv_core_conn m l s r s' :
  conn_ok (scb s) -> tcp_recv_core local_ip m l s = Ok r s' -> conn_ok (scb s').
Proof.
  intros Hc H. unfold tcp_recv_core in H. apply bind_inv in H as (c & s1 & H1 & H).
  unfold get_scb, gets in H1. simplify_eq. cbv zeta in H.
  destruct (is_seq_valid _ _ _ _); cbn [negb] in H.
  2: { minv H; scb_facts; congruence. }
  destruct (check_rst (scb s1) _) as [r1 c1] eqn:E1. unfold put_scb in H.
  apply bind_inv in H as ([] & s2 & H2 & H). unfold modify in H2. simplify_eq.
  assert (conn_ok c1) as Hc1.
  { destruct (check_rst_state _ _ _ _ E1) as [Hs|[Hs|Hs]]; [by eapply same_conn_ok| |];
      unfold conn_ok; rewrite Hs; done. }
  destruct (check_rst_spec _ _ _ _ E1) as [_ [->|[-> ->]]]; [by minv H|].
  destruct (check_syn_cases (scb s1) (th_flg (seg_header m))) as [Es|Es]; rewrite Es in H.
  { minv H. scb_facts. congruence. }
  destruct (check_ack (scb s1) _ _ _ _) as [a c2] eqn:E3.
  apply bind_inv in H as ([] & s3 & H2 & H). unfold modify in H2. simplify_eq. simpl in *.
  pose proof (check_ack_conn _ _ _ _ _ _ _ Hc E3) as Hc2.
  destruct (check_ack_spec _ _ _ _ _ _ _ E3) as (_ & _ & [->|[->|[->|[->| ->]]]]).
  2-5: minv H; scb_facts; congruence.
  destruct (check_text c2 _ _) as [t c3] eqn:E4.
  apply bind_inv in H as ([] & s4 & H2 & H). unfold modify in H2. simplify_eq. simpl in *.
  pose proof (same_conn_ok _ _ Hc2 (check_text_conn _ _ _ _ _ E4)) as Hc3.
  destruct (check_fin c3 (th_flg (seg_header m))) as [fn c4] eqn:E5.
  pose proof (check_fin_conn _ _ _ _ Hc3 E5) as Hc4. unfold upd in H.
  destruct t; destruct fn; minv H; scb_facts; try congruence.
  all: match goal with H : scb _ = _ |- _ => rewrite H end; eapply same_conn_ok; [exact Hc3|done].
Qed.

Lemma connect_conn k s r :
  conn_ok (scb s) -> tcp_connect local_ip k s = r ->
  match r with Ok _ s' | Sleep s' => conn_ok (scb s') | _ => True end.
Proof.
  intros Hc <-. unfold tcp_connect. unfold bind at 1, get_scb at 1, gets at 1.
  destruct (socktype (scb s) =? SOCK_TCP); cbn [negb]; [|done].
  unfold bind at 1, upd at 1, modify. unfold bind at 1, get_scb, gets. cbn [scb].
  unfold bind at 1. destruct (tcp_send_core _ _ _ _ _ _ _ _ _ _ _) as [[] s1| |s1| |] eqn:E; try done.
  apply send_core_scb in E. unfold bind, upd, modify. cbn [scb out].
  match goal with |- match ?t with _ => _ end => pose proof (acquiresleep_conn k _ t eq_refl) as Ha end.
  destruct (tcp_acquiresleep _ _) as [x s2| |s2| |]; try done;
    destruct Ha as [Ha _]; simpl in Ha; unfold conn_ok; rewrite Ha; done.
Qed.

(** The invariant only looks at the state and the lock of the new block. *)
Lemma conn_ok_state c : state c <> SOCK_CB_CLOSING -> state c <> SOCK_CB_TIME_WAIT ->
  (state c = SOCK_CB_ESTAB -> slocked c = false) -> conn_ok c.
Proof. by split. Qed.

Lemma send_conn m flg s r s' :
  conn_ok (scb s) -> tcp_send local_ip m flg s = Ok r s' -> conn_ok (scb s').
Proof.
  intros Hc H. unfold tcp_send, get_scb, upd in H. apply bind_inv in H as (c & s1 & H1 & H).
  unfold gets in H1. simplify_eq. destruct (state (scb s1)) eqn:E; minv H;
    repeat match goal with H : send_queue _ _ _ = _ |- _ => apply send_queue_conn in H end;
    scb_facts; try done; try (by apply conn_ok_state).
  eapply same_conn_ok; [exact Hc|done].
Qed.

Lemma close_conn s r s' :
  conn_ok (scb s) -> tcp_close local_ip s = Ok r s' -> conn_ok (scb s').
Proof.
  intros Hc H. unfold tcp_close, get_scb, upd in H. apply bind_inv in H as (c & s1 & H1 & H).
  unfold gets in H1. simplify_eq.
  destruct (state (scb s1)) eqn:E; try (minv H; scb_facts; first [done|by apply conn_ok_state]).
Qed.

Lemma recv_listen_conn m ra dp s r s' :
  conn_ok (scb s) -> tcp_recv_listen local_ip m ra dp s = Ok r s' -> conn_ok (scb s').
Proof.
  intros Hc H. unfold tcp_recv_listen, get_scb, upd in H. apply bind_inv in H as (c & s1 & H1 & H).
  unfold gets in H1. simplify_eq. cbv zeta in H. minv H; scb_facts;
    first [done|by apply conn_ok_state|congruence].
Qed.

Lemma recv_syn_sent_conn m s r s' :
  conn_ok (scb s) -> tcp_recv_syn_sent local_ip m s = Ok r s' -> conn_ok (scb s').
Proof.
  intros Hc H. unfold tcp_recv_syn_sent, get_scb, upd in H. apply bind_inv in H as (c & s1 & H1 & H).
  unfold gets in H1. simplify_eq. cbv zeta in H.
  minv H; scb_facts;
    repeat match goal with E : scb _ = _ |- _ => rewrite E in *; clear E end;
    first [done|by apply conn_ok_state].
Qed.

(** from a fresh block on, whatever calls are made and segments arrive, a
    connection is never in the states CLOSING or TIME_WAIT (the handling of
    simultaneous close and of the final wait is missing), and a connection that
    is established has released the lock on which [connect] and [accept]
    wait. *)
Theorem tcp_reachable_states fl nb ra sp dp c :
  star tcp_step (new_sock_cb fl nb ra sp dp SOCK_TCP) c -> conn_ok c.
Proof.
  apply star_invariant; [|by split].
  intros a b Ha Hs. destruct Hs as
    [o r s H|k o r s H|k o s H|k o r s H|k o s H|m flg o r s H|o r s H|m ra' dp' o r s Hst H|m o r s Hst H|m l o r s _ _ _ H].
  - unfold tcp_listen, upd in H. minv H. by apply conn_ok_state.
  - apply acquiresleep_conn in H as [H1 H2]. apply conn_ok_state; simpl in *; rewrite ?H1; try apply Ha.
    intros E. rewrite H2 by done. by apply Ha.
  - apply acquiresleep_conn in H as [H1 H2]. apply conn_ok_state; simpl in *; rewrite ?H1; try apply Ha.
    intros E. rewrite H2 by done. by apply Ha.
  - by apply (connect_conn _ (mktst a o) _ Ha) in H.
  - by apply (connect_conn _ (mktst a o) _ Ha) in H.
  - by eapply send_conn in H.
  - by eapply close_conn in H.
  - by eapply recv_listen_conn in H.
  - by eapply recv_syn_sent_conn in H.
  - by eapply recv_core_conn in H.
Qed.
End steps.

(** ** Instances *)

(** An established block that expects byte 101, and a received segment with the
    header [h] and the bytes [t]. *)
Definition wit_conn : sock_cb :=
  set_state SOCK_CB_ESTAB (set_snd_nxt 1 (set_snd_unack 1 (set_rcv_nxt 101
    (new_sock_cb None false 3232244481 8080 50000 SOCK_TCP)))).
Definition wit_seg (h : tcp) (t : bytes) : mbuf :=
  mkmbuf 0 None 20 (Z.of_nat (length t)) (tcp_bytes h ++ t) zero_params (Some 0).
Definition wit_hdr (flg : Z) : tcp := tcp_header 50000 8080 101 1 1000 flg 0.


Lemma tcp_segment_accepted_witness :
  exists m3 p m4 mi m2 ih,
    tcp_send_core 3232244482 wit_packet 3232244483 8080 50000 7 9 100 24 4 (mktst wit_conn []) =
      Ok tt (mktst wit_conn [(m3, 3232244483)]) /\
    ip_send_hdr 3232244482 m3 IPPROTO_TCP 3232244483 = Some mi /\
    ip_recv 3232244483 mi = IpTcp m2 24 ih /\ tcp_pulled m2 = Some (p, m4) /\
    payload m4 = [9; 9; 9; 9].
Proof.
  destruct (tcp_segment_accepted 3232244482 wit_packet 3232244483 8080 50000 7 9 100 24 (mktst wit_conn []))
    as (m3 & mi & m2 & ih & p & m4 & ck & H1 & H2 & H3 & H4 & _ & _ & H5);
    [apply wit_packet_ok|unfold TCP_HDR, IP_HDR; simpl; lia|unfold is_byte; lia| |
     unfold TCP_HDR, IP_HDR; simpl; lia|lia|lia|].
  - change (payload wit_packet) with [9; 9; 9; 9]. all_bytes.
  - exists m3, p, m4, mi, m2, ih. split; [exact H1|]. split; [exact H2|]. split; [exact H3|].
    split; [exact H4|]. rewrite H5. reflexivity.
Defined.

Lemma tcp_reachable_states_witness :
  conn_ok (set_state SOCK_CB_LISTEN (new_sock_cb None false 0 8080 0 SOCK_TCP)).
Proof.
  apply (tcp_reachable_states 0 None false 0 8080 0). eapply star_step; [|apply star_refl].
  apply (step_listen 0 _ [] 0 (mktst (set_state SOCK_CB_LISTEN (new_sock_cb None false 0 8080 0 SOCK_TCP)) [])).
  reflexivity.
Defined.

(** [is_seq_valid] compares sequence numbers as plain integers: as soon as
    the receive window reaches past 2^32, every segment that starts exactly at
    the next expected byte is rejected, whatever its length, and the
    connection cannot make progress. *)
Theorem seq_window_wrap_rejects wnd nxt dl :
  0 < wnd -> 0 <= nxt < 2 ^ 32 -> wnd <= nxt -> 2 ^ 32 <= nxt + wnd -> 0 <= dl < 2 ^ 16 ->
  is_seq_valid wnd nxt nxt dl = false.
Proof.
  intros Hw Hn Hle Hwrap Hdl. unfold is_seq_valid.
  assert (u32 (nxt + wnd) = nxt + wnd - 2 ^ 32) as E.
  { unfold u32, wrap. symmetry. apply (Z.mod_unique _ _ 1); lia. }
  rewrite E. destruct (Z.eqb_spec wnd 0); [lia|].
  destruct (Z.ltb_spec nxt (nxt + wnd - 2 ^ 32)); [lia|]. rewrite !andb_false_r.
  destruct (Z.eqb_spec dl 0); [done|]. cbn [orb].
  destruct (Z.ltb_spec (nxt + dl - 1) (2 ^ 32)) as [H1|H1].
  - rewrite (u32_small (nxt + dl - 1)) by lia.
    destruct (Z.ltb_spec (nxt + dl - 1) (nxt + wnd - 2 ^ 32)); [lia|]. apply andb_false_r.
  - assert (u32 (nxt + dl - 1) = nxt + dl - 1 - 2 ^ 32) as ->.
    { unfold u32, wrap. symmetry. apply (Z.mod_unique _ _ 1); lia. }
    destruct (Z.leb_spec nxt (nxt + dl - 1 - 2 ^ 32)); [lia|]. done.
Qed.

Lemma seq_window_wrap_rejects_witness : is_seq_valid 4096 4294967000 4294967000 100 = false.
Proof. apply (seq_window_wrap_rejects 4096 4294967000 100); lia. Defined.

(** two things that a segment may carry are mishandled.  A FIN that comes
    with data is ignored: the data is delivered and acknowledged, the state
    stays ESTAB.  TCP options are delivered as data: of a segment whose header
    is 24 bytes long and that carries the bytes [1; 2; 3], the reader gets the
    first three option bytes. *)
Theorem tcp_fin_and_options :
  (exists op s', tcp_recv_core 3232244482 (wit_seg (wit_hdr 17) [1; 2; 3]) 23 (mktst wit_conn []) = Ok op s' /\
     delivered (scb s') = [1; 2; 3] /\ state (scb s') = SOCK_CB_ESTAB /\
     rcv_nxt_seq (rcv (scb s')) = 104) /\
  (let h := mktcp (htons 50000) (htons 8080) (htonl 101) (htonl 1) 96 24 0 0 0 in
   exists op s', tcp_recv_core 3232244482 (wit_seg h [200; 201; 202; 203; 1; 2; 3]) 27 (mktst wit_conn []) = Ok op s' /\
     delivered (scb s') = [200; 201; 202]).
Proof. split; do 2 eexists; (split; [vm_compute; reflexivity|vm_compute; auto]). Qed.
