(* ===== verification/PageAlloc.v ===== *)
(** Physical pages: what the page allocator promises to the code that maps
    pages, and the free-list allocator of kernel/lib/kalloc.c, which keeps it.

    Vm.v is written against [PageAlloc] and proved from [PageAllocLaws]. *)

From S2P Require Import Prelude.

Definition PGSIZE : Z := 4096.

(** [pa_alloc] returns the address of a page, or 0; [pa_free] gives a page
    back. *)
Class PageAlloc (A : Type) := {
  pa_alloc : M A Z;
  pa_free : Z -> M A unit }.

(** [pa_pool a] are the pages that may still be handed out and [pa_managed] the
    pages that belong to the allocator. *)
Class PageAllocLaws (A : Type) `{!PageAlloc A} := {
  pa_inv : A -> Prop;
  pa_pool : A -> gset Z;
  pa_managed : Z -> Prop;
  pa_managed_ok p : pa_managed p -> 0 < p < 2 ^ 54 /\ p mod PGSIZE = 0;
  pa_pool_managed a p : pa_inv a -> p ∈ pa_pool a -> pa_managed p;
  pa_alloc_ok a :
    pa_inv a -> pa_pool a <> ∅ ->
    exists p a', pa_alloc a = Ok p a' /\ pa_inv a' /\
      p ∈ pa_pool a /\ pa_pool a' = pa_pool a ∖ {[p]};
  pa_free_ok a p :
    pa_inv a -> pa_managed p -> p ∉ pa_pool a ->
    exists a', pa_free p a = Ok tt a' /\ pa_inv a' /\
      pa_pool a' = {[p]} ∪ pa_pool a }.

Module Kalloc.
(** [kmem.freelist]: the pages linked through their first word, in order;
    [end_] is the address of the linker symbol [end]. *)
Section code.
Context (end_ : Z).

Definition KERNBASE : Z := 2147483648.
Definition PHYSTOP : Z := KERNBASE + 128 * 1024 * 1024.

Record kmem := mkkmem { freelist : list Z }.

Definition kfree (pa : Z) : M kmem unit := fun k =>
  if negb (pa mod PGSIZE =? 0) || (pa <? end_) || (PHYSTOP <=? pa)
  then Panic "kfree"
  else Ok tt (mkkmem (pa :: freelist k)).

Definition kalloc : M kmem Z := fun k =>
  match freelist k with
  | r :: rest => Ok r (mkkmem rest)
  | [] => Ok 0 k
  end.

(** [for(; p + PGSIZE <= pa_end; p += PGSIZE) kfree(p)] *)
Fixpoint freerange_loop (fuel : nat) (p pa_end : Z) : M kmem unit :=
  match fuel with
  | O => nofuel
  | S fuel' =>
      if p + PGSIZE <=? pa_end then kfree p;; freerange_loop fuel' (p + PGSIZE) pa_end
      else ret tt
  end.

Definition PGROUNDUP (sz : Z) : Z := Z.land (u64 (sz + PGSIZE - 1)) (Z.lnot (PGSIZE - 1)).

Definition freerange (pa_start pa_end : Z) : M kmem unit :=
  freerange_loop (S (Z.to_nat ((pa_end - PGROUNDUP pa_start) / PGSIZE))) (PGROUNDUP pa_start) pa_end.

Definition kinit : M kmem unit := freerange end_ PHYSTOP.

#[export] Instance kalloc_pages : PageAlloc kmem := {
  pa_alloc := kalloc;
  pa_free := kfree }.

Definition managed (p : Z) : Prop := p mod PGSIZE = 0 /\ 0 < p /\ end_ <= p < PHYSTOP.

Definition kmem_ok (k : kmem) : Prop := NoDup (freelist k) /\ Forall managed (freelist k).

Lemma kfree_ok k p :
  kmem_ok k -> managed p -> p ∉ freelist k ->
  kfree p k = Ok tt (mkkmem (p :: freelist k)) /\ kmem_ok (mkkmem (p :: freelist k)).
Proof.
  intros [Hnd Hf] (Hm & H0 & Hp) Hin. split.
  - unfold kfree. rewrite Hm. cbn [Z.eqb negb orb].
    destruct (Z.ltb_spec p end_); [lia|]. by destruct (Z.leb_spec PHYSTOP p); [lia|].
  - split; by constructor.
Qed.

#[export] Program Instance kalloc_laws : PageAllocLaws kmem := {
  pa_inv := kmem_ok;
  pa_pool k := list_to_set (freelist k);
  pa_managed := managed }.
Next Obligation. intros p (H1 & H2 & H3). unfold PHYSTOP, KERNBASE in *. lia. Qed.
Next Obligation.
  intros k p [_ Hf] Hp. apply elem_of_list_to_set in Hp. by eapply Forall_forall in Hf.
Qed.
Next Obligation.
  intros [[|r l]] [Hnd Hf] Hne; [done|]. simpl in *.
  inversion Hnd as [|? ? Hr Hnd']. inversion Hf. subst.
  exists r, (mkkmem l). split; [done|]. split; [done|]. split; [set_solver|]. simpl.
  apply leibniz_equiv. set_solver.
Qed.
Next Obligation.
  intros k p Hk Hm Hp. rewrite elem_of_list_to_set in Hp.
  destruct (kfree_ok k p Hk Hm Hp) as [E H]. exists (mkkmem (p :: freelist k)). done.
Qed.

Lemma freerange_loop_ok fuel p pa_end k :
  kmem_ok k -> p mod PGSIZE = 0 -> 0 < p -> end_ <= p -> pa_end <= PHYSTOP ->
  (forall q, q ∈ freelist k -> q < p) -> (pa_end - p) / PGSIZE < Z.of_nat fuel -> (0 < fuel)%nat ->
  runs (freerange_loop fuel p pa_end) k (fun _ k' => kmem_ok k' /\
    forall q, q ∈ freelist k' <->
      q ∈ freelist k \/ (q mod PGSIZE = 0 /\ p <= q /\ q + PGSIZE <= pa_end)).
Proof.
  revert p k. induction fuel as [|fuel IH]; intros p k Hk Hm H0 He Hs Hlt Hfuel Hf0;
    [lia|unfold PGSIZE in *].
  - cbn [freerange_loop]. unfold PGSIZE. destruct (Z.leb_spec (p + 4096) pa_end) as [Hle|Hgt].
    + destruct (kfree_ok k p Hk) as [E Hk'].
      { split; [done|]. lia. }
      { intros Hin. specialize (Hlt p Hin). lia. }
      apply runs_bind. exists tt, (mkkmem (p :: freelist k)). split; [done|].
      assert (1 <= (pa_end - p) / 4096) by (apply Z.div_le_lower_bound; lia).
      eapply runs_mono; [apply IH; try done; try lia|].
      * rewrite <-Zplus_mod_idemp_r. change (4096 mod 4096) with 0. by rewrite Z.add_0_r.
      * simpl. intros q [->|Hq]%elem_of_cons; [lia|]. specialize (Hlt q Hq). lia.
      * replace (pa_end - (p + 4096)) with ((pa_end - p) + (-1) * 4096) by lia.
        rewrite Z.div_add by lia. lia.
      * intros _ k' [H1 H2]. split; [done|]. intros q. rewrite H2. simpl.
        rewrite elem_of_cons. split; [|intros [?|(Hq & ? & ?)]; [tauto|]].
        -- intros [[->|?]|(? & ? & ?)]; [right; lia|tauto|right; lia].
        -- destruct (decide (q = p)); [tauto|]. right. split; [done|].
           split; [|done]. apply Z.mod_divide in Hq as [c ->]; [|lia].
           apply Z.mod_divide in Hm as [c' ->]; [|lia]. lia.
    + apply runs_ret. split; [done|]. intros q. split; [tauto|].
      intros [?|(? & ? & ?)]; [done|lia].
Qed.

Lemma PGROUNDUP_spec z :
  0 <= z < 2 ^ 63 -> PGROUNDUP z mod PGSIZE = 0 /\ z <= PGROUNDUP z < z + PGSIZE.
Proof.
  intros Hz. unfold PGROUNDUP, PGSIZE. rewrite u64_small by lia.
  replace (Z.lnot (4096 - 1)) with (Z.lnot (Z.ones 12)) by done.
  rewrite <-Z.ldiff_land, Z.ldiff_ones_r, Z.shiftr_div_pow2, Z.shiftl_mul_pow2 by lia.
  change (2 ^ 12) with 4096. pose proof (Z.div_mod (z + 4096 - 1) 4096).
  pose proof (Z.mod_pos_bound (z + 4096 - 1) 4096). split; [apply Z_mod_mult|lia].
Qed.

(** at boot [kinit] puts exactly the whole pages between the end of the
    kernel and the end of memory on the free list, each of them once: a page is
    free if and only if it is aligned and lies in that range. *)
Theorem kinit_pool :
  0 < end_ -> end_ <= PHYSTOP ->
  exists k, kinit (mkkmem []) = Ok tt k /\ NoDup (freelist k) /\
    forall q, q ∈ freelist k <-> q mod PGSIZE = 0 /\ end_ <= q /\ q + PGSIZE <= PHYSTOP.
Proof.
  intros H0 H1. destruct (PGROUNDUP_spec end_) as [Hm Hr]; [unfold PHYSTOP, KERNBASE in *; lia|].
  destruct (freerange_loop_ok (S (Z.to_nat ((PHYSTOP - PGROUNDUP end_) / PGSIZE)))
    (PGROUNDUP end_) PHYSTOP (mkkmem [])) as ([] & k & E & [Hnd _] & Hk);
    try done; try lia.
  { by split; constructor. }
  { intros q Hq. by apply elem_of_nil in Hq. }
  exists k. split; [done|]. split; [done|]. intros q. rewrite Hk. simpl.
  rewrite elem_of_nil. split; [intros [?|?]; [done|lia]|].
  intros (Hq & ? & ?). right. split; [done|]. split; [|done].
  unfold PGSIZE in *. apply Z.mod_divide in Hq as [c ->]; [|lia].
  apply Z.mod_divide in Hm as [c' Hc']; [|lia]. rewrite Hc' in *. lia.
Qed.
End code.

Lemma kinit_pool_witness :
  exists k, kinit 2147600000 (mkkmem []) = Ok tt k /\ 2147602432 ∈ freelist k.
Proof.
  destruct (kinit_pool 2147600000) as (k & E & _ & Hk); [lia|unfold PHYSTOP, KERNBASE; lia|].
  exists k. split; [exact E|]. apply Hk. split; [reflexivity|]. unfold PHYSTOP, KERNBASE, PGSIZE. lia.
Defined.
End Kalloc.
