(* ===== verification/Vm.v ===== *)
(** Page tables and user memory (kernel/mem/vm.c).

    Physical memory is a function from page addresses to the 4096 bytes of the
    page; a page-table page is such a page read as 512 little-endian words.
    The page allocator is the interface of PageAlloc.v.  The allocator keeps
    its list nodes inside free pages; the model does not store them, and
    nothing is stated about the contents of free pages. *)

From S2P Require Import Prelude PageAlloc.

Definition PTE_V : Z := 1.
Definition PTE_R : Z := 2.
Definition PTE_W : Z := 4.
Definition PTE_X : Z := 8.
Definition PTE_U : Z := 16.
Definition MAXVA : Z := 2 ^ 38.

Definition PGROUNDDOWN (a : Z) : Z := Z.land a (Z.lnot (PGSIZE - 1)).
Definition PGROUNDUP (sz : Z) : Z := Z.land (u64 (sz + PGSIZE - 1)) (Z.lnot (PGSIZE - 1)).
Definition PA2PTE (pa : Z) : Z := u64 (Z.shiftl (Z.shiftr pa 12) 10).
Definition PTE2PA (pte : Z) : Z := u64 (Z.shiftl (Z.shiftr pte 10) 12).
Definition PTE_FLAGS (pte : Z) : Z := Z.land pte 1023.
Definition PX (level : nat) (va : Z) : Z := Z.land (Z.shiftr va (12 + 9 * Z.of_nat level)) 511.

(** [(pte & bits) != 0] *)
Definition has (pte bits : Z) : bool := negb (Z.land pte bits =? 0).

Section code.
Context {A : Type} `{!PageAlloc A}.

Record vst := mkvst { ram : Z -> bytes; al : A }.

Definition get_page (p : Z) : M vst bytes := gets (fun s => ram s p).
Definition set_page (p : Z) (v : bytes) : M vst unit :=
  modify (fun s => mkvst (fupd (ram s) p v) (al s)).

Definition on_al {B} (m : M A B) : M vst B := fun s =>
  match m (al s) with
  | Ok x a => Ok x (mkvst (ram s) a)
  | Panic msg => Panic msg
  | Sleep a => Sleep (mkvst (ram s) a)
  | OutOfFuel => OutOfFuel
  | Undef => Undef
  end.

Definition ufkalloc : M vst Z := on_al pa_alloc.
Definition ufkfree (p : Z) : M vst unit := on_al (pa_free p).

Definition zero_page : bytes := replicate (Z.to_nat PGSIZE) 0.

(** [pagetable[i]]; a slot is the pair of the page and the index. *)
Definition get_pte (slot : Z * Z) : M vst Z :=
  gets (fun s => get_le 8 (8 * Z.to_nat slot.2) (ram s slot.1)).
Definition set_pte (slot : Z * Z) (v : Z) : M vst unit :=
  modify (fun s => mkvst (fupd (ram s) slot.1 (put_le 8 (8 * Z.to_nat slot.2) v (ram s slot.1))) (al s)).

(** The loop of [walk] from [level] down to 0. *)
Fixpoint walk_loop (level : nat) (pagetable va : Z) (alloc : bool) : M vst (option (Z * Z)) :=
  match level with
  | O => ret (Some (pagetable, PX 0 va))
  | S level' =>
      pte ← get_pte (pagetable, PX level va);
      if has pte PTE_V then walk_loop level' (PTE2PA pte) va alloc
      else if negb alloc then ret None
      else
        p ← ufkalloc;
        if p =? 0 then ret None
        else
          set_page p zero_page;;
          set_pte (pagetable, PX level va) (Z.lor (PA2PTE p) PTE_V);;
          walk_loop level' p va alloc
  end.

Definition walk (pagetable va : Z) (alloc : bool) : M vst (option (Z * Z)) :=
  if MAXVA <=? va then panic "walk" else walk_loop 2 pagetable va alloc.

Definition walkaddr (pagetable va : Z) : M vst Z :=
  if MAXVA <=? va then ret 0
  else
    slot ← walk pagetable va false;
    match slot with
    | None => ret 0
    | Some sl =>
        pte ← get_pte sl;
        if negb (has pte PTE_V) then ret 0
        else if negb (has pte PTE_U) then ret 0
        else ret (PTE2PA pte)
    end.

Definition kvmpa (kernel_pagetable va : Z) : M vst Z :=
  slot ← walk kernel_pagetable va false;
  match slot with
  | None => panic "kvmpa"
  | Some sl =>
      pte ← get_pte sl;
      if negb (has pte PTE_V) then panic "kvmpa" else ret (PTE2PA pte + va mod PGSIZE)
  end.

(** The loops below end at [last], or by a panic of [walk] at [MAXVA], which is
    what happens when [last] is below [a]; [fuel] counts the pages. *)
Definition pages_to (a last : Z) : nat :=
  S (Z.to_nat (((if a <=? last then Z.min last MAXVA else MAXVA) - a) / PGSIZE)).

Fixpoint mappages_loop (fuel : nat) (pagetable a last pa perm : Z) : M vst Z :=
  match fuel with
  | O => nofuel
  | S fuel' =>
      slot ← walk pagetable a true;
      match slot with
      | None => ret (-1)
      | Some sl =>
          pte ← get_pte sl;
          if has pte PTE_V then panic "remap"
          else
            set_pte sl (Z.lor (Z.lor (PA2PTE pa) perm) PTE_V);;
            if a =? last then ret 0
            else mappages_loop fuel' pagetable (u64 (a + PGSIZE)) last (u64 (pa + PGSIZE)) perm
      end
  end.

Definition mappages (pagetable va size pa perm : Z) : M vst Z :=
  let a := PGROUNDDOWN va in
  let last := PGROUNDDOWN (u64 (va + size - 1)) in
  mappages_loop (pages_to a last) pagetable a last pa perm.

Definition kvmmap (kernel_pagetable va pa sz perm : Z) : M vst unit :=
  r ← mappages kernel_pagetable va sz pa perm;
  if r =? 0 then ret tt else panic "kvmmap".

Definition UART0 : Z := 0x10000000.
Definition VIRTIO0 : Z := 0x10001000.
Definition ECAM : Z := 0x30000000.
Definition E1000_REG : Z := 0x50000000.
Definition CLINT : Z := 0x2000000.
Definition PLIC : Z := 0x0c000000.
Definition KERNBASE : Z := 0x80000000.
Definition PHYSTOP : Z := KERNBASE + 128 * 1024 * 1024.
Definition TRAMPOLINE : Z := MAXVA - PGSIZE.

(** [etext] and [trampoline] are addresses given by the linker; the result is
    the kernel page table. *)
Definition kvminit (etext trampoline : Z) : M vst Z :=
  kpt ← ufkalloc;
  set_page kpt zero_page;;
  kvmmap kpt UART0 UART0 PGSIZE (Z.lor PTE_R PTE_W);;
  kvmmap kpt VIRTIO0 VIRTIO0 PGSIZE (Z.lor PTE_R PTE_W);;
  kvmmap kpt ECAM ECAM 0x10000000 (Z.lor PTE_R PTE_W);;
  kvmmap kpt E1000_REG E1000_REG 0x20000 (Z.lor PTE_R PTE_W);;
  kvmmap kpt CLINT CLINT 0x10000 (Z.lor PTE_R PTE_W);;
  kvmmap kpt PLIC PLIC 0x400000 (Z.lor PTE_R PTE_W);;
  kvmmap kpt KERNBASE KERNBASE (u64 (etext - KERNBASE)) (Z.lor PTE_R PTE_X);;
  kvmmap kpt etext etext (u64 (PHYSTOP - etext)) (Z.lor PTE_R PTE_W);;
  kvmmap kpt TRAMPOLINE trampoline PGSIZE (Z.lor PTE_R PTE_X);;
  ret kpt.

Fixpoint uvmunmap_loop (fuel : nat) (pagetable a last : Z) (do_free : bool) : M vst unit :=
  match fuel with
  | O => nofuel
  | S fuel' =>
      slot ← walk pagetable a false;
      match slot with
      | None => panic "uvmunmap: walk"
      | Some sl =>
          pte ← get_pte sl;
          if negb (has pte PTE_V) then panic "uvmunmap: not mapped"
          else if PTE_FLAGS pte =? PTE_V then panic "uvmunmap: not a leaf"
          else
            when do_free (ufkfree (PTE2PA pte));;
            set_pte sl 0;;
            if a =? last then ret tt
            else uvmunmap_loop fuel' pagetable (u64 (a + PGSIZE)) last do_free
      end
  end.

Definition uvmunmap (pagetable va size : Z) (do_free : bool) : M vst unit :=
  let a := PGROUNDDOWN va in
  let last := PGROUNDDOWN (u64 (va + size - 1)) in
  uvmunmap_loop (pages_to a last) pagetable a last do_free.

Definition uvmcreate : M vst Z :=
  p ← ufkalloc;
  if p =? 0 then panic "uvmcreate: out of memory"
  else set_page p zero_page;; ret p.

(** [memmove(mem, src, sz)] into a page. *)
Definition copy_to_page (p off : Z) (v : bytes) : M vst unit :=
  b ← get_page p; set_page p (upd_bytes (Z.to_nat off) v b).

Definition uvminit (pagetable : Z) (src : bytes) : M vst unit :=
  if PGSIZE <=? Z.of_nat (length src) then panic "inituvm: more than a page"
  else
    mem ← ufkalloc;
    set_page mem zero_page;;
    _ ← mappages pagetable 0 PGSIZE mem (Z.lor (Z.lor PTE_W PTE_R) (Z.lor PTE_X PTE_U));
    copy_to_page mem 0 src.

Definition uvmdealloc (pagetable oldsz newsz : Z) : M vst Z :=
  if oldsz <=? newsz then ret oldsz
  else
    let newup := PGROUNDUP newsz in
    when (newup <? PGROUNDUP oldsz) (uvmunmap pagetable newup (u64 (oldsz - newup)) true);;
    ret newsz.

Fixpoint uvmalloc_loop (fuel : nat) (pagetable a oldsz newsz : Z) : M vst Z :=
  match fuel with
  | O => nofuel
  | S fuel' =>
      if a <? newsz then
        mem ← ufkalloc;
        if mem =? 0 then uvmdealloc pagetable a oldsz;; ret 0
        else
          set_page mem zero_page;;
          r ← mappages pagetable a PGSIZE mem (Z.lor (Z.lor PTE_W PTE_X) (Z.lor PTE_R PTE_U));
          if negb (r =? 0) then
            ufkfree mem;; uvmdealloc pagetable a oldsz;; ret 0
          else uvmalloc_loop fuel' pagetable (u64 (a + PGSIZE)) oldsz newsz
      else ret newsz
  end.

Definition uvmalloc (pagetable oldsz newsz : Z) : M vst Z :=
  if newsz <? oldsz then ret oldsz
  else
    let old := PGROUNDUP oldsz in
    uvmalloc_loop (S (pages_to old newsz)) pagetable old old newsz.

(** [freewalk]: the loop over the entries from [i] on, with the recursive call
    as an argument, and the recursion, at most three levels deep. *)
Fixpoint freewalk_entries (rec : Z -> M vst unit) (pagetable : Z) (k : nat) (i : Z) : M vst unit :=
  match k with
  | O => ret tt
  | S k' =>
      pte ← get_pte (pagetable, i);
      (if has pte PTE_V && negb (has pte (Z.lor (Z.lor PTE_R PTE_W) PTE_X)) then
         rec (PTE2PA pte);; set_pte (pagetable, i) 0
       else if has pte PTE_V then panic "freewalk: leaf"
       else ret tt);;
      freewalk_entries rec pagetable k' (i + 1)
  end.

Fixpoint freewalk (depth : nat) (pagetable : Z) : M vst unit :=
  match depth with
  | O => nofuel
  | S depth' =>
      freewalk_entries (freewalk depth') pagetable 512 0;; ufkfree pagetable
  end.

Definition uvmfree (pagetable sz : Z) : M vst unit :=
  uvmunmap pagetable 0 sz true;; freewalk 3 pagetable.

Fixpoint uvmcopy_loop (fuel : nat) (old new i sz : Z) : M vst Z :=
  match fuel with
  | O => nofuel
  | S fuel' =>
      if i <? sz then
        slot ← walk old i false;
        match slot with
        | None => panic "uvmcopy: pte should exist"
        | Some sl =>
            pte ← get_pte sl;
            if negb (has pte PTE_V) then panic "uvmcopy: page not present"
            else
              mem ← ufkalloc;
              if mem =? 0 then uvmunmap new 0 i true;; ret (-1)
              else
                b ← get_page (PTE2PA pte);
                set_page mem b;;
                r ← mappages new i PGSIZE mem (PTE_FLAGS pte);
                if negb (r =? 0) then
                  ufkfree mem;; uvmunmap new 0 i true;; ret (-1)
                else uvmcopy_loop fuel' old new (u64 (i + PGSIZE)) sz
        end
      else ret 0
  end.

Definition uvmcopy (old new sz : Z) : M vst Z := uvmcopy_loop (S (pages_to 0 sz)) old new 0 sz.

Definition uvmclear (pagetable va : Z) : M vst unit :=
  slot ← walk pagetable va false;
  match slot with
  | None => panic "uvmclear"
  | Some sl => pte ← get_pte sl; set_pte sl (Z.land pte (Z.lnot PTE_U))
  end.

(** [copyout] and [copyin] advance at least one byte in every round. *)
Fixpoint copyout_loop (fuel : nat) (pagetable dstva : Z) (src : bytes) : M vst Z :=
  match fuel with
  | O => nofuel
  | S fuel' =>
      let len := Z.of_nat (length src) in
      if 0 <? len then
        let va0 := PGROUNDDOWN dstva in
        pa0 ← walkaddr pagetable va0;
        if pa0 =? 0 then ret (-1)
        else
          let n := Z.min (PGSIZE - (dstva - va0)) len in
          copy_to_page pa0 (dstva - va0) (take (Z.to_nat n) src);;
          copyout_loop fuel' pagetable (u64 (va0 + PGSIZE)) (drop (Z.to_nat n) src)
      else ret 0
  end.

Definition copyout (pagetable dstva : Z) (src : bytes) : M vst Z :=
  copyout_loop (S (length src)) pagetable dstva src.

(** [copyin] returns the result and the bytes stored at [dst]. *)
Fixpoint copyin_loop (fuel : nat) (pagetable srcva len : Z) (dst : bytes) : M vst (Z * bytes) :=
  match fuel with
  | O => nofuel
  | S fuel' =>
      if 0 <? len then
        let va0 := PGROUNDDOWN srcva in
        pa0 ← walkaddr pagetable va0;
        if pa0 =? 0 then ret (-1, dst)
        else
          let n := Z.min (PGSIZE - (srcva - va0)) len in
          b ← get_page pa0;
          copyin_loop fuel' pagetable (u64 (va0 + PGSIZE)) (len - n)
            (dst ++ sub_bytes (Z.to_nat (srcva - va0)) (Z.to_nat n) b)
      else ret (0, dst)
  end.

Definition copyin (pagetable srcva len : Z) : M vst (Z * bytes) :=
  copyin_loop (S (Z.to_nat len)) pagetable srcva len [].

(** The inner loop of [copyinstr] over the [n] bytes at [p]: what it stores and
    whether it met a NUL. *)
Fixpoint copyinstr_page (p : bytes) (dst : bytes) : bytes * bool :=
  match p with
  | [] => (dst, false)
  | c :: p' => if c =? 0 then (dst ++ [0], true) else copyinstr_page p' (dst ++ [c])
  end.

Fixpoint copyinstr_loop (fuel : nat) (pagetable srcva max : Z) (dst : bytes) : M vst (Z * bytes) :=
  match fuel with
  | O => nofuel
  | S fuel' =>
      if 0 <? max then
        let va0 := PGROUNDDOWN srcva in
        pa0 ← walkaddr pagetable va0;
        if pa0 =? 0 then ret (-1, dst)
        else
          let n := Z.min (PGSIZE - (srcva - va0)) max in
          b ← get_page pa0;
          let '(dst', got_null) :=
            copyinstr_page (sub_bytes (Z.to_nat (srcva - va0)) (Z.to_nat n) b) dst in
          if got_null then ret (0, dst')
          else copyinstr_loop fuel' pagetable (u64 (va0 + PGSIZE)) (max - n) dst'
      else ret (-1, dst)
  end.

Definition copyinstr (pagetable srcva max : Z) : M vst (Z * bytes) :=
  copyinstr_loop (S (Z.to_nat max)) pagetable srcva max [].
End code.
Arguments vst : clear implicits.

(** ** Bits of addresses and entries *)

Lemma PGROUNDDOWN_eq a : PGROUNDDOWN a = PGSIZE * (a / PGSIZE).
Proof.
  unfold PGROUNDDOWN, PGSIZE. replace (Z.lnot (4096 - 1)) with (Z.lnot (Z.ones 12)) by done.
  rewrite <-Z.ldiff_land, Z.ldiff_ones_r, Z.shiftr_div_pow2, Z.shiftl_mul_pow2 by lia.
  change (2 ^ 12) with 4096. lia.
Qed.

Lemma PX_eq l va : PX l va = va / (4096 * 512 ^ Z.of_nat l) mod 512.
Proof.
  unfold PX. change 511 with (Z.ones 9). rewrite Z.land_ones by lia.
  rewrite Z.shiftr_div_pow2 by lia. f_equal. f_equal.
  rewrite Z.pow_add_r, Z.pow_mul_r by lia. done.
Qed.

Lemma PX_range l va : 0 <= PX l va < 512.
Proof. rewrite PX_eq. apply Z.mod_pos_bound. lia. Qed.

Lemma PX_low va : 0 <= va < MAXVA -> PX 2 va < 256.
Proof.
  unfold MAXVA. intros Hva. rewrite PX_eq. change (4096 * 512 ^ Z.of_nat 2) with 1073741824.
  assert (va / 1073741824 < 256) by (apply Z.div_lt_upper_bound; lia).
  assert (0 <= va / 1073741824) by (apply Z.div_pos; lia). rewrite Z.mod_small; lia.
Qed.

(** The address with the given indices. *)
Definition va_of (i2 i1 i0 : Z) : Z := ((i2 * 512 + i1) * 512 + i0) * 4096.

Lemma va_of_PX i2 i1 i0 :
  0 <= i2 < 256 -> 0 <= i1 < 512 -> 0 <= i0 < 512 ->
  0 <= va_of i2 i1 i0 < MAXVA /\ PX 2 (va_of i2 i1 i0) = i2 /\ PX 1 (va_of i2 i1 i0) = i1 /\
  PX 0 (va_of i2 i1 i0) = i0.
Proof.
  intros H2 H1 H0. unfold va_of, MAXVA. split; [lia|]. rewrite !PX_eq.
  change (512 ^ Z.of_nat 2) with (512 * 512). change (512 ^ Z.of_nat 1) with 512.
  change (512 ^ Z.of_nat 0) with 1. rewrite <-!(Zdiv_Zdiv _ 4096), Z.div_mul by lia.
  rewrite Z.div_1_r, <-(Zdiv_Zdiv _ 512 512) by lia.
  rewrite (Z.add_comm _ i0), Z.div_add, (Z.div_small i0), Z.add_0_l by lia.
  rewrite (Z.add_comm _ i1), Z.div_add, (Z.div_small i1), Z.add_0_l by lia.
  rewrite !Z.mod_add by lia. rewrite !Z.mod_small by lia. done.
Qed.

(** The three indices determine the page. *)
Lemma PX_page va va' :
  0 <= va < MAXVA -> 0 <= va' < MAXVA ->
  PX 2 va = PX 2 va' -> PX 1 va = PX 1 va' -> PX 0 va = PX 0 va' -> va / 4096 = va' / 4096.
Proof.
  unfold MAXVA. rewrite !PX_eq. intros. change (512 ^ Z.of_nat 2) with 262144 in *.
  change (512 ^ Z.of_nat 1) with 512 in *. change (512 ^ Z.of_nat 0) with 1 in *.
  rewrite !Z.mul_1_r, <-!(Zdiv_Zdiv _ 4096) in * by lia.
  set (x := va / 4096) in *. set (y := va' / 4096) in *.
  assert (0 <= x < 2 ^ 26) by (split; [apply Z.div_pos; lia|apply Z.div_lt_upper_bound; lia]).
  assert (0 <= y < 2 ^ 26) by (split; [apply Z.div_pos; lia|apply Z.div_lt_upper_bound; lia]).
  clearbody x y. change 262144 with (512 * 512) in *. rewrite <-!(Zdiv_Zdiv _ 512) in * by lia.
  assert (x / 512 / 512 < 512) by (do 2 (apply Z.div_lt_upper_bound; [lia|]); lia).
  assert (y / 512 / 512 < 512) by (do 2 (apply Z.div_lt_upper_bound; [lia|]); lia).
  rewrite (Z.mod_small (x / 512 / 512)), (Z.mod_small (y / 512 / 512)) in * by
    (split; [do 2 (apply Z.div_pos; [|lia]); lia|done]).
  rewrite (Z.div_mod x 512), (Z.div_mod y 512) by lia.
  rewrite (Z.div_mod (x / 512) 512), (Z.div_mod (y / 512) 512) by lia. congruence.
Qed.

Lemma PX_same l va va' : va / 4096 = va' / 4096 -> PX l va = PX l va'.
Proof.
  intros Hp. rewrite !PX_eq. rewrite <-!(Zdiv_Zdiv _ 4096) by lia. by rewrite Hp.
Qed.

Lemma land_pow2_bits x f n : 0 <= n -> 0 <= f < 2 ^ n -> Z.land (Z.shiftl x n) f = 0.
Proof.
  intros Hn Hf. destruct (decide (f = 0)) as [->|Hf0]; [apply Z.land_0_r|].
  apply Z.bits_inj'. intros k Hk. rewrite Z.land_spec, Z.bits_0.
  destruct (Z.lt_ge_cases k n).
  - by rewrite Z.shiftl_spec_low.
  - rewrite (Z.bits_above_log2 f k); [by rewrite andb_false_r|lia|].
    apply Z.lt_le_trans with n; [|done]. apply Z.log2_lt_pow2; lia.
Qed.

Section pte.
Context (pa perm : Z).
Hypothesis Hpa : 0 <= pa < 2 ^ 54 /\ pa mod PGSIZE = 0.
Hypothesis Hperm : 0 <= perm < 1024.

Lemma PA2PTE_eq : PA2PTE pa = Z.shiftl (pa / 4096) 10.
Proof.
  unfold PA2PTE. rewrite Z.shiftr_div_pow2 by lia. change (2 ^ 12) with 4096.
  apply u64_small. rewrite Z.shiftl_mul_pow2 by lia. change (2 ^ 10) with 1024.
  assert (pa / 4096 < 2 ^ 42) by (apply Z.div_lt_upper_bound; lia).
  assert (0 <= pa / 4096) by (apply Z.div_pos; lia). lia.
Qed.

(** The entry that [mappages] writes. *)
Definition leaf_pte : Z := Z.lor (Z.lor (PA2PTE pa) perm) PTE_V.

Lemma PTE2PA_leaf : PTE2PA leaf_pte = pa.
Proof.
  unfold PTE2PA, leaf_pte, PTE_V. rewrite PA2PTE_eq, !Z.shiftr_lor.
  rewrite Z.shiftr_shiftl_l, Z.sub_diag, Z.shiftl_0_r by lia.
  rewrite (Z.shiftr_div_pow2 perm) by lia. rewrite (Z.div_small perm) by lia.
  change (Z.shiftr 1 10) with 0. rewrite !Z.lor_0_r. rewrite Z.shiftl_mul_pow2 by lia.
  destruct Hpa as [H1 H2]. unfold PGSIZE in *. change (2 ^ 12) with 4096.
  pose proof (Z.div_mod pa 4096). rewrite u64_small; lia.
Qed.

Lemma leaf_pte_range : 0 <= leaf_pte < 2 ^ 64.
Proof.
  assert (0 <= PA2PTE pa < 2 ^ 63).
  { rewrite PA2PTE_eq, Z.shiftl_mul_pow2 by lia. change (2 ^ 10) with 1024.
    assert (pa / 4096 < 2 ^ 42) by (apply Z.div_lt_upper_bound; lia).
    assert (0 <= pa / 4096) by (apply Z.div_pos; lia). lia. }
  unfold leaf_pte, PTE_V. split.
  - rewrite !Z.lor_nonneg. lia.
  - apply Z.log2_lt_cancel. rewrite !Z.log2_lor by (rewrite ?Z.lor_nonneg; lia).
    assert (Z.log2 (PA2PTE pa) <= Z.log2 (2 ^ 63)) by (apply Z.log2_le_mono; lia).
    assert (Z.log2 perm <= Z.log2 1024) by (apply Z.log2_le_mono; lia).
    change (Z.log2 (2 ^ 63)) with 63 in *. change (Z.log2 1024) with 10 in *.
    change (Z.log2 1) with 0. change (Z.log2 (2 ^ 64)) with 64. lia.
Qed.

Lemma leaf_pte_bits b : 0 <= b < 1024 -> Z.land leaf_pte b = Z.land (Z.lor perm 1) b.
Proof.
  intros Hb. unfold leaf_pte, PTE_V. rewrite !Z.land_lor_distr_l, PA2PTE_eq.
  rewrite land_pow2_bits by (change (2 ^ 10) with 1024; lia). done.
Qed.

Lemma leaf_pte_valid : has leaf_pte PTE_V = true.
Proof.
  unfold has. change PTE_V with 1. rewrite leaf_pte_bits, Z.land_lor_distr_l by lia.
  destruct (Z.eqb_spec (Z.lor (Z.land perm 1) (Z.land 1 1)) 0) as [E|]; [|done].
  apply Z.lor_eq_0_iff in E as [_ E]. discriminate E.
Qed.

Lemma leaf_pte_user : has leaf_pte PTE_U = has perm PTE_U.
Proof.
  unfold has. unfold PTE_U. rewrite leaf_pte_bits, Z.land_lor_distr_l by lia.
  change (Z.land 1 16) with 0. by rewrite Z.lor_0_r.
Qed.
End pte.

(** ** The tree of page tables

    [rd] and [wr] are a slot of a page-table page; [pt_walk] follows the valid
    entries for an address from [level] down and [vmap] is the valid leaf entry
    of an address.  In [pt_inv], the map [o] gives for every page-table page
    the indices that lead to it from the root, so no two slots lead to one
    page. *)

Definition rd (m : Z -> bytes) (p i : Z) : Z := get_le 8 (8 * Z.to_nat i) (m p).
Definition wr (m : Z -> bytes) (p i v : Z) : Z -> bytes :=
  fupd m p (put_le 8 (8 * Z.to_nat i) v (m p)).

Definition ram_ok (m : Z -> bytes) : Prop := forall p, length (m p) = Z.to_nat PGSIZE.

Fixpoint pt_walk (m : Z -> bytes) (level : nat) (t va : Z) : option Z :=
  match level with
  | O => Some t
  | S level' =>
      if has (rd m t (PX level va)) PTE_V then pt_walk m level' (PTE2PA (rd m t (PX level va))) va
      else None
  end.

Definition leaf (m : Z -> bytes) (level : nat) (t va : Z) : option Z :=
  match pt_walk m level t va with
  | Some q => if has (rd m q (PX 0 va)) PTE_V then Some (rd m q (PX 0 va)) else None
  | None => None
  end.

Definition vmap (m : Z -> bytes) (root va : Z) : option Z := leaf m 2 root va.

Lemma vmap_same m root va va' : va / 4096 = va' / 4096 -> vmap m root va = vmap m root va'.
Proof. intros Hp. unfold vmap, leaf. cbn [pt_walk]. by rewrite !(PX_same _ _ _ Hp). Qed.

Fixpoint idxs (level : nat) (va : Z) : list Z :=
  match level with O => [] | S level' => PX level va :: idxs level' va end.

Record pt_inv (m : Z -> bytes) (root : Z) (o : gmap Z (list Z)) : Prop := {
  pi_root : o !! root = Some [];
  pi_next : forall p path i, o !! p = Some path -> (length path < 2)%nat -> 0 <= i < 512 ->
    has (rd m p i) PTE_V = true -> o !! PTE2PA (rd m p i) = Some (path ++ [i]);
  pi_flags : forall p path i, o !! p = Some path -> (length path < 2)%nat -> 0 <= i < 512 ->
    has (rd m p i) PTE_V = true -> has (rd m p i) (Z.lor (Z.lor PTE_R PTE_W) PTE_X) = false;
  pi_len : forall p path, o !! p = Some path -> (length path <= 2)%nat;
  pi_one : forall p, o !! p = Some [] -> p = root;
  pi_low : forall p i l, o !! p = Some (i :: l) -> i < 256;
  pi_prev : forall p path i, o !! p = Some (path ++ [i]) ->
    exists p', o !! p' = Some path /\ 0 <= i < 512 /\ has (rd m p' i) PTE_V = true /\
      PTE2PA (rd m p' i) = p }.

Lemma wr_ok m p i v : ram_ok m -> 0 <= i < 512 -> ram_ok (wr m p i v).
Proof.
  intros Hm Hi q. unfold wr, fupd. destruct (q =? p); [|done].
  rewrite length_put_le; rewrite Hm; unfold PGSIZE; lia.
Qed.

Lemma fupd_ok m p v : ram_ok m -> length v = Z.to_nat PGSIZE -> ram_ok (fupd m p v).
Proof. intros Hm Hv q. unfold fupd. by destruct (q =? p). Qed.

Lemma rd_wr m p i v q j :
  ram_ok m -> 0 <= i < 512 -> 0 <= j < 512 -> 0 <= v < 2 ^ 64 ->
  rd (wr m p i v) q j = if decide (q = p /\ j = i) then v else rd m q j.
Proof.
  intros Hm Hi Hj Hv. unfold rd, wr. destruct (decide (q = p)) as [->|Hq].
  - rewrite fupd_eq. case_decide as Hd.
    + destruct Hd as [_ ->]. apply get_put_le; [rewrite Hm; unfold PGSIZE; lia|done].
    + apply get_put_le_ne; [rewrite Hm; unfold PGSIZE; lia|]. lia.
  - rewrite fupd_ne by done. by rewrite decide_False by tauto.
Qed.

Lemma le_dec_zeros k : le_dec (replicate k 0) = 0.
Proof. induction k as [|k IH]; [done|]. cbn [replicate le_dec]. by rewrite IH. Qed.

Lemma rd_zero m p i : m p = zero_page -> 0 <= i < 512 -> rd m p i = 0.
Proof.
  intros E Hi. unfold rd, get_le, sub_bytes. rewrite E. unfold zero_page.
  rewrite drop_replicate, take_replicate. apply le_dec_zeros.
Qed.

Lemma zero_page_leaf m p level va : m p = zero_page -> leaf m level p va = None.
Proof.
  intros E. unfold leaf. destruct level as [|level]; cbn [pt_walk];
    rewrite rd_zero by (done || apply PX_range); done.
Qed.

Section tree.
Context (m : Z -> bytes) (root : Z) (o : gmap Z (list Z)).
Hypothesis Hinv : pt_inv m root o.

Lemma pt_walk_owner level t path va q :
  o !! t = Some path -> (length path + level = 2)%nat -> pt_walk m level t va = Some q ->
  o !! q = Some (path ++ idxs level va).
Proof.
  revert t path. induction level as [|level IH]; intros t path Ht Hl Hw; cbn [pt_walk] in Hw.
  - simplify_eq. cbn [idxs]. by rewrite app_nil_r.
  - destruct (has _ PTE_V) eqn:Hv; [|done].
    pose proof (pi_next _ _ _ Hinv t path (PX (S level) va) Ht ltac:(lia) (PX_range _ _) Hv) as Hn.
    apply IH with (path := path ++ [PX (S level) va]) in Hw;
      [|done|rewrite length_app; simpl; lia].
    rewrite Hw. cbn [idxs]. by rewrite <-app_assoc.
Qed.

(** Pages that are not page tables do not matter. *)
Lemma pt_walk_frame m' level t path va :
  (forall p, p ∈ dom o -> m' p = m p) -> o !! t = Some path -> (length path + level = 2)%nat ->
  pt_walk m' level t va = pt_walk m level t va.
Proof.
  intros Hf. revert t path. induction level as [|level IH]; intros t path Ht Hl; [done|].
  cbn [pt_walk]. unfold rd. rewrite Hf by (by apply elem_of_dom_2 in Ht). fold (rd m t (PX (S level) va)).
  destruct (has _ PTE_V) eqn:Hv; [|done].
  pose proof (pi_next _ _ _ Hinv t path (PX (S level) va) Ht ltac:(lia) (PX_range _ _) Hv) as Hn.
  apply (IH _ _ Hn). rewrite length_app. simpl. lia.
Qed.

Lemma leaf_frame m' level t path va :
  (forall p, p ∈ dom o -> m' p = m p) -> o !! t = Some path -> (length path + level = 2)%nat ->
  leaf m' level t va = leaf m level t va.
Proof.
  intros Hf Ht Hl. unfold leaf. rewrite (pt_walk_frame m' level t path) by done.
  destruct (pt_walk m level t va) as [q|] eqn:E; [|done].
  apply (pt_walk_owner level t path) in E; [|done|done].
  unfold rd. rewrite Hf; [done|]. by eapply elem_of_dom_2.
Qed.

Lemma vmap_frame m' va : (forall p, p ∈ dom o -> m' p = m p) -> vmap m' root va = vmap m root va.
Proof. intros Hf. eapply leaf_frame; [done|apply (pi_root _ _ _ Hinv)|done]. Qed.

Lemma pt_inv_frame m' : (forall p, p ∈ dom o -> m' p = m p) -> pt_inv m' root o.
Proof.
  intros Hf. assert (forall p path i, o !! p = Some path -> rd m' p i = rd m p i) as Hr.
  { intros p path i Hp. unfold rd. rewrite Hf; [done|]. by eapply elem_of_dom_2. }
  destruct Hinv. split; try done.
  - intros p path i Hp. rewrite (Hr p path) by done. by apply pi_next0.
  - intros p path i Hp. rewrite (Hr p path) by done. by apply pi_flags0.
  - intros p path i Hp. destruct (pi_prev0 p path i Hp) as (p' & H1 & H2).
    exists p'. by rewrite (Hr p' path).
Qed.
End tree.

(** Writing the leaf entry of [va] changes the mapping of its page and of no
    other. *)
Section wr_leaf.
Context (m : Z -> bytes) (root : Z) (o : gmap Z (list Z)) (va q v : Z).
Hypotheses (Hm : ram_ok m) (Hinv : pt_inv m root o).
Hypotheses (Hq : pt_walk m 2 root va = Some q) (Hv : 0 <= v < 2 ^ 64).
Let m' := wr m q (PX 0 va) v.

Lemma leaf_owner : o !! q = Some [PX 2 va; PX 1 va].
Proof. by apply (pt_walk_owner m root o Hinv 2 root []); [apply Hinv| |]. Qed.

Lemma rd_wr_leaf t path i :
  o !! t = Some path -> (length path < 2)%nat -> 0 <= i < 512 -> rd m' t i = rd m t i.
Proof.
  intros Ht Hl Hi. unfold m'. rewrite rd_wr by (done || apply PX_range).
  rewrite decide_False; [done|]. intros [-> _]. pose proof leaf_owner as E.
  rewrite Ht in E. injection E as ->. cbn [length] in Hl. lia.
Qed.

Lemma pt_walk_wr_leaf level t path va' :
  o !! t = Some path -> (length path + level = 2)%nat ->
  pt_walk m' level t va' = pt_walk m level t va'.
Proof.
  revert t path. induction level as [|level IH]; intros t path Ht Hl; [done|].
  cbn [pt_walk]. rewrite (rd_wr_leaf t path) by (done || lia || apply PX_range).
  destruct (has _ PTE_V) eqn:E; [|done].
  apply (IH _ (path ++ [PX (S level) va'])).
  - apply (pi_next _ _ _ Hinv); [done|lia|apply PX_range|done].
  - rewrite length_app. simpl. lia.
Qed.

Lemma wr_leaf_inv : pt_inv m' root o.
Proof.
  split; try apply Hinv.
  - intros p path i Hp Hl Hi Hval.
    rewrite (rd_wr_leaf p path) in * by done. by apply (pi_next _ _ _ Hinv).
  - intros p path i Hp Hl Hi Hval.
    rewrite (rd_wr_leaf p path) in * by done. by apply (pi_flags _ _ _ Hinv p path).
  - intros p path i Hp. destruct (pi_prev _ _ _ Hinv p path i Hp) as (p' & Hp' & Hi & H2).
    exists p'. apply (pi_len _ _ _ Hinv) in Hp. rewrite length_app in Hp. simpl in Hp.
    by rewrite (rd_wr_leaf p' path) by (done || lia).
Qed.

Lemma wr_leaf_walk : pt_walk m' 2 root va = Some q.
Proof. by rewrite (pt_walk_wr_leaf 2 root []); [|apply Hinv|]. Qed.

Lemma wr_leaf_vmap va' :
  0 <= va < MAXVA -> 0 <= va' < MAXVA ->
  vmap m' root va' =
  if decide (va' / 4096 = va / 4096) then (if has v PTE_V then Some v else None)
  else vmap m root va'.
Proof.
  intros Hva Hva'. unfold vmap, leaf. rewrite (pt_walk_wr_leaf 2 root []) by (done || apply Hinv).
  case_decide as Hd.
  - assert (pt_walk m 2 root va' = Some q) as ->.
    { rewrite <-Hq. cbn [pt_walk]. by rewrite !(PX_same _ _ _ Hd). }
    unfold m'. rewrite rd_wr by (done || apply PX_range).
    by rewrite decide_True by (by rewrite (PX_same _ _ _ Hd)).
  - destruct (pt_walk m 2 root va') as [q'|] eqn:E; [|done].
    unfold m'. rewrite rd_wr by (done || apply PX_range).
    rewrite decide_False; [done|]. intros [-> H0]. apply Hd.
    apply (pt_walk_owner m root o Hinv 2 root []) in E; [|apply Hinv|done].
    rewrite leaf_owner in E. injection E as E2 E1. by apply PX_page.
Qed.
End wr_leaf.

(** Linking a fresh zero page as a page table changes no mapping. *)
Section wr_table.
Context (m : Z -> bytes) (root : Z) (o : gmap Z (list Z)) (t : Z) (path : list Z) (i p : Z).
Hypotheses (Hm : ram_ok m) (Hinv : pt_inv m root o).
Hypotheses (Ht : o !! t = Some path) (Hl : (length path < 2)%nat) (Hi : 0 <= i < 512).
Hypotheses (Hno : has (rd m t i) PTE_V = false) (Hp : o !! p = None) (Hz : m p = zero_page).
Hypothesis (Hlow : path = [] -> i < 256).
Hypothesis (Hpa : 0 <= p < 2 ^ 54 /\ p mod PGSIZE = 0).
Let v := Z.lor (PA2PTE p) PTE_V.
Let m' := wr m t i v.

Lemma table_pte : v = leaf_pte p 0.
Proof. unfold v, leaf_pte. by rewrite Z.lor_0_r. Qed.

Lemma rd_wr_table q j :
  0 <= j < 512 -> rd m' q j = if decide (q = t /\ j = i) then v else rd m q j.
Proof.
  intros Hj. unfold m'. apply rd_wr; try done. rewrite table_pte.
  by apply leaf_pte_range; [|lia].
Qed.

Lemma zero_page_wr level va : leaf m' level p va = None.
Proof.
  apply zero_page_leaf. unfold m', wr. rewrite fupd_ne; [done|]. intros ->. congruence.
Qed.

Lemma leaf_wr_table level t' path' va :
  o !! t' = Some path' -> (length path' + level = 2)%nat -> leaf m' level t' va = leaf m level t' va.
Proof.
  revert t' path'. induction level as [|level IH]; intros t' path' Ht' Hl'.
  - unfold leaf. cbn [pt_walk]. rewrite rd_wr_table by apply PX_range.
    rewrite decide_False; [done|]. intros [-> _]. rewrite Ht in Ht'. simplify_eq. lia.
  - unfold leaf. cbn [pt_walk]. rewrite rd_wr_table by apply PX_range. case_decide as Hd.
    + destruct Hd as [-> ->]. rewrite Hno.
      assert (has v PTE_V = true) as -> by (rewrite table_pte; apply leaf_pte_valid; (done || lia)).
      rewrite table_pte, PTE2PA_leaf by (done || lia). apply zero_page_wr.
    + destruct (has (rd m t' _) PTE_V) eqn:E; [|reflexivity].
      apply (IH _ (path' ++ [PX (S level) va])).
      * apply (pi_next _ _ _ Hinv); [done|lia|apply PX_range|done].
      * rewrite length_app. simpl. lia.
Qed.

Lemma wr_table_entry q path' j :
  <[p := path ++ [i]]> o !! q = Some path' -> (length path' < 2)%nat -> 0 <= j < 512 ->
  has (rd m' q j) PTE_V = true ->
  (q = t /\ j = i /\ path' = path /\ rd m' q j = v) \/
  (o !! q = Some path' /\ has (rd m q j) PTE_V = true /\ rd m' q j = rd m q j).
Proof.
  intros Hq Hl' Hj. rewrite rd_wr_table by done.
  apply lookup_insert_Some in Hq as [[<- <-]|[Hne Hq]].
  - rewrite decide_False by (intros [-> _]; congruence). by rewrite rd_zero.
  - case_decide as Hd; [|auto]. destruct Hd as [-> ->]. rewrite Ht in Hq. simplify_eq. auto.
Qed.

Lemma wr_table_inv : pt_inv m' root (<[p := path ++ [i]]> o).
Proof.
  split.
  - rewrite lookup_insert_ne; [apply Hinv|]. intros ->. by rewrite (pi_root _ _ _ Hinv) in Hp.
  - intros q path' j Hq Hl' Hj Hval.
    destruct (wr_table_entry q path' j Hq Hl' Hj Hval) as [(-> & -> & -> & ->)|(Hq' & Hv' & ->)].
    + rewrite table_pte, PTE2PA_leaf by (done || lia). apply lookup_insert_eq.
    + pose proof (pi_next _ _ _ Hinv q path' j Hq' Hl' Hj Hv') as Hn.
      rewrite lookup_insert_ne; [done|]. intros ->. congruence.
  - intros q path' j Hq Hl' Hj Hval.
    destruct (wr_table_entry q path' j Hq Hl' Hj Hval) as [(-> & -> & -> & ->)|(Hq' & Hv' & ->)].
    + rewrite table_pte. unfold has. rewrite leaf_pte_bits; done.
    + by apply (pi_flags _ _ _ Hinv q path').
  - intros q path' [[<- <-]|[_ Hq]]%lookup_insert_Some; [rewrite length_app; simpl; lia|].
    by apply (pi_len _ _ _ Hinv q).
  - intros q [[_ E]|[_ Hq]]%lookup_insert_Some; [by destruct path|]. by apply (pi_one _ _ _ Hinv).
  - intros q j l [[<- E]|[_ Hq]]%lookup_insert_Some; [|by apply (pi_low _ _ _ Hinv) in Hq].
    destruct path as [|x path']; simplify_eq/=; [by apply Hlow|by apply (pi_low _ _ _ Hinv) in Ht].
  - intros q path' j [[<- E]|[Hne Hq]]%lookup_insert_Some.
    + apply app_inj_tail in E as [<- <-]. exists t. rewrite lookup_insert_ne by congruence.
      split; [done|]. split; [done|]. rewrite rd_wr_table, decide_True by done.
      rewrite table_pte, PTE2PA_leaf by (done || lia). split; [apply leaf_pte_valid; (done || lia)|done].
    + destruct (pi_prev _ _ _ Hinv q path' j Hq) as (p' & Hp' & Hj & Hval & E).
      exists p'. rewrite lookup_insert_ne by congruence. split; [done|]. split; [done|].
      rewrite rd_wr_table by done. rewrite decide_False; [done|]. intros [-> ->]. congruence.
Qed.
End wr_table.

(** ** Address spaces *)

Section spaces.
Context {A : Type} `{!PageAlloc A} `{!PageAllocLaws A}.
Implicit Types (s : vst A) (o : gmap Z (list Z)).

Definition pool s : gset Z := pa_pool (al s).

(** The page table at [root], with page-table pages [o]: no page of it is
    free, mapped pages are not page tables, not free and mapped once. *)
Record vm_ok s (root : Z) o : Prop := {
  vo_ram : ram_ok (ram s);
  vo_pt : pt_inv (ram s) root o;
  vo_al : pa_inv (al s);
  vo_tab : forall p, p ∈ dom o -> p ∉ pool s;
  vo_leaf : forall va pte, 0 <= va < MAXVA -> vmap (ram s) root va = Some pte ->
    (PTE2PA pte ∉ dom o) /\ (PTE2PA pte ∉ pool s) /\ PTE2PA pte <> 0;
  vo_inj : forall va va' pte pte', 0 <= va < MAXVA -> 0 <= va' < MAXVA ->
    vmap (ram s) root va = Some pte -> vmap (ram s) root va' = Some pte' ->
    PTE2PA pte = PTE2PA pte' -> va / 4096 = va' / 4096 }.

(** Page-table pages may be added, all of them from the pool; other pages and
    the valid entries stay. *)
Record vm_grow s o s' o' : Prop := {
  vg_sub : o ⊆ o';
  vg_new : dom o' ⊆ dom o ∪ pool s;
  vg_pool : pool s' = pool s ∖ dom o';
  vg_frame : forall p, p ∉ dom o' -> ram s' p = ram s p;
  vg_keep : forall p i, p ∈ dom o -> 0 <= i < 512 -> has (rd (ram s) p i) PTE_V = true ->
    rd (ram s') p i = rd (ram s) p i }.

Lemma pool_dom s root o : vm_ok s root o -> pool s = pool s ∖ dom o.
Proof.
  intros Hok. apply leibniz_equiv. pose proof (vo_tab _ _ _ Hok). set_solver.
Qed.

Lemma vm_grow_refl s o root : vm_ok s root o -> vm_grow s o s o.
Proof.
  intros Hok. split; try done; [apply union_subseteq_l|by eapply pool_dom].
Qed.

Lemma vm_grow_trans s1 o1 s2 o2 s3 o3 :
  vm_grow s1 o1 s2 o2 -> vm_grow s2 o2 s3 o3 -> vm_grow s1 o1 s3 o3.
Proof.
  intros [A1 A2 A3 A4 A5] [B1 B2 B3 B4 B5].
  assert (dom o1 ⊆ dom o2) by by apply subseteq_dom.
  assert (dom o2 ⊆ dom o3) by by apply subseteq_dom.
  split.
  - by etrans.
  - rewrite A3 in B2. set_solver.
  - rewrite B3, A3. apply leibniz_equiv. set_solver.
  - intros p Hp. rewrite B4 by done. apply A4. set_solver.
  - intros p i Hp Hi Hv. rewrite B5; [by apply A5|set_solver|done|]. by rewrite A5.
Qed.

Lemma ufkalloc_ok s root o :
  vm_ok s root o -> (0 < size (pool s))%nat ->
  exists p s', ufkalloc s = Ok p s' /\ ram s' = ram s /\ pa_inv (al s') /\
    p ∈ pool s /\ pool s' = pool s ∖ {[p]} /\ 0 < p < 2 ^ 54 /\ p mod PGSIZE = 0.
Proof.
  intros Hok Hsz. destruct (pa_alloc_ok (al s)) as (p & a' & E & Hi & Hp & Hpool).
  - apply Hok.
  - intros E. change (pa_pool (al s)) with (pool s) in E. rewrite E, size_empty in Hsz. lia.
  - exists p, (mkvst (ram s) a'). unfold ufkalloc, on_al. rewrite E.
    pose proof (pa_managed_ok p (pa_pool_managed _ _ (vo_al _ _ _ Hok) Hp)).
    repeat split; try done; tauto.
Qed.

Lemma pool_size_remove s s' p :
  p ∈ pool s -> pool s' = pool s ∖ {[p]} -> size (pool s) = S (size (pool s')).
Proof.
  intros Hp ->. rewrite size_difference by set_solver. rewrite size_singleton.
  assert (size ({[p]} : gset Z) <= size (pool s))%nat by (apply subseteq_size; set_solver).
  rewrite size_singleton in *. lia.
Qed.

(** A zeroed page from the pool becomes a page table. *)
Lemma link_table s s1 root o t path i p :
  vm_ok s root o -> o !! t = Some path -> (length path < 2)%nat -> 0 <= i < 512 ->
  (path = [] -> i < 256) ->
  has (rd (ram s) t i) PTE_V = false -> ram s1 = ram s -> pa_inv (al s1) ->
  p ∈ pool s -> pool s1 = pool s ∖ {[p]} -> 0 < p < 2 ^ 54 -> p mod PGSIZE = 0 ->
  let s2 := mkvst (wr (fupd (ram s1) p zero_page) t i (Z.lor (PA2PTE p) PTE_V)) (al s1) in
  let o2 := <[p := path ++ [i]]> o in
  vm_ok s2 root o2 /\ vm_grow s o s2 o2 /\
  rd (ram s2) t i = leaf_pte p 0 /\
  forall va, vmap (ram s2) root va = vmap (ram s) root va.
Proof.
  intros Hok Ht Hl Hi Hlow Hno Er Ha Hp Hpool Hp0 Hpm. rewrite Er. intros s2 o2.
  assert (o !! p = None) as Hpo.
  { apply not_elem_of_dom. intros Hin. by apply (vo_tab _ _ _ Hok) in Hin. }
  assert (t <> p) as Htp by (intros ->; congruence).
  set (m1 := fupd (ram s) p zero_page).
  assert (forall q, q ∈ dom o -> m1 q = ram s q) as Hf.
  { intros q Hq. unfold m1. apply fupd_ne. intros ->. by apply not_elem_of_dom in Hpo. }
  assert (ram_ok m1) as Hm1.
  { apply fupd_ok; [apply Hok|]. unfold zero_page. by rewrite length_replicate. }
  pose proof (pt_inv_frame _ _ _ (vo_pt _ _ _ Hok) m1 Hf) as Hinv1.
  assert (rd m1 t i = rd (ram s) t i) as Hrd.
  { unfold rd. rewrite Hf; [done|]. by eapply elem_of_dom_2. }
  assert (has (rd m1 t i) PTE_V = false) as Hno1 by by rewrite Hrd.
  assert (m1 p = zero_page) as Hz by apply fupd_eq.
  assert (0 <= p < 2 ^ 54 /\ p mod PGSIZE = 0) as Hpa by lia.
  assert (forall va, vmap (ram s2) root va = vmap (ram s) root va) as Hv.
  { intros va. rewrite <-(vmap_frame _ _ _ (vo_pt _ _ _ Hok) m1 va Hf).
    apply (leaf_wr_table m1 root o t path i p) with (path' := []); try done. apply Hok. }
  assert (rd (ram s2) t i = leaf_pte p 0) as Hslot.
  { unfold s2. cbn [ram]. rewrite rd_wr; try done.
    - rewrite decide_True by done. unfold leaf_pte. by rewrite Z.lor_0_r.
    - pose proof (leaf_pte_range p 0 Hpa ltac:(lia)) as Hr. unfold leaf_pte in Hr.
      by rewrite Z.lor_0_r in Hr. }
  assert (dom o2 = {[p]} ∪ dom o) as Hdom by (unfold o2; by rewrite dom_insert_L).
  split; [|split; [|done]].
  - split.
    + by apply wr_ok.
    + by apply (wr_table_inv m1 root o t path i p).
    + done.
    + intros q. rewrite Hdom. change (pool s2) with (pool s1). rewrite Hpool.
      pose proof (vo_tab _ _ _ Hok q). set_solver.
    + intros va pte Hva. rewrite Hv, Hdom. change (pool s2) with (pool s1). rewrite Hpool.
      intros E. destruct (vo_leaf _ _ _ Hok va pte Hva E) as (? & ? & ?). set_solver.
    + intros va va' pte pte' Hva Hva'. rewrite !Hv. by apply (vo_inj _ _ _ Hok).
  - split.
    + by apply insert_subseteq.
    + rewrite Hdom. set_solver.
    + change (pool s2) with (pool s1). rewrite Hpool, Hdom. apply leibniz_equiv.
      pose proof (vo_tab _ _ _ Hok). set_solver.
    + intros q. rewrite Hdom. intros Hq. unfold s2. cbn [ram]. unfold wr.
      rewrite fupd_ne; [apply fupd_ne; set_solver|]. intros ->. apply Hq.
      apply elem_of_union_r. by eapply elem_of_dom_2.
    + intros q j Hq Hj Hval. unfold s2. cbn [ram]. rewrite rd_wr; try done.
      * rewrite decide_False; [unfold rd; by rewrite Hf|]. intros [-> ->]. congruence.
      * pose proof (leaf_pte_range p 0 Hpa ltac:(lia)) as Hr. unfold leaf_pte in Hr.
        by rewrite Z.lor_0_r in Hr.
Qed.
Lemma walk_loop_alloc level t path va s root o :
  vm_ok s root o -> o !! t = Some path -> (length path + level = 2)%nat ->
  (level <= size (pool s))%nat -> 0 <= va < MAXVA ->
  runs (walk_loop level t va true) s (fun r s' => exists q o',
    r = Some (q, PX 0 va) /\ pt_walk (ram s') level t va = Some q /\
    vm_ok s' root o' /\ vm_grow s o s' o' /\
    (forall va', vmap (ram s') root va' = vmap (ram s) root va') /\
    (size (pool s) <= size (pool s') + level)%nat).
Proof.
  revert t path s o. induction level as [|level IH]; intros t path s o Hok Ht Hl Hsz Hva.
  - apply runs_ret. exists t, o. split; [done|]. split; [done|]. split; [done|].
    split; [by eapply vm_grow_refl|]. split; [done|lia].
  - cbn [walk_loop]. apply runs_bind, runs_gets. cbn [fst snd].
    fold (rd (ram s) t (PX (S level) va)).
    destruct (has (rd (ram s) t (PX (S level) va)) PTE_V) eqn:Hv.
    + eapply runs_mono; [apply (IH _ (path ++ [PX (S level) va]) s o); try done; try lia|].
      * apply (pi_next _ _ _ (vo_pt _ _ _ Hok)); [done|lia|apply PX_range|done].
      * rewrite length_app. simpl. lia.
      * intros r s' (q & o' & -> & Hq & Hok' & Hg & Hm & Hs). exists q, o'.
        split; [done|]. split; [|split; [done|split; [done|split; [done|lia]]]].
        cbn [pt_walk]. rewrite (vg_keep _ _ _ _ Hg), Hv; [done|by eapply elem_of_dom_2|apply PX_range|done].
    + cbn [negb]. destruct (ufkalloc_ok s root o) as (p & s1 & E & Er & Ha & Hp & Hpool & Hp0 & Hpm);
        [done|lia|].
      apply runs_bind. exists p, s1. split; [done|]. destruct (Z.eqb_spec p 0); [lia|].
      do 2 (apply runs_bind, runs_modify).
      destruct (link_table s s1 root o t path (PX (S level) va) p)
        as (Hok2 & Hg2 & Hslot & Hm2); try done; [lia|apply PX_range|..].
      { intros ->. simpl in Hl. replace level with 1%nat by lia. by apply PX_low. }
      pose proof (pool_size_remove _ _ _ Hp Hpool) as Hs1. cbn [ram al fst snd].
      set (s2 := mkvst (wr _ _ _ _) (al s1)) in Hok2, Hg2, Hslot, Hm2.
      change (mkvst _ _) with s2. assert (pool s2 = pool s1) as Hs2 by done.
      eapply runs_mono; [apply (IH p (path ++ [PX (S level) va]) s2); try done|].
      * apply lookup_insert_eq.
      * rewrite length_app. simpl. lia.
      * rewrite Hs2. lia.
      * intros r s' (q & o' & -> & Hq & Hok' & Hg & Hm & Hs). rewrite Hs2 in Hs. exists q, o'.
        split; [done|]. split; [|split; [done|split; [by eapply vm_grow_trans|split; [|lia]]]].
        -- cbn [pt_walk]. rewrite (vg_keep _ _ _ _ Hg); [| |apply PX_range|].
           ++ rewrite Hslot, leaf_pte_valid, PTE2PA_leaf by lia. done.
           ++ rewrite dom_insert. apply elem_of_union_r. by eapply elem_of_dom_2.
           ++ rewrite Hslot. apply leaf_pte_valid; lia.
        -- intros va'. by rewrite Hm.
Qed.

Lemma walk_alloc va s root o :
  vm_ok s root o -> 0 <= va < MAXVA -> (2 <= size (pool s))%nat ->
  runs (walk root va true) s (fun r s' => exists q o',
    r = Some (q, PX 0 va) /\ pt_walk (ram s') 2 root va = Some q /\
    vm_ok s' root o' /\ vm_grow s o s' o' /\
    (forall va', vmap (ram s') root va' = vmap (ram s) root va') /\
    (size (pool s) <= size (pool s') + 2)%nat).
Proof.
  intros Hok Hva Hsz. unfold walk. destruct (Z.leb_spec MAXVA va); [lia|].
  apply (walk_loop_alloc 2 root []); [done|apply Hok|done|done|done].
Qed.

Lemma walk_loop_read level t va s :
  walk_loop level t va false s =
  Ok ((fun q => (q, PX 0 va)) <$> pt_walk (ram s) level t va) s.
Proof.
  revert t. induction level as [|level IH]; intros t; [done|].
  cbn [walk_loop pt_walk]. mpure. cbn [fst snd]. fold (rd (ram s) t (PX (S level) va)).
  destruct (has _ PTE_V); [apply IH|done].
Qed.

Lemma walk_read root va s :
  va < MAXVA ->
  walk root va false s = Ok ((fun q => (q, PX 0 va)) <$> pt_walk (ram s) 2 root va) s.
Proof. intros. unfold walk. destruct (Z.leb_spec MAXVA va); [lia|]. apply walk_loop_read. Qed.

(** The page [pa] can be mapped: not a page table, not free, not mapped. *)
Definition mappable s root o (pa : Z) : Prop :=
  (pa ∉ dom o) /\ (pa ∉ pool s) /\ 0 < pa < 2 ^ 54 /\ pa mod PGSIZE = 0 /\
  forall va pte, 0 <= va < MAXVA -> vmap (ram s) root va = Some pte -> PTE2PA pte <> pa.

Lemma map_leaf s root o va q pa perm :
  vm_ok s root o -> 0 <= va < MAXVA -> pt_walk (ram s) 2 root va = Some q ->
  vmap (ram s) root va = None -> mappable s root o pa -> 0 <= perm < 1024 ->
  let s' := mkvst (wr (ram s) q (PX 0 va) (leaf_pte pa perm)) (al s) in
  vm_ok s' root o /\ vm_grow s o s' o /\
  forall va', 0 <= va' < MAXVA -> vmap (ram s') root va' =
    if decide (va' / 4096 = va / 4096) then Some (leaf_pte pa perm) else vmap (ram s) root va'.
Proof.
  intros Hok Hva Hq Hno (Hpo & Hpp & Hpr & Hpm & Hpn) Hperm s'.
  pose proof (leaf_pte_range pa perm ltac:(lia) Hperm) as Hr.
  pose proof (leaf_owner _ _ _ _ _ (vo_pt _ _ _ Hok) Hq) as Hown.
  assert (forall va', 0 <= va' < MAXVA -> vmap (ram s') root va' =
    if decide (va' / 4096 = va / 4096) then Some (leaf_pte pa perm) else vmap (ram s) root va') as Hv.
  { intros va' Hva'. unfold s'. cbn [ram].
    rewrite (wr_leaf_vmap _ _ _ va q _ (vo_ram _ _ _ Hok) (vo_pt _ _ _ Hok) Hq Hr) by done.
    by rewrite leaf_pte_valid by lia. }
  split; [|split; [|done]].
  - split.
    + apply wr_ok; [apply Hok|apply PX_range].
    + by apply (wr_leaf_inv _ _ _ va q _ (vo_ram _ _ _ Hok)); [apply Hok|..].
    + apply Hok.
    + apply Hok.
    + intros va' pte Hva'. rewrite Hv by done. case_decide as Hd.
      * intros [= <-]. rewrite PTE2PA_leaf by lia. split; [done|]. split; [done|lia].
      * by apply (vo_leaf _ _ _ Hok).
    + intros v1 v2 p1 p2 H1 H2. rewrite !Hv by done. repeat case_decide.
      * congruence.
      * intros [= <-] E. rewrite PTE2PA_leaf by lia. intros E'. by destruct (Hpn v2 p2 H2 E).
      * intros E [= <-]. rewrite PTE2PA_leaf by lia. intros E'. by destruct (Hpn v1 p1 H1 E).
      * by apply (vo_inj _ _ _ Hok).
  - split; try done.
    + apply union_subseteq_l.
    + change (pool s') with (pool s). by eapply pool_dom.
    + intros p Hp. unfold s'. cbn [ram]. unfold wr. apply fupd_ne. intros ->.
      apply Hp. by eapply elem_of_dom_2.
    + intros p i Hp Hi Hval. unfold s'. cbn [ram]. rewrite rd_wr by (done || apply Hok || apply PX_range).
      rewrite decide_False; [done|]. intros [-> ->].
      unfold vmap, leaf in Hno. by rewrite Hq, Hval in Hno.
Qed.
(** [m'] maps the [k] pages from [a] on to the pages from [pa] on, and the rest
    as [m] does. *)
Definition maps (m m' : Z -> bytes) (root a k pa perm : Z) : Prop :=
  forall va, 0 <= va < MAXVA -> vmap m' root va =
    if decide (a / 4096 <= va / 4096 < a / 4096 + k)
    then Some (leaf_pte (pa + 4096 * (va / 4096 - a / 4096)) perm)
    else vmap m root va.

Lemma mappable_grow s o s' o' root pa :
  vm_grow s o s' o' -> (forall va, vmap (ram s') root va = vmap (ram s) root va) ->
  mappable s root o pa -> mappable s' root o' pa.
Proof.
  intros Hg Hm (H1 & H2 & H3 & H4 & H5). pose proof (vg_new _ _ _ _ Hg) as Hn.
  pose proof (vg_pool _ _ _ _ Hg) as Hp. split; [|split; [|split; [done|split; [done|]]]].
  - intros Hin. apply Hn in Hin. apply elem_of_union in Hin. tauto.
  - rewrite Hp. intros Hin. apply elem_of_difference in Hin. tauto.
  - intros va pte. rewrite Hm. apply H5.
Qed.

Lemma vm_size s o s' o' : vm_grow s o s' o' -> (size (pool s') <= size (pool s))%nat.
Proof.
  intros Hg. rewrite (vg_pool _ _ _ _ Hg). apply subseteq_size.
  intros x Hx. by apply elem_of_difference in Hx as [].
Qed.

Lemma page_next a : (a + 4096) / 4096 = a / 4096 + 1.
Proof. replace (a + 4096) with (a + 1 * 4096) by lia. by apply Z.div_add. Qed.

Lemma mod_next a : a mod 4096 = 0 -> (a + 4096) mod 4096 = 0.
Proof. intros H. rewrite <-Zplus_mod_idemp_l, H. done. Qed.

Lemma mappages_loop_ok k fuel a pa perm s root o :
  vm_ok s root o -> a mod 4096 = 0 -> 0 <= a -> a + 4096 * Z.of_nat k < MAXVA -> (k < fuel)%nat ->
  (forall va, 0 <= va < MAXVA -> a / 4096 <= va / 4096 <= a / 4096 + Z.of_nat k ->
    vmap (ram s) root va = None) ->
  (forall j, 0 <= j <= Z.of_nat k -> mappable s root o (pa + 4096 * j)) -> 0 <= perm < 1024 ->
  (2 * S k <= size (pool s))%nat ->
  runs (mappages_loop fuel root a (a + 4096 * Z.of_nat k) pa perm) s (fun r s' =>
    r = 0 /\ exists o', vm_ok s' root o' /\ vm_grow s o s' o' /\
    maps (ram s) (ram s') root a (Z.of_nat k + 1) pa perm /\
    (size (pool s) <= size (pool s') + 2 * S k)%nat).
Proof.
  revert fuel a pa s o. induction k as [|k IH];
    intros fuel a pa s o Hok Ha Ha0 Hlast Hfuel Hno Hmap Hperm Hsz;
    (destruct fuel as [|fuel]; [lia|]); cbn [mappages_loop].
  all: apply runs_bind; eapply runs_mono; [apply (walk_alloc a s root o); [done|lia|lia]|].
  all: intros r s1 (q & o1 & -> & Hq & Hok1 & Hg1 & Hm1 & Hs1).
  all: assert (vmap (ram s1) root a = None) as Hna by (rewrite Hm1; apply Hno; lia).
  all: assert (mappable s1 root o1 pa) as Hpa
    by (eapply mappable_grow; [done|done|]; replace pa with (pa + 4096 * 0) by lia; apply Hmap; lia).
  all: apply runs_bind, runs_gets; cbn [fst snd]; fold (rd (ram s1) q (PX 0 a)).
  all: assert (has (rd (ram s1) q (PX 0 a)) PTE_V = false) as ->
    by (unfold vmap, leaf in Hna; rewrite Hq in Hna; by destruct (has _ PTE_V)).
  all: apply runs_bind, runs_modify; cbn [fst snd]; fold (wr (ram s1) q (PX 0 a)).
  all: fold (leaf_pte pa perm); cbn beta.
  all: destruct (map_leaf s1 root o1 a q pa perm) as (Hok2 & Hg2 & Hm2); try done; try lia.
  all: set (s2 := mkvst _ (al s1)) in *.
  all: assert (pool s2 = pool s1) as Ep by done.
  all: pose proof (vm_grow_trans _ _ _ _ _ _ Hg1 Hg2) as Hg12.
  - change (mkvst _ _) with s2. rewrite Z.mul_0_r, Z.add_0_r, Z.eqb_refl. apply runs_ret.
    split; [done|]. exists o1. split; [done|]. split; [done|]. split; [|rewrite Ep; lia].
    intros va Hva. rewrite Hm2, Hm1 by done. case_decide as Hd; case_decide as Hd'; try lia; [|done].
    do 2 f_equal. lia.
  - change (mkvst _ _) with s2. destruct (Z.eqb_spec a (a + 4096 * Z.of_nat (S k))); [lia|].
    destruct Hpa as (P1 & P2 & P3 & P4 & P5). unfold MAXVA, PGSIZE in *.
    rewrite !u64_small by lia.
    replace (a + 4096 * Z.of_nat (S k)) with ((a + 4096) + 4096 * Z.of_nat k) in * by lia.
    pose proof (page_next a) as Ea.
    eapply runs_mono; [apply (IH fuel (a + 4096) (pa + 4096) s2 o1); try done; try lia|].
    + by apply mod_next.
    + intros va Hva Hr. rewrite Hm2, Hm1 by done. rewrite decide_False by lia. apply Hno; [done|lia].
    + intros j Hj. destruct (mappable_grow s o s1 o1 root (pa + 4096 * (j + 1)) Hg1 Hm1)
        as (Q1 & Q2 & Q3 & Q4 & Q5); [apply Hmap; lia|].
      replace (pa + 4096 + 4096 * j) with (pa + 4096 * (j + 1)) by lia.
      split; [done|]. split; [done|]. split; [done|]. split; [done|].
      intros va pte Hva. rewrite Hm2 by done. case_decide; [|by apply Q5].
      intros [= <-]. rewrite PTE2PA_leaf by (unfold PGSIZE; lia). lia.
    + rewrite Ep. lia.
    + intros r s' (-> & o' & Hok' & Hg' & Hm' & Hs'). split; [done|]. exists o'.
      split; [done|]. split; [by eapply vm_grow_trans|]. split; [|rewrite Ep in Hs'; lia].
      intros va Hva. rewrite Hm' by done. rewrite Hm2, Hm1 by done.
      rewrite Ea. clear -Ha. repeat case_decide; try done; try lia; do 2 f_equal; lia.
Qed.
(** The page loops run over whole pages. *)
Lemma page_range va size :
  0 <= va -> 0 < size -> va + size <= MAXVA ->
  exists k : nat, Z.of_nat k = (va + size - 1) / 4096 - va / 4096 /\
    PGROUNDDOWN (u64 (va + size - 1)) = PGROUNDDOWN va + 4096 * Z.of_nat k /\
    PGROUNDDOWN va + 4096 * Z.of_nat k < MAXVA /\ 0 <= PGROUNDDOWN va /\
    PGROUNDDOWN va mod 4096 = 0 /\ PGROUNDDOWN va / 4096 = va / 4096 /\
    (k < pages_to (PGROUNDDOWN va) (PGROUNDDOWN (u64 (va + size - 1))))%nat.
Proof.
  intros H0 H1 H2. unfold MAXVA in *. rewrite u64_small by lia.
  rewrite !PGROUNDDOWN_eq. unfold PGSIZE.
  assert (va / 4096 <= (va + size - 1) / 4096) by (apply Z.div_le_mono; lia).
  exists (Z.to_nat ((va + size - 1) / 4096 - va / 4096)). rewrite Z2Nat.id by lia.
  assert (4096 * ((va + size - 1) / 4096) <= va + size - 1) by (apply Z.mul_div_le; lia).
  assert (0 <= va / 4096) by (apply Z.div_pos; lia).
  split; [done|]. split; [lia|]. split; [lia|]. split; [lia|].
  split; [rewrite Z.mul_comm; apply Z_mod_mult|].
  split; [rewrite Z.mul_comm; apply Z.div_mul; lia|].
  unfold pages_to, MAXVA, PGSIZE. set (x := (va + size - 1) / 4096) in *. set (y := va / 4096) in *.
  clearbody x y. destruct (Z.leb_spec (4096 * y) (4096 * x)); [|lia].
  rewrite Z.min_l by lia. replace (4096 * x - 4096 * y) with ((x - y) * 4096) by lia.
  rewrite Z.div_mul by lia. lia.
Qed.

Lemma mappages_ok va size pa perm s root o :
  vm_ok s root o -> 0 <= va -> 0 < size -> va + size <= MAXVA ->
  let k := (va + size - 1) / 4096 - va / 4096 in
  (forall v, 0 <= v < MAXVA -> va / 4096 <= v / 4096 <= va / 4096 + k -> vmap (ram s) root v = None) ->
  (forall j, 0 <= j <= k -> mappable s root o (pa + 4096 * j)) -> 0 <= perm < 1024 ->
  2 * (k + 1) <= Z.of_nat (base.size (pool s)) ->
  runs (mappages root va size pa perm) s (fun r s' =>
    r = 0 /\ exists o', vm_ok s' root o' /\ vm_grow s o s' o' /\
    maps (ram s) (ram s') root va (k + 1) pa perm /\
    Z.of_nat (base.size (pool s)) <= Z.of_nat (base.size (pool s')) + 2 * (k + 1)).
Proof.
  intros Hok H0 H1 H2 k Hno Hmap Hperm Hsz.
  destruct (page_range va size H0 H1 H2) as (n & Hn & El & Hlast & Ha0 & Ham & Ead & Hf).
  fold k in Hn. unfold mappages. cbv zeta. rewrite El. rewrite El in Hf.
  eapply runs_mono; [apply (mappages_loop_ok n); try done; try lia|].
  - intros v Hv. rewrite Ead, Hn. by apply Hno.
  - rewrite Hn. done.
  - intros r s' (-> & o' & Hok' & Hg & Hm & Hs). split; [done|]. exists o'.
    split; [done|]. split; [done|]. split; [|lia].
    intros v Hv. rewrite Hm by done. by rewrite Ead, Hn.
Qed.

(** Removing the leaf entry of [va]; [F] are the pages given back. *)
Lemma unmap_leaf s s1 root o va q pte :
  vm_ok s root o -> 0 <= va < MAXVA -> pt_walk (ram s) 2 root va = Some q ->
  vmap (ram s) root va = Some pte -> ram s1 = ram s -> pa_inv (al s1) ->
  pool s1 = pool s \/ pool s1 = {[PTE2PA pte]} ∪ pool s ->
  let s' := mkvst (wr (ram s1) q (PX 0 va) 0) (al s1) in
  vm_ok s' root o /\
  (forall p, p ∉ dom o -> ram s' p = ram s p) /\
  forall va', 0 <= va' < MAXVA -> vmap (ram s') root va' =
    if decide (va' / 4096 = va / 4096) then None else vmap (ram s) root va'.
Proof.
  intros Hok Hva Hq Hpte Er Hal Hpool s'. unfold s'. rewrite Er. clear s'.
  pose proof (leaf_owner _ _ _ _ _ (vo_pt _ _ _ Hok) Hq) as Hown.
  set (s' := mkvst _ _).
  assert (forall va', 0 <= va' < MAXVA -> vmap (ram s') root va' =
    if decide (va' / 4096 = va / 4096) then None else vmap (ram s) root va') as Hv.
  { intros va' Hva'. unfold s'. cbn [ram].
    by rewrite (wr_leaf_vmap _ _ _ va q 0 (vo_ram _ _ _ Hok) (vo_pt _ _ _ Hok) Hq) by (done || lia). }
  destruct (vo_leaf _ _ _ Hok va pte Hva Hpte) as (L1 & L2 & L3).
  split; [|split; [|done]].
  - split; change (pool s') with (pool s1).
    + apply wr_ok; [apply Hok|apply PX_range].
    + apply (wr_leaf_inv _ _ _ va q 0 (vo_ram _ _ _ Hok)); [apply Hok|done|lia].
    + done.
    + intros p Hp. pose proof (vo_tab _ _ _ Hok p Hp).
      destruct Hpool as [-> | ->]; [done|]. rewrite elem_of_union, elem_of_singleton.
      intros [->|?]; done.
    + intros va' pte' Hva'. rewrite Hv by done. case_decide as Hd; [done|]. intros E.
      destruct (vo_leaf _ _ _ Hok va' pte' Hva' E) as (M1 & M2 & M3).
      split; [done|]. split; [|done]. destruct Hpool as [-> | ->]; [done|].
      rewrite elem_of_union, elem_of_singleton. intros [E'|?]; [|done].
      by apply Hd, (vo_inj _ _ _ Hok va' va pte' pte).
    + intros v1 v2 p1 p2 H1 H2. rewrite !Hv by done.
      repeat case_decide; try done. by apply (vo_inj _ _ _ Hok).
  - intros p Hp. unfold s'. cbn [ram]. unfold wr. apply fupd_ne. intros ->.
    apply Hp. by eapply elem_of_dom_2.
Qed.

Lemma ufkfree_ok s root o p :
  vm_ok s root o -> pa_managed p -> p ∉ pool s ->
  exists s', ufkfree p s = Ok tt s' /\ ram s' = ram s /\ pa_inv (al s') /\ pool s' = {[p]} ∪ pool s.
Proof.
  intros Hok Hm Hp. destruct (pa_free_ok (al s) p) as (a' & E & Hi & Hpool); [apply Hok|done|done|].
  exists (mkvst (ram s) a'). unfold ufkfree, on_al. by rewrite E.
Qed.

(** The pages that the [k + 1] pages from [a] on are mapped to. *)
Definition frames (m : Z -> bytes) (root a k p : Z) : Prop :=
  exists va pte, 0 <= va < MAXVA /\ a / 4096 <= va / 4096 <= a / 4096 + k /\
    vmap m root va = Some pte /\ PTE2PA pte = p.

(** What [uvmunmap] needs of a page: mapped by a leaf entry, and given out by
    the allocator if it is to be freed. *)
Definition unmappable (m : Z -> bytes) (root va : Z) (do_free : bool) : Prop :=
  exists pte, vmap m root va = Some pte /\ PTE_FLAGS pte <> PTE_V /\
    (do_free = true -> pa_managed (PTE2PA pte)).

Definition unmaps s s' root o (a k : Z) (do_free : bool) : Prop :=
  vm_ok s' root o /\ (forall p, p ∉ dom o -> ram s' p = ram s p) /\
  (forall va, 0 <= va < MAXVA -> vmap (ram s') root va =
    if decide (a / 4096 <= va / 4096 <= a / 4096 + k) then None else vmap (ram s) root va) /\
  (forall p, p ∈ pool s' <-> p ∈ pool s \/ (do_free = true /\ frames (ram s) root a k p)).

Lemma vmap_walk m root va pte :
  vmap m root va = Some pte ->
  exists q, pt_walk m 2 root va = Some q /\ rd m q (PX 0 va) = pte /\ has pte PTE_V = true.
Proof.
  unfold vmap, leaf. destruct (pt_walk m 2 root va) as [q|]; [|done].
  destruct (has _ PTE_V) eqn:E; [|done]. intros [= <-]. eauto.
Qed.

(** One page: [walk], the checks, the optional free and the reset. *)
Lemma unmap_page a s root o do_free pte :
  vm_ok s root o -> 0 <= a < MAXVA -> vmap (ram s) root a = Some pte ->
  (do_free = true -> pa_managed (PTE2PA pte)) ->
  exists q s1, walk root a false s = Ok (Some (q, PX 0 a)) s /\ rd (ram s) q (PX 0 a) = pte /\
    has pte PTE_V = true /\
    when do_free (ufkfree (PTE2PA pte)) s = Ok tt s1 /\ ram s1 = ram s /\
    unmaps s (mkvst (wr (ram s1) q (PX 0 a) 0) (al s1)) root o a 0 do_free.
Proof.
  intros Hok Ha Hpte Hman. destruct (vmap_walk _ _ _ _ Hpte) as (q & Hq & Hrd & Hval).
  destruct (vo_leaf _ _ _ Hok a pte Ha Hpte) as (L1 & L2 & L3).
  assert (exists s1, when do_free (ufkfree (PTE2PA pte)) s = Ok tt s1 /\ ram s1 = ram s /\
    pa_inv (al s1) /\ pool s1 = if do_free then {[PTE2PA pte]} ∪ pool s else pool s) as
    (s1 & E1 & Er & Hal & Hpool).
  { destruct do_free; [by apply (ufkfree_ok s root o); auto|].
    exists s. repeat split; try done. apply Hok. }
  exists q, s1. rewrite walk_read, Hq by lia. repeat (split; [done|]).
  destruct (unmap_leaf s s1 root o a q pte) as (U1 & U2 & U3); try done.
  { destruct do_free; auto. }
  split; [done|]. split; [done|]. split.
  - intros va Hva. rewrite U3 by done. repeat case_decide; try done; lia.
  - intros p. change (pool (mkvst _ (al s1))) with (pool s1). rewrite Hpool. destruct do_free.
    + rewrite elem_of_union, elem_of_singleton. split.
      * intros [->|?]; [|tauto]. right. split; [done|]. exists a, pte. repeat split; try done; lia.
      * intros [?|[_ (va & pte' & Hva & Hr & Hv & <-)]]; [tauto|]. left.
        rewrite (vmap_same _ _ va a) in Hv by lia. congruence.
    + split; [tauto|]. intros [?|[? _]]; done.
Qed.
Lemma unmaps_next s s2 s' root o a k do_free :
  0 <= k -> unmaps s s2 root o a 0 do_free -> unmaps s2 s' root o (a + 4096) k do_free ->
  unmaps s s' root o a (k + 1) do_free.
Proof.
  intros Hk (A1 & A2 & A3 & A4) (B1 & B2 & B3 & B4). pose proof (page_next a) as Ea.
  split; [done|]. split; [|split].
  - intros p Hp. rewrite B2, A2; done.
  - intros va Hva. rewrite B3, A3 by done. rewrite Ea. clear -Hk.
    repeat case_decide; try done; lia.
  - intros p. rewrite B4, A4. unfold frames. setoid_rewrite Ea. split.
    + intros [[?|[-> (va & pte & ? & ? & ? & ?)]]|[-> (va & pte & Hva & Hr & Hv & ?)]]; [tauto|..];
        right; (split; [done|]); exists va, pte; repeat (split; [done || lia|]); [done|].
      rewrite A3 in Hv by done. case_decide; [lia|]. repeat (split; [done || lia|]). done.
    + intros [?|[-> (va & pte & Hva & Hr & Hv & ?)]]; [tauto|].
      destruct (decide (va / 4096 = a / 4096)).
      * left. right. split; [done|]. exists va, pte. repeat (split; [done || lia|]). done.
      * right. split; [done|]. exists va, pte. repeat (split; [done || lia|]). split; [|done].
        rewrite A3 by done. by rewrite decide_False by lia.
Qed.

Lemma uvmunmap_loop_ok k fuel a do_free s root o :
  vm_ok s root o -> 0 <= a -> a + 4096 * Z.of_nat k < MAXVA -> (k < fuel)%nat ->
  (forall va, 0 <= va < MAXVA -> a / 4096 <= va / 4096 <= a / 4096 + Z.of_nat k ->
    unmappable (ram s) root va do_free) ->
  runs (uvmunmap_loop fuel root a (a + 4096 * Z.of_nat k) do_free) s (fun _ s' =>
    unmaps s s' root o a (Z.of_nat k) do_free).
Proof.
  revert fuel a s. induction k as [|k IH]; intros fuel a s Hok Ha0 Hlast Hfuel Hum;
    (destruct fuel as [|fuel]; [lia|]); cbn [uvmunmap_loop].
  all: destruct (Hum a) as (pte & Hpte & Hfl & Hman); [lia|lia|].
  all: destruct (unmap_page a s root o do_free pte) as
    (q & s1 & Hw & Hrd & Hval & Hfree & Er & Hun); try done; [lia|].
  all: apply runs_bind; exists (Some (q, PX 0 a)), s; (split; [done|]).
  all: apply runs_bind, runs_gets; cbn [fst snd]; fold (rd (ram s) q (PX 0 a)).
  all: rewrite Hrd, Hval; cbn [negb]; (destruct (Z.eqb_spec (PTE_FLAGS pte) PTE_V); [done|]).
  all: apply runs_bind; exists tt, s1; (split; [done|]).
  all: apply runs_bind, runs_modify; cbn [fst snd]; fold (wr (ram s1) q (PX 0 a) 0).
  all: set (s2 := mkvst _ (al s1)) in *.
  - rewrite Z.mul_0_r, Z.add_0_r, Z.eqb_refl. by apply runs_ret.
  - destruct (Z.eqb_spec a (a + 4096 * Z.of_nat (S k))); [lia|].
    unfold MAXVA, PGSIZE in *. rewrite u64_small by lia.
    replace (a + 4096 * Z.of_nat (S k)) with ((a + 4096) + 4096 * Z.of_nat k) in * by lia.
    pose proof (page_next a) as Ea. destruct Hun as (U1 & U2 & U3 & U4).
    eapply runs_mono; [apply IH; try done; try lia|].
    + intros va Hva Hr. unfold unmappable. rewrite U3 by done. rewrite decide_False by lia.
      apply Hum; [done|lia].
    + intros ? s' Hs'. cbv beta in Hs'. replace (Z.of_nat (S k)) with (Z.of_nat k + 1) by lia.
      apply (unmaps_next s s2 s'); [lia|done|done].
Qed.

Lemma uvmunmap_ok va size do_free s root o :
  vm_ok s root o -> 0 <= va -> 0 < size -> va + size <= MAXVA ->
  let k := (va + size - 1) / 4096 - va / 4096 in
  (forall v, 0 <= v < MAXVA -> va / 4096 <= v / 4096 <= va / 4096 + k ->
    unmappable (ram s) root v do_free) ->
  runs (uvmunmap root va size do_free) s (fun _ s' => unmaps s s' root o va k do_free).
Proof.
  intros Hok H0 H1 H2 k Hum.
  destruct (page_range va size H0 H1 H2) as (n & Hn & El & Hlast & Ha0 & Ham & Ead & Hf).
  fold k in Hn. unfold uvmunmap. cbv zeta. rewrite El. rewrite El in Hf.
  eapply runs_mono; [apply (uvmunmap_loop_ok n); try done; try lia|].
  - intros v Hv. rewrite Ead, Hn. by apply Hum.
  - intros ? s' (U1 & U2 & U3 & U4). unfold unmaps, frames in *.
    rewrite Ead, Hn in U3, U4. done.
Qed.
(** ** User memory *)

(** The byte that a user program reads at [va]. *)
Definition ubyte s (root va : Z) : option Z :=
  if decide (0 <= va < MAXVA) then
    match vmap (ram s) root va with
    | Some pte => if has pte PTE_U then ram s (PTE2PA pte) !! Z.to_nat (va mod 4096) else None
    | None => None
    end
  else None.

(** The user page of [va], if there is one. *)
Definition upage s (root va : Z) : option Z :=
  if decide (0 <= va < MAXVA) then
    match vmap (ram s) root va with
    | Some pte => if has pte PTE_U then Some (PTE2PA pte) else None
    | None => None
    end
  else None.

Lemma ubyte_upage s root va :
  ubyte s root va = upage s root va ≫= fun p => ram s p !! Z.to_nat (va mod 4096).
Proof.
  unfold ubyte, upage. case_decide; [|done]. destruct (vmap _ _ _) as [pte|]; [|done].
  by destruct (has pte PTE_U).
Qed.

Lemma page_bounds va : 0 <= va < MAXVA <-> 0 <= PGROUNDDOWN va < MAXVA.
Proof.
  rewrite PGROUNDDOWN_eq. unfold MAXVA, PGSIZE. change (2 ^ 38) with (4096 * 67108864).
  pose proof (Z.div_mod va 4096 ltac:(lia)). pose proof (Z.mod_pos_bound va 4096 ltac:(lia)). lia.
Qed.

Lemma upage_same s root va va' :
  va / 4096 = va' / 4096 -> upage s root va = upage s root va'.
Proof.
  intros Hp. unfold upage. rewrite (vmap_same _ _ _ _ Hp).
  destruct (decide (0 <= va < MAXVA)) as [H1|H1], (decide (0 <= va' < MAXVA)) as [H2|H2]; try done;
    exfalso; rewrite page_bounds, PGROUNDDOWN_eq in H1; rewrite page_bounds, PGROUNDDOWN_eq in H2;
    unfold PGSIZE in *; rewrite Hp in H1; tauto.
Qed.

Lemma walkaddr_ok s root va :
  0 <= va -> walkaddr root va s = Ok (default 0 (upage s root va)) s.
Proof.
  intros H0. unfold walkaddr, upage. destruct (Z.leb_spec MAXVA va).
  - by rewrite decide_False by lia.
  - rewrite decide_True by lia. mrun (walk_read root va s ltac:(done)).
    unfold vmap, leaf. destruct (pt_walk (ram s) 2 root va) as [q|]; [|done]. cbn [fmap option_fmap option_map].
    mpure. cbn [fst snd]. fold (rd (ram s) q (PX 0 va)).
    destruct (has (rd (ram s) q (PX 0 va)) PTE_V); cbn [negb]; [|done].
    by destruct (has (rd (ram s) q (PX 0 va)) PTE_U).
Qed.

Lemma upage_inv s root va p :
  upage s root va = Some p ->
  0 <= va < MAXVA /\ exists pte, vmap (ram s) root va = Some pte /\ has pte PTE_U = true /\ PTE2PA pte = p.
Proof.
  unfold upage. case_decide; [|done]. destruct (vmap _ _ _) as [pte|] eqn:E; [|done].
  destruct (has pte PTE_U) eqn:E'; [|done]. intros [= <-]. eauto.
Qed.

Lemma upage_ok s root o va p :
  vm_ok s root o -> upage s root va = Some p -> p <> 0 /\ (p ∉ dom o) /\ (p ∉ pool s).
Proof.
  intros Hok (Hva & pte & Hv & _ & <-)%upage_inv.
  destruct (vo_leaf _ _ _ Hok va pte Hva Hv) as (? & ? & ?). done.
Qed.

Lemma page_split srcva :
  PGROUNDDOWN srcva / 4096 = srcva / 4096 /\ srcva - PGROUNDDOWN srcva = srcva mod 4096 /\
  (0 <= srcva -> 0 <= PGROUNDDOWN srcva).
Proof.
  rewrite PGROUNDDOWN_eq. unfold PGSIZE. split; [rewrite Z.mul_comm; apply Z.div_mul; lia|].
  split; [|intros; assert (0 <= srcva / 4096) by (apply Z.div_pos; lia); lia].
  pose proof (Z.div_mod srcva 4096). lia.
Qed.

Lemma same_page_off va i :
  0 <= i -> va mod 4096 + i < 4096 ->
  (va + i) / 4096 = va / 4096 /\ (va + i) mod 4096 = va mod 4096 + i.
Proof.
  intros Hi Hlt. pose proof (Z.mod_pos_bound va 4096). pose proof (Z.div_mod va 4096).
  assert ((va + i) / 4096 = va / 4096) as E.
  { symmetry. apply Z.div_unique with (va mod 4096 + i); lia. }
  split; [done|]. rewrite Z.mod_eq, E by lia. lia.
Qed.

Lemma ubyte_page s root o va p i :
  vm_ok s root o -> upage s root va = Some p -> 0 <= i -> va mod 4096 + i < 4096 ->
  ubyte s root (va + i) = ram s p !! Z.to_nat (va mod 4096 + i).
Proof.
  intros Hok Hp Hi Hlt. destruct (same_page_off va i Hi Hlt) as [E1 E2].
  rewrite ubyte_upage, (upage_same _ _ _ _ E1), Hp. cbn. by rewrite E2.
Qed.

(** What [copyin] returns: 0 and the bytes that the user program sees, or -1
    after the bytes in front of the first one that it cannot read. *)
Lemma copyin_loop_ok fuel s root o srcva len dst :
  vm_ok s root o -> 0 <= srcva < 2 ^ 64 -> 0 <= len < Z.of_nat fuel ->
  exists r data, copyin_loop fuel root srcva len dst s = Ok (r, dst ++ data) s /\
    (forall i, (i < length data)%nat -> data !! i = ubyte s root (srcva + Z.of_nat i)) /\
    ((r = 0 /\ Z.of_nat (length data) = len) \/
     (r = -1 /\ Z.of_nat (length data) < len /\ ubyte s root (srcva + Z.of_nat (length data)) = None)).
Proof.
  intros Hok. revert srcva len dst. induction fuel as [|fuel IH]; intros srcva len dst Hs Hl; [lia|].
  cbn [copyin_loop]. destruct (Z.ltb_spec 0 len) as [Hpos|Hz].
  2: { exists 0, []. rewrite app_nil_r. split; [done|]. split; [intros i Hi; simpl in Hi; lia|].
       left. simpl. lia. }
  cbv zeta. destruct (page_split srcva) as (E1 & E2 & E3).
  rewrite (bind_ok _ _ _ _ _ (walkaddr_ok s root (PGROUNDDOWN srcva) ltac:(lia))).
  rewrite (upage_same s root _ srcva E1). destruct (upage s root srcva) as [pg|] eqn:Hpg; cbn [default].
  2: { exists (-1), []. rewrite app_nil_r. split; [done|]. split; [intros i Hi; simpl in Hi; lia|].
       right. simpl. rewrite Z.add_0_r, ubyte_upage, Hpg. split; [done|]. split; [lia|done]. }
  destruct (upage_ok _ _ _ _ _ Hok Hpg) as (Hne & _). unfold id. destruct (Z.eqb_spec pg 0) as [|_]; [done|].
  rewrite (bind_ok (get_page pg) _ s (ram s pg) s eq_refl). rewrite E2. pose proof (Z.mod_pos_bound srcva 4096 ltac:(lia)) as Hb.
  unfold PGSIZE. set (n := Z.min (4096 - srcva mod 4096) len).
  assert (0 < n) by lia. pose proof (proj1 (upage_inv _ _ _ _ Hpg)) as Hva.
  assert (PGROUNDDOWN srcva + 4096 = srcva - srcva mod 4096 + 4096) as E4 by lia.
  rewrite u64_small by (unfold MAXVA in *; lia). rewrite E4.
  destruct (IH (srcva - srcva mod 4096 + 4096) (len - n)
    (dst ++ sub_bytes (Z.to_nat (srcva mod 4096)) (Z.to_nat n) (ram s pg)))
    as (r & data & E & Hd & Hr); [unfold MAXVA in *; lia|lia|].
  set (d1 := sub_bytes _ _ _) in *.
  assert (length d1 = Z.to_nat n) as Hd1.
  { apply length_sub_bytes. rewrite (vo_ram _ _ _ Hok). unfold PGSIZE. lia. }
  assert (srcva - srcva mod 4096 + 4096 = srcva + n \/ n = len) as Hn by lia.
  exists r, (d1 ++ data). split; [by rewrite app_assoc|]. rewrite length_app, Hd1. split.
  - intros i Hi. destruct (decide (i < Z.to_nat n)%nat) as [Hin|Hin].
    + rewrite lookup_app_l by lia. unfold d1. rewrite lookup_sub_bytes, decide_True by done.
      rewrite (ubyte_page s root o srcva pg) by (done || lia). f_equal. lia.
    + destruct Hn as [Hn|Hn]; [|lia]. rewrite lookup_app_r, Hd1 by lia. rewrite Hd by lia. f_equal. lia.
  - destruct Hr as [[-> Hr]|(-> & Hr & Hu)]; [left; lia|right]. split; [done|]. split; [lia|].
    rewrite <-Hu. f_equal. lia.
Qed.
(** Storing data in a page that is neither free nor a page table. *)
Lemma vm_store s root o p v :
  vm_ok s root o -> p ∉ dom o -> length v = Z.to_nat PGSIZE ->
  let s' := mkvst (fupd (ram s) p v) (al s) in
  vm_ok s' root o /\ forall va, vmap (ram s') root va = vmap (ram s) root va.
Proof.
  intros Hok Hp Hv s'.
  assert (forall q, q ∈ dom o -> ram s' q = ram s q) as Hf.
  { intros q Hq. unfold s'. cbn [ram]. apply fupd_ne. by intros ->. }
  assert (forall va, vmap (ram s') root va = vmap (ram s) root va) as Hm.
  { intros va. by apply (vmap_frame _ _ _ (vo_pt _ _ _ Hok)). }
  split; [|done]. split; change (pool s') with (pool s).
  - by apply fupd_ok; [apply Hok|].
  - by apply (pt_inv_frame _ _ _ (vo_pt _ _ _ Hok)).
  - apply Hok.
  - apply Hok.
  - intros va pte Hva. rewrite Hm. by apply (vo_leaf _ _ _ Hok).
  - intros va va' pte pte' Hva Hva'. rewrite !Hm. by apply (vo_inj _ _ _ Hok).
Qed.

Lemma upage_inj s root o va va' p :
  vm_ok s root o -> upage s root va = Some p -> upage s root va' = Some p -> va / 4096 = va' / 4096.
Proof.
  intros Hok (Hva & pte & Hv & _ & E)%upage_inv (Hva' & pte' & Hv' & _ & E')%upage_inv.
  apply (vo_inj _ _ _ Hok va va' pte pte'); congruence.
Qed.

(** User memory after [v] has been stored at [va], within the page. *)
Lemma ubyte_store s root o va p v :
  vm_ok s root o -> upage s root va = Some p -> va mod 4096 + Z.of_nat (length v) <= 4096 ->
  let s' := mkvst (fupd (ram s) p (upd_bytes (Z.to_nat (va mod 4096)) v (ram s p))) (al s) in
  vm_ok s' root o /\ (forall va', vmap (ram s') root va' = vmap (ram s) root va') /\
  forall va', ubyte s' root va' =
    if decide (va <= va' < va + Z.of_nat (length v)) then v !! Z.to_nat (va' - va)
    else ubyte s root va'.
Proof.
  intros Hok Hp Hlen s'. destruct (upage_ok _ _ _ _ _ Hok Hp) as (_ & Hpo & _).
  pose proof (Z.mod_pos_bound va 4096 ltac:(lia)) as Hb.
  assert ((Z.to_nat (va mod 4096) + length v <= length (ram s p))%nat) as Hl.
  { rewrite (vo_ram _ _ _ Hok). unfold PGSIZE. lia. }
  destruct (vm_store s root o p (upd_bytes (Z.to_nat (va mod 4096)) v (ram s p)) Hok Hpo) as [Hok' Hm].
  { rewrite length_upd_bytes by done. apply Hok. }
  fold s' in Hok', Hm. split; [done|]. split; [done|]. intros va'.
  rewrite !ubyte_upage. assert (upage s' root va' = upage s root va') as ->.
  { unfold upage. by rewrite Hm. }
  destruct (decide (va / 4096 = va' / 4096)) as [Hsame|Hdiff].
  - rewrite <-(upage_same _ _ _ _ Hsame), Hp. cbn. rewrite fupd_eq.
    rewrite lookup_upd_bytes by done.
    pose proof (Z.div_mod va 4096 ltac:(lia)). pose proof (Z.div_mod va' 4096 ltac:(lia)).
    pose proof (Z.mod_pos_bound va' 4096 ltac:(lia)).
    repeat case_decide; try lia; [|done]. f_equal. lia.
  - rewrite decide_False.
    2: { intros Hr. apply Hdiff. destruct (same_page_off va (va' - va)) as [E _]; [lia|lia|].
         replace (va + (va' - va)) with va' in E by lia. done. }
    destruct (upage s root va') as [p'|] eqn:Hp'; [|done]. cbn. rewrite fupd_ne; [done|].
    intros ->. by apply Hdiff, (upage_inj s root o va va' p).
Qed.

(** What [copyout] does: it returns 0 and the bytes are in user memory at
    [dstva], or -1 and the bytes in front of the first one that the user
    program cannot access are; nothing else changes in user memory. *)
Definition copied_out s s' root (dstva : Z) (src : bytes) (r : Z) (n : nat) : Prop :=
  (forall va, vmap (ram s') root va = vmap (ram s) root va) /\
  (forall va, ubyte s' root va =
    if decide (dstva <= va < dstva + Z.of_nat n) then src !! Z.to_nat (va - dstva)
    else ubyte s root va) /\
  ((r = 0 /\ n = length src) \/
   (r = -1 /\ (n < length src)%nat /\ ubyte s root (dstva + Z.of_nat n) = None)).

Lemma copyout_loop_ok fuel s root o dstva src :
  vm_ok s root o -> 0 <= dstva < 2 ^ 64 -> (length src < fuel)%nat ->
  exists r s' n, copyout_loop fuel root dstva src s = Ok r s' /\ vm_ok s' root o /\
    copied_out s s' root dstva src r n.
Proof.
  revert s dstva src. induction fuel as [|fuel IH]; intros s dstva src Hok Hs Hl; [lia|].
  cbn [copyout_loop]. cbv zeta. destruct (Z.ltb_spec 0 (Z.of_nat (length src))) as [Hpos|Hz].
  2: { exists 0, s, 0%nat. split; [done|]. split; [done|]. split; [done|]. split; [|left; lia].
       intros va. by rewrite decide_False by lia. }
  destruct (page_split dstva) as (E1 & E2 & E3).
  rewrite (bind_ok _ _ _ _ _ (walkaddr_ok s root (PGROUNDDOWN dstva) ltac:(lia))).
  rewrite (upage_same s root _ dstva E1). destruct (upage s root dstva) as [pg|] eqn:Hpg; cbn [default].
  2: { exists (-1), s, 0%nat. split; [done|]. split; [done|]. split; [done|]. split.
       - intros va. by rewrite decide_False by lia.
       - right. split; [done|]. split; [lia|]. by rewrite Z.add_0_r, ubyte_upage, Hpg. }
  destruct (upage_ok _ _ _ _ _ Hok Hpg) as (Hne & _). unfold id. destruct (Z.eqb_spec pg 0) as [|_]; [done|].
  rewrite E2. pose proof (Z.mod_pos_bound dstva 4096 ltac:(lia)) as Hb.
  unfold PGSIZE. set (n := Z.min (4096 - dstva mod 4096) (Z.of_nat (length src))).
  assert (0 < n) by lia. pose proof (proj1 (upage_inv _ _ _ _ Hpg)) as Hva.
  assert (PGROUNDDOWN dstva + 4096 = dstva - dstva mod 4096 + 4096) as E4 by lia.
  rewrite u64_small by (unfold MAXVA in *; lia). rewrite E4.
  assert (length (take (Z.to_nat n) src) = Z.to_nat n) as Ht by (rewrite length_take; lia).
  destruct (ubyte_store s root o dstva pg (take (Z.to_nat n) src) Hok Hpg) as (Hok1 & Hm1 & Hu1);
    [lia|]. rewrite Ht in Hu1. set (s1 := mkvst _ (al s)) in Hok1, Hm1, Hu1.
  rewrite (bind_ok (copy_to_page pg (dstva mod 4096) (take (Z.to_nat n) src)) _ s tt s1 eq_refl).
  destruct (IH s1 (dstva - dstva mod 4096 + 4096) (drop (Z.to_nat n) src) Hok1)
    as (r & s' & k & E & Hok' & Hm & Hu & Hr); [unfold MAXVA in *; lia|rewrite length_drop; lia|].
  rewrite length_drop in Hr.
  assert (dstva - dstva mod 4096 + 4096 = dstva + n \/ Z.to_nat n = length src) as Hn by lia.
  assert (Z.to_nat n = length src -> k = 0%nat) as Hk0.
  { intros Hnl. destruct Hr as [[_ ?]|(_ & ? & _)]; lia. }
  assert (forall va, dstva + n <= va -> ubyte s1 root va = ubyte s root va) as Hs1.
  { intros va Hge. rewrite Hu1. by rewrite decide_False by lia. }
  exists r, s', (Z.to_nat n + k)%nat. split; [done|]. split; [done|]. split; [|split].
  - intros va. by rewrite Hm, Hm1.
  - intros va. rewrite Hu, Hu1. destruct Hn as [Hn|Hn].
    + rewrite Hn. repeat case_decide; try lia; try done.
      * rewrite lookup_drop. f_equal. lia.
      * rewrite lookup_take_lt by lia. done.
    + rewrite (Hk0 Hn). rewrite decide_False by lia. repeat case_decide; try lia; [|done].
      by rewrite lookup_take_lt by lia.
  - destruct Hr as [[-> Hr]|(-> & Hr & Hnone)]; [left; lia|right]. split; [done|]. split; [lia|].
    rewrite <-Hnone. destruct Hn as [Hn|Hn]; [|lia].
    replace (dstva + Z.of_nat (Z.to_nat n + k)) with (dstva - dstva mod 4096 + 4096 + Z.of_nat k) by lia.
    symmetry. apply Hs1. lia.
Qed.
(** ** The address space of a process

    The pages below the size of the process are mapped to pages of the
    allocator; from there to the trap frame nothing is. *)

Definition TRAPFRAME : Z := TRAMPOLINE - PGSIZE.

Definition npages (sz : Z) : Z := (sz + 4095) / 4096.

Record user_space s (root : Z) o (sz : Z) : Prop := {
  us_ok : vm_ok s root o;
  us_size : 0 <= sz <= TRAPFRAME;
  us_map : forall va, 0 <= va < MAXVA -> va / 4096 < npages sz -> unmappable (ram s) root va true;
  us_gap : forall va, 0 <= va < TRAPFRAME -> npages sz <= va / 4096 -> vmap (ram s) root va = None }.

Lemma PGROUNDUP_eq sz : 0 <= sz <= MAXVA -> PGROUNDUP sz = 4096 * npages sz.
Proof.
  intros Hs. unfold PGROUNDUP, MAXVA, npages in *. rewrite u64_small by (unfold PGSIZE; lia).
  change (Z.land (sz + PGSIZE - 1) (Z.lnot (PGSIZE - 1))) with (PGROUNDDOWN (sz + PGSIZE - 1)).
  rewrite PGROUNDDOWN_eq. unfold PGSIZE. do 2 f_equal. lia.
Qed.

Lemma npages_spec sz : 4096 * (npages sz - 1) < sz <= 4096 * npages sz.
Proof.
  unfold npages. pose proof (Z.div_mod (sz + 4095) 4096 ltac:(lia)).
  pose proof (Z.mod_pos_bound (sz + 4095) 4096 ltac:(lia)). lia.
Qed.

Lemma npages_mono a b : a <= b -> npages a <= npages b.
Proof. intros. apply Z.div_le_mono; lia. Qed.

Lemma npages_mul a : npages (4096 * a) = a.
Proof. unfold npages. symmetry. apply Z.div_unique with 4095; lia. Qed.

Lemma page_lt va n : va / 4096 < n <-> va < 4096 * n.
Proof.
  pose proof (Z.div_mod va 4096 ltac:(lia)). pose proof (Z.mod_pos_bound va 4096 ltac:(lia)). lia.
Qed.

(** What a growing address space leaves alone. *)
Definition vm_local s o s' o' : Prop :=
  pool s' ⊆ pool s /\ dom o' ⊆ dom o ∪ pool s /\ dom o ⊆ dom o' /\
  forall p, p ∉ dom o -> p ∉ pool s -> ram s' p = ram s p.

Lemma vm_local_refl s o : vm_local s o s o.
Proof. split; [done|]. split; [apply union_subseteq_l|]. done. Qed.

Lemma vm_local_trans s1 o1 s2 o2 s3 o3 :
  vm_local s1 o1 s2 o2 -> vm_local s2 o2 s3 o3 -> vm_local s1 o1 s3 o3.
Proof.
  intros (A1 & A2 & A3 & A4) (B1 & B2 & B3 & B4). split; [set_solver|]. split; [set_solver|].
  split; [set_solver|]. intros p H1 H2. rewrite B4, A4; set_solver.
Qed.

Lemma vm_local_grow s o s' o' : vm_grow s o s' o' -> vm_local s o s' o'.
Proof.
  intros [G1 G2 G3 G4 _]. apply subseteq_dom in G1. split; [rewrite G3; set_solver|].
  split; [done|]. split; [done|]. intros p H1 H2. apply G4. set_solver.
Qed.

(** One page is added: [ufkalloc], [memset] or [memmove] of [v], [mappages]. *)
Lemma add_page s root o a perm v :
  vm_ok s root o -> a mod 4096 = 0 -> 0 <= a -> a + 4096 <= MAXVA -> 0 <= perm < 1024 ->
  vmap (ram s) root a = None -> (3 <= size (pool s))%nat -> length v = Z.to_nat PGSIZE ->
  exists mem s1, ufkalloc s = Ok mem s1 /\ ram s1 = ram s /\ mem <> 0 /\ mem ∈ pool s /\
    runs (mappages root a PGSIZE mem perm) (mkvst (fupd (ram s1) mem v) (al s1)) (fun r s' =>
      r = 0 /\ exists o', vm_ok s' root o' /\ vm_local s o s' o' /\
      (mem ∉ dom o') /\ ram s' mem = v /\ pa_managed mem /\ 0 < mem < 2 ^ 54 /\ mem mod PGSIZE = 0 /\
      (forall va, 0 <= va < MAXVA -> vmap (ram s') root va =
        if decide (va / 4096 = a / 4096) then Some (leaf_pte mem perm) else vmap (ram s) root va) /\
      (size (pool s) <= size (pool s') + 3)%nat).
Proof.
  intros Hok Ham Ha0 Ha1 Hperm Hno Hsz Hv.
  destruct (ufkalloc_ok s root o Hok ltac:(lia)) as (mem & s1 & E & Er & Hal & Hp & Hpool & Hp0 & Hpm).
  exists mem, s1. split; [done|]. split; [done|]. split; [lia|]. split; [done|].
  pose proof (pool_size_remove _ _ _ Hp Hpool) as Hsz1.
  assert (mem ∉ dom o) as Hmo by (intros Hin; by apply (vo_tab _ _ _ Hok) in Hin).
  assert (vm_ok s1 root o) as Hok1.
  { split; rewrite ?Er, ?Hpool; try apply Hok; [done|..].
    - intros p Hin Hin'. apply elem_of_difference in Hin' as [Hin' _]. by apply (vo_tab _ _ _ Hok) in Hin.
    - intros va pte Hva Hvm. destruct (vo_leaf _ _ _ Hok va pte Hva Hvm) as (? & ? & ?).
      split; [done|]. split; [|done]. intros Hin. by apply elem_of_difference in Hin as []. }
  destruct (vm_store s1 root o mem v Hok1 Hmo Hv) as [Hok2 Hm2].
  set (s2 := mkvst _ (al s1)) in Hok2, Hm2. change (mkvst _ _) with s2.
  assert (pool s2 = pool s ∖ {[mem]}) as Hp2 by done.
  assert ((a + PGSIZE - 1) / 4096 - a / 4096 = 0) as Hk.
  { unfold PGSIZE. replace (a + 4096 - 1) with (a + 4095) by lia.
    destruct (same_page_off a 4095) as [-> _]; lia. }
  assert (forall va, vmap (ram s2) root va = vmap (ram s) root va) as Hms
    by (intros va; rewrite Hm2, Er; done).
  eapply runs_mono; [apply (mappages_ok a PGSIZE mem perm s2 root o); rewrite ?Hk; try done; try lia|].
  - intros va Hva Hr. rewrite Hms, (vmap_same _ _ va a) by lia. done.
  - intros j Hj. replace (mem + 4096 * j) with mem by lia.
    split; [done|]. split; [rewrite Hp2; intros Hin; by apply elem_of_difference in Hin as [_ ?%not_elem_of_singleton]|].
    split; [done|]. split; [done|]. intros va pte Hva. rewrite Hms. intros Hvm Heq.
    rewrite <-Heq in Hp. by apply (vo_leaf _ _ _ Hok va pte) in Hvm as (_ & ? & _).
  - change (pool s2) with (pool s1). lia.
  - intros r s' (-> & o' & Hok' & Hg & Hm & Hs'). split; [done|]. exists o'. rewrite Hk in *.
    assert (mem ∉ dom o') as Hmo'.
    { intros Hin. apply (vg_new _ _ _ _ Hg) in Hin. rewrite Hp2 in Hin. set_solver. }
    split; [done|]. split.
    { apply (vm_local_trans s o s2 o); [|by apply vm_local_grow].
      split; [rewrite Hp2; set_solver|]. split; [apply union_subseteq_l|]. split; [done|].
      intros p H1 H2. unfold s2. cbn [ram]. rewrite Er. apply fupd_ne. by intros ->. }
    split; [done|]. split; [rewrite (vg_frame _ _ _ _ Hg) by done; apply fupd_eq|].
    split; [by apply (pa_pool_managed (al s)); [apply Hok|]|]. split; [done|]. split; [done|].
    split.
    + intros va Hva. rewrite Hm, Hms by done. repeat case_decide; try lia; [|done].
      do 2 f_equal. lia.
    + change (pool s2) with (pool s1) in Hs'. unfold PGSIZE in Hs'. lia.
Qed.
Lemma us_resize s root o sz sz' :
  user_space s root o sz -> npages sz = npages sz' -> 0 <= sz' <= TRAPFRAME -> user_space s root o sz'.
Proof. intros [] E Hs. rewrite E in *. by split. Qed.

Lemma TRAPFRAME_pages n : 4096 * n <= TRAPFRAME <-> n <= 67108862.
Proof. unfold TRAPFRAME, TRAMPOLINE, MAXVA, PGSIZE. lia. Qed.

Lemma npages_trap sz : sz <= TRAPFRAME -> npages sz <= 67108862.
Proof.
  intros Hs. apply npages_mono in Hs. change TRAPFRAME with (4096 * 67108862) in Hs.
  by rewrite npages_mul in Hs.
Qed.

Lemma ubyte_local s o s' o' root va :
  vm_ok s root o -> vm_local s o s' o' -> vmap (ram s') root va = vmap (ram s) root va ->
  ubyte s' root va = ubyte s root va.
Proof.
  intros Hok (_ & _ & _ & Hf) Hv. unfold ubyte. case_decide as Hva; [|done]. rewrite Hv.
  destruct (vmap (ram s) root va) as [pte|] eqn:E; [|done].
  destruct (vo_leaf _ _ _ Hok va pte Hva E) as (? & ? & _). by rewrite Hf.
Qed.

Lemma leaf_flags mem perm :
  0 <= mem < 2 ^ 54 /\ mem mod PGSIZE = 0 -> 0 <= perm < 1024 ->
  PTE_FLAGS (leaf_pte mem perm) = Z.land (Z.lor perm 1) 1023.
Proof. intros. apply leaf_pte_bits; (done || lia). Qed.

(** The flags of user memory. *)
Definition user_perm (perm : Z) : Prop :=
  0 <= perm < 1024 /\ Z.land (Z.lor perm 1) 1023 <> PTE_V.

Lemma user_perm_rwxu : user_perm (Z.lor (Z.lor PTE_W PTE_X) (Z.lor PTE_R PTE_U)).
Proof. change (Z.lor _ _) with 30. split; [lia|done]. Qed.

(** A process grows by one page. *)
Lemma us_add_page s root o n s' o' mem perm :
  user_space s root o (4096 * n) -> 4096 * (n + 1) <= TRAPFRAME -> user_perm perm ->
  vm_ok s' root o' -> pa_managed mem -> 0 < mem < 2 ^ 54 -> mem mod PGSIZE = 0 ->
  (forall va, 0 <= va < MAXVA -> vmap (ram s') root va =
    if decide (va / 4096 = 4096 * n / 4096) then Some (leaf_pte mem perm) else vmap (ram s) root va) ->
  user_space s' root o' (4096 * (n + 1)).
Proof.
  intros [_ Hsz Hmap Hgap] Hn [Hperm Hfl] Hok Hman Hmem Hmm Hv.
  rewrite npages_mul in *. replace (4096 * n / 4096) with n in Hv by (rewrite Z.mul_comm, Z.div_mul; lia).
  split; [done|lia|..]; rewrite npages_mul.
  - intros va Hva Hlt. unfold unmappable. rewrite Hv by done. case_decide as Hd.
    + exists (leaf_pte mem perm). split; [done|]. rewrite leaf_flags, PTE2PA_leaf by lia. done.
    + apply Hmap; [done|lia].
  - intros va Hva Hge. rewrite Hv by (unfold TRAPFRAME, TRAMPOLINE, PGSIZE in *; lia).
    rewrite decide_False by lia. apply Hgap; [done|lia].
Qed.

Lemma ubyte_new_page s' root va mem perm v :
  0 <= va < MAXVA -> vmap (ram s') root va = Some (leaf_pte mem perm) -> ram s' mem = v ->
  0 <= perm < 1024 -> 0 < mem < 2 ^ 54 -> mem mod PGSIZE = 0 ->
  ubyte s' root va = if has perm PTE_U then v !! Z.to_nat (va mod 4096) else None.
Proof.
  intros Hva Hv Hr Hp Hm Hmm. unfold ubyte. rewrite decide_True, Hv by done.
  rewrite leaf_pte_user, PTE2PA_leaf by lia. by rewrite Hr.
Qed.

(** The entry that [uvmalloc] makes for a page. *)
Definition user_leaf (m : Z -> bytes) (root va : Z) : Prop :=
  exists mem, vmap m root va = Some (leaf_pte mem (Z.lor (Z.lor PTE_W PTE_X) (Z.lor PTE_R PTE_U))) /\
    0 < mem < 2 ^ 54 /\ mem mod PGSIZE = 0.

Lemma uvmalloc_loop_ok k fuel n oldsz newsz s root o :
  user_space s root o (4096 * n) -> npages newsz = n + Z.of_nat k -> 0 <= newsz <= TRAPFRAME ->
  (k < fuel)%nat -> (3 * k <= size (pool s))%nat ->
  runs (uvmalloc_loop fuel root (4096 * n) oldsz newsz) s (fun r s' =>
    r = newsz /\ exists o', user_space s' root o' newsz /\ vm_local s o s' o' /\
    (forall va, 0 <= va < MAXVA -> ubyte s' root va =
      if decide (n <= va / 4096 < n + Z.of_nat k) then Some 0 else ubyte s root va) /\
    (forall va, 0 <= va < MAXVA -> ~ (n <= va / 4096 < n + Z.of_nat k) ->
      vmap (ram s') root va = vmap (ram s) root va) /\
    (forall va, 0 <= va < MAXVA -> n <= va / 4096 < n + Z.of_nat k -> user_leaf (ram s') root va) /\
    (size (pool s) <= size (pool s') + 3 * k)%nat).
Proof.
  revert fuel n s o. induction k as [|k IH]; intros fuel n s o Hus Hn Hnew Hfuel Hsz;
    (destruct fuel as [|fuel]; [lia|]); cbn [uvmalloc_loop];
    pose proof (npages_spec newsz) as Hnp.
  - destruct (Z.ltb_spec (4096 * n) newsz); [lia|]. apply runs_ret. split; [done|].
    exists o. split; [eapply us_resize; [done|rewrite npages_mul; lia|done]|].
    split; [apply vm_local_refl|]. split; [|split; [done|split; [intros; lia|lia]]].
    intros va Hva. by rewrite decide_False by lia.
  - destruct (Z.ltb_spec (4096 * n) newsz) as [_|]; [|lia].
    assert (4096 * (n + 1) <= TRAPFRAME) as Hn1.
    { apply TRAPFRAME_pages. pose proof (npages_trap newsz). lia. }
    pose proof (us_size _ _ _ _ Hus) as Hs0.
    assert (vmap (ram s) root (4096 * n) = None) as Hno.
    { apply (us_gap _ _ _ _ Hus); [lia|]. rewrite npages_mul, Z.mul_comm, Z.div_mul; lia. }
    destruct (add_page s root o (4096 * n) (Z.lor (Z.lor PTE_W PTE_X) (Z.lor PTE_R PTE_U)) zero_page)
      as (mem & s1 & Ea & Er & Hm0 & Hmp & Hmap); try done; try apply Hus; try lia.
    { rewrite Z.mul_comm. apply Z_mod_mult. }
    { unfold TRAPFRAME, TRAMPOLINE, PGSIZE in *. lia. }
    apply runs_bind. exists mem, s1. split; [done|]. destruct (Z.eqb_spec mem 0); [done|].
    apply runs_bind, runs_modify, runs_bind. eapply runs_mono; [exact Hmap|].
    intros r s2 (-> & o2 & Hok2 & Hl2 & Hmo & Hz & Hman & Hm1 & Hm2 & Hv2 & Hs2). cbn [negb Z.eqb].
    assert (user_space s2 root o2 (4096 * (n + 1))) as Hus2
      by (eapply us_add_page; [exact Hus|done|apply user_perm_rwxu|done..]).
    unfold PGSIZE. rewrite u64_small by (unfold TRAPFRAME, TRAMPOLINE, MAXVA, PGSIZE in *; lia).
    replace (4096 * n + 4096) with (4096 * (n + 1)) by lia.
    eapply runs_mono; [apply IH; [exact Hus2|lia|done|lia|lia]|].
    intros r s' (-> & o' & Hus' & Hl' & Hu' & Hv' & Hlf' & Hs'). split; [done|]. exists o'. split; [done|].
    split; [by eapply vm_local_trans|].
    replace (4096 * n / 4096) with n in Hv2 by (rewrite Z.mul_comm, Z.div_mul; lia).
    split; [|split; [|split; [|lia]]].
    3: { intros va Hva Hin. destruct (decide (n + 1 <= va / 4096)) as [Hd|Hd]; [apply Hlf'; lia|].
         exists mem. rewrite Hv', Hv2 by (done || lia). rewrite decide_True by lia. done. }
    2: { intros va Hva Hout. rewrite Hv', Hv2 by (done || lia). by rewrite decide_False by lia. }
    intros va Hva. rewrite Hu' by done. specialize (Hv2 va Hva). destruct (decide (va / 4096 = n)) as [Hd|Hd].
    + rewrite decide_False, decide_True by lia. erewrite ubyte_new_page by (done || lia).
      change (has _ PTE_U) with true. cbn match. apply lookup_replicate_2. unfold PGSIZE.
      pose proof (Z.mod_pos_bound va 4096). lia.
    + rewrite (ubyte_local s o s2 o2 root va) by (done || apply Hus).
      repeat case_decide; try done; lia.
Qed.
Lemma uvmalloc_ok oldsz newsz s root o :
  user_space s root o oldsz -> oldsz <= newsz <= TRAPFRAME ->
  3 * (npages newsz - npages oldsz) <= Z.of_nat (size (pool s)) ->
  runs (uvmalloc root oldsz newsz) s (fun r s' =>
    r = newsz /\ exists o', user_space s' root o' newsz /\ vm_local s o s' o' /\
    (forall va, 0 <= va < MAXVA -> ubyte s' root va =
      if decide (npages oldsz <= va / 4096 < npages newsz) then Some 0 else ubyte s root va) /\
    (forall va, 0 <= va < MAXVA -> ~ (npages oldsz <= va / 4096 < npages newsz) ->
      vmap (ram s') root va = vmap (ram s) root va) /\
    (forall va, 0 <= va < MAXVA -> npages oldsz <= va / 4096 < npages newsz -> user_leaf (ram s') root va) /\
    Z.of_nat (size (pool s)) <= Z.of_nat (size (pool s')) + 3 * (npages newsz - npages oldsz)).
Proof.
  intros Hus Hle Hsz. pose proof (us_size _ _ _ _ Hus) as Hs0.
  pose proof (npages_mono _ _ (proj1 Hle)) as Hmono.
  unfold uvmalloc. destruct (Z.ltb_spec newsz oldsz); [lia|]. cbv zeta.
  assert (oldsz <= MAXVA) by (unfold TRAPFRAME, TRAMPOLINE, PGSIZE in *; lia).
  rewrite PGROUNDUP_eq by lia.
  assert (0 <= npages oldsz) by (apply Z.div_pos; lia).
  set (k := Z.to_nat (npages newsz - npages oldsz)).
  eapply runs_mono; [apply (uvmalloc_loop_ok k _ (npages oldsz)); try lia|].
  - eapply us_resize; [done|by rewrite npages_mul|]. rewrite TRAPFRAME_pages.
    pose proof (npages_trap oldsz). lia.
  - unfold pages_to, PGSIZE. pose proof (npages_spec newsz). pose proof (npages_spec oldsz).
    assert (newsz <= MAXVA) by (unfold TRAPFRAME, TRAMPOLINE, PGSIZE in *; lia).
    destruct (Z.leb_spec (4096 * npages oldsz) newsz); [|lia]. rewrite Z.min_l by lia.
    assert (npages newsz - npages oldsz - 1 <= (newsz - 4096 * npages oldsz) / 4096)
      by (apply Z.div_le_lower_bound; lia). lia.
  - intros r s' (-> & o' & U1 & U2 & U3 & U4 & U6 & U5). split; [done|]. exists o'. split; [done|]. split; [done|].
    replace (npages oldsz + Z.of_nat k) with (npages newsz) in U3, U4, U6 by lia.
    split; [done|]. split; [done|]. split; [done|lia].
Qed.

Lemma unmaps_user s s' root o a k sz :
  user_space s root o sz -> unmaps s s' root o a k true -> 0 <= a / 4096 ->
  npages sz = a / 4096 + k + 1 -> 0 <= k ->
  user_space s' root o (4096 * (a / 4096)) /\
  forall va, 0 <= va < MAXVA -> ubyte s' root va =
    if decide (a / 4096 <= va / 4096 < npages sz) then None else ubyte s root va.
Proof.
  intros [Hok Hsz Hmap Hgap] (U1 & U2 & U3 & U4) Ha Hn Hk. split.
  - split; [done| |..]; rewrite ?npages_mul.
    + rewrite TRAPFRAME_pages. pose proof (npages_trap sz). lia.
    + intros va Hva Hlt. unfold unmappable. rewrite U3 by done. rewrite decide_False by lia.
      apply Hmap; [done|lia].
    + intros va Hva Hge. rewrite U3 by (unfold TRAPFRAME, TRAMPOLINE, PGSIZE in *; lia).
      case_decide; [done|]. apply Hgap; [done|lia].
  - intros va Hva. unfold ubyte. rewrite decide_True, U3 by done.
    repeat case_decide; try lia; [done|].
    destruct (vmap (ram s) root va) as [pte|] eqn:E; [|done].
    destruct (vo_leaf _ _ _ Hok va pte Hva E) as (? & _). by rewrite U2.
Qed.

Lemma uvmdealloc_ok oldsz newsz s root o :
  user_space s root o oldsz -> 0 <= newsz <= oldsz ->
  runs (uvmdealloc root oldsz newsz) s (fun r s' =>
    r = newsz /\ user_space s' root o newsz /\
    (forall va, 0 <= va < MAXVA -> ubyte s' root va =
      if decide (npages newsz <= va / 4096 < npages oldsz) then None else ubyte s root va) /\
    (forall p, p ∈ pool s' <-> p ∈ pool s \/
      frames (ram s) root (4096 * npages newsz) (npages oldsz - npages newsz - 1) p) /\
    (forall p, p ∉ dom o -> ram s' p = ram s p)).
Proof.
  intros Hus Hle. pose proof (us_size _ _ _ _ Hus) as Hs0.
  pose proof (npages_mono _ _ (proj2 Hle)) as Hmono.
  assert (forall n, 4096 * n / 4096 = n) as Ed by (intros n; rewrite Z.mul_comm, Z.div_mul; lia).
  assert (npages newsz = npages oldsz ->
    (forall va, 0 <= va < MAXVA -> ubyte s root va =
      if decide (npages newsz <= va / 4096 < npages oldsz) then None else ubyte s root va) /\
    (forall p, p ∈ pool s <-> p ∈ pool s \/
      frames (ram s) root (4096 * npages newsz) (npages oldsz - npages newsz - 1) p) /\
    (forall p, p ∉ dom o -> ram s p = ram s p)) as Hsame.
  { intros E. split; [intros va Hva; by rewrite decide_False by lia|]. split; [|done].
    intros p. split; [tauto|]. intros [?|(va & pte & _ & Hr & _)]; [done|]. rewrite Ed in Hr. lia. }
  unfold uvmdealloc. destruct (Z.leb_spec oldsz newsz).
  { assert (newsz = oldsz) as -> by lia. apply runs_ret. split; [done|]. split; [done|]. by apply Hsame. }
  cbv zeta. assert (oldsz <= MAXVA) by (unfold TRAPFRAME, TRAMPOLINE, PGSIZE in *; lia).
  rewrite !PGROUNDUP_eq by lia. destruct (Z.ltb_spec (4096 * npages newsz) (4096 * npages oldsz)).
  2: { apply runs_bind, runs_ret, runs_ret. split; [done|].
       split; [eapply us_resize; [done|lia|lia]|]. apply Hsame. lia. }
  assert (0 <= npages newsz) by (apply Z.div_pos; lia).
  pose proof (npages_spec oldsz). pose proof (npages_spec newsz).
  cbn [when]. apply runs_bind. rewrite u64_small by (unfold MAXVA in *; lia).
  assert ((4096 * npages newsz + (oldsz - 4096 * npages newsz) - 1) / 4096 - 4096 * npages newsz / 4096 =
    npages oldsz - npages newsz - 1) as Hk.
  { rewrite Ed. replace (4096 * npages newsz + (oldsz - 4096 * npages newsz) - 1) with (oldsz - 1) by lia.
    replace ((oldsz - 1) / 4096) with (npages oldsz - 1); [lia|].
    apply Z.div_unique with (oldsz - 1 - 4096 * (npages oldsz - 1)); lia. }
  eapply runs_mono; [apply (uvmunmap_ok (4096 * npages newsz) (oldsz - 4096 * npages newsz) true s root o);
    rewrite ?Hk; try lia; [apply Hus|]|].
  - intros v Hv. rewrite Ed. intros Hr. apply (us_map _ _ _ _ Hus); [done|lia].
  - intros ? s' Hun. rewrite Hk in Hun. apply runs_ret. split; [done|].
    destruct (unmaps_user s s' root o _ _ oldsz Hus Hun) as [Hus' Hu]; rewrite ?Ed; try lia.
    rewrite Ed in Hus', Hu. destruct Hun as (_ & U2 & _ & U4).
    split; [eapply us_resize; [exact Hus'|apply npages_mul|lia]|]. split; [done|]. split; [|done].
    intros p. rewrite U4. tauto.
Qed.
(** ** Two address spaces: fork *)

(** The page tables of the two spaces are different pages, and no page that
    the first one maps is a page table of the second. *)
Definition apart s root1 (o1 o2 : gmap Z (list Z)) : Prop :=
  (forall p, p ∈ dom o1 -> p ∉ dom o2) /\
  forall va pte, 0 <= va < MAXVA -> vmap (ram s) root1 va = Some pte -> PTE2PA pte ∉ dom o2.

Lemma vm_other s s' root1 o1 o2 o2' :
  vm_ok s root1 o1 -> apart s root1 o1 o2 -> vm_local s o2 s' o2' -> ram_ok (ram s') -> pa_inv (al s') ->
  vm_ok s' root1 o1 /\ apart s' root1 o1 o2' /\
  (forall va, vmap (ram s') root1 va = vmap (ram s) root1 va) /\
  (forall va, ubyte s' root1 va = ubyte s root1 va).
Proof.
  intros Hok [Ha1 Ha2] (L1 & L2 & L3 & L4) Hr Hal.
  assert (forall p, p ∈ dom o1 -> ram s' p = ram s p) as Hf.
  { intros p Hp. apply L4; [by apply Ha1|by apply (vo_tab _ _ _ Hok)]. }
  assert (forall va, vmap (ram s') root1 va = vmap (ram s) root1 va) as Hm.
  { intros va. by apply (vmap_frame _ _ _ (vo_pt _ _ _ Hok)). }
  split; [|split; [|split; [done|]]].
  - split; [done|by apply (pt_inv_frame _ _ _ (vo_pt _ _ _ Hok))|done|..].
    + intros p Hp Hin. apply L1 in Hin. by apply (vo_tab _ _ _ Hok) in Hp.
    + intros va pte Hva. rewrite Hm. intros Hv.
      destruct (vo_leaf _ _ _ Hok va pte Hva Hv) as (? & ? & ?).
      split; [done|]. split; [|done]. intros Hin. by apply L1 in Hin.
    + intros va va' pte pte' Hva Hva'. rewrite !Hm. by apply (vo_inj _ _ _ Hok).
  - split.
    + intros p Hp Hin. apply L2 in Hin. apply elem_of_union in Hin as [?|?];
        [by apply (Ha1 p)|by apply (vo_tab _ _ _ Hok p)].
    + intros va pte Hva. rewrite Hm. intros Hv Hin. apply L2 in Hin.
      apply elem_of_union in Hin as [?|?]; [by apply (Ha2 va pte)|].
      by destruct (vo_leaf _ _ _ Hok va pte Hva Hv) as (? & ? & ?).
  - intros va. unfold ubyte. case_decide as Hva; [|done]. rewrite Hm.
    destruct (vmap (ram s) root1 va) as [pte|] eqn:E; [|done].
    rewrite L4; [done|by apply (Ha2 va pte)|].
    by destruct (vo_leaf _ _ _ Hok va pte Hva E) as (? & ? & ?).
Qed.

Lemma flags_valid pte :
  has pte PTE_V = true -> Z.land (Z.lor (PTE_FLAGS pte) 1) 1023 = PTE_FLAGS pte.
Proof.
  intros Hv. assert (Z.testbit pte 0 = true) as Hb.
  { unfold has, PTE_V in Hv. change 1 with (Z.ones 1) in Hv. rewrite Z.land_ones in Hv by lia.
    rewrite Z.bit0_odd. change (2 ^ 1) with 2 in Hv. rewrite Zmod_odd in Hv. by destruct (Z.odd pte). }
  unfold PTE_FLAGS. apply Z.bits_inj'. intros k Hk. rewrite !Z.land_spec, Z.lor_spec, Z.land_spec.
  destruct (decide (k = 0)) as [->|Hk0]; [by rewrite Hb|].
  assert (Z.testbit 1 k = false) as -> by (apply Z.bits_above_log2; simpl; lia).
  rewrite orb_false_r, <-andb_assoc. by rewrite andb_diag.
Qed.

Lemma flags_user pte : has (PTE_FLAGS pte) PTE_U = has pte PTE_U.
Proof. unfold has, PTE_FLAGS, PTE_U. by rewrite <-Z.land_assoc. Qed.

Lemma flags_range pte : 0 <= PTE_FLAGS pte < 1024.
Proof.
  unfold PTE_FLAGS. change 1023 with (Z.ones 10). rewrite Z.land_ones by lia.
  apply Z.mod_pos_bound. lia.
Qed.

Definition forked s s' old new o2' (n k : Z) : Prop :=
  (forall va, ubyte s' old va = ubyte s old va) /\
  (forall va, 0 <= va < MAXVA -> ubyte s' new va =
    if decide (n <= va / 4096 < n + k) then ubyte s old va else ubyte s new va) /\
  (forall va p, n <= va / 4096 < n + k -> upage s' new va = Some p -> p ∈ pool s).

Lemma upage_vmap s s' root va :
  vmap (ram s') root va = vmap (ram s) root va -> upage s' root va = upage s root va.
Proof. intros E. unfold upage. by rewrite E. Qed.

(** One round of the loop of [uvmcopy]. *)
Lemma uvmcopy_page n s old new o1 o2 sz :
  user_space s old o1 sz -> user_space s new o2 (4096 * n) -> apart s old o1 o2 ->
  n < npages sz -> (3 <= size (pool s))%nat ->
  exists pte q mem s1,
    walk old (4096 * n) false s = Ok (Some (q, PX 0 (4096 * n))) s /\
    rd (ram s) q (PX 0 (4096 * n)) = pte /\ has pte PTE_V = true /\
    ufkalloc s = Ok mem s1 /\ ram s1 = ram s /\ mem <> 0 /\
    runs (mappages new (4096 * n) PGSIZE mem (PTE_FLAGS pte))
      (mkvst (fupd (ram s1) mem (ram s1 (PTE2PA pte))) (al s1)) (fun r s' =>
      r = 0 /\ exists o2', user_space s' old o1 sz /\ user_space s' new o2' (4096 * (n + 1)) /\
        apart s' old o1 o2' /\ vm_local s o2 s' o2' /\ forked s s' old new o2' n 1 /\
        (forall va, 0 <= va < MAXVA -> va / 4096 < n -> upage s' new va = upage s new va) /\
        (size (pool s) <= size (pool s') + 3)%nat).
Proof.
  intros H1 H2 Hap Hn Hsz. pose proof (us_size _ _ _ _ H1). pose proof (us_size _ _ _ _ H2).
  pose proof (npages_spec sz). assert (4096 * n / 4096 = n) as Ed by (rewrite Z.mul_comm, Z.div_mul; lia).
  assert (4096 * (n + 1) <= TRAPFRAME) as Htr.
  { apply TRAPFRAME_pages. pose proof (npages_trap sz). lia. }
  assert (0 <= 4096 * n < MAXVA) as Hva by (unfold TRAPFRAME, TRAMPOLINE, PGSIZE in *; lia).
  destruct (us_map _ _ _ _ H1 (4096 * n) Hva) as (pte & Hpte & Hfl & Hman); [lia|].
  destruct (vmap_walk _ _ _ _ Hpte) as (q & Hq & Hrd & Hval).
  destruct (add_page s new o2 (4096 * n) (PTE_FLAGS pte) (ram s (PTE2PA pte)))
    as (mem & s1 & Ea & Er & Hm0 & Hmp & Hmap).
  { apply H2. }
  { rewrite Z.mul_comm. apply Z_mod_mult. }
  { lia. }
  { unfold TRAPFRAME, TRAMPOLINE, PGSIZE in *. lia. }
  { apply flags_range. }
  { apply (us_gap _ _ _ _ H2); [lia|]. rewrite npages_mul. lia. }
  { done. }
  { apply H1. }
  exists pte, q, mem, s1. rewrite walk_read, Hq by lia. repeat (split; [done|]).
  rewrite Er in *. eapply runs_mono; [exact Hmap|].
  intros r s' (-> & o2' & Hok & Hl & Hmo & Hz & Hmm & Hm1 & Hm2 & Hv & Hs'). split; [done|]. exists o2'.
  destruct (vm_other s s' old o1 o2 o2' (us_ok _ _ _ _ H1) Hap Hl (vo_ram _ _ _ Hok) (vo_al _ _ _ Hok))
    as (Hok1 & Hap' & Hm & Hu).
  split. { split; [done|apply H1|..]; intros va; unfold unmappable; rewrite ?Hm; apply H1. }
  split. { eapply us_add_page; [exact H2|done|..|done|done|done|done|done].
           split; [apply flags_range|by rewrite flags_valid]. }
  rewrite Ed in Hv. pose proof (flags_range pte) as Hfr.
  split; [done|]. split; [done|]. split; [split; [done|split]|split; [|lia]].
  - intros va Hva'. specialize (Hv va Hva'). destruct (decide (va / 4096 = n)) as [E|E].
    + rewrite decide_True by lia. erewrite ubyte_new_page by done.
      rewrite flags_user. unfold ubyte. rewrite decide_True by done.
      by rewrite (vmap_same _ _ va (4096 * n)), Hpte by lia.
    + rewrite decide_False by lia. by apply (ubyte_local s o2 s' o2'); [apply H2|..].
  - intros va p Hr (Hva' & pte' & Hv' & _ & <-)%upage_inv. rewrite Hv, decide_True in Hv' by lia.
    injection Hv' as <-. by rewrite PTE2PA_leaf by lia.
  - intros va Hva' Hlt. apply upage_vmap. rewrite Hv by done. by rewrite decide_False by lia.
Qed.
Lemma forked_next s s1 s' old new o2 o2' n k :
  0 <= k -> pool s1 ⊆ pool s -> forked s s1 old new o2 n 1 ->
  forked s1 s' old new o2' (n + 1) k ->
  (forall va, 0 <= va < MAXVA -> va / 4096 < n + 1 -> upage s' new va = upage s1 new va) ->
  forked s s' old new o2' n (k + 1).
Proof.
  intros Hk Hp (A1 & A2 & A3) (B1 & B2 & B3) Hup. split; [intros va; by rewrite B1|]. split.
  - intros va Hva. rewrite B2, A1, A2 by done. clear -Hk. repeat case_decide; try done; lia.
  - intros va p Hr Hv. destruct (decide (va / 4096 = n)).
    + apply (A3 va); [lia|]. rewrite <-Hup; [done|by apply upage_inv in Hv as []|lia].
    + apply Hp, (B3 va); [lia|done].
Qed.

Lemma uvmcopy_loop_ok k fuel n s old new o1 o2 sz :
  user_space s old o1 sz -> user_space s new o2 (4096 * n) -> apart s old o1 o2 ->
  npages sz = n + Z.of_nat k -> (k < fuel)%nat -> (3 * k <= size (pool s))%nat ->
  runs (uvmcopy_loop fuel old new (4096 * n) sz) s (fun r s' =>
    r = 0 /\ exists o2', user_space s' old o1 sz /\ user_space s' new o2' sz /\
      apart s' old o1 o2' /\ vm_local s o2 s' o2' /\ forked s s' old new o2' n (Z.of_nat k) /\
      (forall va, 0 <= va < MAXVA -> va / 4096 < n -> upage s' new va = upage s new va)).
Proof.
  revert fuel n s o2. induction k as [|k IH]; intros fuel n s o2 H1 H2 Hap Hn Hfuel Hsz;
    (destruct fuel as [|fuel]; [lia|]); cbn [uvmcopy_loop];
    pose proof (npages_spec sz) as Hnp; pose proof (us_size _ _ _ _ H1) as Hs1.
  - destruct (Z.ltb_spec (4096 * n) sz); [lia|]. apply runs_ret. split; [done|]. exists o2.
    split; [done|]. split; [eapply us_resize; [done|rewrite npages_mul; lia|done]|].
    split; [done|]. split; [apply vm_local_refl|]. split; [|done].
    split; [done|]. split; [intros va Hva; by rewrite decide_False by lia|]. intros va p Hr. lia.
  - destruct (Z.ltb_spec (4096 * n) sz) as [_|]; [|lia].
    destruct (uvmcopy_page n s old new o1 o2 sz H1 H2 Hap)
      as (pte & q & mem & s1 & Hw & Hrd & Hval & Ea & Er & Hm0 & Hmap); [lia|lia|].
    apply runs_bind. exists (Some (q, PX 0 (4096 * n))), s. split; [done|].
    apply runs_bind, runs_gets. cbn [fst snd]. fold (rd (ram s) q (PX 0 (4096 * n))).
    rewrite Hrd, Hval. cbn [negb]. apply runs_bind. exists mem, s1. split; [done|].
    destruct (Z.eqb_spec mem 0); [done|]. apply runs_bind, runs_gets, runs_bind, runs_modify, runs_bind.
    eapply runs_mono; [exact Hmap|].
    intros r s2 (-> & o3 & U1 & U2 & Hap2 & Hl2 & Hf2 & Hup2 & Hs2). cbn [negb Z.eqb].
    pose proof (us_size _ _ _ _ U2). unfold PGSIZE.
    rewrite u64_small by (unfold TRAPFRAME, TRAMPOLINE, MAXVA, PGSIZE in *; lia).
    replace (4096 * n + 4096) with (4096 * (n + 1)) by lia.
    eapply runs_mono; [apply (IH fuel (n + 1) s2 o3); [done|done|done|lia|lia|lia]|].
    intros r s' (-> & o' & V1 & V2 & Hap' & Hl' & Hf' & Hup'). split; [done|]. exists o'.
    split; [done|]. split; [done|]. split; [done|]. split; [by eapply vm_local_trans|]. split.
    + replace (Z.of_nat (S k)) with (Z.of_nat k + 1) by lia.
      eapply forked_next; [lia|apply Hl2|done|done|done].
    + intros va Hva Hlt. rewrite Hup', Hup2 by (done || lia). done.
Qed.

Lemma uvmcopy_ok sz s old new o1 o2 :
  user_space s old o1 sz -> user_space s new o2 0 -> apart s old o1 o2 ->
  3 * npages sz <= Z.of_nat (size (pool s)) ->
  runs (uvmcopy old new sz) s (fun r s' =>
    r = 0 /\ exists o2', user_space s' old o1 sz /\ user_space s' new o2' sz /\
      apart s' old o1 o2' /\ vm_local s o2 s' o2' /\ forked s s' old new o2' 0 (npages sz)).
Proof.
  intros H1 H2 Hap Hsz. pose proof (us_size _ _ _ _ H1) as Hs0.
  assert (0 <= npages sz) by (apply Z.div_pos; lia). pose proof (npages_spec sz).
  unfold uvmcopy. change 0 with (4096 * 0) at 2. eapply runs_mono.
  { apply (uvmcopy_loop_ok (Z.to_nat (npages sz)) _ 0 s old new o1 o2); try done; try lia.
    unfold pages_to, PGSIZE. destruct (Z.leb_spec 0 sz); [|lia].
    rewrite Z.min_l by (unfold TRAPFRAME, TRAMPOLINE, PGSIZE in *; lia). rewrite Z.sub_0_r.
    assert (npages sz - 1 <= sz / 4096) by (apply Z.div_le_lower_bound; lia). lia. }
  intros r s' (-> & o' & V1 & V2 & Hap' & Hl' & Hf' & _). split; [done|]. exists o'.
  rewrite Z2Nat.id in Hf' by lia. done.
Qed.

(** A fresh page table. *)
Lemma uvmcreate_ok s :
  ram_ok (ram s) -> pa_inv (al s) -> (0 < size (pool s))%nat ->
  runs uvmcreate s (fun root s' => user_space s' root {[root := []]} 0 /\
    root ∈ pool s /\ pool s' = pool s ∖ {[root]} /\
    (forall va, vmap (ram s') root va = None) /\
    (forall p, p <> root -> ram s' p = ram s p)).
Proof.
  intros Hr Hal Hsz. destruct (pa_alloc_ok (al s)) as (p & a' & E & Hi & Hp & Hpool); [done| |].
  { intros E. unfold pool in Hsz. rewrite E, size_empty in Hsz. lia. }
  pose proof (pa_managed_ok p (pa_pool_managed _ _ Hal Hp)) as [Hp0 Hpm].
  unfold uvmcreate. apply runs_bind. exists p, (mkvst (ram s) a'). split.
  { unfold ufkalloc, on_al. by rewrite E. }
  destruct (Z.eqb_spec p 0); [lia|]. apply runs_bind, runs_modify, runs_ret. cbn [ram al].
  set (s' := mkvst _ a').
  assert (ram s' p = zero_page) as Hz by apply fupd_eq.
  assert (forall va, vmap (ram s') p va = None) as Hv by (intros va; by apply zero_page_leaf).
  assert (ram_ok (ram s')) as Hr' by (apply fupd_ok; [done|unfold zero_page; by rewrite length_replicate]).
  split; [|split; [done|split; [done|split; [done|]]]].
  - split; [|unfold TRAPFRAME, TRAMPOLINE, MAXVA, PGSIZE; lia|..].
    + split; [done| |done|..].
      * assert (forall q path i, ({[p := []]} : gmap Z (list Z)) !! q = Some path -> 0 <= i < 512 ->
          rd (ram s') q i = 0) as H0.
        { intros q path i [<- <-]%lookup_singleton_Some Hi0. by apply rd_zero. }
        split.
        -- apply lookup_singleton_eq.
        -- intros q path i Hq _ Hi0. by rewrite (H0 q path).
        -- intros q path i Hq _ Hi0. by rewrite (H0 q path).
        -- intros q path [<- <-]%lookup_singleton_Some. simpl. lia.
        -- by intros q [<- _]%lookup_singleton_Some.
        -- by intros q i l [_ Hq]%lookup_singleton_Some.
        -- intros q path i [_ Hq]%lookup_singleton_Some. by destruct path.
      * intros q. rewrite dom_singleton_L. intros ->%elem_of_singleton.
        change (pool s') with (pa_pool a'). rewrite Hpool.
        intros [_ Hq]%elem_of_difference. by apply Hq, elem_of_singleton.
      * intros va pte _. by rewrite Hv.
      * intros va va' pte pte' _ _. by rewrite Hv.
    + intros va Hva Hlt. change (npages 0) with 0 in Hlt. assert (0 <= va / 4096) by (apply Z.div_pos; lia). lia.
    + intros va _ _. apply Hv.
  - intros q Hq. unfold s'. cbn [ram]. by apply fupd_ne.
Qed.
(** ** Freeing the page tables *)

(** The page-table pages whose indices start with [path]. *)
Definition under o (path : list Z) (p : Z) : Prop :=
  exists l, o !! p = Some l /\ path `prefix_of` l.

Record subtree (m : Z -> bytes) o (path : list Z) (t : Z) : Prop := {
  st_root : o !! t = Some path;
  st_one : forall p, o !! p = Some path -> p = t;
  st_next : forall p l i, o !! p = Some l -> path `prefix_of` l -> (length l < 2)%nat ->
    0 <= i < 512 -> has (rd m p i) PTE_V = true ->
    o !! PTE2PA (rd m p i) = Some (l ++ [i]) /\
    has (rd m p i) (Z.lor (Z.lor PTE_R PTE_W) PTE_X) = false;
  st_prev : forall p l i, o !! p = Some (l ++ [i]) -> path `prefix_of` l ->
    exists p', o !! p' = Some l /\ 0 <= i < 512 /\ has (rd m p' i) PTE_V = true /\
      PTE2PA (rd m p' i) = p;
  st_leaf : forall p l i, o !! p = Some l -> path `prefix_of` l -> (2 <= length l)%nat ->
    0 <= i < 512 -> has (rd m p i) PTE_V = false }.

Lemma under_app o path j p : under o (path ++ [j]) p -> under o path p.
Proof. intros (l & Hl & Hp). exists l. split; [done|]. etrans; [|done]. by apply prefix_app_r. Qed.

Lemma under_disjoint o path j j' p : under o (path ++ [j]) p -> under o (path ++ [j']) p -> j = j'.
Proof.
  intros (l & Hl & [r Hr]) (l' & Hl' & [r' Hr']). rewrite Hl in Hl'. simplify_eq.
  rewrite <-!app_assoc in Hl'. by apply app_inv_head in Hl'; simplify_eq.
Qed.

Section subtree.
Context (m : Z -> bytes) (o : gmap Z (list Z)) (path : list Z) (t : Z).
Hypothesis Hst : subtree m o path t.

Lemma under_root_not j : ~ under o (path ++ [j]) t.
Proof.
  intros (l & Hl & Hp). rewrite (st_root _ _ _ _ Hst) in Hl. simplify_eq.
  apply prefix_length in Hp. rewrite length_app in Hp. simpl in Hp. lia.
Qed.

(** A page below [path] is the root or below one of its valid entries. *)
Lemma under_cases p :
  under o path p -> p = t \/ exists j, under o (path ++ [j]) p /\ 0 <= j < 512 /\
    has (rd m t j) PTE_V = true /\ o !! PTE2PA (rd m t j) = Some (path ++ [j]).
Proof.
  intros (l & Hl & [r ->]). revert p Hl. induction r as [|x r IH] using rev_ind; intros p Hl.
  - left. rewrite app_nil_r in Hl. by apply (st_one _ _ _ _ Hst).
  - right. rewrite app_assoc in Hl.
    destruct (st_prev _ _ _ _ Hst p (path ++ r) x Hl) as (p' & Hp' & Hx & Hval & E);
      [by apply prefix_app_r|].
    destruct r as [|j r].
    + rewrite app_nil_r in Hp', Hl. apply (st_one _ _ _ _ Hst) in Hp' as ->.
      exists x. split; [by exists (path ++ [x])|]. split; [done|]. split; [done|]. by rewrite E.
    + destruct (IH p' Hp') as [->|(j' & Hj' & Hrest)].
      * rewrite (st_root _ _ _ _ Hst) in Hp'. apply (f_equal (fmap length)) in Hp'. simpl in Hp'.
        rewrite length_app in Hp'. simpl in Hp'. injection Hp' as Hp'. lia.
      * exists j'. split; [|done]. eexists. split; [exact Hl|].
        destruct Hj' as (l' & Hl' & Hpre). rewrite Hp' in Hl'. simplify_eq.
        etrans; [exact Hpre|]. by apply prefix_app_r.
Qed.

Lemma subtree_child m' j c :
  (length path < 2)%nat -> 0 <= j < 512 -> has (rd m t j) PTE_V = true -> c = PTE2PA (rd m t j) ->
  (forall p, under o (path ++ [j]) p -> m' p = m p) -> subtree m' o (path ++ [j]) c.
Proof.
  intros Hl Hj Hval -> Hf.
  assert (forall p l i, o !! p = Some l -> path ++ [j] `prefix_of` l -> rd m' p i = rd m p i) as Hr.
  { intros p l i Hp Hpre. unfold rd. rewrite Hf; [done|]. by exists l. }
  assert (forall l, path ++ [j] `prefix_of` l -> path `prefix_of` l) as Hpre.
  { intros l H. etrans; [|exact H]. by apply prefix_app_r. }
  destruct (st_next _ _ _ _ Hst t path j) as [Hc _]; try done; [apply Hst|].
  split.
  - done.
  - intros p Hp. destruct (st_prev _ _ _ _ Hst p path j Hp) as (p' & Hp' & _ & _ & <-); [done|].
    by apply (st_one _ _ _ _ Hst) in Hp' as ->.
  - intros p l i Hp H. rewrite (Hr p l) by done. apply (st_next _ _ _ _ Hst); [done|by apply Hpre].
  - intros p l i Hp H. destruct (st_prev _ _ _ _ Hst p l i Hp (Hpre _ H)) as (p' & Hp' & Hi & Hrest).
    exists p'. by rewrite (Hr p' l).
  - intros p l i Hp H. rewrite (Hr p l) by done. apply (st_leaf _ _ _ _ Hst p l); [done|by apply Hpre].
Qed.
End subtree.

Definition freed_under s s' o path : Prop :=
  pa_inv (al s') /\ ram_ok (ram s') /\
  (forall p, p ∈ pool s' <-> p ∈ pool s \/ under o path p) /\
  (forall p, ~ under o path p -> ram s' p = ram s p).

(** The state of the loop of [freewalk] when it has reached entry [i]. *)
Record fw_inv s0 s o path (t i : Z) : Prop := {
  fw_al : pa_inv (al s);
  fw_ram : ram_ok (ram s);
  fw_todo : forall j, i <= j < 512 -> rd (ram s) t j = rd (ram s0) t j;
  fw_below : forall p j, i <= j -> under o (path ++ [j]) p -> ram s p = ram s0 p;
  fw_pool : forall p, p ∈ pool s <-> p ∈ pool s0 \/ exists j, 0 <= j < i /\ under o (path ++ [j]) p;
  fw_frame : forall p, ~ under o path p -> ram s p = ram s0 p }.

Lemma fw_skip s0 s o path t i :
  0 <= i -> fw_inv s0 s o path t i -> (forall p, ~ under o (path ++ [i]) p) ->
  fw_inv s0 s o path t (i + 1).
Proof.
  intros Hi [F1 F2 F3 F4 F5 F6] Hno. split; try done.
  - intros j Hj. apply F3. lia.
  - intros p j Hj. apply F4. lia.
  - intros p. rewrite F5. split; intros [?|(j & Hj & Hu)]; try tauto; right.
    + exists j. split; [lia|done].
    + destruct (decide (j = i)) as [->|]; [by apply Hno in Hu|]. exists j. split; [lia|done].
Qed.

Lemma fw_next s0 s s1 o path t i :
  subtree (ram s0) o path t -> 0 <= i < 512 -> fw_inv s0 s o path t i ->
  freed_under s s1 o (path ++ [i]) ->
  fw_inv s0 (mkvst (wr (ram s1) t i 0) (al s1)) o path t (i + 1).
Proof.
  intros Hst Hi [F1 F2 F3 F4 F5 F6] (G1 & G2 & G3 & G4).
  assert (ram s1 t = ram s t) as Ht by (apply G4; by apply (under_root_not _ _ _ _ Hst)).
  split; cbn [al ram].
  - done.
  - by apply wr_ok.
  - intros j Hj. rewrite rd_wr by (done || lia). rewrite decide_False by lia.
    unfold rd. rewrite Ht. apply F3. lia.
  - intros p j Hj Hu. unfold wr. rewrite fupd_ne.
    + rewrite G4; [apply F4 with j; [lia|done]|]. intros Hu'.
      pose proof (under_disjoint _ _ _ _ _ Hu Hu'). lia.
    + intros ->. by apply (under_root_not _ _ _ _ Hst) in Hu.
  - intros p. change (pool (mkvst _ (al s1))) with (pool s1). rewrite G3, F5. split.
    + intros [[?|(j & Hj & Hu)]|Hu]; [tauto|right; exists j|right; exists i]; (split; [lia|done]).
    + intros [?|(j & Hj & Hu)]; [tauto|]. destruct (decide (j = i)) as [->|]; [tauto|].
      left. right. exists j. split; [lia|done].
  - intros p Hp. unfold wr. rewrite fupd_ne.
    + rewrite G4; [by apply F6|]. intros Hu. by apply Hp, (under_app _ _ i).
    + intros ->. apply Hp. exists path. split; [apply Hst|done].
Qed.

Lemma freewalk_entries_ok (rec : Z -> M (vst A) unit) k i s0 s o path t :
  subtree (ram s0) o path t -> 0 <= i -> i + Z.of_nat k = 512 -> fw_inv s0 s o path t i ->
  (forall c s1 j, (length path < 2)%nat -> subtree (ram s1) o (path ++ [j]) c -> ram_ok (ram s1) ->
    pa_inv (al s1) -> (forall p, under o (path ++ [j]) p -> p ∉ pool s1) ->
    runs (rec c) s1 (fun _ s' => freed_under s1 s' o (path ++ [j]))) ->
  (forall p, under o path p -> p ∉ pool s0) ->
  runs (freewalk_entries rec t k i) s (fun _ s' => fw_inv s0 s' o path t 512).
Proof.
  intros Hst Hi Hk Hfw Hrec Hdis. revert i s Hi Hk Hfw.
  induction k as [|k IH]; intros i s Hi Hk Hfw.
  { apply runs_ret. by replace 512 with i by lia. }
  cbn [freewalk_entries]. apply runs_bind, runs_gets. cbn [fst snd]. fold (rd (ram s) t i).
  rewrite (fw_todo _ _ _ _ _ _ Hfw) by lia. destruct (has (rd (ram s0) t i) PTE_V) eqn:Hval.
  - assert (length path < 2)%nat as Hl.
    { destruct (decide (length path < 2)%nat); [done|].
      rewrite (st_leaf _ _ _ _ Hst t path i) in Hval; [done|apply Hst|done|lia|lia]. }
    destruct (st_next _ _ _ _ Hst t path i) as [Hc Hfl]; [apply Hst|done|done|lia|done|].
    rewrite Hfl. cbn [andb negb]. apply runs_bind, runs_bind.
    eapply runs_mono; [apply (Hrec _ s i)|].
    + done.
    + eapply (subtree_child _ _ _ _ Hst); [done|lia|done|done|].
      intros p Hu. apply (fw_below _ _ _ _ _ _ Hfw) with i; [lia|done].
    + apply Hfw.
    + apply Hfw.
    + intros p Hu. rewrite (fw_pool _ _ _ _ _ _ Hfw). intros [Hp|(j & Hj & Hu')].
      * apply (Hdis p); [by eapply under_app|done].
      * pose proof (under_disjoint _ _ _ _ _ Hu Hu'). lia.
    + intros ? s1 Hs1. apply runs_modify. cbn [fst snd]. fold (wr (ram s1) t i 0).
      apply IH; [lia|lia|]. by eapply fw_next; [| |exact Hfw|]; [|lia|].
  - cbn [andb]. apply runs_bind, runs_ret. apply IH; [lia|lia|]. apply fw_skip; [done|done|].
    intros p Hu. destruct (under_cases _ _ _ _ Hst p (under_app _ _ _ _ Hu)) as [->|(j & Hu' & _ & Hv & _)].
    + by apply (under_root_not _ _ _ _ Hst) in Hu.
    + rewrite (under_disjoint _ _ _ _ _ Hu Hu') in Hval. congruence.
Qed.

Lemma freewalk_ok depth path t s o :
  (length path + depth = 3)%nat -> (length path <= 2)%nat -> subtree (ram s) o path t -> ram_ok (ram s) -> pa_inv (al s) ->
  (forall p, p ∈ dom o -> pa_managed p) -> (forall p, under o path p -> p ∉ pool s) ->
  runs (freewalk depth t) s (fun _ s' => freed_under s s' o path).
Proof.
  revert path t s. induction depth as [|depth IH]; intros path t s Hd Hl2 Hst Hr Hal Hman Hdis; [lia|].
  cbn [freewalk]. apply runs_bind. eapply runs_mono.
  { apply (freewalk_entries_ok _ 512 0 s s o path t); try done.
    - split; try done. intros p. split; [tauto|]. intros [?|(j & ? & _)]; [done|lia].
    - intros c s1 j Hl Hc Hr1 Hal1 Hdis1. apply IH; try done; rewrite length_app; simpl; lia. }
  intros ? s1 [F1 F2 F3 F4 F5 F6].
  assert (under o path t) as Hut by (exists path; split; [apply Hst|done]).
  assert (t ∉ pool s1) as Ht.
  { rewrite F5. intros [Hp|(j & _ & Hu)]; [by apply (Hdis t)|by apply (under_root_not _ _ _ _ Hst) in Hu]. }
  destruct (pa_free_ok (al s1) t) as (a' & E & Hi & Hpool); [done| |done|].
  { apply Hman. eapply elem_of_dom_2, Hst. }
  exists tt, (mkvst (ram s1) a'). split; [unfold ufkfree, on_al; by rewrite E|].
  split; [done|]. split; [done|]. split; [|done].
  intros p. change (pool (mkvst _ a')) with (pa_pool a'). rewrite Hpool, elem_of_union, elem_of_singleton.
  change (pa_pool (al s1)) with (pool s1). rewrite F5. split.
  - intros [->|[?|(j & _ & Hu)]]; [tauto|tauto|]. right. by eapply under_app.
  - intros [?|Hu]; [tauto|]. destruct (under_cases _ _ _ _ Hst p Hu) as [->|(j & Hu' & Hj & _)]; [tauto|].
    right. right. by exists j.
Qed.
(** In a page table that maps nothing every last-level entry is invalid. *)
Lemma no_leaf_entries m root o p l i :
  pt_inv m root o -> (forall va, 0 <= va < MAXVA -> vmap m root va = None) ->
  o !! p = Some l -> (2 <= length l)%nat -> 0 <= i < 512 -> has (rd m p i) PTE_V = false.
Proof.
  intros Hinv Hno Hp Hl Hi. pose proof (pi_len _ _ _ Hinv p l Hp) as Hl2.
  destruct l as [|i2 [|i1 [|]]]; simpl in *; try lia.
  pose proof (pi_low _ _ _ Hinv p i2 [i1] Hp) as Hlow.
  destruct (pi_prev _ _ _ Hinv p [i2] i1 Hp) as (p1 & Hp1 & H1 & Hv1 & E1).
  destruct (pi_prev _ _ _ Hinv p1 [] i2 Hp1) as (p2 & Hp2 & H2 & Hv2 & E2).
  apply (pi_one _ _ _ Hinv) in Hp2 as ->.
  destruct (va_of_PX i2 i1 i) as (Hva & X2 & X1 & X0); [lia|done|done|].
  specialize (Hno _ Hva). unfold vmap, leaf in Hno. cbn [pt_walk] in Hno.
  rewrite X2, X1, X0, Hv2, E2, Hv1, E1 in Hno. by destruct (has (rd m p i) PTE_V).
Qed.

Lemma uvmfree_ok sz s root o :
  user_space s root o sz -> 0 < sz ->
  (forall va, TRAPFRAME <= va < MAXVA -> vmap (ram s) root va = None) ->
  (forall p, p ∈ dom o -> pa_managed p) ->
  runs (uvmfree root sz) s (fun _ s' => pa_inv (al s') /\
    (forall p, p ∈ pool s' <-> p ∈ pool s \/ p ∈ dom o \/ frames (ram s) root 0 (npages sz - 1) p) /\
    (forall p, p ∉ dom o -> ram s' p = ram s p)).
Proof.
  intros Hus Hsz Htop Hman. pose proof (us_size _ _ _ _ Hus) as Hs0.
  pose proof (npages_spec sz) as Hnp. unfold uvmfree. apply runs_bind.
  assert ((0 + sz - 1) / 4096 - 0 / 4096 = npages sz - 1) as Hk.
  { change (0 / 4096) with 0. replace ((0 + sz - 1) / 4096) with (npages sz - 1); [lia|].
    apply Z.div_unique with (sz - 1 - 4096 * (npages sz - 1)); lia. }
  eapply runs_mono; [apply (uvmunmap_ok 0 sz true s root o); rewrite ?Hk; try lia|].
  - apply Hus.
  - unfold TRAPFRAME, TRAMPOLINE, PGSIZE in *. lia.
  - intros v Hv. change (0 / 4096) with 0. intros Hr. apply (us_map _ _ _ _ Hus); [done|lia].
  - intros ? s1 (Hok1 & Hf1 & Hv1 & Hp1). rewrite Hk in Hv1, Hp1. change (0 / 4096) with 0 in Hv1.
    assert (forall va, 0 <= va < MAXVA -> vmap (ram s1) root va = None) as Hno.
    { intros va Hva. rewrite Hv1 by done. case_decide as Hd; [done|].
      assert (0 <= va / 4096) by (apply Z.div_pos; lia).
      destruct (decide (va < TRAPFRAME)); [apply (us_gap _ _ _ _ Hus); lia|apply Htop; lia]. }
    pose proof (vo_pt _ _ _ Hok1) as Hpt.
    eapply runs_mono; [apply (freewalk_ok 3 [] root s1 o); try done; try lia|].
    + simpl. lia.
    + split.
      * apply Hpt.
      * apply Hpt.
      * intros p l i Hp _ Hl Hi Hv. split; [by apply (pi_next _ _ _ Hpt)|by apply (pi_flags _ _ _ Hpt p l)].
      * intros p l i Hp _. by apply (pi_prev _ _ _ Hpt).
      * intros p l i Hp _ Hl. by apply (no_leaf_entries _ root o p l).
    + apply Hok1.
    + apply Hok1.
    + intros p (l & Hl & _). apply (vo_tab _ _ _ Hok1). by eapply elem_of_dom_2.
    + assert (forall p, under o [] p <-> p ∈ dom o) as Hu.
      { intros p. unfold under. rewrite elem_of_dom. split; [intros (l & ? & _); eauto|].
        intros [l ?]. exists l. split; [done|apply prefix_nil]. }
      intros ? s2 (G1 & G2 & G3 & G4). split; [done|]. split.
      * intros p. rewrite G3, Hp1, Hu. tauto.
      * intros p Hp. rewrite G4, Hf1; [done|done|by rewrite Hu].
Qed.
End spaces.
