(* ===== verification/UserMem.v ===== *)
(** What processes see of virtual memory.

    The theorems on kernel/mem/vm.c: copies between kernel and user memory,
    growing and shrinking a process, the memory of a forked child, and giving
    back every page of a dead process.  They hold for every page allocator that
    keeps the promises of PageAlloc.v; the examples run over the free list of
    kernel/lib/kalloc.c. *)

From S2P Require Import Prelude PageAlloc Vm.

Section spec.
Context {A : Type} `{!PageAlloc A} `{!PageAllocLaws A}.
Implicit Types (s : vst A) (o : gmap Z (list Z)).

(** [copyout] and [copyin] move bytes between the kernel and the memory that
    the user program sees through its page table, across page boundaries.
    [copyout] returns 0 and every byte of [src] is in user memory from [dstva]
    on, or returns -1 and exactly the bytes in front of the first one that is
    not mapped for the user are; no other byte of user memory changes and no
    mapping does.  After a successful [copyout], [copyin] of the same range
    returns the same bytes. *)
Theorem copyout_copyin s root o dstva src :
  vm_ok s root o -> 0 <= dstva < 2 ^ 64 ->
  exists r s' n, copyout root dstva src s = Ok r s' /\ vm_ok s' root o /\
    copied_out s s' root dstva src r n /\
    (r = 0 -> copyin root dstva (Z.of_nat (length src)) s' = Ok (0, src) s').
Proof.
  intros Hok Hd. destruct (copyout_loop_ok (S (length src)) s root o dstva src Hok Hd)
    as (r & s' & n & E & Hok' & Hc); [lia|].
  exists r, s', n. split; [done|]. split; [done|]. split; [done|]. intros ->.
  destruct Hc as (_ & Hu & [[_ ->]|[? _]]); [|done].
  destruct (copyin_loop_ok (S (Z.to_nat (Z.of_nat (length src)))) s' root o dstva
    (Z.of_nat (length src)) [] Hok' Hd) as (r & data & E' & Hdata & Hr); [lia|].
  assert (forall i, (i < length src)%nat -> ubyte s' root (dstva + Z.of_nat i) = src !! i) as Hsrc.
  { intros i Hi. rewrite Hu, decide_True by lia. f_equal. lia. }
  unfold copyin. rewrite E'. destruct Hr as [[-> Hlen]|(-> & Hlen & Hnone)].
  - do 2 f_equal. apply list_eq. intros i. simpl. destruct (decide (i < length src)%nat).
    + by rewrite Hdata, Hsrc by lia.
    + by rewrite !lookup_ge_None_2 by lia.
  - rewrite Hsrc in Hnone by lia. apply lookup_ge_None in Hnone. lia.
Qed.

(** growing and shrinking a process.  [uvmalloc] from [oldsz] to [newsz]
    (with room for three pages of the allocator for every page added) returns
    [newsz]; the process then has the pages up to the new size, the new ones
    read as zero, and its old memory is unchanged.  [uvmdealloc] back to
    [oldsz] returns [oldsz] and leaves the memory as it was before. *)
Theorem uvmalloc_uvmdealloc s root o oldsz newsz :
  user_space s root o oldsz -> oldsz <= newsz <= TRAPFRAME ->
  3 * (npages newsz - npages oldsz) <= Z.of_nat (size (pool s)) ->
  exists s1 o1 s2,
    uvmalloc root oldsz newsz s = Ok newsz s1 /\ user_space s1 root o1 newsz /\
    (forall va, 0 <= va < MAXVA -> ubyte s1 root va =
      if decide (npages oldsz <= va / 4096 < npages newsz) then Some 0 else ubyte s root va) /\
    uvmdealloc root newsz oldsz s1 = Ok oldsz s2 /\ user_space s2 root o1 oldsz /\
    (forall va, 0 <= va < TRAPFRAME -> ubyte s2 root va = ubyte s root va).
Proof.
  intros Hus Hle Hsz. pose proof (us_size _ _ _ _ Hus) as Hs0.
  destruct (uvmalloc_ok oldsz newsz s root o Hus Hle Hsz) as (r & s1 & E & -> & o1 & Hus1 & _ & Hu1 & _).
  destruct (uvmdealloc_ok newsz oldsz s1 root o1 Hus1) as (r & s2 & E2 & -> & Hus2 & Hu2 & _); [lia|].
  exists s1, o1, s2. repeat (split; [done|]). intros va Hva.
  assert (0 <= va < MAXVA) as Hva' by (unfold TRAPFRAME, TRAMPOLINE, PGSIZE in *; lia).
  rewrite Hu2, Hu1 by done. case_decide as Hd; [|done]. unfold ubyte.
  by rewrite decide_True, (us_gap _ _ _ _ Hus) by (done || lia).
Qed.

(** The child's page table is made next to the parent's. *)
Lemma uvmcreate_beside s root1 o1 sz :
  user_space s root1 o1 sz -> (0 < size (pool s))%nat ->
  runs uvmcreate s (fun root2 s' => user_space s' root1 o1 sz /\
    user_space s' root2 {[root2 := []]} 0 /\ apart s' root1 o1 {[root2 := []]} /\
    size (pool s) = S (size (pool s')) /\
    (forall va, ubyte s' root1 va = ubyte s root1 va) /\
    (forall va, upage s' root1 va = upage s root1 va)).
Proof.
  intros Hus Hsz. pose proof (us_ok _ _ _ _ Hus) as Hok.
  eapply runs_mono; [apply uvmcreate_ok; [apply Hok|apply Hok|done]|].
  intros root2 s' (Hus2 & Hin & Hpool & _ & Hf).
  assert (vm_local s ∅ s' {[root2 := []]}) as Hl.
  { split; [rewrite Hpool; set_solver|]. split; [rewrite dom_singleton; set_solver|].
    split; [rewrite dom_empty; set_solver|]. intros p _ Hp. apply Hf. by intros ->. }
  destruct (vm_other s s' root1 o1 ∅ {[root2 := []]} Hok) as (Hok' & Hap & Hm & Hu); try done.
  { exact (vo_ram _ _ _ (us_ok _ _ _ _ Hus2)). }
  { exact (vo_al _ _ _ (us_ok _ _ _ _ Hus2)). }
  split. { split; [done|apply Hus|..]; intros va; unfold unmappable; rewrite ?Hm; apply Hus. }
  split; [done|]. split; [done|]. split; [by apply pool_size_remove with root2|]. split; [done|].
  intros va. by apply upage_vmap.
Qed.

(** C37: the memory of a forked child.  [uvmcreate] followed by [uvmcopy] from a
    process of size [sz] (with room for three pages per page and one more)
    returns 0; the child then sees the same bytes as the parent at every
    address below the size, the parent's memory is unchanged, and no page is
    shared: what one of them writes later the other does not see. *)
Theorem uvmcopy_fork s root1 o1 sz :
  user_space s root1 o1 sz -> 3 * npages sz + 1 <= Z.of_nat (size (pool s)) ->
  exists root2 s1 s2 o2,
    uvmcreate s = Ok root2 s1 /\ uvmcopy root1 root2 sz s1 = Ok 0 s2 /\
    user_space s2 root1 o1 sz /\ user_space s2 root2 o2 sz /\
    (forall va, 0 <= va < 4096 * npages sz -> ubyte s2 root2 va = ubyte s root1 va) /\
    (forall va, ubyte s2 root1 va = ubyte s root1 va) /\
    (forall va va' p, 0 <= va' < 4096 * npages sz ->
      upage s root1 va = Some p -> upage s2 root2 va' <> Some p).
Proof.
  intros Hus Hsz. pose proof (us_size _ _ _ _ Hus) as Hs0.
  assert (0 <= npages sz) by (apply Z.div_pos; lia).
  destruct (uvmcreate_beside s root1 o1 sz Hus ltac:(lia))
    as (root2 & s1 & E1 & H1 & H2 & Hap & Hs1 & Hu1 & Hp1).
  destruct (uvmcopy_ok sz s1 root1 root2 o1 {[root2 := []]} H1 H2 Hap ltac:(lia))
    as (r & s2 & E2 & -> & o2 & V1 & V2 & _ & _ & F1 & F2 & F3).
  exists root2, s1, s2, o2. split; [done|]. split; [done|]. split; [done|]. split; [done|].
  assert (npages sz <= 67108862) by (apply npages_trap; lia). split; [|split].
  - intros va Hva. rewrite F2 by (unfold MAXVA; lia). rewrite Hu1.
    rewrite decide_True; [done|]. split; [apply Z.div_pos; lia|]. rewrite Z.add_0_l. apply page_lt. lia.
  - intros va. by rewrite F1, Hu1.
  - intros va va' p Hva Hp Hp'. rewrite <-Hp1 in Hp.
    destruct (upage_ok _ _ _ _ _ (us_ok _ _ _ _ H1) Hp) as (_ & _ & Hn). apply Hn, (F3 va'); [|done].
    split; [apply Z.div_pos; lia|]. rewrite Z.add_0_l. apply page_lt. lia.
Qed.

(** C38: nothing leaks when a process dies.  [uvmfree] of a page table from which
    the trampoline and the trap frame have been removed gives back exactly the
    page-table pages and the pages that the process had mapped, each of them
    once, and touches no other page. *)
Theorem uvmfree_returns_all s root o sz :
  user_space s root o sz -> 0 < sz ->
  (forall va, TRAPFRAME <= va < MAXVA -> vmap (ram s) root va = None) ->
  (forall p, p ∈ dom o -> pa_managed p) ->
  exists s', uvmfree root sz s = Ok tt s' /\ pa_inv (al s') /\
    (forall p, p ∈ pool s' <-> p ∈ pool s \/ p ∈ dom o \/ frames (ram s) root 0 (npages sz - 1) p) /\
    (forall p, p ∉ dom o -> ram s' p = ram s p).
Proof.
  intros H1 H2 H3 H4. destruct (uvmfree_ok sz s root o H1 H2 H3 H4) as ([] & s' & E & Hr).
  by exists s'.
Qed.

(** The inner loop of [copyinstr]. *)
Lemma copyinstr_page_ok p dst :
  exists data b, copyinstr_page p dst = (dst ++ data, b) /\ data `prefix_of` p /\
    if b then exists d, data = d ++ [0] /\ 0 ∉ d else data = p /\ 0 ∉ data.
Proof.
  revert dst. induction p as [|c p IH]; intros dst; cbn [copyinstr_page].
  - exists [], false. rewrite app_nil_r. split; [done|]. split; [done|]. split; [done|apply not_elem_of_nil].
  - destruct (Z.eqb_spec c 0) as [->|Hc].
    + exists [0], true. split; [done|]. split; [apply prefix_cons, prefix_nil|].
      exists []. split; [done|apply not_elem_of_nil].
    + destruct (IH (dst ++ [c])) as (data & b & E & Hp & Hb). exists (c :: data), b.
      rewrite E, <-app_assoc. split; [done|]. split; [by apply prefix_cons|].
      destruct b.
      * destruct Hb as (d & -> & Hd). exists (c :: d). split; [done|]. rewrite not_elem_of_cons. auto.
      * destruct Hb as [-> Hd]. split; [done|]. rewrite not_elem_of_cons. auto.
Qed.

(** The string that ends at the first NUL, or what precedes the first byte that
    cannot be read, or [max] bytes without a NUL. *)
Definition string_copied s root (srcva max r : Z) (data : bytes) : Prop :=
  (forall i, (i < length data)%nat -> data !! i = ubyte s root (srcva + Z.of_nat i)) /\
  ((r = 0 /\ Z.of_nat (length data) <= max /\ exists d, data = d ++ [0] /\ 0 ∉ d) \/
   (r = -1 /\ (0 ∉ data) /\ (Z.of_nat (length data) = max \/
      (Z.of_nat (length data) < max /\ ubyte s root (srcva + Z.of_nat (length data)) = None)))).

Lemma copyinstr_loop_ok fuel s root o srcva max dst :
  vm_ok s root o -> 0 <= srcva < 2 ^ 64 -> 0 <= max < Z.of_nat fuel ->
  exists r data, copyinstr_loop fuel root srcva max dst s = Ok (r, dst ++ data) s /\
    string_copied s root srcva max r data.
Proof.
  intros Hok. revert srcva max dst. induction fuel as [|fuel IH]; intros srcva max dst Hs Hl; [lia|].
  cbn [copyinstr_loop]. destruct (Z.ltb_spec 0 max) as [Hpos|Hz].
  2: { exists (-1), []. rewrite app_nil_r. split; [done|]. split; [intros i Hi; simpl in Hi; lia|].
       right. split; [done|]. split; [apply not_elem_of_nil|]. left. simpl. lia. }
  cbv zeta. destruct (page_split srcva) as (E1 & E2 & E3).
  rewrite (bind_ok _ _ _ _ _ (walkaddr_ok s root (PGROUNDDOWN srcva) ltac:(lia))).
  rewrite (upage_same s root _ srcva E1). destruct (upage s root srcva) as [pg|] eqn:Hpg; cbn [default].
  2: { exists (-1), []. rewrite app_nil_r. split; [done|]. split; [intros i Hi; simpl in Hi; lia|].
       right. split; [done|]. split; [apply not_elem_of_nil|]. right. simpl.
       rewrite Z.add_0_r, ubyte_upage, Hpg. split; [lia|done]. }
  destruct (upage_ok _ _ _ _ _ Hok Hpg) as (Hne & _). unfold id. destruct (Z.eqb_spec pg 0) as [|_]; [done|].
  rewrite (bind_ok (get_page pg) _ s (ram s pg) s eq_refl). rewrite E2.
  pose proof (Z.mod_pos_bound srcva 4096 ltac:(lia)) as Hb.
  unfold PGSIZE. set (n := Z.min (4096 - srcva mod 4096) max).
  assert (0 < n) by lia. pose proof (proj1 (upage_inv _ _ _ _ Hpg)) as Hva.
  set (d1 := sub_bytes _ _ _).
  assert (length d1 = Z.to_nat n) as Hd1.
  { apply length_sub_bytes. rewrite (vo_ram _ _ _ Hok). unfold PGSIZE. lia. }
  assert (forall i, (i < Z.to_nat n)%nat -> d1 !! i = ubyte s root (srcva + Z.of_nat i)) as Hu1.
  { intros i Hi. unfold d1. rewrite lookup_sub_bytes, decide_True by done.
    rewrite (ubyte_page s root o srcva pg) by (done || lia). f_equal. lia. }
  destruct (copyinstr_page_ok d1 dst) as (data & b & E & Hpre & Hdata). rewrite E.
  assert (length data <= Z.to_nat n)%nat as Hlen by (rewrite <-Hd1; by apply prefix_length).
  assert (forall i, (i < length data)%nat -> data !! i = d1 !! i) as Hdi.
  { intros i Hi. destruct (lookup_lt_is_Some_2 data i Hi) as [x Hx].
    rewrite Hx. symmetry. by eapply prefix_lookup_Some. }
  destruct b.
  - exists 0, data. split; [done|]. split; [intros i Hi; rewrite Hdi, Hu1 by lia; done|].
    left. split; [done|]. split; [lia|done].
  - destruct Hdata as [-> Hn0]. assert (PGROUNDDOWN srcva + 4096 = srcva - srcva mod 4096 + 4096) as E4 by lia.
    rewrite u64_small by (unfold MAXVA in *; lia). rewrite E4.
    destruct (IH (srcva - srcva mod 4096 + 4096) (max - n) (dst ++ d1))
      as (r & data & E' & Hd & Hr); [unfold MAXVA in *; lia|lia|].
    assert (srcva - srcva mod 4096 + 4096 = srcva + n \/ n = max) as Hn by lia.
    exists r, (d1 ++ data). split; [by rewrite app_assoc|].
    assert (n = max -> data = []) as Hnil.
    { intros ->. destruct Hr as [(_ & Hz & _)|(_ & _ & [Hz|[Hz _]])]; destruct data; simpl in Hz; done || lia. }
    split.
    + intros i Hi. rewrite length_app, Hd1 in Hi. destruct (decide (i < Z.to_nat n)%nat).
      * rewrite lookup_app_l, Hu1 by lia. done.
      * destruct Hn as [Hn|Hn]; [|rewrite (Hnil Hn) in Hi; simpl in Hi; lia].
        rewrite lookup_app_r, Hd1, Hd by lia. f_equal. lia.
    + rewrite length_app, Hd1. destruct Hr as [(-> & Hz & d & -> & Hd0)|(-> & H0 & Hr)]; [left|right].
      * split; [done|]. split; [lia|]. exists (d1 ++ d). rewrite app_assoc. split; [done|].
        rewrite not_elem_of_app. auto.
      * split; [done|]. rewrite not_elem_of_app. split; [auto|]. destruct Hr as [Hr|[Hr Hnone]]; [left; lia|right].
        split; [lia|]. destruct Hn as [Hn|Hn]; [|rewrite (Hnil Hn) in Hr; simpl in Hr; lia].
        rewrite <-Hnone. f_equal. lia.
Qed.

(** [copyinstr] fetches a string argument of a system call.  It returns 0
    exactly with the bytes of user memory from [srcva] up to and including the
    first NUL, if that comes within [max] bytes; otherwise it returns -1 after
    [max] bytes that are not NUL or at the first byte that the user cannot
    read.  It never stores more than [max] bytes. *)
Theorem copyinstr_spec s root o srcva max :
  vm_ok s root o -> 0 <= srcva < 2 ^ 64 -> 0 <= max ->
  exists r data, copyinstr root srcva max s = Ok (r, data) s /\ string_copied s root srcva max r data.
Proof.
  intros Hok Hs Hm. destruct (copyinstr_loop_ok (S (Z.to_nat max)) s root o srcva max [] Hok Hs)
    as (r & data & E & H); [lia|]. by exists r, data.
Qed.
End spec.

(** ** Examples: a process over the free list of kalloc.c *)

Definition wit_end : Z := 2147549184.
#[local] Instance wit_pages : PageAlloc Kalloc.kmem := Kalloc.kalloc_pages wit_end.
#[local] Instance wit_laws : PageAllocLaws Kalloc.kmem := Kalloc.kalloc_laws wit_end.

(** Twenty free pages. *)
Definition wit_vst : vst Kalloc.kmem :=
  mkvst (fun _ => zero_page)
    (Kalloc.mkkmem ((fun i => wit_end + 4096 * Z.of_nat i) <$> seq 0 20)).

Lemma wit_pool_size : size (pool wit_vst) = 20%nat.
Proof. vm_compute. reflexivity. Qed.

Lemma wit_inv : pa_inv (al wit_vst).
Proof.
  split; [apply (bool_decide_unpack _); vm_compute; reflexivity|].
  repeat constructor; unfold Kalloc.managed, Kalloc.PHYSTOP, Kalloc.KERNBASE, wit_end; try done; try lia.
Qed.

(** A process with two pages of memory, made by [uvmcreate] and [uvmalloc]. *)
Lemma wit_space : exists root s1 s o, uvmcreate wit_vst = Ok root s1 /\
  uvmalloc root 0 5000 s1 = Ok 5000 s /\
  user_space s root o 5000 /\ 7 <= Z.of_nat (size (pool s)) /\
  (forall va, 0 <= va < 8192 -> ubyte s root va = Some 0) /\
  (forall p, p ∈ dom o -> pa_managed p) /\
  (forall va, TRAPFRAME <= va < MAXVA -> vmap (ram s) root va = None).
Proof.
  destruct (uvmcreate_ok wit_vst) as (root & s1 & E1 & Hus1 & Hin & Hpool & Hv1 & _);
    [intros p; apply length_replicate|apply wit_inv|rewrite wit_pool_size; lia|].
  pose proof (pool_size_remove _ _ _ Hin Hpool) as Hs1. rewrite wit_pool_size in Hs1.
  change (npages 5000) with 2 in *.
  destruct (uvmalloc_ok 0 5000 s1 root {[root := []]} Hus1) as
    (r & s & E2 & -> & o & Hus & (_ & Hdom & _) & Hu & Hv & _ & Hs);
    [unfold TRAPFRAME, TRAMPOLINE, MAXVA, PGSIZE; lia|change (npages 5000 - npages 0) with 2; lia|].
  change (npages 5000) with 2 in *. change (npages 0) with 0 in *.
  exists root, s1, s, o. split; [done|]. split; [done|]. split; [done|]. split; [lia|]. split; [|split].
  - intros va Hva. rewrite Hu by (unfold MAXVA; lia). rewrite decide_True; [done|].
    split; [apply Z.div_pos; lia|apply page_lt; lia].
  - intros p Hp. apply Hdom in Hp. apply (pa_pool_managed (al wit_vst)); [apply wit_inv|].
    change (p ∈ pool wit_vst). rewrite Hpool, dom_singleton_L in Hp. set_solver.
  - intros va Hva. unfold TRAPFRAME, TRAMPOLINE, MAXVA, PGSIZE in Hva.
    rewrite Hv, Hv1; [done|unfold MAXVA; lia|]. intros [_ Hlt%page_lt]. lia.
Qed.

Lemma copyout_copyin_witness : exists root s' s,
  ubyte s root 4094 = Some 0 /\ copyout root 4094 [1; 2; 3; 4] s = Ok 0 s' /\
  copyin root 4094 4 s' = Ok (0, [1; 2; 3; 4]) s'.
Proof.
  destruct wit_space as (root & _ & s & o & _ & _ & Hus & _ & Hu & _).
  destruct (copyout_copyin s root o 4094 [1; 2; 3; 4]) as (r & s' & n & E & _ & (_ & _ & Hr) & Hin);
    [apply Hus|lia|].
  assert (r = 0) as ->.
  { destruct Hr as [[? _]|(_ & Hn & Hnone)]; [done|]. simpl in Hn. rewrite Hu in Hnone by lia. done. }
  exists root, s', s. split; [apply Hu; lia|]. split; [exact E|]. by apply Hin.
Defined.

Lemma uvmalloc_uvmdealloc_witness : exists root s s1 s2,
  uvmalloc root 5000 9000 s = Ok 9000 s1 /\ ubyte s1 root 8999 = Some 0 /\
  uvmdealloc root 9000 5000 s1 = Ok 5000 s2.
Proof.
  destruct wit_space as (root & _ & s & o & _ & _ & Hus & Hs & _).
  destruct (uvmalloc_uvmdealloc s root o 5000 9000) as (s1 & o1 & s2 & E1 & _ & Hu & E2 & _);
    [exact Hus|unfold TRAPFRAME, TRAMPOLINE, MAXVA, PGSIZE; lia
    |change (npages 9000 - npages 5000) with 1; lia|].
  exists root, s, s1, s2. split; [exact E1|]. split; [|exact E2].
  rewrite Hu by (unfold MAXVA; lia). reflexivity.
Defined.

Lemma uvmcopy_fork_witness : exists root1 root2 s s1 s2,
  uvmcreate s = Ok root2 s1 /\ uvmcopy root1 root2 5000 s1 = Ok 0 s2 /\ ubyte s2 root2 77 = Some 0.
Proof.
  destruct wit_space as (root & _ & s & o & _ & _ & Hus & Hs & Hu & _).
  destruct (uvmcopy_fork s root o 5000) as (root2 & s1 & s2 & o2 & E1 & E2 & _ & _ & Hc & _);
    [exact Hus|change (npages 5000) with 2; lia|].
  exists root, root2, s, s1, s2. split; [exact E1|]. split; [exact E2|].
  rewrite Hc by (change (npages 5000) with 2; lia). apply Hu. lia.
Defined.

Lemma uvmfree_returns_all_witness : exists root s o s',
  user_space s root o 5000 /\ uvmfree root 5000 s = Ok tt s' /\ root ∈ pool s'.
Proof.
  destruct wit_space as (root & _ & s & o & _ & _ & Hus & _ & _ & Hman & Hv).
  destruct (uvmfree_returns_all s root o 5000 Hus) as (s' & E & _ & Hp & _); [lia|exact Hv|exact Hman|].
  exists root, s, o, s'. split; [exact Hus|]. split; [exact E|]. apply Hp. right. left.
  eapply elem_of_dom_2. apply (pi_root _ _ _ (vo_pt _ _ _ (us_ok _ _ _ _ Hus))).
Defined.

Lemma copyinstr_spec_witness : exists root s data,
  copyinstr root 10 5 s = Ok (0, data) s /\ data = [0].
Proof.
  destruct wit_space as (root & _ & s & o & _ & _ & Hus & _ & Hu & _).
  destruct (copyinstr_spec s root o 10 5) as (r & data & E & Hd & Hr); [apply Hus|lia|lia|].
  assert (data = [0] /\ r = 0) as [-> ->]; [|by exists root, s, [0]].
  assert (forall x, data !! 0%nat = Some x -> x = 0) as Hx.
  { intros x Hx. rewrite Hd, Hu in Hx by (try lia; by apply lookup_lt_Some in Hx). by simplify_eq. }
  destruct Hr as [(-> & _ & [|y d] & -> & Hn)|(-> & Hn & Hr)].
  - done.
  - exfalso. apply Hn. rewrite (Hx y eq_refl). set_solver.
  - exfalso. destruct data as [|x data].
    + simpl in Hr. destruct Hr as [?|[_ Hr]]; [lia|]. rewrite Hu in Hr by lia. done.
    + apply Hn. rewrite (Hx x eq_refl). set_solver.
Defined.
