(* ===== verification/FsDisk.v ===== *)
(** What the file system relies on below it, and the state it keeps.

    The file system reads and changes blocks inside a transaction: [bread],
    access to the data of the buffer, [log_write], [brelse].  [tx] is the
    abstract state of a running transaction: what the blocks contain, which
    buffers are held, which were changed and not yet handed to the log, which are
    known to be logged, and how many more blocks may be logged.  [TxDisk] are the operations and
    [TxDiskLaws] what they promise; FsTx.v proves it of the log over the buffer
    cache, and [MemDisk] below is the reference implementation in memory. *)

From S2P Require Import Prelude Lock.
Import Sleeplock.

Definition BSIZE : Z := 1024.
Definition ROOTDEV : Z := 1.

Section tx.
Context {H : Type}.

Record tx := mktx {
  t_view : Z -> bytes;
  t_held : gmap Z H;
  t_dirty : gset Z;
  t_budget : nat;
  t_logged : gset Z }.

Definition t_bread (b : Z) (h : H) (t : tx) : tx :=
  mktx (t_view t) (<[b := h]> (t_held t)) (t_dirty t) (t_budget t) (t_logged t).
Definition t_store (b : Z) (v : bytes) (t : tx) : tx :=
  mktx (fupd (t_view t) b v) (t_held t) ({[b]} ∪ t_dirty t) (t_budget t) (t_logged t).
Definition t_log (b : Z) (t : tx) : tx :=
  mktx (t_view t) (t_held t) (t_dirty t ∖ {[b]})
    (if decide (b ∈ t_logged t) then t_budget t else pred (t_budget t)) ({[b]} ∪ t_logged t).
Definition t_brelse (b : Z) (t : tx) : tx :=
  mktx (t_view t) (delete b (t_held t)) (t_dirty t) (t_budget t) (t_logged t).
(** To know less about the log. *)
Definition t_weak (n : nat) (L : gset Z) (t : tx) : tx :=
  mktx (t_view t) (t_held t) (t_dirty t) n L.
End tx.
Arguments tx : clear implicits.

(** At most this many buffers are held at once. *)
Definition MAXHELD : nat := 3.

(** [log_write(b)] is given [b->blockno], as in Log.v. *)
Class TxDisk (S H : Type) := {
  td_bread : Z -> Z -> M S H;
  td_data : H -> M S bytes;
  td_store : H -> bytes -> M S unit;
  td_log_write : H -> Z -> M S unit;
  td_brelse : H -> M S unit }.

Class TxDiskLaws (S H : Type) `{!TxDisk S H} := {
  td_rel : S -> tx H -> Prop;
  td_valid : Z -> Prop;
  td_bread_ok s t b :
    td_rel s t -> td_valid b -> t_held t !! b = None -> (size (t_held t) < MAXHELD)%nat ->
    exists h s', td_bread ROOTDEV b s = Ok h s' /\ td_rel s' (t_bread b h t);
  td_data_ok s t b h :
    td_rel s t -> t_held t !! b = Some h -> td_data h s = Ok (t_view t b) s;
  td_store_ok s t b h v :
    td_rel s t -> t_held t !! b = Some h ->
    exists s', td_store h v s = Ok tt s' /\ td_rel s' (t_store b v t);
  td_log_ok s t b h :
    td_rel s t -> t_held t !! b = Some h -> (b ∈ t_logged t \/ 0 < t_budget t)%nat ->
    exists s', td_log_write h b s = Ok tt s' /\ td_rel s' (t_log b t);
  td_brelse_ok s t b h :
    td_rel s t -> t_held t !! b = Some h -> b ∉ t_dirty t ->
    exists s', td_brelse h s = Ok tt s' /\ td_rel s' (t_brelse b t);
  td_weaken s t n L :
    td_rel s t -> (n <= t_budget t)%nat -> L ⊆ t_logged t -> td_rel s (t_weak n L t) }.

(** [copyout] and [copyin] of the running process.  The second returns the bytes
    that were copied before an error, too. *)
Class UserCopy (C : Type) := {
  uc_copyout : Z -> bytes -> M C Z;
  uc_copyin : Z -> Z -> M C (bytes * Z) }.

(** ** State *)

Record superblock := mksb {
  sb_magic : Z; sb_size : Z; sb_nblocks : Z; sb_ninodes : Z;
  sb_nlog : Z; sb_logstart : Z; sb_inodestart : Z; sb_bmapstart : Z }.

Record inode := mkino {
  i_dev : Z; i_inum : Z; i_ref : Z; i_lock : sleeplock; i_valid : bool;
  i_type : Z; i_major : Z; i_minor : Z; i_nlink : Z; i_size : Z; i_addrs : list Z }.

Section state.
Context {S H C : Type} `{!TxDisk S H} `{!UserCopy C}.

(** The variables of the file system: the super block, the inode cache, the
    kernel object that [readi] and [writei] are given with [user == 0] (the
    address is an offset in it), the memory of the running process, its pid, the
    cpu, and its current directory (an index of the cache). *)
Record fvars := mkfv {
  sb : superblock; icache : list inode; kbuf : bytes; umem : C;
  f_pid : option Z; f_cpu : Z; f_cwd : nat }.

Record fsstate := mkfs { fv : fvars; fd : S }.

Definition fdisk {A} (m : M S A) : M fsstate A := fun s =>
  match m (fd s) with
  | Ok a d => Ok a (mkfs (fv s) d)
  | Panic msg => Panic msg
  | Sleep d => Sleep (mkfs (fv s) d)
  | OutOfFuel => OutOfFuel
  | Undef => Undef
  end.
Definition getv {A} (f : fvars -> A) : M fsstate A := gets (fun s => f (fv s)).
Definition modv (f : fvars -> fvars) : M fsstate unit := modify (fun s => mkfs (f (fv s)) (fd s)).

Definition set_sb (x : superblock) (v : fvars) : fvars :=
  mkfv x (icache v) (kbuf v) (umem v) (f_pid v) (f_cpu v) (f_cwd v).
Definition set_icache (l : list inode) (v : fvars) : fvars :=
  mkfv (sb v) l (kbuf v) (umem v) (f_pid v) (f_cpu v) (f_cwd v).
Definition set_kbuf (b : bytes) (v : fvars) : fvars :=
  mkfv (sb v) (icache v) b (umem v) (f_pid v) (f_cpu v) (f_cwd v).
Definition set_umem (c : C) (v : fvars) : fvars :=
  mkfv (sb v) (icache v) (kbuf v) c (f_pid v) (f_cpu v) (f_cwd v).

Definition fs_bread (dev b : Z) : M fsstate H := fdisk (td_bread dev b).
Definition fs_data (h : H) : M fsstate bytes := fdisk (td_data h).
Definition fs_store (h : H) (v : bytes) : M fsstate unit := fdisk (td_store h v).
Definition fs_log_write (h : H) (b : Z) : M fsstate unit := fdisk (td_log_write h b).
Definition fs_brelse (h : H) : M fsstate unit := fdisk (td_brelse h).

Definition get_ino (i : nat) : M fsstate inode := fun s =>
  match icache (fv s) !! i with Some ip => Ok ip s | None => Undef end.
Definition set_ino (i : nat) (ip : inode) : M fsstate unit :=
  modv (fun v => set_icache (<[i := ip]> (icache v)) v).
Definition mod_ino (i : nat) (f : inode -> inode) : M fsstate unit :=
  ip ← get_ino i; set_ino i (f ip).
End state.
Arguments fvars : clear implicits.
Arguments fsstate : clear implicits.

(** ** Running file-system code over an abstract transaction *)

Section wp.
Context {S H C : Type} `{!TxDisk S H} `{!TxDiskLaws S H} `{!UserCopy C}.
Implicit Types (v : fvars C) (t : tx H).

Definition wp {A} (m : M (fsstate S C) A) (Q : A -> fvars C -> tx H -> Prop) v t : Prop :=
  forall s, fv s = v -> td_rel (fd s) t ->
  exists x s' t', m s = Ok x s' /\ td_rel (fd s') t' /\ Q x (fv s') t'.

Lemma wp_mono {A} (m : M (fsstate S C) A) (Q Q' : A -> fvars C -> tx H -> Prop) v t :
  wp m Q v t -> (forall x v' t', Q x v' t' -> Q' x v' t') -> wp m Q' v t.
Proof. intros Hm HQ s Hv Hr. destruct (Hm s Hv Hr) as (x & s' & t' & ? & ? & ?). eauto 10. Qed.

Lemma wp_ret {A} (x : A) (Q : A -> fvars C -> tx H -> Prop) v t : Q x v t -> wp (ret x) Q v t.
Proof. intros HQ s <- Hr. by exists x, s, t. Qed.

Lemma wp_bind {A B} (m : M (fsstate S C) A) (f : A -> M (fsstate S C) B) Q v t :
  wp m (fun x v' t' => wp (f x) Q v' t') v t -> wp (bind m f) Q v t.
Proof.
  intros Hm s Hv Hr. destruct (Hm s Hv Hr) as (x & s' & t' & E & Hr' & Hf).
  destruct (Hf s' eq_refl Hr') as (y & s'' & t'' & E' & Hr'' & HQ).
  exists y, s'', t''. split; [|done]. by rewrite (bind_ok _ _ _ _ _ E).
Qed.

Lemma wp_getv {A} (f : fvars C -> A) Q v t : Q (f v) v t -> wp (getv f) Q v t.
Proof. intros HQ s <- Hr. by exists (f (fv s)), s, t. Qed.

Lemma wp_modv f Q v t : Q tt (f v) t -> wp (modv f) Q v t.
Proof. intros HQ s <- Hr. by eexists tt, _, t. Qed.

Lemma wp_get_ino i ip Q v t : icache v !! i = Some ip -> Q ip v t -> wp (get_ino i) Q v t.
Proof. intros Hi HQ s <- Hr. exists ip, s, t. unfold get_ino. by rewrite Hi. Qed.

Lemma wp_mod_ino i ip f Q v t :
  icache v !! i = Some ip -> Q tt (set_icache (<[i := f ip]> (icache v)) v) t ->
  wp (mod_ino i f) Q v t.
Proof. intros Hi HQ. apply wp_bind, (wp_get_ino i ip); [done|]. by apply wp_modv. Qed.

Lemma wp_fdisk {A} (m : M S A) Q v t :
  (forall d, td_rel d t -> exists x d' t', m d = Ok x d' /\ td_rel d' t' /\ Q x v t') ->
  wp (fdisk m) Q v t.
Proof.
  intros Hm s <- Hr. destruct (Hm (fd s) Hr) as (x & d' & t' & E & Hr' & HQ).
  exists x, (mkfs (fv s) d'), t'. split; [|done]. unfold fdisk. by rewrite E.
Qed.

Lemma wp_bread dev b Q v t :
  dev = ROOTDEV -> td_valid b -> t_held t !! b = None -> (size (t_held t) < MAXHELD)%nat ->
  (forall h, Q h v (t_bread b h t)) -> wp (fs_bread dev b) Q v t.
Proof.
  intros -> Hb Hn Hs HQ. apply wp_fdisk. intros d Hr.
  destruct (td_bread_ok d t b Hr Hb Hn Hs) as (h & d' & ? & ?). eauto 10.
Qed.

Lemma wp_bdata b h Q v t : t_held t !! b = Some h -> Q (t_view t b) v t -> wp (fs_data h) Q v t.
Proof. intros Hh HQ. apply wp_fdisk. intros d Hr. rewrite (td_data_ok d t b h) by done. eauto 10. Qed.

Lemma wp_bstore b h w Q v t : t_held t !! b = Some h -> Q tt v (t_store b w t) -> wp (fs_store h w) Q v t.
Proof.
  intros Hh HQ. apply wp_fdisk. intros d Hr. destruct (td_store_ok d t b h w) as (d' & ? & ?); eauto 10.
Qed.

Lemma wp_log_write b h Q v t :
  t_held t !! b = Some h -> (b ∈ t_logged t \/ 0 < t_budget t)%nat -> Q tt v (t_log b t) -> wp (fs_log_write h b) Q v t.
Proof.
  intros Hh Hb HQ. apply wp_fdisk. intros d Hr. destruct (td_log_ok d t b h) as (d' & ? & ?); eauto 10.
Qed.

Lemma wp_brelse b h Q v t :
  t_held t !! b = Some h -> b ∉ t_dirty t -> Q tt v (t_brelse b t) -> wp (fs_brelse h) Q v t.
Proof.
  intros Hh Hd HQ. apply wp_fdisk. intros d Hr. destruct (td_brelse_ok d t b h) as (d' & ? & ?); eauto 10.
Qed.

(** A block can be read: it is not held, nor is the limit reached. *)
Definition can_read t b : Prop :=
  td_valid b /\ t_held t !! b = None /\ (size (t_held t) < MAXHELD)%nat.

(** A transaction between calls: every change was logged. *)
Definition settled t : Prop := t_dirty t = ∅.

Definition with_view (w : Z -> bytes) (n : nat) t : tx H :=
  mktx w (t_held t) (t_dirty t) (t_budget t - n) (t_logged t).

Lemma wp_weaken {A} (m : M (fsstate S C) A) n L Q v t :
  (n <= t_budget t)%nat -> L ⊆ t_logged t -> wp m Q v (t_weak n L t) -> wp m Q v t.
Proof. intros Hn HL Hm s Hv Hr. apply Hm; [done|]. by apply td_weaken. Qed.

(** Read a block and release it, with pure code in between. *)
Lemma t_read_back b h t : t_held t !! b = None -> t_brelse b (t_bread b h t) = t.
Proof. intros Hn. unfold t_brelse, t_bread. simpl. rewrite delete_insert_id by done. by destruct t. Qed.

Lemma wp_read {A} dev b (k : H -> bytes -> M (fsstate S C) A) Q v t :
  dev = ROOTDEV -> can_read t b ->
  (forall h, wp (k h (t_view t b)) Q v (t_bread b h t)) ->
  wp (bp ← fs_bread dev b; w ← fs_data bp; k bp w) Q v t.
Proof.
  intros Hd (Hv & Hn & Hs) HQ. apply wp_bind, wp_bread; try done. intros h.
  apply wp_bind, (wp_bdata b); [apply lookup_insert_eq|]. apply HQ.
Qed.

Lemma wp_brelse_back b h Q v t :
  settled t -> t_held t !! b = None -> Q tt v t -> wp (fs_brelse h) Q v (t_bread b h t).
Proof.
  intros Hd Hn HQ. apply (wp_brelse b); [apply lookup_insert_eq|simpl; rewrite Hd; set_solver|].
  by rewrite t_read_back.
Qed.

(** A held block is changed, logged and released. *)
Definition t_put (b : Z) (w : bytes) t : tx H :=
  mktx (fupd (t_view t) b w) (t_held t) (t_dirty t)
    (if decide (b ∈ t_logged t) then t_budget t else pred (t_budget t)) ({[b]} ∪ t_logged t).

Lemma wp_put_logged {A} b h w (k : M (fsstate S C) A) Q v t :
  settled t -> t_held t !! b = None -> (b ∈ t_logged t \/ 0 < t_budget t)%nat ->
  wp k Q v (t_put b w t) ->
  wp (fs_store h w;; fs_log_write h b;; fs_brelse h;; k) Q v (t_bread b h t).
Proof.
  intros Hd Hn Hb HQ. unfold settled in Hd.
  apply wp_bind, (wp_bstore b); [apply lookup_insert_eq|].
  apply wp_bind, (wp_log_write b); [apply lookup_insert_eq|done|].
  apply wp_bind, (wp_brelse b); [apply lookup_insert_eq|simpl; set_solver|].
  unfold t_brelse, t_log, t_store, t_bread. cbn [t_view t_held t_dirty t_budget t_logged].
  rewrite delete_insert_id by done.
  replace (({[b]} ∪ t_dirty t) ∖ {[b]}) with (t_dirty t) by (rewrite Hd; set_solver). exact HQ.
Qed.

Lemma wp_put_block {A} b h w (k : M (fsstate S C) A) Q v t :
  settled t -> t_held t !! b = None -> (0 < t_budget t)%nat ->
  wp k Q v (with_view (fupd (t_view t) b w) 1 t) ->
  wp (fs_store h w;; fs_log_write h b;; fs_brelse h;; k) Q v (t_bread b h t).
Proof.
  intros Hd Hn Hb HQ. apply wp_put_logged; [done|done|by right|].
  apply (wp_weaken _ (t_budget t - 1) (t_logged t)); [|cbn; set_solver|exact HQ].
  cbn. case_decide; lia.
Qed.

(** Every block of [B] can still be logged. *)
Definition room (B : gset Z) t : Prop := (size (B ∖ t_logged t) <= t_budget t)%nat.

Lemma room_can B b t : room B t -> b ∈ B -> (b ∈ t_logged t \/ 0 < t_budget t)%nat.
Proof.
  intros Hr Hb. destruct (decide (b ∈ t_logged t)) as [|Hn]; [by left|right].
  assert (0 < size (B ∖ t_logged t))%nat; [|unfold room in Hr; lia].
  assert (size (B ∖ t_logged t) <> 0%nat); [|lia]. intros E. apply size_empty_inv in E. set_solver.
Qed.

Lemma room_put B b w t : room B t -> b ∈ B -> room B (t_put b w t).
Proof.
  unfold room. intros Hr Hb. cbn [t_logged t_budget t_put]. case_decide as Hin.
  - replace ({[b]} ∪ t_logged t) with (t_logged t) by set_solver. done.
  - assert (size (B ∖ t_logged t) = 1 + size (B ∖ ({[b]} ∪ t_logged t)))%nat as E; [|lia].
    replace (B ∖ t_logged t) with ({[b]} ∪ B ∖ ({[b]} ∪ t_logged t)).
    + rewrite size_union by set_solver. by rewrite size_singleton.
    + apply set_eq. intros y. destruct (decide (y = b)) as [->|]; set_solver.
Qed.
End wp.

(** ** The reference implementation

    Blocks in memory; a handle is the number of its block. *)
Module MemDisk.

Definition mem_bread (dev b : Z) : M (tx Z) Z := fun t =>
  if decide (is_Some (t_held t !! b)) then Sleep t else Ok b (t_bread b b t).
Definition mem_log_write (h b : Z) : M (tx Z) unit := fun t =>
  if decide (b ∈ t_logged t \/ (0 < t_budget t)%nat) then Ok tt (t_log b t)
  else Panic "too big a transaction".

#[export] Instance mem_disk : TxDisk (tx Z) Z := {
  td_bread := mem_bread;
  td_data h := fun t => Ok (t_view t h) t;
  td_store h v := modify (t_store h v);
  td_log_write := mem_log_write;
  td_brelse h := modify (t_brelse h) }.

Definition mem_rel (s t : tx Z) : Prop :=
  t_view s = t_view t /\ t_held s = t_held t /\ t_dirty s = t_dirty t /\
  (t_budget t <= t_budget s)%nat /\ t_logged t ⊆ t_logged s /\ forall b h, t_held t !! b = Some h -> h = b.

#[export, refine] Instance mem_laws : TxDiskLaws (tx Z) Z := {
  td_rel := mem_rel;
  td_valid _ := True }.
Proof.
  - intros s t b (Ev & Eh & Ed & Hb & Hl & Hh) _ Hn _. exists b, (t_bread b b s). split.
    + unfold td_bread, mem_disk, mem_bread. rewrite decide_False; [done|]. rewrite Eh, Hn. by intros [? ?].
    + unfold mem_rel, t_bread. cbn. rewrite Eh. do 5 (split; [done|]).
      cbn. intros b' h [[<- <-]|[_ ?]]%lookup_insert_Some; [done|by apply Hh].
  - intros s t b h (Ev & Eh & Ed & Hb & Hl & Hh) E. rewrite (Hh b h E). cbn. by rewrite Ev.
  - intros s t b h v (Ev & Eh & Ed & Hb & Hl & Hh) E. rewrite (Hh b h E). exists (t_store b v s). split; [done|].
    unfold mem_rel. cbn. rewrite Ev, Eh, Ed. done.
  - intros s t b h (Ev & Eh & Ed & Hb & Hl & Hh) E Hc. exists (t_log b s). split.
    + unfold td_log_write, mem_disk, mem_log_write. rewrite decide_True; [done|]. destruct Hc; [left; set_solver|right; lia].
    + unfold mem_rel. cbn. rewrite Ev, Eh, Ed. do 3 (split; [done|]). split; [|split; [set_solver|done]].
      repeat case_decide; try lia. set_solver.
  - intros s t b h (Ev & Eh & Ed & Hb & Hl & Hh) E _. rewrite (Hh b h E). exists (t_brelse b s). split; [done|].
    unfold mem_rel. cbn. rewrite Ev, Eh, Ed. do 5 (split; [done|]). intros b' h' [_ ?]%lookup_delete_Some. by apply Hh.
  - intros s t n L (Ev & Eh & Ed & Hb & Hl & Hh) Hn HL. unfold mem_rel. cbn. do 3 (split; [done|]).
    split; [lia|]. split; [set_solver|done].
Defined.

(** User memory that refuses every access. *)
#[export] Instance no_user : UserCopy unit := {
  uc_copyout _ _ := ret (-1);
  uc_copyin _ _ := ret ([], -1) }.
End MemDisk.
