(* ===== verification/FsBlocks.v ===== *)
(** The block layer of kernel/fs/fs.c: the super block, the free bitmap, [bzero],
    [balloc] and [bfree]. *)

From S2P Require Import Prelude Lock FsDisk.

Definition FSMAGIC : Z := 0x10203040.
Definition BPB : Z := BSIZE * 8.

(** [struct superblock] as it lies in block 1. *)
Definition sb_parse (w : bytes) : superblock :=
  mksb (get_le 4 0 w) (get_le 4 4 w) (get_le 4 8 w) (get_le 4 12 w)
    (get_le 4 16 w) (get_le 4 20 w) (get_le 4 24 w) (get_le 4 28 w).

Definition BBLOCK (b : Z) (sb : superblock) : Z := u32 (b / BPB + sb_bmapstart sb).

(** Byte [i] of a block. *)
Definition byte_at (w : bytes) (i : Z) : Z := default 0 (w !! Z.to_nat i).
Definition bit_mask (bi : Z) : Z := Z.shiftl 1 (bi mod 8).
Definition bit_free (w : bytes) (bi : Z) : bool := Z.land (byte_at w (bi / 8)) (bit_mask bi) =? 0.
Definition bit_set (w : bytes) (bi : Z) : bytes :=
  <[Z.to_nat (bi / 8) := u8 (Z.lor (byte_at w (bi / 8)) (bit_mask bi))]> w.
Definition bit_clear (w : bytes) (bi : Z) : bytes :=
  <[Z.to_nat (bi / 8) := u8 (Z.land (byte_at w (bi / 8)) (Z.lnot (bit_mask bi)))]> w.

Definition zero_block : bytes := replicate (Z.to_nat BSIZE) 0.

Section code.
Context {S H C : Type} `{!TxDisk S H} `{!UserCopy C}.
Abbreviation fsM := (M (fsstate S C)).

Definition readsb (dev : Z) : fsM unit :=
  bp ← fs_bread dev 1;
  w ← fs_data bp;
  modv (set_sb (sb_parse w));;
  fs_brelse bp.

Definition bzero (dev bno : Z) : fsM unit :=
  bp ← fs_bread dev bno;
  w ← fs_data bp;
  fs_store bp zero_block;;
  fs_log_write bp bno;;
  fs_brelse bp;;
  ret tt.

(** The inner loop of [balloc]: the first free bit from [bi] on. *)
Fixpoint balloc_scan (fuel : nat) (size b : Z) (w : bytes) (bi : Z) : option Z :=
  match fuel with
  | O => None
  | Datatypes.S fuel' =>
      if (bi <? BPB) && (b + bi <? size) then
        if bit_free w bi then Some bi else balloc_scan fuel' size b w (bi + 1)
      else None
  end.

Fixpoint balloc_loop (fuel : nat) (dev b : Z) : fsM Z :=
  match fuel with
  | O => nofuel
  | Datatypes.S fuel' =>
      x ← getv sb;
      if b <? sb_size x then
        bp ← fs_bread dev (BBLOCK b x);
        w ← fs_data bp;
        match balloc_scan (Z.to_nat BPB) (sb_size x) b w 0 with
        | Some bi =>
            fs_store bp (bit_set w bi);;
            fs_log_write bp (BBLOCK b x);;
            fs_brelse bp;;
            bzero dev (b + bi);;
            ret (u32 (b + bi))
        | None => fs_brelse bp;; balloc_loop fuel' dev (b + BPB)
        end
      else panic "balloc: out of blocks"
  end.

(** One round of the outer loop per bitmap block, and one to leave it. *)
Definition balloc (dev : Z) : fsM Z :=
  x ← getv sb; balloc_loop (Z.to_nat (sb_size x / BPB + 2)) dev 0.

Definition bfree (dev b : Z) : fsM unit :=
  x ← getv sb;
  bp ← fs_bread dev (BBLOCK b x);
  w ← fs_data bp;
  let bi := b mod BPB in
  if bit_free w bi then panic "freeing free block"
  else
    fs_store bp (bit_clear w bi);;
    fs_log_write bp (BBLOCK b x);;
    fs_brelse bp;;
    ret tt.
End code.

(** ** The bitmap *)

Lemma land_mask x k : 0 <= k -> (Z.land x (Z.shiftl 1 k) =? 0) = negb (Z.testbit x k).
Proof.
  intros Hk. rewrite Z.shiftl_1_l. destruct (Z.testbit x k) eqn:E; simpl.
  - apply Z.eqb_neq. intros H0. apply (f_equal (fun z => Z.testbit z k)) in H0.
    rewrite Z.land_spec, E, Z.pow2_bits_true, Z.bits_0 in H0 by lia. done.
  - apply Z.eqb_eq. apply Z.bits_inj'. intros j Hj. rewrite Z.land_spec, Z.bits_0, Z.pow2_bits_eqb by lia.
    destruct (Z.eqb_spec k j) as [->|]; [by rewrite E|]. by rewrite andb_false_r.
Qed.

Lemma bit_free_testbit w bi : bit_free w bi = negb (Z.testbit (byte_at w (bi / 8)) (bi mod 8)).
Proof. apply land_mask. apply Z.mod_pos_bound. lia. Qed.

Lemma testbit_u8 z k : 0 <= k < 8 -> Z.testbit (u8 z) k = Z.testbit z k.
Proof. intros Hk. unfold u8, wrap. rewrite Z.mod_pow2_bits_low by lia. done. Qed.

Lemma byte_at_insert w i j x :
  0 <= i -> 0 <= j -> (Z.to_nat i < length w)%nat ->
  byte_at (<[Z.to_nat i := x]> w) j = if decide (i = j) then x else byte_at w j.
Proof.
  intros Hi Hj Hl. unfold byte_at. case_decide as Hij.
  - subst. by rewrite list_lookup_insert_eq by done.
  - rewrite list_lookup_insert_ne by lia. done.
Qed.

Section bits.
Context (w : bytes) (bi bj : Z).
Context (Hw : length w = Z.to_nat BSIZE) (Hi : 0 <= bi < BPB) (Hj : 0 <= bj < BPB).

Local Lemma bit_byte_lt : (Z.to_nat (bi / 8) < length w)%nat.
Proof.
  unfold BPB, BSIZE in *. rewrite Hw. apply Z2Nat.inj_lt; [apply Z.div_pos; lia|lia|].
  apply Z.div_lt_upper_bound; lia.
Qed.

Lemma bit_free_set : bit_free (bit_set w bi) bj = bit_free w bj && negb (bi =? bj).
Proof.
  pose proof bit_byte_lt as Hlt. rewrite !bit_free_testbit. unfold bit_set.
  rewrite byte_at_insert by (done || apply Z.div_pos; unfold BPB, BSIZE in *; lia).
  pose proof (Z.mod_pos_bound bj 8 ltac:(lia)) as Hm. pose proof (Z.mod_pos_bound bi 8 ltac:(lia)) as Hm'.
  case_decide as E.
  - rewrite testbit_u8, Z.lor_spec by lia. unfold bit_mask. rewrite Z.shiftl_1_l, Z.pow2_bits_eqb by lia.
    rewrite E. destruct (Z.eqb_spec bi bj) as [->|Hne]; [by rewrite Z.eqb_refl, orb_true_r, andb_false_r|].
    destruct (Z.eqb_spec (bi mod 8) (bj mod 8)) as [E'|]; [|by rewrite orb_false_r, andb_true_r].
    exfalso. apply Hne. rewrite (Z.div_mod bi 8), (Z.div_mod bj 8) by lia. lia.
  - destruct (Z.eqb_spec bi bj) as [->|]; [done|]. by rewrite andb_true_r.
Qed.

Lemma bit_free_clear : bit_free (bit_clear w bi) bj = bit_free w bj || (bi =? bj).
Proof.
  pose proof bit_byte_lt as Hlt. rewrite !bit_free_testbit. unfold bit_clear.
  rewrite byte_at_insert by (done || apply Z.div_pos; unfold BPB, BSIZE in *; lia).
  pose proof (Z.mod_pos_bound bj 8 ltac:(lia)) as Hm. pose proof (Z.mod_pos_bound bi 8 ltac:(lia)) as Hm'.
  case_decide as E.
  - rewrite testbit_u8, Z.land_spec, Z.lnot_spec by lia. unfold bit_mask. rewrite Z.shiftl_1_l, Z.pow2_bits_eqb by lia.
    rewrite E. destruct (Z.eqb_spec bi bj) as [->|Hne]; [by rewrite Z.eqb_refl, andb_false_r, orb_true_r|].
    destruct (Z.eqb_spec (bi mod 8) (bj mod 8)) as [E'|]; [|by rewrite andb_true_r, orb_false_r].
    exfalso. apply Hne. rewrite (Z.div_mod bi 8), (Z.div_mod bj 8) by lia. lia.
  - destruct (Z.eqb_spec bi bj) as [->|]; [done|]. by rewrite orb_false_r.
Qed.
End bits.

Lemma length_bit_set w bi : length (bit_set w bi) = length w.
Proof. apply length_insert. Qed.
Lemma length_bit_clear w bi : length (bit_clear w bi) = length w.
Proof. apply length_insert. Qed.

(** The scan returns the first free bit, or every bit it looks at is in use. *)
Lemma balloc_scan_spec fuel size b w bi :
  (Z.to_nat (BPB - bi) <= fuel)%nat -> 0 <= bi ->
  match balloc_scan fuel size b w bi with
  | Some k => bi <= k < BPB /\ b + k < size /\ bit_free w k = true /\ forall j, bi <= j < k -> bit_free w j = false
  | None => forall j, bi <= j < BPB -> b + j < size -> bit_free w j = false
  end.
Proof.
  revert bi. induction fuel as [|fuel IH]; intros bi Hf Hbi; cbn [balloc_scan].
  { intros j Hj _. lia. }
  destruct (Z.ltb_spec bi BPB); cbn [andb]; [|intros; lia].
  destruct (Z.ltb_spec (b + bi) size); [|intros; lia].
  destruct (bit_free w bi) eqn:E; [split; [lia|]; split; [lia|]; split; [done|]; intros; lia|].
  specialize (IH (bi + 1) ltac:(lia) ltac:(lia)). destruct (balloc_scan _ _ _ _ _) as [k|].
  - destruct IH as (H1 & H2 & H3 & H4). split; [lia|]. split; [lia|]. split; [done|].
    intros j Hj. destruct (decide (j = bi)) as [->|]; [done|]. apply H4. lia.
  - intros j Hj Hs. destruct (decide (j = bi)) as [->|]; [done|]. apply IH; lia.
Qed.

(** ** The layout of the disk *)

Definition IPB : Z := 16.
Definition data_start (x : superblock) : Z := sb_bmapstart x + sb_size x / BPB + 1.
Definition used (x : superblock) (v : Z -> bytes) (b : Z) : bool :=
  negb (bit_free (v (BBLOCK b x)) (b mod BPB)).

Section layout.
Context {S H : Type} `{!TxDisk S H} `{!TxDiskLaws S H}.

(** The areas of the disk in order, all of them blocks that can be logged. *)
Record geom (x : superblock) : Prop := {
  g_size : 0 < sb_size x <= 2 ^ 31 - BPB;
  g_ninodes : 0 <= sb_ninodes x;
  g_inodes : 0 < sb_inodestart x;
  g_bmap : sb_inodestart x + sb_ninodes x / IPB < sb_bmapstart x;
  g_data : data_start x <= sb_size x;
  g_valid : forall b, sb_inodestart x <= b < sb_size x -> td_valid b }.
End layout.

(** Blocks have their size, and the blocks before the data area are marked. *)
Record blocks_ok (x : superblock) (v : Z -> bytes) : Prop := {
  bo_len : forall b, sb_inodestart x <= b < sb_size x -> length (v b) = Z.to_nat BSIZE;
  bo_meta : forall b, 0 <= b < data_start x -> used x v b = true }.

Definition data_block (x : superblock) (b : Z) : Prop := data_start x <= b < sb_size x.

(** [nb] is the first free block. *)
Definition first_free (x : superblock) (v : Z -> bytes) (nb : Z) : Prop :=
  0 <= nb < sb_size x /\ used x v nb = false /\ forall b, 0 <= b < nb -> used x v b = true.

Definition alloc_view (x : superblock) (v : Z -> bytes) (nb : Z) : Z -> bytes :=
  fupd (fupd v (BBLOCK nb x) (bit_set (v (BBLOCK nb x)) (nb mod BPB))) nb zero_block.
Definition free_view (x : superblock) (v : Z -> bytes) (b : Z) : Z -> bytes :=
  fupd v (BBLOCK b x) (bit_clear (v (BBLOCK b x)) (b mod BPB)).

Section specs.
Context {S H C : Type} `{!TxDisk S H} `{!TxDiskLaws S H} `{!UserCopy C}.
Context (x : superblock) (Hg : geom x).
Implicit Types (v : Z -> bytes) (t : tx H).

Lemma BBLOCK_range b : 0 <= b < sb_size x -> sb_bmapstart x <= BBLOCK b x < data_start x.
Proof using Hg.
  intros Hb. destruct Hg as [Hs Hn Hi Hbm Hd _]. unfold BBLOCK, data_start in *.
  assert (0 <= sb_ninodes x / IPB) by (apply Z.div_pos; unfold IPB; lia).
  assert (0 <= b / BPB) by (apply Z.div_pos; unfold BPB, BSIZE; lia).
  assert (b / BPB <= sb_size x / BPB) by (apply Z.div_le_mono; unfold BPB, BSIZE; lia).
  unfold BPB, BSIZE in *. rewrite u32_small; lia.
Qed.

Lemma layout_order : sb_inodestart x < sb_bmapstart x /\ sb_bmapstart x < data_start x /\ 0 < sb_inodestart x.
Proof using Hg.
  destruct Hg as [Hs Hn Hi Hbm Hd _]. unfold data_start.
  assert (0 <= sb_ninodes x / IPB) by (apply Z.div_pos; unfold IPB; lia).
  assert (0 <= sb_size x / BPB) by (apply Z.div_pos; unfold BPB, BSIZE; lia). lia.
Qed.

Lemma BBLOCK_mod b b' :
  0 <= b < sb_size x -> 0 <= b' < sb_size x -> BBLOCK b x = BBLOCK b' x -> b mod BPB = b' mod BPB -> b = b'.
Proof using Hg.
  intros Hb Hb' E Em. destruct Hg as [Hs Hn Hi Hbm Hd _]. unfold BBLOCK, data_start in *.
  assert (0 <= sb_ninodes x / IPB) by (apply Z.div_pos; unfold IPB; lia).
  assert (0 <= b / BPB <= sb_size x / BPB) by (split; [apply Z.div_pos|apply Z.div_le_mono]; unfold BPB, BSIZE; lia).
  assert (0 <= b' / BPB <= sb_size x / BPB) by (split; [apply Z.div_pos|apply Z.div_le_mono]; unfold BPB, BSIZE; lia).
  unfold BPB, BSIZE in *. rewrite !u32_small in E by lia.
  rewrite (Z.div_mod b (1024 * 8)), (Z.div_mod b' (1024 * 8)) by lia. lia.
Qed.

Lemma bmap_len v b : blocks_ok x v -> 0 <= b < sb_size x -> length (v (BBLOCK b x)) = Z.to_nat BSIZE.
Proof using Hg.
  intros Hok Hb. apply (bo_len _ _ Hok). pose proof (BBLOCK_range b Hb). pose proof layout_order.
  destruct Hg as [? ? ? ? Hd _]. lia.
Qed.

Lemma BPB_mod b : 0 <= b mod BPB < BPB.
Proof. apply Z.mod_pos_bound. unfold BPB, BSIZE. lia. Qed.

(** A bit that is changed, seen as the set of used blocks. *)
Lemma used_bit v b c (f : bytes -> Z -> bytes) (r : bool -> bool) :
  (forall w j k, length w = Z.to_nat BSIZE -> 0 <= j < BPB -> 0 <= k < BPB ->
     negb (bit_free (f w j) k) = if j =? k then r (negb (bit_free w k)) else negb (bit_free w k)) ->
  blocks_ok x v -> 0 <= b < sb_size x -> 0 <= c < sb_size x ->
  used x (fupd v (BBLOCK b x) (f (v (BBLOCK b x)) (b mod BPB))) c = if b =? c then r (used x v c) else used x v c.
Proof using Hg.
  intros Hf Hok Hb Hc. unfold used. destruct (Z.eqb_spec (BBLOCK c x) (BBLOCK b x)) as [E|E].
  - rewrite E, fupd_eq, Hf by (apply BPB_mod || by apply bmap_len).
    destruct (Z.eqb_spec b c) as [->|Hne]; [by rewrite Z.eqb_refl|].
    destruct (Z.eqb_spec (b mod BPB) (c mod BPB)) as [Em|]; [|done].
    exfalso. apply Hne. symmetry. by apply BBLOCK_mod.
  - rewrite fupd_ne by done. destruct (Z.eqb_spec b c) as [->|]; done.
Qed.

Lemma used_data v b w c : data_start x <= b -> 0 <= c < sb_size x -> used x (fupd v b w) c = used x v c.
Proof using Hg.
  intros Hb Hc. unfold used. rewrite fupd_ne; [done|]. pose proof (BBLOCK_range c Hc). lia.
Qed.

Lemma first_free_data v nb : blocks_ok x v -> first_free x v nb -> data_block x nb.
Proof.
  intros Hok (Hr & Hf & _). split; [|lia]. destruct (Z.le_gt_cases (data_start x) nb); [done|].
  rewrite (bo_meta _ _ Hok) in Hf by lia. done.
Qed.

Lemma used_alloc v nb b :
  blocks_ok x v -> data_block x nb -> 0 <= b < sb_size x ->
  used x (alloc_view x v nb) b = if nb =? b then true else used x v b.
Proof using Hg.
  intros Hok Hnb Hb. pose proof layout_order. unfold alloc_view. rewrite used_data by (destruct Hnb; lia).
  apply (used_bit v nb b bit_set (fun _ => true)); try done; [|destruct Hnb; lia].
  intros w j k Hw Hj Hk. rewrite bit_free_set by done. destruct (j =? k); simpl; [by rewrite andb_false_r|by rewrite andb_true_r].
Qed.

Lemma used_free v nb b :
  blocks_ok x v -> 0 <= nb < sb_size x -> 0 <= b < sb_size x ->
  used x (free_view x v nb) b = if nb =? b then false else used x v b.
Proof using Hg.
  intros Hok Hnb Hb.
  apply (used_bit v nb b bit_clear (fun _ => false)); try done.
  intros w j k Hw Hj Hk. rewrite bit_free_clear by done. destruct (j =? k); simpl; [by rewrite orb_true_r|by rewrite orb_false_r].
Qed.

Definition is_bmap (b : Z) : Prop := sb_bmapstart x <= b < data_start x.

Lemma alloc_view_same v nb b : 0 <= nb < sb_size x -> ~ is_bmap b -> b <> nb -> alloc_view x v nb b = v b.
Proof using Hg.
  intros Hnb Hb Hne. unfold alloc_view. rewrite fupd_ne by done. apply fupd_ne.
  pose proof (BBLOCK_range nb Hnb). unfold is_bmap in Hb. lia.
Qed.

Lemma free_view_same v nb b : 0 <= nb < sb_size x -> ~ is_bmap b -> free_view x v nb b = v b.
Proof using Hg.
  intros Hnb Hb. apply fupd_ne. pose proof (BBLOCK_range nb Hnb). unfold is_bmap in Hb. lia.
Qed.

Lemma blocks_ok_alloc v nb : blocks_ok x v -> data_block x nb -> blocks_ok x (alloc_view x v nb).
Proof using Hg.
  intros Hok Hnb. pose proof layout_order as Ho. destruct Hnb as [Hn1 Hn2]. split.
  - intros b Hb. unfold alloc_view. destruct (decide (b = nb)) as [->|]; [rewrite fupd_eq; apply length_replicate|].
    rewrite fupd_ne by done. destruct (decide (b = BBLOCK nb x)) as [->|].
    + rewrite fupd_eq, length_bit_set. apply bmap_len; [done|lia].
    + rewrite fupd_ne by done. by apply (bo_len _ _ Hok).
  - intros b Hb. pose proof (g_data _ Hg). rewrite used_alloc by (done || lia). destruct (nb =? b); [done|by apply (bo_meta _ _ Hok)].
Qed.

Lemma blocks_ok_free v nb : blocks_ok x v -> data_block x nb -> blocks_ok x (free_view x v nb).
Proof using Hg.
  intros Hok Hnb. pose proof layout_order as Ho. pose proof (g_data _ Hg). destruct Hnb as [Hn1 Hn2]. split.
  - intros b Hb. unfold free_view. destruct (decide (b = BBLOCK nb x)) as [->|].
    + rewrite fupd_eq, length_bit_clear. apply bmap_len; [done|lia].
    + rewrite fupd_ne by done. by apply (bo_len _ _ Hok).
  - intros b Hb. rewrite used_free by (done || lia). destruct (Z.eqb_spec nb b); [lia|by apply (bo_meta _ _ Hok)].
Qed.

(** Nothing of the bitmap is held, and one more buffer can be. *)
Definition bmap_free t : Prop :=
  (forall b, is_bmap b -> t_held t !! b = None) /\ (size (t_held t) < MAXHELD)%nat.

Lemma can_read_bmap t b : bmap_free t -> 0 <= b < sb_size x -> can_read t (BBLOCK b x).
Proof using Hg.
  intros [Hf Hs] Hb. pose proof (BBLOCK_range b Hb) as Hr. pose proof layout_order. pose proof (g_data _ Hg).
  split; [apply (g_valid _ Hg); lia|]. split; [by apply Hf|done].
Qed.

Lemma wp_bzero dev b Q (vs : fvars C) t :
  dev = ROOTDEV -> can_read t b -> settled t -> (0 < t_budget t)%nat ->
  Q tt vs (with_view (fupd (t_view t) b zero_block) 1 t) -> wp (bzero dev b) Q vs t.
Proof.
  intros Hd Hr Hs Hb HQ. pose proof Hr as (_ & Hn & _). apply wp_read; [done|done|]. intros h.
  apply wp_put_block; try done. by apply wp_ret.
Qed.

Lemma wp_balloc_loop fuel b nb Q (vs : fvars C) t :
  sb vs = x -> blocks_ok x (t_view t) -> bmap_free t -> settled t -> (2 <= t_budget t)%nat ->
  t_held t !! nb = None -> first_free x (t_view t) nb ->
  0 <= b <= nb -> b mod BPB = 0 -> (Z.to_nat ((nb - b) / BPB) < fuel)%nat ->
  Q nb vs (with_view (alloc_view x (t_view t) nb) 2 t) -> wp (balloc_loop fuel ROOTDEV b) Q vs t.
Proof using Hg.
  intros Hsb Hok Hbf Hset Hbud Hheld Hff. revert b.
  pose proof (first_free_data _ _ Hok Hff) as [Hd1 Hd2]. destruct Hff as (Hr & Hfree & Hlow).
  assert (forall b, 0 <= b <= nb -> b mod BPB = 0 -> forall j, 0 <= j < BPB -> b + j <= nb ->
    BBLOCK (b + j) x = BBLOCK b x /\ (b + j) mod BPB = j) as Hpos.
  { intros b Hb Hm j Hj Hle. unfold BBLOCK. rewrite (Z.div_mod b BPB) at 1 3 by (unfold BPB, BSIZE; lia).
    assert (BPB <> 0) by (unfold BPB, BSIZE; lia).
    rewrite Hm, Z.add_0_r, (Z.mul_comm BPB), Z.div_add_l, (Z.div_small j) by lia. rewrite Z.add_0_r.
    split; [done|]. rewrite Z.add_comm, Z.mod_add by lia. apply Z.mod_small. lia. }
  induction fuel as [|fuel IH]; intros b Hb Hm Hf HQ; [lia|]. cbn [balloc_loop].
  apply wp_bind, wp_getv. rewrite Hsb. destruct (Z.ltb_spec b (sb_size x)); [|lia].
  pose proof (can_read_bmap t b Hbf ltac:(lia)) as Hcr. pose proof Hcr as (_ & Hnone & _).
  apply wp_read; [done|done|]. intros h.
  pose proof (balloc_scan_spec (Z.to_nat BPB) (sb_size x) b (t_view t (BBLOCK b x)) 0 ltac:(lia) ltac:(lia)) as Hscan.
  destruct (balloc_scan _ _ _ _ _) as [bi|].
  - destruct Hscan as (H1 & H2 & H3 & H4).
    assert (b + bi = nb) as Enb.
    { destruct (Z.lt_trichotomy (b + bi) nb) as [Hlt|[E|Hgt]]; [|done|].
      - assert (used x (t_view t) (b + bi) = true) as Hu by (apply Hlow; lia).
        destruct (Hpos b Hb Hm bi ltac:(lia) ltac:(lia)) as [E1 E2]. unfold used in Hu. rewrite E1, E2, H3 in Hu. done.
      - destruct (Hpos b Hb Hm (nb - b) ltac:(lia) ltac:(lia)) as [E1 E2].
        replace (b + (nb - b)) with nb in * by lia.
        unfold used in Hfree. rewrite E1, E2, H4 in Hfree by lia. done. }
    destruct (Hpos b Hb Hm bi ltac:(lia) ltac:(lia)) as [E1 E2]. rewrite Enb in *.
    apply wp_put_block; try done; [lia|].
    apply wp_bind. unfold with_view at 1.
    apply wp_bzero; try done.
    { split; [|by destruct Hbf]. apply (g_valid _ Hg). pose proof layout_order. lia. }
    { simpl. lia. }
    apply wp_ret. rewrite u32_small by (pose proof (g_size _ Hg); unfold BPB, BSIZE in *; lia).
    unfold with_view. cbn [t_view t_held t_dirty t_budget]. rewrite <-Nat.sub_add_distr.
    unfold alloc_view in HQ. rewrite E1, E2 in HQ. exact HQ.
  - assert (b + BPB <= nb) as Hnext.
    { destruct (Z.le_gt_cases (b + BPB) nb); [done|].
      destruct (Hpos b Hb Hm (nb - b) ltac:(lia) ltac:(lia)) as [E1 E2].
      replace (b + (nb - b)) with nb in * by lia.
      unfold used in Hfree. rewrite E1, E2, Hscan in Hfree by lia. done. }
    apply wp_bind, wp_brelse_back; [done|done|]. apply IH; [unfold BPB, BSIZE in *; lia| | |done].
    + rewrite <-Hm. replace (b + BPB) with (b + 1 * BPB) by lia. apply Z.mod_add. unfold BPB, BSIZE. lia.
    + replace ((nb - b) / BPB) with ((nb - (b + BPB)) / BPB + 1) in Hf; [|
        rewrite <-Z.div_add by (unfold BPB, BSIZE; lia); f_equal; lia].
      assert (0 <= (nb - (b + BPB)) / BPB) by (apply Z.div_pos; unfold BPB, BSIZE in *; lia). lia.
Qed.

(** [balloc] returns the first free block, marked and zeroed. *)
Lemma wp_balloc nb Q (vs : fvars C) t :
  sb vs = x -> blocks_ok x (t_view t) -> bmap_free t -> settled t -> (2 <= t_budget t)%nat ->
  t_held t !! nb = None -> first_free x (t_view t) nb ->
  Q nb vs (with_view (alloc_view x (t_view t) nb) 2 t) -> wp (balloc ROOTDEV) Q vs t.
Proof using Hg.
  intros Hsb Hok Hbf Hset Hbud Hheld Hff HQ. apply wp_bind, wp_getv. rewrite Hsb.
  apply (wp_balloc_loop _ 0 nb); try done; [destruct Hff; lia|].
  destruct Hff as (Hr & _). rewrite Z.sub_0_r.
  assert (nb / BPB <= sb_size x / BPB) by (apply Z.div_le_mono; unfold BPB, BSIZE; lia).
  assert (0 <= nb / BPB) by (apply Z.div_pos; unfold BPB, BSIZE; lia). lia.
Qed.

(** [bfree] of a block in use clears its bit. *)
Lemma wp_bfree b Q (vs : fvars C) t :
  sb vs = x -> blocks_ok x (t_view t) -> bmap_free t -> settled t -> (1 <= t_budget t)%nat ->
  data_block x b -> used x (t_view t) b = true ->
  Q tt vs (with_view (free_view x (t_view t) b) 1 t) -> wp (bfree ROOTDEV b) Q vs t.
Proof using Hg.
  intros Hsb Hok Hbf Hset Hbud Hd Hu HQ. apply wp_bind, wp_getv. rewrite Hsb.
  pose proof layout_order.
  pose proof (can_read_bmap t b Hbf ltac:(destruct Hd; lia)) as Hcr. pose proof Hcr as (_ & Hnone & _).
  apply wp_read; [done|done|]. intros h. unfold used in Hu.
  destruct (bit_free (t_view t (BBLOCK b x)) (b mod BPB)); [done|].
  apply wp_put_block; try done. by apply wp_ret.
Qed.
End specs.
