(* ===== verification/FsInode.v ===== *)
(** The inode layer of kernel/fs/fs.c: inodes on disk and in the cache, the
    blocks of a file, [readi] and [writei].

    An inode pointer is an index of [icache.inode].  The critical sections of
    [icache.lock] are atomic; a reference count does not reach the bounds of
    [int]. *)

From S2P Require Import Prelude Lock FsDisk FsBlocks.
Import Sleeplock.

Definition NDIRECT : Z := 12.
Definition NINDIRECT : Z := 256.
Definition MAXFILE : Z := NDIRECT + NINDIRECT.
Definition NINODE : nat := 50.
Definition DINODE : Z := 64.

Record dinode := mkdi {
  d_type : Z; d_major : Z; d_minor : Z; d_nlink : Z; d_size : Z; d_addrs : list Z }.

(** Numbers of 4 bytes one after the other. *)
Definition words_get (n off : nat) (w : bytes) : list Z :=
  (fun i => get_le 4 (off + 4 * i) w) <$> seq 0 n.
Fixpoint words (l : list Z) : bytes :=
  match l with [] => [] | z :: l' => le_enc 4 z ++ words l' end.

(** [struct dinode] at byte [o] of a block. *)
Definition dinode_get (o : nat) (w : bytes) : dinode :=
  mkdi (s16 (get_le 2 o w)) (s16 (get_le 2 (o + 2) w)) (s16 (get_le 2 (o + 4) w))
    (s16 (get_le 2 (o + 6) w)) (get_le 4 (o + 8) w) (words_get 13 (o + 12) w).
Definition dinode_put (o : nat) (d : dinode) (w : bytes) : bytes :=
  upd_bytes (o + 12) (words (d_addrs d))
    (put_le 4 (o + 8) (d_size d)
      (put_le 2 (o + 6) (d_nlink d)
        (put_le 2 (o + 4) (d_minor d)
          (put_le 2 (o + 2) (d_major d)
            (put_le 2 o (d_type d) w))))).

Definition IBLOCK (inum : Z) (sb : superblock) : Z := u32 (inum / IPB + sb_inodestart sb).
(** The position of [(struct dinode* )bp->data + inum%IPB]. *)
Definition ipos (inum : Z) : nat := Z.to_nat (DINODE * (inum mod IPB)).

Record stat := mkstat { st_dev : Z; st_ino : Z; st_type : Z; st_nlink : Z; st_size : Z }.
Definition stati (ip : inode) : stat :=
  mkstat (i_dev ip) (i_inum ip) (i_type ip) (i_nlink ip) (i_size ip).

(** Changes of single fields. *)
Definition with_lock (lk : sleeplock) (ip : inode) : inode :=
  mkino (i_dev ip) (i_inum ip) (i_ref ip) lk (i_valid ip) (i_type ip) (i_major ip) (i_minor ip)
    (i_nlink ip) (i_size ip) (i_addrs ip).
Definition with_ref (n : Z) (ip : inode) : inode :=
  mkino (i_dev ip) (i_inum ip) n (i_lock ip) (i_valid ip) (i_type ip) (i_major ip) (i_minor ip)
    (i_nlink ip) (i_size ip) (i_addrs ip).
Definition with_valid (b : bool) (ip : inode) : inode :=
  mkino (i_dev ip) (i_inum ip) (i_ref ip) (i_lock ip) b (i_type ip) (i_major ip) (i_minor ip)
    (i_nlink ip) (i_size ip) (i_addrs ip).
Definition with_type (n : Z) (ip : inode) : inode :=
  mkino (i_dev ip) (i_inum ip) (i_ref ip) (i_lock ip) (i_valid ip) n (i_major ip) (i_minor ip)
    (i_nlink ip) (i_size ip) (i_addrs ip).
Definition with_size (n : Z) (ip : inode) : inode :=
  mkino (i_dev ip) (i_inum ip) (i_ref ip) (i_lock ip) (i_valid ip) (i_type ip) (i_major ip) (i_minor ip)
    (i_nlink ip) n (i_addrs ip).
Definition with_addr (k a : Z) (ip : inode) : inode :=
  mkino (i_dev ip) (i_inum ip) (i_ref ip) (i_lock ip) (i_valid ip) (i_type ip) (i_major ip) (i_minor ip)
    (i_nlink ip) (i_size ip) (<[Z.to_nat k := a]> (i_addrs ip)).
Definition addr (ip : inode) (k : Z) : Z := default 0 (i_addrs ip !! Z.to_nat k).

Definition dinode_of (ip : inode) : dinode :=
  mkdi (i_type ip) (i_major ip) (i_minor ip) (i_nlink ip) (i_size ip) (i_addrs ip).
Definition load_inode (d : dinode) (ip : inode) : inode :=
  mkino (i_dev ip) (i_inum ip) (i_ref ip) (i_lock ip) (i_valid ip) (d_type d) (d_major d) (d_minor d)
    (d_nlink d) (d_size d) (d_addrs d).

(** The scan of [iget]: the cached inode, or the first empty slot. *)
Fixpoint iget_scan (l : list inode) (k : nat) (dev inum : Z) (empty : option nat) : option nat * option nat :=
  match l with
  | [] => (None, empty)
  | ip :: l' =>
      if (0 <? i_ref ip) && (i_dev ip =? dev) && (i_inum ip =? inum) then (Some k, empty)
      else iget_scan l' (S k) dev inum
             (match empty with
              | None => if i_ref ip =? 0 then Some k else None
              | Some _ => empty
              end)
  end.

Section code.
Context {S H C : Type} `{!TxDisk S H} `{!UserCopy C}.
Abbreviation fsM := (M (fsstate S C)).

(** Copy out of a buffer to the process, or to the kernel object at hand. *)
Definition either_copyout (user_dst : bool) (dst : Z) (src : bytes) : fsM Z :=
  if user_dst then
    c ← getv umem;
    match uc_copyout dst src c with
    | Ok r c' => modv (set_umem c');; ret r
    | Panic msg => panic msg
    | Sleep _ => undef
    | OutOfFuel => nofuel
    | Undef => undef
    end
  else modv (fun v => set_kbuf (upd_bytes (Z.to_nat dst) src (kbuf v)) v);; ret 0.

(** Copy in; the result are the bytes that were copied and the return value. *)
Definition either_copyin (user_src : bool) (src len : Z) : fsM (bytes * Z) :=
  if user_src then
    c ← getv umem;
    match uc_copyin src len c with
    | Ok r c' => modv (set_umem c');; ret r
    | Panic msg => panic msg
    | Sleep _ => undef
    | OutOfFuel => nofuel
    | Undef => undef
    end
  else k ← getv kbuf; ret (sub_bytes (Z.to_nat src) (Z.to_nat len) k, 0).

Definition iinit : fsM unit :=
  modv (fun v => set_icache (with_lock initsleeplock <$> icache v) v).

Definition iget (dev inum : Z) : fsM nat :=
  l ← getv icache;
  match iget_scan l 0 dev inum None with
  | (Some i, _) => mod_ino i (fun ip => with_ref (i_ref ip + 1) ip);; ret i
  | (None, Some e) =>
      mod_ino e (fun ip => mkino dev inum 1 (i_lock ip) false (i_type ip) (i_major ip) (i_minor ip)
                             (i_nlink ip) (i_size ip) (i_addrs ip));;
      ret e
  | (None, None) => panic "iget: no inodes"
  end.

Fixpoint ialloc_loop (fuel : nat) (dev type inum : Z) : fsM nat :=
  match fuel with
  | O => nofuel
  | Datatypes.S fuel' =>
      x ← getv sb;
      if inum <? sb_ninodes x then
        bp ← fs_bread dev (IBLOCK inum x);
        w ← fs_data bp;
        if d_type (dinode_get (ipos inum) w) =? 0 then
          fs_store bp (dinode_put (ipos inum) (mkdi type 0 0 0 0 (replicate 13 0)) w);;
          fs_log_write bp (IBLOCK inum x);;
          fs_brelse bp;;
          iget dev inum
        else fs_brelse bp;; ialloc_loop fuel' dev type (inum + 1)
      else panic "ialloc: no inodes"
  end.
Definition ialloc (dev type : Z) : fsM nat :=
  x ← getv sb; ialloc_loop (Z.to_nat (sb_ninodes x) + 1) dev type 1.

Definition iupdate (i : nat) : fsM unit :=
  ip ← get_ino i;
  x ← getv sb;
  bp ← fs_bread (i_dev ip) (IBLOCK (i_inum ip) x);
  w ← fs_data bp;
  fs_store bp (dinode_put (ipos (i_inum ip)) (dinode_of ip) w);;
  fs_log_write bp (IBLOCK (i_inum ip) x);;
  fs_brelse bp;;
  ret tt.

Definition idup (i : nat) : fsM nat :=
  mod_ino i (fun ip => with_ref (i_ref ip + 1) ip);; ret i.

(** [acquiresleep(&ip->lock)]: blocks while another process holds it. *)
Definition ino_acquiresleep (i : nat) : fsM unit :=
  ip ← get_ino i;
  p ← getv f_pid;
  match acquiresleep p (i_lock ip) with
  | None => block
  | Some lk => set_ino i (with_lock lk ip)
  end.

Definition ilock (i : nat) : fsM unit :=
  ip ← get_ino i;
  if i_ref ip <? 1 then panic "ilock"
  else
    ino_acquiresleep i;;
    ip ← get_ino i;
    if i_valid ip then ret tt
    else
      x ← getv sb;
      bp ← fs_bread (i_dev ip) (IBLOCK (i_inum ip) x);
      w ← fs_data bp;
      let d := dinode_get (ipos (i_inum ip)) w in
      mod_ino i (load_inode d);;
      fs_brelse bp;;
      mod_ino i (with_valid true);;
      if d_type d =? 0 then panic "ilock: no type" else ret tt.

Definition ino_holding (i : nat) : fsM bool :=
  ip ← get_ino i;
  p ← getv f_pid;
  c ← getv f_cpu;
  match holdingsleep p c (i_lock ip) with Some b => ret b | None => undef end.

Definition iunlock (i : nat) : fsM unit :=
  h ← ino_holding i;
  ip ← get_ino i;
  if negb h || (i_ref ip <? 1) then panic "iunlock"
  else mod_ino i (fun ip => with_lock (releasesleep (i_lock ip)) ip).

(** The block of the inode at position [bn], allocated when there is none. *)
Definition bmap (i : nat) (bn : Z) : fsM Z :=
  ip ← get_ino i;
  if bn <? NDIRECT then
    if addr ip bn =? 0 then
      a ← balloc (i_dev ip);
      mod_ino i (with_addr bn a);;
      ret a
    else ret (addr ip bn)
  else
    let bn := bn - NDIRECT in
    if bn <? NINDIRECT then
      ind ← (if addr ip NDIRECT =? 0 then
               a ← balloc (i_dev ip);
               mod_ino i (with_addr NDIRECT a);;
               ret a
             else ret (addr ip NDIRECT));
      bp ← fs_bread (i_dev ip) ind;
      w ← fs_data bp;
      let a := get_le 4 (4 * Z.to_nat bn) w in
      if a =? 0 then
        a ← balloc (i_dev ip);
        fs_store bp (put_le 4 (4 * Z.to_nat bn) a w);;
        fs_log_write bp ind;;
        fs_brelse bp;;
        ret a
      else fs_brelse bp;; ret a
    else panic "bmap: out of range".

(** The loops of [itrunc] over the direct and over the indirect blocks. *)
Fixpoint itrunc_direct (k : nat) (i : nat) (j : Z) : fsM unit :=
  match k with
  | O => ret tt
  | Datatypes.S k' =>
      ip ← get_ino i;
      when (negb (addr ip j =? 0))
        (bfree (i_dev ip) (addr ip j);; mod_ino i (with_addr j 0));;
      itrunc_direct k' i (j + 1)
  end.
Fixpoint itrunc_indirect (dev : Z) (l : list Z) : fsM unit :=
  match l with
  | [] => ret tt
  | a :: l' => when (negb (a =? 0)) (bfree dev a);; itrunc_indirect dev l'
  end.

Definition itrunc (i : nat) : fsM unit :=
  itrunc_direct (Z.to_nat NDIRECT) i 0;;
  ip ← get_ino i;
  when (negb (addr ip NDIRECT =? 0))
    (bp ← fs_bread (i_dev ip) (addr ip NDIRECT);
     w ← fs_data bp;
     itrunc_indirect (i_dev ip) (words_get (Z.to_nat NINDIRECT) 0 w);;
     fs_brelse bp;;
     bfree (i_dev ip) (addr ip NDIRECT);;
     mod_ino i (with_addr NDIRECT 0));;
  mod_ino i (with_size 0);;
  iupdate i.

(** The last reference to an inode without links frees the inode. *)
Definition iput (i : nat) : fsM unit :=
  ip ← get_ino i;
  when ((i_ref ip =? 1) && i_valid ip && (i_nlink ip =? 0))
    (ino_acquiresleep i;;
     itrunc i;;
     mod_ino i (with_type 0);;
     iupdate i;;
     mod_ino i (with_valid false);;
     mod_ino i (fun ip => with_lock (releasesleep (i_lock ip)) ip));;
  mod_ino i (fun ip => with_ref (i_ref ip - 1) ip).

Definition iunlockput (i : nat) : fsM unit := iunlock i;; iput i.

(** [fuel] bounds the number of blocks; [m] bytes are copied per round. *)
Fixpoint readi_loop (fuel : nat) (i : nat) (user : bool) (dst off n tot : Z) : fsM unit :=
  match fuel with
  | O => nofuel
  | Datatypes.S fuel' =>
      if tot <? n then
        a ← bmap i (off / BSIZE);
        ip ← get_ino i;
        bp ← fs_bread (i_dev ip) a;
        w ← fs_data bp;
        let m := Z.min (n - tot) (BSIZE - off mod BSIZE) in
        r ← either_copyout user dst (sub_bytes (Z.to_nat (off mod BSIZE)) (Z.to_nat m) w);
        if r =? -1 then fs_brelse bp
        else fs_brelse bp;; readi_loop fuel' i user (dst + m) (off + m) n (tot + m)
      else ret tt
  end.

Definition io_fuel (n : Z) : nat := Z.to_nat (n / BSIZE) + 3.

Definition readi (i : nat) (user : bool) (dst off n : Z) : fsM Z :=
  ip ← get_ino i;
  if (i_size ip <? off) || (u32 (off + n) <? off) then ret (-1)
  else
    let n := if i_size ip <? off + n then i_size ip - off else n in
    readi_loop (io_fuel n) i user dst off n 0;;
    ret n.

(** The loop returns the value of [off] after it. *)
Fixpoint writei_loop (fuel : nat) (i : nat) (user : bool) (src off n tot : Z) : fsM Z :=
  match fuel with
  | O => nofuel
  | Datatypes.S fuel' =>
      if tot <? n then
        a ← bmap i (off / BSIZE);
        ip ← get_ino i;
        bp ← fs_bread (i_dev ip) a;
        w ← fs_data bp;
        let m := Z.min (n - tot) (BSIZE - off mod BSIZE) in
        ' (got, r) ← either_copyin user src m;
        fs_store bp (upd_bytes (Z.to_nat (off mod BSIZE)) got w);;
        if r =? -1 then fs_brelse bp;; ret off
        else
          fs_log_write bp a;;
          fs_brelse bp;;
          writei_loop fuel' i user (src + m) (off + m) n (tot + m)
      else ret off
  end.

Definition writei (i : nat) (user : bool) (src off n : Z) : fsM Z :=
  ip ← get_ino i;
  if (i_size ip <? off) || (u32 (off + n) <? off) then ret (-1)
  else if MAXFILE * BSIZE <? off + n then ret (-1)
  else
    off' ← writei_loop (io_fuel n) i user src off n 0;
    when (0 <? n)
      (mod_ino i (fun ip => if i_size ip <? off' then with_size off' ip else ip);;
       iupdate i);;
    ret n.
End code.

(** ** The blocks of a file *)

Definition with_addrs (l : list Z) (ip : inode) : inode :=
  mkino (i_dev ip) (i_inum ip) (i_ref ip) (i_lock ip) (i_valid ip) (i_type ip) (i_major ip) (i_minor ip)
    (i_nlink ip) (i_size ip) l.

Definition nth_addr (l : list Z) (k : Z) : Z := default 0 (l !! Z.to_nat k).
Definition ind (l : list Z) : Z := nth_addr l NDIRECT.

(** The block at position [bn] of the file, 0 if there is none. *)
Definition blk (v : Z -> bytes) (l : list Z) (bn : Z) : Z :=
  if bn <? NDIRECT then nth_addr l bn
  else if ind l =? 0 then 0
  else get_le 4 (4 * Z.to_nat (bn - NDIRECT)) (v (ind l)).

(** What the file contains there; a missing block reads as zeros. *)
Definition fblock (v : Z -> bytes) (l : list Z) (bn : Z) : bytes :=
  if blk v l bn =? 0 then zero_block else v (blk v l bn).

Definition live (x : superblock) (v : Z -> bytes) (b : Z) : Prop := data_block x b /\ used x v b = true.

(** The blocks of a file are distinct data blocks in use. *)
Record file_ok (x : superblock) (v : Z -> bytes) (l : list Z) : Prop := {
  fo_len : length l = 13%nat;
  fo_blk : forall bn, 0 <= bn < MAXFILE -> blk v l bn <> 0 -> live x v (blk v l bn) /\ blk v l bn <> ind l;
  fo_ind : ind l <> 0 -> live x v (ind l);
  fo_inj : forall bn bn', 0 <= bn < MAXFILE -> 0 <= bn' < MAXFILE ->
    blk v l bn <> 0 -> blk v l bn = blk v l bn' -> bn = bn' }.

(** [b] is a block of the file. *)
Definition owns (v : Z -> bytes) (l : list Z) (b : Z) : Prop :=
  b <> 0 /\ (b = ind l \/ exists bn, 0 <= bn < MAXFILE /\ b = blk v l bn).

(** The file got more blocks; what it contains is the same, and so is every
    other block that was in use. *)
Record grows (x : superblock) (v : Z -> bytes) (l : list Z) (v' : Z -> bytes) (l' : list Z) : Prop := {
  gr_blk : forall bn, 0 <= bn < MAXFILE -> blk v l bn <> 0 -> blk v' l' bn = blk v l bn;
  gr_content : forall bn, 0 <= bn < MAXFILE -> fblock v' l' bn = fblock v l bn;
  gr_frame : forall b, ~ is_bmap x b -> (0 <= b < sb_size x -> used x v b = true) -> (b = ind l -> b = 0) -> v' b = v b;
  gr_used : forall b, 0 <= b < sb_size x -> used x v b = true -> used x v' b = true;
  gr_new : forall b, 0 <= b < sb_size x -> used x v' b = true -> used x v b = true \/ owns v' l' b;
  gr_ind : ind l <> 0 -> ind l' = ind l;
  gr_own : forall b, owns v' l' b -> owns v l b \/ 0 <= b < sb_size x /\ used x v b = false }.

Lemma nth_insert l k j a :
  0 <= k -> 0 <= j -> (Z.to_nat k < length l)%nat ->
  nth_addr (<[Z.to_nat k := a]> l) j = if k =? j then a else nth_addr l j.
Proof.
  intros Hk Hj Hl. unfold nth_addr. destruct (Z.eqb_spec k j) as [->|].
  - by rewrite list_lookup_insert_eq.
  - by rewrite list_lookup_insert_ne by lia.
Qed.

Lemma zero_block_len : length zero_block = Z.to_nat BSIZE.
Proof. apply length_replicate. Qed.

Lemma get_le_zero n off : get_le n off zero_block = 0.
Proof.
  unfold get_le, sub_bytes, zero_block. rewrite drop_replicate, take_replicate.
  generalize (n `min` (Z.to_nat BSIZE - off))%nat. intros k. induction k as [|k IH]; [done|]. simpl. lia.
Qed.

(** Free blocks, counted. *)
Definition nfree (x : superblock) (v : Z -> bytes) (n : nat) : Prop :=
  exists l, NoDup l /\ length l = n /\ Forall (fun b => 0 <= b < sb_size x /\ used x v b = false) l.

Section files.
Context {S H C : Type} `{!TxDisk S H} `{!TxDiskLaws S H} `{!UserCopy C}.
Context (x : superblock) (Hg : geom x).
Implicit Types (v : Z -> bytes) (t : tx H).

Lemma nfree_first v n : nfree x v (Datatypes.S n) -> exists nb, first_free x v nb.
Proof.
  intros (l & Hnd & Hlen & Hf). destruct l as [|b0 l]; [done|]. apply Forall_cons in Hf as [[Hb Hu] _].
  destruct (list_find (fun b => used x v b = false) (seqZ 0 (sb_size x))) as [[k nb]|] eqn:E.
  - apply list_find_Some in E as (Hk & Hf & Hlow). apply lookup_seqZ in Hk as [-> Hk].
    exists (0 + Z.of_nat k). split; [lia|]. split; [done|]. intros b Hb'.
    destruct (used x v b) eqn:Eb; [done|]. exfalso. apply (Hlow (Z.to_nat b) b); [|lia|done].
    apply lookup_seqZ. lia.
  - apply list_find_None in E. rewrite Forall_forall in E. exfalso. apply (E b0); [|done].
    apply elem_of_seqZ. lia.
Qed.

Lemma nfree_alloc v nb n :
  blocks_ok x v -> first_free x v nb -> nfree x v (Datatypes.S n) -> nfree x (alloc_view x v nb) n.
Proof using Hg.
  intros Hok Hff (l & Hnd & Hlen & Hf). pose proof (first_free_data x v nb Hok Hff) as Hd.
  assert (exists l', NoDup l' /\ (n <= length l')%nat /\ (nb ∉ l') /\ forall b, b ∈ l' -> b ∈ l)
    as (l' & Hnd' & Hl' & Hn & Hsub).
  { destruct (decide (nb ∈ l)) as [Hin|Hin].
    - apply list_elem_of_split in Hin as (l1 & l2 & ->). exists (l1 ++ l2).
      rewrite <-Permutation_middle in Hnd. apply NoDup_cons in Hnd as [? ?].
      rewrite length_app in *. simpl in Hlen. split; [done|]. split; [lia|]. split; [done|].
      intros b. rewrite !elem_of_app, elem_of_cons. tauto.
    - exists l. split; [done|]. split; [lia|]. done. }
  exists (take n l'). split; [|split].
  - rewrite <-(take_drop n l') in Hnd'. by apply NoDup_app in Hnd' as [? _].
  - rewrite length_take. lia.
  - apply Forall_forall. intros b Hb. assert (b ∈ l') as Hk by (rewrite <-(take_drop n l'); apply elem_of_app; by left).
    assert (b <> nb) as Hne by (intros ->; done).
    pose proof (Hsub b Hk) as Hin.
    rewrite Forall_forall in Hf. destruct (Hf b Hin) as [Hbr Hu]. split; [done|].
    rewrite used_alloc by done. destruct (Z.eqb_spec nb b); [congruence|done].
Qed.

(** *** The three ways a file gets a block *)

Section step.
Context (v : Z -> bytes) (l : list Z) (nb : Z).
Context (Hok : blocks_ok x v) (Hf : file_ok x v l) (Hff : first_free x v nb).
Let v1 := alloc_view x v nb.

Local Lemma step_data : data_block x nb.
Proof using Hok Hff. by apply first_free_data with v. Qed.

Local Lemma step_pos : 0 < nb < sb_size x.
Proof using Hg Hok Hff. pose proof (layout_order x Hg). destruct step_data. lia. Qed.

(** Blocks in use are not the new one. *)
Local Lemma step_live b : live x v b -> b <> nb.
Proof using Hff. intros [_ Hu] ->. destruct Hff as (_ & Hn & _). congruence. Qed.

Local Lemma step_not_bmap b : data_block x b -> ~ is_bmap x b.
Proof. unfold data_block, is_bmap. lia. Qed.

Lemma alloc_same b : ~ is_bmap x b -> (0 <= b < sb_size x -> used x v b = true) -> v1 b = v b.
Proof using Hg Hok Hff.
  intros Hb Hu. pose proof step_pos. apply (alloc_view_same x Hg); [lia|done|].
  intros ->. destruct Hff as (_ & Hn & _). rewrite Hu in Hn by lia. done.
Qed.

Lemma live_same b : live x v b -> v1 b = v b.
Proof using Hg Hok Hff. intros [Hd Hu]. apply alloc_same; [by apply step_not_bmap|done]. Qed.

Lemma live_alloc b : live x v b -> live x v1 b.
Proof using Hg Hok Hff.
  intros [Hd Hu]. split; [done|]. pose proof (layout_order x Hg). unfold v1.
  rewrite (used_alloc x Hg) by (done || apply step_data || destruct Hd; lia). by destruct (nb =? b).
Qed.

Lemma live_new : live x v1 nb.
Proof using Hg Hok Hff.
  split; [apply step_data|]. pose proof step_pos. unfold v1.
  rewrite (used_alloc x Hg) by (done || apply step_data || lia). by rewrite Z.eqb_refl.
Qed.

Lemma v1_new : v1 nb = zero_block.
Proof. apply fupd_eq. Qed.

Lemma blk_alloc bn : blk v1 l bn = blk v l bn.
Proof using Hg Hok Hf Hff.
  unfold blk. destruct (bn <? NDIRECT); [done|]. destruct (Z.eqb_spec (ind l) 0) as [|Hi]; [done|].
  rewrite live_same; [done|]. by apply (fo_ind _ _ _ Hf).
Qed.

Local Lemma used_new b :
  0 <= b < sb_size x -> used x v1 b = true -> used x v b = true \/ b = nb.
Proof using Hg Hok Hff.
  intros Hb. unfold v1. rewrite (used_alloc x Hg) by (done || apply step_data).
  destruct (Z.eqb_spec nb b); auto.
Qed.
Local Lemma used_mono b : 0 <= b < sb_size x -> used x v b = true -> used x v1 b = true.
Proof using Hg Hok Hff.
  intros Hb Hu. unfold v1. rewrite (used_alloc x Hg) by (done || apply step_data). by destruct (nb =? b).
Qed.

(** A new direct block. *)
Lemma grow_direct bn :
  0 <= bn < NDIRECT -> blk v l bn = 0 ->
  let l' := <[Z.to_nat bn := nb]> l in
  file_ok x v1 l' /\ grows x v l v1 l' /\ blk v1 l' bn = nb /\ blocks_ok x v1.
Proof using Hg Hok Hf Hff.
  intros Hbn H0 l'. pose proof step_pos as Hp. pose proof Hf as [Hlen Hfb Hfi Hinj].
  assert (forall k, 0 <= k -> nth_addr l' k = if bn =? k then nb else nth_addr l k) as Hnth.
  { intros k Hk. apply nth_insert; unfold NDIRECT in *; lia. }
  assert (ind l' = ind l) as Hind.
  { unfold ind. rewrite Hnth by (unfold NDIRECT; lia). destruct (Z.eqb_spec bn NDIRECT); [unfold NDIRECT in *; lia|done]. }
  assert (forall k, 0 <= k -> blk v1 l' k = if bn =? k then nb else blk v l k) as Hblk.
  { intros k Hk. rewrite <-blk_alloc. unfold blk. rewrite Hind, Hnth by done.
    destruct (Z.ltb_spec k NDIRECT); [done|]. destruct (Z.eqb_spec bn k); [lia|done]. }
  assert (forall b, live x v b -> b <> nb) as Hne by apply step_live.
  split; [|split; [|split]].
  - split.
    + unfold l'. by rewrite length_insert.
    + intros k Hk. rewrite Hind, Hblk by lia. destruct (Z.eqb_spec bn k) as [->|Hkn].
      * intros _. split; [apply live_new|]. intros E. destruct (decide (ind l = 0)) as [Ei|Ei]; [lia|].
        apply (Hne (ind l)); [by apply Hfi|done].
      * intros Hnz. destruct (Hfb k Hk Hnz). split; [by apply live_alloc|done].
    + rewrite Hind. intros Hi. apply live_alloc. by apply Hfi.
    + intros k k' Hk Hk'. rewrite !Hblk by lia.
      destruct (Z.eqb_spec bn k) as [E1|Hkn]; destruct (Z.eqb_spec bn k') as [E2|Hkn']; [congruence| | |].
      * intros _ E. exfalso. apply (Hne (blk v l k')); [apply Hfb; [done|lia]|done].
      * intros Hnz E. exfalso. apply (Hne (blk v l k)); [by apply Hfb|done].
      * by apply Hinj.
  - split.
    + intros k Hk Hnz. rewrite Hblk by lia. destruct (Z.eqb_spec bn k) as [->|]; [congruence|done].
    + intros k Hk. unfold fblock. rewrite Hblk by lia. destruct (Z.eqb_spec bn k) as [->|Hkn].
      * rewrite H0, Z.eqb_refl. destruct (Z.eqb_spec nb 0); [lia|apply v1_new].
      * destruct (Z.eqb_spec (blk v l k) 0) as [|Hnz]; [done|]. apply live_same. by apply Hfb.
    + intros b Hb Hu _. by apply alloc_same.
    + apply used_mono.
    + intros b Hb Hu. destruct (used_new b Hb Hu) as [?| ->]; [by left|right].
      split; [lia|]. right. exists bn. rewrite Hblk by lia. rewrite Z.eqb_refl. unfold MAXFILE, NDIRECT, NINDIRECT in *. split; [lia|done].
    + by rewrite Hind.
    + intros b [Hnz [E|(k & Hk & E)]]; [left; split; [done|left; congruence]|].
      rewrite Hblk in E by lia. destruct (Z.eqb_spec bn k) as [|]; [right; subst b; destruct Hff as (? & ? & _); done|].
      left. split; [done|]. right. by exists k.
  - rewrite Hblk, Z.eqb_refl by lia. done.
  - apply (blocks_ok_alloc x Hg); [done|apply step_data].
Qed.

(** A new indirect block. *)
Lemma grow_ind :
  ind l = 0 ->
  let l' := <[Z.to_nat NDIRECT := nb]> l in
  file_ok x v1 l' /\ grows x v l v1 l' /\ ind l' = nb /\ blocks_ok x v1.
Proof using Hg Hok Hf Hff.
  intros H0 l'. pose proof step_pos as Hp. pose proof Hf as [Hlen Hfb Hfi Hinj].
  assert (forall k, 0 <= k -> nth_addr l' k = if NDIRECT =? k then nb else nth_addr l k) as Hnth.
  { intros k Hk. apply nth_insert; unfold NDIRECT in *; lia. }
  assert (ind l' = nb) as Hind by (unfold ind; rewrite Hnth by (unfold NDIRECT; lia); done).
  assert (forall k, 0 <= k -> blk v1 l' k = blk v l k) as Hblk.
  { intros k Hk. unfold blk. rewrite Hind, Hnth, H0 by done.
    destruct (Z.ltb_spec k NDIRECT); [destruct (Z.eqb_spec NDIRECT k); [lia|done]|].
    destruct (Z.eqb_spec nb 0); [lia|]. rewrite v1_new. apply get_le_zero. }
  assert (forall b, live x v b -> b <> nb) as Hne by apply step_live.
  split; [|split; [|split]].
  - split.
    + unfold l'. by rewrite length_insert.
    + intros k Hk. rewrite Hind, Hblk by lia. intros Hnz. destruct (Hfb k Hk Hnz) as [Hlv _].
      split; [by apply live_alloc|by apply Hne].
    + rewrite Hind. intros _. apply live_new.
    + intros k k' Hk Hk'. rewrite !Hblk by lia. by apply Hinj.
  - split.
    + intros k Hk Hnz. by rewrite Hblk by lia.
    + intros k Hk. unfold fblock. rewrite Hblk by lia.
      destruct (Z.eqb_spec (blk v l k) 0) as [|Hnz]; [done|]. apply live_same. by apply Hfb.
    + intros b Hb Hu _. by apply alloc_same.
    + apply used_mono.
    + intros b Hb Hu. destruct (used_new b Hb Hu) as [?| ->]; [by left|right].
      split; [lia|]. left. done.
    + done.
    + intros b [Hnz [E|(k & Hk & E)]]; [right; rewrite E, Hind; destruct Hff as (? & ? & _); done|].
      rewrite Hblk in E by lia. left. split; [done|]. right. by exists k.
  - done.
  - apply (blocks_ok_alloc x Hg); [done|apply step_data].
Qed.

(** A new block in a slot of the indirect block. *)
Lemma grow_indirect bn :
  NDIRECT <= bn < MAXFILE -> ind l <> 0 -> blk v l bn = 0 ->
  let v2 := fupd v1 (ind l) (put_le 4 (4 * Z.to_nat (bn - NDIRECT)) nb (v (ind l))) in
  file_ok x v2 l /\ grows x v l v2 l /\ blk v2 l bn = nb /\ blocks_ok x v2.
Proof using Hg Hok Hf Hff.
  intros Hbn Hi H0 v2. pose proof step_pos as Hp. pose proof Hf as [Hlen Hfb Hfi Hinj].
  pose proof (Hfi Hi) as Hil. pose proof (step_live _ Hil) as Hine.
  pose proof (layout_order x Hg) as Ho. pose proof (g_size _ Hg) as Hsz.
  assert (length (v (ind l)) = 1024%nat) as Hilen.
  { destruct Hil as [[? ?] _]. apply (bo_len _ _ Hok). lia. }
  set (o := (4 * Z.to_nat (bn - NDIRECT))%nat) in *.
  assert (o + 4 <= 1024)%nat as Ho4 by (unfold o, MAXFILE, NDIRECT, NINDIRECT in *; lia).
  assert (forall b, b <> ind l -> v2 b = v1 b) as Hv2 by (intros b Hb; by apply fupd_ne).
  assert (forall k, 0 <= k -> blk v2 l k = if bn =? k then nb else blk v l k) as Hblk.
  { intros k Hk. unfold blk. destruct (Z.ltb_spec k NDIRECT); [destruct (Z.eqb_spec bn k); [lia|done]|].
    destruct (Z.eqb_spec (ind l) 0); [done|]. unfold v2. rewrite fupd_eq.
    destruct (Z.eqb_spec bn k) as [->|Hkn].
    - apply get_put_le; [rewrite Hilen; lia|]. unfold BPB, BSIZE in *. change (256 ^ Z.of_nat 4) with (2 ^ 32). lia.
    - apply get_put_le_ne; [rewrite Hilen; lia|]. unfold o, NDIRECT in *. lia. }
  assert (forall b, 0 <= b < sb_size x -> used x v2 b = used x v1 b) as Hused.
  { intros b Hb. apply (used_data x Hg); [destruct Hil as [[? ?] _]; lia|done]. }
  assert (forall b, live x v1 b -> live x v2 b) as Hlive.
  { intros b [Hd Hu]. split; [done|]. rewrite Hused; [done|]. destruct Hd. lia. }
  assert (blk v l bn <> ind l) as Hbi by (intros E; congruence).
  split; [|split; [|split]].
  - split; [done| | |].
    + intros k Hk. rewrite Hblk by lia. destruct (Z.eqb_spec bn k) as [->|Hkn].
      * intros _. split; [apply Hlive, live_new|congruence].
      * intros Hnz. destruct (Hfb k Hk Hnz). split; [by apply Hlive, live_alloc|done].
    + intros _. by apply Hlive, live_alloc.
    + intros k k' Hk Hk'. rewrite !Hblk by lia.
      destruct (Z.eqb_spec bn k) as [E1|Hkn]; destruct (Z.eqb_spec bn k') as [E2|Hkn']; [congruence| | |].
      * intros _ E. exfalso. apply (step_live (blk v l k')); [apply Hfb; [done|lia]|done].
      * intros Hnz E. exfalso. apply (step_live (blk v l k)); [by apply Hfb|done].
      * by apply Hinj.
  - split.
    + intros k Hk Hnz. rewrite Hblk by lia. destruct (Z.eqb_spec bn k) as [->|]; [congruence|done].
    + intros k Hk. unfold fblock. rewrite Hblk by lia. destruct (Z.eqb_spec bn k) as [->|Hkn].
      * rewrite H0, Z.eqb_refl. destruct (Z.eqb_spec nb 0); [lia|]. rewrite Hv2 by congruence. apply v1_new.
      * destruct (Z.eqb_spec (blk v l k) 0) as [|Hnz]; [done|]. destruct (Hfb k Hk Hnz) as [Hlv Hki].
        rewrite Hv2 by done. by apply live_same.
    + intros b Hb Hu Hbi'. rewrite Hv2; [by apply alloc_same|]. intros ->. by apply Hi, Hbi'.
    + intros b Hb Hu. rewrite Hused by done. by apply used_mono.
    + intros b Hb. rewrite Hused by done. intros Hu. destruct (used_new b Hb Hu) as [?| ->]; [by left|right].
      split; [lia|]. right. exists bn. rewrite Hblk by (unfold NDIRECT in *; lia). rewrite Z.eqb_refl.
      split; [unfold NDIRECT in *; lia|done].
    + done.
    + intros b [Hnz [E|(k & Hk & E)]]; [left; split; [done|by left]|].
      rewrite Hblk in E by lia. destruct (Z.eqb_spec bn k) as [|]; [right; subst b; destruct Hff as (? & ? & _); done|].
      left. split; [done|]. right. by exists k.
  - rewrite Hblk, Z.eqb_refl by (unfold NDIRECT in *; lia). done.
  - assert (blocks_ok x v1) as Hok1 by (apply (blocks_ok_alloc x Hg); [done|apply step_data]). split.
    + intros b Hb. unfold v2. destruct (decide (b = ind l)) as [->|].
      * rewrite fupd_eq, length_put_le by (rewrite Hilen; lia). done.
      * rewrite fupd_ne by done. by apply (bo_len _ _ Hok1).
    + intros b Hb. pose proof (g_data _ Hg). rewrite Hused by lia. by apply (bo_meta _ _ Hok1).
Qed.
End step.

Lemma grows_trans v l v1 l1 v2 l2 :
  blocks_ok x v -> file_ok x v l -> (ind l1 <> 0 -> ind l = 0 -> 0 <= ind l1 < sb_size x /\ used x v (ind l1) = false) ->
  grows x v l v1 l1 -> grows x v1 l1 v2 l2 -> grows x v l v2 l2.
Proof using Hg.
  intros Hok Hf Hnew [A1 A2 A3 A4 A5 A6 A7] [B1 B2 B3 B4 B5 B6 B7]. split.
  - intros bn Hbn Hnz. rewrite B1, A1; try done. by rewrite A1.
  - intros bn Hbn. by rewrite B2, A2.
  - intros b Hb Hu Hi. rewrite B3; [by apply A3|done| |].
    + intros Hr. apply A4; auto.
    + intros ->. destruct (decide (ind l1 = 0)) as [E1|E1]; [done|]. destruct (decide (ind l = 0)) as [E|E].
      * destruct (Hnew E1 E) as [Hr Hn]. rewrite Hu in Hn by done. done.
      * rewrite A6 in Hi |- * by done. by apply Hi.
  - intros b Hb Hu. by apply B4, A4.
  - intros b Hb Hu. destruct (B5 b Hb Hu) as [Hu1|Ho]; [|by right].
    destruct (A5 b Hb Hu1) as [?|[Hnz [->|(bn & Hbn & ->)]]]; [by left| |].
    + right. split; [done|]. left. symmetry. by apply B6.
    + right. split; [done|]. right. exists bn. split; [done|]. symmetry. by apply B1.
  - intros Hi. rewrite B6, A6; try done. by rewrite A6.
  - intros b Ho. destruct (B7 b Ho) as [Ho1|[Hr Hu]]; [by apply A7|]. right. split; [done|].
    destruct (used x v b) eqn:E; [|done]. rewrite A4 in Hu by done. done.
Qed.

Lemma grows_refl v l : grows x v l v l.
Proof. split; auto. Qed.

Lemma nfree_weaken v n m : (m <= n)%nat -> nfree x v n -> nfree x v m.
Proof.
  intros Hm (l & Hnd & Hlen & Hf). exists (take m l). split; [|split].
  - rewrite <-(take_drop m l) in Hnd. by apply NoDup_app in Hnd as [? _].
  - rewrite length_take. lia.
  - by apply Forall_take.
Qed.

Lemma with_view_id t : with_view (t_view t) 0 t = t.
Proof. unfold with_view. rewrite Nat.sub_0_r. by destruct t. Qed.

Lemma with_view_view w n w' n' t : with_view w' n' (with_view w n t) = with_view w' (n + n') t.
Proof. unfold with_view. simpl. by rewrite Nat.sub_add_distr. Qed.

Lemma set_addrs_id i ip (vs : fvars C) :
  icache vs !! i = Some ip -> set_icache (<[i := with_addrs (i_addrs ip) ip]> (icache vs)) vs = vs.
Proof.
  intros Hi. replace (with_addrs (i_addrs ip) ip) with ip by (by destruct ip).
  rewrite list_insert_id by done. by destruct vs.
Qed.

(** Between calls of a transaction no buffer is held. *)
Definition idle t : Prop := t_held t = ∅ /\ t_dirty t = ∅.

Lemma idle_bmap_free t : idle t -> bmap_free x t.
Proof. intros [Hh _]. unfold bmap_free. rewrite Hh. split; [done|]. rewrite map_size_empty. unfold MAXHELD. lia. Qed.

Lemma idle_can_read t b : idle t -> sb_inodestart x <= b < sb_size x -> can_read t b.
Proof using Hg.
  intros [Hh _] Hb. split; [by apply (g_valid _ Hg)|]. rewrite Hh. split; [done|].
  rewrite map_size_empty. unfold MAXHELD. lia.
Qed.

Lemma live_range v b : live x v b -> sb_inodestart x <= b < sb_size x.
Proof using Hg. intros [[? ?] _]. pose proof (layout_order x Hg). lia. Qed.

(** [bmap] of a position that has a block returns it. *)
Lemma wp_bmap_mapped i ip bn Q (vs : fvars C) t :
  icache vs !! i = Some ip -> i_dev ip = ROOTDEV -> idle t -> file_ok x (t_view t) (i_addrs ip) ->
  0 <= bn < MAXFILE -> blk (t_view t) (i_addrs ip) bn <> 0 ->
  Q (blk (t_view t) (i_addrs ip) bn) vs t -> wp (bmap i bn) Q vs t.
Proof using Hg.
  intros Hi Hd Hid Hf Hbn Hnz HQ. apply wp_bind, (wp_get_ino i ip); [done|].
  change (addr ip) with (nth_addr (i_addrs ip)). fold (ind (i_addrs ip)). unfold blk in Hnz, HQ.
  destruct (Z.ltb_spec bn NDIRECT).
  - destruct (Z.eqb_spec (nth_addr (i_addrs ip) bn) 0); [done|]. by apply wp_ret.
  - unfold MAXFILE in Hbn. cbv zeta. destruct (Z.ltb_spec (bn - NDIRECT) NINDIRECT); [|lia].
    destruct (Z.eqb_spec (ind (i_addrs ip)) 0) as [|Hin]; [done|]. apply wp_bind, wp_ret.
    pose proof (live_range _ _ (fo_ind _ _ _ Hf Hin)) as Hr.
    apply wp_read; [done|by apply idle_can_read|]. intros h.
    destruct (Z.eqb_spec (get_le 4 (4 * Z.to_nat (bn - NDIRECT)) (t_view t (ind (i_addrs ip)))) 0); [done|].
    apply wp_bind, wp_brelse_back; [by destruct Hid|destruct Hid as [-> _]; done|]. by apply wp_ret.
Qed.

(** The slot of an indirect block that is there. *)
Lemma wp_bmap_slot l1 bn Q (vs : fvars C) t :
  sb vs = x -> idle t -> blocks_ok x (t_view t) -> file_ok x (t_view t) l1 ->
  NDIRECT <= bn < MAXFILE -> ind l1 <> 0 -> blk (t_view t) l1 bn = 0 ->
  (3 <= t_budget t)%nat -> nfree x (t_view t) 1 ->
  (forall a w, blocks_ok x w -> file_ok x w l1 -> grows x (t_view t) l1 w l1 -> blk w l1 bn = a -> a <> 0 ->
     (forall m, nfree x (t_view t) (Datatypes.S m) -> nfree x w m) -> Q a vs (with_view w 3 t)) ->
  wp (bp ← fs_bread ROOTDEV (ind l1); w ← fs_data bp;
      if get_le 4 (4 * Z.to_nat (bn - NDIRECT)) w =? 0 then
        a ← balloc ROOTDEV;
        fs_store bp (put_le 4 (4 * Z.to_nat (bn - NDIRECT)) a w);;
        fs_log_write bp (ind l1);; fs_brelse bp;; ret a
      else fs_brelse bp;; ret (get_le 4 (4 * Z.to_nat (bn - NDIRECT)) w)) Q vs t.
Proof using Hg.
  intros Hsb Hid Hok Hf Hbn Hind Hz Hbud Hnf HQ. set (v := t_view t) in *.
  pose proof (fo_ind _ _ _ Hf Hind) as Hil. pose proof (live_range _ _ Hil) as Hir.
  apply wp_read; [done|by apply idle_can_read|]. intros h. fold v.
  assert (get_le 4 (4 * Z.to_nat (bn - NDIRECT)) (v (ind l1)) = 0) as Eg.
  { unfold blk in Hz. destruct (Z.ltb_spec bn NDIRECT); [lia|]. destruct (Z.eqb_spec (ind l1) 0); [done|]. done. }
  rewrite Eg. cbn [Z.eqb].
  destruct (nfree_first v 0 Hnf) as [nb Hff].
  assert (ind l1 <> nb) as Hne by (intros E; destruct Hff as (_ & Hu & _); destruct Hil as [_ Hu']; congruence).
  assert (t_held t = ∅) as Hh0 by apply Hid. assert (t_dirty t = ∅) as Hd0 by apply Hid.
  apply wp_bind, (wp_balloc x Hg nb); try done.
  { split; cbn [t_held t_bread]; rewrite Hh0.
    - intros b Hb. rewrite lookup_insert_ne; [done|]. intros <-. unfold is_bmap in Hb. destruct Hil as [[? ?] _]. lia.
    - rewrite map_size_insert_None, map_size_empty by done. unfold MAXHELD. lia. }
  { cbn [t_budget t_bread]. lia. }
  { cbn [t_held t_bread]. rewrite Hh0, lookup_insert_ne by done. done. }
  destruct (grow_indirect v l1 nb Hok Hf Hff bn) as (Hf2 & Hgr2 & Hb2 & Hok2); [done|done|done|].
  change (with_view ?w ?n (t_bread ?b ?h ?t)) with (t_bread b h (with_view w n t)).
  apply wp_put_block; [exact Hd0|cbn [t_held with_view]; by rewrite Hh0|cbn [t_budget with_view]; lia|].
  apply wp_ret. rewrite !with_view_view. cbn [t_view with_view t_bread].
  apply HQ; try done; [pose proof (step_pos v nb Hok Hff); lia|].
  intros m Hm. destruct (nfree_alloc v nb m Hok Hff Hm) as (fl & Hnd & Hlen & Hfl).
  exists fl. split; [done|]. split; [done|]. eapply Forall_impl; [exact Hfl|]. intros b [Hb Hu].
  split; [done|]. rewrite (used_data x Hg); [done|destruct Hil as [[? ?] _]; lia|done].
Qed.

(** [bmap] of any position of a file. *)
Lemma wp_bmap i ip bn Q (vs : fvars C) t :
  sb vs = x -> icache vs !! i = Some ip -> i_dev ip = ROOTDEV -> idle t ->
  blocks_ok x (t_view t) -> file_ok x (t_view t) (i_addrs ip) ->
  0 <= bn < MAXFILE -> (5 <= t_budget t)%nat -> nfree x (t_view t) 2 ->
  (forall a l' w n, (n <= 5)%nat -> blocks_ok x w -> file_ok x w l' ->
     grows x (t_view t) (i_addrs ip) w l' -> blk w l' bn = a -> a <> 0 ->
     (forall m, nfree x (t_view t) (m + 2) -> nfree x w m) ->
     Q a (set_icache (<[i := with_addrs l' ip]> (icache vs)) vs) (with_view w n t)) ->
  wp (bmap i bn) Q vs t.
Proof using Hg.
  intros Hsb Hi Hd Hid Hok Hf Hbn Hbud Hnf HQ.
  set (v := t_view t) in *. set (l := i_addrs ip) in *.
  destruct (decide (blk v l bn = 0)) as [Hz|Hnz].
  2: { apply (wp_bmap_mapped i ip); try done. specialize (HQ (blk v l bn) l v 0%nat).
       unfold l, v in HQ. rewrite set_addrs_id, with_view_id in HQ by done. apply HQ; try done; [lia|apply grows_refl|].
       intros m Hm. by apply (nfree_weaken _ (m + 2)); [lia|]. }
  assert (forall m, nfree x v (m + 2) -> forall nb, first_free x v nb -> nfree x (alloc_view x v nb) (Datatypes.S m)) as Hna.
  { intros m Hm nb Hff. apply nfree_alloc; [done|done|]. by replace (Datatypes.S (Datatypes.S m)) with (m + 2)%nat by lia. }
  destruct (nfree_first v 1 Hnf) as [nb Hff]. pose proof (step_pos v nb Hok Hff) as Hp.
  assert (t_held t !! nb = None) as Hnh by (by destruct Hid as [-> _]).
  apply wp_bind, (wp_get_ino i ip); [done|]. change (addr ip) with (nth_addr l). fold (ind l). rewrite Hd.
  destruct (Z.ltb_spec bn NDIRECT) as [Hdir|Hdir].
  - assert (nth_addr l bn = 0) as ->.
    { unfold blk in Hz. by destruct (Z.ltb_spec bn NDIRECT); [|lia]. }
    cbn [Z.eqb]. apply wp_bind, (wp_balloc x Hg nb); try done; [by apply idle_bmap_free|by destruct Hid|lia|].
    apply wp_bind, (wp_mod_ino i ip); [done|]. apply wp_ret.
    destruct (grow_direct v l nb Hok Hf Hff bn) as (Hf' & Hgr & Hb & Hok'); [lia|done|].
    apply (HQ nb (<[Z.to_nat bn := nb]> l)); try done; [lia|lia|].
    intros m Hm. apply (nfree_weaken _ (Datatypes.S m)); [lia|auto].
  - unfold MAXFILE in Hbn. cbv zeta. destruct (Z.ltb_spec (bn - NDIRECT) NINDIRECT); [|lia].
    destruct (Z.eqb_spec (ind l) 0) as [Hi0|Hi0].
    + apply wp_bind, wp_bind, (wp_balloc x Hg nb); try done; [by apply idle_bmap_free|by destruct Hid|lia|].
      destruct (grow_ind v l nb Hok Hf Hff Hi0) as (Hf' & Hgr & Hb & Hok').
      apply wp_bind, (wp_mod_ino i ip); [done|]. apply wp_ret.
      pose proof (wp_bmap_slot (<[Z.to_nat NDIRECT := nb]> l) bn Q
        (set_icache (<[i := with_addr NDIRECT nb ip]> (icache vs)) vs) (with_view (alloc_view x v nb) 2 t)) as Hslot.
      rewrite Hb in Hslot. apply Hslot; try done; [unfold MAXFILE; lia|lia| |cbn [t_budget with_view]; lia|by apply Hna|].
      * rewrite <-Hz. unfold blk. rewrite Hb. destruct (Z.ltb_spec bn NDIRECT); [lia|]. rewrite Hi0. cbn [Z.eqb].
        destruct (Z.eqb_spec nb 0); [lia|]. cbn [t_view with_view]. unfold alloc_view. rewrite fupd_eq. apply get_le_zero.
      * intros a w Hok2 Hf2 Hgr2 Hb2 Ha Hnf2. rewrite with_view_view.
        apply (HQ a (<[Z.to_nat NDIRECT := nb]> l)); try done.
        -- eapply grows_trans; eauto. intros _ _. rewrite Hb. destruct Hff as (? & ? & _). done.
        -- intros m Hm. apply Hnf2, Hna; done.
    + apply wp_bind, wp_ret. apply wp_bmap_slot; try done; [unfold MAXFILE; lia|lia|by apply (nfree_weaken _ 2); [lia|]|].
      intros a w Hok2 Hf2 Hgr2 Hb2 Ha Hnf2. pose proof (HQ a l w 3%nat) as HQ'. unfold l in HQ' at 1.
      assert (set_icache (<[i := with_addrs l ip]> (icache vs)) vs = vs) as Es by (by apply set_addrs_id).
      rewrite Es in HQ'. apply HQ'; try done; try lia.
      intros m Hm. apply Hnf2. by apply (nfree_weaken _ (m + 2)); [lia|].
Qed.

(** *** Reading *)

Definition fbyte v (l : list Z) (o : Z) : Z := byte_at (fblock v l (o / BSIZE)) (o mod BSIZE).
Definition fread v (l : list Z) (off : Z) (n : nat) : bytes := (fun k => fbyte v l (off + Z.of_nat k)) <$> seq 0 n.

Lemma length_fread v l off n : length (fread v l off n) = n.
Proof. unfold fread. by rewrite length_fmap, length_seq. Qed.

Lemma lookup_fread v l off n k : (k < n)%nat -> fread v l off n !! k = Some (fbyte v l (off + Z.of_nat k)).
Proof. intros Hk. unfold fread. by rewrite list_lookup_fmap, lookup_seq_lt. Qed.

Lemma fread_app v l off n m : fread v l off (n + m) = fread v l off n ++ fread v l (off + Z.of_nat n) m.
Proof.
  apply list_eq. intros k. destruct (decide (k < n + m)%nat) as [Hk|Hk].
  - rewrite lookup_fread by done. destruct (decide (k < n)%nat).
    + rewrite lookup_app_l by (rewrite length_fread; lia). by rewrite lookup_fread.
    + rewrite lookup_app_r by (rewrite length_fread; lia). rewrite length_fread, lookup_fread by lia.
      do 2 f_equal. lia.
  - rewrite !lookup_ge_None_2; rewrite ?length_app, ?length_fread; (done || lia).
Qed.

(** The bytes of a file inside of one block. *)
Lemma fread_block v l off m :
  0 <= off -> length (fblock v l (off / BSIZE)) = Z.to_nat BSIZE -> off mod BSIZE + Z.of_nat m <= BSIZE ->
  fread v l off m = sub_bytes (Z.to_nat (off mod BSIZE)) m (fblock v l (off / BSIZE)).
Proof.
  intros Hoff Hlen Hm. pose proof (Z.mod_pos_bound off BSIZE ltac:(unfold BSIZE; lia)) as Hmod.
  apply list_eq. intros k. rewrite lookup_sub_bytes. case_decide as Hk.
  - rewrite lookup_fread by done. unfold fbyte, byte_at.
    assert ((off + Z.of_nat k) / BSIZE = off / BSIZE /\ (off + Z.of_nat k) mod BSIZE = off mod BSIZE + Z.of_nat k) as [-> ->].
    { pose proof (Z.div_mod off BSIZE ltac:(unfold BSIZE; lia)).
      split; symmetry; [apply (Z.div_unique _ _ _ (off mod BSIZE + Z.of_nat k))|apply (Z.mod_unique _ _ (off / BSIZE))];
        unfold BSIZE in *; lia. }
    rewrite Z2Nat.inj_add, Nat2Z.id by lia.
    destruct (lookup_lt_is_Some_2 (fblock v l (off / BSIZE)) (Z.to_nat (off mod BSIZE) + k)) as [z Hz]; [lia|].
    by rewrite Hz.
  - apply lookup_ge_None_2. rewrite length_fread. lia.
Qed.

Lemma fblock_len v l bn :
  blocks_ok x v -> file_ok x v l -> 0 <= bn < MAXFILE -> length (fblock v l bn) = Z.to_nat BSIZE.
Proof using Hg.
  intros Hok Hf Hbn. unfold fblock. destruct (Z.eqb_spec (blk v l bn) 0); [apply zero_block_len|].
  apply (bo_len _ _ Hok). by apply (live_range v), (fo_blk _ _ _ Hf).
Qed.

Definition same_fs (vs vs' : fvars C) : Prop :=
  vs' = mkfv (sb vs) (icache vs) (kbuf vs') (umem vs') (f_pid vs) (f_cpu vs) (f_cwd vs).

(** A destination that accepts [n] bytes: after [done] were copied, [R done]. *)
Definition sink (user : bool) (dst n : Z) (R : bytes -> bytes -> C -> Prop) : Prop :=
  forall done bs vs t Q, R done (kbuf vs) (umem vs) -> Z.of_nat (length done + length bs) <= n ->
    (forall vs', same_fs vs vs' -> R (done ++ bs) (kbuf vs') (umem vs') -> Q 0 vs' t) ->
    wp (either_copyout user (dst + Z.of_nat (length done)) bs) Q vs t.

(** The kernel object of the caller. *)
Lemma kernel_sink dst n k0 :
  0 <= dst -> 0 <= n -> dst + n <= Z.of_nat (length k0) ->
  sink false dst n (fun done k _ => k = upd_bytes (Z.to_nat dst) done k0).
Proof.
  intros Hd Hn Hl done bs vs t Q Hk Hle HQ. unfold either_copyout. apply wp_bind, wp_modv, wp_ret.
  apply HQ; [done|]. simpl. rewrite Hk. rewrite Z2Nat.inj_add, Nat2Z.id by lia.
  apply upd_bytes_app. lia.
Qed.

(** The loop of [readi], over blocks that are there. *)
Lemma wp_readi_loop fuel i ip user dst off n tot N R done Q (vs : fvars C) t :
  icache vs !! i = Some ip -> i_dev ip = ROOTDEV -> idle t ->
  blocks_ok x (t_view t) -> file_ok x (t_view t) (i_addrs ip) ->
  sink user dst N R -> R done (kbuf vs) (umem vs) -> Z.of_nat (length done) = tot -> tot <= n <= N -> 0 <= off ->
  off + (n - tot) <= MAXFILE * BSIZE ->
  (forall o, off <= o < off + (n - tot) -> blk (t_view t) (i_addrs ip) (o / BSIZE) <> 0) ->
  (0 < fuel)%nat -> (tot < n -> off mod BSIZE + (n - tot) <= BSIZE * (Z.of_nat fuel - 1)) ->
  (forall vs', same_fs vs vs' ->
     R (done ++ fread (t_view t) (i_addrs ip) off (Z.to_nat (n - tot))) (kbuf vs') (umem vs') -> Q tt vs' t) ->
  wp (readi_loop fuel i user (dst + tot) off n tot) Q vs t.
Proof using Hg.
  intros Hi Hd Hid Hok Hf Hsink. revert off tot done vs Hi.
  pose proof (eq_refl : BSIZE = 1024) as HB.
  induction fuel as [|fuel IH]; intros off tot done vs Hi HR Htot Hn Hoff Hmax Hblk Hf0 Hfuel HQ; [lia|].
  cbn [readi_loop]. destruct (Z.ltb_spec tot n) as [Hlt|Hge].
  2: { apply wp_ret. apply HQ; [by destruct vs|]. replace (n - tot) with 0 by lia. simpl. by rewrite app_nil_r. }
  pose proof (Z.mod_pos_bound off BSIZE ltac:(lia)) as Hmod. pose proof (Z.div_mod off BSIZE ltac:(lia)) as Hdm.
  set (bn := off / BSIZE) in *. set (v := t_view t) in *. set (l := i_addrs ip) in *.
  assert (0 <= bn < MAXFILE) as Hbn by (unfold MAXFILE, NDIRECT, NINDIRECT in *; lia).
  assert (blk v l bn <> 0) as Hnz by (apply Hblk; lia).
  apply wp_bind, (wp_bmap_mapped i ip); try done. fold v l.
  apply wp_bind, (wp_get_ino i ip); [done|].
  pose proof (fo_blk _ _ _ Hf bn Hbn Hnz) as [Hlive _]. pose proof (live_range _ _ Hlive) as Hr.
  apply wp_read; [done|by apply idle_can_read|]. intros h. cbv zeta. fold v.
  set (m := Z.min (n - tot) (BSIZE - off mod BSIZE)).
  assert (fread v l off (Z.to_nat m) = sub_bytes (Z.to_nat (off mod BSIZE)) (Z.to_nat m) (v (blk v l bn))) as Hchunk.
  { rewrite fread_block; [|done|by apply fblock_len|lia]. fold bn. unfold fblock. by destruct (Z.eqb_spec (blk v l bn) 0). }
  rewrite <-Hchunk. rewrite <-Htot. apply wp_bind. apply Hsink; [done|rewrite length_fread; lia|].
  intros vs' Hsame HR'. cbn [Z.eqb]. apply wp_bind, wp_brelse_back; [by destruct Hid|destruct Hid as [-> _]; done|].
  replace (dst + Z.of_nat (length done) + m) with (dst + (tot + m)) by lia. rewrite Htot.
  assert (icache vs' !! i = Some ip) as Hi' by (by rewrite Hsame).
  assert (tot + m <= n) as Htm by lia.
  apply (IH (off + m) (tot + m) (done ++ fread v l off (Z.to_nat m))); try done; try lia.
  - rewrite length_app, length_fread. lia.
  - intros o Ho. apply Hblk. lia.
  - intros Hlt'. specialize (Hfuel Hlt). assert ((off + m) mod BSIZE = 0) as ->; [|lia].
    symmetry. apply (Z.mod_unique _ _ (bn + 1)); lia.
  - intros vs'' Hsame' HR''. apply HQ.
    + unfold same_fs in *. rewrite Hsame', Hsame. done.
    + rewrite <-app_assoc in HR''. replace (Z.to_nat (n - tot)) with (Z.to_nat m + Z.to_nat (n - (tot + m)))%nat by lia.
      rewrite fread_app, Z2Nat.id by lia. done.
Qed.

(** Every position below the size has a block. *)
Definition no_holes v (ip : inode) : Prop :=
  0 <= i_size ip <= MAXFILE * BSIZE /\ forall o, 0 <= o < i_size ip -> blk v (i_addrs ip) (o / BSIZE) <> 0.

Lemma io_fuel_ok off n : 0 <= n -> off mod BSIZE + n <= BSIZE * (Z.of_nat (io_fuel n) - 1).
Proof.
  intros Hn. unfold io_fuel. pose proof (Z.mod_pos_bound off BSIZE ltac:(unfold BSIZE; lia)).
  pose proof (Z.div_mod n BSIZE ltac:(unfold BSIZE; lia)). pose proof (Z.mod_pos_bound n BSIZE ltac:(unfold BSIZE; lia)).
  assert (0 <= n / BSIZE) by (apply Z.div_pos; unfold BSIZE; lia). unfold BSIZE in *. lia.
Qed.

(** [readi]: the bytes of the file from [off], cut at its end. *)
Lemma wp_readi i ip user dst off n R Q (vs : fvars C) t :
  icache vs !! i = Some ip -> i_dev ip = ROOTDEV -> idle t ->
  blocks_ok x (t_view t) -> file_ok x (t_view t) (i_addrs ip) -> no_holes (t_view t) ip ->
  0 <= off <= i_size ip -> 0 <= n -> off + n < 2 ^ 32 ->
  let n' := Z.min n (i_size ip - off) in
  sink user dst n' R -> R [] (kbuf vs) (umem vs) ->
  (forall vs', same_fs vs vs' -> R (fread (t_view t) (i_addrs ip) off (Z.to_nat n')) (kbuf vs') (umem vs') -> Q n' vs' t) ->
  wp (readi i user dst off n) Q vs t.
Proof using Hg.
  intros Hi Hd Hid Hok Hf [Hsz Hnh] Hoff Hn Hov n' Hsink HR HQ.
  apply wp_bind, (wp_get_ino i ip); [done|]. rewrite u32_small by lia.
  destruct (Z.ltb_spec (i_size ip) off); [lia|]. destruct (Z.ltb_spec (off + n) off); [lia|]. cbn [orb].
  cbv zeta.
  assert ((if i_size ip <? off + n then i_size ip - off else n) = n') as ->.
  { unfold n'. destruct (Z.ltb_spec (i_size ip) (off + n)); lia. }
  apply wp_bind. rewrite <-(Z.add_0_r dst).
  apply (wp_readi_loop _ i ip user dst off n' 0 n' R []); try done; try lia.
  - intros o Ho. apply Hnh. lia.
  - unfold io_fuel. lia.
  - intros _. rewrite Z.sub_0_r. apply io_fuel_ok. lia.
  - intros vs' Hsame HR'. apply wp_ret. apply HQ; [done|]. by rewrite Z.sub_0_r in HR'.
Qed.
End files.
