(* ===== verification/FsFile.v ===== *)
(** Writing and truncating files: what [writei], [itrunc], [iupdate] and [ilock]
    of kernel/fs/fs.c do to the contents of a file. *)

From S2P Require Import Prelude Lock FsDisk FsBlocks FsInode.

Section files.
Context {S H C : Type} `{!TxDisk S H} `{!TxDiskLaws S H} `{!UserCopy C}.
Context (x : superblock) (Hg : geom x).
Implicit Types (v : Z -> bytes) (t : tx H).

(** ** Changing a block of a file *)

Lemma write_block v l bn a nv :
  blocks_ok x v -> file_ok x v l -> 0 <= bn < MAXFILE -> blk v l bn = a -> a <> 0 ->
  length nv = Z.to_nat BSIZE ->
  let w := fupd v a nv in
  blocks_ok x w /\ file_ok x w l /\ (forall k, blk w l k = blk v l k) /\
  (forall b, 0 <= b < sb_size x -> used x w b = used x v b) /\
  (forall k, 0 <= k < MAXFILE -> fblock w l k = if decide (k = bn) then nv else fblock v l k).
Proof using Hg.
  intros Hok Hf Hbn Ha Hnz Hlen w. pose proof Hf as [Hl Hfb Hfi Hinj].
  destruct (Hfb bn Hbn) as [[[Hd1 Hd2] Hu] Hni]; [congruence|]. rewrite Ha in *.
  assert (forall k, blk w l k = blk v l k) as Hblk.
  { intros k. unfold blk, w. rewrite fupd_ne by congruence. done. }
  assert (forall b, 0 <= b < sb_size x -> used x w b = used x v b) as Hused.
  { intros b Hb. by apply (used_data x Hg). }
  assert (forall b, live x v b -> live x w b) as Hlive.
  { intros b [[? ?] ?]. pose proof (layout_order x Hg). split; [done|]. rewrite Hused by lia. done. }
  split; [|split; [|split; [done|split; [done|]]]].
  - split.
    + intros b Hb. unfold w. destruct (decide (b = a)) as [->|]; [by rewrite fupd_eq|].
      rewrite fupd_ne by done. by apply (bo_len _ _ Hok).
    + intros b Hb. pose proof (g_data _ Hg). rewrite Hused by lia. by apply (bo_meta _ _ Hok).
  - split; [done| | |].
    + intros k Hk. rewrite Hblk. intros Hkn. destruct (Hfb k Hk Hkn). auto.
    + intros Hi. auto.
    + intros k k' Hk Hk'. rewrite !Hblk. by apply Hinj.
  - intros k Hk. unfold fblock. rewrite Hblk. case_decide as Hkb.
    + subst k. rewrite Ha. destruct (Z.eqb_spec a 0); [done|]. apply fupd_eq.
    + destruct (Z.eqb_spec (blk v l k) 0); [done|]. apply fupd_ne. intros E. apply Hkb, Hinj; [done|done|done|congruence].
Qed.

(** The bytes [bs] were written at [off]; the file got the blocks it needed, and
    what is in use elsewhere is unchanged. *)
Record wrote v l v' l' (off : Z) (bs : bytes) : Prop := {
  wr_byte : forall o, 0 <= o < MAXFILE * BSIZE ->
    fbyte v' l' o = if decide (off <= o < off + Z.of_nat (length bs)) then byte_at bs (o - off) else fbyte v l o;
  wr_mapped : forall o, off <= o < off + Z.of_nat (length bs) -> blk v' l' (o / BSIZE) <> 0;
  wr_blk : forall bn, 0 <= bn < MAXFILE -> blk v l bn <> 0 -> blk v' l' bn = blk v l bn;
  wr_frame : forall b, ~ is_bmap x b -> (0 <= b < sb_size x -> used x v b = true) -> ~ owns v l b -> v' b = v b;
  wr_used : forall b, 0 <= b < sb_size x -> used x v b = true -> used x v' b = true;
  wr_new : forall b, 0 <= b < sb_size x -> used x v' b = true -> used x v b = true \/ owns v' l' b;
  wr_own : forall b, owns v' l' b -> owns v l b \/ 0 <= b < sb_size x /\ used x v b = false;
  wr_ind : ind l <> 0 -> ind l' = ind l }.

Lemma div_max o : 0 <= o < MAXFILE * BSIZE -> 0 <= o / BSIZE < MAXFILE.
Proof.
  intros Ho. split; [apply Z.div_pos; unfold BSIZE; lia|].
  apply Z.div_lt_upper_bound; unfold BSIZE, MAXFILE, NDIRECT, NINDIRECT in *; lia.
Qed.

(** Blocks of the file before are blocks of it after. *)
Lemma owns_mono v l v' l' b :
  (forall bn, 0 <= bn < MAXFILE -> blk v l bn <> 0 -> blk v' l' bn = blk v l bn) ->
  (ind l <> 0 -> ind l' = ind l) -> owns v l b -> owns v' l' b.
Proof.
  intros Hb Hi [Hnz [->|(bn & Hbn & ->)]]; split; try done.
  - left. symmetry. by apply Hi.
  - right. exists bn. split; [done|]. symmetry. by apply Hb.
Qed.

Lemma wrote_nil v l off : wrote v l v l off [].
Proof. split; simpl; auto; intros; try lia. rewrite decide_False by lia. done. Qed.

Lemma wrote_app v l v1 l1 v2 l2 off bs cs :
  0 <= off -> off + Z.of_nat (length bs + length cs) <= MAXFILE * BSIZE ->
  wrote v l v1 l1 off bs -> wrote v1 l1 v2 l2 (off + Z.of_nat (length bs)) cs -> wrote v l v2 l2 off (bs ++ cs).
Proof.
  intros Hoff Hmax [A1 A2 A3 A4 A5 A6 A7 A8] [B1 B2 B3 B4 B5 B6 B7 B8]. split; rewrite ?length_app.
  - intros o Ho. rewrite B1, A1 by done. unfold byte_at.
    repeat case_decide; try lia; try done.
    + rewrite lookup_app_r by lia. do 2 f_equal. lia.
    + rewrite lookup_app_l by lia. done.
  - intros o Ho. destruct (decide (off + Z.of_nat (length bs) <= o)); [apply B2; lia|].
    assert (0 <= o / BSIZE < MAXFILE) by (apply div_max; lia).
    rewrite B3; [apply A2; lia|done|apply A2; lia].
  - intros bn Hbn Hnz. rewrite B3, A3; try done. by rewrite A3.
  - intros b Hb Hu Ho. rewrite B4; [by apply A4|done| |].
    + intros Hr. apply A5; auto.
    + intros Ho1. destruct (A7 b Ho1) as [?|[Hr Hn]]; [done|]. rewrite Hu in Hn by done. done.
  - intros b Hb Hu. by apply B5, A5.
  - intros b Hb Hu. destruct (B6 b Hb Hu) as [Hu1|?]; [|by right].
    destruct (A6 b Hb Hu1) as [?|Ho]; [by left|]. right. by apply (owns_mono v1 l1).
  - intros b Ho. destruct (B7 b Ho) as [Ho1|[Hr Hn]]; [by apply A7|]. right. split; [done|].
    destruct (used x v b) eqn:E; [|done]. rewrite A5 in Hn by done. done.
  - intros Hi. rewrite B8, A8; try done. by rewrite A8.
Qed.

(** One round of the loop of [writei]: the position gets its block, and the
    bytes are stored there. *)
Lemma wrote_chunk v l v1 l1 off bs :
  let bn := off / BSIZE in
  let a := blk v1 l1 bn in
  let nv := upd_bytes (Z.to_nat (off mod BSIZE)) bs (v1 a) in
  blocks_ok x v1 -> file_ok x v1 l1 -> grows x v l v1 l1 -> 0 <= off -> a <> 0 ->
  off mod BSIZE + Z.of_nat (length bs) <= BSIZE -> off < MAXFILE * BSIZE ->
  blocks_ok x (fupd v1 a nv) /\ file_ok x (fupd v1 a nv) l1 /\ wrote v l (fupd v1 a nv) l1 off bs.
Proof using Hg.
  intros bn a nv Hok Hf Hgr Hoff Ha Hfit Hmax.
  pose proof (div_max off ltac:(lia)) as Hbn. fold bn in Hbn.
  pose proof (Z.mod_pos_bound off BSIZE ltac:(unfold BSIZE; lia)) as Hmod.
  pose proof (Z.div_mod off BSIZE ltac:(unfold BSIZE; lia)) as Hdm. fold bn in Hdm.
  pose proof (fo_blk _ _ _ Hf bn Hbn Ha) as [Hlive Hni]. fold a in Hlive, Hni.
  assert (length (v1 a) = Z.to_nat BSIZE) as Hva by (apply (bo_len _ _ Hok), (live_range x Hg v1); done).
  assert (length nv = Z.to_nat BSIZE) as Hnv by (unfold nv; rewrite length_upd_bytes; lia).
  destruct (write_block v1 l1 bn a nv Hok Hf Hbn eq_refl Ha Hnv) as (Hok' & Hf' & Hblk & Hused & Hfb).
  destruct Hgr as [G1 G2 G3 G4 G5 G6 G7]. split; [done|]. split; [done|]. set (w := fupd v1 a nv) in *.
  assert (forall b, owns w l1 b <-> owns v1 l1 b) as Hown.
  { intros b. unfold owns. by setoid_rewrite Hblk. }
  assert (forall o, off <= o < off + Z.of_nat (length bs) -> o / BSIZE = bn /\ o mod BSIZE = off mod BSIZE + (o - off)) as Hin.
  { intros o Ho. split; symmetry; [apply (Z.div_unique _ _ _ (off mod BSIZE + (o - off)))|apply (Z.mod_unique _ _ bn)]; unfold BSIZE in *; lia. }
  split.
  - intros o Ho. unfold fbyte. pose proof (div_max o Ho) as Hob. rewrite Hfb by done.
    assert (fblock v1 l1 (o / BSIZE) = fblock v l (o / BSIZE)) as Eold by by apply G2.
    case_decide as Hob'.
    + assert (fblock v1 l1 bn = v1 a) as Ev1 by (unfold fblock; fold a; by destruct (Z.eqb_spec a 0)).
      pose proof (Z.mod_pos_bound o BSIZE ltac:(unfold BSIZE; lia)) as Hom.
      pose proof (Z.div_mod o BSIZE ltac:(unfold BSIZE; lia)) as Hodm.
      unfold nv, byte_at. rewrite lookup_upd_bytes by lia.
      destruct (decide (off <= o < off + Z.of_nat (length bs))) as [Hr|Hr].
      * destruct (Hin o Hr) as [_ E]. rewrite decide_True by lia. do 2 f_equal. lia.
      * rewrite decide_False by (rewrite Hob' in Hodm; lia). rewrite <-Eold, Hob', Ev1. done.
    + rewrite Eold. rewrite decide_False; [done|]. intros Hr. destruct (Hin o Hr). done.
  - intros o Ho. destruct (Hin o Ho) as [-> _]. by rewrite Hblk.
  - intros k Hk Hnz. rewrite Hblk. by apply G1.
  - intros b Hb Hu Ho. unfold w. rewrite fupd_ne.
    + apply G3; [done|done|]. intros ->. destruct (decide (ind l = 0)) as [E|E]; [done|].
      exfalso. apply Ho. split; [done|by left].
    + intros ->. destruct (G7 a) as [?|[Hr Hn]]; [split; [done|right; by exists bn]|done|].
      rewrite Hu in Hn by done. done.
  - intros b Hb Hu. rewrite Hused by done. by apply G4.
  - intros b Hb. rewrite Hused by done. intros Hu. destruct (G5 b Hb Hu); [by left|right]. by apply Hown.
  - intros b Ho. apply G7. by apply Hown.
  - done.
Qed.

(** ** Writing *)

(** A source of the bytes [bs]; [P] holds of the memory it lies in. *)
Definition source (user : bool) (src : Z) (bs : bytes) (P : bytes -> C -> Prop) : Prop :=
  forall k m vs t Q, P (kbuf vs) (umem vs) -> 0 <= k -> 0 <= m -> k + m <= Z.of_nat (length bs) ->
    (forall vs', same_fs vs vs' -> P (kbuf vs') (umem vs') ->
       Q (sub_bytes (Z.to_nat k) (Z.to_nat m) bs, 0) vs' t) ->
    wp (either_copyin user (src + k) m) Q vs t.

(** The kernel object of the caller. *)
Lemma kernel_source src bs k0 :
  0 <= src -> sub_bytes (Z.to_nat src) (length bs) k0 = bs -> source false src bs (fun k _ => k = k0).
Proof.
  intros Hs Hbs k m vs t Q Hk Hk0 Hm Hle HQ. unfold either_copyin. apply wp_bind, wp_getv, wp_ret.
  rewrite Hk. replace (sub_bytes (Z.to_nat (src + k)) (Z.to_nat m) k0) with (sub_bytes (Z.to_nat k) (Z.to_nat m) bs);
    [apply HQ; [by destruct vs|done]|].
  rewrite <-Hbs. unfold sub_bytes. rewrite Z2Nat.inj_add by lia. rewrite <-drop_drop.
  rewrite skipn_firstn_comm, take_take. f_equal. lia.
Qed.

Lemma same_fs_refl (vs : fvars C) : same_fs vs vs.
Proof. by destruct vs. Qed.

Lemma wp_writei_loop k fuel i ip user src off n tot bs P Q (vs : fvars C) t :
  sb vs = x -> icache vs !! i = Some ip -> i_dev ip = ROOTDEV -> idle t ->
  blocks_ok x (t_view t) -> file_ok x (t_view t) (i_addrs ip) ->
  source user src bs P -> P (kbuf vs) (umem vs) ->
  0 <= tot <= n -> n <= Z.of_nat (length bs) -> 0 <= off -> off + (n - tot) <= MAXFILE * BSIZE ->
  (tot < n -> off mod BSIZE + (n - tot) <= BSIZE * Z.of_nat k) -> (k < fuel)%nat ->
  (6 * k <= t_budget t)%nat -> nfree x (t_view t) (2 * k) ->
  (forall vs' l' w nb, (nb <= 6 * k)%nat ->
     same_fs (set_icache (<[i := with_addrs l' ip]> (icache vs)) vs) vs' -> P (kbuf vs') (umem vs') ->
     blocks_ok x w -> file_ok x w l' ->
     wrote (t_view t) (i_addrs ip) w l' off (sub_bytes (Z.to_nat tot) (Z.to_nat (n - tot)) bs) ->
     Q (off + (n - tot)) vs' (with_view w nb t)) ->
  wp (writei_loop fuel i user (src + tot) off n tot) Q vs t.
Proof using Hg.
  pose proof (eq_refl : BSIZE = 1024) as HB.
  revert fuel ip off tot vs t. induction k as [|k IH];
    intros fuel ip off tot vs t Hsb Hi Hd Hid Hok Hf Hsrc HP Htot Hn Hoff Hmax Hk Hfuel Hbud Hnf HQ;
    destruct fuel as [|fuel]; [lia| |lia|]; cbn [writei_loop]; destruct (Z.ltb_spec tot n) as [Hlt|Hge].
  - pose proof (Z.mod_pos_bound off BSIZE ltac:(lia)). lia.
  - apply wp_ret. rewrite <-(with_view_id t). replace off with (off + (n - tot)) at 1 by lia.
    apply (HQ vs (i_addrs ip)); try done; try lia; [by rewrite set_addrs_id; [apply same_fs_refl|]|].
    replace (n - tot) with 0 by lia. apply wrote_nil.
  - pose proof (Z.mod_pos_bound off BSIZE ltac:(lia)) as Hmod. pose proof (Z.div_mod off BSIZE ltac:(lia)) as Hdm.
    set (v := t_view t) in *. set (l := i_addrs ip) in *.
    assert (0 <= off / BSIZE < MAXFILE) as Hbn by (apply div_max; lia).
    apply wp_bind, (wp_bmap x Hg i ip); try done; [lia|apply (nfree_weaken _ _ (2 * Datatypes.S k)); [lia|done]|].
    fold v l. intros a l1 w1 n1 Hn1 Hok1 Hf1 Hgr1 Ha Hanz Hnf1.
    set (vs1 := set_icache (<[i := with_addrs l1 ip]> (icache vs)) vs).
    assert (icache vs1 !! i = Some (with_addrs l1 ip)) as Hi1 by (apply list_lookup_insert_eq; by eapply lookup_lt_Some).
    apply wp_bind, (wp_get_ino i (with_addrs l1 ip)); [done|].
    assert (live x w1 a) as Hlive by (subst a; by apply (fo_blk _ _ _ Hf1)).
    pose proof (live_range x Hg _ _ Hlive) as Har.
    assert (idle (with_view w1 n1 t)) as Hid1 by exact Hid.
    apply wp_read; [done|by apply (idle_can_read x Hg)|]. intros h. cbv zeta. cbn [t_view with_view].
    set (m := Z.min (n - tot) (BSIZE - off mod BSIZE)).
    apply wp_bind. apply Hsrc; [done|lia|lia|lia|]. intros vs2 Hs2 HP2.
    set (got := sub_bytes (Z.to_nat tot) (Z.to_nat m) bs).
    assert (length got = Z.to_nat m) as Hgot by (apply length_sub_bytes; lia).
    cbn [Z.eqb]. apply wp_put_block; [apply Hid|destruct Hid as [Hh _]; cbn [t_held with_view]; by rewrite Hh|cbn [t_budget with_view]; lia|].
    rewrite with_view_view. cbn [t_view with_view].
    destruct (wrote_chunk v l w1 l1 off got) as (Hok2 & Hf2 & Hw2); try done; [congruence|lia|lia|].
    rewrite Ha in Hok2, Hf2, Hw2. set (w2 := fupd w1 a _) in *.
    replace (src + tot + m) with (src + (tot + m)) by lia.
    assert (sb vs2 = x /\ icache vs2 = <[i := with_addrs l1 ip]> (icache vs)) as [Hsb2 Hic2] by (by rewrite Hs2).
    apply (IH fuel (with_addrs l1 ip)); try done; try lia.
    + by rewrite Hic2.
    + intros Hlt'. specialize (Hk Hlt). assert ((off + m) mod BSIZE = 0) as ->; [|lia].
      symmetry. apply (Z.mod_unique _ _ (off / BSIZE + 1)); lia.
    + cbn [t_budget with_view]. lia.
    + assert (nfree x w1 (2 * k)) as (fl & Hnd & Hlen & Hfl).
      { apply Hnf1. replace (2 * k + 2)%nat with (2 * Datatypes.S k)%nat by lia. done. }
      exists fl. split; [done|]. split; [done|]. eapply Forall_impl; [exact Hfl|]. intros b [Hb Hu].
      split; [done|]. unfold w2. cbn [t_view with_view]. rewrite (used_data x Hg); [done|by destruct Hlive as [[? ?] _]|done].
    + intros vs' l' w nb Hnb Hsame HP' Hok' Hf' Hw'. cbn [t_view with_view i_addrs with_addrs] in Hw'.
      rewrite with_view_view. replace (off + m + (n - (tot + m))) with (off + (n - tot)) by lia.
      apply (HQ vs' l'); try done; [lia| |].
      * unfold same_fs in *. rewrite Hsame. cbn [sb icache kbuf umem f_pid f_cpu f_cwd set_icache].
        rewrite Hs2. cbn [sb icache kbuf umem f_pid f_cpu f_cwd set_icache]. unfold vs1. simpl.
        by rewrite list_insert_insert_eq.
      * replace (Z.to_nat (n - tot)) with (Z.to_nat m + Z.to_nat (n - (tot + m)))%nat by lia.
        rewrite sub_bytes_app. fold got. eapply wrote_app; [done| |exact Hw2|].
        -- rewrite Hgot, length_sub_bytes by lia. lia.
        -- rewrite Hgot, Z2Nat.id by lia. replace (Z.to_nat tot + Z.to_nat m)%nat with (Z.to_nat (tot + m)) by lia. exact Hw'.
  - apply wp_ret. rewrite <-(with_view_id t). replace off with (off + (n - tot)) at 1 by lia.
    apply (HQ vs (i_addrs ip)); try done; try lia; [by rewrite set_addrs_id; [apply same_fs_refl|]|].
    replace (n - tot) with 0 by lia. apply wrote_nil.
Qed.

(** ** Inodes on disk *)

Lemma get_put_le_mod n off z w :
  (off + n <= length w)%nat -> get_le n off (put_le n off z w) = z mod 256 ^ Z.of_nat n.
Proof.
  intros Hl. unfold get_le, put_le. pose proof (sub_upd_same off (le_enc n z) w) as E.
  rewrite length_le_enc in E. rewrite E by done. apply le_dec_enc.
Qed.

Lemma length_words ws : length (words ws) = (4 * length ws)%nat.
Proof. induction ws as [|z ws IH]; [done|]. cbn [words]. rewrite length_app, length_le_enc, IH. simpl. lia. Qed.

Lemma words_slot ws k z : ws !! k = Some z -> sub_bytes (4 * k) 4 (words ws) = le_enc 4 z.
Proof.
  revert k. induction ws as [|y ws IH]; intros k Hk; [done|]. cbn [words]. unfold sub_bytes.
  destruct k as [|k].
  - injection Hk as ->. rewrite Nat.mul_0_r, drop_0. change 4%nat with (length (le_enc 4 z)) at 1. apply take_app_length.
  - simpl in Hk. specialize (IH k Hk). unfold sub_bytes in IH. rewrite <-IH.
    replace (4 * Datatypes.S k)%nat with (length (le_enc 4 y) + 4 * k)%nat by (rewrite length_le_enc; lia).
    rewrite <-drop_drop, drop_app_length. done.
Qed.

Lemma sub_upd_inside off k n b w :
  (off + length b <= length w)%nat -> (k + n <= length b)%nat ->
  sub_bytes (off + k) n (upd_bytes off b w) = sub_bytes k n b.
Proof.
  intros Hw Hb. apply list_eq. intros j. rewrite !lookup_sub_bytes. case_decide; [|done].
  rewrite lookup_upd_bytes by done. rewrite decide_True by lia. f_equal. lia.
Qed.

Lemma words_get_put off ws w n :
  length ws = n -> (off + 4 * n <= length w)%nat -> Forall (fun z => 0 <= z < 2 ^ 32) ws ->
  words_get n off (upd_bytes off (words ws) w) = ws.
Proof.
  intros <- Hw Hr. apply list_eq. intros k. unfold words_get. rewrite list_lookup_fmap.
  destruct (decide (k < length ws)%nat) as [Hk|Hk].
  - rewrite lookup_seq_lt by done. cbn [fmap option_fmap option_map Nat.add]. destruct (lookup_lt_is_Some_2 ws k Hk) as [z Hz]. rewrite Hz. f_equal.
    unfold get_le. rewrite sub_upd_inside by (rewrite length_words; lia). rewrite (words_slot ws k z Hz), le_dec_enc.
    apply Z.mod_small. rewrite Forall_lookup in Hr. apply (Hr k z Hz).
  - rewrite lookup_seq_ge by lia. symmetry. apply lookup_ge_None_2. lia.
Qed.

Definition dinode_ok (d : dinode) : Prop :=
  (forall z, z ∈ [d_type d; d_major d; d_minor d; d_nlink d] -> - 2 ^ 15 <= z < 2 ^ 15) /\
  0 <= d_size d < 2 ^ 32 /\ length (d_addrs d) = 13%nat /\ Forall (fun z => 0 <= z < 2 ^ 32) (d_addrs d).

(** Lengths and positions in a block that was changed by stores. *)
Ltac plen := repeat (rewrite length_put_le by plen); rewrite ?length_words; lia.

Lemma s16_mod z : - 2 ^ 15 <= z < 2 ^ 15 -> s16 (z mod 256 ^ Z.of_nat 2) = z.
Proof.
  intros Hz. unfold s16, wrap. change (256 ^ Z.of_nat 2) with (2 ^ 16).
  rewrite Zplus_mod_idemp_l, Z.mod_small by lia. lia.
Qed.

Lemma length_dinode_put o d w :
  (o + 64 <= length w)%nat -> length (d_addrs d) = 13%nat -> length (dinode_put o d w) = length w.
Proof.
  intros Hw Hl. unfold dinode_put. rewrite length_upd_bytes; plen.
Qed.

(** An inode written to a block is the one that is read there. *)
Lemma dinode_get_put o d w : (o + 64 <= length w)%nat -> dinode_ok d -> dinode_get o (dinode_put o d w) = d.
Proof.
  clear Hg.
  intros Hw (Hs & Hsz & Hl & Hr). destruct d as [ty ma mi nl sz ad]. simpl in *.
  unfold dinode_get, dinode_put. cbn [d_type d_major d_minor d_nlink d_size d_addrs].
  assert (forall n k w', (k + n <= o + 12)%nat -> length w' = length w ->
    get_le n k (upd_bytes (o + 12) (words ad) w') = get_le n k w') as Hout.
  { intros n k w' Hk Hlen. unfold get_le. rewrite sub_upd_disjoint; rewrite ?length_words, ?Hl; [done|lia|lia]. }
  rewrite words_get_put by (done || plen).
  f_equal.
  all: rewrite Hout by plen.
  all: repeat (rewrite get_put_le_ne by plen).
  all: rewrite get_put_le_mod by plen.
  1-4: apply s16_mod, Hs; set_solver.
  apply Z.mod_small. exact Hsz.
Qed.

Lemma dinode_get_put_ne o o' d w :
  (o + 64 <= length w)%nat -> (o' + 64 <= o \/ o + 64 <= o')%nat -> length (d_addrs d) = 13%nat ->
  dinode_get o' (dinode_put o d w) = dinode_get o' w.
Proof.
  intros Hw Hd Hl. unfold dinode_put.
  assert (forall n k b p w', (p + length b <= length w')%nat -> (k + n <= p \/ p + length b <= k)%nat ->
    get_le n k (upd_bytes p b w') = get_le n k w') as Hout.
  { intros n k b p w' H1 H2. unfold get_le. by rewrite sub_upd_disjoint. }
  assert (forall n k, (o' <= k)%nat -> (k + n <= o' + 64)%nat -> get_le n k (dinode_put o d w) = get_le n k w) as E.
  { intros n k Hk1 Hk2. unfold dinode_put. rewrite Hout by plen.
    repeat (rewrite get_put_le_ne by plen). done. }
  change (upd_bytes _ _ _) with (dinode_put o d w). unfold dinode_get, words_get. f_equal; try (rewrite E by lia; done).
  apply list_fmap_ext. intros j k Hj. apply lookup_seq in Hj as [-> Hj]. apply E; lia.
Qed.

(** The inode table. *)
Definition dino v (inum : Z) : dinode := dinode_get (ipos inum) (v (IBLOCK inum x)).

Lemma IBLOCK_range inum : 0 <= inum < sb_ninodes x -> sb_inodestart x <= IBLOCK inum x < sb_bmapstart x.
Proof using Hg.
  intros Hi. destruct Hg as [Hs Hn Hino Hbm Hd _]. unfold IBLOCK.
  assert (0 <= inum / IPB) by (apply Z.div_pos; unfold IPB; lia).
  assert (inum / IPB <= sb_ninodes x / IPB) by (apply Z.div_le_mono; unfold IPB; lia).
  assert (0 <= sb_size x / BPB) by (apply Z.div_pos; unfold BPB, BSIZE; lia).
  unfold data_start, BPB, BSIZE in *. rewrite u32_small; lia.
Qed.

Lemma ipos_fit inum : (ipos inum + 64 <= Z.to_nat BSIZE)%nat.
Proof. unfold ipos, DINODE, IPB, BSIZE. pose proof (Z.mod_pos_bound inum 16). lia. Qed.

Lemma ipos_ne i j :
  0 <= i < sb_ninodes x -> 0 <= j < sb_ninodes x -> IBLOCK i x = IBLOCK j x -> i <> j ->
  (ipos i + 64 <= ipos j \/ ipos j + 64 <= ipos i)%nat.
Proof using Hg.
  intros Hi Hj E Hne. pose proof (IBLOCK_range i Hi). pose proof (IBLOCK_range j Hj).
  assert (i / IPB = j / IPB) as Ed.
  { destruct Hg as [Hs Hn Hino Hbm Hd _]. unfold IBLOCK in *.
    assert (0 <= i / IPB <= sb_ninodes x / IPB) by (split; [apply Z.div_pos|apply Z.div_le_mono]; unfold IPB; lia).
    assert (0 <= j / IPB <= sb_ninodes x / IPB) by (split; [apply Z.div_pos|apply Z.div_le_mono]; unfold IPB; lia).
    assert (0 <= sb_size x / BPB) by (apply Z.div_pos; unfold BPB, BSIZE; lia).
    unfold data_start, BPB, BSIZE in *. rewrite !u32_small in E by lia. lia. }
  unfold ipos, DINODE. pose proof (Z.mod_pos_bound i IPB ltac:(unfold IPB; lia)). pose proof (Z.mod_pos_bound j IPB ltac:(unfold IPB; lia)).
  pose proof (Z.div_mod i IPB ltac:(unfold IPB; lia)). pose proof (Z.div_mod j IPB ltac:(unfold IPB; lia)). unfold IPB in *. lia.
Qed.

(** A change of an inode block is no change of bitmap or files. *)
Lemma meta_update v b nv :
  blocks_ok x v -> sb_inodestart x <= b < sb_bmapstart x -> length nv = Z.to_nat BSIZE ->
  let w := fupd v b nv in
  blocks_ok x w /\ (forall c, 0 <= c < sb_size x -> used x w c = used x v c) /\
  (forall l, file_ok x v l -> file_ok x w l) /\
  (forall l k, file_ok x v l -> blk w l k = blk v l k) /\
  (forall l k, file_ok x v l -> 0 <= k < MAXFILE -> fblock w l k = fblock v l k).
Proof using Hg.
  intros Hok Hb Hlen w. pose proof (layout_order x Hg) as Ho. pose proof (g_data _ Hg) as Hgd.
  assert (forall c, 0 <= c < sb_size x -> used x w c = used x v c) as Hused.
  { intros c Hc. unfold used, w. rewrite fupd_ne; [done|]. pose proof (BBLOCK_range x Hg c Hc). lia. }
  assert (forall c, data_block x c -> w c = v c) as Hsame by (intros c [? ?]; apply fupd_ne; lia).
  assert (forall c, live x v c -> live x w c) as Hlive.
  { intros c [[? ?] ?]. split; [done|]. rewrite Hused by lia. done. }
  assert (forall l k, file_ok x v l -> blk w l k = blk v l k) as Hblk.
  { intros l k Hf. unfold blk. destruct (k <? NDIRECT); [done|]. destruct (Z.eqb_spec (ind l) 0) as [|Hi]; [done|].
    rewrite Hsame; [done|]. by apply (fo_ind _ _ _ Hf). }
  split; [|split; [done|split; [|split; [done|]]]].
  - split.
    + intros c Hc. unfold w. destruct (decide (c = b)) as [->|]; [by rewrite fupd_eq|].
      rewrite fupd_ne by done. by apply (bo_len _ _ Hok).
    + intros c Hc. rewrite Hused by lia. by apply (bo_meta _ _ Hok).
  - intros l Hf. pose proof Hf as [Hl Hfb Hfi Hinj]. split; [done| | |].
    + intros k Hk. rewrite Hblk by done. intros Hnz. destruct (Hfb k Hk Hnz). auto.
    + auto.
    + intros k k' Hk Hk'. rewrite !Hblk by done. by apply Hinj.
  - intros l k Hf Hk. unfold fblock. rewrite Hblk by done. destruct (Z.eqb_spec (blk v l k) 0) as [|Hnz]; [done|].
    apply Hsame. by apply (fo_blk _ _ _ Hf).
Qed.

Definition inode_ok (ip : inode) : Prop :=
  i_dev ip = ROOTDEV /\ 0 <= i_inum ip < sb_ninodes x /\ dinode_ok (dinode_of ip).

Definition iupdate_view v (ip : inode) : Z -> bytes :=
  fupd v (IBLOCK (i_inum ip) x) (dinode_put (ipos (i_inum ip)) (dinode_of ip) (v (IBLOCK (i_inum ip) x))).

Lemma wp_iupdate i ip Q (vs : fvars C) t :
  sb vs = x -> icache vs !! i = Some ip -> inode_ok ip -> idle t -> (1 <= t_budget t)%nat ->
  Q tt vs (with_view (iupdate_view (t_view t) ip) 1 t) -> wp (iupdate i) Q vs t.
Proof using Hg.
  intros Hsb Hi (Hd & Hin & _) Hid Hbud HQ. apply wp_bind, (wp_get_ino i ip); [done|].
  apply wp_bind, wp_getv. rewrite Hsb. pose proof (IBLOCK_range _ Hin) as Hr. pose proof (layout_order x Hg).
  pose proof (g_data _ Hg). apply wp_read; [done|apply (idle_can_read x Hg); [done|lia]|]. intros h.
  apply wp_put_block; [apply Hid|destruct Hid as [-> _]; done|lia|]. by apply wp_ret.
Qed.

(** After [iupdate] the inode on disk is the one in memory; the others and all
    other blocks are unchanged. *)
Lemma iupdate_view_ok v ip :
  blocks_ok x v -> inode_ok ip ->
  let w := iupdate_view v ip in
  dino w (i_inum ip) = dinode_of ip /\
  (forall j, 0 <= j < sb_ninodes x -> j <> i_inum ip -> dino w j = dino v j) /\
  (forall b, ~ (sb_inodestart x <= b < sb_bmapstart x) -> w b = v b) /\
  sb_inodestart x <= IBLOCK (i_inum ip) x < sb_bmapstart x /\
  length (dinode_put (ipos (i_inum ip)) (dinode_of ip) (v (IBLOCK (i_inum ip) x))) = Z.to_nat BSIZE.
Proof using Hg.
  intros Hok (Hd & Hin & Hdi) w. pose proof (IBLOCK_range _ Hin) as Hr. pose proof (layout_order x Hg) as Ho.
  pose proof (g_data _ Hg). pose proof (ipos_fit (i_inum ip)) as Hfit.
  assert (length (v (IBLOCK (i_inum ip) x)) = Z.to_nat BSIZE) as Hlen by (apply (bo_len _ _ Hok); lia).
  split; [|split; [|split; [|split]]].
  - unfold dino, w, iupdate_view. rewrite fupd_eq. apply dinode_get_put; [lia|done].
  - intros j Hj Hne. unfold dino, w, iupdate_view. destruct (decide (IBLOCK j x = IBLOCK (i_inum ip) x)) as [E|E].
    + rewrite E, fupd_eq. apply dinode_get_put_ne; [lia| |apply Hdi].
      destruct (ipos_ne j (i_inum ip)); auto.
    + by rewrite fupd_ne.
  - intros b Hb. apply fupd_ne. lia.
  - done.
  - rewrite length_dinode_put; [done|lia|apply Hdi].
Qed.

Lemma file_ok_addrs v l : file_ok x v l -> Forall (fun z => 0 <= z < 2 ^ 32) l.
Proof using Hg.
  intros Hf. pose proof Hf as [Hl Hfb Hfi _]. apply Forall_lookup. intros k z Hk.
  assert (nth_addr l (Z.of_nat k) = z) as Ez by (unfold nth_addr; by rewrite Nat2Z.id, Hk).
  destruct (decide (z = 0)) as [->|Hnz]; [lia|].
  assert (live x v z) as [[H1 H2] _].
  { pose proof (lookup_lt_Some _ _ _ Hk). destruct (decide (k = 12%nat)) as [->|Hne].
    - rewrite <-Ez. apply Hfi. unfold ind, NDIRECT. change (Z.of_nat 12) with 12 in Ez. congruence.
    - assert (blk v l (Z.of_nat k) = z) as Eb.
      { unfold blk. destruct (Z.ltb_spec (Z.of_nat k) NDIRECT); [done|unfold NDIRECT in *; lia]. }
      rewrite <-Eb. apply Hfb; [unfold MAXFILE, NDIRECT, NINDIRECT; lia|congruence]. }
  pose proof (g_size _ Hg). pose proof (layout_order x Hg). unfold BPB, BSIZE in *. lia.
Qed.

(** The effect of a successful [writei] of [bs] at [off]: the contents, the
    inode on disk, and what stays as it was. *)
Record written v (ip : inode) w (ip' : inode) (off : Z) (bs : bytes) : Prop := {
  wn_blocks : blocks_ok x w;
  wn_file : file_ok x w (i_addrs ip');
  wn_holes : no_holes w ip';
  wn_byte : forall o, 0 <= o < MAXFILE * BSIZE ->
    fbyte w (i_addrs ip') o =
    if decide (off <= o < off + Z.of_nat (length bs)) then byte_at bs (o - off) else fbyte v (i_addrs ip) o;
  wn_dino : dino w (i_inum ip) = dinode_of ip';
  wn_dinos : forall j, 0 <= j < sb_ninodes x -> j <> i_inum ip -> dino w j = dino v j;
  wn_frame : forall b, data_block x b -> used x v b = true -> ~ owns v (i_addrs ip) b -> w b = v b /\ used x w b = true;
  wn_own : forall b, owns w (i_addrs ip') b -> owns v (i_addrs ip) b \/ 0 <= b < sb_size x /\ used x v b = false }.

Lemma written_of v ip w0 l' off bs :
  let ip' := with_size (Z.max (i_size ip) (off + Z.of_nat (length bs))) (with_addrs l' ip) in
  blocks_ok x v -> inode_ok ip -> file_ok x v (i_addrs ip) -> no_holes v ip ->
  0 <= off <= i_size ip -> off + Z.of_nat (length bs) <= MAXFILE * BSIZE ->
  blocks_ok x w0 -> file_ok x w0 l' -> wrote v (i_addrs ip) w0 l' off bs ->
  inode_ok ip' /\ written v ip (iupdate_view w0 ip') ip' off bs.
Proof using Hg.
  intros ip' Hok Hino Hf [Hsz Hnh] Hoff Hmax Hok0 Hf0 [W1 W2 W3 W4 W5 W6 W7 W8].
  pose proof Hino as (Hd & Hin & Hsh & Hs32 & Hlen & Hadr).
  assert (inode_ok ip') as Hino'.
  { split; [done|]. split; [done|]. split; [exact Hsh|]. cbn [d_size d_addrs dinode_of ip' with_size with_addrs i_size i_addrs].
    split; [unfold MAXFILE, NDIRECT, NINDIRECT, BSIZE in *; lia|]. split; [apply (fo_len _ _ _ Hf0)|by apply (file_ok_addrs w0)]. }
  split; [done|]. destruct (iupdate_view_ok w0 ip' Hok0 Hino') as (D1 & D2 & D3 & D4 & D5).
  destruct (meta_update w0 _ _ Hok0 D4 D5) as (M1 & M2 & M3 & M4 & M5).
  change (i_inum ip') with (i_inum ip) in *. change (fupd w0 _ _) with (iupdate_view w0 ip') in *.
  set (w := iupdate_view w0 ip') in *. pose proof (layout_order x Hg) as Ho.
  split; cbn [i_addrs i_size ip' with_size with_addrs].
  - done.
  - by apply M3.
  - split; [cbn; lia|]. intros o Hr. change (i_addrs ip') with l'.
    change (i_size ip') with (Z.max (i_size ip) (off + Z.of_nat (length bs))) in Hr. rewrite M4 by done.
    destruct (decide (off <= o < off + Z.of_nat (length bs))) as [Hin'|Hout]; [by apply W2|].
    assert (0 <= o < i_size ip) as Hr' by lia. rewrite W3; [by apply Hnh|apply div_max; lia|by apply Hnh].
  - intros o Hr. rewrite <-W1 by done. unfold fbyte. rewrite M5; [done|done|by apply div_max].
  - done.
  - intros j Hj Hne. rewrite D2 by done. unfold dino. f_equal. pose proof (IBLOCK_range j Hj) as Hj'.
    assert (~ owns v (i_addrs ip) (IBLOCK j x)) as Hno.
    { intros [Hnz [E|(bn & Hbn & E)]].
      - destruct (fo_ind _ _ _ Hf) as [[? ?] _]; [congruence|]. lia.
      - destruct (fo_blk _ _ _ Hf bn Hbn) as [[[? ?] _] _]; [congruence|]. lia. }
    apply W4; [unfold is_bmap; lia| |done]. intros _. apply (bo_meta _ _ Hok). lia.
  - intros b [Hb1 Hb2] Hu Hno. rewrite D3 by lia. split; [apply W4; [unfold is_bmap; lia|done|done]|].
    rewrite M2 by lia. apply W5; [lia|done].
  - intros b [Hnz Hb]. apply W7. split; [done|]. destruct Hb as [|(bn & Hbn & ->)]; [by left|].
    right. exists bn. split; [done|]. by apply M4.
Qed.

(** [writei] of [n > 0] bytes; [k] bounds the number of blocks touched. *)
Lemma wp_writei k i ip user src off n bs P Q (vs : fvars C) t :
  sb vs = x -> icache vs !! i = Some ip -> inode_ok ip -> idle t ->
  blocks_ok x (t_view t) -> file_ok x (t_view t) (i_addrs ip) -> no_holes (t_view t) ip ->
  source user src bs P -> P (kbuf vs) (umem vs) ->
  n = Z.of_nat (length bs) -> 0 < n -> 0 <= off <= i_size ip -> off + n <= MAXFILE * BSIZE ->
  off mod BSIZE + n <= BSIZE * Z.of_nat k -> (k < io_fuel n)%nat ->
  (6 * k + 1 <= t_budget t)%nat -> nfree x (t_view t) (2 * k) ->
  (forall vs' ip' w nb, (nb <= 6 * k + 1)%nat -> i_size ip' = Z.max (i_size ip) (off + n) ->
     ip' = with_size (i_size ip') (with_addrs (i_addrs ip') ip) -> inode_ok ip' ->
     same_fs (set_icache (<[i := ip']> (icache vs)) vs) vs' -> P (kbuf vs') (umem vs') ->
     written (t_view t) ip w ip' off bs -> Q n vs' (with_view w nb t)) ->
  wp (writei i user src off n) Q vs t.
Proof using Hg.
  intros Hsb Hi Hino Hid Hok Hf Hnh Hsrc HP Hn Hpos Hoff Hmax Hk Hfuel Hbud Hnf HQ.
  apply wp_bind, (wp_get_ino i ip); [done|].
  assert (MAXFILE * BSIZE < 2 ^ 31) as HM by (unfold MAXFILE, NDIRECT, NINDIRECT, BSIZE; lia).
  rewrite u32_small by lia.
  destruct (Z.ltb_spec (i_size ip) off); [lia|]. destruct (Z.ltb_spec (off + n) off); [lia|]. cbn [orb].
  destruct (Z.ltb_spec (MAXFILE * BSIZE) (off + n)); [lia|].
  apply wp_bind. rewrite <-(Z.add_0_r src).
  apply (wp_writei_loop k _ i ip user src off n 0 bs P); try done; try lia; [apply Hino|].
  intros vs1 l' w0 nb1 Hnb1 Hs1 HP1 Hok0 Hf0 Hw0. rewrite Z.sub_0_r in Hw0 |- *.
  assert (sub_bytes (Z.to_nat 0) (Z.to_nat n) bs = bs) as Ebs.
  { unfold sub_bytes. rewrite drop_0. apply take_ge. lia. }
  rewrite Ebs in Hw0.
  destruct (written_of (t_view t) ip w0 l' off bs) as [Hino' Hwr]; try done; [lia|].
  rewrite <-Hn in Hino', Hwr. set (ip' := with_size _ _) in *.
  destruct (Z.ltb_spec 0 n); [|lia]. cbn [when].
  assert (icache vs1 !! i = Some (with_addrs l' ip)) as Hi1.
  { rewrite Hs1. apply list_lookup_insert_eq. by eapply lookup_lt_Some. }
  apply wp_bind, wp_bind, (wp_mod_ino i (with_addrs l' ip)); [done|].
  assert ((if i_size (with_addrs l' ip) <? off + n then with_size (off + n) (with_addrs l' ip) else with_addrs l' ip) = ip') as ->.
  { unfold ip'. cbn [i_size with_addrs]. destruct (Z.ltb_spec (i_size ip) (off + n)).
    - f_equal. lia.
    - rewrite Z.max_l by lia. by destruct ip. }
  set (vs2 := set_icache (<[i := ip']> (icache vs1)) vs1).
  assert (sb vs2 = x) as Hsb2 by (unfold vs2; cbn [sb set_icache]; rewrite Hs1; exact Hsb).
  apply (wp_iupdate i ip'); try done.
  { unfold vs2. apply list_lookup_insert_eq. by eapply lookup_lt_Some. }
  { cbn [t_budget with_view]. lia. }
  apply wp_ret. rewrite with_view_view. apply (HQ vs2 ip'); try done; [lia|].
  unfold same_fs, vs2. cbn [sb icache kbuf umem f_pid f_cpu f_cwd set_icache]. rewrite Hs1.
  cbn [sb icache kbuf umem f_pid f_cpu f_cwd set_icache]. by rewrite list_insert_insert_eq.
Qed.

(** [writei] of the [n] bytes of the kernel object over bytes of the file, within one
    block: no block is needed. *)
Lemma wp_writei_over i ip off n Q (vs : fvars C) t :
  sb vs = x -> icache vs !! i = Some ip -> inode_ok ip -> idle t ->
  blocks_ok x (t_view t) -> file_ok x (t_view t) (i_addrs ip) -> no_holes (t_view t) ip ->
  n = Z.of_nat (length (kbuf vs)) -> 0 < n -> 0 <= off -> off + n <= i_size ip -> off mod BSIZE + n <= BSIZE ->
  (2 <= t_budget t)%nat ->
  (forall w, written (t_view t) ip w ip off (kbuf vs) -> Q n vs (with_view w 2 t)) ->
  wp (writei i false 0 off n) Q vs t.
Proof using Hg.
  intros Hsb Hi Hino Hid Hok Hf Hnh Hn Hpos Hoff Hsize Hfit Hbud HQ. pose proof Hnh as [Hsz Hblk].
  set (bs := kbuf vs) in *. set (v := t_view t) in *. set (l := i_addrs ip) in *.
  assert (MAXFILE * BSIZE < 2 ^ 31) as HM by (unfold MAXFILE, NDIRECT, NINDIRECT, BSIZE; lia).
  assert (0 <= off / BSIZE < MAXFILE) as Hbn by (apply div_max; lia).
  pose proof (Hblk off ltac:(lia)) as Hnz. fold l in Hnz. pose proof (fo_blk _ _ _ Hf _ Hbn Hnz) as [Hlive _].
  apply wp_bind, (wp_get_ino i ip); [done|]. rewrite u32_small by lia.
  destruct (Z.ltb_spec (i_size ip) off); [lia|]. destruct (Z.ltb_spec (off + n) off); [lia|]. cbn [orb].
  destruct (Z.ltb_spec (MAXFILE * BSIZE) (off + n)); [lia|].
  apply wp_bind. assert (exists f, io_fuel n = Datatypes.S (Datatypes.S f)) as [f ->]
    by (exists (Z.to_nat (n / BSIZE) + 1)%nat; unfold io_fuel; lia).
  cbn [writei_loop]. destruct (Z.ltb_spec 0 n); [|lia].
  apply wp_bind, (wp_bmap_mapped x Hg i ip); try done; [apply Hino|]. fold v l. apply wp_bind, (wp_get_ino i ip); [done|].
  apply wp_read; [apply Hino|apply (idle_can_read x Hg); [done|by apply (live_range x Hg v)]|].
  intros h. cbv zeta. rewrite Z.sub_0_r, Z.min_l by lia.
  apply wp_bind. unfold either_copyin. apply wp_bind, wp_getv, wp_ret.
  assert (sub_bytes (Z.to_nat 0) (Z.to_nat n) (kbuf vs) = bs) as ->.
  { unfold sub_bytes. rewrite drop_0. apply take_ge. subst bs. lia. }
  cbn [Z.eqb]. apply wp_put_block; [apply Hid|destruct Hid as [-> _]; done|lia|].
  destruct (Z.ltb_spec (0 + n) n); [lia|]. apply wp_ret.
  destruct (wrote_chunk v l v l off bs) as (Hok2 & Hf2 & Hw2); try done; [apply grows_refl|lia|lia|].
  set (w0 := fupd v _ _) in *. fold v.
  destruct (written_of v ip w0 l off bs) as [_ Hwr]; try done; try lia.
  replace (Z.max (i_size ip) (off + Z.of_nat (length bs))) with (i_size ip) in Hwr by lia.
  replace (with_size (i_size ip) (with_addrs l ip)) with ip in Hwr by (by destruct ip).
  cbn [when]. apply wp_bind, wp_bind, (wp_mod_ino i ip); [done|].
  destruct (Z.ltb_spec (i_size ip) (off + n)); [lia|].
  rewrite list_insert_id by done. replace (set_icache (icache vs) vs) with vs by (by destruct vs).
  apply (wp_iupdate i ip); try done; [cbn [t_budget with_view]; lia|]. apply wp_ret. rewrite with_view_view. by apply HQ.
Qed.

(** ** Truncating *)

(** The blocks [F] were freed and nothing else changed. *)
Record frees v (F : list Z) v' : Prop := {
  fr_blocks : blocks_ok x v';
  fr_same : forall b, ~ is_bmap x b -> v' b = v b;
  fr_used : forall b, 0 <= b < sb_size x -> used x v' b = used x v b && bool_decide (b ∉ F) }.

Lemma frees_nil v : blocks_ok x v -> frees v [] v.
Proof. intros Hok. split; [done|done|]. intros b _. rewrite bool_decide_true by apply not_elem_of_nil. by rewrite andb_true_r. Qed.

Lemma frees_snoc v F v' b :
  frees v F v' -> data_block x b -> frees v (F ++ [b]) (free_view x v' b).
Proof using Hg.
  intros [H1 H2 H3] Hb. pose proof (layout_order x Hg). assert (0 <= b < sb_size x) as Hr by (destruct Hb; lia). split.
  - by apply (blocks_ok_free x Hg).
  - intros c Hc. rewrite (free_view_same x Hg) by done. by apply H2.
  - intros c Hc. rewrite (used_free x Hg), H3 by done. destruct (Z.eqb_spec b c) as [->|Hne].
    + rewrite (bool_decide_false (c ∉ _)), andb_false_r; [done|]. rewrite elem_of_app, list_elem_of_singleton. tauto.
    + f_equal. apply bool_decide_ext. rewrite elem_of_app, list_elem_of_singleton. naive_solver.
Qed.

Definition same_bufs t t' : Prop := t_held t' = t_held t /\ t_dirty t' = t_dirty t.

(** [bfree], when the bitmap blocks can be logged. *)
Lemma wp_bfree_room B b Q (vs : fvars C) t :
  sb vs = x -> blocks_ok x (t_view t) -> bmap_free x t -> settled t ->
  room B t -> BBLOCK b x ∈ B -> data_block x b -> used x (t_view t) b = true ->
  (forall t', t_view t' = free_view x (t_view t) b -> same_bufs t t' -> room B t' -> Q tt vs t') ->
  wp (bfree ROOTDEV b) Q vs t.
Proof using Hg.
  intros Hsb Hok Hbf Hset Hroom HB Hd Hu HQ. apply wp_bind, wp_getv. rewrite Hsb.
  pose proof (layout_order x Hg).
  pose proof (can_read_bmap x Hg t b Hbf ltac:(destruct Hd; lia)) as Hcr. pose proof Hcr as (_ & Hnone & _).
  apply wp_read; [done|done|]. intros h. unfold used in Hu.
  destruct (bit_free (t_view t (BBLOCK b x)) (b mod BPB)); [done|].
  apply wp_put_logged; try done; [by apply (room_can B)|]. apply wp_ret. apply HQ; [done|done|by apply room_put].
Qed.

Definition nz (ws : list Z) : list Z := filter (fun a => a <> 0) ws.

Definition all_bmap (B : gset Z) : Prop := forall b, 0 <= b < sb_size x -> BBLOCK b x ∈ B.

Section trunc.
Context (B : gset Z) (HB : all_bmap B) (v0 : Z -> bytes).

(** The loop over the entries of the indirect block. *)
Lemma wp_itrunc_indirect ws F Q (vs : fvars C) t :
  sb vs = x -> bmap_free x t -> settled t -> room B t -> frees v0 F (t_view t) ->
  NoDup (F ++ nz ws) -> Forall (live x v0) (nz ws) ->
  (forall t', frees v0 (F ++ nz ws) (t_view t') -> same_bufs t t' -> room B t' -> Q tt vs t') ->
  wp (itrunc_indirect ROOTDEV ws) Q vs t.
Proof using Hg HB.
  revert F t. induction ws as [|a ws IH]; intros F t Hsb Hbf Hset Hroom Hfr Hnd Hlv HQ; cbn [itrunc_indirect].
  - apply wp_ret. apply HQ; [|done|done]. unfold nz. rewrite filter_nil, app_nil_r. done.
  - unfold nz in *. destruct (Z.eqb_spec a 0) as [Ha|Ha]; cbn [negb when]; rewrite filter_cons in Hnd, Hlv, HQ.
    + rewrite decide_False in Hnd, Hlv, HQ by auto. apply wp_bind, wp_ret. by apply (IH F).
    + rewrite decide_True in Hnd, Hlv, HQ by done. apply Forall_cons in Hlv as [[Hda Hua] Hlv].
      pose proof (layout_order x Hg). assert (0 <= a < sb_size x) as Har by (destruct Hda; lia).
      apply NoDup_app in Hnd as (Hnd1 & Hdis & Hnd2). 
      assert (a ∉ F) as HaF by (intros Hin; apply (Hdis a Hin), elem_of_cons; by left).
      apply wp_bind, (wp_bfree_room B); try done; [apply Hfr|by apply HB| |].
      { rewrite (fr_used _ _ _ Hfr) by done. rewrite Hua, bool_decide_true by done. done. }
      intros t1 Hv1 [Hh1 Hd1] Hr1. apply (IH (F ++ [a])); try done.
      * unfold bmap_free. rewrite Hh1. exact Hbf.
      * unfold settled. rewrite Hd1. exact Hset.
      * rewrite Hv1. by apply frees_snoc.
      * rewrite <-app_assoc. apply NoDup_app. done.
      * intros t' Hfr' [Hh' Hd'] Hr'. rewrite <-app_assoc in Hfr'. apply HQ; [done| |done].
        split; congruence.
Qed.

(** The loop over the direct blocks; it also clears them in the inode. *)
Lemma wp_itrunc_direct l0 k j i ip Q (vs : fvars C) t :
  sb vs = x -> icache vs !! i = Some ip -> i_dev ip = ROOTDEV -> length l0 = 13%nat ->
  (j + k <= 13)%nat -> i_addrs ip = replicate j 0 ++ drop j l0 ->
  bmap_free x t -> settled t -> room B t -> frees v0 (nz (take j l0)) (t_view t) ->
  NoDup (nz l0) -> Forall (live x v0) (nz l0) ->
  (forall t', frees v0 (nz (take (j + k) l0)) (t_view t') -> same_bufs t t' -> room B t' ->
     Q tt (set_icache (<[i := with_addrs (replicate (j + k) 0 ++ drop (j + k) l0) ip]> (icache vs)) vs) t') ->
  wp (itrunc_direct k i (Z.of_nat j)) Q vs t.
Proof using Hg HB.
  revert j ip vs t. induction k as [|k IH]; intros j ip vs t Hsb Hi Hd Hlen Hjk Hl Hbf Hset Hroom Hfr Hnd Hlv HQ; cbn [itrunc_direct].
  - apply wp_ret. rewrite Nat.add_0_r in HQ. rewrite <-Hl, set_addrs_id in HQ by done. by apply HQ.
  - destruct (lookup_lt_is_Some_2 l0 j) as [a Ha]; [lia|].
    assert (addr ip (Z.of_nat j) = a) as Ea.
    { unfold addr. rewrite Hl, Nat2Z.id, lookup_app_r by (rewrite length_replicate; lia).
      rewrite length_replicate, Nat.sub_diag, lookup_drop, Nat.add_0_r, Ha. done. }
    assert (drop j l0 = a :: drop (Datatypes.S j) l0) as Edrop by (by apply drop_S).
    assert (take (Datatypes.S j) l0 = take j l0 ++ [a]) as Etake by (by apply take_S_r).
    assert (forall y, replicate j 0 ++ y :: drop (Datatypes.S j) l0 = <[j := y]> (i_addrs ip)) as Eins.
    { intros y. rewrite Hl, Edrop, insert_app_r_alt by (rewrite length_replicate; lia).
      by rewrite length_replicate, Nat.sub_diag. }
    assert (replicate (Datatypes.S j) 0 ++ drop (Datatypes.S j) l0 = <[j := 0]> (i_addrs ip)) as Enext.
    { rewrite <-Eins. rewrite replicate_S_end, <-app_assoc. done. }
    replace (Z.of_nat j + 1) with (Z.of_nat (Datatypes.S j)) by lia.
    replace (j + Datatypes.S k)%nat with (Datatypes.S j + k)%nat in HQ by lia.
    apply wp_bind, (wp_get_ino i ip); [done|]. rewrite Ea, Hd.
    destruct (Z.eqb_spec a 0) as [->|Hnz]; cbn [negb when].
    + apply wp_bind, wp_ret. apply (IH (Datatypes.S j) ip); try done; [lia| |].
      * rewrite Hl, Edrop. rewrite replicate_S_end, <-app_assoc. done.
      * rewrite Etake. unfold nz. rewrite filter_app, filter_cons_False, filter_nil, app_nil_r by auto. exact Hfr.
    + assert (nz (take (Datatypes.S j) l0) = nz (take j l0) ++ [a]) as Enz.
      { rewrite Etake. unfold nz. by rewrite filter_app, filter_cons_True, filter_nil. }
      assert (nz l0 = nz (take j l0) ++ a :: nz (drop (Datatypes.S j) l0)) as El0.
      { rewrite <-(take_drop j l0) at 1. rewrite Edrop. unfold nz. by rewrite filter_app, filter_cons_True. }
      rewrite El0 in Hnd. apply NoDup_app in Hnd as (Hnd1 & Hdis & Hnd2).
      assert (a ∉ nz (take j l0)) as HaF by (intros Hin; apply (Hdis a Hin), elem_of_cons; by left).
      pose proof Hlv as Hlv'. rewrite El0 in Hlv'. apply Forall_app in Hlv' as [_ Hlv']. apply Forall_cons in Hlv' as [[Hda Hua] _].
      pose proof (layout_order x Hg). assert (0 <= a < sb_size x) as Har by (destruct Hda; lia).
      apply wp_bind, wp_bind, (wp_bfree_room B); try done; [apply Hfr|by apply HB| |].
      { rewrite (fr_used _ _ _ Hfr) by done. rewrite Hua, bool_decide_true by done. done. }
      intros t1 Hv1 [Hh1 Hd1] Hr1. apply (wp_mod_ino i ip); [done|].
      apply (IH (Datatypes.S j) (with_addr (Z.of_nat j) 0 ip)); try done; try lia.
      * apply list_lookup_insert_eq. by eapply lookup_lt_Some.
      * rewrite Enext. unfold with_addr. cbn [i_addrs]. by rewrite Nat2Z.id.
      * unfold bmap_free. rewrite Hh1. exact Hbf.
      * unfold settled. rewrite Hd1. exact Hset.
      * rewrite Hv1, Enz. by apply frees_snoc.
      * rewrite El0. apply NoDup_app. done.
      * intros t' Hfr' [Hh' Hd'] Hr'. cbn [icache set_icache]. rewrite list_insert_insert_eq.
        apply HQ; [done| |done]. split; congruence.
Qed.
End trunc.

(** *** The blocks of a file as a list *)

Definition entries v l : list Z := if ind l =? 0 then [] else words_get (Z.to_nat NINDIRECT) 0 (v (ind l)).
Definition file_blocks v l : list Z := nz (take 12 l) ++ nz (entries v l) ++ nz [ind l].

Lemma take_direct v l : length l = 13%nat -> take 12 l = (fun k => blk v l (Z.of_nat k)) <$> seq 0 12.
Proof.
  intros Hl. apply list_eq. intros k. rewrite list_lookup_fmap. destruct (decide (k < 12)%nat) as [Hk|Hk].
  - rewrite lookup_take_lt, lookup_seq_lt by done. cbn [fmap option_fmap option_map Nat.add].
    unfold blk. destruct (Z.ltb_spec (Z.of_nat k) NDIRECT); [|unfold NDIRECT in *; lia].
    unfold nth_addr. rewrite Nat2Z.id. destruct (lookup_lt_is_Some_2 l k) as [a Ha]; [lia|]. by rewrite Ha.
  - rewrite lookup_take_ge, lookup_seq_ge by lia. done.
Qed.

Lemma entries_blk v l : ind l <> 0 -> entries v l = (fun k => blk v l (Z.of_nat k)) <$> seq 12 256.
Proof.
  intros Hi. unfold entries. destruct (Z.eqb_spec (ind l) 0); [done|].
  change (Z.to_nat NINDIRECT) with 256%nat. unfold words_get.
  change (seq 12 256) with (seq (12 + 0) 256). rewrite <-(fmap_add_seq 12 0 256), <-list_fmap_compose.
  apply list_fmap_ext. intros j k Hj. apply lookup_seq in Hj as [-> Hj]. unfold compose, blk.
  destruct (Z.ltb_spec (Z.of_nat (12 + (0 + j))) NDIRECT); [unfold NDIRECT in *; lia|].
  destruct (Z.eqb_spec (ind l) 0); [done|]. f_equal. unfold NDIRECT. lia.
Qed.

Lemma nz_fmap {A} (f : A -> Z) (ks : list A) : nz (f <$> ks) = f <$> filter (fun k => f k <> 0) ks.
Proof.
  induction ks as [|k ks IH]; [done|]. unfold nz in *. rewrite fmap_cons, !filter_cons.
  destruct (decide (f k <> 0)); rewrite IH; done.
Qed.

Lemma nz_blk v l (ks : list nat) :
  file_ok x v l -> NoDup ks -> Forall (fun k => Z.of_nat k < MAXFILE) ks ->
  NoDup (nz ((fun k => blk v l (Z.of_nat k)) <$> ks)) /\
  Forall (fun b => live x v b /\ b <> ind l /\ exists bn, 0 <= bn < MAXFILE /\ b = blk v l bn)
    (nz ((fun k => blk v l (Z.of_nat k)) <$> ks)).
Proof.
  intros Hf Hnd Hks. rewrite nz_fmap. rewrite Forall_forall in Hks. split.
  - apply NoDup_fmap_2_strong; [|by apply NoDup_filter].
    intros k k' Hk Hk' E. apply list_elem_of_filter in Hk as [Hnz Hk]. apply list_elem_of_filter in Hk' as [_ Hk'].
    apply Nat2Z.inj. apply (fo_inj _ _ _ Hf); [specialize (Hks k Hk); lia|specialize (Hks k' Hk'); lia|exact Hnz|exact E].
  - apply Forall_forall. intros b Hb. apply list_elem_of_fmap in Hb as (k & -> & Hk).
    apply list_elem_of_filter in Hk as [Hnz Hk]. specialize (Hks k Hk). cbn in Hnz.
    destruct (fo_blk _ _ _ Hf (Z.of_nat k) ltac:(lia) Hnz). split; [done|]. split; [done|]. exists (Z.of_nat k). split; [lia|done].
Qed.

Lemma file_blocks_ok v l :
  file_ok x v l -> NoDup (file_blocks v l) /\ Forall (live x v) (file_blocks v l) /\ NoDup (nz l) /\ Forall (live x v) (nz l).
Proof.
  intros Hf. pose proof (fo_len _ _ _ Hf) as Hl.
  assert (NoDup (nz (take 12 l)) /\ Forall (fun b => live x v b /\ b <> ind l) (nz (take 12 l))) as [D1 D2].
  { rewrite (take_direct v) by done. destruct (nz_blk v l (seq 0 12) Hf) as [A1 A2]; [apply NoDup_seq| |].
    - apply Forall_forall. intros k Hk. apply elem_of_seq in Hk. unfold MAXFILE, NDIRECT, NINDIRECT. lia.
    - split; [done|]. eapply Forall_impl; [exact A2|]. by intros b (? & ? & _). }
  assert (nz (take 12 l) ## nz (entries v l) /\ NoDup (nz (entries v l)) /\ Forall (fun b => live x v b /\ b <> ind l) (nz (entries v l))) as (E0 & E1 & E2).
  { destruct (decide (ind l = 0)) as [Hi|Hi].
    - unfold entries. rewrite Hi. cbn. split; [set_solver|]. split; constructor.
    - rewrite entries_blk, (take_direct v) by done.
      destruct (nz_blk v l (seq 0 268) Hf) as [A1 A2]; [apply NoDup_seq| |].
      { apply Forall_forall. intros k Hk. apply elem_of_seq in Hk. unfold MAXFILE, NDIRECT, NINDIRECT. lia. }
      change 268%nat with (12 + 256)%nat in A1, A2. rewrite seq_app, fmap_app in A1, A2. unfold nz in *.
      rewrite filter_app in A1, A2. apply NoDup_app in A1 as (_ & A3 & A4). apply Forall_app in A2 as [_ A2].
      split; [intros b Hb1 Hb2; by apply (A3 b)|]. split; [done|]. eapply Forall_impl; [exact A2|]. by intros b (? & ? & _). }
  assert (Forall (live x v) (nz [ind l])) as I1.
  { unfold nz. rewrite filter_cons, filter_nil. case_decide; constructor; [|constructor]. by apply (fo_ind _ _ _ Hf). }
  assert (NoDup (nz [ind l])) as I2 by (apply NoDup_filter, NoDup_singleton).
  assert (forall b, b ∈ nz [ind l] -> b = ind l) as I3.
  { intros b Hb. unfold nz in Hb. apply list_elem_of_filter in Hb as [_ Hb]. by apply list_elem_of_singleton in Hb. }
  assert (nz l = nz (take 12 l) ++ nz [ind l]) as El.
  { rewrite <-(take_drop 12 l) at 1. unfold nz. rewrite filter_app. do 2 f_equal.
    destruct (lookup_lt_is_Some_2 l 12) as [a Ha]; [lia|]. rewrite (drop_S _ _ _ Ha), drop_ge by lia.
    unfold ind, nth_addr, NDIRECT. change (Z.to_nat 12) with 12%nat. by rewrite Ha. }
  rewrite Forall_forall in D2, E2. unfold file_blocks. rewrite El.
  split; [|split; [|split]].
  - apply NoDup_app. split; [done|]. split.
    + intros b Hb. rewrite elem_of_app. intros [Hb'|Hb']; [by apply (E0 b)|]. destruct (D2 b Hb). apply I3 in Hb'. done.
    + apply NoDup_app. split; [done|]. split; [|done]. intros b Hb Hb'. destruct (E2 b Hb). apply I3 in Hb'. done.
  - rewrite !Forall_app. split; [|split; [|done]]; apply Forall_forall; intros b Hb; [by apply D2|by apply E2].
  - apply NoDup_app. split; [done|]. split; [|done]. intros b Hb Hb'. destruct (D2 b Hb). apply I3 in Hb'. done.
  - rewrite Forall_app. split; [|done]. apply Forall_forall; intros b Hb; by apply D2.
Qed.

(** The list holds exactly the blocks of the file. *)
Lemma elem_file_blocks v l b : file_ok x v l -> b ∈ file_blocks v l <-> owns v l b.
Proof.
  intros Hf. pose proof (fo_len _ _ _ Hf) as Hl. unfold file_blocks, owns, nz. rewrite !elem_of_app, !list_elem_of_filter, list_elem_of_singleton.
  split.
  - intros [[Hnz Hb]|[[Hnz Hb]|[Hnz ->]]]; split; try done; [right|right|by left].
    + rewrite (take_direct v) in Hb by done. apply list_elem_of_fmap in Hb as (k & -> & Hk). apply elem_of_seq in Hk.
      exists (Z.of_nat k). split; [unfold MAXFILE, NDIRECT, NINDIRECT; lia|done].
    + destruct (decide (ind l = 0)) as [Hi|Hi]; [unfold entries in Hb; rewrite Hi in Hb; by apply not_elem_of_nil in Hb|].
      rewrite entries_blk in Hb by done. apply list_elem_of_fmap in Hb as (k & -> & Hk). apply elem_of_seq in Hk.
      exists (Z.of_nat k). split; [unfold MAXFILE, NDIRECT, NINDIRECT; lia|done].
  - intros [Hnz [->|(bn & Hbn & ->)]]; [right; right; done|].
    destruct (decide (bn < NDIRECT)) as [Hd|Hd].
    + left. split; [done|]. rewrite (take_direct v) by done. apply list_elem_of_fmap. exists (Z.to_nat bn).
      rewrite Z2Nat.id by lia. split; [done|]. apply elem_of_seq. unfold NDIRECT in *. lia.
    + right. left. split; [done|]. assert (ind l <> 0) as Hi.
      { intros E. unfold blk in Hnz. rewrite E in Hnz. destruct (Z.ltb_spec bn NDIRECT); [lia|]. by cbn in Hnz. }
      rewrite entries_blk by done. apply list_elem_of_fmap. exists (Z.to_nat bn).
      rewrite Z2Nat.id by lia. split; [done|]. apply elem_of_seq. unfold MAXFILE, NDIRECT, NINDIRECT in *. lia.
Qed.

Lemma wp_iupdate_room B i ip Q (vs : fvars C) t :
  sb vs = x -> icache vs !! i = Some ip -> inode_ok ip -> idle t -> room B t -> IBLOCK (i_inum ip) x ∈ B ->
  (forall t', t_view t' = iupdate_view (t_view t) ip -> idle t' -> room B t' -> Q tt vs t') -> wp (iupdate i) Q vs t.
Proof using Hg.
  intros Hsb Hi (Hd & Hin & _) Hid Hroom HB HQ. apply wp_bind, (wp_get_ino i ip); [done|].
  apply wp_bind, wp_getv. rewrite Hsb. pose proof (IBLOCK_range _ Hin) as Hr. pose proof (layout_order x Hg).
  pose proof (g_data _ Hg). apply wp_read; [done|apply (idle_can_read x Hg); [done|lia]|]. intros h.
  apply wp_put_logged; [apply Hid|destruct Hid as [-> _]; done|by apply (room_can B)|].
  apply wp_ret. apply HQ; [done|exact Hid|by apply room_put].
Qed.

(** The blocks behind the indirect block, and the indirect block itself. *)
Lemma wp_itrunc_ind B v0 i ip l0 Q (vs : fvars C) t :
  all_bmap B -> sb vs = x -> icache vs !! i = Some ip -> i_dev ip = ROOTDEV ->
  i_addrs ip = replicate 12 0 ++ drop 12 l0 -> file_ok x v0 l0 -> idle t -> room B t -> blocks_ok x v0 ->
  frees v0 (nz (take 12 l0)) (t_view t) ->
  (forall t', frees v0 (file_blocks v0 l0) (t_view t') -> idle t' -> room B t' ->
     Q tt (set_icache (<[i := with_addrs (replicate 13 0) ip]> (icache vs)) vs) t') ->
  wp (when (negb (addr ip NDIRECT =? 0))
    (bp ← fs_bread (i_dev ip) (addr ip NDIRECT);
     w ← fs_data bp;
     itrunc_indirect (i_dev ip) (words_get (Z.to_nat NINDIRECT) 0 w);;
     fs_brelse bp;;
     bfree (i_dev ip) (addr ip NDIRECT);;
     mod_ino i (with_addr NDIRECT 0))) Q vs t.
Proof using Hg.
  intros HB Hsb Hi Hd Hl Hf Hid Hroom Hok0 Hfr HQ. pose proof (fo_len _ _ _ Hf) as Hlen.
  destruct (file_blocks_ok v0 l0 Hf) as (Hnd & Hlv & _ & _). unfold file_blocks in *.
  destruct (lookup_lt_is_Some_2 l0 12) as [a Ha]; [lia|].
  assert (drop 12 l0 = [a]) as Edrop by (rewrite (drop_S _ _ _ Ha), drop_ge by lia; done).
  assert (ind l0 = a) as Eind by (unfold ind, nth_addr, NDIRECT; change (Z.to_nat 12) with 12%nat; by rewrite Ha).
  assert (addr ip NDIRECT = ind l0) as Eaddr.
  { unfold addr. rewrite Hl, Edrop, Eind. unfold NDIRECT. change (Z.to_nat 12) with 12%nat. done. }
  rewrite Eaddr, Hd. destruct (Z.eqb_spec (ind l0) 0) as [E0|Hnz]; cbn [negb when].
  - apply wp_ret. assert (with_addrs (replicate 13 0) ip = ip) as E.
    { transitivity (with_addrs (i_addrs ip) ip); [|by destruct ip]. f_equal. rewrite Hl, Edrop, <-Eind, E0. done. }
    rewrite E, list_insert_id in HQ by done. replace (set_icache (icache vs) vs) with vs in HQ by (by destruct vs).
    apply HQ; try done. unfold entries, nz. rewrite E0. cbn. unfold nz in *. by rewrite app_nil_r.
  - pose proof (fo_ind _ _ _ Hf Hnz) as Hil. pose proof (live_range x Hg _ _ Hil) as Hir.
    assert (~ is_bmap x (ind l0)) as Hnb by (destruct Hil as [[? ?] _]; unfold is_bmap; lia).
    assert (t_held t = ∅) as Hh0 by apply Hid.
    apply wp_read; [done|by apply (idle_can_read x Hg)|]. intros h.
    rewrite (fr_same _ _ _ Hfr) by done.
    assert (words_get (Z.to_nat NINDIRECT) 0 (v0 (ind l0)) = entries v0 l0) as ->.
    { unfold entries. by destruct (Z.eqb_spec (ind l0) 0). }
    assert (nz [ind l0] = [ind l0]) as Enz by (unfold nz; by rewrite filter_cons_True, filter_nil).
    rewrite Enz in *. rewrite app_assoc in Hnd, Hlv. apply NoDup_app in Hnd as (Hnd1 & Hdis & _).
    apply Forall_app in Hlv as [Hlv _]. apply Forall_app in Hlv as [_ Hlv].
    apply wp_bind, (wp_itrunc_indirect B HB v0 _ (nz (take 12 l0))); try done.
    { unfold bmap_free. cbn [t_held t_bread]. rewrite Hh0. split.
      - intros b Hb. rewrite lookup_insert_ne; [done|congruence].
      - rewrite map_size_insert_None, map_size_empty by done. unfold MAXHELD. lia. }
    { apply Hid. }
    intros t1 Hfr1 [Hh1 Hd1] Hr1. cbn [t_held t_bread t_dirty] in Hh1, Hd1.
    apply wp_bind, (wp_brelse (ind l0)); [by rewrite Hh1, lookup_insert_eq|rewrite Hd1; destruct Hid as [_ ->]; set_solver|].
    assert (idle (t_brelse (ind l0) t1)) as Hid1.
    { split; cbn; [rewrite Hh1, Hh0, delete_insert_id by done; done|]. rewrite Hd1. apply Hid. }
    assert (0 <= ind l0 < sb_size x) as Hr0 by (pose proof (layout_order x Hg); lia).
    apply wp_bind, (wp_bfree_room B); try done; [apply Hfr1|by apply (idle_bmap_free x)|apply Hid1|by apply HB|apply Hil| |].
    { cbn [t_view t_brelse]. rewrite (fr_used _ _ _ Hfr1) by done. destruct Hil as [_ ->]. apply bool_decide_true.
      intros Hin. apply (Hdis _ Hin). by apply list_elem_of_singleton. }
    intros t2 Hv2 [Hh2 Hd2] Hr2. apply (wp_mod_ino i ip); [done|].
    assert (with_addr NDIRECT 0 ip = with_addrs (replicate 13 0) ip) as ->.
    { unfold with_addr, with_addrs. f_equal. rewrite Hl, Edrop. done. }
    apply HQ; [|split; [rewrite Hh2; apply Hid1|rewrite Hd2; apply Hid1]|done].
    rewrite Hv2, app_assoc. apply frees_snoc; [done|apply Hil].
Qed.

(** [itrunc]: every block of the file is free, the inode on disk is empty. *)
Lemma wp_itrunc B i ip Q (vs : fvars C) t :
  let ip' := with_size 0 (with_addrs (replicate 13 0) ip) in
  all_bmap B -> IBLOCK (i_inum ip) x ∈ B -> room B t ->
  sb vs = x -> icache vs !! i = Some ip -> inode_ok ip -> idle t ->
  blocks_ok x (t_view t) -> file_ok x (t_view t) (i_addrs ip) ->
  (forall t' w, frees (t_view t) (file_blocks (t_view t) (i_addrs ip)) w -> t_view t' = iupdate_view w ip' ->
     inode_ok ip' -> idle t' -> room B t' -> Q tt (set_icache (<[i := ip']> (icache vs)) vs) t') ->
  wp (itrunc i) Q vs t.
Proof using Hg.
  intros ip' HB HI Hroom Hsb Hi Hino Hid Hok Hf HQ.
  pose proof (fo_len _ _ _ Hf) as Hlen. destruct (file_blocks_ok _ _ Hf) as (_ & _ & Hnd & Hlv).
  assert (i < length (icache vs))%nat as Hilt by (by eapply lookup_lt_Some).
  assert (inode_ok ip') as Hino'.
  { destruct Hino as (H1 & H2 & H3 & H4 & H5 & H6). split; [done|]. split; [done|]. split; [done|]. split; [done|].
    split; [done|]. apply Forall_replicate. lia. }
  apply wp_bind. change 0 with (Z.of_nat 0) at 1. change (Z.to_nat NDIRECT) with 12%nat.
  apply (wp_itrunc_direct B HB (t_view t) (i_addrs ip) 12 0 i ip); try done; [apply Hino|lia|by apply (idle_bmap_free x)|apply Hid| |].
  { rewrite take_0. change (nz []) with (@nil Z). by apply frees_nil. }
  intros t1 Hfr1 [Hh1 Hd1] Hr1. cbn [Nat.add] in *. set (ip1 := with_addrs _ ip).
  assert (idle t1) as Hid1 by (split; [rewrite Hh1|rewrite Hd1]; apply Hid).
  apply wp_bind, (wp_get_ino i ip1); [by apply list_lookup_insert_eq|].
  apply wp_bind, (wp_itrunc_ind B (t_view t) i ip1 (i_addrs ip)); try done; [by apply list_lookup_insert_eq|apply Hino|].
  intros t2 Hfr2 Hid2 Hr2. cbn [icache set_icache]. rewrite list_insert_insert_eq.
  apply wp_bind, (wp_mod_ino i (with_addrs (replicate 13 0) ip1)); [by apply list_lookup_insert_eq|].
  cbn [icache set_icache]. rewrite list_insert_insert_eq. change (with_size 0 _) with ip'.
  apply (wp_iupdate_room B i ip'); try done; [by apply list_lookup_insert_eq|].
  intros t3 Hv3 Hid3 Hr3. by apply (HQ t3 (t_view t2)).
Qed.
End files.
