(* ===== verification/FsDir.v ===== *)
(** Directories and path names of kernel/fs/fs.c: [namecmp], [dirlookup],
    [dirlink], [skipelem], [namex].

    A name is a list of bytes; past the end of the list lies the terminating
    zero.  The [struct dirent] that [dirlookup] and [dirlink] have on their stack
    is the kernel object [kbuf]. *)

From S2P Require Import Prelude Lock KString FsDisk FsBlocks FsInode FsFile.
Import Sleeplock.

Definition DIRSIZ : Z := 14.
Definition DIRENT : Z := 16.
Definition T_DIR : Z := 1.
Definition ROOTINO : Z := 1.
Definition SLASH : Z := 47.

(** Two strings in one memory. *)
Definition STR2 : Z := 4096.
Definition two_strings (s u : bytes) : Z -> Z :=
  fun a => if a <? STR2 then byte_at s a else byte_at u (a - STR2).

Definition namecmp (s u : bytes) : Z := strncmp (two_strings s u) 0 STR2 DIRSIZ.

(** [struct dirent]. *)
Definition de_inum (w : bytes) : Z := get_le 2 0 w.
Definition de_name (w : bytes) : bytes := sub_bytes 2 14 w.

(** [strncpy(de.name, name, DIRSIZ); de.inum = inum]. *)
Definition de_fill (name : bytes) (inum : Z) (w : bytes) : bytes :=
  let m := strncpy (two_strings (de_name w) name) 0 STR2 DIRSIZ in
  put_le 2 0 (u16 inum) (upd_bytes 2 (mem_bytes m 0 (Z.to_nat DIRSIZ)) w).

(** while( *path == '/') path++; and the length of the next element. *)
Fixpoint skip_slashes (p : bytes) : bytes :=
  match p with
  | c :: p' => if c =? SLASH then skip_slashes p' else p
  | [] => []
  end.
Fixpoint elem_len (p : bytes) : nat :=
  match p with
  | c :: p' => if (c =? SLASH) || (c =? 0) then O else S (elem_len p')
  | [] => O
  end.

(** The rest of the path and the buffer [name], or no element is left. *)
Definition skipelem (path name : bytes) : option (bytes * bytes) :=
  let s := skip_slashes path in
  if byte_at s 0 =? 0 then None
  else
    let len := elem_len s in
    let e := take len s in
    let name' := if DIRSIZ <=? Z.of_nat len then upd_bytes 0 (take (Z.to_nat DIRSIZ) e) name
                 else upd_bytes 0 (e ++ [0]) name in
    Some (skip_slashes (drop len s), name').

Section code.
Context {S H C : Type} `{!TxDisk S H} `{!UserCopy C}.
Abbreviation fsM := (M (fsstate S C)).

Definition new_dirent : fsM unit := modv (set_kbuf (replicate (Z.to_nat DIRENT) 0)).

Fixpoint dirlookup_loop (fuel : nat) (i : nat) (name : bytes) (off : Z) : fsM (option (nat * Z)) :=
  match fuel with
  | O => nofuel
  | Datatypes.S fuel' =>
      dp ← get_ino i;
      if off <? i_size dp then
        r ← readi i false 0 off DIRENT;
        if negb (r =? DIRENT) then panic "dirlookup read"
        else
          de ← getv kbuf;
          if de_inum de =? 0 then dirlookup_loop fuel' i name (off + DIRENT)
          else if namecmp name (de_name de) =? 0 then
            j ← iget (i_dev dp) (de_inum de);
            ret (Some (j, off))
          else dirlookup_loop fuel' i name (off + DIRENT)
      else ret None
  end.

Definition dir_fuel (size : Z) : nat := Z.to_nat (size / DIRENT) + 2.

(** The inode that the name leads to and the offset of its entry. *)
Definition dirlookup (i : nat) (name : bytes) : fsM (option (nat * Z)) :=
  dp ← get_ino i;
  if negb (i_type dp =? T_DIR) then panic "dirlookup not DIR"
  else new_dirent;; dirlookup_loop (dir_fuel (i_size dp)) i name 0.

Fixpoint dirlink_scan (fuel : nat) (i : nat) (off : Z) : fsM Z :=
  match fuel with
  | O => nofuel
  | Datatypes.S fuel' =>
      dp ← get_ino i;
      if off <? i_size dp then
        r ← readi i false 0 off DIRENT;
        if negb (r =? DIRENT) then panic "dirlink read"
        else
          de ← getv kbuf;
          if de_inum de =? 0 then ret off else dirlink_scan fuel' i (off + DIRENT)
      else ret off
  end.

Definition dirlink (i : nat) (name : bytes) (inum : Z) : fsM Z :=
  r ← dirlookup i name;
  match r with
  | Some (j, _) => iput j;; ret (-1)
  | None =>
      new_dirent;;
      dp ← get_ino i;
      off ← dirlink_scan (dir_fuel (i_size dp)) i 0;
      modv (fun v => set_kbuf (de_fill name inum (kbuf v)) v);;
      r ← writei i false 0 off DIRENT;
      if negb (r =? DIRENT) then panic "dirlink" else ret 0
  end.

(** The result and the last element of the path. *)
Fixpoint namex_loop (fuel : nat) (path : bytes) (nameiparent : bool) (name : bytes) (i : nat)
    : fsM (option nat * bytes) :=
  match fuel with
  | O => nofuel
  | Datatypes.S fuel' =>
      match skipelem path name with
      | None => if nameiparent then iput i;; ret (None, name) else ret (Some i, name)
      | Some (path', name') =>
          ilock i;;
          ip ← get_ino i;
          if negb (i_type ip =? T_DIR) then iunlockput i;; ret (None, name')
          else if nameiparent && (byte_at path' 0 =? 0) then iunlock i;; ret (Some i, name')
          else
            r ← dirlookup i name';
            match r with
            | None => iunlockput i;; ret (None, name')
            | Some (next, _) => iunlockput i;; namex_loop fuel' path' nameiparent name' next
            end
      end
  end.

Definition namex (path : bytes) (nameiparent : bool) (name : bytes) : fsM (option nat * bytes) :=
  i ← (if byte_at path 0 =? SLASH then iget ROOTDEV ROOTINO
       else c ← getv f_cwd; idup c);
  namex_loop (Datatypes.S (length path)) path nameiparent name i.

Definition namei (path : bytes) : fsM (option nat) :=
  r ← namex path false (replicate (Z.to_nat DIRSIZ) 0); ret r.1.
Definition nameiparent (path name : bytes) : fsM (option nat * bytes) := namex path true name.
End code.

(** ** Names *)

(** A name is what comes before the zero byte, at most 14 bytes of it. *)
Definition name14 (s : bytes) : bytes := cut_nul (take 14 s).

Lemma cstr_list m p k s : (forall j, (j < k)%nat -> m (p + Z.of_nat j) = byte_at s (Z.of_nat j)) -> cstr m p k = cut_nul (take k s).
Proof.
  unfold cstr. revert p s. induction k as [|k IH]; intros p s Hm; [done|]. cbn [mem_bytes cut_nul].
  pose proof (Hm 0%nat ltac:(lia)) as H0. rewrite Z.add_0_r in H0. unfold byte_at in H0. change (Z.to_nat (Z.of_nat 0)) with 0%nat in H0.
  destruct s as [|c s]; [simpl in H0; rewrite H0; done|]. simpl in H0. rewrite H0. cbn [take cut_nul].
  destruct (c =? 0); [done|]. f_equal. apply IH. intros j Hj. specialize (Hm (S j) ltac:(lia)).
  replace (p + 1 + Z.of_nat j) with (p + Z.of_nat (S j)) by lia. rewrite Hm. unfold byte_at.
  rewrite !Nat2Z.id. done.
Qed.

Lemma two_strings_l s u k : (k <= 4096)%nat -> cstr (two_strings s u) 0 k = cut_nul (take k s).
Proof.
  intros Hk. apply cstr_list. intros j Hj. unfold two_strings, STR2. destruct (Z.ltb_spec (0 + Z.of_nat j) 4096); [done|lia].
Qed.
Lemma two_strings_r s u k : cstr (two_strings s u) STR2 k = cut_nul (take k u).
Proof.
  apply cstr_list. intros j Hj. unfold two_strings. destruct (Z.ltb_spec (STR2 + Z.of_nat j) STR2); [lia|].
  f_equal. lia.
Qed.

Lemma namecmp_eq s u : namecmp s u = 0 <-> name14 s = name14 u.
Proof.
  unfold namecmp, strncmp. rewrite strncmp_loop_zero. change (Z.to_nat DIRSIZ) with 14%nat.
  rewrite two_strings_l, two_strings_r by lia. done.
Qed.

(** [strncpy] to lower memory copies the string. *)
Lemma strncpy_loop_cstr k s u m : s + Z.of_nat k <= u -> cstr (strncpy_loop k s u m) s k = cstr m u k.
Proof.
  unfold cstr. revert s u m. induction k as [|k IH]; intros s u m Hd; [done|]. cbn [strncpy_loop mem_bytes cut_nul].
  assert (forall k s m a, a < s -> zero_fill k s m a = m a) as Hz.
  { clear. induction k as [|k IH]; intros s m a Ha; cbn [zero_fill]; [done|]. rewrite IH by lia. apply fupd_ne. lia. }
  destruct (Z.eqb_spec (m u) 0) as [E|E].
  - rewrite Hz, fupd_eq, E by lia. done.
  - rewrite strncpy_loop_outside, fupd_eq by lia. destruct (Z.eqb_spec (m u) 0); [done|]. f_equal.
    rewrite IH by lia. f_equal. apply cut_nul_ext. intros a Ha. apply fupd_ne. lia.
Qed.

Lemma length_mem_bytes m p k : length (mem_bytes m p k) = k.
Proof. revert p. induction k; intros; simpl; auto. Qed.

Lemma de_fill_ok name inum w :
  length w = 16%nat -> length (de_fill name inum w) = 16%nat /\
  de_inum (de_fill name inum w) = u16 inum /\ name14 (de_name (de_fill name inum w)) = name14 name.
Proof.
  intros Hw. unfold de_fill. set (m := strncpy _ _ _ _). change (Z.to_nat DIRSIZ) with 14%nat.
  pose proof (length_mem_bytes m 0 14) as Hm.
  assert (length (upd_bytes 2 (mem_bytes m 0 14) w) = 16%nat) as Hl by (rewrite length_upd_bytes; lia).
  split; [rewrite length_put_le; lia|]. split.
  - unfold de_inum. apply get_put_le; [lia|]. change (256 ^ Z.of_nat 2) with 65536. apply u16_range.
  - unfold de_name, put_le. rewrite sub_upd_disjoint by (rewrite length_le_enc; lia).
    pose proof (sub_upd_same 2 (mem_bytes m 0 14) w) as E. rewrite Hm in E. rewrite E by lia.
    unfold name14 at 1. rewrite take_ge by lia. change (cut_nul (mem_bytes m 0 14)) with (cstr m 0 14).
    unfold m, strncpy. change (Z.to_nat DIRSIZ) with 14%nat. rewrite strncpy_loop_cstr by (unfold STR2; lia).
    apply two_strings_r.
Qed.

(** ** A directory as a list of entries *)

Definition dent (v : Z -> bytes) (l : list Z) (k : nat) : bytes := fread v l (DIRENT * Z.of_nat k) 16.
Definition entry (w : bytes) : Z * bytes := (de_inum w, name14 (de_name w)).
Definition dents (v : Z -> bytes) (ip : inode) : list (Z * bytes) :=
  (fun k => entry (dent v (i_addrs ip) k)) <$> seq 0 (Z.to_nat (i_size ip / DIRENT)).

(** The first entry in use with the name, and its position. *)
Fixpoint dfind (nm : bytes) (ds : list (Z * bytes)) (k : nat) : option (nat * Z) :=
  match ds with
  | [] => None
  | (n, m) :: ds' => if negb (n =? 0) && bool_decide (m = nm) then Some (k, n) else dfind nm ds' (S k)
  end.

(** The position of the first unused entry, or the end. *)
Fixpoint free_slot (ds : list (Z * bytes)) : nat :=
  match ds with
  | [] => O
  | (n, _) :: ds' => if n =? 0 then O else S (free_slot ds')
  end.

(** A directory: its size is a number of entries. *)
Definition dir_ok (ip : inode) : Prop := i_type ip = T_DIR /\ i_size ip mod DIRENT = 0.

Section dirs.
Context {S H C : Type} `{!TxDisk S H} `{!TxDiskLaws S H} `{!UserCopy C}.
Context (x : superblock) (Hg : geom x).
Implicit Types (v : Z -> bytes) (t : tx H).

Section dir.
Context (i : nat) (ip : inode) (t : tx H).
Let v := t_view t.
Let l := i_addrs ip.
Context (Hd : i_dev ip = ROOTDEV) (Hid : idle t) (Hok : blocks_ok x v) (Hf : file_ok x v l)
  (Hnh : no_holes v ip) (Hdir : dir_ok ip).

Lemma dir_size : i_size ip = DIRENT * (i_size ip / DIRENT) /\ 0 <= i_size ip / DIRENT.
Proof using Hdir Hnh.
  destruct Hnh as [Hs _]. destruct Hdir as [_ Hm]. split; [|apply Z.div_pos; unfold DIRENT; lia].
  rewrite (Z.div_mod (i_size ip) DIRENT) at 1 by (unfold DIRENT; lia). lia.
Qed.

(** Reading one entry into the kernel object. *)
Lemma wp_read_dirent k Q (vs : fvars C) :
  icache vs !! i = Some ip -> length (kbuf vs) = 16%nat -> Z.of_nat k < i_size ip / DIRENT ->
  (forall vs', same_fs vs vs' -> kbuf vs' = dent v l k -> Q DIRENT vs' t) ->
  wp (readi i false 0 (DIRENT * Z.of_nat k) DIRENT) Q vs t.
Proof using Hg Hd Hid Hok Hf Hnh Hdir.
  intros Hi Hlen Hk HQ. pose proof dir_size as [Hsz Hs0]. pose proof Hnh as [Hmax _].
  assert (MAXFILE * BSIZE < 2 ^ 31) as HM by (unfold MAXFILE, NDIRECT, NINDIRECT, BSIZE; lia).
  assert (DIRENT * Z.of_nat k + DIRENT <= i_size ip) as Hfit by (unfold DIRENT in *; lia).
  assert (Z.min DIRENT (i_size ip - DIRENT * Z.of_nat k) = DIRENT) as Emin by (unfold DIRENT in *; lia).
  apply (wp_readi x Hg i ip false 0 (DIRENT * Z.of_nat k) DIRENT
    (fun done kb _ => kb = upd_bytes (Z.to_nat 0) done (kbuf vs))); try done; try (unfold DIRENT in *; lia).
  - rewrite Emin. apply kernel_sink; unfold DIRENT; lia.
  - rewrite Emin. intros vs' Hs Hk'. apply HQ; [done|]. rewrite Hk'. change (Z.to_nat 0) with 0%nat.
    unfold upd_bytes. rewrite take_0. change (Z.to_nat DIRENT) with 16%nat. rewrite length_fread, drop_ge by lia.
    cbn [app]. apply app_nil_r.
Qed.

Lemma dents_drop k :
  Z.of_nat k < i_size ip / DIRENT ->
  drop k (dents v ip) = entry (dent v l k) :: drop (Datatypes.S k) (dents v ip).
Proof.
  intros Hk. apply drop_S. unfold dents. rewrite list_lookup_fmap, lookup_seq_lt by lia. done.
Qed.

Lemma dents_end k : i_size ip / DIRENT <= Z.of_nat k -> drop k (dents v ip) = [].
Proof. intros Hk. apply drop_ge. unfold dents. rewrite length_fmap, length_seq. lia. Qed.

(** The search of [dirlookup]: the first entry with the name. *)
Lemma wp_dirlookup_loop fuel name k Q (vs : fvars C) :
  icache vs !! i = Some ip -> length (kbuf vs) = 16%nat ->
  (Z.to_nat (i_size ip / DIRENT) < fuel + k)%nat -> Z.of_nat k <= i_size ip / DIRENT ->
  (forall vs', same_fs vs vs' -> length (kbuf vs') = 16%nat ->
     match dfind (name14 name) (drop k (dents v ip)) k with
     | None => Q None vs' t
     | Some (p, inum) => wp (j ← iget ROOTDEV inum; ret (Some (j, DIRENT * Z.of_nat p))) Q vs' t
     end) ->
  wp (dirlookup_loop fuel i name (DIRENT * Z.of_nat k)) Q vs t.
Proof using Hg Hd Hid Hok Hf Hnh Hdir.
  revert k vs. induction fuel as [|fuel IH]; intros k vs Hi Hlen Hfuel Hk HQ; [lia|].
  pose proof dir_size as [Hsz Hs0]. cbn [dirlookup_loop]. apply wp_bind, (wp_get_ino i ip); [done|].
  destruct (Z.ltb_spec (DIRENT * Z.of_nat k) (i_size ip)) as [Hlt|Hge].
  - assert (Z.of_nat k < i_size ip / DIRENT) as Hk' by (unfold DIRENT in *; lia).
    apply wp_bind, wp_read_dirent; [done|done|done|]. intros vs1 Hs1 Hb1. cbn [Z.eqb negb Pos.eqb DIRENT].
    apply wp_bind, wp_getv. rewrite Hb1.
    assert (length (kbuf vs1) = 16%nat) as Hlen1 by (rewrite Hb1; apply length_fread).
    assert (icache vs1 !! i = Some ip) as Hi1 by (by rewrite Hs1).
    rewrite (dents_drop k Hk') in HQ. cbn [dfind entry] in HQ.
    replace (DIRENT * Z.of_nat k + DIRENT) with (DIRENT * Z.of_nat (Datatypes.S k)) by (unfold DIRENT; lia).
    assert (forall vs', same_fs vs1 vs' -> same_fs vs vs') as Htr by (intros vs'; unfold same_fs; intros E; rewrite E, Hs1; done).
    destruct (Z.eqb_spec (de_inum (dent v l k)) 0) as [Hz|Hz]; cbn [negb andb] in HQ.
    + apply IH; [done|done|lia|lia|]. intros vs' Hs' Hl'. apply HQ; [by apply Htr|done].
    + destruct (Z.eqb_spec (namecmp name (de_name (dent v l k))) 0) as [Hn|Hn].
      * apply namecmp_eq in Hn. rewrite bool_decide_true in HQ by done. rewrite Hd. by apply HQ.
      * rewrite bool_decide_false in HQ by (intros E; apply Hn, namecmp_eq; done).
        apply IH; [done|done|lia|lia|]. intros vs' Hs' Hl'. apply HQ; [by apply Htr|done].
  - apply wp_ret. rewrite dents_end in HQ by (unfold DIRENT in *; lia). apply HQ; [by destruct vs|done].
Qed.

Lemma wp_dirlookup name Q (vs : fvars C) :
  icache vs !! i = Some ip ->
  (forall vs', same_fs vs vs' -> length (kbuf vs') = 16%nat ->
     match dfind (name14 name) (dents v ip) 0 with
     | None => Q None vs' t
     | Some (p, inum) => wp (j ← iget ROOTDEV inum; ret (Some (j, DIRENT * Z.of_nat p))) Q vs' t
     end) ->
  wp (dirlookup i name) Q vs t.
Proof using Hg Hd Hid Hok Hf Hnh Hdir.
  intros Hi HQ. apply wp_bind, (wp_get_ino i ip); [done|].
  destruct Hdir as [Ht _]. rewrite Ht. cbn [Z.eqb Pos.eqb T_DIR negb].
  apply wp_bind, wp_modv. pose proof dir_size as [Hsz Hs0].
  replace 0 with (DIRENT * Z.of_nat 0) by lia. apply (wp_dirlookup_loop _ name 0); [done|apply length_replicate|unfold dir_fuel; lia|lia|].
  rewrite drop_0. intros vs' Hs' Hl'. apply HQ; [|done]. unfold same_fs in *. rewrite Hs'. done.
Qed.

(** The search of [dirlink] for a place. *)
Lemma wp_dirlink_scan fuel k Q (vs : fvars C) :
  icache vs !! i = Some ip -> length (kbuf vs) = 16%nat ->
  (Z.to_nat (i_size ip / DIRENT) < fuel + k)%nat -> Z.of_nat k <= i_size ip / DIRENT ->
  (forall vs', same_fs vs vs' -> length (kbuf vs') = 16%nat ->
     Q (DIRENT * Z.of_nat (k + free_slot (drop k (dents v ip)))) vs' t) ->
  wp (dirlink_scan fuel i (DIRENT * Z.of_nat k)) Q vs t.
Proof using Hg Hd Hid Hok Hf Hnh Hdir.
  revert k vs. induction fuel as [|fuel IH]; intros k vs Hi Hlen Hfuel Hk HQ; [lia|].
  pose proof dir_size as [Hsz Hs0]. cbn [dirlink_scan]. apply wp_bind, (wp_get_ino i ip); [done|].
  destruct (Z.ltb_spec (DIRENT * Z.of_nat k) (i_size ip)) as [Hlt|Hge].
  - assert (Z.of_nat k < i_size ip / DIRENT) as Hk' by (unfold DIRENT in *; lia).
    apply wp_bind, wp_read_dirent; [done|done|done|]. intros vs1 Hs1 Hb1. cbn [Z.eqb negb Pos.eqb DIRENT].
    apply wp_bind, wp_getv. rewrite Hb1.
    assert (length (kbuf vs1) = 16%nat) as Hlen1 by (rewrite Hb1; apply length_fread).
    assert (icache vs1 !! i = Some ip) as Hi1 by (by rewrite Hs1).
    rewrite (dents_drop k Hk') in HQ. cbn [free_slot entry] in HQ.
    destruct (Z.eqb_spec (de_inum (dent v l k)) 0) as [Hz|Hz].
    + apply wp_ret. rewrite Nat.add_0_r in HQ. by apply HQ.
    + replace (DIRENT * Z.of_nat k + DIRENT) with (DIRENT * Z.of_nat (Datatypes.S k)) by (unfold DIRENT; lia).
      apply IH; [done|done|lia|lia|]. intros vs' Hs' Hl'.
      replace (Datatypes.S k + free_slot (drop (Datatypes.S k) (dents v ip)))%nat
        with (k + Datatypes.S (free_slot (drop (Datatypes.S k) (dents v ip))))%nat by lia.
      apply HQ; [|done]. unfold same_fs in *. rewrite Hs', Hs1. done.
  - apply wp_ret. rewrite dents_end in HQ by (unfold DIRENT in *; lia). cbn [free_slot] in HQ. rewrite Nat.add_0_r in HQ.
    apply HQ; [by destruct vs|done].
Qed.
End dir.

(** ** The inode cache *)

Definition cached (dev inum : Z) (ip : inode) : Prop := 0 < i_ref ip /\ i_dev ip = dev /\ i_inum ip = inum.
Definition fresh_inode (dev inum : Z) (ip : inode) : inode :=
  mkino dev inum 1 (i_lock ip) false (i_type ip) (i_major ip) (i_minor ip) (i_nlink ip) (i_size ip) (i_addrs ip).

Lemma iget_scan_spec c k dev inum e :
  match iget_scan c k dev inum e with
  | (Some i, _) => exists ip, (k <= i)%nat /\ c !! (i - k)%nat = Some ip /\ cached dev inum ip
  | (None, e') => Forall (fun ip => ~ cached dev inum ip) c /\
      match e with
      | Some _ => e' = e
      | None => match e' with
                | Some i => exists ip, (k <= i)%nat /\ c !! (i - k)%nat = Some ip /\ i_ref ip = 0
                | None => Forall (fun ip => i_ref ip <> 0) c
                end
      end
  end.
Proof.
  revert k e. induction c as [|ip c IH]; intros k e; cbn [iget_scan].
  { split; [constructor|]. destruct e; [done|constructor]. }
  destruct ((0 <? i_ref ip) && (i_dev ip =? dev) && (i_inum ip =? inum)) eqn:Em.
  - exists ip. split; [lia|]. rewrite Nat.sub_diag. split; [done|].
    apply andb_true_iff in Em as [Em E3]. apply andb_true_iff in Em as [E1 E2].
    unfold cached. split; [by apply Z.ltb_lt|]. split; by apply Z.eqb_eq.
  - assert (~ cached dev inum ip) as Hnc.
    { intros (H1 & E2 & E3). apply Z.ltb_lt in H1. rewrite H1, E2, E3, !Z.eqb_refl in Em. done. }
    set (e1 := match e with None => _ | Some _ => _ end). specialize (IH (Datatypes.S k) e1).
    destruct (iget_scan c (Datatypes.S k) dev inum e1) as [[i|] e'].
    + destruct IH as (ip' & Hi & Hl & Hc). exists ip'. split; [lia|].
      replace (i - k)%nat with (Datatypes.S (i - Datatypes.S k)) by lia. done.
    + destruct IH as [Hall He]. split; [by constructor|]. destruct e as [e0|]; [exact He|].
      unfold e1 in He. destruct (Z.eqb_spec (i_ref ip) 0) as [Hr|Hr].
      * subst e'. exists ip. split; [lia|]. by rewrite Nat.sub_diag.
      * destruct e' as [i|]; [|by constructor]. destruct He as (ip' & Hi & Hl & Hc). exists ip'. split; [lia|].
        replace (i - k)%nat with (Datatypes.S (i - Datatypes.S k)) by lia. done.
Qed.

(** [iget]: the cached inode with one more reference, or an empty slot. *)
Lemma wp_iget dev inum Q (vs : fvars C) t :
  (exists j ip, icache vs !! j = Some ip /\ (cached dev inum ip \/ i_ref ip = 0)) ->
  (forall j ip ip', icache vs !! j = Some ip ->
     cached dev inum ip /\ ip' = with_ref (i_ref ip + 1) ip \/
     Forall (fun ip => ~ cached dev inum ip) (icache vs) /\ i_ref ip = 0 /\ ip' = fresh_inode dev inum ip ->
     Q j (set_icache (<[j := ip']> (icache vs)) vs) t) ->
  wp (iget dev inum) Q vs t.
Proof.
  intros (j0 & ip0 & Hj0 & Hc0) HQ. unfold iget. apply wp_bind, wp_getv.
  pose proof (iget_scan_spec (icache vs) 0 dev inum None) as Hs.
  destruct (iget_scan (icache vs) 0 dev inum None) as [[i|] [e|]].
  1,2: destruct Hs as (ip & _ & Hl & Hc); rewrite Nat.sub_0_r in Hl;
    apply wp_bind, (wp_mod_ino i ip); [done|]; apply wp_ret; apply (HQ i ip); [done|by left].
  - destruct Hs as [Hall (ip & _ & Hl & Hr)]. rewrite Nat.sub_0_r in Hl.
    apply wp_bind, (wp_mod_ino e ip); [done|]. apply wp_ret. apply (HQ e ip); [done|by right].
  - destruct Hs as [Hall Hr]. exfalso. rewrite Forall_lookup in Hall, Hr.
    destruct Hc0; [by eapply Hall|by eapply Hr].
Qed.

(** [iput] that does not free the inode. *)
Lemma wp_iput_keep j ip Q (vs : fvars C) t :
  icache vs !! j = Some ip -> i_ref ip <> 1 \/ i_valid ip = false \/ i_nlink ip <> 0 ->
  Q tt (set_icache (<[j := with_ref (i_ref ip - 1) ip]> (icache vs)) vs) t -> wp (iput j) Q vs t.
Proof.
  intros Hj Hk HQ. unfold iput. apply wp_bind, (wp_get_ino j ip); [done|].
  assert ((i_ref ip =? 1) && i_valid ip && (i_nlink ip =? 0) = false) as ->.
  { destruct (Z.eqb_spec (i_ref ip) 1), (i_valid ip), (Z.eqb_spec (i_nlink ip) 0); try done. naive_solver. }
  apply wp_bind, wp_ret. by apply (wp_mod_ino j ip).
Qed.

(** ** Adding an entry *)

Definition dput (k : nat) (e : Z * bytes) (ds : list (Z * bytes)) : list (Z * bytes) :=
  if decide (k < length ds)%nat then <[k := e]> ds else ds ++ [e].

Lemma free_slot_le ds : (free_slot ds <= length ds)%nat.
Proof. induction ds as [|[n m] ds IH]; cbn [free_slot length]; [lia|]. destruct (n =? 0); lia. Qed.

Lemma dfind_dput nm n ds k :
  n <> 0 -> dfind nm ds k = None ->
  dfind nm (dput (free_slot ds) (n, nm) ds) k = Some ((k + free_slot ds)%nat, n) /\
  forall nm', nm' <> nm -> dfind nm' (dput (free_slot ds) (n, nm) ds) k = dfind nm' ds k.
Proof.
  intros Hn. revert k. induction ds as [|[n' m'] ds IH]; intros k; cbn [free_slot dfind].
  - intros _. unfold dput. rewrite decide_False by (simpl; lia). cbn [app dfind].
    destruct (Z.eqb_spec n 0); [done|]. cbn [negb andb]. rewrite bool_decide_true by done. split; [f_equal; f_equal; lia|].
    intros nm' Hne. by rewrite bool_decide_false by congruence.
  - intros Hnone. destruct (Z.eqb_spec n' 0) as [Hz|Hz].
    + unfold dput. rewrite decide_True by (simpl; lia). change (<[0%nat := ?e]> (?a :: ?t)) with (e :: t).
      cbn [dfind]. destruct (Z.eqb_spec n 0); [done|]. cbn [negb andb]. rewrite bool_decide_true by done.
      split; [f_equal; f_equal; lia|]. intros nm' Hne. rewrite bool_decide_false by congruence. cbn [negb andb]. done.
    + cbn [negb andb] in Hnone. destruct (bool_decide (m' = nm)) eqn:Em; [done|].
      destruct (IH (Datatypes.S k) Hnone) as [IH1 IH2].
      assert (dput (Datatypes.S (free_slot ds)) (n, nm) ((n', m') :: ds) = (n', m') :: dput (free_slot ds) (n, nm) ds) as ->.
      { unfold dput. cbn [length]. repeat case_decide; try lia; done. }
      cbn [dfind]. destruct (Z.eqb_spec n' 0); [done|]. cbn [negb andb]. rewrite Em, IH1. split; [f_equal; f_equal; lia|].
      intros nm' Hne. destruct (bool_decide (m' = nm')); [done|]. by apply IH2.
Qed.

Lemma byte_list bs n : length bs = n -> bs = (fun k => byte_at bs (Z.of_nat k)) <$> seq 0 n.
Proof.
  intros Hl. apply list_eq. intros k. rewrite list_lookup_fmap. destruct (decide (k < n)%nat) as [Hk|Hk].
  - rewrite lookup_seq_lt by done. cbn [fmap option_fmap option_map Nat.add]. unfold byte_at. rewrite Nat2Z.id.
    destruct (lookup_lt_is_Some_2 bs k) as [a Ha]; [lia|]. by rewrite Ha.
  - rewrite lookup_seq_ge by lia. apply lookup_ge_None_2. lia.
Qed.

(** A written entry. *)
Lemma dents_written v ip w ip' k bs :
  written x v ip w ip' (DIRENT * Z.of_nat k) bs -> length bs = 16%nat -> dir_ok ip ->
  Z.of_nat k <= i_size ip / DIRENT -> 0 <= i_size ip -> i_size ip' <= MAXFILE * BSIZE ->
  i_size ip' = Z.max (i_size ip) (DIRENT * Z.of_nat k + 16) ->
  dents w ip' = dput k (entry bs) (dents v ip) /\ i_size ip' mod DIRENT = 0.
Proof.
  intros Hw Hbs [_ Hm] Hk H0 Hmax Hsz.
  assert (i_size ip = DIRENT * (i_size ip / DIRENT)) as Ed.
  { rewrite (Z.div_mod (i_size ip) DIRENT) at 1 by (unfold DIRENT; lia). lia. }
  set (N := i_size ip / DIRENT) in *. assert (0 <= N) by (apply Z.div_pos; unfold DIRENT; lia).
  assert (i_size ip' = DIRENT * Z.max N (Z.of_nat k + 1)) as Es by (unfold DIRENT in *; lia).
  assert (i_size ip' / DIRENT = Z.max N (Z.of_nat k + 1)) as Ediv.
  { rewrite Es, Z.mul_comm. apply Z.div_mul. unfold DIRENT. lia. }
  split; [|rewrite Es, Z.mul_comm; apply Z.mod_mul; unfold DIRENT; lia].
  assert (forall j, Z.of_nat j < Z.max N (Z.of_nat k + 1) ->
    dent w (i_addrs ip') j = if decide (j = k) then bs else dent v (i_addrs ip) j) as Hdent.
  { intros j Hj. unfold dent, fread.
    transitivity ((fun q => if decide (j = k) then byte_at bs (Z.of_nat q) else fbyte v (i_addrs ip) (DIRENT * Z.of_nat j + Z.of_nat q)) <$> seq 0 16).
    - apply list_fmap_ext. intros q q' Hq. apply lookup_seq in Hq as [-> Hq]. rewrite (wn_byte _ _ _ _ _ _ _ Hw) by (unfold DIRENT in *; lia).
      rewrite Hbs. destruct (decide (j = k)) as [->|Hne].
      + rewrite decide_True by (unfold DIRENT in *; lia). f_equal. lia.
      + rewrite decide_False by (unfold DIRENT in *; lia). done.
    - destruct (decide (j = k)); [|done]. symmetry. by apply byte_list. }
  unfold dents. rewrite Ediv. apply list_eq. intros j. rewrite list_lookup_fmap.
  fold N. unfold dput. rewrite length_fmap, length_seq.
  destruct (decide (Z.of_nat j < Z.max N (Z.of_nat k + 1))) as [Hj|Hj].
  - rewrite lookup_seq_lt by lia. cbn [fmap option_fmap option_map Nat.add]. rewrite Hdent by done.
    destruct (decide (k < Z.to_nat N)%nat) as [Hkl|Hkl]; destruct (decide (j = k)) as [->|Hne].
    + rewrite list_lookup_insert_eq; [done|]. rewrite length_fmap, length_seq. lia.
    + rewrite list_lookup_insert_ne, list_lookup_fmap, lookup_seq_lt by lia. done.
    + rewrite lookup_app_r by (rewrite length_fmap, length_seq; lia). rewrite length_fmap, length_seq.
      replace (k - Z.to_nat N)%nat with 0%nat by lia. done.
    + rewrite lookup_app_l, list_lookup_fmap, lookup_seq_lt by (rewrite ?length_fmap, ?length_seq; lia). done.
  - rewrite lookup_seq_ge by lia. symmetry. apply lookup_ge_None_2. destruct (decide (k < Z.to_nat N)%nat).
    + rewrite length_insert, length_fmap, length_seq. lia.
    + rewrite length_app, length_fmap, length_seq. simpl. lia.
Qed.

Lemma dirent_fits k : (DIRENT * Z.of_nat k) mod BSIZE + DIRENT <= BSIZE.
Proof.
  change BSIZE with (DIRENT * 64) at 1. rewrite Z.mul_mod_distr_l by (unfold DIRENT; lia).
  pose proof (Z.mod_pos_bound (Z.of_nat k) 64). unfold DIRENT, BSIZE. lia.
Qed.

(** [dirlink] of a name that is not there adds the entry. *)
Lemma wp_dirlink_new i ip name inum Q (vs : fvars C) t :
  let v := t_view t in
  let k := free_slot (dents v ip) in
  sb vs = x -> icache vs !! i = Some ip -> inode_ok x ip -> idle t -> blocks_ok x v ->
  file_ok x v (i_addrs ip) -> no_holes v ip -> dir_ok ip ->
  (7 <= t_budget t)%nat -> nfree x v 2 -> DIRENT * Z.of_nat k + DIRENT <= MAXFILE * BSIZE ->
  dfind (name14 name) (dents v ip) 0 = None ->
  (forall vs' ip' w nb bs, (nb <= 7)%nat -> same_fs (set_icache (<[i := ip']> (icache vs)) vs) vs' -> inode_ok x ip' -> dir_ok ip' ->
     ip' = with_size (i_size ip') (with_addrs (i_addrs ip') ip) ->
     written x v ip w ip' (DIRENT * Z.of_nat k) bs -> dents w ip' = dput k (u16 inum, name14 name) (dents v ip) ->
     Q 0 vs' (with_view w nb t)) ->
  wp (dirlink i name inum) Q vs t.
Proof using Hg.
  intros v k Hsb Hi Hino Hid Hok Hf Hnh Hdir Hbud Hnf Hmax Hnone HQ.
  pose proof (dir_size ip t Hnh Hdir) as [Hsz Hs0]. pose proof Hnh as [Hsz' _]. pose proof Hino as (Hd & _ & _).
  apply wp_bind, (wp_dirlookup i ip t Hd Hid Hok Hf Hnh Hdir name); [done|]. fold v. rewrite Hnone.
  intros vs1 Hs1 _. apply wp_bind, wp_modv.
  apply wp_bind, (wp_get_ino i ip); [cbn; by rewrite Hs1|].
  apply wp_bind. replace 0 with (DIRENT * Z.of_nat 0) at 1 by lia.
  apply (wp_dirlink_scan i ip t Hd Hid Hok Hf Hnh Hdir _ 0);
    [cbn; by rewrite Hs1|apply length_replicate|unfold dir_fuel; lia|lia|].
  rewrite drop_0. cbn [Nat.add]. fold v k. intros vs2 Hs2 Hl2.
  apply wp_bind, wp_modv. destruct (de_fill_ok name inum (kbuf vs2) Hl2) as (Hbl & Hbi & Hbn).
  set (bs := de_fill name inum (kbuf vs2)) in *.
  assert (entry bs = (u16 inum, name14 name)) as Eb by (unfold entry; by rewrite Hbi, Hbn).
  assert (same_fs vs (set_kbuf bs vs2)) as Hs3.
  { unfold same_fs in *. cbn. rewrite Hs2. cbn. rewrite Hs1. done. }
  assert (Z.of_nat k <= i_size ip / DIRENT) as Hkl.
  { pose proof (free_slot_le (dents v ip)) as Hfs. unfold dents in Hfs at 2. rewrite length_fmap, length_seq in Hfs. fold k in Hfs. lia. }
  assert (length (kbuf (set_kbuf bs vs2)) = 16%nat) as Hkb by done.
  apply wp_bind. apply (wp_writei x Hg 1 i ip false 0 (DIRENT * Z.of_nat k) DIRENT bs (fun kb _ => kb = bs)); try done.
  { by rewrite Hs3. }
  { by rewrite Hs3. }
  { apply kernel_source; [lia|]. unfold sub_bytes. change (Z.to_nat 0) with 0%nat. rewrite drop_0. apply take_ge. lia. }
  { rewrite Hbl. done. }
  { unfold DIRENT in *. lia. }
  { pose proof (dirent_fits k). lia. }
  { unfold io_fuel. lia. }
  intros vs' ip' w nb Hnb Hsize Hip' Hino' Hs' _ Hwr. cbn [Z.eqb Pos.eqb DIRENT negb]. apply wp_ret.
  destruct (dents_written v ip w ip' k bs Hwr Hbl Hdir Hkl) as [Hds Hm'].
  { lia. }
  { rewrite Hsize. unfold DIRENT in *. lia. }
  { exact Hsize. }
  apply (HQ vs' ip' w nb bs); try done.
  - unfold same_fs in *. rewrite Hs'. cbn. rewrite Hs2. cbn. rewrite Hs1. done.
  - split; [rewrite Hip'; apply Hdir|done].
  - by rewrite Hds, Eb.
Qed.

(** A name that is there is refused, and the reference that the search took is
    given back. *)
Lemma wp_dirlink_exists i ip name inum p n Q (vs : fvars C) t :
  let v := t_view t in
  icache vs !! i = Some ip -> i_dev ip = ROOTDEV -> idle t -> blocks_ok x v ->
  file_ok x v (i_addrs ip) -> no_holes v ip -> dir_ok ip ->
  dfind (name14 name) (dents v ip) 0 = Some (p, n) ->
  (exists j jp, icache vs !! j = Some jp /\ (cached ROOTDEV n jp \/ i_ref jp = 0)) ->
  (forall vs', sb vs' = sb vs ->
     (forall j jp, icache vs !! j = Some jp -> 0 < i_ref jp -> icache vs' !! j = Some jp) -> Q (-1) vs' t) ->
  wp (dirlink i name inum) Q vs t.
Proof using Hg.
  intros v Hi Hd Hid Hok Hf Hnh Hdir Hfind Hslot HQ.
  apply wp_bind, (wp_dirlookup i ip t Hd Hid Hok Hf Hnh Hdir name); [done|]. fold v. rewrite Hfind.
  intros vs1 Hs1 _. assert (icache vs1 = icache vs) as Ec by (by rewrite Hs1).
  apply wp_bind, wp_iget; [by rewrite Ec|]. rewrite Ec. intros j jp jp' Hj Hcase. apply wp_ret.
  assert (j < length (icache vs))%nat as Hjl by (by eapply lookup_lt_Some).
  apply wp_bind, (wp_iput_keep j jp'); [by apply list_lookup_insert_eq| |].
  { destruct Hcase as [[(Hr & _) ->]|(_ & _ & ->)]; [left; cbn; lia|right; left; done]. }
  apply wp_ret. apply HQ; [by rewrite Hs1|]. intros q qp Hq Hr. cbn [icache set_icache].
  rewrite list_insert_insert_eq. destruct (decide (q = j)) as [->|Hne]; [|by rewrite list_lookup_insert_ne].
  rewrite list_lookup_insert_eq by done. rewrite Hj in Hq. injection Hq as <-.
  destruct Hcase as [[_ ->]|(_ & H0 & _)]; [|lia]. f_equal. destruct jp. unfold with_ref. cbn. f_equal. lia.
Qed.
End dirs.

(** ** Path names *)

(** The elements of a path: what lies between slashes. *)
Fixpoint elems_acc (cur p : bytes) : list bytes :=
  match p with
  | [] => match cur with [] => [] | _ => [cur] end
  | c :: p' =>
      if c =? SLASH then match cur with [] => elems_acc [] p' | _ => cur :: elems_acc [] p' end
      else elems_acc (cur ++ [c]) p'
  end.
Definition elems (p : bytes) : list bytes := elems_acc [] p.

Lemma elems_skip p : elems (skip_slashes p) = elems p.
Proof.
  induction p as [|c p IH]; [done|]. cbn [skip_slashes]. destruct (c =? SLASH) eqn:E; [|done].
  rewrite IH. unfold elems. cbn [elems_acc]. by rewrite E.
Qed.

Lemma elems_acc_span cur p :
  Forall (fun c => c <> 0) p ->
  elems_acc cur p = match cur ++ take (elem_len p) p with
                    | [] => elems (drop (elem_len p) p)
                    | e => e :: elems (drop (elem_len p) p)
                    end.
Proof.
  revert cur. induction p as [|c p IH]; intros cur Hp.
  - cbn. rewrite app_nil_r. by destruct cur.
  - apply Forall_cons in Hp as [Hc Hp]. cbn [elems_acc elem_len]. destruct (c =? SLASH) eqn:E; cbn [orb].
    + cbn [take drop]. rewrite app_nil_r. unfold elems. cbn [elems_acc]. rewrite E. by destruct cur.
    + destruct (Z.eqb_spec c 0); [done|]. rewrite IH by done. cbn [take drop]. by rewrite <-app_assoc.
Qed.

Lemma skip_slashes_hd p c p' : skip_slashes p = c :: p' -> c <> SLASH.
Proof.
  induction p as [|d p IH]; [done|]. cbn [skip_slashes]. destruct (Z.eqb_spec d SLASH); [done|]. by intros [= <- <-].
Qed.

Lemma skip_slashes_nz p : Forall (fun c => c <> 0) p -> Forall (fun c => c <> 0) (skip_slashes p).
Proof.
  induction 1 as [|c p Hc Hp IH]; [done|]. cbn [skip_slashes]. destruct (c =? SLASH); [done|]. by constructor.
Qed.

Lemma skip_slashes_len p : (length (skip_slashes p) <= length p)%nat.
Proof. induction p as [|c p IH]; [done|]. cbn [skip_slashes length]. destruct (c =? SLASH); simpl; lia. Qed.

Lemma cut_nul_app e r : Forall (fun c => c <> 0) e -> cut_nul (e ++ 0 :: r) = e.
Proof. induction 1 as [|c e Hc He IH]; [done|]. cbn. destruct (Z.eqb_spec c 0); [done|]. by rewrite IH. Qed.
Lemma cut_nul_id e : Forall (fun c => c <> 0) e -> cut_nul e = e.
Proof. induction 1 as [|c e Hc He IH]; [done|]. cbn. destruct (Z.eqb_spec c 0); [done|]. by rewrite IH. Qed.

(** [skipelem] takes the first element off a path without zero bytes: nothing
    when there is none, else [name] is the element (cut at 14 bytes) and the rest
    has the other elements and does not start with a slash. *)
Lemma skipelem_elems path name :
  Forall (fun c => c <> 0) path -> (14 <= length name)%nat ->
  match elems path with
  | [] => skipelem path name = None
  | e :: es => exists rest name', skipelem path name = Some (rest, name') /\
      name14 name' = take 14 e /\ length name' = length name /\ elems rest = es /\
      Forall (fun c => c <> 0) rest /\ (length rest < length path)%nat /\ (byte_at rest 0 = 0 <-> es = [])
  end.
Proof.
  intros Hp Hn. unfold skipelem. rewrite <-(elems_skip path). pose proof (skip_slashes_nz path Hp) as Hs.
  pose proof (skip_slashes_len path) as Hlen. destruct (skip_slashes path) as [|c s] eqn:Es; [done|].
  pose proof (skip_slashes_hd _ _ _ Es) as Hc. pose proof Hs as Hcs. apply Forall_cons in Hs as [Hc0 Hs].
  unfold elems. rewrite elems_acc_span by done. change (byte_at (c :: s) 0) with c.
  destruct (Z.eqb_spec c 0); [done|]. set (len := elem_len (c :: s)).
  assert (exists k, len = S k) as [k Ek].
  { unfold len. cbn [elem_len]. destruct (Z.eqb_spec c SLASH); [done|]. destruct (Z.eqb_spec c 0); [done|]. cbn. eauto. }
  rewrite Ek. cbn [app take]. set (e := c :: take k s). set (r := drop (S k) (c :: s)).
  assert (Forall (fun c => c <> 0) e) as He by (constructor; [done|by apply Forall_take]).
  assert (Forall (fun c => c <> 0) r) as Hr by (unfold r; by apply Forall_drop).
  pose proof (skip_slashes_len r) as Hrl.
  assert (length r <= length s)%nat as Hrs by (unfold r; cbn [drop]; rewrite length_drop; lia).
  eexists _, _. split; [reflexivity|]. split; [|split; [|split; [|split; [|split]]]].
  - change (c :: take 13 (take k s)) with (take 14 e). change (c :: take k s ++ [0]) with (e ++ [0]). change (c :: take k s) with e. unfold name14, DIRSIZ. destruct (Z.leb_spec 14 (Z.of_nat (S k))) as [Hk|Hk].
    + unfold upd_bytes. rewrite take_0. cbn [app Nat.add]. change (Z.to_nat 14) with 14%nat.
      destruct (decide (length e < 14)%nat) as [Hle|Hle].
      * exfalso. unfold e in Hle. cbn in Hle. rewrite length_take in Hle.
        assert (k <= length s)%nat; [|lia].
        assert (forall q, elem_len q <= length q)%nat as Hel.
        { induction q as [|d q IHq]; cbn; [lia|]. destruct (_ || _); lia. }
        specialize (Hel (c :: s)). fold len in Hel. rewrite Ek in Hel. simpl in Hel. lia.
      * rewrite take_app_le by (rewrite length_take; lia). rewrite take_take, Nat.min_id.
        apply cut_nul_id. by apply Forall_take.
    + assert (length e <= S k)%nat as Hle by (unfold e; cbn; rewrite length_take; lia).
      unfold upd_bytes. rewrite take_0. clearbody e. cbn [app]. rewrite <-app_assoc. cbn [app].
      rewrite take_app_ge by lia. replace (14 - length e)%nat with (S (13 - length e)) by lia. cbn [take].
      rewrite cut_nul_app by done. symmetry. apply take_ge. lia.
  - assert (length e <= S k)%nat as Hle by (unfold e; cbn; rewrite length_take; lia).
    change (c :: take k s ++ [0]) with (e ++ [0]). change (c :: take k s) with e. destruct (Z.leb_spec DIRSIZ (Z.of_nat (S k))); rewrite length_upd_bytes; try done.
    + rewrite length_take. unfold DIRSIZ in *. lia.
    + rewrite length_app. cbn [length]. unfold DIRSIZ in *. lia.
  - apply elems_skip.
  - by apply skip_slashes_nz.
  - simpl in Hlen. lia.
  - fold (elems r). rewrite <-(elems_skip r). pose proof (skip_slashes_nz r Hr) as Hrn.
    destruct (skip_slashes r) as [|d q] eqn:Er; [done|]. change (byte_at (d :: q) 0) with d.
    apply Forall_cons in Hrn as [Hd Hq]. split; [done|]. unfold elems. rewrite elems_acc_span by (by constructor).
    pose proof (skip_slashes_hd _ _ _ Er) as Hds. cbn [elem_len].
    destruct (Z.eqb_spec d SLASH); [done|]. destruct (Z.eqb_spec d 0); [done|]. done.
Qed.

(** [skipelem] is the splitting of a path at its slashes.  For a path whose
    components are [e :: es] it stores [e], cut to 14 bytes, and returns a shorter
    path with the components [es], which is empty exactly when [e] was the last; for a
    path of slashes only, and for the empty path, it returns 0. *)
Theorem skipelem_splits path name :
  Forall (fun c => c <> 0) path -> (14 <= length name)%nat ->
  match elems path with
  | [] => skipelem path name = None
  | e :: es => exists rest name', skipelem path name = Some (rest, name') /\
      name14 name' = take 14 e /\ elems rest = es /\ (length rest < length path)%nat /\
      (byte_at rest 0 = 0 <-> es = [])
  end.
Proof.
  intros Hp Hn. pose proof (skipelem_elems path name Hp Hn) as Hs. destruct (elems path); [done|].
  destruct Hs as (rest & name' & ? & ? & _ & ? & _ & ? & ?). eauto 10.
Qed.

(** [//ab/c] and a path of slashes. *)
Lemma skipelem_splits_witness :
  (exists rest name', skipelem [47; 47; 97; 98; 47; 99] (replicate 14 0) = Some (rest, name') /\ name14 name' = [97; 98] /\
    elems rest = [[99]]) /\ skipelem [47; 47] (replicate 14 0) = None.
Proof.
  split.
  - destruct (skipelem_splits [47; 47; 97; 98; 47; 99] (replicate 14 0)) as (rest & name' & H1 & H2 & H3 & _);
      [repeat constructor; lia|rewrite length_replicate; lia|]. by exists rest, name'.
  - apply (skipelem_splits [47; 47] (replicate 14 0)); [repeat constructor; lia|rewrite length_replicate; lia].
Defined.
