(* ===== verification/FsPath.v ===== *)
(** Path name lookup: [namex] of kernel/fs/fs.c walks the directory tree. *)

From S2P Require Import Prelude Lock FsDisk FsBlocks FsInode FsFile FsDir.
Import Sleeplock.

Section path.
Context {S H C : Type} `{!TxDisk S H} `{!TxDiskLaws S H} `{!UserCopy C}.
Context (x : superblock) (Hg : geom x).

(** ** The tree on disk *)

(** The directory inode [n] as [ilock] loads it. *)
Definition disk_inode (v : Z -> bytes) (n : Z) : inode :=
  load_inode (dino x v n) (mkino ROOTDEV n 0 initsleeplock true 0 0 0 0 0 []).

Definition is_dir (v : Z -> bytes) (n : Z) : bool := d_type (dino x v n) =? T_DIR.
Definition dir_entries (v : Z -> bytes) (n : Z) : list (Z * bytes) := dents v (disk_inode v n).

(** The inode that a list of names leads to. *)
Fixpoint walk_path (v : Z -> bytes) (n : Z) (es : list bytes) : option Z :=
  match es with
  | [] => Some n
  | e :: es' =>
      if is_dir v n then
        match dfind (take 14 e) (dir_entries v n) 0 with
        | Some (_, n') => walk_path v n' es'
        | None => None
        end
      else None
  end.

Context (v : Z -> bytes) (Hok : blocks_ok x v).

(** The inodes of the tree: allocated, linked, directories with well-formed
    contents whose entries are inodes of the tree. *)
Record tree_ok (G : Z -> Prop) : Prop := {
  to_range : forall n, G n -> 0 <= n < sb_ninodes x;
  to_type : forall n, G n -> d_type (dino x v n) <> 0 /\ d_nlink (dino x v n) <> 0;
  to_dir : forall n, G n -> is_dir v n = true ->
    file_ok x v (d_addrs (dino x v n)) /\ no_holes v (disk_inode v n) /\ dir_ok (disk_inode v n);
  to_ents : forall n e, G n -> is_dir v n = true -> e ∈ dir_entries v n -> e.1 <> 0 -> G e.1 }.

Context (G : Z -> Prop) (Htree : tree_ok G) (Hroot : G ROOTINO).

(** The cache agrees with the disk; at most [lk] is locked. *)
Definition entry_ok (locked_ok : bool) (ip : inode) : Prop :=
  0 <= i_ref ip /\ (locked_ok = false -> locked (i_lock ip) = false) /\
  (0 < i_ref ip -> i_dev ip = ROOTDEV /\ G (i_inum ip) /\
     (i_valid ip = true -> dinode_of ip = dino x v (i_inum ip))).
Definition cache_ents (lk : option nat) (c : list inode) : Prop :=
  forall j ip, c !! j = Some ip -> entry_ok (bool_decide (lk = Some j)) ip.
(** An inode is in at most one slot. *)
Definition cache_uniq (c : list inode) : Prop :=
  forall j k jp kp, c !! j = Some jp -> c !! k = Some kp -> 0 < i_ref jp -> 0 < i_ref kp ->
    i_inum jp = i_inum kp -> j = k.
Definition cache_ok (lk : option nat) (c : list inode) : Prop := cache_ents lk c /\ cache_uniq c.

(** The slot keeps its inode, is given up, or takes an inode that is in no slot. *)
Definition slot_step (c : list inode) (ip ip' : inode) : Prop :=
  0 < i_ref ip' -> 0 < i_ref ip /\ i_inum ip' = i_inum ip \/ Forall (fun q => ~ cached ROOTDEV (i_inum ip') q) c.

Lemma cache_upd lk lk' c j ip ip' :
  cache_ok lk c -> c !! j = Some ip -> entry_ok (bool_decide (lk' = Some j)) ip' -> slot_step c ip ip' ->
  (forall k, k <> j -> lk = Some k -> lk' = Some k) -> cache_ok lk' (<[j := ip']> c).
Proof.
  intros [Hc Hu] Hj He Hst Hlk. split.
  2: { assert (forall k kp, c !! k = Some kp -> 0 < i_ref kp -> 0 < i_ref ip' -> i_inum kp = i_inum ip' -> j = k) as Hju.
       { intros k kp Hk Hr Hr' E. destruct (Hst Hr') as [[Hr0 E0]|Hall].
         - apply (Hu j k ip kp); try done. congruence.
         - rewrite Forall_lookup in Hall. exfalso. apply (Hall k kp Hk). split; [done|]. split; [|done]. by apply (Hc k kp Hk). }
       intros k1 k2 p1 p2 [(<- & <- & _)|[N1 H1]]%list_lookup_insert_Some [(<- & <- & _)|[N2 H2]]%list_lookup_insert_Some R1 R2 E;
         [done|by apply (Hju k2 p2)|symmetry; by apply (Hju k1 p1)|by apply (Hu k1 k2 p1 p2)]. }
  intros k kp. destruct (decide (k = j)) as [->|Hne].
  - rewrite list_lookup_insert_eq by (by eapply lookup_lt_Some). by intros [= <-].
  - rewrite list_lookup_insert_ne by done. intros Hk. destruct (Hc k kp Hk) as (H1 & H2 & H3). split; [done|].
    split; [|done]. intros Hb. apply H2. apply bool_decide_eq_false in Hb. apply bool_decide_eq_false. auto.
Qed.

Lemma slot_keep c ip ip' : 0 < i_ref ip -> i_inum ip' = i_inum ip -> slot_step c ip ip'.
Proof. intros ?? _. by left. Qed.

(** What [iget] does to a slot. *)
Definition got_ref (c : list inode) (n : Z) (ip ip' : inode) : Prop :=
  cached ROOTDEV n ip /\ ip' = with_ref (i_ref ip + 1) ip \/
  Forall (fun q => ~ cached ROOTDEV n q) c /\ i_ref ip = 0 /\ ip' = fresh_inode ROOTDEV n ip.

Lemma slot_get c n ip ip' : got_ref c n ip ip' -> slot_step c ip ip'.
Proof. intros [[(Hr & _ & E) ->]|(Hall & _ & ->)] _; [by left|by right]. Qed.

Definition refs (c : list inode) : list Z := i_ref <$> c.

Lemma refs_insert c j ip' : refs (<[j := ip']> c) = <[j := i_ref ip']> (refs c).
Proof. apply list_fmap_insert. Qed.

(** What the directory search leaves alone. *)
Lemma same_fs_fields (vs vs' : fvars C) :
  same_fs vs vs' -> sb vs' = sb vs /\ f_pid vs' = f_pid vs /\ icache vs' = icache vs.
Proof. by intros ->. Qed.

(** ** Locking *)

(** [ilock] of an inode of the tree: it is locked and holds what is on disk. *)
Lemma wp_ilock i ip p Q (vs : fvars C) t :
  sb vs = x -> f_pid vs = Some p -> idle t -> t_view t = v ->
  icache vs !! i = Some ip -> entry_ok false ip -> 0 < i_ref ip ->
  (forall ip', ip' = load_inode (dino x v (i_inum ip)) (with_valid true (with_lock (mksl true p) ip)) ->
     Q tt (set_icache (<[i := ip']> (icache vs)) vs) t) ->
  wp (ilock i) Q vs t.
Proof using Hg Htree.
  intros Hsb Hpid Hid Hv Hi (Href & Hlk & Hrest) Hpos HQ. destruct (Hrest Hpos) as (Hd & HG & Hval).
  unfold ilock. apply wp_bind, (wp_get_ino i ip); [done|]. destruct (Z.ltb_spec (i_ref ip) 1); [lia|].
  assert (i < length (icache vs))%nat as Hil by (by eapply lookup_lt_Some).
  apply wp_bind. unfold ino_acquiresleep. apply wp_bind, (wp_get_ino i ip); [done|]. apply wp_bind, wp_getv.
  unfold acquiresleep. rewrite Hlk, Hpid by done. apply wp_modv.
  set (ip1 := with_lock (mksl true p) ip). set (vs1 := set_icache _ vs).
  assert (icache vs1 !! i = Some ip1) as Hi1 by (by apply list_lookup_insert_eq).
  apply wp_bind, (wp_get_ino i ip1); [done|]. change (i_valid ip1) with (i_valid ip).
  destruct (i_valid ip) eqn:Ev.
  - apply wp_ret. apply (HQ ip1). unfold ip1. rewrite <-Hval by done. destruct ip. cbn in Ev. by rewrite Ev.
  - apply wp_bind, wp_getv. change (sb vs1) with (sb vs). rewrite Hsb.
    pose proof (IBLOCK_range x Hg (i_inum ip) (to_range _ Htree _ HG)) as Hr.
    pose proof (layout_order x Hg). pose proof (g_data _ Hg).
    apply wp_read; [done|apply (idle_can_read x Hg); [done|change (i_inum ip1) with (i_inum ip); lia]|]. intros h. cbv zeta.
    change (i_inum ip1) with (i_inum ip). rewrite Hv. fold (dino x v (i_inum ip)).
    apply wp_bind, (wp_mod_ino i ip1); [done|].
    apply wp_bind, wp_brelse_back; [apply Hid|destruct Hid as [-> _]; done|].
    apply wp_bind, (wp_mod_ino i (load_inode (dino x v (i_inum ip)) ip1)).
    { cbn. apply list_lookup_insert_eq. by rewrite length_insert. }
    destruct (to_type _ Htree _ HG) as [Ht _]. destruct (Z.eqb_spec (d_type (dino x v (i_inum ip))) 0); [done|].
    apply wp_ret. unfold vs1. cbn [icache set_icache]. rewrite !list_insert_insert_eq. by apply HQ.
Qed.

Lemma wp_iunlock i ip p Q (vs : fvars C) t :
  f_pid vs = Some p -> p <> -1 -> icache vs !! i = Some ip -> i_lock ip = mksl true p -> 0 < i_ref ip ->
  Q tt (set_icache (<[i := with_lock (mksl false 0) ip]> (icache vs)) vs) t -> wp (iunlock i) Q vs t.
Proof.
  intros Hpid Hp Hi Hl Hr HQ. unfold iunlock. apply wp_bind. unfold ino_holding.
  apply wp_bind, (wp_get_ino i ip); [done|]. apply wp_bind, wp_getv. apply wp_bind, wp_getv.
  unfold holdingsleep. rewrite Hl, Hpid. cbn [Sleeplock.pid locked]. destruct (Z.eqb_spec p (-1)); [done|].
  rewrite Z.eqb_refl. apply wp_ret. apply wp_bind, (wp_get_ino i ip); [done|].
  destruct (Z.ltb_spec (i_ref ip) 1); [lia|]. cbn [negb orb]. by apply (wp_mod_ino i ip).
Qed.

Lemma wp_iunlockput i ip p Q (vs : fvars C) t :
  f_pid vs = Some p -> p <> -1 -> icache vs !! i = Some ip -> i_lock ip = mksl true p -> 0 < i_ref ip -> i_nlink ip <> 0 ->
  Q tt (set_icache (<[i := with_ref (i_ref ip - 1) (with_lock (mksl false 0) ip)]> (icache vs)) vs) t ->
  wp (iunlockput i) Q vs t.
Proof.
  intros Hpid Hp Hi Hl Hr Hn HQ. unfold iunlockput. apply wp_bind, (wp_iunlock i ip p); try done.
  assert (i < length (icache vs))%nat as Hil by (by eapply lookup_lt_Some).
  apply (wp_iput_keep i (with_lock (mksl false 0) ip)); [by apply list_lookup_insert_eq|by right; right|].
  cbn [icache set_icache]. by rewrite list_insert_insert_eq.
Qed.

Lemma dfind_elem nm ds k p n : dfind nm ds k = Some (p, n) -> n <> 0 /\ exists m, (n, m) ∈ ds.
Proof.
  revert k. induction ds as [|[n' m'] ds IH]; intros k; cbn [dfind]; [done|].
  destruct (Z.eqb_spec n' 0) as [|Hn]; cbn [negb andb].
  - intros Hf. destruct (IH _ Hf) as (? & m & ?). split; [done|]. exists m. by apply elem_of_cons; right.
  - destruct (bool_decide (m' = nm)).
    + intros [= <- <-]. split; [done|]. exists m'. apply elem_of_cons. by left.
    + intros Hf. destruct (IH _ Hf) as (? & m & ?). split; [done|]. exists m. by apply elem_of_cons; right.
Qed.

(** ** The walk *)

(** [namex] with [nameiparent]: the directory of the last name, and that name. *)
Fixpoint walk_parent (n : Z) (es : list bytes) : option (Z * bytes) :=
  match es with
  | [] => None
  | e :: es' =>
      if is_dir v n then
        match es' with
        | [] => Some (n, take 14 e)
        | _ => match dfind (take 14 e) (dir_entries v n) 0 with
               | Some (_, n') => walk_parent n' es'
               | None => None
               end
        end
      else None
  end.

Context (p : Z) (Hp : p <> -1) (R0 : list Z) (a b : nat) (Hab : a <> b)
  (Ha : R0 !! a = Some 0) (Hb : R0 !! b = Some 0).

(** The caller has one reference, to inode [n] in slot [i]; without it the
    reference counts are [R0]. *)
Definition holds (i : nat) (n : Z) (c : list inode) : Prop :=
  exists ip r, c !! i = Some ip /\ i_inum ip = n /\ R0 !! i = Some r /\ 0 <= r /\ i_ref ip = r + 1 /\
    refs c = <[i := r + 1]> R0.

Definition path_state (vs : fvars C) : Prop := sb vs = x /\ f_pid vs = Some p /\ cache_ok None (icache vs).

Definition found (parent : bool) (n : Z) (es : list bytes) (o : option nat) (nm : bytes) (c : list inode) : Prop :=
  match (if parent then walk_parent n es else (fun m => (m, name14 nm)) <$> walk_path v n es) with
  | Some (m, e) => exists j, o = Some j /\ name14 nm = e /\ holds j m c
  | None => o = None /\ refs c = R0
  end.

Lemma refs_restore c i r r' : R0 !! i = Some r -> refs c = <[i := r']> R0 -> <[i := r]> (refs c) = R0.
Proof. intros Hi ->. rewrite list_insert_insert_eq. by apply list_insert_id. Qed.

(** A slot other than [i] is empty. *)
Lemma other_slot i r c : refs c = <[i := r]> R0 -> exists j jp, c !! j = Some jp /\ j <> i /\ i_ref jp = 0.
Proof using a b Hab Ha Hb.
  intros Hr. assert (exists j, j <> i /\ R0 !! j = Some 0) as (j & Hj & H0).
  { destruct (decide (a = i)) as [->|]; [exists b|exists a]; auto. }
  assert (refs c !! j = Some 0) as Hj0 by (by rewrite Hr, list_lookup_insert_ne).
  unfold refs in Hj0. rewrite list_lookup_fmap in Hj0. destruct (c !! j) as [jp|] eqn:E; [|done].
  injection Hj0 as Hz. eauto.
Qed.

Definition loaded (ip : inode) : inode := load_inode (dino x v (i_inum ip)) (with_valid true (with_lock (mksl true p) ip)).

(** One step down: the next inode is referenced and this one given back. *)
Lemma step_down i ip j jp jp' c n' :
  cache_ok None c -> holds i (i_inum ip) c -> c !! i = Some ip -> G n' ->
  let c1 := <[i := loaded ip]> c in
  c1 !! j = Some jp ->
  got_ref c1 n' jp jp' ->
  let c2 := <[j := jp']> c1 in
  exists ip2, c2 !! i = Some ip2 /\ i_lock ip2 = mksl true p /\ 0 < i_ref ip2 /\ i_nlink ip2 = d_nlink (dino x v (i_inum ip)) /\
    let c3 := <[i := with_ref (i_ref ip2 - 1) (with_lock (mksl false 0) ip2)]> c2 in
    cache_ok None c3 /\ holds j n' c3.
Proof.
  intros Hc (ip0 & r & Hi0 & _ & HR & Hr0 & Hr & Hrefs) Hi HG c1 Hj Hcase c2.
  rewrite Hi in Hi0. injection Hi0 as <-.
  assert (i < length c)%nat as Hil by (by eapply lookup_lt_Some).
  destruct (proj1 Hc i ip Hi) as (He1 & He2 & He3). destruct (He3 ltac:(lia)) as (Hd & HGi & Hval).
  assert (entry_ok true (loaded ip)) as Hel.
  { split; [cbn; lia|]. split; [done|]. intros _. split; [done|]. split; [done|]. intros _. by destruct (dino x v (i_inum ip)). }
  assert (cache_ok (Some i) c1) as Hc1.
  { apply (cache_upd None (Some i) c i ip); [done|done|by rewrite bool_decide_true|apply slot_keep; [cbn; lia|done]|done]. }
  assert (refs c1 = <[i := r + 1]> R0) as Hrefs1.
  { unfold c1. rewrite refs_insert, Hrefs. cbn [i_ref loaded load_inode with_valid with_lock]. rewrite Hr. by rewrite list_insert_insert_eq. }
  destruct (proj1 Hc1 j jp Hj) as (Hj1 & Hj2 & Hj3).
  assert (entry_ok (bool_decide (Some i = Some j)) jp' /\ i_inum jp' = n' /\ i_ref jp' = i_ref jp + 1) as (Hej & Hnj & Hrj).
  { pose proof (slot_get _ _ _ _ Hcase) as Hst. destruct Hcase as [[(Hcr & Hcd & Hcn) ->]|(_ & Hz & ->)].
    - destruct (Hj3 Hcr) as (? & ? & ?). split; [|done]. split; [cbn; lia|]. split; [exact Hj2|]. intros _. done.
    - split; [|split; [done|cbn; lia]]. split; [cbn; lia|]. split; [exact Hj2|]. intros _. done. }
  assert (cache_ok (Some i) c2) as Hc2 by (apply (cache_upd (Some i) (Some i) c1 j jp); try done; by apply (slot_get _ n')).
  assert (j < length c1)%nat as Hjl by (by eapply lookup_lt_Some).
  assert (c1 !! i = Some (loaded ip)) as Hi1 by (by apply list_lookup_insert_eq).
  assert (exists q, R0 !! j = Some q) as [q Hq].
  { apply lookup_lt_is_Some_2. apply (f_equal length) in Hrefs1. rewrite length_insert in Hrefs1. unfold refs in Hrefs1.
    rewrite length_fmap in Hrefs1. lia. }
  assert (refs c1 !! j = Some (i_ref jp)) as Hrj1 by (unfold refs; by rewrite list_lookup_fmap, Hj).
  destruct (decide (j = i)) as [->|Hne].
  - rewrite Hi1 in Hj. injection Hj as <-. destruct Hcase as [[(Hcr & Hcd & Hcn) ->]|(_ & Hz & _)]; [|cbn in Hz; lia].
    exists (with_ref (i_ref (loaded ip) + 1) (loaded ip)). split; [by apply list_lookup_insert_eq|].
    split; [done|]. split; [cbn; lia|]. split; [done|]. cbv zeta.
    set (ip3 := with_ref _ (with_lock _ _)). assert (i_ref ip3 = r + 1) as Er3 by (cbn; lia).
    split.
    + apply (cache_upd (Some i) None c2 i (with_ref (i_ref (loaded ip) + 1) (loaded ip))); [done|by apply list_lookup_insert_eq| |apply slot_keep; [cbn; lia|done]|intros k Hk [= ->]; done].
      split; [lia|]. split; [done|]. intros _. split; [done|]. split; [done|]. intros _. by destruct (dino x v (i_inum ip)).
    + exists ip3, r. split; [apply list_lookup_insert_eq; unfold c2; rewrite length_insert; done|]. split; [exact Hcn|]. split; [done|]. split; [done|]. split; [done|].
      rewrite refs_insert. unfold c2. rewrite refs_insert, Hrefs1, Er3. by rewrite !list_insert_insert_eq.
  - exists (loaded ip). assert (c2 !! i = Some (loaded ip)) as Hi2 by (unfold c2; by rewrite list_lookup_insert_ne).
    split; [done|]. split; [done|]. split; [cbn; lia|]. split; [done|]. cbv zeta.
    set (ip3 := with_ref _ (with_lock _ _)). assert (i_ref ip3 = r) as Er3 by (cbn; lia).
    split.
    + apply (cache_upd (Some i) None c2 i (loaded ip)); [done|done| |apply slot_keep; [cbn; lia|done]|intros k Hk [= ->]; done].
      split; [lia|]. split; [done|]. intros _. split; [done|]. split; [done|]. intros _. by destruct (dino x v (i_inum ip)).
    + rewrite Hrefs1, list_lookup_insert_ne, Hq in Hrj1 by done. injection Hrj1 as ->.
      exists jp', (i_ref jp). split; [rewrite list_lookup_insert_ne by done; unfold c2; by rewrite list_lookup_insert_eq|].
      split; [done|]. split; [done|]. split; [done|]. split; [done|].
      rewrite refs_insert. unfold c2. rewrite refs_insert, Hrefs1, Er3, Hrj.
      rewrite list_insert_insert_ne by done. rewrite list_insert_insert_eq. f_equal. by apply list_insert_id.
Qed.

(** Giving the reference back without a successor. *)
Lemma drop_ref i ip c :
  cache_ok None c -> holds i (i_inum ip) c -> c !! i = Some ip ->
  let c3 := <[i := with_ref (i_ref ip - 1) (with_lock (mksl false 0) (loaded ip))]> c in
  cache_ok None c3 /\ refs c3 = R0.
Proof.
  intros Hc (ip0 & r & Hi0 & _ & HR & Hr0 & Hr & Hrefs) Hi c3. rewrite Hi in Hi0. injection Hi0 as <-.
  destruct (proj1 Hc i ip Hi) as (He1 & He2 & He3). destruct (He3 ltac:(lia)) as (Hd & HGi & _). split.
  - apply (cache_upd None None c i ip); [done|done| |apply slot_keep; [cbn; lia|done]|done]. split; [cbn; lia|]. split; [done|]. intros _.
    split; [done|]. split; [done|]. intros _. by destruct (dino x v (i_inum ip)).
  - unfold c3. rewrite refs_insert. cbn [i_ref with_ref]. replace (i_ref ip - 1) with r by lia.
    by apply (refs_restore _ _ _ (r + 1)).
Qed.

Lemma wp_namex_loop fuel path parent name i n Q (vs : fvars C) t :
  Forall (fun c => c <> 0) path -> (length path < fuel)%nat -> (14 <= length name)%nat ->
  idle t -> t_view t = v -> path_state vs -> holds i n (icache vs) -> G n ->
  (forall o nm vs', path_state vs' -> found parent n (elems path) o nm (icache vs') -> Q (o, nm) vs' t) ->
  wp (namex_loop fuel path parent name i) Q vs t.
Proof using Hg Hok Htree Hp Hab Ha Hb.
  revert path name i n vs. induction fuel as [|fuel IH];
    intros path name i n vs Hpath Hfuel Hname Hid Hv (Hsb & Hpid & Hc) Hh HGn HQ; [lia|].
  cbn [namex_loop]. pose proof (skipelem_elems path name Hpath Hname) as Hskip.
  pose proof Hh as (ip & r & Hi & Hn & HR & Hr0 & Hr & Hrefs).
  assert (i < length (icache vs))%nat as Hil by (by eapply lookup_lt_Some).
  pose proof (proj1 Hc i ip Hi) as Hent. pose proof Hent as (_ & _ & Hrest). destruct (Hrest ltac:(lia)) as (Hd & _ & Hval).
  pose proof (to_type _ Htree n HGn) as [_ Hnl]. subst n.
  unfold found in HQ. destruct (elems path) as [|e es].
  { rewrite Hskip. cbn [walk_parent walk_path] in HQ. destruct parent.
    - destruct (drop_ref i ip (icache vs) Hc Hh Hi) as [_ _].
      apply wp_bind, (wp_iput_keep i ip); [done| |].
      { destruct (i_valid ip) eqn:Ev; [|by right; left]. right; right. specialize (Hval eq_refl).
        intros E. apply Hnl. rewrite <-Hval. exact E. }
      apply wp_ret. apply HQ.
      + split; [done|]. split; [done|]. cbn. apply (cache_upd None None _ i ip); [done|done| |apply slot_keep; [cbn; lia|done]|done].
        destruct Hent as (H1 & H2 & H3). split; [cbn; lia|]. split; [done|]. intros _. apply H3. lia.
      + split; [done|]. cbn. rewrite refs_insert. cbn [i_ref with_ref]. replace (i_ref ip - 1) with r by lia.
        by apply (refs_restore _ _ _ (r + 1)).
    - apply wp_ret. apply HQ; [done|]. cbn [fmap option_fmap option_map]. by exists i. }
  destruct Hskip as (rest & nm & -> & Hnm & Hnl' & Hes & Hrest' & Hrl & Hlast).
  apply wp_bind, (wp_ilock i ip p); try done; [lia|]. intros ip' ->. fold (loaded ip).
  set (vs1 := set_icache (<[i := loaded ip]> (icache vs)) vs).
  assert (icache vs1 !! i = Some (loaded ip)) as Hi1 by (by apply list_lookup_insert_eq).
  apply wp_bind, (wp_get_ino i (loaded ip)); [done|].
  destruct (drop_ref i ip (icache vs) Hc Hh Hi) as [Hdc Hdr].
  assert (forall (vs2 : fvars C) (Q' : unit -> fvars C -> tx H -> Prop), same_fs vs1 vs2 ->
    (forall vs', path_state vs' -> refs (icache vs') = R0 -> Q' tt vs' t) -> wp (iunlockput i) Q' vs2 t) as Hgive.
  { intros vs2 Q' (Es & Ep & Ec)%same_fs_fields HQ'.
    apply (wp_iunlockput i (loaded ip) p); rewrite ?Ep, ?Ec; try done; [cbn; lia|].
    cbn [icache set_icache vs1]. rewrite list_insert_insert_eq. apply HQ'; [|exact Hdr].
    split; [by rewrite <-Hsb|]. split; [by rewrite <-Hpid|exact Hdc]. }
  change (i_type (loaded ip)) with (d_type (dino x v (i_inum ip))). fold (is_dir v (i_inum ip)).
  cbn [walk_parent walk_path] in HQ. destruct (is_dir v (i_inum ip)) eqn:Edir; cbn [negb].
  2: { apply wp_bind, (Hgive vs1); [by destruct vs1|]. intros vs' Hst Hrf. apply wp_ret. apply HQ; [done|]. destruct parent; done. }
  destruct (to_dir _ Htree _ HGn Edir) as (Hfile & Hholes & Hdirok).
  destruct (parent && (byte_at rest 0 =? 0)) eqn:Epar.
  { apply andb_true_iff in Epar as [-> Elast%Z.eqb_eq]. apply Hlast in Elast as ->.
    apply wp_bind, (wp_iunlock i (loaded ip) p); try done; [cbn; lia|]. apply wp_ret. cbn [icache set_icache vs1].
    rewrite list_insert_insert_eq. apply HQ.
    - split; [done|]. split; [done|]. cbn. apply (cache_upd None None _ i ip); [done|done| |apply slot_keep; [cbn; lia|done]|done].
      split; [cbn; lia|]. split; [done|]. intros _. split; [done|]. split; [done|]. intros _. by destruct (dino x v (i_inum ip)).
    - exists i. split; [done|]. split; [done|]. eexists _, r. split; [cbn; by apply list_lookup_insert_eq|].
      split; [done|]. split; [done|]. split; [done|]. split; [cbn; lia|]. cbn. rewrite refs_insert, Hrefs. cbn [i_ref with_lock loaded load_inode with_valid].
      rewrite Hr. by rewrite list_insert_insert_eq. }
  apply wp_bind.
  apply (wp_dirlookup x Hg i (loaded ip) t Hd Hid); rewrite ?Hv; try done.
  change (dents v (loaded ip)) with (dir_entries v (i_inum ip)). rewrite Hnm.
  intros vs2 Hs2 _. destruct (same_fs_fields _ _ Hs2) as (Es2 & Ep2 & Ec2). destruct (dfind (take 14 e) (dir_entries v (i_inum ip)) 0) as [[pos n']|] eqn:Efind.
  - destruct (dfind_elem _ _ _ _ _ Efind) as (Hn0 & m & Hm).
    assert (G n') as HGn' by (by apply (to_ents _ Htree _ _ HGn Edir Hm)).
    cbn [vs1 set_icache icache] in Ec2.
    apply wp_bind, wp_iget.
    { destruct (other_slot i (r + 1) (icache vs2)) as (j & jp & Hj & _ & Hz).
      - rewrite Ec2, refs_insert, Hrefs. cbn [i_ref loaded load_inode with_valid with_lock]. rewrite Hr. by rewrite list_insert_insert_eq.
      - exists j, jp. auto. }
    rewrite Ec2. intros j jp jp' Hj Hcase. apply wp_ret.
    destruct (step_down i ip j jp jp' (icache vs) n') as (ip2 & Hi2 & Hl2 & Hr2 & Hnl2 & Hc3 & Hh3); try done.
    apply wp_bind, (wp_iunlockput i ip2 p); rewrite ?Hnl2; try done; [by etransitivity|].
    apply (IH rest nm j n'); try done; [lia|lia|split; [by etransitivity|split; [by etransitivity|exact Hc3]]|].
    intros o nm' vs' Hst Hf. apply HQ; [done|]. unfold found in Hf. rewrite Hes in Hf.
    destruct parent; [|done]. destruct es as [|e' es']; [|done].
    cbn in Epar. destruct (Z.eqb_spec (byte_at rest 0) 0) as [|Hne]; [done|]. exfalso. apply Hne. by apply Hlast.
  - apply wp_bind, (Hgive vs2); [done|]. intros vs' Hst Hrf. apply wp_ret. apply HQ; [done|].
    destruct parent; [|done]. destruct es as [|e' es']; [|done].
    cbn in Epar. destruct (Z.eqb_spec (byte_at rest 0) 0) as [|Hne]; [done|]. exfalso. apply Hne. by apply Hlast.
Qed.

(** ** The whole lookup *)

(** Where a path starts: at the root, or at the current directory. *)
Definition starts (path : bytes) (vs : fvars C) (n : Z) : Prop :=
  if byte_at path 0 =? SLASH then n = ROOTINO
  else exists ip, icache vs !! f_cwd vs = Some ip /\ 0 < i_ref ip /\ i_inum ip = n.

Lemma take_ref c j jp jp' n :
  cache_ok None c -> refs c = R0 -> G n -> c !! j = Some jp ->
  got_ref c n jp jp' ->
  cache_ok None (<[j := jp']> c) /\ holds j n (<[j := jp']> c).
Proof.
  intros Hc HR HG Hj Hcase. destruct (proj1 Hc j jp Hj) as (H1 & H2 & H3).
  assert (j < length c)%nat as Hjl by (by eapply lookup_lt_Some).
  assert (entry_ok false jp' /\ i_inum jp' = n /\ i_ref jp' = i_ref jp + 1) as (He & Hn & Hr).
  { pose proof (slot_get _ _ _ _ Hcase) as Hst. destruct Hcase as [[(Hcr & Hcd & Hcn) ->]|(_ & Hz & ->)].
    - destruct (H3 Hcr) as (? & ? & ?). split; [|done]. split; [cbn; lia|]. split; [exact H2|]. intros _. done.
    - split; [|split; [done|cbn; lia]]. split; [cbn; lia|]. split; [exact H2|]. intros _. done. }
  split; [apply (cache_upd None None c j jp); try done; by apply (slot_get _ n)|].
  exists jp', (i_ref jp). split; [by apply list_lookup_insert_eq|]. split; [done|].
  split; [rewrite <-HR; unfold refs; by rewrite list_lookup_fmap, Hj|]. split; [done|]. split; [done|].
  by rewrite refs_insert, HR, Hr.
Qed.

Lemma wp_namex path parent name n Q (vs : fvars C) t :
  Forall (fun c => c <> 0) path -> (14 <= length name)%nat -> idle t -> t_view t = v ->
  path_state vs -> refs (icache vs) = R0 -> starts path vs n ->
  (forall o nm vs', path_state vs' -> found parent n (elems path) o nm (icache vs') -> Q (o, nm) vs' t) ->
  wp (namex path parent name) Q vs t.
Proof using Hg Hok Htree Hroot Hp Hab Ha Hb.
  intros Hpath Hname Hid Hv (Hsb & Hpid & Hc) HR Hst HQ. unfold namex, starts in *. apply wp_bind.
  destruct (byte_at path 0 =? SLASH).
  - subst n. apply wp_iget.
    + assert (refs (icache vs) !! a = Some 0) as Ea by (by rewrite HR). unfold refs in Ea. rewrite list_lookup_fmap in Ea.
      destruct (icache vs !! a) as [ap|] eqn:Eap; [|done]. injection Ea as Ea. eauto.
    + intros j jp jp' Hj Hcase. destruct (take_ref (icache vs) j jp jp' ROOTINO) as [Hc' Hh']; try done.
      apply (wp_namex_loop _ path parent name j ROOTINO); try done; lia.
  - destruct Hst as (ip & Hi & Hr & <-). apply wp_bind, wp_getv.
    destruct (proj1 Hc _ _ Hi) as (_ & _ & H3). destruct (H3 Hr) as (Hd & HGi & _).
    apply wp_bind, (wp_mod_ino _ ip); [done|]. apply wp_ret.
    destruct (take_ref (icache vs) (f_cwd vs) ip (with_ref (i_ref ip + 1) ip) (i_inum ip)) as [Hc' Hh']; try done; [by left|].
    apply (wp_namex_loop _ path parent name (f_cwd vs) (i_inum ip)); try done; lia.
Qed.

Lemma wp_namei path n Q (vs : fvars C) t :
  Forall (fun c => c <> 0) path -> idle t -> t_view t = v ->
  path_state vs -> refs (icache vs) = R0 -> starts path vs n ->
  (forall o vs', path_state vs' ->
     match walk_path v n (elems path) with
     | Some m => exists j, o = Some j /\ holds j m (icache vs')
     | None => o = None /\ refs (icache vs') = R0
     end -> Q o vs' t) ->
  wp (namei path) Q vs t.
Proof using Hg Hok Htree Hroot Hp Hab Ha Hb.
  intros Hpath Hid Hv Hps HR Hst HQ. unfold namei. apply wp_bind, (wp_namex path false _ n); try done.
  intros o nm vs' Hps' Hf. apply wp_ret. cbn [fst]. apply HQ; [done|]. unfold found in Hf.
  destruct (walk_path v n (elems path)) as [m|]; [|done]. destruct Hf as (j & ? & _ & ?). eauto.
Qed.

End path.
