(* ===== verification/FsTx.v ===== *)
(** The file system over the log and the buffer cache.

    The operations of FsBlocks.v to FsPath.v are proved against [TxDisk].  Here
    they run on the log of log.c over the buffer cache of bio.c, with [fsinit] of
    kernel/fs/fs.c, and the promises of [TxDiskLaws] are proved of it, so that a
    file-system operation between [begin_op] and [end_op] is atomic with respect to
    crashes. *)

From S2P Require Import Prelude Lock BlockCache Bio Log FsDisk FsBlocks FsInode FsFile.

#[export] Instance log_disk : TxDisk (lstate bcache) nat := {
  td_bread dev b := lift (bread dev b);
  td_data h := lift (buf_data h);
  td_store h v := lift (buf_store h v);
  td_log_write := log_write;
  td_brelse h := lift (brelse h) }.

(** [fsinit]. *)
Definition fsinit {C} `{!UserCopy C} (dev : Z) : M (fsstate (lstate bcache) C) unit :=
  readsb dev;;
  x ← getv sb;
  (if negb (sb_magic x =? FSMAGIC) then panic "invalid file system" else ret tt);;
  fdisk (initlog dev (sb_logstart x) (sb_nlog x)).

Lemma lift_ok {A} (m : M bcache A) (s : lstate bcache) x s' :
  m (bc s) = Ok x s' -> lift m s = Ok x (mkls (lg s) s').
Proof. intros E. unfold lift. by rewrite E. Qed.

Section laws.
Context (p : Z) (Hp : p <> -1) (st : Z) (d0 : Z -> bytes) (tr0 : list (Z * bytes)).

(** The state of the log and of the cache inside a transaction, when the buffers
    of [t] are held: without them the cache has the references [m0] and the
    contents [v0], for which the invariant of the log holds. *)
Record tx_over (s : lstate bcache) (t : tx nat) (a : acache nat) (m0 : gmap Z (aref nat)) (v0 : Z -> bytes) : Prop := {
  tv_bc : brel 1 p (bc s) a;
  tv_inv : tx_inv (nbuf := NBUF) (lg s) (mkcache d0 v0 m0 tr0);
  tv_disk : a_disk a = d0;
  tv_trace : a_trace a = tr0;
  tv_view : a_view a = t_view t;
  tv_v0 : forall b, b ∉ t_dirty t -> v0 b = t_view t b;
  tv_refs : forall b, a_refs a !! b =
    match t_held t !! b with
    | None => m0 !! b
    | Some h => Some (mkref h (cnt_of (m0 !! b) + 1) true)
    end;
  tv_held : forall b h, t_held t !! b = Some h -> loggable st b /\ forall r, m0 !! b = Some r -> r_h r = h;
  tv_dirty : t_dirty t ⊆ dom (t_held t);
  tv_free : forall b, loggable st b -> b ∉ logged (lg s) -> m0 !! b = None;
  tv_logged : forall b, b ∈ t_logged t -> b ∈ logged (lg s);
  tv_size : (size m0 + t_budget t + MAXHELD < NBUF)%nat;
  tv_room : lh_n (lg s) + Z.of_nat (t_budget t) + 1 < LOGSIZE;
  tv_lsize : lh_n (lg s) + Z.of_nat (t_budget t) + 1 < lsize (lg s);
  tv_lsz : MAXOPBLOCKS + 2 <= lsize (lg s);
  tv_start : start (lg s) = st;
  tv_out : outstanding (lg s) = 1;
  tv_comm : committing (lg s) = false }.

Definition tx_rel (s : lstate bcache) (t : tx nat) : Prop := exists a m0 v0, tx_over s t a m0 v0.

(** A pinned block has one reference in the log, any other block none. *)
Lemma over_cnt s t a m0 v0 b :
  tx_over s t a m0 v0 -> loggable st b -> cnt_of (m0 !! b) = if decide (b ∈ logged (lg s)) then 1 else 0.
Proof.
  intros Ho Hb. case_decide as Hin.
  - apply (cr_pinned _ _ (tx_ready _ _ (tv_inv _ _ _ _ _ Ho)) b Hin).
  - by rewrite (tv_free _ _ _ _ _ Ho).
Qed.

Lemma over_size s t a m0 v0 : tx_over s t a m0 v0 -> (size (a_refs a) <= size m0 + size (t_held t))%nat.
Proof.
  intros Ho. rewrite <-!(size_dom (D := gset Z)).
  trans (size (dom m0 ∪ dom (t_held t) : gset Z)).
  - apply subseteq_size. intros b. rewrite elem_of_union, !elem_of_dom, (tv_refs _ _ _ _ _ Ho b).
    destruct (t_held t !! b); [by right|by left].
  - rewrite size_union_alt. apply Nat.add_le_mono_l, subseteq_size. set_solver.
Qed.

Lemma over_quiet s t a m0 v0 b r :
  tx_over s t a m0 v0 -> m0 !! b = Some r -> r_held r = false /\ r_cnt r <> 0.
Proof. intros Ho. apply (cr_quiet _ _ (tx_ready _ _ (tv_inv _ _ _ _ _ Ho)) b). Qed.

Lemma over_bread s t b :
  tx_rel s t -> loggable st b -> t_held t !! b = None -> (size (t_held t) < MAXHELD)%nat ->
  exists h s', lift (bread ROOTDEV b) s = Ok h s' /\ tx_rel s' (t_bread b h t).
Proof.
  intros (a & m0 & v0 & Ho) Hb Hn Hs. pose proof (over_size _ _ _ _ _ Ho) as Hsz. pose proof (tv_size _ _ _ _ _ Ho).
  destruct (bread_ok 1 p (bc s) a b) as (h & s' & E & Hr' & Hh).
  - apply Ho.
  - split.
    + intros c r. rewrite (tv_refs _ _ _ _ _ Ho c). destruct (t_held t !! c) as [h|] eqn:Ec.
      * intros [= <-]. cbn [r_cnt]. destruct (tv_held _ _ _ _ _ Ho c h Ec) as [Hc _].
        rewrite (over_cnt _ _ _ _ _ c Ho Hc). case_decide; lia.
      * intros Hr. by apply (over_quiet _ _ _ _ _ _ _ Ho Hr).
    + rewrite (tv_refs _ _ _ _ _ Ho b), Hn. destruct (m0 !! b) as [r|] eqn:Eb.
      * by apply (over_quiet _ _ _ _ _ _ _ Ho Eb).
      * lia.
  - exists h, (mkls (lg s) s'). split; [by apply lift_ok|]. exists (a_bread b h a), m0, v0.
    pose proof (over_cnt _ _ _ _ _ b Ho Hb) as Hc. rewrite (tv_refs _ _ _ _ _ Ho b), Hn in Hh.
    destruct Ho. split; try done; cbn [lg t_bread t_held t_dirty t_view a_bread set_refs a_refs].
    + intros c. destruct (decide (c = b)) as [->|Hcb].
      * rewrite !lookup_insert_eq. rewrite tv_refs0, Hn, Hc. do 2 f_equal. apply u32_small. case_decide; lia.
      * rewrite !lookup_insert_ne by done. apply tv_refs0.
    + intros c h' [[<- <-]|[_ Hc']]%lookup_insert_Some; [|by apply tv_held0]. split; [done|].
      intros r Hr. symmetry. by apply Hh.
    + rewrite dom_insert_L. set_solver.
Qed.

Lemma over_data s t b h : tx_rel s t -> t_held t !! b = Some h -> lift (buf_data h) s = Ok (t_view t b) s.
Proof.
  intros (a & m0 & v0 & Ho) Hh. destruct s as [l c]. apply (lift_ok _ (mkls l c)).
  pose proof (data_ok 1 p c a b _ (tv_bc _ _ _ _ _ Ho) ltac:(by rewrite (tv_refs _ _ _ _ _ Ho), Hh)) as E.
  cbn [r_h] in E. cbn [bc]. rewrite E. by rewrite (tv_view _ _ _ _ _ Ho).
Qed.

Lemma over_store s t b h v :
  tx_rel s t -> t_held t !! b = Some h ->
  exists s', lift (buf_store h v) s = Ok tt s' /\ tx_rel s' (t_store b v t).
Proof.
  intros (a & m0 & v0 & Ho) Hh.
  destruct (store_ok 1 p (bc s) a b (mkref h (cnt_of (m0 !! b) + 1) true) v) as (s' & E & Hr');
    [apply Ho|by rewrite (tv_refs _ _ _ _ _ Ho), Hh|].
  exists (mkls (lg s) s'). split; [by apply lift_ok|]. exists (a_store b v a), m0, v0. destruct Ho.
  split; try done; cbn [lg t_store t_held t_dirty t_view a_store a_refs a_view].
  - by rewrite tv_view0.
  - intros c Hc. rewrite fupd_ne by set_solver. apply tv_v1. set_solver.
  - apply union_subseteq. split; [|done]. apply singleton_subseteq_l, elem_of_dom. by exists h.
Qed.

Lemma over_brelse s t b h :
  tx_rel s t -> t_held t !! b = Some h -> b ∉ t_dirty t ->
  exists s', lift (brelse h) s = Ok tt s' /\ tx_rel s' (t_brelse b t).
Proof.
  intros (a & m0 & v0 & Ho) Hh Hnd. destruct (tv_held _ _ _ _ _ Ho b h Hh) as [Hb Hmh].
  pose proof (over_cnt _ _ _ _ _ b Ho Hb) as Hc.
  set (r := mkref h (cnt_of (m0 !! b) + 1) true).
  assert (a_refs a !! b = Some r) as Hr by (by rewrite (tv_refs _ _ _ _ _ Ho), Hh).
  destruct (brelse_ok 1 p Hp (bc s) a b r) as (s' & E & Hr'); [apply Ho|done|done| |].
  { cbn [r r_cnt]. rewrite Hc. case_decide as Hin; [lia|]. intros _.
    rewrite (tv_view _ _ _ _ _ Ho), (tv_disk _ _ _ _ _ Ho), <-(tv_v0 _ _ _ _ _ Ho) by done.
    apply (tx_clean _ _ (tv_inv _ _ _ _ _ Ho)); [|done]. rewrite (tv_start _ _ _ _ _ Ho). apply Hb. }
  exists (mkls (lg s) s'). split; [by apply lift_ok|]. exists (a_brelse b r a), m0, v0.
  pose proof Ho as Ho'. destruct Ho. split; try done; cbn [lg t_brelse t_held t_dirty t_view a_brelse set_refs a_refs a_view].
  - intros c. destruct (decide (c = b)) as [->|Hcb].
    + rewrite lookup_delete_eq. cbn [r r_cnt r_h]. rewrite Z.add_simpl_r. destruct (m0 !! b) as [[h0 n0 e0]|] eqn:Eb.
      * destruct (over_quiet _ _ _ _ _ _ _ Ho' Eb) as [Hf Hn0]. cbn in Hf, Hn0, Hc |- *. subst e0.
        case_decide; [|done]. subst n0. rewrite u32_small by lia. cbn. rewrite lookup_insert_eq. by rewrite <-(Hmh _ eq_refl).
      * change (u32 (cnt_of None) =? 0) with true. cbn match. by rewrite lookup_delete_eq.
    + rewrite lookup_delete_ne by done. rewrite <-tv_refs0.
      destruct (u32 (r_cnt r - 1) =? 0); [by rewrite lookup_delete_ne|by rewrite lookup_insert_ne].
  - intros c h' [_ Hc']%lookup_delete_Some. by apply tv_held0.
  - rewrite dom_delete_L. set_solver.
Qed.

Lemma over_log s t b h :
  tx_rel s t -> t_held t !! b = Some h -> (b ∈ t_logged t \/ 0 < t_budget t)%nat ->
  exists s', log_write h b s = Ok tt s' /\ tx_rel s' (t_log b t).
Proof.
  intros (a & m0 & v0 & Ho) Hh Hbud. destruct (tv_held _ _ _ _ _ Ho b h Hh) as [Hb Hmh].
  pose proof (over_cnt _ _ _ _ _ b Ho Hb) as Hc. set (l := lg s).
  set (r := mkref h (cnt_of (m0 !! b) + 1) true).
  assert (a_refs a !! b = Some r) as Hr by (by rewrite (tv_refs _ _ _ _ _ Ho), Hh).
  pose proof (tv_inv _ _ _ _ _ Ho) as Hinv. fold l in Hinv, Hc. pose proof (tx_ready _ _ Hinv) as Hcr.
  assert (b ∈ logged l \/ 0 < t_budget t)%nat as Hbud'.
  { destruct Hbud; [left; by apply (tv_logged _ _ _ _ _ Ho)|by right]. }
  pose proof Ho as []. fold l in tv_inv0, tv_free0, tv_logged0, tv_room0, tv_lsize0, tv_start0, tv_out0, tv_comm0.
  destruct (cr_wf _ _ Hcr) as (Hnd & Hfl & _). pose proof (cr_n _ _ Hcr). pose proof (cr_len _ _ Hcr).
  destruct (lwp_log_write (BlockCacheLaws0 := bio_laws p Hp) r b
    (fun _ l' a' => l' = log_after b l /\ a' = if decide (b ∈ logged l) then a else a_bpin b r a) l a)
    with (s := s) as ([] & s' & a' & Hrun & Hr' & El & Ea); try done; try lia.
  { eapply Forall_impl; [exact Hfl|]. intros c Hlc. apply Hlc. }
  { apply Hb. }
  exists s'. split; [exact Hrun|].
  assert (b ∉ logged l -> (0 < t_budget t)%nat) as Hpos by (destruct Hbud'; tauto).
  assert (tx_can (nbuf := NBUF) l (mkcache d0 v0 m0 tr0) b) as Hcan.
  { split; [by rewrite tv_start0|]. split; [lia|]. split.
    - unfold LOGSIZE in *. lia.
    - split; [lia|]. intros Hin. cbn. split; [by apply tv_free0|]. specialize (Hpos Hin). unfold NBUF in *. lia. }
  pose proof (tx_after b h (t_view t b) _ _ Hinv Hcan) as Hinv'. cbn [a_disk a_view a_refs a_trace] in Hinv'.
  destruct (log_after_fields b l) as (F1 & F2 & F3 & F4 & F5 & F6).
  exists a', (<[b := mkref h 1 false]> m0), (fupd v0 b (t_view t b)).
  split; rewrite ?El, ?F1, ?F2, ?F3, ?F4; try done; cbn [t_log t_view t_held t_dirty t_logged t_budget].
  - subst a'. by case_decide.
  - subst a'. by case_decide.
  - subst a'. by case_decide.
  - intros c Hcd. destruct (decide (c = b)) as [->|Hcb]; [by rewrite fupd_eq|].
    rewrite fupd_ne by done. apply tv_v1. set_solver.
  - intros c. destruct (decide (c = b)) as [->|Hcb].
    + rewrite Hh, lookup_insert_eq. subst a'. cbn [cnt_of r_cnt]. unfold r in *. rewrite Hc in *.
      destruct (decide (b ∈ logged l)); [by rewrite Hr|]. cbn. by rewrite lookup_insert_eq.
    + rewrite lookup_insert_ne by done. rewrite <-tv_refs0. subst a'. case_decide; [done|]. cbn. by rewrite lookup_insert_ne.
  - intros c h' Hc'. destruct (tv_held0 c h' Hc') as [Hlc Hrc]. split; [done|].
    intros r' [[<- <-]|[_ ?]]%lookup_insert_Some; [cbn; congruence|by apply Hrc].
  - set_solver.
  - intros c Hlc. rewrite logged_after_elem by (done || lia). intros Hnc. rewrite lookup_insert_ne by naive_solver.
    apply tv_free0; [done|]. naive_solver.
  - intros c. rewrite logged_after_elem by (done || lia). rewrite elem_of_union, elem_of_singleton.
    intros [->|Hc']; [by left|right; by apply tv_logged0].
  - destruct (decide (b ∈ logged l)) as [Hin|Hin].
    + assert (size (<[b := mkref h 1 false]> m0) = size m0) as ->; [|case_decide; lia].
      destruct (m0 !! b) as [r0|] eqn:Eb; [by rewrite map_size_insert_Some by eauto|cbn in Hc; lia].
    + rewrite map_size_insert_None by (by apply tv_free0). specialize (Hpos Hin).
      rewrite decide_False by (intros Hx; by apply Hin, tv_logged0). lia.
  - rewrite F6. destruct (decide (b ∈ logged l)) as [Hin|Hin]; [case_decide; lia|].
    specialize (Hpos Hin). rewrite decide_False by (intros Hx; by apply Hin, tv_logged0). lia.
  - rewrite F6. destruct (decide (b ∈ logged l)) as [Hin|Hin]; [case_decide; lia|].
    specialize (Hpos Hin). rewrite decide_False by (intros Hx; by apply Hin, tv_logged0). lia.
Qed.

Lemma over_weaken s t n L : tx_rel s t -> (n <= t_budget t)%nat -> L ⊆ t_logged t -> tx_rel s (t_weak n L t).
Proof.
  intros (a & m0 & v0 & []) Hn HL. exists a, m0, v0.
  split; try done; cbn [t_weak t_budget t_logged]; try lia. set_solver.
Qed.

(** The log over the buffer cache keeps the promise. *)
Definition log_laws : TxDiskLaws (lstate bcache) nat := {|
  td_rel := tx_rel;
  td_valid := loggable st;
  td_bread_ok := over_bread;
  td_data_ok := over_data;
  td_store_ok := over_store;
  td_log_ok := over_log;
  td_brelse_ok := over_brelse;
  td_weaken := over_weaken |}.
End laws.

(** ** A file-system operation as a transaction *)

Section atomic.
Context {C : Type} `{!UserCopy C}.

(** Between transactions the cache has no references to blocks of the file
    system. *)
Definition calm (st : Z) (a : acache nat) : Prop :=
  (forall b, loggable st b -> a_refs a !! b = None) /\
  (size (a_refs a) + Z.to_nat MAXOPBLOCKS + MAXHELD < NBUF)%nat.

(** A transaction that has begun. *)
Definition fresh_tx (v : Z -> bytes) : tx nat := mktx v ∅ ∅ (Z.to_nat MAXOPBLOCKS) ∅.

Lemma tx_inv_ext l d v w m tr :
  (forall b, v b = w b) -> tx_inv (H := nat) (nbuf := NBUF) l (mkcache d v m tr) ->
  tx_inv (H := nat) (nbuf := NBUF) l (mkcache d w m tr).
Proof.
  intros E [Hcr He Hc]. split; [|done|].
  - destruct Hcr as [H1 H2 H3 H4 H5 H6 H7 H8 H9 H10]. split; try done; cbn in *.
    + intros b Hb. rewrite <-E. by apply H7.
    + by rewrite <-E.
  - intros b Hb Hn. cbn. rewrite <-E. by apply Hc.
Qed.

Lemma begin_ok p (s : lstate bcache) a :
  brel 1 p (bc s) a -> log_idle (nbuf := NBUF) (lg s) a -> calm (start (lg s)) a ->
  exists s1, begin_op s = Ok tt s1 /\ tx_rel p (start (lg s)) (a_disk a) (a_trace a) s1 (fresh_tx (a_view a)).
Proof.
  intros Hr [Htx Hn Ho Hcm Hs] [Hfree Hsz]. exists (mkls (set_ops 1 false (lg s)) (bc s)). split.
  - unfold begin_op, get_log, gets, bind. cbn. rewrite Hcm, Hn, Ho. reflexivity.
  - exists a, (a_refs a), (a_view a). unfold fresh_tx, MAXOPBLOCKS in *.
    split; try done; cbn [lg bc t_view t_held t_dirty t_budget t_logged set_ops lh_n lsize outstanding committing start];
      try lia; try (rewrite Hn; unfold LOGSIZE; lia).
    + destruct a. by apply tx_set_ops.
    + intros b Hb _. by apply Hfree.
Qed.

Lemma end_ok p (Hp : p <> -1) st d tr (s : lstate bcache) t :
  tx_rel p st d tr s t -> idle t ->
  exists s' a' W,
    end_op s = Ok tt s' /\ brel 1 p (bc s') a' /\ log_idle (nbuf := NBUF) (lg s') a' /\
    trace (bc s') = tr ++ W /\ disk (bc s') = apply_writes W d /\
    crash_atomic st W d (t_view t) /\ same_data st (disk (bc s')) (t_view t) /\ same_data st (a_view a') (t_view t).
Proof.
  intros (a & m0 & v0 & []) [Hh Hd]. destruct a as [ad av ar atr]. cbn in tv_disk0, tv_trace0, tv_view0. subst ad atr av.
  assert (m0 = ar) as ->.
  { apply map_eq. intros b. specialize (tv_refs0 b). by rewrite Hh, lookup_empty in tv_refs0. }
  assert (tx_inv (nbuf := NBUF) (lg s) (mkcache d (t_view t) ar tr)) as Hinv.
  { eapply tx_inv_ext; [|done]. intros b. apply tv_v1. rewrite Hd. set_solver. }
  set (l0 := set_ops 0 true (set_ops 0 false (lg s))).
  destruct (lwp_commit_tx (BlockCacheLaws0 := bio_laws p Hp) l0 (mkcache d (t_view t) ar tr)
    ltac:(by apply tx_set_ops, tx_set_ops) (mkls l0 (bc s)) eq_refl tv_bc0)
    as ([] & s' & a' & Hrun & Hr' & W & Htx' & Hn' & (P1 & P2 & P3 & P4) & Ht & Hds & Hca & Hs1 & Hs2).
  cbn in P1, P2, P3, P4, Ht, Hds, Hca, Hs1, Hs2. rewrite tv_start0 in *.
  exists (mkls (add_wakeup (set_ops (outstanding (lg s')) false (lg s'))) (bc s')), a', W. cbn [bc lg].
  change (bc_rel (bc s') a') with (brel 1 p (bc s') a') in Hr'.
  rewrite <-(br_trace 1 p _ _ Hr'), <-(br_disk 1 p _ _ Hr').
  split; [|split; [done|split; [|done]]].
  - unfold end_op. erewrite bind_ok by done. cbv zeta. rewrite tv_out0, tv_comm0. erewrite bind_ok by done.
    cbn match. change (1 - 1 =? 0) with true. cbn match. erewrite bind_ok by done.
    erewrite bind_ok by exact Hrun. done.
  - split; [by apply tx_wakeup, tx_set_ops|done|done|done|]. cbn. by rewrite P2.
Qed.

(** [begin_op], the operation, [end_op]. *)
Definition in_tx {A} (m : M (fsstate (lstate bcache) C) A) : M (fsstate (lstate bcache) C) A :=
  fdisk begin_op;; x ← m; fdisk end_op;; ret x.

Lemma fdisk_ok {A} (m : M (lstate bcache) A) (s : fsstate (lstate bcache) C) x d' :
  m (fd s) = Ok x d' -> fdisk m s = Ok x (mkfs (fv s) d').
Proof. intros E. unfold fdisk. by rewrite E. Qed.

(** Whatever an operation does to the blocks of the file system it does
    atomically. *)
Lemma fs_transaction {A} p (Hp : p <> -1) (m : M (fsstate (lstate bcache) C) A) Q s a :
  brel 1 p (bc (fd s)) a -> log_idle (nbuf := NBUF) (lg (fd s)) a -> calm (start (lg (fd s))) a ->
  wp (TxDiskLaws0 := log_laws p Hp (start (lg (fd s))) (a_disk a) (a_trace a)) m Q (fv s) (fresh_tx (a_view a)) ->
  (forall x vs t, Q x vs t -> idle t) ->
  let st := start (lg (fd s)) in
  exists x s' a' W t,
    in_tx m s = Ok x s' /\ Q x (fv s') t /\
    brel 1 p (bc (fd s')) a' /\ log_idle (nbuf := NBUF) (lg (fd s')) a' /\
    trace (bc (fd s')) = trace (bc (fd s)) ++ W /\ disk (bc (fd s')) = apply_writes W (disk (bc (fd s))) /\
    crash_atomic st W (disk (bc (fd s))) (t_view t) /\
    same_data st (disk (bc (fd s'))) (t_view t) /\ same_data st (a_view a') (t_view t).
Proof.
  intros Hr Hid Hcalm Hm HQ st. destruct (begin_ok p (fd s) a Hr Hid Hcalm) as (d1 & Hb & Hr1).
  destruct (Hm (mkfs (fv s) d1) eq_refl Hr1) as (x & s2 & t & Hrun & Hr2 & HQx).
  destruct (end_ok p Hp _ _ _ (fd s2) t Hr2 (HQ _ _ _ HQx)) as (d3 & a' & W & He & Hbr & Hli & Htr & Hd & Hca & Hs1 & Hs2).
  rewrite (br_trace 1 p _ _ Hr) in Htr. rewrite (br_disk 1 p _ _ Hr) in Hd, Hca.
  exists x, (mkfs (fv s2) d3), a', W, t. split; [|done].
  unfold in_tx. erewrite bind_ok by (by apply fdisk_ok). erewrite bind_ok by exact Hrun.
  erewrite bind_ok by (by apply fdisk_ok). done.
Qed.
End atomic.
