(* ===== verification/FsSpec.v ===== *)
(** What the file system promises, as theorems about complete operations.

    The theorems hold of every implementation of [TxDisk] that keeps its promises;
    [write_crash_atomic] is the composition with the log and the buffer cache.  The
    examples run on a small disk, laid out as mkfs.c lays it out. *)

From S2P Require Import Prelude Lock BlockCache Bio Log FsDisk FsBlocks FsInode FsFile FsDir FsPath FsTx.
Import Sleeplock.

(** ** A small disk *)

Module Image.

(** Boot block, super block, 30 log blocks, two inode blocks, one bitmap block,
    then the data: block 35 is the root directory, block 36 the file [/f]. *)
Definition sblk : superblock := mksb FSMAGIC 44 9 16 30 2 32 34.

Definition root_di : dinode := mkdi T_DIR 0 0 1 48 (35 :: replicate 12 0).
Definition file_di : dinode := mkdi 2 0 0 1 5 (36 :: replicate 12 0).

Definition dirent (n : Z) (name : list Z) : bytes := put_le 2 0 n (replicate 2 0) ++ take 14 (name ++ replicate 14 0).

Definition inode_block : bytes :=
  dinode_put (ipos 2) file_di (dinode_put (ipos 1) root_di zero_block).
(** Blocks 0 to 36 are in use. *)
Definition bitmap : bytes := [255; 255; 255; 255; 31] ++ replicate 1019 0.
Definition root_block : bytes :=
  dirent 1 [46] ++ dirent 1 [46; 46] ++ dirent 2 [102] ++ replicate 976 0.
Definition file_block : bytes := [104; 101; 108; 108; 111] ++ replicate 1019 0.

Definition disk0 (b : Z) : bytes :=
  if b =? 32 then inode_block else if b =? 34 then bitmap
  else if b =? 35 then root_block else if b =? 36 then file_block else zero_block.

Definition unused : inode := mkino 0 0 0 initsleeplock false 0 0 0 0 0 (replicate 13 0).
(** The two inodes, locked by process 3, and two unused slots. *)
Definition lk : sleeplock := mksl true 3.
Definition root_ino : inode := load_inode root_di (mkino ROOTDEV 1 1 lk true 0 0 0 0 0 []).
Definition file_ino : inode := load_inode file_di (mkino ROOTDEV 2 1 lk true 0 0 0 0 0 []).

Definition vars (c : list inode) (k : bytes) : fvars unit := mkfv sblk c k tt (Some 3) 0 0.
Definition tx0 : tx Z := mktx disk0 ∅ ∅ 10 ∅.
Definition st0 (c : list inode) (k : bytes) : fsstate (tx Z) unit := mkfs (vars c k) tx0.

Lemma disk0_len b : length (disk0 b) = Z.to_nat BSIZE.
Proof.
  unfold disk0. destruct (b =? 32); [vm_compute; reflexivity|]. destruct (b =? 34); [reflexivity|].
  destruct (b =? 35); [vm_compute; reflexivity|]. by destruct (b =? 36).
Qed.

Lemma disk0_used b : 0 <= b < 37 -> used sblk disk0 b = true.
Proof.
  intros Hb. assert (forallb (used sblk disk0) (seqZ 0 37) = true) as Hf by (vm_compute; reflexivity).
  rewrite forallb_forall in Hf. apply Hf, list_elem_of_In, elem_of_seqZ. lia.
Qed.

Lemma data_start0 : data_start sblk = 35.
Proof. reflexivity. Qed.

Lemma blocks0 : blocks_ok sblk disk0.
Proof. split; [intros b _; apply disk0_len|]. rewrite data_start0. intros b Hb. apply disk0_used. lia. Qed.

(** A file with one block. *)
Lemma single_file x v b : live x v b -> b <> 0 -> file_ok x v (b :: replicate 12 0).
Proof.
  intros Hl Hb.
  assert (forall bn, 0 <= bn < MAXFILE -> blk v (b :: replicate 12 0) bn <> 0 -> bn = 0) as Hz.
  { intros bn Hbn. unfold blk. change (ind (b :: replicate 12 0)) with 0. cbn [Z.eqb].
    destruct (Z.ltb_spec bn NDIRECT); [|done]. unfold nth_addr. destruct (decide (bn = 0)) as [|Hne]; [done|].
    rewrite lookup_cons_ne_0 by lia. intros Hx. exfalso. apply Hx.
    destruct (replicate 12 0 !! pred (Z.to_nat bn)) as [z|] eqn:E; [|done]. by apply lookup_replicate in E as [-> _]. }
  split; [done| |done|].
  - intros bn Hbn Hnz. by rewrite (Hz bn Hbn Hnz).
  - intros bn bn' Hbn Hbn' Hnz E. rewrite (Hz bn Hbn Hnz). rewrite E in Hnz. symmetry. by apply Hz.
Qed.

Lemma file_ok0 b : 35 <= b < 37 -> file_ok sblk disk0 (b :: replicate 12 0).
Proof.
  intros Hb. apply single_file; [|lia]. split; [|apply disk0_used; lia].
  unfold data_block. rewrite data_start0. cbn. lia.
Qed.

Lemma no_holes0 b ip : i_addrs ip = b :: replicate 12 0 -> b <> 0 -> 0 <= i_size ip <= BSIZE -> no_holes disk0 ip.
Proof.
  intros Ea Hb Hs. split; [unfold MAXFILE, NDIRECT, NINDIRECT, BSIZE in *; lia|]. intros o Ho. rewrite Ea.
  assert (o / BSIZE = 0) as -> by (apply Z.div_small; lia). done.
Qed.

Lemma root_no_holes : no_holes disk0 root_ino.
Proof. apply (no_holes0 35); [done|done|unfold BSIZE; cbn; lia]. Qed.
Lemma file_no_holes : no_holes disk0 file_ino.
Proof. apply (no_holes0 36); [done|done|unfold BSIZE; cbn; lia]. Qed.

Lemma dinode_ok0 n s b : 0 <= n < 4 -> 0 <= s < 100 -> 0 <= b < 100 -> dinode_ok (mkdi n 0 0 1 s (b :: replicate 12 0)).
Proof.
  intros Hn Hs Hb. split; [|split; [cbn; lia|split; [done|]]].
  - cbn [d_type d_major d_minor d_nlink]. intros z Hz. repeat (apply elem_of_cons in Hz as [->|Hz]; [lia|]). by apply elem_of_nil in Hz.
  - cbn [d_addrs]. constructor; [lia|]. apply Forall_replicate. lia.
Qed.

Lemma root_ok : inode_ok sblk root_ino.
Proof. split; [done|]. split; [cbn; lia|]. apply (dinode_ok0 1 48 35); lia. Qed.
Lemma file_ok1 : inode_ok sblk file_ino.
Proof. split; [done|]. split; [cbn; lia|]. apply (dinode_ok0 2 5 36); lia. Qed.

Lemma nfree0 : nfree sblk disk0 2.
Proof. exists [37; 38]. split; [by apply NoDup_cons; split; [set_solver|apply NoDup_singleton]|]. split; [done|]. repeat constructor; cbn; lia. Qed.

Lemma idle0 v n : idle (mktx v ∅ ∅ n ∅ : tx Z).
Proof. done. Qed.

End Image.

(** ** Files *)

(** The number of blocks that [n] bytes at offset [off] touch. *)
Definition span (off n : Z) : nat := Z.to_nat ((off mod BSIZE + n + (BSIZE - 1)) / BSIZE).

Lemma span_ok off n : 0 <= n -> off mod BSIZE + n <= BSIZE * Z.of_nat (span off n) /\ (span off n < io_fuel n)%nat.
Proof.
  intros Hn. unfold span, io_fuel. set (c := off mod BSIZE).
  assert (0 <= c < BSIZE) as Hc by (apply Z.mod_pos_bound; unfold BSIZE; lia).
  assert (0 <= (c + n + (BSIZE - 1)) / BSIZE) by (apply Z.div_pos; unfold BSIZE in *; lia).
  assert (0 <= n / BSIZE) by (apply Z.div_pos; unfold BSIZE in *; lia).
  pose proof (Z.div_mod (c + n + (BSIZE - 1)) BSIZE ltac:(unfold BSIZE; lia)).
  pose proof (Z.mod_pos_bound (c + n + (BSIZE - 1)) BSIZE ltac:(unfold BSIZE; lia)).
  pose proof (Z.div_mod n BSIZE ltac:(unfold BSIZE; lia)). pose proof (Z.mod_pos_bound n BSIZE ltac:(unfold BSIZE; lia)).
  unfold BSIZE in *. lia.
Qed.

Section spec.
Context {S H C : Type} `{!TxDisk S H} `{!TxDiskLaws S H} `{!UserCopy C}.
Implicit Types (s : fsstate S C) (t : tx H).

Lemma fread_written x v ip w ip' off bs :
  written x v ip w ip' off bs -> 0 <= off -> off + Z.of_nat (length bs) <= MAXFILE * BSIZE ->
  fread w (i_addrs ip') off (length bs) = bs.
Proof.
  intros Hw Ho Hm. apply list_eq. intros k. destruct (decide (k < length bs)%nat) as [Hk|Hk].
  - rewrite lookup_fread by done. rewrite (wn_byte _ _ _ _ _ _ _ Hw) by lia. rewrite decide_True by lia.
    unfold byte_at. replace (off + Z.of_nat k - off) with (Z.of_nat k) by lia. rewrite Nat2Z.id.
    destruct (lookup_lt_is_Some_2 bs k Hk) as [z ->]. done.
  - rewrite !lookup_ge_None_2; [done|lia|rewrite length_fread; lia].
Qed.

(** C6: what is written is read back.  [writei] of a byte string to a well-formed
    file, inside a transaction with room for it, and then [readi] of the same range
    both return the length, and the buffer receives exactly the bytes written.
    The file is well formed again, every other byte of it, every other inode and
    every block in use that is not the file's is unchanged. *)
Theorem writei_readi_roundtrip x i ip off bs rest s t :
  let n := Z.of_nat (length bs) in
  geom x -> sb (fv s) = x -> td_rel (fd s) t -> idle t ->
  icache (fv s) !! i = Some ip -> inode_ok x ip -> blocks_ok x (t_view t) ->
  file_ok x (t_view t) (i_addrs ip) -> no_holes (t_view t) ip ->
  0 < n -> 0 <= off <= i_size ip -> off + n <= MAXFILE * BSIZE ->
  (6 * span off n + 1 <= t_budget t)%nat -> nfree x (t_view t) (2 * span off n) ->
  kbuf (fv s) = bs ++ rest -> length rest = length bs ->
  exists s' t' ip',
    (w ← writei i false 0 off n; r ← readi i false n off n; ret (w, r)) s = Ok (n, n) s' /\
    kbuf (fv s') = bs ++ bs /\ td_rel (fd s') t' /\ icache (fv s') !! i = Some ip' /\
    written x (t_view t) ip (t_view t') ip' off bs.
Proof.
  intros n Hg Hsb Hr Hid Hi Hino Hok Hf Hnh Hpos Hoff Hmax Hbud Hnf Hk Hl.
  destruct (span_ok off n ltac:(lia)) as [Hsp Hfu]. set (k0 := kbuf (fv s)).
  assert (i < length (icache (fv s)))%nat as Hil by (by eapply lookup_lt_Some).
  assert (wp (w ← writei i false 0 off n; r ← readi i false n off n; ret (w, r))
    (fun q vs' t' => q = (n, n) /\ exists ip', kbuf vs' = bs ++ bs /\ icache vs' !! i = Some ip' /\
       written x (t_view t) ip (t_view t') ip' off bs) (fv s) t) as Hwp.
  { apply wp_bind, (wp_writei x Hg (span off n) i ip false 0 off n bs (fun k _ => k = k0)); try done.
    { apply kernel_source; [lia|]. unfold k0. rewrite Hk. unfold sub_bytes. rewrite drop_0. apply take_app_length. }
    intros vs1 ip' w nb _ Hsz Hip' Hino' Hs1 Hkb Hw. assert (i_size ip' = Z.max (i_size ip) (off + n)) as Hsz' by done.
    assert (icache vs1 = <[i := ip']> (icache (fv s))) as Hc1 by (by rewrite Hs1).
    apply wp_bind, (wp_readi x Hg i ip' false n off n (fun d k _ => k = upd_bytes (Z.to_nat n) d k0)).
    - rewrite Hc1. by apply list_lookup_insert_eq.
    - apply Hino'.
    - done.
    - apply Hw.
    - apply Hw.
    - apply Hw.
    - lia.
    - lia.
    - unfold MAXFILE, NDIRECT, NINDIRECT, BSIZE in *. lia.
    - apply kernel_sink; [lia|lia|]. unfold k0. rewrite Hk, length_app. lia.
    - rewrite Hkb. unfold upd_bytes. cbn [app length]. rewrite Nat.add_0_r. by rewrite take_drop.
    - intros vs2 Hs2 Hkb2. apply wp_ret.
      assert (Z.min n (i_size ip' - off) = n) as En by lia. rewrite En in *. split; [done|]. exists ip'.
      split; [|split; [rewrite Hs2; cbn; rewrite Hc1; by apply list_lookup_insert_eq|done]].
      rewrite Hkb2. cbn [with_view t_view]. unfold n at 2. rewrite Nat2Z.id, (fread_written _ _ _ _ _ _ _ Hw) by (done || lia).
      unfold upd_bytes, k0, n. rewrite Nat2Z.id, Hk, take_app_length, drop_ge by (rewrite length_app; lia). by rewrite app_nil_r. }
  destruct (Hwp s eq_refl Hr) as (q & s' & t' & Hrun & Hr' & -> & ip' & Hkb & Hc & Hw). eauto 10.
Qed.

(** C25: truncation.  [itrunc] of a well-formed file frees exactly the blocks of the
    file, among them the indirect block: each is free in the bitmap afterwards, and
    whether any other block is free has not changed.  No block outside the bitmap
    and the inode blocks is written, and the inode on disk is that of an empty
    file.  It needs room in the transaction for the bitmap blocks and the inode's block
    only, however large the file is. *)
Theorem itrunc_frees_blocks x B i ip s t :
  geom x -> all_bmap x B -> IBLOCK (i_inum ip) x ∈ B -> room B t ->
  sb (fv s) = x -> td_rel (fd s) t -> idle t ->
  icache (fv s) !! i = Some ip -> inode_ok x ip -> blocks_ok x (t_view t) ->
  file_ok x (t_view t) (i_addrs ip) ->
  exists s' t',
    itrunc i s = Ok tt s' /\ td_rel (fd s') t' /\ idle t' /\
    icache (fv s') !! i = Some (with_size 0 (with_addrs (replicate 13 0) ip)) /\
    dino x (t_view t') (i_inum ip) = mkdi (i_type ip) (i_major ip) (i_minor ip) (i_nlink ip) 0 (replicate 13 0) /\
    (forall b, 0 <= b < sb_size x ->
       used x (t_view t') b = true <-> used x (t_view t) b = true /\ ~ owns (t_view t) (i_addrs ip) b) /\
    (forall b, ~ (sb_inodestart x <= b < data_start x) -> t_view t' b = t_view t b).
Proof.
  intros Hg HB HI Hroom Hsb Hr Hid Hi Hino Hok Hf.
  assert (i < length (icache (fv s)))%nat as Hil by (by eapply lookup_lt_Some).
  destruct (wp_itrunc x Hg B i ip
    (fun _ vs' t' => exists w, frees x (t_view t) (file_blocks (t_view t) (i_addrs ip)) w /\
       let ip' := with_size 0 (with_addrs (replicate 13 0) ip) in
       t_view t' = iupdate_view x w ip' /\ inode_ok x ip' /\ idle t' /\
       vs' = set_icache (<[i := ip']> (icache (fv s))) (fv s)) (fv s) t)
    with (s := s) as ([] & s' & t' & Hrun & Hr' & w & Hfr & Hv' & Hino' & Hid' & Hvs'); try done.
  { intros t' w Hfr Hv' Hino' Hid' _. by exists w. }
  exists s', t'. split; [done|]. split; [done|]. split; [done|].
  destruct (iupdate_view_ok x Hg w _ (fr_blocks _ _ _ _ Hfr) Hino') as (D1 & _ & D3 & D4 & D5).
  destruct (meta_update x Hg w _ _ (fr_blocks _ _ _ _ Hfr) D4 D5) as (_ & M2 & _).
  pose proof (layout_order x Hg). rewrite Hv'.
  split; [rewrite Hvs'; cbn; by apply list_lookup_insert_eq|]. split; [exact D1|]. split.
  - intros b Hb. unfold iupdate_view. rewrite M2 by done. rewrite (fr_used _ _ _ _ Hfr b Hb), andb_true_iff, bool_decide_eq_true.
    by rewrite elem_file_blocks.
  - intros b Hb. rewrite D3 by lia. apply (fr_same _ _ _ _ Hfr). unfold is_bmap. lia.
Qed.

(** directories.  [dirlink] of a name that is not in a well-formed directory
    writes the entry to the first free slot, or appends it; [dirlookup] of the name
    then finds this inode number, at that offset, with a reference to its
    inode.  Lookups of other names give what they gave before.  Names count up to
    their first 14 bytes. *)
Theorem dirlink_dirlookup x i ip name inum s t :
  let k := free_slot (dents (t_view t) ip) in
  geom x -> sb (fv s) = x -> td_rel (fd s) t -> idle t ->
  icache (fv s) !! i = Some ip -> inode_ok x ip -> blocks_ok x (t_view t) ->
  file_ok x (t_view t) (i_addrs ip) -> no_holes (t_view t) ip -> dir_ok ip ->
  (7 <= t_budget t)%nat -> nfree x (t_view t) 2 -> DIRENT * Z.of_nat k + DIRENT <= MAXFILE * BSIZE ->
  dfind (name14 name) (dents (t_view t) ip) 0 = None -> 0 < inum < 2 ^ 16 ->
  (exists j jp, j <> i /\ icache (fv s) !! j = Some jp /\ (cached ROOTDEV inum jp \/ i_ref jp = 0)) ->
  exists s' t' j jp ip',
    (r ← dirlink i name inum; q ← dirlookup i name; ret (r, q)) s = Ok (0, Some (j, DIRENT * Z.of_nat k)) s' /\
    icache (fv s') !! j = Some jp /\ cached ROOTDEV inum jp /\ td_rel (fd s') t' /\ idle t' /\
    inode_ok x ip' /\ dir_ok ip' /\ dinode_of ip' = dino x (t_view t') (i_inum ip) /\
    (forall nm, nm <> name14 name ->
       dfind nm (dents (t_view t') ip') 0 = dfind nm (dents (t_view t) ip) 0).
Proof.
  intros k Hg Hsb Hr Hid Hi Hino Hok Hf Hnh Hdir Hbud Hnf Hmax Hnone Hinum Hslot.
  assert (u16 inum = inum) as Hu by (apply u16_small; lia).
  destruct (dfind_dput (name14 name) inum (dents (t_view t) ip) 0 ltac:(lia) Hnone) as [Hnew Hold].
  assert (i < length (icache (fv s)))%nat as Hil by (by eapply lookup_lt_Some).
  destruct Hslot as (j0 & jp0 & Hj0 & Hjl & Hjc).
  destruct (wp_bind (dirlink i name inum) (fun r => q ← dirlookup i name; ret (r, q))
    (fun q vs' t' => exists j jp ip', q = (0, Some (j, DIRENT * Z.of_nat k)) /\ icache vs' !! j = Some jp /\
      cached ROOTDEV inum jp /\ idle t' /\ inode_ok x ip' /\ dir_ok ip' /\ dinode_of ip' = dino x (t_view t') (i_inum ip) /\
      dents (t_view t') ip' = dput k (inum, name14 name) (dents (t_view t) ip)) (fv s) t)
    with (s := s) as (q & s' & t' & Hrun & Hr' & j & jp & ip' & -> & Hj & Hjp & Hid' & Hino' & Hdir' & Hd' & Hds); try done.
  { apply (wp_dirlink_new x Hg i ip); try done. fold k. rewrite Hu.
    intros vs1 ip' w nb bs _ Hs1 Hino' Hdir' Hip' Hw Hds.
    assert (icache vs1 = <[i := ip']> (icache (fv s))) as Hc1 by (by rewrite Hs1).
    assert (icache vs1 !! i = Some ip') as Hi1 by (rewrite Hc1; by apply list_lookup_insert_eq).
    apply wp_bind, (wp_dirlookup x Hg i ip' (with_view w nb t)); try done; try apply Hino'; try apply Hw.
    { intros vs2 Hs2 _. cbn [with_view t_view]. rewrite Hds. unfold k. rewrite Hnew.
      assert (icache vs2 = <[i := ip']> (icache (fv s))) as Hc2 by (rewrite Hs2; exact Hc1).
      apply wp_bind, wp_iget.
      + exists j0, jp0. rewrite Hc2, list_lookup_insert_ne by done. done.
      + rewrite Hc2. intros j jp jp' Hj Hcase. apply wp_ret, wp_ret.
        exists j, jp', ip'. split; [done|]. cbn [icache set_icache].
        rewrite list_lookup_insert_eq by (by eapply lookup_lt_Some). split; [done|].
        split; [|split; [done|split; [done|split; [done|split; [symmetry; apply Hw|exact Hds]]]]].
        destruct Hcase as [[(H1 & H2 & H3) ->]|[_ [Hz ->]]]; (split; [cbn; lia|done]). } }
  exists s', t', j, jp, ip'. rewrite Hds. do 8 (split; [done|]). intros nm Hne. by apply Hold.
Qed.

(** C7: path names.  On a disk whose directory tree is well formed, [namei] of any
    path terminates: it returns the inode that following the names of the path
    from the root directory (or from the current directory for a relative path)
    leads to, or 0 where a name is missing or a component is not a directory.
    The result has one reference more than before, every other reference count
    is what it was, no inode stays locked, and nothing is written. *)
Theorem namei_walk x G path n p a b s t :
  geom x -> blocks_ok x (t_view t) -> tree_ok x (t_view t) G -> G ROOTINO ->
  p <> -1 -> path_state x (t_view t) G p (fv s) -> td_rel (fd s) t -> idle t ->
  a <> b -> refs (icache (fv s)) !! a = Some 0 -> refs (icache (fv s)) !! b = Some 0 ->
  Forall (fun c => c <> 0) path -> starts path (fv s) n ->
  exists o s',
    namei path s = Ok o s' /\ td_rel (fd s') t /\ path_state x (t_view t) G p (fv s') /\
    match walk_path x (t_view t) n (elems path) with
    | Some m => exists j, o = Some j /\ holds (refs (icache (fv s))) j m (icache (fv s'))
    | None => o = None /\ refs (icache (fv s')) = refs (icache (fv s))
    end.
Proof.
  intros Hg Hok Htree Hroot Hp Hps Hr Hid Hab Ha Hb Hpath Hst.
  destruct (wp_namei x Hg (t_view t) Hok G Htree Hroot p Hp _ a b Hab Ha Hb path n
    (fun o vs' t' => t' = t /\ path_state x (t_view t) G p vs' /\
       match walk_path x (t_view t) n (elems path) with
       | Some m => exists j, o = Some j /\ holds (refs (icache (fv s))) j m (icache vs')
       | None => o = None /\ refs (icache vs') = refs (icache (fv s))
       end) (fv s) t) with (s := s) as (o & s' & t' & Hrun & Hr' & -> & Hps' & Hres); try done.
  exists o, s'. done.
Qed.

(** [readi] hides a failed copy.  When [copyout] of the first chunk to user
    memory fails, [readi] stops but returns the number of bytes it was asked for
    (cut at the end of the file), as if they had all been copied. *)
Theorem readi_hides_copy_error x i ip dst off n s t :
  geom x -> td_rel (fd s) t -> idle t ->
  icache (fv s) !! i = Some ip -> i_dev ip = ROOTDEV -> blocks_ok x (t_view t) ->
  file_ok x (t_view t) (i_addrs ip) -> no_holes (t_view t) ip ->
  0 <= off < i_size ip -> 0 < n -> off + n < 2 ^ 32 ->
  (forall bs, uc_copyout dst bs (umem (fv s)) = Ok (-1) (umem (fv s))) ->
  exists s', readi i true dst off n s = Ok (Z.min n (i_size ip - off)) s' /\ fv s' = fv s /\ td_rel (fd s') t.
Proof.
  intros Hg Hr Hid Hi Hd Hok Hf [Hsz Hnh] Hoff Hn Hov Hfail.
  destruct (wp_bind (get_ino i) (fun ip => if (i_size ip <? off) || (u32 (off + n) <? off) then ret (-1) else
      let n := if i_size ip <? off + n then i_size ip - off else n in
      readi_loop (io_fuel n) i true dst off n 0;; ret n)
    (fun r vs' t' => r = Z.min n (i_size ip - off) /\ vs' = fv s /\ t' = t) (fv s) t)
    with (s := s) as (r & s' & t' & Hrun & Hr' & -> & Hvs & ->); [|done|done|by exists s'].
  apply (wp_get_ino i ip); [done|]. rewrite u32_small by lia.
  destruct (Z.ltb_spec (i_size ip) off); [lia|]. destruct (Z.ltb_spec (off + n) off); [lia|]. cbn [orb]. cbv zeta.
  replace (if i_size ip <? off + n then i_size ip - off else n) with (Z.min n (i_size ip - off))
    by (destruct (Z.ltb_spec (i_size ip) (off + n)); lia).
  set (n' := Z.min n (i_size ip - off)). assert (exists f, io_fuel n' = Datatypes.S f) as [f ->]
    by (exists (Z.to_nat (n' / BSIZE) + 2)%nat; unfold io_fuel; lia).
  apply wp_bind. cbn [readi_loop]. destruct (Z.ltb_spec 0 n'); [|lia].
  assert (0 <= off / BSIZE < MAXFILE) as Hbn.
  { split; [apply Z.div_pos; unfold BSIZE in *; lia|apply Z.div_lt_upper_bound; unfold BSIZE in *; lia]. }
  pose proof (Hnh off ltac:(lia)) as Hnz. pose proof (fo_blk _ _ _ Hf _ Hbn Hnz) as [Hlive _].
  apply wp_bind, (wp_bmap_mapped x Hg i ip); try done. apply wp_bind, (wp_get_ino i ip); [done|].
  apply wp_read; [done|apply (idle_can_read x Hg); [done|by apply (live_range x Hg (t_view t))]|].
  intros h. cbv zeta. apply wp_bind. unfold either_copyout. apply wp_bind, wp_getv. rewrite Hfail.
  apply wp_bind, wp_modv, wp_ret. cbn [Z.eqb Pos.eqb].
  apply wp_brelse_back; [by destruct Hid|destruct Hid as [-> _]; done|]. apply wp_ret. split; [done|].
  split; [by destruct (fv s)|done].
Qed.
End spec.

(** ** With the log and the buffer cache *)

(** The layout of the disk: the log, the inodes, the bitmap, the data. *)
Record fs_layout (st : Z) (x : superblock) : Prop := {
  la_size : 0 < sb_size x <= 2 ^ 31 - BPB;
  la_ninodes : 0 <= sb_ninodes x;
  la_log : 0 <= st /\ st + LOGSIZE <= sb_inodestart x;
  la_bmap : sb_inodestart x + sb_ninodes x / IPB < sb_bmapstart x;
  la_data : data_start x <= sb_size x }.

Lemma layout_geom p Hp st d tr x : fs_layout st x -> geom (TxDiskLaws0 := log_laws p Hp st d tr) x.
Proof.
  intros []. split; try done; [unfold LOGSIZE in *; lia|]. intros b Hb. unfold td_valid, log_laws, loggable, in_log, LOGSIZE, BPB, BSIZE in *. lia.
Qed.


(** ** Examples *)

Import MemDisk.

Lemma image_geom : geom (H := Z) Image.sblk.
Proof. split; cbn; unfold BPB, BSIZE; try lia; try done. Qed.

Lemma mem_rel_refl v n : td_rel (mktx v ∅ ∅ n ∅ : tx Z) (mktx v ∅ ∅ n ∅).
Proof. by repeat split. Qed.

(** The facts about the small disk. *)
Ltac image :=
  lazymatch goal with
  | |- geom _ => apply image_geom
  | |- td_rel _ _ => apply mem_rel_refl
  | |- inode_ok _ _ => first [apply Image.file_ok1 | apply Image.root_ok]
  | |- blocks_ok _ _ => apply Image.blocks0
  | |- file_ok _ _ _ => first [apply (Image.file_ok0 36); lia | apply (Image.file_ok0 35); lia]
  | |- no_holes _ _ => first [apply Image.file_no_holes | apply Image.root_no_holes]
  | |- nfree _ _ _ => apply Image.nfree0
  | |- room _ _ => vm_compute; lia
  | |- idle _ => done
  | |- dir_ok _ => done
  | |- _ = _ => try reflexivity
  | |- (_ <= _)%nat => vm_compute; lia
  | |- _ <= _ => vm_compute; discriminate
  | |- _ < _ => vm_compute; reflexivity
  | |- _ /\ _ => try (split; image)
  | _ => idtac
  end.

(** Three bytes are appended to [/f] and read back. *)
Lemma writei_readi_roundtrip_witness :
  exists s', (w ← writei 1 false 0 5 3; r ← readi 1 false 3 5 3; ret (w, r))
      (Image.st0 [Image.root_ino; Image.file_ino] ([1; 2; 3] ++ [0; 0; 0])) = Ok (3, 3) s' /\
    kbuf (fv s') = [1; 2; 3; 1; 2; 3].
Proof.
  destruct (writei_readi_roundtrip Image.sblk 1 Image.file_ino 5 [1; 2; 3] [0; 0; 0]
    (Image.st0 [Image.root_ino; Image.file_ino] ([1; 2; 3] ++ [0; 0; 0])) Image.tx0)
    as (s' & t' & ip' & Hrun & Hk & _); image.
  exists s'. done.
Defined.

(** [/f] is truncated. *)
Lemma itrunc_frees_blocks_witness :
  exists s', itrunc 1 (Image.st0 [Image.root_ino; Image.file_ino] []) = Ok tt s'.
Proof.
  destruct (itrunc_frees_blocks Image.sblk {[32; 34]} 1 Image.file_ino
    (Image.st0 [Image.root_ino; Image.file_ino] []) Image.tx0) as (s' & t' & Hrun & _); image.
  - intros b Hb. assert (BBLOCK b Image.sblk = 34) as ->; [|set_solver].
    unfold BBLOCK. cbn in Hb |- *. rewrite Z.div_small; [done|unfold BPB, BSIZE; lia].
  - change (IBLOCK (i_inum Image.file_ino) Image.sblk) with 32. set_solver.
  - by exists s'.
Defined.

(** A second name, [g], for [/f]. *)
Lemma dirlink_dirlookup_witness :
  exists s' j, (r ← dirlink 0 [103; 0] 2; q ← dirlookup 0 [103; 0]; ret (r, q))
      (Image.st0 [Image.root_ino; Image.file_ino] []) = Ok (0, Some (j, 48)) s'.
Proof.
  destruct (dirlink_dirlookup Image.sblk 0 Image.root_ino [103; 0] 2
    (Image.st0 [Image.root_ino; Image.file_ino] []) Image.tx0) as (s' & t' & j & jp & ip' & Hrun & _); image.
  - exists 1%nat, Image.file_ino. split; [done|]. split; [done|]. left. by split.
  - exists s', j. exact Hrun.
Defined.

Lemma image_dino : dino Image.sblk Image.disk0 1 = Image.root_di /\ dino Image.sblk Image.disk0 2 = Image.file_di.
Proof. split; vm_compute; reflexivity. Qed.

Lemma image_entries :
  dir_entries Image.sblk Image.disk0 1 = [(1, [46]); (1, [46; 46]); (2, [102])].
Proof. vm_compute. reflexivity. Qed.

Definition image_tree (n : Z) : Prop := n = 1 \/ n = 2.

Lemma image_tree_ok : tree_ok Image.sblk Image.disk0 image_tree.
Proof.
  destruct image_dino as [E1 E2].
  assert (is_dir Image.sblk Image.disk0 2 = false) as Ed by (unfold is_dir; by rewrite E2).
  split.
  - intros n [->| ->]; cbn; lia.
  - intros n [->| ->]; rewrite ?E1, ?E2; done.
  - intros n [->| ->]; [intros _|by rewrite Ed]. unfold disk_inode. rewrite E1.
    split; [apply (Image.file_ok0 35); lia|]. split; [apply (Image.no_holes0 35); [done|done|unfold BSIZE; cbn; lia]|done].
  - intros n e [->| ->]; [intros _|by rewrite Ed]. rewrite image_entries. intros He _.
    repeat (apply elem_of_cons in He as [->|He]; [unfold image_tree; cbn; lia|]). by apply elem_of_nil in He.
Qed.

Definition empty_icache : list inode := replicate 3 Image.unused.

Lemma empty_icache_ok x v G : cache_ok x v G None empty_icache.
Proof.
  split.
  - intros j ip [-> _]%(lookup_replicate 3). split; [cbn; lia|]. split; [done|]. cbn. lia.
  - intros j k jp kp [-> _]%(lookup_replicate 3) _ Hr. cbn in Hr. lia.
Qed.

(** The path [//f] leads to inode 2. *)
Lemma namei_walk_witness :
  exists j s', namei [47; 47; 102] (Image.st0 empty_icache []) = Ok (Some j) s' /\
    holds [0; 0; 0] j 2 (icache (fv s')).
Proof.
  destruct (namei_walk Image.sblk image_tree [47; 47; 102] 1 3 0 1 (Image.st0 empty_icache []) Image.tx0)
    as (o & s' & Hrun & _ & _ & Hres); image; try done; try lia.
  - apply image_tree_ok.
  - by left.
  - split; [done|]. split; [done|]. apply empty_icache_ok.
  - repeat constructor; lia.
  - assert (walk_path Image.sblk (t_view Image.tx0) 1 (elems [47; 47; 102]) = Some 2) as Ew by (vm_compute; reflexivity).
    rewrite Ew in Hres. destruct Hres as (j & -> & Hh). exists j, s'. split; [exact Hrun|exact Hh].
Defined.

(** User memory refuses the copy; five bytes are reported. *)
Lemma readi_hides_copy_error_witness :
  exists s', readi 1 true 4096 0 100 (Image.st0 [Image.root_ino; Image.file_ino] []) = Ok 5 s'.
Proof.
  destruct (readi_hides_copy_error Image.sblk 1 Image.file_ino 4096 0 100
    (Image.st0 [Image.root_ino; Image.file_ino] []) Image.tx0) as (s' & Hrun & _); image; try lia.
  - intros bs. reflexivity.
  - by exists s'.
Defined.

(** The small disk behind the log and the buffer cache, with an empty log. *)
Definition log0 : log := mklog 2 30 0 false 1 0 (replicate 30 0) 0.
Definition kernel0 (k : bytes) : fsstate (lstate bcache) unit :=
  mkfs (Image.vars [Image.root_ino; Image.file_ino] k) (mkls log0 (binit (boot_cache 3 Image.disk0))).

Lemma log0_idle : log_idle (nbuf := NBUF) log0 (empty_acache Image.disk0).
Proof.
  split; [|done..]. split; [|vm_compute; reflexivity|done]. split; try done.
  - by split; [constructor|split; [constructor|done]].
  - intros b Hb. by apply elem_of_nil in Hb.
  - simpl. rewrite map_size_empty. unfold NBUF. lia.
Qed.

