(* ===== verification/Pipe.v ===== *)
(** Pipes: kernel/proc/pipe.c.

    A pipe is a ring of 512 bytes between two counters that wrap at 32 bits.  The
    code of one call runs under the lock of the pipe up to its end or to the point
    where it sleeps; [pipewrite] and [piperead] below are these segments, and they
    return where they stopped.  [pstep] is the system of all processes that use the
    pipe: it interleaves the segments, with sleep and wakeup. *)

From S2P Require Import Prelude FsDisk.

Definition PIPESIZE : Z := 512.

Record pipe := mkpipe {
  p_data : bytes; p_nread : Z; p_nwrite : Z; p_readopen : bool; p_writeopen : bool }.

(** The two channels: [&pi->nread], where readers sleep, and [&pi->nwrite]. *)
Inductive pchan := ChRead | ChWrite.

(** How a segment ended: the call returns, or it sleeps with its counter [i]. *)
Inductive presult := PDone (r : Z) | PSleep (i : Z).

(** ** The code *)

Section code.
Context {C : Type} `{!UserCopy C}.

(** The pipe, the memory of the process, its [killed] flag, the wakeups issued. *)
Record pst := mkpst { s_pipe : pipe; s_mem : C; s_killed : bool; s_wk : list pchan }.

Definition get_pipe : M pst pipe := gets s_pipe.
Definition put_pipe (q : pipe) : M pst unit := modify (fun s => mkpst q (s_mem s) (s_killed s) (s_wk s)).
Definition pwakeup (ch : pchan) : M pst unit :=
  modify (fun s => mkpst (s_pipe s) (s_mem s) (s_killed s) (s_wk s ++ [ch])).
Definition umemM {A} (m : M C A) : M pst A := fun s =>
  match m (s_mem s) with
  | Ok a c => Ok a (mkpst (s_pipe s) c (s_killed s) (s_wk s))
  | Panic msg => Panic msg
  | Sleep c => Sleep (mkpst (s_pipe s) c (s_killed s) (s_wk s))
  | OutOfFuel => OutOfFuel
  | Undef => Undef
  end.

(** The fields that [pipealloc] sets in a new pipe; [data] is what was in the memory. *)
Definition pipe_new (junk : bytes) : pipe := mkpipe junk 0 0 true true.

(** [pipeclose]; [true]: the pipe is freed. *)
Definition pipeclose (writable : bool) : M pst bool :=
  (if writable then
     q ← get_pipe; put_pipe (mkpipe (p_data q) (p_nread q) (p_nwrite q) (p_readopen q) false);; pwakeup ChRead
   else
     q ← get_pipe; put_pipe (mkpipe (p_data q) (p_nread q) (p_nwrite q) false (p_writeopen q));; pwakeup ChWrite);;
  q ← get_pipe;
  ret (negb (p_readopen q) && negb (p_writeopen q)).

(** [pi->data[pi->nwrite++ % PIPESIZE] = ch]. *)
Definition pipe_push (ch : Z) (q : pipe) : pipe :=
  mkpipe (<[Z.to_nat (p_nwrite q mod PIPESIZE) := ch]> (p_data q)) (p_nread q) (u32 (p_nwrite q + 1))
    (p_readopen q) (p_writeopen q).
(** [ch = pi->data[pi->nread++ % PIPESIZE]]. *)
Definition pipe_peek (q : pipe) : Z := default 0 (p_data q !! Z.to_nat (p_nread q mod PIPESIZE)).
Definition pipe_pop (q : pipe) : pipe :=
  mkpipe (p_data q) (u32 (p_nread q + 1)) (p_nwrite q) (p_readopen q) (p_writeopen q).

Fixpoint pipewrite_loop (fuel : nat) (addr n i : Z) : M pst presult :=
  match fuel with
  | O => nofuel
  | Datatypes.S fuel' =>
      let finish := pwakeup ChRead;; ret (PDone n) in
      if i <? n then
        q ← get_pipe;
        if p_nwrite q =? u32 (p_nread q + PIPESIZE) then
          k ← gets s_killed;
          if negb (p_readopen q) || k then ret (PDone (-1))
          else pwakeup ChRead;; ret (PSleep i)
        else
          ' (got, r) ← umemM (uc_copyin (u64 (addr + i)) 1);
          if r =? -1 then finish
          else
            match got with
            | [ch] => put_pipe (pipe_push ch q);; pipewrite_loop fuel' addr n (i + 1)
            | _ => undef
            end
      else finish
  end.

(** From the start ([i = 0]), and again from the [while] after a sleep. *)
Definition pipewrite (addr n i : Z) : M pst presult := pipewrite_loop (Datatypes.S (Z.to_nat (n - i))) addr n i.

(** The copy loop of [piperead]; it returns [i]. *)
Fixpoint piperead_loop (fuel : nat) (addr n i : Z) : M pst Z :=
  match fuel with
  | O => nofuel
  | Datatypes.S fuel' =>
      if i <? n then
        q ← get_pipe;
        if p_nread q =? p_nwrite q then ret i
        else
          put_pipe (pipe_pop q);;
          r ← umemM (uc_copyout (u64 (addr + i)) [pipe_peek q]);
          if r =? -1 then ret i else piperead_loop fuel' addr n (i + 1)
      else ret i
  end.

Definition piperead (addr n : Z) (nonblockable : bool) : M pst presult :=
  q ← get_pipe;
  if nonblockable && (p_nread q =? p_nwrite q) && p_writeopen q then ret (PDone 0)
  else if (p_nread q =? p_nwrite q) && p_writeopen q then
    k ← gets s_killed;
    if k then ret (PDone (-1)) else ret (PSleep 0)
  else
    i ← piperead_loop (Datatypes.S (Z.to_nat n)) addr n 0;
    pwakeup ChWrite;;
    ret (PDone i).
End code.
Arguments pst : clear implicits.

(** ** What a pipe contains *)

Definition pslot (q : pipe) (k : nat) : Z :=
  default 0 (p_data q !! Z.to_nat ((p_nread q + Z.of_nat k) mod PIPESIZE)).
Definition contents (q : pipe) : bytes := pslot q <$> seq 0 (Z.to_nat (u32 (p_nwrite q - p_nread q))).

Record pipe_ok (q : pipe) : Prop := {
  po_data : length (p_data q) = Z.to_nat PIPESIZE;
  po_nread : 0 <= p_nread q < 2 ^ 32;
  po_nwrite : 0 <= p_nwrite q < 2 ^ 32;
  po_size : u32 (p_nwrite q - p_nread q) <= PIPESIZE }.

Lemma length_contents q : Z.of_nat (length (contents q)) = u32 (p_nwrite q - p_nread q).
Proof. unfold contents. rewrite length_fmap, length_seq. pose proof (u32_range (p_nwrite q - p_nread q)). lia. Qed.

Lemma u32_eq_mod a b : u32 (a - b) = 0 -> 0 <= a < 2 ^ 32 -> 0 <= b < 2 ^ 32 -> a = b.
Proof. intros H Ha Hb. unfold u32, wrap in H. destruct (decide (a <= b)) as [Hle|Hle].
  - rewrite <-(Z_mod_plus_full (a - b) 1) in H. destruct (decide (a = b)) as [|Hne]; [done|].
    rewrite Z.mod_small in H by lia. lia.
  - rewrite Z.mod_small in H by lia. lia.
Qed.

(** The test for the empty pipe and for the full pipe. *)
Lemma pipe_empty_test q : pipe_ok q -> (p_nread q =? p_nwrite q) = true <-> contents q = [].
Proof.
  intros [_ Hr Hw _]. rewrite Z.eqb_eq, <-(length_zero_iff_nil (contents q)). pose proof (length_contents q) as Hl. split.
  - intros E. rewrite E, Z.sub_diag in Hl. change (u32 0) with 0 in Hl. lia.
  - intros E. rewrite E in Hl. symmetry. apply u32_eq_mod; [|done|done]. cbn in Hl. lia.
Qed.

Lemma pipe_full_test q : pipe_ok q -> (p_nwrite q =? u32 (p_nread q + PIPESIZE)) = true <-> Z.of_nat (length (contents q)) = PIPESIZE.
Proof.
  intros [_ Hr Hw _]. rewrite Z.eqb_eq, length_contents. unfold u32, wrap, PIPESIZE. split; intros E.
  - rewrite E, Zminus_mod_idemp_l. replace (p_nread q + 512 - p_nread q) with 512 by lia. done.
  - rewrite <-E, Zplus_mod_idemp_r. replace (p_nread q + (p_nwrite q - p_nread q)) with (p_nwrite q) by lia. by rewrite Z.mod_small.
Qed.

(** The counters modulo 2^32 agree with the positions in the ring. *)
Lemma mod_ring z : (z mod 2 ^ 32) mod PIPESIZE = z mod PIPESIZE.
Proof. apply Z.mod_mod_divide. by exists (2 ^ 23). Qed.

Lemma push_ok ch q :
  pipe_ok q -> Z.of_nat (length (contents q)) < PIPESIZE ->
  pipe_ok (pipe_push ch q) /\ contents (pipe_push ch q) = contents q ++ [ch].
Proof.
  intros [Hd Hr Hw Hs] Hlt. rewrite length_contents in Hlt.
  set (c := u32 (p_nwrite q - p_nread q)) in *. pose proof (u32_range (p_nwrite q - p_nread q)) as Hc. fold c in Hc.
  assert (u32 (u32 (p_nwrite q + 1) - p_nread q) = c + 1) as Ec.
  { unfold c, u32, wrap in *. rewrite Zminus_mod_idemp_l. replace (p_nwrite q + 1 - p_nread q) with (p_nwrite q - p_nread q + 1) by lia.
    rewrite <-Zplus_mod_idemp_l. apply Z.mod_small. unfold PIPESIZE in *. lia. }
  assert (p_nwrite q mod PIPESIZE = (p_nread q + c) mod PIPESIZE) as Eslot.
  { rewrite <-(mod_ring (p_nread q + c)). unfold c, u32, wrap. rewrite Zplus_mod_idemp_r.
    replace (p_nread q + (p_nwrite q - p_nread q)) with (p_nwrite q) by lia. by rewrite (Z.mod_small (p_nwrite q) (2 ^ 32)). }
  split.
  - split; cbn; [by rewrite length_insert|done|apply u32_range|rewrite Ec; lia].
  - unfold contents. cbn [p_nwrite p_nread pipe_push]. rewrite Ec. fold c.
    replace (Z.to_nat (c + 1)) with (Z.to_nat c + 1)%nat by lia. rewrite seq_app, fmap_app. cbn [seq fmap list_fmap Nat.add].
    assert (0 <= (p_nread q + c) mod PIPESIZE < PIPESIZE) as Hb by (apply Z.mod_pos_bound; done).
    f_equal.
    + apply list_fmap_ext. intros j k Hk. apply lookup_seq in Hk as [-> Hk]. unfold pslot. cbn [p_data p_nread pipe_push Nat.add].
      rewrite Eslot. rewrite list_lookup_insert_ne; [done|]. intros E.
      assert ((p_nread q + c) mod PIPESIZE = (p_nread q + Z.of_nat j) mod PIPESIZE) as E'.
      { pose proof (Z.mod_pos_bound (p_nread q + Z.of_nat j) PIPESIZE ltac:(done)). lia. }
      pose proof (Z.div_mod (p_nread q + c) PIPESIZE ltac:(done)). pose proof (Z.div_mod (p_nread q + Z.of_nat j) PIPESIZE ltac:(done)).
      assert (PIPESIZE * ((p_nread q + c) / PIPESIZE - (p_nread q + Z.of_nat j) / PIPESIZE) = c - Z.of_nat j) by lia.
      unfold PIPESIZE in *. lia.
    + f_equal. unfold pslot. cbn [p_data p_nread pipe_push]. rewrite Z2Nat.id by lia. rewrite Eslot.
      rewrite list_lookup_insert_eq; [done|]. rewrite Hd. lia.
Qed.

Lemma pop_ok q b rest :
  pipe_ok q -> contents q = b :: rest ->
  pipe_ok (pipe_pop q) /\ contents (pipe_pop q) = rest /\ pipe_peek q = b.
Proof.
  intros [Hd Hr Hw Hs] Hc. pose proof (length_contents q) as Hl. rewrite Hc in Hl. cbn [length] in Hl.
  set (c := u32 (p_nwrite q - p_nread q)) in *.
  assert (u32 (p_nwrite q - u32 (p_nread q + 1)) = c - 1) as Ec.
  { assert (u32 (p_nwrite q - u32 (p_nread q + 1)) = u32 (u32 (p_nwrite q - p_nread q) - 1)) as ->.
    { unfold u32, wrap. rewrite Zminus_mod_idemp_r, Zminus_mod_idemp_l. f_equal. lia. }
    pose proof (u32_range (p_nwrite q - p_nread q)). apply u32_small. unfold c in *. lia. }
  unfold contents in Hc. fold c in Hc. replace (Z.to_nat c) with (Datatypes.S (length rest)) in Hc by lia.
  cbn [seq fmap list_fmap] in Hc. injection Hc as Hb Hrest. split; [|split].
  - split; cbn; [done|apply u32_range|done|rewrite Ec; lia].
  - unfold contents. cbn [p_nwrite p_nread pipe_pop]. rewrite Ec. replace (Z.to_nat (c - 1)) with (length rest) by lia.
    rewrite <-Hrest at 2. rewrite <-fmap_S_seq, <-list_fmap_compose. apply list_fmap_ext. intros j k Hk.
    unfold compose, pslot. cbn [p_data p_nread pipe_pop]. do 3 f_equal.
    rewrite <-mod_ring, <-(mod_ring (p_nread q + Z.of_nat (Datatypes.S k))). f_equal. unfold u32, wrap. rewrite Zplus_mod_idemp_l. f_equal. lia.
  - rewrite <-Hb. unfold pipe_peek, pslot. by rewrite Z.add_0_r.
Qed.

(** ** The segments *)

(** User memory as bytes: what can be read, what can be written. *)
Class UserBytes (C : Type) `{!UserCopy C} := {
  ub_rd : C -> Z -> option Z;
  ub_wr : C -> Z -> bool;
  ub_in a c : uc_copyin a 1 c = match ub_rd c a with Some b => Ok ([b], 0) c | None => Ok ([], -1) c end;
  ub_out a b c :
    if ub_wr c a then
      exists c', uc_copyout a [b] c = Ok 0 c' /\ (forall x, ub_rd c' x = fupd (ub_rd c) a (Some b) x) /\
        forall x, ub_wr c' x = ub_wr c x
    else uc_copyout a [b] c = Ok (-1) c }.

Section segments.
Context {C : Type} `{!UserCopy C} `{!UserBytes C}.
Implicit Types (s : pst C) (c : C).

(** The readable bytes from [addr + i], at most [k]. *)
Fixpoint fetch c (addr i : Z) (k : nat) : bytes :=
  match k with
  | O => []
  | Datatypes.S k' =>
      match ub_rd c (u64 (addr + i)) with
      | Some b => b :: fetch c addr (i + 1) k'
      | None => []
      end
  end.

(** The number of writable bytes from [addr + i], at most [k]. *)
Fixpoint wlen c (addr i : Z) (k : nat) : nat :=
  match k with
  | O => 0
  | Datatypes.S k' => if ub_wr c (u64 (addr + i)) then Datatypes.S (wlen c addr (i + 1) k') else 0
  end.

Fixpoint wr_bytes (f : Z -> option Z) (addr i : Z) (bs : bytes) : Z -> option Z :=
  match bs with
  | [] => f
  | b :: bs' => wr_bytes (fupd f (u64 (addr + i)) (Some b)) addr (i + 1) bs'
  end.

Lemma wr_bytes_ext f g addr i bs x : (forall y, f y = g y) -> wr_bytes f addr i bs x = wr_bytes g addr i bs x.
Proof.
  revert f g i. induction bs as [|b bs IH]; intros f g i E; cbn; [done|]. apply IH. intros y. unfold fupd. by case_match.
Qed.

Lemma wlen_ext c c' addr i k : (forall x, ub_wr c x = ub_wr c' x) -> wlen c addr i k = wlen c' addr i k.
Proof. intros E. revert i. induction k as [|k IH]; intros i; cbn; [done|]. rewrite E, IH. done. Qed.

Lemma length_fetch c addr i k : (length (fetch c addr i k) <= k)%nat.
Proof. revert i. induction k as [|k IH]; intros i; cbn; [lia|]. destruct (ub_rd c _); cbn; [specialize (IH (i + 1)); lia|lia]. Qed.

Definition proom (q : pipe) : nat := Z.to_nat PIPESIZE - length (contents q).

Definition same_ends (q q' : pipe) : Prop := p_readopen q' = p_readopen q /\ p_writeopen q' = p_writeopen q.

Definition write_end (q q' : pipe) s (n i : Z) (m : nat) (bs : bytes) : outcome (pst C) presult :=
  if decide (length bs = proom q /\ proom q < m)%nat then
    if negb (p_readopen q) || s_killed s then Ok (PDone (-1)) (mkpst q' (s_mem s) (s_killed s) (s_wk s))
    else Ok (PSleep (i + Z.of_nat (length bs))) (mkpst q' (s_mem s) (s_killed s) (s_wk s ++ [ChRead]))
  else Ok (PDone n) (mkpst q' (s_mem s) (s_killed s) (s_wk s ++ [ChRead])).

(** A segment of [pipewrite] takes as many bytes as there are, as fit and as can be
    read, and sleeps (or gives up) only with a full pipe. *)
Lemma pipewrite_seg fuel addr n i s :
  pipe_ok (s_pipe s) -> (Z.to_nat (n - i) < fuel)%nat ->
  let q := s_pipe s in
  let m := Z.to_nat (n - i) in
  let bs := fetch (s_mem s) addr i (Nat.min m (proom q)) in
  exists q', pipe_ok q' /\ contents q' = contents q ++ bs /\ same_ends q q' /\
    pipewrite_loop fuel addr n i s = write_end q q' s n i m bs.
Proof.
  revert i s. induction fuel as [|fuel IH]; intros i s Hok Hf q m bs; [lia|].
  cbn [pipewrite_loop]. cbv zeta. destruct (Z.ltb_spec i n) as [Hlt|Hge].
  2: { exists q. assert (m = 0%nat) as Em by lia. assert (bs = []) as Eb by (unfold bs; by rewrite Em).
    split; [done|]. rewrite Eb, app_nil_r. split; [done|]. split; [done|].
    unfold write_end. rewrite decide_False by lia. by destruct s. }
  assert (m = Datatypes.S (Z.to_nat (n - (i + 1)))) as Em by lia.
  erewrite bind_ok by reflexivity. fold q. fold q in Hok.
  pose proof (po_size _ Hok) as Hsz. rewrite <-length_contents in Hsz.
  destruct (p_nwrite q =? u32 (p_nread q + PIPESIZE)) eqn:Efull.
  - apply pipe_full_test in Efull; [|done]. assert (proom q = 0%nat) as Er by (unfold proom; lia).
    assert (bs = []) as Eb by (unfold bs; rewrite Er, Nat.min_0_r; done).
    exists q. rewrite Eb, app_nil_r. split; [done|]. split; [done|]. split; [done|].
    erewrite bind_ok by reflexivity. unfold write_end. rewrite Er. rewrite decide_True by (cbn; lia).
    cbn [length Z.of_nat]. rewrite Z.add_0_r. destruct (negb (p_readopen q) || s_killed s); by destruct s.
  - assert (Z.of_nat (length (contents q)) < PIPESIZE) as Hlen.
    { destruct (decide (Z.of_nat (length (contents q)) = PIPESIZE)) as [E|]; [|lia]. apply pipe_full_test in E; [congruence|done]. }
    assert (proom q = Datatypes.S (pred (proom q))) as Er by (unfold proom; lia).
    assert (Nat.min m (proom q) = Datatypes.S (Nat.min (Z.to_nat (n - (i + 1))) (pred (proom q)))) as Emin by lia.
    destruct (ub_rd (s_mem s) (u64 (addr + i))) as [b|] eqn:Erd.
    + destruct (push_ok b q Hok Hlen) as [Hok' Hc'].
      destruct (IH (i + 1) (mkpst (pipe_push b q) (s_mem s) (s_killed s) (s_wk s)) Hok' ltac:(lia)) as (q' & Hq' & Hcq & Hse & Hrun).
      cbn [s_pipe s_mem] in Hcq, Hrun, Hse. assert (proom (pipe_push b q) = pred (proom q)) as Er'.
      { unfold proom. rewrite Hc', length_app. cbn [length]. lia. }
      rewrite Er' in Hcq, Hrun.
      assert (bs = b :: fetch (s_mem s) addr (i + 1) (Nat.min (Z.to_nat (n - (i + 1))) (pred (proom q)))) as Eb.
      { unfold bs. rewrite Emin. cbn [fetch]. by rewrite Erd. }
      set (bs' := fetch _ _ (i + 1) _) in *. exists q'. split; [done|]. split; [by rewrite Hcq, Hc', Eb, <-app_assoc|]. split; [done|].
      etransitivity; [eapply bind_ok; unfold umemM; rewrite ub_in, Erd; reflexivity|]. cbn [Z.eqb]. mpure.
      etransitivity; [exact Hrun|]. unfold write_end. cbn [s_mem s_killed s_wk]. rewrite Er', Eb. cbn [length p_readopen pipe_push].
      repeat case_decide; try lia; [|done]. replace (i + Z.of_nat (Datatypes.S (length bs'))) with (i + 1 + Z.of_nat (length bs')) by lia. done.
    + assert (bs = []) as Eb by (unfold bs; rewrite Emin; cbn [fetch]; by rewrite Erd).
      exists q. rewrite Eb, app_nil_r. split; [done|]. split; [done|]. split; [done|].
      etransitivity; [eapply bind_ok; unfold umemM; rewrite ub_in, Erd; reflexivity|]. cbn [Z.eqb Pos.eqb].
      unfold write_end. rewrite decide_False by (cbn; lia). by destruct s.
Qed.

(** The copy loop of [piperead]: it takes bytes from the front until it has [n], the
    pipe is empty or a byte cannot be stored; that byte is lost. *)
Lemma piperead_seg fuel addr n i s :
  pipe_ok (s_pipe s) -> (Z.to_nat (n - i) < fuel)%nat ->
  let q := s_pipe s in
  let k := Nat.min (Z.to_nat (n - i)) (length (contents q)) in
  let w := wlen (s_mem s) addr i k in
  let j := if decide (w = k) then k else Datatypes.S w in
  exists q' c', pipe_ok q' /\ contents q' = drop j (contents q) /\ same_ends q q' /\
    (forall x, ub_rd c' x = wr_bytes (ub_rd (s_mem s)) addr i (take w (contents q)) x) /\
    (forall x, ub_wr c' x = ub_wr (s_mem s) x) /\
    piperead_loop fuel addr n i s = Ok (i + Z.of_nat w) (mkpst q' c' (s_killed s) (s_wk s)).
Proof.
  revert i s. induction fuel as [|fuel IH]; intros i s Hok Hf q k w j; [lia|].
  assert (forall q' c', q' = q -> c' = s_mem s -> w = 0%nat -> k = 0%nat ->
    pipe_ok q' /\ contents q' = drop j (contents q) /\ same_ends q q' /\
    (forall x, ub_rd c' x = wr_bytes (ub_rd (s_mem s)) addr i (take w (contents q)) x) /\ (forall x, ub_wr c' x = ub_wr (s_mem s) x)) as Hstop.
  { intros q' c' -> -> Ew Ek. unfold j. rewrite Ew, Ek. rewrite decide_True by done. rewrite drop_0, take_0. done. }
  cbn [piperead_loop]. destruct (Z.ltb_spec i n) as [Hlt|Hge].
  2: { assert (k = 0%nat) as Ek by lia. assert (w = 0%nat) as Ew by (unfold w; by rewrite Ek). exists q, (s_mem s).
    destruct (Hstop q (s_mem s)) as (H1 & H2 & H3 & H4 & H5); try done. do 5 (split; [done|]). rewrite Ew. cbn. rewrite Z.add_0_r. by destruct s. }
  erewrite bind_ok by reflexivity. fold q. fold q in Hok. destruct (p_nread q =? p_nwrite q) eqn:Ee.
  - apply pipe_empty_test in Ee; [|done]. assert (k = 0%nat) as Ek by (unfold k; rewrite Ee; cbn; lia).
    assert (w = 0%nat) as Ew by (unfold w; by rewrite Ek). exists q, (s_mem s).
    destruct (Hstop q (s_mem s)) as (H1 & H2 & H3 & H4 & H5); try done. do 5 (split; [done|]). rewrite Ew. cbn. rewrite Z.add_0_r. by destruct s.
  - destruct (contents q) as [|b rest] eqn:Ec.
    { apply pipe_empty_test in Ec; [congruence|done]. }
    destruct (pop_ok q b rest Hok Ec) as (Hok' & Hc' & Hpk).
    assert (k = Datatypes.S (Nat.min (Z.to_nat (n - (i + 1))) (length rest))) as Ek by (unfold k; cbn [length]; lia).
    erewrite bind_ok by reflexivity. rewrite Hpk. pose proof (ub_out (u64 (addr + i)) b (s_mem s)) as Hout.
    destruct (ub_wr (s_mem s) (u64 (addr + i))) eqn:Ewr.
    + destruct Hout as (c1 & Hcp & Hrd1 & Hwr1).
      destruct (IH (i + 1) (mkpst (pipe_pop q) c1 (s_killed s) (s_wk s)) Hok' ltac:(lia)) as (q' & c' & Hq' & Hcq & Hse & Hrd & Hwr & Hrun).
      cbn [s_pipe s_mem s_killed s_wk] in *. rewrite Hc' in *.
      set (k' := Nat.min (Z.to_nat (n - (i + 1))) (length rest)) in *.
      rewrite (wlen_ext c1 (s_mem s)) in * by done. set (w' := wlen (s_mem s) addr (i + 1) k') in *.
      assert (w = Datatypes.S w') as Ew by (unfold w; rewrite Ek; cbn [wlen]; by rewrite Ewr).
      exists q', c'. split; [done|]. split.
      { rewrite Hcq. unfold j. rewrite Ew, Ek. repeat case_decide; try lia; done. }
      split; [done|]. split.
      { intros x. rewrite Hrd, Ew. cbn [take wr_bytes]. by apply wr_bytes_ext. }
      split; [intros x; by rewrite Hwr|].
      etransitivity; [eapply bind_ok; unfold umemM; cbn [s_mem]; rewrite Hcp; reflexivity|]. cbn [Z.eqb].
      etransitivity; [exact Hrun|]. f_equal. rewrite Ew. lia.
    + assert (w = 0%nat) as Ew by (unfold w; rewrite Ek; cbn [wlen]; by rewrite Ewr).
      exists (pipe_pop q), (s_mem s). split; [done|]. split.
      { rewrite Hc'. unfold j. rewrite Ew, decide_False by lia. done. }
      split; [done|]. split; [intros x; by rewrite Ew|]. split; [done|].
      etransitivity; [eapply bind_ok; unfold umemM; cbn [s_mem]; rewrite Hout; reflexivity|]. cbn [Z.eqb Pos.eqb].
      rewrite Ew. cbn. by rewrite Z.add_0_r.
Qed.

(** ** The processes that share a pipe *)

Inductive prole := PWrite | PRead (nonblockable : bool).
(** Outside of the call, ready to run (from counter [i]), asleep on its channel. *)
Inductive prun := PIdle | PReady (i : Z) | PAsleep (i : Z).

Record pproc := mkpp { pr_role : prole; pr_addr : Z; pr_n : Z; pr_mem : C; pr_killed : bool; pr_run : prun }.

(** [sent] are the bytes that entered the pipe, [recvd] those that left it, in order. *)
Record psys := mksys { y_pipe : pipe; y_procs : list pproc; y_sent : bytes; y_recvd : bytes }.

Definition with_run (r : prun) (p : pproc) : pproc :=
  mkpp (pr_role p) (pr_addr p) (pr_n p) (pr_mem p) (pr_killed p) r.

Definition is_write (r : prole) : bool := match r with PWrite => true | PRead _ => false end.
Definition chan_of (r : prole) : pchan := match r with PWrite => ChWrite | PRead _ => ChRead end.
Definition pchan_eqb (a b : pchan) : bool :=
  match a, b with ChRead, ChRead | ChWrite, ChWrite => true | _, _ => false end.

(** [wakeup]: every process asleep on the channel becomes ready. *)
Definition wake1 (ch : pchan) (p : pproc) : pproc :=
  match pr_run p with
  | PAsleep i => if pchan_eqb (chan_of (pr_role p)) ch then with_run (PReady i) p else p
  | _ => p
  end.
Definition wakep (wk : list pchan) (p : pproc) : pproc := fold_left (fun p ch => wake1 ch p) wk p.
Definition wakes (wk : list pchan) (ps : list pproc) : list pproc := wakep wk <$> ps.

(** The code that a ready process runs next. *)
Definition segment (p : pproc) (i : Z) : M (pst C) presult :=
  match pr_role p with
  | PWrite => pipewrite (pr_addr p) (pr_n p) i
  | PRead nb => piperead (pr_addr p) (pr_n p) nb
  end.

Definition after (r : presult) : prun := match r with PDone _ => PIdle | PSleep i => PAsleep i end.


(** A process can call [piperead] while the read end is open; the last reference to
    an end is dropped when no call uses it.  Processes are killed while they are in
    [piperead] or outside of a call. *)
Inductive pstep (y : psys) : psys -> Prop :=
  | ps_call k p role addr n :
      y_procs y !! k = Some p -> pr_run p = PIdle ->
      (if is_write role then p_writeopen (y_pipe y) = true /\ pr_killed p = false else p_readopen (y_pipe y) = true) ->
      pstep y (mksys (y_pipe y) (<[k := mkpp role addr n (pr_mem p) (pr_killed p) (PReady 0)]> (y_procs y)) (y_sent y) (y_recvd y))
  | ps_run k p i r s' :
      y_procs y !! k = Some p -> pr_run p = PReady i ->
      segment p i (mkpst (y_pipe y) (pr_mem p) (pr_killed p) []) = Ok r s' ->
      let old := contents (y_pipe y) in
      let new := contents (s_pipe s') in
      pstep y (mksys (s_pipe s')
        (wakes (s_wk s') (<[k := mkpp (pr_role p) (pr_addr p) (pr_n p) (s_mem s') (pr_killed p) (after r)]> (y_procs y)))
        (if is_write (pr_role p) then y_sent y ++ drop (length old) new else y_sent y)
        (if is_write (pr_role p) then y_recvd y else y_recvd y ++ take (length old - length new) old))
  | ps_close w c b s' :
      (forall k p, y_procs y !! k = Some p -> pr_run p <> PIdle -> is_write (pr_role p) = negb w) ->
      pipeclose w (mkpst (y_pipe y) c false []) = Ok b s' ->
      pstep y (mksys (s_pipe s') (wakes (s_wk s') (y_procs y)) (y_sent y) (y_recvd y))
  | ps_kill k p :
      y_procs y !! k = Some p -> is_write (pr_role p) = false ->
      pstep y (mksys (y_pipe y)
        (<[k := mkpp (pr_role p) (pr_addr p) (pr_n p) (pr_mem p) true
                  (match pr_run p with PAsleep i => PReady i | r => r end)]> (y_procs y)) (y_sent y) (y_recvd y)).

Definition p_ok (q : pipe) (p : pproc) : Prop :=
  match pr_run p with
  | PIdle => True
  | PReady _ => if is_write (pr_role p) then pr_killed p = false else p_readopen q = true
  | PAsleep _ =>
      if is_write (pr_role p) then
        pr_killed p = false /\ p_readopen q = true /\ Z.of_nat (length (contents q)) = PIPESIZE
      else p_readopen q = true /\ p_writeopen q = true /\ contents q = []
  end.

Record psys_ok (y : psys) : Prop := {
  ys_pipe : pipe_ok (y_pipe y);
  ys_fifo : y_sent y = y_recvd y ++ contents (y_pipe y);
  ys_procs : Forall (p_ok (y_pipe y)) (y_procs y) }.

(** After a wakeup no process sleeps on that channel; the others are unchanged. *)
Lemma wakep_spec wk p :
  let p' := wakep wk p in
  pr_role p' = pr_role p /\ pr_killed p' = pr_killed p /\
  (pr_run p' = pr_run p /\ (forall i, pr_run p = PAsleep i -> chan_of (pr_role p) ∉ wk) \/
   exists i, pr_run p = PAsleep i /\ pr_run p' = PReady i).
Proof.
  revert p. induction wk as [|ch wk IH]; intros p p'; unfold p'; cbn [wakep fold_left].
  - split; [done|]. split; [done|]. left. split; [done|]. intros i _. apply not_elem_of_nil.
  - fold (wakep wk (wake1 ch p)). destruct (IH (wake1 ch p)) as (Hr & Hk & Hrun). rewrite Hr, Hk. unfold wake1 in *.
    destruct (pr_run p) as [|i|i] eqn:E.
    1,2: rewrite E in Hrun; split; [done|]; split; [done|]; destruct Hrun as [[? _]|(i' & ? & _)]; [|congruence]; left; split; [done|]; intros ? ?; congruence.
    destruct (pchan_eqb (chan_of (pr_role p)) ch) eqn:Ech; cbn in Hrun |- *.
    + split; [done|]. split; [done|]. right. exists i. split; [done|]. destruct Hrun as [[? _]|(? & ? & ?)]; congruence.
    + rewrite E in Hrun. split; [done|]. split; [done|]. destruct Hrun as [[-> Hch]|(i' & Hi & Hrdy)]; [left|right; eauto].
      split; [done|]. intros i'' Hi''. apply not_elem_of_cons. split; [|by apply (Hch i'')].
      intros Ec. rewrite Ec in Ech. by destruct ch.
Qed.

(** A change of the pipe with wakeups keeps the promise about sleeping processes if
    each channel that is not woken has its reason to sleep unchanged. *)
Lemma p_ok_change q q' wk p :
  p_ok q p -> p_readopen q' = p_readopen q \/ (pr_run p <> PIdle -> is_write (pr_role p) = true) ->
  (ChWrite ∈ wk \/ p_readopen q' = p_readopen q /\ (Z.of_nat (length (contents q)) = PIPESIZE -> Z.of_nat (length (contents q')) = PIPESIZE)) ->
  (ChRead ∈ wk \/ p_readopen q' = p_readopen q /\ p_writeopen q' = p_writeopen q /\ (p_writeopen q = true -> contents q = [] -> contents q' = [])) ->
  p_ok q' (wakep wk p).
Proof.
  intros Hp Hro Hw Hr. destruct (wakep_spec wk p) as (Erole & Ekl & Hrun). unfold p_ok in *. rewrite Erole, Ekl.
  assert (is_write (pr_role p) = false -> pr_run p <> PIdle -> p_readopen q' = p_readopen q) as Hro'.
  { intros Ew Hi. destruct Hro as [?|Hf]; [done|]. specialize (Hf Hi). congruence. }
  destruct Hrun as [[-> Hch]|(i & E0 & ->)].
  - destruct (pr_run p) as [|i|i] eqn:E0; [done| |].
    + destruct (is_write (pr_role p)) eqn:Ew; [done|]. by rewrite Hro'.
    + specialize (Hch i eq_refl). destruct (pr_role p) as [|nb]; cbn [is_write chan_of] in *.
      * destruct Hp as (H1 & H2 & H3). destruct Hw as [?|[E1 E2]]; [done|]. rewrite E1. auto.
      * destruct Hp as (H1 & H2 & H3). destruct Hr as [?|(E1 & E2 & E3)]; [done|]. rewrite E1, E2. auto.
  - rewrite E0 in *. destruct (is_write (pr_role p)) eqn:Ew; [by destruct Hp|]. destruct Hp as (H1 & _). by rewrite Hro'.
Qed.

Lemma p_ok_wakes q q' wk ps k p' :
  Forall (p_ok q) ps -> p_readopen q' = p_readopen q ->
  (ChWrite ∈ wk \/ (Z.of_nat (length (contents q)) = PIPESIZE -> Z.of_nat (length (contents q')) = PIPESIZE)) ->
  (ChRead ∈ wk \/ p_writeopen q' = p_writeopen q /\ (p_writeopen q = true -> contents q = [] -> contents q' = [])) ->
  p_ok q' (wakep wk p') -> Forall (p_ok q') (wakes wk (<[k := p']> ps)).
Proof.
  intros Hall Hro Hw Hr Hp'. unfold wakes. rewrite list_fmap_insert. apply Forall_insert; [|done].
  apply Forall_fmap. eapply Forall_impl; [exact Hall|]. intros p Hp. apply (p_ok_change q); tauto.
Qed.

(** The segment of a writer. *)
Lemma write_step y k p i r s' :
  psys_ok y -> y_procs y !! k = Some p -> pr_run p = PReady i -> pr_role p = PWrite ->
  segment p i (mkpst (y_pipe y) (pr_mem p) (pr_killed p) []) = Ok r s' ->
  let ps := wakes (s_wk s') (<[k := mkpp (pr_role p) (pr_addr p) (pr_n p) (s_mem s') (pr_killed p) (after r)]> (y_procs y)) in
  psys_ok (mksys (s_pipe s') ps (y_sent y ++ drop (length (contents (y_pipe y))) (contents (s_pipe s'))) (y_recvd y)).
Proof.
  intros [Hok Hfifo Hps] Hk Hrun Hrole Hseg ps. pose proof (proj1 (Forall_lookup _ _) Hps k p Hk) as Hp. unfold p_ok in Hp.
  rewrite Hrun, Hrole in Hp. cbn [is_write] in Hp. unfold segment in Hseg. rewrite Hrole, Hp in Hseg. unfold pipewrite in Hseg.
  destruct (pipewrite_seg (Datatypes.S (Z.to_nat (pr_n p - i))) (pr_addr p) (pr_n p) i (mkpst (y_pipe y) (pr_mem p) false []) Hok ltac:(lia))
    as (q' & Hq' & Hc & [Ero Ewo] & Hw). rewrite Hw in Hseg. clear Hw. cbn [s_pipe s_mem] in *.
  set (bs := fetch _ _ _ _) in *. set (q := y_pipe y) in *. unfold write_end in Hseg. cbn [s_mem s_killed s_wk app] in Hseg.
  pose proof (po_size _ Hq') as Hsz. rewrite <-length_contents, Hc, length_app in Hsz.
  assert (Z.of_nat (length (contents q)) = PIPESIZE -> Z.of_nat (length (contents q')) = PIPESIZE) as Hfull by (rewrite Hc, length_app; lia).
  assert (s_pipe s' = q' /\ p_ok q' (wakep (s_wk s') (mkpp PWrite (pr_addr p) (pr_n p) (s_mem s') false (after r))) /\
    (ChRead ∈ s_wk s' \/ p_readopen q = false /\ s_wk s' = [])) as (-> & Hp' & Hwk).
  { case_decide as Hd; [destruct (negb (p_readopen q) || false) eqn:Er|]; injection Hseg as <- <-; (split; [done|]); (split; [|cbn; set_solver || idtac]); try done.
    - right. split; [|done]. by destruct (p_readopen q).
    - cbn. rewrite Ero. split; [done|]. split; [by destruct (p_readopen q)|]. rewrite Hc, length_app. unfold proom, PIPESIZE in *. lia. }
  split; cbn [y_pipe y_sent y_recvd y_procs]; [done| |].
  - by rewrite Hfifo, Hc, drop_app_length, app_assoc.
  - unfold ps. rewrite Hrole, Hp. destruct Hwk as [Hwk|[Hro Ewk]].
    + apply (p_ok_wakes q); [done|done|by right|by left|done].
    + unfold wakes. rewrite list_fmap_insert. apply Forall_insert; [|done]. apply Forall_fmap.
      eapply Forall_impl; [exact Hps|]. intros p0 Hp0. unfold compose. rewrite Ewk. cbn [wakep fold_left]. unfold p_ok in *.
      destruct (pr_run p0), (is_write (pr_role p0)); try done; [congruence|rewrite Ero; tauto|destruct Hp0; congruence].
Qed.

(** The segment of a reader. *)
Lemma read_step y k p i r s' :
  psys_ok y -> y_procs y !! k = Some p -> pr_run p = PReady i -> is_write (pr_role p) = false ->
  segment p i (mkpst (y_pipe y) (pr_mem p) (pr_killed p) []) = Ok r s' ->
  let ps := wakes (s_wk s') (<[k := mkpp (pr_role p) (pr_addr p) (pr_n p) (s_mem s') (pr_killed p) (after r)]> (y_procs y)) in
  let old := contents (y_pipe y) in
  psys_ok (mksys (s_pipe s') ps (y_sent y) (y_recvd y ++ take (length old - length (contents (s_pipe s'))) old)).
Proof.
  intros [Hok Hfifo Hps] Hk Hrun Hrole Hseg ps old. pose proof (proj1 (Forall_lookup _ _) Hps k p Hk) as Hp. unfold p_ok in Hp.
  rewrite Hrun, Hrole in Hp. unfold segment in Hseg. destruct (pr_role p) as [|nb] eqn:Er; [done|]. set (q := y_pipe y) in *.
  assert (exists q' j, s_pipe s' = q' /\ pipe_ok q' /\ contents q' = drop j old /\ same_ends q q' /\
    (ChWrite ∈ s_wk s' \/ q' = q) /\ (p_writeopen q = true -> old = [] -> q' = q) /\
    p_ok q' (wakep (s_wk s') (mkpp (PRead nb) (pr_addr p) (pr_n p) (s_mem s') (pr_killed p) (after r))))
    as (q' & j & -> & Hq' & Hc & [Ero Ewo] & Hwk & Hem & Hp').
  { unfold piperead in Hseg. erewrite bind_ok in Hseg by reflexivity. cbn [s_pipe] in Hseg.
    destruct (nb && (p_nread q =? p_nwrite q) && p_writeopen q).
    { injection Hseg as <- <-. exists q, 0%nat. rewrite drop_0. do 4 (split; [done|]). split; [by right|]. split; done. }
    destruct ((p_nread q =? p_nwrite q) && p_writeopen q) eqn:Ee.
    { apply andb_true_iff in Ee as [Ee%pipe_empty_test Ewo]; [|done]. erewrite bind_ok in Hseg by reflexivity. cbn [s_killed] in Hseg.
      destruct (pr_killed p); injection Hseg as <- <-; exists q, 0%nat; rewrite drop_0; do 4 (split; [done|]); (split; [by right|]); (split; [done|]); done. }
    destruct (piperead_seg (Datatypes.S (Z.to_nat (pr_n p))) (pr_addr p) (pr_n p) 0 (mkpst q (pr_mem p) (pr_killed p) []) Hok ltac:(lia))
      as (q' & c' & Hq' & Hc & Hse & _ & _ & Hl). cbn [s_pipe s_mem s_killed s_wk] in *. erewrite bind_ok in Hseg by exact Hl.
    injection Hseg as <- <-. eexists q', _. split; [done|]. split; [done|]. split; [exact Hc|]. split; [done|].
    split; [left; set_solver|]. split; [|done]. intros Hwo Ho. exfalso. apply andb_false_iff in Ee as [Ee|Ee]; [|congruence].
    apply pipe_empty_test in Ho; [congruence|done]. }
  split; cbn [y_pipe y_sent y_recvd y_procs]; [done| |].
  - rewrite Hfifo, <-app_assoc. f_equal. fold q old. rewrite Hc, length_drop. rewrite <-(take_drop j old) at 1. f_equal.
    destruct (decide (j <= length old)%nat); [f_equal; lia|]. rewrite !take_ge by lia. done.
  - apply (p_ok_wakes q); [done|done| | |done].
    + destruct Hwk as [?| ->]; [by left|by right].
    + right. split; [done|]. intros Hwo Ho. rewrite (Hem Hwo Ho). exact Ho.
Qed.

Lemma pstep_ok y y' : psys_ok y -> pstep y y' -> psys_ok y'.
Proof.
  intros Hy Hst. pose proof Hy as [Hok Hfifo Hps]. destruct Hst as [k p role addr n Hk Hi Hrole|k p i r s' Hk Hrun Hseg old new|w c b s' Hact Hcl|k p Hk Hrd].
  - split; cbn; [done|done|]. apply Forall_insert; [done|]. unfold p_ok. cbn. destruct (is_write role); [by destruct Hrole|done].
  - destruct (is_write (pr_role p)) eqn:Ew.
    + apply (write_step y k p i r); try done. by destruct (pr_role p).
    + by apply (read_step y k p i r).
  - unfold pipeclose in Hcl. set (q := y_pipe y) in *.
    assert (exists ro wo, s_pipe s' = mkpipe (p_data q) (p_nread q) (p_nwrite q) ro wo /\ s_wk s' = [if w then ChRead else ChWrite] /\
      (if w then ro = p_readopen q else wo = p_writeopen q)) as (ro & wo & Eq & Ewk & Eend).
    { destruct w; injection Hcl as <- <-; cbn; eauto 10. }
    rewrite Eq, Ewk. assert (contents (mkpipe (p_data q) (p_nread q) (p_nwrite q) ro wo) = contents q) as Ec by done.
    split; cbn [y_pipe y_sent y_recvd y_procs]; [by destruct Hok|by rewrite Ec|].
    apply Forall_fmap, Forall_lookup. intros k p Hk. unfold compose. pose proof (proj1 (Forall_lookup _ _) Hps k p Hk) as Hp.
    specialize (Hact k p Hk). unfold p_ok in Hp |- *.
    destruct (wakep_spec [if w then ChRead else ChWrite] p) as (Erole & Ekl & Hrun). rewrite Erole, Ekl.
    destruct Hrun as [[-> Hch]|(i & E0 & ->)].
    + destruct (pr_run p) as [|i|i] eqn:E; [done| |].
      * rewrite Hact in * by done. destruct w; cbn [negb] in *; [by subst ro|done].
      * exfalso. apply (Hch i eq_refl). specialize (Hact ltac:(done)). destruct (pr_role p), w; cbn in *; try done; set_solver.
    + rewrite E0 in *. rewrite Hact in * by done. destruct w; cbn [negb] in *; [subst ro; by destruct Hp|by destruct Hp].
  - split; cbn; [done|done|]. apply Forall_insert; [done|]. pose proof (proj1 (Forall_lookup _ _) Hps k p Hk) as Hp.
    unfold p_ok in *. cbn. rewrite Hrd in *. destruct (pr_run p); [done|done|by destruct Hp].
Qed.

(** A new pipe and processes that do not use it yet. *)
Definition psys_init (junk : bytes) (ps : list pproc) : psys := mksys (pipe_new junk) ps [] [].

Lemma psys_init_ok junk ps :
  length junk = Z.to_nat PIPESIZE -> Forall (fun p => pr_run p = PIdle) ps -> psys_ok (psys_init junk ps).
Proof.
  intros Hl Hps. split; cbn; [split; cbn; [done|lia|lia|]; change (u32 (0 - 0)) with 0; unfold PIPESIZE; lia|done|].
  eapply Forall_impl; [exact Hps|]. intros p Hp. unfold p_ok. by rewrite Hp.
Qed.

Lemma psys_reach_ok junk ps y :
  length junk = Z.to_nat PIPESIZE -> Forall (fun p => pr_run p = PIdle) ps -> star pstep (psys_init junk ps) y -> psys_ok y.
Proof.
  intros Hl Hps Hst. eapply star_invariant; [|by apply psys_init_ok|exact Hst]. intros a b Ha Hab. by apply (pstep_ok a).
Qed.


(** C24: no wakeup is lost.  In every reachable state a process that sleeps in
    [pipewrite] sleeps because the pipe is full and can still be read, and one that
    sleeps in [piperead] because the pipe is empty and can still be written; as
    soon as this changes the process is runnable.  So it never happens that a reader
    and a writer both sleep.  (A writer that was killed does not keep this promise,
    see below.) *)
Theorem pipe_no_lost_wakeup junk ps y :
  length junk = Z.to_nat PIPESIZE -> Forall (fun p => pr_run p = PIdle) ps ->
  star pstep (psys_init junk ps) y ->
  (forall p i, p ∈ y_procs y -> pr_run p = PAsleep i ->
     if is_write (pr_role p)
     then length (contents (y_pipe y)) = Z.to_nat PIPESIZE /\ p_readopen (y_pipe y) = true
     else contents (y_pipe y) = [] /\ p_writeopen (y_pipe y) = true) /\
  ~ (exists p p' i i', p ∈ y_procs y /\ p' ∈ y_procs y /\ pr_run p = PAsleep i /\ pr_run p' = PAsleep i' /\
       is_write (pr_role p) = true /\ is_write (pr_role p') = false).
Proof.
  intros Hl Hps Hst. destruct (psys_reach_ok junk ps y Hl Hps Hst) as [_ _ Hall].
  assert (forall p i, p ∈ y_procs y -> pr_run p = PAsleep i ->
     if is_write (pr_role p)
     then length (contents (y_pipe y)) = Z.to_nat PIPESIZE /\ p_readopen (y_pipe y) = true
     else contents (y_pipe y) = [] /\ p_writeopen (y_pipe y) = true) as H.
  { intros p i Hp Hr. rewrite Forall_forall in Hall. specialize (Hall p Hp). unfold p_ok in Hall. rewrite Hr in Hall.
    destruct (is_write (pr_role p)); destruct Hall as (H1 & H2 & H3); split; try done. unfold PIPESIZE in *. lia. }
  split; [exact H|]. intros (p & p' & i & i' & Hp & Hp' & Hr & Hr' & Hw & Hw').
  pose proof (H p i Hp Hr) as H1. rewrite Hw in H1. pose proof (H p' i' Hp' Hr') as H2. rewrite Hw' in H2.
  destruct H1 as [H1 _], H2 as [H2 _]. by rewrite H2 in H1.
Qed.

(** a killed writer does not wake the readers.  When a killed process calls
    [pipewrite] with more than 512 bytes on an empty pipe, it fills the pipe and
    returns -1 from the loop that waits for room, without the [wakeup] that every
    other path has: a reader that was asleep stays asleep although there are 512
    bytes to read. *)
Theorem pipe_killed_writer_no_wakeup addr n s :
  pipe_ok (s_pipe s) -> contents (s_pipe s) = [] -> s_killed s = true -> PIPESIZE < n ->
  length (fetch (s_mem s) addr 0 (Z.to_nat PIPESIZE)) = Z.to_nat PIPESIZE ->
  exists q', pipewrite addr n 0 s = Ok (PDone (-1)) (mkpst q' (s_mem s) true (s_wk s)) /\
    length (contents q') = Z.to_nat PIPESIZE.
Proof.
  intros Hok Hc Hk Hn Hf. unfold pipewrite.
  destruct (pipewrite_seg (Datatypes.S (Z.to_nat (n - 0))) addr n 0 s Hok ltac:(lia)) as (q' & _ & Hq & _ & Hrun).
  assert (proom (s_pipe s) = Z.to_nat PIPESIZE) as Er by (unfold proom; rewrite Hc; done).
  rewrite Er in *. replace (Nat.min (Z.to_nat (n - 0)) (Z.to_nat PIPESIZE)) with (Z.to_nat PIPESIZE) in * by lia.
  exists q'. rewrite Hrun, Hq, Hc. split; [|done]. unfold write_end. rewrite Er, Hk, decide_True by (split; [done|unfold PIPESIZE in *; lia]). by rewrite orb_true_r.
Qed.
End segments.

(** ** Examples *)

(** A memory that is accessed byte by byte. *)
Definition bmem : Type := Z -> option Z.
#[export] Instance bmem_copy : UserCopy bmem := {
  uc_copyout a bs := fun m =>
    match bs, m a with [b], Some _ => Ok 0 (fupd m a (Some b)) | [b], None => Ok (-1) m | _, _ => Undef end;
  uc_copyin a n := fun m =>
    if n =? 1 then match m a with Some b => Ok ([b], 0) m | None => Ok ([], -1) m end else Undef }.

#[export, refine] Instance bmem_bytes : UserBytes bmem := {
  ub_rd m a := m a;
  ub_wr m a := match m a with Some _ => true | None => false end }.
Proof.
  - intros a c. cbn. done.
  - intros a b c. destruct (c a) as [x|] eqn:E; cbn; rewrite E; [|done].
    exists (fupd c a (Some b)). split; [done|]. split; [done|]. intros y. unfold fupd.
    destruct (Z.eqb_spec y a) as [->|]; [by rewrite E|done].
Defined.

Definition wit_bmem : bmem := fun a => if (0 <=? a) && (a <? 1000) then Some (a mod 256) else None.
Definition wit_user (r : prun) (role : prole) (n : Z) : pproc := mkpp role 0 n wit_bmem false r.
Definition wit_junk : bytes := replicate 512 0.

(** A reader goes to sleep, a writer puts three bytes in and wakes it. *)
Definition wit_idle2 : list (pproc (C := bmem)) := [wit_user PIdle (PRead false) 2; wit_user PIdle PWrite 3].

Lemma wit_reader_asleep :
  star pstep (psys_init wit_junk wit_idle2) (mksys (pipe_new wit_junk) [wit_user (PAsleep 0) (PRead false) 2; wit_user PIdle PWrite 3] [] []).
Proof.
  eapply star_step; [apply (ps_call _ 0 (wit_user PIdle (PRead false) 2) (PRead false) 0 2); done|].
  eapply star_step; [apply (ps_run _ 0 (wit_user (PReady 0) (PRead false) 2) 0 (PSleep 0) (mkpst (pipe_new wit_junk) wit_bmem false [])); done|].
  apply star_refl.
Qed.

Lemma pipe_no_lost_wakeup_witness :
  exists y, star pstep (psys_init wit_junk wit_idle2) y /\ (exists p, p ∈ y_procs y /\ pr_run p = PAsleep 0) /\
    forall p i, p ∈ y_procs y -> pr_run p = PAsleep i -> is_write (pr_role p) = false -> contents (y_pipe y) = [].
Proof.
  eexists. split; [apply wit_reader_asleep|]. split; [eexists; split; [apply elem_of_cons; by left|done]|].
  intros p i Hp Hr Hw. destruct (pipe_no_lost_wakeup wit_junk wit_idle2 _ eq_refl ltac:(by repeat constructor) wit_reader_asleep) as [H _].
  specialize (H p i Hp Hr). rewrite Hw in H. apply H.
Defined.


Lemma pipe_killed_writer_no_wakeup_witness :
  exists q', pipewrite 0 600 0 (mkpst (pipe_new wit_junk) wit_bmem true []) = Ok (PDone (-1)) (mkpst q' wit_bmem true []) /\
    length (contents q') = 512%nat.
Proof.
  apply (pipe_killed_writer_no_wakeup 0 600 (mkpst (pipe_new wit_junk) wit_bmem true [])); try done.
Defined.
