(* ===== verification/Proc.v ===== *)
(** Processes: kernel/proc/proc.c.

    The process table with the life of a process: [allocproc], [fork], [exit],
    [wait], [kill], [sleep], [wakeup], [yield] and the choice of the scheduler.  What
    lies below (pages, page tables, trap frames, open files, the current directory) is
    the interface [ProcEnv].  An operation is the code between taking and
    releasing [p->lock]; where the code releases all locks in between ([exit]) or
    sleeps ([wait]), there is one definition for each part. *)

From S2P Require Import Prelude.

Inductive procstate := UNUSED | SLEEPING | RUNNABLE | RUNNING | ZOMBIE.
#[export] Instance procstate_eq : EqDecision procstate.
Proof. solve_decision. Defined.

(** A sleep channel is the address of a process or some other address. *)
Inductive chan := ChProc (i : nat) | ChAddr (a : Z).
#[export] Instance chan_eq : EqDecision chan.
Proof. solve_decision. Defined.

(** [struct proc]; pointers to processes are indices of the table, files and inodes
    are handles, [None] is the null pointer.  [ctx] are [ra] and [sp] of the context. *)
Record proc := mkproc {
  state : procstate; parent : option nat; pchan : option chan; killed : bool; xstate : Z; pid : Z;
  kstack : Z; sz : Z; pagetable : Z; tf : Z; ctx : Z * Z; ofile : list (option nat); cwd : option nat; name : bytes }.

Definition set_state x p := mkproc x (parent p) (pchan p) (killed p) (xstate p) (pid p) (kstack p) (sz p) (pagetable p) (tf p) (ctx p) (ofile p) (cwd p) (name p).
Definition set_parent x p := mkproc (state p) x (pchan p) (killed p) (xstate p) (pid p) (kstack p) (sz p) (pagetable p) (tf p) (ctx p) (ofile p) (cwd p) (name p).
Definition set_chan x p := mkproc (state p) (parent p) x (killed p) (xstate p) (pid p) (kstack p) (sz p) (pagetable p) (tf p) (ctx p) (ofile p) (cwd p) (name p).
Definition set_killed x p := mkproc (state p) (parent p) (pchan p) x (xstate p) (pid p) (kstack p) (sz p) (pagetable p) (tf p) (ctx p) (ofile p) (cwd p) (name p).
Definition set_xstate x p := mkproc (state p) (parent p) (pchan p) (killed p) x (pid p) (kstack p) (sz p) (pagetable p) (tf p) (ctx p) (ofile p) (cwd p) (name p).
Definition set_pid x p := mkproc (state p) (parent p) (pchan p) (killed p) (xstate p) x (kstack p) (sz p) (pagetable p) (tf p) (ctx p) (ofile p) (cwd p) (name p).
Definition set_sz x p := mkproc (state p) (parent p) (pchan p) (killed p) (xstate p) (pid p) (kstack p) x (pagetable p) (tf p) (ctx p) (ofile p) (cwd p) (name p).
Definition set_pagetable x p := mkproc (state p) (parent p) (pchan p) (killed p) (xstate p) (pid p) (kstack p) (sz p) x (tf p) (ctx p) (ofile p) (cwd p) (name p).
Definition set_tf x p := mkproc (state p) (parent p) (pchan p) (killed p) (xstate p) (pid p) (kstack p) (sz p) (pagetable p) x (ctx p) (ofile p) (cwd p) (name p).
Definition set_ctx x p := mkproc (state p) (parent p) (pchan p) (killed p) (xstate p) (pid p) (kstack p) (sz p) (pagetable p) (tf p) x (ofile p) (cwd p) (name p).
Definition set_ofile x p := mkproc (state p) (parent p) (pchan p) (killed p) (xstate p) (pid p) (kstack p) (sz p) (pagetable p) (tf p) (ctx p) x (cwd p) (name p).
Definition set_cwd x p := mkproc (state p) (parent p) (pchan p) (killed p) (xstate p) (pid p) (kstack p) (sz p) (pagetable p) (tf p) (ctx p) (ofile p) x (name p).
Definition set_name x p := mkproc (state p) (parent p) (pchan p) (killed p) (xstate p) (pid p) (kstack p) (sz p) (pagetable p) (tf p) (ctx p) (ofile p) (cwd p) x.

Definition PGSIZE : Z := 4096.
Definition TRAMPOLINE : Z := 2 ^ 38 - PGSIZE.
Definition TRAPFRAME : Z := TRAMPOLINE - PGSIZE.
Definition PTE_RW : Z := 6.
Definition PTE_RX : Z := 10.

(** What proc.c calls: the page allocator (0: no memory), vm.c, the words of a trap
    frame, file.c, and the current directory ([pe_iput] is [iput] between [begin_op]
    and [end_op], [pe_root] is [namei] of the root directory). *)
Class ProcEnv (E : Type) := {
  pe_ufkalloc : M E Z;
  pe_ufkfree : Z -> M E unit;
  pe_uvmcreate : M E Z;
  pe_mappages : Z -> Z -> Z -> Z -> Z -> M E Z;
  pe_uvmunmap : Z -> Z -> Z -> bool -> M E unit;
  pe_uvmfree : Z -> Z -> M E unit;
  pe_uvmcopy : Z -> Z -> Z -> M E Z;
  pe_uvminit : Z -> bytes -> M E unit;
  pe_uvmalloc : Z -> Z -> Z -> M E Z;
  pe_uvmdealloc : Z -> Z -> Z -> M E Z;
  pe_copyout : Z -> Z -> bytes -> M E Z;
  pe_tf_copy : Z -> Z -> M E unit;
  pe_tf_set : Z -> Z -> Z -> M E unit;
  pe_filedup : nat -> M E nat;
  pe_fileclose : nat -> M E unit;
  pe_idup : nat -> M E nat;
  pe_iput : nat -> M E unit;
  pe_root : M E nat }.

(** Offsets in the trap frame. *)
Definition TF_EPC : Z := 24.
Definition TF_SP : Z := 48.
Definition TF_A0 : Z := 112.

Section code.
Context {E : Type} `{!ProcEnv E} (trampoline forkret : Z).

Record pst := mkpst { procs : list proc; nextpid : Z; initproc : option nat; env : E }.

Definition envM {A} (m : M E A) : M pst A := fun s =>
  match m (env s) with
  | Ok a e => Ok a (mkpst (procs s) (nextpid s) (initproc s) e)
  | Panic msg => Panic msg
  | Sleep e => Sleep (mkpst (procs s) (nextpid s) (initproc s) e)
  | OutOfFuel => OutOfFuel
  | Undef => Undef
  end.
Definition get_proc (i : nat) : M pst proc := fun s =>
  match procs s !! i with Some p => Ok p s | None => Undef end.
Definition mod_proc (i : nat) (f : proc -> proc) : M pst unit := fun s =>
  match procs s !! i with
  | Some p => Ok tt (mkpst (<[i := f p]> (procs s)) (nextpid s) (initproc s) (env s))
  | None => Undef
  end.
Definition map_procs (f : proc -> proc) : M pst unit :=
  modify (fun s => mkpst (f <$> procs s) (nextpid s) (initproc s) (env s)).

(** [nextpid] is an [int]. *)
Definition allocpid : M pst Z :=
  pid ← gets nextpid;
  modify (fun s => mkpst (procs s) (s32 (nextpid s + 1)) (initproc s) (env s));;
  ret pid.

(** The results of [mappages] are not looked at. *)
Definition proc_pagetable (ptf : Z) : M pst Z :=
  pt ← envM pe_uvmcreate;
  _ ← envM (pe_mappages pt TRAMPOLINE PGSIZE trampoline PTE_RX);
  _ ← envM (pe_mappages pt TRAPFRAME PGSIZE ptf PTE_RW);
  ret pt.

Definition proc_freepagetable (pt n : Z) : M pst unit :=
  envM (pe_uvmunmap pt TRAMPOLINE PGSIZE false);;
  envM (pe_uvmunmap pt TRAPFRAME PGSIZE false);;
  when (0 <? n) (envM (pe_uvmfree pt n)).

Definition is_state (x : procstate) (p : proc) : bool := bool_decide (state p = x).

(** The first index at which [f] holds. *)
Fixpoint find_proc (f : proc -> bool) (l : list proc) (k : nat) : option nat :=
  match l with
  | [] => None
  | p :: l' => if f p then Some k else find_proc f l' (Datatypes.S k)
  end.

Definition allocproc : M pst (option nat) :=
  ps ← gets procs;
  match find_proc (is_state UNUSED) ps 0 with
  | None => ret None
  | Some i =>
      n ← allocpid;
      mod_proc i (set_pid n);;
      t ← envM pe_ufkalloc;
      mod_proc i (set_tf t);;
      if t =? 0 then ret None
      else
        pt ← proc_pagetable t;
        mod_proc i (set_pagetable pt);;
        p ← get_proc i;
        mod_proc i (set_ctx (forkret, kstack p + PGSIZE));;
        ret (Some i)
  end.

(** The fields that [freeproc] clears. *)
Definition unused_proc (p : proc) : proc :=
  mkproc UNUSED None None false 0 0 (kstack p) 0 0 (tf p) (ctx p) (ofile p) (cwd p) [].

Definition freeproc (i : nat) : M pst unit :=
  p ← get_proc i;
  when (negb (tf p =? 0)) (envM (pe_ufkfree (tf p)));;
  mod_proc i (set_tf 0);;
  when (negb (pagetable p =? 0)) (proc_freepagetable (pagetable p) (sz p));;
  mod_proc i unused_proc.

(** [userinit], with the code of the first program. *)
Definition userinit (initcode : bytes) : M pst unit :=
  r ← allocproc;
  match r with
  | None => undef
  | Some i =>
      modify (fun s => mkpst (procs s) (nextpid s) (Some i) (env s));;
      p ← get_proc i;
      envM (pe_uvminit (pagetable p) initcode);;
      mod_proc i (set_sz PGSIZE);;
      envM (pe_tf_set (tf p) TF_EPC 0);;
      envM (pe_tf_set (tf p) TF_SP PGSIZE);;
      mod_proc i (set_name [105; 110; 105; 116; 99; 111; 100; 101]);;
      c ← envM pe_root;
      mod_proc i (fun p => set_state RUNNABLE (set_cwd (Some c) p))
  end.

(** [growproc]; the variable [sz] of the code has 32 bits. *)
Definition growproc (me : nat) (n : Z) : M pst Z :=
  p ← get_proc me;
  let s := u32 (sz p) in
  if 0 <? n then
    r ← envM (pe_uvmalloc (pagetable p) s (u32 (s + n)));
    if u32 r =? 0 then ret (-1) else mod_proc me (set_sz (u32 r));; ret 0
  else if n <? 0 then
    r ← envM (pe_uvmdealloc (pagetable p) s (u32 (s + n)));
    mod_proc me (set_sz (u32 r));; ret 0
  else mod_proc me (set_sz s);; ret 0.

Fixpoint dup_files (l : list (option nat)) (k np : nat) : M pst unit :=
  match l with
  | [] => ret tt
  | Some f :: l' =>
      g ← envM (pe_filedup f);
      mod_proc np (fun q => set_ofile (<[k := Some g]> (ofile q)) q);;
      dup_files l' (Datatypes.S k) np
  | None :: l' => dup_files l' (Datatypes.S k) np
  end.

Definition fork (me : nat) : M pst Z :=
  r ← allocproc;
  match r with
  | None => ret (-1)
  | Some np =>
      p ← get_proc me;
      q ← get_proc np;
      c ← envM (pe_uvmcopy (pagetable p) (pagetable q) (sz p));
      if c <? 0 then freeproc np;; ret (-1)
      else
        mod_proc np (set_sz (sz p));;
        mod_proc np (set_parent (Some me));;
        envM (pe_tf_copy (tf q) (tf p));;
        envM (pe_tf_set (tf q) TF_A0 0);;
        dup_files (ofile p) 0 np;;
        match cwd p with
        | None => undef
        | Some d =>
            d' ← envM (pe_idup d);
            mod_proc np (set_cwd (Some d'));;
            mod_proc np (set_name (name p));;
            q' ← get_proc np;
            mod_proc np (set_state RUNNABLE);;
            ret (pid q')
        end
  end.

(** Children of [me] become children of init. *)
Definition reparent (me : nat) : M pst unit :=
  i0 ← gets initproc;
  map_procs (fun q => if decide (parent q = Some me) then set_parent i0 q else q).

(** [wakeup1]: wake [p] if it sleeps on its own address. *)
Definition wakeup1 (i : nat) : M pst unit :=
  mod_proc i (fun p => if decide (pchan p = Some (ChProc i)) then if is_state SLEEPING p then set_state RUNNABLE p else p else p).

Fixpoint close_files (n : nat) (k me : nat) : M pst unit :=
  match n with
  | O => ret tt
  | Datatypes.S n' =>
      p ← get_proc me;
      (match ofile p !! k with
       | Some (Some f) => envM (pe_fileclose f);; mod_proc me (fun p => set_ofile (<[k := None]> (ofile p)) p)
       | _ => ret tt
       end);;
      close_files n' (Datatypes.S k) me
  end.

(** [exit] has three parts between which it holds no lock: closing everything and
    waking init; reading [p->parent]; and, with the locks of that parent and of
    [p], the rest up to [sched]. *)
Definition exit_begin (me : nat) : M pst unit :=
  i0 ← gets initproc;
  if decide (i0 = Some me) then panic "init exiting"
  else
    p ← get_proc me;
    close_files (length (ofile p)) 0 me;;
    q ← get_proc me;
    match cwd q, i0 with
    | Some d, Some i =>
        envM (pe_iput d);;
        mod_proc me (set_cwd None);;
        wakeup1 i
    | _, _ => undef
    end.
Definition exit_parent (me : nat) : M pst (option nat) := p ← get_proc me; ret (parent p).
Definition exit_end (me : nat) (original_parent : option nat) (status : Z) : M pst unit :=
  match original_parent with
  | None => undef
  | Some pp =>
      reparent me;;
      wakeup1 pp;;
      mod_proc me (fun p => set_state ZOMBIE (set_xstate status p))
  end.
Definition exit (me : nat) (status : Z) : M pst unit :=
  exit_begin me;; o ← exit_parent me; exit_end me o status.

(** A round of the loop of [wait]: it returns, or the process sleeps and the
    loop starts again when it is woken. *)
Inductive wait_result := WDone (r : Z) | WSleep.

Definition child_of (me : nat) (p : proc) : bool := bool_decide (parent p = Some me).

(** [sleep] up to [sched]; what follows is done when the process runs again. *)
Definition sleep (me : nat) (c : chan) : M pst unit := mod_proc me (fun p => set_state SLEEPING (set_chan (Some c) p)).

Definition wait (me : nat) (addr : Z) : M pst wait_result :=
  ps ← gets procs;
  p ← get_proc me;
  match find_proc (fun q => child_of me q && is_state ZOMBIE q) ps 0 with
  | Some np =>
      q ← get_proc np;
      r ← (if negb (addr =? 0) then envM (pe_copyout (pagetable p) addr (le_enc 4 (u32 (xstate q)))) else ret 0);
      if r <? 0 then ret (WDone (-1))
      else freeproc np;; ret (WDone (pid q))
  | None =>
      if negb (existsb (child_of me) ps) || killed p then ret (WDone (-1))
      else sleep me (ChProc me);; ret WSleep
  end.

(** The scheduler takes a runnable process; a process that was asleep first clears
    its channel, the end of [sleep]. *)
Definition schedule (i : nat) : M pst unit :=
  p ← get_proc i;
  when (is_state RUNNABLE p) (mod_proc i (fun p => set_chan None (set_state RUNNING p))).

Definition yield (me : nat) : M pst unit := mod_proc me (set_state RUNNABLE).

Definition wakeup (c : chan) : M pst unit :=
  map_procs (fun p => if is_state SLEEPING p then if decide (pchan p = Some c) then set_state RUNNABLE p else p else p).

Definition kill (n : Z) : M pst Z :=
  ps ← gets procs;
  match find_proc (fun p => pid p =? n) ps 0 with
  | None => ret (-1)
  | Some i =>
      mod_proc i (fun p => let p := set_killed true p in if is_state SLEEPING p then set_state RUNNABLE p else p);;
      ret 0
  end.
End code.
Arguments pst : clear implicits.

(** ** The life of the processes

    What the process table says about who exists, who is whose child, who sleeps
    where.  Most of the code does not change it. *)

Record life := mkl { l_state : procstate; l_parent : option nat; l_chan : option chan; l_pid : Z }.
Definition life_of (p : proc) : life := mkl (state p) (parent p) (pchan p) (pid p).

Section lives.
Context {E : Type} `{!ProcEnv E} (trampoline forkret : Z).
Implicit Types (s : pst E).

Definition lives s : list life := life_of <$> procs s.

(** What holds when [m] returns. *)
Definition post {A} (m : M (pst E) A) s (Q : A -> pst E -> Prop) : Prop := forall a s', m s = Ok a s' -> Q a s'.

Lemma post_ret {A} (a : A) s (Q : A -> pst E -> Prop) : Q a s -> post (ret a) s Q.
Proof. by intros HQ a' s' [= <- <-]. Qed.
Lemma post_bind {A B} (m : M (pst E) A) (f : A -> M (pst E) B) s Q :
  post m s (fun a s' => post (f a) s' Q) -> post (bind m f) s Q.
Proof. intros Hm b s'' (a & s' & H1 & H2)%bind_inv. by apply (Hm a s' H1). Qed.
Lemma post_mono {A} (m : M (pst E) A) s (Q Q' : A -> pst E -> Prop) :
  post m s Q -> (forall a s', Q a s' -> Q' a s') -> post m s Q'.
Proof. intros Hm HQ a s' H. apply HQ. by apply Hm. Qed.

(** [m] does not change the life of any process. *)
Definition same_life s s' : Prop := lives s' = lives s /\ nextpid s' = nextpid s /\ initproc s' = initproc s.
Definition calmly {A} (m : M (pst E) A) : Prop := forall s a s', m s = Ok a s' -> same_life s s'.

Lemma calm_ret {A} (a : A) : calmly (ret a).
Proof. by intros s a' s' [= <- <-]. Qed.
Lemma calm_bind {A B} (m : M (pst E) A) (f : A -> M (pst E) B) : calmly m -> (forall a, calmly (f a)) -> calmly (bind m f).
Proof.
  intros Hm Hf s b s'' (a & s' & H1 & H2)%bind_inv. destruct (Hm _ _ _ H1) as (? & ? & ?), (Hf _ _ _ _ H2) as (? & ? & ?).
  repeat split; congruence.
Qed.
Lemma calm_env {A} (m : M E A) : calmly (envM m).
Proof. intros s a s'. unfold envM. destruct (m (env s)); [|done..]. by intros [= <- <-]. Qed.
Lemma calm_get i : calmly (get_proc (E := E) i).
Proof. intros s p s'. unfold get_proc. destruct (procs s !! i); [|done]. by intros [= <- <-]. Qed.
Lemma calm_gets {A} (f : pst E -> A) : calmly (gets f).
Proof. by intros s a s' [= <- <-]. Qed.
Lemma calm_undef {A} : calmly (undef : M (pst E) A).
Proof. by intros s a s'. Qed.
Lemma calm_mod i f : (forall p, life_of (f p) = life_of p) -> calmly (mod_proc (E := E) i f).
Proof.
  intros Hf s a s'. unfold mod_proc. destruct (procs s !! i) as [p|] eqn:Ep; [|done]. intros [= <- <-]. split; [|done].
  unfold lives. cbn. rewrite list_fmap_insert, Hf. apply list_insert_id. by rewrite list_lookup_fmap, Ep.
Qed.
Lemma calm_if {A} (b : bool) (m m' : M (pst E) A) : calmly m -> calmly m' -> calmly (if b then m else m').
Proof. by destruct b. Qed.

(** Continue after calm code. *)
Lemma post_calm {A B} (m : M (pst E) A) (f : A -> M (pst E) B) s Q :
  calmly m -> (forall a s', same_life s s' -> post (f a) s' Q) -> post (bind m f) s Q.
Proof. intros Hm Hf. apply post_bind. intros a s' H. apply Hf. by apply (Hm s a). Qed.

(** A change of one process. *)
Lemma post_mod i f (g : life -> life) s Q :
  (forall p, life_of (f p) = g (life_of p)) ->
  (forall l s', lives s !! i = Some l -> lives s' = <[i := g l]> (lives s) -> nextpid s' = nextpid s -> initproc s' = initproc s -> Q tt s') ->
  post (mod_proc i f) s Q.
Proof.
  intros Hf HQ a s'. unfold mod_proc. destruct (procs s !! i) as [p|] eqn:Ep; [|done]. intros [= <- <-].
  apply (HQ (life_of p)); [unfold lives; by rewrite list_lookup_fmap, Ep| |done|done].
  unfold lives. cbn. by rewrite list_fmap_insert, Hf.
Qed.

Lemma post_map f (g : life -> life) s Q :
  (forall p, life_of (f p) = g (life_of p)) ->
  (forall s', lives s' = g <$> lives s -> nextpid s' = nextpid s -> initproc s' = initproc s -> Q tt s') ->
  post (map_procs f) s Q.
Proof.
  intros Hf HQ a s' [= <- <-]. apply HQ; [|done|done]. unfold lives. cbn. rewrite <-!list_fmap_compose.
  apply list_fmap_ext. intros k p _. apply Hf.
Qed.

Ltac calm :=
  repeat first
    [ apply calm_ret | apply calm_env | apply calm_get | apply calm_gets | apply calm_undef
    | apply calm_mod; intros []; reflexivity | apply calm_if | apply calm_bind; [|intros ?]
    | unfold when, proc_pagetable, proc_freepagetable; cbv beta ].

Lemma calm_proc_pagetable t : calmly (proc_pagetable (E := E) trampoline t).
Proof. unfold proc_pagetable. calm. Qed.
Lemma calm_proc_freepagetable pt n : calmly (proc_freepagetable (E := E) pt n).
Proof. unfold proc_freepagetable. calm. Qed.

Lemma calm_dup_files l k np : calmly (dup_files (E := E) l k np).
Proof. revert k. induction l as [|[f|] l IH]; intros k; cbn [dup_files]; calm; apply IH. Qed.

Lemma calm_close_files n k me : calmly (close_files (E := E) n k me).
Proof.
  revert k. induction n as [|n IH]; intros k; cbn [close_files]; [calm|].
  apply calm_bind; [calm|intros p]. apply calm_bind; [|intros _; apply IH]. destruct (ofile p !! k) as [[f|]|]; calm.
Qed.

(** [freeproc]. *)
Lemma post_freeproc i s Q :
  (forall l s', lives s !! i = Some l -> lives s' = <[i := mkl UNUSED None None 0]> (lives s) ->
     nextpid s' = nextpid s -> initproc s' = initproc s -> Q tt s') ->
  post (freeproc i) s Q.
Proof.
  intros HQ. unfold freeproc. apply post_calm; [calm|]. intros p s1 (L1 & N1 & I1).
  apply post_calm; [calm|]. intros _ s2 (L2 & N2 & I2). apply post_calm; [calm|]. intros _ s3 (L3 & N3 & I3).
  apply post_calm; [unfold when; apply calm_if; [apply calm_proc_freepagetable|calm]|]. intros _ s4 (L4 & N4 & I4).
  apply (post_mod _ _ (fun _ => mkl UNUSED None None 0)); [done|]. intros l s5 Hl L5 N5 I5.
  rewrite L4, L3, L2, L1 in *. apply (HQ l); congruence.
Qed.

(** A slot that [allocproc] took: its pid is set, it is still unused. *)
Definition taken (k : nat) s s' : Prop :=
  exists l, lives s !! k = Some l /\ l_state l = UNUSED /\
    lives s' = <[k := mkl UNUSED (l_parent l) (l_chan l) (nextpid s)]> (lives s) /\
    nextpid s' = s32 (nextpid s + 1) /\ initproc s' = initproc s.

Lemma find_proc_spec f l k i :
  find_proc f l k = Some i -> (k <= i)%nat /\ exists p, l !! (i - k)%nat = Some p /\ f p = true /\
    forall j q, (k <= j < i)%nat -> l !! (j - k)%nat = Some q -> f q = false.
Proof.
  revert k. induction l as [|p l IH]; intros k; cbn; [done|]. destruct (f p) eqn:Ef.
  - intros [= <-]. split; [lia|]. exists p. rewrite Nat.sub_diag. repeat split; [done|]. intros j q Hj. lia.
  - intros H. destruct (IH _ H) as (H1 & q & Hq & Hf & Hmin). split; [lia|]. exists q.
    replace (i - k)%nat with (Datatypes.S (i - Datatypes.S k)) by lia. split; [done|]. split; [done|].
    intros j q' Hj Hl. destruct (decide (j = k)) as [->|Hne].
    + rewrite Nat.sub_diag in Hl. cbn in Hl. congruence.
    + apply (Hmin j); [lia|]. replace (j - k)%nat with (Datatypes.S (j - Datatypes.S k)) in Hl by lia. done.
Qed.

Lemma find_proc_None f l k : find_proc f l k = None -> Forall (fun p => f p = false) l.
Proof.
  revert k. induction l as [|p l IH]; intros k; cbn; [done|]. destruct (f p) eqn:Ef; [done|]. intros H. constructor; [done|eauto].
Qed.

Lemma post_allocproc s Q :
  (forall s', same_life s s' -> Q None s') ->
  (forall k r s', taken k s s' -> r = Some k \/ r = None -> Q r s') ->
  post (allocproc trampoline forkret) s Q.
Proof.
  intros H0 H1. unfold allocproc. apply post_bind. intros ps s0 [= <- <-].
  destruct (find_proc (is_state UNUSED) (procs s) 0) as [i|] eqn:Ef; [|by apply post_ret, H0].
  destruct (find_proc_spec _ _ _ _ Ef) as (_ & p & Hp & Hu & _). rewrite Nat.sub_0_r in Hp. apply bool_decide_eq_true in Hu.
  apply post_bind. unfold allocpid. apply post_bind. intros n s0 [= <- <-]. apply post_bind. intros [] s1 [= <-]. apply post_ret.
  set (s1 := mkpst _ _ _ _). apply post_bind, (post_mod _ _ (fun l => mkl (l_state l) (l_parent l) (l_chan l) (nextpid s))); [done|].
  intros l s2 Hl L2 N2 I2. change (lives s1) with (lives s) in *.
  assert (l = life_of p) as -> by (unfold lives in Hl; rewrite list_lookup_fmap, Hp in Hl; by injection Hl as <-).
  assert (forall s', same_life s2 s' -> taken i s s') as Ht.
  { intros s' (L & N & I). exists (life_of p). cbn in *. rewrite Hu in L2. split; [done|]. split; [done|]. split; [congruence|]. split; congruence. }
  apply post_calm; [calm|]. intros t s3 S3. apply post_calm; [calm|]. intros _ s4 S4.
  assert (same_life s2 s4) as S24 by (destruct S3 as (?&?&?), S4 as (?&?&?); repeat split; congruence).
  destruct (t =? 0); [apply post_ret; apply (H1 i); [by apply Ht|by right]|].
  intros a s5 Hrun. assert (a = Some i /\ same_life s4 s5) as [-> S5].
  { apply bind_inv in Hrun as (pt & s6 & P1 & Hrun). apply bind_inv in Hrun as ([] & s7 & P2 & Hrun).
    apply bind_inv in Hrun as (q & s8 & P3 & Hrun). apply bind_inv in Hrun as ([] & s9 & P4 & Hrun). injection Hrun as <- <-.
    split; [done|]. apply calm_proc_pagetable in P1 as (?&?&?). apply calm_mod in P2 as (?&?&?); [|by intros []].
    apply calm_get in P3 as (?&?&?). apply calm_mod in P4 as (?&?&?); [|by intros []]. repeat split; congruence. }
  apply (H1 i); [|by left]. apply Ht. destruct S24 as (?&?&?), S5 as (?&?&?). repeat split; congruence.
Qed.

Lemma post_get i s Q : (forall p, lives s !! i = Some (life_of p) -> Q p s) -> post (get_proc i) s Q.
Proof.
  intros HQ p s'. unfold get_proc. destruct (procs s !! i) as [q|] eqn:Eq; [|done]. intros [= <- <-]. apply HQ.
  unfold lives. by rewrite list_lookup_fmap, Eq.
Qed.

(** A slot [k] that was unused gets the life [l']. *)
Definition reborn (k : nat) (f : life -> life) s s' : Prop :=
  exists l, lives s !! k = Some l /\ l_state l = UNUSED /\ lives s' = <[k := f l]> (lives s) /\
    nextpid s' = s32 (nextpid s + 1) /\ initproc s' = initproc s.

Lemma reborn_upd k f g s s1 s2 :
  reborn k f s s1 -> (forall l, lives s1 !! k = Some l -> lives s2 = <[k := g l]> (lives s1)) ->
  nextpid s2 = nextpid s1 -> initproc s2 = initproc s1 -> reborn k (fun l => g (f l)) s s2.
Proof.
  intros (l & Hl & Hu & L1 & N1 & I1) H2 N2 I2. exists l. split; [done|]. split; [done|].
  assert (lives s1 !! k = Some (f l)) as Hf by (rewrite L1; apply list_lookup_insert_eq; by eapply lookup_lt_Some).
  rewrite (H2 _ Hf), L1, list_insert_insert_eq. split; [done|]. split; congruence.
Qed.

Lemma reborn_calm k f s s1 s2 : reborn k f s s1 -> same_life s1 s2 -> reborn k f s s2.
Proof. intros (l & ? & ? & ? & ? & ?) (? & ? & ?). exists l. repeat split; congruence. Qed.

Lemma post_fork me s Q :
  (forall s', same_life s s' -> Q (-1) s') ->
  (forall k s', reborn k (fun l => mkl UNUSED (l_parent l) (l_chan l) (nextpid s)) s s' \/
                reborn k (fun _ => mkl UNUSED None None 0) s s' -> Q (-1) s') ->
  (forall k s', reborn k (fun l => mkl RUNNABLE (Some me) (l_chan l) (nextpid s)) s s' -> Q (nextpid s) s') ->
  post (fork trampoline forkret me) s Q.
Proof.
  intros Hsame Hfail Hok. unfold fork. apply post_bind, post_allocproc.
  { intros s1 S1. apply post_ret. by apply Hsame. }
  intros k r s1 Ht Hr. assert (reborn k (fun l => mkl UNUSED (l_parent l) (l_chan l) (nextpid s)) s s1) as R1 by exact Ht.
  destruct Hr as [-> | ->]; [|apply post_ret; apply (Hfail k); by left].
  apply post_calm; [calm|]. intros p s2 S2. apply post_calm; [calm|]. intros q s3 S3. apply post_calm; [calm|]. intros c s4 S4.
  assert (reborn k (fun l => mkl UNUSED (l_parent l) (l_chan l) (nextpid s)) s s4) as R4 by eauto using reborn_calm. clear R1 Ht S2 S3 S4 s1 s2 s3.
  destruct (c <? 0).
  { apply post_bind, post_freeproc. intros l s5 Hl L5 N5 I5. apply post_ret. apply (Hfail k). right.
    refine (reborn_upd k _ (fun _ => mkl UNUSED None None 0) s s4 s5 R4 _ N5 I5). by intros. }
  apply post_calm; [calm|]. intros _ s5 S5. pose proof (reborn_calm _ _ _ _ _ R4 S5) as R5.
  apply post_bind, (post_mod _ _ (fun l => mkl (l_state l) (Some me) (l_chan l) (l_pid l))); [done|]. intros l6 s6 Hl6 L6 N6 I6.
  assert (reborn k (fun l => mkl UNUSED (Some me) (l_chan l) (nextpid s)) s s6) as R6.
  { refine (reborn_upd k _ (fun l => mkl (l_state l) (Some me) (l_chan l) (l_pid l)) s s5 s6 R5 _ N6 I6).
    intros l Hl. congruence. }
  apply post_calm; [calm|]. intros _ s7 S7. apply post_calm; [calm|]. intros _ s8 S8.
  apply post_calm; [apply calm_dup_files|]. intros _ s9 S9. destruct (cwd p) as [d|]; [|done].
  apply post_calm; [calm|]. intros d' s10 S10. apply post_calm; [calm|]. intros _ s11 S11. apply post_calm; [calm|]. intros _ s12 S12.
  assert (reborn k (fun l => mkl UNUSED (Some me) (l_chan l) (nextpid s)) s s12) as R12 by eauto 10 using reborn_calm.
  clear S7 S8 S9 S10 S11 S12. apply post_bind, post_get. intros q' Hq'.
  apply post_bind, (post_mod _ _ (fun l => mkl RUNNABLE (l_parent l) (l_chan l) (l_pid l))); [done|]. intros l s13 Hl L13 N13 I13.
  apply post_ret. assert (pid q' = nextpid s) as ->.
  { destruct R12 as (l0 & Hl0 & _ & L12 & _). rewrite L12, list_lookup_insert_eq in Hq' by (by eapply lookup_lt_Some).
    injection Hq' as _ _ _ E'. done. }
  apply (Hok k). refine (reborn_upd k _ (fun l => mkl RUNNABLE (l_parent l) (l_chan l) (l_pid l)) s s12 s13 R12 _ N13 I13).
  intros l' Hl'. congruence.
Qed.

(** What [exit] does to the table. *)
Definition lwake1 (i : nat) (l : life) : life :=
  if decide (l_chan l = Some (ChProc i)) then
    if bool_decide (l_state l = SLEEPING) then mkl RUNNABLE (l_parent l) (l_chan l) (l_pid l) else l
  else l.
Definition ladopt (me : nat) (i0 : option nat) (l : life) : life :=
  if decide (l_parent l = Some me) then mkl (l_state l) i0 (l_chan l) (l_pid l) else l.

Lemma post_wakeup1 i s Q :
  (forall l s', lives s !! i = Some l -> lives s' = <[i := lwake1 i l]> (lives s) ->
     nextpid s' = nextpid s -> initproc s' = initproc s -> Q tt s') ->
  post (wakeup1 i) s Q.
Proof.
  intros HQ. apply (post_mod _ _ (lwake1 i)); [|exact HQ]. intros p. unfold lwake1, is_state. cbn.
  case_decide; [|done]. by case_bool_decide.
Qed.

Lemma post_exit_begin me s Q :
  (forall i0 l s', initproc s = Some i0 -> i0 <> me -> lives s !! i0 = Some l -> lives s' = <[i0 := lwake1 i0 l]> (lives s) ->
     nextpid s' = nextpid s -> initproc s' = initproc s -> Q tt s') ->
  post (exit_begin me) s Q.
Proof.
  intros HQ. unfold exit_begin. apply post_bind. intros i0 s0 [= <- <-]. case_decide as Hi; [done|].
  apply post_calm; [calm|]. intros p s1 S1. apply post_calm; [apply calm_close_files|]. intros _ s2 S2.
  apply post_calm; [calm|]. intros q s3 S3. destruct (cwd q) as [d|]; [|done]. destruct (initproc s) as [i|] eqn:Ei; [|done].
  apply post_calm; [calm|]. intros _ s4 S4. apply post_calm; [calm|]. intros _ s5 S5.
  assert (same_life s s5) as (L & N & I) by (destruct S1 as (?&?&?), S2 as (?&?&?), S3 as (?&?&?), S4 as (?&?&?), S5 as (?&?&?); repeat split; congruence).
  apply post_wakeup1. intros l s6 Hl L6 N6 I6. apply (HQ i l); congruence.
Qed.

Lemma post_exit_end me o status s Q :
  (forall pp s', o = Some pp ->
     (forall L1 l1 l2, L1 = ladopt me (initproc s) <$> lives s -> L1 !! pp = Some l1 ->
        <[pp := lwake1 pp l1]> L1 !! me = Some l2 ->
        lives s' = <[me := mkl ZOMBIE (l_parent l2) (l_chan l2) (l_pid l2)]> (<[pp := lwake1 pp l1]> L1) ->
        nextpid s' = nextpid s -> initproc s' = initproc s -> Q tt s')) ->
  post (exit_end me o status) s Q.
Proof.
  intros HQ. destruct o as [pp|]; [|done]. unfold exit_end. apply post_bind. unfold reparent.
  apply post_bind. intros i0 s0 [= <- <-]. apply (post_map _ (ladopt me (initproc s))).
  { intros p. unfold ladopt. cbn. by case_decide. }
  intros s1 L1 N1 I1. apply post_bind, post_wakeup1. intros l1 s2 Hl1 L2 N2 I2.
  apply (post_mod _ _ (fun l => mkl ZOMBIE (l_parent l) (l_chan l) (l_pid l))); [done|]. intros l2 s3 Hl2 L3 N3 I3.
  rewrite L2 in *. apply (HQ pp s3 eq_refl (lives s1) l1 l2); congruence.
Qed.

Lemma post_wait me addr s Q :
  (forall r s', same_life s s' -> Q r s') ->
  (forall np l s' r, lives s !! np = Some l -> l_state l = ZOMBIE -> l_parent l = Some me ->
     lives s' = <[np := mkl UNUSED None None 0]> (lives s) -> nextpid s' = nextpid s -> initproc s' = initproc s ->
     r = WDone (l_pid l) -> Q r s') ->
  (forall l s', lives s !! me = Some l -> (forall j lj, lives s !! j = Some lj -> l_parent lj = Some me -> l_state lj <> ZOMBIE) ->
     lives s' = <[me := mkl SLEEPING (l_parent l) (Some (ChProc me)) (l_pid l)]> (lives s) ->
     nextpid s' = nextpid s -> initproc s' = initproc s -> Q WSleep s') ->
  post (wait me addr) s Q.
Proof.
  intros Hsame Hreap Hsleep. unfold wait. apply post_bind. intros ps s0 [= <- <-]. apply post_calm; [calm|]. intros p s1 S1.
  destruct (find_proc (fun q => child_of me q && is_state ZOMBIE q) (procs s) 0) as [np|] eqn:Ef.
  - destruct (find_proc_spec _ _ _ _ Ef) as (_ & q0 & Hq0 & Hz & _). rewrite Nat.sub_0_r in Hq0.
    apply andb_true_iff in Hz as [Hch%bool_decide_eq_true Hz%bool_decide_eq_true].
    apply post_bind, post_get. intros q Hq.
    assert (life_of q = life_of q0) as Eq.
    { destruct S1 as (L1 & _). rewrite L1 in Hq. unfold lives in Hq. rewrite list_lookup_fmap, Hq0 in Hq. cbn [fmap option_fmap option_map] in Hq. congruence. }
    apply post_calm; [calm|]. intros r s2 S2. assert (same_life s s2) as (L & N & I) by (destruct S1 as (?&?&?), S2 as (?&?&?); repeat split; congruence).
    destruct (r <? 0); [apply post_ret; by apply Hsame|].
    apply post_bind, post_freeproc. intros l s3 Hl L3 N3 I3. apply post_ret.
    assert (l = life_of q0) as -> by (rewrite L in Hl; unfold lives in Hl; rewrite list_lookup_fmap, Hq0 in Hl; by injection Hl as <-).
    apply (Hreap np (life_of q0)); try done; try congruence.
    change (l_pid (life_of q0)) with (pid q0). injection Eq as _ _ _ Epid. by rewrite Epid.
  - destruct (negb _ || _); [apply post_ret; by apply Hsame|].
    apply post_bind. unfold sleep. apply (post_mod _ _ (fun l => mkl SLEEPING (l_parent l) (Some (ChProc me)) (l_pid l))); [done|].
    intros l s2 Hl L2 N2 I2. apply post_ret. destruct S1 as (L1 & N1 & I1). apply (Hsleep l); try congruence.
    intros j lj Hj Hpar Hz. apply find_proc_None in Ef. unfold lives in Hj. rewrite list_lookup_fmap in Hj.
    destruct (procs s !! j) as [q|] eqn:Eq; [|done]. injection Hj as <-.
    pose proof (proj1 (Forall_lookup _ _) Ef j q Eq) as Hf. apply andb_false_iff in Hf as [Hf|Hf]; apply bool_decide_eq_false in Hf; tauto.
Qed.

(** ** The invariant of the process table *)

Definition alive (x : procstate) : Prop := x <> UNUSED /\ x <> ZOMBIE.

(** init is there; every other process has a parent that has not exited; unused
    slots have none; pids are distinct; and who sleeps in [wait] has no child that
    has exited. *)
Record linv (i0 : nat) (L : list life) (n : Z) : Prop := {
  li_init : exists l, L !! i0 = Some l /\ alive (l_state l);
  li_parent : forall i l, L !! i = Some l -> l_state l <> UNUSED -> i <> i0 ->
    exists j lj, l_parent l = Some j /\ L !! j = Some lj /\ alive (l_state lj);
  li_unused : forall i l, L !! i = Some l -> l_state l = UNUSED -> l_parent l = None;
  li_pid : forall i l, L !! i = Some l -> l_state l <> UNUSED -> 0 < l_pid l < n;
  li_pids : forall i j l l', L !! i = Some l -> L !! j = Some l' -> l_state l <> UNUSED -> l_state l' <> UNUSED ->
    l_pid l = l_pid l' -> i = j;
  li_wait : forall i l, L !! i = Some l -> l_state l = SLEEPING -> l_chan l = Some (ChProc i) ->
    forall j lj, L !! j = Some lj -> l_parent lj = Some i -> l_state lj <> ZOMBIE }.

Definition proc_inv s : Prop := exists i0, initproc s = Some i0 /\ linv i0 (lives s) (nextpid s) /\ 0 < nextpid s.

(** A change that makes nobody unused or a zombie and puts nobody to sleep in [wait]. *)
Definition benign (F : nat -> life -> life) (L : list life) : Prop :=
  forall i l, L !! i = Some l ->
    l_parent (F i l) = l_parent l /\ l_pid (F i l) = l_pid l /\
    (l_state (F i l) = UNUSED <-> l_state l = UNUSED) /\ (l_state (F i l) = ZOMBIE <-> l_state l = ZOMBIE) /\
    (l_state (F i l) = SLEEPING -> l_chan (F i l) = Some (ChProc i) -> l_state l = SLEEPING /\ l_chan l = Some (ChProc i)).

Lemma linv_benign i0 L L' n F :
  linv i0 L n -> benign F L -> (forall i, L' !! i = F i <$> L !! i) -> linv i0 L' n.
Proof.
  intros [Hi Hp Hu Hpi Hps Hw] HF HL.
  assert (forall i l', L' !! i = Some l' -> exists l, L !! i = Some l /\ l' = F i l) as Hinv.
  { intros i l'. rewrite HL. destruct (L !! i) as [l|]; [|done]. intros [= <-]. eauto. }
  assert (forall i l, L !! i = Some l -> alive (l_state l) -> alive (l_state (F i l))) as Hal.
  { intros i l Hl [H1 H2]. destruct (HF i l Hl) as (_ & _ & HU & HZ & _). split; tauto. }
  split.
  - destruct Hi as (l & Hl & Ha). exists (F i0 l). rewrite HL, Hl. split; [done|]. by apply Hal.
  - intros i l' (l & Hl & ->)%Hinv Hne Hi0. destruct (HF i l Hl) as (Epar & _ & HU & _). rewrite Epar.
    destruct (Hp i l Hl) as (j & lj & Hj & Hlj & Ha); [tauto|done|]. exists j, (F j lj). rewrite HL, Hlj. split; [done|]. split; [done|]. by apply Hal.
  - intros i l' (l & Hl & ->)%Hinv Hun. destruct (HF i l Hl) as (Epar & _ & HU & _). rewrite Epar. apply (Hu i l Hl). tauto.
  - intros i l' (l & Hl & ->)%Hinv Hne. destruct (HF i l Hl) as (_ & Epid & HU & _). rewrite Epid. apply (Hpi i l Hl). tauto.
  - intros i j l' lj' (l & Hl & ->)%Hinv (lj & Hlj & ->)%Hinv Hne Hne'.
    destruct (HF i l Hl) as (_ & Epid & HU & _), (HF j lj Hlj) as (_ & Epid' & HU' & _). rewrite Epid, Epid'. apply (Hps i j l lj Hl Hlj); tauto.
  - intros i l' (l & Hl & ->)%Hinv Hs Hc j lj' (lj & Hlj & ->)%Hinv Hpar. destruct (HF i l Hl) as (_ & _ & _ & _ & Hsl).
    destruct (Hsl Hs Hc) as [Hs' Hc']. destruct (HF j lj Hlj) as (Epar & _ & _ & HZ & _). rewrite HZ. apply (Hw i l Hl Hs' Hc' j lj Hlj). congruence.
Qed.

(** One process changes. *)
Lemma linv_upd1 i0 L n k l l' :
  linv i0 L n -> L !! k = Some l -> l_parent l' = l_parent l -> l_pid l' = l_pid l ->
  (l_state l' = UNUSED <-> l_state l = UNUSED) -> (l_state l' = ZOMBIE <-> l_state l = ZOMBIE) ->
  (l_state l' = SLEEPING -> l_chan l' = Some (ChProc k) -> l_state l = SLEEPING /\ l_chan l = Some (ChProc k)) ->
  linv i0 (<[k := l']> L) n.
Proof.
  intros Hinv Hk H1 H2 H3 H4 H5. apply (linv_benign i0 L _ n (fun i x => if decide (i = k) then l' else x)); [done| |].
  - intros i x Hx. case_decide as Hik; [|done]. subst i. rewrite Hk in Hx. injection Hx as <-. done.
  - intros i. destruct (decide (i = k)) as [->|Hne].
    + rewrite list_lookup_insert_eq by (by eapply lookup_lt_Some). by rewrite Hk.
    + rewrite list_lookup_insert_ne by done. by destruct (L !! i).
Qed.

(** A new process. *)
Lemma linv_spawn i0 L n k l me lm :
  linv i0 L n -> L !! k = Some l -> l_state l = UNUSED -> L !! me = Some lm -> alive (l_state lm) -> 0 < n ->
  linv i0 (<[k := mkl RUNNABLE (Some me) (l_chan l) n]> L) (n + 1).
Proof.
  intros [Hi Hp Hu Hpi Hps Hw] Hk Hun Hm Ha Hn.
  assert (forall j lj, L !! j = Some lj -> alive (l_state lj) -> <[k := mkl RUNNABLE (Some me) (l_chan l) n]> L !! j = Some lj) as Hal.
  { intros j lj Hj [Hnu _]. rewrite list_lookup_insert_ne; [done|]. intros ->. congruence. }
  assert (forall j lj, <[k := mkl RUNNABLE (Some me) (l_chan l) n]> L !! j = Some lj ->
    j = k /\ lj = mkl RUNNABLE (Some me) (l_chan l) n \/ j <> k /\ L !! j = Some lj) as Hinv.
  { intros j lj. rewrite list_lookup_insert_Some. intros [(<- & <- & _)|[? ?]]; [by left|right; split; [congruence|done]]. }
  split.
  - destruct Hi as (l0 & Hl0 & Ha0). exists l0. split; [by apply Hal|done].
  - intros i x [[-> ->]|[Hne Hx]]%Hinv Hnu Hi0.
    + exists me, lm. split; [done|]. split; [by apply Hal|done].
    + destruct (Hp i x Hx Hnu Hi0) as (j & lj & ? & Hj & Haj). exists j, lj. split; [done|]. split; [by apply Hal|done].
  - intros i x [[-> ->]|[Hne Hx]]%Hinv; [done|]. by apply (Hu i).
  - intros i x [[-> ->]|[Hne Hx]]%Hinv Hnu; [cbn; lia|]. specialize (Hpi i x Hx Hnu). lia.
  - intros i j x x' [[-> ->]|[Hne Hx]]%Hinv [[-> ->]|[Hne' Hx']]%Hinv Hnu Hnu'; cbn; [done| | |by apply (Hps i j x x')].
    + specialize (Hpi j x' Hx' Hnu'). lia.
    + specialize (Hpi i x Hx Hnu). lia.
  - intros i x [[-> ->]|[Hne Hx]]%Hinv Hs; [done|]. intros Hc j lj [[-> ->]|[Hne' Hlj]]%Hinv Hpar; [done|]. by apply (Hw i x Hx Hs Hc j).
Qed.

(** A slot that is, or becomes, unused: nobody is its child. *)
Lemma linv_unused i0 L n n' k l l' :
  linv i0 L n -> L !! k = Some l -> ~ alive (l_state l) -> l_state l' = UNUSED -> l_parent l' = None -> n <= n' ->
  linv i0 (<[k := l']> L) n'.
Proof.
  intros [Hi Hp Hu Hpi Hps Hw] Hk Hna Hun Hpar Hn.
  assert (forall j lj, L !! j = Some lj -> alive (l_state lj) -> <[k := l']> L !! j = Some lj) as Hal.
  { intros j lj Hj Ha. rewrite list_lookup_insert_ne; [done|]. intros ->. congruence. }
  assert (forall j lj, <[k := l']> L !! j = Some lj -> lj = l' \/ L !! j = Some lj) as Hinv.
  { intros j lj. rewrite list_lookup_insert_Some. intros [(<- & <- & _)|[? ?]]; auto. }
  split.
  - destruct Hi as (l0 & Hl0 & Ha0). exists l0. split; [by apply Hal|done].
  - intros i x [->|Hx]%Hinv Hnu Hi0; [done|].
    destruct (Hp i x Hx Hnu Hi0) as (j & lj & ? & Hj & Haj). exists j, lj. split; [done|]. split; [by apply Hal|done].
  - intros i x [->|Hx]%Hinv; [done|]. by apply (Hu i).
  - intros i x [->|Hx]%Hinv Hnu; [done|]. specialize (Hpi i x Hx Hnu). lia.
  - intros i j x x' [->|Hx]%Hinv [->|Hx']%Hinv Hnu Hnu'; [done..|]. by apply (Hps i j x x').
  - intros i x [->|Hx]%Hinv Hs; [congruence|]. intros Hc j lj [->|Hlj]%Hinv Hpar'; [congruence|]. by apply (Hw i x Hx Hs Hc j).
Qed.

(** A process that found no exited child goes to sleep. *)
Lemma linv_sleep i0 L n me l c :
  linv i0 L n -> L !! me = Some l -> alive (l_state l) ->
  (forall j lj, L !! j = Some lj -> l_parent lj = Some me -> l_state lj <> ZOMBIE) ->
  linv i0 (<[me := mkl SLEEPING (l_parent l) c (l_pid l)]> L) n.
Proof.
  intros Hl Hm [Hnu Hnz] Hkids.
  pose proof (linv_upd1 i0 L n me l (mkl RUNNABLE (l_parent l) c (l_pid l)) Hl Hm eq_refl eq_refl ltac:(cbn; split; done)
    ltac:(cbn; split; done) ltac:(done)) as H1.
  destruct H1 as [Hi Hp Hu Hpi Hps Hw].
  assert (me < length L)%nat as Hlt by (by eapply lookup_lt_Some).
  set (l1 := mkl RUNNABLE (l_parent l) c (l_pid l)) in *. set (l2 := mkl SLEEPING (l_parent l) c (l_pid l)).
  assert (forall j x, <[me := l2]> L !! j = Some x -> exists y, <[me := l1]> L !! j = Some y /\ l_parent y = l_parent x /\ l_pid y = l_pid x /\
    (alive (l_state y) <-> alive (l_state x)) /\ (l_state y = UNUSED <-> l_state x = UNUSED) /\ (l_state y = ZOMBIE <-> l_state x = ZOMBIE) /\ (j <> me -> y = x)) as Hinv.
  { intros j x. destruct (decide (j = me)) as [->|Hne].
    - rewrite !list_lookup_insert_eq by done. intros [= <-]. exists l1. repeat split; done.
    - rewrite !list_lookup_insert_ne by done. intros Hx. exists x. tauto. }
  assert (forall j y, <[me := l1]> L !! j = Some y -> exists x, <[me := l2]> L !! j = Some x /\ (alive (l_state y) -> alive (l_state x))) as Hinv'.
  { intros j y. destruct (decide (j = me)) as [->|Hne].
    - rewrite !list_lookup_insert_eq by done. intros [= <-]. exists l2. split; [done|]. intros _. split; done.
    - rewrite !list_lookup_insert_ne by done. eauto. }
  split.
  - destruct Hi as (y & Hy & Ha). destruct (Hinv' _ _ Hy) as (x & Hx & Hax). eauto.
  - intros i x (y & Hy & E1 & _ & _ & E3 & _)%Hinv Hne Hi0. destruct (Hp i y Hy) as (j & yj & Hj & Hyj & Haj); [tauto|done|].
    destruct (Hinv' _ _ Hyj) as (xj & Hxj & Haxj). exists j, xj. split; [congruence|auto].
  - intros i x (y & Hy & E1 & _ & _ & E3 & _)%Hinv Hun. rewrite <-E1. apply (Hu i y Hy). tauto.
  - intros i x (y & Hy & _ & E2 & _ & E3 & _)%Hinv Hun. rewrite <-E2. apply (Hpi i y Hy). tauto.
  - intros i j x x' (y & Hy & _ & E2 & _ & E3 & _)%Hinv (y' & Hy' & _ & E2' & _ & E3' & _)%Hinv Hun Hun'. rewrite <-E2, <-E2'. apply (Hps i j y y' Hy Hy'); tauto.
  - intros i x Hx Hs Hc j xj (yj & Hyj & E1 & _ & _ & _ & EZ & Hne)%Hinv Hpar Hz. destruct (decide (i = me)) as [->|Hime].
    + destruct (decide (j = me)) as [->|Hjme]; [rewrite list_lookup_insert_eq in Hyj by done; injection Hyj as <-; apply EZ in Hz; done|].
      rewrite (Hne Hjme) in Hyj. rewrite list_lookup_insert_ne in Hyj by done. by apply (Hkids j xj Hyj Hpar).
    + rewrite list_lookup_insert_ne in Hx by done. apply (Hw i x) with (j := j) (lj := yj); try done; [by rewrite list_lookup_insert_ne|congruence|tauto].
Qed.

(** The table after [exit], process by process. *)
Definition lexit (i0 pp me i : nat) (l : life) : life :=
  let l1 := if decide (i = i0) then lwake1 i0 l else l in
  let l2 := ladopt me (Some i0) l1 in
  let l3 := if decide (i = pp) then lwake1 pp l2 else l2 in
  if decide (i = me) then mkl ZOMBIE (l_parent l3) (l_chan l3) (l_pid l3) else l3.

Lemma lwake1_spec i l :
  l_parent (lwake1 i l) = l_parent l /\ l_pid (lwake1 i l) = l_pid l /\ l_chan (lwake1 i l) = l_chan l /\
  (l_state (lwake1 i l) = UNUSED <-> l_state l = UNUSED) /\ (l_state (lwake1 i l) = ZOMBIE <-> l_state l = ZOMBIE) /\
  (l_state (lwake1 i l) = SLEEPING -> l_state l = SLEEPING /\ l_chan l <> Some (ChProc i)).
Proof.
  unfold lwake1. destruct (decide (l_chan l = Some (ChProc i))) as [Hc|Hc]; [|tauto].
  destruct (bool_decide (l_state l = SLEEPING)) eqn:Es; [apply bool_decide_eq_true in Es|apply bool_decide_eq_false in Es; tauto].
  cbn. rewrite Es. repeat split; done.
Qed.

Lemma lwake_if_spec (i k : nat) l :
  let l' := if decide (i = k) then lwake1 k l else l in
  l_parent l' = l_parent l /\ l_pid l' = l_pid l /\ l_chan l' = l_chan l /\
  (l_state l' = UNUSED <-> l_state l = UNUSED) /\ (l_state l' = ZOMBIE <-> l_state l = ZOMBIE) /\
  (l_state l' = SLEEPING -> l_state l = SLEEPING /\ (i = k -> l_chan l <> Some (ChProc i))).
Proof. pose proof (lwake1_spec k l). cbv zeta. destruct (decide (i = k)) as [->|]; tauto. Qed.

Lemma lexit_spec i0 pp me i l :
  let l' := lexit i0 pp me i l in
  l_parent l' = (if decide (l_parent l = Some me) then Some i0 else l_parent l) /\ l_pid l' = l_pid l /\ l_chan l' = l_chan l /\
  (i = me -> l_state l' = ZOMBIE) /\
  (i <> me -> (l_state l' = UNUSED <-> l_state l = UNUSED) /\ (l_state l' = ZOMBIE <-> l_state l = ZOMBIE) /\
     (l_state l' = SLEEPING -> l_state l = SLEEPING /\ (i = i0 \/ i = pp -> l_chan l <> Some (ChProc i)))).
Proof.
  unfold lexit. set (l1 := if decide (i = i0) then lwake1 i0 l else l). set (l2 := ladopt me (Some i0) l1).
  set (l3 := if decide (i = pp) then lwake1 pp l2 else l2).
  destruct (lwake_if_spec i i0 l) as (A1 & A2 & A3 & A4 & A5 & A6). fold l1 in A1, A2, A3, A4, A5, A6.
  assert (l_parent l2 = (if decide (l_parent l = Some me) then Some i0 else l_parent l) /\ l_pid l2 = l_pid l1 /\ l_chan l2 = l_chan l1 /\ l_state l2 = l_state l1) as (B1 & B2 & B3 & B4).
  { unfold l2, ladopt. rewrite A1. by case_decide. }
  destruct (lwake_if_spec i pp l2) as (C1 & C2 & C3 & C4 & C5 & C6). fold l3 in C1, C2, C3, C4, C5, C6.
  clearbody l1 l2 l3. cbv zeta. destruct (decide (i = me)) as [Hme|Hme].
  - cbn. split; [congruence|]. split; [congruence|]. split; [congruence|]. split; [done|]. intros ?. done.
  - split; [congruence|]. split; [congruence|]. split; [congruence|]. split; [done|]. intros _.
    split; [rewrite C4, B4; tauto|]. split; [rewrite C5, B4; tauto|]. intros Hs. destruct (C6 Hs) as [Hs2 Hc2]. rewrite B4 in Hs2.
    destruct (A6 Hs2) as [Hs1 Hc1]. split; [done|]. rewrite B3, A3 in Hc2. intros [Hi|Hi]; [by apply Hc1|by apply Hc2].
Qed.

Lemma linv_exit i0 L L' n me pp lm :
  linv i0 L n -> L !! me = Some lm -> l_parent lm = Some pp -> alive (l_state lm) -> me <> i0 ->
  (forall i, L' !! i = lexit i0 pp me i <$> L !! i) -> linv i0 L' n.
Proof.
  intros [Hi Hp Hu Hpi Hps Hw] Hm Hpar [Hmu Hmz] Hme HL.
  assert (forall i l', L' !! i = Some l' -> exists l, L !! i = Some l /\ l' = lexit i0 pp me i l) as Hinv.
  { intros i l'. rewrite HL. destruct (L !! i) as [l|]; [|done]. intros [= <-]. eauto. }
  assert (forall i l, L !! i = Some l -> i <> me -> alive (l_state l) -> exists l', L' !! i = Some l' /\ alive (l_state l')) as Hal.
  { intros i l Hl Hne [H1 H2]. exists (lexit i0 pp me i l). rewrite HL, Hl. split; [done|].
    destruct (lexit_spec i0 pp me i l) as (_ & _ & _ & _ & H). destruct (H Hne) as (HU & HZ & _). split; tauto. }
  assert (forall i l, L !! i = Some l -> l_state (lexit i0 pp me i l) <> UNUSED -> l_state l <> UNUSED) as Hnu.
  { intros i l Hl Hx. destruct (decide (i = me)) as [->|Hne]; [congruence|].
    destruct (lexit_spec i0 pp me i l) as (_ & _ & _ & _ & H). destruct (H Hne) as (HU & _). tauto. }
  assert (exists l0', L' !! i0 = Some l0' /\ alive (l_state l0')) as H0 by (destruct Hi as (l0 & Hl0 & Ha); apply (Hal i0 l0); congruence).
  split.
  - exact H0.
  - intros i l' (l & Hl & ->)%Hinv Hne Hi0. destruct (lexit_spec i0 pp me i l) as (Epar & _). rewrite Epar.
    destruct (Hp i l Hl (Hnu i l Hl Hne) Hi0) as (j & lj & Hj & Hlj & Ha). case_decide as Hd.
    + destruct H0 as (l0' & ? & ?). eauto.
    + destruct (Hal j lj Hlj ltac:(congruence) Ha) as (lj' & ? & ?). eauto.
  - intros i l' (l & Hl & ->)%Hinv Hun. destruct (lexit_spec i0 pp me i l) as (Epar & _ & _ & Hz & H).
    destruct (decide (i = me)) as [->|Hne]; [rewrite Hz in Hun; done|]. destruct (H Hne) as (HU & _).
    rewrite Epar, (Hu i l Hl) by tauto. done.
  - intros i l' (l & Hl & ->)%Hinv Hne. destruct (lexit_spec i0 pp me i l) as (_ & Epid & _). rewrite Epid. apply (Hpi i l Hl). by apply (Hnu i).
  - intros i j l' lj' (l & Hl & ->)%Hinv (lj & Hlj & ->)%Hinv Hne Hne'.
    destruct (lexit_spec i0 pp me i l) as (_ & Epid & _), (lexit_spec i0 pp me j lj) as (_ & Epid' & _). rewrite Epid, Epid'.
    apply (Hps i j l lj Hl Hlj); [by apply (Hnu i)|by apply (Hnu j)].
  - intros i l' (l & Hl & ->)%Hinv Hs Hc j lj' (lj & Hlj & ->)%Hinv Hparj Hzj.
    destruct (lexit_spec i0 pp me i l) as (_ & _ & Ech & Hzi & H). rewrite Ech in Hc.
    destruct (decide (i = me)) as [->|Hne]; [rewrite Hzi in Hs; done|]. destruct (H Hne) as (_ & _ & Hsl).
    destruct (Hsl Hs) as [Hsi Hnot]. destruct (lexit_spec i0 pp me j lj) as (Eparj & _ & _ & _ & Hj).
    rewrite Eparj in Hparj. case_decide as Hd.
    + injection Hparj as <-. apply Hnot; [by left|done].
    + destruct (decide (j = me)) as [->|Hjne].
      * rewrite Hm in Hlj. injection Hlj as <-. rewrite Hpar in Hparj. injection Hparj as <-. apply Hnot; [by right|done].
      * destruct (Hj Hjne) as (_ & HZ & _). apply (Hw i l Hl Hsi Hc j lj Hlj Hparj). tauto.
Qed.

Lemma post_exit me status s Q :
  (forall i0 pp lm s', initproc s = Some i0 -> i0 <> me -> lives s !! me = Some lm -> l_parent lm = Some pp ->
     (forall i, lives s' !! i = lexit i0 pp me i <$> lives s !! i) -> nextpid s' = nextpid s -> initproc s' = initproc s -> Q tt s') ->
  post (exit me status) s Q.
Proof.
  intros HQ. unfold exit. apply post_bind, post_exit_begin. intros i0 l0 s1 Hi0 Hne Hl0 L1 N1 I1.
  apply post_bind. unfold exit_parent. apply post_bind, post_get. intros p Hp. apply post_ret.
  rewrite L1, list_lookup_insert_ne in Hp by done.
  apply post_exit_end. intros pp s2 Hpp L2 l1 l2 -> Hl1 Hl2 L3 N3 I3.
  apply (HQ i0 pp (life_of p)); try done; [|congruence|congruence].
  intros i. rewrite L3, I1, Hi0 in *. unfold lexit. rewrite L1 in *.
  assert (forall k, (ladopt me (Some i0) <$> <[i0 := lwake1 i0 l0]> (lives s)) !! k =
    (fun l => ladopt me (Some i0) (if decide (k = i0) then lwake1 i0 l else l)) <$> lives s !! k) as Hk.
  { intros k. rewrite list_lookup_fmap. destruct (decide (k = i0)) as [->|Hk].
    - rewrite list_lookup_insert_eq, Hl0 by (by eapply lookup_lt_Some). done.
    - rewrite list_lookup_insert_ne by done. by destruct (lives s !! k). }
  set (LL := ladopt me (Some i0) <$> _) in *.
  assert (forall k, <[pp := lwake1 pp l1]> LL !! k = (fun l => let l2 := ladopt me (Some i0) (if decide (k = i0) then lwake1 i0 l else l) in
    if decide (k = pp) then lwake1 pp l2 else l2) <$> lives s !! k) as Hk2.
  { intros k. destruct (decide (k = pp)) as [->|Hkp].
    - rewrite list_lookup_insert_eq by (by eapply lookup_lt_Some). rewrite Hk in Hl1. destruct (lives s !! pp); [|done]. injection Hl1 as <-. done.
    - rewrite list_lookup_insert_ne by done. apply Hk. }
  destruct (decide (i = me)) as [->|Him].
  - rewrite list_lookup_insert_eq by (by eapply lookup_lt_Some). rewrite Hk2 in Hl2. destruct (lives s !! me); [|done]. injection Hl2 as <-. done.
  - rewrite list_lookup_insert_ne by done. rewrite Hk2. done.
Qed.

(** ** The system *)

Definition running (me : nat) s : Prop := exists p, procs s !! me = Some p /\ state p = RUNNING.

(** What can happen next; fewer than 2^31 processes are ever created. *)
Inductive proc_step s : pst E -> Prop :=
  | st_fork me r s' : running me s -> nextpid s < 2 ^ 31 - 1 -> fork trampoline forkret me s = Ok r s' -> proc_step s s'
  | st_exit me status s' : running me s -> exit me status s = Ok tt s' -> proc_step s s'
  | st_wait me addr r s' : running me s -> wait me addr s = Ok r s' -> proc_step s s'
  | st_sleep me a s' : running me s -> sleep me (ChAddr a) s = Ok tt s' -> proc_step s s'
  | st_yield me s' : running me s -> yield me s = Ok tt s' -> proc_step s s'
  | st_sched i s' : schedule i s = Ok tt s' -> proc_step s s'
  | st_wakeup a s' : wakeup (ChAddr a) s = Ok tt s' -> proc_step s s'
  | st_kill n r s' : kill n s = Ok r s' -> proc_step s s'
  | st_grow me n r s' : running me s -> growproc me n s = Ok r s' -> proc_step s s'.

Lemma running_life me s : running me s -> exists l, lives s !! me = Some l /\ l_state l = RUNNING.
Proof. intros (p & Hp & Hr). exists (life_of p). unfold lives. by rewrite list_lookup_fmap, Hp. Qed.

Lemma inv_same s s' : proc_inv s -> same_life s s' -> proc_inv s'.
Proof. intros (i0 & Hi & HL & Hn) (L & N & I). exists i0. by rewrite L, N, I. Qed.

Lemma calm_growproc me n : calmly (growproc (E := E) me n).
Proof. unfold growproc. calm. Qed.

(** One process changes and is neither new nor gone. *)
Lemma inv_mod k f (g : life -> life) s s' :
  proc_inv s -> mod_proc k f s = Ok tt s' -> (forall p, life_of (f p) = g (life_of p)) ->
  (forall l, lives s !! k = Some l -> l_parent (g l) = l_parent l /\ l_pid (g l) = l_pid l /\
     (l_state (g l) = UNUSED <-> l_state l = UNUSED) /\ (l_state (g l) = ZOMBIE <-> l_state l = ZOMBIE) /\
     (l_state (g l) = SLEEPING -> l_chan (g l) = Some (ChProc k) -> l_state l = SLEEPING /\ l_chan l = Some (ChProc k))) ->
  proc_inv s'.
Proof.
  intros (i0 & Hi & HL & Hn) Hrun Hf Hg. revert Hrun. apply (post_mod k f g s (fun _ s' => proc_inv s')); [done|].
  intros l s1 Hl L1 N1 I1. exists i0. rewrite L1, N1, I1. split; [done|]. split; [|done].
  destruct (Hg l Hl) as (? & ? & ? & ? & ?). by apply (linv_upd1 i0 (lives s) _ k l).
Qed.

Lemma proc_step_inv s s' : proc_inv s -> proc_step s s' -> proc_inv s'.
Proof.
  intros Hinv Hst. pose proof Hinv as (i0 & Hi & HL & Hn).
  destruct Hst as [me r s' Hrun Hmax Hop|me st s' Hrun Hop|me addr r s' Hrun Hop|me a s' Hrun Hop|me s' Hrun Hop|k s' Hop|a s' Hop|n r s' Hop|me n r s' Hrun Hop].
  - destruct (running_life me s Hrun) as (lm & Hm & Hr). assert (s32 (nextpid s + 1) = nextpid s + 1) as Es by (apply s32_small; lia).
    revert r s' Hop. apply (post_fork me s (fun _ s' => proc_inv s')).
    + intros s1 S1. by apply (inv_same s).
    + intros k s1 Hreb. exists i0. assert (exists l l', lives s !! k = Some l /\ l_state l = UNUSED /\ lives s1 = <[k := l']> (lives s) /\
        l_state l' = UNUSED /\ l_parent l' = None /\ nextpid s1 = nextpid s + 1 /\ initproc s1 = initproc s) as (l & l' & Hl & Hu & L1 & Hu' & Hp' & N1 & I1).
      { destruct Hreb as [(l & Hl & Hu & L1 & N1 & I1)|(l & Hl & Hu & L1 & N1 & I1)]; eexists l, _; rewrite N1, Es; repeat split; try done; [].
        cbn. by apply (li_unused _ _ _ HL k l). }
      rewrite L1, N1, I1. split; [done|]. split; [|lia]. apply (linv_unused i0 (lives s) (nextpid s) _ k l); try done; [|lia]. unfold alive. tauto.
    + intros k s1 (l & Hl & Hu & L1 & N1 & I1). exists i0. rewrite L1, N1, I1, Es. split; [done|]. split; [|lia].
      apply (linv_spawn i0 (lives s) (nextpid s) k l me lm); try done. split; congruence.
  - destruct (running_life me s Hrun) as (lm & Hm & Hr). revert Hop. apply (post_exit me st s (fun _ s' => proc_inv s')).
    intros i1 pp lm' s1 Hi1 Hne Hm' Hpp L1 N1 I1. rewrite Hm in Hm'. injection Hm' as <-. rewrite Hi in Hi1. injection Hi1 as <-.
    exists i0. rewrite N1, I1. split; [done|]. split; [|done]. apply (linv_exit i0 (lives s) _ _ me pp lm); try done. split; congruence.
  - destruct (running_life me s Hrun) as (lm & Hm & Hr). revert r s' Hop. apply (post_wait me addr s (fun _ s' => proc_inv s')).
    + intros r s1 S1. by apply (inv_same s).
    + intros np l s1 r Hl Hz Hp L1 N1 I1 _. exists i0. rewrite L1, N1, I1. split; [done|]. split; [|done].
      apply (linv_unused i0 (lives s) (nextpid s) _ np l); try done. unfold alive. tauto.
    + intros l s1 Hl Hk L1 N1 I1. exists i0. rewrite L1, N1, I1. split; [done|]. split; [|done].
      rewrite Hm in Hl. injection Hl as <-. apply linv_sleep; try done. split; congruence.
  - destruct (running_life me s Hrun) as (lm & Hm & Hr).
    apply (inv_mod me _ (fun l => mkl SLEEPING (l_parent l) (Some (ChAddr a)) (l_pid l)) s s' Hinv Hop); [done|].
    intros l Hl. rewrite Hm in Hl. injection Hl as <-. cbn. rewrite Hr. repeat split; done.
  - destruct (running_life me s Hrun) as (lm & Hm & Hr).
    apply (inv_mod me _ (fun l => mkl RUNNABLE (l_parent l) (l_chan l) (l_pid l)) s s' Hinv Hop); [done|].
    intros l Hl. rewrite Hm in Hl. injection Hl as <-. cbn. rewrite Hr. repeat split; done.
  - unfold schedule in Hop. apply bind_inv in Hop as (p & s1 & H1 & H2). unfold get_proc in H1.
    destruct (procs s !! k) as [q|] eqn:Eq; [|done]. injection H1 as <- <-. unfold when in H2.
    destruct (is_state RUNNABLE q) eqn:Es; [|by injection H2 as <-]. apply bool_decide_eq_true in Es.
    apply (inv_mod k _ (fun l => mkl RUNNING (l_parent l) None (l_pid l)) s s' Hinv H2); [done|].
    intros l Hl. unfold lives in Hl. rewrite list_lookup_fmap, Eq in Hl. injection Hl as <-. cbn. rewrite Es. repeat split; done.
  - revert Hop. apply (post_map _ (fun l => if bool_decide (l_state l = SLEEPING) then
        if decide (l_chan l = Some (ChAddr a)) then mkl RUNNABLE (l_parent l) (l_chan l) (l_pid l) else l else l) s (fun _ s' => proc_inv s')).
    + intros p. unfold is_state. cbn. case_bool_decide; [|done]. by case_decide.
    + intros s1 L1 N1 I1. exists i0. rewrite N1, I1. split; [done|]. split; [|done].
      eapply (linv_benign i0 (lives s) _ _ (fun _ l => _)); [done| |intros i; rewrite L1, list_lookup_fmap; reflexivity].
      intros i l Hl. cbn. case_bool_decide as Hs; [|tauto]. case_decide as Hc; [|tauto]. cbn. rewrite Hs. repeat split; done.
  - unfold kill in Hop. apply bind_inv in Hop as (ps & s1 & H1 & H2). injection H1 as <- <-.
    destruct (find_proc _ (procs s) 0) as [k|]; [|by injection H2 as <- <-].
    apply bind_inv in H2 as ([] & s2 & H2 & H3). injection H3 as <- <-.
    apply (inv_mod k _ (fun l => if bool_decide (l_state l = SLEEPING) then mkl RUNNABLE (l_parent l) (l_chan l) (l_pid l) else l) s s2 Hinv H2).
    + intros p. unfold is_state. cbn. by case_bool_decide.
    + intros l Hl. case_bool_decide as Hs; [|tauto]. cbn. rewrite Hs. repeat split; done.
  - apply (inv_same s); [done|]. by apply (calm_growproc me n s r).
Qed.

(** ** From the start *)

Definition NPROC : nat := 64.
Definition NOFILE : nat := 1024.
Definition blank : proc := mkproc UNUSED None None false 0 0 0 0 0 0 (0, 0) (replicate NOFILE None) None [].
Definition boot (e : E) : pst E := mkpst (replicate NPROC blank) 1 None e.

Lemma linv_first k L :
  (forall i l, L !! i = Some l -> i <> k -> l = life_of blank) ->
  L !! k = Some (mkl RUNNABLE None None 1) -> linv k L 2.
Proof.
  intros Hb Hk.
  assert (forall i l, L !! i = Some l -> l_state l <> UNUSED -> i = k /\ l = mkl RUNNABLE None None 1) as Hu.
  { intros i l Hl Hn. destruct (decide (i = k)) as [->|Hne]; [split; congruence|]. by rewrite (Hb i l Hl Hne) in Hn. }
  split.
  - eexists. split; [exact Hk|done].
  - intros i l Hl Hn Hne. by destruct (Hu i l Hl Hn).
  - intros i l Hl Hn. destruct (decide (i = k)) as [->|Hne]; [rewrite Hk in Hl; injection Hl as <-; done|]. by rewrite (Hb i l Hl Hne).
  - intros i l Hl Hn. destruct (Hu i l Hl Hn) as [_ ->]. cbn. lia.
  - intros i j l l' Hl Hl' Hn Hn' _. destruct (Hu i l Hl Hn), (Hu j l' Hl' Hn'). congruence.
  - intros i l Hl Hs. destruct (Hu i l Hl) as [_ ->]; [congruence|]. done.
Qed.

Lemma userinit_inv code e s0 : userinit trampoline forkret code (boot e) = Ok tt s0 -> proc_inv s0.
Proof.
  revert s0.
  enough (post (userinit trampoline forkret code) (boot e) (fun _ s0 => proc_inv s0)) as H by (intros s0; apply H).
  unfold userinit. apply post_bind, post_allocproc; [done|]. intros k r s1 (l & Hl & _ & L1 & N1 & _) [-> | ->]; [|done].
  assert (l = life_of blank) as ->.
  { unfold lives, boot in Hl. cbn [procs] in Hl. rewrite fmap_replicate in Hl. by apply lookup_replicate in Hl as [-> _]. }
  apply post_bind. intros [] s2 [= <-]. set (s2 := mkpst _ _ _ _). change (lives s1) with (lives s2) in L1. change (nextpid s1) with (nextpid s2) in N1.
  apply post_calm; [calm|]. intros p s3 S3. apply post_calm; [calm|]. intros _ s4 S4. apply post_calm; [calm|]. intros _ s5 S5.
  apply post_calm; [calm|]. intros _ s6 S6. apply post_calm; [calm|]. intros _ s7 S7. apply post_calm; [calm|]. intros _ s8 S8.
  apply post_calm; [calm|]. intros c s9 S9.
  assert (same_life s2 s9) as (L9 & N9 & I9) by (destruct S3 as (?&?&?), S4 as (?&?&?), S5 as (?&?&?), S6 as (?&?&?), S7 as (?&?&?), S8 as (?&?&?), S9 as (?&?&?); repeat split; congruence).
  apply (post_mod _ _ (fun l => mkl RUNNABLE (l_parent l) (l_chan l) (l_pid l))); [done|]. intros l s10 Hl10 L10 N10 I10.
  exists k. rewrite I10, I9. split; [done|]. rewrite N10, N9, N1. change (s32 (nextpid (boot e) + 1)) with 2. split; [|lia].
  assert (k < length (lives (boot e)))%nat as Hk by (by eapply lookup_lt_Some).
  rewrite L10, L9, L1 in *. rewrite list_lookup_insert_eq in Hl10 by done. injection Hl10 as <-. rewrite list_insert_insert_eq.
  apply linv_first; [|by apply list_lookup_insert_eq].
  intros i l Hi Hne. rewrite list_lookup_insert_ne in Hi by done. unfold lives, boot in Hi. cbn [procs] in Hi.
  rewrite fmap_replicate in Hi. by apply lookup_replicate in Hi as [-> _].
Qed.

End lives.

(** ** Examples *)

(** An environment in which every call succeeds. *)
#[export] Instance toy_env : ProcEnv unit := {
  pe_ufkalloc := ret 4096;
  pe_ufkfree _ := ret tt;
  pe_uvmcreate := ret 8192;
  pe_mappages _ _ _ _ _ := ret 0;
  pe_uvmunmap _ _ _ _ := ret tt;
  pe_uvmfree _ _ := ret tt;
  pe_uvmcopy _ _ _ := ret 0;
  pe_uvminit _ _ := ret tt;
  pe_uvmalloc _ _ n := ret n;
  pe_uvmdealloc _ _ n := ret n;
  pe_copyout _ _ _ := ret 0;
  pe_tf_copy _ _ := ret tt;
  pe_tf_set _ _ _ := ret tt;
  pe_filedup f := ret f;
  pe_fileclose _ := ret tt;
  pe_idup d := ret d;
  pe_iput _ := ret tt;
  pe_root := ret 0%nat }.

Definition outcome_state {S A} (o : outcome S A) (d : S) : S := match o with Ok _ s => s | _ => d end.
Definition wit_boot : pst unit := outcome_state (userinit 0 0 [] (boot tt)) (boot tt).


(** ** An exit that init does not notice *)

(** init (0) waits, its child (1) has a child (2).  Process 2 is in [exit] and has read
    its parent; process 1 exits, so that 2 becomes a child of init; init reaps
    process 1 and waits again; then process 2 goes on. *)
Definition exit_race : M (pst unit) unit :=
  schedule 0;; _ ← fork 0 0 0;
  schedule 1;; _ ← fork 0 0 1;
  _ ← wait 0 0;
  schedule 2;;
  exit_begin 2;;
  schedule 0;; _ ← wait 0 0;
  o ← exit_parent 2;
  exit 1 0;;
  schedule 0;; _ ← wait 0 0;
  _ ← wait 0 0;
  exit_end 2 o 7.


(** [kill(0)].  An unused slot has pid 0, so [kill(0)] finds it, sets its
    [killed] flag and returns success; [allocproc] does not clear the flag, so
    that the next process created in the slot is killed when it first returns to
    user space. *)
Theorem kill_zero_kills_next_child :
  exists s q, (schedule 0;; r ← kill 0; c ← fork 0 0 0; ret (r, c)) wit_boot = Ok (0, 2) s /\
    procs s !! 1%nat = Some q /\ state q = RUNNABLE /\ pid q = 2 /\ killed q = true.
Proof. eexists _, _. vm_compute. repeat split. Qed.
