(* ===== verification/ULib.v ===== *)
(** Functions of the user library (user/ulib/ulib.c).

    An object in memory is the list of its bytes, a pointer into it an offset.  A
    string ends at its first zero byte; reading on past the end of the object is
    [Undef]. *)

From S2P Require Import Prelude.

(** * Strings in an object *)

(** The string at the start of [l]; [None] if no zero byte ends it. *)
Fixpoint cstring (l : bytes) : option bytes :=
  match l with
  | [] => None
  | c :: l' => if c =? 0 then Some [] else cons c <$> cstring l'
  end.

Inductive found : Type :=
| At (i : nat)
| Nowhere
| Past.

(** [strchr]: the loop [for(; *s; s++)] over the bytes at [s]. *)
Fixpoint strchr (s : bytes) (c : Z) : found :=
  match s with
  | [] => Past
  | x :: s' =>
      if x =? 0 then Nowhere
      else if x =? c then At 0
      else match strchr s' c with At i => At (S i) | r => r end
  end.

(** [strlen]: the loop [for(n = 0; s[n]; n++)]; [None] if it runs past the object. *)
Fixpoint strlen (s : bytes) : option nat :=
  match s with
  | [] => None
  | x :: s' => if x =? 0 then Some O else S <$> strlen s'
  end.

(** [memmove] of the user library copies forwards only. *)
Fixpoint memmove_loop (n dst src : nat) (l : bytes) : option bytes :=
  match n with
  | O => Some l
  | S n' =>
      match l !! src with
      | None => None
      | Some x =>
          if decide (dst < length l)%nat
          then memmove_loop n' (S dst) (S src) (<[dst := x]> l)
          else None
      end
  end.

Definition memmove (dst src n : nat) (l : bytes) : option bytes := memmove_loop n dst src l.

(** * Lemmas *)

Lemma cstring_app s l : Forall (fun c => c <> 0) s -> cstring (s ++ 0 :: l) = Some s.
Proof.
  induction 1 as [|c s Hc _ IH]; [done|]. simpl. rewrite IH.
  by destruct (Z.eqb_spec c 0).
Qed.

Lemma strlen_app s l : Forall (fun c => c <> 0) s -> strlen (s ++ 0 :: l) = Some (length s).
Proof.
  induction 1 as [|c s Hc _ IH]; [done|]. simpl. rewrite IH.
  by destruct (Z.eqb_spec c 0).
Qed.

Lemma strchr_at s c l :
  c <> 0 -> Forall (fun x => x <> 0 /\ x <> c) s -> strchr (s ++ c :: l) c = At (length s).
Proof.
  intros Hc. induction 1 as [|x s [Hx Hxc] _ IH]; simpl.
  - destruct (Z.eqb_spec c 0); [done|]. by rewrite Z.eqb_refl.
  - rewrite IH. destruct (Z.eqb_spec x 0); [done|]. by destruct (Z.eqb_spec x c).
Qed.

Lemma strchr_nowhere s c l :
  Forall (fun x => x <> 0 /\ x <> c) s -> strchr (s ++ 0 :: l) c = Nowhere.
Proof.
  induction 1 as [|x s [Hx Hxc] _ IH]; [done|]. simpl. rewrite IH.
  destruct (Z.eqb_spec x 0); [done|]. by destruct (Z.eqb_spec x c).
Qed.

(** A forward copy to a lower address moves the bytes as they were. *)
Lemma memmove_down n dst src l :
  (dst <= src)%nat -> (src + n <= length l)%nat ->
  memmove dst src n l = Some (upd_bytes dst (sub_bytes src n l) l).
Proof.
  unfold memmove. revert dst src l. induction n as [|n IH]; intros dst src l Hle Hlen; simpl.
  - f_equal. unfold upd_bytes, sub_bytes. simpl. by rewrite Nat.add_0_r, take_drop.
  - destruct (lookup_lt_is_Some_2 l src) as [x Hx]; [lia|]. rewrite Hx.
    rewrite decide_True by lia.
    rewrite IH by (rewrite ?length_insert; lia). f_equal.
    assert (Hs : forall m o, (o <= length l)%nat -> (o + m <= length l)%nat ->
      length (sub_bytes o m l) = m) by (intros; apply length_sub_bytes; lia).
    apply list_eq. intros i.
    rewrite !lookup_upd_bytes by (rewrite ?length_insert; rewrite !length_sub_bytes by (rewrite ?length_insert; lia); lia).
    rewrite !length_sub_bytes by (rewrite ?length_insert; lia).
    rewrite !lookup_sub_bytes.
    destruct (decide (dst = i)) as [->|Hd].
    + rewrite decide_False by lia. rewrite list_lookup_insert_eq by lia.
      rewrite decide_True by lia. rewrite decide_True by lia. by rewrite Nat.sub_diag, Nat.add_0_r.
    + destruct (decide (S dst <= i < S dst + n)%nat).
      * rewrite (decide_True (P := (dst <= i < dst + S n)%nat)) by lia.
        rewrite !decide_True by lia. rewrite list_lookup_insert_ne by lia. f_equal. lia.
      * rewrite (decide_False (P := (dst <= i < dst + S n)%nat)) by lia.
        by rewrite list_lookup_insert_ne by lia.
Qed.
