(* ===== verification/Grep.v ===== *)
(** The pattern matcher and the line loop of user/grep.c.

    [match_], [matchhere] and [matchstar] work on strings; a pointer into a string is
    the rest of the string from there, and the end of the list is the terminating
    zero.  [grep] reads its input in pieces of any size into a buffer of 1024 bytes
    and prints the lines that match. *)

From S2P Require Import Prelude ULib.

(** * The matcher *)

Definition CARET : Z := 94.
Definition STAR : Z := 42.
Definition DOLLAR : Z := 36.
Definition DOT : Z := 46.
Definition NL : Z := 10.

(** The [do]-[while] loop of [matchstar]; [here] is [matchhere] of the rest of the
    pattern. *)
Fixpoint matchstar (c : Z) (here : bytes -> bool) (text : bytes) : bool :=
  if here text then true
  else match text with
       | [] => false
       | t :: text' => if (t =? c) || (c =? DOT) then matchstar c here text' else false
       end.

Fixpoint matchhere (re text : bytes) {struct re} : bool :=
  match re with
  | [] => true
  | c :: re1 =>
      let single :=
        if (c =? DOLLAR) && (match re1 with [] => true | _ => false end)
        then match text with [] => true | _ => false end
        else match text with
             | [] => false
             | t :: text' => if (c =? DOT) || (c =? t) then matchhere re1 text' else false
             end in
      match re1 with
      | s :: re2 => if s =? STAR then matchstar c (matchhere re2) text else single
      | [] => single
      end
  end.

Fixpoint match_loop (re text : bytes) : bool :=
  if matchhere re text then true
  else match text with [] => false | _ :: text' => match_loop re text' end.

Definition match_ (re text : bytes) : bool :=
  match re with
  | c :: re1 => if c =? CARET then matchhere re1 text else match_loop re text
  | [] => match_loop re text
  end.

(** * What a pattern means

    A pattern is a sequence of items, with an anchor at each end.  An item is a
    character or any character, once or any number of times. *)

Inductive item : Type :=
| One (c : Z)
| Many (c : Z).

(** The characters that [c] stands for. *)
Definition stands_for (c t : Z) : Prop := c = DOT \/ c = t.

Fixpoint items (re : bytes) : list item * bool :=
  match re with
  | [] => ([], false)
  | c :: re1 =>
      match re1 with
      | [] => if c =? DOLLAR then ([], true) else ([One c], false)
      | s :: re2 =>
          if s =? STAR then let '(l, e) := items re2 in (Many c :: l, e)
          else let '(l, e) := items re1 in (One c :: l, e)
      end
  end.

(** The words of a sequence of items: concatenation and iteration. *)
Inductive word : list item -> bytes -> Prop :=
| word_nil : word [] []
| word_one c t l w : stands_for c t -> word l w -> word (One c :: l) (t :: w)
| word_many c u l w : Forall (stands_for c) u -> word l w -> word (Many c :: l) (u ++ w).

(** [text] starts with a word of the pattern. *)
Definition starts_with (re text : bytes) : Prop :=
  exists w rest, text = w ++ rest /\ word (items re).1 w /\ ((items re).2 = true -> rest = []).

Definition matches (re text : bytes) : Prop :=
  match re with
  | c :: re1 =>
      if c =? CARET then starts_with re1 text
      else exists pre text', text = pre ++ text' /\ starts_with re text'
  | [] => exists pre text', text = pre ++ text' /\ starts_with re text'
  end.

(** * The matcher decides the meaning *)

Lemma matchstar_spec c here text :
  matchstar c here text = true <->
  exists u rest, text = u ++ rest /\ Forall (stands_for c) u /\ here rest = true.
Proof.
  induction text as [|t text IH]; simpl.
  - destruct (here []) eqn:E; split; try done.
    + intros _. by exists [], [].
    + intros (u & rest & Hu & _ & Hh). symmetry in Hu. apply app_eq_nil in Hu as [-> ->]. congruence.
  - destruct (here (t :: text)) eqn:E.
    { split; [|done]. intros _. by exists [], (t :: text). }
    assert (Ht : (t =? c) || (c =? DOT) = true <-> stands_for c t).
    { rewrite orb_true_iff, !Z.eqb_eq. unfold stands_for. naive_solver. }
    destruct ((t =? c) || (c =? DOT)) eqn:Eb.
    + rewrite IH. split.
      * intros (u & rest & -> & Hu & Hh). exists (t :: u), rest. repeat split; [|done].
        constructor; [by apply Ht|done].
      * intros (u & rest & Heq & Hu & Hh). destruct u as [|x u]; simplify_eq/=; [congruence|].
        exists u, rest. by apply Forall_cons_1 in Hu as [_ Hu].
    + split; [done|]. intros (u & rest & Heq & Hu & Hh). destruct u as [|x u]; simplify_eq/=; [congruence|].
      apply Forall_cons_1 in Hu as [Hx _]. by apply Ht in Hx.
Qed.

Lemma starts_with_many c re text :
  starts_with (c :: STAR :: re) text <->
  exists u rest, text = u ++ rest /\ Forall (stands_for c) u /\ starts_with re rest.
Proof.
  unfold starts_with. simpl. destruct (items re) as [l e]. simpl. split.
  - intros (w & rest & -> & Hw & He). inversion Hw as [| |? u ? w' Hu Hw']; subst.
    exists u, (w' ++ rest). rewrite app_assoc. split; [done|]. split; [done|]. by exists w', rest.
  - intros (u & r & -> & Hu & w & rest & -> & Hw & He).
    exists (u ++ w), rest. rewrite app_assoc. split; [done|]. split; [by constructor|done].
Qed.

Lemma starts_with_one c re text :
  (forall re2, re <> STAR :: re2) -> (c =? DOLLAR) && (match re with [] => true | _ => false end) = false ->
  starts_with (c :: re) text <->
  exists t text', text = t :: text' /\ stands_for c t /\ starts_with re text'.
Proof.
  intros Hs Hd. unfold starts_with.
  assert (Hi : items (c :: re) = (One c :: (items re).1, (items re).2)).
  { cbn [items]. destruct re as [|s re2].
    - by rewrite andb_true_r in Hd; rewrite Hd.
    - destruct (Z.eqb_spec s STAR) as [->|]; [by destruct (Hs re2)|].
      by destruct (items (s :: re2)). }
  rewrite Hi. simpl. split.
  - intros (w & rest & -> & Hw & He). inversion Hw as [|? t ? w' Ht Hw'|]; subst.
    exists t, (w' ++ rest). split; [done|]. split; [done|]. by exists w', rest.
  - intros (t & text' & -> & Ht & w & rest & -> & Hw & He).
    exists (t :: w), rest. split; [done|]. split; [by constructor|done].
Qed.

Lemma starts_with_dollar text : starts_with [DOLLAR] text <-> text = [].
Proof.
  unfold starts_with. simpl. split.
  - intros (w & rest & -> & Hw & He). inversion Hw; subst. by rewrite He.
  - intros ->. exists [], []. repeat split; constructor.
Qed.

(** One step of [matchhere] at a character that no star follows. *)
Definition here_single (c : Z) (re1 text : bytes) : bool :=
  if (c =? DOLLAR) && (match re1 with [] => true | _ => false end)
  then match text with [] => true | _ => false end
  else match text with
       | [] => false
       | t :: text' => if (c =? DOT) || (c =? t) then matchhere re1 text' else false
       end.

Lemma matchhere_last c text : matchhere [c] text = here_single c [] text.
Proof. done. Qed.

Lemma matchhere_cons c s re2 text :
  matchhere (c :: s :: re2) text =
  if s =? STAR then matchstar c (matchhere re2) text else here_single c (s :: re2) text.
Proof. done. Qed.

Lemma matchhere_single c re text :
  (forall text, matchhere re text = true <-> starts_with re text) ->
  (forall re2, re <> STAR :: re2) ->
  here_single c re text = true <-> starts_with (c :: re) text.
Proof.
  intros IH Hs. unfold here_single. destruct ((c =? DOLLAR) && _) eqn:Ed.
  - apply andb_true_iff in Ed as [Hc Hre]. apply Z.eqb_eq in Hc as ->. destruct re; [|done].
    rewrite starts_with_dollar. by destruct text.
  - rewrite starts_with_one by done. destruct text as [|t text].
    { split; [done|]. by intros (? & ? & ? & _). }
    assert (Ht : (c =? DOT) || (c =? t) = true <-> stands_for c t)
      by (rewrite orb_true_iff, !Z.eqb_eq; done).
    destruct ((c =? DOT) || (c =? t)) eqn:Eb.
    + rewrite IH. split; [|naive_solver]. intros. exists t, text. naive_solver.
    + split; [done|]. intros (? & ? & ? & Hx & _). simplify_eq. by apply Ht in Hx.
Qed.

Lemma matchhere_spec re text : matchhere re text = true <-> starts_with re text.
Proof.
  revert text.
  induction re as [re IH] using (well_founded_induction (Wf_nat.well_founded_ltof _ length)).
  intros text. unfold Wf_nat.ltof in IH. destruct re as [|c [|s re2]];
    [|rewrite matchhere_last|rewrite matchhere_cons].
  - split; [|done]. intros _. exists [], text. repeat split; [constructor|done].
  - apply matchhere_single; [|done]. intros. apply IH. simpl. lia.
  - destruct (Z.eqb_spec s STAR) as [->|Hs].
    + rewrite matchstar_spec, starts_with_many. setoid_rewrite IH; [done|simpl; lia].
    + apply (matchhere_single c (s :: re2) text); [|naive_solver]. intros. apply IH. simpl. lia.
Qed.

Lemma match_loop_spec re text :
  match_loop re text = true <-> exists pre text', text = pre ++ text' /\ starts_with re text'.
Proof.
  induction text as [|t text IH]; cbn [match_loop].
  - destruct (matchhere re []) eqn:E; split; try done.
    + intros _. exists [], []. split; [done|]. by apply matchhere_spec.
    + intros (pre & text' & Heq & Hs). symmetry in Heq. apply app_eq_nil in Heq as [-> ->].
      apply matchhere_spec in Hs. congruence.
  - destruct (matchhere re (t :: text)) eqn:E.
    { split; [|done]. intros _. exists [], (t :: text). split; [done|]. by apply matchhere_spec. }
    rewrite IH. split.
    + intros (pre & text' & -> & Hs). by exists (t :: pre), text'.
    + intros (pre & text' & Heq & Hs). destruct pre as [|x pre]; simplify_eq/=; [|by exists pre, text'].
      apply matchhere_spec in Hs. congruence.
Qed.

(** C33: [match] of grep.c is the search for a pattern: it answers yes exactly when some
    part of the text is a word of the pattern read as a regular expression (with
    [^] and [$] as anchors, [.] as any character and [*] as iteration).  The
    backtracking of [matchstar] misses no match, and the recursion always returns. *)
Theorem grep_match_language re text : match_ re text = true <-> matches re text.
Proof.
  unfold match_, matches. destruct re as [|c re]; [apply match_loop_spec|].
  destruct (c =? CARET); [apply matchhere_spec|apply match_loop_spec].
Qed.

(** * The line loop *)

Definition BUFSZ : nat := 1024.

(** What a file descriptor delivers: the bytes left, and how many of them each call of
    [read] gives at most (no more entries: as many as asked for; 0: the call fails). *)
Record input := mkinput { idata : bytes; ichunks : list nat }.

Record gst := mkgst { gbuf : bytes; gin : input; gout : bytes }.

(** [read(fd, buf+m, n)] *)
Definition read (m n : nat) : M gst Z := fun s =>
  let i := gin s in
  match ichunks i with
  | O :: ks => Ok (-1) (mkgst (gbuf s) (mkinput (idata i) ks) (gout s))
  | ks =>
      let k := match ks with [] => n | k :: _ => Nat.min k n end in
      let d := take k (idata i) in
      if decide (m + length d <= length (gbuf s))%nat
      then Ok (Z.of_nat (length d))
              (mkgst (upd_bytes m d (gbuf s)) (mkinput (drop k (idata i)) (tail ks)) (gout s))
      else Undef
  end.

Definition set_byte (q : nat) (v : Z) : M gst unit := fun s =>
  if decide (q < length (gbuf s))%nat
  then Ok tt (mkgst (<[q := v]> (gbuf s)) (gin s) (gout s))
  else Undef.

(** [write(1, p, n)]: the output takes all bytes. *)
Definition write (p n : nat) : M gst unit := fun s =>
  Ok tt (mkgst (gbuf s) (gin s) (gout s ++ sub_bytes p n (gbuf s))).

(** The inner loop over the complete lines in the buffer; returns [p]. *)
Fixpoint grep_lines (fuel : nat) (pattern : bytes) (p : nat) : M gst nat :=
  match fuel with
  | O => nofuel
  | S fuel' =>
      b ← gets gbuf;
      match strchr (drop p b) NL with
      | Past => undef
      | Nowhere => ret p
      | At i =>
          let q := (p + i)%nat in
          set_byte q 0;;
          b' ← gets gbuf;
          match cstring (drop p b') with
          | None => undef
          | Some text =>
              when (match_ pattern text) (set_byte q NL;; write p (q + 1 - p));;
              grep_lines fuel' pattern (q + 1)
          end
      end
  end.

Definition buf_memmove (dst src n : nat) : M gst unit := fun s =>
  match memmove dst src n (gbuf s) with
  | Some b => Ok tt (mkgst b (gin s) (gout s))
  | None => Undef
  end.

Fixpoint grep_loop (fuel : nat) (pattern : bytes) (m : nat) : M gst unit :=
  match fuel with
  | O => nofuel
  | S fuel' =>
      n ← read m (BUFSZ - m - 1);
      if 0 <? n then
        let m := (m + Z.to_nat n)%nat in
        set_byte m 0;;
        p ← grep_lines (S BUFSZ) pattern 0;
        m' ← (if (0 <? m)%nat then (buf_memmove 0 p (m - p);; ret (m - p)%nat) else ret m);
        grep_loop fuel' pattern m'
      else ret tt
  end.

(** Every call of [read] that does not end the loop takes a byte of the input. *)
Definition grep (pattern : bytes) : M gst unit := fun s =>
  grep_loop (S (length (idata (gin s)))) pattern 0 s.

(** * What grep prints *)

(** The complete lines of the input, and what follows the last one. *)
Fixpoint lines_of (d : bytes) : list bytes * bytes :=
  match d with
  | [] => ([], [])
  | c :: d' =>
      let '(ls, r) := lines_of d' in
      if c =? NL then ([] :: ls, r)
      else match ls with
           | [] => ([], c :: r)
           | l :: ls' => ((c :: l) :: ls', r)
           end
  end.

Definition matching_lines (re : bytes) (d : bytes) : bytes :=
  concat (map (fun l => if match_ re l then l ++ [NL] else []) (lines_of d).1).

Abbreviation no_nl := (Forall (fun c => c <> NL)).
Abbreviation no_nul := (Forall (fun c => c <> 0)).

Lemma lines_of_none r : no_nl r -> lines_of r = ([], r).
Proof.
  induction 1 as [|c r Hc _ IH]; [done|]. simpl. rewrite IH.
  by destruct (Z.eqb_spec c NL).
Qed.

Lemma lines_of_line l d : no_nl l -> lines_of (l ++ NL :: d) = (l :: (lines_of d).1, (lines_of d).2).
Proof.
  induction 1 as [|c l Hc _ IH]; simpl; [by destruct (lines_of d)|].
  rewrite IH. by destruct (Z.eqb_spec c NL).
Qed.

Lemma first_line d : no_nl d \/ exists l d', d = l ++ NL :: d' /\ no_nl l.
Proof.
  induction d as [|c d IH]; [by left|]. destruct (decide (c = NL)) as [->|Hc].
  - right. by exists [], d.
  - destruct IH as [IH|(l & d' & -> & Hl)]; [left; by constructor|].
    right. exists (c :: l), d'. split; [done|by constructor].
Qed.

Lemma lines_of_ind (P : bytes -> Prop) :
  (forall r, no_nl r -> P r) -> (forall l d, no_nl l -> P d -> P (l ++ NL :: d)) -> forall d, P d.
Proof.
  intros Hr Hl d. induction d as [d IH] using (well_founded_induction (Wf_nat.well_founded_ltof _ length)).
  destruct (first_line d) as [H|(l & d' & -> & H)]; [by apply Hr|].
  apply Hl; [done|]. apply IH. unfold Wf_nat.ltof. rewrite length_app. simpl. lia.
Qed.

Lemma lines_of_rest d :
  no_nl (lines_of d).2 /\ exists pre, d = pre ++ (lines_of d).2.
Proof.
  induction d as [r Hr|l d Hl (Hn & pre & IH)] using lines_of_ind.
  - rewrite lines_of_none by done. split; [done|by exists []].
  - rewrite lines_of_line by done. split; [done|]. exists (l ++ NL :: pre).
    rewrite <-app_assoc. simpl. by rewrite <-IH.
Qed.

(** Lines found in a first part of the input stay; the rest is continued by what follows. *)
Lemma lines_of_app d e :
  (lines_of (d ++ e)).1 = (lines_of d).1 ++ (lines_of ((lines_of d).2 ++ e)).1.
Proof.
  induction d as [r Hr|l d Hl IH] using lines_of_ind.
  - by rewrite (lines_of_none r).
  - rewrite <-app_assoc. simpl. rewrite !lines_of_line by done. simpl. by rewrite IH.
Qed.

Lemma matching_lines_app re d e :
  matching_lines re (d ++ e) = matching_lines re d ++ matching_lines re ((lines_of d).2 ++ e).
Proof. unfold matching_lines. by rewrite lines_of_app, map_app, concat_app. Qed.

Lemma matching_lines_line re l d :
  no_nl l -> matching_lines re (l ++ NL :: d) = (if match_ re l then l ++ [NL] else []) ++ matching_lines re d.
Proof. intros. unfold matching_lines. by rewrite lines_of_line. Qed.

Lemma Forall_nl_nul d : no_nl d -> no_nul d -> Forall (fun x => x <> 0 /\ x <> NL) d.
Proof. rewrite !Forall_forall. naive_solver. Qed.

Lemma drop_pre (pre l : bytes) : drop (length pre) (pre ++ l) = l.
Proof. apply drop_app_length. Qed.

Lemma set_byte_ok q v s pre x post :
  gbuf s = pre ++ x :: post -> length pre = q ->
  set_byte q v s = Ok tt (mkgst (pre ++ v :: post) (gin s) (gout s)).
Proof.
  intros Hb <-. unfold set_byte. rewrite Hb, decide_True by (rewrite length_app; simpl; lia).
  do 2 f_equal. by rewrite insert_app_r_alt, Nat.sub_diag by lia.
Qed.

Lemma sub_bytes_mid pre l post : sub_bytes (length pre) (length l) (pre ++ l ++ post) = l.
Proof. unfold sub_bytes. by rewrite drop_app_length, take_app_length. Qed.

(** The terminator of the line that was looked at: a line that was printed has its newline back. *)
Definition line_end (re l : bytes) : Z := if match_ re l then NL else 0.

Lemma print_line_ok re l pre post i o :
  when (match_ re l) (set_byte (length pre + length l) NL;;
    write (length pre) (length pre + length l + 1 - length pre))
    (mkgst (pre ++ l ++ 0 :: post) i o) =
  Ok tt (mkgst ((pre ++ l ++ [line_end re l]) ++ post) i (o ++ (if match_ re l then l ++ [NL] else []))).
Proof.
  unfold when, line_end. destruct (match_ re l).
  - unfold bind. rewrite (set_byte_ok _ _ _ (pre ++ l) 0 post)
      by (cbn [gbuf]; rewrite ?length_app, <-?app_assoc; done).
    unfold write. cbn [gbuf gin gout]. do 2 f_equal.
    + by rewrite <-!app_assoc.
    + f_equal. replace (length pre + length l + 1 - length pre)%nat with (length (l ++ [NL])) by (rewrite length_app; simpl; lia).
      replace ((pre ++ l) ++ NL :: post) with (pre ++ (l ++ [NL]) ++ post) by by rewrite <-!app_assoc.
      apply sub_bytes_mid.
  - unfold ret. do 2 f_equal; [by rewrite <-!app_assoc|by rewrite app_nil_r].
Qed.

(** The inner loop prints the matching lines and stops at the start of the incomplete one. *)
Lemma grep_lines_ok re d fuel pre post s :
  gbuf s = pre ++ d ++ 0 :: post -> no_nul d -> (length d < fuel)%nat ->
  exists pre', length pre' = (length pre + (length d - length (lines_of d).2))%nat /\
    grep_lines fuel re (length pre) s =
    Ok (length pre')
       (mkgst (pre' ++ (lines_of d).2 ++ 0 :: post) (gin s) (gout s ++ matching_lines re d)).
Proof.
  revert fuel pre s. induction d as [r Hr|l d Hl IH] using lines_of_ind; intros fuel pre s Hb Hz Hf.
  - destruct fuel as [|fuel]; [lia|]. exists pre. rewrite lines_of_none by done. simpl.
    rewrite Nat.sub_diag, Nat.add_0_r. split; [done|].
    unfold bind, gets. rewrite Hb, drop_pre, strchr_nowhere by by apply Forall_nl_nul.
    unfold matching_lines. rewrite lines_of_none by done. simpl. rewrite app_nil_r, <-Hb. by destruct s.
  - apply Forall_app in Hz as [Hzl Hzd]. apply Forall_cons_1 in Hzd as [_ Hzd].
    rewrite length_app in Hf. simpl in Hf. destruct fuel as [|fuel]; [lia|].
    rewrite <-app_assoc in Hb. simpl in Hb.
    cbn [grep_lines]. unfold bind at 1, gets at 1. cbv beta.
    rewrite Hb, drop_pre, strchr_at by (done || by apply Forall_nl_nul).
    unfold bind at 1. rewrite (set_byte_ok _ _ _ (pre ++ l) NL (d ++ 0 :: post))
      by (rewrite ?length_app, <-?app_assoc; done).
    unfold bind at 1, gets at 1. cbv beta. cbn [gbuf].
    rewrite <-app_assoc, drop_pre. simpl. rewrite cstring_app by done.
    unfold bind at 1. rewrite print_line_ok. set (s' := mkgst _ _ _).
    destruct (IH fuel (pre ++ l ++ [line_end re l]) s') as (pre' & Hlen & E); [done|done|lia|].
    assert (Hp : length (pre ++ l ++ [line_end re l]) = (length pre + length l + 1)%nat)
      by (rewrite !length_app; simpl; lia).
    rewrite Hp in Hlen, E. exists pre'. rewrite lines_of_line by done. simpl. split.
    { rewrite Hlen, length_app. simpl. destruct (lines_of_rest d) as [_ [q Hq]].
      apply (f_equal length) in Hq. rewrite length_app in Hq. lia. }
    rewrite E. unfold s'. simpl. rewrite matching_lines_line by done. by rewrite <-app_assoc.
Qed.

(** A call of [read] that finds input and room gives a nonempty piece of the input. *)
Lemma read_ok r post s :
  gbuf s = r ++ post -> (length r < BUFSZ - 1)%nat -> length (gbuf s) = BUFSZ ->
  Forall (fun k => 0 < k)%nat (ichunks (gin s)) -> idata (gin s) <> [] ->
  exists d d' x post' ks, idata (gin s) = d ++ d' /\ d <> [] /\ (length (r ++ d) < BUFSZ)%nat /\
    Forall (fun k => 0 < k)%nat ks /\
    read (length r) (BUFSZ - length r - 1) s =
    Ok (Z.of_nat (length d)) (mkgst (r ++ d ++ x :: post') (mkinput d' ks) (gout s)) /\
    length (r ++ d ++ x :: post') = BUFSZ.
Proof.
  intros Hb Hr Hl Hk Hne. unfold read.
  set (k := match ichunks (gin s) with [] => (BUFSZ - length r - 1)%nat | k :: _ => Nat.min k (BUFSZ - length r - 1) end).
  assert (Hk0 : (0 < k <= BUFSZ - length r - 1)%nat).
  { unfold k. destruct (ichunks (gin s)); [lia|]. apply Forall_cons_1 in Hk as [? _]. lia. }
  set (d := take k (idata (gin s))).
  assert (Hd : (length d <= k)%nat) by (unfold d; rewrite length_take; lia).
  assert (Hlp : length post = (BUFSZ - length r)%nat) by (rewrite Hb, length_app in Hl; lia).
  destruct (drop (length d) post) as [|x post'] eqn:Ed.
  { apply (f_equal length) in Ed. rewrite length_drop in Ed. simpl in Ed. lia. }
  exists d, (drop k (idata (gin s))), x, post', (tail (ichunks (gin s))).
  assert (Hnew : upd_bytes (length r) d (gbuf s) = r ++ d ++ x :: post').
  { rewrite Hb. unfold upd_bytes. rewrite take_app_length, drop_app_ge by lia.
    replace (length r + length d - length r)%nat with (length d) by lia. by rewrite Ed. }
  split; [by unfold d; rewrite take_drop|]. split.
  { intros E. apply (f_equal length) in E. unfold d in E. rewrite length_take in E. simpl in E.
    destruct (idata (gin s)); [done|]. simpl in E. lia. }
  split; [rewrite length_app; lia|]. split; [destruct (ichunks (gin s)); [done|by apply Forall_cons_1 in Hk as [_ ?]]|].
  split; [|rewrite <-Hnew, length_upd_bytes by lia; done].
  rewrite <-Hnew. destruct (ichunks (gin s)) as [|[|k'] ks] eqn:Ec.
  - fold k d. by rewrite decide_True by lia.
  - apply Forall_cons_1 in Hk as [? _]. lia.
  - fold k d. by rewrite decide_True by lia.
Qed.

Lemma read_end m n s :
  idata (gin s) = [] \/ n = 0%nat -> (m <= length (gbuf s))%nat ->
  Forall (fun k => 0 < k)%nat (ichunks (gin s)) -> exists s', read m n s = Ok 0 s' /\ gout s' = gout s.
Proof.
  intros H Hm Hk. unfold read.
  assert (Hd : forall k, (k <= n)%nat -> take k (idata (gin s)) = []).
  { intros k Hkn. destruct H as [-> | ->]; [by destruct k|]. by replace k with 0%nat by lia. }
  destruct (ichunks (gin s)) as [|[|k] ks].
  - rewrite !Hd by lia. rewrite decide_True by (simpl; lia). eauto.
  - apply Forall_cons_1 in Hk as [? _]. lia.
  - rewrite !Hd by lia. rewrite decide_True by (simpl; lia). eauto.
Qed.

(** A line that fits leaves the buffer: if the buffer is full of an incomplete line, no
    complete line follows. *)
Lemma full_buffer r d :
  no_nl r -> (BUFSZ - 1 <= length r)%nat ->
  Forall (fun l => length l < BUFSZ - 1)%nat (lines_of (r ++ d)).1 -> (lines_of (r ++ d)).1 = [].
Proof.
  intros Hr Hl Hs. destruct (first_line d) as [Hd|(l & d' & -> & Hd)].
  - rewrite lines_of_none; [done|]. by apply Forall_app.
  - rewrite app_assoc in *. rewrite lines_of_line in * by by apply Forall_app.
    cbn [fst] in Hs. apply Forall_cons_1 in Hs as [Hs _]. rewrite length_app in Hs. lia.
Qed.

Lemma grep_loop_ok re fuel r post s :
  gbuf s = r ++ post -> length (gbuf s) = BUFSZ -> (length r < BUFSZ)%nat -> no_nl r ->
  no_nul (r ++ idata (gin s)) -> Forall (fun k => 0 < k)%nat (ichunks (gin s)) ->
  Forall (fun l => length l < BUFSZ - 1)%nat (lines_of (r ++ idata (gin s))).1 ->
  (length (idata (gin s)) < fuel)%nat ->
  exists s', grep_loop fuel re (length r) s = Ok tt s' /\
    gout s' = gout s ++ matching_lines re (r ++ idata (gin s)).
Proof.
  revert r post s. induction fuel as [|fuel IH]; intros r post s Hb Hl Hr Hnl Hz Hk Hs Hf; [lia|].
  cbn [grep_loop].
  destruct (decide (idata (gin s) = [] \/ (BUFSZ - 1 <= length r)%nat)) as [He|He].
  { destruct (read_end (length r) (BUFSZ - length r - 1) s) as (s' & E & Ho); [destruct He; [by left|right; lia]|lia|done|].
    exists s'. unfold bind. rewrite E. split; [done|]. rewrite Ho.
    unfold matching_lines. destruct He as [He|He].
    - by rewrite He, app_nil_r, lines_of_none, app_nil_r.
    - by rewrite full_buffer, app_nil_r by (done || lia). }
  destruct (read_ok r post s) as (d & d' & x & post' & ks & Hd & Hne & Hfit & Hks & E & Hlb); [done|lia|done|done|naive_solver|].
  unfold bind at 1. rewrite E.
  assert (Hd0 : (0 < length d)%nat) by (destruct d; simpl; [done|lia]).
  destruct (Z.ltb_spec 0 (Z.of_nat (length d))); [|lia]. rewrite Nat2Z.id.
  unfold bind at 1. rewrite (set_byte_ok _ _ _ (r ++ d) x post')
    by (cbn [gbuf]; rewrite ?length_app, <-?app_assoc; done).
  cbn [gin gout].
  rewrite Hd in Hz, Hs |- *. rewrite app_assoc in Hz, Hs |- *. apply Forall_app in Hz as [Hz Hz'].
  destruct (grep_lines_ok re (r ++ d) (S BUFSZ) [] post' (mkgst ((r ++ d) ++ 0 :: post') (mkinput d' ks) (gout s)))
    as (pre & Hp & Eg); [done|done|lia|]. simpl length in *.
  unfold bind at 1. rewrite Eg. cbn [gin gout].
  destruct (Nat.ltb_spec 0 (length r + length d)); [|lia].
  set (rest := (lines_of (r ++ d)).2) in *.
  destruct (lines_of_rest (r ++ d)) as [Hrn [q Hq]]. fold rest in Hrn, Hq.
  assert (Hpr : (length pre + length rest = length (r ++ d))%nat) by (apply (f_equal length) in Hq; rewrite (length_app q) in Hq; lia).
  set (b := pre ++ rest ++ 0 :: post').
  assert (Hlen : length b = BUFSZ) by (unfold b; revert Hlb Hpr; rewrite !length_app; simpl; lia).
  replace (length r + length d - length pre)%nat with (length rest) by (rewrite length_app in Hpr; lia).
  set (b' := upd_bytes 0 rest b).
  assert (Em : buf_memmove 0 (length pre) (length rest) (mkgst b (mkinput d' ks) (gout s ++ matching_lines re (r ++ d))) =
    Ok tt (mkgst b' (mkinput d' ks) (gout s ++ matching_lines re (r ++ d)))).
  { unfold buf_memmove. cbn [gbuf]. rewrite memmove_down by (rewrite ?Hlen; rewrite length_app in Hfit, Hpr; lia).
    unfold b', b. by rewrite sub_bytes_mid. }
  unfold bind at 1, bind at 1. rewrite Em. unfold ret.
  destruct (IH rest (drop (length rest) b) (mkgst b' (mkinput d' ks) (gout s ++ matching_lines re (r ++ d)))) as (s' & El & Ho).
  - done.
  - cbn [gbuf]. unfold b'. rewrite length_upd_bytes; [done|]. rewrite Hlen. lia.
  - rewrite length_app in Hfit, Hpr. lia.
  - done.
  - cbn [gin idata]. apply Forall_app. split; [|done]. rewrite Hq in Hz. by apply Forall_app in Hz as [_ ?].
  - done.
  - cbn [gin idata]. rewrite lines_of_app in Hs. by apply Forall_app in Hs as [_ ?].
  - cbn [gin idata]. rewrite Hd, length_app in Hf. lia.
  - exists s'. split; [exact El|]. rewrite Ho. cbn [gout gin idata].
    by rewrite (matching_lines_app re (r ++ d) d'), app_assoc.
Qed.

(** [grep] returns, however the reads cut its input into pieces, and its output is
    exactly the complete lines of the input that match the pattern, in order, for an input
    without zero bytes whose lines fit into the buffer. *)
Theorem grep_prints_matching_lines pattern s :
  length (gbuf s) = BUFSZ -> no_nul (idata (gin s)) ->
  Forall (fun k => 0 < k)%nat (ichunks (gin s)) ->
  Forall (fun l => length l < BUFSZ - 1)%nat (lines_of (idata (gin s))).1 ->
  exists s', grep pattern s = Ok tt s' /\
    gout s' = gout s ++ matching_lines pattern (idata (gin s)).
Proof.
  intros Hl Hz Hk Hs. unfold grep.
  apply (grep_loop_ok pattern _ [] (gbuf s) s); try done; simpl; [unfold BUFSZ; lia|lia].
Qed.

(** Three lines in pieces of 4, 1 and 3 bytes; the pattern is [^a.*c$]. *)
Definition wit_grep : gst :=
  mkgst (replicate BUFSZ 0) (mkinput [97; 98; 99; 10; 98; 99; 10; 97; 99; 10; 97] [4; 1; 3]%nat) [].

Lemma grep_prints_matching_lines_witness :
  (exists s', grep [94; 97; 46; 42; 99; 36] wit_grep = Ok tt s' /\
    gout s' = gout wit_grep ++ matching_lines [94; 97; 46; 42; 99; 36] (idata (gin wit_grep))) /\
  matching_lines [94; 97; 46; 42; 99; 36] (idata (gin wit_grep)) = [97; 98; 99; 10; 97; 99; 10].
Proof.
  split; [|vm_compute; reflexivity].
  apply grep_prints_matching_lines.
  - vm_compute. reflexivity.
  - repeat constructor; done.
  - repeat constructor.
  - repeat constructor; vm_compute; lia.
Defined.
