(* ===== verification/IntMap.v ===== *)
(** The integer map of the user library (user/ulib/intmap.c): a hash table of 128 chains.

    A chain is the list of its nodes; [llookup] finds the place of the link that leads to
    the node of an identifier.  The operations refine a finite map. *)

From S2P Require Import Prelude.

Definition NHASH : Z := 128.

Section intmap.
Context {V : Type}.

(** [struct intlist] and [struct intmap] *)
Abbreviation chain := (list (Z * V)).
Abbreviation intmap := (list chain).

Definition hashid (id : Z) : nat := Z.to_nat (id mod NHASH).

(** [allocmap] does not clear the chains: they are what the memory holds. *)
Definition allocmap (memory : intmap) : intmap := memory.

(** The link that [llookup] stops at: its distance from the head, and the node behind it. *)
Fixpoint link_of (c : chain) (id : Z) : nat * option V :=
  match c with
  | [] => (0%nat, None)
  | (i, v) :: c' => if i =? id then (0%nat, Some v) else let '(k, r) := link_of c' id in (S k, r)
  end.

Definition llookup (m : intmap) (id : Z) : nat * option V := link_of (m !!! hashid id) id.

Definition lookupkey (m : intmap) (id : Z) : option V := (llookup m id).2.

Definition set_chain (m : intmap) (id : Z) (c : chain) : intmap := <[hashid id := c]> m.

(** Returns the old value. *)
Definition insertkey (m : intmap) (id : Z) (v : V) : option V * intmap :=
  let c := m !!! hashid id in
  match llookup m id with
  | (k, Some ov) => (Some ov, set_chain m id (<[k := (id, v)]> c))
  | (_, None) => (None, set_chain m id ((id, v) :: c))
  end.

Definition caninsertkey (m : intmap) (id : Z) (v : V) : bool * intmap :=
  match llookup m id with
  | (_, Some _) => (false, m)
  | (_, None) => (true, set_chain m id ((id, v) :: m !!! hashid id))
  end.

Definition deletekey (m : intmap) (id : Z) : option V * intmap :=
  let c := m !!! hashid id in
  match llookup m id with
  | (k, Some ov) => (Some ov, set_chain m id (take k c ++ drop (S k) c))
  | (_, None) => (None, m)
  end.

(** * The map that a table stands for *)

Record wf_map (m : intmap) : Prop := {
  wf_len : length m = Z.to_nat NHASH;
  wf_place h c i v : m !! h = Some c -> (i, v) ∈ c -> hashid i = h;
  wf_nodup h c : m !! h = Some c -> NoDup c.*1 }.

Lemma hashid_lt m id : wf_map m -> (hashid id < length m)%nat.
Proof.
  intros Hm. rewrite (wf_len m Hm). unfold hashid, NHASH.
  pose proof (Z.mod_pos_bound id 128). lia.
Qed.

Lemma chain_of m id : wf_map m -> m !! hashid id = Some (m !!! hashid id).
Proof. intros Hm. apply list_lookup_lookup_total_lt. by apply hashid_lt. Qed.

Lemma link_of_spec c id :
  NoDup c.*1 ->
  match link_of c id with
  | (k, Some v) => exists c1 c2, c = c1 ++ (id, v) :: c2 /\ k = length c1 /\ (id ∉ c1.*1) /\ (id ∉ c2.*1)
  | (k, None) => id ∉ c.*1
  end.
Proof.
  induction c as [|[i v] c IH]; intros Hd; simpl; [set_solver|].
  apply NoDup_cons in Hd as [Hi Hd]. specialize (IH Hd).
  destruct (Z.eqb_spec i id) as [->|Hne].
  - exists [], c. split; [done|]. split; [done|]. split; [set_solver|done].
  - destruct (link_of c id) as [k [v'|]].
    + destruct IH as (c1 & c2 & -> & -> & H1 & H2). exists ((i, v) :: c1), c2. set_solver.
    + set_solver.
Qed.

(** The table [m] stands for the map [g]: it holds exactly the pairs of [g]. *)
Definition represents (m : intmap) (g : gmap Z V) : Prop :=
  wf_map m /\ forall id v, g !! id = Some v <-> exists c, c ∈ m /\ (id, v) ∈ c.

Lemma in_chain m id v : wf_map m -> (exists c, c ∈ m /\ (id, v) ∈ c) <-> (id, v) ∈ m !!! hashid id.
Proof.
  intros Hm. split.
  - intros (c & Hc & Hv). apply list_elem_of_lookup in Hc as [h Hh].
    pose proof (wf_place m Hm h c id v Hh Hv) as <-. rewrite (chain_of m id Hm) in Hh. by simplify_eq.
  - intros Hv. exists (m !!! hashid id). split; [|done]. eapply list_elem_of_lookup_2, chain_of, Hm.
Qed.

Lemma chain_nodup m id : wf_map m -> NoDup (m !!! hashid id).*1.
Proof. intros Hm. eapply wf_nodup; [done|by apply chain_of]. Qed.

Lemma wf_set_chain m id c :
  wf_map m -> NoDup c.*1 -> (forall i v, (i, v) ∈ c -> hashid i = hashid id) -> wf_map (set_chain m id c).
Proof.
  intros Hm Hd Hp. pose proof (hashid_lt m id Hm). unfold set_chain. split.
  - rewrite length_insert. by apply wf_len.
  - intros h c' i v Hh Hin. destruct (decide (hashid id = h)) as [<-|Hne].
    + rewrite list_lookup_insert_eq in Hh by done. simplify_eq. by eapply Hp.
    + rewrite list_lookup_insert_ne in Hh by done. by eapply wf_place.
  - intros h c' Hh. destruct (decide (hashid id = h)) as [<-|Hne].
    + rewrite list_lookup_insert_eq in Hh by done. by simplify_eq.
    + rewrite list_lookup_insert_ne in Hh by done. by eapply wf_nodup.
Qed.

Lemma chain_set m id c i :
  wf_map m -> (set_chain m id c) !!! hashid i = if decide (hashid i = hashid id) then c else m !!! hashid i.
Proof.
  intros Hm. unfold set_chain. case_decide as H.
  - rewrite H. apply list_lookup_total_insert_eq. by apply hashid_lt.
  - by apply list_lookup_total_insert_ne.
Qed.

Lemma chain_place m id i v : wf_map m -> (i, v) ∈ m !!! hashid id -> hashid i = hashid id.
Proof. intros Hm Hin. eapply wf_place; [done|by apply chain_of|done]. Qed.

(** Replacing the chain of [id] by one that holds [g'] and was [g] changes the map so. *)
Lemma represents_set m g g' id c :
  represents m g -> NoDup c.*1 -> (forall i v, (i, v) ∈ c -> hashid i = hashid id) ->
  (forall i, hashid i <> hashid id -> g' !! i = g !! i) ->
  (forall i v, hashid i = hashid id -> g' !! i = Some v <-> (i, v) ∈ c) ->
  represents (set_chain m id c) g'.
Proof.
  intros [Hm Hg] Hd Hp Hout Hin. split; [by apply wf_set_chain|].
  intros i v. rewrite in_chain by by apply wf_set_chain. rewrite chain_set by done.
  case_decide as H; [by apply Hin|]. rewrite Hout by done. by rewrite Hg, in_chain.
Qed.

Lemma lookup_represents m g id : represents m g -> lookupkey m id = g !! id.
Proof.
  intros [Hm Hg]. unfold lookupkey, llookup.
  pose proof (link_of_spec _ id (chain_nodup m id Hm)) as Hl.
  destruct (link_of (m !!! hashid id) id) as [k [v|]]; simpl.
  - destruct Hl as (c1 & c2 & Ec & _). symmetry. apply Hg, in_chain; [done|]. rewrite Ec. set_solver.
  - symmetry. apply eq_None_not_Some. intros [v Hv]. apply Hg, in_chain in Hv; [|done].
    apply Hl. by apply (list_elem_of_fmap_2 fst) in Hv.
Qed.

Lemma insert_new m g id v :
  represents m g -> g !! id = None -> represents (set_chain m id ((id, v) :: m !!! hashid id)) (<[id := v]> g).
Proof.
  intros [Hm Hg] Hn.
  assert (Hno : forall v', (id, v') ∉ m !!! hashid id).
  { intros v' Hin. apply in_chain, Hg in Hin; [congruence|done]. }
  eapply represents_set; [by split| | | |].
  - simpl. constructor; [|by apply chain_nodup]. intros Hin.
    apply list_elem_of_fmap in Hin as ([i w] & Ei & Hin). simpl in Ei. subst. by eapply Hno.
  - intros i w Hin. apply elem_of_cons in Hin as [Hin|Hin]; [by simplify_eq|by eapply chain_place].
  - intros i Hi. rewrite lookup_insert_ne; [done|]. congruence.
  - intros i w Hi. rewrite elem_of_cons. destruct (decide (i = id)) as [->|Hne].
    + rewrite lookup_insert_eq. split; [intros; simplify_eq; by left|]. intros [?|?]; [by simplify_eq|by exfalso; eapply Hno].
    + rewrite lookup_insert_ne by done. rewrite Hg, in_chain, Hi by done. split; [by right|]. intros [?|?]; [congruence|done].
Qed.

(** * The operations on the map *)

Lemma caninsertkey_spec m g id v :
  represents m g ->
  (caninsertkey m id v).1 = bool_decide (g !! id = None) /\
  represents (caninsertkey m id v).2 (if decide (g !! id = None) then <[id := v]> g else g).
Proof.
  intros Hr. pose proof (lookup_represents m g id Hr) as Hl. unfold lookupkey in Hl. unfold caninsertkey.
  destruct (llookup m id) as [k [ov|]]; simpl in *; rewrite <-Hl.
  - by rewrite decide_False.
  - rewrite decide_True by done. split; [done|]. by apply insert_new.
Qed.

Lemma deletekey_spec m g id :
  represents m g -> (deletekey m id).1 = g !! id /\ represents (deletekey m id).2 (delete id g).
Proof.
  intros Hr. pose proof (lookup_represents m g id Hr) as Hl. unfold lookupkey in Hl. unfold deletekey.
  destruct Hr as [Hm Hg]. pose proof (link_of_spec _ id (chain_nodup m id Hm)) as Hs. fold (llookup m id) in Hs.
  destruct (llookup m id) as [k [ov|]]; simpl in *; (split; [done|]).
  - destruct Hs as (c1 & c2 & Ec & -> & H1 & H2).
    assert (Hc : take (length c1) (m !!! hashid id) ++ drop (S (length c1)) (m !!! hashid id) = c1 ++ c2).
    { rewrite Ec, take_app_length. f_equal. replace (S (length c1)) with (length c1 + 1)%nat by lia.
      by rewrite <-drop_drop, drop_app_length. }
    rewrite Hc. pose proof (chain_nodup m id Hm) as Hd. rewrite Ec, fmap_app in Hd. simpl in Hd.
    eapply represents_set; [by split| | | |].
    + rewrite fmap_app. apply NoDup_app in Hd as (Hd1 & Hd2 & Hd3). apply NoDup_cons in Hd3 as [_ Hd3].
      apply NoDup_app. set_solver.
    + intros i w Hin. apply (chain_place m id i w Hm). rewrite Ec. set_solver.
    + intros i Hi. rewrite lookup_delete_ne; [done|]. congruence.
    + intros i w Hi. destruct (decide (i = id)) as [->|Hne].
      * rewrite lookup_delete_eq. split; [done|]. intros Hin. exfalso. apply elem_of_app in Hin as [Hin|Hin].
        -- by apply H1, (list_elem_of_fmap_2 fst _ _ Hin).
        -- by apply H2, (list_elem_of_fmap_2 fst _ _ Hin).
      * rewrite lookup_delete_ne by done. rewrite Hg, in_chain, Hi, Ec by done. rewrite !elem_of_app, elem_of_cons. naive_solver.
  - rewrite delete_id by done. by split.
Qed.

Lemma insertkey_spec m g id v :
  represents m g -> (insertkey m id v).1 = g !! id /\ represents (insertkey m id v).2 (<[id := v]> g).
Proof.
  intros Hr. pose proof (lookup_represents m g id Hr) as Hl. unfold lookupkey in Hl. unfold insertkey.
  pose proof Hr as [Hm Hg]. pose proof (link_of_spec _ id (chain_nodup m id Hm)) as Hs. fold (llookup m id) in Hs.
  destruct (llookup m id) as [k [ov|]]; simpl in *; (split; [done|]); [|by apply insert_new].
  destruct Hs as (c1 & c2 & Ec & -> & H1 & H2).
  rewrite Ec. rewrite insert_app_r_alt, Nat.sub_diag by lia. simpl.
  pose proof (chain_nodup m id Hm) as Hd. rewrite Ec, fmap_app in Hd. simpl in Hd.
  eapply represents_set; [by split| | | |].
  - by rewrite fmap_app.
  - intros i w Hin. apply elem_of_app in Hin as [Hin|Hin]; [|apply elem_of_cons in Hin as [Hin|Hin]].
    + apply (chain_place m id i w Hm). rewrite Ec. set_solver.
    + by simplify_eq.
    + apply (chain_place m id i w Hm). rewrite Ec. set_solver.
  - intros i Hi. rewrite lookup_insert_ne; [done|]. congruence.
  - intros i w Hi. rewrite elem_of_app, elem_of_cons. destruct (decide (i = id)) as [->|Hne].
    + rewrite lookup_insert_eq. split; [intros; simplify_eq; by right; left|]. intros [Hin|[Hin|Hin]]; [|by simplify_eq|].
      * by destruct H1; apply (list_elem_of_fmap_2 fst _ _ Hin).
      * by destruct H2; apply (list_elem_of_fmap_2 fst _ _ Hin).
    + rewrite lookup_insert_ne by done. rewrite Hg, in_chain, Hi, Ec by done. rewrite !elem_of_app, elem_of_cons. naive_solver.
Qed.
End intmap.

Arguments chain_place {V}.
