(* ===== verification/P9.v ===== *)
(** The messages of the 9P server (user/9psv/p9.h, fcalls/, utils/).

    A request is parsed in the receive buffer: [parse_*] read the fields in place and
    [p9_gstring] moves a string over its length field to make room for the terminating
    zero.  A response is composed in the send buffer after its size was computed.  The
    buffers are lists of bytes, a pointer into one is an offset; an access outside
    of the buffer is [Undef].  A [char *] is the string it points to, [None] the null pointer:
    the strings of a request stay in the buffer until the request is answered. *)

From S2P Require Import Prelude ULib.

(** * Data *)

Record p9_qid := mkqid { q_path : Z; q_vers : Z; q_type : Z }.

Record p9_stat := mkstat9 {
  s9_size : Z; s9_type : Z; s9_dev : Z; s9_qid : p9_qid; s9_mode : Z;
  s9_atime : Z; s9_mtime : Z; s9_length : Z;
  s9_name : option bytes; s9_uid : option bytes; s9_gid : option bytes; s9_muid : option bytes }.

(** The union of [struct p9_fcall]: the member that was written last. *)
Inductive payload : Type :=
| PZero
| PVersion (msize : Z) (version : option bytes)
| PFlush (oldtag : Z)
| PError (ename : option bytes)
| PQid (qid : p9_qid) (iounit : Z)
| PAuth (afid : Z) (uname aname : option bytes)
| PCreate (perm : Z) (name : option bytes) (mode : Z)
| PWname (newfid nwname : Z) (wname : list bytes)
| PWqid (nwqid : Z) (wqid : list p9_qid)
| PIo (offset count : Z) (data : bytes)
| PStat (parlen nstat : Z) (stat : p9_stat).

Record p9_fcall := mkfcall {
  f_size : Z; f_type : Z; f_tag : Z; f_fid : Z; f_u : payload }.

Definition P9_HDR_SIZE : Z := 7.
Definition P9_QIDSZ : Z := 13.
Definition P9_MAXMSGLEN : Z := 8192.
Definition P9_MAXWELEM : Z := 16.
Definition P9_NOTAG : Z := 65535.
Definition P9_NOFID : Z := 4294967295.
(** The macro subtracts in the wrong order: the constant is -4, and compared with an
    unsigned field it is 2^32 - 4. *)
Definition P9_MAXDATALEN : Z := P9_MAXMSGLEN - (P9_MAXMSGLEN + 4).

Definition P9_TVERSION : Z := 100.
Definition P9_RVERSION : Z := 101.
Definition P9_TAUTH : Z := 102.
Definition P9_RAUTH : Z := 103.
Definition P9_TATTACH : Z := 104.
Definition P9_RATTACH : Z := 105.
Definition P9_TERROR : Z := 106.
Definition P9_RERROR : Z := 107.
Definition P9_TFLUSH : Z := 108.
Definition P9_RFLUSH : Z := 109.
Definition P9_TWALK : Z := 110.
Definition P9_RWALK : Z := 111.
Definition P9_TOPEN : Z := 112.
Definition P9_ROPEN : Z := 113.
Definition P9_TCREATE : Z := 114.
Definition P9_RCREATE : Z := 115.
Definition P9_TREAD : Z := 116.
Definition P9_RREAD : Z := 117.
Definition P9_TWRITE : Z := 118.
Definition P9_RWRITE : Z := 119.
Definition P9_TCLUNK : Z := 120.
Definition P9_RCLUNK : Z := 121.
Definition P9_TREMOVE : Z := 122.
Definition P9_RREMOVE : Z := 123.
Definition P9_TSTAT : Z := 124.
Definition P9_RSTAT : Z := 125.
Definition P9_TWSTAT : Z := 126.
Definition P9_RWSTAT : Z := 127.

(** * Access to a buffer *)

Definition GBIT (n p : nat) : M bytes Z := fun b =>
  if decide (p + n <= length b)%nat then Ok (get_le n p b) b else Undef.
Definition GBIT8 := GBIT 1.
Definition GBIT16 := GBIT 2.
Definition GBIT32 := GBIT 4.
Definition GBIT64 := GBIT 8.

Definition PBIT (n p : nat) (v : Z) : M bytes unit := fun b =>
  if decide (p + n <= length b)%nat then Ok tt (put_le n p v b) else Undef.
Definition PBIT8 := PBIT 1.
Definition PBIT16 := PBIT 2.
Definition PBIT32 := PBIT 4.
Definition PBIT64 := PBIT 8.

Definition buf_memmove (dst src n : nat) : M bytes unit := fun b =>
  match memmove dst src n b with Some b' => Ok tt b' | None => Undef end.

(** The string that a pointer to offset [p] denotes. *)
Definition str_at (p : nat) : M bytes bytes := fun b =>
  match cstring (drop p b) with Some s => Ok s b | None => Undef end.

(** * Strings *)

Definition p9_gstring (p ep : nat) : M bytes (option (nat * bytes)) :=
  if (ep <? p + 2)%nat then ret None
  else
    n ← GBIT16 p;
    let n := Z.to_nat n in
    let p := (p + 1)%nat in
    if (ep <? p + n + 1)%nat then ret None
    else
      buf_memmove p (p + 1) n;;
      PBIT8 (p + n) 0;;
      s ← str_at p;
      ret (Some (p + n + 1, s)%nat).

Definition put_bytes (p : nat) (s : bytes) : M bytes unit := fun b =>
  if decide (p + length s <= length b)%nat then Ok tt (upd_bytes p s b) else Undef.

Definition p9_pstring (p : nat) (s : option bytes) : M bytes nat :=
  match s with
  | None => PBIT16 p 0;; ret (p + 2)%nat
  | Some s =>
      PBIT16 p (Z.of_nat (length s));;
      put_bytes (p + 2) s;;
      ret (p + 2 + length s)%nat
  end.

Definition p9_stringsz (s : option bytes) : Z :=
  match s with
  | None => 2
  | Some s => u16 (2 + Z.of_nat (length s))
  end.

(** * Requests *)

(** A parser gets the message with its header, the position and the length of the
    rest; [None] is the null pointer it returns for a bad message. *)
Definition parser := p9_fcall -> nat -> Z -> M bytes (option (nat * p9_fcall)).

Definition end_of (p : nat) (len : Z) : nat := (p + Z.to_nat len)%nat.

Definition set_fid (f : p9_fcall) (fid : Z) : p9_fcall :=
  mkfcall (f_size f) (f_type f) (f_tag f) fid (f_u f).
Definition set_u (f : p9_fcall) (u : payload) : p9_fcall :=
  mkfcall (f_size f) (f_type f) (f_tag f) (f_fid f) u.

Definition parse_tversion : parser := fun f p len =>
  if negb (f_tag f =? P9_NOTAG) then ret None
  else
    let ep := end_of p len in
    msize ← GBIT32 p;
    r ← p9_gstring (p + 4) ep;
    match r with
    | None => ret None
    | Some (p, version) => ret (Some (p, set_u f (PVersion msize (Some version))))
    end.

Definition parse_tattach : parser := fun f p len =>
  let ep := end_of p len in
  fid ← GBIT32 p;
  afid ← GBIT32 (p + 4);
  r ← p9_gstring (p + 8) ep;
  match r with
  | None => ret None
  | Some (p, uname) =>
      r ← p9_gstring p ep;
      match r with
      | None => ret None
      | Some (p, aname) => ret (Some (p, set_u (set_fid f fid) (PAuth afid (Some uname) (Some aname))))
      end
  end.

Definition parse_tflush : parser := fun f p len =>
  oldtag ← GBIT16 p;
  ret (Some ((p + 2)%nat, set_u f (PFlush oldtag))).

(** [wname] has [P9_MAXWELEM] entries; the loop does not look at the bound. *)
Fixpoint parse_twalk_loop (n : nat) (p ep : nat) (acc : list bytes) : M bytes (option (nat * list bytes)) :=
  match n with
  | O => ret (Some (p, acc))
  | S n' =>
      r ← p9_gstring p ep;
      if Z.of_nat (length acc) <? P9_MAXWELEM then
        match r with
        | None => ret None
        | Some (p, s) => parse_twalk_loop n' p ep (acc ++ [s])
        end
      else undef
  end.

Definition parse_twalk : parser := fun f p len =>
  let ep := end_of p len in
  fid ← GBIT32 p;
  newfid ← GBIT32 (p + 4);
  nwname ← GBIT16 (p + 8);
  r ← parse_twalk_loop (Z.to_nat nwname) (p + 10) ep [];
  match r with
  | None => ret None
  | Some (p, wname) => ret (Some (p, set_u (set_fid f fid) (PWname newfid nwname wname)))
  end.

Definition parse_topen : parser := fun f p len =>
  fid ← GBIT32 p;
  mode ← GBIT8 (p + 4);
  ret (Some ((p + 5)%nat, set_u (set_fid f fid) (PCreate 0 None mode))).

(** The result of [p9_gstring] is not tested: after a bad name the code reads through
    the null pointer. *)
Definition parse_tcreate : parser := fun f p len =>
  let ep := end_of p len in
  fid ← GBIT32 p;
  r ← p9_gstring (p + 4) ep;
  match r with
  | None => undef
  | Some (p, name) =>
      perm ← GBIT32 p;
      mode ← GBIT8 (p + 4);
      ret (Some ((p + 5)%nat, set_u (set_fid f fid) (PCreate perm (Some name) mode)))
  end.

Definition parse_tread : parser := fun f p len =>
  fid ← GBIT32 p;
  offset ← GBIT64 (p + 4);
  count ← GBIT32 (p + 12);
  ret (Some ((p + 16)%nat, set_u (set_fid f fid) (PIo offset count []))).

(** The bytes of the data, one by one. *)
Fixpoint get_data (n p : nat) : M bytes bytes :=
  match n with
  | O => ret []
  | S n' => x ← GBIT8 p; l ← get_data n' (p + 1); ret (x :: l)
  end.

Definition parse_twrite : parser := fun f p len =>
  fid ← GBIT32 p;
  offset ← GBIT64 (p + 4);
  count ← GBIT32 (p + 12);
  let count := if u32 P9_MAXDATALEN <=? count then u32 P9_MAXDATALEN else count in
  data ← get_data (Z.to_nat count) (p + 16);
  ret (Some ((p + 16 + Z.to_nat count)%nat, set_u (set_fid f fid) (PIo offset count data))).

Definition parse_tclunk : parser := fun f p len =>
  fid ← GBIT32 p; ret (Some ((p + 4)%nat, set_fid f fid)).
Definition parse_tremove : parser := fun f p len =>
  fid ← GBIT32 p; ret (Some ((p + 4)%nat, set_fid f fid)).
Definition parse_tstat : parser := fun f p len =>
  fid ← GBIT32 p; ret (Some ((p + 4)%nat, set_fid f fid)).
Definition parse_twstat : parser := fun f p len => ret (Some (p, f)).
Definition parse_ignore : parser := fun f p len => ret None.

(** The table of parsers; a type without an entry is a call through a null or a wild
    pointer. *)
Definition parsefunc (type : Z) : option parser :=
  match type with
  | 100 => Some parse_tversion
  | 102 => Some parse_ignore
  | 104 => Some parse_tattach
  | 106 => Some parse_ignore
  | 108 => Some parse_tflush
  | 110 => Some parse_twalk
  | 112 => Some parse_topen
  | 114 => Some parse_tcreate
  | 116 => Some parse_tread
  | 118 => Some parse_twrite
  | 120 => Some parse_tclunk
  | 122 => Some parse_tremove
  | 124 => Some parse_tstat
  | 126 => Some parse_twstat
  | _ => None
  end.

Definition parse_hdr (p : nat) : M bytes (nat * p9_fcall) :=
  size ← GBIT32 p;
  type ← GBIT8 (p + 4);
  tag ← GBIT16 (p + 5);
  ret ((p + 7)%nat, mkfcall size type tag 0 PZero).

(** The request (the rest of the structure is zero), or [None]. *)
Definition parsefcall (p : nat) (size : Z) : M bytes (option p9_fcall) :=
  if size <? P9_HDR_SIZE then ret None
  else
    h ← parse_hdr p;
    let '(p, f) := h in
    let mlen := s32 (f_size f - P9_HDR_SIZE) in
    match parsefunc (f_type f) with
    | None => undef
    | Some parse =>
        r ← parse f p mlen;
        ret (snd <$> r)
    end.

(** * Responses *)

Definition composer := p9_fcall -> nat -> M bytes unit.

Definition compose_qid (p : nat) (q : p9_qid) : M bytes unit :=
  PBIT8 p (q_type q);; PBIT32 (p + 1) (q_vers q);; PBIT64 (p + 5) (q_path q).

Definition compose_rversion : composer := fun f p =>
  match f_u f with
  | PVersion msize version => PBIT32 p msize;; _ ← p9_pstring (p + 4) version; ret tt
  | _ => undef
  end.

Definition compose_rattach : composer := fun f p =>
  match f_u f with PQid q _ => compose_qid p q | _ => undef end.

Definition compose_rerror : composer := fun f p =>
  match f_u f with PError ename => _ ← p9_pstring p ename; ret tt | _ => undef end.

Fixpoint compose_qids (n : nat) (qs : list p9_qid) (p : nat) : M bytes unit :=
  match n with
  | O => ret tt
  | S n' =>
      match qs with
      | [] => undef
      | q :: qs' => compose_qid p q;; compose_qids n' qs' (p + 13)
      end
  end.

Definition compose_rwalk : composer := fun f p =>
  match f_u f with
  | PWqid nwqid wqid => PBIT16 p nwqid;; compose_qids (Z.to_nat nwqid) wqid (p + 2)
  | _ => undef
  end.

Definition compose_ropen : composer := fun f p =>
  match f_u f with PQid q iounit => compose_qid p q;; PBIT32 (p + 13) iounit | _ => undef end.

Definition compose_rcreate : composer := fun f p =>
  match f_u f with PQid q iounit => compose_qid p q;; PBIT32 (p + 13) iounit | _ => undef end.

Fixpoint put_data (n : nat) (data : bytes) (p : nat) : M bytes unit :=
  match n with
  | O => ret tt
  | S n' =>
      match data with
      | [] => undef
      | x :: data' => PBIT8 p x;; put_data n' data' (p + 1)
      end
  end.

Definition compose_rread : composer := fun f p =>
  match f_u f with
  | PIo _ count data => PBIT32 p count;; put_data (Z.to_nat count) data (p + 4)
  | _ => undef
  end.

Definition compose_rwrite : composer := fun f p =>
  match f_u f with PIo _ count _ => PBIT32 p count | _ => undef end.

(** The fields of a stat after its length; returns the end. *)
Definition compose_stat_fields (p : nat) (st : p9_stat) : M bytes nat :=
  PBIT16 p (s9_type st);;
  PBIT32 (p + 2) (s9_dev st);;
  compose_qid (p + 6) (s9_qid st);;
  PBIT32 (p + 19) (s9_mode st);;
  PBIT32 (p + 23) (s9_atime st);;
  PBIT32 (p + 27) (s9_mtime st);;
  PBIT64 (p + 31) (s9_length st);;
  p ← p9_pstring (p + 39) (s9_name st);
  p ← p9_pstring p (s9_uid st);
  p ← p9_pstring p (s9_gid st);
  p9_pstring p (s9_muid st).

Definition compose_rstat : composer := fun f p =>
  match f_u f with
  | PStat parlen nstat st =>
      PBIT16 p parlen;; PBIT16 (p + 2) nstat;;
      _ ← compose_stat_fields (p + 4) st; ret tt
  | _ => undef
  end.

(** [compose_stat]: an entry of a directory that is read; returns its size. *)
Definition compose_stat (p : nat) (st : p9_stat) : M bytes Z :=
  PBIT16 p (s9_size st);;
  e ← compose_stat_fields (p + 2) st;
  ret (Z.of_nat (e - p)).

Definition compose_ignore : composer := fun f p => ret tt.
Definition compose_rflush : composer := fun f p => ret tt.
Definition compose_rclunk : composer := fun f p => ret tt.
Definition compose_rremove : composer := fun f p => ret tt.
Definition compose_rwstat : composer := fun f p => ret tt.

Definition composefunc (type : Z) : option composer :=
  match type with
  | 101 => Some compose_rversion
  | 103 => Some compose_ignore
  | 105 => Some compose_rattach
  | 107 => Some compose_rerror
  | 109 => Some compose_rflush
  | 111 => Some compose_rwalk
  | 113 => Some compose_ropen
  | 115 => Some compose_rcreate
  | 117 => Some compose_rread
  | 119 => Some compose_rwrite
  | 121 => Some compose_rclunk
  | 123 => Some compose_rremove
  | 125 => Some compose_rstat
  | 127 => Some compose_rwstat
  | _ => None
  end.

Definition composefcall (f : p9_fcall) : M bytes unit :=
  PBIT32 0 (f_size f);;
  PBIT8 4 (f_type f);;
  PBIT16 5 (f_tag f);;
  match composefunc (f_type f) with
  | None => undef
  | Some compose => compose f 7%nat
  end.

(** * Sizes

    [None]: the size function reads a member of the union that was not written. *)

Definition size_tversion (f : p9_fcall) : option Z :=
  match f_u f with PVersion _ version => Some (4 + p9_stringsz version) | _ => None end.
Definition size_rversion (f : p9_fcall) : option Z :=
  match f_u f with PVersion _ version => Some (4 + p9_stringsz version) | _ => None end.
Definition size_tauth (f : p9_fcall) : option Z :=
  match f_u f with
  | PAuth _ uname aname => Some (4 + p9_stringsz uname + p9_stringsz aname)
  | _ => None
  end.
Definition size_rauth (f : p9_fcall) : option Z := Some P9_QIDSZ.
Definition size_tattach (f : p9_fcall) : option Z :=
  match f_u f with
  | PAuth _ uname aname => Some (4 + 4 + p9_stringsz uname + p9_stringsz aname)
  | _ => None
  end.
Definition size_rattach (f : p9_fcall) : option Z := Some P9_QIDSZ.
Definition size_rerror (f : p9_fcall) : option Z :=
  match f_u f with PError ename => Some (p9_stringsz ename) | _ => None end.
Definition size_tflush (f : p9_fcall) : option Z := Some 2.
Definition size_rflush (f : p9_fcall) : option Z := Some 0.
Definition size_twalk (f : p9_fcall) : option Z :=
  match f_u f with
  | PWname _ nwname wname =>
      Some (4 + 4 + 2 + foldr Z.add 0 (map (fun i => p9_stringsz (wname !! i)) (seq 0 (Z.to_nat nwname))))
  | _ => None
  end.
Definition size_rwalk (f : p9_fcall) : option Z :=
  match f_u f with PWqid nwqid _ => Some (2 + nwqid * P9_QIDSZ) | _ => None end.
Definition size_topen (f : p9_fcall) : option Z := Some (4 + 1).
Definition size_ropen (f : p9_fcall) : option Z := Some (P9_QIDSZ + 4).
Definition size_tcreate (f : p9_fcall) : option Z :=
  match f_u f with PCreate _ name _ => Some (4 + p9_stringsz name + 4 + 1) | _ => None end.
Definition size_rcreate (f : p9_fcall) : option Z := Some (P9_QIDSZ + 4).
Definition size_tread (f : p9_fcall) : option Z := Some (4 + 8 + 4).
Definition size_rread (f : p9_fcall) : option Z :=
  match f_u f with PIo _ count _ => Some (s32 (4 + count)) | _ => None end.
Definition size_twrite (f : p9_fcall) : option Z :=
  match f_u f with PIo _ count _ => Some (s32 (4 + 8 + 4 + count)) | _ => None end.
Definition size_rwrite (f : p9_fcall) : option Z := Some 4.
Definition size_tclunk (f : p9_fcall) : option Z := Some 4.
Definition size_rclunk (f : p9_fcall) : option Z := Some 0.
Definition size_tremove (f : p9_fcall) : option Z := Some 4.
Definition size_rremove (f : p9_fcall) : option Z := Some 0.
Definition size_tstat (f : p9_fcall) : option Z := Some 4.
Definition size_rstat (f : p9_fcall) : option Z :=
  match f_u f with PStat parlen _ _ => Some (2 + parlen) | _ => None end.
Definition size_twstat (f : p9_fcall) : option Z :=
  match f_u f with PStat _ nstat _ => Some (4 + 2 + nstat) | _ => None end.
Definition size_rwstat (f : p9_fcall) : option Z := Some 0.

Definition sizefunc (type : Z) : option (p9_fcall -> option Z) :=
  match type with
  | 100 => Some size_tversion | 101 => Some size_rversion
  | 102 => Some size_tauth    | 103 => Some size_rauth
  | 104 => Some size_tattach  | 105 => Some size_rattach
  | 107 => Some size_rerror
  | 108 => Some size_tflush   | 109 => Some size_rflush
  | 110 => Some size_twalk    | 111 => Some size_rwalk
  | 112 => Some size_topen    | 113 => Some size_ropen
  | 114 => Some size_tcreate  | 115 => Some size_rcreate
  | 116 => Some size_tread    | 117 => Some size_rread
  | 118 => Some size_twrite   | 119 => Some size_rwrite
  | 120 => Some size_tclunk   | 121 => Some size_rclunk
  | 122 => Some size_tremove  | 123 => Some size_rremove
  | 124 => Some size_tstat    | 125 => Some size_rstat
  | 126 => Some size_twstat   | 127 => Some size_rwstat
  | _ => None
  end.

Definition p9_getfcallsize (f : p9_fcall) : option Z :=
  match sizefunc (f_type f) with
  | Some size => (fun n => u32 (4 + 1 + 2 + n)) <$> size f
  | None => None
  end.

(** * The wire format

    The messages of 9P2000 as the protocol lays them out: a request that the server
    answers, and a response. *)

Definition p9str (s : bytes) : bytes := le_enc 2 (Z.of_nat (length s)) ++ s.
Definition p9ostr (s : option bytes) : bytes := p9str (default [] s).

Inductive tmsg : Type :=
| Tversion (msize : Z) (version : bytes)
| Tattach (fid afid : Z) (uname aname : bytes)
| Tflush (oldtag : Z)
| Twalk (fid newfid : Z) (wname : list bytes)
| Topen (fid mode : Z)
| Tcreate (fid : Z) (name : bytes) (perm mode : Z)
| Tread (fid offset count : Z)
| Twrite (fid offset : Z) (data : bytes)
| Tclunk (fid : Z)
| Tremove (fid : Z)
| Tstat (fid : Z).

Definition ttype (m : tmsg) : Z :=
  match m with
  | Tversion _ _ => P9_TVERSION | Tattach _ _ _ _ => P9_TATTACH | Tflush _ => P9_TFLUSH
  | Twalk _ _ _ => P9_TWALK | Topen _ _ => P9_TOPEN | Tcreate _ _ _ _ => P9_TCREATE
  | Tread _ _ _ => P9_TREAD | Twrite _ _ _ => P9_TWRITE | Tclunk _ => P9_TCLUNK
  | Tremove _ => P9_TREMOVE | Tstat _ => P9_TSTAT
  end.

Definition tbody (m : tmsg) : bytes :=
  match m with
  | Tversion msize version => le_enc 4 msize ++ p9str version
  | Tattach fid afid uname aname => le_enc 4 fid ++ le_enc 4 afid ++ p9str uname ++ p9str aname
  | Tflush oldtag => le_enc 2 oldtag
  | Twalk fid newfid wname =>
      le_enc 4 fid ++ le_enc 4 newfid ++ le_enc 2 (Z.of_nat (length wname)) ++ concat (map p9str wname)
  | Topen fid mode => le_enc 4 fid ++ le_enc 1 mode
  | Tcreate fid name perm mode => le_enc 4 fid ++ p9str name ++ le_enc 4 perm ++ le_enc 1 mode
  | Tread fid offset count => le_enc 4 fid ++ le_enc 8 offset ++ le_enc 4 count
  | Twrite fid offset data =>
      le_enc 4 fid ++ le_enc 8 offset ++ le_enc 4 (Z.of_nat (length data)) ++ data
  | Tclunk fid | Tremove fid | Tstat fid => le_enc 4 fid
  end.

Definition wire (type tag : Z) (body : bytes) : bytes :=
  le_enc 4 (7 + Z.of_nat (length body)) ++ le_enc 1 type ++ le_enc 2 tag ++ body.

(** The structure that a request denotes. *)
Definition tfid (m : tmsg) : Z :=
  match m with
  | Tversion _ _ | Tflush _ => 0
  | Tattach fid _ _ _ | Twalk fid _ _ | Topen fid _ | Tcreate fid _ _ _ | Tread fid _ _
  | Twrite fid _ _ | Tclunk fid | Tremove fid | Tstat fid => fid
  end.

Definition tpayload (m : tmsg) : payload :=
  match m with
  | Tversion msize version => PVersion msize (Some version)
  | Tattach _ afid uname aname => PAuth afid (Some uname) (Some aname)
  | Tflush oldtag => PFlush oldtag
  | Twalk _ newfid wname => PWname newfid (Z.of_nat (length wname)) wname
  | Topen _ mode => PCreate 0 None mode
  | Tcreate _ name perm mode => PCreate perm (Some name) mode
  | Tread _ offset count => PIo offset count []
  | Twrite _ offset data => PIo offset (Z.of_nat (length data)) data
  | Tclunk _ | Tremove _ | Tstat _ => PZero
  end.

Definition fcall_of (tag : Z) (m : tmsg) : p9_fcall :=
  mkfcall (7 + Z.of_nat (length (tbody m))) (ttype m) tag (tfid m) (tpayload m).

Definition no_nul : bytes -> Prop := Forall (fun c => c <> 0).
Definition fits (w z : Z) : Prop := 0 <= z < 2 ^ w.

(** What a client may send: fields of their width, strings without zero bytes, at most 16 names. *)
Definition wf_t (m : tmsg) : Prop :=
  match m with
  | Tversion msize version => fits 32 msize /\ no_nul version
  | Tattach fid afid uname aname => fits 32 fid /\ fits 32 afid /\ no_nul uname /\ no_nul aname
  | Tflush oldtag => fits 16 oldtag
  | Twalk fid newfid wname =>
      fits 32 fid /\ fits 32 newfid /\ Forall no_nul wname /\ Z.of_nat (length wname) <= P9_MAXWELEM
  | Topen fid mode => fits 32 fid /\ fits 8 mode
  | Tcreate fid name perm mode => fits 32 fid /\ no_nul name /\ fits 32 perm /\ fits 8 mode
  | Tread fid offset count => fits 32 fid /\ fits 64 offset /\ fits 32 count
  | Twrite fid offset data => fits 32 fid /\ fits 64 offset /\ Forall is_byte data
  | Tclunk fid | Tremove fid | Tstat fid => fits 32 fid
  end.

(** * Parsing *)

Lemma u16_string s : Z.of_nat (length s) < 65534 -> p9_stringsz (Some s) = Z.of_nat (length (p9str s)).
Proof.
  intros. unfold p9_stringsz, p9str. rewrite length_app, length_le_enc. unwrap. lia.
Qed.

(** [m] reads the bytes [w] at [p], changes nothing before and behind them, and returns [a]. *)
Definition consumes {A} (m : M bytes A) (p : nat) (w : bytes) (a : A) : Prop :=
  forall b rest, drop p b = w ++ rest -> (p <= length b)%nat ->
  exists b', m b = Ok a b' /\ drop (p + length w) b' = rest /\ take p b' = take p b /\
    length b' = length b.

Lemma consumes_ret {A} (a : A) p : consumes (ret a) p [] a.
Proof. intros b rest Hd Hp. exists b. by rewrite Nat.add_0_r. Qed.

Lemma consumes_bind {A B} (m : M bytes A) (f : A -> M bytes B) p q w1 w2 a c :
  q = (p + length w1)%nat ->
  consumes m p w1 a -> consumes (f a) q w2 c -> consumes (bind m f) p (w1 ++ w2) c.
Proof.
  intros -> Hm Hf b rest Hd Hp. rewrite <-app_assoc in Hd.
  assert (Hl : (p + length w1 <= length b)%nat).
  { apply (f_equal length) in Hd. rewrite length_drop, length_app in Hd. lia. }
  destruct (Hm b (w2 ++ rest)) as (b1 & E1 & Hd1 & Ht1 & Hl1); [done|done|].
  destruct (Hf b1 rest) as (b2 & E2 & Hd2 & Ht2 & Hl2); [done|lia|].
  exists b2. rewrite (bind_ok _ _ _ _ _ E1). split; [done|]. split; [by rewrite length_app, Nat.add_assoc|].
  split; [|congruence]. rewrite <-Ht1.
  rewrite <-(Nat.min_l p (p + length w1)) by lia. by rewrite <-!take_take, Ht2.
Qed.

Lemma consumes_last {A B} (m : M bytes A) (f : A -> M bytes B) p w a c :
  consumes m p w a -> (forall q, consumes (f a) q [] c) -> consumes (bind m f) p w c.
Proof.
  intros Hm Hf. rewrite <-(app_nil_r w). by eapply consumes_bind.
Qed.

Lemma consumes_GBIT n p v : 0 <= v < 256 ^ Z.of_nat n -> consumes (GBIT n p) p (le_enc n v) v.
Proof.
  intros Hv b rest Hd Hp. exists b. unfold GBIT.
  assert (Hl : (p + n <= length b)%nat).
  { apply (f_equal length) in Hd. rewrite length_drop, length_app, length_le_enc in Hd. lia. }
  rewrite decide_True by done. split.
  - f_equal. unfold get_le, sub_bytes. rewrite Hd.
    rewrite <-(length_le_enc n v) at 1. rewrite take_app_length, le_dec_enc. by rewrite Z.mod_small.
  - rewrite length_le_enc, <-drop_drop, Hd. split; [|done].
    rewrite <-(length_le_enc n v) at 1. by rewrite drop_app_length.
Qed.

Lemma take_drop_split (b : bytes) p w rest :
  drop p b = w ++ rest -> b = take p b ++ w ++ rest.
Proof. intros Hd. by rewrite <-Hd, take_drop. Qed.

(** The buffer after a string at [p] was moved down by one byte and closed by a zero. *)
Lemma gstring_buffer (b : bytes) p s rest :
  (p + 2 + length s + length rest = length b)%nat -> drop (p + 2) b = s ++ rest ->
  put_le 1 (p + 1 + length s) 0 (upd_bytes (p + 1) s b) = take (p + 1) b ++ s ++ 0 :: rest.
Proof.
  intros Hlen Hd. set (n := length s).
  assert (Hb1 : upd_bytes (p + 1) s b = (take (p + 1) b ++ s) ++ drop (p + 1 + n) b)
    by (unfold upd_bytes; by rewrite <-app_assoc).
  unfold put_le, upd_bytes at 1. rewrite Hb1.
  assert (Hq : length (take (p + 1) b ++ s) = (p + 1 + n)%nat) by (rewrite length_app, length_take; fold n; lia).
  rewrite <-Hq at 1. rewrite take_app_length, <-app_assoc. do 2 f_equal.
  rewrite drop_app_ge by (rewrite Hq; lia). rewrite Hq. simpl. f_equal.
  replace (p + 1 + n + 1 - (p + 1 + n))%nat with 1%nat by lia.
  rewrite drop_drop. replace (p + 1 + n + 1)%nat with (p + 2 + n)%nat by lia.
  rewrite <-drop_drop, Hd. apply drop_app_length.
Qed.

(** A string is read where it lies, moved down by one byte and closed by a zero. *)
Lemma consumes_gstring p ep s :
  no_nul s -> Z.of_nat (length s) < 65536 -> (p + length (p9str s) <= ep)%nat ->
  consumes (p9_gstring p ep) p (p9str s) (Some (p + length (p9str s), s)%nat).
Proof.
  intros Hz Hs Hep b rest Hd Hp. unfold p9str in *. rewrite length_app, length_le_enc in *.
  rewrite <-app_assoc in Hd.
  assert (Hlen : (p + 2 + length s + length rest = length b)%nat).
  { apply (f_equal length) in Hd. rewrite length_drop, !length_app, length_le_enc in Hd. lia. }
  unfold p9_gstring. destruct (Nat.ltb_spec ep (p + 2)); [lia|].
  destruct (consumes_GBIT 2 p (Z.of_nat (length s)) ltac:(simpl; lia) b _ Hd Hp) as (b0 & E & Hd0 & _ & _).
  assert (b0 = b) as -> by (unfold GBIT in E; case_decide; congruence).
  rewrite (bind_ok _ _ _ _ _ E). rewrite Nat2Z.id, length_le_enc in *.
  destruct (Nat.ltb_spec ep (p + 1 + length s + 1)); [lia|].
  set (b1 := upd_bytes (p + 1) s b).
  assert (Em : buf_memmove (p + 1) (p + 1 + 1) (length s) b = Ok tt b1).
  { unfold buf_memmove. rewrite memmove_down by lia. do 2 f_equal. unfold sub_bytes.
    replace (p + 1 + 1)%nat with (p + 2)%nat by lia. by rewrite Hd0, take_app_length. }
  rewrite (bind_ok _ _ _ _ _ Em).
  assert (Hl1 : length b1 = length b) by (apply length_upd_bytes; lia).
  set (b2 := put_le 1 (p + 1 + length s) 0 b1).
  assert (Ep : PBIT8 (p + 1 + length s) 0 b1 = Ok tt b2) by (unfold PBIT8, PBIT; rewrite decide_True by lia; done).
  rewrite (bind_ok _ _ _ _ _ Ep).
  assert (Hb2 : b2 = take (p + 1) b ++ s ++ 0 :: rest) by by apply gstring_buffer.
  assert (Hq : length (take (p + 1) b) = (p + 1)%nat) by (rewrite length_take; lia).
  assert (Es : str_at (p + 1) b2 = Ok s b2).
  { unfold str_at. rewrite Hb2 at 1. rewrite <-Hq at 1. rewrite drop_app_length. by rewrite cstring_app. }
  rewrite (bind_ok _ _ _ _ _ Es). exists b2. split; [unfold ret; do 3 f_equal; lia|]. split; [|split].
  - rewrite Hb2, drop_app_ge, Hq by (rewrite Hq; lia).
    replace (p + (2 + length s) - (p + 1))%nat with (length s + 1)%nat by lia.
    by rewrite <-drop_drop, drop_app_length.
  - rewrite Hb2, take_app_le by (rewrite Hq; lia). by rewrite take_take, Nat.min_l by lia.
  - unfold b2. by rewrite length_put_le by lia.
Qed.

Ltac clen := unfold p9str in *; cbn [tbody] in *; unfold p9str in *; unfold end_of in *;
  repeat (rewrite ?length_app, ?length_le_enc in * ); try lia.

Lemma consumes_at {A} (m : M bytes A) p q w a : p = q -> consumes m p w a -> consumes m q w a.
Proof. by intros ->. Qed.

Lemma consumes_done {A} (p q q' : nat) (a : A) :
  p = q -> consumes (ret (Some (p, a))) q' [] (Some (q, a)).
Proof. intros ->. apply consumes_ret. Qed.

(** Read the next field; [clast] reads the last one. *)
Ltac cgbit := eapply consumes_at; [|apply consumes_GBIT; simpl; unfold fits in *; lia]; clen.
Ltac cgstr := eapply consumes_at; [|apply consumes_gstring; [done|clen|clen]]; clen.
Ltac cend := intros; cbv beta iota; apply consumes_done; clen.
Ltac cfield := eapply consumes_bind; [reflexivity|cgbit|cbv beta].
Ltac clast := eapply consumes_last; [cgbit|cend].

Lemma consumes_get_data d p : Forall is_byte d -> consumes (get_data (length d) p) p d d.
Proof.
  intros Hd. revert p. induction Hd as [|x d Hx Hd IH]; intros p; cbn [get_data length].
  - apply consumes_ret.
  - change (x :: d) with ([x] ++ d) at 1.
    replace [x] with (le_enc 1 x) by (simpl; unfold is_byte in Hx; by rewrite Z.mod_small by lia).
    eapply consumes_bind; [reflexivity|apply consumes_GBIT; simpl; unfold is_byte in Hx; lia|].
    eapply consumes_last; [apply IH|]. intros. apply consumes_ret.
Qed.

Lemma consumes_twalk_loop ws p ep acc :
  Forall no_nul ws -> (p + length (concat (map p9str ws)) <= ep)%nat -> Z.of_nat ep < 2 ^ 16 ->
  Z.of_nat (length acc + length ws) <= P9_MAXWELEM ->
  consumes (parse_twalk_loop (length ws) p ep acc) p (concat (map p9str ws))
    (Some (p + length (concat (map p9str ws)), acc ++ ws)%nat).
Proof.
  intros Hw. revert p acc. induction Hw as [|w ws Hw Hws IH]; intros p acc Hep Hsz Hn.
  - simpl. rewrite app_nil_r, Nat.add_0_r. apply consumes_ret.
  - cbn [parse_twalk_loop length map concat] in *. rewrite length_app in *.
    assert (length (p9str w) = (2 + length w)%nat) by (unfold p9str; by rewrite length_app, length_le_enc).
    eapply consumes_bind; [|apply consumes_gstring; [done|lia|lia]|]; [done|].
    destruct (Z.ltb_spec (Z.of_nat (length acc)) P9_MAXWELEM); [|lia].
    replace (acc ++ w :: ws) with ((acc ++ [w]) ++ ws) by by rewrite <-app_assoc.
    rewrite Nat.add_assoc. apply IH; [lia|done|]. rewrite length_app. simpl. lia.
Qed.

(** What the parser of each request does with the body of the message. *)
Definition parses (parse : parser) (m : tmsg) : Prop :=
  forall f p len q, f_u f = PZero -> f_fid f = 0 -> Z.of_nat (length (tbody m)) <= len ->
  q = (p + length (tbody m))%nat -> Z.of_nat (end_of p len) < 2 ^ 16 ->
  (match m with Tversion _ _ => f_tag f = P9_NOTAG | _ => True end) ->
  consumes (parse f p len) p (tbody m)
    (Some (q, mkfcall (f_size f) (f_type f) (f_tag f) (tfid m) (tpayload m))).

Lemma parses_tversion msize version : wf_t (Tversion msize version) -> parses parse_tversion (Tversion msize version).
Proof.
  intros [Hm Hv] f p len q Hu Hf Hlen -> He Ht. unfold parse_tversion. rewrite Ht. cbn [tbody tfid tpayload negb Z.eqb Pos.eqb P9_NOTAG].
  cfield. eapply consumes_last; [cgstr|].
  intros. cbv beta. unfold set_u. rewrite Hf, length_app, Nat.add_assoc, length_le_enc. rewrite Ht. apply consumes_ret.
Qed.

Lemma parses_tattach fid afid un an : wf_t (Tattach fid afid un an) -> parses parse_tattach (Tattach fid afid un an).
Proof.
  intros (Hf1 & Hf2 & Hu1 & Hu2) f p len q Hu Hf Hlen -> He _. unfold parse_tattach. cbn [tbody tfid tpayload].
  do 2 cfield. eapply consumes_bind; [reflexivity|cgstr|]. cbv beta iota.
  eapply consumes_last; [cgstr|].
  cend.
Qed.

Lemma parses_tflush oldtag : wf_t (Tflush oldtag) -> parses parse_tflush (Tflush oldtag).
Proof.
  intros Ho f p len q Hu Hf Hlen -> He _. unfold parse_tflush, set_u. rewrite Hf. cbn [tbody tfid tpayload wf_t] in *.
  rewrite length_le_enc. clast.
Qed.

Lemma parses_twalk fid newfid ws : wf_t (Twalk fid newfid ws) -> parses parse_twalk (Twalk fid newfid ws).
Proof.
  intros (Hf1 & Hf2 & Hws & Hn) f p len q Hu Hf Hlen -> He _. unfold parse_twalk. cbn [tbody tfid tpayload].
  unfold P9_MAXWELEM in Hn. do 3 cfield. cbv beta. rewrite Nat2Z.id.
  eapply consumes_last; [eapply consumes_at; [|apply consumes_twalk_loop; [done|clen|done|simpl; unfold P9_MAXWELEM; lia]]; clen|].
  cend.
Qed.

Lemma parses_topen fid mode : wf_t (Topen fid mode) -> parses parse_topen (Topen fid mode).
Proof.
  intros (Hf1 & Hf2) f p len q Hu Hf Hlen -> He _. unfold parse_topen. cbn [tbody tfid tpayload].
  rewrite length_app, !length_le_enc. cfield. clast.
Qed.

Lemma parses_tcreate fid name perm mode : wf_t (Tcreate fid name perm mode) -> parses parse_tcreate (Tcreate fid name perm mode).
Proof.
  intros (Hf1 & Hn & Hf2 & Hf3) f p len q Hu Hf Hlen -> He _. unfold parse_tcreate. cbn [tbody tfid tpayload].
  cfield. eapply consumes_bind; [reflexivity|cgstr|]. cbv beta iota.
  cfield. clast.
Qed.

Lemma parses_tread fid offset count : wf_t (Tread fid offset count) -> parses parse_tread (Tread fid offset count).
Proof.
  intros (Hf1 & Ho & Hc) f p len q Hu Hf Hlen -> He _. unfold parse_tread. cbn [tbody tfid tpayload].
  rewrite !length_app, !length_le_enc. do 2 cfield. clast.
Qed.

Lemma parses_twrite fid offset data : wf_t (Twrite fid offset data) -> parses parse_twrite (Twrite fid offset data).
Proof.
  intros (Hf1 & Ho & Hd) f p len q Hu Hf Hlen -> He _. unfold parse_twrite. cbn [tbody tfid tpayload].
  assert (Z.of_nat (length data) < 65536) by clen. do 3 cfield. cbv beta.
  destruct (Z.leb_spec (u32 P9_MAXDATALEN) (Z.of_nat (length data))) as [Hbad|_]; [exfalso; change (u32 P9_MAXDATALEN) with 4294967292 in Hbad; lia|].
  rewrite Nat2Z.id. eapply consumes_last; [eapply consumes_at; [|by apply consumes_get_data]; clen|].
  cend.
Qed.

Lemma parses_fid parse m :
  (forall f p len, parse f p len = (fid ← GBIT32 p; ret (Some ((p + 4)%nat, set_fid f fid)))) ->
  tbody m = le_enc 4 (tfid m) -> fits 32 (tfid m) -> tpayload m = PZero -> parses parse m.
Proof.
  intros Hp Hb Hf Hu f p len q Hfu Hff Hlen -> He _. rewrite Hp, Hb, Hu, length_le_enc. unfold set_fid. rewrite <-Hfu. clast.
Qed.

Lemma parsefunc_parses m :
  wf_t m -> exists parse, parsefunc (ttype m) = Some parse /\ parses parse m.
Proof.
  intros Hm. destruct m; simpl in Hm; eexists; (split; [reflexivity|]).
  - by apply parses_tversion.
  - by apply parses_tattach.
  - by apply parses_tflush.
  - by apply parses_twalk.
  - by apply parses_topen.
  - by apply parses_tcreate.
  - by apply parses_tread.
  - by apply parses_twrite.
  - by apply parses_fid.
  - by apply parses_fid.
  - by apply parses_fid.
Qed.

Lemma twire_length type tag body : length (wire type tag body) = (7 + length body)%nat.
Proof. unfold wire. rewrite !length_app, !length_le_enc. lia. Qed.

Lemma tsize m tag :
  wf_t m -> Z.of_nat (length (tbody m)) < 65534 ->
  p9_getfcallsize (fcall_of tag m) = Some (7 + Z.of_nat (length (tbody m))).
Proof.
  intros Hm Hl. unfold p9_getfcallsize, fcall_of. cbn [f_type].
  destruct m; simpl sizefunc; cbv [size_tversion size_tattach size_tflush size_twalk size_topen size_tcreate
    size_tread size_twrite size_tclunk size_tremove size_tstat]; cbn [f_u tpayload fmap option_fmap option_map];
    f_equal; try (rewrite !u16_string by clen); try (clen; unwrap; lia).
  - rewrite Nat2Z.id.
    assert (Hsum : foldr Z.add 0 (map (λ i : nat, p9_stringsz (wname !! i)) (seq 0 (length wname))) =
      Z.of_nat (length (concat (map p9str wname)))).
    { cbn [tbody] in Hl. assert (Hl' : Z.of_nat (length (concat (map p9str wname))) < 65534) by clen. clear Hl Hm.
      induction wname as [|w ws IH]; [done|]. cbn [map concat length] in Hl'. rewrite length_app in Hl'.
      cbn [length seq map foldr concat]. rewrite <-fmap_S_seq. change (S <$> seq 0 (length ws)) with (map S (seq 0 (length ws))).
      rewrite map_map, length_app. simpl (_ !! _). rewrite IH by lia. rewrite u16_string; [lia|]. clen. }
    rewrite Hsum. clen; unwrap; lia.
Qed.

Lemma parsefcall_ok tag m pre post :
  wf_t m -> fits 16 tag -> (match m with Tversion _ _ => tag = P9_NOTAG | _ => True end) ->
  Z.of_nat (length (pre ++ wire (ttype m) tag (tbody m) ++ post)) <= P9_MAXMSGLEN ->
  exists w', length w' = length (wire (ttype m) tag (tbody m)) /\
    parsefcall (length pre) (Z.of_nat (length w')) (pre ++ wire (ttype m) tag (tbody m) ++ post) =
      Ok (Some (fcall_of tag m)) (pre ++ w' ++ post) /\
    p9_getfcallsize (fcall_of tag m) = Some (Z.of_nat (length w')).
Proof.
  intros Hm Ht Htag Hl. unfold P9_MAXMSGLEN in Hl.
  assert (Hb : Z.of_nat (length (tbody m)) < 8192) by (rewrite !length_app, twire_length in Hl; lia).
  destruct (parsefunc_parses m Hm) as (parse & Ef & Hp).
  set (b := pre ++ wire (ttype m) tag (tbody m) ++ post) in *.
  assert (Htype : fits 8 (ttype m)) by (destruct m; split; vm_compute; congruence).
  assert (Hc : consumes (parsefcall (length pre) (7 + Z.of_nat (length (tbody m)))) (length pre)
    (wire (ttype m) tag (tbody m)) (Some (fcall_of tag m))).
  { unfold parsefcall. destruct (Z.ltb_spec (7 + Z.of_nat (length (tbody m))) P9_HDR_SIZE) as [Hbad|_]; [unfold P9_HDR_SIZE in Hbad; lia|].
    unfold wire. rewrite !(app_assoc _ _ (tbody m)). eapply consumes_bind; [reflexivity| |].
    - unfold parse_hdr. do 2 cfield. eapply consumes_last; [cgbit|]. intros. cbv beta. apply consumes_ret.
    - cbv beta iota. cbn [f_size f_type]. unfold P9_HDR_SIZE. rewrite s32_small by lia. rewrite Ef.
      eapply (consumes_last _ _ _ _ (Some (_, fcall_of tag m))); [|intros; cbv beta; apply consumes_ret].
      eapply consumes_at; [|apply Hp; [done|done|cbn; lia|reflexivity| |done]]; [clen|].
      unfold end_of. unfold b in Hl. rewrite !length_app, twire_length in Hl. lia. }
  destruct (Hc b post) as (b' & E & Hd & Htk & Hlb); [unfold b; by rewrite drop_app_length|unfold b; rewrite length_app; lia|].
  rewrite twire_length in *. exists (sub_bytes (length pre) (7 + length (tbody m)) b').
  assert (Hlb' : (length pre + (7 + length (tbody m)) <= length b')%nat)
    by (rewrite Hlb; unfold b; rewrite !length_app, twire_length; lia).
  rewrite length_sub_bytes by done. split; [done|]. split; [|rewrite tsize by (done || lia); f_equal; lia].
  replace (Z.of_nat (7 + length (tbody m))) with (7 + Z.of_nat (length (tbody m))) by lia.
  rewrite E. f_equal. unfold sub_bytes. rewrite <-Hd.
  unfold b in Htk. rewrite take_app_length in Htk.
  rewrite <-(take_drop (length pre) b') at 1. rewrite Htk. f_equal.
  rewrite <-drop_drop. symmetry. apply take_drop.
Qed.


(** A walk of two names from fid 1 to fid 2, behind another message in the buffer. *)
Definition wit_walk : tmsg := Twalk 1 2 [[117; 115; 114]; [109]].


(** * Composing *)

Inductive rmsg : Type :=
| Rversion (msize : Z) (version : bytes)
| Rattach (qid : p9_qid)
| Rerror (ename : bytes)
| Rflush
| Rwalk (wqid : list p9_qid)
| Ropen (qid : p9_qid) (iounit : Z)
| Rcreate (qid : p9_qid) (iounit : Z)
| Rread (data : bytes)
| Rwrite (count : Z)
| Rclunk
| Rremove
| Rstat (st : p9_stat)
| Rwstat.

Definition rtype (m : rmsg) : Z :=
  match m with
  | Rversion _ _ => P9_RVERSION | Rattach _ => P9_RATTACH | Rerror _ => P9_RERROR
  | Rflush => P9_RFLUSH | Rwalk _ => P9_RWALK | Ropen _ _ => P9_ROPEN
  | Rcreate _ _ => P9_RCREATE | Rread _ => P9_RREAD | Rwrite _ => P9_RWRITE
  | Rclunk => P9_RCLUNK | Rremove => P9_RREMOVE | Rstat _ => P9_RSTAT | Rwstat => P9_RWSTAT
  end.

Definition qid_bytes (q : p9_qid) : bytes :=
  le_enc 1 (q_type q) ++ le_enc 4 (q_vers q) ++ le_enc 8 (q_path q).

(** The fields of a stat behind its size. *)
Definition stat_bytes (st : p9_stat) : bytes :=
  le_enc 2 (s9_type st) ++ le_enc 4 (s9_dev st) ++ qid_bytes (s9_qid st) ++ le_enc 4 (s9_mode st) ++
  le_enc 4 (s9_atime st) ++ le_enc 4 (s9_mtime st) ++ le_enc 8 (s9_length st) ++
  p9ostr (s9_name st) ++ p9ostr (s9_uid st) ++ p9ostr (s9_gid st) ++ p9ostr (s9_muid st).

Definition rbody (m : rmsg) : bytes :=
  match m with
  | Rversion msize version => le_enc 4 msize ++ p9str version
  | Rattach q => qid_bytes q
  | Rerror ename => p9str ename
  | Rwalk qs => le_enc 2 (Z.of_nat (length qs)) ++ concat (map qid_bytes qs)
  | Ropen q iounit | Rcreate q iounit => qid_bytes q ++ le_enc 4 iounit
  | Rread data => le_enc 4 (Z.of_nat (length data)) ++ data
  | Rwrite count => le_enc 4 count
  | Rstat st =>
      le_enc 2 (2 + Z.of_nat (length (stat_bytes st))) ++ le_enc 2 (Z.of_nat (length (stat_bytes st))) ++ stat_bytes st
  | Rflush | Rclunk | Rremove | Rwstat => []
  end.

(** The structure as the handlers of the server fill it: what they leave alone is arbitrary
    where it is not sent ([any]), and the rest of the array of qids is [qpad]. *)
Definition rpayload (any : payload) (qpad : list p9_qid) (m : rmsg) : payload :=
  match m with
  | Rversion msize version => PVersion msize (Some version)
  | Rattach q => PQid q 0
  | Rerror ename => PError (Some ename)
  | Rwalk qs => PWqid (Z.of_nat (length qs)) (qs ++ qpad)
  | Ropen q iounit | Rcreate q iounit => PQid q iounit
  | Rread data => PIo 0 (Z.of_nat (length data)) data
  | Rwrite count => PIo 0 count []
  | Rstat st => PStat (2 + Z.of_nat (length (stat_bytes st))) (Z.of_nat (length (stat_bytes st))) st
  | Rflush | Rclunk | Rremove | Rwstat => any
  end.

(** [m] writes [w] at [p] and nothing else, and returns [a]. *)
Definition emits {A} (m : M bytes A) (p : nat) (w : bytes) (a : A) : Prop :=
  forall b, (p + length w <= length b)%nat -> m b = Ok a (upd_bytes p w b).

Lemma upd_bytes_nil p (b : bytes) : upd_bytes p [] b = b.
Proof. unfold upd_bytes. simpl. by rewrite Nat.add_0_r, take_drop. Qed.

Lemma upd_bytes_seq p w1 w2 (b : bytes) :
  (p + length w1 + length w2 <= length b)%nat ->
  upd_bytes (p + length w1) w2 (upd_bytes p w1 b) = upd_bytes p (w1 ++ w2) b.
Proof.
  intros Hl.
  assert (Hq : length (take p b ++ w1) = (p + length w1)%nat) by (rewrite length_app, length_take; lia).
  assert (E : take (p + length w1) (upd_bytes p w1 b) = take p b ++ w1).
  { unfold upd_bytes. rewrite app_assoc, <-Hq at 1. apply take_app_length. }
  assert (E' : drop (p + length w1 + length w2) (upd_bytes p w1 b) = drop (p + length w1 + length w2) b).
  { unfold upd_bytes. rewrite app_assoc, drop_app_ge by lia. rewrite Hq, drop_drop. f_equal. lia. }
  unfold upd_bytes at 1. rewrite E, E'. unfold upd_bytes. by rewrite length_app, <-!app_assoc, Nat.add_assoc.
Qed.

Lemma emits_ret {A} (a : A) p : emits (ret a) p [] a.
Proof. intros b _. by rewrite upd_bytes_nil. Qed.

Lemma emits_bind {A B} (m : M bytes A) (f : A -> M bytes B) p w1 w2 a c :
  emits m p w1 a -> emits (f a) (p + length w1) w2 c -> emits (bind m f) p (w1 ++ w2) c.
Proof.
  intros Hm Hf b Hl. rewrite length_app in Hl.
  rewrite (bind_ok _ _ _ _ _ (Hm b ltac:(lia))). rewrite Hf.
  - by rewrite upd_bytes_seq by lia.
  - rewrite length_upd_bytes; lia.
Qed.

Lemma emits_last {A B} (m : M bytes A) (f : A -> M bytes B) p w a c :
  emits m p w a -> (forall q, emits (f a) q [] c) -> emits (bind m f) p w c.
Proof. intros Hm Hf. rewrite <-(app_nil_r w). by eapply emits_bind. Qed.

Lemma emits_at {A} (m : M bytes A) p q w a : p = q -> emits m p w a -> emits m q w a.
Proof. by intros ->. Qed.

Lemma emits_PBIT n p v : emits (PBIT n p v) p (le_enc n v) tt.
Proof. intros b Hl. rewrite length_le_enc in Hl. unfold PBIT, put_le. by rewrite decide_True by lia. Qed.

Lemma emits_put_bytes p s : emits (put_bytes p s) p s tt.
Proof. intros b Hl. unfold put_bytes. by rewrite decide_True by lia. Qed.

Ltac elen := unfold p9ostr, qid_bytes, p9str in *; repeat (rewrite ?length_app, ?length_le_enc in * ); simpl length in *; try lia.
Ltac epbit := eapply emits_at; [|apply emits_PBIT]; elen.
Ltac efield := eapply emits_bind; [epbit|cbv beta].

Lemma emits_pstring p s : emits (p9_pstring p s) p (p9ostr s) (p + length (p9ostr s))%nat.
Proof.
  unfold p9_pstring, p9ostr, p9str. destruct s as [s|]; simpl default.
  - efield. eapply emits_last; [eapply emits_at; [|apply emits_put_bytes]; elen|].
    intros. cbv beta. rewrite length_app, length_le_enc, Nat.add_assoc. apply emits_ret.
  - simpl length. rewrite app_nil_r. eapply emits_last; [epbit|]. intros. apply emits_ret.
Qed.

Ltac estr := eapply emits_at; [|apply emits_pstring]; elen.

Lemma emits_qid p q : emits (compose_qid p q) p (qid_bytes q) tt.
Proof. unfold compose_qid, qid_bytes. do 2 efield. epbit. Qed.

Lemma length_qid_bytes q : length (qid_bytes q) = 13%nat.
Proof. unfold qid_bytes. by rewrite !length_app, !length_le_enc. Qed.

Ltac eqid := eapply emits_at; [|apply emits_qid]; elen.

Lemma emits_qids qs qpad p :
  emits (compose_qids (length qs) (qs ++ qpad) p) p (concat (map qid_bytes qs)) tt.
Proof.
  revert p. induction qs as [|q qs IH]; intros p; cbn [length compose_qids map concat app]; [apply emits_ret|].
  eapply emits_bind; [eqid|]. cbv beta. rewrite length_qid_bytes. apply IH.
Qed.

Lemma emits_data d p : Forall is_byte d -> emits (put_data (length d) d p) p d tt.
Proof.
  intros Hd. revert p. induction Hd as [|x d Hx Hd IH]; intros p; cbn [length put_data]; [apply emits_ret|].
  change (x :: d) with ([x] ++ d).
  replace [x] with (le_enc 1 x) by (simpl; unfold is_byte in Hx; by rewrite Z.mod_small by lia).
  eapply emits_bind; [apply emits_PBIT|]. cbv beta. rewrite length_le_enc. apply IH.
Qed.

Lemma emits_stat_fields p st :
  emits (compose_stat_fields p st) p (stat_bytes st) (p + length (stat_bytes st))%nat.
Proof.
  unfold compose_stat_fields, stat_bytes. do 2 efield.
  eapply emits_bind; [eqid|cbv beta]. do 4 efield.
  do 3 (eapply emits_bind; [estr|cbv beta]).
  match goal with |- emits (p9_pstring ?q ?s) _ _ ?r => replace r with (q + length (p9ostr s))%nat by elen end. estr.
Qed.

Lemma p9_stringsz_ostr s : Z.of_nat (length (p9ostr s)) < 65536 -> p9_stringsz s = Z.of_nat (length (p9ostr s)).
Proof. intros H. destruct s as [s|]; [|done]. apply u16_string. unfold p9ostr, p9str in H. simpl default in H. rewrite length_app, length_le_enc in H. lia. Qed.

(** What the composer of each response writes behind the header. *)
Lemma composefunc_emits m any qpad f p :
  f_u f = rpayload any qpad m -> (match m with Rread data => Forall is_byte data | _ => True end) ->
  exists compose, composefunc (rtype m) = Some compose /\ emits (compose f p) p (rbody m) tt.
Proof.
  intros Hu Hm. destruct m; simpl in Hu; eexists; (split; [reflexivity|]);
    unfold compose_rversion, compose_rattach, compose_rerror, compose_rwalk, compose_ropen,
      compose_rcreate, compose_rread, compose_rwrite, compose_rstat; rewrite ?Hu; cbn [rbody].
  - efield. eapply emits_last; [change (p9str version) with (p9ostr (Some version)); estr|intros; apply emits_ret].
  - apply emits_qid.
  - eapply emits_last; [change (p9str ename) with (p9ostr (Some ename)); apply emits_pstring|intros; apply emits_ret].
  - apply emits_ret.
  - rewrite Nat2Z.id. efield. eapply emits_at; [|apply emits_qids]. elen.
  - eapply emits_bind; [apply emits_qid|]. epbit.
  - eapply emits_bind; [apply emits_qid|]. epbit.
  - rewrite Nat2Z.id. efield. eapply emits_at; [|by apply emits_data]. elen.
  - apply emits_PBIT.
  - apply emits_ret.
  - apply emits_ret.
  - do 2 efield. eapply emits_last; [eapply emits_at; [|apply emits_stat_fields]; elen|intros; apply emits_ret].
  - apply emits_ret.
Qed.

Lemma concat_qids qs : length (concat (map qid_bytes qs)) = (13 * length qs)%nat.
Proof. induction qs as [|q qs IH]; [done|]. cbn [map concat length]. rewrite length_app, length_qid_bytes, IH. lia. Qed.

Lemma rsize n tag fid any qpad m :
  Z.of_nat (length (rbody m)) < 65536 ->
  p9_getfcallsize (mkfcall n (rtype m) tag fid (rpayload any qpad m)) = Some (7 + Z.of_nat (length (rbody m))).
Proof.
  intros Hl. unfold p9_getfcallsize. cbn [f_type].
  destruct m; simpl sizefunc; cbv [size_rversion size_rattach size_rerror size_rflush size_rwalk size_ropen size_rcreate
    size_rread size_rwrite size_rclunk size_rremove size_rstat size_rwstat P9_QIDSZ];
    cbn [f_u rpayload fmap option_fmap option_map rbody] in *; f_equal;
    try (rewrite p9_stringsz_ostr by (unfold p9ostr; simpl default; elen)); try rewrite s32_small by elen;
    try rewrite length_app, concat_qids in *; try (elen; unwrap; lia).
Qed.

(** C32: every response is sent as the protocol lays it out: the size computed beforehand is the
    number of bytes written, [composefcall] writes exactly the message and leaves the rest
    of the send buffer alone.  [any] and [qpad] are members of the structure that the handlers did not set. *)
Theorem composefcall_wire tag m any qpad b :
  (match m with Rread data => Forall is_byte data | _ => True end) ->
  Z.of_nat (length (wire (rtype m) tag (rbody m))) <= P9_MAXMSGLEN ->
  (length (wire (rtype m) tag (rbody m)) <= length b)%nat ->
  let size := Z.of_nat (length (wire (rtype m) tag (rbody m))) in
  p9_getfcallsize (mkfcall 0 (rtype m) 0 0 (rpayload any qpad m)) = Some size /\
  composefcall (mkfcall size (rtype m) tag 0 (rpayload any qpad m)) b =
    Ok tt (upd_bytes 0 (wire (rtype m) tag (rbody m)) b).
Proof.
  intros Hm Hmax Hl size. unfold size. unfold P9_MAXMSGLEN in Hmax.
  assert (Hs : Z.of_nat (length (wire (rtype m) tag (rbody m))) = 7 + Z.of_nat (length (rbody m))) by (rewrite twire_length; lia).
  rewrite Hs in *. split; [apply rsize; lia|].
  set (f := mkfcall _ _ _ _ _). destruct (composefunc_emits m any qpad f 7) as (compose & Ec & He); [done|done|].
  assert (Hc : emits (composefcall f) 0 (wire (rtype m) tag (rbody m)) tt).
  { unfold composefcall, wire, f. cbn [f_size f_type f_tag]. do 3 efield. rewrite Ec.
    eapply emits_at; [|exact He]. elen. }
  by apply Hc.
Qed.

Lemma composefcall_wire_witness :
  let m := Rread [1; 2; 3] in
  p9_getfcallsize (mkfcall 0 (rtype m) 0 0 (rpayload PZero [] m)) = Some 14 /\
  composefcall (mkfcall 14 (rtype m) 5 0 (rpayload PZero [] m)) (replicate 16 255) =
    Ok tt ([14; 0; 0; 0; 117; 5; 0; 3; 0; 0; 0; 1; 2; 3] ++ [255; 255]).
Proof.
  intros m. apply (composefcall_wire 5 m PZero [] (replicate 16 255)).
  - repeat constructor; done.
  - vm_compute. discriminate.
  - vm_compute. lia.
Defined.
