(* ===== verification/P9Server.v ===== *)
(** The 9P server (user/9psv): fids, files, the handlers of the requests and the
    connection.

    [p9_fid] and [p9_file] objects live in heaps; [free] removes an object, and a use of
    an object that is not there (a null pointer, a freed object) is [Undef].  The system calls
    are the interface [Sys]. *)

From S2P Require Import Prelude ULib IntMap P9.

(** * System calls *)

Record fstat := mkfstat { st_dev : Z; st_ino : Z; st_type : Z; st_size : Z }.

(** [E] is what the kernel keeps; [None] and -1 are the errors. *)
Class Sys (E : Type) := {
  sys_open : bytes -> Z -> E -> Z * E;
  sys_fstat : Z -> E -> option fstat;
  sys_read : Z -> nat -> E -> option bytes * E;
  sys_write : Z -> bytes -> E -> Z * E;
  sys_close : Z -> E -> E;
  sys_mkdir : bytes -> E -> Z * E;
  sys_unlink : bytes -> E -> Z * E }.

Definition O_RDONLY : Z := 0.
Definition O_RDWR : Z := 2.
Definition O_CREATE : Z := 512.
Definition T_DIR : Z := 1.
Definition P9_ODIR : Z := 128.
Definition P9_MODE_DIR : Z := 2147483648.
Definition P9_DEFPERM : Z := 511.
Definition SLASH : Z := 47.

(** * State *)

Record p9_file := mkfile { fl_path : bytes; fl_childs : list bytes }.
Record p9_fid := mkfid { fd_fid : Z; fd_fd : Z; fd_file : option nat; fd_offset : Z }.

(** A request after its handler: -1, an error reply, or the members of the reply. *)
Inductive hres : Type :=
| Fail
| Err (ename : bytes)
| Reply (u : payload).

Section server.
Context {E : Type} `{Sys E}.

(** [srv] with its heaps and the kernel behind the system calls. *)
Record srv := mksrv {
  env : E;
  files : gmap nat p9_file;
  fids : gmap nat p9_fid;
  next : nat;
  fpool : list (list (Z * nat));
  root : nat;
  done : bool }.

Definition set_env (e : E) (s : srv) : srv := mksrv e (files s) (fids s) (next s) (fpool s) (root s) (done s).
Definition set_files (f : gmap nat p9_file) (s : srv) : srv := mksrv (env s) f (fids s) (next s) (fpool s) (root s) (done s).
Definition set_fids (f : gmap nat p9_fid) (s : srv) : srv := mksrv (env s) (files s) f (next s) (fpool s) (root s) (done s).
Definition set_pool (p : list (list (Z * nat))) (s : srv) : srv := mksrv (env s) (files s) (fids s) (next s) p (root s) (done s).
Definition bump (s : srv) : srv := mksrv (env s) (files s) (fids s) (S (next s)) (fpool s) (root s) (done s).

Definition sys {A} (f : E -> A * E) : M srv A := fun s => let '(a, e) := f (env s) in Ok a (set_env e s).

(** Access through a pointer. *)
Definition file_at (p : option nat) : M srv p9_file := fun s =>
  match p with
  | None => Undef
  | Some l => match files s !! l with Some f => Ok f s | None => Undef end
  end.
Definition fid_at (l : nat) : M srv p9_fid := fun s =>
  match fids s !! l with Some f => Ok f s | None => Undef end.
Definition set_fid_at (l : nat) (f : p9_fid) : M srv unit := modify (fun s => set_fids (<[l := f]> (fids s)) s).

(** * Files *)

Definition p9_allocfile (path : bytes) : M srv nat := fun s =>
  Ok (next s) (bump (set_files (<[next s := mkfile path []]> (files s)) s)).

Definition p9_freefile (p : option nat) : M srv unit :=
  _ ← file_at p;
  modify (fun s => set_files (match p with Some l => delete l (files s) | None => files s end) s).

(** * Fids *)

Definition p9_lookupfid (id : Z) : M srv (option nat) := gets (fun s => lookupkey (fpool s) id).

Definition p9_removefid (id : Z) : M srv (option nat) := fun s =>
  let '(r, p) := deletekey (fpool s) id in Ok r (set_pool p s).

Definition freefid (l : nat) : M srv unit :=
  f ← fid_at l;
  p9_freefile (fd_file f);;
  _ ← p9_removefid (fd_fid f);
  when (negb (fd_fd f =? -1)) (modify (fun s => set_env (sys_close (fd_fd f) (env s)) s));;
  modify (fun s => set_fids (delete l (fids s)) s).

(** [None]: the identifier is in use. *)
Definition p9_allocfid (id : Z) (file : option nat) : M srv (option nat) :=
  l ← gets next;
  modify (fun s => bump (set_fids (<[l := mkfid id (-1) file 0]> (fids s)) s));;
  p ← gets fpool;
  let '(ok, p') := caninsertkey p id l in
  if ok then (modify (set_pool p');; ret (Some l))
  else (freefid l;; ret None).

(** * Qids and stats *)

Definition to_qid_type (t : Z) : Z := if negb (Z.land t T_DIR =? 0) then P9_ODIR else 0.
Definition P9_IS_DIR (t : Z) : bool := negb (Z.land t P9_ODIR =? 0).

Definition p9open (path : bytes) (mode : Z) : M srv Z := sys (sys_open path mode).
Definition close (fd : Z) : M srv unit := modify (fun s => set_env (sys_close fd (env s)) s).

(** [None] is the result -1.  The descriptor stays open when [fstat] fails. *)
Definition p9_getqid (path : bytes) : M srv (option p9_qid) :=
  fd ← p9open path O_RDONLY;
  if fd =? -1 then ret None
  else
    st ← gets (fun s => sys_fstat fd (env s));
    match st with
    | None => ret None
    | Some st => close fd;; ret (Some (mkqid (st_ino st) 0 (to_qid_type (st_type st))))
    end.

(** The part of a path after its last slash; [None]: the loop runs before the string. *)
Fixpoint p9_getfilename (path : bytes) : option bytes :=
  match path with
  | [] => None
  | c :: path' =>
      match p9_getfilename path' with
      | Some r => Some r
      | None => if c =? SLASH then Some path' else None
      end
  end.

Definition nobody : bytes := [110; 111; 98; 111; 100; 121].

Definition p9_getstat (path : bytes) : M srv (option p9_stat) :=
  fd ← p9open path O_RDONLY;
  if fd =? -1 then ret None
  else
    st ← gets (fun s => sys_fstat fd (env s));
    match st with
    | None => ret None
    | Some st =>
        match p9_getfilename path with
        | None => undef
        | Some name =>
            let dir := Z.land (st_type st) T_DIR in
            let size := 41 - 2 + Z.of_nat (length name) + Z.of_nat (length nobody) + 0 + 0 + 2 * 4 in
            close fd;;
            ret (Some (mkstat9 size 0 (st_dev st)
              (mkqid (st_ino st) 0 (to_qid_type (st_type st)))
              (u32 (Z.shiftl dir 31 + P9_DEFPERM)) 0 0
              (if dir =? 0 then st_size st else 0)
              (Some name) (Some nobody) (Some []) (Some [])))
        end
    end.

(** * Directories *)

Definition PATHSZ : nat := 256.
Definition MAXCHILDS : nat := 32.

(** A path in a buffer of 256 bytes. *)
Definition in_path (path : bytes) : M srv unit :=
  if (length path <? PATHSZ)%nat then ret tt else undef.

(** [path] with a slash at its end; the code looks at the byte before the end. *)
Definition with_slash (path : bytes) : M srv bytes :=
  match last path with
  | None => undef
  | Some c => ret (if c =? SLASH then path else path ++ [SLASH])
  end.

(** The loop over the entries of a directory; an entry is 16 bytes, the name of a used one ends
    with a zero byte. *)
Fixpoint getdir_loop (fuel : nat) (fd : Z) (path : bytes) (childs : list bytes) : M srv (list bytes) :=
  match fuel with
  | O => nofuel
  | S fuel' =>
      r ← sys (sys_read fd 16);
      match r with
      | Some de =>
          if (length de =? 16)%nat then
            if get_le 2 0 de =? 0 then getdir_loop fuel' fd path childs
            else
              match cstring (drop 2 de) with
              | None => undef
              | Some name =>
                  if (length childs <? MAXCHILDS)%nat
                  then getdir_loop fuel' fd path (childs ++ [path ++ name])
                  else undef
              end
          else ret childs
      | None => ret childs
      end
  end.

(** [false] is the result -1. *)
Definition p9_getdir (fuel : nat) (l : option nat) : M srv bool :=
  file ← file_at l;
  path ← with_slash (fl_path file);
  in_path path;;
  fd ← p9open path O_RDONLY;
  if fd =? -1 then ret false
  else
    childs ← getdir_loop fuel fd path [];
    modify (fun s => set_files (match l with
      | Some l => <[l := mkfile (fl_path file) childs]> (files s) | None => files s end) s);;
    close fd;;
    ret true.

(** * The handlers *)

Definition s_nofile : bytes := [78; 111; 32; 115; 117; 99; 104; 32; 102; 105; 108; 101; 32; 111; 114; 32; 100; 105; 114; 101; 99; 116; 111; 114; 121].
Definition s_nodirent : bytes := [100; 105; 114; 101; 99; 116; 111; 114; 121; 32; 101; 110; 116; 114; 121; 32; 110; 111; 116; 32; 102; 111; 117; 110; 100].
Definition s_fileexists : bytes := [70; 105; 108; 101; 32; 101; 120; 105; 115; 116; 115].
Definition s_notfound : bytes := [102; 105; 108; 101; 32; 110; 111; 116; 32; 102; 111; 117; 110; 100].
Definition s_notdir : bytes := [78; 111; 116; 32; 97; 32; 100; 105; 114; 101; 99; 116; 111; 114; 121].
Definition s_unknownfid : bytes := [102; 105; 100; 32; 117; 110; 107; 110; 111; 119; 110; 32; 111; 114; 32; 111; 117; 116; 32; 111; 102; 32; 114; 97; 110; 103; 101].
Definition s_perm : bytes := [80; 101; 114; 109; 105; 115; 115; 105; 111; 110; 32; 100; 101; 110; 105; 101; 100].
Definition s_botch : bytes := [57; 80; 32; 112; 114; 111; 116; 111; 99; 111; 108; 32; 98; 111; 116; 99; 104].
Definition s_badoffset : bytes := [98; 97; 100; 32; 111; 102; 102; 115; 101; 116; 32; 105; 110; 32; 100; 105; 114; 101; 99; 116; 111; 114; 121; 32; 114; 101; 97; 100].

(** [errmap] has nine entries. *)
Definition errmap : list bytes :=
  [s_nofile; s_nodirent; s_fileexists; s_notfound; s_notdir; s_unknownfid; s_perm; s_botch; s_badoffset].

Definition P9_NOFILE : Z := 0.
Definition P9_UNKNOWNFID : Z := 5.
Definition P9_PERM : Z := 6.
Definition P9_BOTCH : Z := 7.

Definition p9_geterrstr (key : Z) : M srv bytes :=
  if key <? 0 then undef
  else match errmap !! Z.to_nat key with Some s => ret s | None => undef end.

Definition err (key : Z) : M srv hres := s ← p9_geterrstr key; ret (Err s).

(** The fid of a request, or the error reply. *)
Definition with_fid (id : Z) (k : nat -> M srv hres) : M srv hres :=
  r ← p9_lookupfid id;
  match r with
  | None => err P9_UNKNOWNFID
  | Some l => k l
  end.

Definition VERSION9P : bytes := [57; 80; 50; 48; 48; 48].
Definition unknown : bytes := [117; 110; 107; 110; 111; 119; 110].

Definition rversion (f : p9_fcall) : M srv hres :=
  match f_u f with
  | PVersion msize (Some version) =>
      if bool_decide (take 6 version = VERSION9P)
      then ret (Reply (PVersion P9_MAXMSGLEN (Some VERSION9P)))
      else ret (Reply (PVersion msize (Some unknown)))
  | _ => undef
  end.

Definition rattach (f : p9_fcall) : M srv hres :=
  match f_u f with
  | PAuth afid _ _ =>
      root ← gets root;
      r ← p9_allocfid (f_fid f) (Some root);
      match r with
      | None => err (s32 P9_NOFID)
      | Some _ =>
          if negb (afid =? P9_NOFID) then err P9_PERM
          else
            file ← file_at (Some root);
            q ← p9_getqid (fl_path file);
            match q with
            | None => err P9_NOFILE
            | Some q => ret (Reply (PQid q 0))
            end
      end
  | _ => undef
  end.

(** The walk over the names: the path that is reached and the qids on the way; [None]
    when a name does not exist. *)
Fixpoint walk_names (path : bytes) (names : list bytes) : M srv (bytes * option (list p9_qid)) :=
  match names with
  | [] => ret (path, Some [])
  | n :: names' =>
      p ← with_slash path;
      let path' := p ++ n in
      in_path path';;
      q ← p9_getqid path';
      match q with
      | None => ret (path', None)
      | Some q =>
          r ← walk_names path' names';
          ret (r.1, cons q <$> r.2)
      end
  end.

Definition rwalk (f : p9_fcall) : M srv hres :=
  match f_u f with
  | PWname newfid nwname wname =>
      with_fid (f_fid f) (fun l =>
        fid ← fid_at l;
        par ← file_at (fd_file fid);
        in_path (fl_path par);;
        r ← walk_names (fl_path par) wname;
        match r with
        | (_, None) => err P9_NOFILE
        | (path, Some qs) =>
            n ← p9_allocfid newfid None;
            match n with
            | None => ret Fail
            | Some nl =>
                nf ← fid_at nl;
                file ← p9_allocfile path;
                set_fid_at nl (mkfid (fd_fid nf) (fd_fd nf) (Some file) (fd_offset nf));;
                ret (Reply (PWqid nwname qs))
            end
        end)
  | _ => undef
  end.

Definition ropen (f : p9_fcall) : M srv hres :=
  with_fid (f_fid f) (fun l =>
    fid ← fid_at l;
    match fd_file fid with
    | None => err P9_NOFILE
    | Some _ =>
        file ← file_at (fd_file fid);
        q ← p9_getqid (fl_path file);
        match q with
        | None => err P9_NOFILE
        | Some q =>
            let mode := if P9_IS_DIR (q_type q) then O_RDONLY else O_RDWR in
            fd ← p9open (fl_path file) mode;
            set_fid_at l (mkfid (fd_fid fid) fd (fd_file fid) (fd_offset fid));;
            if fd =? -1 then err P9_NOFILE
            else ret (Reply (PQid q 0))
        end
    end).

(** The entries of a directory, one after the other in the buffer [dp] of the reply; what does
    not fit is written outside of it. *)
Fixpoint read_dir_loop (childs : list bytes) (dp : nat) (buf : bytes) : M srv (nat * bytes) :=
  match childs with
  | [] => ret (dp, buf)
  | c :: childs' =>
      st ← p9_getstat c;
      match st with
      | None => undef
      | Some st =>
          match compose_stat dp st buf with
          | Ok _ buf' => read_dir_loop childs' (dp + Z.to_nat (s9_size st + 2)) buf'
          | _ => undef
          end
      end
  end.

Definition read_dir (fuel : nat) (l : nat) (offset count : Z) : M srv hres :=
  fid ← fid_at l;
  if 0 <? offset then ret (Reply (PIo 0 0 []))
  else
    ok ← p9_getdir fuel (fd_file fid);
    if ok then
      file ← file_at (fd_file fid);
      r ← read_dir_loop (fl_childs file) 0 (replicate (Z.to_nat count) 0);
      ret (Reply (PIo 0 (Z.of_nat r.1) r.2))
    else ret (Reply (PIo 0 0 [])).

(** The loop of [to_offset] that reads up to the offset; the result is that of [read]. *)
Fixpoint skip_loop (fuel : nat) (fd diff : Z) : M srv bool :=
  match fuel with
  | O => nofuel
  | S fuel' =>
      if 0 <? diff then
        let size := if 8192 <? diff then 8192 else diff in
        r ← sys (sys_read fd (Z.to_nat size));
        match r with
        | None => ret false
        | Some d => skip_loop fuel' fd (diff - Z.of_nat (length d))
        end
      else ret true
  end.

(** [false] is the result -1. *)
Definition to_offset (fuel : nat) (l : nat) (offset : Z) : M srv bool :=
  fid ← fid_at l;
  if fd_fd fid =? -1 then ret false
  else
    ok ← (if offset <? fd_offset fid then
            close (fd_fd fid);;
            file ← file_at (fd_file fid);
            fd ← p9open (fl_path file) O_RDWR;
            set_fid_at l (mkfid (fd_fid fid) fd (fd_file fid) (if fd <? 0 then fd_offset fid else 0));;
            ret (0 <=? fd)
          else ret true);
    if ok then
      fid ← fid_at l;
      ok ← skip_loop fuel (fd_fd fid) (offset - fd_offset fid);
      if ok then
        set_fid_at l (mkfid (fd_fid fid) (fd_fd fid) (fd_file fid) offset);;
        ret true
      else ret false
    else ret false.

(** The count of the reply is unsigned: the test for an error of [read] never holds. *)
Definition read_file (fuel : nat) (l : nat) (offset count : Z) : M srv hres :=
  fid ← fid_at l;
  if fd_fd fid =? -1 then err P9_NOFILE
  else
    ok ← to_offset fuel l (s32 offset);
    if ok then
      fid ← fid_at l;
      r ← sys (sys_read (fd_fd fid) (Z.to_nat count));
      set_fid_at l (mkfid (fd_fid fid) (fd_fd fid) (fd_file fid) (s32 (fd_offset fid + count)));;
      ret (Reply (match r with
                  | Some d => PIo 0 (Z.of_nat (length d)) d
                  | None => PIo 0 (u32 (-1)) []
                  end))
    else err P9_BOTCH.

(** A negative count goes to [malloc]; the code is not followed from there. *)
Definition rread (fuel : nat) (f : p9_fcall) : M srv hres :=
  match f_u f with
  | PIo offset count _ =>
      with_fid (f_fid f) (fun l =>
        let count := s32 (if u32 P9_MAXDATALEN <=? count then u32 P9_MAXDATALEN else count) in
        if count <? 0 then undef
        else
          fid ← fid_at l;
          file ← file_at (fd_file fid);
          q ← p9_getqid (fl_path file);
          match q with
          | None => err P9_NOFILE
          | Some q =>
              if P9_IS_DIR (q_type q) then read_dir fuel l offset count
              else read_file fuel l offset count
          end)
  | _ => undef
  end.

Definition rcreate (f : p9_fcall) : M srv hres :=
  match f_u f with
  | PCreate perm (Some name) _ =>
      with_fid (f_fid f) (fun l =>
        fid ← fid_at l;
        file ← file_at (fd_file fid);
        p ← with_slash (fl_path file);
        let path := p ++ name in
        in_path path;;
        ok ← (if negb (Z.land perm P9_MODE_DIR =? 0) then
                r ← sys (sys_mkdir path); ret (0 <=? r)
              else
                fd ← p9open path O_CREATE;
                if fd <? 0 then ret false else (close fd;; ret true));
        if ok then
          q ← p9_getqid path;
          match q with
          | None => err P9_NOFILE
          | Some q =>
              freefid l;;
              n ← p9_allocfid (f_fid f) None;
              match n with
              | None => ret Fail
              | Some nl =>
                  nf ← fid_at nl;
                  fl ← p9_allocfile path;
                  set_fid_at nl (mkfid (fd_fid nf) (fd_fd nf) (Some fl) (fd_offset nf));;
                  ret (Reply (PQid q 0))
              end
          end
        else err P9_PERM)
  | _ => undef
  end.

Definition rwrite (fuel : nat) (f : p9_fcall) : M srv hres :=
  match f_u f with
  | PIo offset count data =>
      with_fid (f_fid f) (fun l =>
        fid ← fid_at l;
        fd ← (if fd_fd fid =? -1 then
                file ← file_at (fd_file fid);
                fd ← p9open (fl_path file) O_RDWR;
                set_fid_at l (mkfid (fd_fid fid) fd (fd_file fid) (fd_offset fid));;
                ret fd
              else ret 0);
        if fd <? 0 then err P9_NOFILE
        else
          ok ← to_offset fuel l (s32 offset);
          if ok then
            fid ← fid_at l;
            wsize ← sys (sys_write (fd_fd fid) data);
            if wsize <=? 0 then err P9_BOTCH
            else
              set_fid_at l (mkfid (fd_fid fid) (fd_fd fid) (fd_file fid) (s32 (fd_offset fid + wsize)));;
              ret (Reply (PIo 0 count []))
          else err P9_NOFILE)
  | _ => undef
  end.

Definition rremove (f : p9_fcall) : M srv hres :=
  with_fid (f_fid f) (fun l =>
    fid ← fid_at l;
    file ← file_at (fd_file fid);
    r ← sys (sys_unlink (fl_path file));
    res ← (if r =? -1 then err P9_NOFILE else ret (Reply PZero));
    freefid l;;
    ret res).

Definition rclunk (f : p9_fcall) : M srv hres :=
  r ← p9_removefid (f_fid f);
  match r with
  | None => err P9_UNKNOWNFID
  | Some l => freefid l;; ret (Reply PZero)
  end.

Definition rflush (f : p9_fcall) : M srv hres :=
  modify (fun s => mksrv (env s) (files s) (fids s) (next s) (fpool s) (root s) true);;
  ret (Reply PZero).

Definition rstat (f : p9_fcall) : M srv hres :=
  with_fid (f_fid f) (fun l =>
    fid ← fid_at l;
    file ← file_at (fd_file fid);
    st ← p9_getstat (fl_path file);
    match st with
    | None => err P9_NOFILE
    | Some st => ret (Reply (PStat (u16 (s9_size st + 2)) (u16 (s9_size st)) st))
    end).

Definition rwstat (f : p9_fcall) : M srv hres := ret (Reply PZero).
Definition rignore (f : p9_fcall) : M srv hres := ret Fail.

Definition rfuncs (fuel : nat) (type : Z) : option (p9_fcall -> M srv hres) :=
  match type with
  | 100 => Some rversion
  | 102 => Some rignore
  | 104 => Some rattach
  | 106 => Some rignore
  | 108 => Some rflush
  | 110 => Some rwalk
  | 112 => Some ropen
  | 114 => Some rcreate
  | 116 => Some (rread fuel)
  | 118 => Some (rwrite fuel)
  | 120 => Some rclunk
  | 122 => Some rremove
  | 124 => Some rstat
  | 126 => Some rwstat
  | _ => None
  end.

(** [respond]: the reply to the request [f] in the send buffer, and the bytes that are sent. *)
Definition respond (f : p9_fcall) (r : hres) (wbuf : bytes) : option (bytes * bytes) :=
  let '(type, u) := match r with
                    | Err s => (P9_RERROR, PError (Some s))
                    | Reply u => (f_type f + 1, u)
                    | Fail => (0, PZero)
                    end in
  match p9_getfcallsize (mkfcall 0 type 0 0 u) with
  | None => None
  | Some size =>
      match composefcall (mkfcall size type (f_tag f) 0 u) wbuf with
      | Ok _ wbuf' => Some (wbuf', take (Z.to_nat size) wbuf')
      | _ => None
      end
  end.

(** * The connection *)

(** The stream of a socket: what each call of [read] finds ([None]: an error); at the end
    of the list the peer has closed. *)
Definition stream : Type := list (option bytes).

Definition sock_read (n : nat) (i : stream) : option bytes * stream :=
  match i with
  | [] => (Some [], [])
  | None :: i' => (None, i')
  | Some d :: i' => (Some (take n d), match drop n d with [] => i' | r => Some r :: i' end)
  end.

(** [struct p9_conn]: [rsize] bytes of the buffer from [roff] on are not yet parsed. *)
Record p9_conn := mkconn { sock : stream; rsize : Z; rbuf : bytes; roff : nat }.

(** [read] to the buffer at [p]; the result is an unsigned number. *)
Definition conn_read (p n : nat) : M p9_conn Z := fun c =>
  match sock_read n (sock c) with
  | (None, i) => Ok (u32 (-1)) (mkconn i (rsize c) (rbuf c) (roff c))
  | (Some d, i) =>
      if decide (p + length d <= length (rbuf c))%nat
      then Ok (Z.of_nat (length d)) (mkconn i (rsize c) (upd_bytes p d (rbuf c)) (roff c))
      else Undef
  end.

Definition set_rsize (n : Z) : M p9_conn unit := modify (fun c => mkconn (sock c) n (rbuf c) (roff c)).

(** A function of P9.v on the receive buffer. *)
Definition on_rbuf {A} (m : M bytes A) : M p9_conn A := fun c =>
  match m (rbuf c) with
  | Ok a b => Ok a (mkconn (sock c) (rsize c) b (roff c))
  | _ => Undef
  end.

Fixpoint recv_loop (fuel : nat) (size : Z) : M p9_conn bool :=
  match fuel with
  | O => nofuel
  | S fuel' =>
      n ← gets rsize;
      if n <? u32 size then
        r ← conn_read (Z.to_nat n) (Z.to_nat (P9_MAXMSGLEN - n));
        set_rsize (u32 (n + r));;
        if u32 (n + r) <=? 0 then ret false else recv_loop fuel' size
      else ret true
  end.

Definition p9_recvreq (fuel : nat) : M p9_conn (option p9_fcall) :=
  n ← gets rsize;
  ok ← (if n =? 0 then
          r ← conn_read 0 (Z.to_nat P9_MAXMSGLEN);
          set_rsize r;;
          if r =? u32 (-1) then ret false
          else
            size ← on_rbuf (GBIT32 0);
            ok ← recv_loop fuel (s32 size);
            modify (fun c => mkconn (sock c) (rsize c) (rbuf c) (if ok then 0%nat else roff c));;
            ret ok
        else ret true);
  if ok then
    off ← gets roff;
    size ← on_rbuf (GBIT32 off);
    f ← on_rbuf (parsefcall off (s32 size));
    match f with
    | None => ret None
    | Some f =>
        modify (fun c => mkconn (sock c) (u32 (rsize c - s32 size)) (rbuf c) (roff c + Z.to_nat (s32 size)));;
        ret (Some f)
    end
  else ret None.

(** * The loop of the server *)

(** One round of the loop of [main] after a request was received: the bytes sent, or [None]
    when the server stops because the handler failed. *)
Definition serve (fuel : nat) (f : p9_fcall) (wbuf : bytes) : M srv (option bytes) :=
  match rfuncs fuel (f_type f) with
  | None => undef
  | Some h =>
      r ← h f;
      match r with
      | Fail => ret None
      | _ =>
          match respond f r wbuf with
          | None => undef
          | Some (_, sent) => ret (Some sent)
          end
      end
  end.
End server.

(** * Reading a file

    What the server relies on of the kernel: a file has contents, a descriptor of a file
    has a position, and [read] gives the bytes from the position on. *)

Class SysLaws (E : Type) `{Sys E} := {
  content : E -> bytes -> option bytes;
  fdview : E -> Z -> option (bytes * nat);
  read_law e fd c pos n : fdview e fd = Some (c, pos) ->
    exists e', sys_read fd n e = (Some (take n (drop pos c)), e') /\
      fdview e' fd = Some (c, Nat.min (pos + n) (length c)) /\
      (forall path, content e' path = content e path);
  open_law e path mode c : content e path = Some c ->
    exists fd e', sys_open path mode e = (fd, e') /\ 0 <= fd /\ fdview e' fd = Some (c, 0%nat) /\
      (forall path, content e' path = content e path);
  close_law e fd path : content (sys_close fd e) path = content e path }.

Section reading.
Context {E : Type} `{HL : SysLaws E}.
Implicit Types (s : srv (E := E)).

(** The object [l] is a fid of an open file with the contents [c]: its descriptor stands at the
    offset that the server remembers, or at the end of the file. *)
Definition fid_ok (l : nat) (c : bytes) s : Prop :=
  exists f fl path, fids s !! l = Some f /\ fd_file f = Some fl /\
    (fl_path <$> files s !! fl) = Some path /\ content (env s) path = Some c /\
    fd_fd f <> -1 /\ 0 <= fd_offset f /\
    fdview (env s) (fd_fd f) = Some (c, Nat.min (Z.to_nat (fd_offset f)) (length c)).

Lemma sys_read_ok s fd c pos n :
  fdview (env s) fd = Some (c, pos) ->
  exists e', sys (sys_read fd n) s = Ok (Some (take n (drop pos c))) (set_env e' s) /\
    fdview e' fd = Some (c, Nat.min (pos + n) (length c)) /\
    (forall path, content e' path = content (env s) path).
Proof. intros Hv. destruct (read_law _ _ _ _ n Hv) as (e' & Hr & Hv' & Hc). exists e'. unfold sys. by rewrite Hr. Qed.

(** Up to the end of the file the loop reaches the offset. *)
Lemma skip_loop_ok fuel s fd c pos diff :
  fdview (env s) fd = Some (c, pos) -> Z.of_nat pos + diff <= Z.of_nat (length c) -> 0 <= diff ->
  (Z.to_nat diff < fuel)%nat ->
  exists e', skip_loop fuel fd diff s = Ok true (set_env e' s) /\
    fdview e' fd = Some (c, (pos + Z.to_nat diff)%nat) /\
    (forall path, content e' path = content (env s) path).
Proof.
  revert s pos diff. induction fuel as [|fuel IH]; intros s pos diff Hv Hle Hd0 Hf; [lia|]. cbn [skip_loop].
  destruct (Z.ltb_spec 0 diff) as [Hd|Hd].
  - set (size := if 8192 <? diff then 8192 else diff).
    assert (Hs : 0 < size <= diff) by (unfold size; destruct (Z.ltb_spec 8192 diff); lia).
    destruct (sys_read_ok s fd c pos (Z.to_nat size) Hv) as (e1 & E1 & Hv1 & Hc1).
    rewrite (bind_ok _ _ _ _ _ E1).
    assert (Hl : length (take (Z.to_nat size) (drop pos c)) = Z.to_nat size) by (rewrite length_take, length_drop; lia).
    rewrite Hl. rewrite Nat.min_l in Hv1 by lia.
    destruct (IH (set_env e1 s) (pos + Z.to_nat size)%nat (diff - Z.of_nat (Z.to_nat size))) as (e' & E' & Hv' & Hc'); [done|lia|lia|lia|].
    exists e'. rewrite E'. split; [done|]. split; [|intros path; by rewrite Hc', <-Hc1].
    rewrite Hv'. do 2 f_equal. lia.
  - exists (env s). unfold ret. destruct s; simpl. split; [done|]. split; [|done].
    simpl in Hv. rewrite Hv. do 2 f_equal. lia.
Qed.

Lemma fid_ok_intro l c s f fl path :
  fids s !! l = Some f -> fd_file f = Some fl -> (fl_path <$> files s !! fl) = Some path ->
  content (env s) path = Some c -> fd_fd f <> -1 -> 0 <= fd_offset f ->
  fdview (env s) (fd_fd f) = Some (c, Nat.min (Z.to_nat (fd_offset f)) (length c)) -> fid_ok l c s.
Proof. intros. exists f, fl, path. done. Qed.

(** An offset inside the file is reached, from before or from behind. *)
Lemma to_offset_ok l c s o :
  fid_ok l c s -> 0 <= o <= Z.of_nat (length c) ->
  exists s', to_offset (S (length c)) l o s = Ok true s' /\ fid_ok l c s' /\
    (fd_offset <$> fids s' !! l) = Some o.
Proof.
  intros (f & fl & path & Hf & Hfl & Hp & Hc & Hfd & Hoff & Hv) Ho. unfold to_offset.
  assert (Ef : fid_at l s = Ok f s) by (unfold fid_at; by rewrite Hf).
  rewrite (bind_ok _ _ _ _ _ Ef). destruct (Z.eqb_spec (fd_fd f) (-1)); [done|].
  set (reopen := if o <? fd_offset f then _ else ret true).
  assert (Hre : exists s1 f1, reopen s = Ok true s1 /\ fids s1 !! l = Some f1 /\ fd_file f1 = Some fl /\
    (fl_path <$> files s1 !! fl) = Some path /\ content (env s1) path = Some c /\ fd_fd f1 <> -1 /\
    0 <= fd_offset f1 <= o /\ fdview (env s1) (fd_fd f1) = Some (c, Z.to_nat (fd_offset f1))).
  { unfold reopen. destruct (Z.ltb_spec o (fd_offset f)).
    - destruct (open_law (sys_close (fd_fd f) (env s)) path O_RDWR c) as (fd & e2 & E2 & Hfd2 & Hv2 & Hc2); [by rewrite close_law|].
      unfold close, bind, modify. rewrite Hfl. unfold file_at. simpl.
      destruct (files s !! fl) as [file|] eqn:Efl; [|done]. simpl in Hp. simplify_eq.
      unfold p9open, sys. simpl. rewrite E2. unfold set_fid_at, modify, ret. simpl.
      destruct (Z.ltb_spec fd 0); [lia|]. destruct (Z.leb_spec 0 fd); [|lia].
      eexists _, (mkfid (fd_fid f) fd (Some fl) 0). split; [reflexivity|]. simpl.
      rewrite lookup_insert_eq, Efl, Hc2, close_law. repeat (split; [done || lia|]). done.
    - exists s, f. rewrite Nat.min_l in Hv by lia. do 6 (split; [done|]). split; [lia|done]. }
  destruct Hre as (s1 & f1 & Er & Hf1 & Hfl1 & Hp1 & Hc1 & Hfd1 & Ho1 & Hv1).
  rewrite (bind_ok _ _ _ _ _ Er).
  assert (Ef1 : fid_at l s1 = Ok f1 s1) by (unfold fid_at; by rewrite Hf1).
  rewrite (bind_ok _ _ _ _ _ Ef1).
  destruct (skip_loop_ok (S (length c)) s1 (fd_fd f1) c (Z.to_nat (fd_offset f1)) (o - fd_offset f1)) as (e3 & E3 & Hv3 & Hc3); [done|lia|lia|lia|].
  rewrite (bind_ok _ _ _ _ _ E3). unfold set_fid_at, bind, modify, ret.
  eexists. split; [reflexivity|]. split; [|by simpl; rewrite lookup_insert_eq].
  eapply (fid_ok_intro l c _ (mkfid (fd_fid f1) (fd_fd f1) (fd_file f1) o) fl path); simpl; try done.
  - by rewrite lookup_insert_eq.
  - by rewrite Hc3.
  - lia.
  - rewrite Hv3. do 2 f_equal. lia.
Qed.

(** a read request for an open file, at any offset inside the file, is answered with exactly
    the bytes of the file from there on, at most the count that was asked for, whatever was
    read before; the descriptor and the offset that the server keeps agree afterwards, so that the
    next read is answered as well.  The loop that moves to the offset returns. *)
Theorem p9_read_file_bytes l c s offset count :
  fid_ok l c s -> 0 <= offset <= Z.of_nat (length c) -> 0 <= count -> offset + count < 2 ^ 31 ->
  let d := sub_bytes (Z.to_nat offset) (Z.to_nat count) c in
  exists s', read_file (S (length c)) l offset count s = Ok (Reply (PIo 0 (Z.of_nat (length d)) d)) s' /\
    fid_ok l c s'.
Proof.
  intros Hok Ho Hn Hb d. unfold read_file.
  pose proof Hok as (f & fl & path & Hf & Hfl & Hp & Hc & Hfd & Hoff & Hv).
  assert (Ef : fid_at l s = Ok f s) by (unfold fid_at; by rewrite Hf).
  rewrite (bind_ok _ _ _ _ _ Ef). destruct (Z.eqb_spec (fd_fd f) (-1)); [done|].
  rewrite s32_small by lia.
  destruct (to_offset_ok l c s offset Hok Ho) as (s1 & E1 & (f1 & fl1 & path1 & Hf1 & Hfl1 & Hp1 & Hc1 & Hfd1 & Hoff1 & Hv1) & Eo).
  rewrite (bind_ok _ _ _ _ _ E1). rewrite Hf1 in Eo. simpl in Eo. simplify_eq.
  assert (Ef1 : fid_at l s1 = Ok f1 s1) by (unfold fid_at; by rewrite Hf1).
  rewrite (bind_ok _ _ _ _ _ Ef1). rewrite Nat.min_l in Hv1 by lia.
  destruct (sys_read_ok s1 (fd_fd f1) c (Z.to_nat (fd_offset f1)) (Z.to_nat count) Hv1) as (e2 & E2 & Hv2 & Hc2).
  rewrite (bind_ok _ _ _ _ _ E2). unfold set_fid_at, bind, modify, ret.
  eexists. split; [reflexivity|].
  eapply (fid_ok_intro l c _ (mkfid (fd_fid f1) (fd_fd f1) (fd_file f1) (s32 (fd_offset f1 + count))) fl1 path1); simpl; try done.
  - by rewrite lookup_insert_eq.
  - by rewrite Hc2.
  - rewrite s32_small by lia. lia.
  - rewrite Hv2, s32_small by lia. do 2 f_equal. lia.
Qed.

(** Behind the end of the file [read] gives nothing and the loop never ends. *)
Lemma skip_loop_stuck fuel s fd c diff :
  fdview (env s) fd = Some (c, length c) -> 0 < diff -> skip_loop fuel fd diff s = OutOfFuel.
Proof.
  revert s. induction fuel as [|fuel IH]; intros s Hv Hd; [done|]. cbn [skip_loop].
  destruct (Z.ltb_spec 0 diff); [|lia].
  destruct (sys_read_ok s fd c (length c) (Z.to_nat (if 8192 <? diff then 8192 else diff)) Hv) as (e1 & E1 & Hv1 & _).
  rewrite (bind_ok _ _ _ _ _ E1). rewrite drop_all, take_nil. simpl. rewrite Z.sub_0_r. apply IH; [|done].
  simpl. rewrite Hv1. do 2 f_equal. lia.
Qed.
End reading.

(** * The root file

    The fid of an attach shares the file object of the root with the server; [freefid] frees the
    object. *)

Section root.
Context {E : Type} `{Sys E}.
Implicit Types (s : srv (E := E)).

Lemma p9_getqid_env path s r s' : p9_getqid path s = Ok r s' -> exists e, s' = set_env e s.
Proof.
  unfold p9_getqid, p9open, sys, close, bind, gets, modify, ret. intros Hr.
  destruct (sys_open path O_RDONLY (env s)) as [fd e]. destruct (fd =? -1); [simplify_eq; eauto|].
  destruct (sys_fstat fd (env (set_env e s))); simplify_eq; [|eauto]. by eexists.
Qed.

(** What a successful attach leaves behind. *)
Lemma rattach_inv f s u s' g :
  represents (fpool s) g -> rattach f s = Ok (Reply u) s' ->
  exists l g', represents (fpool s') g' /\ g' !! f_fid f = Some l /\ root s' = root s /\
    fids s' !! l = Some (mkfid (f_fid f) (-1) (Some (root s)) 0) /\
    files s' = files s /\ is_Some (files s !! root s).
Proof.
  intros Hg Hr. unfold rattach in Hr. destruct (f_u f) as [| | | | |afid un an| | | | |]; try discriminate Hr.
  unfold bind at 1, gets at 1 in Hr. unfold bind at 1 in Hr. unfold p9_allocfid in Hr.
  unfold bind at 1, gets at 1, bind at 1, modify at 1, bind at 1, gets at 1 in Hr. simpl in Hr.
  destruct (caninsertkey_spec (fpool s) g (f_fid f) (next s) Hg) as [Hok Hg'].
  destruct (caninsertkey (fpool s) (f_fid f) (next s)) as [ok p'] eqn:Ec. simpl in *.
  destruct ok.
  - symmetry in Hok. apply bool_decide_eq_true in Hok. rewrite decide_True in Hg' by done.
    unfold bind at 1, modify at 1, ret at 1 in Hr. destruct (negb (afid =? P9_NOFID)); [by unfold err, bind in Hr|].
    unfold bind at 1, file_at at 1 in Hr. simpl in Hr.
    destruct (files s !! root s) as [file|] eqn:Ef; [|done].
    apply bind_inv in Hr as (q & s2 & Hq & Hr). apply p9_getqid_env in Hq as [e ->].
    destruct q as [q|]; [|by unfold err, bind in Hr]. unfold ret in Hr. simplify_eq.
    exists (next s), (<[f_fid f := next s]> g). simpl. rewrite !lookup_insert_eq. by split.
  - unfold bind at 1 in Hr. destruct (freefid _ _); unfold ret in Hr; simpl in Hr; discriminate Hr.
Qed.

Lemma freefid_root l f s :
  fids s !! l = Some f -> fd_file f = Some (root s) -> files s !! root s = None -> freefid l s = Undef.
Proof.
  intros Hf Hr Hn. unfold freefid, bind, fid_at. rewrite Hf, Hr.
  unfold p9_freefile, bind, file_at. by rewrite Hn.
Qed.

(** An attach without the root file reads freed memory. *)
Lemma rattach_no_root f s g un an :
  represents (fpool s) g -> files s !! root s = None -> f_u f = PAuth P9_NOFID un an -> rattach f s = Undef.
Proof.
  intros Hg Hn Hu. unfold rattach. rewrite Hu.
  unfold bind at 1, gets at 1. unfold bind at 1. unfold p9_allocfid.
  unfold bind at 1, gets at 1, bind at 1, modify at 1, bind at 1, gets at 1. simpl.
  destruct (caninsertkey (fpool s) (f_fid f) (next s)) as [[] p'].
  - unfold bind at 1, modify at 1, ret at 1. simpl.
    unfold bind at 1, file_at. simpl. by rewrite Hn.
  - unfold bind at 1. rewrite (freefid_root _ (mkfid (f_fid f) (-1) (Some (root s)) 0)); [done| |done|done].
    by simpl; rewrite lookup_insert_eq.
Qed.

(** clunking the fid of an attach frees the root file of the server: the clunk is answered,
    and from then on every attach reads freed memory. *)
Theorem p9_clunk_frees_root f s u s1 g :
  represents (fpool s) g -> rattach f s = Ok (Reply u) s1 ->
  exists s2, rclunk f s1 = Ok (Reply PZero) s2 /\
    forall f' un an, f_u f' = PAuth P9_NOFID un an -> rattach f' s2 = Undef.
Proof.
  intros Hg Hr. destruct (rattach_inv f s u s1 g Hg Hr) as (l & g' & Hg' & Hl & Hroot & Hf & Hfiles & [file Hfile]).
  unfold rclunk, bind at 1, p9_removefid at 1.
  destruct (deletekey_spec (fpool s1) g' (f_fid f) Hg') as [Hd Hgd].
  destruct (deletekey (fpool s1) (f_fid f)) as [r p] eqn:Ed. simpl in Hd, Hgd. subst r. rewrite Hl.
  unfold bind at 1, freefid, bind at 1, fid_at. simpl. rewrite Hf. simpl.
  unfold bind at 1, p9_freefile at 1, bind at 1, file_at. simpl. rewrite Hfiles, Hfile.
  unfold modify at 1. unfold bind at 1, p9_removefid at 1. simpl.
  destruct (deletekey_spec p (delete (f_fid f) g') (f_fid f) Hgd) as [_ Hgd2].
  destruct (deletekey p (f_fid f)) as [r' p2]. simpl in Hgd2.
  eexists. split; [reflexivity|]. intros f' un an Hu. eapply rattach_no_root; [exact Hgd2| |exact Hu].
  simpl. rewrite Hroot. apply lookup_delete_eq.
Qed.
End root.

(** * Receiving *)

Definition pieces (l : list bytes) : stream := map Some l.

Lemma conn_read_piece c d l p n :
  sock c = pieces (d :: l) -> (length d <= n)%nat -> (p + n <= length (rbuf c))%nat ->
  conn_read p n c = Ok (Z.of_nat (length d)) (mkconn (pieces l) (rsize c) (upd_bytes p d (rbuf c)) (roff c)).
Proof.
  intros Hs Hd Hp. unfold conn_read. rewrite Hs. simpl. rewrite take_ge by lia. rewrite drop_ge by lia.
  by rewrite decide_True by lia.
Qed.

(** The rest of a message arrives in pieces behind its first part [w]. *)
Lemma recv_loop_ok fuel l w post c :
  sock c = pieces l -> rbuf c = w ++ post -> rsize c = Z.of_nat (length w) -> w <> [] ->
  Forall (fun d => d <> []) l -> (length l < fuel)%nat ->
  length (rbuf c) = Z.to_nat P9_MAXMSGLEN -> Z.of_nat (length (w ++ concat l)) <= P9_MAXMSGLEN ->
  exists post', recv_loop fuel (Z.of_nat (length (w ++ concat l))) c =
    Ok true (mkconn [] (Z.of_nat (length (w ++ concat l))) (w ++ concat l ++ post') (roff c)) /\
    length (w ++ concat l ++ post') = length (rbuf c).
Proof.
  revert l w post c. induction fuel as [|fuel IH]; intros l w post c Hs Hb Hr Hw Hl Hf Hlen Hmax; [lia|].
  unfold P9_MAXMSGLEN in *. cbn [recv_loop]. unfold bind at 1, gets. rewrite Hr. rewrite u32_small by lia.
  destruct l as [|d l].
  - exists post. simpl concat. rewrite !app_nil_r. rewrite Z.ltb_irrefl. unfold ret. simpl app.
    rewrite <-Hb, <-Hr. destruct c as [sk ? ? ?]. simpl in *. by subst sk.
  - apply Forall_cons_1 in Hl as [Hd Hl]. assert (0 < length d)%nat by (destruct d; [done|simpl; lia]).
    cbn [concat] in *. rewrite !length_app in Hmax.
    destruct (Z.ltb_spec (Z.of_nat (length w)) (Z.of_nat (length (w ++ d ++ concat l)))) as [_|Hbad];
      [|exfalso; rewrite !length_app in Hbad; lia].
    rewrite Nat2Z.id.
    assert (E1 : conn_read (length w) (Z.to_nat (8192 - Z.of_nat (length w))) c =
      Ok (Z.of_nat (length d)) (mkconn (pieces l) (rsize c) (upd_bytes (length w) d (rbuf c)) (roff c))).
    { apply (conn_read_piece c d l); [done|lia|lia]. }
    unfold P9_MAXMSGLEN. rewrite (bind_ok _ _ _ _ _ E1). unfold bind at 1, set_rsize, modify. simpl sock. simpl rbuf. simpl roff.
    rewrite u32_small by lia. destruct (Z.leb_spec (Z.of_nat (length w) + Z.of_nat (length d)) 0); [lia|].
    assert (Hb1 : upd_bytes (length w) d (rbuf c) = (w ++ d) ++ drop (length d) post).
    { rewrite Hb. unfold upd_bytes. rewrite take_app_length, <-app_assoc, drop_app_ge by lia. do 3 f_equal. lia. }
    destruct (IH l (w ++ d) (drop (length d) post)
      (mkconn (pieces l) (Z.of_nat (length w) + Z.of_nat (length d)) (upd_bytes (length w) d (rbuf c)) (roff c)))
      as (post' & E2 & Hl2); simpl; try done.
    + rewrite length_app. lia.
    + by destruct w.
    + simpl in Hf. lia.
    + rewrite length_upd_bytes; [done|]. lia.
    + rewrite !length_app. lia.
    + exists post'. rewrite <-!app_assoc in E2, Hl2. rewrite E2, <-!app_assoc. split; [done|].
      rewrite Hl2. apply length_upd_bytes. lia.
Qed.

(** A message starts with its length. *)
Lemma wire_size type tag body post :
  Z.of_nat (length (wire type tag body)) < 2 ^ 32 ->
  get_le 4 0 (wire type tag body ++ post) = Z.of_nat (length (wire type tag body)).
Proof.
  rewrite twire_length. intros Hl. unfold get_le, sub_bytes, wire. rewrite drop_0, <-!app_assoc.
  rewrite take_app_le, take_ge, le_dec_enc by by rewrite length_le_enc.
  rewrite Z.mod_small by (simpl; lia). lia.
Qed.

(** The receive buffer after the pieces of a message came in. *)
Lemma recv_pieces w d l c fuel :
  w = d ++ concat l -> (4 <= length d)%nat -> Forall (fun x => x <> []) l -> (length l < fuel)%nat ->
  (forall post, get_le 4 0 (w ++ post) = Z.of_nat (length w)) ->
  Z.of_nat (length w) <= P9_MAXMSGLEN ->
  sock c = pieces (d :: l) -> length (rbuf c) = Z.to_nat P9_MAXMSGLEN ->
  exists post, length (w ++ post) = Z.to_nat P9_MAXMSGLEN /\
    (r ← conn_read 0 (Z.to_nat P9_MAXMSGLEN);
     set_rsize r;;
     if r =? u32 (-1) then ret false
     else
       size ← on_rbuf (GBIT32 0);
       ok ← recv_loop fuel (s32 size);
       modify (fun c => mkconn (sock c) (rsize c) (rbuf c) (if ok then 0%nat else roff c));;
       ret ok) c = Ok true (mkconn [] (Z.of_nat (length w)) (w ++ post) 0).
Proof.
  intros Hw Hd Hl Hf Hgb Hmax Hs Hlen. unfold P9_MAXMSGLEN in *.
  assert (Hwl : length w = (length d + length (concat l))%nat) by (rewrite Hw; apply length_app).
  assert (E1 : conn_read 0 (Z.to_nat 8192) c =
    Ok (Z.of_nat (length d)) (mkconn (pieces l) (rsize c) (upd_bytes 0 d (rbuf c)) (roff c))).
  { apply (conn_read_piece c d l); [done|lia|lia]. }
  set (c1 := mkconn (pieces l) (Z.of_nat (length d)) (d ++ drop (length d) (rbuf c)) (roff c)).
  destruct (recv_loop_ok fuel l d (drop (length d) (rbuf c)) c1) as (post & E2 & Hl2); try done.
  { destruct d; [simpl in Hd; lia|done]. }
  { simpl. rewrite length_app, length_drop. unfold P9_MAXMSGLEN. lia. }
  { unfold P9_MAXMSGLEN. rewrite length_app. lia. }
  rewrite <-Hw in E2. rewrite app_assoc, <-Hw in E2, Hl2.
  assert (Hg1 : on_rbuf (GBIT32 0) c1 = Ok (Z.of_nat (length w)) c1).
  { unfold on_rbuf, GBIT32, GBIT, c1. simpl rbuf.
    rewrite decide_True by (rewrite length_app, length_drop; lia). do 2 f_equal.
    rewrite <-(Hgb post). unfold get_le, sub_bytes.
    rewrite !drop_0, Hw, <-app_assoc. by rewrite !take_app_le by lia. }
  exists post. split; [rewrite Hl2; simpl; rewrite length_app, length_drop; lia|].
  unfold bind at 1. rewrite E1. unfold bind at 1, set_rsize, modify at 1. simpl sock. simpl rbuf. simpl roff.
  destruct (Z.eqb_spec (Z.of_nat (length d)) (u32 (-1))) as [Hbad|_]; [exfalso; change (u32 (-1)) with 4294967295 in Hbad; lia|].
  change (upd_bytes 0 d (rbuf c)) with (d ++ drop (length d) (rbuf c)). fold c1.
  rewrite (bind_ok _ _ _ _ _ Hg1). rewrite s32_small by lia. by rewrite (bind_ok _ _ _ _ _ E2).
Qed.

(** a request that arrives in any number of pieces, the first of at least four bytes, is
    received whole and understood, and the receive buffer is empty afterwards. *)
Theorem p9_recv_reassembles tag m d l c :
  wf_t m -> fits 16 tag -> (match m with Tversion _ _ => tag = P9_NOTAG | _ => True end) ->
  wire (ttype m) tag (tbody m) = d ++ concat l -> (4 <= length d)%nat -> Forall (fun x => x <> []) l ->
  Z.of_nat (length (wire (ttype m) tag (tbody m))) <= P9_MAXMSGLEN ->
  sock c = pieces (d :: l) -> rsize c = 0 -> length (rbuf c) = Z.to_nat P9_MAXMSGLEN ->
  exists c', p9_recvreq (S (length l)) c = Ok (Some (fcall_of tag m)) c' /\ rsize c' = 0 /\ sock c' = [].
Proof.
  intros Hm Ht Htag Hw Hd Hl Hmax Hs Hr Hlen.
  assert (Hgb : forall post, get_le 4 0 (wire (ttype m) tag (tbody m) ++ post) = Z.of_nat (length (wire (ttype m) tag (tbody m)))).
  { intros post. unfold P9_MAXMSGLEN in Hmax. apply wire_size. lia. }
  set (w := wire (ttype m) tag (tbody m)) in *.
  destruct (recv_pieces w d l c (S (length l))) as (post & Hlw & E); try done; [lia|].
  unfold p9_recvreq. unfold bind at 1, gets at 1. rewrite Hr. change (0 =? 0) with true. cbv iota.
  rewrite (bind_ok _ _ _ _ _ E).
  destruct (parsefcall_ok tag m [] post Hm Ht Htag) as (w' & Hw' & Ep & _); [rewrite app_nil_l; fold w; rewrite Hlw; unfold P9_MAXMSGLEN; lia|].
  fold w in Hw', Ep. rewrite !app_nil_l, Hw' in Ep. simpl length in Ep at 1.
  unfold bind at 1, gets at 1. cbn [roff].
  assert (Hg : on_rbuf (GBIT32 0) (mkconn [] (Z.of_nat (length w)) (w ++ post) 0) =
    Ok (Z.of_nat (length w)) (mkconn [] (Z.of_nat (length w)) (w ++ post) 0)).
  { unfold on_rbuf, GBIT32, GBIT. cbn [rbuf]. rewrite decide_True by (rewrite Hlw; unfold P9_MAXMSGLEN; lia). by rewrite Hgb. }
  rewrite (bind_ok _ _ _ _ _ Hg). unfold P9_MAXMSGLEN in Hmax. rewrite s32_small by lia.
  unfold bind at 1, on_rbuf. cbn [rbuf sock rsize roff]. rewrite Ep.
  eexists. split; [reflexivity|]. cbn [rsize sock]. rewrite Z.sub_diag. done.
Qed.

(** * A kernel in memory

    Files with fixed contents; the descriptors with their positions.  It keeps the promises of
    [SysLaws] and serves as the example. *)

Module MemKernel.

Record kernel := mkk { kfiles : gmap bytes (Z * bytes); kfds : gmap Z (bytes * nat * Z); kfree : nat }.

Definition k_open (path : bytes) (mode : Z) (e : kernel) : Z * kernel :=
  match kfiles e !! path with
  | None => (-1, e)
  | Some (t, c) => (Z.of_nat (kfree e), mkk (kfiles e) (<[Z.of_nat (kfree e) := (c, 0%nat, t)]> (kfds e)) (S (kfree e)))
  end.

Definition k_read (fd : Z) (n : nat) (e : kernel) : option bytes * kernel :=
  match kfds e !! fd with
  | None => (None, e)
  | Some (c, pos, t) =>
      (Some (take n (drop pos c)),
       mkk (kfiles e) (<[fd := (c, Nat.min (pos + n) (length c), t)]> (kfds e)) (kfree e))
  end.

#[global] Instance mem_sys : Sys kernel := {|
  sys_open := k_open;
  sys_fstat fd e := (fun x => mkfstat 1 7 x.2 (Z.of_nat (length x.1.1))) <$> kfds e !! fd;
  sys_read := k_read;
  sys_write fd d e := (-1, e);
  sys_close fd e := mkk (kfiles e) (delete fd (kfds e)) (kfree e);
  sys_mkdir path e := (-1, e);
  sys_unlink path e := (-1, e) |}.

#[global] Instance mem_laws : SysLaws kernel.
Proof.
  refine {| content e path := snd <$> kfiles e !! path; fdview e fd := fst <$> kfds e !! fd |}.
  - intros e fd c pos n Hv. simpl. unfold k_read. destruct (kfds e !! fd) as [[[c' pos'] t]|]; simpl in Hv; [|done].
    simplify_eq. eexists. split; [reflexivity|]. simpl. by rewrite lookup_insert_eq.
  - intros e path mode c Hc. simpl. unfold k_open. destruct (kfiles e !! path) as [[t c']|]; simpl in Hc; [|done].
    simplify_eq. eexists _, _. split; [reflexivity|]. simpl. rewrite lookup_insert_eq. split; [lia|done].
  - done.
Defined.

(** The directory [/] and the file [/a] with the contents "hello". *)
Definition k0 : kernel :=
  mkk (<[[47] := (1, [])]> (<[[47; 97] := (2, [104; 101; 108; 108; 111])]> ∅)) ∅ 3.

(** The server with the root attached as fid 1 and [/a] open as fid 2. *)
Definition srv0 : srv (E := kernel) :=
  mksrv (snd (k_open [47; 97] O_RDWR k0))
    (<[0%nat := mkfile [47] []]> (<[1%nat := mkfile [47; 97] []]> ∅))
    (<[2%nat := mkfid 2 3 (Some 1%nat) 0]> ∅) 3
    (<[hashid 2 := [(2, 2%nat)]]> (replicate 128 [])) 0 false.

Lemma srv0_pool : represents (fpool srv0) {[2 := 2%nat]}.
Proof.
  assert (Hr : forall h, (replicate 128 [] : list (list (Z * nat))) !! h = Some [] \/ (replicate 128 [] : list (list (Z * nat))) !! h = None).
  { intros h. destruct (decide (h < 128)%nat); [left; by apply lookup_replicate_2|right; apply lookup_replicate_None; lia]. }
  assert (Hc : forall h c, fpool srv0 !! h = Some c -> (h = hashid 2 /\ c = [(2, 2%nat)]) \/ c = []).
  { intros h c. unfold srv0. cbn [fpool]. destruct (decide (h = hashid 2)) as [->|Hne].
    - rewrite list_lookup_insert_eq by (vm_compute; lia). left. by simplify_eq.
    - rewrite list_lookup_insert_ne by done. destruct (Hr h) as [->| ->]; [right; by simplify_eq|done]. }
  split; [split|].
  - vm_compute. reflexivity.
  - intros h c i v Hh Hin. destruct (Hc h c Hh) as [[-> ->]| ->]; set_solver.
  - intros h c Hh. destruct (Hc h c Hh) as [[-> ->]| ->]; [apply NoDup_singleton|constructor].
  - intros id v. rewrite lookup_singleton_Some. split.
    + intros [<- <-]. exists [(2, 2%nat)]. split; [|set_solver]. apply list_elem_of_lookup. exists (hashid 2). by vm_compute.
    + intros (c & Hin & Hv). apply list_elem_of_lookup in Hin as [h Hh]. destruct (Hc h c Hh) as [[-> ->]| ->]; set_solver.
Qed.
End MemKernel.

(** Three bytes of "hello" from offset 1. *)
Lemma p9_read_file_bytes_witness :
  exists s', read_file 6 2 1 3 MemKernel.srv0 = Ok (Reply (PIo 0 3 [101; 108; 108])) s' /\
    fid_ok 2 [104; 101; 108; 108; 111] s'.
Proof.
  apply (p9_read_file_bytes 2 [104; 101; 108; 108; 111] MemKernel.srv0 1 3).
  - exists (mkfid 2 3 (Some 1%nat) 0), 1%nat, [47; 97]. vm_compute. repeat split; discriminate.
  - simpl. lia.
  - lia.
  - lia.
Defined.

Lemma p9_clunk_frees_root_witness :
  let f := mkfcall 0 P9_TATTACH 0 1 (PAuth P9_NOFID None None) in
  exists s1, rattach f MemKernel.srv0 = Ok (Reply (PQid (mkqid 7 0 128) 0)) s1 /\
  exists s2, rclunk f s1 = Ok (Reply PZero) s2 /\
    forall f' un an, f_u f' = PAuth P9_NOFID un an -> rattach f' s2 = Undef.
Proof.
  intros f. eexists. split; [vm_compute; reflexivity|].
  eapply (p9_clunk_frees_root f MemKernel.srv0); [apply MemKernel.srv0_pool|vm_compute; reflexivity].
Defined.

Lemma p9_recv_reassembles_witness :
  exists c', p9_recvreq 3 (mkconn (pieces [[11; 0; 0; 0; 120]; [5; 0]; [1; 0; 0; 0]]) 0 (replicate (Z.to_nat P9_MAXMSGLEN) 0) 0) =
    Ok (Some (fcall_of 5 (Tclunk 1))) c' /\ rsize c' = 0 /\ sock c' = [].
Proof.
  apply (p9_recv_reassembles 5 (Tclunk 1) [11; 0; 0; 0; 120] [[5; 0]; [1; 0; 0; 0]]).
  - split; done.
  - split; done.
  - exact I.
  - reflexivity.
  - simpl. lia.
  - repeat constructor; done.
  - vm_compute. discriminate.
  - reflexivity.
  - reflexivity.
  - vm_compute. reflexivity.
Defined.
