(* ===== verification/Umalloc.v ===== *)
(** The memory allocator of user programs (user/ulib/umalloc.c).

    Memory is counted in units of the size of a header (16 bytes); a pointer to a header is
    a unit number, and [malloc] returns the unit after the header.  The free blocks are a
    ring in the order of their addresses that starts at [base], which lies below the heap;
    [freep] is a block of the ring.  The theorems: what [malloc] returns overlaps nothing that
    is allocated or free, [free] gives back exactly the block, and the loops return. *)

From S2P Require Import Prelude.

(** [hdr] are the headers: [ptr] and [size]; [brk] and [lim] the end of the memory of the process and
    the end up to which the kernel lets it grow. *)
Record ust := mkust { hdr : Z -> Z * Z; freep : Z; brk : Z; lim : Z }.

(** The address of the static [base]; 0 is the null pointer. *)
Definition BASE : Z := 1.
Definition HDRSZ : Z := 16.

Definition set_hdr (a : Z) (h : Z * Z) : M ust unit :=
  modify (fun s => mkust (fupd (hdr s) a h) (freep s) (brk s) (lim s)).
Definition set_ptr (a q : Z) : M ust unit := h ← gets hdr; set_hdr a (q, (h a).2).
Definition set_size (a n : Z) : M ust unit := h ← gets hdr; set_hdr a ((h a).1, n).
Definition set_freep (p : Z) : M ust unit := modify (fun s => mkust (hdr s) p (brk s) (lim s)).
Definition ptr (a : Z) : M ust Z := h ← gets hdr; ret (h a).1.
Definition size (a : Z) : M ust Z := h ← gets hdr; ret (h a).2.

(** * The operations *)

(** The loop that looks for the place of [bp] in the ring. *)
Fixpoint free_find (fuel : nat) (bp p : Z) : M ust Z :=
  match fuel with
  | O => nofuel
  | S fuel' =>
      q ← ptr p;
      if (p <? bp) && (bp <? q) then ret p
      else if (q <=? p) && ((p <? bp) || (bp <? q)) then ret p
      else free_find fuel' bp q
  end.

Definition free_block (fuel : nat) (bp : Z) : M ust unit :=
  p0 ← gets freep;
  p ← free_find fuel bp p0;
  q ← ptr p;
  n ← size bp;
  (if bp + n =? q then
     n' ← size q;
     set_size bp (u32 (n + n'));;
     q' ← ptr q;
     set_ptr bp q'
   else set_ptr bp q);;
  m ← size p;
  (if p + m =? bp then
     n ← size bp;
     set_size p (u32 (m + n));;
     q ← ptr bp;
     set_ptr p q
   else set_ptr p bp);;
  set_freep p.

Definition free (fuel : nat) (ap : Z) : M ust unit := free_block fuel (ap - 1).

(** [sbrk(n)] for a positive number of bytes; a negative one is not followed. *)
Definition sbrk (n : Z) : M ust (option Z) := fun s =>
  if n <? 0 then Undef
  else if brk s + n / HDRSZ <=? lim s
  then Ok (Some (brk s)) (mkust (hdr s) (freep s) (brk s + n / HDRSZ) (lim s))
  else Ok None s.

Definition morecore (fuel : nat) (nu : Z) : M ust (option Z) :=
  let nu := if nu <? 4096 then 4096 else nu in
  p ← sbrk (s32 (nu * HDRSZ));
  match p with
  | None => ret None
  | Some hp =>
      set_size hp nu;;
      free fuel (hp + 1);;
      p ← gets freep;
      ret (Some p)
  end.

(** The loop of [malloc]; [None] is the null pointer. *)
Fixpoint malloc_loop (fuel : nat) (nunits prevp p : Z) : M ust (option Z) :=
  match fuel with
  | O => nofuel
  | S fuel' =>
      n ← size p;
      if nunits <=? n then
        r ← (if n =? nunits then
               q ← ptr p;
               set_ptr prevp q;;
               ret p
             else
               set_size p (u32 (n - nunits));;
               m ← size p;
               let p' := p + m in
               set_size p' nunits;;
               ret p');
        set_freep prevp;;
        ret (Some (r + 1))
      else
        f ← gets freep;
        if p =? f then
          r ← morecore fuel' nunits;
          match r with
          | None => ret None
          | Some p' => q ← ptr p'; malloc_loop fuel' nunits p' q
          end
        else
          q ← ptr p;
          malloc_loop fuel' nunits p q
  end.

Definition units (nbytes : Z) : Z := u32 ((nbytes + HDRSZ - 1) / HDRSZ + 1).

Definition malloc (fuel : nat) (nbytes : Z) : M ust (option Z) :=
  let nunits := units nbytes in
  f ← gets freep;
  prevp ← (if f =? 0 then set_hdr BASE (BASE, 0);; set_freep BASE;; ret BASE else ret f);
  p ← ptr prevp;
  malloc_loop fuel nunits prevp p.

(** * The ring *)

Abbreviation blocks := (list (Z * Z)).

Definition head_addr (l : blocks) (d : Z) : Z := match l with [] => d | (a, _) :: _ => a end.

(** The blocks [l] follow each other in memory, the last one points to [first]. *)
Fixpoint linked (h : Z -> Z * Z) (l : blocks) (first : Z) : Prop :=
  match l with
  | [] => True
  | (a, n) :: l' => h a = (head_addr l' first, n) /\ linked h l' first
  end.

(** Blocks in the order of their addresses, with a gap before each. *)
Fixpoint spaced (lo : Z) (l : blocks) : Prop :=
  match l with
  | [] => True
  | (a, n) :: l' => lo < a /\ 0 <= n /\ spaced (a + n) l'
  end.

Definition in_block (b : Z * Z) (u : Z) : Prop := b.1 <= u < b.1 + b.2.

(** The units that a list of blocks covers, and blocks that do not overlap. *)
Definition covers (l : blocks) (u : Z) : Prop := exists b, b ∈ l /\ in_block b u.

Fixpoint apart (l : blocks) : Prop :=
  match l with
  | [] => True
  | b :: l' => (forall u, in_block b u -> ~ covers l' u) /\ apart l'
  end.

(** The state of the allocator: [F] are the free blocks in order, [A] the allocated ones. *)
Record minv (s : ust) (lo : Z) (F A : blocks) : Prop := {
  mi_lo : BASE < lo <= brk s /\ brk s <= lim s < 2 ^ 27;
  mi_linked : linked (hdr s) ((BASE, 0) :: F) BASE;
  mi_spaced : spaced BASE F;
  mi_pos : Forall (fun b => 0 < b.2) F;
  mi_freep : freep s ∈ BASE :: F.*1;
  mi_range u : covers F u \/ covers A u -> lo <= u < brk s;
  mi_disj u : covers F u -> ~ covers A u;
  mi_apart : apart A;
  mi_size b : b ∈ A -> 0 < b.2 /\ (hdr s b.1).2 = b.2 }.

(** * Lists of blocks *)

Lemma covers_nil u : covers [] u <-> False.
Proof. split; [|done]. intros (b & Hb & _). by apply not_elem_of_nil in Hb. Qed.

Lemma covers_cons b l u : covers (b :: l) u <-> in_block b u \/ covers l u.
Proof.
  unfold covers. split.
  - intros (c & Hc & Hu). apply elem_of_cons in Hc as [->|Hc]; eauto.
  - intros [Hu|(c & Hc & Hu)]; [exists b|exists c]; split; set_solver.
Qed.

Lemma covers_app l1 l2 u : covers (l1 ++ l2) u <-> covers l1 u \/ covers l2 u.
Proof.
  induction l1 as [|b l1 IH]; simpl; [rewrite covers_nil; naive_solver|].
  rewrite !covers_cons, IH. naive_solver.
Qed.

#[global] Instance covers_perm : Proper ((≡ₚ) ==> (=) ==> iff) covers.
Proof.
  intros l1 l2 Hl u ? <-. unfold covers. by setoid_rewrite Hl.
Qed.

#[global] Instance apart_perm : Proper ((≡ₚ) ==> iff) apart.
Proof.
  assert (H : forall l1 l2, l1 ≡ₚ l2 -> apart l1 -> apart l2).
  { induction 1 as [|b l1 l2 Hl IH|b c l|]; simpl; [done| | |naive_solver].
    - intros [Hb Ha]. split; [|by apply IH]. intros u Hu. by rewrite <-Hl; apply Hb.
    - intros (Hc & Hb & Ha). repeat split; [| |done].
      + intros u Hu. rewrite covers_cons. intros [Hu'|Hu']; [|by apply (Hb u)].
        apply (Hc u); [done|]. rewrite covers_cons. by left.
      + intros u Hu Hu'. apply (Hc u Hu). rewrite covers_cons. by right. }
  intros l1 l2 Hl. split; apply H; [done|by symmetry].
Qed.

Lemma linked_app h l1 l2 f :
  linked h (l1 ++ l2) f <-> linked h l1 (head_addr l2 f) /\ linked h l2 f.
Proof.
  induction l1 as [|[a n] l1 IH]; simpl; [naive_solver|]. rewrite IH.
  assert (E : head_addr (l1 ++ l2) f = head_addr l1 (head_addr l2 f)) by (by destruct l1 as [|[]]).
  rewrite E. naive_solver.
Qed.

Lemma linked_ext h h' l f : (forall a, a ∈ l.*1 -> h' a = h a) -> linked h l f -> linked h' l f.
Proof.
  induction l as [|[a n] l IH]; simpl; [done|]. intros He [Ha Hl]. split; [rewrite He; [done|set_solver]|].
  apply IH; [|done]. intros. apply He. set_solver.
Qed.

(** Where the blocks of a list end. *)
Fixpoint top (lo : Z) (l : blocks) : Z :=
  match l with [] => lo | (a, n) :: l' => top (a + n) l' end.

Lemma spaced_app lo l1 l2 : spaced lo (l1 ++ l2) <-> spaced lo l1 /\ spaced (top lo l1) l2.
Proof. revert lo. induction l1 as [|[a n] l1 IH]; intros lo; simpl; [naive_solver|]. rewrite IH. naive_solver. Qed.

Lemma spaced_above lo l b : spaced lo l -> b ∈ l -> lo < b.1 /\ 0 <= b.2.
Proof.
  revert lo. induction l as [|[a n] l IH]; intros lo; simpl; [by intros _ ?%not_elem_of_nil|].
  intros (H1 & H2 & H3) Hb. apply elem_of_cons in Hb as [->|Hb]; [done|].
  destruct (IH _ H3 Hb). lia.
Qed.

Lemma spaced_le lo lo' l : lo <= lo' -> spaced lo' l -> spaced lo l.
Proof. intros. destruct l as [|[a n] l]; simpl in *; [done|]. naive_solver lia. Qed.

Lemma top_ge lo l : spaced lo l -> lo <= top lo l.
Proof.
  revert lo. induction l as [|[a n] l IH]; intros lo; simpl; [lia|].
  intros (H1 & H2 & H3). specialize (IH _ H3). lia.
Qed.

Lemma spaced_top lo l b : spaced lo l -> b ∈ l -> b.1 + b.2 <= top lo l.
Proof.
  revert lo. induction l as [|[a n] l IH]; intros lo; simpl; [by intros _ ?%not_elem_of_nil|].
  intros (H1 & H2 & H3) Hb. apply elem_of_cons in Hb as [->|Hb]; [by apply top_ge|by apply IH].
Qed.

(** The address of a block in the list is covered, and so is the unit before its end. *)
Lemma covers_first l b : b ∈ l -> 0 < b.2 -> covers l b.1 /\ covers l (b.1 + b.2 - 1).
Proof. intros Hb Hn. split; exists b; (split; [done|]); unfold in_block; lia. Qed.

(** * Looking for the place of a block *)

(** Addresses in order. *)
Fixpoint asc (lo : Z) (l : blocks) : Prop :=
  match l with [] => True | (a, _) :: l' => lo < a /\ asc a l' end.

Lemma spaced_asc lo l : spaced lo l -> asc lo l.
Proof.
  revert lo. induction l as [|[a n] l IH]; intros lo; simpl; [done|]. intros (H1 & H2 & H3).
  split; [done|]. apply IH. eapply spaced_le; [|done]. lia.
Qed.

Lemma asc_app lo l1 a n l2 : asc lo (l1 ++ (a, n) :: l2) -> asc lo l1 /\ asc a l2 /\ lo < a /\ Forall (fun b => b.1 < a) l1.
Proof.
  revert lo. induction l1 as [|[a1 n1] l1 IH]; intros lo; simpl; [naive_solver|].
  intros [H1 H2]. apply IH in H2 as (? & ? & ? & ?). repeat split; try done; [lia|]. by constructor.
Qed.

Lemma asc_above lo l b : asc lo l -> b ∈ l -> lo < b.1.
Proof.
  revert lo. induction l as [|[a n] l IH]; intros lo; simpl; [by intros _ ?%not_elem_of_nil|].
  intros [H1 H2] Hb. apply elem_of_cons in Hb as [->|Hb]; [done|]. specialize (IH _ H2 Hb). lia.
Qed.

Lemma ptr_ok s a q n : hdr s a = (q, n) -> ptr a s = Ok q s.
Proof. intros H. unfold ptr, bind, gets, ret. by rewrite H. Qed.
Lemma size_ok s a q n : hdr s a = (q, n) -> size a s = Ok n s.
Proof. intros H. unfold size, bind, gets, ret. by rewrite H. Qed.

Lemma set_ptr_ok s a q0 q n :
  hdr s a = (q0, n) -> set_ptr a q s = Ok tt (mkust (fupd (hdr s) a (q, n)) (freep s) (brk s) (lim s)).
Proof. intros H. unfold set_ptr, bind, gets, set_hdr, modify. by rewrite H. Qed.
Lemma set_size_ok s a q n0 n :
  hdr s a = (q, n0) -> set_size a n s = Ok tt (mkust (fupd (hdr s) a (q, n)) (freep s) (brk s) (lim s)).
Proof. intros H. unfold set_size, bind, gets, set_hdr, modify. by rewrite H. Qed.

(** From a block before the place the loop goes on to it. *)
Lemma find_before s bp r a n l2 lo k :
  linked (hdr s) (r ++ (a, n) :: l2) BASE -> asc lo (r ++ (a, n) :: l2) -> BASE <= lo + 1 ->
  a < bp -> (forall b, b ∈ l2 -> bp < b.1) ->
  free_find (S (length r) + k) bp (head_addr (r ++ (a, n) :: l2) BASE) s = Ok a s.
Proof.
  revert lo. induction r as [|[c m] r IH]; intros lo Hl Ha Hlo Hbp H2.
  - simpl in *. destruct Hl as [Hh _]. unfold bind. rewrite (ptr_ok _ _ _ _ Hh).
    destruct (Z.ltb_spec a bp); [|lia]. simpl. destruct l2 as [|[a2 n2] l2]; simpl.
    + destruct (Z.ltb_spec bp BASE); [done|]. destruct (Z.leb_spec BASE a); [done|lia].
    + specialize (H2 (a2, n2) ltac:(set_solver)). simpl in H2. by destruct (Z.ltb_spec bp a2); [|lia].
  - cbn [app linked asc head_addr length] in *. destruct Hl as [Hh Hl]. destruct Ha as [Hc Ha].
    change (S (S (length r)) + k)%nat with (S (S (length r) + k)). cbn [free_find].
    unfold bind. rewrite (ptr_ok _ _ _ _ Hh). clear Hh.
    assert (Hn : c < head_addr (r ++ (a, n) :: l2) BASE /\ head_addr (r ++ (a, n) :: l2) BASE < bp).
    { destruct r as [|[c' m'] r]; simpl in *; [lia|]. destruct Ha as [? Ha].
      apply asc_app in Ha as (_ & _ & ? & _). lia. }
    destruct (Z.ltb_spec bp (head_addr (r ++ (a, n) :: l2) BASE)); [lia|].
    destruct (Z.leb_spec (head_addr (r ++ (a, n) :: l2) BASE) c); [lia|].
    rewrite andb_false_r. simpl andb. apply (IH c); [done|done|lia|done|done].
Qed.

(** From a block behind the place the loop goes on to [base]. *)
Lemma find_behind s bp lo r k :
  linked (hdr s) r BASE -> asc lo r -> bp <= lo -> BASE < bp ->
  free_find (length r + k) bp (head_addr r BASE) s = free_find k bp BASE s.
Proof.
  revert lo. induction r as [|[c m] r IH]; intros lo Hl Ha Hlo Hb; [done|].
  cbn [app linked asc head_addr length] in *. destruct Hl as [Hh Hl]. destruct Ha as [Hc Ha].
  change (S (length r) + k)%nat with (S (length r + k)). cbn [free_find].
  unfold bind. rewrite (ptr_ok _ _ _ _ Hh). clear Hh.
  destruct (Z.ltb_spec c bp); [lia|]. simpl.
  assert (E : (head_addr r BASE <=? c) && (bp <? head_addr r BASE) = false).
  { destruct r as [|[c' m'] r]; simpl in *.
    - destruct (Z.ltb_spec bp BASE); [lia|]. apply andb_false_r.
    - destruct (Z.leb_spec c' c); [lia|done]. }
  rewrite E. apply (IH c); [done|done|lia|done].
Qed.

(** The loop of [free] finds the last block of the ring below [bp], wherever it starts. *)
Lemma free_find_ok s bp p l1 a n l2 :
  linked (hdr s) (l1 ++ (a, n) :: l2) BASE -> asc (BASE - 1) (l1 ++ (a, n) :: l2) ->
  head_addr (l1 ++ (a, n) :: l2) BASE = BASE -> a < bp -> BASE < bp -> (forall b, b ∈ l2 -> bp < b.1) ->
  p ∈ (l1 ++ (a, n) :: l2).*1 ->
  forall fuel, (length l1 + length l2 < fuel)%nat -> free_find fuel bp p s = Ok a s.
Proof.
  intros Hl Ha Hh Hab Hb H2 Hp fuel Hf.
  assert (Hbase : forall k, free_find (S (length l1) + k) bp BASE s = Ok a s).
  { intros k. rewrite <-Hh at 1. by eapply find_before. }
  apply list_elem_of_fmap in Hp as ([p' m] & -> & Hp). simpl.
  apply elem_of_app in Hp as [Hp|Hp]; [|apply elem_of_cons in Hp as [Hp|Hp]].
  - apply list_elem_of_split in Hp as (r1 & r2 & ->).
    rewrite <-app_assoc in Hl, Ha. simpl in Hl, Ha. apply linked_app in Hl as [_ Hl].
    pose proof Ha as Ha'. apply asc_app in Ha' as (_ & Ha' & Hlo & _).
    rewrite length_app in Hf. simpl in Hf.
    replace fuel with (S (length ((p', m) :: r2)) + (fuel - S (length ((p', m) :: r2))))%nat by (simpl; lia).
    change p' with (head_addr (((p', m) :: r2) ++ (a, n) :: l2) BASE).
    eapply (find_before _ _ _ _ _ _ (p' - 1)); try done; [|lia]. simpl. split; [lia|done].
  - simplify_eq. apply linked_app in Hl as [_ Hl]. pose proof Ha as Ha'. apply asc_app in Ha' as (_ & Ha' & Hlo & _).
    replace fuel with (S (length (@nil (Z * Z))) + (fuel - 1))%nat by (simpl; lia).
    change a with (head_addr ([] ++ (a, n) :: l2) BASE).
    eapply (find_before _ _ _ _ _ _ (a - 1)); try done; [|lia]. simpl. split; [lia|done].
  - apply list_elem_of_split in Hp as (r1 & r2 & ->).
    apply linked_app in Hl as [_ Hl]. destruct Hl as [_ Hl]. apply linked_app in Hl as [_ Hl].
    apply asc_app in Ha as (_ & Ha & _). apply asc_app in Ha as (_ & Ha & _ & _).
    rewrite length_app in Hf. simpl in Hf.
    destruct (Nat.le_exists_sub (S (length l1) + length ((p', m) :: r2)) fuel) as (k & -> & _); [simpl; lia|].
    replace (k + _)%nat with (length ((p', m) :: r2) + (S (length l1) + k))%nat by lia.
    pose proof (find_behind s bp bp ((p', m) :: r2) (S (length l1) + k)) as Hf2. simpl head_addr in Hf2.
    rewrite Hf2; [apply Hbase|done| |lia|done].
    simpl. split; [|done]. apply (H2 (p', m)). set_solver.
Qed.

(** * Putting a block into the ring *)

(** The block [bp] of [m] units joined with the block behind it, and then with the one before. *)
Definition join_right (bp m : Z) (l2 : blocks) : Z * blocks :=
  match l2 with
  | (a', n') :: l2' => if bp + m =? a' then (m + n', l2') else (m, l2)
  | [] => (m, [])
  end.

Definition join_left (a n bp m : Z) (l2 : blocks) : blocks :=
  if a + n =? bp then (a, n + m) :: l2 else (a, n) :: (bp, m) :: l2.

Definition splice (l1 : blocks) (a n bp m : Z) (l2 : blocks) : blocks :=
  l1 ++ join_left a n bp (join_right bp m l2).1 (join_right bp m l2).2.

Lemma splice_spaced lo l1 a n bp m l2 :
  spaced lo (l1 ++ (a, n) :: l2) -> a + n <= bp -> 0 < m -> (forall b, b ∈ l2 -> bp + m <= b.1) ->
  spaced lo (splice l1 a n bp m l2).
Proof.
  intros Hs Ha Hm H2. apply spaced_app in Hs as [H1 (Ha1 & Hn & Hs)]. apply spaced_app. split; [done|].
  assert (Hr : spaced (bp + (join_right bp m l2).1) (join_right bp m l2).2 /\ 0 < (join_right bp m l2).1).
  { unfold join_right. destruct l2 as [|[a' n'] l2]; [done|]. simpl in Hs. destruct Hs as (H3 & H4 & H5).
    specialize (H2 (a', n') ltac:(set_solver)). simpl in H2.
    destruct (Z.eqb_spec (bp + m) a') as [<-|Hne]; simpl; [|split; [|lia]; split; [lia|done]].
    split; [|lia]. by rewrite Z.add_assoc. }
  destruct (join_right bp m l2) as [m' l2']. simpl in Hr. destruct Hr as [Hr Hm']. unfold join_left. simpl.
  destruct (Z.eqb_spec (a + n) bp) as [<-|Hne]; simpl.
  - split; [done|]. split; [lia|]. by rewrite Z.add_assoc.
  - split; [done|]. split; [done|]. split; [lia|]. split; [lia|done].
Qed.

Lemma splice_covers l1 a n bp m l2 u :
  0 <= m -> 0 <= n -> (forall b, b ∈ l2 -> 0 <= b.2) ->
  covers (splice l1 a n bp m l2) u <-> covers (l1 ++ (a, n) :: l2) u \/ in_block (bp, m) u.
Proof.
  intros Hm Hn Hp. unfold splice. rewrite !covers_app, covers_cons.
  assert (Hr : 0 <= (join_right bp m l2).1 /\
    (in_block (bp, (join_right bp m l2).1) u \/ covers (join_right bp m l2).2 u <-> in_block (bp, m) u \/ covers l2 u)).
  { unfold join_right. destruct l2 as [|[a' n'] l2]; [done|]. specialize (Hp (a', n') ltac:(set_solver)). simpl in Hp.
    destruct (Z.eqb_spec (bp + m) a') as [<-|Hne]; [|done]. rewrite covers_cons. unfold in_block. simpl. split; [lia|intuition lia]. }
  destruct (join_right bp m l2) as [m' l2']. simpl in *. destruct Hr as [Hm' Hr].
  unfold join_left. destruct (Z.eqb_spec (a + n) bp) as [<-|Hne]; rewrite ?covers_cons.
  - assert (Hj : in_block (a, n + m') u <-> in_block (a, n) u \/ in_block (a + n, m') u) by (unfold in_block; simpl; lia).
    rewrite Hj. tauto.
  - tauto.
Qed.

Lemma linked_fupd h l f a x : a ∉ l.*1 -> linked h l f -> linked (fupd h a x) l f.
Proof. intros Ha. apply linked_ext. intros b Hb. apply fupd_ne. set_solver. Qed.

(** The first test of [free]: the block is joined with the one behind it. *)
Lemma join_right_run s bp m q0 l2 :
  linked (hdr s) l2 BASE -> hdr s bp = (q0, m) -> BASE < bp -> 0 < m ->
  (forall b, b ∈ l2 -> 0 <= b.2 /\ m + b.2 < 2 ^ 32) ->
  (if bp + m =? head_addr l2 BASE then
     n' ← size (head_addr l2 BASE); set_size bp (u32 (m + n'));; q' ← ptr (head_addr l2 BASE); set_ptr bp q'
   else set_ptr bp (head_addr l2 BASE)) s =
  Ok tt (mkust (fupd (hdr s) bp (head_addr (join_right bp m l2).2 BASE, (join_right bp m l2).1))
    (freep s) (brk s) (lim s)).
Proof.
  intros Hl Hbp Hb Hm Hp. unfold join_right. destruct l2 as [|[a' n'] l2].
  - destruct (Z.eqb_spec (bp + m) (head_addr [] BASE)); [simpl in *; lia|]. by apply set_ptr_ok with q0.
  - change (head_addr ((a', n') :: l2) BASE) with a'. destruct Hl as [Hh Hl].
    destruct (Hp (a', n')) as [Hp1 Hp2]; [set_solver|]. simpl in Hp1, Hp2.
    destruct (Z.eqb_spec (bp + m) a') as [He|Hne]; [|by apply set_ptr_ok with q0].
    rewrite (bind_ok _ _ _ _ _ (size_ok _ _ _ _ Hh)), (bind_ok _ _ _ _ _ (set_size_ok _ _ _ _ _ Hbp)).
    rewrite u32_small by lia.
    assert (Hh' : hdr (mkust (fupd (hdr s) bp (q0, m + n')) (freep s) (brk s) (lim s)) a' = (head_addr l2 BASE, n'))
      by (simpl; rewrite fupd_ne by lia; done).
    rewrite (bind_ok _ _ _ _ _ (ptr_ok _ _ _ _ Hh')).
    erewrite set_ptr_ok by (simpl; apply fupd_eq). simpl. by rewrite fupd_fupd.
Qed.

(** The second test: the result is joined with the block before. *)
Lemma join_left_run s a n bp m q0 l2 l1 :
  linked (hdr s) l1 a -> linked (hdr s) l2 BASE -> hdr s a = (q0, n) -> hdr s bp = (head_addr l2 BASE, m) -> a <> bp ->
  (a ∉ l1.*1) -> (a ∉ l2.*1) -> (bp ∉ l1.*1) -> (bp ∉ l2.*1) -> 0 <= n -> 0 < m -> n + m < 2 ^ 32 ->
  exists h, (if a + n =? bp then
     n' ← size bp; set_size a (u32 (n + n'));; q ← ptr bp; set_ptr a q
   else set_ptr a bp) s = Ok tt (mkust h (freep s) (brk s) (lim s)) /\
    linked h (l1 ++ join_left a n bp m l2) BASE /\ (forall b, b <> a -> h b = hdr s b).
Proof.
  intros Hl1 Hl2 Ha Hbp Hne Ha1 Ha2 Hb1 Hb2 Hn Hm Hs. unfold join_left. destruct (Z.eqb_spec (a + n) bp) as [He|He].
  - rewrite (bind_ok _ _ _ _ _ (size_ok _ _ _ _ Hbp)), (bind_ok _ _ _ _ _ (set_size_ok _ _ _ _ _ Ha)).
    rewrite u32_small by lia.
    assert (Hh' : hdr (mkust (fupd (hdr s) a (q0, n + m)) (freep s) (brk s) (lim s)) bp = (head_addr l2 BASE, m))
      by (simpl; rewrite fupd_ne by lia; done).
    rewrite (bind_ok _ _ _ _ _ (ptr_ok _ _ _ _ Hh')).
    erewrite set_ptr_ok by (simpl; apply fupd_eq). simpl. rewrite fupd_fupd. eexists. split; [reflexivity|]. split.
    + apply linked_app. simpl. rewrite fupd_eq. split; [by apply linked_fupd|]. split; [done|by apply linked_fupd].
    + intros. by rewrite fupd_ne.
  - erewrite set_ptr_ok by done. eexists. split; [reflexivity|]. split.
    + apply linked_app. simpl. rewrite fupd_eq, fupd_ne by done. split; [by apply linked_fupd|]. split; [done|].
      split; [done|by apply linked_fupd].
    + intros. by rewrite fupd_ne.
Qed.

(** [free] after its loop. *)
Lemma splice_linked s fuel l1 a n bp m q0 l2 :
  free_find fuel bp (freep s) s = Ok a s -> linked (hdr s) (l1 ++ (a, n) :: l2) BASE -> hdr s bp = (q0, m) ->
  (bp ∉ (l1 ++ (a, n) :: l2).*1) -> (a ∉ l1.*1) -> (a ∉ l2.*1) -> BASE < bp -> 0 < m -> 0 <= n ->
  (forall b, b ∈ l2 -> 0 <= b.2 /\ n + m + b.2 < 2 ^ 32) -> n + m < 2 ^ 32 ->
  exists h, free_block fuel bp s = Ok tt (mkust h a (brk s) (lim s)) /\
    linked h (splice l1 a n bp m l2) BASE /\ (forall b, b <> a -> b <> bp -> h b = hdr s b).
Proof.
  intros Ef Hl Hbp Hno Ha1 Ha2 Hb Hm Hn Hp Hnm.
  apply linked_app in Hl as [Hl1 [Hha Hl2]].
  assert (Hab : a <> bp) by (intros ->; apply Hno; rewrite fmap_app; set_solver).
  assert (Hb1 : bp ∉ l1.*1) by (intros ?; apply Hno; rewrite fmap_app; set_solver).
  assert (Hb2 : bp ∉ l2.*1) by (intros ?; apply Hno; rewrite fmap_app; set_solver).
  assert (Hr : linked (hdr s) (join_right bp m l2).2 BASE /\ (forall b, b ∈ (join_right bp m l2).2.*1 -> b ∈ l2.*1) /\
    0 < (join_right bp m l2).1 /\ n + (join_right bp m l2).1 < 2 ^ 32).
  { unfold join_right. destruct l2 as [|[a' n'] l2]; simpl; [repeat split; done || lia|].
    destruct (Hp (a', n')) as [Hp1 Hp2]; [set_solver|]. simpl in *.
    destruct Hl2 as [Hh2 Hl2]. destruct (bp + m =? a'); simpl.
    - split; [done|]. split; [intros; by apply elem_of_cons; right|lia].
    - split; [done|]. split; [done|lia]. }
  destruct Hr as (Hl2' & Hsub & Hm' & Hnm').
  pose proof (join_right_run s bp m q0 l2 Hl2 Hbp Hb Hm) as E1.
  destruct (join_right bp m l2) as [m' l2'] eqn:Ej. simpl in *.
  unfold free_block. unfold bind at 1, gets at 1. rewrite (bind_ok _ _ _ _ _ Ef).
  rewrite (bind_ok _ _ _ _ _ (ptr_ok _ _ _ _ Hha)). rewrite (bind_ok _ _ _ _ _ (size_ok _ _ _ _ Hbp)).
  rewrite (bind_ok _ _ _ _ _ (E1 ltac:(intros b Hb'; destruct (Hp b Hb'); lia))). clear E1.
  set (s1 := mkust (fupd (hdr s) bp (head_addr l2' BASE, m')) (freep s) (brk s) (lim s)).
  assert (Hs1a : hdr s1 a = (head_addr l2 BASE, n)) by (simpl; by rewrite fupd_ne).
  rewrite (bind_ok _ _ _ _ _ (size_ok s1 a _ _ Hs1a)).
  destruct (join_left_run s1 a n bp m' (head_addr l2 BASE) l2' l1) as (h & E2 & Hlk & Hh); try done.
  { simpl. by apply linked_fupd. }
  { simpl. apply linked_fupd; [|done]. intros ?%Hsub. done. }
  { simpl. by rewrite fupd_eq. }
  { intros ?%Hsub. done. }
  { intros ?%Hsub. done. }
  rewrite (bind_ok _ _ _ _ _ E2). exists h. split; [done|].
  split; [unfold splice; by rewrite Ej|]. intros b Hba Hbb. rewrite Hh by done. simpl. by rewrite fupd_ne.
Qed.

(** * [free] *)

Lemma ring_split lo (l : blocks) bp :
  asc lo l -> (bp ∉ l.*1) -> head_addr l bp < bp ->
  exists l1 a n l2, l = l1 ++ (a, n) :: l2 /\ a < bp /\ (forall b, b ∈ l2 -> bp < b.1).
Proof.
  revert lo. induction l as [|[a n] l IH]; intros lo; simpl; [lia|]. intros [Hlo Ha] Hno Hh.
  destruct (decide (head_addr l bp < bp)) as [Hn|Hn].
  - destruct (IH a Ha) as (l1 & a' & n' & l2 & -> & Ha' & H2); [set_solver|done|].
    by exists ((a, n) :: l1), a', n', l2.
  - exists [], a, n, l. split; [done|]. split; [done|]. intros b Hb. destruct l as [|[a' n'] l]; [by apply not_elem_of_nil in Hb|].
    simpl in *. assert (bp <> a') by set_solver. destruct Ha as [_ Ha]. apply elem_of_cons in Hb as [->|Hb]; [simpl; lia|].
    pose proof (asc_above _ _ _ Ha Hb). lia.
Qed.

Section inv.
Context (s : ust) (lo : Z) (F A : blocks).
Hypothesis Hinv : minv s lo F A.

Lemma inv_spaced : spaced (BASE - 1) ((BASE, 0) :: F).
Proof. simpl. split; [lia|]. split; [lia|]. apply (mi_spaced _ _ _ _ Hinv). Qed.

Lemma inv_asc : asc (BASE - 1) ((BASE, 0) :: F).
Proof. apply spaced_asc, inv_spaced. Qed.

Lemma inv_free b : b ∈ F -> lo <= b.1 /\ 0 < b.2 /\ b.1 + b.2 <= brk s.
Proof.
  intros Hb. pose proof (mi_pos _ _ _ _ Hinv) as Hp. rewrite Forall_forall in Hp. specialize (Hp b Hb).
  destruct (covers_first F b Hb Hp) as [H1 H2].
  pose proof (mi_range _ _ _ _ Hinv _ (or_introl H1)). pose proof (mi_range _ _ _ _ Hinv _ (or_introl H2)). lia.
Qed.

Lemma inv_alloc b : b ∈ A -> lo <= b.1 /\ 0 < b.2 /\ b.1 + b.2 <= brk s.
Proof.
  intros Hb. destruct (mi_size _ _ _ _ Hinv b Hb) as [Hp _]. destruct (covers_first A b Hb Hp) as [H1 H2].
  pose proof (mi_range _ _ _ _ Hinv _ (or_intror H1)). pose proof (mi_range _ _ _ _ Hinv _ (or_intror H2)). lia.
Qed.

(** No unit of a block [bp] that covers nothing free is in the ring. *)
Lemma inv_not_ring bp : ~ covers F bp -> BASE < bp -> bp ∉ ((BASE, 0) :: F).*1.
Proof.
  intros Hc Hb Hin. simpl in Hin. apply elem_of_cons in Hin as [Hin|Hin]; [lia|].
  apply list_elem_of_fmap in Hin as (b & -> & Hin). destruct (inv_free b Hin) as (_ & Hp & _).
  by apply Hc, (covers_first F b Hin Hp).
Qed.
End inv.

Lemma asc_distinct lo l1 a n l2 : asc lo (l1 ++ (a, n) :: l2) -> (a ∉ l1.*1) /\ (a ∉ l2.*1).
Proof.
  intros Ha. apply asc_app in Ha as (_ & H2 & _ & H1). split; intros Hin.
  - apply list_elem_of_fmap in Hin as (b & -> & Hin). rewrite Forall_forall in H1. specialize (H1 b Hin). lia.
  - apply list_elem_of_fmap in Hin as (b & -> & Hin). pose proof (asc_above _ _ _ H2 Hin). lia.
Qed.

(** The ring starts with [base] also afterwards: nothing is joined to [base]. *)
Lemma splice_base F l1 a n bp m l2 :
  (BASE, 0) :: F = l1 ++ (a, n) :: l2 -> BASE < bp ->
  exists F', splice l1 a n bp m l2 = (BASE, 0) :: F'.
Proof.
  intros He Hb. unfold splice, join_left. destruct l1 as [|b l1]; cbn [app] in *; injection He; intros; subst; [|by eexists].
  destruct (Z.eqb_spec (BASE + 0) bp); [lia|]. by eexists.
Qed.

Lemma splice_elem l1 a n bp m l2 b :
  b ∈ splice l1 a n bp m l2 -> 0 <= n -> 0 < m -> (forall b, b ∈ l2 -> 0 <= b.2) ->
  b ∈ l1 ++ (a, n) :: l2 \/ 0 < b.2.
Proof.
  intros Hb Hn Hm Hp. unfold splice in Hb. apply elem_of_app in Hb as [Hb|Hb]; [set_solver|].
  assert (Hr : 0 < (join_right bp m l2).1 /\ forall b, b ∈ (join_right bp m l2).2 -> b ∈ l2).
  { unfold join_right. destruct l2 as [|[a' n'] l2]; [done|]. specialize (Hp (a', n') ltac:(set_solver)). simpl in Hp.
    destruct (bp + m =? a'); simpl; (split; [lia|set_solver]). }
  destruct (join_right bp m l2) as [m' l2']. simpl in *. destruct Hr as [Hm' Hsub].
  unfold join_left in Hb. destruct (a + n =? bp).
  - apply elem_of_cons in Hb as [->|Hb]; [right; simpl; lia|left; set_solver].
  - apply elem_of_cons in Hb as [->|Hb]; [left; set_solver|]. apply elem_of_cons in Hb as [->|Hb]; [right; simpl; lia|left; set_solver].
Qed.

(** The place of a block [bp] that covers nothing free: behind a block [a] of the ring that ends
    before it, and before all blocks [l2] that follow. *)
Lemma place_block s lo F A bp m :
  minv s lo F A -> 0 < m -> lo <= bp -> (forall u, in_block (bp, m) u -> ~ covers F u) ->
  exists l1 a n l2, (BASE, 0) :: F = l1 ++ (a, n) :: l2 /\ a < bp /\ a + n <= bp /\ 0 <= n /\ BASE <= a /\
    (forall b, b ∈ l2 -> bp + m <= b.1 /\ 0 <= b.2 /\ b.1 + b.2 <= brk s).
Proof.
  intros Hi Hm Hlo Hu. pose proof (mi_lo _ _ _ _ Hi) as [Hl Hlim].
  assert (Hno : bp ∉ ((BASE, 0) :: F).*1).
  { eapply inv_not_ring; [done| |lia]. apply Hu. unfold in_block. simpl. lia. }
  destruct (ring_split _ _ bp (inv_asc s lo F A Hi) Hno) as (l1 & a & n & l2 & He & Hab & H2); [simpl; lia|].
  assert (Hblk : forall b, b ∈ l1 ++ (a, n) :: l2 -> b = (BASE, 0) \/ (b ∈ F /\ lo <= b.1 /\ 0 < b.2 /\ b.1 + b.2 <= brk s)).
  { rewrite <-He. intros b Hb. apply elem_of_cons in Hb as [->|Hb]; [by left|right]. split; [done|]. by apply (inv_free s lo F A). }
  exists l1, a, n, l2. split; [done|]. split; [done|].
  destruct (Hblk (a, n)) as [Hb|(Hin & Hb1 & Hb2 & Hb3)]; [set_solver| |]; simplify_eq/=.
  - split; [lia|]. split; [lia|]. split; [lia|]. intros b Hb. specialize (H2 b Hb).
    destruct (Hblk b) as [->|(Hbin & Hc1 & Hc2 & Hc3)]; [set_solver|simpl in *; lia|]. split; [|lia].
    destruct (decide (bp + m <= b.1)); [done|]. exfalso. apply (Hu b.1); [unfold in_block; simpl; lia|]. by apply covers_first.
  - split.
    { destruct (decide (a + n <= bp)); [done|]. exfalso. apply (Hu bp); [unfold in_block; simpl; lia|].
      exists (a, n). split; [done|]. unfold in_block. simpl. lia. }
    split; [lia|]. split; [lia|]. intros b Hb. specialize (H2 b Hb).
    destruct (Hblk b) as [->|(Hbin & Hc1 & Hc2 & Hc3)]; [set_solver|simpl in *; lia|]. split; [|lia].
    destruct (decide (bp + m <= b.1)); [done|]. exfalso. apply (Hu b.1); [unfold in_block; simpl; lia|]. by apply covers_first.
Qed.

(** Giving a block to the ring that covers nothing free: what [free] does in any state whose
    other parts [A] are as before. *)
Lemma insert_block s lo F A bp m q0 fuel :
  minv s lo F A -> hdr s bp = (q0, m) -> 0 < m -> lo <= bp -> bp + m <= brk s ->
  (forall u, in_block (bp, m) u -> ~ covers F u /\ ~ covers A u) -> (length F < fuel)%nat ->
  exists s' F', free_block fuel bp s = Ok tt s' /\ minv s' lo F' A /\ brk s' = brk s /\ lim s' = lim s /\
    (length F' <= S (length F))%nat /\
    forall u, covers F' u <-> covers F u \/ in_block (bp, m) u.
Proof.
  intros Hi Hbp Hm Hlo Hbrk Hfree Hfuel. pose proof (mi_lo _ _ _ _ Hi) as [Hl Hlim].
  destruct (place_block s lo F A bp m) as (l1 & a & n & l2 & He & Hab & Hend & Han & Hba & H2); try done; [naive_solver|].
  destruct (splice_base F l1 a n bp m l2 He) as [F' HF']; [lia|].
  pose proof (inv_asc s lo F A Hi) as Hasc. pose proof (inv_spaced s lo F A Hi) as Hsp.
  pose proof (mi_linked _ _ _ _ Hi) as Hlk. pose proof (mi_freep _ _ _ _ Hi) as Hfp.
  rewrite He in Hasc, Hsp, Hlk.
  assert (HB : BASE = 1) by done.
  assert (Hno : bp ∉ ((BASE, 0) :: F).*1).
  { eapply inv_not_ring; [done| |lia]. apply Hfree. unfold in_block. simpl. lia. }
  destruct (asc_distinct _ _ _ _ _ Hasc) as [Ha1 Ha2].
  destruct (splice_linked s fuel l1 a n bp m q0 l2) as (h & Er & Hlk' & Hh); try done; try lia.
  { eapply free_find_ok; try done; [by rewrite <-He|lia|intros b Hb; destruct (H2 b Hb); lia|by rewrite <-He|].
    apply (f_equal length) in He. rewrite length_app in He. simpl in He. lia. }
  { by rewrite <-He. }
  { intros b Hb. destruct (H2 b Hb) as (? & ? & ?). lia. }
  assert (Hcov : forall u, covers F' u <-> covers F u \/ in_block (bp, m) u).
  { intros u. assert (Hb0 : ~ in_block (BASE, 0) u) by (unfold in_block; simpl; lia).
    pose proof (splice_covers l1 a n bp m l2 u ltac:(lia) ltac:(lia) ltac:(intros b Hb; apply (H2 b Hb))) as Hc.
    rewrite HF', <-He, !covers_cons in Hc. tauto. }
  assert (Hin_a : a ∈ BASE :: F'.*1).
  { assert (Hin : a ∈ (splice l1 a n bp m l2).*1) by (unfold splice, join_left; rewrite fmap_app; destruct (a + n =? bp); set_solver).
    by rewrite HF' in Hin. }
  exists (mkust h a (brk s) (lim s)), F'. split; [done|]. split; [|split; [done|split; [done|split; [|done]]]].
  2:{ apply (f_equal length) in He. apply (f_equal length) in HF'. unfold splice, join_left, join_right in HF'.
      rewrite length_app in He, HF'. destruct l2 as [|[a2 n2] l2]; [|destruct (bp + m =? a2)]; destruct (a + n =? bp); simpl in *; lia. }
  pose proof (splice_spaced (BASE - 1) l1 a n bp m l2 Hsp Hend Hm ltac:(intros b Hb; apply (H2 b Hb))) as Hsp'. rewrite HF' in Hsp', Hlk'.
  split; simpl; try done.
  - by destruct Hsp' as (_ & _ & ?).
  - rewrite Forall_forall. intros b Hb. destruct Hsp' as (_ & _ & Hsp').
    destruct (splice_elem l1 a n bp m l2 b) as [Hin|]; try done; [rewrite HF'; set_solver|intros c Hc; by apply H2|].
    rewrite <-He in Hin. destruct (spaced_above _ _ _ Hsp' Hb). apply elem_of_cons in Hin as [->|Hin]; [simpl in *; lia|].
    by apply (inv_free s lo F A Hi b).
  - intros u [Hc|Hc]; [apply Hcov in Hc as [Hc|Hc]|]; [by apply (mi_range _ _ _ _ Hi); left|unfold in_block in Hc; simpl in Hc; lia|by apply (mi_range _ _ _ _ Hi); right].
  - intros u Hc Hc'. apply Hcov in Hc as [Hc|Hc]; [by apply (mi_disj _ _ _ _ Hi u)|by destruct (Hfree u Hc)].
  - by apply (mi_apart _ _ _ _ Hi).
  - intros b Hb. destruct (mi_size _ _ _ _ Hi b Hb) as [Hp Hsz]. split; [done|]. rewrite Hh; [done| |].
    + intros Hbeq. assert (Hin : (a, n) ∈ (BASE, 0) :: F) by (rewrite He; set_solver).
      destruct (inv_alloc s lo F A Hi b Hb). apply elem_of_cons in Hin as [Hin|Hin]; [simplify_eq; lia|].
      destruct (inv_free s lo F A Hi _ Hin) as (_ & Hpn & _). apply (mi_disj _ _ _ _ Hi a); [by apply (covers_first F (a, n))|].
      rewrite <-Hbeq. by apply covers_first.
    + intros Hbb. subst bp. destruct (Hfree b.1) as [_ Hf]; [unfold in_block; simpl; lia|]. by apply Hf, covers_first.
Qed.

Lemma inv_drop s lo F A b A' :
  minv s lo F A -> A ≡ₚ b :: A' ->
  minv s lo F A' /\ forall u, in_block b u -> ~ covers F u /\ ~ covers A' u.
Proof.
  intros Hi HA. pose proof (mi_apart _ _ _ _ Hi) as Hap. rewrite HA in Hap. destruct Hap as [Hb Hap].
  assert (Hc : forall u, covers A u <-> in_block b u \/ covers A' u) by (intros u; by rewrite HA, covers_cons).
  split.
  - destruct Hi as [H1 H2 H3 H4 H5 H6 H7 H8 H9]. split; try done.
    + intros u Hu. apply H6. rewrite Hc. tauto.
    + intros u Hu Hu'. apply (H7 u Hu). rewrite Hc. tauto.
    + intros c Hc'. apply H9. rewrite HA. set_solver.
  - intros u Hu. split; [|by apply Hb]. intros Hf. apply (mi_disj _ _ _ _ Hi u Hf). rewrite Hc. by left.
Qed.

(** [free] of an allocated block returns, from any position of [freep] in the ring, and gives back
    exactly the units of the block: the free blocks stay in order and joined where they touch,
    and the other allocated blocks with their headers are as before. *)
Theorem free_gives_back s lo F A A' bp m fuel :
  minv s lo F A -> A ≡ₚ (bp, m) :: A' -> (length F < fuel)%nat ->
  exists s' F', free fuel (bp + 1) s = Ok tt s' /\ minv s' lo F' A' /\
    forall u, covers F' u <-> covers F u \/ in_block (bp, m) u.
Proof.
  intros Hi HA Hf. unfold free. replace (bp + 1 - 1) with bp by lia.
  assert (Hin : (bp, m) ∈ A) by (rewrite HA; set_solver).
  destruct (mi_size _ _ _ _ Hi _ Hin) as [Hm Hsz]. destruct (inv_alloc _ _ _ _ Hi _ Hin) as (Hlo & _ & Hbrk).
  destruct (inv_drop _ _ _ _ _ _ Hi HA) as [Hi' Hfree]. simpl in *.
  destruct (insert_block s lo F A' bp m (hdr s bp).1 fuel) as (s' & F' & E & Hi2 & _ & _ & _ & Hc); try done.
  { rewrite <-Hsz. by destruct (hdr s bp). }
  by exists s', F'.
Qed.

(** * [malloc] *)

(** The ring as the loop of [malloc] walks it: from the block after [freep] to [freep]. *)
Lemma walk_step s nunits prevp r rest first k :
  linked (hdr s) (r ++ rest) first -> Forall (fun b => b.2 < nunits /\ b.1 <> freep s) r ->
  malloc_loop (length r + k) nunits prevp (head_addr (r ++ rest) first) s =
  malloc_loop k nunits (default prevp (last r.*1)) (head_addr rest first) s.
Proof.
  revert prevp. induction r as [|[a n] r IH]; intros prevp Hl Hr; [done|].
  apply Forall_cons_1 in Hr as [[Hn Ha] Hr]. cbn [app linked head_addr length] in *. destruct Hl as [Hh Hl]. simpl in Hn, Ha.
  change (S (length r) + k)%nat with (S (length r + k)). cbn [malloc_loop].
  rewrite (bind_ok _ _ _ _ _ (size_ok _ _ _ _ Hh)). destruct (Z.leb_spec nunits n); [lia|].
  unfold bind at 1, gets at 1. destruct (Z.eqb_spec a (freep s)); [done|].
  rewrite (bind_ok _ _ _ _ _ (ptr_ok _ _ _ _ Hh)). rewrite IH by done. f_equal.
  rewrite fmap_cons, last_cons. by destruct (last r.*1).
Qed.

(** The ring, rotated so that it ends with [freep]. *)
Lemma rotated s lo F A :
  minv s lo F A ->
  exists l1 l2 n, (BASE, 0) :: F = l1 ++ (freep s, n) :: l2 /\
    linked (hdr s) (l2 ++ l1 ++ [(freep s, n)]) (head_addr (l2 ++ l1 ++ [(freep s, n)]) BASE) /\
    (hdr s (freep s)).1 = head_addr (l2 ++ l1 ++ [(freep s, n)]) BASE /\
    Forall (fun b => b.1 <> freep s) (l2 ++ l1).
Proof.
  intros Hi. pose proof (mi_freep _ _ _ _ Hi) as Hf. change (BASE :: F.*1) with ((BASE, 0) :: F).*1 in Hf.
  apply list_elem_of_fmap in Hf as ([f n] & Ef & Hf). simpl in Ef.
  apply list_elem_of_split in Hf as (l1 & l2 & He). exists l1, l2, n. rewrite Ef. split; [done|].
  pose proof (mi_linked _ _ _ _ Hi) as Hl. pose proof (inv_asc _ _ _ _ Hi) as Ha. rewrite He in Hl, Ha.
  assert (Hhd : head_addr (l1 ++ [(f, n)]) BASE = BASE).
  { destruct l1 as [|[a' n'] l1]; simpl in *; by simplify_eq. }
  assert (Hhd2 : forall d, head_addr (l1 ++ [(f, n)]) d = BASE) by (intros; destruct l1 as [|[]]; simpl in *; done).
  apply linked_app in Hl as [Hl1 [Hhf Hl2]]. simpl in Hl1.
  assert (Hq : head_addr (l2 ++ l1 ++ [(f, n)]) BASE = head_addr l2 BASE) by (destruct l2 as [|[]]; simpl; done).
  split; [|split].
  - rewrite Hq. apply linked_app. rewrite Hhd2. split; [done|]. apply linked_app. by simpl.
  - by rewrite Hq, Hhf.
  - destruct (asc_distinct _ _ _ _ _ Ha) as [H1 H2]. apply Forall_app. rewrite !Forall_forall. split; intros b Hb Heq.
    + apply H2. rewrite <-Heq. by apply list_elem_of_fmap_2.
    + apply H1. rewrite <-Heq. by apply list_elem_of_fmap_2.
Qed.

(** The block whose pointer leads to [p] is the one before [p] in the ring. *)
Lemma ring_pred h l1 p n l2 x :
  linked h (l1 ++ (p, n) :: l2) BASE -> asc (BASE - 1) (l1 ++ (p, n) :: l2) ->
  x ∈ (l1 ++ (p, n) :: l2).*1 -> (h x).1 = p -> p <> BASE ->
  exists l1' nx, l1 = l1' ++ [(x, nx)].
Proof.
  intros Hl Ha Hx Hp Hb. apply list_elem_of_fmap in Hx as ([x' nx] & -> & Hx). simpl in *.
  apply list_elem_of_split in Hx as (k1 & k2 & He). rewrite He in Hl. apply linked_app in Hl as [_ [Hh _]].
  rewrite Hh in Hp. simpl in Hp. destruct k2 as [|[p' n'] k2]; simpl in Hp; [done|]. subst p'.
  exists k1, nx. rewrite He in Ha.
  assert (Hk : l1 ++ (p, n) :: l2 = (k1 ++ [(x', nx)]) ++ (p, n') :: k2) by (rewrite He; by rewrite <-app_assoc).
  clear He Hh. assert (Ha2 : asc (BASE - 1) ((k1 ++ [(x', nx)]) ++ (p, n') :: k2)) by (by rewrite <-app_assoc).
  assert (Ha1 : asc (BASE - 1) (l1 ++ (p, n) :: l2)) by (by rewrite Hk).
  destruct (asc_distinct _ _ _ _ _ Ha1) as [H1 H2]. destruct (asc_distinct _ _ _ _ _ Ha2) as [H3 H4].
  clear Ha Ha1 Ha2 Hb. revert Hk H1 H3. generalize (k1 ++ [(x', nx)]). clear k1. revert l1.
  induction l1 as [|b l1 IH]; intros [|c k] Hk H1 H3; simplify_eq/=; try done; set_solver.
Qed.

Lemma spaced_remove lo l1 x l2 : 0 <= x.2 -> spaced lo (l1 ++ x :: l2) -> spaced lo (l1 ++ l2).
Proof.
  destruct x as [a n]. simpl. intros Hn Hs. apply spaced_app in Hs as [H1 (H2 & H3 & H4)]. apply spaced_app. split; [done|].
  eapply spaced_le; [|done]. lia.
Qed.

Lemma spaced_shrink lo l1 a n m l2 : 0 <= m <= n -> spaced lo (l1 ++ (a, n) :: l2) -> spaced lo (l1 ++ (a, m) :: l2).
Proof.
  intros Hm Hs. apply spaced_app in Hs as [H1 (H2 & H3 & H4)]. apply spaced_app. split; [done|]. simpl.
  split; [done|]. split; [lia|]. eapply spaced_le; [|done]. lia.
Qed.

(** The invariant after a part [b] of the free memory was given out. *)
Lemma inv_take s lo F A h F' f b :
  minv s lo F A -> linked h ((BASE, 0) :: F') BASE -> spaced BASE F' -> Forall (fun b => 0 < b.2) F' ->
  f ∈ BASE :: F'.*1 -> 0 < b.2 -> (h b.1).2 = b.2 ->
  (forall u, covers F u <-> covers F' u \/ in_block b u) -> (forall u, in_block b u -> ~ covers F' u) ->
  (forall a, covers A a -> h a = hdr s a) ->
  minv (mkust h f (brk s) (lim s)) lo F' (b :: A).
Proof.
  intros Hi Hl Hs Hp Hf Hb Hsz Hc Hd Hh. split; simpl; try done.
  - apply (mi_lo _ _ _ _ Hi).
  - intros u Hu. apply (mi_range _ _ _ _ Hi). rewrite Hc. rewrite covers_cons in Hu. tauto.
  - intros u Hu. rewrite covers_cons. intros [Hu'|Hu']; [by apply (Hd u)|]. apply (mi_disj _ _ _ _ Hi u); [|done]. rewrite Hc. by left.
  - split; [|apply (mi_apart _ _ _ _ Hi)]. intros u Hu. apply (mi_disj _ _ _ _ Hi u). rewrite Hc. by right.
  - intros c Hin. apply elem_of_cons in Hin as [->|Hin]; [done|]. destruct (mi_size _ _ _ _ Hi c Hin) as [Hp' Hsz'].
    rewrite Hh; [done|]. by apply covers_first.
Qed.

Lemma covers_mid l1 b l2 u : covers (l1 ++ b :: l2) u <-> covers (l1 ++ l2) u \/ in_block b u.
Proof. rewrite !covers_app, covers_cons. tauto. Qed.

(** A unit of one block of a spaced list is in no other block. *)
Lemma spaced_sep lo l1 a n l2 u :
  spaced lo (l1 ++ (a, n) :: l2) -> in_block (a, n) u -> ~ covers (l1 ++ l2) u.
Proof.
  intros Hs Hu Hc. apply spaced_app in Hs as [H1 (H2 & H3 & H4)]. unfold in_block in Hu. simpl in Hu.
  apply covers_app in Hc as [(b & Hb & Hbu)|(b & Hb & Hbu)]; unfold in_block in Hbu.
  - pose proof (spaced_top _ _ _ H1 Hb). lia.
  - pose proof (spaced_above _ _ _ H4 Hb). lia.
Qed.

(** A block that fits exactly leaves the ring. *)
Lemma unlink_block s lo F A prevp p n F1 F2 :
  minv s lo F A -> F = F1 ++ (p, n) :: F2 -> prevp ∈ BASE :: F.*1 -> (hdr s prevp).1 = p ->
  exists h, (q ← ptr p; set_ptr prevp q;; ret p) s = Ok p (mkust h (freep s) (brk s) (lim s)) /\
    minv (mkust h prevp (brk s) (lim s)) lo (F1 ++ F2) ((p, n) :: A).
Proof.
  intros Hi HF Hprev Hptr. pose proof (mi_linked _ _ _ _ Hi) as Hl. pose proof (inv_asc _ _ _ _ Hi) as Ha.
  pose proof (mi_spaced _ _ _ _ Hi) as Hs. pose proof (mi_pos _ _ _ _ Hi) as Hp.
  assert (Hin : (p, n) ∈ F) by (rewrite HF; set_solver).
  destruct (inv_free _ _ _ _ Hi _ Hin) as (Hplo & Hn & _). pose proof (mi_lo _ _ _ _ Hi) as [Hlo _]. simpl in Hplo, Hn.
  rewrite HF in Hl, Ha, Hs, Hp, Hprev. change ((BASE, 0) :: F1 ++ (p, n) :: F2) with (((BASE, 0) :: F1) ++ (p, n) :: F2) in Hl, Ha.
  assert (Hprev2 : prevp ∈ (((BASE, 0) :: F1) ++ (p, n) :: F2).*1) by done.
  destruct (ring_pred _ _ _ _ _ _ Hl Ha Hprev2 Hptr) as (k & nx & Hk); [lia|].
  pose proof Hl as Hl'. apply linked_app in Hl' as [Hl1 [Hhp Hl2]]. rewrite Hk in Hl1. apply linked_app in Hl1 as [Hlk [Hhx _]]. simpl in Hlk, Hhx.
  rewrite Hk in Ha. pose proof Ha as Ha'. rewrite <-app_assoc in Ha'. simpl in Ha'.
  destruct (asc_distinct _ _ _ _ _ Ha') as [Hx1 Hx2].
  set (h := fupd (hdr s) prevp (head_addr F2 BASE, nx)).
  exists h. split.
  { rewrite (bind_ok _ _ _ _ _ (ptr_ok _ _ _ _ Hhp)), (bind_ok _ _ _ _ _ (set_ptr_ok _ _ _ _ _ Hhx)). done. }
  assert (Hpx : p <> prevp) by set_solver.
  eapply inv_take; [done| | | | |done| | | |].
  - change ((BASE, 0) :: F1 ++ F2) with (((BASE, 0) :: F1) ++ F2). rewrite Hk, <-app_assoc. apply linked_app. simpl.
    unfold h at 2. rewrite fupd_eq. split; [|split; [done|]]; apply linked_fupd; (done || set_solver).
  - by apply spaced_remove in Hs; [|simpl; lia].
  - apply Forall_app in Hp as [Hp1 Hp2]. apply Forall_cons_1 in Hp2 as [_ Hp2]. by apply Forall_app.
  - change (BASE :: (F1 ++ F2).*1) with (((BASE, 0) :: F1) ++ F2).*1. rewrite Hk. rewrite !fmap_app. set_solver.
  - simpl. unfold h. rewrite fupd_ne by done. by rewrite Hhp.
  - intros u. rewrite HF. apply covers_mid.
  - intros u Hu. eapply spaced_sep; [exact Hs|done].
  - intros a Hca. unfold h. apply fupd_ne. intros ->. simpl in Hprev. apply elem_of_cons in Hprev as [->|Hprev].
    + pose proof (mi_range _ _ _ _ Hi BASE (or_intror Hca)). lia.
    + apply list_elem_of_fmap in Hprev as (b & -> & Hb). rewrite <-HF in Hb. destruct (inv_free _ _ _ _ Hi _ Hb) as (_ & Hb2 & _).
      apply (mi_disj _ _ _ _ Hi b.1); [by apply covers_first|done].
Qed.

(** A larger block gives its end. *)
Lemma split_block s lo F A p n nunits prevp F1 F2 :
  minv s lo F A -> F = F1 ++ (p, n) :: F2 -> prevp ∈ BASE :: F.*1 -> 0 < nunits < n ->
  exists h, (set_size p (u32 (n - nunits));; m ← size p; let p' := p + m in set_size p' nunits;; ret p') s =
    Ok (p + (n - nunits)) (mkust h (freep s) (brk s) (lim s)) /\
    minv (mkust h prevp (brk s) (lim s)) lo (F1 ++ (p, n - nunits) :: F2) ((p + (n - nunits), nunits) :: A).
Proof.
  intros Hi HF Hprev Hn. pose proof (mi_linked _ _ _ _ Hi) as Hl. pose proof (inv_asc _ _ _ _ Hi) as Ha.
  pose proof (mi_spaced _ _ _ _ Hi) as Hs. pose proof (mi_pos _ _ _ _ Hi) as Hp.
  assert (Hin : (p, n) ∈ F) by (rewrite HF; set_solver).
  destruct (inv_free _ _ _ _ Hi _ Hin) as (Hplo & _ & Hpb). pose proof (mi_lo _ _ _ _ Hi) as [Hlo Hlim]. simpl in Hplo, Hpb.
  rewrite HF in Hl, Ha, Hs, Hp. change ((BASE, 0) :: F1 ++ (p, n) :: F2) with (((BASE, 0) :: F1) ++ (p, n) :: F2) in Hl, Ha.
  destruct (asc_distinct _ _ _ _ _ Ha) as [Hx1 Hx2].
  apply linked_app in Hl as [Hl1 [Hhp Hl2]]. simpl head_addr in Hl1.
  set (p' := p + (n - nunits)).
  set (h1 := fupd (hdr s) p (head_addr F2 BASE, n - nunits)). set (h := fupd h1 p' ((h1 p').1, nunits)).
  assert (HB : BASE = 1) by done.
  assert (Hpp : p <> p') by (unfold p'; lia).
  assert (Hp'in : in_block (p, n) p') by (unfold in_block, p'; simpl; lia).
  assert (Hp'F : p' ∉ F1.*1 ++ F2.*1).
  { rewrite <-fmap_app. intros Hx. apply list_elem_of_fmap in Hx as (b & Hbp & Hb).
    apply (spaced_sep _ _ _ _ _ p' Hs Hp'in). exists b. split; [done|].
    assert (Hb' : b ∈ F) by (rewrite HF; set_solver). destruct (inv_free _ _ _ _ Hi _ Hb') as (_ & ? & _). unfold in_block. lia. }
  assert (Hp'0 : p' ∉ ((BASE, 0) :: F1).*1) by (simpl; intros Hx; apply elem_of_cons in Hx as [Hx|Hx]; [unfold p' in Hx; lia|set_solver]).
  exists h. split.
  { rewrite u32_small by lia. rewrite (bind_ok _ _ _ _ _ (set_size_ok _ _ _ _ _ Hhp)).
    erewrite (bind_ok (size p)) by (apply size_ok with (head_addr F2 BASE); simpl; apply fupd_eq). cbv beta zeta. fold p'.
    reflexivity. }
  assert (Hcov : forall u, in_block (p, n) u <-> in_block (p, n - nunits) u \/ in_block (p', nunits) u) by (intros u; unfold in_block, p'; simpl; lia).
  eapply inv_take; [done| | | | | | | | |].
  - change ((BASE, 0) :: F1 ++ (p, n - nunits) :: F2) with (((BASE, 0) :: F1) ++ (p, n - nunits) :: F2). apply linked_app. simpl head_addr.
    split; [unfold h, h1; apply linked_fupd; [done|]; by apply linked_fupd|]. simpl. split.
    + unfold h, h1. rewrite fupd_ne, fupd_eq by done. done.
    + unfold h, h1. apply linked_fupd; [set_solver|]. by apply linked_fupd.
  - eapply spaced_shrink; [|done]. lia.
  - apply Forall_app in Hp as [Hp1 Hp2]. apply Forall_cons_1 in Hp2 as [_ Hp2]. apply Forall_app. split; [done|]. constructor; [simpl; lia|done].
  - rewrite HF, fmap_app in Hprev. by rewrite fmap_app.
  - simpl. lia.
  - simpl. unfold h. by rewrite fupd_eq.
  - intros u. rewrite HF, !covers_mid, Hcov. tauto.
  - intros u Hu. rewrite covers_mid. intros [Hc|Hc].
    + eapply (spaced_sep _ _ _ _ _ u Hs); [rewrite Hcov; by right|done].
    + unfold in_block, p' in *. simpl in *. lia.
  - intros a Hca. assert (Hna : ~ in_block (p, n) a).
    { intros Hb. apply (mi_disj _ _ _ _ Hi a); [|done]. rewrite HF, covers_mid. by right. }
    unfold h, h1. rewrite !fupd_ne; [done| |]; intros ->; apply Hna; [unfold in_block; simpl; lia|done].
Qed.

(** What [malloc] has done when it returns the block [r] of [nunits] units out of the free blocks [F]. *)
Definition given (s' : ust) (lo : Z) (F A : blocks) (r nunits : Z) : Prop :=
  exists F', minv s' lo F' ((r, nunits) :: A) /\ forall u, covers F u <-> covers F' u \/ in_block (r, nunits) u.

Lemma take_block s lo F A prevp p n nunits k :
  minv s lo F A -> (p, n) ∈ F -> 0 < nunits <= n -> prevp ∈ BASE :: F.*1 -> (hdr s prevp).1 = p ->
  exists s' r, malloc_loop (S k) nunits prevp p s = Ok (Some (r + 1)) s' /\ given s' lo F A r nunits.
Proof.
  intros Hi Hin Hn Hprev Hptr. apply list_elem_of_split in Hin as (F1 & F2 & HF). cbn [malloc_loop].
  assert (Hh : hdr s p = (head_addr F2 BASE, n)).
  { pose proof (mi_linked _ _ _ _ Hi) as [_ Hl]. rewrite HF in Hl. by apply linked_app in Hl as [_ [? _]]. }
  rewrite (bind_ok _ _ _ _ _ (size_ok _ _ _ _ Hh)). destruct (Z.leb_spec nunits n); [|lia].
  destruct (Z.eqb_spec n nunits) as [->|Hne].
  - destruct (unlink_block _ _ _ _ _ _ _ _ _ Hi HF Hprev Hptr) as (h & E & Hi').
    rewrite (bind_ok _ _ _ _ _ E). eexists _, p. split; [reflexivity|]. exists (F1 ++ F2). split; [done|].
    intros u. rewrite HF. apply covers_mid.
  - destruct (split_block s lo F A p n nunits prevp F1 F2 Hi HF Hprev) as (h & E & Hi'); [lia|].
    rewrite (bind_ok _ _ _ _ _ E). eexists _, _. split; [reflexivity|]. eexists. split; [done|].
    intros u. rewrite HF, !covers_mid. unfold in_block. simpl. intuition lia.
Qed.

Lemma first_fit (l : blocks) nunits :
  Forall (fun b => b.2 < nunits) l \/
  exists r b rest, l = r ++ b :: rest /\ Forall (fun b => b.2 < nunits) r /\ nunits <= b.2.
Proof.
  induction l as [|b l IH]; [by left|]. destruct (decide (nunits <= b.2)).
  - right. exists [], b, l. done.
  - destruct IH as [IH|(r & c & rest & -> & Hr & Hc)]; [left; constructor; [lia|done]|].
    right. exists (b :: r), c, rest. split; [done|]. split; [constructor; [lia|done]|done].
Qed.

Lemma head_addr_mid r b rest d d' : head_addr (r ++ b :: rest) d = head_addr (r ++ b :: rest) d'.
Proof. by destruct r as [|[]], b. Qed.

(** From [freep] the loop finds the first block that fits. *)
Lemma search_hit s lo F A nunits k :
  minv s lo F A -> 0 < nunits -> Exists (fun b => nunits <= b.2) F -> (length F < k)%nat ->
  exists s' r, malloc_loop k nunits (freep s) (hdr s (freep s)).1 s = Ok (Some (r + 1)) s' /\ given s' lo F A r nunits.
Proof.
  intros Hi Hn Hex Hk. destruct (rotated s lo F A Hi) as (l1 & l2 & n & He & Hl & Hp & Hne).
  set (Q := l2 ++ l1 ++ [(freep s, n)]) in *.
  assert (HQ : forall b, b ∈ Q <-> b ∈ (BASE, 0) :: F) by (intros b; rewrite He; unfold Q; set_solver).
  assert (HlQ : length Q = S (length F)).
  { apply (f_equal length) in He. unfold Q. rewrite !length_app in *. simpl in *. lia. }
  destruct (first_fit Q nunits) as [Hall|(r & [p m] & rest & Hr & Hsm & Hm)].
  { apply Exists_exists in Hex as (b & Hb & Hbn). rewrite Forall_forall in Hall.
    assert (HbQ : b ∈ Q) by (apply HQ; set_solver). specialize (Hall b HbQ). simpl in Hall. lia. }
  rewrite Hp. rewrite Hr in Hl |- *.
  assert (Hrf : Forall (fun b => b.2 < nunits /\ b.1 <> freep s) r).
  { rewrite Forall_forall in Hsm, Hne |- *. intros b Hb. split; [by apply Hsm|]. apply Hne.
    assert (Hpre : r `prefix_of` l2 ++ l1).
    { unfold Q in Hr. rewrite app_assoc in Hr. destruct rest as [|c rest' _] using rev_ind.
      - apply app_inj_tail in Hr as [-> _]. done.
      - exists ((p, m) :: rest'). rewrite app_comm_cons, app_assoc in Hr. by apply app_inj_tail in Hr as [-> _]. }
    destruct Hpre as [z ->]. set_solver. }
  assert (Hlr : length Q = (length r + S (length rest))%nat) by (rewrite Hr, length_app; done).
  replace k with (length r + S (k - length r - 1))%nat by lia.
  rewrite (head_addr_mid r (p, m) rest BASE (head_addr (r ++ (p, m) :: rest) BASE)).
  rewrite walk_step by done. cbn [head_addr].
  assert (Hin : (p, m) ∈ F).
  { assert (HpQ : (p, m) ∈ Q) by (rewrite Hr; set_solver). apply HQ, elem_of_cons in HpQ as [HpQ|HpQ]; [simplify_eq; simpl in Hm; lia|done]. }
  eapply (take_block _ _ _ _ _ p m); [done|done|simpl in Hm; lia| |].
  - destruct (last r.*1) as [x|] eqn:El; simpl; [|apply (mi_freep _ _ _ _ Hi)].
    apply last_Some in El as [z El]. change (BASE :: F.*1) with ((BASE, 0) :: F).*1.
    assert (Hx : x ∈ r.*1) by (rewrite El; set_solver). apply list_elem_of_fmap in Hx as (b & -> & Hb).
    apply list_elem_of_fmap_2, HQ. rewrite Hr. set_solver.
  - destruct r as [|[x nx] r' _] using rev_ind; simpl.
    + rewrite Hp, Hr. done.
    + rewrite fmap_app, last_app. simpl. rewrite <-app_assoc in Hl. apply linked_app in Hl as [_ [Hh _]]. by rewrite Hh.
Qed.

(** If no block fits the loop comes back to [freep] and asks for more memory. *)
Lemma search_miss s lo F A nunits k :
  minv s lo F A -> 0 < nunits -> Forall (fun b => b.2 < nunits) F ->
  malloc_loop (length F + S k) nunits (freep s) (hdr s (freep s)).1 s =
  (r ← morecore k nunits;
   match r with
   | None => ret None
   | Some p' => q ← ptr p'; malloc_loop k nunits p' q
   end) s.
Proof.
  intros Hi Hn Hall. destruct (rotated s lo F A Hi) as (l1 & l2 & n & He & Hl & Hp & Hne).
  assert (Hall' : forall b, b ∈ (BASE, 0) :: F -> b.2 < nunits).
  { intros b Hb. apply elem_of_cons in Hb as [->|Hb]; [done|]. rewrite Forall_forall in Hall. by apply Hall. }
  rewrite He in Hall'. rewrite Hp. rewrite app_assoc in Hl |- *.
  replace (length F) with (length (l2 ++ l1)).
  2:{ apply (f_equal length) in He. rewrite !length_app in *. simpl in *. lia. }
  rewrite (head_addr_mid (l2 ++ l1) (freep s, n) [] BASE (head_addr ((l2 ++ l1) ++ [(freep s, n)]) BASE)).
  rewrite walk_step; [|done|].
  2:{ rewrite Forall_forall in Hne |- *. intros b Hb. split; [apply Hall'; set_solver|by apply Hne]. }
  simpl head_addr. apply linked_app in Hl as [_ [Hh _]]. cbn [malloc_loop].
  rewrite (bind_ok _ _ _ _ _ (size_ok _ _ _ _ Hh)).
  assert (Hnf : n < nunits) by (apply (Hall' (freep s, n)); set_solver).
  destruct (Z.leb_spec nunits n); [lia|]. unfold bind at 1, gets at 1. by rewrite Z.eqb_refl.
Qed.

(** Memory that the blocks of a spaced list cover without a gap lies in one of them. *)
Lemma spaced_gap lo l b : spaced lo l -> b ∈ l -> ~ covers l (b.1 + b.2).
Proof.
  intros Hs Hb (c & Hc & Hu). apply list_elem_of_split in Hb as (l1 & l2 & ->). destruct b as [a n]. simpl in *.
  apply spaced_app in Hs as [H1 (H2 & H3 & H4)]. unfold in_block in Hu.
  apply elem_of_app in Hc as [Hc|Hc]; [pose proof (spaced_top _ _ _ H1 Hc); lia|].
  apply elem_of_cons in Hc as [->|Hc]; [simpl in Hu; lia|]. pose proof (spaced_above _ _ _ H4 Hc). lia.
Qed.

Lemma spaced_one lo l x m :
  spaced lo l -> 0 < m -> (forall u, in_block (x, m) u -> covers l u) -> Exists (fun b => m <= b.2) l.
Proof.
  intros Hs Hm Hc. destruct (Hc x) as (b & Hb & Hbx); [unfold in_block; simpl; lia|].
  apply Exists_exists. exists b. split; [done|]. unfold in_block in Hbx.
  destruct (decide (x + m <= b.1 + b.2)); [lia|]. exfalso. apply (spaced_gap _ _ _ Hs Hb), Hc. unfold in_block. simpl. lia.
Qed.

(** The size of the block that [morecore] asks for. *)
Definition chunk (nu : Z) : Z := if nu <? 4096 then 4096 else nu.

Lemma morecore_ok s lo F A nu fuel :
  minv s lo F A -> 0 < nu < 2 ^ 26 -> (length F < fuel)%nat ->
  if decide (brk s + chunk nu <= lim s) then
    exists s' F', morecore fuel nu s = Ok (Some (freep s')) s' /\ minv s' lo F' A /\
      (length F' <= S (length F))%nat /\ Exists (fun b => nu <= b.2) F' /\
      forall u, covers F' u <-> covers F u \/ in_block (brk s, chunk nu) u
  else morecore fuel nu s = Ok None s.
Proof.
  intros Hi Hnu Hf. pose proof (mi_lo _ _ _ _ Hi) as [Hlo Hlim]. unfold morecore. fold (chunk nu).
  assert (Hch : nu <= chunk nu < 2 ^ 26) by (unfold chunk; destruct (Z.ltb_spec nu 4096); lia).
  assert (Hd : chunk nu * HDRSZ / HDRSZ = chunk nu) by (apply Z.div_mul; done).
  assert (Esb : sbrk (s32 (chunk nu * HDRSZ)) s = if decide (brk s + chunk nu <= lim s)
    then Ok (Some (brk s)) (mkust (hdr s) (freep s) (brk s + chunk nu) (lim s)) else Ok None s).
  { unfold sbrk. rewrite s32_small by (unfold HDRSZ; lia). rewrite Hd. destruct (Z.ltb_spec (chunk nu * HDRSZ) 0); [unfold HDRSZ in *; lia|].
    case_decide; destruct (Z.leb_spec (brk s + chunk nu) (lim s)); done || lia. }
  case_decide as Hl; rewrite (bind_ok _ _ _ _ _ Esb); [|done]. clear Esb.
  set (s1 := mkust (fupd (hdr s) (brk s) ((hdr s (brk s)).1, chunk nu)) (freep s) (brk s + chunk nu) (lim s)).
  assert (Hi1 : minv s1 lo F A).
  { assert (Hcov : forall u, covers F u \/ covers A u -> u <> brk s) by (intros u Hu; pose proof (mi_range _ _ _ _ Hi u Hu); lia).
    pose proof (mi_linked _ _ _ _ Hi) as Hlk. split; try apply Hi; simpl.
    - lia.
    - change (linked (fupd (hdr s) (brk s) ((hdr s (brk s)).1, chunk nu)) ((BASE, 0) :: F) BASE). apply linked_fupd; [|done].
      eapply inv_not_ring; [exact Hi| |lia]. intros Hc. by apply (Hcov (brk s)); [left|].
    - intros u Hu. pose proof (mi_range _ _ _ _ Hi u Hu). lia.
    - intros b Hb. destruct (mi_size _ _ _ _ Hi b Hb). split; [done|]. rewrite fupd_ne; [done|].
      apply Hcov. right. by apply covers_first. }
  destruct (insert_block s1 lo F A (brk s) (chunk nu) (hdr s (brk s)).1 fuel) as (s' & F' & E & Hi' & _ & _ & Hlen & Hc); try done; try lia.
  { simpl. apply fupd_eq. }
  { intros u Hu. unfold in_block in Hu. simpl in Hu.
    split; intros Hcu; [pose proof (mi_range _ _ _ _ Hi u (or_introl Hcu))|pose proof (mi_range _ _ _ _ Hi u (or_intror Hcu))]; lia. }
  exists s', F'. unfold set_size at 1. unfold bind at 1, bind at 1, gets at 1, set_hdr at 1, modify at 1. cbn [hdr brk freep lim].
  fold s1. unfold bind at 1, free. replace (brk s + 1 - 1) with (brk s) by lia. rewrite E.
  split; [done|]. split; [done|]. split; [done|]. split; [|done].
  eapply Exists_impl; [eapply (spaced_one BASE F' (brk s) (chunk nu)); [apply (mi_spaced _ _ _ _ Hi')|lia|]|].
  - intros u Hu. apply Hc. by right.
  - intros b Hb. simpl in Hb. lia.
Qed.

(** What [malloc] needs of the state: the ring, or no ring yet. *)
Definition mstate (s : ust) (lo : Z) (F A : blocks) : Prop :=
  minv s lo F A \/ (freep s = 0 /\ F = [] /\ A = [] /\ BASE < lo <= brk s /\ brk s <= lim s < 2 ^ 27).

(** [malloc] sets the ring up at the first call. *)
Lemma malloc_start fuel nbytes s lo F A :
  mstate s lo F A ->
  exists s0, minv s0 lo F A /\ brk s0 = brk s /\ lim s0 = lim s /\
    malloc fuel nbytes s = malloc_loop fuel (units nbytes) (freep s0) (hdr s0 (freep s0)).1 s0.
Proof.
  intros [Hi|(Hf & -> & -> & Hlo & Hlim)]; unfold malloc, bind at 1, gets at 1.
  - exists s. repeat (split; [done|]). destruct (Z.eqb_spec (freep s) 0) as [Hz|Hz].
    { pose proof (mi_freep _ _ _ _ Hi) as Hf. rewrite Hz in Hf. apply elem_of_cons in Hf as [Hf|Hf]; [done|].
      apply list_elem_of_fmap in Hf as (b & Hb & Hin). destruct (inv_free _ _ _ _ Hi _ Hin). pose proof (mi_lo _ _ _ _ Hi).
      assert (BASE = 1) by done. lia. }
    unfold bind at 1, ret at 1. unfold bind at 1, ptr, bind at 1, gets, ret. done.
  - rewrite Hf. exists (mkust (fupd (hdr s) BASE (BASE, 0)) BASE (brk s) (lim s)). split; [|split; [done|split; [done|reflexivity]]].
    split; simpl; try done; rewrite ?fupd_eq; try done.
    + set_solver.
    + intros u. rewrite !covers_nil. tauto.
    + intros u. by rewrite covers_nil.
    + intros b Hb. by apply not_elem_of_nil in Hb.
Qed.

Lemma units_bounds nbytes : 0 <= nbytes < 2 ^ 29 -> 0 < units nbytes < 2 ^ 26 /\ nbytes <= HDRSZ * (units nbytes - 1).
Proof.
  intros Hn. unfold units, HDRSZ. pose proof (Z.div_mod (nbytes + 16 - 1) 16). pose proof (Z.mod_pos_bound (nbytes + 16 - 1) 16).
  rewrite u32_small; lia.
Qed.

(** [malloc] returns.  It fails only when no free block is large enough and the kernel refuses
    more memory; then nothing that is free or allocated has changed.  Otherwise the block it returns has room for the
    bytes asked for, lies in memory that was free (or new), and overlaps no
    allocated block and no block that is still free, whatever was allocated and freed before. *)
Theorem malloc_fresh s lo F A nbytes fuel :
  mstate s lo F A -> 0 <= nbytes < 2 ^ 29 -> (2 * length F + 4 <= fuel)%nat ->
  exists s', (malloc fuel nbytes s = Ok None s' /\ minv s' lo F A /\
      Forall (fun b => b.2 < units nbytes) F /\ lim s < brk s + chunk (units nbytes)) \/
    exists r F', malloc fuel nbytes s = Ok (Some (r + 1)) s' /\ minv s' lo F' ((r, units nbytes) :: A) /\
      nbytes <= HDRSZ * (units nbytes - 1) /\
      (forall u, in_block (r, units nbytes) u -> covers F u \/ in_block (brk s, chunk (units nbytes)) u) /\
      (forall u, covers F u -> covers F' u \/ in_block (r, units nbytes) u).
Proof.
  intros Hs Hn Hf. destruct (units_bounds nbytes Hn) as [Hu Hb].
  destruct (malloc_start fuel nbytes s lo F A Hs) as (s0 & Hi & Hbrk & Hlim & Em). rewrite Em, <-Hbrk, <-Hlim. clear Em Hs Hbrk Hlim s.
  destruct (decide (Exists (fun b => units nbytes <= b.2) F)) as [Hex|Hno].
  - destruct (search_hit s0 lo F A (units nbytes) fuel) as (s' & r & E & F' & Hi' & Hc); [done|lia|done|lia|].
    exists s'. right. exists r, F'. split; [done|]. split; [done|]. split; [done|]. split; intros u; rewrite Hc; tauto.
  - assert (Hall : Forall (fun b => b.2 < units nbytes) F).
    { apply not_Exists_Forall in Hno; [|intros; apply _]. eapply Forall_impl; [done|]. simpl. intros. lia. }
    replace fuel with (length F + S (fuel - length F - 1))%nat by lia.
    erewrite search_miss by (done || lia). set (k := (fuel - length F - 1)%nat).
    pose proof (morecore_ok s0 lo F A (units nbytes) k Hi Hu ltac:(lia)) as Hm. case_decide as Hl.
    + destruct Hm as (s1 & F1 & E1 & Hi1 & Hlen & Hex1 & Hc1). rewrite (bind_ok _ _ _ _ _ E1).
      destruct (search_hit s1 lo F1 A (units nbytes) k) as (s' & r & E & F' & Hi' & Hc); [done|lia|done|lia|].
      exists s'. right. exists r, F'. split.
      { unfold bind, ptr, bind, gets, ret. exact E. }
      split; [done|]. split; [done|]. split; intros u Hu'.
      * rewrite <-Hc1. apply Hc. by right.
      * rewrite <-Hc. apply Hc1. by left.
    + rewrite (bind_ok _ _ _ _ _ Hm). exists s0. left. split; [done|]. split; [done|]. split; [done|lia].
Qed.

(** An empty heap of 8192 units: the first [malloc], a second one, and [free] of the first block. *)
Definition heap0 : ust := mkust (fun _ => (0, 0)) 0 100 8292.

Lemma heap0_state : mstate heap0 100 [] [].
Proof. right. repeat split; vm_compute; congruence. Qed.

Lemma malloc_fresh_witness :
  exists s', (malloc 4 40 heap0 = Ok None s' /\ minv s' 100 [] [] /\
      Forall (fun b : Z * Z => b.2 < 4) [] /\ 8292 < 100 + 4096) \/
    exists r F', malloc 4 40 heap0 = Ok (Some (r + 1)) s' /\ minv s' 100 F' [(r, 4)] /\
      40 <= HDRSZ * (4 - 1) /\
      (forall u, in_block (r, 4) u -> covers [] u \/ in_block (100, 4096) u) /\
      (forall u, covers [] u -> covers F' u \/ in_block (r, 4) u).
Proof. apply (malloc_fresh heap0 100 [] [] 40 4); [apply heap0_state|lia|simpl; lia]. Defined.

(** The state after a first [malloc] of 40 bytes. *)
Definition heap1 : ust :=
  mkust (fupd (fupd (fupd (fun _ => (0, 0)) BASE (100, 0)) 100 (BASE, 4092)) 4192 (0, 4)) BASE 4196 8292.

Lemma heap1_state : minv heap1 100 [(100, 4092)] [(4192, 4)].
Proof.
  split; simpl; try done.
  - repeat constructor.
  - set_solver.
  - intros u. rewrite !covers_cons, !covers_nil. unfold in_block. simpl. lia.
  - intros u. rewrite !covers_cons, !covers_nil. unfold in_block. simpl. lia.
  - split; [|done]. intros u _. rewrite covers_nil. tauto.
  - intros b Hb. apply elem_of_cons in Hb as [->|Hb]; [done|]. by apply not_elem_of_nil in Hb.
Qed.

Lemma free_gives_back_witness :
  exists s' F', free 2 4193 heap1 = Ok tt s' /\ minv s' 100 F' [] /\
    forall u, covers F' u <-> covers [(100, 4092)] u \/ in_block (4192, 4) u.
Proof. apply (free_gives_back heap1 100 [(100, 4092)] [(4192, 4)] [] 4192 4 2); [apply heap1_state|done|simpl; lia]. Defined.
