(* ===== verification/Shell.v ===== *)
(** The shell, user/sh.c: the parser of command lines.

    The line is an object in memory, the pointers [ps], [es], [q] and [eq] are
    offsets in it, and the parsed command holds such offsets until [nulterminate]
    ends the words with zero bytes, in place.  A [struct cmd] is a tree; the node
    that [parseexec] goes on filling after [redircmd] has wrapped it is the only
    one that changes once it is built, see [add_arg].  The [panic] of the shell
    prints the message and ends the process that parses: [Panic].

    The specification is a grammar of command lines over tokens ([sline] with
    [line_toks]) and the command that a sentence of it stands for ([line_tree]). *)

From S2P Require Import Prelude ULib.

(** * The code *)

Definition MAXARGS : nat := 10.
Definition O_RDONLY : Z := 0.
Definition O_WRONLY : Z := 1.
Definition O_CREATE : Z := 512.

(** Words are pairs of offsets, of their first byte and of the byte after the last. *)
Inductive cmd :=
| EXEC (argv : list (nat * nat))
| REDIR (c : cmd) (file efile : nat) (mode fd : Z)
| PIPE (left right : cmd)
| LIST (left right : cmd)
| BACK (c : cmd).

(** The object that holds the line, and [*ps]. *)
Record shst := mksh { sh_buf : bytes; sh_s : nat }.

Definition execcmd : cmd := EXEC [].
Definition redircmd (subcmd : cmd) (file efile : nat) (mode fd : Z) : cmd := REDIR subcmd file efile mode fd.
Definition pipecmd (left right : cmd) : cmd := PIPE left right.
Definition listcmd (left right : cmd) : cmd := LIST left right.
Definition backcmd (subcmd : cmd) : cmd := BACK subcmd.

(** Space, tab, return, newline, vertical tab; [< | > & ; ( )]. *)
Definition whitespace : bytes := [32; 9; 13; 10; 11; 0].
Definition symbols : bytes := [60; 124; 62; 38; 59; 40; 41; 0].

Definition c_lt : Z := 60.
Definition c_bar : Z := 124.
Definition c_gt : Z := 62.
Definition c_amp : Z := 38.
Definition c_semi : Z := 59.
Definition c_open : Z := 40.
Definition c_close : Z := 41.
(** The results of [gettoken] for [>>] and for a word. *)
Definition c_plus : Z := 43.
Definition c_a : Z := 97.

Definition strchr_ (s : bytes) (c : Z) : bool := match strchr s c with At _ => true | _ => false end.

(** [*p], and [*p = 0]. *)
Definition deref (p : nat) : M shst Z := fun t =>
  match sh_buf t !! p with Some c => Ok c t | None => Undef end.
Definition put_nul (p : nat) : M shst unit := fun t =>
  if decide (p < length (sh_buf t))%nat then Ok tt (mksh (<[p := 0]> (sh_buf t)) (sh_s t)) else Undef.
Definition set_s (s : nat) : M shst unit := modify (fun t => mksh (sh_buf t) s).

(** [while(s < es && strchr(whitespace, *s)) s++]. *)
Fixpoint skip_ws (fuel es s : nat) : M shst nat :=
  match fuel with
  | O => nofuel
  | S fuel' =>
      if (s <? es)%nat then
        c ← deref s;
        if strchr_ whitespace c then skip_ws fuel' es (S s) else ret s
      else ret s
  end.

(** [while(s < es && !strchr(whitespace, *s) && !strchr(symbols, *s)) s++]. *)
Fixpoint skip_word (fuel es s : nat) : M shst nat :=
  match fuel with
  | O => nofuel
  | S fuel' =>
      if (s <? es)%nat then
        c ← deref s;
        if negb (strchr_ whitespace c) && negb (strchr_ symbols c) then skip_word fuel' es (S s) else ret s
      else ret s
  end.

(** The result, [*q] and [*eq]. *)
Definition gettoken (es : nat) : M shst (Z * nat * nat) :=
  s ← gets sh_s;
  q ← skip_ws (S (es - s)) es s;
  c ← deref q;
  ' (ret_, s) ←
    (if c =? 0 then ret (c, q)
     else if (c =? c_bar) || (c =? c_open) || (c =? c_close) || (c =? c_semi) || (c =? c_amp) || (c =? c_lt)
     then ret (c, S q)
     else if c =? c_gt then
       d ← deref (S q);
       if d =? c_gt then ret (c_plus, S (S q)) else ret (c, S q)
     else
       s ← skip_word (S (es - q)) es q;
       ret (c_a, s));
  s' ← skip_ws (S (es - s)) es s;
  set_s s';;
  ret (ret_, q, s).

Definition peek (es : nat) (toks : bytes) : M shst bool :=
  s ← gets sh_s;
  s ← skip_ws (S (es - s)) es s;
  set_s s;;
  c ← deref s;
  ret (negb (c =? 0) && strchr_ toks c).

(** One round of the loop of [parseredirs]: the operator and its file. *)
Fixpoint parseredirs_loop (fuel es : nat) (cmd_ : cmd) : M shst cmd :=
  match fuel with
  | O => nofuel
  | S fuel' =>
      b ← peek es [c_lt; c_gt; 0];
      if b then
        ' (tok, _, _) ← gettoken es;
        ' (r, q, eq) ← gettoken es;
        if negb (r =? c_a) then panic "missing file for redirection"
        else
          parseredirs_loop fuel' es
            (if tok =? c_lt then redircmd cmd_ q eq O_RDONLY 0
             else if tok =? c_gt then redircmd cmd_ q eq (Z.lor O_WRONLY O_CREATE) 1
             else if tok =? c_plus then redircmd cmd_ q eq (Z.lor O_WRONLY O_CREATE) 1
             else cmd_)
      else ret cmd_
  end.

Definition parseredirs (cmd_ : cmd) (es : nat) : M shst cmd :=
  s ← gets sh_s; parseredirs_loop (S (es - s)) es cmd_.

(** [cmd->argv[argc] = q; cmd->eargv[argc] = eq; argc++], where [cmd] is the
    [execcmd] inside the redirections that [ret] points to. *)
Fixpoint add_arg (w : nat * nat) (ret : cmd) : cmd :=
  match ret with
  | EXEC argv => EXEC (argv ++ [w])
  | REDIR c file efile mode fd => REDIR (add_arg w c) file efile mode fd
  | c => c
  end.

(** The [while] loop of [parseexec]. *)
Fixpoint parseexec_loop (fuel es argc : nat) (ret_ : cmd) : M shst cmd :=
  match fuel with
  | O => nofuel
  | S fuel' =>
      b ← peek es [c_bar; c_close; c_amp; c_semi; 0];
      if b then ret ret_
      else
        ' (tok, q, eq) ← gettoken es;
        if tok =? 0 then ret ret_
        else if negb (tok =? c_a) then panic "syntax"
        else
          let ret_ := add_arg (q, eq) ret_ in
          if (MAXARGS <=? S argc)%nat then panic "too many args"
          else
            ret_ ← parseredirs ret_ es;
            parseexec_loop fuel' es (S argc) ret_
  end.

(** [while(peek(ps, es, "&"))] of [parseline]. *)
Fixpoint parseback_loop (fuel es : nat) (cmd_ : cmd) : M shst cmd :=
  match fuel with
  | O => nofuel
  | S fuel' =>
      b ← peek es [c_amp; 0];
      if b then gettoken es;; parseback_loop fuel' es (backcmd cmd_) else ret cmd_
  end.

Fixpoint parseline (fuel es : nat) {struct fuel} : M shst cmd :=
  match fuel with
  | O => nofuel
  | S fuel' =>
      cmd ← parsepipe fuel' es;
      s ← gets sh_s;
      cmd ← parseback_loop (S (es - s)) es cmd;
      b ← peek es [c_semi; 0];
      if b then
        gettoken es;;
        right ← parseline fuel' es;
        ret (listcmd cmd right)
      else ret cmd
  end
with parsepipe (fuel es : nat) {struct fuel} : M shst cmd :=
  match fuel with
  | O => nofuel
  | S fuel' =>
      cmd ← parseexec fuel' es;
      b ← peek es [c_bar; 0];
      if b then
        gettoken es;;
        right ← parsepipe fuel' es;
        ret (pipecmd cmd right)
      else ret cmd
  end
with parseblock (fuel es : nat) {struct fuel} : M shst cmd :=
  match fuel with
  | O => nofuel
  | S fuel' =>
      b ← peek es [c_open; 0];
      if negb b then panic "parseblock"
      else
        gettoken es;;
        cmd ← parseline fuel' es;
        b ← peek es [c_close; 0];
        if negb b then panic "syntax - missing )"
        else
          gettoken es;;
          parseredirs cmd es
  end
with parseexec (fuel es : nat) {struct fuel} : M shst cmd :=
  match fuel with
  | O => nofuel
  | S fuel' =>
      b ← peek es [c_open; 0];
      if b then parseblock fuel' es
      else
        ret_ ← parseredirs execcmd es;
        s ← gets sh_s;
        parseexec_loop (S (es - s)) es 0 ret_
  end.

(** [for(i=0; ecmd->argv[i]; i++) *ecmd->eargv[i] = 0]. *)
Fixpoint nul_args (argv : list (nat * nat)) : M shst unit :=
  match argv with
  | [] => ret tt
  | (_, eq) :: argv' => put_nul eq;; nul_args argv'
  end.

Fixpoint nulterminate (c : cmd) : M shst unit :=
  match c with
  | EXEC argv => nul_args argv
  | REDIR c _ efile _ _ => nulterminate c;; put_nul efile
  | PIPE l r => nulterminate l;; nulterminate r
  | LIST l r => nulterminate l;; nulterminate r
  | BACK c => nulterminate c
  end.

(** The [peek] before the test of the leftovers has no token to look for. *)
Definition parsecmd : M shst cmd :=
  t ← get;
  match strlen (drop (sh_s t) (sh_buf t)) with
  | None => undef
  | Some n =>
      let es := (sh_s t + n)%nat in
      cmd ← parseline (4 * n + 4) es;
      peek es [0];;
      s ← gets sh_s;
      if negb (s =? es)%nat then panic "syntax"
      else nulterminate cmd;; ret cmd
  end.

(** * The language of command lines *)

(** A word, or one of [| ( ) ; & < >] by its character and [>>] by [c_plus]. *)
Inductive token := Word (w : bytes) | Sym (c : Z).

Definition is_ws (c : Z) : bool := strchr_ whitespace c.
Definition is_sym (c : Z) : bool := strchr_ symbols c.
Definition flush (w : bytes) : list token := match w with [] => [] | _ => [Word w] end.

(** The tokens of a line, [w] the part of a word that was read. *)
Fixpoint tokens (w l : bytes) : list token :=
  match l with
  | [] => flush w
  | c :: l' =>
      if is_ws c then flush w ++ tokens [] l'
      else if is_sym c then
        flush w ++
        match l' with
        | d :: l'' =>
            if (c =? c_gt) && (d =? c_gt) then Sym c_plus :: tokens [] l'' else Sym c :: tokens [] l'
        | [] => Sym c :: tokens [] l'
        end
      else tokens (w ++ [c]) l'
  end.

Inductive redir_op := RIn | ROut | RApp.

(** A redirection: the operator and the file. *)
Definition redirection : Type := redir_op * bytes.

Inductive item := Arg (w : bytes) | Redir (r : redirection).

(** Lines: a pipeline, some [&], and after a [;] another line. *)
Inductive sline :=
| Line (p : spipe) (amps : nat)
| Seq (p : spipe) (amps : nat) (l : sline)
with spipe :=
| Stage (e : sexec)
| Piped (e : sexec) (p : spipe)
with sexec :=
| Block (l : sline) (rs : list redirection)
| Simple (items : list item).

Definition op_char (o : redir_op) : Z := match o with RIn => c_lt | ROut => c_gt | RApp => c_plus end.
Definition redir_toks (r : redirection) : list token := [Sym (op_char r.1); Word r.2].
Definition item_toks (i : item) : list token := match i with Arg w => [Word w] | Redir r => redir_toks r end.

Fixpoint line_toks (l : sline) : list token :=
  match l with
  | Line p n => pipe_toks p ++ replicate n (Sym c_amp)
  | Seq p n l => pipe_toks p ++ replicate n (Sym c_amp) ++ Sym c_semi :: line_toks l
  end
with pipe_toks (p : spipe) : list token :=
  match p with
  | Stage e => exec_toks e
  | Piped e p => exec_toks e ++ Sym c_bar :: pipe_toks p
  end
with exec_toks (e : sexec) : list token :=
  match e with
  | Block l rs => Sym c_open :: line_toks l ++ Sym c_close :: (rs ≫= redir_toks)
  | Simple its => its ≫= item_toks
  end.

(** What a command does, with its words as strings. *)
Inductive tree :=
| TExec (argv : list bytes)
| TRedir (t : tree) (file : bytes) (mode fd : Z)
| TPipe (l r : tree)
| TList (l r : tree)
| TBack (t : tree).

Definition redir_tree (t : tree) (r : redirection) : tree :=
  match r.1 with
  | RIn => TRedir t r.2 O_RDONLY 0
  | _ => TRedir t r.2 (Z.lor O_WRONLY O_CREATE) 1
  end.
Definition item_args (its : list item) : list bytes :=
  its ≫= fun i => match i with Arg w => [w] | Redir _ => [] end.
Definition item_redirs (its : list item) : list redirection :=
  its ≫= fun i => match i with Arg _ => [] | Redir r => [r] end.

Fixpoint line_tree (l : sline) : tree :=
  match l with
  | Line p n => Nat.iter n TBack (pipe_tree p)
  | Seq p n l => TList (Nat.iter n TBack (pipe_tree p)) (line_tree l)
  end
with pipe_tree (p : spipe) : tree :=
  match p with
  | Stage e => exec_tree e
  | Piped e p => TPipe (exec_tree e) (pipe_tree p)
  end
with exec_tree (e : sexec) : tree :=
  match e with
  | Block l rs => foldl redir_tree (line_tree l) rs
  | Simple its => foldl redir_tree (TExec (item_args its)) (item_redirs its)
  end.

(** A command has fewer than [MAXARGS] arguments. *)
Fixpoint line_ok (l : sline) : bool :=
  match l with
  | Line p _ => pipe_ok p
  | Seq p _ l => pipe_ok p && line_ok l
  end
with pipe_ok (p : spipe) : bool :=
  match p with
  | Stage e => exec_ok e
  | Piped e p => exec_ok e && pipe_ok p
  end
with exec_ok (e : sexec) : bool :=
  match e with
  | Block l _ => line_ok l
  | Simple its => (length (item_args its) <? MAXARGS)%nat
  end.

(** The command in memory, with its words read as strings. *)
Definition word_in (buf : bytes) (q : nat) : option bytes := cstring (drop q buf).
Fixpoint tree_of (buf : bytes) (c : cmd) : option tree :=
  match c with
  | EXEC argv => TExec <$> mapM (fun w => word_in buf w.1) argv
  | REDIR c file _ mode fd =>
      tree_of buf c ≫= fun t => (fun f => TRedir t f mode fd) <$> word_in buf file
  | PIPE l r => tree_of buf l ≫= fun tl => TPipe tl <$> tree_of buf r
  | LIST l r => tree_of buf l ≫= fun tl => TList tl <$> tree_of buf r
  | BACK c => TBack <$> tree_of buf c
  end.

Example parse_ex :
  (fun b => match parsecmd (mksh b 0) with Ok c t => tree_of (sh_buf t) c | _ => None end)
    ([97; 32; 60; 98; 62; 62; 99; 124; 40; 100; 59; 101; 41; 38] ++ [0]) =
  Some (TBack (TPipe (TRedir (TRedir (TExec [[97]]) [98] 0 0) [99] 513 1) (TList (TExec [[100]]) (TExec [[101]])))).
Proof. vm_compute. reflexivity. Qed.

Scheme sline_mut := Induction for sline Sort Prop
with spipe_mut := Induction for spipe Sort Prop
with sexec_mut := Induction for sexec Sort Prop.

(** The redirections before the next argument. *)
Definition starts_arg (its : list item) : Prop := match its with Redir _ :: _ => False | _ => True end.

Lemma items_split its : exists rs its', its = (Redir <$> rs) ++ its' /\ starts_arg its'.
Proof.
  induction its as [|[w|r] its (rs & its' & -> & H)]; [by exists [], []|by exists [], (Arg w :: (Redir <$> rs) ++ its')|].
  by exists (r :: rs), its'.
Qed.

Lemma redirs_toks rs : (Redir <$> rs) ≫= item_toks = rs ≫= redir_toks.
Proof. induction rs as [|r rs IH]; [done|]. cbn [fmap list_fmap mbind list_bind] in *. by rewrite IH. Qed.

Lemma item_args_split rs its : item_args ((Redir <$> rs) ++ its) = item_args its.
Proof. induction rs as [|r rs IH]; [done|]. cbn. apply IH. Qed.

Lemma item_redirs_split rs its : item_redirs ((Redir <$> rs) ++ its) = rs ++ item_redirs its.
Proof. induction rs as [|r rs IH]; [done|]. cbn. f_equal. apply IH. Qed.

(** * Lexing *)

Definition stop (c : Z) : bool := is_ws c || is_sym c || (c =? 0).

Lemma tokens_word w w0 l : Forall (fun c => stop c = false) w -> tokens w0 (w ++ l) = tokens (w0 ++ w) l.
Proof.
  intros Hw. revert w0. induction Hw as [|c w Hc _ IH]; intros w0; [by rewrite app_nil_r|].
  unfold stop in Hc. apply orb_false_iff in Hc as [[E1 E2]%orb_false_iff _].
  cbn [tokens app]. rewrite E1, E2, IH. by rewrite <-app_assoc.
Qed.

Lemma tokens_stop w l : match l with [] => True | c :: _ => stop c = true /\ c <> 0 end ->
  tokens w l = flush w ++ tokens [] l.
Proof.
  destruct l as [|c l]; [by rewrite app_nil_r|]. intros [Hs Hz]. cbn [tokens]. unfold stop in Hs.
  destruct (is_ws c); [done|]. destruct (is_sym c); [done|]. simpl in Hs. lia.
Qed.

Lemma strchr_elem s c : strchr_ s c = true -> c ∈ s /\ c <> 0.
Proof.
  unfold strchr_. induction s as [|x s IH]; [done|]. cbn [strchr].
  destruct (Z.eqb_spec x 0) as [|Hx]; [done|]. destruct (Z.eqb_spec x c) as [->|Hc].
  - intros _. split; [by left|done].
  - destruct (strchr s c); [|done..]. intros H. destruct (IH H). split; [by right|done].
Qed.

Lemma is_sym_cases c : is_sym c = true ->
  c = c_lt \/ c = c_bar \/ c = c_gt \/ c = c_amp \/ c = c_semi \/ c = c_open \/ c = c_close.
Proof. intros [H Hz]%strchr_elem. unfold symbols in H. set_unfold in H. unfold c_lt, c_bar, c_gt, c_amp, c_semi, c_open, c_close. lia. Qed.

Definition first_char (t : token) : Z :=
  match t with Word (c :: _) => c | Word [] => 0 | Sym c => if c =? c_plus then c_gt else c end.

(** The bytes of [symbols] that [peek] looks for: a string of such bytes. *)
Definition sym_set (toks : bytes) : Prop := forall c, strchr_ toks c = true -> is_sym c = true.

(** The tokens of a line: words are not empty, and have no stop character in them. *)
Definition tok_ok (t : token) : Prop :=
  match t with
  | Word w => w <> [] /\ Forall (fun c => stop c = false) w
  | Sym c => is_sym c = true \/ c = c_plus
  end.

Lemma tok_ok_word w ts : Forall tok_ok (Word w :: ts) -> exists c w', w = c :: w' /\ stop c = false.
Proof.
  intros H. inversion H as [|? ? Hok _]; subst. destruct Hok as [Hne Hw].
  destruct w as [|c w]; [done|]. inversion Hw; subst. by exists c, w.
Qed.

Lemma flush_ok w : Forall (fun c => stop c = false) w -> Forall tok_ok (flush w).
Proof. destruct w as [|c w]; intros H; constructor; [done|constructor]. Qed.

Lemma tokens_ok l w : Forall (fun c => c <> 0) l -> Forall (fun c => stop c = false) w -> Forall tok_ok (tokens w l).
Proof.
  remember (length l) as n eqn:En. revert l w En. induction (lt_wf n) as [n _ IH]. intros l w -> Hl Hw.
  destruct l as [|c l]; [by apply flush_ok|]. inversion Hl as [|? ? Hc Hl']; subst. cbn [tokens].
  assert (forall l' w', (length l' <= length l)%nat -> Forall (fun c => c <> 0) l' -> Forall (fun c => stop c = false) w' ->
    Forall tok_ok (tokens w' l')) as IH'.
  { intros l' w' Hlen Hz' Hw'. apply (IH (length l')); [simpl; lia|done..]. }
  destruct (is_ws c) eqn:Ew; [apply Forall_app; split; [by apply flush_ok|by apply IH']|].
  destruct (is_sym c) eqn:Es.
  - apply Forall_app; split; [by apply flush_ok|]. destruct l as [|d l].
    { constructor; [by left|constructor]. }
    inversion Hl'; subst. destruct ((c =? c_gt) && (d =? c_gt)).
    + constructor; [by right|]. apply IH'; [simpl; lia|done..].
    + constructor; [by left|]. by apply IH'.
  - apply IH'; [lia|done|]. apply Forall_app; split; [done|]. constructor; [|constructor].
    unfold stop. rewrite Ew, Es. by apply Z.eqb_neq in Hc.
Qed.

Lemma length_tokens l w : (length (tokens w l) <= length l + length (flush w))%nat.
Proof.
  remember (length l) as n eqn:En. revert l w En. induction (lt_wf n) as [n _ IH]. intros l w ->.
  destruct l as [|c l]; [done|]. cbn [tokens].
  assert (forall l' w', (length l' <= length l)%nat -> (length (tokens w' l') <= length l' + length (flush w'))%nat) as IH'.
  { intros l' w' Hlen. apply (IH (length l')); [simpl; lia|done]. }
  destruct (is_ws c); [|destruct (is_sym c)].
  - rewrite length_app. specialize (IH' l [] ltac:(lia)). simpl in *. lia.
  - rewrite length_app. destruct l as [|d l]; [simpl; lia|].
    pose proof (IH' (d :: l) [] ltac:(simpl; lia)). pose proof (IH' l [] ltac:(simpl; lia)).
    destruct (_ && _); simpl length in *; lia.
  - specialize (IH' l (w ++ [c]) ltac:(lia)). assert (length (flush (w ++ [c])) <= 1)%nat by (destruct (w ++ [c]); simpl; lia).
    simpl length in *. lia.
Qed.

Lemma strchr_stop toks c : sym_set toks -> stop c = false -> strchr_ toks c = false.
Proof.
  intros Ht Hc. destruct (strchr_ toks c) eqn:E; [|done]. apply Ht in E. unfold stop in Hc. rewrite E in Hc.
  by destruct (is_ws c).
Qed.

Ltac solve_sym_set :=
  let x := fresh "x" in let Hx := fresh "Hx" in let Hin := fresh "Hin" in let Hz := fresh "Hz" in
  intros x Hx; apply strchr_elem in Hx as [Hin Hz]; set_unfold in Hin; naive_solver.
Lemma redir_sym_set : sym_set [c_lt; c_gt; 0].
Proof. solve_sym_set. Qed.
Lemma exec_sym_set : sym_set [c_bar; c_close; c_amp; c_semi; 0].
Proof. solve_sym_set. Qed.
Lemma one_sym_set c : is_sym c = true -> sym_set [c; 0].
Proof. intros Hc. solve_sym_set. Qed.

Section line.
Context (line rest : bytes) (Hline : Forall (fun c => c <> 0) line).
Let buf : bytes := line ++ 0 :: rest.
Let es : nat := length line.

(** The tokens from [s] on. *)
Definition rem (s : nat) : list token := tokens [] (drop s line).
Definition at_s (s : nat) : shst := mksh buf s.

(** [w] is the word between [q] and [eq], and what follows it ends it. *)
Definition word_at (q eq : nat) (w : bytes) : Prop :=
  (q < eq <= es)%nat /\ sub_bytes q (eq - q) line = w /\ Forall (fun c => stop c = false) w /\
  exists d, buf !! eq = Some d /\ stop d = true.

Lemma deref_in s p c : line !! p = Some c -> deref p (at_s s) = Ok c (at_s s).
Proof. intros H. unfold deref. cbn. unfold buf. by rewrite (lookup_app_l_Some _ _ _ _ H). Qed.

Lemma buf_es : buf !! es = Some 0.
Proof. unfold buf, es. by rewrite list_lookup_middle. Qed.

Lemma deref_es s : deref es (at_s s) = Ok 0 (at_s s).
Proof. unfold deref. cbn. by rewrite buf_es. Qed.

Lemma rem_es : rem es = [].
Proof. unfold rem, es. by rewrite drop_all. Qed.

Lemma rem_S s c : line !! s = Some c -> is_ws c = true -> rem (S s) = rem s.
Proof. intros H Hc. unfold rem. rewrite (drop_S _ _ _ H). cbn [tokens]. by rewrite Hc. Qed.

(** Where the skipping of white space stops. *)
Definition at_token (s : nat) : Prop := s = es \/ exists c, line !! s = Some c /\ is_ws c = false.

Lemma skip_ws_ok fuel s p : (s <= es)%nat -> (es - s < fuel)%nat ->
  exists s', skip_ws fuel es s (at_s p) = Ok s' (at_s p) /\ (s <= s' <= es)%nat /\ rem s' = rem s /\ at_token s'.
Proof.
  revert s. induction fuel as [|fuel IH]; intros s Hs Hf; [lia|]. cbn [skip_ws].
  destruct (Nat.ltb_spec s es) as [Hlt|Hge].
  - destruct (lookup_lt_is_Some_2 line s) as [c Hc]; [done|].
    rewrite (bind_ok _ _ _ _ _ (deref_in _ _ _ Hc)). fold (is_ws c). destruct (is_ws c) eqn:Ew.
    + destruct (IH (S s)) as (s' & E & Hb & Hr & Ht); [lia..|]. exists s'. split_and!; [done|lia|lia| |done].
      rewrite Hr. by apply (rem_S _ c).
    + exists s. split_and!; [done|lia..|done|right; by exists c].
  - exists s. split_and!; [done|lia..|done|left; lia].
Qed.

Lemma skip_word_ok fuel s p : (s <= es)%nat -> (es - s < fuel)%nat ->
  exists s', skip_word fuel es s (at_s p) = Ok s' (at_s p) /\ (s <= s' <= es)%nat /\
    Forall (fun c => stop c = false) (sub_bytes s (s' - s) line) /\
    (s' = es \/ exists c, line !! s' = Some c /\ stop c = true).
Proof.
  revert s. induction fuel as [|fuel IH]; intros s Hs Hf; [lia|]. cbn [skip_word].
  destruct (Nat.ltb_spec s es) as [Hlt|Hge].
  - destruct (lookup_lt_is_Some_2 line s) as [c Hc]; [done|]. pose proof (Forall_lookup_1 _ _ _ _ Hline Hc) as Hz.
    rewrite (bind_ok _ _ _ _ _ (deref_in _ _ _ Hc)). fold (is_ws c) (is_sym c).
    destruct (is_ws c) eqn:Ew; [|destruct (is_sym c) eqn:Ey].
    + exists s. split_and!; [done|lia..| |right; exists c; unfold stop; by rewrite Ew].
      rewrite Nat.sub_diag. constructor.
    + exists s. split_and!; [done|lia..| |right; exists c; unfold stop; by rewrite Ew, Ey].
      rewrite Nat.sub_diag. constructor.
    + destruct (IH (S s)) as (s' & E & Hb & Hr & Ht); [lia..|]. exists s'. split_and!; [done|lia|lia| |done].
      unfold sub_bytes in *. rewrite (drop_S _ _ _ Hc). replace (s' - s)%nat with (S (s' - S s)) by lia. cbn [take].
      constructor; [|done]. unfold stop. rewrite Ew, Ey. simpl. lia.
  - exists s. split_and!; [done|lia..| |left; lia]. rewrite Nat.sub_diag. constructor.
Qed.

(** The first token from a place where one starts. *)
Lemma rem_word q eq : (q < eq <= es)%nat -> Forall (fun c => stop c = false) (sub_bytes q (eq - q) line) ->
  (eq = es \/ exists c, line !! eq = Some c /\ stop c = true) ->
  rem q = Word (sub_bytes q (eq - q) line) :: rem eq /\ word_at q eq (sub_bytes q (eq - q) line).
Proof.
  intros Hq Hw He. split.
  - unfold rem. assert (drop q line = sub_bytes q (eq - q) line ++ drop eq line) as ->.
    { unfold sub_bytes. rewrite <-(take_drop (eq - q) (drop q line)) at 1. rewrite drop_drop. do 2 f_equal. lia. }
    rewrite tokens_word by done. rewrite app_nil_l. rewrite tokens_stop.
    + unfold sub_bytes, es in *. destruct (take _ _) eqn:E; [|done].
      apply (f_equal length) in E. rewrite length_take, length_drop in E. simpl in E. lia.
    + destruct He as [->|(c & Hc & Hs)]; [unfold es; by rewrite drop_all|].
      rewrite (drop_S _ _ _ Hc). split; [done|]. by apply (Forall_lookup_1 _ _ _ _ Hline Hc).
  - split; [lia|]. split; [done|]. split; [done|]. destruct He as [->|(c & Hc & Hs)].
    + exists 0. by rewrite buf_es.
    + exists c. split; [|done]. unfold buf. by apply lookup_app_l_Some.
Qed.

Lemma rem_sym q c : line !! q = Some c -> is_sym c = true ->
  rem q = if decide (c = c_gt /\ line !! S q = Some c_gt) then Sym c_plus :: rem (S (S q)) else Sym c :: rem (S q).
Proof.
  intros Hc Hs. unfold rem. rewrite (drop_S _ _ _ Hc). cbn [tokens].
  assert (is_ws c = false) as ->.
  { apply is_sym_cases in Hs. by repeat destruct Hs as [->|Hs]; [..|subst]. }
  rewrite Hs. cbn [flush app]. destruct (line !! S q) as [d|] eqn:Ed.
  - rewrite (drop_S _ _ _ Ed). destruct (Z.eqb_spec c c_gt) as [->|?]; simpl.
    + destruct (Z.eqb_spec d c_gt) as [->|?]; [by rewrite decide_True|]. by rewrite decide_False by naive_solver.
    + by rewrite decide_False by naive_solver.
  - rewrite drop_ge by (by apply lookup_ge_None). by rewrite decide_False by naive_solver.
Qed.

(** The scan of a word, from its first character. *)
Lemma word_scan q p c : line !! q = Some c -> is_ws c = false -> is_sym c = false ->
  exists eq w, skip_word (S (es - q)) es q (at_s p) = Ok eq (at_s p) /\ (q < eq <= es)%nat /\
    word_at q eq w /\ rem q = Word w :: rem eq.
Proof.
  intros Hc Hw Hs. pose proof (lookup_lt_Some _ _ _ Hc) as Hl. pose proof (Forall_lookup_1 _ _ _ _ Hline Hc) as Hz. cbn in Hz.
  destruct (skip_word_ok (S (es - q)) q p) as (eq & E & Hb & Hf & He); [unfold es in *; lia..|].
  assert (q < eq)%nat as Hlt.
  { destruct (decide (eq = q)) as [->|]; [|lia]. destruct He as [->|(c' & Hc' & Hst)]; [unfold es in *; lia|].
    simplify_eq. unfold stop in Hst. rewrite Hw, Hs in Hst. simpl in Hst. lia. }
  destruct (rem_word q eq) as [Hr Hwd]; [lia|done|done|].
  exists eq, (sub_bytes q (eq - q) line). split_and!; [done|lia..|done|done].
Qed.

Lemma peek_ok toks s : sym_set toks -> (s <= es)%nat ->
  exists s', peek es toks (at_s s) =
      Ok (match rem s with [] => false | t :: _ => strchr_ toks (first_char t) end) (at_s s') /\
    (s <= s' <= es)%nat /\ rem s' = rem s /\ (rem s = [] -> s' = es).
Proof.
  intros Ht Hs. unfold peek, bind, gets, set_s, modify. cbn [sh_s at_s].
  destruct (skip_ws_ok (S (es - s)) s s Hs) as (s' & E & Hb & Hr & Htok); [lia|]. rewrite E.
  cbn [sh_buf at_s]. change (mksh _ s') with (at_s s').
  exists s'. rewrite <-Hr. destruct Htok as [->|(c & Hc & Hw)].
  - rewrite deref_es, rem_es. split_and!; [done|lia..|done|done].
  - rewrite (deref_in _ _ _ Hc). pose proof (Forall_lookup_1 _ _ _ _ Hline Hc) as Hz.
    destruct (Z.eqb_spec c 0) as [|_]; [done|]. simpl. destruct (is_sym c) eqn:Es.
    + rewrite (rem_sym _ _ Hc Es). split_and!; [|lia..|done|by case_decide]. unfold ret. f_equal.
      case_decide as Hd; [destruct Hd as [-> _]; done|]. cbn [first_char].
      destruct (Z.eqb_spec c c_plus) as [->|]; [done|done].
    + destruct (word_scan s' s' c Hc Hw Es) as (eq & w & _ & Hb' & Hwd & ->). split_and!; [|lia..|done|done].
      unfold ret. f_equal. destruct Hwd as (_ & <- & _). unfold sub_bytes. rewrite (drop_S _ _ _ Hc).
      by replace (eq - s')%nat with (S (eq - S s')) by lia.
Qed.

(** [gettoken] takes the first token: its result, its bounds, what is left. *)
Definition took (t : token) (r : Z * nat * nat) : Prop :=
  match t with
  | Word w => r.1.1 = c_a /\ word_at r.1.2 r.2 w
  | Sym c => r.1.1 = c
  end.

(** The character after the current one, where the line may end. *)
Lemma deref_next s q c : line !! q = Some c ->
  exists d, deref (S q) (at_s s) = Ok d (at_s s) /\ (d = c_gt <-> line !! S q = Some c_gt).
Proof.
  intros Hc. destruct (line !! S q) as [d|] eqn:Ed.
  - exists d. rewrite (deref_in _ _ _ Ed). naive_solver.
  - exists 0. pose proof (lookup_lt_Some _ _ _ Hc). apply lookup_ge_None in Ed.
    replace (S q) with es by (unfold es; lia). by rewrite deref_es.
Qed.

Lemma gettoken_none s : (s <= es)%nat -> rem s = [] ->
  exists q eq, gettoken es (at_s s) = Ok (0, q, eq) (at_s es).
Proof.
  intros Hs Hr0. unfold gettoken, bind, gets, set_s, modify. cbn [sh_s at_s].
  destruct (skip_ws_ok (S (es - s)) s s Hs) as (q & E & Hb & Hr & Htok); [lia|]. rewrite E.
  rewrite Hr0 in Hr. destruct Htok as [->|(c & Hc & Hw)].
  - rewrite deref_es. cbn [Z.eqb ret]. destruct (skip_ws_ok (S (es - es)) es s) as (s' & E' & Hb' & _); [lia..|].
    rewrite E'. exists es, es. by replace s' with es by lia.
  - destruct (is_sym c) eqn:Es; [rewrite (rem_sym _ _ Hc Es) in Hr; by case_decide|].
    destruct (word_scan q q c Hc Hw Es) as (eq & w & _ & _ & _ & Hr'). by rewrite Hr' in Hr.
Qed.

Lemma gettoken_ok s t ts : (s <= es)%nat -> rem s = t :: ts ->
  exists r s', gettoken es (at_s s) = Ok r (at_s s') /\ took t r /\ (s < s' <= es)%nat /\ rem s' = ts.
Proof.
  intros Hs Hr0. unfold gettoken, bind, gets, set_s, modify. cbn [sh_s at_s].
  destruct (skip_ws_ok (S (es - s)) s s Hs) as (q & E & Hb & Hr & Htok); [lia|]. rewrite E.
  rewrite Hr0 in Hr. destruct Htok as [->|(c & Hc & Hw)]; [by rewrite rem_es in Hr|].
  rewrite (deref_in _ _ _ Hc). pose proof (Forall_lookup_1 _ _ _ _ Hline Hc) as Hz. cbn in Hz.
  pose proof (lookup_lt_Some _ _ _ Hc) as Hl.
  assert (exists r s2, (if c =? 0 then ret (c, q)
     else if (c =? c_bar) || (c =? c_open) || (c =? c_close) || (c =? c_semi) || (c =? c_amp) || (c =? c_lt)
     then ret (c, S q)
     else if c =? c_gt then
       d ← deref (S q);
       if d =? c_gt then ret (c_plus, S (S q)) else ret (c, S q)
     else
       s ← skip_word (S (es - q)) es q;
       ret (c_a, s)) (at_s s) = Ok (r, s2) (at_s s) /\ took t (r, q, s2) /\ (q < s2 <= es)%nat /\ rem s2 = ts)
    as (r & s2 & E2 & Ht & Hs2 & Hr2).
  { destruct (Z.eqb_spec c 0) as [|_]; [done|]. destruct (is_sym c) eqn:Es.
    - rewrite (rem_sym _ _ Hc Es) in Hr. destruct (decide (c = c_gt)) as [->|Hgt].
      + cbn [orb Z.eqb Pos.eqb c_gt c_bar c_open c_close c_semi c_amp c_lt]. destruct (deref_next s q _ Hc) as (d & Ed & Hd).
        unfold bind. rewrite Ed. destruct (Z.eqb_spec d c_gt) as [->|Hne].
        * destruct Hd as [Hd _]. specialize (Hd eq_refl). rewrite decide_True in Hr by done. simplify_eq.
          pose proof (lookup_lt_Some _ _ _ Hd). eexists _, _. split_and!; [done|done|lia|unfold es; lia|done].
        * rewrite decide_False in Hr by naive_solver. simplify_eq. eexists _, _; split_and!; [done|done|lia|unfold es; lia|done].
      + rewrite decide_False in Hr by naive_solver. simplify_eq. exists c, (S q). split_and!; [|done|lia|unfold es; lia|done].
        apply is_sym_cases in Es. by repeat destruct Es as [->|Es]; [..|subst].
    - destruct (word_scan q s c Hc Hw Es) as (eq & w & Esc & Hb' & Hwd & Hr').
      rewrite Hr' in Hr. simplify_eq. exists c_a, eq. split; [|split; [done|split; [lia|done]]].
      assert (forall x, is_sym x = true -> c <> x) as Hn by (intros x Hx ->; congruence).
      rewrite (proj2 (Z.eqb_neq c c_bar)), (proj2 (Z.eqb_neq c c_open)), (proj2 (Z.eqb_neq c c_close)),
        (proj2 (Z.eqb_neq c c_semi)), (proj2 (Z.eqb_neq c c_amp)), (proj2 (Z.eqb_neq c c_lt)), (proj2 (Z.eqb_neq c c_gt)) by (by apply Hn).
      cbn [orb]. unfold bind. by rewrite Esc. }
  unfold bind in E2. rewrite E2. destruct (skip_ws_ok (S (es - s2)) s2 s) as (s' & E' & Hb' & Hr' & _); [lia..|].
  rewrite E'. exists (r, q, s2), s'. split_and!; [done|done|lia..|congruence].
Qed.

(** * Parsing *)

(** [m] ends with [Q]; it may panic unless [strict]. *)
Definition ends {A} (strict : bool) (m : M shst A) (t : shst) (Q : A -> shst -> Prop) : Prop :=
  match m t with Ok a t' => Q a t' | Panic _ => strict = false | _ => False end.

Lemma ends_ret {A} b (a : A) t (Q : A -> shst -> Prop) : Q a t -> ends b (ret a) t Q.
Proof. done. Qed.

Lemma ends_bind {A B} b (m : M shst A) (k : A -> M shst B) t Q :
  ends b m t (fun a t' => ends b (k a) t' Q) -> ends b (bind m k) t Q.
Proof. unfold ends, bind. by destruct (m t). Qed.

Lemma ends_mono {A} b (m : M shst A) t (Q Q' : A -> shst -> Prop) :
  ends b m t Q -> (forall a t', Q a t' -> Q' a t') -> ends b m t Q'.
Proof. unfold ends. destruct (m t); auto. Qed.

(** The command of the code stands for a tree. *)
Inductive reads : cmd -> tree -> Prop :=
| reads_exec argv ws : Forall2 (fun p w => word_at p.1 p.2 w) argv ws -> reads (EXEC argv) (TExec ws)
| reads_redir c t q eq f mode fd : reads c t -> word_at q eq f -> reads (REDIR c q eq mode fd) (TRedir t f mode fd)
| reads_pipe l r tl tr : reads l tl -> reads r tr -> reads (PIPE l r) (TPipe tl tr)
| reads_list l r tl tr : reads l tl -> reads r tr -> reads (LIST l r) (TList tl tr)
| reads_back c t : reads c t -> reads (BACK c) (TBack t).

Lemma reads_add_arg q eq w args rs c : word_at q eq w ->
  reads c (foldl redir_tree (TExec args) rs) ->
  reads (add_arg (q, eq) c) (foldl redir_tree (TExec (args ++ [w])) rs).
Proof.
  intros Hw. revert c. induction rs as [|r rs IH] using rev_ind; intros c Hc.
  - inversion Hc; subst. constructor. apply Forall2_app; [done|]. by constructor.
  - rewrite foldl_app in *. cbn [foldl] in *. unfold redir_tree in Hc at 1. unfold redir_tree at 1.
    destruct (r.1); inversion Hc; subst; cbn [add_arg]; constructor; auto.
Qed.


Lemma rem_ok s : Forall tok_ok (rem s).
Proof. apply tokens_ok; [by apply Forall_drop|constructor]. Qed.

(** Whether [peek] sees one of [toks]. *)
Definition head_in (toks : bytes) (ts : list token) : bool :=
  match ts with [] => false | t :: _ => strchr_ toks (first_char t) end.

Lemma head_in_word toks s w ts : sym_set toks -> rem s = Word w :: ts -> head_in toks (rem s) = false.
Proof.
  intros Ht E. pose proof (rem_ok s) as H. rewrite E in *.
  destruct (tok_ok_word _ _ H) as (c & w' & -> & Hc). by apply strchr_stop.
Qed.

Lemma ends_peek {A} b toks s (k : bool -> M shst A) Q : sym_set toks -> (s <= es)%nat ->
  (forall s', (s <= s' <= es)%nat -> rem s' = rem s -> (rem s = [] -> s' = es) -> ends b (k (head_in toks (rem s))) (at_s s') Q) ->
  ends b (bind (peek es toks) k) (at_s s) Q.
Proof.
  intros Ht Hs Hk. destruct (peek_ok toks s Ht Hs) as (s' & E & Hb & Hr & Hes).
  apply ends_bind. unfold ends at 1. rewrite E. by apply Hk.
Qed.

Lemma ends_gettoken {A} b s t ts (k : Z * nat * nat -> M shst A) Q : (s <= es)%nat -> rem s = t :: ts ->
  (forall r s', took t r -> (s < s' <= es)%nat -> rem s' = ts -> ends b (k r) (at_s s') Q) ->
  ends b (bind (gettoken es) k) (at_s s) Q.
Proof.
  intros Hs Hr Hk. destruct (gettoken_ok s t ts Hs Hr) as (r & s' & E & Ht & Hb & Hr').
  apply ends_bind. unfold ends at 1. rewrite E. by apply Hk.
Qed.

Lemma ends_gettoken_none {A} b s (k : Z * nat * nat -> M shst A) Q : (s <= es)%nat -> rem s = [] ->
  (forall q eq, ends b (k (0, q, eq)) (at_s es) Q) -> ends b (bind (gettoken es) k) (at_s s) Q.
Proof.
  intros Hs Hr Hk. destruct (gettoken_none s Hs Hr) as (q & eq & E).
  apply ends_bind. unfold ends at 1. rewrite E. by apply Hk.
Qed.

(** A parse from [s] ends in the command [c] that reads as [t], with [ts] left. *)
Definition parsed (s : nat) (t : tree) (ts : list token) (c : cmd) (st : shst) : Prop :=
  exists s', st = at_s s' /\ (s <= s' <= es)%nat /\ rem s' = ts /\ reads c t.

Lemma parsed_mono s s0 t ts c st : (s0 <= s)%nat -> parsed s t ts c st -> parsed s0 t ts c st.
Proof. intros Hs (s' & ? & ? & ?). exists s'. split; [done|]. split; [lia|done]. Qed.
(** ** Sentences of the grammar are parsed *)

(** What may follow a command, a pipeline, a line. *)
Definition after_exec (ts : list token) : Prop :=
  match ts with [] => True | t :: _ => t = Sym c_bar \/ t = Sym c_close \/ t = Sym c_amp \/ t = Sym c_semi end.
Definition after_pipe (ts : list token) : Prop :=
  match ts with [] => True | t :: _ => t = Sym c_close \/ t = Sym c_amp \/ t = Sym c_semi end.
Definition after_line (ts : list token) : Prop :=
  match ts with [] => True | t :: _ => t = Sym c_close end.

Lemma parseredirs_loop_ok rs c t : forall fuel s ts, reads c t -> (s <= es)%nat -> (es - s < fuel)%nat ->
  rem s = (rs ≫= redir_toks) ++ ts -> head_in [c_lt; c_gt; 0] ts = false ->
  ends true (parseredirs_loop fuel es c) (at_s s) (parsed s (foldl redir_tree t rs) ts).
Proof.
  revert c t. induction rs as [|[o f] rs IH]; intros c t fuel s ts Hc Hs Hf Hr Hh.
  - destruct fuel as [|fuel]; [lia|]. cbn [parseredirs_loop]. apply ends_peek; [by apply redir_sym_set|done|].
    intros s' Hs' Hr' _. rewrite Hr. cbn [mbind list_bind app] in *. rewrite Hh. apply ends_ret.
    exists s'. split_and!; [done|lia..|congruence|done].
  - destruct fuel as [|fuel]; [lia|]. cbn [parseredirs_loop]. apply ends_peek; [by apply redir_sym_set|done|].
    intros s' Hs' Hr' _. rewrite Hr. cbn [mbind list_bind app redir_toks fst snd] in *.
    replace (head_in _ _) with true by (by destruct o). rewrite Hr in Hr'.
    eapply ends_gettoken; [lia|done|]. intros [[tok q0] e0] s1 Ht1 Hs1 Hr1. cbn [took fst] in Ht1. subst tok.
    eapply ends_gettoken; [lia|done|]. intros [[r q] eq] s2 Ht2 Hs2 Hr2. cbn [took fst snd] in Ht2. destruct Ht2 as [-> Hw].
    cbn [c_a Z.eqb Pos.eqb negb].
    eapply ends_mono; [apply (IH _ (redir_tree t (o, f)) fuel s2 ts)|].
    + by destruct o; constructor.
    + lia.
    + lia.
    + done.
    + done.
    + intros c' st. apply parsed_mono. lia.
Qed.

Lemma parseredirs_ok rs c t s ts : reads c t -> (s <= es)%nat ->
  rem s = (rs ≫= redir_toks) ++ ts -> head_in [c_lt; c_gt; 0] ts = false ->
  ends true (parseredirs c es) (at_s s) (parsed s (foldl redir_tree t rs) ts).
Proof. intros. unfold parseredirs. apply ends_bind, ends_ret. apply parseredirs_loop_ok; [done|done|cbn; lia|done|done]. Qed.
Lemma head_in_items its ts : starts_arg its -> after_exec ts -> Forall tok_ok (its ≫= item_toks) ->
  head_in [c_lt; c_gt; 0] ((its ≫= item_toks) ++ ts) = false.
Proof.
  intros Hi Ht Hok. destruct its as [|[w|r] its]; [| |done].
  - destruct ts as [|t ts]; [done|]. cbn. by destruct Ht as [->|[->|[-> | ->]]].
  - destruct (tok_ok_word _ _ Hok) as (c & w' & -> & Hc). by apply (strchr_stop _ _ redir_sym_set).
Qed.

Lemma parseexec_loop_ok fuel : forall s c args rs its ts,
  reads c (foldl redir_tree (TExec args) rs) -> starts_arg its -> (s <= es)%nat -> (es - s < fuel)%nat ->
  rem s = (its ≫= item_toks) ++ ts -> after_exec ts -> (length (args ++ item_args its) < MAXARGS)%nat ->
  ends true (parseexec_loop fuel es (length args) c) (at_s s)
    (parsed s (foldl redir_tree (TExec (args ++ item_args its)) (rs ++ item_redirs its)) ts).
Proof.
  induction fuel as [|fuel IH]; intros s c args rs its ts Hc Hi Hs Hf Hr Ht Hlen; [lia|]. cbn [parseexec_loop].
  pose proof (rem_ok s) as Hok. apply ends_peek; [apply exec_sym_set|done|]. intros s' Hs' Hr' _.
  destruct its as [|[w|r] its]; [|cbn in Hr|done].
  - cbn in Hr. cbn [item_args item_redirs mbind list_bind]. rewrite !app_nil_r. rewrite Hr in *.
    destruct ts as [|t ts]; cbn [head_in].
    + apply ends_gettoken_none; [lia|done|]. intros q eq. cbn. exists es. split_and!; [done|lia..|apply rem_es|done].
    + replace (strchr_ _ _) with true by (by destruct Ht as [->|[->|[-> | ->]]]).
      apply ends_ret. exists s'. split_and!; [done|lia..|done|done].
  - rewrite (head_in_word _ _ _ _ exec_sym_set Hr). rewrite Hr in Hr'.
    eapply ends_gettoken; [lia|done|]. intros [[tok q] eq] s1 [Htok Hw] Hs1 Hr1. cbn [fst snd] in *. subst tok.
    cbn [c_a Z.eqb Pos.eqb negb]. cbn [item_args mbind list_bind app] in Hlen. fold (item_args its) in Hlen.
    rewrite length_app in Hlen. cbn [length] in Hlen. destruct (Nat.leb_spec MAXARGS (S (length args))) as [Hge|Hlt]; [lia|].
    destruct (items_split its) as (rs' & its' & -> & Hst). rewrite bind_app, redirs_toks, <-app_assoc in Hr1.
    rewrite item_args_split in Hlen. apply ends_bind. pose proof (rem_ok s1) as Hok1. rewrite Hr1, !Forall_app in Hok1.
    eapply ends_mono; [apply (parseredirs_ok rs')|].
    + by apply reads_add_arg.
    + lia.
    + done.
    + apply head_in_items; [done|done|tauto].
    + intros c' st (s2 & -> & Hs2 & Hr2 & Hc'). rewrite <-foldl_app in Hc'.
      replace (S (length args)) with (length (args ++ [w])) by (rewrite length_app; simpl; lia).
      eapply ends_mono; [apply (IH s2 c' (args ++ [w]) (rs ++ rs') its' ts)|].
      * done.
      * done.
      * lia.
      * lia.
      * done.
      * done.
      * rewrite !length_app. simpl. lia.
      * intros c2 st2. cbn [item_args item_redirs mbind list_bind app]. fold (item_args ((Redir <$> rs') ++ its')).
        fold (item_redirs ((Redir <$> rs') ++ its')). rewrite item_args_split, item_redirs_split, <-!app_assoc.
        apply parsed_mono. lia.
Qed.
Lemma parseback_loop_ok n : forall fuel s c t ts, reads c t -> (s <= es)%nat -> (es - s < fuel)%nat ->
  rem s = replicate n (Sym c_amp) ++ ts -> head_in [c_amp; 0] ts = false ->
  ends true (parseback_loop fuel es c) (at_s s) (parsed s (Nat.iter n TBack t) ts).
Proof.
  induction n as [|n IH]; intros fuel s c t ts Hc Hs Hf Hr Hh; (destruct fuel as [|fuel]; [lia|]); cbn [parseback_loop].
  - apply ends_peek; [by apply one_sym_set|done|]. intros s' Hs' Hr' _. rewrite Hr in *. cbn [replicate app] in *. rewrite Hh.
    apply ends_ret. exists s'. split_and!; [done|lia..|done|done].
  - apply ends_peek; [by apply one_sym_set|done|]. intros s' Hs' Hr' _. rewrite Hr in *. cbn [replicate app] in *.
    change (head_in _ _) with true. cbv iota. eapply ends_gettoken; [lia|done|]. intros r s1 _ Hs1 Hr1.
    eapply ends_mono; [apply (IH fuel s1 _ (TBack t) ts); [by constructor|lia|lia|done|done]|].
    intros c' st. rewrite Nat.iter_swap. apply parsed_mono. lia.
Qed.

(** Enough fuel for each of the parsers, by the number of tokens that are left. *)
Definition line_fuel (s : nat) : nat := 4 * length (rem s) + 4.

(** A pipeline and the [&] behind it, the start of [parseline]. *)
Lemma parseline_start fuel s t n ts (k : cmd -> M shst cmd) Q :
  ends true (parsepipe fuel es) (at_s s) (parsed s t (replicate n (Sym c_amp) ++ ts)) ->
  head_in [c_amp; 0] ts = false ->
  (forall c s', (s <= s' <= es)%nat -> rem s' = ts -> reads c (Nat.iter n TBack t) -> ends true (k c) (at_s s') Q) ->
  ends true (cmd ← parsepipe fuel es; s ← gets sh_s; cmd ← parseback_loop (S (es - s)) es cmd; k cmd) (at_s s) Q.
Proof.
  intros Hp Hh Hk. apply ends_bind. eapply ends_mono; [exact Hp|]. intros c st (s1 & -> & Hs1 & Hr1 & Hc).
  apply ends_bind, ends_ret. apply ends_bind.
  eapply ends_mono; [apply (parseback_loop_ok n); [done|lia|cbn; lia|exact Hr1|done]|].
  intros c' st (s2 & -> & Hs2 & Hr2 & Hc'). apply Hk; [lia|done|done].
Qed.

Lemma after_pipe_amps n ts : after_pipe ts -> after_pipe (replicate n (Sym c_amp) ++ ts).
Proof. destruct n; [done|]. cbn. auto. Qed.

Definition line_parses (l : sline) : Prop := forall s ts fuel,
  (s <= es)%nat -> (line_fuel s <= fuel)%nat -> rem s = line_toks l ++ ts -> after_line ts ->
  line_ok l = true -> ends true (parseline fuel es) (at_s s) (parsed s (line_tree l) ts).
Definition pipe_parses (p : spipe) : Prop := forall s ts fuel,
  (s <= es)%nat -> (line_fuel s <= S fuel)%nat -> rem s = pipe_toks p ++ ts -> after_pipe ts ->
  pipe_ok p = true -> ends true (parsepipe fuel es) (at_s s) (parsed s (pipe_tree p) ts).
Definition exec_parses (e : sexec) : Prop := forall s ts fuel,
  (s <= es)%nat -> (line_fuel s <= S (S fuel))%nat -> rem s = exec_toks e ++ ts -> after_exec ts ->
  exec_ok e = true -> ends true (parseexec fuel es) (at_s s) (parsed s (exec_tree e) ts).

Lemma line_end_ok p n : pipe_parses p -> line_parses (Line p n).
Proof.
  unfold line_parses, pipe_parses, exec_parses, line_fuel.
  intros IHp s ts fuel Hs Hf Hr Ht Hok. destruct fuel as [|fuel]; [lia|]. cbn [parseline].
  cbn [line_toks line_tree line_ok] in *. rewrite <-app_assoc in Hr.
  apply (parseline_start _ _ (pipe_tree p) n ts).
  - apply IHp; [done|lia|done| |done]. apply after_pipe_amps. destruct ts; naive_solver.
  - by destruct ts; naive_solver.
  - intros c s2 Hs2 Hr2 Hc. apply ends_peek; [by apply one_sym_set|lia|]. intros s3 Hs3 Hr3 _. rewrite Hr2 in *.
    replace (head_in _ _) with false by (by destruct ts; naive_solver).
    apply ends_ret. exists s3. split_and!; [done|lia..|done|done].
Qed.

Lemma line_seq_ok p n l : pipe_parses p -> line_parses l -> line_parses (Seq p n l).
Proof.
  unfold line_parses, pipe_parses, exec_parses, line_fuel.
  intros IHp IHl s ts fuel Hs Hf Hr Ht [Hokp Hokl]%andb_true_iff. destruct fuel as [|fuel]; [lia|]. cbn [parseline].
  cbn [line_toks line_tree] in *. rewrite <-!app_assoc in Hr.
  pose proof (f_equal length Hr) as Hlen. rewrite !length_app in Hlen. cbn [length app] in Hlen.
  apply (parseline_start _ _ (pipe_tree p) n (Sym c_semi :: line_toks l ++ ts)).
  - apply IHp; [done|lia|done| |done]. apply after_pipe_amps. cbn. auto.
  - done.
  - intros c s2 Hs2 Hr2 Hc. apply ends_peek; [by apply one_sym_set|lia|]. intros s3 Hs3 Hr3 _. rewrite Hr2 in *.
    change (head_in _ _) with true. cbv iota. eapply ends_gettoken; [lia|done|]. intros r s4 _ Hs4 Hr4.
    apply ends_bind.
    eapply ends_mono; [apply (IHl s4 ts); [lia|rewrite Hr4, length_app; lia|done|done|done]|].
    intros c' st (s5 & -> & Hs5 & Hr5 & Hc'). exists s5. split_and!; [done|lia..|done|by constructor].
Qed.

Lemma pipe_stage_ok e : exec_parses e -> pipe_parses (Stage e).
Proof.
  unfold line_parses, pipe_parses, exec_parses, line_fuel.
  intros IHe s ts fuel Hs Hf Hr Ht Hok. destruct fuel as [|fuel]; [lia|]. cbn [parsepipe].
  cbn [pipe_toks pipe_tree pipe_ok] in *. apply ends_bind.
  eapply ends_mono; [apply (IHe s ts); [done|lia|done|destruct ts; naive_solver|done]|].
  intros c st (s1 & -> & Hs1 & Hr1 & Hc). apply ends_peek; [by apply one_sym_set|lia|]. intros s2 Hs2 Hr2 _. rewrite Hr1 in *.
  replace (head_in _ _) with false by (destruct ts as [|? ?]; [done|by destruct Ht as [->|[-> | ->]]]).
  apply ends_ret. exists s2. split_and!; [done|lia..|done|done].
Qed.

Lemma pipe_piped_ok e p : exec_parses e -> pipe_parses p -> pipe_parses (Piped e p).
Proof.
  unfold line_parses, pipe_parses, exec_parses, line_fuel.
  intros IHe IHp s ts fuel Hs Hf Hr Ht [Hoke Hokp]%andb_true_iff. destruct fuel as [|fuel]; [lia|]. cbn [parsepipe].
  cbn [pipe_toks pipe_tree] in *. rewrite <-app_assoc in Hr. pose proof (f_equal length Hr) as Hlen.
  rewrite !length_app in Hlen. cbn [length app] in Hlen. apply ends_bind.
  eapply ends_mono; [apply (IHe s (Sym c_bar :: pipe_toks p ++ ts)); [done|lia|done|cbn; auto|done]|].
  intros c st (s1 & -> & Hs1 & Hr1 & Hc). apply ends_peek; [by apply one_sym_set|lia|]. intros s2 Hs2 Hr2 _. rewrite Hr1 in *.
  change (head_in _ _) with true. cbv iota. eapply ends_gettoken; [lia|done|]. intros r s3 _ Hs3 Hr3.
  apply ends_bind. eapply ends_mono; [apply (IHp s3 ts); [lia|rewrite Hr3, length_app in *; lia|done|done|done]|].
  intros c' st (s4 & -> & Hs4 & Hr4 & Hc'). exists s4. split_and!; [done|lia..|done|by constructor].
Qed.

Lemma exec_block_ok l rs : line_parses l -> exec_parses (Block l rs).
Proof.
  unfold line_parses, pipe_parses, exec_parses, line_fuel.
  intros IHl s ts fuel Hs Hf Hr Ht Hok. destruct fuel as [|fuel]; [lia|]. cbn [parseexec].
  cbn [exec_toks exec_tree exec_ok] in *. apply ends_peek; [by apply one_sym_set|done|]. intros s1 Hs1 Hr1 _. rewrite Hr in *.
  change (head_in _ _) with true. cbv iota. cbn [app] in Hr1. rewrite <-app_assoc in Hr1. cbn [app length] in *.
  rewrite !length_app in Hf. cbn [length] in Hf. destruct fuel as [|fuel]; [lia|]. cbn [parseblock].
  apply ends_peek; [by apply one_sym_set|lia|]. intros s2 Hs2 Hr2 _. rewrite Hr1 in *.
  change (head_in _ _) with true. cbn [negb]. eapply ends_gettoken; [lia|done|]. intros r s3 _ Hs3 Hr3.
  apply ends_bind.
  eapply ends_mono; [eapply (IHl s3); [lia|rewrite Hr3; rewrite length_app; cbn [length]; rewrite length_app; lia|done|done|done]|].
  intros c st (s4 & -> & Hs4 & Hr4 & Hc). apply ends_peek; [by apply one_sym_set|lia|]. intros s5 Hs5 Hr5 _. rewrite Hr4 in *.
  change (head_in _ _) with true. cbn [negb]. eapply ends_gettoken; [lia|done|]. intros r' s6 _ Hs6 Hr6.
  eapply ends_mono; [apply (parseredirs_ok rs _ (line_tree l) s6 ts); [done|lia|done|]|].
  { destruct ts as [|? ?]; [done|]. by destruct Ht as [->|[->|[-> | ->]]]. }
  intros c' st. apply parsed_mono. lia.
Qed.

Lemma exec_simple_ok its : exec_parses (Simple its).
Proof.
  unfold line_parses, pipe_parses, exec_parses, line_fuel.
  intros s ts fuel Hs Hf Hr Ht Hok. destruct fuel as [|fuel]; [lia|]. cbn [parseexec].
  cbn [exec_toks exec_tree exec_ok] in *. destruct (items_split its) as (rs & its' & -> & Hst).
  rewrite bind_app, redirs_toks, <-app_assoc in Hr. rewrite item_args_split in *. rewrite item_redirs_split.
  pose proof (rem_ok s) as Hk. rewrite Hr, !Forall_app in Hk.
  assert (head_in [c_open; 0] (rem s) = false) as Hh.
  { rewrite Hr. destruct rs as [|[[] ?] rs]; [|done..]. cbn [mbind list_bind app].
    destruct its' as [|[w|?] its']; [|destruct (tok_ok_word w (its' ≫= item_toks)) as (? & ? & -> & ?); [tauto|by apply (strchr_stop _ _ (one_sym_set c_open eq_refl))]|done].
    destruct ts as [|? ?]; [done|]. by destruct Ht as [->|[->|[-> | ->]]]. }
  apply ends_peek; [by apply one_sym_set|done|]. intros s1 Hs1 Hr1 _. rewrite Hh. apply ends_bind.
  eapply ends_mono; [apply (parseredirs_ok rs execcmd (TExec [])); [repeat constructor|lia|rewrite Hr1; exact Hr|apply head_in_items; tauto]|].
  intros c st (s2 & -> & Hs2 & Hr2 & Hc). apply ends_bind, ends_ret. apply Nat.ltb_lt in Hok.
  eapply ends_mono; [apply (parseexec_loop_ok _ s2 c [] rs its' ts); [done|done|lia|cbn; lia|done|done|done]|].
  intros c' st. apply parsed_mono. lia.
Qed.

Lemma line_parses_all l : line_parses l.
Proof.
  revert l. apply (sline_mut line_parses pipe_parses exec_parses);
    auto using line_end_ok, line_seq_ok, pipe_stage_ok, pipe_piped_ok, exec_block_ok, exec_simple_ok.
Qed.
(** ** What is parsed is a sentence of the grammar *)

Lemma head_in_sym toks s : sym_set toks -> head_in toks (rem s) = true ->
  exists c ts, rem s = Sym c :: ts /\ strchr_ toks (first_char (Sym c)) = true.
Proof.
  intros Ht Hh. destruct (rem s) as [|[w|c] ts] eqn:E; [done| |by exists c, ts].
  rewrite <-E, (head_in_word toks s w ts) in Hh; done.
Qed.

Lemma head_in_one c s : is_sym c = true -> c <> c_gt -> head_in [c; 0] (rem s) = true -> exists ts, rem s = Sym c :: ts.
Proof.
  intros Hc Hgt Hh. destruct (head_in_sym [c; 0] s) as (c' & ts & E & Hf); [by apply one_sym_set|done|].
  exists ts. rewrite E. do 2 f_equal. cbn [first_char] in Hf. apply strchr_elem in Hf as [Hin Hz]. set_unfold in Hin.
  destruct (Z.eqb_spec c' c_plus); intuition congruence.
Qed.

(** The results of [gettoken], a word apart, are not ['a']. *)
Lemma took_sym s c ts : rem s = Sym c :: ts -> (c =? c_a) = false /\ (c =? 0) = false.
Proof.
  intros E. pose proof (rem_ok s) as H. rewrite E in H. inversion H as [|? ? Hc _]; subst. destruct Hc as [Hc| ->]; [|done].
  apply is_sym_cases in Hc. by repeat destruct Hc as [->|Hc]; [..|subst].
Qed.

(** From [s], the tokens [ts] have been read. *)
Definition read_on (s : nat) (ts : list token) (st : shst) : Prop :=
  exists s', st = at_s s' /\ (s <= s' <= es)%nat /\ rem s = ts ++ rem s'.

Lemma parseredirs_loop_sound fuel : forall s c, (s <= es)%nat -> (es - s < fuel)%nat ->
  ends false (parseredirs_loop fuel es c) (at_s s) (fun _ st => exists rs, read_on s (rs ≫= redir_toks) st).
Proof.
  induction fuel as [|fuel IH]; intros s c Hs Hf; [lia|]. cbn [parseredirs_loop].
  apply ends_peek; [apply redir_sym_set|done|]. intros s1 Hs1 Hr1 _.
  destruct (head_in _ _) eqn:Hh; [|apply ends_ret; exists [], s1; split_and!; [done|lia..|done]].
  destruct (head_in_sym _ _ redir_sym_set Hh) as (o & ts & Hr & Ho). rewrite Hr in Hr1.
  eapply ends_gettoken; [lia|done|]. intros [[tok q0] e0] s2 Ht Hs2 Hr2. cbn in Ht. subst tok.
  destruct ts as [|[f|c'] ts].
  - apply ends_gettoken_none; [lia|done|]. by intros q eq.
  - eapply ends_gettoken; [lia|done|]. intros [[r q] eq] s3 [Hr' _] Hs3 Hr3. cbn in Hr'. subst r. cbn [Z.eqb Pos.eqb c_a negb].
    eapply ends_mono; [apply IH; lia|]. intros c' st (rs & s4 & -> & Hs4 & Hr4).
    assert (exists op, op_char op = o) as [op Hop].
    { cbn [first_char] in Ho. apply strchr_elem in Ho as [Hin Hz]. set_unfold in Hin.
      destruct (Z.eqb_spec o c_plus); [by exists RApp|]. destruct Hin as [->|[->|Hin]]; [by exists RIn|by exists ROut|naive_solver]. }
    exists ((op, f) :: rs), s4. split; [done|]. split; [lia|]. rewrite Hr. cbn. by rewrite Hop, <-Hr3, Hr4.
  - eapply ends_gettoken; [lia|done|]. intros [[r q] eq] s3 Hr' Hs3 Hr3. cbn in Hr'. subst r.
    destruct (took_sym _ _ _ Hr2) as [-> _]. done.
Qed.

Lemma parseredirs_sound c s : (s <= es)%nat ->
  ends false (parseredirs c es) (at_s s) (fun _ st => exists rs, read_on s (rs ≫= redir_toks) st).
Proof. intros Hs. unfold parseredirs. apply ends_bind, ends_ret. apply parseredirs_loop_sound; [done|cbn; lia]. Qed.

Lemma parseback_loop_sound fuel : forall s c, (s <= es)%nat -> (es - s < fuel)%nat ->
  ends false (parseback_loop fuel es c) (at_s s) (fun _ st => exists n, read_on s (replicate n (Sym c_amp)) st).
Proof.
  induction fuel as [|fuel IH]; intros s c Hs Hf; [lia|]. cbn [parseback_loop].
  apply ends_peek; [by apply one_sym_set|done|]. intros s1 Hs1 Hr1 _.
  destruct (head_in _ _) eqn:Hh; [|apply ends_ret; exists O, s1; split_and!; [done|lia..|done]].
  destruct (head_in_one c_amp s) as [ts Hr]; [done..|]. rewrite Hr in Hr1.
  eapply ends_gettoken; [lia|done|]. intros r s2 _ Hs2 Hr2.
  eapply ends_mono; [apply IH; lia|]. intros c' st (n & s3 & -> & Hs3 & Hr3).
  exists (S n), s3. split; [done|]. split; [lia|]. rewrite Hr. cbn. by rewrite <-Hr3, Hr2.
Qed.

Lemma parseexec_loop_sound fuel : forall s c argc, (s <= es)%nat -> (es - s < fuel)%nat -> (argc < MAXARGS)%nat ->
  ends false (parseexec_loop fuel es argc c) (at_s s)
    (fun _ st => exists its, read_on s (its ≫= item_toks) st /\ (argc + length (item_args its) < MAXARGS)%nat).
Proof.
  induction fuel as [|fuel IH]; intros s c argc Hs Hf Ha; [lia|]. cbn [parseexec_loop].
  apply ends_peek; [apply exec_sym_set|done|]. intros s1 Hs1 Hr1 _.
  destruct (head_in _ _) eqn:Hh.
  { apply ends_ret. exists []. split; [|cbn; lia]. exists s1. split_and!; [done|lia..|done]. }
  destruct (rem s) as [|[w|o] ts] eqn:Hr.
  - apply ends_gettoken_none; [lia|done|]. intros q eq. cbn. exists []. split; [|cbn; lia].
    exists es. split_and!; [done|lia..|]. by rewrite Hr, rem_es.
  - eapply ends_gettoken; [lia|done|]. intros [[tok q] eq] s2 [Htok _] Hs2 Hr2. cbn in Htok. subst tok.
    cbn [Z.eqb Pos.eqb c_a negb]. destruct (Nat.leb_spec MAXARGS (S argc)) as [|Hlt]; [done|]. apply ends_bind.
    eapply ends_mono; [apply parseredirs_sound; lia|]. intros c' st (rs & s3 & -> & Hs3 & Hr3).
    eapply ends_mono; [apply IH; lia|]. intros c2 st (its & (s4 & -> & Hs4 & Hr4) & Hlen).
    exists (Arg w :: (Redir <$> rs) ++ its). split.
    + exists s4. split; [done|]. split; [lia|]. cbn. rewrite bind_app, redirs_toks. by rewrite Hr, <-Hr2, Hr3, Hr4, <-app_assoc.
    + change (item_args (Arg w :: (Redir <$> rs) ++ its)) with (w :: item_args ((Redir <$> rs) ++ its)).
      rewrite item_args_split. simpl. lia.
  - eapply ends_gettoken; [lia|done|]. intros [[tok q] eq] s2 Htok Hs2 Hr2. cbn in Htok. subst tok.
    destruct (took_sym _ _ _ Hr) as [-> ->]. done.
Qed.
Definition line_sound (fuel : nat) : Prop := forall s, (s <= es)%nat -> (line_fuel s <= fuel)%nat ->
  ends false (parseline fuel es) (at_s s) (fun _ st => exists l, read_on s (line_toks l) st /\ line_ok l = true).
Definition pipe_sound (fuel : nat) : Prop := forall s, (s <= es)%nat -> (line_fuel s <= S fuel)%nat ->
  ends false (parsepipe fuel es) (at_s s) (fun _ st => exists p, read_on s (pipe_toks p) st /\ pipe_ok p = true).
Definition exec_sound (fuel : nat) : Prop := forall s, (s <= es)%nat -> (line_fuel s <= S (S fuel))%nat ->
  ends false (parseexec fuel es) (at_s s) (fun _ st => exists e, read_on s (exec_toks e) st /\ exec_ok e = true).
Definition block_sound (fuel : nat) : Prop := forall s, (s <= es)%nat -> (line_fuel s <= S (S (S fuel)))%nat ->
  ends false (parseblock fuel es) (at_s s) (fun _ st => exists e, read_on s (exec_toks e) st /\ exec_ok e = true).

Lemma line_sound_S fuel : pipe_sound fuel -> line_sound fuel -> line_sound (S fuel).
Proof.
  unfold line_sound, pipe_sound, line_fuel. intros IHp IHl s Hs Hf. cbn [parseline]. apply ends_bind.
  eapply ends_mono; [apply IHp; lia|]. intros c st (p & (s1 & -> & Hs1 & Hr1) & Hok). apply ends_bind, ends_ret. apply ends_bind.
  eapply ends_mono; [apply parseback_loop_sound; cbn; lia|]. intros c' st (n & s2 & -> & Hs2 & Hr2).
  apply ends_peek; [by apply one_sym_set|lia|]. intros s3 Hs3 Hr3 _. destruct (head_in _ _) eqn:Hh.
  - destruct (head_in_one c_semi s2) as [ts Hr]; [done..|]. rewrite Hr in *. rewrite Hr2 in Hr1.
    eapply ends_gettoken; [lia|done|]. intros r s4 _ Hs4 Hr4. apply ends_bind.
    pose proof (f_equal length Hr1) as Hlen. rewrite !length_app in Hlen. cbn [length] in Hlen.
    eapply ends_mono; [apply IHl; [lia|rewrite Hr4; lia]|]. intros c2 st (l & (s5 & -> & Hs5 & Hr5) & Hokl).
    exists (Seq p n l). split; [|cbn; by rewrite Hok]. exists s5. split; [done|]. split; [lia|].
    rewrite Hr1, <-Hr4, Hr5. cbn [line_toks]. by rewrite <-!app_assoc.
  - apply ends_ret. exists (Line p n). split; [|done]. exists s3. split; [done|]. split; [lia|].
    rewrite Hr1, Hr2, Hr3. cbn [line_toks]. by rewrite <-!app_assoc.
Qed.

Lemma pipe_sound_S fuel : exec_sound fuel -> pipe_sound fuel -> pipe_sound (S fuel).
Proof.
  unfold exec_sound, pipe_sound, line_fuel. intros IHe IHp s Hs Hf. cbn [parsepipe]. apply ends_bind.
  eapply ends_mono; [apply IHe; lia|]. intros c st (e & (s1 & -> & Hs1 & Hr1) & Hok).
  apply ends_peek; [by apply one_sym_set|lia|]. intros s3 Hs3 Hr3 _. destruct (head_in _ _) eqn:Hh.
  - destruct (head_in_one c_bar s1) as [ts Hr]; [done..|]. rewrite Hr in *.
    eapply ends_gettoken; [lia|done|]. intros r s4 _ Hs4 Hr4. apply ends_bind.
    pose proof (f_equal length Hr1) as Hlen. rewrite !length_app in Hlen. cbn [length] in Hlen.
    eapply ends_mono; [apply IHp; [lia|rewrite Hr4; lia]|]. intros c2 st (p & (s5 & -> & Hs5 & Hr5) & Hokp).
    exists (Piped e p). split; [|cbn; by rewrite Hok]. exists s5. split; [done|]. split; [lia|].
    rewrite Hr1, <-Hr4, Hr5. cbn [pipe_toks]. by rewrite <-!app_assoc.
  - apply ends_ret. exists (Stage e). split; [|done]. exists s3. split; [done|]. split; [lia|]. by rewrite Hr1, Hr3.
Qed.

Lemma block_sound_S fuel : line_sound fuel -> block_sound (S fuel).
Proof.
  unfold line_sound, block_sound, line_fuel. intros IHl s Hs Hf. cbn [parseblock].
  apply ends_peek; [by apply one_sym_set|lia|]. intros s1 Hs1 Hr1 _. destruct (head_in _ _) eqn:Hh; [|done].
  destruct (head_in_one c_open s) as [ts Hr]; [done..|]. rewrite Hr in *. cbn [negb length] in *.
  eapply ends_gettoken; [lia|done|]. intros r s2 _ Hs2 Hr2. apply ends_bind.
  eapply ends_mono; [apply IHl; [lia|rewrite Hr2; lia]|]. intros c st (l & (s3 & -> & Hs3 & Hr3) & Hok).
  apply ends_peek; [by apply one_sym_set|lia|]. intros s4 Hs4 Hr4 _. destruct (head_in [c_close; 0] _) eqn:Hh2; [|done].
  destruct (head_in_one c_close s3) as [ts' Hr']; [done..|]. rewrite Hr' in *. cbn [negb].
  eapply ends_gettoken; [lia|done|]. intros r' s5 _ Hs5 Hr5.
  eapply ends_mono; [apply parseredirs_sound; lia|]. intros c' st (rs & s6 & -> & Hs6 & Hr6).
  exists (Block l rs). split; [|done]. exists s6. split; [done|]. split; [lia|].
  rewrite Hr, <-Hr2, Hr3, <-Hr5, Hr6. cbn [exec_toks]. cbn. by rewrite <-app_assoc.
Qed.

Lemma exec_sound_S fuel : block_sound fuel -> exec_sound (S fuel).
Proof.
  unfold exec_sound, block_sound, line_fuel. intros IHb s Hs Hf. cbn [parseexec].
  apply ends_peek; [by apply one_sym_set|lia|]. intros s1 Hs1 Hr1 _. destruct (head_in _ _) eqn:Hh.
  { eapply ends_mono; [apply IHb; [lia|rewrite Hr1; lia]|]. intros c st (e & (s2 & -> & Hs2 & Hr2) & Hok).
    exists e. split; [|done]. exists s2. split; [done|]. split; [lia|]. by rewrite <-Hr1, Hr2. }
  apply ends_bind. eapply ends_mono; [apply parseredirs_sound; lia|]. intros c st (rs & s2 & -> & Hs2 & Hr2).
  apply ends_bind, ends_ret. eapply ends_mono; [apply parseexec_loop_sound; [cbn; lia..|unfold MAXARGS; lia]|].
  intros c' st (its & (s3 & -> & Hs3 & Hr3) & Hlen). exists (Simple ((Redir <$> rs) ++ its)). split.
  - exists s3. split; [done|]. split; [lia|]. cbn [exec_toks]. rewrite bind_app, redirs_toks. by rewrite <-Hr1, Hr2, Hr3, <-app_assoc.
  - cbn [exec_ok]. rewrite item_args_split. apply Nat.ltb_lt. lia.
Qed.

Lemma parse_sound fuel : line_sound fuel /\ pipe_sound fuel /\ exec_sound fuel /\ block_sound fuel.
Proof.
  induction fuel as [|fuel (Hl & Hp & He & Hb)].
  - unfold line_sound, pipe_sound, exec_sound, block_sound, line_fuel. split_and!; intros s Hs Hf; lia.
  - split; [by apply line_sound_S|]. split; [by apply pipe_sound_S|]. split; [by apply exec_sound_S|by apply block_sound_S].
Qed.
(** ** The zero bytes *)

(** The object after some words were ended: only stop characters were overwritten. *)
Definition cut (b : bytes) : Prop :=
  length b = length buf /\ forall i c, buf !! i = Some c -> b !! i = Some c \/ (stop c = true /\ b !! i = Some 0).

(** The word at [q] was ended. *)
Definition ended (b : bytes) (eq : nat) : Prop := b !! eq = Some 0.

Lemma put_nul_ok b s q eq w : cut b -> word_at q eq w ->
  exists b', put_nul eq (mksh b s) = Ok tt (mksh b' s) /\ cut b' /\ ended b' eq /\ forall i, ended b i -> ended b' i.
Proof.
  intros [Hlen Hcut] (Hq & _ & _ & d & Hd & Hs). pose proof (lookup_lt_Some _ _ _ Hd) as Hlt.
  exists (<[eq := 0]> b). unfold put_nul, ended. cbn [sh_buf sh_s]. rewrite decide_True by lia. split; [done|]. split; [split|split].
  - by rewrite length_insert.
  - intros i c Hi. destruct (decide (i = eq)) as [->|Hne].
    + right. rewrite list_lookup_insert_eq by lia. by simplify_eq.
    + rewrite list_lookup_insert_ne by done. auto.
  - by rewrite list_lookup_insert_eq by lia.
  - intros i Hi. destruct (decide (i = eq)) as [->|Hne]; [by rewrite list_lookup_insert_eq by lia|by rewrite list_lookup_insert_ne].
Qed.

Lemma lookup_word q eq w i : word_at q eq w -> (i < length w)%nat -> buf !! (q + i)%nat = w !! i.
Proof.
  intros (Hq & <- & _) Hi. unfold sub_bytes in *. rewrite length_take, length_drop in Hi.
  rewrite lookup_take, decide_True, lookup_drop by lia. unfold buf. rewrite lookup_app_l; [done|]. unfold es in *. lia.
Qed.

Lemma word_length q eq w : word_at q eq w -> (q + length w = eq)%nat.
Proof. intros (Hq & <- & _). unfold es in *. rewrite length_sub_bytes; lia. Qed.

(** A word that was ended reads as the word of the line. *)
Lemma word_in_ok b q eq w : cut b -> word_at q eq w -> ended b eq -> word_in b q = Some w.
Proof.
  intros [Hlen Hcut] Hw He. pose proof (word_length _ _ _ Hw) as Hl. pose proof Hw as (_ & _ & Hns & _). unfold word_in, ended in *.
  assert (drop q b = w ++ 0 :: drop (S eq) b) as ->.
  { apply list_eq. intros i. rewrite lookup_drop. destruct (decide (i < length w)%nat) as [Hi|Hi].
    - rewrite lookup_app_l by done. destruct (lookup_lt_is_Some_2 w i Hi) as [c Hc]. rewrite Hc.
      destruct (Hcut (q + i)%nat c) as [|[Hs _]]; [by rewrite (lookup_word _ _ _ _ Hw Hi)|done|].
      pose proof (Forall_lookup_1 _ _ _ _ Hns Hc) as H. cbn in H. congruence.
    - rewrite lookup_app_r by lia. destruct (decide (i = length w)) as [->|]; [by rewrite Nat.sub_diag, Hl|].
      rewrite lookup_cons_ne_0 by lia. rewrite lookup_drop. f_equal. lia. }
  apply cstring_app. eapply Forall_impl; [exact Hns|]. intros c Hc ->. done.
Qed.

Lemma nul_args_ok argv ws b s : cut b -> Forall2 (fun p w => word_at p.1 p.2 w) argv ws ->
  exists b', nul_args argv (mksh b s) = Ok tt (mksh b' s) /\ cut b' /\ Forall (fun p => ended b' p.2) argv /\
    forall i, ended b i -> ended b' i.
Proof.
  intros Hcut H. revert b Hcut. induction H as [|[q eq] w argv ws Hw _ IH]; intros b Hcut; [by exists b|].
  destruct (put_nul_ok b s q eq w Hcut Hw) as (b1 & E1 & Hcut1 & He1 & Hk1).
  destruct (IH b1 Hcut1) as (b2 & E2 & Hcut2 & He2 & Hk2). exists b2. cbn [nul_args]. rewrite (bind_ok _ _ _ _ _ E1).
  split; [done|]. split; [done|]. split; [constructor; auto|auto].
Qed.

Fixpoint all_ended (b : bytes) (c : cmd) : Prop :=
  match c with
  | EXEC argv => Forall (fun p => ended b p.2) argv
  | REDIR c _ eq _ _ => all_ended b c /\ ended b eq
  | PIPE l r | LIST l r => all_ended b l /\ all_ended b r
  | BACK c => all_ended b c
  end.

Lemma all_ended_mono b b' c : (forall i, ended b i -> ended b' i) -> all_ended b c -> all_ended b' c.
Proof. intros H. induction c; cbn; [|naive_solver..]. intros Hf. eapply Forall_impl; [exact Hf|]. auto. Qed.

Lemma nulterminate_ok c t s : reads c t -> forall b, cut b ->
  exists b', nulterminate c (mksh b s) = Ok tt (mksh b' s) /\ cut b' /\ all_ended b' c /\ forall i, ended b i -> ended b' i.
Proof.
  induction 1 as [argv ws Hw|c t q eq f mode fd _ IH Hf|l r tl tr _ IHl _ IHr|l r tl tr _ IHl _ IHr|c t _ IH]; intros b Hcut.
  - by apply (nul_args_ok argv ws).
  - destruct (IH b Hcut) as (b1 & E1 & Hc1 & He1 & Hk1). destruct (put_nul_ok b1 s q eq f Hc1 Hf) as (b2 & E2 & Hc2 & He2 & Hk2).
    exists b2. cbn [nulterminate]. rewrite (bind_ok _ _ _ _ _ E1). cbn [all_ended].
    eauto 8 using all_ended_mono.
  - destruct (IHl b Hcut) as (b1 & E1 & Hc1 & He1 & Hk1). destruct (IHr b1 Hc1) as (b2 & E2 & Hc2 & He2 & Hk2).
    exists b2. cbn [nulterminate]. rewrite (bind_ok _ _ _ _ _ E1). cbn [all_ended]. eauto 8 using all_ended_mono.
  - destruct (IHl b Hcut) as (b1 & E1 & Hc1 & He1 & Hk1). destruct (IHr b1 Hc1) as (b2 & E2 & Hc2 & He2 & Hk2).
    exists b2. cbn [nulterminate]. rewrite (bind_ok _ _ _ _ _ E1). cbn [all_ended]. eauto 8 using all_ended_mono.
  - by apply IH.
Qed.

Lemma tree_of_ok c t b : reads c t -> cut b -> all_ended b c -> tree_of b c = Some t.
Proof.
  intros H Hcut. induction H as [argv ws Hw|c t q eq f mode fd _ IH Hf|l r tl tr _ IHl _ IHr|l r tl tr _ IHl _ IHr|c t _ IH];
    cbn [all_ended tree_of]; intros He.
  - replace (mapM _ argv) with (Some ws); [done|]. induction Hw as [|[q eq] w argv ws Hq _ IH]; [done|].
    inversion He; subst. cbn [mapM fst]. rewrite (word_in_ok b q eq w Hcut Hq) by done. cbn. by rewrite <-IH.
  - rewrite IH by tauto. cbn. by rewrite (word_in_ok b q eq f Hcut Hf) by tauto.
  - rewrite IHl by tauto. cbn. by rewrite IHr by tauto.
  - rewrite IHl by tauto. cbn. by rewrite IHr by tauto.
  - by rewrite IH.
Qed.

(** * The parse of a line *)

Lemma parsecmd_unfold :
  parsecmd (at_s 0) =
    (cmd ← parseline (4 * es + 4) es; peek es [0];; s ← gets sh_s;
     if negb (s =? es)%nat then panic "syntax" else nulterminate cmd;; ret cmd) (at_s 0).
Proof.
  unfold parsecmd. etransitivity; [eapply bind_ok; reflexivity|]. cbv beta. cbn [sh_s sh_buf at_s drop].
  rewrite drop_0. unfold buf at 1. rewrite strlen_app by done. done.
Qed.

Lemma fuel_enough : (line_fuel 0 <= 4 * es + 4)%nat.
Proof. unfold line_fuel, rem, es. rewrite drop_0. pose proof (length_tokens line []). cbn [flush length] in *. lia. Qed.

Lemma nil_sym_set : sym_set [0].
Proof. intros c H. done. Qed.

Lemma parsecmd_ends strict Q :
  ends strict (parseline (4 * es + 4) es) (at_s 0) (fun c st => exists s, st = at_s s /\ (s <= es)%nat /\
    (rem s <> [] -> strict = false) /\
    (rem s = [] -> ends strict (nulterminate c;; ret c) (at_s es) Q)) ->
  ends strict parsecmd (at_s 0) Q.
Proof.
  intros H. unfold ends at 1. rewrite parsecmd_unfold. apply ends_bind. eapply ends_mono; [exact H|].
  intros c st (s & -> & Hs & Hne & Hk). apply ends_peek; [apply nil_sym_set|done|]. intros s1 Hs1 Hr1 Hes.
  apply ends_bind, ends_ret. cbn [sh_s at_s]. destruct (Nat.eqb_spec s1 es) as [->|Hd]; cbn [negb].
  - apply Hk. by rewrite <-Hr1, rem_es.
  - apply Hne. intros Hnil. by apply Hd, Hes.
Qed.
End line.

Lemma parsecmd_parses line rest l : Forall (fun c => c <> 0) line ->
  tokens [] line = line_toks l -> line_ok l = true ->
  ends true parsecmd (mksh (line ++ 0 :: rest) 0) (fun c st => tree_of (sh_buf st) c = Some (line_tree l)).
Proof.
  intros Hz Ht Hok. apply (parsecmd_ends line rest Hz).
  eapply ends_mono; [apply (line_parses_all line rest Hz l O []); [lia|by apply fuel_enough| |done|done]|].
  { unfold rem. by rewrite drop_0, app_nil_r. }
  intros c st (s & -> & Hs & Hr & Hc). exists s. split; [done|]. split; [lia|]. split; [done|]. intros _.
  destruct (nulterminate_ok line rest c (line_tree l) (length line) Hc (line ++ 0 :: rest)) as (b & E & Hcut & He & _).
  { split; [done|]. auto. }
  apply ends_bind. unfold ends at 1, at_s. rewrite E. cbn. by apply (tree_of_ok line rest c).
Qed.

Lemma parsecmd_refuses line rest : Forall (fun c => c <> 0) line ->
  ~ (exists l, tokens [] line = line_toks l /\ line_ok l = true) ->
  ends false parsecmd (mksh (line ++ 0 :: rest) 0) (fun _ _ => False).
Proof.
  intros Hz Hno. apply (parsecmd_ends line rest Hz).
  eapply ends_mono; [apply (parse_sound line rest Hz (4 * length line + 4)); [lia|by apply fuel_enough]|].
  intros c st (l & (s & -> & Hs & Hr) & Hok). exists s. split; [done|]. split; [lia|]. split; [done|]. intros Hnil.
  destruct Hno. exists l. split; [|done]. rewrite Hnil, app_nil_r in Hr. unfold rem in Hr. by rewrite drop_0 in Hr.
Qed.

(** C34: every command line whose tokens form a sentence of the grammar of the shell,
    with fewer than [MAXARGS] arguments per command, is parsed: [parsecmd] returns,
    and after it has put the zero bytes into the line the words of the command read
    as the words of the line, and the command is the one the sentence stands for
    (pipelines and lists nest to the right, redirections wrap the command in their
    order, each [&] wraps a background command around its pipeline). *)
Theorem parsecmd_accepts line rest l :
  Forall (fun c => c <> 0) line -> tokens [] line = line_toks l -> line_ok l = true ->
  exists c b s, parsecmd (mksh (line ++ 0 :: rest) 0) = Ok c (mksh b s) /\ tree_of b c = Some (line_tree l).
Proof.
  intros Hz Ht Hok. pose proof (parsecmd_parses line rest l Hz Ht Hok) as H. unfold ends in H.
  destruct (parsecmd _) as [c [b s]| | | |]; [by exists c, b, s|done..].
Qed.

Definition wit_line : bytes := [97; 32; 60; 98; 124; 40; 99; 59; 100; 41; 38].
Definition wit_sline : sline :=
  Line (Piped (Simple [Arg [97]; Redir (RIn, [98])])
          (Stage (Block (Seq (Stage (Simple [Arg [99]])) 0 (Line (Stage (Simple [Arg [100]])) 0)) []))) 1.

Lemma parsecmd_accepts_witness :
  tokens [] wit_line = line_toks wit_sline /\
  exists c b s, parsecmd (mksh (wit_line ++ [0]) 0) = Ok c (mksh b s) /\ tree_of b c = Some (line_tree wit_sline).
Proof.
  split; [vm_compute; reflexivity|]. apply (parsecmd_accepts wit_line [] wit_sline).
  - repeat constructor; lia.
  - vm_compute. reflexivity.
  - vm_compute. reflexivity.
Defined.

(** any other line ends the parse with a panic of the shell: the parser never
    loops, never reads outside the line, and accepts nothing that is not a sentence
    of the grammar (so [a & b] is refused, and a command with ten arguments). *)
Theorem parsecmd_rejects line rest :
  Forall (fun c => c <> 0) line ->
  ~ (exists l, tokens [] line = line_toks l /\ line_ok l = true) ->
  exists msg, parsecmd (mksh (line ++ 0 :: rest) 0) = Panic msg.
Proof.
  intros Hz Hno. pose proof (parsecmd_refuses line rest Hz Hno) as H. unfold ends in H.
  destruct (parsecmd _) as [c st|msg|st| |]; [done|by exists msg|done..].
Qed.

(** [a & b] is not a sentence: if it were one it would be parsed. *)
Lemma parsecmd_rejects_witness :
  ~ (exists l, tokens [] [97; 38; 98] = line_toks l /\ line_ok l = true) /\
  exists msg, parsecmd (mksh ([97; 38; 98] ++ [0]) 0) = Panic msg.
Proof.
  assert (Forall (fun c => c <> 0) [97; 38; 98]) as Hz by (repeat constructor; lia).
  assert (~ (exists l, tokens [] [97; 38; 98] = line_toks l /\ line_ok l = true)) as Hno.
  { intros (l & Ht & Hok). pose proof (parsecmd_parses _ [] l Hz Ht Hok) as H. vm_compute in H. discriminate H. }
  split; [exact Hno|]. exact (parsecmd_rejects [97; 38; 98] [] Hz Hno).
Defined.
