(* ===== verification/Printf.v ===== *)
(** Console output of the kernel: [consputc] of kernel/dev/console.c with the output
    side of kernel/dev/uart.c, and kernel/lib/printf.c.

    The state is what has been written to the transmit register of the UART and the
    flags of printf.c.  A CPU that finds [panicked] set spins for ever: [nofuel]. *)

From S2P Require Import Prelude.

Record kout := mkko { ko_tx : bytes; ko_panicked : bool; ko_locking : bool }.

(** * The code *)

Definition BACKSPACE : Z := 256.

(** The register has eight bits.  The line is taken to become ready, so the wait for
    it ends. *)
Definition uartputc (c : Z) : M kout unit :=
  modify (fun s => mkko (ko_tx s ++ [u8 c]) (ko_panicked s) (ko_locking s)).

Definition consputc (c : Z) : M kout unit :=
  p ← gets ko_panicked;
  if p then nofuel
  else if c =? BACKSPACE then uartputc 8;; uartputc 32;; uartputc 8
  else uartputc c.

Fixpoint putcs (l : bytes) : M kout unit :=
  match l with
  | [] => ret tt
  | c :: l' => consputc c;; putcs l'
  end.

(** ["0123456789abcdef"]. *)
Definition digits : bytes := [48; 49; 50; 51; 52; 53; 54; 55; 56; 57; 97; 98; 99; 100; 101; 102].

(** The [do] loop of [printint], which fills [buf[16]]; [i] is the length of [buf].
    A write outside the array is [None]. *)
Definition BUFLEN : nat := 16.
Definition buf_add (c : Z) (buf : bytes) : option bytes :=
  if (length buf <? BUFLEN)%nat then Some (buf ++ [c]) else None.
Fixpoint digits_loop (fuel : nat) (digits : bytes) (x base : Z) (buf : bytes) : option bytes :=
  match fuel with
  | O => None
  | S fuel' =>
      match digits !! Z.to_nat (x mod base) with
      | None => None
      | Some d =>
          buf_add d buf ≫= fun buf =>
          if x / base =? 0 then Some buf else digits_loop fuel' digits (x / base) base buf
      end
  end.

(** What [printint] leaves in [buf], the digits from the last to the first. *)
Definition int_buf (digits : bytes) (xx base : Z) (sign : bool) : option bytes :=
  let neg := sign && (xx <? 0) in
  let x := if neg then u32 (- xx) else u32 xx in
  digits_loop 33 digits x base [] ≫= fun buf => if neg then buf_add 45 buf else Some buf.

Definition printint (xx base : Z) (sign : bool) : M kout unit :=
  match int_buf digits xx base sign with
  | None => undef
  | Some buf => putcs (reverse buf)
  end.

(** [for(i = 0; i < 16; i++, x <<= 4) consputc(digits[x >> 60])]. *)
Fixpoint ptr_digits (n : nat) (digits : bytes) (x : Z) : bytes :=
  match n with
  | O => []
  | S n' => default 0 (digits !! Z.to_nat (Z.shiftr x 60)) :: ptr_digits n' digits (u64 (Z.shiftl x 4))
  end.
Definition printptr (x : Z) : M kout unit :=
  consputc 48;; consputc 120;; putcs (ptr_digits 16 digits x).

(** The arguments: the 64-bit words behind the dots, or strings ([None]: null). *)
Inductive arg := AWord (z : Z) | AStr (s : option bytes).

Definition NULL_STR : bytes := [40; 110; 117; 108; 108; 41].

(** [va_arg(ap, int)] and the others; another argument, or none, is not defined. *)
Definition word_arg (args : list arg) (f : Z -> M kout unit) (k : list arg -> M kout unit) : M kout unit :=
  match args with AWord z :: args' => f z;; k args' | _ => undef end.
Definition str_arg (args : list arg) (f : option bytes -> M kout unit) (k : list arg -> M kout unit) : M kout unit :=
  match args with AStr s :: args' => f s;; k args' | _ => undef end.

(** The loop of [printf]; [fmt] is the rest of the format, with its zero byte. *)
Fixpoint printf_loop (fmt : bytes) (args : list arg) : M kout unit :=
  match fmt with
  | [] => undef
  | c :: fmt' =>
      if c =? 0 then ret tt
      else if negb (c =? 37) then consputc c;; printf_loop fmt' args
      else
        match fmt' with
        | [] => undef
        | c :: fmt' =>
            if c =? 0 then ret tt
            else if c =? 100 then word_arg args (fun z => printint (s32 z) 10 true) (printf_loop fmt')
            else if c =? 120 then word_arg args (fun z => printint (s32 z) 16 false) (printf_loop fmt')
            else if c =? 112 then word_arg args (fun z => printptr (u64 z)) (printf_loop fmt')
            else if c =? 117 then word_arg args (fun z => printint (s32 z) 10 false) (printf_loop fmt')
            else if c =? 115 then str_arg args (fun s => putcs (default NULL_STR s)) (printf_loop fmt')
            else if c =? 37 then consputc 37;; printf_loop fmt' args
            else consputc 37;; consputc c;; printf_loop fmt' args
        end
  end.

(** [fmt] null panics; the lock of the console is taken and released around the rest. *)
Definition printf (fmt : option bytes) (args : list arg) : M kout unit :=
  match fmt with
  | None => panic "null fmt"
  | Some f => printf_loop f args
  end.

(** [panic]: the flags it leaves; the CPU then spins. *)
Definition kpanic (s : bytes) : M kout unit :=
  modify (fun k => mkko (ko_tx k) (ko_panicked k) false);;
  printf (Some [112; 97; 110; 105; 99; 58; 32; 0]) [];;
  printf (Some s) [];;
  printf (Some [10; 0]) [];;
  modify (fun k => mkko (ko_tx k) true (ko_locking k));;
  nofuel.

Definition printfinit : M kout unit := modify (fun k => mkko (ko_tx k) (ko_panicked k) true).

Example printf_ex :
  printf (Some [37; 100; 61; 37; 120; 37; 115; 0]) [AWord (-2147483648); AWord 48879; AStr (Some [33])] (mkko [] false true) =
  Ok tt (mkko [45; 50; 49; 52; 55; 52; 56; 51; 54; 52; 56; 61; 98; 101; 101; 102; 33] false true).
Proof. vm_compute. reflexivity. Qed.

(** * Reading numbers back *)

(** The value of digits, the first the most significant. *)
Definition digit_val (tbl : bytes) (d : Z) : option Z := (fun i => Z.of_nat i.1) <$> list_find (fun x => x = d) tbl.
Fixpoint digits_val (tbl : bytes) (base : Z) (l : bytes) (acc : Z) : option Z :=
  match l with
  | [] => Some acc
  | d :: l' => digit_val tbl d ≫= fun v => digits_val tbl base l' (base * acc + v)
  end.
(** An optional minus sign and at least one digit. *)
Definition read_int (tbl : bytes) (base : Z) (l : bytes) : option Z :=
  match l with
  | [] => None
  | d :: l' =>
      if (d =? 45) && negb (bool_decide (l' = [])) then Z.opp <$> digits_val tbl base l' 0
      else digits_val tbl base l 0
  end.

Section numbers.
Context (tbl : bytes) (Htbl : length tbl = 16%nat) (Hnd : NoDup tbl).

Lemma digit_val_at i d : tbl !! i = Some d -> digit_val tbl d = Some (Z.of_nat i).
Proof.
  intros H. unfold digit_val.
  assert (list_find (fun x => x = d) tbl = Some (i, d)) as ->; [|done].
  apply list_find_Some. split; [done|]. split; [done|]. intros j y Hj Hlt ->.
  pose proof (NoDup_lookup _ _ _ _ Hnd Hj H). lia.
Qed.

Lemma digits_val_app base l l' acc :
  digits_val tbl base (l ++ l') acc = digits_val tbl base l acc ≫= digits_val tbl base l'.
Proof.
  revert acc. induction l as [|d l IH]; intros acc; [done|]. cbn [app digits_val].
  destruct (digit_val tbl d); cbn; [apply IH|done].
Qed.

Lemma one_digit x base d : 2 <= base <= 16 -> 0 <= x -> x / base = 0 -> tbl !! Z.to_nat (x mod base) = Some d ->
  (forall acc, digits_val tbl base [d] acc = Some (base ^ Z.of_nat (length [d]) * acc + x)) /\
  (0 < x -> [d] !! O <> tbl !! O).
Proof.
  intros Hb Hx E0 Hd. assert (0 <= x < base) as Hs by (pose proof (Z.div_mod x base); pose proof (Z.mod_pos_bound x base); lia).
  rewrite Z.mod_small in Hd by lia. split.
  - intros acc. cbn [digits_val]. rewrite (digit_val_at _ _ Hd). cbn. f_equal. lia.
  - intros Hpos E. cbn in E. symmetry in E. pose proof (NoDup_lookup _ _ _ _ Hnd Hd E). lia.
Qed.

(** The number of digits, the first of them, and their value. *)
Lemma digits_loop_ok n : forall fuel x base buf, 2 <= base <= 16 -> 0 <= x < base ^ Z.of_nat (S n) ->
  (n < fuel)%nat -> (length buf + S n <= BUFLEN)%nat ->
  exists ds, digits_loop fuel tbl x base buf = Some (buf ++ reverse ds) /\ (1 <= length ds <= S n)%nat /\
    (forall acc, digits_val tbl base ds acc = Some (base ^ Z.of_nat (length ds) * acc + x)) /\
    (0 < x -> ds !! O <> tbl !! O).
Proof.
  induction n as [|n IH]; intros fuel x base buf Hb Hx Hf Hlen; (destruct fuel as [|fuel]; [lia|]); cbn [digits_loop];
    (assert (0 <= x mod base < base) as Hm by (apply Z.mod_pos_bound; lia));
    (destruct (lookup_lt_is_Some_2 tbl (Z.to_nat (x mod base))) as [d Hd]; [lia|]); rewrite Hd;
    pose proof (digit_val_at _ _ Hd) as Hv; rewrite Z2Nat.id in Hv by lia;
    unfold buf_add; (destruct (Nat.ltb_spec (length buf) BUFLEN); [|lia]); cbn [mbind option_bind];
    (destruct (Z.eqb_spec (x / base) 0) as [E0|Hne];
     [exists [d]; destruct (one_digit x base d) as [H1 H2]; [lia|lia|done|done|]; split; [done|]; split; [simpl; lia|done]|]).
  - rewrite Z.div_small in Hne; lia.
  - destruct (IH fuel (x / base) base (buf ++ [d])) as (ds & E & Hl & Hval & Hz).
    + done.
    + split; [apply Z.div_pos; lia|]. apply Z.div_lt_upper_bound; [lia|].
      rewrite (Nat2Z.inj_succ (S n)), Z.pow_succ_r in Hx by lia. lia.
    + lia.
    + rewrite length_app. simpl. lia.
    + exists (ds ++ [d]). split; [by rewrite E, reverse_snoc, <-app_assoc|]. split; [rewrite length_app; simpl; lia|]. split.
      * intros acc. rewrite digits_val_app, Hval. cbn. rewrite Hv. cbn. f_equal. rewrite length_app.
        cbn [length]. rewrite Nat2Z.inj_add, Z.pow_add_r by lia. change (Z.of_nat 1) with 1.
        rewrite Z.pow_1_r. pose proof (Z.div_mod x base ltac:(lia)). nia.
      * intros _. rewrite lookup_app_l by lia. apply Hz. pose proof (Z.div_pos x base). lia.
Qed.
Definition base_ok (base : Z) : Prop := base = 10 \/ base = 16.

Lemma digits_u32 base x : base_ok base -> 0 <= x < 2 ^ 32 ->
  exists ds, digits_loop 33 tbl x base [] = Some (reverse ds) /\ (1 <= length ds <= 10)%nat /\
    digits_val tbl base ds 0 = Some x /\ (0 < x -> ds !! O <> tbl !! O).
Proof.
  intros Hb Hx. destruct (digits_loop_ok 9 33 x base []) as (ds & E & Hl & Hv & Hz).
  - destruct Hb; lia.
  - change (Z.of_nat 10) with 10. assert (2 ^ 32 <= base ^ 10); [|lia]. by destruct Hb as [-> | ->].
  - lia.
  - unfold BUFLEN. simpl. lia.
  - exists ds. split; [done|]. split; [done|]. split; [|done]. rewrite Hv. f_equal. lia.
Qed.

Lemma digits_val_tbl base ds acc v : digits_val tbl base ds acc = Some v -> Forall (fun c => c ∈ tbl) ds.
Proof.
  revert acc. induction ds as [|d ds IH]; intros acc; [constructor|]. cbn [digits_val]. unfold digit_val.
  destruct (list_find _ tbl) as [[i x]|] eqn:Ef; [|done]. intros H. cbn in H. constructor; [|eapply IH; exact H].
  apply list_find_Some in Ef as (Hi & -> & _). by apply list_elem_of_lookup_2 in Hi.
Qed.

(** The text of a number: it reads back, and has no needless zero at its start. *)
Definition text_of (base v : Z) (out : bytes) : Prop :=
  read_int tbl base out = Some v /\ (length out <= 11)%nat /\ (0 < v -> out !! O <> tbl !! O) /\
  Forall (fun c => c = 45 \/ c ∈ tbl) out.

(** No digit is a minus sign. *)
Context (Hminus : 45 ∉ tbl).

Lemma digits_not_minus base ds acc v : digits_val tbl base ds acc = Some v -> ds !! O <> Some 45.
Proof.
  intros H%digits_val_tbl E. apply Hminus. by apply (Forall_lookup_1 _ _ _ _ H E).
Qed.

Lemma read_int_digits base ds v : (1 <= length ds)%nat -> digits_val tbl base ds 0 = Some v -> read_int tbl base ds = Some v.
Proof.
  intros Hl Hv. destruct ds as [|d ds]; [simpl in Hl; lia|]. pose proof (digits_not_minus _ _ _ _ Hv) as Hm. cbn in Hm.
  unfold read_int. by destruct (Z.eqb_spec d 45) as [->|Hne].
Qed.

Lemma int_buf_ok xx base sign : base_ok base -> -2147483648 <= xx < 2147483648 ->
  exists out, int_buf tbl xx base sign = Some (reverse out) /\ text_of base (if sign then xx else u32 xx) out.
Proof.
  intros Hb Hx. unfold int_buf. destruct (sign && (xx <? 0)) eqn:En.
  - apply andb_true_iff in En as [-> Hneg%Z.ltb_lt]. rewrite u32_small by lia.
    destruct (digits_u32 base (- xx) Hb) as (ds & -> & Hl & Hv & Hz); [lia|].
    cbn [mbind option_bind]. unfold buf_add. rewrite length_reverse. unfold BUFLEN. destruct (Nat.ltb_spec (length ds) 16); [|lia].
    exists (45 :: ds). split; [by rewrite reverse_cons|]. split; [|split; [simpl; lia|split; [intros; lia|constructor; [by left|]]]].
    2: { eapply Forall_impl; [by eapply digits_val_tbl|]. auto. }
    destruct ds as [|d ds]; [simpl in Hl; lia|].
    unfold read_int. cbn [Z.eqb Pos.eqb]. rewrite bool_decide_eq_false_2 by done. cbn [andb negb]. rewrite Hv. cbn. f_equal. lia.
  - destruct (digits_u32 base (u32 xx) Hb) as (ds & -> & Hl & Hv & Hz); [apply u32_range|]. cbn [mbind option_bind].
    exists ds. split; [done|]. 
    assert ((if sign then xx else u32 xx) = u32 xx) as ->.
    { destruct sign; [|done]. cbn in En. rewrite u32_small; lia. }
    split; [by apply read_int_digits; [lia|]|]. split; [lia|]. split; [done|].
    eapply Forall_impl; [by eapply digits_val_tbl|]. auto.
Qed.

(** A pointer is printed as its sixteen digits. *)
Lemma top_digit x n : 0 <= x < 2 ^ 64 -> 0 <= n < 16 ->
  16 ^ n * Z.shiftr x 60 + u64 (Z.shiftl x 4) / 2 ^ (64 - 4 * n) = x / 2 ^ (60 - 4 * n).
Proof.
  intros Hx Hn. rewrite Z.shiftr_div_pow2, Z.shiftl_mul_pow2 by lia.
  pose proof (Z.div_mod x (2 ^ 60) ltac:(lia)) as Hd. pose proof (Z.mod_pos_bound x (2 ^ 60) ltac:(lia)) as Hm.
  set (h := x / 2 ^ 60) in *. set (l := x mod 2 ^ 60) in *.
  assert (u64 (x * 2 ^ 4) = 16 * l) as ->.
  { unfold u64, wrap. symmetry. apply (Z.mod_unique_pos _ _ h); lia. }
  replace (64 - 4 * n) with ((60 - 4 * n) + 4) by lia. rewrite Z.pow_add_r by lia.
  change (2 ^ 4) with 16. rewrite (Z.mul_comm (2 ^ (60 - 4 * n)) 16). rewrite Z.div_mul_cancel_l by lia.
  rewrite Hd. replace (2 ^ 60) with (2 ^ (60 - 4 * n) * 16 ^ n).
  - rewrite <-Z.mul_assoc, (Z.mul_comm (2 ^ (60 - 4 * n))), Z.div_add_l by lia. done.
  - change 16 with (2 ^ 4). rewrite <-Z.pow_mul_r, <-Z.pow_add_r by lia. f_equal. lia.
Qed.

Lemma ptr_digits_ok n : forall x, 0 <= x < 2 ^ 64 -> (n <= 16)%nat ->
  length (ptr_digits n tbl x) = n /\
  forall acc, digits_val tbl 16 (ptr_digits n tbl x) acc = Some (16 ^ Z.of_nat n * acc + x / 2 ^ (64 - 4 * Z.of_nat n)).
Proof.
  induction n as [|n IH]; intros x Hx Hn.
  - split; [done|]. intros acc. cbn [ptr_digits digits_val]. f_equal. change (64 - 4 * Z.of_nat 0) with 64.
    rewrite Z.div_small by lia. lia.
  - destruct (IH (u64 (Z.shiftl x 4))) as [Hl Hv]; [apply u64_range|lia|]. cbn [ptr_digits length digits_val]. split; [lia|].
    intros acc. assert (0 <= Z.shiftr x 60 < 16) as Hs.
    { rewrite Z.shiftr_div_pow2 by lia. split; [apply Z.div_pos; lia|apply Z.div_lt_upper_bound; lia]. }
    destruct (lookup_lt_is_Some_2 tbl (Z.to_nat (Z.shiftr x 60))) as [d Hd]; [lia|].
    rewrite Hd. change (default 0 (Some d)) with d. rewrite (digit_val_at _ _ Hd). cbn [mbind option_bind]. rewrite Hv. f_equal.
    rewrite Z2Nat.id by lia. pose proof (top_digit x (Z.of_nat n) Hx ltac:(lia)).
    rewrite Nat2Z.inj_succ, Z.pow_succ_r by lia. replace (64 - 4 * Z.succ (Z.of_nat n)) with (60 - 4 * Z.of_nat n) by lia. lia.
Qed.
End numbers.

(** * What is printed *)

Lemma consputc_ok c s : ko_panicked s = false -> 0 <= c < 256 ->
  consputc c s = Ok tt (mkko (ko_tx s ++ [c]) false (ko_locking s)).
Proof.
  intros Hp Hc. unfold consputc, bind, gets. rewrite Hp. unfold BACKSPACE. destruct (Z.eqb_spec c 256); [lia|].
  unfold uartputc, modify. by rewrite u8_small, Hp.
Qed.

Lemma putcs_ok l s : ko_panicked s = false -> Forall is_byte l ->
  putcs l s = Ok tt (mkko (ko_tx s ++ l) false (ko_locking s)).
Proof.
  intros Hp Hl. revert s Hp. induction Hl as [|c l Hc _ IH]; intros s Hp.
  - cbn. rewrite app_nil_r. destruct s; cbn in *. by subst.
  - cbn [putcs]. rewrite (bind_ok _ _ _ _ _ (consputc_ok c s Hp Hc)). rewrite IH by done. cbn. by rewrite <-app_assoc.
Qed.

Lemma digits_byte : Forall (fun c => is_byte c) digits.
Proof. unfold digits, is_byte. repeat constructor; lia. Qed.

Lemma int_buf_bytes xx base sign : base_ok base -> -2147483648 <= xx < 2147483648 ->
  exists out, int_buf digits xx base sign = Some (reverse out) /\ text_of digits base (if sign then xx else u32 xx) out /\
    Forall is_byte out.
Proof.
  intros Hb Hx. assert (NoDup digits) as Hnd by (by apply (bool_decide_unpack _); vm_compute).
  destruct (int_buf_ok digits eq_refl Hnd ltac:(by apply (bool_decide_unpack _); vm_compute) xx base sign Hb Hx) as (out & E & Ht).
  exists out. split; [done|]. split; [done|]. destruct Ht as (_ & _ & _ & Ht). eapply Forall_impl; [exact Ht|].
  intros c [->|Hc]; [unfold is_byte; lia|]. by apply (proj1 (Forall_forall _ _) digits_byte).
Qed.

Lemma printint_ok xx base sign s : base_ok base -> -2147483648 <= xx < 2147483648 -> ko_panicked s = false ->
  exists out, printint xx base sign s = Ok tt (mkko (ko_tx s ++ out) false (ko_locking s)) /\
    text_of digits base (if sign then xx else u32 xx) out.
Proof.
  intros Hb Hx Hp. destruct (int_buf_bytes xx base sign Hb Hx) as (out & E & Ht & Hby).
  exists out. split; [|done]. unfold printint. rewrite E, reverse_involutive. by apply putcs_ok.
Qed.

Lemma printptr_ok x s : 0 <= x < 2 ^ 64 -> ko_panicked s = false ->
  exists out, printptr x s = Ok tt (mkko (ko_tx s ++ [48; 120] ++ out) false (ko_locking s)) /\
    length out = 16%nat /\ digits_val digits 16 out 0 = Some x.
Proof.
  intros Hx Hp. assert (NoDup digits) as Hnd by (by apply (bool_decide_unpack _); vm_compute).
  destruct (ptr_digits_ok digits eq_refl Hnd 16 x Hx) as [Hl Hv]; [lia|].
  exists (ptr_digits 16 digits x). split; [|split; [done|]].
  - change (printptr x) with (putcs ([48; 120] ++ ptr_digits 16 digits x)). apply putcs_ok; [done|].
    apply Forall_app. split; [repeat constructor; lia|]. eapply Forall_impl; [exact (digits_val_tbl _ _ _ _ _ (Hv 0))|]. intros c Hc. cbn in Hc.
    by apply (proj1 (Forall_forall _ _) digits_byte).
  - rewrite Hv. f_equal. change (64 - 4 * Z.of_nat 16) with 0. rewrite Z.div_1_r. lia.
Qed.

Lemma s32_range z : -2147483648 <= s32 z < 2147483648.
Proof. unfold s32, wrap. pose proof (Z.mod_pos_bound (z + 2 ^ 31) (2 ^ 32) ltac:(lia)). lia. Qed.

Lemma u32_s32 z : u32 (s32 z) = u32 z.
Proof. unfold s32, u32. rewrite wrap_sub_l. f_equal. lia. Qed.

(** what [printf] prints for a number reads back as the number: [%d] the signed
    and [%u] and [%x] the unsigned value of the low 32 bits of the argument, in at
    most eleven characters (so that the array of sixteen never overflows, also for
    the smallest [int]) and without needless zeros, [%p] all 64 bits behind [0x]. *)
Theorem printf_reads_back z s : ko_panicked s = false ->
  let prints fmt out := printf (Some fmt) [AWord z] s = Ok tt (mkko (ko_tx s ++ out) false (ko_locking s)) in
  (exists out, prints [37; 100; 0] out /\ text_of digits 10 (s32 z) out) /\
  (exists out, prints [37; 117; 0] out /\ text_of digits 10 (u32 z) out) /\
  (exists out, prints [37; 120; 0] out /\ text_of digits 16 (u32 z) out) /\
  (exists out, prints [37; 112; 0] ([48; 120] ++ out) /\ length out = 16%nat /\ digits_val digits 16 out 0 = Some (u64 z)).
Proof.
  intros Hp prints. unfold prints, printf.
  assert (forall m out, m s = Ok tt (mkko (ko_tx s ++ out) false (ko_locking s)) ->
    word_arg [AWord z] (fun _ => m) (printf_loop [0]) s = Ok tt (mkko (ko_tx s ++ out) false (ko_locking s))) as Hw.
  { intros m out E. cbn [word_arg]. by rewrite (bind_ok _ _ _ _ _ E). }
  split; [|split; [|split]].
  - destruct (printint_ok (s32 z) 10 true s) as (out & E & Ht); [by left|apply s32_range|done|]. exists out. split; [|done]. by apply Hw in E.
  - destruct (printint_ok (s32 z) 10 false s) as (out & E & Ht); [by left|apply s32_range|done|].
    rewrite u32_s32 in Ht. exists out. split; [|done]. by apply Hw in E.
  - destruct (printint_ok (s32 z) 16 false s) as (out & E & Ht); [by right|apply s32_range|done|].
    rewrite u32_s32 in Ht. exists out. split; [|done]. by apply Hw in E.
  - destruct (printptr_ok (u64 z) s) as (out & E & Ht); [apply u64_range|done|]. exists out. split; [|done]. by apply Hw in E.
Qed.

Lemma printf_reads_back_witness :
  exists out, printf (Some [37; 100; 0]) [AWord (-2147483648)] (mkko [] false true) = Ok tt (mkko out false true) /\
    text_of digits 10 (-2147483648) out.
Proof. exact (proj1 (printf_reads_back (-2147483648) (mkko [] false true) eq_refl)). Defined.

(** * Calls that fit their format *)

Definition word_directive (c : Z) : bool := existsb (Z.eqb c) [100; 120; 112; 117].

(** The arguments are those the directives ask for; [state]: after a percent sign. *)
Fixpoint fits (fmt : bytes) (state : bool) (args : list arg) : bool :=
  match fmt with
  | [] => false
  | c :: fmt' =>
      if c =? 0 then true
      else if negb state then fits fmt' (c =? 37) args
      else if word_directive c then match args with AWord _ :: args' => fits fmt' false args' | _ => false end
      else if c =? 115 then match args with AStr _ :: args' => fits fmt' false args' | _ => false end
      else fits fmt' false args
  end.
Definition arg_bytes (a : arg) : Prop := match a with AStr (Some s) => Forall is_byte s | _ => True end.

(** [m] prints something and returns. *)
Definition prints (m : M kout unit) (s : kout) : Prop :=
  exists out, m s = Ok tt (mkko (ko_tx s ++ out) false (ko_locking s)).

Lemma prints_bind m k s : prints m s -> (forall s, ko_panicked s = false -> prints k s) -> prints (m;; k) s.
Proof.
  intros [o E] Hk. destruct (Hk (mkko (ko_tx s ++ o) false (ko_locking s)) eq_refl) as [o' E'].
  exists (o ++ o'). rewrite (bind_ok _ _ _ _ _ E), E'. cbn. by rewrite app_assoc.
Qed.

Lemma prints_ret s : ko_panicked s = false -> prints (ret tt) s.
Proof. intros Hp. exists []. rewrite app_nil_r. destruct s; cbn in *. by subst. Qed.

Lemma prints_putc c s : ko_panicked s = false -> is_byte c -> prints (consputc c) s.
Proof. intros Hp Hc. exists [c]. by apply consputc_ok. Qed.

Lemma prints_directive c fmt args s :
  is_byte c -> c <> 0 -> Forall arg_bytes args -> ko_panicked s = false -> fits (c :: fmt) true args = true ->
  (forall args s, Forall arg_bytes args -> ko_panicked s = false -> fits fmt false args = true -> prints (printf_loop fmt args) s) ->
  prints (printf_loop (37 :: c :: fmt) args) s.
Proof.
  intros Hc Hz Ha Hp Hf IH. cbn [printf_loop Z.eqb Pos.eqb negb]. cbn [fits negb] in Hf. destruct (Z.eqb_spec c 0); [done|].
  unfold word_directive in Hf. cbn [existsb] in Hf.
  assert (forall f, (forall z, prints (f z) s) -> match args with AWord _ :: args' => fits fmt false args' | _ => false end = true ->
    prints (word_arg args f (printf_loop fmt)) s) as Hw.
  { intros f Hpr Hfit. destruct args as [|[z|?] args']; [done| |done]. inversion Ha; subst.
    cbn [word_arg]. apply prints_bind; [done|]. intros. by apply IH. }
  assert (forall base sign z, base_ok base -> prints (printint (s32 z) base sign) s) as Hi.
  { intros base sign z Hb. destruct (printint_ok (s32 z) base sign s Hb (s32_range z) Hp) as (o & E & _). by exists o. }
  destruct (Z.eqb_spec c 100); [apply Hw; [intros; apply Hi; by left|done]|].
  destruct (Z.eqb_spec c 120); [apply Hw; [intros; apply Hi; by right|done]|].
  destruct (Z.eqb_spec c 112); [apply Hw; [|done]|].
  { intros z. destruct (printptr_ok (u64 z) s) as (o & E & _); [apply u64_range|done|]. by exists ([48; 120] ++ o). }
  destruct (Z.eqb_spec c 117); [apply Hw; [intros; apply Hi; by left|done]|]. cbn [orb] in Hf.
  destruct (Z.eqb_spec c 115).
  - destruct args as [|[?|str] args']; [done|done|]. inversion Ha as [|? ? Hstr Hargs]; subst. cbn [str_arg].
    apply prints_bind; [|intros; by apply IH]. exists (default NULL_STR str). apply putcs_ok; [done|].
    destruct str as [str|]; [done|]. repeat constructor; lia.
  - destruct (Z.eqb_spec c 37) as [->|].
    + apply prints_bind; [by apply prints_putc|]. intros. by apply IH.
    + apply prints_bind; [apply prints_putc; [done|unfold is_byte; lia]|]. intros.
      apply prints_bind; [by apply prints_putc|]. intros. by apply IH.
Qed.

Lemma printf_returns n : forall fmt args s, (length fmt <= n)%nat -> Forall is_byte fmt -> Forall arg_bytes args ->
  ko_panicked s = false -> fits fmt false args = true -> prints (printf_loop fmt args) s.
Proof.
  induction n as [|n IH]; intros fmt args s Hn Hb Ha Hp Hf.
  { by destruct fmt; [|simpl in Hn; lia]. }
  destruct fmt as [|c fmt]; [done|]. inversion Hb as [|? ? Hc Hb']; subst. cbn [length] in Hn.
  destruct (decide (c = 37)) as [->|Hne].
  - destruct fmt as [|c fmt]; [done|]. inversion Hb' as [|? ? Hc' Hb'']; subst. cbn [length] in Hn.
    destruct (decide (c = 0)) as [->|Hz]; [by apply prints_ret|].
    apply prints_directive; [done..|]. intros. apply IH; [lia|done..].
  - cbn [printf_loop fits negb] in *. destruct (Z.eqb_spec c 0); [by apply prints_ret|]. apply Z.eqb_neq in Hne. rewrite Hne in *. cbn [negb].
    apply prints_bind; [by apply prints_putc|]. intros. apply IH; [lia|done..].
Qed.

Lemma printf_fits fmt args s : Forall is_byte fmt -> Forall arg_bytes args -> ko_panicked s = false ->
  fits fmt false args = true -> prints (printf (Some fmt) args) s.
Proof. intros. by apply (printf_returns (length fmt)). Qed.
