(* ===== verification/UPrintf.v ===== *)
(** User output: user/ulib/printf.c.

    The state is the sequence of bytes written with [write], each with its file
    descriptor; the result of [write] is not looked at. *)

From S2P Require Import Prelude Printf.

Definition uout : Type := list (Z * Z).

(** ["0123456789ABCDEF"]. *)
Definition digits : bytes := [48; 49; 50; 51; 52; 53; 54; 55; 56; 57; 65; 66; 67; 68; 69; 70].

Definition putc (fd c : Z) : M uout unit := modify (fun s => s ++ [(fd, u8 c)]).
Fixpoint putcs (fd : Z) (l : bytes) : M uout unit :=
  match l with
  | [] => ret tt
  | c :: l' => putc fd c;; putcs fd l'
  end.

(** The body is that of the kernel's [printint], with the digits of this file. *)
Definition printint (fd xx base : Z) (sgn : bool) : M uout unit :=
  match int_buf digits xx base sgn with
  | None => undef
  | Some buf => putcs fd (reverse buf)
  end.

Definition printptr (fd x : Z) : M uout unit :=
  putc fd 48;; putc fd 120;; putcs fd (ptr_digits 16 digits x).

Definition uword_arg (args : list arg) (f : Z -> M uout unit) (k : list arg -> M uout unit) : M uout unit :=
  match args with AWord z :: args' => f z;; k args' | _ => undef end.
Definition ustr_arg (args : list arg) (f : option bytes -> M uout unit) (k : list arg -> M uout unit) : M uout unit :=
  match args with AStr s :: args' => f s;; k args' | _ => undef end.

(** The loop of [vprintf]; [state] is 0 or [%].  [printint] takes an [int]: the
    argument of [%l] loses its high half. *)
Fixpoint vprintf_loop (fd : Z) (fmt : bytes) (state : bool) (args : list arg) : M uout unit :=
  match fmt with
  | [] => undef
  | c :: fmt' =>
      if c =? 0 then ret tt
      else if negb state then
        if c =? 37 then vprintf_loop fd fmt' true args
        else putc fd c;; vprintf_loop fd fmt' false args
      else
        let next := vprintf_loop fd fmt' false in
        if c =? 100 then uword_arg args (fun z => printint fd (s32 z) 10 true) next
        else if c =? 108 then uword_arg args (fun z => printint fd (s32 z) 10 false) next
        else if c =? 120 then uword_arg args (fun z => printint fd (s32 z) 16 false) next
        else if c =? 112 then uword_arg args (fun z => printptr fd (u64 z)) next
        else if c =? 115 then ustr_arg args (fun s => putcs fd (default NULL_STR s)) next
        else if c =? 99 then uword_arg args (fun z => putc fd (u32 z)) next
        else if c =? 37 then putc fd c;; next args
        else putc fd 37;; putc fd c;; next args
  end.

Definition vprintf (fd : Z) (fmt : bytes) (args : list arg) : M uout unit := vprintf_loop fd fmt false args.
Definition fprintf (fd : Z) (fmt : bytes) (args : list arg) : M uout unit := vprintf fd fmt args.
Definition printf (fmt : bytes) (args : list arg) : M uout unit := vprintf 1 fmt args.

(** [%l] of 2^32 + 1 prints [1]. *)
Example long_truncated : printf [37; 108; 0] [AWord 4294967297] [] = Ok tt [(1, 49)].
Proof. vm_compute. reflexivity. Qed.

(** * The two printfs *)

(** Directives that both understand and that print the same digits. *)
Definition shared_directive (c : Z) : bool := negb (existsb (Z.eqb c) [117; 108; 99; 120; 112]).
Fixpoint shared (fmt : bytes) (state : bool) : bool :=
  match fmt with
  | [] => true
  | c :: fmt' => if state then shared_directive c && shared fmt' false else shared fmt' (c =? 37)
  end.

(** Both return and have added the same bytes, or neither call is defined. *)
Definition same_output (fd : Z) (s : kout) (u : uout) (k : outcome kout unit) (v : outcome uout unit) : Prop :=
  match k, v with
  | Ok _ s', Ok _ u' => exists o, s' = mkko (ko_tx s ++ o) false (ko_locking s) /\ u' = u ++ (pair fd <$> o)
  | Undef, Undef => True
  | _, _ => False
  end.

Lemma putcs_user fd l u : Forall is_byte l -> putcs fd l u = Ok tt (u ++ (pair fd <$> l)).
Proof.
  intros H. revert u. induction H as [|c l Hc _ IH]; intros u; [cbn; by rewrite app_nil_r|].
  cbn [putcs]. etransitivity; [eapply bind_ok; reflexivity|]. cbv beta. rewrite IH, u8_small by done. by rewrite <-app_assoc.
Qed.

Lemma digits_loop_10 fuel x buf : 0 <= x -> digits_loop fuel digits x 10 buf = digits_loop fuel Printf.digits x 10 buf.
Proof.
  revert x buf. induction fuel as [|fuel IH]; intros x buf Hx; [done|]. cbn [digits_loop].
  assert (digits !! Z.to_nat (x mod 10) = Printf.digits !! Z.to_nat (x mod 10)) as ->.
  { pose proof (Z.mod_pos_bound x 10 ltac:(lia)) as Hm. unfold digits, Printf.digits.
    destruct (Z.to_nat (x mod 10)) as [|[|[|[|[|[|[|[|[|[|n]]]]]]]]]] eqn:E; [done..|lia]. }
  destruct (Printf.digits !! _); [|done]. destruct (buf_add _ _) as [b|]; [|done]. cbn.
  destruct (x / 10 =? 0); [done|]. apply IH. by apply Z.div_pos.
Qed.

Lemma int_buf_10 xx sign : int_buf digits xx 10 sign = int_buf Printf.digits xx 10 sign.
Proof. unfold int_buf. rewrite digits_loop_10; [done|]. destruct (_ && _); apply u32_range. Qed.

Section agree.
Context (fd : Z).

(** The outputs [m] and [n] of the two programs, before [k] and [l]. *)
Lemma same_bind s (u : uout) o (m k : M kout unit) (n l : M uout unit) :
  m s = Ok tt (mkko (ko_tx s ++ o) false (ko_locking s)) -> n u = Ok tt (u ++ (pair fd <$> o)) ->
  (forall s u, ko_panicked s = false -> same_output fd s u (k s) (l u)) ->
  same_output fd s u ((m;; k) s) ((n;; l) u).
Proof.
  intros Em En Hk. rewrite (bind_ok _ _ _ _ _ Em), (bind_ok _ _ _ _ _ En). cbv beta.
  specialize (Hk (mkko (ko_tx s ++ o) false (ko_locking s)) (u ++ (pair fd <$> o)) eq_refl).
  destruct (k (mkko (ko_tx s ++ o) false (ko_locking s))), (l (u ++ (pair fd <$> o))); try done.
  destruct Hk as (o' & -> & ->). exists (o ++ o'). cbn. by rewrite fmap_app, !app_assoc.
Qed.

Lemma same_putc s u c k l : ko_panicked s = false -> is_byte c ->
  (forall s u, ko_panicked s = false -> same_output fd s u (k s) (l u)) ->
  same_output fd s u ((consputc c;; k) s) ((putc fd c;; l) u).
Proof.
  intros Hp Hc Hk. apply (same_bind s u [c]); [by apply consputc_ok| |done]. unfold putc, modify. by rewrite u8_small.
Qed.

Lemma same_int s u z k l : ko_panicked s = false ->
  (forall s u, ko_panicked s = false -> same_output fd s u (k s) (l u)) ->
  same_output fd s u ((Printf.printint (s32 z) 10 true;; k) s) ((printint fd (s32 z) 10 true;; l) u).
Proof.
  intros Hp Hk. destruct (int_buf_bytes (s32 z) 10 true) as (out & E & _ & Hb); [by left|apply s32_range|].
  apply (same_bind s u out); [| |done].
  - unfold Printf.printint. rewrite E, reverse_involutive. by apply putcs_ok.
  - unfold printint. rewrite int_buf_10, E, reverse_involutive. by apply putcs_user.
Qed.

Lemma same_str s u b k l : ko_panicked s = false -> Forall is_byte b ->
  (forall s u, ko_panicked s = false -> same_output fd s u (k s) (l u)) ->
  same_output fd s u ((Printf.putcs b;; k) s) ((putcs fd b;; l) u).
Proof. intros Hp Hb Hk. apply (same_bind s u b); [by apply putcs_ok|by apply putcs_user|done]. Qed.

(** A directive, [c] the character behind the percent sign and [k], [l] what follows. *)
Lemma same_directive c fmt args s u :
  is_byte c -> Forall arg_bytes args -> ko_panicked s = false -> shared_directive c = true -> c <> 0 ->
  (forall args s u, Forall arg_bytes args -> ko_panicked s = false ->
    same_output fd s u (printf_loop fmt args s) (vprintf_loop fd fmt false args u)) ->
  same_output fd s u (printf_loop (37 :: c :: fmt) args s) (vprintf_loop fd (c :: fmt) true args u).
Proof.
  intros Hc Ha Hp Hs Hz IH. cbn [printf_loop vprintf_loop Z.eqb Pos.eqb negb].
  destruct (Z.eqb_spec c 0); [done|]. unfold shared_directive in Hs. cbn [existsb] in Hs.
  destruct (Z.eqb_spec c 117), (Z.eqb_spec c 108), (Z.eqb_spec c 99), (Z.eqb_spec c 120), (Z.eqb_spec c 112); try done.
  destruct (Z.eqb_spec c 100); [|destruct (Z.eqb_spec c 115); [|destruct (Z.eqb_spec c 37) as [->|]]].
  - destruct args as [|[z|?] args]; [done| |done]. inversion Ha; subst. apply same_int; [done|]. intros. by apply IH.
  - destruct args as [|[?|str] args]; [done|done|]. inversion Ha as [|? ? Hstr Hargs]; subst.
    apply same_str; [done| |intros; by apply IH].
    destruct str as [str|]; [done|]. repeat constructor; lia.
  - apply same_putc; [done|done|]. intros. by apply IH.
  - apply same_putc; [done|unfold is_byte; lia|]. intros s' u' Hp'. apply same_putc; [done|done|]. intros. by apply IH.
Qed.

Lemma vprintf_agrees_ind n : forall fmt args s u, (length fmt <= n)%nat ->
  Forall is_byte fmt -> Forall arg_bytes args -> ko_panicked s = false -> shared fmt false = true ->
  same_output fd s u (printf_loop fmt args s) (vprintf_loop fd fmt false args u).
Proof.
  induction n as [|n IH]; intros fmt args s u Hn Hf Ha Hp Hs.
  { by destruct fmt; [|simpl in Hn; lia]. }
  destruct fmt as [|c fmt]; [done|]. inversion Hf as [|? ? Hc Hf']; subst. cbn [shared length] in *.
  destruct (Z.eqb_spec c 37) as [->|Hne].
  - destruct fmt as [|c fmt]; [done|]. inversion Hf' as [|? ? Hc' Hf'']; subst. cbn [shared length] in *.
    apply andb_true_iff in Hs as [Hs1 Hs2]. change (vprintf_loop fd (37 :: c :: fmt) false args u) with (vprintf_loop fd (c :: fmt) true args u).
    destruct (decide (c = 0)) as [->|Hz].
    + exists []. cbn. rewrite !app_nil_r. by destruct s; cbn in *; subst.
    + apply same_directive; [done..|]. intros. apply IH; [lia|done..].
  - cbn [printf_loop vprintf_loop]. destruct (Z.eqb_spec c 0) as [->|Hz].
    + exists []. cbn. rewrite !app_nil_r. by destruct s; cbn in *; subst.
    + apply Z.eqb_neq in Hne. rewrite Hne. cbn [negb]. apply same_putc; [done|done|]. intros. apply IH; [lia|done..].
Qed.
End agree.

(** the [printf] of the kernel and that of the user library, an index loop and a
    state machine, print the same bytes for the same format and arguments: for
    formats without [%u], [%l], [%c] (known to one of them only) and [%x], [%p]
    (whose digits differ in case), unknown directives and a lone percent sign at the
    end included; and where the arguments do not fit, neither is defined. *)
Theorem printf_agrees fd fmt args s u :
  Forall is_byte fmt -> Forall arg_bytes args -> ko_panicked s = false -> shared fmt false = true ->
  same_output fd s u (Printf.printf (Some fmt) args s) (fprintf fd fmt args u).
Proof. intros Hf Ha Hp Hs. by apply (vprintf_agrees_ind fd (length fmt)). Qed.

Lemma printf_agrees_witness :
  same_output 2 (mkko [] false true) [] (Printf.printf (Some [37; 100; 37; 113; 37; 0]) [AWord (-7)] (mkko [] false true))
    (fprintf 2 [37; 100; 37; 113; 37; 0] [AWord (-7)] []).
Proof.
  apply (printf_agrees 2 [37; 100; 37; 113; 37; 0] [AWord (-7)] (mkko [] false true) []).
  - repeat constructor; lia.
  - repeat constructor.
  - reflexivity.
  - reflexivity.
Defined.
