(* ===== verification/Console.v ===== *)
(** The console, kernel/dev/console.c: the input line editor, with the interrupt
    side of kernel/dev/uart.c and [procdump] of kernel/proc/proc.c.

    The input is a ring of 128 bytes with three counters that wrap at 32 bits: bytes
    from [r] to [w] may be read, bytes from [w] to [e] are the line being edited.  The
    code runs under [cons.lock]; [consoleread] is the segment up to its end or to the
    point where it sleeps on [&cons.r].  The specification is an editor on two byte
    strings, [ready] and [edit]. *)

From S2P Require Import Prelude FsDisk Pipe Proc Printf.

Definition INPUT_BUF : Z := 128.
Definition Ctrl (x : Z) : Z := x - 64.

Record cons := mkcons { cbuf : bytes; c_r : Z; c_w : Z; c_e : Z }.

Section code.
Context {C : Type} `{!UserCopy C}.

(** The console, what it prints, the memory of the running process and its [killed]
    flag, the process table with the saved [epc] of each process, and the number of
    calls of [wakeup(&cons.r)]. *)
Record cst := mkcst {
  s_cons : cons; s_out : kout; s_mem : C; s_killed : bool; s_procs : list (proc * Z); s_wakeups : nat }.

Definition get_cons : M cst cons := gets s_cons.
Definition put_cons (c : cons) : M cst unit :=
  modify (fun s => mkcst c (s_out s) (s_mem s) (s_killed s) (s_procs s) (s_wakeups s)).
Definition wakeup_r : M cst unit :=
  modify (fun s => mkcst (s_cons s) (s_out s) (s_mem s) (s_killed s) (s_procs s) (S (s_wakeups s))).
Definition outM {A} (m : M kout A) : M cst A := fun s =>
  match m (s_out s) with
  | Ok a o => Ok a (mkcst (s_cons s) o (s_mem s) (s_killed s) (s_procs s) (s_wakeups s))
  | Panic msg => Panic msg
  | Sleep o => Sleep (mkcst (s_cons s) o (s_mem s) (s_killed s) (s_procs s) (s_wakeups s))
  | OutOfFuel => OutOfFuel
  | Undef => Undef
  end.
Definition memM {A} (m : M C A) : M cst A := fun s =>
  match m (s_mem s) with
  | Ok a c => Ok a (mkcst (s_cons s) (s_out s) c (s_killed s) (s_procs s) (s_wakeups s))
  | Panic msg => Panic msg
  | Sleep c => Sleep (mkcst (s_cons s) (s_out s) c (s_killed s) (s_procs s) (s_wakeups s))
  | OutOfFuel => OutOfFuel
  | Undef => Undef
  end.

(** [for(i = 0; i < n; i++)] of [consolewrite], for an address of the user. *)
Fixpoint consolewrite_loop (fuel : nat) (src n i : Z) : M cst unit :=
  match fuel with
  | O => nofuel
  | Datatypes.S fuel' =>
      if i <? n then
        ' (got, r) ← memM (uc_copyin (u64 (src + i)) 1);
        if r =? -1 then ret tt
        else
          match got with
          | [c] => outM (consputc c);; consolewrite_loop fuel' src n (i + 1)
          | _ => undef
          end
      else ret tt
  end.
Definition consolewrite (src n : Z) : M cst Z := consolewrite_loop (Datatypes.S (Z.to_nat n)) src n 0;; ret n.

(** The call returns, or sleeps with [dst] and [n] where they are. *)
Inductive cresult := CDone (r : Z) | CSleep (dst n : Z).

(** [cons.buf[i % INPUT_BUF]]. *)
Definition cons_at (c : cons) (i : Z) : Z := default 0 (cbuf c !! Z.to_nat (i mod INPUT_BUF)).
Definition set_r (r : Z) (c : cons) : cons := mkcons (cbuf c) r (c_w c) (c_e c).
Definition set_w (w : Z) (c : cons) : cons := mkcons (cbuf c) (c_r c) w (c_e c).
Definition set_e (e : Z) (c : cons) : cons := mkcons (cbuf c) (c_r c) (c_w c) e.

Fixpoint consoleread_loop (fuel : nat) (dst n target : Z) : M cst cresult :=
  match fuel with
  | O => nofuel
  | Datatypes.S fuel' =>
      if 0 <? n then
        q ← get_cons;
        if c_r q =? c_w q then
          k ← gets s_killed;
          if k then ret (CDone (-1)) else ret (CSleep dst n)
        else
          let c := cons_at q (c_r q) in
          let q := set_r (u32 (c_r q + 1)) q in
          put_cons q;;
          if c =? Ctrl 68 then
            when (n <? target) (put_cons (set_r (u32 (c_r q - 1)) q));;
            ret (CDone (target - n))
          else
            r ← memM (uc_copyout dst [c]);
            if r =? -1 then ret (CDone (target - n))
            else if c =? 10 then ret (CDone (target - (n - 1)))
            else consoleread_loop fuel' (u64 (dst + 1)) (n - 1) target
      else ret (CDone (target - n))
  end.

(** From the start ([n = target]), and again from the inner [while] after a sleep. *)
Definition consoleread (dst n target : Z) : M cst cresult := consoleread_loop (Datatypes.S (Z.to_nat n)) dst n target.

(** The names of the states, and the line of a process. *)
Definition states (x : procstate) : bytes :=
  match x with
  | UNUSED => [117; 110; 117; 115; 101; 100]
  | SLEEPING => [115; 108; 101; 101; 112; 32]
  | RUNNABLE => [114; 117; 110; 98; 108; 101]
  | RUNNING => [114; 117; 110; 32; 32; 32]
  | ZOMBIE => [122; 111; 109; 98; 105; 101]
  end.
Fixpoint procdump_loop (l : list (proc * Z)) : M kout unit :=
  match l with
  | [] => ret tt
  | (p, epc) :: l' =>
      (if is_state UNUSED p then ret tt
       else
         printf (Some [37; 100; 32; 37; 115; 32; 37; 115; 32; 37; 120; 0])
           [AWord (pid p); AStr (Some (states (state p))); AStr (Some (name p)); AWord epc];;
         printf (Some [10; 0]) []);;
      procdump_loop l'
  end.
Definition procdump : M cst unit :=
  l ← gets s_procs; outM (printf (Some [10; 0]) [];; procdump_loop l).

(** [while(cons.e != cons.w && cons.buf[(cons.e-1) % INPUT_BUF] != '\n')]. *)
Fixpoint kill_loop (fuel : nat) : M cst unit :=
  match fuel with
  | O => nofuel
  | Datatypes.S fuel' =>
      q ← get_cons;
      if negb (c_e q =? c_w q) && negb (cons_at q (u32 (c_e q - 1)) =? 10) then
        put_cons (set_e (u32 (c_e q - 1)) q);;
        outM (consputc BACKSPACE);;
        kill_loop fuel'
      else ret tt
  end.

Definition consoleintr (c : Z) : M cst unit :=
  if c =? Ctrl 80 then procdump
  else if c =? Ctrl 85 then kill_loop 129
  else if (c =? Ctrl 72) || (c =? 127) then
    q ← get_cons;
    when (negb (c_e q =? c_w q)) (put_cons (set_e (u32 (c_e q - 1)) q);; outM (consputc BACKSPACE))
  else
    q ← get_cons;
    when (negb (c =? 0) && (u32 (c_e q - c_r q) <? INPUT_BUF))
      (let c := if c =? 13 then 10 else c in
       outM (consputc c);;
       let q := mkcons (<[Z.to_nat (c_e q mod INPUT_BUF) := u8 c]> (cbuf q)) (c_r q) (c_w q) (u32 (c_e q + 1)) in
       put_cons q;;
       when ((c =? 10) || (c =? Ctrl 68) || (c_e q =? u32 (c_r q + INPUT_BUF)))
         (put_cons (set_w (c_e q) q);; wakeup_r)).

(** The characters that wait in the receive register when [uartintr] is called. *)
Fixpoint uartintr (rx : bytes) : M cst unit :=
  match rx with
  | [] => ret tt
  | c :: rx' => consoleintr c;; uartintr rx'
  end.
End code.
Arguments cst : clear implicits.

(** * The editor *)

Record editor := mked { ready : bytes; edit : bytes }.

Definition ends_line (c : Z) : bool := (c =? 10) || (c =? Ctrl 68).
Definition erase (n : nat) : bytes := concat (replicate n [8; 32; 8]).

(** One character typed: the new state, and the echo. *)
Definition type_char (c : Z) (s : editor) : editor * bytes :=
  if c =? Ctrl 80 then (s, [])
  else if c =? Ctrl 85 then (mked (ready s) [], erase (length (edit s)))
  else if (c =? Ctrl 72) || (c =? 127) then
    (mked (ready s) (take (length (edit s) - 1) (edit s)), erase (Nat.min 1 (length (edit s))))
  else if (c =? 0) || (Nat.leb 128 (length (ready s) + length (edit s))) then (s, [])
  else
    let c := if c =? 13 then 10 else c in
    let l := edit s ++ [c] in
    (if ends_line c || Nat.eqb (length (ready s) + length l) 128 then mked (ready s ++ l) [] else mked (ready s) l, [c]).

(** What a read of at most [n] bytes takes: the bytes, what remains, and whether
    the read is complete ([fresh]: nothing was copied yet). *)
Fixpoint take_line (n : nat) (fresh : bool) (l : bytes) : bytes * bytes * bool :=
  match n with
  | O => ([], l, true)
  | Datatypes.S n' =>
      match l with
      | [] => ([], [], false)
      | c :: l' =>
          if c =? Ctrl 68 then ([], if fresh then l' else l, true)
          else if c =? 10 then ([c], l', true)
          else let '(out, rest, b) := take_line n' false l' in (c :: out, rest, b)
      end
  end.

(** * The ring *)

Definition n_ready (q : cons) : nat := Z.to_nat (u32 (c_w q - c_r q)).
Definition n_all (q : cons) : nat := Z.to_nat (u32 (c_e q - c_r q)).
Definition slot (q : cons) (i : nat) : Z := cons_at q (c_r q + Z.of_nat i).
Definition all (q : cons) : bytes := slot q <$> seq 0 (n_all q).

Record cons_ok (q : cons) : Prop := {
  co_buf : length (cbuf q) = 128%nat;
  co_r : 0 <= c_r q < 2 ^ 32; co_w : 0 <= c_w q < 2 ^ 32; co_e : 0 <= c_e q < 2 ^ 32;
  co_order : (n_ready q <= n_all q <= 128)%nat }.

(** The ring holds the two strings of the editor. *)
Definition rep (q : cons) (s : editor) : Prop :=
  cons_ok q /\ ready s = take (n_ready q) (all q) /\ edit s = drop (n_ready q) (all q) /\ Forall (fun c => c <> 10) (edit s).

Lemma length_all q : length (all q) = n_all q.
Proof. unfold all. by rewrite length_fmap, length_seq. Qed.

Lemma cons_mod z : (z mod 2 ^ 32) mod INPUT_BUF = z mod INPUT_BUF.
Proof. apply Z.mod_mod_divide. by exists (2 ^ 25). Qed.

(** Differences of counters. *)
Lemma diff_inc a b : u32 (a - b) < 2 ^ 32 - 1 -> u32 (u32 (a + 1) - b) = u32 (a - b) + 1.
Proof.
  intros H. pose proof (u32_range (a - b)). unfold u32 in *. rewrite wrap_sub_l. replace (a + 1 - b) with (a - b + 1) by lia.
  rewrite <-wrap_add_l. apply wrap_small. lia.
Qed.
Lemma diff_dec a b : 0 < u32 (a - b) -> u32 (u32 (a - 1) - b) = u32 (a - b) - 1.
Proof.
  intros H. pose proof (u32_range (a - b)). unfold u32 in *. rewrite wrap_sub_l. replace (a - 1 - b) with (a - b - 1) by lia.
  rewrite <-wrap_sub_l. apply wrap_small. lia.
Qed.
Lemma diff_inc_r a b : 0 < u32 (a - b) -> u32 (a - u32 (b + 1)) = u32 (a - b) - 1.
Proof.
  intros H. pose proof (u32_range (a - b)). unfold u32 in *. rewrite wrap_sub_r. replace (a - (b + 1)) with (a - b - 1) by lia.
  rewrite <-wrap_sub_l. apply wrap_small. lia.
Qed.

(** A place of the ring, by its distance from [r]. *)
Lemma cons_at_diff q a : cons_at q a = slot q (Z.to_nat (u32 (a - c_r q))).
Proof.
  unfold slot, cons_at. do 2 f_equal. rewrite Z2Nat.id by apply u32_range.
  rewrite <-cons_mod, <-(cons_mod (c_r q + _)). do 2 f_equal. unfold u32, wrap. rewrite Zplus_mod_idemp_r. do 2 f_equal. lia.
Qed.

Lemma slot_inj r i j : (i < 128)%nat -> (j < 128)%nat ->
  Z.to_nat ((r + Z.of_nat i) mod INPUT_BUF) = Z.to_nat ((r + Z.of_nat j) mod INPUT_BUF) -> i = j.
Proof.
  unfold INPUT_BUF. intros Hi Hj E. pose proof (Z.mod_pos_bound (r + Z.of_nat i) 128 ltac:(lia)).
  pose proof (Z.mod_pos_bound (r + Z.of_nat j) 128 ltac:(lia)). pose proof (Z.div_mod (r + Z.of_nat i) 128 ltac:(lia)).
  pose proof (Z.div_mod (r + Z.of_nat j) 128 ltac:(lia)). lia.
Qed.

Definition push (c : Z) (q : cons) : cons :=
  mkcons (<[Z.to_nat (c_e q mod INPUT_BUF) := c]> (cbuf q)) (c_r q) (c_w q) (u32 (c_e q + 1)).

Lemma n_all_nat q : Z.of_nat (n_all q) = u32 (c_e q - c_r q).
Proof. unfold n_all. rewrite Z2Nat.id; [done|apply u32_range]. Qed.
Lemma n_ready_nat q : Z.of_nat (n_ready q) = u32 (c_w q - c_r q).
Proof. unfold n_ready. rewrite Z2Nat.id; [done|apply u32_range]. Qed.

Lemma cons_push_ok c q : cons_ok q -> (n_all q < 128)%nat ->
  cons_ok (push c q) /\ n_all (push c q) = Datatypes.S (n_all q) /\ all (push c q) = all q ++ [c].
Proof.
  intros [Hb Hr Hw He Ho] Hlt. pose proof (n_all_nat q) as Hn.
  assert (n_all (push c q) = Datatypes.S (n_all q)) as En.
  { unfold n_all at 1. cbn [push c_e c_r]. rewrite diff_inc by lia. lia. }
  split; [|split; [done|]].
  - split; cbn [push cbuf c_r c_w c_e]; [by rewrite length_insert|done|done|apply u32_range|].
    rewrite En. unfold n_ready in *. cbn [push c_w c_r]. lia.
  - unfold all. rewrite En, seq_S, fmap_app. cbn [fmap list_fmap Nat.add].
    assert (Z.to_nat (c_e q mod INPUT_BUF) = Z.to_nat ((c_r q + Z.of_nat (n_all q)) mod INPUT_BUF)) as Es.
    { f_equal. rewrite Hn, <-(cons_mod (c_r q + _)). unfold u32, wrap. rewrite Zplus_mod_idemp_r.
      replace (c_r q + (c_e q - c_r q)) with (c_e q) by lia. by rewrite (Z.mod_small (c_e q) (2 ^ 32)). }
    assert (Z.to_nat ((c_r q + Z.of_nat (n_all q)) mod INPUT_BUF) < 128)%nat as Hin.
    { pose proof (Z.mod_pos_bound (c_r q + Z.of_nat (n_all q)) INPUT_BUF ltac:(done)). unfold INPUT_BUF in *. lia. }
    f_equal; [|f_equal].
    + apply list_fmap_ext. intros j k Hk. apply lookup_seq in Hk as [-> Hk]. unfold slot, cons_at. cbn [push cbuf c_r Nat.add].
      rewrite Es, list_lookup_insert_ne; [done|]. intros E%slot_inj; lia.
    + unfold slot, cons_at. cbn [push cbuf c_r]. rewrite Es, list_lookup_insert_eq; [done|lia].
Qed.

Lemma cons_pop_ok q : cons_ok q -> (n_ready q < n_all q)%nat ->
  cons_ok (set_e (u32 (c_e q - 1)) q) /\ n_all q = Datatypes.S (n_all (set_e (u32 (c_e q - 1)) q)) /\
  all q = all (set_e (u32 (c_e q - 1)) q) ++ [cons_at q (u32 (c_e q - 1))].
Proof.
  intros [Hb Hr Hw He Ho] Hlt. pose proof (n_all_nat q) as Hn.
  assert (n_all q = Datatypes.S (n_all (set_e (u32 (c_e q - 1)) q))) as En.
  { unfold n_all at 2. cbn [set_e c_e c_r]. rewrite diff_dec by lia. lia. }
  split; [|split; [done|]].
  - split; cbn [set_e cbuf c_r c_w c_e]; [done|done|done|apply u32_range|]. unfold n_ready in *. cbn [set_e c_w c_r]. lia.
  - unfold all at 1. rewrite En, seq_S, fmap_app. cbn [fmap list_fmap Nat.add]. f_equal. f_equal.
    by rewrite cons_at_diff.
Qed.

Lemma shift_ok q : cons_ok q -> (0 < n_ready q)%nat ->
  cons_ok (set_r (u32 (c_r q + 1)) q) /\ n_ready q = Datatypes.S (n_ready (set_r (u32 (c_r q + 1)) q)) /\
  all q = cons_at q (c_r q) :: all (set_r (u32 (c_r q + 1)) q).
Proof.
  intros [Hb Hr Hw He Ho] Hlt. pose proof (n_all_nat q) as Hn. pose proof (n_ready_nat q) as Hnr.
  assert (n_all q = Datatypes.S (n_all (set_r (u32 (c_r q + 1)) q))) as En.
  { unfold n_all at 2. cbn [set_r c_e c_r]. rewrite diff_inc_r by lia. lia. }
  assert (n_ready q = Datatypes.S (n_ready (set_r (u32 (c_r q + 1)) q))) as Er.
  { unfold n_ready at 2. cbn [set_r c_w c_r]. rewrite diff_inc_r by lia. lia. }
  split; [|split; [done|]].
  - split; cbn [set_r cbuf c_r c_w c_e]; [done|apply u32_range|done|done|]. lia.
  - unfold all at 1. rewrite En. cbn [seq fmap list_fmap]. f_equal; [unfold slot; f_equal; lia|].
    rewrite <-fmap_S_seq, <-list_fmap_compose. apply list_fmap_ext. intros j k _.
    unfold compose. rewrite <-(Nat2Z.id k) at 1. unfold slot, cons_at. cbn [set_r cbuf c_r]. do 3 f_equal.
    rewrite <-(cons_mod (c_r q + _)), <-(cons_mod (u32 _ + _)). f_equal. unfold u32, wrap. rewrite Zplus_mod_idemp_l. f_equal. lia.
Qed.

Lemma diff_inj a b r : 0 <= a < 2 ^ 32 -> 0 <= b < 2 ^ 32 -> u32 (a - r) = u32 (b - r) -> a = b.
Proof.
  intros Ha Hb E. rewrite <-(u32_small a), <-(u32_small b) by lia. replace a with (a - r + r) by lia. replace b with (b - r + r) by lia.
  unfold u32 in *. by rewrite <-(wrap_add_l 32 (a - r)), <-(wrap_add_l 32 (b - r)), E.
Qed.

Section rep.
Context (q : cons) (s : editor) (Hrep : rep q s).

Lemma rep_lengths : length (ready s) = n_ready q /\ length (edit s) = (n_all q - n_ready q)%nat /\ (n_ready q <= n_all q <= 128)%nat.
Proof.
  destruct Hrep as ([_ _ _ _ Ho] & -> & -> & _). rewrite length_take, length_drop, length_all. lia.
Qed.

Lemma rep_all : all q = ready s ++ edit s.
Proof. destruct Hrep as (_ & -> & -> & _). by rewrite take_drop. Qed.

Lemma no_edit : (c_e q =? c_w q) = bool_decide (edit s = []).
Proof.
  destruct rep_lengths as (_ & Hl & Ho). destruct Hrep as ([_ _ Hw He _] & _). pose proof (n_all_nat q). pose proof (n_ready_nat q).
  destruct (Z.eqb_spec (c_e q) (c_w q)) as [E|Hne]; symmetry.
  - apply bool_decide_eq_true_2. apply length_zero_iff_nil. unfold n_all, n_ready in Hl. rewrite E in Hl. lia.
  - apply bool_decide_eq_false_2. intros E. rewrite E in Hl. cbn in Hl. apply Hne, (diff_inj _ _ (c_r q)); [done|done|lia].
Qed.

Lemma no_ready : (c_r q =? c_w q) = bool_decide (ready s = []).
Proof.
  destruct rep_lengths as (Hl & _ & Ho). destruct Hrep as ([_ Hr Hw _ _] & _). pose proof (n_ready_nat q).
  destruct (Z.eqb_spec (c_r q) (c_w q)) as [E|Hne]; symmetry.
  - apply bool_decide_eq_true_2. apply length_zero_iff_nil. rewrite Hl. unfold n_ready. by rewrite E, Z.sub_diag.
  - apply bool_decide_eq_false_2. intros E. rewrite E in Hl. cbn in Hl. apply Hne. symmetry.
    apply (diff_inj _ _ (c_r q)); [done|done|]. rewrite Z.sub_diag. change (u32 0) with 0. lia.
Qed.

Lemma full_test : (u32 (c_e q - c_r q) <? INPUT_BUF) = negb (Nat.leb 128 (length (ready s) + length (edit s))).
Proof.
  destruct rep_lengths as (-> & -> & Ho). pose proof (n_all_nat q). unfold INPUT_BUF.
  destruct (Z.ltb_spec (u32 (c_e q - c_r q)) 128), (Nat.leb_spec 128 (n_ready q + (n_all q - n_ready q))); cbn; lia.
Qed.

(** The character before the edit position is erased. *)
Lemma rep_pop l c : edit s = l ++ [c] ->
  rep (set_e (u32 (c_e q - 1)) q) (mked (ready s) l) /\ cons_at q (u32 (c_e q - 1)) = c.
Proof.
  intros He. pose proof rep_lengths as (Hlr & Hle & Ho). rewrite He, length_app in Hle. cbn [length] in Hle.
  pose proof rep_all as Ha. destruct Hrep as (Hok & Hr & Hed & Hnl). destruct (cons_pop_ok q Hok) as (Hok' & Hn & Hall); [lia|].
  rewrite Ha, He, app_assoc in Hall. apply app_inj_tail in Hall as [Hall Hc]. split; [|done].
  assert (n_ready (set_e (u32 (c_e q - 1)) q) = length (ready s)) as En by (by rewrite Hlr).
  split; [done|]. rewrite En, <-Hall. cbn [ready edit]. rewrite take_app_length, drop_app_length.
  split; [done|]. split; [done|]. rewrite He in Hnl. by apply Forall_app in Hnl as [? _].
Qed.

(** A character is added. *)
Lemma rep_push c : (length (ready s) + length (edit s) < 128)%nat ->
  cons_ok (push c q) /\ all (push c q) = ready s ++ edit s ++ [c] /\ n_ready (push c q) = length (ready s).
Proof.
  intros Hlt. pose proof rep_lengths as (Hlr & Hle & Ho). pose proof rep_all as Ha. destruct Hrep as (Hok & _).
  destruct (cons_push_ok c q Hok) as (Hok' & _ & Hall); [lia|]. split; [done|]. split; [by rewrite Hall, Ha, app_assoc|]. by rewrite Hlr.
Qed.
End rep.

(** The line is made ready when [w] is set to [e]. *)
Lemma rep_commit q : cons_ok q -> rep (set_w (c_e q) q) (mked (all q) []).
Proof.
  intros [Hb Hr Hw He Ho]. assert (n_ready (set_w (c_e q) q) = n_all (set_w (c_e q) q)) as En by done.
  assert (all (set_w (c_e q) q) = all q) as Ea by done. assert (n_all (set_w (c_e q) q) = n_all q) as Ea' by done.
  split; [split; cbn [set_w cbuf c_r c_w c_e]; [done..|lia]|]. rewrite En, Ea, Ea', <-length_all. cbn [ready edit].
  rewrite firstn_all, drop_all. split; [done|]. split; [done|]. constructor.
Qed.

(** ** The interrupt handler *)

Section intr.
Context {C : Type} `{!UserCopy C}.
Implicit Types (st : cst C).

(** The state with another console and more output, after [w] more wakeups. *)
Definition after st (q : cons) (out : bytes) (w : nat) : cst C :=
  mkcst q (mkko (ko_tx (s_out st) ++ out) false (ko_locking (s_out st))) (s_mem st) (s_killed st) (s_procs st) (s_wakeups st + w).

Lemma outM_consputc c st : ko_panicked (s_out st) = false -> 0 <= c < 256 ->
  outM (consputc c) st = Ok tt (after st (s_cons st) [c] 0).
Proof. intros Hp Hc. unfold outM, after. rewrite consputc_ok by done. by rewrite Nat.add_0_r. Qed.

Lemma outM_backspace st : ko_panicked (s_out st) = false -> outM (consputc BACKSPACE) st = Ok tt (after st (s_cons st) [8; 32; 8] 0).
Proof.
  intros Hp. unfold outM, after, consputc, bind, gets. rewrite Hp. unfold uartputc, modify. cbn. rewrite Hp, <-!app_assoc, Nat.add_0_r. done.
Qed.

Lemma after_after st q o w q' o' w' : after (after st q o w) q' o' w' = after st q' (o ++ o') (w + w').
Proof. unfold after. cbn. by rewrite app_assoc, Nat.add_assoc. Qed.

(** One round of [kill_loop], and of a backspace. *)
Lemma erase_one st r l c : rep (s_cons st) (mked r (l ++ [c])) -> ko_panicked (s_out st) = false ->
  let q := set_e (u32 (c_e (s_cons st) - 1)) (s_cons st) in
  (put_cons q;; outM (consputc BACKSPACE)) st = Ok tt (after st q [8; 32; 8] 0) /\ rep q (mked r l) /\
  (c_e (s_cons st) =? c_w (s_cons st)) = false /\ cons_at (s_cons st) (u32 (c_e (s_cons st) - 1)) = c.
Proof.
  intros Hrep Hp q. destruct (rep_pop _ _ Hrep l c eq_refl) as [Hr Hc]. split; [|split; [done|split; [|done]]].
  - unfold bind, put_cons, modify. by rewrite outM_backspace.
  - rewrite (no_edit _ _ Hrep). apply bool_decide_eq_false_2. cbn. by destruct l.
Qed.

Lemma kill_loop_ok l : forall st r fuel, (length l < fuel)%nat -> rep (s_cons st) (mked r l) -> ko_panicked (s_out st) = false ->
  exists q, kill_loop fuel st = Ok tt (after st q (erase (length l)) 0) /\ rep q (mked r []).
Proof.
  induction l as [|c l IH] using rev_ind; intros st r fuel Hf Hrep Hp; (destruct fuel as [|fuel]; [lia|]); cbn [kill_loop].
  - exists (s_cons st). split; [|done]. etransitivity; [eapply bind_ok; reflexivity|]. cbv beta.
    rewrite (no_edit _ _ Hrep). cbn. unfold after. cbn. rewrite app_nil_r, Nat.add_0_r. destruct st as [? [? ? ?] ? ? ? ?]. cbn in *. by subst.
  - rewrite length_app in *. cbn [length] in *. destruct (erase_one st r l c Hrep Hp) as (E & Hr & Hne & Hc).
    destruct (IH (after st (set_e (u32 (c_e (s_cons st) - 1)) (s_cons st)) [8; 32; 8] 0) r fuel) as (q & Ek & Hq); [lia|done|done|].
    exists q. split; [|done]. etransitivity; [eapply bind_ok; reflexivity|]. cbv beta.
    assert (c <> 10) as Hc10.
    { destruct Hrep as (_ & _ & _ & Hnl). cbn in Hnl. apply Forall_app in Hnl as [_ Hnl]. by inversion Hnl. }
    rewrite Hne, Hc. cbn [negb]. destruct (Z.eqb_spec c 10); [done|]. cbn [negb andb].
    unfold bind in *. destruct (put_cons _ st) as [u st1| | | |]; [|done..]. rewrite E, Ek, after_after.
    do 2 f_equal. rewrite Nat.add_1_r. done.
Qed.
(** The names of the processes are bytes. *)
Definition names_ok st : Prop := Forall (fun p => Forall is_byte (name p.1)) (s_procs st).

Lemma procdump_loop_ok l o : Forall (fun p : proc * Z => Forall is_byte (name p.1)) l -> ko_panicked o = false -> prints (procdump_loop l) o.
Proof.
  intros Hl. revert o. induction Hl as [|[p epc] l Hn _ IH]; intros o Hp; [by apply prints_ret|]. cbn [procdump_loop].
  apply prints_bind; [|intros; by apply IH]. destruct (is_state UNUSED p); [by apply prints_ret|].
  apply prints_bind; [apply printf_fits|intros; apply printf_fits]; try done.
  - repeat constructor; lia.
  - repeat constructor; [|done]. by destruct (state p); repeat constructor; lia.
  - repeat constructor; lia.
Qed.

Lemma procdump_ok st : names_ok st -> ko_panicked (s_out st) = false ->
  exists out, procdump st = Ok tt (after st (s_cons st) out 0).
Proof.
  intros Hn Hp. assert (prints (printf (Some [10; 0]) [];; procdump_loop (s_procs st)) (s_out st)) as [out E].
  { apply prints_bind; [apply printf_fits; [repeat constructor; lia|constructor|done|done]|]. intros. by apply procdump_loop_ok. }
  exists out. unfold procdump. etransitivity; [eapply bind_ok; reflexivity|]. cbv beta. unfold outM. rewrite E.
  unfold after. by rewrite Nat.add_0_r.
Qed.

(** A character that is stored. *)
Lemma cons_store_ok st s c : rep (s_cons st) s -> ko_panicked (s_out st) = false -> is_byte c -> c <> 13 ->
  (length (ready s) + length (edit s) < 128)%nat ->
  let l := edit s ++ [c] in
  let full := ends_line c || Nat.eqb (length (ready s) + length l) 128 in
  exists q,
    (outM (consputc c);;
     let q := push (u8 c) (s_cons st) in
     put_cons q;;
     when ((c =? 10) || (c =? Ctrl 68) || (c_e q =? u32 (c_r q + INPUT_BUF))) (put_cons (set_w (c_e q) q);; wakeup_r)) st =
      Ok tt (after st q [c] (if full then 1 else 0)) /\
    rep q (if full then mked (ready s ++ l) [] else mked (ready s) l).
Proof.
  intros Hrep Hp Hc Hcr Hlt l full. rewrite u8_small by done. set (q := push c (s_cons st)).
  destruct (rep_push _ _ Hrep c Hlt) as (Hok & Hall & Hnr). fold q in Hok, Hall, Hnr.
  assert ((c_e q =? u32 (c_r q + INPUT_BUF)) = Nat.eqb (length (ready s) + length l) 128) as Hfull.
  { pose proof (length_all q) as Hla. rewrite Hall, !length_app in Hla. pose proof (n_all_nat q) as Hn. destruct Hok as [_ Hr _ He Ho].
    unfold l. rewrite length_app in *. destruct (Nat.eqb_spec (length (ready s) + (length (edit s) + length [c])) 128) as [E|E].
    - apply Z.eqb_eq. apply (diff_inj _ _ (c_r q)); [done|apply u32_range|]. unfold u32 at 2. unfold u32 at 2. rewrite wrap_sub_l.
      replace (c_r q + INPUT_BUF - c_r q) with 128 by (unfold INPUT_BUF; lia). change (wrap 32 128) with 128. lia.
    - apply Z.eqb_neq. intros Ee. rewrite Ee in Hn. unfold u32 in Hn. rewrite wrap_sub_l in Hn.
      replace (c_r q + INPUT_BUF - c_r q) with 128 in Hn by (unfold INPUT_BUF; lia). change (wrap 32 128) with 128 in Hn. lia. }
  unfold bind at 1. rewrite outM_consputc by done. cbv zeta. rewrite Hfull. fold (ends_line c). fold full.
  destruct full eqn:Ef.
  - exists (set_w (c_e q) q). split; [|unfold l; rewrite <-Hall; by apply rep_commit].
    unfold bind, put_cons, modify, when, wakeup_r, after. cbn. by rewrite Nat.add_0_r, Nat.add_1_r.
  - exists q. split; [done|].
    split; [done|]. rewrite Hnr, Hall. cbn [ready edit]. rewrite take_app_length, drop_app_length. split; [done|]. split; [done|].
    apply Forall_app. split; [by destruct Hrep as (_ & _ & _ & ?)|]. constructor; [|constructor].
    unfold full, ends_line in Ef. destruct (Z.eqb_spec c 10); [done|done].
Qed.

Lemma consoleintr_ok st s c : rep (s_cons st) s -> ko_panicked (s_out st) = false -> names_ok st -> is_byte c ->
  exists q out, consoleintr c st = Ok tt (after st q out (if decide (ready (type_char c s).1 = ready s) then 0 else 1)) /\
    rep q (type_char c s).1 /\ (c <> Ctrl 80 -> out = (type_char c s).2).
Proof.
  intros Hrep Hp Hn Hc. unfold consoleintr, type_char. destruct (Z.eqb_spec c (Ctrl 80)) as [->|Hne].
  { destruct (procdump_ok st Hn Hp) as [out E]. exists (s_cons st), out. rewrite decide_True by done. done. }
  destruct (Z.eqb_spec c (Ctrl 85)) as [->|_].
  { destruct s as [r l]. pose proof (rep_lengths _ _ Hrep) as (_ & Hl & Ho). cbn [edit] in Hl.
    destruct (kill_loop_ok l st r 129) as (q & E & Hq); [lia|done|done|]. exists q, (erase (length l)).
    rewrite decide_True by done. split; [exact E|]. split; [done|done]. }
  destruct ((c =? Ctrl 72) || (c =? 127)).
  { destruct s as [r l]. cbn [fst snd ready edit]. rewrite decide_True by done. unfold bind, get_cons, gets.
    rewrite (no_edit _ _ Hrep). cbn [edit]. destruct l as [|c0 l _] using rev_ind.
    - exists (s_cons st), []. split; [|done]. cbn. unfold after. rewrite app_nil_r, Nat.add_0_r.
      destruct st as [? [? ? ?] ? ? ? ?]. cbn in *. by subst.
    - destruct (erase_one st r l c0 Hrep Hp) as (E & Hr & _ & _).
      exists (set_e (u32 (c_e (s_cons st) - 1)) (s_cons st)), [8; 32; 8].
      rewrite bool_decide_eq_false_2 by (by destruct l). cbn [negb when]. split; [exact E|].
      rewrite length_app, Nat.add_sub, take_app_length. cbn [length]. split; [done|]. intros _.
      rewrite Nat.min_l by lia. done. }
  unfold bind at 1. unfold get_cons, gets. rewrite (full_test _ _ Hrep).
  destruct (Z.eqb_spec c 0) as [->|Hz]; cbn [negb andb orb].
  { exists (s_cons st), []. cbn [fst snd]. rewrite decide_True by done. split; [|done]. cbn. unfold after.
    rewrite app_nil_r, Nat.add_0_r. destruct st as [? [? ? ?] ? ? ? ?]. cbn in *. by subst. }
  destruct (Nat.leb_spec 128 (length (ready s) + length (edit s))) as [Hge|Hlt]; cbn [negb].
  { exists (s_cons st), []. cbn [fst snd]. rewrite decide_True by done. split; [|done]. cbn. unfold after.
    rewrite app_nil_r, Nat.add_0_r. destruct st as [? [? ? ?] ? ? ? ?]. cbn in *. by subst. }
  set (c' := if c =? 13 then 10 else c). assert (is_byte c' /\ c' <> 13) as [Hb' H13].
  { unfold c'. destruct (Z.eqb_spec c 13); split; [unfold is_byte; lia|lia|done|done]. }
  destruct (cons_store_ok st s c' Hrep Hp Hb' H13 Hlt) as (q & E & Hq). exists q, [c']. cbn [fst snd when]. split; [|split; [exact Hq|done]].
  refine (eq_trans E _). do 2 f_equal. clear E Hq. destruct (ends_line c' || _); cbn [ready].
  - rewrite decide_False; [done|]. intros E'. apply (f_equal length) in E'. rewrite !length_app in E'. simpl in E'. lia.
  - by rewrite decide_True.
Qed.
(** Several characters: the echoes follow each other. *)
Fixpoint type_chars (l : bytes) (s : editor) : editor * bytes :=
  match l with
  | [] => (s, [])
  | c :: l' => let '(s1, o1) := type_char c s in let '(s2, o2) := type_chars l' s1 in (s2, o1 ++ o2)
  end.

Lemma uartintr_ok rx : forall st s, rep (s_cons st) s -> ko_panicked (s_out st) = false -> names_ok st -> Forall is_byte rx ->
  exists q out w, uartintr rx st = Ok tt (after st q out w) /\ rep q (type_chars rx s).1 /\
    (Ctrl 80 ∉ rx -> out = (type_chars rx s).2).
Proof.
  induction rx as [|c rx IH]; intros st s Hrep Hp Hn Hb.
  - exists (s_cons st), [], O. split; [|done]. cbn. unfold after. rewrite app_nil_r, Nat.add_0_r.
    destruct st as [? [? ? ?] ? ? ? ?]. cbn in *. by subst.
  - inversion Hb; subst. destruct (consoleintr_ok st s c Hrep Hp Hn) as (q1 & o1 & E1 & Hr1 & Ho1); [done|].
    set (w1 := if decide _ then _ else _) in E1. destruct (IH (after st q1 o1 w1) (type_char c s).1) as (q2 & o2 & w2 & E2 & Hr2 & Ho2); [done..|].
    exists q2, (o1 ++ o2), (w1 + w2)%nat. cbn [uartintr type_chars]. rewrite (bind_ok _ _ _ _ _ E1), E2, after_after. split; [done|].
    destruct (type_char c s) as [s1 e1]. cbn [fst snd] in *. destruct (type_chars rx s1) as [s2 e2]. cbn [fst snd] in *.
    split; [done|]. intros Hin. apply not_elem_of_cons in Hin as [Hc Hrx]. by rewrite Ho1, Ho2.
Qed.

(** ** Reads *)

Context `{!UserBytes C}.

(** The memory after [out] was stored at [dst], where all of it can be written. *)
Fixpoint stored (f : Z -> option Z) (dst : Z) (out : bytes) : Z -> option Z :=
  match out with
  | [] => f
  | c :: out' => stored (fupd f dst (Some c)) (u64 (dst + 1)) out'
  end.
Fixpoint writable (m : C) (dst : Z) (n : nat) : Prop :=
  match n with
  | O => True
  | Datatypes.S n' => ub_wr m dst = true /\ writable m (u64 (dst + 1)) n'
  end.
Fixpoint advance (dst : Z) (n : nat) : Z := match n with O => dst | Datatypes.S n' => advance (u64 (dst + 1)) n' end.

Lemma writable_ext m m' dst n : (forall x, ub_wr m' x = ub_wr m x) -> writable m dst n -> writable m' dst n.
Proof. intros E. revert dst. induction n as [|n IH]; intros dst; cbn; [done|]. intros [? ?]. rewrite E. auto. Qed.

Lemma stored_ext f g dst out x : (forall y, f y = g y) -> stored f dst out x = stored g dst out x.
Proof.
  revert f g dst. induction out as [|c out IH]; intros f g dst E; cbn; [done|]. apply IH. intros y. unfold fupd. by case_match.
Qed.

(** How the read ends. *)
Definition read_end st (complete : bool) (dst n target : Z) : cresult :=
  if complete then CDone (target - n) else if s_killed st then CDone (-1) else CSleep dst n.

(** The next character of the ring. *)
Lemma rep_next q s c l : rep q s -> ready s = c :: l ->
  cons_at q (c_r q) = c /\ rep (set_r (u32 (c_r q + 1)) q) (mked l (edit s)) /\ u32 (u32 (c_r q + 1) - 1) = c_r q.
Proof.
  intros Hrep Er. pose proof (rep_lengths _ _ Hrep) as (Hl & _ & Ho). rewrite Er in Hl. cbn [length] in Hl. pose proof (rep_all _ _ Hrep) as Ha.
  destruct Hrep as (Hok & Hr & He & Hnl). destruct (shift_ok q Hok) as (Hok' & Hn & Hall); [lia|].
  rewrite Er in Ha. cbn [app] in Ha. rewrite Ha in Hall. injection Hall as Hc Hall. split; [done|]. split.
  - split; [done|]. assert (n_ready (set_r (u32 (c_r q + 1)) q) = length l) as -> by lia.
    rewrite <-Hall. cbn [ready edit]. rewrite take_app_length, drop_app_length. done.
  - unfold u32. rewrite wrap_sub_l. destruct Hok as [_ Hcr _ _ _]. rewrite wrap_small; lia.
Qed.

Lemma consoleread_loop_ok fuel : forall st s dst n target,
  rep (s_cons st) s -> (Z.to_nat n < fuel)%nat -> 0 <= n <= target -> writable (s_mem st) dst (Z.to_nat n) ->
  let '(out, rest, complete) := take_line (Z.to_nat n) (n =? target) (ready s) in
  exists q m, consoleread_loop fuel dst n target st =
      Ok (read_end st complete (advance dst (length out)) (n - Z.of_nat (length out)) target)
        (mkcst q (s_out st) m (s_killed st) (s_procs st) (s_wakeups st)) /\
    rep q (mked rest (edit s)) /\ (forall x, ub_rd m x = stored (ub_rd (s_mem st)) dst out x).
Proof.
  induction fuel as [|fuel IH]; intros st s dst n target Hrep Hf Hn Hw; [lia|]. cbn [consoleread_loop].
  destruct (Z.ltb_spec 0 n) as [Hpos|Hzero].
  2: { assert (n = 0) as -> by lia. cbn. exists (s_cons st), (s_mem st). split; [by destruct st|].
       split; [by destruct s|done]. }
  replace (Z.to_nat n) with (Datatypes.S (Z.to_nat (n - 1))) in * by lia. cbn [take_line writable] in *. destruct Hw as [Hwd Hw].
  unfold bind at 1. unfold get_cons, gets. rewrite (no_ready _ _ Hrep). destruct s as [r e]. cbn [ready edit] in *. destruct r as [|c l].
  { cbn. exists (s_cons st), (s_mem st). unfold bind. rewrite Z.sub_0_r. split; [|done]. by destruct st as [? ? ? [] ? ?]. }
  destruct (rep_next _ _ c l Hrep eq_refl) as (Hc & Hr' & Hback). rewrite bool_decide_eq_false_2 by done. rewrite Hc. cbn [ready edit] in *.
  destruct (Z.eqb_spec c (Ctrl 68)) as [->|Hd].
  - destruct (Z.ltb_spec n target) as [Hlt|Hge].
    + destruct (Z.eqb_spec n target); [lia|]. exists (s_cons st), (s_mem st).
      unfold bind, put_cons, modify, when. cbn [length Z.of_nat advance]. rewrite Z.sub_0_r. split; [|done].
      unfold ret, read_end, set_r. cbn [cbuf c_r c_w c_e]. rewrite Hback. by destruct st as [[? ? ? ?] ? ? ? ? ?].
    + destruct (Z.eqb_spec n target); [|lia]. exists (set_r (u32 (c_r (s_cons st) + 1)) (s_cons st)), (s_mem st).
      unfold bind, put_cons, modify, when. cbn [length Z.of_nat advance]. rewrite Z.sub_0_r. done.
  - pose proof (ub_out dst c (s_mem st)) as Hout. rewrite Hwd in Hout. destruct Hout as (m & Em & Hrd & Hwr).
    unfold bind, put_cons, modify, memM. cbn [s_mem]. rewrite Em. cbn [Z.eqb s_cons s_out s_killed s_procs s_wakeups].
    destruct (Z.eqb_spec c 10) as [->|Hnl].
    + exists (set_r (u32 (c_r (s_cons st) + 1)) (s_cons st)), m. split; [|split; [done|done]].
      unfold ret, read_end. cbn [length]. done.
    + specialize (IH (mkcst (set_r (u32 (c_r (s_cons st) + 1)) (s_cons st)) (s_out st) m (s_killed st) (s_procs st) (s_wakeups st))
        (mked l e) (u64 (dst + 1)) (n - 1) target Hr' ltac:(lia) ltac:(lia)).
      cbn [s_mem s_out s_killed s_procs s_wakeups ready edit] in IH.
      specialize (IH ltac:(by eapply writable_ext)). destruct (Z.eqb_spec (n - 1) target); [lia|].
      destruct (take_line (Z.to_nat (n - 1)) false l) as [[out rest] b]. destruct IH as (q & m' & E & Hq & Hm).
      exists q, m'. split; [|split; [done|]].
      * rewrite E. unfold read_end. cbn [length advance s_killed]. replace (n - 1 - Z.of_nat (length out)) with (n - Z.of_nat (Datatypes.S (length out))) by lia. done.
      * intros x. rewrite Hm. cbn [stored]. by apply stored_ext.
Qed.
(** ** Writes *)

(** [consolewrite] prints the bytes up to the first that cannot be read, and says
    that it has written all [n]. *)
Lemma consolewrite_loop_ok fuel : forall st src n i, ko_panicked (s_out st) = false ->
  (forall a b, ub_rd (s_mem st) a = Some b -> is_byte b) -> (Z.to_nat (n - i) < fuel)%nat ->
  consolewrite_loop fuel src n i st = Ok tt (after st (s_cons st) (fetch (s_mem st) src i (Z.to_nat (n - i))) 0).
Proof.
  induction fuel as [|fuel IH]; intros st src n i Hp Hb Hf; [lia|]. cbn [consolewrite_loop].
  assert (ret tt st = Ok tt (after st (s_cons st) [] 0)) as Hret.
  { unfold ret, after. rewrite app_nil_r, Nat.add_0_r. destruct st as [? [? ? ?] ? ? ? ?]. cbn in *. by subst. }
  destruct (Z.ltb_spec i n) as [Hlt|Hge].
  - replace (Z.to_nat (n - i)) with (Datatypes.S (Z.to_nat (n - (i + 1)))) by lia. cbn [fetch].
    unfold bind, memM. rewrite ub_in. destruct (ub_rd (s_mem st) (u64 (src + i))) as [b|] eqn:Er; cbn [Z.eqb Pos.eqb].
    + replace (mkcst _ _ _ _ _ _) with st by (by destruct st). rewrite (outM_consputc b st Hp) by (by eapply Hb).
      rewrite IH; [|done|done|lia]. by rewrite after_after.
    + replace (mkcst _ _ _ _ _ _) with st by (by destruct st). exact Hret.
  - replace (Z.to_nat (n - i)) with O by lia. exact Hret.
Qed.

Lemma consolewrite_says_n st src n : ko_panicked (s_out st) = false ->
  (forall a b, ub_rd (s_mem st) a = Some b -> is_byte b) ->
  consolewrite src n st = Ok n (after st (s_cons st) (fetch (s_mem st) src 0 (Z.to_nat n)) 0).
Proof.
  intros Hp Hb. unfold consolewrite. rewrite (bind_ok _ _ _ _ _ (consolewrite_loop_ok (Datatypes.S (Z.to_nat n)) st src n 0 Hp Hb ltac:(rewrite Z.sub_0_r; lia))).
  by rewrite Z.sub_0_r.
Qed.

(** Characters that are neither editing commands nor line ends. *)
Definition plain (c : Z) : bool :=
  negb (existsb (Z.eqb c) [0; 10; 13; 127; Ctrl 68; Ctrl 72; Ctrl 80; Ctrl 85]).

Lemma type_plain c s : plain c = true -> (length (ready s) + length (edit s) < 127)%nat ->
  type_char c s = (mked (ready s) (edit s ++ [c]), [c]).
Proof.
  intros Hc Hl. unfold plain in Hc. cbn [existsb] in Hc.
  destruct (Z.eqb_spec c 0), (Z.eqb_spec c 10), (Z.eqb_spec c 13), (Z.eqb_spec c 127), (Z.eqb_spec c (Ctrl 68)),
    (Z.eqb_spec c (Ctrl 72)), (Z.eqb_spec c (Ctrl 80)), (Z.eqb_spec c (Ctrl 85)); try done.
  unfold type_char, ends_line. rewrite length_app. cbn [length].
  repeat (match goal with |- context [?a =? ?b] => destruct (Z.eqb_spec a b); [done|] end). cbn [orb].
  destruct (Nat.leb_spec 128 (length (ready s) + length (edit s))); [lia|].
  destruct (Nat.eqb_spec (length (ready s) + (length (edit s) + 1)) 128); [lia|done].
Qed.

Lemma type_line l s : Forall (fun c => plain c = true) l -> (length (ready s) + length (edit s) + length l < 128)%nat ->
  (type_chars (l ++ [13]) s).1 = mked (ready s ++ edit s ++ l ++ [10]) [].
Proof.
  intros Hl. revert s. induction Hl as [|c l Hc _ IH]; intros s Hlen; cbn [app type_chars].
  - unfold type_char. cbn [Z.eqb Pos.eqb Ctrl Z.sub Z.add Z.opp Z.pos_sub Pos.pred_double orb].
    cbn [length] in Hlen. destruct (Nat.leb_spec 128 (length (ready s) + length (edit s))); [lia|]. done.
  - cbn [length] in Hlen. rewrite type_plain by (done || lia).
    specialize (IH (mked (ready s) (edit s ++ [c]))). cbn [ready edit] in IH. rewrite length_app in IH. cbn [length] in IH.
    destruct (type_chars (l ++ [13]) _) as [s2 o2]. cbn [fst] in *. rewrite IH by lia. by rewrite <-!app_assoc.
Qed.

Lemma take_line_plain l n fresh rest : Forall (fun c => plain c = true) l -> (length l < n)%nat ->
  take_line n fresh (l ++ 10 :: rest) = (l ++ [10], rest, true).
Proof.
  intros Hl. revert n fresh. induction Hl as [|c l Hc _ IH]; intros n fresh Hn; (destruct n as [|n]; [simpl in Hn; lia|]); cbn [app take_line].
  - done.
  - unfold plain in Hc. cbn [existsb] in Hc. cbn [length] in Hn.
    destruct (Z.eqb_spec c 10), (Z.eqb_spec c (Ctrl 68)); [by rewrite ?orb_true_r in Hc..|]. by rewrite IH by lia.
Qed.

Lemma plain_byte13 l : Forall is_byte l -> Forall is_byte (l ++ [13]).
Proof. intros H. apply Forall_app. split; [done|]. repeat constructor; lia. Qed.

(** C35: the console refines the line editor.  Whatever characters arrive from the
    UART, in any state of the ring (its counters wrap at 2^32), the bytes that can be
    read and the line being edited change as in the editor, and the echo is the
    editor's: line kill erases exactly the line being edited, backspace never goes
    past its start, and a character that finds the ring full is dropped. *)
Theorem console_refines rx st s :
  rep (s_cons st) s -> ko_panicked (s_out st) = false -> names_ok st -> Forall is_byte rx ->
  exists q out w, uartintr rx st = Ok tt (after st q out w) /\ rep q (type_chars rx s).1 /\
    (Ctrl 80 ∉ rx -> out = (type_chars rx s).2).
Proof. apply uartintr_ok. Qed.

(** a line typed at an idle console, ended by return, is what the next
    [consoleread] with room for it stores, newline included; the call does not sleep
    and returns the length of the line, and the console is idle again. *)
Theorem console_line_read l st dst n :
  rep (s_cons st) (mked [] []) -> ko_panicked (s_out st) = false -> names_ok st ->
  Forall is_byte l -> Forall (fun c => plain c = true) l -> (length l < 128)%nat -> Z.of_nat (length l) < n ->
  writable (s_mem st) dst (Z.to_nat n) ->
  exists st1 st2, uartintr (l ++ [13]) st = Ok tt st1 /\
    consoleread dst n n st1 = Ok (CDone (Z.of_nat (length l) + 1)) st2 /\
    (forall x, ub_rd (s_mem st2) x = stored (ub_rd (s_mem st)) dst (l ++ [10]) x) /\
    rep (s_cons st2) (mked [] []).
Proof.
  intros Hrep Hp Hn Hb Hl Hlen Hlt Hw.
  destruct (uartintr_ok (l ++ [13]) st _ Hrep Hp Hn (plain_byte13 l Hb)) as (q & out & w & E & Hq & _).
  rewrite type_line in Hq by (done || (simpl; lia)). cbn [ready edit app] in Hq.
  pose proof (consoleread_loop_ok (Datatypes.S (Z.to_nat n)) (after st q out w) _ dst n n Hq ltac:(lia) ltac:(lia) Hw) as Hr.
  cbn [ready edit] in Hr. rewrite (take_line_plain l _ _ [] Hl) in Hr by lia. destruct Hr as (q' & m & Er & Hq' & Hm).
  exists (after st q out w), (mkcst q' (s_out (after st q out w)) m (s_killed st) (s_procs st) (s_wakeups (after st q out w))).
  split; [done|]. split; [|split; [done|done]]. unfold consoleread. refine (eq_trans Er _). unfold read_end. rewrite length_app. cbn [length].
  do 2 f_equal. lia.
Qed.
End intr.

(** The console at boot, [consoleinit]: nothing typed. *)
Definition cons_init (buf : bytes) : cons := mkcons buf 0 0 0.

Lemma cons_init_rep buf : length buf = 128%nat -> rep (cons_init buf) (mked [] []).
Proof. intros H. split; [split; [done|cbn; lia|cbn; lia|cbn; lia|vm_compute; lia]|]. split; [done|]. split; [done|constructor]. Qed.

Definition wit_cst : cst bmem := mkcst (cons_init (replicate 128 0)) (mkko [] false true) wit_bmem false [] 0.

(** [a], [b], backspace, [c], return. *)
Lemma console_refines_witness :
  exists q out w, uartintr [97; 98; 8; 99; 13] wit_cst = Ok tt (after wit_cst q out w) /\
    rep q (mked [97; 99; 10] []) /\ (Ctrl 80 ∉ [97; 98; 8; 99; 13] -> out = [97; 98; 8; 32; 8; 99; 10]).
Proof.
  apply (console_refines [97; 98; 8; 99; 13] wit_cst (mked [] [])).
  - by apply cons_init_rep.
  - reflexivity.
  - constructor.
  - repeat constructor; lia.
Defined.

Lemma console_line_read_witness :
  exists st1 st2, uartintr ([104; 105] ++ [13]) wit_cst = Ok tt st1 /\
    consoleread 16 10 10 st1 = Ok (CDone 3) st2 /\
    (forall x, ub_rd (s_mem st2) x = stored (ub_rd wit_bmem) 16 [104; 105; 10] x) /\ rep (s_cons st2) (mked [] []).
Proof.
  apply (console_line_read [104; 105] wit_cst 16 10).
  - by apply cons_init_rep.
  - reflexivity.
  - constructor.
  - repeat constructor; lia.
  - repeat constructor.
  - simpl. lia.
  - simpl. lia.
  - vm_compute. tauto.
Defined.
