(* ===== verification/KList.v ===== *)
(** Circular doubly linked lists: kernel/lib/list.c.

    A [struct list] is known by its address; the heads of the lists and the elements
    are such objects, and no two of them overlap.  The state gives the two fields
    of every object. *)

From S2P Require Import Prelude.

Record links := mklk { nx : Z -> Z; pv : Z -> Z }.

(** * The code *)

Definition set_next (e v : Z) (s : links) : links := mklk (fupd (nx s) e v) (pv s).
Definition set_prev (e v : Z) (s : links) : links := mklk (nx s) (fupd (pv s) e v).

Definition lst_init (lst : Z) : M links unit := modify (fun s => set_prev lst lst (set_next lst lst s)).

Definition lst_empty (lst : Z) : M links bool := gets (fun s => nx s lst =? lst).

Definition lst_remove (e : Z) : M links unit :=
  if e =? 0 then panic "[lst_remove] a list has no member"
  else
    s ← get;
    if pv s e =? 0 then panic "[lst_remove] a list prev has no member"
    else if nx s e =? 0 then panic "a list next has no member"
    else
      modify (fun s => set_next (pv s e) (nx s e) s);;
      modify (fun s => set_prev (nx s e) (pv s e) s).

Definition lst_pop (lst : Z) : M links Z :=
  p ← gets (fun s => nx s lst);
  if p =? 0 then ret 0 else lst_remove p;; ret p.

Definition lst_push (lst e : Z) : M links unit :=
  if lst =? 0 then panic "[lst_push] list did not allocated"
  else if e =? 0 then panic "[lst_push] p did not allocated"
  else
    modify (fun s => set_next e (nx s lst) s);;
    modify (set_prev e lst);;
    modify (fun s => set_prev (nx s lst) e s);;
    modify (set_next lst e).

(** * What a list contains *)

(** Neighbours in [p] point to each other. *)
Fixpoint joined (s : links) (p : list Z) : Prop :=
  match p with
  | a :: ((b :: _) as p') => nx s a = b /\ pv s b = a /\ joined s p'
  | _ => True
  end.

(** The list at [h] has the elements [l]. *)
Definition is_list (s : links) (h : Z) (l : list Z) : Prop := joined s (h :: l ++ [h]) /\ NoDup (h :: l) /\ Forall (fun x => x <> 0) (h :: l).

Lemma joined_cons s a b p : joined s (a :: b :: p) <-> nx s a = b /\ pv s b = a /\ joined s (b :: p).
Proof. done. Qed.

Lemma joined_app s p x q : joined s (p ++ x :: q) <-> joined s (p ++ [x]) /\ joined s (x :: q).
Proof.
  induction p as [|a p IH]; [cbn; naive_solver|]. destruct p as [|b p].
  - cbn [app]. rewrite !joined_cons. naive_solver.
  - cbn [app] in *. rewrite !joined_cons, IH. naive_solver.
Qed.

(** Only the [next] of all but the last and the [prev] of all but the first count. *)
Lemma joined_ext s s' p :
  (forall q x, p = q ++ [x] -> forall u, u ∈ q -> nx s' u = nx s u) -> (forall v, v ∈ tail p -> pv s' v = pv s v) ->
  joined s p -> joined s' p.
Proof.
  induction p as [|a p IH]; [done|]. destruct p as [|b p]; [done|]. intros Hn Hp. rewrite !joined_cons. intros (E1 & E2 & Hj).
  assert (exists q x, b :: p = q ++ [x]) as (q & x & Eq).
  { destruct (exists_last (l := b :: p)) as (q & x & E); [done|]. by exists q, x. }
  split; [rewrite (Hn (a :: q) x); [done|cbn; by rewrite Eq|left]|]. split; [rewrite Hp; [done|left]|].
  apply IH; [|intros v Hv; apply Hp; by right|done].
  intros q' x' Eq' u Hu. apply (Hn (a :: q') x'); [by rewrite Eq'|by right].
Qed.

(** Nothing changes outside of [D]. *)
Definition only (D : list Z) (s s' : links) : Prop := forall u, u ∉ D -> nx s' u = nx s u /\ pv s' u = pv s u.

Lemma is_list_frame D s s' h l : only D s s' -> (forall u, u ∈ (h :: l) -> u ∉ D) -> is_list s h l -> is_list s' h l.
Proof.
  intros Ho Hd (Hj & Hnd & Hz). split; [|done].
  assert (forall u, u ∈ h :: l ++ [h] -> u ∉ D) as Hd'.
  { intros u Hu. apply Hd. set_solver. }
  revert Hj. apply joined_ext.
  - intros q x E u Hu. apply Ho, Hd'. rewrite E. set_solver.
  - intros v Hv. apply Ho, Hd'. set_solver.
Qed.

Definition first_or (h : Z) (l : list Z) : Z := match l with [] => h | x :: _ => x end.

Lemma is_list_head s h l : is_list s h l -> nx s h = first_or h l /\ pv s (first_or h l) = h.
Proof. intros (Hj & _ & _). destruct l as [|x l]; cbn [app] in Hj; rewrite joined_cons in Hj; naive_solver. Qed.

Lemma lst_empty_ok s h l : is_list s h l -> lst_empty h s = Ok (bool_decide (l = [])) s.
Proof.
  intros Hl. destruct (is_list_head _ _ _ Hl) as [Hn _]. destruct Hl as (_ & Hnd & _). unfold lst_empty, gets. rewrite Hn. f_equal.
  destruct l as [|x l]; cbn [first_or]; [by rewrite Z.eqb_refl|]. apply NoDup_cons in Hnd as [Hni _].
  rewrite bool_decide_eq_false_2 by done. apply Z.eqb_neq. set_solver.
Qed.

Lemma lst_init_ok s h : h <> 0 -> exists s', lst_init h s = Ok tt s' /\ is_list s' h [] /\ only [h] s s'.
Proof.
  intros Hh. eexists. split; [reflexivity|]. split.
  - split; [cbn; by rewrite !fupd_eq|]. split; [apply NoDup_singleton|by constructor].
  - intros u Hu. cbn. rewrite !fupd_ne; [done|set_solver..].
Qed.

(** The nodes behind the first: [next] of [l], [prev] of [l] without [n] and of [h]. *)
Lemma joined_rest s s' n l h : NoDup (h :: n :: l) -> (forall u, u ∈ n :: l -> nx s' u = nx s u) ->
  (forall v, v ∈ h :: l -> pv s' v = pv s v) -> joined s (n :: l ++ [h]) -> joined s' (n :: l ++ [h]).
Proof.
  intros Hnd Hn Hp. apply joined_ext.
  - intros q y E u Hu. rewrite app_comm_cons in E. apply app_inj_tail in E as [<- ->]. by apply Hn.
  - intros v Hv. cbn [tail] in Hv. apply Hp. set_solver.
Qed.

Lemma lst_push_ok s h l x : is_list s h l -> x ∉ (h :: l) -> x <> 0 ->
  exists s', lst_push h x s = Ok tt s' /\ is_list s' h (x :: l) /\ only (x :: h :: l) s s'.
Proof.
  intros Hl Hx Hx0. destruct (is_list_head _ _ _ Hl) as [Hn Hp]. destruct Hl as (Hj & Hnd & Hz).
  apply Forall_cons in Hz as [Hh0 Hz]. assert (x <> h /\ x ∉ l) as [Hxh Hxl] by set_solver.
  unfold lst_push. pose proof Hh0 as Hh0'. apply Z.eqb_neq in Hh0' as ->. pose proof Hx0 as Hx0'. apply Z.eqb_neq in Hx0' as ->.
  eexists. split; [reflexivity|]. cbn [nx pv set_next set_prev]. rewrite (fupd_ne _ x _ h) by done. rewrite Hn.
  split; [split; [|split]|].
  - cbn [app]. rewrite joined_cons. destruct l as [|n l]; cbn [first_or app] in *; rewrite !joined_cons; cbn [nx pv set_next set_prev].
    + rewrite (fupd_ne _ h _ x), !fupd_eq, (fupd_ne _ h _ x), !fupd_eq by done. done.
    + assert (n <> h /\ x <> n) as [Hnh Hxn] by (apply NoDup_cons in Hnd as [? _]; set_solver).
      rewrite (fupd_ne _ h _ x), !fupd_eq, (fupd_ne _ n _ x), !fupd_eq by done. split; [done|]. split; [done|]. split; [done|]. split; [done|].
      rewrite joined_cons in Hj. destruct Hj as (_ & _ & Hj). revert Hj.
      apply joined_rest; [done|..]; cbn [nx pv set_next set_prev]; intros u Hu; rewrite !fupd_ne; try done; intros ->;
        apply NoDup_cons in Hnd as [? [? ?]%NoDup_cons]; set_solver.
  - apply NoDup_cons in Hnd as [Hhl Hnd]. apply NoDup_cons. split; [set_solver|]. by apply NoDup_cons.
  - by repeat constructor.
  - intros u Hu. cbn [nx pv set_next set_prev]. assert (u <> x /\ u <> h /\ u <> first_or h l) as (? & ? & ?) by (unfold first_or; destruct l; set_solver).
    by rewrite !fupd_ne.
Qed.

(** An element between its neighbours. *)
Lemma lst_remove_ok s h l1 x l2 : is_list s h (l1 ++ x :: l2) ->
  exists s', lst_remove x s = Ok tt s' /\ is_list s' h (l1 ++ l2) /\ only (h :: l1 ++ x :: l2) s s'.
Proof.
  intros (Hj & Hnd & Hz).
  destruct (exists_last (l := h :: l1)) as (p & a & Ep); [done|].
  assert (exists b q, l2 ++ [h] = b :: q) as (b & q & Eq) by (destruct l2; cbn; by eexists _, _).
  replace (h :: (l1 ++ x :: l2) ++ [h]) with (p ++ a :: x :: b :: q) in Hj.
  2: { trans ((h :: l1) ++ x :: l2 ++ [h]); [by rewrite Ep, <-Eq, <-app_assoc|cbn; by rewrite <-app_assoc]. }
  rewrite joined_app, !joined_cons in Hj. destruct Hj as (Hj1 & E1 & E2 & E3 & E4 & Hj2).
  assert (a ∈ h :: l1) as Ha by (rewrite Ep; set_solver). assert (b ∈ l2 ++ [h]) as Hb by (rewrite Eq; set_solver).
  rewrite Forall_forall in Hz.
  unfold lst_remove. assert (x <> 0 /\ a <> 0 /\ b <> 0) as (Hx0 & Ha0 & Hb0) by (split_and!; apply Hz; set_solver).
  pose proof Hx0 as Hx0'. apply Z.eqb_neq in Hx0' as ->. unfold bind at 1, get. rewrite E2, E3.
  pose proof Ha0 as Ha0'. apply Z.eqb_neq in Ha0' as ->. pose proof Hb0 as Hb0'. apply Z.eqb_neq in Hb0' as ->.
  eexists. split; [reflexivity|]. cbn [nx pv set_next set_prev].
  assert ((x ∉ h :: l1) /\ (x ∉ h :: l2) /\ NoDup (h :: l1) /\ NoDup (h :: l2) /\ (forall u, u ∈ l1 -> u ∉ l2)) as (Hx1 & Hx2 & Hn1 & Hn2 & H12).
  { rewrite NoDup_cons in Hnd. destruct Hnd as [Hhn Hnd]. apply NoDup_app in Hnd as (Hd1 & Hd12 & Hd2). apply NoDup_cons in Hd2 as [Hxl2 Hd2].
    split_and!; [set_solver|set_solver|apply NoDup_cons; set_solver|apply NoDup_cons; set_solver|set_solver]. }
  assert (x <> a) as Hxa by (intros ->; done). rewrite E2, (fupd_ne _ a _ x), E3 by done.
  split; [split; [|split]|].
  - replace (h :: (l1 ++ l2) ++ [h]) with (p ++ a :: b :: q).
    2: { rewrite <-Eq, <-app_assoc. change (p ++ a :: l2 ++ [h]) with (p ++ [a] ++ l2 ++ [h]). rewrite app_assoc, <-Ep. done. }
    rewrite joined_app, joined_cons. cbn [nx pv set_next set_prev]. rewrite !fupd_eq. split; [|split; [done|split; [done|]]].
    + rewrite <-Ep in Hj1 |- *. revert Hj1. apply joined_ext; cbn [nx pv set_next set_prev].
      * intros q' y E u Hu. rewrite Ep in E. apply app_inj_tail in E as [<- <-]. rewrite Ep in Hn1.
        apply NoDup_app in Hn1 as (_ & Hn1 & _). rewrite fupd_ne; [done|]. intros ->. apply (Hn1 a Hu). set_solver.
      * intros v Hv. cbn [tail] in Hv. rewrite fupd_ne; [done|]. intros ->. apply NoDup_cons in Hn1 as [? _]. set_solver.
    + rewrite <-Eq in Hj2 |- *. revert Hj2. apply joined_ext; cbn [nx pv set_next set_prev].
      * intros q' y E u Hu. apply app_inj_tail in E as [<- ->]. rewrite fupd_ne; [done|]. intros ->.
        apply elem_of_cons in Ha as [->|Ha]; [|by apply (H12 a)]. by apply NoDup_cons in Hn2 as [? _].
      * intros v Hv. rewrite Eq in Hv. cbn [tail] in Hv. rewrite fupd_ne; [done|]. intros ->.
        destruct l2 as [|y l2]; cbn [app] in Eq; [simplify_eq; set_solver|]. simplify_eq.
        apply NoDup_cons in Hn2 as [? [? ?]%NoDup_cons]. set_solver.
  - apply NoDup_cons. apply NoDup_cons in Hn1 as [? ?]. apply NoDup_cons in Hn2 as [? ?]. split; [set_solver|]. by apply NoDup_app.
  - apply Forall_forall. intros u Hu. apply Hz. set_solver.
  - intros u Hu. cbn [nx pv set_next set_prev]. rewrite !fupd_ne; [done| |]; intros ->; set_solver.
Qed.

Lemma lst_pop_ok s h x l : is_list s h (x :: l) ->
  exists s', lst_pop h s = Ok x s' /\ is_list s' h l /\ only (h :: x :: l) s s'.
Proof.
  intros Hl. destruct (lst_remove_ok s h [] x l Hl) as (s' & E & Hl' & Ho). exists s'. split; [|done].
  destruct (is_list_head _ _ _ Hl) as [Hn _]. destruct Hl as (_ & _ & Hz). inversion Hz as [|? ? _ Hz']; subst. inversion Hz'; subst.
  unfold lst_pop, bind, gets. rewrite Hn. cbn [first_or]. destruct (Z.eqb_spec x 0); [done|]. by rewrite E.
Qed.
