(* ===== verification/Buddy.v ===== *)
(** Buddy allocators: kernel/lib/buddy.c, and the part of kernel/lib/ufkalloc.c that
    repeats it for larger blocks.

    The two files have the same functions over tables of different sizes; the
    functions are written once here, over the sizes [LEAF_SIZE], [NSIZES] and
    [MAX_PAGES], and [Bd] and [Ufk] are the two instances.  A page has for each level
    a bitmap [alloc] (blocks in use or split) and a bitmap [split]; the free blocks of
    a level are linked in a list through their first bytes (KList.v).

    The specification is a binary tree for each page. *)

From S2P Require Import Prelude KList.

(** * Bitmaps *)

(** [map[index/8]] and the mask; [None] outside of the bitmap. *)
Definition mask (index : Z) : Z := u8 (Z.shiftl 1 (index mod 8)).
Definition bit_isset (map : bytes) (index : Z) : option bool :=
  (fun b => Z.land b (mask index) =? mask index) <$> map !! Z.to_nat (index / 8).
Definition bit_set (map : bytes) (index : Z) : option bytes :=
  (fun b => <[Z.to_nat (index / 8) := u8 (Z.lor b (mask index))]> map) <$> map !! Z.to_nat (index / 8).
Definition bit_clear (map : bytes) (index : Z) : option bytes :=
  (fun b => <[Z.to_nat (index / 8) := u8 (Z.land b (Z.lnot (mask index)))]> map) <$> map !! Z.to_nat (index / 8).

(** * The tables *)

Record pagelist := mkpg { pageaddr : Z; alloc : list bytes; split : list bytes }.
Record table := mktab { freelinks : links; plist : list pagelist }.

Section code.
(** The sizes; the address of [freelist[k]]; whether the search for a page stops at
    an unused entry of the table; what lies in memory behind the table. *)
Context (LEAF_SIZE : Z) (NSIZES MAX_PAGES : nat) (freelist : nat -> Z) (stops : bool) (behind : bytes).

Definition MAX_SIZE : nat := NSIZES - 1.
Definition BLK_SIZE (k : nat) : Z := Z.shiftl 1 (Z.of_nat k) * LEAF_SIZE.
Definition HEAP_SIZE : Z := BLK_SIZE MAX_SIZE.

Definition lkM {A} (m : M links A) : M table A := fun s =>
  match m (freelinks s) with
  | Ok a l => Ok a (mktab l (plist s))
  | Panic msg => Panic msg
  | Sleep l => Sleep (mktab l (plist s))
  | OutOfFuel => OutOfFuel
  | Undef => Undef
  end.
Definition get_pg (i : nat) : M table pagelist := fun s =>
  match plist s !! i with Some p => Ok p s | None => Undef end.
Definition put_pg (i : nat) (p : pagelist) : M table unit := modify (fun s => mktab (freelinks s) (<[i := p]> (plist s))).

(** [alloc[k]] and [split[k]] of a page.  Reading [split[NSIZES]] is reading the bytes
    behind the entry: the [pageaddr] of the next one. *)
Definition test_alloc (i k : nat) (index : Z) : M table bool :=
  p ← get_pg i;
  match alloc p !! k ≫= fun r => bit_isset r index with Some b => ret b | None => undef end.
Definition split_row (i k : nat) (s : table) : option bytes :=
  if (k =? NSIZES)%nat then
    match plist s !! S i with Some p => Some (le_enc 8 (pageaddr p)) | None => Some behind end
  else plist s !! i ≫= fun p => split p !! k.
Definition test_split (i k : nat) (index : Z) : M table bool := fun s =>
  match split_row i k s ≫= fun r => bit_isset r index with Some b => Ok b s | None => Undef end.
Definition upd_alloc (f : bytes -> Z -> option bytes) (i k : nat) (index : Z) : M table unit :=
  p ← get_pg i;
  match alloc p !! k ≫= fun r => f r index with
  | Some r => put_pg i (mkpg (pageaddr p) (<[k := r]> (alloc p)) (split p))
  | None => undef
  end.
Definition upd_split (f : bytes -> Z -> option bytes) (i k : nat) (index : Z) : M table unit :=
  p ← get_pg i;
  match split p !! k ≫= fun r => f r index with
  | Some r => put_pg i (mkpg (pageaddr p) (alloc p) (<[k := r]> (split p)))
  | None => undef
  end.

(** * The code *)

(** [bd_init] and [table_init]: empty lists and an empty table. *)
Fixpoint init_lists (n k : nat) : M table unit :=
  match n with
  | O => ret tt
  | S n' => lkM (lst_init (freelist k));; init_lists n' (S k)
  end.
Definition empty_page : pagelist := mkpg 0 (replicate NSIZES (replicate 16 0)) (replicate NSIZES (replicate 16 0)).
Definition bd_init : M table unit :=
  modify (fun s => mktab (freelinks s) (replicate MAX_PAGES empty_page));; init_lists NSIZES 0.

Fixpoint firstk_loop (fuel k : nat) (size n : Z) : option nat :=
  match fuel with
  | O => None
  | S fuel' => if size <? n then firstk_loop fuel' (S k) (s32 (size * 2)) n else Some k
  end.
Definition firstk (n : Z) : option nat := firstk_loop 32 0 LEAF_SIZE n.

(** [get_page_index]; the offset is an [int]. *)
Fixpoint page_index_loop (l : list pagelist) (i : nat) (addr : Z) : option nat :=
  match l with
  | [] => None
  | p :: l' =>
      if stops && (pageaddr p =? 0) then None
      else
        let offset := s32 (addr - pageaddr p) in
        if (0 <=? offset) && (offset <? HEAP_SIZE) then Some i else page_index_loop l' (S i) addr
  end.
Definition get_page_index (addr : Z) : M table (option nat) := gets (fun s => page_index_loop (plist s) 0 addr).

Definition blk_index (k : nat) (p base_addr : Z) : Z := Z.quot (s32 (p - base_addr)) (BLK_SIZE k).

(** [for (k = 0; k < NSIZES; k++)], with [n] rounds left. *)
Fixpoint blk_size_loop (n k pindex : nat) (p base_addr : Z) : M table nat :=
  match n with
  | O => ret (k - 1)%nat
  | S n' =>
      b ← test_split pindex (S k) (blk_index (S k) p base_addr);
      if b then ret k else blk_size_loop n' (S k) pindex p base_addr
  end.
Definition blk_size (p : Z) (pindex : nat) (base_addr : Z) : M table nat := blk_size_loop NSIZES 0 pindex p base_addr.

Definition addr (k : nat) (bi base_addr : Z) : Z := base_addr + s32 (bi * BLK_SIZE k).

(** The first entry of the table that is not used. *)
Fixpoint free_entry (l : list pagelist) (i : nat) : option nat :=
  match l with
  | [] => None
  | p :: l' => if pageaddr p =? 0 then Some i else free_entry l' (S i)
  end.
Definition bd_addpage (p : Z) : M table unit :=
  l ← gets plist;
  match free_entry l 0 with
  | None => panic "[bd_addpage] cannot add new page"
  | Some i =>
      q ← get_pg i;
      put_pg i (mkpg p (alloc q) (split q));;
      lkM (lst_push (freelist MAX_SIZE) p)
  end.

(** The loop of [bd_free], with [n] levels left; the level and the block it ends with. *)
Fixpoint free_loop (n k pindex : nat) (p pbase : Z) : M table (nat * Z) :=
  match n with
  | O => ret (k, p)
  | S n' =>
      let bi := blk_index k p pbase in
      upd_alloc bit_clear pindex k bi;;
      let buddy := if bi mod 2 =? 0 then bi + 1 else bi - 1 in
      b ← test_alloc pindex k buddy;
      if b then ret (k, p)
      else
        let q := addr k buddy pbase in
        lkM (lst_remove q);;
        let p := if buddy mod 2 =? 0 then q else p in
        upd_alloc bit_clear pindex (S k) (blk_index (S k) p pbase);;
        upd_split bit_clear pindex (S k) (blk_index (S k) p pbase);;
        free_loop n' (S k) pindex p pbase
  end.
(** With the page of the block found; [_ufkfree] of ufkalloc.c is this part. *)
Definition free_in (pindex : nat) (p pbase : Z) : M table unit :=
  k ← blk_size p pindex pbase;
  ' (k, p) ← free_loop (MAX_SIZE - k) k pindex p pbase;
  lkM (lst_push (freelist k) p).
Definition bd_free (p : Z) : M table unit :=
  i ← get_page_index p;
  match i with
  | None => undef
  | Some pindex => q ← get_pg pindex; free_in pindex p (pageaddr q)
  end.

(** [for (k = fk; k < NSIZES; k++) if(!lst_empty(...)) break]. *)
Fixpoint find_level (n k : nat) : M table (option nat) :=
  match n with
  | O => ret None
  | S n' =>
      e ← lkM (lst_empty (freelist k));
      if negb e then ret (Some k) else find_level n' (S k)
  end.

(** [for (; k > fk; k--)], [n = k - fk]. *)
Fixpoint split_loop (n k pindex : nat) (p pbase : Z) : M table unit :=
  match n with
  | O => ret tt
  | S n' =>
      let q := p + BLK_SIZE (k - 1) in
      upd_split bit_set pindex k (blk_index k p pbase);;
      upd_alloc bit_set pindex (k - 1) (blk_index (k - 1) p pbase);;
      lkM (lst_push (freelist (k - 1)) q);;
      split_loop n' (k - 1) pindex p pbase
  end.

(** [bd_alloc] and [_ufkalloc]; without a page for the block the first is not
    defined and the second panics: [lost]. *)
Definition bd_alloc (lost : M table Z) (nbytes : Z) : M table Z :=
  match firstk nbytes with
  | None => undef
  | Some fk =>
      r ← find_level (NSIZES - fk) fk;
      match r with
      | None => ret 0
      | Some k =>
          p ← lkM (lst_pop (freelist k));
          if p =? 0 then panic "[bd_alloc] there are no rest memory"
          else
            i ← get_page_index p;
            match i with
            | None => lost
            | Some pindex =>
                g ← get_pg pindex;
                upd_alloc bit_set pindex k (blk_index k p (pageaddr g));;
                split_loop (k - fk) k pindex p (pageaddr g);;
                ret p
            end
      end
  end.
End code.

Example buddy_ex :
  let fl k := 16 * Z.of_nat k + 16 in
  let run :=
    (bd_init 8 128 fl;; bd_addpage 8 fl 2147487744;;
     a ← bd_alloc 32 8 fl false undef 100; b ← bd_alloc 32 8 fl false undef 33; c ← bd_alloc 32 8 fl false undef 4000;
     bd_free 32 8 fl false [] a;; bd_free 32 8 fl false [] b;;
     d ← bd_alloc 32 8 fl false undef 4000; ret (a, b, c, d)) in
  match run (mktab (mklk (fun _ => 0) (fun _ => 0)) []) with Ok r _ => Some r | _ => None end =
  Some (2147487744, 2147487872, 0, 2147487744).
Proof. vm_compute. reflexivity. Qed.
