(* ===== verification/BuddyTree.v ===== *)
(** Binary trees of blocks, and how the bitmaps of a page encode them.

    A block of level [k] with index [j] is the [j]-th of its size in the page.  It is
    free, in use, or split into the blocks [2j] and [2j+1] of level [k-1].  A [Hole] is
    a block that an operation has taken from the free list and not yet given a use. *)

From S2P Require Import Prelude Buddy.

Inductive bt := Free | Used | Hole | Node (l r : bt).

Definition is_free (t : bt) : bool := match t with Free => true | _ => false end.
Definition is_used (t : bt) : bool := match t with Used => true | _ => false end.
Definition is_any (_ : bt) : bool := true.

(** No two free buddies. *)
Fixpoint merged (t : bt) : Prop :=
  match t with
  | Node l r => ~ (l = Free /\ r = Free) /\ merged l /\ merged r
  | _ => True
  end.

(** No holes. *)
Fixpoint solid (t : bt) : Prop :=
  match t with
  | Hole => False
  | Node l r => solid l /\ solid r
  | _ => True
  end.

(** * Bits *)

Definition bit (row : bytes) (i : Z) : bool := Z.testbit (default 0 (row !! Z.to_nat (i / 8))) (i mod 8).
Definition row_ok (row : bytes) : Prop := length row = 16%nat /\ Forall is_byte row.

Lemma mask_eq i : mask i = 2 ^ (i mod 8).
Proof.
  unfold mask. pose proof (Z.mod_pos_bound i 8 ltac:(lia)) as H. rewrite Z.shiftl_1_l. apply u8_small.
  split; [apply Z.pow_nonneg; lia|]. change 256 with (2 ^ 8). apply Z.pow_lt_mono_r; lia.
Qed.

Lemma land_pow2_mask b n : 0 <= n -> (Z.land b (2 ^ n) =? 2 ^ n) = Z.testbit b n.
Proof.
  intros Hn. destruct (Z.testbit b n) eqn:E.
  - apply Z.eqb_eq. apply Z.bits_inj'. intros m Hm. rewrite Z.land_spec, Z.pow2_bits_eqb by lia.
    destruct (Z.eqb_spec n m) as [->|]; [by rewrite E|by rewrite andb_false_r].
  - apply Z.eqb_neq. intros H. apply (f_equal (fun z => Z.testbit z n)) in H.
    rewrite Z.land_spec, Z.pow2_bits_true, E in H by lia. done.
Qed.

Lemma row_at row i : row_ok row -> 0 <= i < 128 -> exists b, row !! Z.to_nat (i / 8) = Some b /\ is_byte b.
Proof.
  intros [Hl Hb] Hi. assert (0 <= i / 8 < 16) by (split; [apply Z.div_pos; lia|apply Z.div_lt_upper_bound; lia]).
  destruct (lookup_lt_is_Some_2 row (Z.to_nat (i / 8))) as [b Hlb]; [lia|]. exists b. split; [done|].
  by apply (Forall_lookup_1 _ _ _ _ Hb Hlb).
Qed.

Lemma bit_isset_ok row i : row_ok row -> 0 <= i < 128 -> bit_isset row i = Some (bit row i).
Proof.
  intros Hr Hi. destruct (row_at row i Hr Hi) as (b & Hb & _). unfold bit_isset, bit. rewrite Hb, mask_eq. cbn.
  f_equal. apply land_pow2_mask. pose proof (Z.mod_pos_bound i 8 ltac:(lia)). lia.
Qed.

(** A row whose byte at [i] is replaced by one that differs in the bit of [i]. *)
Lemma bit_insert row i b b' v : row_ok row -> 0 <= i < 128 -> row !! Z.to_nat (i / 8) = Some b -> is_byte b' ->
  (forall m, 0 <= m < 8 -> Z.testbit b' m = if m =? i mod 8 then v else Z.testbit b m) ->
  row_ok (<[Z.to_nat (i / 8) := b']> row) /\
  forall j, 0 <= j -> bit (<[Z.to_nat (i / 8) := b']> row) j = if j =? i then v else bit row j.
Proof.
  intros [Hl Hby] Hi Hb Hb' Hm. split.
  - split; [by rewrite length_insert|by apply Forall_insert].
  - intros j Hj. unfold bit. pose proof (Z.mod_pos_bound i 8 ltac:(lia)). pose proof (Z.mod_pos_bound j 8 ltac:(lia)).
    pose proof (Z.div_mod i 8 ltac:(lia)). pose proof (Z.div_mod j 8 ltac:(lia)). pose proof (Z.div_pos i 8). pose proof (Z.div_pos j 8).
    destruct (decide (Z.to_nat (j / 8) = Z.to_nat (i / 8))) as [E|E].
    + rewrite E, list_lookup_insert_eq by (by eapply lookup_lt_Some). rewrite Hb. cbn. rewrite Hm by lia.
      destruct (Z.eqb_spec (j mod 8) (i mod 8)), (Z.eqb_spec j i); lia || done.
    + rewrite list_lookup_insert_ne by done. destruct (Z.eqb_spec j i) as [->|]; done.
Qed.

Lemma bit_set_ok row i : row_ok row -> 0 <= i < 128 -> exists row', bit_set row i = Some row' /\ row_ok row' /\
  forall j, 0 <= j -> bit row' j = if j =? i then true else bit row j.
Proof.
  intros Hr Hi. destruct (row_at row i Hr Hi) as (b & Hb & Hby). pose proof (Z.mod_pos_bound i 8 ltac:(lia)) as Hm.
  eexists. unfold bit_set. rewrite Hb. split; [reflexivity|]. apply (bit_insert row i b); [done|done|done|apply u8_range|].
  intros m Hm8. unfold u8, wrap. rewrite Z.mod_pow2_bits_low by lia. rewrite mask_eq, Z.lor_spec, Z.pow2_bits_eqb by lia.
  rewrite (Z.eqb_sym m). destruct (i mod 8 =? m); [by rewrite orb_true_r|by rewrite orb_false_r].
Qed.

Lemma bit_clear_ok row i : row_ok row -> 0 <= i < 128 -> exists row', bit_clear row i = Some row' /\ row_ok row' /\
  forall j, 0 <= j -> bit row' j = if j =? i then false else bit row j.
Proof.
  intros Hr Hi. destruct (row_at row i Hr Hi) as (b & Hb & Hby). pose proof (Z.mod_pos_bound i 8 ltac:(lia)) as Hm.
  eexists. unfold bit_clear. rewrite Hb. split; [reflexivity|]. apply (bit_insert row i b); [done|done|done|apply u8_range|].
  intros m Hm8. unfold u8, wrap. rewrite Z.mod_pow2_bits_low by lia. rewrite mask_eq, Z.land_spec, Z.lnot_spec, Z.pow2_bits_eqb by lia.
  rewrite (Z.eqb_sym m). destruct (i mod 8 =? m); [by rewrite andb_false_r|by rewrite andb_true_r].
Qed.

(** * The encoding *)

Section tree.
Context (MAX : nat).

(** Two families of bits, by level and index. *)
Implicit Types (al sp : nat -> Z -> bool).

(** [(k', j')] is the block [(k, j)] or a part of it. *)
Definition within (k : nat) (j : Z) (k' : nat) (j' : Z) : Prop :=
  (k' <= k)%nat /\ 0 <= j' /\ j' / 2 ^ Z.of_nat (k - k') = j.

(** A block that is not split: no bit of its parts is set.  The split bits of level 0
    have no meaning. *)
Definition whole al sp (k : nat) (j : Z) : Prop :=
  ((0 < k)%nat -> sp k j = false) /\
  forall k' j', within k j k' j' -> (k' < k)%nat -> al k' j' = false /\ ((0 < k')%nat -> sp k' j' = false).

Fixpoint bits al sp (t : bt) (k : nat) (j : Z) : Prop :=
  match t with
  | Free => whole al sp k j /\ ((k < MAX)%nat -> al k j = false)
  | Used => whole al sp k j /\ al k j = true
  | Hole => whole al sp k j
  | Node l r =>
      match k with
      | O => False
      | S k' => al k j = true /\ sp k j = true /\ bits al sp l k' (2 * j) /\ bits al sp r k' (2 * j + 1)
      end
  end.

Lemma within_refl k j : 0 <= j -> within k j k j.
Proof. intros Hj. split; [lia|]. split; [done|]. by rewrite Nat.sub_diag, Z.div_1_r. Qed.

Lemma within_up k j k' j' : within k j k' j' -> within (S k) (j / 2) k' j'.
Proof.
  intros (Hk & Hj & E). split; [lia|]. split; [done|]. replace (Z.of_nat (S k - k')) with (Z.of_nat (k - k') + 1) by lia.
  rewrite Z.pow_add_r, Z.pow_1_r, <-Z.div_div by lia. by rewrite E.
Qed.

Lemma within_left k j k' j' : within k (2 * j) k' j' -> within (S k) j k' j'.
Proof. intros H%within_up. by rewrite Z.mul_comm, Z.div_mul in H by lia. Qed.
Lemma within_right k j k' j' : within k (2 * j + 1) k' j' -> within (S k) j k' j'.
Proof. intros H%within_up. replace ((2 * j + 1) / 2) with j in H; [done|]. apply (Z.div_unique _ _ _ 1); lia. Qed.

(** A part of a block is the block or a part of one of its halves. *)
Lemma within_down k j k' j' : within (S k) j k' j' -> (k' <= k)%nat -> within k (2 * j) k' j' \/ within k (2 * j + 1) k' j'.
Proof.
  intros (_ & Hj & E) Hk. replace (Z.of_nat (S k - k')) with (Z.of_nat (k - k') + 1) in E by lia.
  rewrite Z.pow_add_r, Z.pow_1_r, <-Z.div_div in E by lia. set (d := j' / 2 ^ Z.of_nat (k - k')) in *.
  pose proof (Z.div_mod d 2 ltac:(lia)). pose proof (Z.mod_pos_bound d 2 ltac:(lia)).
  destruct (decide (d = 2 * j)); [left|right]; (split; [lia|]; split; [done|]; fold d; lia).
Qed.

Lemma within_disjoint k j1 j2 k' j' : within k j1 k' j' -> within k j2 k' j' -> j1 = j2.
Proof. intros (_ & _ & <-) (_ & _ & <-). done. Qed.

Definition agree al sp al' sp' (k' : nat) (j' : Z) : Prop := al' k' j' = al k' j' /\ sp' k' j' = sp k' j'.

Lemma whole_ext al sp al' sp' k j : 0 <= j -> (forall k' j', within k j k' j' -> agree al sp al' sp' k' j') ->
  whole al sp k j -> whole al' sp' k j.
Proof.
  intros Hj Ha [H1 H2]. split.
  - intros Hk. destruct (Ha k j (within_refl k j Hj)) as [_ ->]. by apply H1.
  - intros k' j' Hw Hk. destruct (Ha k' j' Hw) as [-> ->]. by apply H2.
Qed.

Lemma bits_ext al sp al' sp' t : forall k j, 0 <= j -> (forall k' j', within k j k' j' -> agree al sp al' sp' k' j') ->
  bits al sp t k j -> bits al' sp' t k j.
Proof.
  induction t as [| | |l IHl r IHr]; intros k j Hj Ha; cbn [bits].
  1-3: destruct (Ha k j (within_refl k j Hj)) as [E _]; rewrite ?E; intuition eauto using whole_ext.
  destruct k as [|k]; [done|]. destruct (Ha (S k) j (within_refl (S k) j Hj)) as [-> ->]. intros (? & ? & Hl & Hr).
  split_and!; [done|done|apply IHl|apply IHr]; try done; try lia; intros; apply Ha; auto using within_left, within_right.
Qed.

(** The split bits of level 0 have no meaning. *)
Lemma bits_above al sp al' sp' t :
  (forall k j, 0 <= j -> al' k j = al k j) -> (forall k j, (0 < k)%nat -> 0 <= j -> sp' k j = sp k j) ->
  forall k j, 0 <= j -> bits al sp t k j -> bits al' sp' t k j.
Proof.
  intros Ha Hs. assert (forall k j, 0 <= j -> whole al sp k j -> whole al' sp' k j) as Hw.
  { intros k j Hj [H1 H2]. split; [intros Hk; rewrite Hs by done; auto|]. intros k' j' Hwi Hk.
    assert (0 <= j') by (by destruct Hwi as (_ & ? & _)). rewrite Ha by done. destruct (H2 k' j' Hwi Hk) as [? H3]. split; [done|].
    intros Hk'. rewrite Hs by done. auto. }
  induction t as [| | |l IHl r IHr]; intros k j Hj; cbn [bits]; [rewrite ?Ha by done; naive_solver..|].
  destruct k as [|k]; [done|]. rewrite Ha, Hs by lia. intros (? & ? & Hl & Hr). split_and!; [done|done|apply IHl|apply IHr]; lia || done.
Qed.

(** * Contexts *)

(** The path from a block to the page: at each step the side of the block and its
    buddy. *)
Definition ctx : Type := list (bool * bt).

Fixpoint plug (c : ctx) (t : bt) : bt :=
  match c with
  | [] => t
  | (d, s) :: c' => plug c' (if d : bool then Node s t else Node t s)
  end.

Fixpoint idx (c : ctx) : Z :=
  match c with
  | [] => 0
  | (d, _) :: c' => 2 * idx c' + (if d : bool then 1 else 0)
  end.

(** The index of the buddy. *)
Definition bud (d : bool) (c : ctx) : Z := 2 * idx c + (if d then 0 else 1).

Fixpoint cbits al sp (c : ctx) (k : nat) : Prop :=
  match c with
  | [] => True
  | (d, s) :: c' => al (S k) (idx c') = true /\ sp (S k) (idx c') = true /\ bits al sp s k (bud d c') /\ cbits al sp c' (S k)
  end.

Lemma idx_nonneg c : 0 <= idx c.
Proof. induction c as [|[[] s] c IH]; cbn [idx]; lia. Qed.

Lemma idx_lt c : idx c < 2 ^ Z.of_nat (length c).
Proof.
  induction c as [|[d s] c IH]; [done|]. cbn [idx length]. rewrite Nat2Z.inj_succ, Z.pow_succ_r by lia. destruct d; lia.
Qed.

Lemma bits_plug al sp c : forall t k, (length c + k = MAX)%nat ->
  bits al sp (plug c t) MAX 0 <-> bits al sp t k (idx c) /\ cbits al sp c k.
Proof.
  induction c as [|[d s] c IH]; intros t k Hk; cbn [plug idx cbits length] in *.
  - replace MAX with k by lia. naive_solver.
  - rewrite (IH _ (S k)) by lia. unfold bud. destruct d; cbn [bits]; rewrite ?Z.add_0_r; naive_solver.
Qed.

Lemma half d c : (2 * idx c + (if d : bool then 1 else 0)) / 2 = idx c.
Proof. symmetry. apply (Z.div_unique _ _ _ (if d then 1 else 0)); destruct d; lia. Qed.

(** The bits of the context lie outside of the block. *)
Lemma cbits_ext al sp al' sp' c : forall k,
  (forall k' j', 0 <= j' -> ~ within k (idx c) k' j' -> agree al sp al' sp' k' j') -> cbits al sp c k -> cbits al' sp' c k.
Proof.
  induction c as [|[d s] c IH]; intros k Ha; [done|]. cbn [cbits idx] in *. pose proof (idx_nonneg c) as Hn.
  assert (agree al sp al' sp' (S k) (idx c)) as [-> ->] by (apply Ha; [lia|]; intros [? _]; lia).
  intros (? & ? & Hb & Hc). split_and!; [done|done| |].
  - revert Hb. apply bits_ext; [unfold bud; destruct d; lia|]. intros k' j' Hw. apply Ha; [by destruct Hw as (_ & ? & _)|].
    intros Hw'. pose proof (within_disjoint _ _ _ _ _ Hw Hw') as E. unfold bud in E. destruct d; lia.
  - revert Hc. apply IH. intros k' j' Hj Hw. apply Ha; [done|]. intros Hw'. apply Hw. rewrite <-(half d c). by apply within_up.
Qed.

Lemma merged_plug c : forall t,
  merged (plug c t) <-> merged t /\ Forall (fun ds => merged ds.2) c /\ match c with (_, Free) :: _ => t <> Free | _ => True end.
Proof.
  induction c as [|[d s] c IH]; intros t; cbn [plug]; [naive_solver|]. rewrite IH, Forall_cons.
  destruct d; cbn [merged snd]; (destruct c as [|[? []] c]; destruct s; naive_solver).
Qed.

Lemma solid_plug c : forall t, solid (plug c t) <-> solid t /\ Forall (fun ds => solid ds.2) c.
Proof.
  induction c as [|[d s] c IH]; intros t; cbn [plug]; [naive_solver|]. rewrite IH, Forall_cons. destruct d; cbn [solid snd]; naive_solver.
Qed.

(** A free block next to a hole shows in the bits. *)
Lemma sibling_free al sp t k j : (k < MAX)%nat -> solid t -> bits al sp t k j -> al k j = false -> t = Free.
Proof. intros Hk Hs Hb Ha. destruct t; [done|..|done|]; cbn in Hb; [naive_solver congruence|]. destruct k; naive_solver congruence. Qed.
End tree.

(** * Blocks *)

(** Pairwise disjoint ranges, [size] of a level being given. *)
Section apart.
Context (size : nat -> Z) (Hsize : forall k, 0 < size k).

Definition disj (x y : nat * Z) : Prop := x.2 + size x.1 <= y.2 \/ y.2 + size y.1 <= x.2.
Fixpoint apart (l : list (nat * Z)) : Prop :=
  match l with
  | [] => True
  | x :: l' => Forall (disj x) l' /\ apart l'
  end.

Lemma disj_sym x y : disj x y -> disj y x.
Proof. unfold disj. lia. Qed.

Lemma apart_app l l' : apart (l ++ l') <-> apart l /\ apart l' /\ Forall (fun x => Forall (disj x) l') l.
Proof.
  induction l as [|x l IH]; cbn [app apart]; [naive_solver|]. rewrite IH, Forall_app, Forall_cons. naive_solver.
Qed.

#[export] Instance apart_perm : Proper ((≡ₚ) ==> iff) apart.
Proof.
  assert (forall l l', l ≡ₚ l' -> apart l -> apart l') as H.
  { induction 1 as [|x l l' Hp IH|x y l|l1 l2 l3 _ IH1 _ IH2]; cbn [apart]; [done| | |auto].
    - intros [Hf Ha]. split; [by rewrite <-Hp|auto].
    - intros (Hf & Hf' & Ha). inversion Hf; subst. split; [|split; [done|done]]. constructor; [by apply disj_sym|done]. }
  intros l l' Hp. split; apply H; [done|by symmetry].
Qed.

Lemma apart_nodup l : apart l -> NoDup (l.*2).
Proof.
  induction l as [|x l IH]; [constructor|]. intros [Hf Ha]. cbn. constructor; [|auto]. intros Hin.
  apply list_elem_of_fmap in Hin as (y & E & Hy). rewrite Forall_forall in Hf. specialize (Hf y Hy). unfold disj in Hf.
  pose proof (Hsize x.1). pose proof (Hsize y.1). lia.
Qed.
End apart.

Section blocks.
Context (LEAF : Z) (Hleaf : 0 < LEAF).
Abbreviation blk := (BLK_SIZE LEAF).

Lemma blk_S k : blk (S k) = 2 * blk k.
Proof. unfold BLK_SIZE. rewrite !Z.shiftl_1_l, Nat2Z.inj_succ, Z.pow_succ_r by lia. lia. Qed.
Lemma blk_pos k : 0 < blk k.
Proof. unfold BLK_SIZE. rewrite Z.shiftl_1_l. pose proof (Z.pow_pos_nonneg 2 (Z.of_nat k)). nia. Qed.
Lemma blk_mono k k' : (k <= k')%nat -> blk k <= blk k'.
Proof. induction 1 as [|m _ IH]; [lia|]. rewrite blk_S. pose proof (blk_pos m). lia. Qed.

(** The leaves that [f] selects, with their levels and addresses. *)
Fixpoint leaves (f : bt -> bool) (t : bt) (k : nat) (b : Z) : list (nat * Z) :=
  match t with
  | Node l r => match k with O => [] | S k' => leaves f l k' b ++ leaves f r k' (b + blk k') end
  | _ => if f t then [(k, b)] else []
  end.

Fixpoint cleaves (f : bt -> bool) (c : ctx) (k : nat) (a : Z) : list (nat * Z) :=
  match c with
  | [] => []
  | (d, s) :: c' => leaves f s k (a + bud d c' * blk k) ++ cleaves f c' (S k) a
  end.

Lemma leaves_plug f c : forall t k a,
  leaves f (plug c t) (length c + k) a ≡ₚ leaves f t k (a + idx c * blk k) ++ cleaves f c k a.
Proof.
  induction c as [|[d s] c IH]; intros t k a; cbn [plug idx cleaves length].
  - cbn. by rewrite app_nil_r, Z.add_0_r.
  - replace (S (length c) + k)%nat with (length c + S k)%nat by lia. rewrite IH, app_assoc. f_equiv.
    rewrite blk_S. unfold bud. destruct d; cbn [leaves].
    + replace (a + (2 * idx c + 1) * blk k) with (a + idx c * (2 * blk k) + blk k) by lia.
      replace (a + (2 * idx c + 0) * blk k) with (a + idx c * (2 * blk k)) by lia. apply Permutation_app_comm.
    + replace (a + (2 * idx c + 1) * blk k) with (a + idx c * (2 * blk k) + blk k) by lia.
      by replace (a + (2 * idx c + 0) * blk k) with (a + idx c * (2 * blk k)) by lia.
Qed.

Lemma leaves_range f t : forall k b x, x ∈ leaves f t k b -> b <= x.2 /\ x.2 + blk x.1 <= b + blk k /\ (x.1 <= k)%nat.
Proof.
  induction t as [| | |l IHl r IHr]; intros k b x; cbn [leaves].
  1-3: destruct (f _); [|by intros ?%elem_of_nil]; intros ->%list_elem_of_singleton; cbn; lia.
  destruct k as [|k]; [by intros ?%elem_of_nil|]. rewrite blk_S. pose proof (blk_pos k).
  intros [H1|H1]%elem_of_app; [apply IHl in H1|apply IHr in H1]; lia.
Qed.

Lemma leaves_apart f t : forall k b, apart blk (leaves f t k b).
Proof.
  induction t as [| | |l IHl r IHr]; intros k b; cbn [leaves].
  1-3: destruct (f _); cbn; [split; [constructor|done]|done].
  destruct k as [|k]; [done|]. apply apart_app. split; [apply IHl|]. split; [apply IHr|].
  apply Forall_forall. intros x Hx. apply Forall_forall. intros y Hy. apply leaves_range in Hx, Hy. left. lia.
Qed.

(** The selected leaves are among all leaves. *)
Lemma leaves_any f t : forall k b, leaves f t k b ⊆ leaves is_any t k b.
Proof.
  induction t as [| | |l IHl r IHr]; intros k b; cbn [leaves is_any]; [destruct (f _); set_solver..|].
  destruct k as [|k]; [done|]. pose proof (IHl k b). pose proof (IHr k (b + blk k)). set_solver.
Qed.

Lemma cleaves_any f c : forall k a, cleaves f c k a ⊆ cleaves is_any c k a.
Proof.
  induction c as [|[d s] c IH]; intros k a; cbn [cleaves]; [done|]. pose proof (leaves_any f s k (a + bud d c * blk k)).
  pose proof (IH (S k) a). set_solver.
Qed.

(** Trees that fit under level [k]. *)
Fixpoint fits (t : bt) (k : nat) : Prop :=
  match t with
  | Node l r => match k with O => False | S k' => fits l k' /\ fits r k' end
  | _ => True
  end.

Lemma bits_fits MAX al sp t : forall k j, bits MAX al sp t k j -> fits t k.
Proof.
  induction t as [| | |l IHl r IHr]; intros k j; [done..|]. cbn. destruct k as [|k]; [done|]. naive_solver.
Qed.

Lemma plug_snoc c d s t : plug (c ++ [(d, s)]) t = if d then Node s (plug c t) else Node (plug c t) s.
Proof. revert t. induction c as [|[d' s'] c IH]; intros t; cbn [app plug]; [done|]. apply IH. Qed.

Lemma idx_snoc c d s : idx (c ++ [(d, s)]) = idx c + (if d : bool then 2 ^ Z.of_nat (length c) else 0).
Proof.
  induction c as [|[d' s'] c IH]; cbn [app idx length]; [destruct d; lia|]. rewrite IH, Nat2Z.inj_succ, Z.pow_succ_r by lia.
  destruct d, d'; lia.
Qed.

Lemma blk_pow n k : 2 ^ Z.of_nat n * blk k = blk (n + k).
Proof.
  induction n as [|n IH]; [cbn; lia|]. rewrite Nat2Z.inj_succ, Z.pow_succ_r by lia. cbn [Nat.add]. rewrite blk_S, <-IH. lia.
Qed.

(** A selected leaf in its context. *)
Lemma leaf_ctx f t : forall K a k x, fits t K -> (k, x) ∈ leaves f t K a ->
  exists c u, t = plug c u /\ f u = true /\ (forall l r, u <> Node l r) /\ (length c + k = K)%nat /\ x = a + idx c * blk k.
Proof.
  induction t as [| | |l IHl r IHr]; intros K a k x Hfit; cbn [leaves].
  1-3: destruct (f _) eqn:E; [|by intros ?%elem_of_nil];
    intros H%list_elem_of_singleton; injection H as -> ->; eexists [], _; cbn; (split; [done|]); split_and!; [done|done|done|lia].
  destruct K as [|K]; [done|]. destruct Hfit as [Hfl Hfr]. intros [H|H]%elem_of_app.
  - destruct (IHl K a k x Hfl H) as (c & u & -> & Hu & Hn & Hl & ->). exists (c ++ [(false, r)]), u.
    rewrite plug_snoc, idx_snoc, length_app. cbn [length]. split_and!; [done|done|done|lia|lia].
  - destruct (IHr K _ k x Hfr H) as (c & u & -> & Hu & Hn & Hl & ->). exists (c ++ [(true, l)]), u.
    rewrite plug_snoc, idx_snoc, length_app. cbn [length]. split_and!; [done|done|done|lia|].
    rewrite Z.mul_add_distr_r, blk_pow. rewrite Hl. lia.
Qed.
End blocks.
