(* ===== verification/BuddySpec.v ===== *)
(** The buddy allocators of Buddy.v against trees of blocks (BuddyTree.v): what
    [bd_alloc] hands out is disjoint from all that is in use, and [bd_free] gives back
    exactly the block and joins it with its free buddies. *)

From S2P Require Import Prelude KList Buddy BuddyTree.

(** * The free lists *)

Definition at_level (k : nat) (L : list (nat * Z)) : list Z := (filter (fun x => x.1 = k) L).*2.

Lemma elem_at_level k L x : x ∈ at_level k L <-> (k, x) ∈ L.
Proof.
  unfold at_level. rewrite list_elem_of_fmap. split.
  - intros ([k' x'] & -> & H). apply list_elem_of_filter in H as [E H]. cbn in E. by subst.
  - intros H. exists (k, x). split; [done|]. by apply list_elem_of_filter.
Qed.

Lemma at_level_cons_eq k x L : at_level k ((k, x) :: L) = x :: at_level k L.
Proof. unfold at_level. by rewrite filter_cons_True. Qed.
Lemma at_level_cons_ne k k' x L : k' <> k -> at_level k' ((k, x) :: L) = at_level k' L.
Proof. intros H. unfold at_level. by rewrite filter_cons_False. Qed.
#[export] Instance at_level_perm k : Proper ((≡ₚ) ==> (≡ₚ)) (at_level k).
Proof. intros L L' H. unfold at_level. by rewrite H. Qed.

Section lists.
Context (NSIZES : nat) (freelist : nat -> Z).
Context (Hinj : forall k k', (k < NSIZES)%nat -> (k' < NSIZES)%nat -> freelist k = freelist k' -> k = k').

Definition good (L : list (nat * Z)) : Prop :=
  NoDup (L.*2) /\ Forall (fun x => x.2 <> 0 /\ forall k, (k < NSIZES)%nat -> freelist k <> x.2) L.

(** The list of each level has the blocks of [L] of that level. *)
Definition lists_ok (s : links) (L : list (nat * Z)) : Prop :=
  exists F, forall k, (k < NSIZES)%nat -> is_list s (freelist k) (F k) /\ F k ≡ₚ at_level k L.

#[export] Instance good_perm : Proper ((≡ₚ) ==> iff) good.
Proof. intros L L' H. unfold good. by rewrite H. Qed.
#[export] Instance lists_ok_perm s : Proper ((≡ₚ) ==> iff) (lists_ok s).
Proof.
  intros L L' H. unfold lists_ok. split; intros [F HF]; exists F; intros k Hk; destruct (HF k Hk); (split; [done|]).
  - by rewrite <-H.
  - by rewrite H.
Qed.

Lemma good_tail x L : good (x :: L) -> good L.
Proof. intros [Hn Hf]. inversion Hn; inversion Hf; subst. done. Qed.

(** Two levels share no nodes. *)
Lemma levels_disjoint L k k' (F : nat -> list Z) : good L -> k <> k' -> (k < NSIZES)%nat -> (k' < NSIZES)%nat -> F k ≡ₚ at_level k L -> F k' ≡ₚ at_level k' L ->
  forall u, u ∈ (freelist k' :: F k') -> u ∉ (freelist k :: F k).
Proof.
  intros [Hn Hf] Hne Hkn Hkn' Hk Hk' u Hu Hu'. rewrite Forall_forall in Hf.
  assert (forall l y, y ∈ F l -> F l ≡ₚ at_level l L -> (l, y) ∈ L) as Hin.
  { intros l y Hy Hp. rewrite Hp in Hy. by apply elem_at_level. }
  apply elem_of_cons in Hu as [->|Hu]; apply elem_of_cons in Hu' as [E|Hu'].
  - by apply Hinj in E.
  - specialize (Hin k _ Hu' Hk). apply Hf in Hin as [_ Hin]. by apply (Hin k').
  - subst. specialize (Hin k' _ Hu Hk'). apply Hf in Hin as [_ Hin]. by apply (Hin k).
  - pose proof (Hin k _ Hu' Hk) as H1. pose proof (Hin k' _ Hu Hk') as H2.
    apply list_elem_of_lookup in H1 as [i Hi]. apply list_elem_of_lookup in H2 as [j Hj].
    assert (i = j) as ->.
    { apply (NoDup_lookup (L.*2) i j u Hn); rewrite list_lookup_fmap; [by rewrite Hi|by rewrite Hj]. }
    congruence.
Qed.

Definition fset (F : nat -> list Z) (k : nat) (l : list Z) (k' : nat) : list Z := if decide (k' = k) then l else F k'.

(** The lists after the one of level [k] has changed. *)
Lemma lists_change s s' L L' (F : nat -> list Z) k l :
  (forall k, (k < NSIZES)%nat -> is_list s (freelist k) (F k) /\ F k ≡ₚ at_level k L) ->
  is_list s' (freelist k) l -> l ≡ₚ at_level k L' -> (forall k', k' <> k -> at_level k' L ≡ₚ at_level k' L') ->
  (exists D, only D s s' /\ forall k' u, (k' < NSIZES)%nat -> k' <> k -> u ∈ (freelist k' :: F k') -> u ∉ D) ->
  lists_ok s' L'.
Proof.
  intros HF Hl Hp Ho (D & HD & Hdis). exists (fset F k l). intros k' Hk'. unfold fset. destruct (decide (k' = k)) as [->|Hne]; [done|].
  destruct (HF k' Hk') as [H1 H2]. split; [|by rewrite <-Ho]. eapply is_list_frame; [exact HD| |exact H1]. intros u Hu. by eapply Hdis.
Qed.

Lemma lists_push s L k x : lists_ok s L -> good ((k, x) :: L) -> (k < NSIZES)%nat ->
  exists s', lst_push (freelist k) x s = Ok tt s' /\ lists_ok s' ((k, x) :: L).
Proof.
  intros [F HF] Hg Hk. pose proof (good_tail _ _ Hg) as Hg'. destruct Hg as [Hn Hf]. inversion Hn as [|? ? Hni _]; subst.
  inversion Hf as [|? ? [Hx0 Hxh] _]; subst. cbn [snd] in *. destruct (HF k Hk) as [Hl Hp].
  assert (forall k' y, (k' < NSIZES)%nat -> y ∈ F k' -> y <> x) as Hfx.
  { intros k' y Hk' Hy ->. apply Hni. destruct (HF k' Hk') as [_ Hp']. rewrite Hp', elem_at_level in Hy.
    apply list_elem_of_fmap. by exists (k', x). }
  destruct (lst_push_ok s (freelist k) (F k) x Hl) as (s' & E & Hl' & Ho); [|done|].
  { intros [->|Hx]%elem_of_cons; [by apply (Hxh k)|]. by apply (Hfx k x Hk Hx). }
  exists s'. split; [done|]. apply (lists_change s s' L _ F k (x :: F k) HF Hl').
  - by rewrite at_level_cons_eq, Hp.
  - intros k' Hne. by rewrite at_level_cons_ne.
  - exists (x :: freelist k :: F k). split; [done|]. intros k' u Hk' Hne Hu Hu'.
    apply elem_of_cons in Hu' as [->|Hu'].
    + apply elem_of_cons in Hu as [E'|Hu]; [by apply (Hxh k')|]. by apply (Hfx k' x Hk' Hu).
    + destruct (HF k' Hk') as [_ Hp']. by apply (levels_disjoint L k k' F Hg' ltac:(done) Hk Hk' Hp Hp' u Hu).
Qed.

Lemma lists_remove s L k x : lists_ok s ((k, x) :: L) -> good ((k, x) :: L) -> (k < NSIZES)%nat ->
  exists s', lst_remove x s = Ok tt s' /\ lists_ok s' L.
Proof.
  intros [F HF] Hg Hk. destruct (HF k Hk) as [Hl Hp]. rewrite at_level_cons_eq in Hp.
  assert (x ∈ F k) as Hx by (rewrite Hp; by left). apply list_elem_of_split in Hx as (l1 & l2 & E). rewrite E in Hl, Hp.
  destruct (lst_remove_ok s _ _ _ _ Hl) as (s' & Er & Hl' & Ho). exists s'. split; [done|].
  apply (lists_change s s' ((k, x) :: L) L F k (l1 ++ l2) HF Hl').
  - rewrite <-Permutation_middle in Hp. by apply Permutation_cons_inv in Hp.
  - intros k' Hne. by rewrite at_level_cons_ne.
  - exists (freelist k :: l1 ++ x :: l2). split; [done|]. intros k' u Hk' Hne Hu. rewrite <-E.
    destruct (HF k Hk) as [_ Hpk]. destruct (HF k' Hk') as [_ Hpk']. by apply (levels_disjoint ((k, x) :: L) k k' F Hg ltac:(done) Hk Hk' Hpk Hpk').
Qed.

Lemma lists_pop s L k : lists_ok s L -> good L -> (k < NSIZES)%nat -> at_level k L <> [] ->
  exists x L' s', lst_pop (freelist k) s = Ok x s' /\ L ≡ₚ (k, x) :: L' /\ lists_ok s' L'.
Proof.
  intros [F HF] Hg Hk Hne. destruct (HF k Hk) as [Hl Hp]. destruct (F k) as [|x l] eqn:EF.
  { by apply Permutation_nil in Hp. }
  assert ((k, x) ∈ L) as Hx by (apply elem_at_level; rewrite <-Hp; by left).
  apply elem_of_Permutation in Hx as [L' HL]. destruct (lst_pop_ok s _ _ _ Hl) as (s' & Er & Hl' & Ho).
  exists x, L', s'. split; [done|]. split; [done|]. apply (lists_change s s' L L' F k l HF Hl').
  - rewrite HL, at_level_cons_eq in Hp. by apply Permutation_cons_inv in Hp.
  - intros k' Hne'. by rewrite HL, at_level_cons_ne.
  - exists (freelist k :: x :: l). split; [done|]. intros k' u Hk' Hne' Hu. rewrite <-EF.
    destruct (HF k Hk) as [_ Hpk]. destruct (HF k' Hk') as [_ Hpk']. by apply (levels_disjoint L k k' F Hg ltac:(done) Hk Hk' Hpk Hpk').
Qed.

Lemma lists_empty s L k : lists_ok s L -> (k < NSIZES)%nat -> lst_empty (freelist k) s = Ok (bool_decide (at_level k L = [])) s.
Proof.
  intros [F HF] Hk. destruct (HF k Hk) as [Hl Hp]. rewrite (lst_empty_ok _ _ _ Hl). f_equal. apply bool_decide_ext. split; intros E.
  - rewrite E in Hp. by apply Permutation_nil in Hp.
  - rewrite E in Hp. by apply Permutation_nil_r in Hp.
Qed.
End lists.

(** * The pages *)

Section spec.
Context (LEAF : Z) (NSIZES MAX_PAGES : nat) (freelist : nat -> Z) (stops : bool) (behind : bytes).
(** The memory that the pages come from. *)
Context (lo hi : Z).
Abbreviation MAX := (MAX_SIZE NSIZES).
Abbreviation blk := (BLK_SIZE LEAF).
Abbreviation HEAP := (HEAP_SIZE LEAF NSIZES).

Class Sizes : Prop := {
  sz_leaf : 0 < LEAF;
  sz_levels : (1 <= NSIZES <= 8)%nat;
  sz_heap : HEAP <= 2 ^ 30;
  sz_mem : 0 < lo /\ hi - lo <= 2 ^ 31;
  sz_behind : Forall is_byte behind /\ behind <> [];
  sz_heads : forall k, (k < NSIZES)%nat -> freelist k <> 0;
  sz_inj : forall k k', (k < NSIZES)%nat -> (k' < NSIZES)%nat -> freelist k = freelist k' -> k = k';
  sz_apart : forall k, (k < NSIZES)%nat -> ~ lo <= freelist k < hi }.
Context `{HS : Sizes}.

Lemma MAX_lt : (MAX < NSIZES)%nat /\ (MAX <= 7)%nat.
Proof. unfold MAX_SIZE. pose proof sz_levels. lia. Qed.

Definition al (p : pagelist) (k : nat) (j : Z) : bool := bit (default [] (alloc p !! k)) j.
Definition sp (p : pagelist) (k : nat) (j : Z) : bool := bit (default [] (split p !! k)) j.
Record page_ok (p : pagelist) : Prop := {
  pk_alloc : length (alloc p) = NSIZES /\ Forall row_ok (alloc p);
  pk_split : length (split p) = NSIZES /\ Forall row_ok (split p) }.

(** [f] gives the bit of an index the value [v]. *)
Definition gives (f : bytes -> Z -> option bytes) (v : bool) : Prop :=
  forall row i, row_ok row -> 0 <= i < 128 ->
  exists row', f row i = Some row' /\ row_ok row' /\ forall j, 0 <= j -> bit row' j = if j =? i then v else bit row j.

(** The family of bits with one changed. *)
Definition with_bit (b : nat -> Z -> bool) (k : nat) (j : Z) (v : bool) (k' : nat) (j' : Z) : bool :=
  if decide (k' = k /\ j' = j) then v else b k' j'.

Lemma rows_upd (rows : list bytes) k row row' i v : rows !! k = Some row -> (forall j, 0 <= j -> bit row' j = if j =? i then v else bit row j) ->
  forall k' j', 0 <= j' ->
  bit (default [] (<[k := row']> rows !! k')) j' = with_bit (fun k j => bit (default [] (rows !! k)) j) k i v k' j'.
Proof.
  intros Hr Hb k' j' Hj. unfold with_bit. destruct (decide (k' = k)) as [->|Hne].
  - rewrite list_lookup_insert_eq by (by eapply lookup_lt_Some). rewrite Hr. cbn. rewrite Hb by done.
    destruct (Z.eqb_spec j' i), (decide (k = k /\ j' = i)); naive_solver.
  - rewrite list_lookup_insert_ne by done. rewrite decide_False by naive_solver. done.
Qed.

Lemma upd_alloc_ok f v i k j s p : gives f v -> plist s !! i = Some p -> page_ok p -> (k < NSIZES)%nat -> 0 <= j < 128 ->
  exists p', upd_alloc f i k j s = Ok tt (mktab (freelinks s) (<[i := p']> (plist s))) /\ page_ok p' /\ pageaddr p' = pageaddr p /\
    (forall k' j', 0 <= j' -> al p' k' j' = with_bit (al p) k j v k' j') /\ (forall k' j', sp p' k' j' = sp p k' j').
Proof.
  intros Hf Hp [[Hla Hra] Hsp] Hk Hj. destruct (lookup_lt_is_Some_2 (alloc p) k) as [row Hrow]; [lia|].
  destruct (Hf row j) as (row' & E & Hok' & Hb); [by apply (Forall_lookup_1 _ _ _ _ Hra Hrow)|done|].
  exists (mkpg (pageaddr p) (<[k := row']> (alloc p)) (split p)). split; [|split; [|split; [done|split; [|done]]]].
  - unfold upd_alloc, bind, get_pg. rewrite Hp, Hrow. cbn. by rewrite E.
  - split; [|done]. cbn. split; [by rewrite length_insert|by apply Forall_insert].
  - by apply (rows_upd _ _ row).
Qed.

Lemma upd_split_ok f v i k j s p : gives f v -> plist s !! i = Some p -> page_ok p -> (k < NSIZES)%nat -> 0 <= j < 128 ->
  exists p', upd_split f i k j s = Ok tt (mktab (freelinks s) (<[i := p']> (plist s))) /\ page_ok p' /\ pageaddr p' = pageaddr p /\
    (forall k' j', al p' k' j' = al p k' j') /\ (forall k' j', 0 <= j' -> sp p' k' j' = with_bit (sp p) k j v k' j').
Proof.
  intros Hf Hp [Hal [Hla Hra]] Hk Hj. destruct (lookup_lt_is_Some_2 (split p) k) as [row Hrow]; [lia|].
  destruct (Hf row j) as (row' & E & Hok' & Hb); [by apply (Forall_lookup_1 _ _ _ _ Hra Hrow)|done|].
  exists (mkpg (pageaddr p) (alloc p) (<[k := row']> (split p))). split; [|split; [|split; [done|split; [done|]]]].
  - unfold upd_split, bind, get_pg. rewrite Hp, Hrow. cbn. by rewrite E.
  - split; [done|]. cbn. split; [by rewrite length_insert|by apply Forall_insert].
  - by apply (rows_upd _ _ row).
Qed.

Lemma test_alloc_ok i k j s p : plist s !! i = Some p -> page_ok p -> (k < NSIZES)%nat -> 0 <= j < 128 ->
  test_alloc i k j s = Ok (al p k j) s.
Proof.
  intros Hp [[Hla Hra] _] Hk Hj. destruct (lookup_lt_is_Some_2 (alloc p) k) as [row Hrow]; [lia|].
  unfold test_alloc, bind, get_pg, al. rewrite Hp, Hrow. cbn.
  by rewrite bit_isset_ok by (done || apply (Forall_lookup_1 _ _ _ _ Hra Hrow)).
Qed.

(** The read behind the bitmaps of the entry gives some bit. *)
Lemma test_split_ok i k j s p : plist s !! i = Some p -> page_ok p -> (k < NSIZES)%nat -> 0 <= j < 128 ->
  test_split NSIZES behind i k j s = Ok (sp p k j) s.
Proof.
  intros Hp [_ [Hla Hra]] Hk Hj. destruct (lookup_lt_is_Some_2 (split p) k) as [row Hrow]; [lia|].
  unfold test_split, split_row, sp. destruct (Nat.eqb_spec k NSIZES); [lia|]. rewrite Hp. cbn. rewrite Hrow. cbn.
  by rewrite bit_isset_ok by (done || apply (Forall_lookup_1 _ _ _ _ Hra Hrow)).
Qed.

Lemma test_split_behind i s : exists b, test_split NSIZES behind i NSIZES 0 s = Ok b s.
Proof.
  unfold test_split, split_row. rewrite Nat.eqb_refl. destruct (plist s !! S i) as [p|].
  - by eexists.
  - destruct sz_behind as [_ Hne]. destruct behind as [|b l]; [done|]. by eexists.
Qed.

(** * The table *)

(** A page of the table and its tree. *)
Definition page_rep (p : pagelist) (at_ : Z * bt) : Prop :=
  pageaddr p = at_.1 /\ page_ok p /\ bits MAX (al p) (sp p) at_.2 MAX 0 /\ merged at_.2.

Definition all_leaves (f : bt -> bool) (P : list (Z * bt)) : list (nat * Z) := P ≫= fun x => leaves LEAF f x.2 MAX x.1.

(** The pages lie in the memory, apart from each other. *)
Fixpoint placed (l : list Z) : Prop :=
  match l with
  | [] => True
  | a :: l' => lo <= a /\ a + HEAP <= hi /\ Forall (fun b => a + HEAP <= b \/ b + HEAP <= a) l' /\ placed l'
  end.

Record tinv (s : table) (P : list (Z * bt)) : Prop := {
  ti_pages : exists ps, plist s = ps ++ replicate (MAX_PAGES - length P) (empty_page NSIZES) /\ Forall2 page_rep ps P;
  ti_room : (length P <= MAX_PAGES)%nat;
  ti_placed : placed (P.*1);
  ti_lists : lists_ok NSIZES freelist (freelinks s) (all_leaves is_free P) }.

Lemma all_leaves_app f P Q : all_leaves f (P ++ Q) = all_leaves f P ++ all_leaves f Q.
Proof. apply bind_app. Qed.
Lemma all_leaves_cons f x P : all_leaves f (x :: P) = leaves LEAF f x.2 MAX x.1 ++ all_leaves f P.
Proof. done. Qed.

Lemma HEAP_blk : HEAP = blk MAX.
Proof. done. Qed.

Lemma all_leaves_in f P x : x ∈ all_leaves f P -> exists a t, (a, t) ∈ P /\ x ∈ leaves LEAF f t MAX a.
Proof. unfold all_leaves. intros H%list_elem_of_bind. destruct H as ([a t] & ? & ?). by exists a, t. Qed.

Lemma placed_in l a : placed l -> a ∈ l -> lo <= a /\ a + HEAP <= hi.
Proof. induction l as [|b l IH]; intros H Hin; [by apply elem_of_nil in Hin|]. destruct H as (? & ? & _ & ?). apply elem_of_cons in Hin as [->|]; auto. Qed.

Lemma placed_snoc l a : placed l -> lo <= a -> a + HEAP <= hi -> Forall (fun b => a + HEAP <= b \/ b + HEAP <= a) l -> placed (l ++ [a]).
Proof.
  intros Hp Hlo Hhi Hf. induction l as [|b l IH]; cbn [app placed]; [by split_and!|].
  destruct Hp as (? & ? & Hfb & Hp). inversion Hf as [|? ? Hab Hf']; subst. split_and!; [done|done| |by apply IH].
  apply Forall_app. split; [done|]. constructor; [lia|constructor].
Qed.

Lemma block_in_page f P x : placed (P.*1) -> x ∈ all_leaves f P -> exists a, a ∈ P.*1 /\ a <= x.2 /\ x.2 + blk x.1 <= a + HEAP /\ (x.1 <= MAX)%nat.
Proof.
  intros Hp (a & t & Hin & Hx)%all_leaves_in. apply (leaves_range LEAF sz_leaf) in Hx. exists a. split; [|by rewrite HEAP_blk].
  apply list_elem_of_fmap. by exists (a, t).
Qed.

Lemma all_apart f P : placed (P.*1) -> apart blk (all_leaves f P).
Proof.
  induction P as [|[a t] P IH]; [done|]. cbn [fmap list_fmap fst placed]. intros (Ha & Hh & Hf & Hp). rewrite all_leaves_cons.
  apply apart_app. split; [apply (leaves_apart LEAF sz_leaf)|]. split; [by apply IH|].
  apply Forall_forall. intros x Hx. apply Forall_forall. intros y Hy. apply (leaves_range LEAF sz_leaf) in Hx. cbn [fst] in Hx.
  destruct (block_in_page _ _ _ Hp Hy) as (b & Hb & Hy'). rewrite Forall_forall in Hf. specialize (Hf b Hb).
  rewrite HEAP_blk in *. unfold disj. pose proof (blk_pos LEAF sz_leaf x.1). pose proof (blk_pos LEAF sz_leaf y.1). lia.
Qed.

Lemma all_good f P : placed (P.*1) -> good NSIZES freelist (all_leaves f P).
Proof.
  intros Hp. split; [by apply (apart_nodup blk (blk_pos LEAF sz_leaf)), all_apart|].
  apply Forall_forall. intros x Hx. destruct (block_in_page _ _ _ Hp Hx) as (a & Ha & Hx'). destruct (placed_in _ _ Hp Ha).
  pose proof (blk_pos LEAF sz_leaf x.1). pose proof sz_mem. split; [lia|]. intros k Hk E. apply (sz_apart k Hk). lia.
Qed.

(** ** One page of the table *)

Section page.
Context (P1 P2 : list (Z * bt)) (a : Z).
Abbreviation here := (length P1).
Definition forest (t : bt) : list (Z * bt) := P1 ++ (a, t) :: P2.
(** The other leaves, when the block of level [k] is in the context [c]. *)
Definition others (f : bt -> bool) (c : ctx) (k : nat) : list (nat * Z) := cleaves LEAF f c k a ++ all_leaves f P1 ++ all_leaves f P2.

Lemma forest_leaves f c k t : (length c + k = MAX)%nat ->
  all_leaves f (forest (plug c t)) ≡ₚ leaves LEAF f t k (a + idx c * blk k) ++ others f c k.
Proof.
  intros Hk. unfold forest, others. rewrite all_leaves_app, all_leaves_cons. cbn [fst snd]. rewrite <-Hk, leaves_plug.
  by rewrite Permutation_app_swap_app, <-app_assoc.
Qed.

Lemma forest_placed t t' : placed ((forest t).*1) -> placed ((forest t').*1).
Proof. unfold forest. by rewrite !fmap_app. Qed.

Lemma page_lookup s t : tinv s (forest t) -> exists p, plist s !! here = Some p /\ page_rep p (a, t).
Proof.
  intros [(ps & E & Hf) _ _ _]. unfold forest in Hf. apply Forall2_app_inv_r in Hf as (ps1 & ps2 & Hf1 & Hf2 & ->).
  apply Forall2_cons_inv_r in Hf2 as (p & ps3 & Hp & _ & ->). exists p. split; [|done].
  rewrite E, <-app_assoc. apply Forall2_length in Hf1. rewrite <-Hf1. by apply list_lookup_middle.
Qed.

Lemma tinv_upd s t p' s' t' : tinv s (forest t) -> page_rep p' (a, t') ->
  lists_ok NSIZES freelist s' (all_leaves is_free (forest t')) ->
  tinv (mktab s' (<[here := p']> (plist s))) (forest t').
Proof.
  intros [(ps & E & Hf) Hr Hpl _] Hp Hl. unfold forest in Hf, Hr. rewrite length_app in Hr. split.
  - apply Forall2_app_inv_r in Hf as (ps1 & ps2 & Hf1 & Hf2 & ->).
    apply Forall2_cons_inv_r in Hf2 as (p & ps3 & _ & Hf3 & ->). exists (ps1 ++ p' :: ps3). cbn [plist]. split.
    + rewrite E, <-!app_assoc. apply Forall2_length in Hf1. rewrite <-Hf1, insert_app_r_alt, Nat.sub_diag by lia. cbn.
      unfold forest. by rewrite !length_app.
    + by apply Forall2_app; [|constructor].
  - unfold forest. by rewrite length_app.
  - by eapply forest_placed.
  - done.
Qed.

Lemma page_of_block s t x : tinv s (forest t) -> a <= x < a + HEAP ->
  get_page_index LEAF NSIZES stops x s = Ok (Some here) s.
Proof.
  intros [(ps & E & Hf) _ Hpl _] Hx. unfold get_page_index, gets. f_equal. rewrite E.
  assert (forall (Q : list (Z * bt)) qs rest i, Forall2 page_rep qs (Q ++ (a, t) :: P2) -> placed ((Q ++ (a, t) :: P2).*1) ->
    page_index_loop LEAF NSIZES stops (qs ++ rest) i x = Some (i + length Q)%nat) as H.
  { intros Q. induction Q as [|[b u] Q IH]; intros qs rest i Hq Hp; apply Forall2_cons_inv_r in Hq as (p & qs' & Hp' & Hq' & ->);
      cbn [app page_index_loop fmap list_fmap fst placed] in *; destruct Hp as (Hlo & Hhi & Hfar & Hp);
      destruct Hp' as (Hpa & _); cbn [fst] in Hpa; rewrite Hpa; pose proof sz_mem.
    - destruct (Z.eqb_spec a 0); [lia|]. rewrite andb_false_r. rewrite s32_small by lia.
      destruct (Z.leb_spec 0 (x - a)), (Z.ltb_spec (x - a) HEAP); try lia. cbn. f_equal. lia.
    - destruct (Z.eqb_spec b 0); [lia|]. rewrite andb_false_r. assert (a ∈ (Q ++ (a, t) :: P2).*1) as Hin.
      { rewrite fmap_app. apply elem_of_app. right. by left. }
      destruct (placed_in _ _ Hp Hin). rewrite Forall_forall in Hfar. specialize (Hfar a Hin).
      pose proof (blk_pos LEAF sz_leaf MAX) as Hpos. rewrite <-HEAP_blk in Hpos.
      rewrite s32_small by lia. replace ((0 <=? x - b) && (x - b <? HEAP)) with false.
      + rewrite (IH qs' rest (S i) Hq' Hp). f_equal. cbn. lia.
      + symmetry. apply andb_false_iff. lia. }
  rewrite (H P1 ps _ O Hf Hpl). done.
Qed.

(** ** Steps on one block *)

(** The position of a block. *)
Lemma idx_bound c k : (length c + k = MAX)%nat -> 0 <= idx c < 128 /\ idx c * blk k + blk k <= HEAP /\ (k <= MAX)%nat.
Proof.
  intros Hk. pose proof (idx_nonneg c). pose proof (idx_lt c) as Hi. pose proof MAX_lt.
  assert (2 ^ Z.of_nat (length c) <= 2 ^ 7) by (apply Z.pow_le_mono_r; lia).
  split; [change (2 ^ 7) with 128 in *; lia|]. split; [|lia]. rewrite HEAP_blk, <-Hk, <-blk_pow by apply sz_leaf.
  pose proof (blk_pos LEAF sz_leaf k). nia.
Qed.

Lemma s32_off x : 0 <= x <= HEAP -> s32 x = x.
Proof. intros H. apply s32_small. pose proof sz_heap. change (2 ^ 30) with 1073741824 in *. lia. Qed.

Lemma blk_index_at c k : (length c + k = MAX)%nat -> blk_index LEAF k (a + idx c * blk k) a = idx c.
Proof.
  intros Hk. destruct (idx_bound c k Hk) as (H1 & H2 & _). pose proof (blk_pos LEAF sz_leaf k) as Hp. unfold blk_index.
  replace (a + idx c * blk k - a) with (idx c * blk k) by lia. rewrite s32_off by nia. apply Z.quot_mul. lia.
Qed.

(** The index of the block that contains it, one level up. *)
Lemma blk_index_up c d s k : (length ((d, s) :: c) + k = MAX)%nat ->
  blk_index LEAF (S k) (a + idx ((d, s) :: c) * blk k) a = idx c.
Proof.
  intros Hk. destruct (idx_bound _ _ Hk) as (H1 & H2 & _). pose proof (blk_pos LEAF sz_leaf k) as Hp. unfold blk_index.
  replace (a + idx ((d, s) :: c) * blk k - a) with (idx ((d, s) :: c) * blk k) by lia.
  rewrite s32_off by nia. rewrite blk_S by apply sz_leaf. rewrite Z.quot_div_nonneg by nia.
  rewrite (Z.mul_comm 2). rewrite (Z.mul_comm (idx _)), Z.div_mul_cancel_l by lia. cbn [idx]. apply half.
Qed.

(** A change of the bits of one block. *)
Lemma focus_rep p p' c k t t' : (length c + k = MAX)%nat -> page_rep p (a, plug c t) -> page_ok p' -> pageaddr p' = pageaddr p ->
  (forall k' j', 0 <= j' -> ~ within k (idx c) k' j' -> agree (al p) (sp p) (al p') (sp p') k' j') ->
  bits MAX (al p') (sp p') t' k (idx c) -> merged (plug c t') -> page_rep p' (a, plug c t').
Proof.
  intros Hk (Hpa & Hok & Hb & Hm) Hok' Hpa' Hag Hb' Hm'. split; [cbn in *; congruence|]. split; [done|]. split; [|done]. cbn [snd] in *.
  apply (bits_plug MAX _ _ c _ k) in Hb as [_ Hc]; [|done]. apply (bits_plug MAX _ _ c _ k); [done|]. split; [done|].
  by apply (cbits_ext MAX (al p) (sp p)).
Qed.

Lemma focus_bits p c k t : (length c + k = MAX)%nat -> page_rep p (a, plug c t) -> bits MAX (al p) (sp p) t k (idx c) /\ cbits MAX (al p) (sp p) c k.
Proof. intros Hk (_ & _ & Hb & _). by apply (bits_plug MAX _ _ c _ k) in Hb. Qed.

Lemma with_bit_ne b k j v k' j' : ~ (k' = k /\ j' = j) -> with_bit b k j v k' j' = b k' j'.
Proof. intros H. unfold with_bit. by rewrite decide_False. Qed.
Lemma with_bit_eq b k j v : with_bit b k j v k j = v.
Proof. unfold with_bit. by rewrite decide_True. Qed.

Lemma not_within_self k j k' j' : 0 <= j -> ~ within k j k' j' -> ~ (k' = k /\ j' = j).
Proof. intros Hj Hw [-> ->]. apply Hw. by apply within_refl. Qed.

(** The bit of a whole block does not count for it being whole. *)
Lemma whole_self (b b' s s' : nat -> Z -> bool) k j : 0 <= j ->
  (forall k' j', 0 <= j' -> ~ (k' = k /\ j' = j) -> b' k' j' = b k' j') -> (forall k' j', 0 <= j' -> s' k' j' = s k' j') ->
  whole b s k j -> whole b' s' k j.
Proof.
  intros Hj Hb Hs [H1 H2]. split; [intros Hk; rewrite Hs by done; auto|]. intros k' j' Hw Hk. destruct (H2 k' j' Hw Hk) as [Ha Hsp].
  assert (0 <= j') by (by destruct Hw as (_ & ? & _)). rewrite Hb, Hs by (done || lia). done.
Qed.

(** [alloc] of the block is set or cleared. *)
Lemma step_alloc f v s c k t t' : gives f v -> (length c + k = MAX)%nat -> tinv s (forest (plug c t)) ->
  (forall b sp, bits MAX b sp t k (idx c) -> whole b sp k (idx c)) ->
  (forall b sp, whole b sp k (idx c) -> b k (idx c) = v -> bits MAX b sp t' k (idx c)) ->
  merged (plug c t') -> leaves LEAF is_free t' k (a + idx c * blk k) = leaves LEAF is_free t k (a + idx c * blk k) ->
  exists s', upd_alloc f here k (idx c) s = Ok tt s' /\ tinv s' (forest (plug c t')) /\
    exists p, plist s' !! here = Some p /\ al p k (idx c) = v.
Proof.
  intros Hf Hk Hinv Hw Hb Hm Hl. destruct (page_lookup _ _ Hinv) as (p & Hp & Hrep). destruct (idx_bound c k Hk) as (Hi & _ & Hkm).
  pose proof MAX_lt as [Hlt _]. pose proof Hrep as (_ & Hok & _).
  destruct (upd_alloc_ok f v here k (idx c) s p Hf Hp Hok) as (p' & E & Hok' & Hpa & Hal & Hsp); [lia|lia|].
  destruct (focus_bits p c k t Hk Hrep) as [Hbits _]. eexists. split; [exact E|].
  assert (al p' k (idx c) = v) as Hv by (rewrite Hal by lia; apply with_bit_eq). split.
  - apply (tinv_upd s (plug c t)); [done| |].
    + apply (focus_rep p p' c k t); [done|done|done|done| |apply Hb; [|done]|done].
      * intros k' j' Hj Hnw. split; [|by rewrite Hsp]. rewrite Hal by done. apply with_bit_ne. apply not_within_self; [lia|done].
      * apply (whole_self (al p) _ (sp p)); [lia| | |by apply Hw].
        -- intros k' j' Hj Hne. rewrite Hal by done. by apply with_bit_ne.
        -- intros k' j' _. by rewrite Hsp.
    + destruct Hinv as [_ _ _ Hlists]. rewrite (forest_leaves _ c k) in Hlists |- * by done. by rewrite Hl.
  - exists p'. split; [|done]. cbn [plist]. rewrite list_lookup_insert_eq; [done|]. by eapply lookup_lt_Some.
Qed.

Lemma lkM_ok {A} (m : M links A) s x l : m (freelinks s) = Ok x l -> lkM m s = Ok x (mktab l (plist s)).
Proof. intros E. unfold lkM. by rewrite E. Qed.

(** A hole becomes a free block, at the front of its list. *)
Lemma step_push s c k : (length c + k = MAX)%nat -> tinv s (forest (plug c Hole)) ->
  ((k < MAX)%nat -> exists p, plist s !! here = Some p /\ al p k (idx c) = false) ->
  match c with (_, Free) :: _ => False | _ => True end ->
  exists s', lkM (lst_push (freelist k) (a + idx c * blk k)) s = Ok tt s' /\ tinv s' (forest (plug c Free)).
Proof.
  intros Hk Hinv Hal Hsib. pose proof MAX_lt as [Hlt _]. destruct (page_lookup _ _ Hinv) as (p & Hp & Hrep).
  pose proof Hinv as [_ _ Hpl Hlists]. rewrite (forest_leaves _ c k) in Hlists by done. cbn [leaves is_free app] in Hlists.
  assert (good NSIZES freelist ((k, a + idx c * blk k) :: others is_free c k)) as Hg.
  { pose proof (all_good is_free _ (forest_placed _ (plug c Free) Hpl)) as Hg. by rewrite (forest_leaves _ c k) in Hg. }
  destruct (lists_push NSIZES freelist sz_inj (freelinks s) _ k _ Hlists Hg) as (l & E & Hl); [lia|].
  exists (mktab l (plist s)). split; [by apply lkM_ok|].
  rewrite <-(list_insert_id (plist s) here p Hp). apply (tinv_upd s (plug c Hole)); [done| |].
  - pose proof Hrep as (Hpa & Hok & _ & Hm). apply (focus_rep p p c k Hole); [done|done|done|done|done| |].
    + destruct (focus_bits p c k Hole Hk Hrep) as [Hw _]. split; [exact Hw|]. intros Hkm. destruct (Hal Hkm) as (p' & Hp' & Hv).
      by simplify_eq.
    + cbn [snd] in Hm. rewrite merged_plug in Hm |- *. destruct Hm as (_ & Hc & _). split; [done|]. split; [done|].
      by destruct c as [|[d []] c].
  - by rewrite (forest_leaves _ c k).
Qed.

(** The front block of a list becomes a hole. *)
Lemma step_take s c k l : (length c + k = MAX)%nat -> tinv s (forest (plug c Free)) ->
  lists_ok NSIZES freelist l (others is_free c k) -> tinv (mktab l (plist s)) (forest (plug c Hole)).
Proof.
  intros Hk Hinv Hl. destruct (page_lookup _ _ Hinv) as (p & Hp & Hrep). rewrite <-(list_insert_id (plist s) here p Hp).
  apply (tinv_upd s (plug c Free)); [done| |by rewrite (forest_leaves _ c k)].
  pose proof Hrep as (Hpa & Hok & _ & Hm). apply (focus_rep p p c k Free); [done|done|done|done|done| |].
  - destruct (focus_bits p c k Free Hk Hrep) as [[Hw _] _]. exact Hw.
  - cbn [snd] in Hm. rewrite merged_plug in Hm |- *. destruct Hm as (_ & Hc & _). split; [done|]. split; [done|].
    by destruct c as [|[d []] c].
Qed.

(** Parts of a whole block are whole, and their bits are clear. *)
Lemma whole_part (b s : nat -> Z -> bool) k j k' j' : whole b s k j -> within k j k' j' -> (k' < k)%nat -> whole b s k' j' /\ b k' j' = false.
Proof.
  intros [_ H2] Hw Hk. destruct (H2 k' j' Hw Hk) as [Ha Hs]. split; [|done]. split; [done|].
  intros k2 j2 (Hk2 & Hj2 & E2) Hlt. apply H2; [|lia]. destruct Hw as (Hk' & Hj' & E'). split; [lia|]. split; [done|].
  replace (Z.of_nat (k - k2)) with (Z.of_nat (k' - k2) + Z.of_nat (k - k')) by lia.
  rewrite Z.pow_add_r, <-Z.div_div by lia. by rewrite E2.
Qed.

(** A block whose halves are whole and not in use is whole. *)
Lemma whole_join (b s : nat -> Z -> bool) k j :
  whole b s k (2 * j) -> b k (2 * j) = false -> whole b s k (2 * j + 1) -> b k (2 * j + 1) = false ->
  s (S k) j = false -> whole b s (S k) j.
Proof.
  intros Hw1 Hb1 Hw2 Hb2 Hs. split; [done|]. intros k' j' Hw Hk.
  assert (forall h, whole b s k h -> b k h = false -> within k h k' j' -> b k' j' = false /\ ((0 < k')%nat -> s k' j' = false)) as Hhalf.
  { intros h [Hs' Hp'] Hb' Hin. destruct (decide (k' = k)) as [->|Hne].
    - destruct Hin as (_ & _ & E). rewrite Nat.sub_diag, Z.div_1_r in E. by subst.
    - apply Hp'; [done|]. lia. }
  destruct (within_down _ _ _ _ Hw ltac:(lia)); eauto.
Qed.

Lemma upd_here s l p q : plist s !! here = Some p ->
  plist (mktab l (<[here := q]> (plist s))) !! here = Some q /\
  mktab l (<[here := p]> (plist s)) = mktab l (plist s) /\
  forall l' p', mktab l' (<[here := p']> (plist (mktab l (<[here := q]> (plist s))))) = mktab l' (<[here := p']> (plist s)).
Proof.
  intros Hp. cbn [plist]. rewrite list_lookup_insert_eq by (by eapply lookup_lt_Some).
  split; [done|]. split; [by rewrite list_insert_id|]. intros l' p'. by rewrite list_insert_insert_eq.
Qed.

(** The page's bitmaps change and the free lists do not. *)
Lemma step_bits s p p' c k t t' : (length c + k = MAX)%nat -> tinv s (forest (plug c t)) -> plist s !! here = Some p ->
  page_rep p (a, plug c t) -> page_ok p' -> pageaddr p' = pageaddr p ->
  (forall k' j', 0 <= j' -> ~ within k (idx c) k' j' -> agree (al p) (sp p) (al p') (sp p') k' j') ->
  bits MAX (al p') (sp p') t' k (idx c) -> merged (plug c t') ->
  leaves LEAF is_free t' k (a + idx c * blk k) = leaves LEAF is_free t k (a + idx c * blk k) ->
  tinv (mktab (freelinks s) (<[here := p']> (plist s))) (forest (plug c t')).
Proof.
  intros Hk Hinv Hp Hrep Hok Hpa Hag Hb Hm Hl. apply (tinv_upd s (plug c t)); [done| |].
  - by apply (focus_rep p p' c k t).
  - destruct Hinv as [_ _ _ Hlists]. rewrite (forest_leaves _ c k) in Hlists |- * by done. by rewrite Hl.
Qed.

Lemma merged_swap c t t' : merged (plug c t) -> merged t' -> t' <> Free -> merged (plug c t').
Proof. rewrite !merged_plug. intros (_ & Hc & _) Ht Hf. split; [done|]. split; [done|]. by destruct c as [|[d []] c]. Qed.

Lemma within_l k j : 0 <= j -> within (S k) j k (2 * j).
Proof. intros Hj. apply within_left, within_refl. lia. Qed.
Lemma within_r k j : 0 <= j -> within (S k) j k (2 * j + 1).
Proof. intros Hj. apply within_right, within_refl. lia. Qed.

(** Bits of the levels above, and [alloc] of the block itself, do not count. *)
Lemma whole_frame (b b' s s' : nat -> Z -> bool) k j : 0 <= j ->
  (forall k' j', (k' < k)%nat -> 0 <= j' -> b' k' j' = b k' j') -> (forall k' j', (k' <= k)%nat -> 0 <= j' -> s' k' j' = s k' j') ->
  whole b s k j -> whole b' s' k j.
Proof.
  intros Hj Hb Hs [H1 H2]. split; [intros Hk; rewrite Hs by lia; auto|]. intros k' j' Hw Hk. destruct (H2 k' j' Hw Hk) as [Ha Hsp].
  assert (0 <= j') by (by destruct Hw as (_ & ? & _)). rewrite Hb, Hs by lia. done.
Qed.

Lemma gives_set : gives bit_set true.
Proof. intros row i. apply bit_set_ok. Qed.
Lemma gives_clear : gives bit_clear false.
Proof. intros row i. apply bit_clear_ok. Qed.

(** A round of the loop of [bd_alloc]: a block in use is split, its left half is in
    use and its right half is free. *)
Lemma step_split s c k : (length c + S k = MAX)%nat -> tinv s (forest (plug c Used)) ->
  exists s1 s2 s3, upd_split bit_set here (S k) (idx c) s = Ok tt s1 /\ upd_alloc bit_set here k (2 * idx c) s1 = Ok tt s2 /\
    lkM (lst_push (freelist k) (a + (2 * idx c + 1) * blk k)) s2 = Ok tt s3 /\
    tinv s3 (forest (plug ((false, Free) :: c) Used)).
Proof.
  intros Hk Hinv. destruct (page_lookup _ _ Hinv) as (p & Hp & Hrep). destruct (idx_bound c (S k) Hk) as (Hi & _ & Hkm).
  assert (length ((true, Used) :: c) + k = MAX)%nat as Hk' by (cbn; lia).
  destruct (idx_bound _ _ Hk') as (Hi' & _ & _). cbn [idx] in Hi'. pose proof MAX_lt as [Hlt _]. pose proof Hrep as (_ & Hok & _ & Hm).
  destruct (upd_split_ok bit_set true here (S k) (idx c) s p gives_set Hp Hok) as (p1 & E1 & Hok1 & Hpa1 & Hal1 & Hsp1); [lia|lia|].
  destruct (upd_here s (freelinks s) p p1 Hp) as (Hp1 & _ & Hins).
  destruct (upd_alloc_ok bit_set true here k (2 * idx c) _ p1 gives_set Hp1 Hok1) as (p2 & E2 & Hok2 & Hpa2 & Hal2 & Hsp2); [lia|lia|].
  rewrite Hins in E2. cbn [freelinks] in E2.
  destruct (focus_bits p c (S k) Used Hk Hrep) as [[Hw Ha] _].
  destruct (whole_part _ _ _ _ k (2 * idx c) Hw) as [Hw1 Hf1]; [apply within_l, idx_nonneg|lia|].
  destruct (whole_part _ _ _ _ k (2 * idx c + 1) Hw) as [Hw2 Hf2]; [apply within_r, idx_nonneg|lia|].
  assert (forall k' j', 0 <= j' -> al p2 k' j' = with_bit (al p) k (2 * idx c) true k' j') as Hal.
  { intros k' j' Hj. rewrite Hal2 by done. unfold with_bit. by rewrite Hal1. }
  assert (forall k' j', 0 <= j' -> sp p2 k' j' = with_bit (sp p) (S k) (idx c) true k' j') as Hsp.
  { intros k' j' Hj. by rewrite Hsp2, Hsp1. }
  assert (tinv (mktab (freelinks s) (<[here := p2]> (plist s))) (forest (plug ((true, Used) :: c) Hole))) as Hinv2.
  { apply (step_bits s p p2 c (S k) Used (Node Used Hole)); [done|done|done|done|done|congruence| | |by eapply merged_swap; [exact Hm|cbn; naive_solver|done]|done].
    - intros k' j' Hj Hnw. split.
      + rewrite Hal by done. apply with_bit_ne. intros [-> ->]. apply Hnw. apply within_l, idx_nonneg.
      + rewrite Hsp by done. apply with_bit_ne. apply not_within_self; [lia|done].
    - cbn [bits]. rewrite (Hal (S k)), (Hsp (S k)), (Hal k), with_bit_ne, with_bit_eq, with_bit_eq by lia. split_and!; [done|done| |done|].
      + revert Hw1. by apply whole_frame; [lia| |]; intros k' j' Hlt' Hj; rewrite ?Hal, ?Hsp by done; apply with_bit_ne; lia.
      + revert Hw2. by apply whole_frame; [lia| |]; intros k' j' Hlt' Hj; rewrite ?Hal, ?Hsp by done; apply with_bit_ne; lia. }
  destruct (upd_here s (freelinks s) p p2 Hp) as (Hp2 & _ & _).
  destruct (step_push _ ((true, Used) :: c) k Hk' Hinv2) as (s3 & E3 & Hinv3); [|done|].
  { intros _. exists p2. split; [done|]. cbn [idx]. rewrite Hal by lia. rewrite with_bit_ne by lia. done. }
  cbn [idx] in E3. eexists _, _, s3. split_and!; [exact E1|exact E2|exact E3|exact Hinv3].
Qed.

Lemma idx_other d s s' c : idx ((negb d, s) :: c) = bud d c /\ bud (negb d) c = idx ((d, s') :: c).
Proof. unfold bud. cbn [idx]. by destruct d. Qed.

Lemma plug_other d s t c : plug ((d, s) :: c) t = plug ((negb d, t) :: c) s.
Proof. by destruct d. Qed.

(** A round of the loop of [bd_free]: the free buddy is taken from its list and the
    two are one block. *)
Lemma step_merge s p c d k : (length ((d, Free) :: c) + k = MAX)%nat -> tinv s (forest (plug ((d, Free) :: c) Hole)) ->
  plist s !! here = Some p -> al p k (idx ((d, Free) :: c)) = false ->
  exists s1 s2 s3, lkM (lst_remove (a + bud d c * blk k)) s = Ok tt s1 /\ upd_alloc bit_clear here (S k) (idx c) s1 = Ok tt s2 /\
    upd_split bit_clear here (S k) (idx c) s2 = Ok tt s3 /\ tinv s3 (forest (plug c Hole)).
Proof.
  intros Hk Hinv Hp Hself. pose proof MAX_lt as [Hlt _]. assert (length c + S k = MAX)%nat as Hk' by (cbn in Hk; lia).
  destruct (idx_bound c (S k) Hk') as (Hi & _ & Hkm). destruct (page_lookup _ _ Hinv) as (p0 & Hp0 & Hrep0). simplify_eq.
  rewrite plug_other in Hinv. destruct (idx_other d Hole Free c) as [Eb Eb'].
  assert (length ((negb d, Hole) :: c) + k = MAX)%nat as Hk2 by (cbn in Hk |- *; lia).
  pose proof Hinv as [_ _ Hpl Hlists]. rewrite (forest_leaves _ ((negb d, Hole) :: c) k) in Hlists by done. cbn [leaves is_free app] in Hlists. rewrite Eb in Hlists.
  assert (good NSIZES freelist ((k, a + bud d c * blk k) :: others is_free ((negb d, Hole) :: c) k)) as Hg.
  { pose proof (all_good is_free _ Hpl) as Hg. rewrite (forest_leaves _ ((negb d, Hole) :: c) k) in Hg by done. by rewrite <-Eb. }
  destruct (lists_remove NSIZES freelist sz_inj _ _ _ _ Hlists Hg) as (l & E1 & Hl); [lia|].
  pose proof (step_take s _ k l Hk2 Hinv Hl) as Hinv1. cbn [plug] in Hinv1.
  destruct (page_lookup _ _ Hinv1) as (p1 & Hp1 & Hrep1). cbn [plist] in Hp1. rewrite Hp in Hp1. injection Hp1 as <-.
  destruct (focus_bits p _ k Hole Hk Hrep0) as [Hw1 (_ & _ & [Hw2 Hf2] & _)]. specialize (Hf2 ltac:(lia)). cbn [bits] in Hw1.
  pose proof Hrep1 as (_ & Hok & _ & Hm).
  destruct (upd_alloc_ok bit_clear false here (S k) (idx c) (mktab l (plist s)) p gives_clear Hp Hok) as (p2 & E2 & Hok2 & Hpa2 & Hal2 & Hsp2); [lia|lia|].
  destruct (upd_here (mktab l (plist s)) l p p2 Hp) as (Hp2 & _ & Hins).
  destruct (upd_split_ok bit_clear false here (S k) (idx c) _ p2 gives_clear Hp2 Hok2) as (p3 & E3 & Hok3 & Hpa3 & Hal3 & Hsp3); [lia|lia|].
  rewrite Hins in E3. cbn [freelinks] in E2, E3.
  eexists _, _, _. split; [by apply lkM_ok|]. split; [exact E2|]. split; [exact E3|].
  assert (forall k' j', 0 <= j' -> al p3 k' j' = with_bit (al p) (S k) (idx c) false k' j') as Hal.
  { intros k' j' Hj. by rewrite Hal3, Hal2. }
  assert (forall k' j', 0 <= j' -> sp p3 k' j' = with_bit (sp p) (S k) (idx c) false k' j') as Hsp.
  { intros k' j' Hj. rewrite Hsp3 by done. unfold with_bit. by rewrite Hsp2. }
  apply (step_bits (mktab l (plist s)) p p3 c (S k) (if negb d then Node Hole Hole else Node Hole Hole) Hole);
    [done|done|done|done|done|congruence| | |by eapply merged_swap|by destruct d].
  - intros k' j' Hj Hnw. split; [rewrite Hal by done|rewrite Hsp by done]; apply with_bit_ne; (apply not_within_self; [lia|done]).
  - cbn [bits]. unfold bud in *. cbn [idx] in *.
    assert (forall j, 0 <= j -> whole (al p) (sp p) k j -> whole (al p3) (sp p3) k j) as Hkeep.
    { intros j Hj. by apply whole_frame; [lia| |]; intros k' j' Hlt' Hj'; rewrite ?Hal, ?Hsp by done; apply with_bit_ne; lia. }
    destruct d; cbn [negb] in *; rewrite ?Z.add_0_r in *; (apply whole_join;
      [apply Hkeep; [lia|done]|rewrite Hal by lia; by rewrite with_bit_ne by lia|apply Hkeep; [lia|done]|rewrite Hal by lia; by rewrite with_bit_ne by lia|]);
      (rewrite Hsp by lia; apply with_bit_eq).
Qed.

(** ** The loops *)

Lemma bud_bound d s c k : (length ((d, s) :: c) + k = MAX)%nat -> 0 <= bud d c < 128 /\ bud d c * blk k + blk k <= HEAP.
Proof.
  intros Hk. destruct (idx_other d Hole s c) as [<- _]. destruct (idx_bound ((negb d, Hole) :: c) k) as (? & ? & _); [|done].
  by cbn in Hk |- *.
Qed.

Lemma split_loop_ok n : forall k c s, (n <= k)%nat -> (length c + k = MAX)%nat -> tinv s (forest (plug c Used)) ->
  Forall (fun ds => solid ds.2) c ->
  exists s' c', split_loop LEAF freelist n k here (a + idx c * blk k) a s = Ok tt s' /\ tinv s' (forest (plug c' Used)) /\
    Forall (fun ds => solid ds.2) c' /\ (length c' + (k - n) = MAX)%nat /\ idx c' * blk (k - n) = idx c * blk k /\
    others is_used c' (k - n) = others is_used c k.
Proof.
  induction n as [|n IH]; intros k c s Hn Hk Hinv Hs.
  { exists s, c. rewrite Nat.sub_0_r. by split_and!. }
  destruct k as [|k]; [lia|]. cbn [split_loop]. replace (S k - 1)%nat with k by lia.
  assert (length ((false, Free) :: c) + k = MAX)%nat as Hk' by (cbn; lia).
  assert (idx c * blk (S k) = idx ((false, Free) :: c) * blk k) as E by (cbn [idx]; rewrite blk_S by apply sz_leaf; lia).
  rewrite (blk_index_at c (S k) Hk). rewrite E, (blk_index_at _ k Hk').
  destruct (step_split s c k Hk Hinv) as (s1 & s2 & s3 & E1 & E2 & E3 & Hinv3).
  destruct (IH k ((false, Free) :: c) s3) as (s' & c' & E' & Hinv' & Hs' & Hl' & Hi' & Ho'); [lia|done|done|by constructor|].
  exists s', c'. split; [|by split_and!].
  unfold bind. rewrite E1. cbn [idx]. rewrite Z.add_0_r. rewrite E2.
  replace (a + 2 * idx c * blk k + blk k) with (a + (2 * idx c + 1) * blk k) by lia. rewrite E3.
  cbn [idx] in E'. rewrite Z.add_0_r in E'. exact E'.
Qed.

Lemma step_forget s c k t : (length c + k = MAX)%nat -> tinv s (forest (plug c Used)) -> t = Hole -> tinv s (forest (plug c t)).
Proof.
  intros Hk Hinv ->. destruct (page_lookup _ _ Hinv) as (p & Hp & Hrep).
  destruct (upd_here s (freelinks s) p p Hp) as (_ & E & _).
  destruct s as [l ps]. cbn [freelinks plist] in *. rewrite <-E.
  pose proof Hrep as (_ & Hok & _ & Hm). destruct (focus_bits p c k Used Hk Hrep) as [[Hw _] _].
  apply (step_bits (mktab l ps) p p c k Used Hole); try done. by eapply merged_swap.
Qed.

(** What [step_push] needs. *)
Definition ready (s : table) (c : ctx) (k : nat) : Prop :=
  ((k < MAX)%nat -> exists p, plist s !! here = Some p /\ al p k (idx c) = false) /\ match c with (_, Free) :: _ => False | _ => True end.

Lemma parity x (d : bool) : ((2 * x + (if d then 1 else 0)) mod 2 =? 0) = negb d.
Proof. rewrite Z.add_comm, (Z.mul_comm 2), Z.mod_add by lia. by destruct d. Qed.

Lemma free_loop_ok n : forall k c s, (length c = n)%nat -> (length c + k = MAX)%nat -> tinv s (forest (plug c Hole)) ->
  Forall (fun ds => solid ds.2) c ->
  exists s' k' c', free_loop LEAF n k here (a + idx c * blk k) a s = Ok (k', a + idx c' * blk k') s' /\
    tinv s' (forest (plug c' Hole)) /\ Forall (fun ds => solid ds.2) c' /\ (length c' + k' = MAX)%nat /\ ready s' c' k' /\
    others is_used c' k' = others is_used c k.
Proof.
  induction n as [|n IH]; intros k c s Hn Hk Hinv Hs.
  { destruct c; [|done]. exists s, k, []. split_and!; try done. split; [|done]. cbn in Hk. intros Hlt. exfalso. lia. }
  destruct c as [|[d t] c]; [done|]. inversion Hs as [|? ? Ht Hsc]; subst. cbn [snd] in Ht. cbn [free_loop].
  rewrite (blk_index_at _ k Hk). set (j := idx ((d, t) :: c)) in *.
  destruct (bud_bound d t c k Hk) as [Hb1 Hb2].
  replace (if j mod 2 =? 0 then j + 1 else j - 1) with (bud d c).
  2: { unfold j, bud. cbn [idx]. rewrite parity. destruct d; cbn [negb]; lia. }
  pose proof MAX_lt as [Hlt _]. assert (k < MAX)%nat as Hkm by (cbn in Hk; lia).
  destruct (step_alloc bit_clear false s ((d, t) :: c) k Hole Hole gives_clear Hk Hinv) as (s1 & E1 & Hinv1 & p & Hp & Ha); [done|by intros b sp' Hw _| |done|].
  { destruct (page_lookup _ _ Hinv) as (p & _ & _ & _ & _ & Hm). exact Hm. }
  fold j in E1, Ha. destruct (page_lookup _ _ Hinv1) as (p0 & Hp0 & Hrep). rewrite Hp in Hp0. injection Hp0 as <-.
  pose proof Hrep as (_ & Hok & _). unfold bind at 1. rewrite E1. unfold bind at 1.
  rewrite (test_alloc_ok here k (bud d c) s1 p Hp Hok) by lia.
  destruct (focus_bits p _ k Hole Hk Hrep) as [_ (_ & _ & Hbt & _)].
  destruct (al p k (bud d c)) eqn:Eb.
  - exists s1, k, ((d, t) :: c). split_and!; try done. split; [intros _; by exists p|]. destruct t; try done.
    destruct Hbt as [_ Hbt]. specialize (Hbt Hkm). congruence.
  - assert (t = Free) as -> by (by eapply sibling_free).
    destruct (step_merge s1 p c d k Hk Hinv1 Hp Ha) as (s2 & s3 & s4 & E2 & E3 & E4 & Hinv4).
    assert (length c + S k = MAX)%nat as Hk' by (cbn in Hk; lia).
    destruct (IH (S k) c s4) as (s' & k' & c' & E' & Hinv' & Hs' & Hl' & Hr' & Ho'); [by injection Hn|done|done|done|].
    exists s', k', c'. split; [|by split_and!].
    assert (addr LEAF k (bud d c) a = a + bud d c * blk k) as Eaddr.
    { unfold addr. rewrite s32_off; [done|]. pose proof (blk_pos LEAF sz_leaf k). nia. }
    rewrite Eaddr. unfold bind. rewrite E2.
    replace (if bud d c mod 2 =? 0 then a + bud d c * blk k else a + j * blk k) with (a + idx c * blk (S k)).
    2: { destruct (idx_other d Hole Free c) as [<- _]. unfold j. cbn [idx]. rewrite parity, negb_involutive.
         rewrite blk_S by apply sz_leaf. destruct d; cbn [negb]; lia. }
    rewrite (blk_index_at c (S k) Hk'). rewrite E3, E4. exact E'.
Qed.

(** ** The level of a block in use *)

Lemma blk_index_low c k k' : (length c + k = MAX)%nat -> (k' <= k)%nat ->
  blk_index LEAF k' (a + idx c * blk k) a = idx c * 2 ^ Z.of_nat (k - k').
Proof.
  intros Hk Hle. destruct (idx_bound c k Hk) as (H1 & H2 & _). pose proof (blk_pos LEAF sz_leaf k). pose proof (blk_pos LEAF sz_leaf k').
  unfold blk_index. replace (a + idx c * blk k - a) with (idx c * blk k) by lia. rewrite s32_off by nia.
  replace (blk k) with (2 ^ Z.of_nat (k - k') * blk k') by (rewrite blk_pow by apply sz_leaf; f_equal; lia).
  rewrite Z.mul_assoc. apply Z.quot_mul. lia.
Qed.

Lemma within_first k j k' : 0 <= j -> (k' <= k)%nat -> within k j k' (j * 2 ^ Z.of_nat (k - k')).
Proof. intros Hj Hk. split; [done|]. split; [nia|]. apply Z.div_mul. pose proof (Z.pow_pos_nonneg 2 (Z.of_nat (k - k'))). lia. Qed.

Lemma idx_low c k k' : (length c + k = MAX)%nat -> (k' <= k)%nat -> 0 <= idx c * 2 ^ Z.of_nat (k - k') < 128.
Proof.
  intros Hk Hle. pose proof (idx_nonneg c). pose proof (idx_lt c). pose proof MAX_lt.
  assert (2 ^ Z.of_nat (length c) * 2 ^ Z.of_nat (k - k') <= 2 ^ 7).
  { rewrite <-Z.pow_add_r by lia. apply Z.pow_le_mono_r; lia. }
  pose proof (Z.pow_pos_nonneg 2 (Z.of_nat (k - k'))). change (2 ^ 7) with 128 in *. nia.
Qed.

Lemma blk_size_ok s c k : (length c + k = MAX)%nat -> tinv s (forest (plug c Used)) ->
  blk_size LEAF NSIZES behind (a + idx c * blk k) here a s = Ok k s.
Proof.
  intros Hk Hinv. destruct (page_lookup _ _ Hinv) as (p & Hp & Hrep). pose proof Hrep as (_ & Hok & _). pose proof MAX_lt as [Hlt _].
  destruct (focus_bits p c k Used Hk Hrep) as [[[Hw1 Hw2] _] Hc]. pose proof (idx_nonneg c) as Hn. unfold blk_size.
  enough (forall n k', (n + k' = NSIZES)%nat -> (k' <= k)%nat ->
    blk_size_loop LEAF NSIZES behind n k' here (a + idx c * blk k) a s = Ok k s) as H by (apply H; lia).
  induction n as [|n IH]; intros k' Hnk Hle; [lia|]. cbn [blk_size_loop]. destruct (decide (k' = k)) as [->|Hne].
  - destruct c as [|[d t] c].
    + cbn [length Nat.add idx] in *. replace (S k) with NSIZES by (unfold MAX_SIZE in *; lia).
      replace (blk_index LEAF NSIZES _ a) with 0 by (unfold blk_index; rewrite Z.mul_0_l, Z.add_0_r, Z.sub_diag; by rewrite s32_off, Z.quot_0_l by (pose proof (blk_pos LEAF sz_leaf NSIZES); pose proof (blk_pos LEAF sz_leaf MAX); rewrite ?HEAP_blk; lia)).
      unfold bind. destruct (test_split_behind here s) as [b ->]. destruct b; [done|]. destruct n as [|n]; [|unfold MAX_SIZE in *; lia].
      cbn [blk_size_loop]. unfold ret. f_equal. unfold MAX_SIZE in *. lia.
    + rewrite blk_index_up by done. destruct Hc as (_ & Hsp & _). cbn [length] in Hk. assert (length c + S k = MAX)%nat as Hk' by lia.
      destruct (idx_bound c (S k) Hk') as (Hi & _ & _). unfold bind. rewrite (test_split_ok here (S k) (idx c) s p Hp Hok) by lia. by rewrite Hsp.
  - rewrite (blk_index_low c k (S k')) by lia. unfold bind. pose proof (idx_low c k (S k') Hk ltac:(lia)).
    rewrite (test_split_ok here (S k') _ s p Hp Hok) by lia. replace (sp p (S k') _) with false; [apply IH; lia|]. symmetry.
    destruct (decide (S k' = k)) as [<-|Hne'].
    + rewrite Nat.sub_diag, Z.mul_1_r. apply Hw1. lia.
    + apply Hw2; [apply within_first; lia|lia|lia].
Qed.

(** ** Freeing and allocating in the page *)

Lemma free_in_ok s c k : (length c + k = MAX)%nat -> tinv s (forest (plug c Used)) -> Forall (fun ds => solid ds.2) c ->
  exists s' k' c', free_in LEAF NSIZES freelist behind here (a + idx c * blk k) a s = Ok tt s' /\ tinv s' (forest (plug c' Free)) /\
    Forall (fun ds => solid ds.2) c' /\ (length c' + k' = MAX)%nat /\ others is_used c' k' = others is_used c k.
Proof.
  intros Hk Hinv Hs. unfold free_in, bind. rewrite (blk_size_ok s c k Hk Hinv).
  destruct (free_loop_ok (length c) k c s) as (s1 & k' & c' & E & Hinv1 & Hs' & Hk' & [Hr Hsib] & Ho); [done|done|by eapply step_forget|done|].
  replace (MAX_SIZE NSIZES - k)%nat with (length c) by lia. rewrite E.
  destruct (step_push s1 c' k' Hk' Hinv1 Hr Hsib) as (s2 & -> & Hinv2). by exists s2, k', c'.
Qed.
End page.

(** * The operations *)

(** The table represents the pages [P] with their trees, between two operations. *)
Definition inv (s : table) (P : list (Z * bt)) : Prop := tinv s P /\ Forall (fun x => solid x.2) P.
Abbreviation used := (all_leaves is_used).
Abbreviation free := (all_leaves is_free).

Lemma solid_forest P1 P2 a c t : Forall (fun x => solid x.2) (forest P1 P2 a (plug c t)) <->
  Forall (fun x => solid x.2) P1 /\ Forall (fun x => solid x.2) P2 /\ solid t /\ Forall (fun ds => solid ds.2) c.
Proof. unfold forest. rewrite Forall_app, Forall_cons. cbn [snd]. rewrite solid_plug. naive_solver. Qed.

(** The page and the position of a block. *)
Lemma block_focus f s P k x : inv s P -> (k, x) ∈ all_leaves f P ->
  exists P1 P2 a c u, P = forest P1 P2 a (plug c u) /\ f u = true /\ (forall l r, u <> Node l r) /\ (length c + k = MAX)%nat /\
    x = a + idx c * blk k /\ a <= x < a + HEAP.
Proof.
  intros [Hinv Hs] Hx. destruct (all_leaves_in _ _ _ Hx) as (a & t & Hat & Hl).
  apply list_elem_of_split in Hat as (P1 & P2 & ->). destruct (page_lookup P1 P2 a s t Hinv) as (p & _ & (_ & _ & Hb & _)).
  destruct (leaf_ctx LEAF f t MAX a k x) as (c & u & -> & Hu & Hn & Hk & ->); [by eapply bits_fits|done|].
  exists P1, P2, a, c, u. split_and!; try done; destruct (idx_bound c k Hk) as (Hi & Hh & _); pose proof (blk_pos LEAF sz_leaf k); nia.
Qed.

Lemma bases_forest P1 P2 a t t' : (forest P1 P2 a t).*1 = (forest P1 P2 a t').*1.
Proof. unfold forest. by rewrite !fmap_app. Qed.

(** The entry of the table for the addresses of a block. *)
Lemma block_entry f s P k x y : inv s P -> (k, x) ∈ all_leaves f P -> x <= y < x + blk k ->
  exists i p j, get_page_index LEAF NSIZES stops y s = Ok (Some i) s /\ plist s !! i = Some p /\ page_ok p /\ pageaddr p ∈ P.*1 /\
    0 <= j /\ x = pageaddr p + j * blk k /\ j * blk k + blk k <= HEAP /\ (k <= MAX)%nat.
Proof.
  intros Hinv Hx Hy. destruct (block_focus f s P k x Hinv Hx) as (P1 & P2 & a & c & u & -> & _ & _ & Hk & -> & _).
  destruct Hinv as [Ht _]. destruct (page_lookup _ _ _ _ _ Ht) as (p & Hp & (Hpa & Hok & _)). cbn [fst] in Hpa.
  destruct (idx_bound c k Hk) as (Hi & Hh & Hkm). pose proof (blk_pos LEAF sz_leaf k).
  exists (length P1), p, (idx c). rewrite Hpa. split_and!; try done; try lia.
  - apply (page_of_block P1 P2 a s (plug c u)); [done|]. nia.
  - unfold forest. rewrite fmap_app. apply elem_of_app. right. by left.
Qed.

(** Freeing a block in use: exactly this block is no longer in use. *)
Lemma free_at_ok s P k x : inv s P -> (k, x) ∈ used P ->
  exists i p s' P', get_page_index LEAF NSIZES stops x s = Ok (Some i) s /\ plist s !! i = Some p /\
    free_in LEAF NSIZES freelist behind i x (pageaddr p) s = Ok tt s' /\ inv s' P' /\ P'.*1 = P.*1 /\ used P ≡ₚ (k, x) :: used P'.
Proof.
  intros Hinv Hx. destruct (block_focus is_used s P k x Hinv Hx) as (P1 & P2 & a & c & u & -> & Hu & _ & Hk & -> & Hpos).
  destruct u; try done. destruct Hinv as [Ht Hs]. apply solid_forest in Hs as (Hs1 & Hs2 & _ & Hsc).
  destruct (free_in_ok P1 P2 a s c k Hk Ht Hsc) as (s' & k' & c' & E & Ht' & Hsc' & Hk' & Ho).
  destruct (page_lookup _ _ _ _ _ Ht) as (p & Hp & (Hpa & _)). cbn [fst] in Hpa.
  exists (length P1), p, s', (forest P1 P2 a (plug c' Free)). rewrite Hpa. split_and!; [by apply (page_of_block P1 P2 a s (plug c Used))|done|done| | |].
  - split; [done|]. by apply solid_forest.
  - apply bases_forest.
  - rewrite (forest_leaves _ _ _ _ c k), (forest_leaves _ _ _ _ c' k') by done. cbn [leaves is_used app]. by rewrite Ho.
Qed.

Lemma bd_free_ok s P k x : inv s P -> (k, x) ∈ used P ->
  exists s' P', bd_free LEAF NSIZES freelist stops behind x s = Ok tt s' /\ inv s' P' /\ P'.*1 = P.*1 /\ used P ≡ₚ (k, x) :: used P'.
Proof.
  intros Hinv Hx. destruct (free_at_ok s P k x Hinv Hx) as (i & p & s' & P' & Ei & Hp & E & H). exists s', P'. split; [|done].
  unfold bd_free, bind, get_pg. by rewrite Ei, Hp.
Qed.

Lemma find_level_ok s P n : forall k, tinv s P -> (n + k = NSIZES)%nat \/ n = 0%nat ->
  exists r, find_level freelist n k s = Ok r s /\
    match r with
    | Some k' => (k <= k' < NSIZES)%nat /\ at_level k' (free P) <> []
    | None => forall k', (k <= k' < k + n)%nat -> at_level k' (free P) = []
    end.
Proof.
  induction n as [|n IH]; intros k Hinv Hk; [exists None; split; [done|lia]|]. destruct Hk as [Hk|]; [|done].
  pose proof Hinv as [_ _ _ Hl]. cbn [find_level]. unfold bind. rewrite (lkM_ok _ s _ _ (lists_empty NSIZES freelist _ _ k Hl ltac:(lia))).
  destruct s as [l ps]. cbn [freelinks plist]. destruct (bool_decide_reflect (at_level k (free P) = [])) as [E|E]; cbn [negb].
  - destruct (IH (S k) Hinv) as (r & -> & Hr); [lia|]. exists r. split; [done|]. destruct r as [k'|]; [destruct Hr; split; [lia|done]|].
    intros k' Hk'. destruct (decide (k' = k)) as [->|]; [done|]. apply Hr. lia.
  - exists (Some k). split; [done|]. split; [lia|done].
Qed.

(** [firstk]: the smallest level whose blocks have [n] bytes. *)
Lemma firstk_ok n : n <= 2 ^ 30 -> exists fk, firstk LEAF n = Some fk /\ n <= blk fk /\ (fk = 0%nat \/ blk (fk - 1) < n).
Proof.
  intros Hn. unfold firstk. assert (LEAF = blk 0) as E0 by (unfold BLK_SIZE; change (Z.shiftl 1 (Z.of_nat 0)) with 1; lia).
  enough (forall fuel k, (k = 0%nat \/ blk (k - 1) < n) -> (31 <= fuel + k)%nat -> (1 <= fuel)%nat ->
    exists fk, firstk_loop fuel k (blk k) n = Some fk /\ n <= blk fk /\ (fk = 0%nat \/ blk (fk - 1) < n)) as H.
  { destruct (H 32%nat 0%nat) as (fk & E & Hfk); [by left|lia|lia|]. rewrite <-E0 in E. by exists fk. }
  induction fuel as [|fuel IH]; intros k Hlow Hf Hf1; [lia|]. cbn [firstk_loop]. destruct (Z.ltb_spec (blk k) n); [|by exists k].
  pose proof (blk_pos LEAF sz_leaf k) as Hp. change (2 ^ 30) with 1073741824 in *. rewrite s32_small by lia.
  replace (blk k * 2) with (blk (S k)) by (rewrite blk_S by apply sz_leaf; lia). apply IH; [right; by rewrite Nat.sub_1_r|lia|].
  assert (k < 30)%nat; [|lia]. destruct (decide (k < 30)%nat); [done|]. exfalso.
  pose proof (blk_mono LEAF sz_leaf 30 k ltac:(lia)). assert (2 ^ 30 <= blk 30); [|lia].
  unfold BLK_SIZE. rewrite Z.shiftl_1_l. change (Z.of_nat 30) with 30. pose proof sz_leaf. nia.
Qed.

(** A block of a level is handed out when some level from it up has a free block. *)
Lemma bd_alloc_ok lost s P n : inv s P -> n <= 2 ^ 30 ->
  exists fk, firstk LEAF n = Some fk /\ n <= blk fk /\
  ((exists p s' P', bd_alloc LEAF NSIZES freelist stops lost n s = Ok p s' /\ inv s' P' /\ P'.*1 = P.*1 /\ used P' ≡ₚ (fk, p) :: used P) \/
   (bd_alloc LEAF NSIZES freelist stops lost n s = Ok 0 s /\ forall k x, (k, x) ∈ free P -> blk k < n)).
Proof.
  intros [Ht Hs] Hn. destruct (firstk_ok n Hn) as (fk & Efk & Hfk & Hmin). exists fk. split; [done|]. split; [done|].
  unfold bd_alloc. rewrite Efk. pose proof MAX_lt as [Hlt _].
  destruct (find_level_ok s P (NSIZES - fk) fk Ht) as (r & Er & Hr); [lia|]. unfold bind at 1. rewrite Er. destruct r as [k|].
  - left. destruct Hr as [Hk Hne]. pose proof Ht as [_ _ Hpl Hl].
    destruct (lists_pop NSIZES freelist sz_inj (freelinks s) (free P) k Hl (all_good _ _ Hpl)) as (x & L & l & Epop & HL & Hl'); [lia|done|].
    assert ((k, x) ∈ free P) as Hx by (rewrite HL; by left).
    destruct (block_focus is_free s P k x (conj Ht Hs) Hx) as (P1 & P2 & a & c & u & -> & Hu & _ & Hkc & Ex & Hpos). destruct u; try done.
    apply solid_forest in Hs as (Hs1 & Hs2 & _ & Hsc).
    assert (tinv (mktab l (plist s)) (forest P1 P2 a (plug c Hole))) as Ht1.
    { apply (step_take P1 P2 a s c k); [done|done|]. rewrite (forest_leaves _ _ _ _ c k) in HL by done. cbn [leaves is_free app] in HL.
      rewrite <-Ex in HL. apply Permutation_cons_inv in HL. by rewrite HL. }
    destruct (step_alloc P1 P2 a bit_set true _ c k Hole Used gives_set Hkc Ht1) as (s2 & E2 & Ht2 & _); [done|done| |done|].
    { destruct (page_lookup _ _ _ _ _ Ht1) as (p & _ & _ & _ & _ & Hm). by eapply merged_swap. }
    destruct (split_loop_ok P1 P2 a (k - fk) k c s2) as (s' & c' & E' & Ht' & Hsc' & Hkc' & Hi' & Ho'); [lia|done|done|done|].
    exists x, s', (forest P1 P2 a (plug c' Used)). split; [|split; [split; [done|by apply solid_forest]|split; [apply bases_forest|]]].
    + unfold bind. rewrite (lkM_ok _ _ _ _ Epop). destruct (Z.eqb_spec x 0) as [E0|_].
      { exfalso. pose proof (all_good is_free _ Hpl) as [_ Hg]. rewrite Forall_forall in Hg. destruct (Hg _ Hx) as [? _]. done. }
      rewrite (page_of_block P1 P2 a _ (plug c Hole)) by done. destruct (page_lookup _ _ _ _ _ Ht1) as (p & Hp & (Hpa & _)).
      unfold get_pg. rewrite Hp. cbn [fst] in Hpa. rewrite Hpa, Ex, blk_index_at by done. rewrite E2, E'. done.
    + rewrite (forest_leaves _ _ _ _ c' (k - (k - fk))), (forest_leaves _ _ _ _ c k) by done. rewrite Ho', Hi', <-Ex.
      by replace (k - (k - fk))%nat with fk by lia.
  - right. split; [unfold bind; by rewrite Er|]. intros k x Hx. destruct (decide (k < fk)%nat) as [Hlow|Hge].
    { destruct Hmin as [->|Hmin]; [lia|]. pose proof (blk_mono LEAF sz_leaf k (fk - 1) ltac:(lia)). lia. }
    exfalso.
    destruct (block_in_page _ _ _ (ti_placed _ _ Ht) Hx) as (_ & _ & _ & _ & Hkm). cbn [fst] in Hkm.
    apply elem_at_level in Hx. rewrite Hr in Hx by lia. by apply elem_of_nil in Hx.
Qed.

(** Blocks in use do not overlap and lie in the pages. *)
Lemma used_apart s P : inv s P -> apart blk (used P) /\ forall k x, (k, x) ∈ used P -> exists a, a ∈ P.*1 /\ a <= x /\ x + blk k <= a + HEAP.
Proof.
  intros [Ht _]. pose proof (ti_placed _ _ Ht) as Hpl. split; [by apply all_apart|]. intros k x Hx.
  destruct (block_in_page _ _ _ Hpl Hx) as (a & Ha & H1 & H2 & _). by exists a.
Qed.

(** Without a block in use a merged tree is one free block. *)
Lemma idle_free t : forall k b, fits t k -> merged t -> solid t -> leaves LEAF is_used t k b = [] -> t = Free.
Proof.
  induction t as [| | |l IHl r IHr]; intros k b Hf Hm Hs Hl; try done. destruct k as [|k]; [done|]. destruct Hf as [Hfl Hfr].
  destruct Hm as (Hnb & Hml & Hmr), Hs as [Hsl Hsr]. cbn [leaves] in Hl. apply app_eq_nil in Hl as [Hll Hlr].
  destruct Hnb. split; eauto.
Qed.

Lemma idle_whole s P : inv s P -> used P = [] -> Forall (fun x => x.2 = Free) P.
Proof.
  intros [[(ps & _ & Hf) _ _ _] Hs] Hu. apply Forall_forall. intros [a t] Hin. cbn [snd].
  apply list_elem_of_split in Hin as (P1 & P2 & ->). apply Forall2_app_inv_r in Hf as (ps1 & ps2 & _ & Hf2 & ->).
  apply Forall2_cons_inv_r in Hf2 as (p & ps3 & (_ & _ & Hb & Hm) & _ & ->). apply Forall_app in Hs as [_ Hs]. inversion Hs; subst.
  rewrite all_leaves_app, all_leaves_cons in Hu. apply app_eq_nil in Hu as [_ Hu]. apply app_eq_nil in Hu as [Hu _].
  eapply idle_free; [by eapply bits_fits|done|done|exact Hu].
Qed.

(** ** Pages *)

Lemma free_entry_ok ps P rest i : Forall2 page_rep ps P -> placed (P.*1) -> free_entry (ps ++ rest) i = free_entry rest (i + length P).
Proof.
  revert P i. induction ps as [|p ps IH]; intros P i Hf Hp.
  - apply Forall2_nil_inv_l in Hf as ->. by rewrite Nat.add_0_r.
  - apply Forall2_cons_inv_l in Hf as ([a t] & P' & (Hpa & _) & Hf & ->). cbn [app free_entry fmap list_fmap fst placed] in *.
    destruct Hp as (Hlo & _ & _ & Hp). pose proof sz_mem. rewrite Hpa. destruct (Z.eqb_spec a 0); [lia|].
    rewrite (IH P' (S i) Hf Hp). f_equal. cbn. lia.
Qed.

Lemma bit_zero j : bit (replicate 16 0) j = false.
Proof.
  unfold bit. destruct (replicate 16 0 !! Z.to_nat (j / 8)) eqn:E; [|apply Z.bits_0]. apply lookup_replicate in E as [-> _]. apply Z.bits_0.
Qed.

Lemma empty_rep p : page_rep (mkpg p (alloc (empty_page NSIZES)) (split (empty_page NSIZES))) (p, Free).
Proof.
  assert (Forall row_ok (replicate NSIZES (replicate 16 0))) as Hr.
  { apply Forall_replicate. split; [done|]. apply Forall_replicate. done. }
  assert (forall k j, bit (default [] (replicate NSIZES (replicate 16 0) !! k)) j = false) as Hz.
  { intros k j. destruct (replicate _ _ !! k) eqn:E; [|cbn [default]; unfold bit; cbn; apply Z.bits_0].
    apply lookup_replicate in E as [-> _]. apply bit_zero. }
  split; [done|]. split; [split; (split; [apply length_replicate|done])|]. split; [|done]. cbn [snd bits].
  split; [split|]; intros; unfold al, sp; cbn [alloc split empty_page]; rewrite ?Hz; done.
Qed.

(** A page at the first unused entry of the table. *)
Definition added (p : Z) : pagelist := mkpg p (alloc (empty_page NSIZES)) (split (empty_page NSIZES)).

Lemma add_at_ok s P p : inv s P -> (length P < MAX_PAGES)%nat -> placed ((P ++ [(p, Free)]).*1) ->
  free_entry (plist s) 0 = Some (length P) /\
  exists l, (q ← get_pg (length P); put_pg (length P) (mkpg p (alloc q) (split q));; lkM (lst_push (freelist MAX) p)) s =
    Ok tt (mktab l (<[length P := added p]> (plist s))) /\ inv (mktab l (<[length P := added p]> (plist s))) (P ++ [(p, Free)]).
Proof.
  intros [[(ps & E & Hf) Hr Hpl Hl] Hs] Hroom Hpl'. pose proof MAX_lt as [Hlt _].
  pose proof (all_good is_free _ Hpl') as Hg. rewrite all_leaves_app in Hg. cbn [all_leaves mbind list_bind app snd fst leaves is_free] in Hg.
  rewrite Permutation_app_comm in Hg. destruct (lists_push NSIZES freelist sz_inj _ _ MAX p Hl Hg) as (l & El & Hl'); [lia|].
  destruct (MAX_PAGES - length P)%nat as [|n] eqn:En; [lia|]. cbn [replicate] in E.
  pose proof (Forall2_length _ _ _ Hf) as Hlen. split; [by rewrite E, (free_entry_ok ps P _ 0 Hf Hpl)|]. exists l. split.
  - assert (plist s !! length P = Some (empty_page NSIZES)) as E2 by (by rewrite E, list_lookup_middle).
    unfold bind, get_pg. rewrite E2. unfold put_pg, modify. by apply lkM_ok.
  - split; [split|]; [..|by apply Forall_app; split; [|constructor]].
    + exists (ps ++ [added p]). cbn [plist]. split.
      * rewrite E, <-Hlen, insert_app_r_alt, Nat.sub_diag by lia. rewrite length_app. cbn [length].
        replace (MAX_PAGES - (length P + 1))%nat with n by lia. by rewrite <-app_assoc.
      * apply Forall2_app; [done|]. constructor; [|constructor]. apply empty_rep.
    + rewrite length_app. cbn. lia.
    + done.
    + rewrite all_leaves_app. cbn [all_leaves mbind list_bind app snd fst leaves is_free]. by rewrite Permutation_app_comm.
Qed.

Lemma bd_addpage_ok s P p : inv s P -> (length P < MAX_PAGES)%nat -> placed ((P ++ [(p, Free)]).*1) ->
  exists s', bd_addpage NSIZES freelist p s = Ok tt s' /\ inv s' (P ++ [(p, Free)]).
Proof.
  intros Hi Hr Hp. destruct (add_at_ok s P p Hi Hr Hp) as (E1 & l & E2 & Hi'). eexists. split; [|exact Hi'].
  unfold bd_addpage, bind at 1, gets. rewrite E1. exact E2.
Qed.

Lemma bd_addpage_full s P p : inv s P -> length P = MAX_PAGES -> bd_addpage NSIZES freelist p s = Panic "[bd_addpage] cannot add new page".
Proof.
  intros [[(ps & E & Hf) _ Hpl _] _] Hfull. unfold bd_addpage, bind, gets. rewrite E, (free_entry_ok ps P _ 0 Hf Hpl).
  by rewrite Hfull, Nat.sub_diag.
Qed.

Lemma init_lists_ok n : forall k s, (n + k <= NSIZES)%nat -> (forall k', (k' < k)%nat -> is_list (freelinks s) (freelist k') []) ->
  exists l, init_lists freelist n k s = Ok tt (mktab l (plist s)) /\ forall k', (k' < k + n)%nat -> is_list l (freelist k') [].
Proof.
  induction n as [|n IH]; intros k s Hn Hk.
  { exists (freelinks s). destruct s. cbn. split; [done|]. intros k'. rewrite Nat.add_0_r. apply Hk. }
  cbn [init_lists]. destruct (lst_init_ok (freelinks s) (freelist k) (sz_heads k ltac:(lia))) as (l & E & Hl & Ho).
  destruct (IH (S k) (mktab l (plist s))) as (l' & E' & Hl'); [lia| |].
  { intros k' Hk'. cbn [freelinks]. destruct (decide (k' = k)) as [->|Hne]; [done|]. eapply is_list_frame; [exact Ho| |apply Hk; lia].
    intros u Hu. apply list_elem_of_singleton in Hu as ->. intros E''%list_elem_of_singleton. apply sz_inj in E''; lia. }
  exists l'. split; [unfold bind; by rewrite (lkM_ok _ _ _ _ E)|]. intros k' Hk'. apply Hl'. lia.
Qed.

Lemma bd_init_ok s : exists s', bd_init NSIZES MAX_PAGES freelist s = Ok tt s' /\ inv s' [].
Proof.
  destruct (init_lists_ok NSIZES 0 (mktab (freelinks s) (replicate MAX_PAGES (empty_page NSIZES)))) as (l & E & Hl); [lia|lia|].
  eexists. split; [unfold bd_init, bind, modify; exact E|]. split; [|done]. split; [|cbn; lia|done|].
  - exists []. by rewrite Nat.sub_0_r.
  - exists (fun _ => []). intros k Hk. split; [apply Hl; lia|done].
Qed.
End spec.
