(* ===== verification/Ufk.v ===== *)
(** The kernel's allocator: kernel/lib/ufkalloc.c over kernel/lib/buddy.c.

    Two tables of Buddy.v: [ufk] has pages of 512 KiB with blocks of 8 KiB and more,
    [bd] has pages of 4 KiB with blocks of 32 bytes and more.  When [bd] has no block
    left [ufkalloc] moves a block of 8 KiB of [ufk] to it as two pages, and marks the
    block in the bitmap [split[0]], which the buddy code does not use, so that
    [ufkfree] finds the table of an address.

    The operations are one at a time: the locks are not part of the state.  The
    addresses of the list heads and of the end of the kernel are the linker's. *)

From S2P Require Import Prelude KList Buddy BuddyTree BuddySpec.

Definition PGSIZE : Z := 4096.
Definition PHYSTOP : Z := 0x80000000 + 128 * 1024 * 1024.

Record kheap := mkheap { ufk : table; bd : table; allocated : Z }.

Definition ufkM {A} (m : M table A) : M kheap A := fun s =>
  match m (ufk s) with
  | Ok x t => Ok x (mkheap t (bd s) (allocated s))
  | Panic msg => Panic msg
  | Sleep t => Sleep (mkheap t (bd s) (allocated s))
  | OutOfFuel => OutOfFuel
  | Undef => Undef
  end.
Definition bdM {A} (m : M table A) : M kheap A := fun s =>
  match m (bd s) with
  | Ok x t => Ok x (mkheap (ufk s) t (allocated s))
  | Panic msg => Panic msg
  | Sleep t => Sleep (mkheap (ufk s) t (allocated s))
  | OutOfFuel => OutOfFuel
  | Undef => Undef
  end.

(** * The two instances of Buddy.v *)

Definition UFK_LEAF : Z := 8 * 1024.
Definition UFK_NSIZES : nat := 7.
Definition NBIGPGS : nat := 1024.
Definition BIGPG_SIZE : Z := BLK_SIZE UFK_LEAF (MAX_SIZE UFK_NSIZES).
Definition BIGPGROUNDUP (sz : Z) : Z := Z.land (u64 (sz + BIGPG_SIZE - 1)) (Z.lnot (BIGPG_SIZE - 1)).
Definition BD_LEAF : Z := 32.
Definition BD_NSIZES : nat := 8.
Definition BD_PAGES : nat := 128.

Section code.
Context (ufk_freelist bd_freelist : nat -> Z) (ufk_behind bd_behind : bytes) (end_ : Z).

Definition get_pageindex (p : Z) : M table (option nat) := get_page_index UFK_LEAF UFK_NSIZES true p.
Definition _ufkalloc (nbytes : Z) : M table Z :=
  bd_alloc UFK_LEAF UFK_NSIZES ufk_freelist true (panic "[_ufk_alloc] cannot get page index") nbytes.
Definition _ufkfree (p : Z) (pindex : nat) (pbase : Z) : M table unit :=
  free_in UFK_LEAF UFK_NSIZES ufk_freelist ufk_behind pindex p pbase.
Definition kbd_alloc (nbytes : Z) : M table Z := bd_alloc BD_LEAF BD_NSIZES bd_freelist false undef nbytes.
Definition kbd_free (p : Z) : M table unit := bd_free BD_LEAF BD_NSIZES bd_freelist false bd_behind p.
Definition kbd_addpage (p : Z) : M table unit := bd_addpage BD_NSIZES bd_freelist p.
Definition kbd_init : M table unit := bd_init BD_NSIZES BD_PAGES bd_freelist.

(** * ufkalloc.c *)

(** [for(int i = 0; p + BIGPG_SIZE <= pa_end; p += BIGPG_SIZE, i++)]. *)
Fixpoint table_loop (fuel i : nat) (p pa_end : Z) : M table unit :=
  match fuel with
  | O => nofuel
  | S fuel' =>
      if p + BIGPG_SIZE <=? pa_end then
        q ← get_pg i;
        put_pg i (mkpg p (alloc q) (split q));;
        lkM (lst_push (ufk_freelist (MAX_SIZE UFK_NSIZES)) p);;
        table_loop fuel' (S i) (p + BIGPG_SIZE) pa_end
      else ret tt
  end.
Definition table_init (pa_start pa_end : Z) : M table unit :=
  modify (fun s => mktab (freelinks s) (replicate NBIGPGS (empty_page UFK_NSIZES)));;
  init_lists ufk_freelist UFK_NSIZES 0;;
  table_loop (S (Z.to_nat ((pa_end - BIGPGROUNDUP pa_start) / BIGPG_SIZE))) 0 (BIGPGROUNDUP pa_start) pa_end.
Definition ufkinit : M kheap unit := ufkM (table_init end_ PHYSTOP);; bdM kbd_init.

(** [split[0]] of the block at [p]. *)
Definition set_mark (pindex : nat) (p : Z) : M table unit :=
  g ← get_pg pindex; upd_split bit_set pindex 0 (blk_index UFK_LEAF 0 p (pageaddr g)).
Definition get_mark (pindex : nat) (p : Z) : M table bool :=
  g ← get_pg pindex; test_split UFK_NSIZES ufk_behind pindex 0 (blk_index UFK_LEAF 0 p (pageaddr g)).

(** [depth] bounds the recursion: the call in it takes the other branch. *)
Fixpoint ufkalloc_at (depth : nat) (nbytes : Z) : M kheap Z :=
  match depth with
  | O => nofuel
  | S depth' =>
      modify (fun s => mkheap (ufk s) (bd s) (s32 (allocated s + 1)));;
      if nbytes <? PGSIZE then
        p ← bdM (kbd_alloc nbytes);
        if p =? 0 then
          p ← ufkalloc_at depth' PGSIZE;
          i ← ufkM (get_pageindex p);
          match i with
          | None => panic "[ufkalloc] cannot get page index"
          | Some pindex =>
              ufkM (set_mark pindex p);;
              bdM (kbd_addpage p);;
              bdM (kbd_addpage (p + PGSIZE));;
              p ← bdM (kbd_alloc nbytes);
              if p =? 0 then panic "[ufkalloc] cannot alloc..." else ret p
          end
        else ret p
      else
        p ← ufkM (_ufkalloc nbytes);
        if p =? 0 then panic "[ufkalloc] could not allocate" else ret p
  end.
Definition ufkalloc (nbytes : Z) : M kheap Z := ufkalloc_at 2 nbytes.

Definition ufkfree (p : Z) : M kheap unit :=
  modify (fun s => mkheap (ufk s) (bd s) (s32 (allocated s - 1)));;
  i ← ufkM (get_pageindex p);
  match i with
  | None => panic "[uffree] cannot get page index"
  | Some pindex =>
      b ← ufkM (get_mark pindex p);
      if b then bdM (kbd_free p)
      else
        g ← ufkM (get_pg pindex);
        ufkM (_ufkfree p pindex (pageaddr g))
  end.
End code.

Definition ex_ufk_heads (k : nat) : Z := 0x80020000 + 16 * Z.of_nat k.
Definition ex_bd_heads (k : nat) : Z := 0x80021000 + 16 * Z.of_nat k.
Definition ex_heap : kheap := mkheap (mktab (mklk (fun _ => 0) (fun _ => 0)) []) (mktab (mklk (fun _ => 0) (fun _ => 0)) []) 0.

Example ufk_ex :
  let al n := ufkalloc ex_ufk_heads ex_bd_heads n in
  let fr p := ufkfree ex_ufk_heads ex_bd_heads [0] [0] p in
  match (ufkinit ex_ufk_heads ex_bd_heads 0x80030000;;
     a ← al 4096; b ← al 100; c ← al 2048; d ← al 20000;
     fr b;; fr a;; e ← al 4096; f ← al 128; ret [a; b; c; d; e; f]) ex_heap with Ok r _ => Some r | _ => None end =
  Some [0x87f80000; 0x87f83000; 0x87f83800; 0x87f88000; 0x87f80000; 0x87f83000].
Proof. vm_compute. reflexivity. Qed.
