(* ===== verification/UfkSpec.v ===== *)
(** The kernel's allocator (Ufk.v): the blocks it has handed out never overlap, freeing
    one makes exactly it available, and allocation fails only when no table has a
    block that is large enough. *)

From S2P Require Import Prelude KList Buddy BuddyTree BuddySpec Ufk.

(** * The bitmap [split[0]] *)

(** The buddy code does not touch the addresses of the pages and their [split[0]]. *)
Definition marks (s : table) : list (Z * option bytes) := (fun p => (pageaddr p, split p !! 0%nat)) <$> plist s.
Definition keeps {A} (m : M table A) : Prop := forall s, match m s with Ok _ s' => marks s' = marks s | _ => True end.

Lemma keeps_bind {A B} (m : M table A) (f : A -> M table B) : keeps m -> (forall x, keeps (f x)) -> keeps (bind m f).
Proof.
  intros Hm Hf s. unfold bind. specialize (Hm s). destruct (m s) as [x s'| | | |]; try done. specialize (Hf x s').
  destruct (f x s'); [congruence|done..].
Qed.
Lemma keeps_state {A} (m : M table A) : (forall s, match m s with Ok _ s' => s' = s | _ => True end) -> keeps m.
Proof. intros H s. specialize (H s). destruct (m s); [by subst|done..]. Qed.
Lemma keeps_ret {A} (x : A) : keeps (ret x).
Proof. by apply keeps_state. Qed.
Lemma keeps_undef {A} : keeps (@undef table A).
Proof. done. Qed.
Lemma keeps_panic {A} msg : keeps (@panic table A msg).
Proof. done. Qed.
Lemma keeps_lkM {A} (m : M links A) : keeps (lkM m).
Proof. intros s. unfold lkM. by destruct (m (freelinks s)). Qed.
Lemma keeps_get_pg i : keeps (get_pg i).
Proof. apply keeps_state. intros s. unfold get_pg. by destruct (plist s !! i). Qed.
Lemma keeps_page_index L N b x : keeps (get_page_index L N b x).
Proof. by apply keeps_state. Qed.
Lemma keeps_test_alloc i k j : keeps (test_alloc i k j).
Proof. apply keeps_bind; [apply keeps_get_pg|]. intros p. destruct (alloc p !! k ≫= _); [apply keeps_ret|apply keeps_undef]. Qed.
Lemma keeps_test_split N b i k j : keeps (test_split N b i k j).
Proof. apply keeps_state. intros s. unfold test_split. by destruct (split_row N b i k s ≫= _). Qed.

Lemma marks_put i p q s : plist s !! i = Some p -> pageaddr q = pageaddr p -> split q !! 0%nat = split p !! 0%nat ->
  marks (mktab (freelinks s) (<[i := q]> (plist s))) = marks s.
Proof.
  intros Hp Ha Hs. unfold marks. cbn [plist]. rewrite list_fmap_insert. apply list_insert_id. rewrite list_lookup_fmap, Hp. cbn. by rewrite Ha, Hs.
Qed.
Lemma keeps_upd_alloc f i k j : keeps (upd_alloc f i k j).
Proof.
  intros s. unfold upd_alloc, bind, get_pg. destruct (plist s !! i) as [p|] eqn:Hp; [|done].
  destruct (alloc p !! k ≫= _); [|done]. cbn. by apply (marks_put i p).
Qed.
Lemma keeps_upd_split f i k j : (0 < k)%nat -> keeps (upd_split f i k j).
Proof.
  intros Hk s. unfold upd_split, bind, get_pg. destruct (plist s !! i) as [p|] eqn:Hp; [|done].
  destruct (split p !! k ≫= _); [|done]. cbn. apply (marks_put i p); [done|done|]. cbn. rewrite list_lookup_insert_ne by lia. done.
Qed.

Create HintDb keeps.
#[export] Hint Resolve keeps_ret keeps_undef keeps_panic keeps_lkM keeps_get_pg keeps_page_index keeps_test_alloc keeps_test_split
  keeps_upd_alloc : keeps.
#[export] Hint Extern 1 (keeps (upd_split _ _ _ _)) => apply keeps_upd_split; lia : keeps.
Ltac keeps := repeat (apply keeps_bind; [auto with keeps|intros ?]); auto with keeps.

Lemma keeps_split_loop L fl n : forall k i p b, (n <= k)%nat -> keeps (split_loop L fl n k i p b).
Proof. induction n as [|n IH]; intros k i p b Hk; cbn [split_loop]; keeps. apply IH. lia. Qed.
Lemma keeps_free_loop L n : forall k i p b, keeps (free_loop L n k i p b).
Proof. induction n as [|n IH]; intros k i p b; cbn [free_loop]; keeps. destruct x0; keeps. Qed.
Lemma keeps_find_level fl n : forall k, keeps (find_level fl n k).
Proof. induction n as [|n IH]; intros k; cbn [find_level]; keeps. destruct (negb x); keeps. Qed.
Lemma keeps_blk_size_loop L N b n : forall k i p a, keeps (blk_size_loop L N b n k i p a).
Proof. induction n as [|n IH]; intros k i p a; cbn [blk_size_loop]; keeps. destruct x; keeps. Qed.
Lemma keeps_free_in L N fl b i p a : keeps (free_in L N fl b i p a).
Proof. unfold free_in, blk_size. apply keeps_bind; [apply keeps_blk_size_loop|]. intros k. apply keeps_bind; [apply keeps_free_loop|]. intros []. keeps. Qed.
Lemma keeps_alloc L N fl b lost n : keeps lost -> keeps (bd_alloc L N fl b lost n).
Proof.
  intros Hl. unfold bd_alloc. destruct (firstk L n) as [fk|]; [|done]. apply keeps_bind; [apply keeps_find_level|]. intros [k|]; keeps.
  destruct (x =? 0); keeps. destruct x0 as [i|]; keeps. apply keeps_split_loop. lia.
Qed.

(** * The two tables *)

Section heap.
Context (ufk_freelist bd_freelist : nat -> Z) (ufk_behind bd_behind : bytes) (end_ : Z).

(** [heads n f]: the [n] list heads are objects of the kernel's image. *)
Definition heads (n : nat) (f : nat -> Z) : Prop :=
  forall k, (k < n)%nat -> 0 < f k /\ ~ end_ <= f k < PHYSTOP /\ forall k', (k' < n)%nat -> f k = f k' -> k = k'.

Class Layout : Prop := {
  ly_end : 0x80000000 <= end_ <= PHYSTOP;
  ly_ufk : heads UFK_NSIZES ufk_freelist;
  ly_bd : heads BD_NSIZES bd_freelist;
  ly_behind : Forall is_byte ufk_behind /\ ufk_behind <> [] /\ Forall is_byte bd_behind /\ bd_behind <> [] }.
Context `{HL : Layout}.

Lemma PHYSTOP_eq : PHYSTOP = 2281701376.
Proof. done. Qed.

#[export] Instance ufk_sizes : Sizes UFK_LEAF UFK_NSIZES ufk_freelist ufk_behind end_ PHYSTOP.
Proof.
  destruct HL as [He Hu _ (Hb1 & Hb2 & _)]. rewrite PHYSTOP_eq in He. constructor; try done.
  - unfold UFK_NSIZES. lia.
  - rewrite PHYSTOP_eq. split; lia.
  - intros k Hk. destruct (Hu k Hk). lia.
  - intros k k' Hk Hk'. destruct (Hu k Hk) as (_ & _ & H). by apply H.
  - intros k Hk. by destruct (Hu k Hk) as (_ & H & _).
Qed.
#[export] Instance bd_sizes : Sizes BD_LEAF BD_NSIZES bd_freelist bd_behind end_ PHYSTOP.
Proof.
  destruct HL as [He _ Hu (_ & _ & Hb1 & Hb2)]. rewrite PHYSTOP_eq in He. constructor; try done.
  - unfold BD_NSIZES. lia.
  - rewrite PHYSTOP_eq. split; lia.
  - intros k Hk. destruct (Hu k Hk). lia.
  - intros k k' Hk Hk'. destruct (Hu k Hk) as (_ & _ & H). by apply H.
  - intros k Hk. by destruct (Hu k Hk) as (_ & H & _).
Qed.

Abbreviation uinv := (inv UFK_LEAF UFK_NSIZES NBIGPGS ufk_freelist end_ PHYSTOP).
Abbreviation dinv := (inv BD_LEAF BD_NSIZES BD_PAGES bd_freelist end_ PHYSTOP).
Abbreviation uleaves := (all_leaves UFK_LEAF UFK_NSIZES).
Abbreviation dleaves := (all_leaves BD_LEAF BD_NSIZES).
Abbreviation usize := (BLK_SIZE UFK_LEAF).
Abbreviation size := (BLK_SIZE BD_LEAF).

(** The blocks of both tables, with one scale of levels: 32 bytes times a power of 2.
    [M] are the blocks of 8 KiB that were given to [bd]. *)
Definition big (M : list Z) (L : list (nat * Z)) : list (nat * Z) := (fun x => ((8 + x.1)%nat, x.2)) <$> filter (fun x => x.2 ∉ M) L.
Definition blocks (U D : list (Z * bt)) (M : list Z) : list (nat * Z) := big M (uleaves is_used U) ++ dleaves is_used D.

Lemma usize_eq k : usize k = size (8 + k).
Proof.
  unfold BLK_SIZE, UFK_LEAF, BD_LEAF. rewrite !Z.shiftl_1_l. rewrite Nat2Z.inj_add, Z.pow_add_r by lia. change (2 ^ Z.of_nat 8) with 256. lia.
Qed.

(** The bit of [split[0]] of an 8 KiB block tells whether it is one of [M]. *)
Definition marks_ok (s : table) (M : list Z) : Prop :=
  forall x, x ∈ marks s -> forall j, 0 <= j < 64 -> bit (default [] x.2) j = bool_decide (x.1 + j * UFK_LEAF ∈ M).

Record kinv (s : kheap) (U D : list (Z * bt)) (M : list Z) : Prop := {
  ki_ufk : uinv (ufk s) U;
  ki_bd : dinv (bd s) D;
  ki_align : Forall (fun a => a mod BIGPG_SIZE = 0) (U.*1);
  ki_given : Forall (fun m => (0%nat, m) ∈ uleaves is_used U) M;
  ki_pages : D.*1 = M ≫= fun m => [m; m + PGSIZE];
  ki_marks : marks_ok (ufk s) M }.

(** ** Disjointness *)

Lemma upos k : 0 < usize k.
Proof. by apply blk_pos. Qed.
Lemma dpos k : 0 < size k.
Proof. by apply blk_pos. Qed.

Lemma big_in M L k x : (k, x) ∈ big M L -> exists k', k = (8 + k')%nat /\ (k', x) ∈ L /\ x ∉ M.
Proof.
  intros ([k' y] & E & Hin)%list_elem_of_fmap. injection E as -> ->. apply list_elem_of_filter in Hin as [? ?]. by exists k'.
Qed.

Lemma apart_pair sz L x y : apart sz L -> x ∈ L -> y ∈ L -> x <> y -> disj sz x y.
Proof.
  induction L as [|z L IH]; intros Ha Hx Hy Hne; [by apply elem_of_nil in Hx|]. destruct Ha as [Hf Ha]. rewrite Forall_forall in Hf.
  apply elem_of_cons in Hx as [->|Hx]; apply elem_of_cons in Hy as [->|Hy]; [done|auto|apply disj_sym; auto|auto].
Qed.

Lemma apart_big M L : apart usize L -> apart size (big M L).
Proof.
  intros Ha. unfold big. induction L as [|x L IH]; [done|]. destruct Ha as [Hf Ha]. rewrite filter_cons. case_decide; [|by apply IH].
  split; [|by apply IH]. apply Forall_forall. intros y ([k z] & -> & Hin)%list_elem_of_fmap. apply list_elem_of_filter in Hin as [_ Hin].
  rewrite Forall_forall in Hf. specialize (Hf _ Hin). unfold disj in *. cbn [fst snd] in *. by rewrite <-!usize_eq.
Qed.

(** A block of a [bd] page lies in a block of [M]. *)
Lemma small_in s U D M k x : kinv s U D M -> (k, x) ∈ dleaves is_used D ->
  exists m, m ∈ M /\ (0%nat, m) ∈ uleaves is_used U /\ m <= x /\ x + size k <= m + usize 0.
Proof.
  intros Hk Hx. destruct (used_apart BD_LEAF BD_NSIZES BD_PAGES bd_freelist bd_behind end_ PHYSTOP (bd s) D (ki_bd _ _ _ _ Hk)) as [_ Hd].
  destruct (Hd k x Hx) as (a & Ha & H1 & H2). rewrite (ki_pages _ _ _ _ Hk) in Ha. apply list_elem_of_bind in Ha as (m & Ha & Hm).
  exists m. split; [done|]. pose proof (ki_given _ _ _ _ Hk) as Hg. rewrite Forall_forall in Hg. split; [by apply Hg|].
  change (HEAP_SIZE BD_LEAF BD_NSIZES) with 4096 in H2. change (usize 0) with 8192. unfold PGSIZE in Ha.
  apply elem_of_cons in Ha as [->|Ha]; [lia|]. apply list_elem_of_singleton in Ha as ->. lia.
Qed.

Lemma blocks_apart s U D M : kinv s U D M -> apart size (blocks U D M).
Proof.
  intros Hk. destruct (used_apart UFK_LEAF UFK_NSIZES NBIGPGS ufk_freelist ufk_behind end_ PHYSTOP (ufk s) U (ki_ufk _ _ _ _ Hk)) as [Hu _].
  destruct (used_apart BD_LEAF BD_NSIZES BD_PAGES bd_freelist bd_behind end_ PHYSTOP (bd s) D (ki_bd _ _ _ _ Hk)) as [Hd _].
  unfold blocks. apply apart_app. split; [by apply apart_big|]. split; [done|].
  apply Forall_forall. intros [k x] Hx. apply Forall_forall. intros [k2 y] Hy. apply big_in in Hx as (k' & -> & Hx & HxM).
  destruct (small_in _ _ _ _ _ _ Hk Hy) as (m & Hm & Hmu & H1 & H2).
  assert (disj usize (k', x) (0%nat, m)) as Hdis by (apply (apart_pair _ (uleaves is_used U)); [done|done|done|naive_solver]).
  unfold disj in *. cbn [fst snd] in *. rewrite <-usize_eq. pose proof (dpos k2). lia.
Qed.

(** ** The marks *)

Lemma placed_mid l1 a l2 b : placed UFK_LEAF UFK_NSIZES end_ PHYSTOP (l1 ++ a :: l2) -> b ∈ l1 ++ l2 ->
  a + BIGPG_SIZE <= b \/ b + BIGPG_SIZE <= a.
Proof.
  induction l1 as [|c l1 IH]; cbn [app placed]; intros (_ & _ & Hf & Hp) Hb; rewrite Forall_forall in Hf; [by apply Hf|].
  apply elem_of_cons in Hb as [->|Hb]; [|auto]. destruct (Hf a); [set_solver|by right|by left].
Qed.

(** The other entries of the table have other addresses. *)
Lemma other_entry t P1 P2 a u i q : uinv t (forest P1 P2 a u) -> plist t !! i = Some q -> i <> length P1 ->
  pageaddr q = 0 \/ a + BIGPG_SIZE <= pageaddr q \/ pageaddr q + BIGPG_SIZE <= a.
Proof.
  intros [[(ps & E & Hf) _ Hpl _] _] Hq Hne. rewrite E in Hq. apply lookup_app_Some in Hq as [Hq|[_ Hq]].
  - right. destruct (Forall2_lookup_l _ _ _ _ _ Hf Hq) as ([b w] & Hb & (Hpa & _)). cbn [fst] in Hpa. rewrite Hpa.
    apply (placed_mid (P1.*1) a (P2.*1)); [unfold forest in Hpl; by rewrite fmap_app in Hpl|]. rewrite <-fmap_app.
    apply list_elem_of_fmap. exists (b, w). split; [done|]. unfold forest in Hb. apply lookup_app_Some in Hb as [Hb|[Hge Hb]].
    + apply elem_of_app. left. by eapply list_elem_of_lookup_2.
    + destruct (i - length P1)%nat eqn:Ei; [lia|]. cbn in Hb. apply elem_of_app. right. by eapply list_elem_of_lookup_2.
  - left. apply lookup_replicate in Hq as [-> _]. done.
Qed.

Lemma low_addr t U a : uinv t U -> a ∈ U.*1 -> 0x80000000 <= a /\ a + BIGPG_SIZE <= PHYSTOP.
Proof.
  intros [[_ _ Hpl _] _] Ha. destruct (placed_in UFK_LEAF UFK_NSIZES end_ PHYSTOP _ _ Hpl Ha) as [H1 H2]. destruct HL as [He _ _ _].
  split; [lia|exact H2].
Qed.

Lemma marks_at t M i q j : marks_ok t M -> plist t !! i = Some q -> 0 <= j < 64 -> sp q 0 j = bool_decide (pageaddr q + j * UFK_LEAF ∈ M).
Proof.
  intros Hmk Hq Hj. apply (Hmk (pageaddr q, split q !! 0%nat)); [|done]. apply list_elem_of_fmap. exists q. split; [done|].
  by eapply list_elem_of_lookup_2.
Qed.

Lemma set_mark_ok t U M m : uinv t U -> (0%nat, m) ∈ uleaves is_used U -> marks_ok t M ->
  exists i t', get_pageindex m t = Ok (Some i) t /\ set_mark i m t = Ok tt t' /\ uinv t' U /\ marks_ok t' (M ++ [m]).
Proof.
  intros Hinv Hm Hmk.
  destruct (block_focus UFK_LEAF UFK_NSIZES NBIGPGS ufk_freelist ufk_behind end_ PHYSTOP is_used t U 0 m Hinv Hm)
    as (P1 & P2 & a & c & u & -> & _ & _ & Hk & -> & Hpos).
  pose proof Hinv as [Ht Hs]. destruct (page_lookup _ _ _ _ _ _ _ _ _ _ _ Ht) as (p & Hp & Hrep). pose proof Hrep as (Hpa & Hok & Hb & Hmg).
  cbn [fst snd] in Hpa, Hb, Hmg. pose proof (idx_nonneg c) as Hn. pose proof (idx_lt c) as Hlt.
  assert (idx c < 64) as H64 by (rewrite Nat.add_0_r in Hk; rewrite Hk in Hlt; exact Hlt).
  destruct (upd_split_ok UFK_NSIZES bit_set true (length P1) 0 (idx c) t p gives_set Hp Hok) as (p' & E & Hok' & Hpa' & Hal & Hsp);
    [unfold UFK_NSIZES; lia|lia|].
  exists (length P1), (mktab (freelinks t) (<[length P1 := p']> (plist t))). split; [|split; [|split]].
  - apply (page_of_block UFK_LEAF UFK_NSIZES NBIGPGS ufk_freelist true ufk_behind end_ PHYSTOP P1 P2 a t (plug c u)); [done|]. lia.
  - unfold set_mark, bind, get_pg. rewrite Hp, Hpa.
    by rewrite (blk_index_at UFK_LEAF UFK_NSIZES ufk_freelist ufk_behind end_ PHYSTOP).
  - split; [|done]. apply (tinv_upd _ _ _ _ _ _ P1 P2 a t (plug c u)); [done| |by destruct Ht].
    split; [cbn; congruence|]. split; [done|]. split; [|done]. cbn [snd]. revert Hb. apply bits_above; [by intros; rewrite Hal| |done].
    intros k j Hk0 Hj. rewrite Hsp by done. apply with_bit_ne. lia.
  - intros x Hx j Hj. unfold marks in Hx. cbn [plist] in Hx. apply list_elem_of_fmap in Hx as (q & -> & Hq). cbn [fst snd].
    apply list_elem_of_lookup in Hq as [i Hq]. destruct (decide (i = length P1)) as [->|Hne].
    + rewrite list_lookup_insert_eq in Hq by (by eapply lookup_lt_Some). injection Hq as <-.
      change (sp p' 0 j = bool_decide (pageaddr p' + j * UFK_LEAF ∈ M ++ [a + idx c * usize 0])). rewrite Hsp by lia. rewrite Hpa', Hpa.
      change (usize 0) with UFK_LEAF. destruct (decide (j = idx c)) as [->|Hj'].
      * rewrite with_bit_eq. symmetry. apply bool_decide_eq_true. set_solver.
      * rewrite with_bit_ne by naive_solver. rewrite (marks_at t M _ p j Hmk Hp Hj), Hpa.
        apply bool_decide_ext. rewrite elem_of_app, list_elem_of_singleton. unfold UFK_LEAF. split; [by left|]. intros [|E']; [done|]. lia.
    + rewrite list_lookup_insert_ne in Hq by done. change (sp q 0 j = bool_decide (pageaddr q + j * UFK_LEAF ∈ M ++ [a + idx c * usize 0])).
      rewrite (marks_at t M i q j Hmk Hq Hj). apply bool_decide_ext. rewrite elem_of_app, list_elem_of_singleton. split; [by left|]. intros [|E']; [done|exfalso].
      pose proof (other_entry t P1 P2 a _ i q Hinv Hq Hne) as Ho. change (usize 0) with 8192 in E'. unfold UFK_LEAF in E'.
      change (HEAP_SIZE UFK_LEAF UFK_NSIZES) with 524288 in Hpos. change BIGPG_SIZE with 524288 in Ho. change (usize 0) with 8192 in Hpos.
      assert (a ∈ (forest P1 P2 a (plug c u)).*1) as Ha by (unfold forest; rewrite fmap_app; apply elem_of_app; right; by left).
      destruct (low_addr t _ a Hinv Ha). lia.
Qed.

(** ** Allocation *)

Lemma ufkM_ok {A} (m : M table A) s x t : m (ufk s) = Ok x t -> ufkM m s = Ok x (mkheap t (bd s) (allocated s)).
Proof. intros E. unfold ufkM. by rewrite E. Qed.
Lemma bdM_ok {A} (m : M table A) s x t : m (bd s) = Ok x t -> bdM m s = Ok x (mkheap (ufk s) t (allocated s)).
Proof. intros E. unfold bdM. by rewrite E. Qed.

Lemma fresh_addr t U U' k p : uinv t U' -> uleaves is_used U' ≡ₚ (k, p) :: uleaves is_used U -> p ∉ (uleaves is_used U).*2.
Proof.
  intros Hinv Hp. destruct (used_apart UFK_LEAF UFK_NSIZES NBIGPGS ufk_freelist ufk_behind end_ PHYSTOP t U' Hinv) as [Ha _].
  rewrite Hp in Ha. apply (apart_nodup usize upos) in Ha. cbn in Ha. by apply NoDup_cons in Ha as [? _].
Qed.

Lemma given_addr (U : list (Z * bt)) M m : Forall (fun m => (0%nat, m) ∈ uleaves is_used U) M -> m ∈ M -> m ∈ (uleaves is_used U).*2.
Proof. rewrite Forall_forall. intros H Hm. apply list_elem_of_fmap. exists (0%nat, m). auto. Qed.

#[local] Instance big_perm M : Proper ((≡ₚ) ==> (≡ₚ)) (big M).
Proof. intros L L' H. unfold big. by rewrite H. Qed.
Lemma big_cons M k p L : p ∉ M -> big M ((k, p) :: L) = ((8 + k)%nat, p) :: big M L.
Proof. intros H. unfold big. by rewrite filter_cons_True. Qed.
Lemma big_given M k m L : m ∉ L.*2 -> big (M ++ [m]) ((k, m) :: L) = big M L.
Proof.
  intros H. unfold big. rewrite filter_cons_False by (cbn; set_solver). f_equal. induction L as [|[k' y] L IH]; [done|].
  rewrite !filter_cons. cbn [snd fmap list_fmap] in *. rewrite IH by set_solver. repeat case_decide; set_solver.
Qed.

(** What is handed out is in a page. *)
Lemma used_addr t U k p : uinv t U -> (k, p) ∈ uleaves is_used U -> Forall (fun a => a mod BIGPG_SIZE = 0) (U.*1) ->
  0x80000000 <= p /\ p + usize k <= PHYSTOP /\ end_ <= p /\ p mod UFK_LEAF = 0.
Proof.
  intros Hinv Hp Hal.
  destruct (block_entry UFK_LEAF UFK_NSIZES NBIGPGS ufk_freelist true ufk_behind end_ PHYSTOP is_used t U k p p Hinv Hp) as (i & q & j & _ & _ & _ & Ha & Hj & E & Hh & Hk).
  { pose proof (upos k). lia. }
  destruct (low_addr t U _ Hinv Ha) as [Hlo Hhi]. pose proof Hinv as [[_ _ Hpl _] _].
  destruct (placed_in UFK_LEAF UFK_NSIZES end_ PHYSTOP _ _ Hpl Ha) as [Hend _]. pose proof (upos k).
  change (HEAP_SIZE UFK_LEAF UFK_NSIZES) with BIGPG_SIZE in Hh. rewrite Forall_forall in Hal. specialize (Hal _ Ha). split_and!; [nia|lia|nia|].
  rewrite E. unfold BLK_SIZE. rewrite Z.mul_assoc, Z.mod_add by done. change BIGPG_SIZE with (64 * UFK_LEAF) in Hal.
  rewrite Z.mul_comm, Z.rem_mul_r in Hal by done. pose proof (Z.mod_pos_bound (pageaddr q) UFK_LEAF ltac:(done)).
  pose proof (Z.mod_pos_bound (pageaddr q / UFK_LEAF) 64 ltac:(done)). unfold UFK_LEAF in *. lia.
Qed.

(** The branch for large blocks. *)
Lemma alloc_large d s U D M n : kinv s U D M -> PGSIZE <= n <= 2 ^ 30 ->
  (exists k p s' U', ufkalloc_at ufk_freelist bd_freelist (S d) n s = Ok p s' /\ kinv s' U' D M /\ bd s' = bd s /\
     firstk UFK_LEAF n = Some k /\ n <= usize k /\ uleaves is_used U' ≡ₚ (k, p) :: uleaves is_used U) \/
  (ufkalloc_at ufk_freelist bd_freelist (S d) n s = Panic "[ufkalloc] could not allocate" /\
     forall k x, (k, x) ∈ uleaves is_free U -> usize k < n).
Proof.
  intros Hk Hn. cbn [ufkalloc_at]. unfold bind at 1, modify. destruct (Z.ltb_spec n PGSIZE); [lia|].
  destruct Hk as [Hu Hd Hal Hg Hpg Hmk].
  destruct (bd_alloc_ok UFK_LEAF UFK_NSIZES NBIGPGS ufk_freelist true ufk_behind end_ PHYSTOP (panic "[_ufk_alloc] cannot get page index") (ufk s) U n Hu ltac:(lia))
    as (fk & Ef & Hfk & [(p & t & U' & E & Hinv & Hb & Hp)|[E Hno]]).
  - left. assert ((fk, p) ∈ uleaves is_used U') as Hin by (rewrite Hp; by left). rewrite <-Hb in Hal.
    destruct (used_addr t U' fk p Hinv Hin Hal) as (Hlo & _). eexists fk, p, _, U'. split; [|split; [|split; [|done]]].
    + unfold bind. erewrite (ufkM_ok (_ufkalloc ufk_freelist n)) by exact E. destruct (Z.eqb_spec p 0); [lia|]. reflexivity.
    + constructor; cbn [ufk bd]; try done.
      * eapply Forall_impl; [exact Hg|]. intros m Hm. cbn in *. rewrite Hp. by right.
      * pose proof (keeps_alloc UFK_LEAF UFK_NSIZES ufk_freelist true _ n (keeps_panic (A := Z) "[_ufk_alloc] cannot get page index") (ufk s)) as Hke.
        unfold ret in *. rewrite E in Hke. unfold marks_ok. by rewrite Hke.
    + done.
  - right. split; [|done]. unfold bind. erewrite (ufkM_ok (_ufkalloc ufk_freelist n)) by exact E. done.
Qed.

(** A block of 8 KiB becomes two pages of [bd]. *)
Lemma give_ok s U U0 D M m : kinv s U D M -> uleaves is_used U ≡ₚ (0%nat, m) :: uleaves is_used U0 ->
  Forall (fun m => (0%nat, m) ∈ uleaves is_used U0) M -> (length D < BD_PAGES)%nat ->
  exists i s1 s2 s3, ufkM (get_pageindex m) s = Ok (Some i) s /\ ufkM (set_mark i m) s = Ok tt s1 /\
    bdM (kbd_addpage bd_freelist m) s1 = Ok tt s2 /\ bdM (kbd_addpage bd_freelist (m + PGSIZE)) s2 = Ok tt s3 /\
    kinv s3 U (D ++ [(m, Free)] ++ [(m + PGSIZE, Free)]) (M ++ [m]).
Proof.
  intros [Hu Hd Hal Hg Hpg Hmk] Hp Hg0 Hroom. assert ((0%nat, m) ∈ uleaves is_used U) as Hin by (rewrite Hp; by left).
  destruct (set_mark_ok (ufk s) U M m Hu Hin Hmk) as (i & t & E1 & E2 & Hu' & Hmk').
  destruct (used_addr (ufk s) U 0 m Hu Hin Hal) as (Hlo & Hhi & Hend & _). change (usize 0) with 8192 in Hhi.
  destruct (used_apart UFK_LEAF UFK_NSIZES NBIGPGS ufk_freelist ufk_behind end_ PHYSTOP (ufk s) U Hu) as [Hap _].
  rewrite Hp in Hap. destruct Hap as [Hap _]. rewrite Forall_forall in Hap.
  assert (forall d, d ∈ D.*1 -> m + 8192 <= d \/ d + PGSIZE <= m) as Hfar.
  { intros d Hdin. rewrite Hpg in Hdin. apply list_elem_of_bind in Hdin as (m' & Hdin & Hm'). rewrite Forall_forall in Hg0.
    specialize (Hap _ (Hg0 _ Hm')). unfold disj in Hap. cbn [fst snd] in Hap. change (usize 0) with 8192 in Hap. unfold PGSIZE in *.
    apply elem_of_cons in Hdin as [->|Hdin]; [lia|]. apply list_elem_of_singleton in Hdin as ->. lia. }
  assert (length D = 2 * length M)%nat as Hlen.
  { rewrite <-(length_fmap fst D), Hpg. clear. induction M as [|x M IH]; [done|]. rewrite bind_cons, length_app, IH. cbn [length]. lia. }
  unfold BD_PAGES in Hroom. pose proof Hd as [[_ _ Hpl _] _].
  assert (placed BD_LEAF BD_NSIZES end_ PHYSTOP ((D ++ [(m, Free)]).*1)) as Hpl1.
  { rewrite fmap_app. cbn [fmap list_fmap fst]. apply placed_snoc; [done|done|change (m + PGSIZE <= PHYSTOP); unfold PGSIZE; lia|]. change (HEAP_SIZE BD_LEAF BD_NSIZES) with PGSIZE. apply Forall_forall. intros d Hdin. destruct (Hfar d Hdin); unfold PGSIZE in *; lia. }
  destruct (bd_addpage_ok BD_LEAF BD_NSIZES BD_PAGES bd_freelist bd_behind end_ PHYSTOP (bd s) D m Hd) as (b1 & E3 & Hd1); [unfold BD_PAGES; lia|done|].
  assert (placed BD_LEAF BD_NSIZES end_ PHYSTOP (((D ++ [(m, Free)]) ++ [(m + PGSIZE, Free)]).*1)) as Hpl2.
  { rewrite fmap_app. cbn [fmap list_fmap fst].
    apply placed_snoc; [done|unfold PGSIZE; lia|change (m + PGSIZE + PGSIZE <= PHYSTOP); unfold PGSIZE; lia|]. change (HEAP_SIZE BD_LEAF BD_NSIZES) with PGSIZE. apply Forall_forall. intros d Hdin. rewrite fmap_app in Hdin.
    apply elem_of_app in Hdin as [Hdin|Hdin]; [destruct (Hfar d Hdin); unfold PGSIZE in *; lia|]. apply list_elem_of_singleton in Hdin as ->. cbn [fst]. lia. }
  destruct (bd_addpage_ok BD_LEAF BD_NSIZES BD_PAGES bd_freelist bd_behind end_ PHYSTOP b1 (D ++ [(m, Free)]) (m + PGSIZE) Hd1) as (b2 & E4 & Hd2);
    [rewrite length_app; cbn; unfold BD_PAGES; lia|done|].
  exists i. eexists _, _, _. split; [rewrite (ufkM_ok _ _ _ _ E1); by destruct s|]. split; [by apply ufkM_ok|]. split; [by apply bdM_ok|]. split; [by apply bdM_ok|].
  rewrite <-app_assoc in Hd2. constructor; cbn [ufk bd]; try done.
  - apply Forall_app. split; [done|by constructor].
  - rewrite !fmap_app, Hpg, bind_app. done.
Qed.

Lemma give_full s m D : dinv (bd s) D -> length D = BD_PAGES -> bdM (kbd_addpage bd_freelist m) s = Panic "[bd_addpage] cannot add new page".
Proof.
  intros Hd Hl. unfold bdM, kbd_addpage.
  by rewrite (bd_addpage_full BD_LEAF BD_NSIZES BD_PAGES bd_freelist bd_behind end_ PHYSTOP (bd s) D).
Qed.

Lemma kbd_alloc_ok s U D M n : kinv s U D M -> n <= 2 ^ 30 ->
  (exists k p s' D', bdM (kbd_alloc bd_freelist n) s = Ok p s' /\ p <> 0 /\ kinv s' U D' M /\ n <= size k /\
     dleaves is_used D' ≡ₚ (k, p) :: dleaves is_used D /\ end_ <= p /\ p + size k <= PHYSTOP) \/
  (bdM (kbd_alloc bd_freelist n) s = Ok 0 s /\ forall k x, (k, x) ∈ dleaves is_free D -> size k < n).
Proof.
  intros [Hu Hd Hal Hg Hpg Hmk] Hn.
  destruct (bd_alloc_ok BD_LEAF BD_NSIZES BD_PAGES bd_freelist false bd_behind end_ PHYSTOP undef (bd s) D n Hd Hn)
    as (fk & _ & Hfk & [(p & t & D' & E & Hinv & Hb & Hp)|[E Hno]]).
  - left. exists fk, p, (mkheap (ufk s) t (allocated s)), D'.
    assert ((fk, p) ∈ dleaves is_used D') as Hin by (rewrite Hp; by left).
    destruct (used_apart BD_LEAF BD_NSIZES BD_PAGES bd_freelist bd_behind end_ PHYSTOP t D' Hinv) as [_ Hpage].
    destruct (Hpage fk p Hin) as (a & Ha & H1 & H2). pose proof Hinv as [[_ _ Hpl _] _].
    destruct (placed_in BD_LEAF BD_NSIZES end_ PHYSTOP _ _ Hpl Ha) as [H3 H4]. destruct HL as [He _ _ _].
    split_and!; [by apply bdM_ok|lia| |done|done|lia|lia]. constructor; cbn [ufk bd]; try done. congruence.
  - right. split; [|done]. rewrite (bdM_ok (kbd_alloc bd_freelist n) _ _ _ E). by destruct s.
Qed.

(** A block that is large enough and apart from all others, or a panic because no
    table has such a block. *)
Definition alloc_result (n : Z) (U D : list (Z * bt)) (M : list Z) (r : outcome kheap Z) : Prop :=
  (exists k p s' U' D' M', r = Ok p s' /\ kinv s' U' D' M' /\ n <= size k /\
     blocks U' D' M' ≡ₚ (k, p) :: blocks U D M /\ end_ <= p /\ p + size k <= PHYSTOP /\ (PGSIZE <= n -> p mod UFK_LEAF = 0)) \/
  (r = Panic "[ufkalloc] could not allocate" /\
     (forall k x, (k, x) ∈ uleaves is_free U -> PGSIZE <= n /\ usize k < n) /\
     (n < PGSIZE -> forall k x, (k, x) ∈ dleaves is_free D -> size k < n)) \/
  (r = Panic "[bd_addpage] cannot add new page" /\ n < PGSIZE /\ length D = BD_PAGES /\
     forall k x, (k, x) ∈ dleaves is_free D -> size k < n).

(** The branch for small blocks, after the count. *)
Lemma alloc_small s U D M n : kinv s U D M -> n < PGSIZE ->
  alloc_result n U D M ((p ← bdM (kbd_alloc bd_freelist n);
    if p =? 0 then
      p ← ufkalloc_at ufk_freelist bd_freelist 1 PGSIZE;
      i ← ufkM (get_pageindex p);
      match i with
      | None => panic "[ufkalloc] cannot get page index"
      | Some pindex =>
          ufkM (set_mark pindex p);; bdM (kbd_addpage bd_freelist p);; bdM (kbd_addpage bd_freelist (p + PGSIZE));;
          p ← bdM (kbd_alloc bd_freelist n);
          if p =? 0 then panic "[ufkalloc] cannot alloc..." else ret p
      end
    else ret p) s).
Proof.
  intros Hk Hsm. assert (n <= 2 ^ 30) as Hn by (unfold PGSIZE in *; lia).
  destruct (kbd_alloc_ok s U D M n Hk Hn) as [(k & p & s' & D' & E & Hp0 & Hk' & Hsz & Hp & Hlo & Hhi)|[E Hno]]; unfold bind at 1; rewrite E.
  { left. exists k, p, s', U, D', M. destruct (Z.eqb_spec p 0); [done|]. split_and!; try done; [|unfold PGSIZE in *; lia].
    unfold blocks. rewrite Hp. symmetry. apply Permutation_middle. }
  rewrite Z.eqb_refl. destruct (alloc_large 0 s U D M PGSIZE Hk ltac:(unfold PGSIZE; lia)) as [(k & m & s1 & U' & E1 & Hk1 & Hbd & Ef & _ & Hp)|[E1 Hno1]];
    unfold bind at 1; rewrite E1.
  2: { right. left. split; [done|]. split; [|done]. intros k x Hx. specialize (Hno1 k x Hx). exfalso.
       pose proof (blk_mono UFK_LEAF ltac:(done) 0 k ltac:(lia)). change (usize 0) with 8192 in *. unfold PGSIZE in *. lia. }
  change (firstk UFK_LEAF PGSIZE) with (Some 0%nat) in Ef. injection Ef as <-.
  pose proof (fresh_addr _ _ _ _ _ (ki_ufk _ _ _ _ Hk1) Hp) as Hfr. pose proof (ti_room _ _ _ _ _ _ _ _ (proj1 (ki_bd _ _ _ _ Hk))) as Hroom.
  destruct (decide (length D = BD_PAGES)) as [Hfull|Hfull].
  - right. right. split; [|done]. assert ((0%nat, m) ∈ uleaves is_used U') as Hin by (rewrite Hp; by left).
    destruct (set_mark_ok (ufk s1) U' M m (ki_ufk _ _ _ _ Hk1) Hin (ki_marks _ _ _ _ Hk1)) as (i & t & E2 & E3 & _ & _).
    unfold bind. rewrite (ufkM_ok _ _ _ _ E2). rewrite (ufkM_ok _ (mkheap _ _ _) _ _ E3).
    rewrite (give_full _ m D); [done| |done]. cbn [bd]. apply (ki_bd _ _ _ _ Hk1).
  - left. destruct (give_ok s1 U' U D M m Hk1 Hp (ki_given _ _ _ _ Hk)) as (i & s2 & s3 & s4 & E2 & E3 & E4 & E5 & Hk4); [lia|].
    unfold bind at 1. rewrite E2. unfold bind at 1. rewrite E3. unfold bind at 1. rewrite E4. unfold bind at 1. rewrite E5. unfold bind at 1.
    destruct (kbd_alloc_ok s4 U' _ (M ++ [m]) n Hk4 Hn) as [(k & p & s' & D' & E6 & Hp0 & Hk' & Hsz & Hp' & Hlo & Hhi)|[E6 Hno6]]; rewrite E6.
    + exists k, p, s', U', D', (M ++ [m]). destruct (Z.eqb_spec p 0); [done|]. split_and!; try done; [|unfold PGSIZE in *; lia].
      unfold blocks. rewrite Hp', Hp, big_given by done. rewrite !all_leaves_app. cbn [all_leaves mbind list_bind leaves is_used app snd].
      rewrite !app_nil_r. symmetry. apply Permutation_middle.
    + exfalso. specialize (Hno6 7%nat m). change (size 7) with 4096 in Hno6. unfold PGSIZE in *. assert (4096 < n); [|lia]. apply Hno6.
      rewrite all_leaves_app. apply elem_of_app. right. by left.
Qed.

Lemma kheap_alloc_ok s U D M n : kinv s U D M -> n <= 2 ^ 30 -> alloc_result n U D M (ufkalloc ufk_freelist bd_freelist n s).
Proof.
  intros Hk Hn. destruct (Z.ltb_spec n PGSIZE) as [Hsm|Hlg].
  - apply (alloc_small (mkheap (ufk s) (bd s) (s32 (allocated s + 1))) U D M n) in Hsm as H; [|by destruct Hk].
    unfold ufkalloc. cbn [ufkalloc_at]. unfold bind at 1, modify. destruct (Z.ltb_spec n PGSIZE); [|lia]. exact H.
  - destruct (alloc_large 1 s U D M n Hk ltac:(lia)) as [(k & p & s' & U' & E & Hk' & _ & _ & Hsz & Hp)|[E Hno]].
    + left. assert ((k, p) ∈ uleaves is_used U') as Hin by (rewrite Hp; by left).
      destruct (used_addr (ufk s') U' k p (ki_ufk _ _ _ _ Hk') Hin (ki_align _ _ _ _ Hk')) as (_ & Hhi & Hend & Hal).
      exists (8 + k)%nat, p, s', U', D, M. rewrite <-usize_eq. split_and!; [done|done|done| |done|done|done].
      pose proof (fresh_addr _ _ _ _ _ (ki_ufk _ _ _ _ Hk') Hp) as Hfr.
      unfold blocks. rewrite Hp, big_cons; [done|]. intros Hm. apply Hfr. by apply (given_addr _ M); [apply (ki_given _ _ _ _ Hk)|].
    + right. left. split; [done|]. split; [|lia]. intros k x Hx. split; [done|eauto].
Qed.

(** ** Freeing *)

Lemma page_aligned a : a mod BIGPG_SIZE = 0 -> a mod UFK_LEAF = 0.
Proof. change BIGPG_SIZE with 524288. unfold UFK_LEAF. intros H. apply Z.mod_divide in H as [q ->]; [|lia]. replace (q * 524288) with (q * 64 * (8 * 1024)) by lia. by rewrite Z.mod_mul. Qed.

(** The mark at an address of a block in use is the one of its 8 KiB. *)
Lemma get_mark_ok t U M k x y : uinv t U -> (k, x) ∈ uleaves is_used U -> Forall (fun a => a mod BIGPG_SIZE = 0) (U.*1) -> marks_ok t M ->
  x <= y < x + usize k ->
  exists i p, get_pageindex y t = Ok (Some i) t /\ plist t !! i = Some p /\
    get_mark ufk_behind i y t = Ok (bool_decide (y - y mod UFK_LEAF ∈ M)) t.
Proof.
  intros Hinv Hx Hal Hmk Hy.
  destruct (block_entry UFK_LEAF UFK_NSIZES NBIGPGS ufk_freelist true ufk_behind end_ PHYSTOP is_used t U k x y Hinv Hx Hy) as (i & p & j & Ei & Hp & Hok & Ha & Hj & E & Hh & Hk).
  exists i, p. split; [done|]. split; [done|]. rewrite Forall_forall in Hal. apply Hal, page_aligned in Ha.
  change (HEAP_SIZE UFK_LEAF UFK_NSIZES) with 524288 in Hh. pose proof (upos k). unfold get_mark, bind, get_pg. rewrite Hp.
  assert (0 <= y - pageaddr p < 524288) as Hoff by nia. set (o := y - pageaddr p) in *.
  assert (blk_index UFK_LEAF 0 y (pageaddr p) = o / UFK_LEAF) as ->.
  { unfold blk_index. fold o. rewrite s32_small by lia. apply Z.quot_div_nonneg; [lia|done]. }
  assert (0 <= o / UFK_LEAF < 64) by (split; [by apply Z.div_pos; unfold UFK_LEAF; lia|by apply Z.div_lt_upper_bound; unfold UFK_LEAF; lia]).
  rewrite (test_split_ok UFK_NSIZES ufk_behind i 0 _ t p Hp Hok) by (unfold UFK_NSIZES; lia). rewrite (marks_at t M i p _ Hmk Hp) by done.
  do 2 f_equal. replace (pageaddr p + o / UFK_LEAF * UFK_LEAF) with (y - y mod UFK_LEAF); [done|].
  replace (y mod UFK_LEAF) with (o mod UFK_LEAF).
  - pose proof (Z.div_mod o UFK_LEAF ltac:(done)). unfold o in *. lia.
  - unfold o. rewrite Zminus_mod, Ha, Z.sub_0_r. by apply Z.mod_mod.
Qed.

Lemma ufkfree_run s x i b : get_pageindex x (ufk s) = Ok (Some i) (ufk s) -> get_mark ufk_behind i x (ufk s) = Ok b (ufk s) ->
  ufkfree ufk_freelist bd_freelist ufk_behind bd_behind x s =
  (if b then bdM (kbd_free bd_freelist bd_behind x) else g ← ufkM (get_pg i); ufkM (_ufkfree ufk_freelist ufk_behind x i (pageaddr g)))
    (mkheap (ufk s) (bd s) (s32 (allocated s - 1))).
Proof. intros E1 E2. unfold ufkfree, bind, modify, ufkM. cbn [ufk bd allocated]. rewrite E1. cbn [ufk bd allocated]. by rewrite E2. Qed.

(** [ufkfree] of a block: exactly this block is no longer in use. *)
Lemma kheap_free_ok s U D M k x : kinv s U D M -> (k, x) ∈ blocks U D M ->
  exists s' U' D', ufkfree ufk_freelist bd_freelist ufk_behind bd_behind x s = Ok tt s' /\ kinv s' U' D' M /\
    blocks U D M ≡ₚ (k, x) :: blocks U' D' M.
Proof.
  intros Hk Hx. unfold blocks in Hx. apply elem_of_app in Hx as [Hx|Hx].
  - apply big_in in Hx as (k' & -> & Hx & HxM). destruct Hk as [Hu Hd Hal Hg Hpg Hmk].
    destruct (get_mark_ok (ufk s) U M k' x x Hu Hx Hal Hmk) as (i & p & E1 & Hp & E2); [pose proof (upos k'); lia|].
    destruct (used_addr (ufk s) U k' x Hu Hx Hal) as (_ & _ & _ & Hax). rewrite Hax, Z.sub_0_r, bool_decide_eq_false_2 in E2 by done.
    destruct (free_at_ok UFK_LEAF UFK_NSIZES NBIGPGS ufk_freelist true ufk_behind end_ PHYSTOP (ufk s) U k' x Hu Hx)
      as (i' & p' & t & U' & E1' & Hp' & E3 & Hu' & Hb & Hperm). unfold get_pageindex in E1. rewrite E1 in E1'. injection E1' as <-. rewrite Hp in Hp'. injection Hp' as <-.
    eexists _, U', D. split; [|split].
    + rewrite (ufkfree_run s x i false E1 E2). unfold bind, ufkM, get_pg, _ufkfree. cbn [ufk bd allocated].
      rewrite Hp. cbn [ufk bd allocated]. rewrite E3. reflexivity.
    + constructor; cbn [ufk bd]; try done; [by rewrite Hb| |].
      * apply Forall_forall. intros m Hm. rewrite Forall_forall in Hg. specialize (Hg m Hm). rewrite Hperm in Hg.
        apply elem_of_cons in Hg as [[= <- <-]|Hg]; [done|done].
      * pose proof (keeps_free_in UFK_LEAF UFK_NSIZES ufk_freelist ufk_behind i x (pageaddr p) (ufk s)) as Hke. rewrite E3 in Hke.
        unfold marks_ok. by rewrite Hke.
    + unfold blocks. by rewrite Hperm, big_cons.
  - destruct (small_in _ _ _ _ _ _ Hk Hx) as (m & Hm & Hmu & H1 & H2). destruct Hk as [Hu Hd Hal Hg Hpg Hmk].
    destruct (get_mark_ok (ufk s) U M 0 m x Hu Hmu Hal Hmk) as (i & p & E1 & Hp & E2); [pose proof (dpos k); lia|].
    destruct (used_addr (ufk s) U 0 m Hu Hmu Hal) as (_ & _ & _ & Hax).
    assert (x - x mod UFK_LEAF = m) as Em.
    { apply Z.mod_divide in Hax as [q ->]; [|done]. replace x with ((x - q * UFK_LEAF) + q * UFK_LEAF) at 2 by lia. rewrite Z.mod_add by done.
      change (usize 0) with UFK_LEAF in H2. pose proof (dpos k). rewrite Z.mod_small by lia. lia. }
    rewrite Em, bool_decide_eq_true_2 in E2 by done.
    destruct (bd_free_ok BD_LEAF BD_NSIZES BD_PAGES bd_freelist false bd_behind end_ PHYSTOP (bd s) D k x Hd Hx) as (t & D' & E3 & Hd' & Hb & Hperm).
    eexists _, U, D'. split; [|split].
    + rewrite (ufkfree_run s x i true E1 E2). by apply bdM_ok.
    + constructor; cbn [ufk bd]; try done. congruence.
    + unfold blocks. rewrite Hperm. symmetry. apply Permutation_middle.
Qed.

(** ** The start *)

Lemma BIGPGROUNDUP_spec z : 0 <= z < 2 ^ 63 -> BIGPGROUNDUP z mod BIGPG_SIZE = 0 /\ z <= BIGPGROUNDUP z < z + BIGPG_SIZE.
Proof.
  intros Hz. unfold BIGPGROUNDUP. change BIGPG_SIZE with 524288. rewrite u64_small by lia.
  replace (Z.lnot (524288 - 1)) with (Z.lnot (Z.ones 19)) by done.
  rewrite <-Z.ldiff_land, Z.ldiff_ones_r, Z.shiftr_div_pow2, Z.shiftl_mul_pow2 by lia.
  change (2 ^ 19) with 524288. pose proof (Z.div_mod (z + 524288 - 1) 524288).
  pose proof (Z.mod_pos_bound (z + 524288 - 1) 524288). split; [apply Z_mod_mult|lia].
Qed.

(** [n] free pages from [p] on. *)
Fixpoint pages_from (p : Z) (n : nat) : list (Z * bt) :=
  match n with
  | O => []
  | S n' => (p, Free) :: pages_from (p + BIGPG_SIZE) n'
  end.

(** No block is marked. *)
Definition clean (s : table) : Prop := Forall (fun p => split p !! 0%nat = Some (replicate 16 0)) (plist s).

Lemma table_loop_ok n : forall fuel s P p, (n < fuel)%nat -> uinv s P -> clean s -> (length P + n <= NBIGPGS)%nat ->
  Forall (fun b => b + BIGPG_SIZE <= p) (P.*1) -> end_ <= p -> p + Z.of_nat n * BIGPG_SIZE <= PHYSTOP < p + Z.of_nat (S n) * BIGPG_SIZE ->
  exists s', table_loop ufk_freelist fuel (length P) p PHYSTOP s = Ok tt s' /\ uinv s' (P ++ pages_from p n) /\ clean s'.
Proof.
  assert (0 < BIGPG_SIZE) as Hpos by done.
  induction n as [|n IH]; intros fuel s P p Hfu Hinv Hcl Hroom Hbelow Hlo Hhi; (destruct fuel as [|fuel]; [lia|]); cbn [table_loop pages_from].
  { destruct (Z.leb_spec (p + BIGPG_SIZE) PHYSTOP); [lia|]. exists s. by rewrite app_nil_r. }
  destruct (Z.leb_spec (p + BIGPG_SIZE) PHYSTOP); [|nia].
  destruct (add_at_ok UFK_LEAF UFK_NSIZES NBIGPGS ufk_freelist ufk_behind end_ PHYSTOP s P p Hinv) as (_ & l & E & Hinv'); [lia| |].
  { rewrite fmap_app. pose proof Hinv as [[_ _ Hpl _] _]. apply placed_snoc; [done|done|exact H|]. eapply Forall_impl; [exact Hbelow|]. intros b Hb. right. exact Hb. }
  destruct (IH fuel (mktab l (<[length P := added UFK_NSIZES p]> (plist s))) (P ++ [(p, Free)]) (p + BIGPG_SIZE)) as (s' & E' & Hinv'' & Hcl'); [lia|done| | | |lia|lia|].
  - unfold clean. cbn [plist]. by apply Forall_insert.
  - rewrite length_app. cbn. lia.
  - rewrite fmap_app. apply Forall_app. split; [eapply Forall_impl; [exact Hbelow|]; cbn; lia|]. constructor; [cbn; lia|constructor].
  - exists s'. rewrite length_app, Nat.add_1_r in E'. rewrite <-app_assoc in Hinv''. split; [|done].
    rewrite <-E'. revert E. unfold bind. destruct (get_pg (length P) s) as [q s1| | | |]; try done. destruct (put_pg _ _ s1) as [[] s2| | | |]; try done.
    intros ->. done.
Qed.

Lemma clean_marks s : clean s -> marks_ok s [].
Proof.
  intros Hc x Hx j Hj. apply list_elem_of_fmap in Hx as (p & -> & Hp). unfold clean in Hc. rewrite Forall_forall in Hc. cbn [fst snd].
  rewrite (Hc p Hp), bool_decide_eq_false_2 by (by intros ?%elem_of_nil). apply bit_zero.
Qed.

Lemma pages_aligned p n : p mod BIGPG_SIZE = 0 -> Forall (fun a => a mod BIGPG_SIZE = 0) ((pages_from p n).*1).
Proof.
  revert p. induction n as [|n IH]; intros p Hp; [constructor|]. cbn [pages_from fmap list_fmap fst]. constructor; [done|]. apply IH.
  replace (p + BIGPG_SIZE) with (p + 1 * BIGPG_SIZE) by lia. by rewrite Z.mod_add.
Qed.

Lemma pages_unused p n : blocks (pages_from p n) [] [] = [].
Proof.
  unfold blocks. rewrite app_nil_r. assert (uleaves is_used (pages_from p n) = []) as ->; [|done].
  revert p. induction n as [|n IH]; intros p; [done|]. cbn [pages_from]. rewrite all_leaves_cons. cbn. apply IH.
Qed.

Definition npages : nat := Z.to_nat ((PHYSTOP - BIGPGROUNDUP end_) / BIGPG_SIZE).

(** [ufkinit]: the whole pages between the kernel and the end of memory are free. *)
Lemma ufkinit_ok s : BIGPGROUNDUP end_ <= PHYSTOP ->
  exists s', ufkinit ufk_freelist bd_freelist end_ s = Ok tt s' /\ kinv s' (pages_from (BIGPGROUNDUP end_) npages) [] [].
Proof.
  intros Hfit. destruct HL as [He _ _ _]. destruct (BIGPGROUNDUP_spec end_) as [Hal [Hlo Hhi]]; [rewrite PHYSTOP_eq in He; lia|].
  set (p := BIGPGROUNDUP end_) in *. change BIGPG_SIZE with 524288 in *. rewrite PHYSTOP_eq in *.
  pose proof (Z.div_mod (2281701376 - p) 524288 ltac:(lia)). pose proof (Z.mod_pos_bound (2281701376 - p) 524288 ltac:(lia)).
  assert (0 <= (2281701376 - p) / 524288 <= 256) as Hn by (split; [apply Z.div_pos; lia|apply Z.div_le_upper_bound; lia]).
  set (s0 := mktab (freelinks (ufk s)) (replicate NBIGPGS (empty_page UFK_NSIZES))).
  destruct (init_lists_ok UFK_LEAF UFK_NSIZES ufk_freelist ufk_behind end_ PHYSTOP UFK_NSIZES 0 s0) as (l & E1 & Hl); [lia|lia|].
  assert (uinv (mktab l (plist s0)) []) as Hinv0.
  { split; [|done]. split; [|cbn; lia|done|]; [exists []; by rewrite Nat.sub_0_r|]. exists (fun _ => []). intros k Hk. split; [apply Hl; lia|done]. }
  destruct (table_loop_ok npages (S npages) (mktab l (plist s0)) [] p) as (t & E2 & Hinv & Hcl);
    [lia|done|by apply Forall_replicate|unfold npages, NBIGPGS; change BIGPG_SIZE with 524288; rewrite PHYSTOP_eq; fold p; cbn [length]; lia|constructor|done| |].
  { unfold npages. change BIGPG_SIZE with 524288. rewrite PHYSTOP_eq. fold p. lia. }
  destruct (bd_init_ok BD_LEAF BD_NSIZES BD_PAGES bd_freelist bd_behind end_ PHYSTOP (bd s)) as (b & E3 & Hd).
  eexists. split.
  - unfold ufkinit, bind at 1. erewrite (ufkM_ok (table_init _ _ _)).
    2: { unfold table_init, bind at 1, modify. unfold bind. fold s0. rewrite E1. fold p. exact E2. }
    apply bdM_ok. exact E3.
  - constructor; cbn [ufk bd]; try done; [|by apply clean_marks]. by apply pages_aligned.
Qed.
End heap.

(** * Clients *)

(** A client of the allocator: it allocates, and frees blocks that it holds, by their
    place in its list. *)
Inductive request := RAlloc (n : Z) | RFree (i : nat).
Definition request_ok (r : request) : Prop := match r with RAlloc n => n <= 2 ^ 30 | RFree _ => True end.

Section clients.
Context (ufk_freelist bd_freelist : nat -> Z) (ufk_behind bd_behind : bytes) (end_ : Z).
Context `{HL : Layout ufk_freelist bd_freelist ufk_behind bd_behind end_}.
Abbreviation size := (BLK_SIZE BD_LEAF).
Abbreviation heap_inv := (kinv ufk_freelist bd_freelist end_).

(** The blocks held are known by the size asked for and the address. *)
Fixpoint client (l : list request) (held : list (Z * Z)) : M kheap (list (Z * Z)) :=
  match l with
  | [] => ret held
  | RAlloc n :: l' => p ← ufkalloc ufk_freelist bd_freelist n; client l' ((n, p) :: held)
  | RFree i :: l' =>
      match held !! i with
      | None => client l' held
      | Some x => ufkfree ufk_freelist bd_freelist ufk_behind bd_behind x.2;; client l' (delete i held)
      end
  end.

Definition region_of (h : Z * Z) (b : nat * Z) : Prop := h.2 = b.2 /\ h.1 <= size b.1 /\ end_ <= b.2 /\ b.2 + size b.1 <= PHYSTOP.

Definition served (r : outcome kheap (list (Z * Z))) : Prop :=
  match r with
  | Ok held s => exists U D M H, heap_inv s U D M /\ H ≡ₚ blocks U D M /\ Forall2 region_of held H
  | Panic msg => msg = "[ufkalloc] could not allocate"%string \/ msg = "[bd_addpage] cannot add new page"%string
  | _ => False
  end.

Lemma client_ok l : forall held s U D M H, Forall request_ok l -> heap_inv s U D M -> H ≡ₚ blocks U D M -> Forall2 region_of held H ->
  served (client l held s).
Proof.
  induction l as [|[n|i] l IH]; intros held s U D M H Hl Hk HH Hf; cbn [client].
  - exists U, D, M, H. done.
  - inversion Hl as [|? ? Hn Hl']; subst. unfold bind.
    destruct (kheap_alloc_ok ufk_freelist bd_freelist ufk_behind bd_behind end_ s U D M n Hk Hn)
      as [(k & p & s' & U' & D' & M' & -> & Hk' & Hsz & Hb & Hlo & Hhi & _)|[[-> _]|[-> _]]]; [|by left|by right].
    apply (IH _ s' U' D' M' ((k, p) :: H)); [done|done|by rewrite HH|]. by constructor.
  - inversion Hl as [|? ? _ Hl']; subst. destruct (held !! i) as [[n p]|] eqn:Ei; [|by eapply IH].
    destruct (Forall2_lookup_l _ _ _ _ _ Hf Ei) as ([k p'] & EH & (E & _)). cbn [fst snd] in E. subst p'.
    assert ((k, p) ∈ blocks U D M) as Hin by (rewrite <-HH; by eapply list_elem_of_lookup_2).
    destruct (kheap_free_ok ufk_freelist bd_freelist ufk_behind bd_behind end_ s U D M k p Hk Hin) as (s' & U' & D' & E' & Hk' & Hb).
    unfold bind. cbn [snd]. rewrite E'. apply (IH _ s' U' D' M (delete i H)); [done|done| |by apply Forall2_delete].
    apply delete_Permutation in EH. apply (Permutation_cons_inv (a := (k, p))). by rewrite <-EH, <-Hb.
Qed.

Lemma apart_lookup sz (L : list (nat * Z)) i j x y : apart sz L -> L !! i = Some x -> L !! j = Some y -> i <> j -> disj sz x y.
Proof.
  revert i j. induction L as [|z L IH]; intros i j Ha Hi Hj Hne; [done|]. destruct Ha as [Hf Ha]. rewrite Forall_forall in Hf.
  destruct i as [|i], j as [|j]; cbn in Hi, Hj; [done|simplify_eq; apply Hf; by eapply list_elem_of_lookup_2|
    simplify_eq; apply disj_sym, Hf; by eapply list_elem_of_lookup_2|apply (IH i j); [done|done|done|lia]].
Qed.

End clients.

(** * The theorems *)

(** C28: Whatever a client asks of the kernel's allocator after [ufkinit], allocating any
    sizes up to 1 GiB and freeing blocks that it holds in any order, the calls return or
    panic because memory has run out; the regions it holds at the end lie between the
    end of the kernel and the end of memory, and no two of them overlap. *)
Theorem heap_client_safe ufk_freelist bd_freelist ufk_behind bd_behind end_ l s : Layout ufk_freelist bd_freelist ufk_behind bd_behind end_ -> BIGPGROUNDUP end_ <= PHYSTOP -> Forall request_ok l ->
  match (ufkinit ufk_freelist bd_freelist end_;; client ufk_freelist bd_freelist ufk_behind bd_behind l []) s with
  | Ok held _ =>
      Forall (fun h => end_ <= h.2 /\ h.2 + h.1 <= PHYSTOP) held /\
      forall i j x y, held !! i = Some x -> held !! j = Some y -> i <> j -> x.2 + x.1 <= y.2 \/ y.2 + y.1 <= x.2
  | Panic msg => msg = "[ufkalloc] could not allocate"%string \/ msg = "[bd_addpage] cannot add new page"%string
  | _ => False
  end.
Proof.
  intros HL Hfit Hl. destruct (ufkinit_ok ufk_freelist bd_freelist ufk_behind bd_behind end_ s Hfit) as (s1 & E & Hk). unfold bind. rewrite E.
  pose proof (client_ok ufk_freelist bd_freelist ufk_behind bd_behind end_ l [] s1 _ [] [] [] Hl Hk) as Hs. rewrite pages_unused in Hs. specialize (Hs (Permutation_refl _) ltac:(constructor)).
  destruct (client _ _ _ _ l [] s1) as [held s2| | | |]; try done. destruct Hs as (U & D & M & H & Hk2 & HH & Hf). split.
  - apply Forall_forall. intros h Hh. apply list_elem_of_lookup in Hh as [i Hi].
    destruct (Forall2_lookup_l _ _ _ _ _ Hf Hi) as (b & _ & (E1 & E2 & E3 & E4)). rewrite E1. lia.
  - intros i j x y Hi Hj Hne. destruct (Forall2_lookup_l _ _ _ _ _ Hf Hi) as (b & Hb & (E1 & E2 & _ & _)).
    destruct (Forall2_lookup_l _ _ _ _ _ Hf Hj) as (b' & Hb' & (E1' & E2' & _ & _)).
    pose proof (blocks_apart ufk_freelist bd_freelist ufk_behind bd_behind end_ s2 U D M Hk2) as Ha. rewrite <-HH in Ha.
    destruct (apart_lookup _ _ i j b b' Ha Hb Hb' Hne); rewrite E1, E1'; lia.
Qed.

(** A kernel that ends at 0x80030000. *)
Lemma ex_layout : Layout ex_ufk_heads ex_bd_heads [0] [0] 0x80030000.
Proof.
  constructor; [done| | |by repeat constructor]; intros k Hk; unfold UFK_NSIZES, BD_NSIZES, ex_ufk_heads, ex_bd_heads, PHYSTOP in *;
    (split; [lia|]; split; [lia|]; intros; lia).
Qed.

Lemma heap_client_safe_witness :
  match (ufkinit ex_ufk_heads ex_bd_heads 0x80030000;; client ex_ufk_heads ex_bd_heads [0] [0] [RAlloc 4096; RAlloc 100; RFree 1; RAlloc 5000] []) ex_heap with
  | Ok held _ => held = [(5000, 0x87f80000); (100, 0x87f83000)]
  | _ => False
  end /\ (0x87f80000 + 5000 <= 0x87f83000 \/ 0x87f83000 + 100 <= 0x87f80000).
Proof.
  split; [vm_compute; reflexivity|].
  pose proof (heap_client_safe ex_ufk_heads ex_bd_heads [0] [0] 0x80030000 [RAlloc 4096; RAlloc 100; RFree 1; RAlloc 5000] ex_heap ex_layout ltac:(vm_compute; discriminate) ltac:(repeat constructor; discriminate)) as H.
  assert (exists s, (ufkinit ex_ufk_heads ex_bd_heads 0x80030000;; client ex_ufk_heads ex_bd_heads [0] [0] [RAlloc 4096; RAlloc 100; RFree 1; RAlloc 5000] []) ex_heap =
    Ok [(5000, 0x87f80000); (100, 0x87f83000)] s) as [s E] by (eexists; vm_compute; reflexivity).
  rewrite E in H. destruct H as [_ H]. exact (H 0%nat 1%nat (5000, 0x87f80000) (100, 0x87f83000) eq_refl eq_refl ltac:(discriminate)).
Defined.

(** C29: [ufkalloc n] gives a block of at least [n] bytes that is new and apart from the
    blocks in use, aligned to 8 KiB when it is a page or more; it panics only when the
    memory has run out: no page has a free block that is large enough, or the table of
    small blocks is full. *)
Theorem ufkalloc_spec ufk_freelist bd_freelist ufk_behind bd_behind end_ s U D M n :
  Layout ufk_freelist bd_freelist ufk_behind bd_behind end_ -> kinv ufk_freelist bd_freelist end_ s U D M -> n <= 2 ^ 30 ->
  apart (BLK_SIZE BD_LEAF) (blocks U D M) /\ alloc_result ufk_freelist bd_freelist end_ n U D M (ufkalloc ufk_freelist bd_freelist n s).
Proof. intros HL Hk Hn. split; [by eapply blocks_apart|]. by apply (kheap_alloc_ok _ _ ufk_behind bd_behind). Qed.

Lemma ufkalloc_spec_witness : exists s U, kinv ex_ufk_heads ex_bd_heads 0x80030000 s U [] [] /\
  alloc_result ex_ufk_heads ex_bd_heads 0x80030000 4096 U [] [] (ufkalloc ex_ufk_heads ex_bd_heads 4096 s).
Proof.
  destruct (ufkinit_ok ex_ufk_heads ex_bd_heads [0] [0] 0x80030000 (HL := ex_layout) ex_heap ltac:(vm_compute; discriminate)) as (s & _ & Hk).
  eexists s, _. split; [exact Hk|]. apply (ufkalloc_spec ex_ufk_heads ex_bd_heads [0] [0] 0x80030000 s _ [] [] 4096 ex_layout Hk). lia.
Defined.

(** C30: [ufkfree] of a block in use returns; exactly this block is no longer in use,
    whichever table it came from, and free buddies have been joined: a table in which
    no block is in use has only whole pages. *)
Theorem ufkfree_spec ufk_freelist bd_freelist ufk_behind bd_behind end_ s U D M k x :
  Layout ufk_freelist bd_freelist ufk_behind bd_behind end_ -> kinv ufk_freelist bd_freelist end_ s U D M -> (k, x) ∈ blocks U D M ->
  exists s' U' D', ufkfree ufk_freelist bd_freelist ufk_behind bd_behind x s = Ok tt s' /\
    kinv ufk_freelist bd_freelist end_ s' U' D' M /\ blocks U D M ≡ₚ (k, x) :: blocks U' D' M /\
    (all_leaves UFK_LEAF UFK_NSIZES is_used U' = [] -> Forall (fun a => a.2 = Free) U') /\
    (all_leaves BD_LEAF BD_NSIZES is_used D' = [] -> Forall (fun a => a.2 = Free) D').
Proof.
  intros HL Hk Hx. destruct (kheap_free_ok _ _ _ _ _ s U D M k x Hk Hx) as (s' & U' & D' & E & Hk' & Hb). exists s', U', D'.
  split_and!; [done|done|done|eapply idle_whole, (ki_ufk _ _ _ _ _ _ _ Hk')|eapply idle_whole, (ki_bd _ _ _ _ _ _ _ Hk')].
Qed.

Lemma ufkfree_spec_witness : exists s U D M k x, kinv ex_ufk_heads ex_bd_heads 0x80030000 s U D M /\ (k, x) ∈ blocks U D M /\
  exists s', ufkfree ex_ufk_heads ex_bd_heads [0] [0] x s = Ok tt s'.
Proof.
  destruct (ufkinit_ok ex_ufk_heads ex_bd_heads [0] [0] 0x80030000 (HL := ex_layout) ex_heap ltac:(vm_compute; discriminate)) as (s & E & Hk).
  pose proof ex_layout as HL.
  destruct (kheap_alloc_ok ex_ufk_heads ex_bd_heads [0] [0] 0x80030000 s _ _ _ 4096 Hk ltac:(lia)) as [(k & x & s' & U & D & M & _ & Hk' & _ & Hb & _)|[[_ [H _]]|[_ [H _]]]].
  - assert ((k, x) ∈ blocks U D M) as Hx by (rewrite Hb; left). exists s', U, D, M, k, x. split; [exact Hk'|]. split; [exact Hx|].
    destruct (ufkfree_spec ex_ufk_heads ex_bd_heads [0] [0] 0x80030000 s' U D M k x ex_layout Hk' Hx) as (s2 & _ & _ & E2 & _). exists s2. exact E2.
  - exfalso. destruct (H 6%nat 0x80080000) as [_ H']; [|by vm_compute in H'].
    replace (npages 0x80030000) with (S 254) by (vm_compute; reflexivity). left.
  - discriminate H.
Defined.
