(* ===== verification/KAlloc.v ===== *)
(** What the kernel's allocator promises to the components that use it, and the proof
    that ufkalloc.c keeps it. *)

From S2P Require Import Prelude Buddy BuddyTree BuddySpec Ufk UfkSpec.

Class KAlloc (E : Type) := {
  ka_alloc : Z -> M E Z;
  ka_free : Z -> M E unit }.

(** [ka_rep e L]: the blocks [L] are in use, each with its size and address.  A call
    for a block succeeds with a new one or panics; it never returns 0. *)
Class KAllocLaws (E : Type) `{!KAlloc E} := {
  ka_rep : E -> list (Z * Z) -> Prop;
  ka_perm e L L' : L ≡ₚ L' -> ka_rep e L -> ka_rep e L';
  ka_alloc_ok e L n : ka_rep e L -> n <= 2 ^ 30 ->
    (exists p e' z, ka_alloc n e = Ok p e' /\ ka_rep e' ((z, p) :: L) /\ n <= z /\ p <> 0 /\ (p ∉ L.*2)) \/
    (exists msg, ka_alloc n e = Panic msg);
  ka_free_ok e L z p : ka_rep e ((z, p) :: L) -> exists e', ka_free p e = Ok tt e' /\ ka_rep e' L }.

(** The blocks of two lists have different addresses. *)
Section ufk.
Context (ufk_freelist bd_freelist : nat -> Z) (ufk_behind bd_behind : bytes) (end_ : Z).
Context `{HL : Layout ufk_freelist bd_freelist ufk_behind bd_behind end_}.

Definition ufk_calls : KAlloc kheap := {|
  ka_alloc := ufkalloc ufk_freelist bd_freelist;
  ka_free := ufkfree ufk_freelist bd_freelist ufk_behind bd_behind |}.

Definition sized (x : nat * Z) : Z * Z := (BLK_SIZE BD_LEAF x.1, x.2).
Definition ufk_rep (s : kheap) (L : list (Z * Z)) : Prop :=
  exists U D M B, kinv ufk_freelist bd_freelist end_ s U D M /\ B ≡ₚ blocks U D M /\ L ≡ₚ sized <$> B.

Lemma sized_addr B : (sized <$> B).*2 = B.*2.
Proof. rewrite <-list_fmap_compose. done. Qed.

Lemma sized_in z p B L : sized <$> B ≡ₚ (z, p) :: L -> exists k B', B ≡ₚ (k, p) :: B' /\ L ≡ₚ sized <$> B'.
Proof.
  intros H. assert ((z, p) ∈ sized <$> B) as Hin by (rewrite H; by left). apply list_elem_of_fmap in Hin as ([k q] & E & Hin).
  injection E as -> ->. apply elem_of_Permutation in Hin as [B' HB]. exists k, B'. split; [done|].
  rewrite HB in H. cbn in H. apply Permutation_cons_inv in H. by symmetry.
Qed.

Lemma ufk_rep_perm e L L' : L ≡ₚ L' -> ufk_rep e L -> ufk_rep e L'.
Proof. intros HP (U & D & M & B & Hk & HB & HL'). exists U, D, M, B. by rewrite <-HP. Qed.

Lemma ufk_alloc_law e L n : ufk_rep e L -> n <= 2 ^ 30 ->
  (exists p e' z, ka_alloc (KAlloc := ufk_calls) n e = Ok p e' /\ ufk_rep e' ((z, p) :: L) /\ n <= z /\ p <> 0 /\ (p ∉ L.*2)) \/
  (exists msg, ka_alloc (KAlloc := ufk_calls) n e = Panic msg).
Proof using HL.
  intros (U & D & M & B & Hk & HB & HL') Hn.
  destruct (kheap_alloc_ok ufk_freelist bd_freelist ufk_behind bd_behind end_ e U D M n Hk Hn)
    as [(k & p & s' & U' & D' & M' & E & Hk' & Hsz & Hb & Hlo & Hhi & _)|[[E _]|[E _]]]; [left|right; by eexists..].
  exists p, s', (BLK_SIZE BD_LEAF k). split_and!; [done| |done| |].
  - exists U', D', M', ((k, p) :: B). split; [done|]. split; [by rewrite Hb, HB|]. by rewrite HL'.
  - destruct HL as [He _ _ _]. lia.
  - rewrite HL', sized_addr. pose proof (blocks_apart ufk_freelist bd_freelist ufk_behind bd_behind end_ s' U' D' M' Hk') as Ha.
    rewrite Hb in Ha. apply (apart_nodup (BLK_SIZE BD_LEAF)) in Ha; [|by intros; apply blk_pos]. cbn in Ha. apply NoDup_cons in Ha as [Ha _].
    by rewrite HB.
Qed.

Lemma ufk_free_law e L z p : ufk_rep e ((z, p) :: L) -> exists e', ka_free (KAlloc := ufk_calls) p e = Ok tt e' /\ ufk_rep e' L.
Proof using HL.
  intros (U & D & M & B & Hk & HB & HL'). destruct (sized_in z p B L) as (k & B' & HB' & HLB); [by rewrite <-HL'|].
  destruct (kheap_free_ok ufk_freelist bd_freelist ufk_behind bd_behind end_ e U D M k p Hk) as (s' & U' & D' & E & Hk' & Hb).
  { rewrite <-HB, HB'. by left. }
  exists s'. split; [done|]. exists U', D', M, B'. split; [done|]. split; [|done].
  apply (Permutation_cons_inv (a := (k, p))). by rewrite <-Hb, <-HB, <-HB'.
Qed.

(** The interface is what UfkSpec.v proves. *)
Definition ufk_laws : @KAllocLaws kheap ufk_calls :=
  {| ka_rep := ufk_rep : kheap -> list (Z * Z) -> Prop; ka_perm := ufk_rep_perm; ka_alloc_ok := ufk_alloc_law; ka_free_ok := ufk_free_law |}.
End ufk.
