(* ===== verification/File.v ===== *)
(** Open files and file descriptors: kernel/fs/file.c, the descriptor calls of
    kernel/sys/sysfile.c, pipealloc of kernel/proc/pipe.c, argfd of
    kernel/sys/syscall.c, and what fork and exit of kernel/proc/proc.c do to the
    descriptors.

    The open files are the [struct file]s on the kernel's heap; a process has a table of
    pointers to them.  The state of this file is these objects, the pipes (Pipe.v)
    and the heap (the interface of KAlloc.v); inodes, devices, sockets and the memory
    of the process are behind the interface [FileEnv].  Calls are one at a time. *)

From S2P Require Import Prelude FsDisk Pipe KAlloc.

Definition FD_NONE : Z := 0.
Definition FD_PIPE : Z := 1.
Definition FD_INODE : Z := 2.
Definition FD_DEVICE : Z := 3.
Definition FD_SOCK : Z := 4.
Definition NOFILE : nat := 1024.
Definition NDEV : Z := 10.
Definition O_WRONLY : Z := 1.
Definition O_RDWR : Z := 2.

Record file := mkfile {
  f_type : Z; f_ref : Z; f_readable : bool; f_writable : bool; f_nonblockable : bool;
  f_pipe : Z; f_ip : nat; f_scb : Z; f_off : Z; f_major : Z; f_prev : Z; f_next : Z }.

Definition set_ref v f := mkfile (f_type f) v (f_readable f) (f_writable f) (f_nonblockable f) (f_pipe f) (f_ip f) (f_scb f) (f_off f) (f_major f) (f_prev f) (f_next f).
Definition set_type v f := mkfile v (f_ref f) (f_readable f) (f_writable f) (f_nonblockable f) (f_pipe f) (f_ip f) (f_scb f) (f_off f) (f_major f) (f_prev f) (f_next f).
Definition set_links p n f := mkfile (f_type f) (f_ref f) (f_readable f) (f_writable f) (f_nonblockable f) (f_pipe f) (f_ip f) (f_scb f) (f_off f) (f_major f) p n.
Definition set_off v f := mkfile (f_type f) (f_ref f) (f_readable f) (f_writable f) (f_nonblockable f) (f_pipe f) (f_ip f) (f_scb f) v (f_major f) (f_prev f) (f_next f).
Definition set_nonblock v f := mkfile (f_type f) (f_ref f) (f_readable f) (f_writable f) v (f_pipe f) (f_ip f) (f_scb f) (f_off f) (f_major f) (f_prev f) (f_next f).
(** The fields that [pipealloc] and [sys_open] set. *)
Definition set_pipe_end pi w f := mkfile FD_PIPE (f_ref f) (negb w) w (f_nonblockable f) pi (f_ip f) (f_scb f) (f_off f) (f_major f) (f_prev f) (f_next f).
Definition set_inode ip r w f := mkfile FD_INODE (f_ref f) r w (f_nonblockable f) (f_pipe f) ip (f_scb f) 0 (f_major f) (f_prev f) (f_next f).
Definition set_device ip major r w f := mkfile FD_DEVICE (f_ref f) r w (f_nonblockable f) (f_pipe f) ip (f_scb f) (f_off f) major (f_prev f) (f_next f).

(** What a file calls.  [fe_iput] is [begin_op; iput; end_op]; [fe_readi] is between
    [ilock] and [iunlock], [fe_writei] in a transaction as well; [fe_dev*] are the
    entries of [devsw]; [fe_sockclose] clears [scb->f] and calls [sockclose];
    [fe_iunlockput] is the end of a failing [sys_open]. *)
Class FileEnv (R : Type) := {
  fe_killed : R -> bool;
  fe_iput : nat -> M R unit;
  fe_iunlock : nat -> M R unit;
  fe_iunlockput : nat -> M R unit;
  fe_stat : nat -> M R bytes;
  fe_readi : nat -> Z -> Z -> Z -> M R Z;
  fe_writei : nat -> Z -> Z -> Z -> M R Z;
  fe_devread : Z -> option (Z -> Z -> M R Z);
  fe_devwrite : Z -> option (Z -> Z -> M R Z);
  fe_sockclose : Z -> M R unit;
  fe_sockrecv : Z -> Z -> Z -> bool -> M R Z;
  fe_socksend : Z -> Z -> Z -> M R Z }.

Section code.
Context {E R : Type} `{!KAlloc E} `{!FileEnv R} `{!UserCopy R}.
(** What the memory of a new [struct file] and of a new pipe contains. *)
Context (junk : E -> Z -> file) (junk_data : E -> Z -> bytes).

(** [wakes]: the wakeups that were issued, by the pipe. *)
Record core := mkcore {
  heap : E; pipes : gmap Z pipe; files : gmap Z file; ftable_file : Z; rest : R; wakes : list (Z * pchan) }.

Definition heapM {A} (m : M E A) : M core A := fun s =>
  match m (heap s) with
  | Ok x e => Ok x (mkcore e (pipes s) (files s) (ftable_file s) (rest s) (wakes s))
  | Panic msg => Panic msg
  | Sleep e => Sleep (mkcore e (pipes s) (files s) (ftable_file s) (rest s) (wakes s))
  | OutOfFuel => OutOfFuel
  | Undef => Undef
  end.
Definition restM {A} (m : M R A) : M core A := fun s =>
  match m (rest s) with
  | Ok x r => Ok x (mkcore (heap s) (pipes s) (files s) (ftable_file s) r (wakes s))
  | Panic msg => Panic msg
  | Sleep r => Sleep (mkcore (heap s) (pipes s) (files s) (ftable_file s) r (wakes s))
  | OutOfFuel => OutOfFuel
  | Undef => Undef
  end.
Definition get_file (f : Z) : M core file := fun s => match files s !! f with Some x => Ok x s | None => Undef end.
Definition put_file (f : Z) (x : file) : M core unit :=
  modify (fun s => mkcore (heap s) (pipes s) (<[f := x]> (files s)) (ftable_file s) (rest s) (wakes s)).
Definition del_file (f : Z) : M core unit :=
  modify (fun s => mkcore (heap s) (pipes s) (delete f (files s)) (ftable_file s) (rest s) (wakes s)).
Definition mod_file (f : Z) (g : file -> file) : M core unit := x ← get_file f; put_file f (g x).
Definition set_ftable (f : Z) : M core unit :=
  modify (fun s => mkcore (heap s) (pipes s) (files s) f (rest s) (wakes s)).
Definition put_pipe (pi : Z) (q : pipe) : M core unit :=
  modify (fun s => mkcore (heap s) (<[pi := q]> (pipes s)) (files s) (ftable_file s) (rest s) (wakes s)).
Definition del_pipe (pi : Z) : M core unit :=
  modify (fun s => mkcore (heap s) (delete pi (pipes s)) (files s) (ftable_file s) (rest s) (wakes s)).
(** A function of pipe.c on the pipe at [pi], in the memory of the process. *)
Definition pipeM {A} (pi : Z) (m : M (Pipe.pst R) A) : M core A := fun s =>
  match pipes s !! pi with
  | None => Undef
  | Some q =>
      let upd (p : Pipe.pst R) := mkcore (heap s) (<[pi := s_pipe p]> (pipes s)) (files s) (ftable_file s) (s_mem p)
        (wakes s ++ ((fun ch => (pi, ch)) <$> s_wk p)) in
      match m (Pipe.mkpst q (rest s) (fe_killed (rest s)) []) with
      | Ok x p => Ok x (upd p)
      | Panic msg => Panic msg
      | Sleep p => Sleep (upd p)
      | OutOfFuel => OutOfFuel
      | Undef => Undef
      end
  end.

(** * file.c *)

Definition fileinit : M core unit := set_ftable 0.

Definition SIZEOF_FILE : Z := 64.

(** [for(p = 0, f = ftable.file; f != 0; p = f, f = f->next)]; it returns [p]. *)
Fixpoint last_file (fuel : nat) (p f : Z) : M core Z :=
  match fuel with
  | O => nofuel
  | S fuel' => if f =? 0 then ret p else x ← get_file f; last_file fuel' f (f_next x)
  end.

Definition filealloc : M core Z :=
  s ← get;
  p ← last_file (S (size (files s))) 0 (ftable_file s);
  e ← gets heap;
  f ← heapM (ka_alloc SIZEOF_FILE);
  put_file f (set_ref 0 (set_links (f_prev (junk e f)) 0 (junk e f)));;
  (if negb (p =? 0) then
     mod_file f (fun x => set_links p (f_next x) x);;
     mod_file p (fun x => set_links (f_prev x) f x)
   else mod_file f (fun x => set_links 0 (f_next x) x));;
  x ← get_file f;
  if f_ref x =? 0 then put_file f (set_ref 1 x);; ret f else ret 0.

Definition filedup (f : Z) : M core Z :=
  x ← get_file f;
  if f_ref x <? 1 then panic "filedup" else put_file f (set_ref (s32 (f_ref x + 1)) x);; ret f.

Definition filefree (f : Z) : M core Z :=
  x ← get_file f;
  if f_ref x <? 1 then panic "fileclose"
  else
    mod_file f (set_ref (s32 (f_ref x - 1)));;
    if 0 <? s32 (f_ref x - 1) then ret (-1)
    else
      mod_file f (fun x => set_type FD_NONE (set_ref 0 x));;
      (if f_prev x =? 0 then
         set_ftable (f_next x);;
         when (negb (f_next x =? 0)) (mod_file (f_next x) (fun y => set_links 0 (f_next y) y))
       else
         mod_file (f_prev x) (fun y => set_links (f_prev y) (f_next x) y);;
         mod_file (f_next x) (fun y => set_links (f_prev x) (f_next y) y));;
      heapM (ka_free f);;
      del_file f;;
      ret 0.

(** [pipeclose] of pipe.c, with the end of it: the pipe is freed. *)
Definition close_pipe (pi : Z) (writable : bool) : M core unit :=
  freed ← pipeM pi (pipeclose writable);
  when freed (heapM (ka_free pi);; del_pipe pi).

Definition fileclose (f : Z) : M core unit :=
  ff ← get_file f;
  r ← filefree f;
  if r <? 0 then ret tt
  else if f_type ff =? FD_PIPE then close_pipe (f_pipe ff) (f_writable ff)
  else if (f_type ff =? FD_INODE) || (f_type ff =? FD_DEVICE) then restM (fe_iput (f_ip ff))
  else when (f_type ff =? FD_SOCK) (restM (fe_sockclose (f_scb ff))).

Definition filestat (f addr : Z) : M core Z :=
  x ← get_file f;
  if (f_type x =? FD_INODE) || (f_type x =? FD_DEVICE) then
    st ← restM (fe_stat (f_ip x));
    r ← restM (uc_copyout addr st);
    ret (if r <? 0 then -1 else 0)
  else ret (-1).

(** The result of a segment of a call on a pipe (Pipe.v). *)
Definition pipe_result (r : presult) : M core Z := match r with PDone v => ret v | PSleep _ => block end.

Definition fileread (f addr n : Z) : M core Z :=
  x ← get_file f;
  if negb (f_readable x) then ret (-1)
  else if f_type x =? FD_PIPE then r ← pipeM (f_pipe x) (piperead addr n (f_nonblockable x)); pipe_result r
  else if f_type x =? FD_DEVICE then
    if (f_major x <? 0) || (NDEV <=? f_major x) then ret (-1)
    else match fe_devread (f_major x) with None => ret (-1) | Some rd => restM (rd addr n) end
  else if f_type x =? FD_INODE then
    r ← restM (fe_readi (f_ip x) addr (f_off x) n);
    when (0 <? r) (mod_file f (fun x => set_off (u32 (f_off x + r)) x));;
    ret r
  else if f_type x =? FD_SOCK then restM (fe_sockrecv (f_scb x) addr n (f_nonblockable x))
  else panic "fileread".

(** [((MAXOPBLOCKS-1-1-2) / 2) * BSIZE]. *)
Definition max_write : Z := (10 - 1 - 1 - 2) / 2 * 1024.

(** [while(i < n)]; it returns [i]. *)
Fixpoint filewrite_loop (fuel : nat) (f addr n i : Z) : M core Z :=
  match fuel with
  | O => nofuel
  | S fuel' =>
      if i <? n then
        let n1 := if max_write <? n - i then max_write else n - i in
        x ← get_file f;
        r ← restM (fe_writei (f_ip x) (u64 (addr + i)) (f_off x) n1);
        when (0 <? r) (mod_file f (fun x => set_off (u32 (f_off x + r)) x));;
        if r <? 0 then ret i
        else if negb (r =? n1) then panic "short filewrite"
        else filewrite_loop fuel' f addr n (i + r)
      else ret i
  end.

Definition filewrite (f addr n : Z) : M core Z :=
  x ← get_file f;
  if negb (f_writable x) then ret (-1)
  else if f_type x =? FD_PIPE then r ← pipeM (f_pipe x) (pipewrite addr n 0); pipe_result r
  else if f_type x =? FD_DEVICE then
    if (f_major x <? 0) || (NDEV <=? f_major x) then ret (-1)
    else match fe_devwrite (f_major x) with None => ret (-1) | Some wr => restM (wr addr n) end
  else if f_type x =? FD_INODE then
    i ← filewrite_loop (S (Z.to_nat n)) f addr n 0;
    ret (if i =? n then n else -1)
  else if f_type x =? FD_SOCK then restM (fe_socksend (f_scb x) addr n)
  else panic "filewrite".

(** * pipealloc *)

Definition SIZEOF_PIPE : Z := 552.

Definition pipealloc_bad (pi f0 f1 : Z) : M core (option (Z * Z)) :=
  when (negb (pi =? 0)) (heapM (ka_free pi));;
  when (negb (f0 =? 0)) (fileclose f0);;
  when (negb (f1 =? 0)) (fileclose f1);;
  ret None.

Definition pipealloc : M core (option (Z * Z)) :=
  f0 ← filealloc;
  if f0 =? 0 then pipealloc_bad 0 0 0
  else
    f1 ← filealloc;
    if f1 =? 0 then pipealloc_bad 0 f0 0
    else
      e ← gets heap;
      pi ← heapM (ka_alloc SIZEOF_PIPE);
      if pi =? 0 then pipealloc_bad 0 f0 f1
      else
        put_pipe pi (pipe_new (junk_data e pi));;
        mod_file f0 (set_pipe_end pi false);;
        mod_file f1 (set_pipe_end pi true);;
        ret (Some (f0, f1)).
End code.
Arguments core : clear implicits.

(** * The calls on descriptors *)

Section calls.
Context {E R : Type} `{!KAlloc E} `{!FileEnv R} `{!UserCopy R}.
Context (junk : E -> Z -> file) (junk_data : E -> Z -> bytes).

(** [ofile] of every process; 0 is an unused descriptor. *)
Record kst := mkkst { co : core E R; ofile : list (list Z) }.

Definition coreM {A} (m : M (core E R) A) : M kst A := fun s =>
  match m (co s) with
  | Ok x c => Ok x (mkkst c (ofile s))
  | Panic msg => Panic msg
  | Sleep c => Sleep (mkkst c (ofile s))
  | OutOfFuel => OutOfFuel
  | Undef => Undef
  end.
Definition get_ofile (me : nat) : M kst (list Z) := fun s =>
  match ofile s !! me with Some l => Ok l s | None => Undef end.
Definition set_ofile (me fd : nat) (f : Z) : M kst unit := fun s =>
  match ofile s !! me with
  | Some l => Ok tt (mkkst (co s) (<[me := <[fd := f]> l]> (ofile s)))
  | None => Undef
  end.

(** [argfd]: the file of the descriptor [fd]. *)
Definition argfd (me : nat) (fd : Z) : M kst (option Z) :=
  l ← get_ofile me;
  if (fd <? 0) || (Z.of_nat NOFILE <=? fd) then ret None
  else
    match l !! Z.to_nat fd with
    | Some f => ret (if f =? 0 then None else Some f)
    | None => undef
    end.

Fixpoint free_fd (l : list Z) (fd : nat) : option nat :=
  match l with
  | [] => None
  | f :: l' => if f =? 0 then Some fd else free_fd l' (S fd)
  end.
Definition fdalloc (me : nat) (f : Z) : M kst Z :=
  l ← get_ofile me;
  match free_fd (take NOFILE l) 0 with
  | None => ret (-1)
  | Some fd => set_ofile me fd f;; ret (Z.of_nat fd)
  end.

Definition sys_dup (me : nat) (fd0 : Z) : M kst Z :=
  r ← argfd me fd0;
  match r with
  | None => ret (-1)
  | Some f =>
      fd ← fdalloc me f;
      if fd <? 0 then ret (-1) else coreM (filedup f);; ret fd
  end.

Definition sys_read (me : nat) (fd p n : Z) : M kst Z :=
  r ← argfd me fd;
  match r with None => ret (-1) | Some f => coreM (fileread f p n) end.
Definition sys_write (me : nat) (fd p n : Z) : M kst Z :=
  r ← argfd me fd;
  match r with None => ret (-1) | Some f => coreM (filewrite f p n) end.
Definition sys_fstat (me : nat) (fd st : Z) : M kst Z :=
  r ← argfd me fd;
  match r with None => ret (-1) | Some f => coreM (filestat f st) end.

Definition sys_close (me : nat) (fd : Z) : M kst Z :=
  r ← argfd me fd;
  match r with
  | None => ret (-1)
  | Some f => set_ofile me (Z.to_nat fd) 0;; coreM (fileclose f);; ret 0
  end.

(** [f->nonblockable] is a field of one bit. *)
Definition sys_setnonblock (me : nat) (fd val : Z) : M kst Z :=
  r ← argfd me fd;
  match r with
  | None => ret (-1)
  | Some f => coreM (mod_file f (set_nonblock (Z.odd val)));; ret 0
  end.

Fixpoint clear_fds (me : nat) (fds : list Z) : M kst unit :=
  match fds with
  | [] => ret tt
  | fd :: fds' => set_ofile me (Z.to_nat fd) 0;; clear_fds me fds'
  end.
Definition pipe_fail (me : nat) (fds : list Z) (rf wf : Z) : M kst Z :=
  clear_fds me fds;;
  coreM (fileclose rf);;
  coreM (fileclose wf);;
  ret (-1).
Definition sys_pipe (me : nat) (fdarray : Z) : M kst Z :=
  r ← coreM (pipealloc junk junk_data);
  match r with
  | None => ret (-1)
  | Some (rf, wf) =>
      fd0 ← fdalloc me rf;
      if fd0 <? 0 then pipe_fail me [] rf wf
      else
        fd1 ← fdalloc me wf;
        if fd1 <? 0 then pipe_fail me [fd0] rf wf
        else
          r0 ← coreM (restM (uc_copyout fdarray (le_enc 4 fd0)));
          if r0 <? 0 then pipe_fail me [fd0; fd1] rf wf
          else
            r1 ← coreM (restM (uc_copyout (u64 (fdarray + 4)) (le_enc 4 fd1)));
            if r1 <? 0 then pipe_fail me [fd0; fd1] rf wf else ret 0
  end.

(** [sys_open] from the point where it has the locked inode. *)
Definition open_inode (me ip : nat) (device : bool) (major omode : Z) : M kst Z :=
  f ← coreM (filealloc junk);
  fd ← (if f =? 0 then ret (-1) else fdalloc me f);
  if fd <? 0 then
    coreM (when (negb (f =? 0)) (fileclose f));;
    coreM (restM (fe_iunlockput ip));;
    ret (-1)
  else
    let r := Z.land omode O_WRONLY =? 0 in
    let w := negb (Z.land omode O_WRONLY =? 0) || negb (Z.land omode O_RDWR =? 0) in
    coreM (mod_file f (if device then set_device ip major r w else set_inode ip r w));;
    coreM (restM (fe_iunlock ip));;
    ret fd.

(** [fork]: the descriptors of the parent [me] for the child [np]. *)
Fixpoint fork_loop (l : list Z) (i np : nat) : M kst unit :=
  match l with
  | [] => ret tt
  | f :: l' =>
      (if negb (f =? 0) then g ← coreM (filedup f); set_ofile np i g else ret tt);;
      fork_loop l' (S i) np
  end.
Definition fork_files (me np : nat) : M kst unit := l ← get_ofile me; fork_loop (take NOFILE l) 0 np.

(** [exit]: all descriptors are closed. *)
Fixpoint exit_loop (n fd me : nat) : M kst unit :=
  match n with
  | O => ret tt
  | S n' =>
      l ← get_ofile me;
      (match l !! fd with
       | None => undef
       | Some f => if negb (f =? 0) then coreM (fileclose f);; set_ofile me fd 0 else ret tt
       end);;
      exit_loop n' (S fd) me
  end.
Definition exit_files (me : nat) : M kst unit := exit_loop NOFILE 0 me.
End calls.
Arguments kst : clear implicits.
