(* ===== verification/FileSpec.v ===== *)
(** Reference counts of open files (File.v): a file lives as long as a descriptor
    refers to it, and then gives back what it holds, once; an end of a pipe is open as
    long as a descriptor of some process refers to it. *)

From S2P Require Import Prelude FsDisk Pipe KAlloc File.
From S2P Require Import Ufk UfkSpec.

(** * Sums *)

Fixpoint zsum {A} (F : A -> Z) (l : list A) : Z :=
  match l with
  | [] => 0
  | x :: l' => F x + zsum F l'
  end.

Lemma zsum_insert {A} (F : A -> Z) l i x y : l !! i = Some x -> zsum F (<[i := y]> l) = zsum F l - F x + F y.
Proof. revert i. induction l as [|z l IH]; intros [|i] H; [done..|cbn in *; simplify_eq; lia|]. change (<[S i := y]> (z :: l)) with (z :: <[i := y]> l). cbn [zsum]. rewrite (IH i H). lia. Qed.
Lemma zsum_ge {A} (F : A -> Z) l : (forall x, 0 <= F x) -> 0 <= zsum F l.
Proof. intros H. induction l as [|x l IH]; cbn; [lia|]. specialize (H x). lia. Qed.
Lemma zsum_pos {A} (F : A -> Z) l i x : (forall x, 0 <= F x) -> l !! i = Some x -> F x <= zsum F l.
Proof.
  intros H. revert i. induction l as [|z l IH]; intros [|i] E; cbn in *; [done..|simplify_eq; pose proof (zsum_ge F l H); lia|].
  specialize (IH i E). specialize (H z). lia.
Qed.
Lemma zsum_le {A} (F : A -> Z) l c : (forall x, F x <= c) -> zsum F l <= c * Z.of_nat (length l).
Proof. intros H. induction l as [|x l IH]; cbn; [lia|]. specialize (H x). lia. Qed.
Lemma zsum_in {A} (F : A -> Z) l : 0 < zsum F l -> exists x, x ∈ l /\ 0 < F x.
Proof.
  induction l as [|x l IH]; cbn; [lia|]. intros H. destruct (decide (0 < F x)) as [Hx|Hx]; [exists x; split; [by left|done]|].
  destruct IH as (y & Hy & Hp); [lia|]. exists y. split; [by right|done].
Qed.

(** * References *)

Definition is_ref (f g : Z) : Z := if decide (g = f) then 1 else 0.
(** The descriptors of all processes that refer to [f]. *)
Definition refs (o : list (list Z)) (f : Z) : Z := if f =? 0 then 0 else zsum (zsum (is_ref f)) o.

Lemma is_ref_ge f g : 0 <= is_ref f g.
Proof. unfold is_ref. case_decide; lia. Qed.
Lemma refs_zero o : refs o 0 = 0.
Proof. done. Qed.

Lemma refs_set o me l fd g h f : o !! me = Some l -> l !! fd = Some g ->
  refs (<[me := <[fd := h]> l]> o) f = refs o f - (if f =? 0 then 0 else is_ref f g) + (if f =? 0 then 0 else is_ref f h).
Proof.
  intros Ho Hl. unfold refs. destruct (f =? 0); [done|]. rewrite (zsum_insert _ _ _ _ _ Ho), (zsum_insert _ _ _ _ _ Hl). lia.
Qed.

(** A slot that is filled, and one that is cleared. *)
Lemma refs_fill o me l fd f : o !! me = Some l -> l !! fd = Some 0 -> f <> 0 ->
  refs (<[me := <[fd := f]> l]> o) = fupd (refs o) f (refs o f + 1).
Proof.
  intros Ho Hl Hf. apply functional_extensionality. intros g. rewrite (refs_set _ _ _ _ _ _ _ Ho Hl).
  unfold fupd, is_ref. destruct (Z.eqb_spec g 0) as [->|Hg].
  - destruct (Z.eqb_spec 0 f); [lia|]. rewrite refs_zero. lia.
  - destruct (Z.eqb_spec g f) as [->|]; repeat case_decide; lia.
Qed.

(** What an open file holds in the other components. *)
Inductive handle := HInode (ip : nat) | HSock (scb : Z).

(** [fe_rep r L]: [L] are the references to inodes and sockets that have been taken.
    Giving one back that was taken succeeds. *)
Class FileEnvLaws (R : Type) `{!FileEnv R} `{!UserCopy R} := {
  fe_rep : R -> list handle -> Prop;
  fe_perm r L L' : L ≡ₚ L' -> fe_rep r L -> fe_rep r L';
  fe_iput_ok r L i : fe_rep r (HInode i :: L) -> exists r', fe_iput i r = Ok tt r' /\ fe_rep r' L;
  fe_iunlockput_ok r L i : fe_rep r (HInode i :: L) -> exists r', fe_iunlockput i r = Ok tt r' /\ fe_rep r' L;
  fe_iunlock_ok r L i : fe_rep r L -> HInode i ∈ L -> exists r', fe_iunlock i r = Ok tt r' /\ fe_rep r' L;
  fe_sockclose_ok r L i : fe_rep r (HSock i :: L) -> exists r', fe_sockclose i r = Ok tt r' /\ fe_rep r' L;
  fe_copyout_ok r L a bs : fe_rep r L -> exists v r', uc_copyout a bs r = Ok v r' /\ fe_rep r' L }.

Definition hof (x : file) : list handle :=
  if (f_type x =? FD_INODE) || (f_type x =? FD_DEVICE) then [HInode (f_ip x)]
  else if f_type x =? FD_SOCK then [HSock (f_scb x)] else [].
Definition handles (m : gmap Z file) : list handle := map_to_list m ≫= fun p => hof p.2.

Lemma handles_insert m f x : m !! f = None -> handles (<[f := x]> m) ≡ₚ hof x ++ handles m.
Proof. intros H. unfold handles. by rewrite map_to_list_insert. Qed.
Lemma handles_delete m f x : m !! f = Some x -> handles m ≡ₚ hof x ++ handles (delete f m).
Proof. intros H. rewrite <-(insert_delete_id m f x H) at 1. apply handles_insert, lookup_delete_eq. Qed.
Lemma handles_update m f x y : m !! f = Some x -> hof y = hof x -> handles (<[f := y]> m) ≡ₚ handles m.
Proof.
  intros H E. rewrite <-insert_delete_eq, handles_insert by apply lookup_delete_eq. by rewrite E, <-handles_delete.
Qed.

Definition addrs {A} (m : gmap Z A) : list Z := (map_to_list m).*1.
Lemma addrs_insert {A} (m : gmap Z A) f x : m !! f = None -> addrs (<[f := x]> m) ≡ₚ f :: addrs m.
Proof. intros H. unfold addrs. by rewrite map_to_list_insert. Qed.
Lemma addrs_delete {A} (m : gmap Z A) f x : m !! f = Some x -> addrs m ≡ₚ f :: addrs (delete f m).
Proof. intros H. rewrite <-(insert_delete_id m f x H) at 1. apply addrs_insert, lookup_delete_eq. Qed.
Lemma addrs_update {A} (m : gmap Z A) f x y : m !! f = Some x -> addrs (<[f := y]> m) ≡ₚ addrs m.
Proof. intros H. rewrite <-insert_delete_eq, addrs_insert by apply lookup_delete_eq. by rewrite <-addrs_delete. Qed.
Lemma elem_addrs {A} (m : gmap Z A) f : f ∈ addrs m <-> is_Some (m !! f).
Proof.
  unfold addrs. rewrite list_elem_of_fmap. split.
  - intros ([g x] & -> & H). apply elem_of_map_to_list in H. by exists x.
  - intros [x H]. exists (f, x). split; [done|]. by apply elem_of_map_to_list.
Qed.

(** The file is an end of the pipe. *)
Definition pipe_end (pi : Z) (w : bool) (x : file) : Prop := f_type x = FD_PIPE /\ f_pipe x = pi /\ f_writable x = w.
Definition has_end (m : gmap Z file) (pi : Z) (w : bool) : Prop := exists f x, m !! f = Some x /\ pipe_end pi w x.
Definition end_open (q : pipe) (w : bool) : bool := if w then p_writeopen q else p_readopen q.

Lemma no_type x : f_type x ∉ [FD_PIPE; FD_INODE; FD_DEVICE; FD_SOCK] -> hof x = [] /\ forall pi w, ~ pipe_end pi w x.
Proof.
  intros H. unfold hof. destruct (Z.eqb_spec (f_type x) FD_INODE); [set_solver|]. destruct (Z.eqb_spec (f_type x) FD_DEVICE); [set_solver|].
  destruct (Z.eqb_spec (f_type x) FD_SOCK); [set_solver|]. split; [done|]. intros pi w (Ht & _). set_solver.
Qed.

(** A file that is not an end of a pipe can come and go. *)
Lemma has_end_insert m f x pi w : m !! f = None -> (forall pi w, ~ pipe_end pi w x) -> has_end (<[f := x]> m) pi w <-> has_end m pi w.
Proof.
  intros Hf Hx. split; intros (g & y & Hg & He); exists g, y; (split; [|done]).
  - apply lookup_insert_Some in Hg as [[-> ->]|[_ Hg]]; [by apply Hx in He|done].
  - rewrite lookup_insert_ne; [done|]. congruence.
Qed.

(** * The invariant *)

Section spec.
Context {E R : Type} `{!KAlloc E} `{!KAllocLaws E} `{!FileEnv R} `{!UserCopy R} `{!FileEnvLaws R}.
Context (junk : E -> Z -> file).
Implicit Types (c : core E R).

(** [n]: how many references to each file there are.  [B] and [L]: the blocks of the
    heap and the references to inodes and sockets that others hold. *)
Record cinv c (n : Z -> Z) (B : list (Z * Z)) (L : list handle) : Prop := {
  ci_table : ftable_file c = 0;
  ci_files : forall f x, files c !! f = Some x -> f_ref x = n f /\ 1 <= n f < 2 ^ 31 /\ f_prev x = 0 /\ f_next x = 0;
  ci_none : forall f, files c !! f = None -> n f = 0;
  ci_heap : exists zs, ka_rep (heap c) (zs ++ B) /\ zs.*2 ≡ₚ addrs (files c) ++ addrs (pipes c) /\ Forall (fun a => a <> 0) (zs.*2);
  ci_rest : fe_rep (rest c) (handles (files c) ++ L);
  ci_pipes : forall pi q, pipes c !! pi = Some q ->
    (forall w, end_open q w = true <-> has_end (files c) pi w) /\ exists w, end_open q w = true;
  ci_ends : forall f x, files c !! f = Some x -> f_type x = FD_PIPE -> is_Some (pipes c !! f_pipe x);
  ci_uniq : forall f g x y pi w, files c !! f = Some x -> files c !! g = Some y -> pipe_end pi w x -> pipe_end pi w y -> f = g }.

(** The first word of a free block is a link of its list, a pointer, and not the type
    of a file. *)
Definition junk_ok : Prop := forall e p, f_type (junk e p) ∉ [FD_PIPE; FD_INODE; FD_DEVICE; FD_SOCK].
Context (Hjunk : junk_ok).

Lemma run_heap {A} (m : M E A) c x e : m (heap c) = Ok x e -> heapM m c = Ok x (mkcore e (pipes c) (files c) (ftable_file c) (rest c) (wakes c)).
Proof. intros H. unfold heapM. by rewrite H. Qed.
Lemma run_rest {A} (m : M R A) c x r : m (rest c) = Ok x r -> restM m c = Ok x (mkcore (heap c) (pipes c) (files c) (ftable_file c) r (wakes c)).
Proof. intros H. unfold restM. by rewrite H. Qed.
Lemma run_mod c f g x : files c !! f = Some x ->
  mod_file f g c = Ok tt (mkcore (heap c) (pipes c) (<[f := g x]> (files c)) (ftable_file c) (rest c) (wakes c)).
Proof. intros H. unfold mod_file, bind, get_file. by rewrite H. Qed.

(** The allocator has panicked. *)
Definition oom (msg : string) : Prop := exists n e, ka_alloc (E := E) n e = Panic msg.

(** The fields of a new file. *)
Definition new_file (x : file) : file := set_ref 1 (set_links 0 0 x).

Lemma filealloc_run c r : ftable_file c = 0 -> ka_alloc SIZEOF_FILE (heap c) = r ->
  filealloc junk c =
  match r with
  | Ok f e => Ok f (mkcore e (pipes c) (<[f := new_file (junk (heap c) f)]> (files c)) 0 (rest c) (wakes c))
  | Panic msg => Panic msg
  | Sleep e => Sleep (mkcore e (pipes c) (files c) 0 (rest c) (wakes c))
  | OutOfFuel => OutOfFuel
  | Undef => Undef
  end.
Proof.
  intros Ht <-. unfold filealloc, bind at 1, get. rewrite Ht. unfold bind at 1. cbn [last_file Z.eqb]. unfold ret at 1, bind at 1, gets.
  unfold bind at 1, heapM. destruct (ka_alloc SIZEOF_FILE (heap c)) as [f e|msg|e| |]; rewrite ?Ht; try done.
  unfold bind at 1, put_file at 1, modify at 1. cbn [heap pipes files ftable_file rest wakes negb Z.eqb].
  unfold bind at 1. erewrite run_mod by (cbn [files]; apply lookup_insert_eq). cbn [heap pipes files ftable_file rest wakes].
  unfold bind at 1, get_file. cbn [files]. rewrite lookup_insert_eq. cbn [f_ref set_links set_ref Z.eqb].
  unfold bind, put_file, modify, ret. cbn [heap pipes files ftable_file rest wakes]. by rewrite !insert_insert_eq.
Qed.

(** A new file. *)
Lemma filealloc_ok c n B L : cinv c n B L ->
  (exists f x e, filealloc junk c = Ok f (mkcore e (pipes c) (<[f := x]> (files c)) 0 (rest c) (wakes c)) /\ n f = 0 /\ f <> 0 /\ files c !! f = None /\
     (f_type x ∉ [FD_PIPE; FD_INODE; FD_DEVICE; FD_SOCK]) /\
     cinv (mkcore e (pipes c) (<[f := x]> (files c)) 0 (rest c) (wakes c)) (fupd n f 1) B L) \/
  (exists msg, filealloc junk c = Panic msg /\ oom msg).
Proof using Hjunk.
  intros [Ht Hf Hn (zs & Hh & Hz & Hnz) Hr Hp He Hu].
  destruct (ka_alloc_ok (heap c) _ SIZEOF_FILE Hh ltac:(unfold SIZEOF_FILE; lia)) as [(f & e & z & E0 & Hh' & Hsz & Hf0 & Hfr)|[msg E0]];
    rewrite (filealloc_run c _ Ht E0); [left|right; exists msg; split; [done|by eexists _, _]].
  assert (files c !! f = None) as Hfn.
  { apply eq_None_not_Some. intros HS. apply Hfr. rewrite fmap_app, Hz. apply elem_of_app. left. apply elem_of_app. left. by apply elem_addrs. }
  set (x := new_file (junk (heap c) f)). exists f, x, e.
  assert (f_type x ∉ [FD_PIPE; FD_INODE; FD_DEVICE; FD_SOCK]) as Hty by apply Hjunk. destruct (no_type x Hty) as [Hx1 Hx2].
  split; [done|]. split_and!; [by apply Hn|done|done|done|].
  - constructor; cbn [heap pipes files ftable_file rest wakes].
    + done.
    + intros g y. intros [[<- <-]|[Hne Hg]]%lookup_insert_Some; [rewrite fupd_eq; split_and!; done|]. rewrite fupd_ne by done. by apply Hf.
    + intros g [Hg Hne]%lookup_insert_None. rewrite fupd_ne by done. by apply Hn.
    + exists ((z, f) :: zs). split; [done|]. split; [|by constructor]. cbn [fmap list_fmap snd]. by rewrite addrs_insert, Hz.
    + eapply fe_perm; [|exact Hr]. rewrite handles_insert by done. by rewrite Hx1.
    + intros pi q Hq. destruct (Hp pi q Hq) as [H1 H2]. split; [|done]. intros w. rewrite has_end_insert by done. apply H1.
    + intros g y. intros [[<- <-]|[Hne Hg]]%lookup_insert_Some Hty'; [rewrite Hty' in Hty; set_solver|]. by apply (He g).
    + intros g1 g2 y1 y2 pi w H1 H2 E1 E2. apply lookup_insert_Some in H1 as [[<- <-]|[_ H1]]; [by apply Hx2 in E1|].
      apply lookup_insert_Some in H2 as [[<- <-]|[_ H2]]; [by apply Hx2 in E2|]. by apply (Hu g1 g2 y1 y2 pi w).
Qed.

(** One more reference. *)
Lemma ref_upd c n B L f x v : cinv c n B L -> files c !! f = Some x -> 1 <= v < 2 ^ 31 ->
  cinv (mkcore (heap c) (pipes c) (<[f := set_ref v x]> (files c)) (ftable_file c) (rest c) (wakes c)) (fupd n f v) B L.
Proof.
  intros [Ht Hf Hn (zs & Hh & Hz & Hnz) Hr Hp He Hu] Hx Hv.
  assert (forall g y, <[f := set_ref v x]> (files c) !! g = Some y -> exists y', files c !! g = Some y' /\ f_type y = f_type y' /\ f_pipe y = f_pipe y' /\
    f_writable y = f_writable y') as Hback.
  { intros g y. intros [[<- <-]|[Hne Hg]]%lookup_insert_Some; [by exists x|by exists y]. }
  assert (forall pi w, has_end (<[f := set_ref v x]> (files c)) pi w <-> has_end (files c) pi w) as Hends.
  { intros pi w. split; intros (g & y & Hg & Hend).
    - destruct (Hback g y Hg) as (y' & Hg' & E1 & E2 & E3). exists g, y'. split; [done|]. unfold pipe_end in *. by rewrite <-E1, <-E2, <-E3.
    - destruct (decide (g = f)) as [->|Hne]; [|exists g, y; by rewrite lookup_insert_ne].
      exists f, (set_ref v x). rewrite lookup_insert_eq. split; [done|]. by simplify_eq. }
  constructor; cbn [heap pipes files ftable_file rest wakes]; [done|..].
  - intros g y. intros [[<- <-]|[Hne Hg]]%lookup_insert_Some; [rewrite fupd_eq|rewrite fupd_ne by done; by apply Hf].
    destruct (Hf f x Hx) as (_ & _ & ? & ?). done.
  - intros g [Hg Hne]%lookup_insert_None. rewrite fupd_ne by done. by apply Hn.
  - exists zs. split; [done|]. split; [|done]. by rewrite (addrs_update _ _ x).
  - eapply fe_perm; [|exact Hr]. by rewrite (handles_update _ _ x).
  - intros pi q Hq. destruct (Hp pi q Hq) as [H1 H2]. split; [|done]. intros w. rewrite Hends. apply H1.
  - intros g y Hg Hty. destruct (Hback g y Hg) as (y' & Hg' & E1 & E2 & E3). rewrite E2. apply (He g y' Hg'). congruence.
  - intros g1 g2 y1 y2 pi w H1 H2 (T1 & P1 & W1) (T2 & P2 & W2).
    destruct (Hback g1 y1 H1) as (z1 & G1 & ? & ? & ?), (Hback g2 y2 H2) as (z2 & G2 & ? & ? & ?).
    apply (Hu g1 g2 z1 z2 pi w G1 G2); unfold pipe_end; split_and!; congruence.
Qed.

Lemma has_file c n B L f : cinv c n B L -> 0 < n f -> exists x, files c !! f = Some x /\ f_ref x = n f /\ 1 <= n f < 2 ^ 31 /\ f_prev x = 0 /\ f_next x = 0.
Proof.
  intros Hc Hf. destruct (files c !! f) as [x|] eqn:Ex; [|rewrite (ci_none _ _ _ _ Hc f Ex) in Hf; lia].
  exists x. split; [done|]. by apply (ci_files _ _ _ _ Hc).
Qed.

Lemma filedup_ok c n B L f : cinv c n B L -> 0 < n f -> n f + 1 < 2 ^ 31 ->
  exists c', filedup f c = Ok f c' /\ cinv c' (fupd n f (n f + 1)) B L.
Proof.
  intros Hc Hf Hb. destruct (has_file _ _ _ _ _ Hc Hf) as (x & Hx & Er & Hr & _). unfold filedup, bind at 1, get_file. rewrite Hx, Er.
  destruct (Z.ltb_spec (n f) 1); [lia|]. eexists. split; [reflexivity|]. rewrite s32_small by lia. apply ref_upd; [done|done|lia].
Qed.

(** ** Closing *)

(** The last reference goes: the file is gone, and what it held is still to be given
    back. *)
Definition without c (f : Z) (e : E) : core E R := mkcore e (pipes c) (delete f (files c)) 0 (rest c) (wakes c).

Lemma filefree_last c n B L f x : cinv c n B L -> files c !! f = Some x -> n f = 1 ->
  exists e zs, filefree f c = Ok 0 (without c f e) /\ ka_rep e (zs ++ B) /\ zs.*2 ≡ₚ addrs (delete f (files c)) ++ addrs (pipes c) /\ Forall (fun a => a <> 0) (zs.*2).
Proof.
  intros [Ht Hf Hn (zs & Hh & Hz & Hnz) Hr Hp He Hu] Hx H1. destruct (Hf f x Hx) as (Er & _ & Epr & Enx).
  assert (f ∈ zs.*2) as Hin by (rewrite Hz, (addrs_delete _ _ x) by done; by left).
  apply list_elem_of_fmap in Hin as ([z f'] & Ef & Hin). cbn [snd] in Ef. subst f'. apply elem_of_Permutation in Hin as [zs' Hzs].
  assert (ka_rep (heap c) ((z, f) :: zs' ++ B)) as Hh' by (eapply ka_perm; [|exact Hh]; by rewrite Hzs).
  destruct (ka_free_ok _ _ _ _ Hh') as (e & Ee & Hhe). exists e, zs'. split; [|split; [done|]].
  - unfold filefree, bind at 1, get_file. rewrite Hx, Er, H1. cbn [Z.ltb Z.compare Pos.compare Pos.compare_cont].
    unfold bind at 1. rewrite (run_mod _ _ _ x) by done. change (s32 (1 - 1)) with 0. cbn [Z.ltb Z.compare].
    unfold bind at 1. erewrite run_mod by (cbn [files]; apply lookup_insert_eq). cbn [heap pipes files ftable_file rest wakes].
    rewrite Epr, Enx. cbn [Z.eqb]. unfold bind at 1 2 3, set_ftable, modify, when. cbn [negb heap pipes files ftable_file rest wakes ret].
    unfold bind. rewrite (run_heap _ _ tt e) by exact Ee. unfold del_file, modify, ret. cbn [heap pipes files ftable_file rest wakes].
    unfold without. rewrite !insert_insert_eq, delete_insert_eq. done.
  - rewrite Hzs in Hz, Hnz. cbn [fmap list_fmap snd] in Hz. rewrite (addrs_delete _ _ x) in Hz by done. cbn in Hz. apply Permutation_cons_inv in Hz.
    split; [done|]. cbn in Hnz. by inversion Hnz.
Qed.

Lemma cinv_del c n B L f x e ps r wk : cinv c n B L -> files c !! f = Some x -> n f = 1 ->
  (exists zs, ka_rep e (zs ++ B) /\ zs.*2 ≡ₚ addrs (delete f (files c)) ++ addrs ps /\ Forall (fun a => a <> 0) (zs.*2)) ->
  fe_rep r (handles (delete f (files c)) ++ L) ->
  (forall pi q, ps !! pi = Some q -> (forall w, end_open q w = true <-> has_end (delete f (files c)) pi w) /\ exists w, end_open q w = true) ->
  (forall g y, delete f (files c) !! g = Some y -> f_type y = FD_PIPE -> is_Some (ps !! f_pipe y)) ->
  cinv (mkcore e ps (delete f (files c)) 0 r wk) (fupd n f 0) B L.
Proof.
  intros [Ht Hf Hn _ _ _ _ Hu] Hx H1 Hh Hr Hp He. constructor; cbn [heap pipes files ftable_file rest wakes]; try done.
  - intros g y [Hne Hg]%lookup_delete_Some. rewrite fupd_ne by done. by apply Hf.
  - intros g [->|Hg]%lookup_delete_None; [by rewrite fupd_eq|]. destruct (decide (g = f)) as [->|Hne]; [by rewrite fupd_eq|]. rewrite fupd_ne by done. by apply Hn.
  - intros g1 g2 y1 y2 pi w [_ G1]%lookup_delete_Some [_ G2]%lookup_delete_Some. by apply Hu.
Qed.

Lemma has_end_delete c n B L f x pi w : cinv c n B L -> files c !! f = Some x ->
  has_end (delete f (files c)) pi w <-> has_end (files c) pi w /\ ~ pipe_end pi w x.
Proof.
  intros Hc Hx. split.
  - intros (g & y & [Hne Hg]%lookup_delete_Some & He). split; [by exists g, y|]. intros Hex. apply Hne.
    by apply (ci_uniq _ _ _ _ Hc f g x y pi w).
  - intros [(g & y & Hg & He) Hne]. exists g, y. split; [|done]. rewrite lookup_delete_ne; [done|]. intros ->. by simplify_eq.
Qed.

(** [pipeclose] on the pipe. *)
Definition closed (q : pipe) (w : bool) : pipe :=
  if w then mkpipe (p_data q) (p_nread q) (p_nwrite q) (p_readopen q) false else mkpipe (p_data q) (p_nread q) (p_nwrite q) false (p_writeopen q).
Definition close_wakes (w : bool) : pchan := if w then ChRead else ChWrite.

Lemma pipeclose_run c pi q w : pipes c !! pi = Some q ->
  pipeM pi (pipeclose w) c = Ok (negb (end_open (closed q w) (negb w)))
    (mkcore (heap c) (<[pi := closed q w]> (pipes c)) (files c) (ftable_file c) (rest c) (wakes c ++ [(pi, close_wakes w)])).
Proof.
  intros Hq. unfold pipeM. rewrite Hq. destruct w; cbn; rewrite ?andb_true_r; done.
Qed.

Lemma closed_open q w w' : end_open (closed q w) w' = true <-> end_open q w' = true /\ w' <> w.
Proof. destruct w, w'; cbn; naive_solver. Qed.

Lemma fileclose_last_pipe c n B L f x : cinv c n B L -> files c !! f = Some x -> n f = 1 -> f_type x = FD_PIPE ->
  exists c', fileclose f c = Ok tt c' /\ cinv c' (fupd n f 0) B L.
Proof.
  intros Hc Hx H1 Hty. destruct (filefree_last _ _ _ _ _ _ Hc Hx H1) as (e & zs & Ef & Hh & Hz & Hnz).
  destruct (ci_ends _ _ _ _ Hc f x Hx Hty) as [q Hq]. destruct (ci_pipes _ _ _ _ Hc _ q Hq) as [Hends _].
  set (pi := f_pipe x) in *. set (w := f_writable x) in *.
  unfold fileclose, bind at 1, get_file. rewrite Hx. unfold bind. rewrite Ef. cbn [Z.ltb Z.compare]. rewrite Hty, Z.eqb_refl.
  fold pi w. unfold close_pipe, bind. rewrite (pipeclose_run (without c f e) pi q w) by done.
  assert (fe_rep (rest c) (handles (delete f (files c)) ++ L)) as Hr.
  { eapply fe_perm; [|apply (ci_rest _ _ _ _ Hc)]. rewrite (handles_delete _ _ x) by done. unfold hof. by rewrite Hty. }
  assert (forall pi' w', has_end (delete f (files c)) pi' w' <-> has_end (files c) pi' w' /\ ~ (pi' = pi /\ w' = w)) as Hdel.
  { intros pi' w'. rewrite (has_end_delete _ _ _ _ _ _ _ _ Hc Hx). unfold pipe_end. subst pi w. naive_solver. }
  assert (forall w', end_open (closed q w) w' = true <-> has_end (delete f (files c)) pi w') as Hopen.
  { intros w'. rewrite closed_open, Hdel, Hends. naive_solver. }
  destruct (end_open (closed q w) (negb w)) eqn:Eo; cbn [negb when].
  - eexists. split; [reflexivity|]. apply (cinv_del c n B L f x); try done.
    + exists zs. split; [done|]. split; [|done]. by rewrite (addrs_update _ _ q).
    + intros pi' q'. intros [[<- <-]|[Hne Hq']]%lookup_insert_Some; [split; [done|by exists (negb w)]|].
      destruct (ci_pipes _ _ _ _ Hc _ _ Hq') as [H2 H3]. split; [|done]. intros w'. rewrite Hdel, H2. naive_solver.
    + intros g y [Hne Hg]%lookup_delete_Some Hty'. destruct (ci_ends _ _ _ _ Hc g y Hg Hty') as [q2 Hq2].
      destruct (decide (f_pipe y = pi)) as [->|Hne']; [rewrite lookup_insert_eq; by eexists|]. rewrite lookup_insert_ne by done. by eexists.
  - assert (pi ∈ zs.*2) as Hin by (rewrite Hz; apply elem_of_app; right; apply elem_addrs; by exists q).
    apply list_elem_of_fmap in Hin as ([z pi'] & Epi & Hin). cbn [snd] in Epi. subst pi'. apply elem_of_Permutation in Hin as [zs' Hzs].
    assert (ka_rep e ((z, pi) :: zs' ++ B)) as Hh' by (eapply ka_perm; [|exact Hh]; by rewrite Hzs).
    destruct (ka_free_ok _ _ _ _ Hh') as (e' & Ee & Hhe). unfold heapM. cbn [heap without]. rewrite Ee. unfold del_pipe, modify.
    cbn [heap pipes files ftable_file rest wakes]. eexists. split; [reflexivity|]. rewrite delete_insert_eq.
    assert (forall w', end_open (closed q w) w' = false) as Hnone.
    { intros w'. destruct (decide (w' = negb w)) as [->|Hne]; [done|]. apply not_true_iff_false. rewrite closed_open. intros [_ Hw]. apply Hne. by destruct w, w'. }
    apply (cinv_del c n B L f x); try done.
    + exists zs'. split; [done|]. rewrite Hzs in Hz, Hnz. cbn [fmap list_fmap snd] in Hz, Hnz. split; [|by inversion Hnz].
      rewrite (addrs_delete _ _ q Hq), <-Permutation_middle in Hz. by apply Permutation_cons_inv in Hz.
    + intros pi' q' [Hne Hq']%lookup_delete_Some. destruct (ci_pipes _ _ _ _ Hc _ _ Hq') as [H2 H3]. split; [|done]. intros w'. rewrite Hdel, H2. naive_solver.
    + intros g y Hg Hty'. pose proof Hg as [Hne Hg']%lookup_delete_Some. destruct (ci_ends _ _ _ _ Hc g y Hg' Hty') as [q2 Hq2].
      rewrite lookup_delete_ne; [by eexists|]. intros Epi. specialize (Hopen (f_writable y)). rewrite Hnone in Hopen.
      destruct Hopen as [_ Hopen]. discriminate Hopen. exists g, y. split; [done|]. split_and!; done.
Qed.

Lemma fileclose_more c n B L f x : cinv c n B L -> files c !! f = Some x -> 1 < n f ->
  exists c', fileclose f c = Ok tt c' /\ cinv c' (fupd n f (n f - 1)) B L.
Proof.
  intros Hc Hx Hn. destruct (ci_files _ _ _ _ Hc f x Hx) as (Er & Hr & _).
  eexists. split; [|apply (ref_upd c n B L f x (n f - 1)); [done|done|lia]].
  assert (filefree f c = Ok (-1) (mkcore (heap c) (pipes c) (<[f := set_ref (n f - 1) x]> (files c)) (ftable_file c) (rest c) (wakes c))) as Ef.
  { unfold filefree, bind at 1, get_file. rewrite Hx, Er. destruct (Z.ltb_spec (n f) 1); [lia|].
    unfold bind. rewrite (run_mod _ _ _ x) by done. rewrite s32_small by lia. destruct (Z.ltb_spec 0 (n f - 1)); [done|lia]. }
  unfold fileclose, bind at 1, get_file. rewrite Hx. unfold bind. by rewrite Ef.
Qed.

(** The last reference to a file that is not a pipe. *)
Lemma fileclose_last_other c n B L f x : cinv c n B L -> files c !! f = Some x -> n f = 1 -> f_type x <> FD_PIPE ->
  exists c', fileclose f c = Ok tt c' /\ cinv c' (fupd n f 0) B L.
Proof.
  intros Hc Hx H1 Hty. destruct (filefree_last _ _ _ _ _ _ Hc Hx H1) as (e & zs & Ef & Hh & Hz & Hnz).
  assert (forall pi w, ~ pipe_end pi w x) as Hno by (intros pi w (? & _); done).
  assert (forall r, fe_rep r (handles (delete f (files c)) ++ L) -> cinv (mkcore e (pipes c) (delete f (files c)) 0 r (wakes c)) (fupd n f 0) B L) as Hdone.
  { intros r Hr. apply (cinv_del c n B L f x); try done.
    - by exists zs.
    - intros pi q Hq. destruct (ci_pipes _ _ _ _ Hc _ _ Hq) as [H2 H3]. split; [|done]. intros w. rewrite (has_end_delete _ _ _ _ _ _ _ _ Hc Hx), H2. naive_solver.
    - intros g y [_ Hg]%lookup_delete_Some. by apply (ci_ends _ _ _ _ Hc g). }
  assert (fe_rep (rest c) (hof x ++ handles (delete f (files c)) ++ L)) as Hr.
  { eapply fe_perm; [|apply (ci_rest _ _ _ _ Hc)]. by rewrite (handles_delete (files c) f x Hx), <-app_assoc. }
  unfold fileclose, bind at 1, get_file. rewrite Hx. unfold bind. rewrite Ef. cbn [Z.ltb Z.compare]. destruct (Z.eqb_spec (f_type x) FD_PIPE); [done|].
  unfold hof in Hr. destruct ((f_type x =? FD_INODE) || (f_type x =? FD_DEVICE)).
  - destruct (fe_iput_ok _ _ _ Hr) as (r & Er & Hr'). rewrite (run_rest _ (without c f e) _ _ Er). eexists. split; [reflexivity|]. by apply Hdone.
  - destruct (f_type x =? FD_SOCK); cbn [when].
    + destruct (fe_sockclose_ok _ _ _ Hr) as (r & Er & Hr'). rewrite (run_rest _ (without c f e) _ _ Er). eexists. split; [reflexivity|]. by apply Hdone.
    + eexists. split; [reflexivity|]. by apply Hdone.
Qed.

Lemma fileclose_ok c n B L f : cinv c n B L -> 0 < n f -> exists c', fileclose f c = Ok tt c' /\ cinv c' (fupd n f (n f - 1)) B L.
Proof.
  intros Hc Hf. destruct (has_file _ _ _ _ _ Hc Hf) as (x & Hx & _). destruct (decide (n f = 1)) as [E1|E1].
  - rewrite E1. destruct (decide (f_type x = FD_PIPE)); [by eapply fileclose_last_pipe|by eapply fileclose_last_other].
  - eapply fileclose_more; [done|done|lia].
Qed.

(** ** New pipes *)

Context (junk_data : E -> Z -> bytes).

Lemma fupd_swap {A} (n : Z -> A) f g v w : f <> g -> fupd (fupd n f v) g w = fupd (fupd n g w) f v.
Proof. intros H. apply functional_extensionality. intros x. unfold fupd. destruct (Z.eqb_spec x g), (Z.eqb_spec x f); congruence. Qed.

(** Two files that have no type become the ends of a new pipe. *)
Lemma make_pipe c n B L f0 f1 x0 x1 pi e z q : cinv c n B L -> files c !! f0 = Some x0 -> files c !! f1 = Some x1 -> f0 <> f1 ->
  (f_type x0 ∉ [FD_PIPE; FD_INODE; FD_DEVICE; FD_SOCK]) -> (f_type x1 ∉ [FD_PIPE; FD_INODE; FD_DEVICE; FD_SOCK]) ->
  pipes c !! pi = None -> pi <> 0 -> (exists zs, ka_rep e ((z, pi) :: zs ++ B) /\ zs.*2 ≡ₚ addrs (files c) ++ addrs (pipes c) /\ Forall (fun a => a <> 0) (zs.*2)) -> p_readopen q = true -> p_writeopen q = true ->
  cinv (mkcore e (<[pi := q]> (pipes c)) (<[f1 := set_pipe_end pi true x1]> (<[f0 := set_pipe_end pi false x0]> (files c))) (ftable_file c) (rest c) (wakes c)) n B L.
Proof.
  intros Hc H0 H1 Hne T0 T1 Hpi Hpi0 (zs & Hz & Hzs & Hnz) Hro Hwo. destruct (no_type x0 T0) as [N0 P0]. destruct (no_type x1 T1) as [N1 P1].
  pose proof Hc as [Ht Hf Hn _ Hr Hp He Hu].
  set (y0 := set_pipe_end pi false x0). set (y1 := set_pipe_end pi true x1). set (m := <[f1 := y1]> (<[f0 := y0]> (files c))).
  assert (forall g y, m !! g = Some y -> (g = f1 /\ y = y1) \/ (g = f0 /\ y = y0) \/ (g <> f0 /\ g <> f1 /\ files c !! g = Some y)) as Hm.
  { intros g y. intros [[<- <-]|[Hg1 [[<- <-]|[Hg0 Hg]]%lookup_insert_Some]]%lookup_insert_Some; naive_solver. }
  assert (forall g y, g <> f0 -> g <> f1 -> files c !! g = Some y -> m !! g = Some y) as Hm'.
  { intros g y G0 G1 Hg. unfold m. by rewrite !lookup_insert_ne. }
  assert (m !! f0 = Some y0) as M0 by (unfold m; by rewrite lookup_insert_ne, lookup_insert_eq).
  assert (m !! f1 = Some y1) as M1 by (unfold m; by rewrite lookup_insert_eq).
  assert (forall f x pi', files c !! f = Some x -> f_type x = FD_PIPE -> f_pipe x = pi' -> pi' <> pi) as Hold.
  { intros f x pi' Hx Hty E1 E2. destruct (He f x Hx Hty). congruence. }
  constructor; cbn [heap pipes files ftable_file rest wakes]; [done|..].
  - intros g y [[-> ->]|[[-> ->]|(_ & _ & Hg)]]%Hm; [by destruct (Hf _ _ H1) as (? & ? & ? & ?)|by destruct (Hf _ _ H0) as (? & ? & ? & ?)|by apply Hf].
  - intros g [[Hg _]%lookup_insert_None _]%lookup_insert_None. by apply Hn.
  - exists ((z, pi) :: zs). split; [done|]. split; [|by constructor]. cbn [fmap list_fmap snd]. unfold m.
    rewrite (addrs_update _ _ x1), (addrs_update _ _ x0), addrs_insert, Hzs by (done || by rewrite lookup_insert_ne). apply Permutation_middle.
  - eapply fe_perm; [|exact Hr]. unfold m. rewrite <-(insert_delete_eq _ f1), handles_insert by apply lookup_delete_eq. cbn [hof app].
    rewrite delete_insert_ne by done. rewrite <-(insert_delete_eq _ f0), handles_insert by apply lookup_delete_eq. cbn.
    rewrite (handles_delete (files c) f1 x1 H1), N1. rewrite (handles_delete _ f0 x0), N0; [done|]. by rewrite lookup_delete_ne.
  - intros pi' q'. intros [[<- <-]|[Hne' Hq]]%lookup_insert_Some.
    + split; [|by exists true]. intros w. split; [intros _|by destruct w]. destruct w; [by exists f1, y1|by exists f0, y0].
    + destruct (Hp pi' q' Hq) as [H2 H3]. split; [|done]. intros w. rewrite H2. split; intros (g & y & Hg & Hend).
      * exists g, y. split; [|done]. apply Hm'; [| |done]; intros ->; simplify_eq; [by apply P0 in Hend|by apply P1 in Hend].
      * apply Hm in Hg as [[-> ->]|[[-> ->]|(_ & _ & Hg)]]; [by destruct Hend as (_ & ? & _)|by destruct Hend as (_ & ? & _)|by exists g, y].
  - intros g y [[-> ->]|[[-> ->]|(_ & _ & Hg)]]%Hm Hty; [cbn; rewrite lookup_insert_eq; by eexists..|].
    rewrite lookup_insert_ne; [by apply (He g)|]. intros Epi. by apply (Hold g y pi Hg Hty).
  - intros g1 g2 z1 z2 pi' w G1%Hm G2%Hm E1 E2. pose proof E1 as (A1 & B1 & C1). pose proof E2 as (A2 & B2 & C2).
    destruct G1 as [[-> ->]|[[-> ->]|(? & ? & G1)]], G2 as [[-> ->]|[[-> ->]|(? & ? & G2)]]; cbn in *; try congruence;
      [exfalso; by apply (Hold _ _ pi' G2)|exfalso; by apply (Hold _ _ pi' G2)|exfalso; by apply (Hold _ _ pi' G1)|exfalso; by apply (Hold _ _ pi' G1)|by apply (Hu g1 g2 z1 z2 pi' w)].
Qed.

Lemma pipealloc_ok c n B L : cinv c n B L ->
  (exists f0 f1 c', pipealloc junk junk_data c = Ok (Some (f0, f1)) c' /\ f0 <> 0 /\ f1 <> 0 /\ f0 <> f1 /\ n f0 = 0 /\ n f1 = 0 /\
     cinv c' (fupd (fupd n f0 1) f1 1) B L) \/
  (exists msg, pipealloc junk junk_data c = Panic msg /\ oom msg).
Proof using Hjunk.
  intros Hc. unfold pipealloc. destruct (filealloc_ok c n B L Hc) as [(f0 & x0 & e0 & E0 & Hn0 & Hf0 & Hfr0 & T0 & Hc0)|(msg & E0 & Ho)].
  2: { right. exists msg. split; [|done]. unfold bind. by rewrite E0. }
  set (c0 := mkcore e0 _ _ _ _ _) in *.
  destruct (filealloc_ok c0 _ B L Hc0) as [(f1 & x1 & e1 & E1 & Hn1 & Hf1 & Hfr1 & T1 & Hc1)|(msg & E1 & Ho)].
  2: { right. exists msg. split; [|done]. unfold bind. rewrite E0. fold c0. apply Z.eqb_neq in Hf0 as ->. by rewrite E1. }
  set (c1 := mkcore e1 _ _ _ _ _) in *. pose proof Hfr1 as Hfr1'. cbn [files c0] in Hfr1. apply lookup_insert_None in Hfr1 as [_ Hne].
  rewrite fupd_ne in Hn1 by done. destruct (ci_heap _ _ _ _ Hc1) as (zs & Hh & Hz & Hnz).
  destruct (ka_alloc_ok (heap c1) _ SIZEOF_PIPE Hh ltac:(unfold SIZEOF_PIPE; lia)) as [(pi & e & z & E2 & Hh2 & _ & Hpi0 & Hpifr)|[msg E2]].
  2: { right. exists msg. split; [|by eexists _, _]. unfold bind. rewrite E0. fold c0. pose proof Hf0 as Hf0'. apply Z.eqb_neq in Hf0' as ->. rewrite E1. fold c1.
       pose proof Hf1 as Hf1'. apply Z.eqb_neq in Hf1' as ->. unfold gets, heapM. by rewrite E2. }
  left. exists f0, f1. assert (pipes c1 !! pi = None) as Hpi.
  { apply eq_None_not_Some. intros HS. apply Hpifr. rewrite fmap_app, Hz. apply elem_of_app. left. apply elem_of_app. right. by apply elem_addrs. }
  assert (files c1 !! f0 = Some x0) as L0 by (cbn [files c1 c0]; rewrite lookup_insert_ne by done; apply lookup_insert_eq).
  assert (files c1 !! f1 = Some x1) as L1 by (cbn [files c1]; apply lookup_insert_eq).
  eexists. split; [|split_and!; [done|done|done|done|done|]].
  - unfold bind at 1. rewrite E0. fold c0. pose proof Hf0 as Hf0'. apply Z.eqb_neq in Hf0' as ->. unfold bind at 1. rewrite E1. fold c1.
    pose proof Hf1 as Hf1'. apply Z.eqb_neq in Hf1' as ->. unfold bind at 1, gets. unfold bind at 1. rewrite (run_heap _ _ _ _ E2).
    pose proof Hpi0 as Hpi0'. apply Z.eqb_neq in Hpi0' as ->. unfold bind at 1, put_pipe, modify. cbn [heap pipes files ftable_file rest wakes].
    unfold bind at 1. rewrite (run_mod _ f0 _ x0) by done. unfold bind. cbn [heap pipes files ftable_file rest wakes].
    rewrite (run_mod _ f1 _ x1) by (cbn [files]; by rewrite lookup_insert_ne). cbn [heap pipes files ftable_file rest wakes]. reflexivity.
  - apply (make_pipe c1 _ B L f0 f1 x0 x1 pi e z); try done. by exists zs.
Qed.
End spec.

(** * Descriptors *)

Section calls.
Context {E R : Type} `{!KAlloc E} `{!KAllocLaws E} `{!FileEnv R} `{!UserCopy R} `{!FileEnvLaws R}.
Context (junk : E -> Z -> file) (junk_data : E -> Z -> bytes) (Hjunk : junk_ok junk).
Implicit Types (s : kst E R) (h : Z -> Z).

Definition NPROC : nat := 64.
Definition tables_ok (o : list (list Z)) : Prop := Forall (fun l => length l = NOFILE) o /\ (length o <= NPROC)%nat.
(** [h]: references that the running call holds besides the descriptors. *)
Definition finv s h (B : list (Z * Z)) (L : list handle) : Prop :=
  cinv (co s) (fun f => refs (ofile s) f + h f) B L /\ tables_ok (ofile s).
Definition nohold : Z -> Z := fun _ => 0.
Definition hold (f d : Z) h : Z -> Z := fun g => if g =? f then h g + d else h g.

(** A call on [k] tables has returned in a state of the invariant, or the allocator
    panicked. *)
Definition after {A} (r : outcome (kst E R) A) (k : nat) (B : list (Z * Z)) (L : list handle) : Prop :=
  match r with
  | Ok _ s => finv s nohold B L /\ length (ofile s) = k
  | Panic msg => oom (E := E) msg
  | _ => False
  end.

Lemma cinv_ext (c : core E R) n n' B L : (forall f, n f = n' f) -> cinv c n B L -> cinv c n' B L.
Proof. intros H. by rewrite (functional_extensionality n n' H). Qed.

Lemma finv_ext s h h' B L : (forall f, h f = h' f) -> finv s h B L -> finv s h' B L.
Proof. intros H [Hc Ht]. split; [|done]. eapply cinv_ext; [|exact Hc]. intros f. cbn. by rewrite H. Qed.

Lemma refs_bound o f : tables_ok o -> 0 <= refs o f <= 65536.
Proof.
  intros [Hl Hn]. unfold refs, NPROC in *. destruct (f =? 0); [lia|]. split; [apply zsum_ge; intros l; apply zsum_ge, is_ref_ge|].
  trans (1024 * Z.of_nat (length o)); [|lia]. clear Hn. induction Hl as [|l o Hl _ IH]; [done|]. cbn [zsum length].
  pose proof (zsum_le (is_ref f) l 1) as H. rewrite Hl in H. assert (forall x, is_ref f x <= 1) by (intros; unfold is_ref; case_decide; lia).
  specialize (H ltac:(done)). unfold NOFILE in H. lia.
Qed.

(** A descriptor refers to a file. *)
Lemma refs_slot o me l fd f : o !! me = Some l -> l !! fd = Some f -> f <> 0 -> 0 < refs o f.
Proof.
  intros Ho Hl Hf. unfold refs. apply Z.eqb_neq in Hf as ->.
  pose proof (zsum_pos (zsum (is_ref f)) o me l ltac:(intros; apply zsum_ge, is_ref_ge) Ho) as H1.
  pose proof (zsum_pos (is_ref f) l fd f (is_ref_ge f) Hl) as H2. unfold is_ref in H2 at 1. rewrite decide_True in H2 by done. lia.
Qed.

Lemma set_tables o me l fd f : tables_ok o -> o !! me = Some l -> tables_ok (<[me := <[fd := f]> l]> o).
Proof.
  intros [Hl Hn] Ho. split; [|by rewrite length_insert]. apply Forall_insert; [done|]. rewrite length_insert. by apply (Forall_lookup_1 _ _ _ _ Hl Ho).
Qed.

(** The content of a descriptor changes from [g] to [f]. *)
Lemma set_ofile_ok s h B L me l fd g f : finv s h B L -> ofile s !! me = Some l -> l !! fd = Some g ->
  exists s', set_ofile me fd f s = Ok tt s' /\ ofile s' = <[me := <[fd := f]> l]> (ofile s) /\ co s' = co s /\
    finv s' (hold f (if f =? 0 then 0 else -1) (hold g (if g =? 0 then 0 else 1) h)) B L.
Proof.
  intros [Hc Ht] Ho Hl. eexists. split; [unfold set_ofile; by rewrite Ho|]. split; [done|]. split; [done|]. split; [|by apply set_tables].
  eapply cinv_ext; [|exact Hc]. intros x. cbn [ofile]. rewrite (refs_set _ _ _ _ _ _ _ Ho Hl). unfold hold, is_ref.
  destruct (Z.eqb_spec x f), (Z.eqb_spec x g), (Z.eqb_spec x 0), (Z.eqb_spec f 0), (Z.eqb_spec g 0), (decide (g = x)), (decide (f = x)); lia.
Qed.

Lemma coreM_ok {A} (m : M (core E R) A) s x c : m (co s) = Ok x c -> coreM m s = Ok x (mkkst c (ofile s)).
Proof. intros H. unfold coreM. by rewrite H. Qed.

Lemma close_held s h B L f : finv s h B L -> 0 < refs (ofile s) f + h f ->
  exists s', coreM (fileclose f) s = Ok tt s' /\ ofile s' = ofile s /\ finv s' (hold f (-1) h) B L.
Proof.
  intros [Hc Ht] Hf. destruct (fileclose_ok _ _ _ _ f Hc Hf) as (c' & Ec & Hc'). eexists. split; [by apply coreM_ok|]. split; [done|]. split; [|done].
  eapply cinv_ext; [|exact Hc']. intros g. unfold fupd, hold. cbn [ofile]. destruct (Z.eqb_spec g f) as [->|]; lia.
Qed.

Lemma dup_held s h B L f : finv s h B L -> 0 < refs (ofile s) f + h f -> h f <= 1 ->
  exists s', coreM (filedup f) s = Ok f s' /\ ofile s' = ofile s /\ finv s' (hold f 1 h) B L.
Proof.
  intros [Hc Ht] Hf Hh. pose proof (refs_bound (ofile s) f Ht). destruct (filedup_ok _ _ _ _ f Hc Hf ltac:(lia)) as (c' & Ec & Hc').
  eexists. split; [by apply coreM_ok|]. split; [done|]. split; [|done].
  eapply cinv_ext; [|exact Hc']. intros g. unfold fupd, hold. cbn [ofile]. destruct (Z.eqb_spec g f) as [->|]; lia.
Qed.

Lemma free_fd_ok l k : match free_fd l k with Some fd => (k <= fd)%nat /\ l !! (fd - k)%nat = Some 0 | None => True end.
Proof.
  revert k. induction l as [|f l IH]; intros k; cbn [free_fd]; [done|]. destruct (Z.eqb_spec f 0) as [->|]; [by rewrite Nat.sub_diag|].
  specialize (IH (S k)). destruct (free_fd l (S k)) as [fd|]; [|done]. destruct IH as [H1 H2]. split; [lia|].
  by replace (fd - k)%nat with (S (fd - S k)) by lia.
Qed.

(** [fdalloc] takes over the reference when it succeeds. *)
Lemma fdalloc_ok s h B L me l f : finv s h B L -> ofile s !! me = Some l -> f <> 0 ->
  (fdalloc me f s = Ok (-1) s) \/
  (exists fd s', fdalloc me f s = Ok (Z.of_nat fd) s' /\ l !! fd = Some 0 /\ ofile s' = <[me := <[fd := f]> l]> (ofile s) /\ co s' = co s /\ finv s' (hold f (-1) h) B L).
Proof.
  intros Hinv Ho Hf.
  assert (fdalloc me f s = match free_fd (take NOFILE l) 0 with None => Ok (-1) s | Some fd => (set_ofile me fd f;; ret (Z.of_nat fd)) s end) as ->.
  { unfold fdalloc, bind at 1, get_ofile. rewrite Ho. by destruct (free_fd _ 0). }
  pose proof (free_fd_ok (take NOFILE l) 0) as Hfr.
  destruct (free_fd (take NOFILE l) 0) as [fd|]; [right|by left]. destruct Hfr as [_ Hfr]. rewrite Nat.sub_0_r in Hfr. apply lookup_take_Some in Hfr as [Hfr _].
  destruct (set_ofile_ok s h B L me l fd 0 f Hinv Ho Hfr) as (s' & Es & Eo & Eco & Hinv'). exists fd, s'. unfold bind. rewrite Es.
  split; [done|]. split; [done|]. split; [done|]. split; [done|]. eapply finv_ext; [|exact Hinv']. intros g. unfold hold. apply Z.eqb_neq in Hf as ->. cbn [Z.eqb].
  destruct (Z.eqb_spec g 0); destruct (Z.eqb_spec g f); lia.
Qed.

Lemma argfd_ok s me l fd : ofile s !! me = Some l -> length l = NOFILE ->
  argfd me fd s = Ok None s \/ exists f, argfd me fd s = Ok (Some f) s /\ f <> 0 /\ l !! Z.to_nat fd = Some f /\ 0 <= fd.
Proof.
  intros Ho Hl. unfold argfd, bind, get_ofile. rewrite Ho. destruct ((fd <? 0) || (Z.of_nat NOFILE <=? fd)) eqn:Eb; [by left|].
  apply orb_false_iff in Eb as [Eb1%Z.ltb_ge Eb2%Z.leb_gt]. destruct (lookup_lt_is_Some_2 l (Z.to_nat fd)) as [f Hf]; [lia|]. rewrite Hf.
  destruct (Z.eqb_spec f 0); [by left|right]. by exists f.
Qed.

Lemma table_of s h B L me : finv s h B L -> (me < length (ofile s))%nat -> exists l, ofile s !! me = Some l /\ length l = NOFILE.
Proof.
  intros [_ [Ht _]] Hme. destruct (lookup_lt_is_Some_2 (ofile s) me Hme) as [l Hl]. exists l. split; [done|]. by apply (Forall_lookup_1 _ _ _ _ Ht Hl).
Qed.

Lemma sys_dup_ok s B L me fd : finv s nohold B L -> (me < length (ofile s))%nat ->
  exists v s', sys_dup me fd s = Ok v s' /\ finv s' nohold B L /\ length (ofile s') = length (ofile s).
Proof.
  intros Hinv Hme. destruct (table_of _ _ _ _ _ Hinv Hme) as (l & Ho & Hl). unfold sys_dup, bind.
  destruct (argfd_ok s me l fd Ho Hl) as [->|(f & -> & Hf & Hs & _)]; [by eexists _, s|].
  pose proof (refs_slot _ _ _ _ _ Ho Hs Hf) as Hpos.
  destruct (fdalloc_ok s nohold B L me l f Hinv Ho Hf) as [->|(k & s1 & -> & Hk & Eo & _ & Hinv1)]; [by eexists _, s|].
  destruct (Z.ltb_spec (Z.of_nat k) 0); [lia|].
  assert (refs (ofile s1) f = refs (ofile s) f + 1) as Er by (rewrite Eo, (refs_fill _ _ _ _ _ Ho Hk Hf); by rewrite fupd_eq).
  destruct (dup_held s1 _ B L f Hinv1) as (s2 & -> & Eo2 & Hinv2); [rewrite Er; unfold hold, nohold; rewrite Z.eqb_refl; lia|unfold hold, nohold; rewrite Z.eqb_refl; lia|].
  eexists _, s2. split; [done|]. split; [|by rewrite Eo2, Eo, length_insert]. eapply finv_ext; [|exact Hinv2]. intros g. unfold hold, nohold. destruct (g =? f); lia.
Qed.

Lemma sys_close_ok s B L me fd : finv s nohold B L -> (me < length (ofile s))%nat ->
  exists v s', sys_close me fd s = Ok v s' /\ finv s' nohold B L /\ length (ofile s') = length (ofile s).
Proof.
  intros Hinv Hme. destruct (table_of _ _ _ _ _ Hinv Hme) as (l & Ho & Hl). unfold sys_close, bind.
  destruct (argfd_ok s me l fd Ho Hl) as [->|(f & -> & Hf & Hs & _)]; [by eexists _, s|].
  pose proof (refs_slot _ _ _ _ _ Ho Hs Hf) as Hpos.
  destruct (set_ofile_ok s nohold B L me l _ f 0 Hinv Ho Hs) as (s1 & -> & Eo & _ & Hinv1).
  assert (refs (ofile s1) f = refs (ofile s) f - 1) as Er.
  { rewrite Eo, (refs_set _ _ _ _ _ _ _ Ho Hs). unfold is_ref. pose proof Hf as Hf'. apply Z.eqb_neq in Hf' as ->. rewrite decide_True by done. rewrite decide_False by congruence. lia. }
  destruct (close_held s1 _ B L f Hinv1) as (s2 & -> & Eo2 & Hinv2).
  { rewrite Er. unfold hold, nohold. rewrite Z.eqb_refl. pose proof Hf as Hf'. apply Z.eqb_neq in Hf' as ->. cbn. lia. }
  eexists _, s2. split; [done|]. split; [|by rewrite Eo2, Eo, length_insert]. eapply finv_ext; [|exact Hinv2]. intros g. unfold hold, nohold.
  apply Z.eqb_neq in Hf as ->. cbn. destruct (g =? f), (g =? 0); lia.
Qed.

(** ** [pipe] *)

Lemma pipe_held s B L : finv s nohold B L ->
  (exists f0 f1 s', coreM (pipealloc junk junk_data) s = Ok (Some (f0, f1)) s' /\ f0 <> 0 /\ f1 <> 0 /\ f0 <> f1 /\ ofile s' = ofile s /\
     finv s' (hold f1 1 (hold f0 1 nohold)) B L) \/
  (exists msg, coreM (pipealloc junk junk_data) s = Panic msg /\ oom (E := E) msg).
Proof using Hjunk.
  intros [Hc Ht]. destruct (pipealloc_ok junk Hjunk junk_data _ _ _ _ Hc) as [(f0 & f1 & c & Ec & H0 & H1 & Hne & N0 & N1 & Hc')|(msg & Ec & Hoom)].
  - left. exists f0, f1. eexists. split; [by apply coreM_ok|]. split_and!; try done. split; [|done]. eapply cinv_ext; [|exact Hc']. intros g.
    unfold fupd, hold, nohold in *. cbn [ofile]. destruct (Z.eqb_spec g f1), (Z.eqb_spec g f0); subst; lia.
  - right. exists msg. split; [|done]. unfold coreM. by rewrite Ec.
Qed.

Lemma close_both s B L f0 f1 : finv s (hold f1 1 (hold f0 1 nohold)) B L -> f0 <> f1 ->
  exists s', (coreM (fileclose f0);; coreM (fileclose f1);; ret (-1)) s = Ok (-1) s' /\ ofile s' = ofile s /\ finv s' nohold B L.
Proof.
  intros Hinv Hne. pose proof (refs_bound (ofile s) f0 (proj2 Hinv)). pose proof (refs_bound (ofile s) f1 (proj2 Hinv)).
  destruct (close_held s _ B L f0 Hinv) as (s1 & E1 & O1 & Hinv1).
  { unfold hold, nohold. rewrite Z.eqb_refl. destruct (Z.eqb_spec f0 f1); lia. }
  destruct (close_held s1 _ B L f1 Hinv1) as (s2 & E2 & O2 & Hinv2).
  { rewrite O1. unfold hold, nohold. rewrite Z.eqb_refl. destruct (Z.eqb_spec f1 f0); lia. }
  exists s2. unfold bind. rewrite E1, E2. split; [done|]. split; [congruence|]. eapply finv_ext; [|exact Hinv2].
  intros g. unfold hold, nohold. destruct (Z.eqb_spec g f0), (Z.eqb_spec g f1); lia.
Qed.

Lemma copyout_held s h B L a bs : finv s h B L ->
  exists v s', coreM (restM (uc_copyout a bs)) s = Ok v s' /\ ofile s' = ofile s /\ finv s' h B L.
Proof.
  intros [[C1 C2 C3 C4 Hr C6 C7 C8] Ht]. destruct (fe_copyout_ok _ _ a bs Hr) as (v & r & Ev & Hr'). exists v. eexists.
  split; [apply coreM_ok; by apply run_rest|]. split; [done|]. split; [|done]. by constructor.
Qed.

Lemma clear_held s h B L me l fd f : finv s h B L -> ofile s !! me = Some l -> l !! fd = Some f -> f <> 0 ->
  exists s', set_ofile me fd 0 s = Ok tt s' /\ ofile s' = <[me := <[fd := 0]> l]> (ofile s) /\ finv s' (hold f 1 h) B L.
Proof.
  intros Hinv Ho Hl Hf. destruct (set_ofile_ok s h B L me l fd f 0 Hinv Ho Hl) as (s' & Es & Eo & _ & Hinv'). exists s'. split; [done|]. split; [done|].
  eapply finv_ext; [|exact Hinv']. intros g. unfold hold. apply Z.eqb_neq in Hf as ->. cbn [Z.eqb]. destruct (Z.eqb_spec g 0), (Z.eqb_spec g f); lia.
Qed.

(** The two descriptors of a pipe are taken back. *)
Lemma pipe_undo s B L me l fd0 fd1 f0 f1 : finv s nohold B L -> ofile s !! me = Some l -> l !! fd0 = Some f0 -> l !! fd1 = Some f1 -> f0 <> 0 -> f1 <> 0 -> f0 <> f1 ->
  exists s', pipe_fail me [Z.of_nat fd0; Z.of_nat fd1] f0 f1 s = Ok (-1) s' /\ length (ofile s') = length (ofile s) /\ finv s' nohold B L.
Proof.
  intros Hinv Ho Hl0 Hl1 H0 H1 Hne. unfold pipe_fail. cbn [clear_fds]. rewrite !Nat2Z.id.
  destruct (clear_held _ _ _ _ me l fd0 f0 Hinv Ho Hl0 H0) as (s1 & E1 & O1 & Hinv1).
  destruct (clear_held s1 _ _ _ me (<[fd0 := 0]> l) fd1 f1 Hinv1) as (s2 & E2 & O2 & Hinv2); [| |done|].
  { rewrite O1. apply list_lookup_insert_eq. by eapply lookup_lt_Some. }
  { rewrite list_lookup_insert_ne; [done|congruence]. }
  destruct (close_both s2 B L f0 f1 Hinv2 Hne) as (s3 & E3 & O3 & Hinv3). exists s3. split; [|split; [|done]].
  - unfold bind in *. rewrite E1, E2. exact E3.
  - by rewrite O3, O2, length_insert, O1, length_insert.
Qed.

Lemma sys_pipe_ok s B L me a : finv s nohold B L -> (me < length (ofile s))%nat ->
  after (sys_pipe junk junk_data me a s) (length (ofile s)) B L.
Proof using Hjunk.
  intros Hinv Hme. destruct (table_of _ _ _ _ _ Hinv Hme) as (l & Ho & Hl). unfold sys_pipe, bind at 1.
  destruct (pipe_held s B L Hinv) as [(f0 & f1 & s1 & -> & H0 & H1 & Hne & O1 & Hinv1)|(msg & -> & Hoom)]; [|done].
  rewrite <-O1 in Ho, Hme |- *. unfold bind at 1.
  destruct (fdalloc_ok s1 _ B L me l f0 Hinv1 Ho H0) as [->|(k0 & s2 & -> & Hk0 & O2 & _ & Hinv2)]; cbn [Z.ltb Z.compare].
  { destruct (close_both s1 B L f0 f1 Hinv1 Hne) as (s3 & E3 & O3 & Hinv3). unfold pipe_fail. cbn [clear_fds]. unfold bind at 1, ret at 1. rewrite E3. split; [done|]. by rewrite O3. }
  destruct (Z.ltb_spec (Z.of_nat k0) 0); [lia|]. set (l0 := <[k0 := f0]> l) in *.
  assert (ofile s2 !! me = Some l0) as Ho2 by (rewrite O2; apply list_lookup_insert_eq; done).
  assert (l0 !! k0 = Some f0) as Hs0 by (apply list_lookup_insert_eq; by eapply lookup_lt_Some).
  unfold bind at 1. destruct (fdalloc_ok s2 _ B L me l0 f1 Hinv2 Ho2 H1) as [->|(k1 & s3 & -> & Hk1 & O3 & _ & Hinv3)]; cbn [Z.ltb Z.compare].
  { destruct (clear_held s2 _ B L me l0 k0 f0 Hinv2 Ho2 Hs0 H0) as (s4 & E4 & O4 & Hinv4).
    destruct (close_both s4 B L f0 f1) as (s5 & E5 & O5 & Hinv5); [|done|].
    { eapply finv_ext; [|exact Hinv4]. intros g. unfold hold. destruct (Z.eqb_spec g f0), (Z.eqb_spec g f1); lia. }
    assert (pipe_fail me [Z.of_nat k0] f0 f1 s2 = Ok (-1) s5) as ->.
    { unfold pipe_fail. cbn [clear_fds]. rewrite Nat2Z.id. unfold bind in *. rewrite E4. exact E5. }
    split; [done|]. by rewrite O5, O4, length_insert, O2, length_insert. }
  destruct (Z.ltb_spec (Z.of_nat k1) 0); [lia|]. assert (k1 <> k0) as Hk by congruence.
  assert (finv s3 nohold B L) as Hinv3'.
  { eapply finv_ext; [|exact Hinv3]. intros g. unfold hold, nohold. destruct (Z.eqb_spec g f0), (Z.eqb_spec g f1); lia. }
  set (l1 := <[k1 := f1]> l0) in *. assert (ofile s3 !! me = Some l1) as Ho3 by (rewrite O3; apply list_lookup_insert_eq; by rewrite O2, length_insert).
  assert (l1 !! k0 = Some f0) as Hs0' by (unfold l1; by rewrite list_lookup_insert_ne).
  assert (l1 !! k1 = Some f1) as Hs1' by (apply list_lookup_insert_eq; by eapply lookup_lt_Some).
  assert (length (ofile s3) = length (ofile s1)) as Hlen by (by rewrite O3, length_insert, O2, length_insert).
  unfold bind at 1. destruct (copyout_held s3 _ B L a (le_enc 4 (Z.of_nat k0)) Hinv3') as (v0 & s4 & -> & O4 & Hinv4). rewrite <-O4 in Ho3, Hlen.
  destruct (v0 <? 0).
  { destruct (pipe_undo s4 B L me l1 k0 k1 f0 f1) as (s5 & E5 & O5 & Hinv5); try done. rewrite E5. split; [done|]. congruence. }
  unfold bind. destruct (copyout_held s4 _ B L (u64 (a + 4)) (le_enc 4 (Z.of_nat k1)) Hinv4) as (v1 & s5 & -> & O5 & Hinv5). rewrite <-O5 in Ho3, Hlen.
  destruct (v1 <? 0); [|done].
  destruct (pipe_undo s5 B L me l1 k0 k1 f0 f1) as (s6 & E6 & O6 & Hinv6); try done. rewrite E6. split; [done|]. congruence.
Qed.

(** ** [fork] and [exit] *)

Lemma fork_loop_ok B L me np l l' : forall i s pre tn, finv s nohold B L -> ofile s !! me = Some l -> l = pre ++ l' -> length pre = i ->
  length l = NOFILE -> ofile s !! np = Some tn -> length tn = NOFILE -> (forall j, (i <= j < NOFILE)%nat -> tn !! j = Some 0) -> me <> np ->
  exists s', fork_loop l' i np s = Ok tt s' /\ finv s' nohold B L /\ ofile s' = <[np := take i tn ++ l']> (ofile s).
Proof.
  induction l' as [|f l' IH]; intros i s pre tn Hinv Ho El Hpre Hl Hn Htn Hz Hne; cbn [fork_loop].
  { exists s. split; [done|]. split; [done|]. rewrite app_nil_r in El |- *. subst pre. rewrite <-Hpre, Hl, <-Htn, firstn_all. by rewrite list_insert_id. }
  assert (i < NOFILE)%nat as Hi by (rewrite <-Hl, El, length_app; cbn; lia).
  assert (l !! i = Some f) as Hf by (rewrite El; by apply list_lookup_middle).
  assert (exists s1, (if negb (f =? 0) then g ← coreM (filedup f); set_ofile np i g else ret tt) s = Ok tt s1 /\ finv s1 nohold B L /\
    ofile s1 = <[np := <[i := f]> tn]> (ofile s)) as (s1 & E1 & Hinv1 & O1).
  { destruct (Z.eqb_spec f 0) as [->|Hf0]; cbn [negb].
    - exists s. split; [done|]. split; [done|]. rewrite (list_insert_id tn i 0) by (apply Hz; lia). by rewrite list_insert_id.
    - destruct (dup_held s nohold B L f Hinv) as (s1 & E1 & O1 & Hinv1); [pose proof (refs_slot _ _ _ _ _ Ho Hf Hf0); unfold nohold; lia|unfold nohold; lia|].
      destruct (set_ofile_ok s1 _ B L np tn i 0 f Hinv1) as (s2 & E2 & O2 & _ & Hinv2); [by rewrite O1|apply Hz; lia|].
      exists s2. unfold bind. rewrite E1. split; [done|]. split; [|by rewrite O2, O1]. eapply finv_ext; [|exact Hinv2]. intros g. unfold hold, nohold.
      apply Z.eqb_neq in Hf0 as ->. cbn [Z.eqb]. destruct (Z.eqb_spec g f), (Z.eqb_spec g 0); lia. }
  destruct (IH (S i) s1 (pre ++ [f]) (<[i := f]> tn)) as (s' & E' & Hinv' & O'); try done.
  - by rewrite O1, list_lookup_insert_ne.
  - by rewrite <-app_assoc.
  - rewrite length_app. cbn. lia.
  - rewrite O1. apply list_lookup_insert_eq. by eapply lookup_lt_Some.
  - by rewrite length_insert.
  - intros j Hj. rewrite list_lookup_insert_ne by lia. apply Hz. lia.
  - exists s'. unfold bind in *. rewrite E1. split; [done|]. split; [done|]. rewrite O', O1, list_insert_insert_eq. f_equal.
    rewrite (take_S_r _ _ f) by (apply list_lookup_insert_eq; lia). rewrite take_insert_ge by lia. by rewrite <-app_assoc.
Qed.

(** The child gets the descriptors of the parent. *)
Lemma fork_files_ok s B L me np l : finv s nohold B L -> ofile s !! me = Some l -> ofile s !! np = Some (replicate NOFILE 0) -> me <> np ->
  exists s', fork_files me np s = Ok tt s' /\ finv s' nohold B L /\ ofile s' = <[np := l]> (ofile s).
Proof.
  intros Hinv Ho Hn Hne. assert (length l = NOFILE) as Hl by (destruct Hinv as [_ [Ht _]]; by apply (Forall_lookup_1 _ _ _ _ Ht Ho)).
  destruct (fork_loop_ok B L me np l l 0 s [] (replicate NOFILE 0)) as (s' & E' & Hinv' & O'); try done.
  { intros j Hj. apply lookup_replicate. split; [done|lia]. }
  exists s'. split; [|done]. unfold fork_files, bind, get_ofile. rewrite Ho. rewrite <-Hl, firstn_all. exact E'.
Qed.

Lemma exit_loop_ok B L me n : forall fd s l, finv s nohold B L -> ofile s !! me = Some l -> length l = NOFILE -> (n + fd = NOFILE)%nat ->
  exists s', exit_loop n fd me s = Ok tt s' /\ finv s' nohold B L /\ ofile s' = <[me := take fd l ++ replicate n 0]> (ofile s).
Proof.
  induction n as [|n IH]; intros fd s l Hinv Ho Hl Hn; cbn [exit_loop].
  { exists s. split; [done|]. split; [done|]. cbn [replicate]. rewrite app_nil_r. replace fd with (length l) by lia. rewrite firstn_all. by rewrite list_insert_id. }
  destruct (lookup_lt_is_Some_2 l fd) as [f Hf]; [lia|].
  assert (exists s1, (if negb (f =? 0) then coreM (fileclose f);; set_ofile me fd 0 else ret tt) s = Ok tt s1 /\ finv s1 nohold B L /\
    ofile s1 = <[me := <[fd := 0]> l]> (ofile s)) as (s1 & E1 & Hinv1 & O1).
  { destruct (Z.eqb_spec f 0) as [->|Hf0]; cbn [negb].
    - exists s. split; [done|]. split; [done|]. rewrite (list_insert_id l fd 0) by done. by rewrite list_insert_id.
    - destruct (close_held s nohold B L f Hinv) as (s1 & E1 & O1 & Hinv1); [pose proof (refs_slot _ _ _ _ _ Ho Hf Hf0); unfold nohold; lia|].
      destruct (clear_held s1 _ B L me l fd f Hinv1) as (s2 & E2 & O2 & Hinv2); [by rewrite O1|done|done|].
      exists s2. unfold bind. rewrite E1. split; [done|]. split; [|by rewrite O2, O1]. eapply finv_ext; [|exact Hinv2]. intros g. unfold hold, nohold.
      destruct (Z.eqb_spec g f); lia. }
  destruct (IH (S fd) s1 (<[fd := 0]> l)) as (s' & E' & Hinv' & O'); [done| |by rewrite length_insert|lia|].
  { rewrite O1. apply list_lookup_insert_eq. by eapply lookup_lt_Some. }
  exists s'. unfold bind at 1, get_ofile. rewrite Ho, Hf. unfold bind in *. rewrite E1. split; [done|]. split; [done|].
  rewrite O', O1, list_insert_insert_eq. f_equal. rewrite (take_S_r _ _ 0) by (apply list_lookup_insert_eq; lia). rewrite take_insert_ge by lia. by rewrite <-app_assoc.
Qed.

Lemma exit_files_ok s B L me : finv s nohold B L -> (me < length (ofile s))%nat ->
  exists s', exit_files me s = Ok tt s' /\ finv s' nohold B L /\ ofile s' = <[me := replicate NOFILE 0]> (ofile s).
Proof.
  intros Hinv Hme. destruct (table_of _ _ _ _ _ Hinv Hme) as (l & Ho & Hl). by apply (exit_loop_ok B L me NOFILE 0 s l).
Qed.

(** ** [open] *)

(** A file without a type gets one and takes over the reference to the inode. *)
Lemma type_upd (c : core E R) n B L f x y ip : cinv c n B (HInode ip :: L) -> files c !! f = Some x ->
  f_type x ∉ [FD_PIPE; FD_INODE; FD_DEVICE; FD_SOCK] -> hof y = [HInode ip] -> f_type y <> FD_PIPE -> f_ref y = f_ref x -> f_prev y = f_prev x -> f_next y = f_next x ->
  cinv (mkcore (heap c) (pipes c) (<[f := y]> (files c)) (ftable_file c) (rest c) (wakes c)) n B L.
Proof.
  intros [Ht Hf Hn (zs & Hh & Hz & Hnz) Hr Hp He Hu] Hx Hty Hy Hyt E1 E2 E3. destruct (no_type x Hty) as [Hhx Hxe].
  assert (forall pi w, ~ pipe_end pi w y) as Hye by (intros pi w (? & _); done).
  assert (forall pi w, has_end (<[f := y]> (files c)) pi w <-> has_end (files c) pi w) as Hends.
  { intros pi w. rewrite <-(insert_delete_eq (files c) f y), has_end_insert by (done || apply lookup_delete_eq).
    rewrite <-(insert_delete_id (files c) f x Hx) at 2. by rewrite has_end_insert by (done || apply lookup_delete_eq). }
  constructor; cbn [heap pipes files ftable_file rest wakes]; [done|..].
  - intros g z. intros [[<- <-]|[Hne Hg]]%lookup_insert_Some; [rewrite E1, E2, E3; by apply Hf|by apply Hf].
  - intros g [Hg Hne]%lookup_insert_None. by apply Hn.
  - exists zs. split; [done|]. split; [|done]. by rewrite (addrs_update _ _ x).
  - eapply fe_perm; [|exact Hr]. rewrite (handles_delete _ _ x Hx), Hhx. rewrite <-insert_delete_eq, handles_insert by apply lookup_delete_eq. rewrite Hy. cbn. by rewrite Permutation_middle.
  - intros pi q Hq. destruct (Hp pi q Hq) as [H1 H2]. split; [|done]. intros w. rewrite Hends. apply H1.
  - intros g z. intros [[<- <-]|[Hne Hg]]%lookup_insert_Some Hty'; [done|]. by apply (He g).
  - intros g1 g2 z1 z2 pi w G1 G2 P1 P2. apply lookup_insert_Some in G1 as [[<- <-]|[_ G1]]; [by apply Hye in P1|].
    apply lookup_insert_Some in G2 as [[<- <-]|[_ G2]]; [by apply Hye in P2|]. by apply (Hu g1 g2 z1 z2 pi w).
Qed.

Lemma open_inode_ok s B L me ip dev major omode : finv s nohold B (HInode ip :: L) -> (me < length (ofile s))%nat ->
  after (open_inode junk me ip dev major omode s) (length (ofile s)) B L.
Proof using Hjunk.
  intros Hinv Hme. destruct (table_of _ _ _ _ _ Hinv Hme) as (l & Ho & Hl). pose proof Hinv as [Hc Ht]. unfold open_inode, bind at 1.
  destruct (filealloc_ok junk Hjunk _ _ _ _ Hc) as [(f & x & e & Ef & Hn & Hf & Hfr & Hty & Hc1)|(msg & Ef & Hoom)]; unfold coreM at 1; rewrite Ef; [|done].
  set (c1 := mkcore e _ _ _ _ _) in *. apply Z.eqb_neq in Hf as Hf'. rewrite Hf'.
  assert (finv (mkkst c1 (ofile s)) (hold f 1 nohold) B (HInode ip :: L)) as Hinv1.
  { split; [|done]. eapply cinv_ext; [|exact Hc1]. intros g. unfold fupd, hold, nohold in *. cbn [ofile]. destruct (Z.eqb_spec g f) as [->|]; lia. }
  unfold bind at 1. destruct (fdalloc_ok (mkkst c1 (ofile s)) _ B _ me l f Hinv1 Ho Hf) as [->|(k & s2 & -> & Hk & O2 & Eco & Hinv2)]; cbn [Z.ltb Z.compare].
  - unfold bind at 1. cbn [negb when]. pose proof (refs_bound (ofile s) f Ht).
    destruct (close_held _ _ _ _ f Hinv1) as (s3 & -> & O3 & Hinv3); [cbn [ofile]; unfold hold, nohold; rewrite Z.eqb_refl; lia|].
    assert (finv s3 nohold B (HInode ip :: L)) as Hinv3' by (eapply finv_ext; [|exact Hinv3]; intros g; unfold hold, nohold; destruct (g =? f); lia).
    destruct Hinv3' as [[C1 C2 C3 C4 Hr C6 C7 C8] Ht3].
    destruct (fe_iunlockput_ok (rest (co s3)) (handles (files (co s3)) ++ L) ip) as (r & Er & Hr'); [eapply fe_perm; [|exact Hr]; by rewrite Permutation_middle|].
    unfold bind. erewrite coreM_ok by (apply run_rest; exact Er). cbn [ret after ofile]. split; [|by rewrite O3]. split; [|done]. by constructor.
  - destruct (Z.ltb_spec (Z.of_nat k) 0); [lia|].
    assert (finv s2 nohold B (HInode ip :: L)) as Hinv2' by (eapply finv_ext; [|exact Hinv2]; intros g; unfold hold, nohold; destruct (g =? f); lia).
    cbn [co] in Eco. set (g := if dev then _ else _).
    assert (files (co s2) !! f = Some x) as Hx by (rewrite Eco; apply lookup_insert_eq).
    assert (hof (g x) = [HInode ip] /\ f_type (g x) <> FD_PIPE /\ f_ref (g x) = f_ref x /\ f_prev (g x) = f_prev x /\ f_next (g x) = f_next x) as (Hg1 & Hg2 & Hg3 & Hg4 & Hg5) by (by destruct dev).
    destruct Hinv2' as [Hc2 Ht2]. pose proof (type_upd _ _ _ _ f x (g x) ip Hc2 Hx Hty Hg1 Hg2 Hg3 Hg4 Hg5) as Hc3.
    unfold bind at 1. erewrite coreM_ok by (by apply run_mod). destruct Hc3 as [C1 C2 C3 C4 Hr C6 C7 C8].
    destruct (fe_iunlock_ok _ _ ip Hr) as (r & Er & Hr').
    { apply elem_of_app. left. cbn [files]. rewrite <-insert_delete_eq, handles_insert by apply lookup_delete_eq. rewrite Hg1. by left. }
    unfold bind. erewrite coreM_ok by (apply run_rest; exact Er). cbn [ret after ofile]. split; [|by rewrite O2, length_insert]. split; [|done]. by constructor.
Qed.

(** ** Sequences of calls *)

(** A fork is into a table that is empty: the table of a process that has exited.  An
    open gets the next of the inodes [av] that the lookup of paths has given. *)
Inductive call :=
  | CDup (me : nat) (fd : Z)
  | CClose (me : nat) (fd : Z)
  | CPipe (me : nat) (addr : Z)
  | COpen (me : nat) (device : bool) (major omode : Z)
  | CFork (me np : nat)
  | CExit (me : nat).
Definition caller (x : call) : nat :=
  match x with CDup me _ | CClose me _ | CPipe me _ | COpen me _ _ _ | CFork me _ | CExit me => me end.

Definition run_call (x : call) (av : list nat) : M (kst E R) (list nat) :=
  match x with
  | CDup me fd => sys_dup me fd;; ret av
  | CClose me fd => sys_close me fd;; ret av
  | CPipe me a => sys_pipe junk junk_data me a;; ret av
  | COpen me dev major omode =>
      match av with
      | [] => ret []
      | ip :: av' => open_inode junk me ip dev major omode;; ret av'
      end
  | CFork me np =>
      o ← gets ofile;
      if decide (o !! np = Some (replicate NOFILE 0) /\ me <> np) then fork_files me np;; ret av else ret av
  | CExit me => exit_files me;; ret av
  end.
Fixpoint run_calls (l : list call) (av : list nat) : M (kst E R) (list nat) :=
  match l with
  | [] => ret av
  | x :: l' => av' ← run_call x av; run_calls l' av'
  end.

Definition calls_done (r : outcome (kst E R) (list nat)) (k : nat) (B : list (Z * Z)) (L : list handle) : Prop :=
  match r with
  | Ok av s => finv s nohold B ((HInode <$> av) ++ L) /\ length (ofile s) = k
  | Panic msg => oom (E := E) msg
  | _ => False
  end.

Lemma after_ret {A} (m : M (kst E R) A) s av B L k : after (m s) k B ((HInode <$> av) ++ L) -> calls_done ((m;; ret av) s) k B L.
Proof. unfold after, calls_done, bind. by destruct (m s). Qed.

Lemma run_call_ok x av s B L : finv s nohold B ((HInode <$> av) ++ L) -> (caller x < length (ofile s))%nat ->
  calls_done (run_call x av s) (length (ofile s)) B L.
Proof using Hjunk.
  intros Hinv Hme. destruct x as [me fd|me fd|me a|me dev major omode|me np|me]; cbn [run_call caller] in *.
  - apply after_ret. by destruct (sys_dup_ok s _ _ me fd Hinv Hme) as (v & s' & -> & H).
  - apply after_ret. by destruct (sys_close_ok s _ _ me fd Hinv Hme) as (v & s' & -> & H).
  - apply after_ret. by apply sys_pipe_ok.
  - destruct av as [|ip av]; [done|]. apply after_ret. by apply open_inode_ok.
  - unfold bind at 1, gets. case_decide as Hd; [|done]. destruct Hd as [Hn Hne]. apply after_ret.
    destruct (table_of _ _ _ _ _ Hinv Hme) as (l & Ho & _). destruct (fork_files_ok s _ _ me np l Hinv Ho Hn Hne) as (s' & -> & Hinv' & O').
    split; [done|]. by rewrite O', length_insert.
  - apply after_ret. destruct (exit_files_ok s _ _ me Hinv Hme) as (s' & -> & Hinv' & O'). split; [done|]. by rewrite O', length_insert.
Qed.

Lemma run_calls_ok l : forall av s B L, finv s nohold B ((HInode <$> av) ++ L) -> Forall (fun x => (caller x < length (ofile s))%nat) l ->
  calls_done (run_calls l av s) (length (ofile s)) B L.
Proof using Hjunk.
  induction l as [|x l IH]; intros av s B L Hinv Hl; cbn [run_calls]; [done|]. inversion Hl as [|? ? Hx Hl']; subst.
  pose proof (run_call_ok x av s B L Hinv Hx) as H. unfold bind. destruct (run_call x av s) as [av' s'| | | |]; try done.
  destruct H as [Hinv' E']. rewrite <-E' in Hl' |- *. by apply IH.
Qed.

(** The state after the start of the kernel. *)
Definition no_files (s : kst E R) (nproc : nat) : Prop :=
  files (co s) = ∅ /\ pipes (co s) = ∅ /\ ftable_file (co s) = 0 /\ ofile s = replicate nproc (replicate NOFILE 0).

Lemma zero_refs n f : refs (replicate n (replicate NOFILE 0)) f = 0.
Proof.
  unfold refs. destruct (Z.eqb_spec f 0); [done|]. induction n as [|n IH]; [done|]. cbn [replicate zsum]. rewrite IH.
  assert (forall k, zsum (is_ref f) (replicate k 0) = 0) as ->; [|done]. induction k as [|k IHk]; [done|]. cbn [replicate zsum]. rewrite IHk.
  unfold is_ref. rewrite decide_False by congruence. done.
Qed.

Lemma start_inv s nproc B L : no_files s nproc -> (nproc <= NPROC)%nat -> ka_rep (heap (co s)) B -> fe_rep (rest (co s)) L -> finv s nohold B L.
Proof.
  intros (Ef & Ep & Et & Eo) Hn Hb Hl. split.
  - constructor; rewrite ?Ef, ?Ep; try (by intros *; rewrite lookup_empty).
    + done.
    + intros f _. rewrite Eo, zero_refs. done.
    + exists []. split; [done|]. split; [|constructor]. unfold addrs. by rewrite !map_to_list_empty.
    + unfold handles. by rewrite map_to_list_empty.
  - rewrite Eo. split; [by apply Forall_replicate, length_replicate|]. by rewrite length_replicate.
Qed.

(** A file with references has a descriptor. *)
Lemma refs_found o f : 0 < refs o f -> exists me l fd, o !! me = Some l /\ l !! fd = Some f /\ f <> 0.
Proof.
  unfold refs. destruct (Z.eqb_spec f 0); [lia|]. intros (l & Hl & Hp)%zsum_in. apply zsum_in in Hp as (g & Hg & Hr).
  unfold is_ref in Hr. case_decide; [|lia]. subst g. apply list_elem_of_lookup in Hl as [me Hme]. apply list_elem_of_lookup in Hg as [fd Hfd].
  by exists me, l, fd.
Qed.
End calls.

(** * The theorems *)

(** C26: After any sequence of dup, close, pipe, open, fork and exit by any processes,
    error paths included, the reference count of every open file is the number of
    descriptors that refer to it, every descriptor refers to an open file, and an end of
    a pipe is open exactly if a descriptor of some process refers to a file for that
    end.  The calls always return, unless the allocator panics. *)
Theorem descriptor_refcounts {E R : Type} `{!KAlloc E} `{!KAllocLaws E} `{!FileEnv R} `{!UserCopy R} `{!FileEnvLaws R}
    (junk : E -> Z -> file) (junk_data : E -> Z -> bytes) (s : kst E R) nproc l av B L :
  junk_ok junk -> no_files s nproc -> (nproc <= NPROC)%nat -> ka_rep (heap (co s)) B -> fe_rep (rest (co s)) ((HInode <$> av) ++ L) ->
  Forall (fun x => (caller x < nproc)%nat) l ->
  match run_calls junk junk_data l av s with
  | Ok _ s' =>
      (forall f x, files (co s') !! f = Some x -> f_ref x = refs (ofile s') f /\ 1 <= f_ref x) /\
      (forall me t fd f, ofile s' !! me = Some t -> t !! fd = Some f -> f <> 0 -> is_Some (files (co s') !! f)) /\
      (forall pi q w, pipes (co s') !! pi = Some q -> end_open q w = true <->
         exists me t fd f x, ofile s' !! me = Some t /\ t !! fd = Some f /\ f <> 0 /\ files (co s') !! f = Some x /\ pipe_end pi w x)
  | Panic msg => oom (E := E) msg
  | _ => False
  end.
Proof.
  intros Hj Hs Hn Hb Hr Hl. pose proof (start_inv s nproc B _ Hs Hn Hb Hr) as Hinv.
  assert (length (ofile s) = nproc) as El by (destruct Hs as (_ & _ & _ & ->); apply length_replicate). rewrite <-El in Hl.
  pose proof (run_calls_ok junk junk_data Hj l av s B L Hinv Hl) as H. destruct (run_calls junk junk_data l av s) as [av' s'| | | |]; try done.
  destruct H as [[Hc Ht] _]. apply (cinv_ext _ _ (refs (ofile s'))) in Hc; [|intros f; unfold nohold; lia]. split_and!.
  - intros f x Hx. destruct (ci_files _ _ _ _ Hc f x Hx) as (E1 & E2 & _). lia.
  - intros me t fd f Ho Hf Hf0. pose proof (refs_slot _ _ _ _ _ Ho Hf Hf0) as Hp. destruct (has_file _ _ _ _ _ Hc Hp) as (x & Hx & _). by exists x.
  - intros pi q w Hq. destruct (ci_pipes _ _ _ _ Hc pi q Hq) as [Hends _]. rewrite Hends. split.
    + intros (f & x & Hx & He). destruct (ci_files _ _ _ _ Hc f x Hx) as (_ & Hp & _).
      destruct (refs_found (ofile s') f ltac:(lia)) as (me & t & fd & Ho & Hf & Hf0). by exists me, t, fd, f, x.
    + intros (me & t & fd & f & x & _ & _ & _ & Hx & He). by exists f, x.
Qed.

(** C27: When the descriptors of all processes have been closed again, nothing is left:
    no open file, no pipe; the heap has the blocks that it had at the start, and every
    inode that was opened has been put. *)
Theorem descriptors_no_leak {E R : Type} `{!KAlloc E} `{!KAllocLaws E} `{!FileEnv R} `{!UserCopy R} `{!FileEnvLaws R}
    (junk : E -> Z -> file) (junk_data : E -> Z -> bytes) (s s' : kst E R) nproc l av av' B L :
  junk_ok junk -> no_files s nproc -> (nproc <= NPROC)%nat -> ka_rep (heap (co s)) B -> fe_rep (rest (co s)) ((HInode <$> av) ++ L) ->
  Forall (fun x => (caller x < nproc)%nat) l -> run_calls junk junk_data l av s = Ok av' s' -> ofile s' = replicate nproc (replicate NOFILE 0) ->
  files (co s') = ∅ /\ pipes (co s') = ∅ /\ ka_rep (heap (co s')) B /\ fe_rep (rest (co s')) ((HInode <$> av') ++ L).
Proof.
  intros Hj Hs Hn Hb Hr Hl Hrun Hz. pose proof (start_inv s nproc B _ Hs Hn Hb Hr) as Hinv.
  assert (length (ofile s) = nproc) as El by (destruct Hs as (_ & _ & _ & ->); apply length_replicate). rewrite <-El in Hl.
  pose proof (run_calls_ok junk junk_data Hj l av s B L Hinv Hl) as H. rewrite Hrun in H. destruct H as [[Hc Ht] _].
  assert (files (co s') = ∅) as Hf.
  { apply map_empty. intros f. destruct (files (co s') !! f) as [x|] eqn:Hx; [|done]. destruct (ci_files _ _ _ _ Hc f x Hx) as (_ & Hp & _).
    rewrite Hz, zero_refs in Hp. unfold nohold in Hp. lia. }
  assert (pipes (co s') = ∅) as Hp.
  { apply map_empty. intros pi. destruct (pipes (co s') !! pi) as [q|] eqn:Hq; [|done]. destruct (ci_pipes _ _ _ _ Hc pi q Hq) as [Hends [w Hw]].
    apply Hends in Hw as (f & x & Hx & _). by rewrite Hf, lookup_empty in Hx. }
  destruct (ci_heap _ _ _ _ Hc) as (zs & Hh & Hzs & _). pose proof (ci_rest _ _ _ _ Hc) as Hfe. rewrite Hf, Hp in Hzs. rewrite Hf in Hfe.
  unfold addrs, handles in *. rewrite !map_to_list_empty in Hzs. rewrite map_to_list_empty in Hfe. apply Permutation_nil_r in Hzs. apply fmap_nil_inv in Hzs as ->.
  done.
Qed.

(** ** An instance *)

(** The kernel's allocator, and inodes and sockets that only count their references. *)
#[global] Instance handle_eq : EqDecision handle.
Proof. solve_decision. Defined.

Module Counted.
Fixpoint drop_handle (x : handle) (l : list handle) : option (list handle) :=
  match l with
  | [] => None
  | y :: l' => if decide (x = y) then Some l' else (fun m => y :: m) <$> drop_handle x l'
  end.
Definition drop (x : handle) : M (list handle) unit := fun r => match drop_handle x r with Some r' => Ok tt r' | None => Panic "not held" end.

Lemma drop_handle_ok x l L : l ≡ₚ x :: L -> exists l', drop_handle x l = Some l' /\ l' ≡ₚ L.
Proof.
  revert L. induction l as [|y l IH]; intros L H; [by apply Permutation_nil_cons in H|]. cbn [drop_handle].
  case_decide as E; [subst; exists l; split; [done|]; by apply Permutation_cons_inv in H|].
  assert (y ∈ L) as Hy by (assert (y ∈ x :: L) as Hy' by (rewrite <-H; left); apply elem_of_cons in Hy' as [?|?]; [congruence|done]).
  apply elem_of_Permutation in Hy as [L' HL]. destruct (IH L') as (l' & -> & Hl'); [|].
  - apply (Permutation_cons_inv (a := y)). rewrite H, HL. apply perm_swap.
  - exists (y :: l'). split; [done|]. by rewrite HL, Hl'.
Qed.

#[global] Instance env : FileEnv (list handle) := {|
  fe_killed _ := false;
  fe_iput i := drop (HInode i); fe_iunlock _ := ret tt; fe_iunlockput i := drop (HInode i);
  fe_stat _ := ret []; fe_readi _ _ _ n := ret n; fe_writei _ _ _ n := ret n;
  fe_devread _ := None; fe_devwrite _ := None;
  fe_sockclose i := drop (HSock i); fe_sockrecv _ _ _ _ := ret 0; fe_socksend _ _ n := ret n |}.
#[global] Instance user : UserCopy (list handle) := {| uc_copyout _ _ := ret 0; uc_copyin _ n := ret (replicate (Z.to_nat n) 0, 0) |}.
Lemma drop_ok r L x : r ≡ₚ x :: L -> exists r', drop x r = Ok tt r' /\ r' ≡ₚ L.
Proof. intros H. destruct (drop_handle_ok x r L H) as (r' & E & H'). exists r'. unfold drop. by rewrite E. Qed.
#[global] Instance env_laws : FileEnvLaws (list handle).
Proof.
  refine {| fe_rep := (fun r L => r ≡ₚ L) : list handle -> list handle -> Prop |}.
  - intros r L L' H1 H2. by rewrite <-H1.
  - intros r L i. apply drop_ok.
  - intros r L i. apply drop_ok.
  - intros r L i H _. by exists r.
  - intros r L i. apply drop_ok.
  - intros r L a bs H. by exists 0, r.
Defined.

#[global] Instance calls : KAlloc kheap := ufk_calls ex_ufk_heads ex_bd_heads [0] [0].
#[global] Instance laws : KAllocLaws kheap := ufk_laws ex_ufk_heads ex_bd_heads [0] [0] 0x80030000 (HL := ex_layout).

(** New memory holds the links of its free list. *)
Definition junk (_ : kheap) (p : Z) : file := mkfile 0x87f80000 0x7f8 true true true p 0 p 0 0 p p.
Lemma junk_is_ok : junk_ok junk.
Proof. intros e p. vm_compute. intros H. repeat (apply elem_of_cons in H as [H|H]; [discriminate H|]). by apply elem_of_nil in H. Qed.

Definition start (e : kheap) (n : nat) (av : list nat) : kst kheap (list handle) :=
  mkkst (mkcore e ∅ ∅ 0 (HInode <$> av) []) (replicate n (replicate NOFILE 0)).
Lemma heap_start : exists e, ka_rep e [].
Proof.
  destruct (ufkinit_ok ex_ufk_heads ex_bd_heads [0] [0] 0x80030000 (HL := ex_layout) ex_heap ltac:(vm_compute; discriminate)) as (s & _ & Hk).
  exists s. eexists _, _, _, []. split; [exact Hk|]. by rewrite pages_unused.
Qed.

Definition prog : list call := [CPipe 0 0; COpen 0 false 0 2; CFork 0 1; CDup 1 2; CClose 0 0; CClose 1 1; CExit 1].
End Counted.

Lemma descriptor_refcounts_witness : exists s : kst kheap (list handle), no_files s 2 /\
  match run_calls Counted.junk (fun _ _ => []) Counted.prog [5%nat] s with
  | Ok _ s' => forall f x, files (co s') !! f = Some x -> f_ref x = refs (ofile s') f /\ 1 <= f_ref x
  | Panic msg => oom (E := kheap) msg
  | _ => False
  end.
Proof.
  destruct Counted.heap_start as [e He]. exists (Counted.start e 2 [5%nat]). split; [done|].
  pose proof (descriptor_refcounts Counted.junk (fun _ _ => []) (Counted.start e 2 [5%nat]) 2 Counted.prog [5%nat] [] [] Counted.junk_is_ok ltac:(done)
    ltac:(unfold NPROC; lia) He ltac:(apply Permutation_refl) ltac:(repeat constructor)) as H.
  destruct (run_calls _ _ _ _ _) as [av s'|msg| | |]; [exact (proj1 H)|exact H|exact H|exact H|exact H].
Defined.

Lemma descriptors_no_leak_witness : exists s : kst kheap (list handle), no_files s 2 /\
  forall av' s', run_calls Counted.junk (fun _ _ => []) (Counted.prog ++ [CExit 0]) [5%nat] s = Ok av' s' ->
    ofile s' = replicate 2 (replicate NOFILE 0) -> files (co s') = ∅ /\ pipes (co s') = ∅.
Proof.
  destruct Counted.heap_start as [e He]. exists (Counted.start e 2 [5%nat]). split; [done|]. intros av' s' Hrun Hz.
  destruct (descriptors_no_leak Counted.junk (fun _ _ => []) (Counted.start e 2 [5%nat]) s' 2 (Counted.prog ++ [CExit 0]) [5%nat] av' [] [] Counted.junk_is_ok ltac:(done)
    ltac:(unfold NPROC; lia) He ltac:(apply Permutation_refl) ltac:(repeat constructor) Hrun Hz) as (H1 & H2 & _).
  split; [exact H1|exact H2].
Defined.
