(* ===== verification/Sysfile.v ===== *)
(** The system calls on path names: kernel/sys/sysfile.c.

    A path that was copied from the process is the list of its bytes up to the zero;
    [None] is a failed [argstr].  What a call does between [begin_op] and
    [end_op] is a definition of its own over any [TxDisk]; the call itself, over the log and
    the buffer cache, puts it in a transaction.  [char name[DIRSIZ]] is a buffer of
    zeros, as in [namei]. *)

From S2P Require Import Prelude Lock Bio Log FsDisk FsBlocks FsInode FsDir FsTx KAlloc File.

Definition T_FILE : Z := 2.
Definition T_DEVICE : Z := 3.
Definition O_RDONLY : Z := 0.
Definition O_CREATE : Z := 0x200.

(** The strings "." and "..". *)
Definition DOT : bytes := [46; 0].
Definition DOTDOT : bytes := [46; 46; 0].

Definition with_nlink (n : Z) (ip : inode) : inode :=
  mkino (i_dev ip) (i_inum ip) (i_ref ip) (i_lock ip) (i_valid ip) (i_type ip) (i_major ip) (i_minor ip)
    n (i_size ip) (i_addrs ip).
(** [ip->major = major; ip->minor = minor; ip->nlink = 1]. *)
Definition with_node (major minor : Z) (ip : inode) : inode :=
  mkino (i_dev ip) (i_inum ip) (i_ref ip) (i_lock ip) (i_valid ip) (i_type ip) major minor
    1 (i_size ip) (i_addrs ip).
Definition incr_nlink (ip : inode) : inode := with_nlink (s16 (i_nlink ip + 1)) ip.
Definition decr_nlink (ip : inode) : inode := with_nlink (s16 (i_nlink ip - 1)) ip.

Section code.
Context {S H C : Type} `{!TxDisk S H} `{!UserCopy C}.
Abbreviation fsM := (M (fsstate S C)).

Definition name_buf : bytes := replicate (Z.to_nat DIRSIZ) 0.
Definition set_cwd (i : nat) : fsM unit :=
  modv (fun v => mkfv (sb v) (icache v) (kbuf v) (umem v) (f_pid v) (f_cpu v) i).

(** ** link *)

(** The label [bad]. *)
Definition link_bad (i : nat) : fsM Z :=
  ilock i;;
  mod_ino i decr_nlink;;
  iupdate i;;
  iunlockput i;;
  ret (-1).

Definition link_tx (old new : bytes) : fsM Z :=
  r ← namei old;
  match r with
  | None => ret (-1)
  | Some i =>
      ilock i;;
      ip ← get_ino i;
      if i_type ip =? T_DIR then iunlockput i;; ret (-1)
      else
        mod_ino i incr_nlink;;
        iupdate i;;
        iunlock i;;
        ' (r, name) ← nameiparent new name_buf;
        match r with
        | None => link_bad i
        | Some d =>
            ilock d;;
            dp ← get_ino d;
            ip ← get_ino i;
            if negb (i_dev dp =? i_dev ip) then iunlockput d;; link_bad i
            else
              l ← dirlink d name (i_inum ip);
              if l <? 0 then iunlockput d;; link_bad i
              else
                iunlockput d;;
                iput i;;
                ret 0
        end
  end.

(** ** unlink *)

Fixpoint isdirempty_loop (fuel : nat) (i : nat) (off : Z) : fsM bool :=
  match fuel with
  | O => nofuel
  | Datatypes.S fuel' =>
      dp ← get_ino i;
      if off <? i_size dp then
        r ← readi i false 0 off DIRENT;
        if negb (r =? DIRENT) then panic "isdirempty: readi"
        else
          de ← getv kbuf;
          if negb (de_inum de =? 0) then ret false else isdirempty_loop fuel' i (off + DIRENT)
      else ret true
  end.
Definition isdirempty (i : nat) : fsM bool :=
  new_dirent;;
  dp ← get_ino i;
  isdirempty_loop (dir_fuel (i_size dp)) i (2 * DIRENT).

(** The label [bad]. *)
Definition unlink_bad (d : nat) : fsM Z := iunlockput d;; ret (-1).

(** From the point where [ip] is locked and may be removed. *)
Definition unlink_entry (d i : nat) (off : Z) : fsM Z :=
  new_dirent;;
  r ← writei d false 0 off DIRENT;
  if negb (r =? DIRENT) then panic "unlink: writei"
  else
    ip ← get_ino i;
    when (i_type ip =? T_DIR) (mod_ino d decr_nlink;; iupdate d);;
    iunlockput d;;
    mod_ino i decr_nlink;;
    iupdate i;;
    iunlockput i;;
    ret 0.

Definition unlink_tx (path : bytes) : fsM Z :=
  ' (r, name) ← nameiparent path name_buf;
  match r with
  | None => ret (-1)
  | Some d =>
      ilock d;;
      if (namecmp name DOT =? 0) || (namecmp name DOTDOT =? 0) then unlink_bad d
      else
        q ← dirlookup d name;
        match q with
        | None => unlink_bad d
        | Some (i, off) =>
            ilock i;;
            ip ← get_ino i;
            if i_nlink ip <? 1 then panic "unlink: nlink < 1"
            else
              e ← (if i_type ip =? T_DIR then isdirempty i else ret true);
              if negb e then iunlockput i;; unlink_bad d
              else unlink_entry d i off
        end
  end.

(** ** Creating *)

Definition create (path : bytes) (type major minor : Z) : fsM (option nat) :=
  ' (r, name) ← nameiparent path name_buf;
  match r with
  | None => ret None
  | Some d =>
      ilock d;;
      q ← dirlookup d name;
      match q with
      | Some (i, _) =>
          iunlockput d;;
          ilock i;;
          ip ← get_ino i;
          if (type =? T_FILE) && ((i_type ip =? T_FILE) || (i_type ip =? T_DEVICE)) then ret (Some i)
          else iunlockput i;; ret None
      | None =>
          dp ← get_ino d;
          i ← ialloc (i_dev dp) type;
          ilock i;;
          mod_ino i (with_node major minor);;
          iupdate i;;
          ip ← get_ino i;
          when (type =? T_DIR)
            (mod_ino d incr_nlink;;
             iupdate d;;
             l ← dirlink i DOT (i_inum ip);
             if l <? 0 then panic "create dots"
             else
               l ← dirlink i DOTDOT (i_inum dp);
               if l <? 0 then panic "create dots" else ret tt);;
          l ← dirlink d name (i_inum ip);
          if l <? 0 then panic "create: dirlink"
          else
            iunlockput d;;
            ret (Some i)
      end
  end.

Definition mkdir_tx (path : bytes) : fsM Z :=
  r ← create path T_DIR 0 0;
  match r with
  | None => ret (-1)
  | Some i => iunlockput i;; ret 0
  end.

(** [major] and [minor] are passed on as [short]. *)
Definition mknod_tx (path : bytes) (major minor : Z) : fsM Z :=
  r ← create path T_DEVICE (s16 major) (s16 minor);
  match r with
  | None => ret (-1)
  | Some i => iunlockput i;; ret 0
  end.

(** ** open, up to the locked inode *)

Definition open_tx (path : bytes) (omode : Z) : fsM (option nat) :=
  r ← (if negb (Z.land omode O_CREATE =? 0) then create path T_FILE 0 0
       else
         r ← namei path;
         match r with
         | None => ret None
         | Some i =>
             ilock i;;
             ip ← get_ino i;
             if (i_type ip =? T_DIR) && negb (omode =? O_RDONLY) then iunlockput i;; ret None
             else ret (Some i)
         end);
  match r with
  | None => ret None
  | Some i =>
      ip ← get_ino i;
      if (i_type ip =? T_DEVICE) && ((i_major ip <? 0) || (NDEV <=? i_major ip)) then iunlockput i;; ret None
      else ret (Some i)
  end.

(** ** chdir *)

(** The new current directory; the caller stores it after [end_op]. *)
Definition chdir_tx (path : bytes) : fsM (option nat) :=
  r ← namei path;
  match r with
  | None => ret None
  | Some i =>
      ilock i;;
      ip ← get_ino i;
      if negb (i_type ip =? T_DIR) then iunlockput i;; ret None
      else
        iunlock i;;
        c ← getv f_cwd;
        iput c;;
        ret (Some i)
  end.
End code.

(** * The calls *)

Section calls.
Context {C : Type} `{!UserCopy C}.
Abbreviation kM := (M (fsstate (lstate bcache) C)).

Definition sys_link (old new : option bytes) : kM Z :=
  match old, new with
  | Some o, Some n => in_tx (link_tx o n)
  | _, _ => ret (-1)
  end.
Definition sys_unlink (path : option bytes) : kM Z :=
  match path with Some p => in_tx (unlink_tx p) | None => ret (-1) end.
(** These open the transaction before they fetch the path. *)
Definition sys_mkdir (path : option bytes) : kM Z :=
  in_tx (match path with Some p => mkdir_tx p | None => ret (-1) end).
Definition sys_mknod (path : option bytes) (major minor : Z) : kM Z :=
  in_tx (match path with Some p => mknod_tx p major minor | None => ret (-1) end).
Definition sys_chdir (path : option bytes) : kM Z :=
  r ← in_tx (match path with Some p => chdir_tx p | None => ret None end);
  match r with None => ret (-1) | Some i => set_cwd i;; ret 0 end.

(** [sys_open]: the path, then the file and its descriptor.  The files (File.v) are
    outside of the file system's state, so the transaction is opened and closed
    through [lift], which runs file-system code in the state behind the open files. *)
Definition sys_open {E R : Type} `{!KAlloc E, !FileEnv R, !UserCopy R}
    (junk : E -> Z -> file) (lift : forall A, kM A -> M R A)
    (me : nat) (path : option bytes) (omode : Z) : M (kst E R) Z :=
  match path with
  | None => ret (-1)
  | Some p =>
      coreM (restM (lift _ (fdisk begin_op)));;
      r ← coreM (restM (lift _ (open_tx p omode)));
      match r with
      | None => coreM (restM (lift _ (fdisk end_op)));; ret (-1)
      | Some i =>
          ip ← coreM (restM (lift _ (get_ino i)));
          fd ← open_inode junk me i (i_type ip =? T_DEVICE) (i_major ip) omode;
          coreM (restM (lift _ (fdisk end_op)));;
          ret fd
      end
  end.
End calls.
