(* ===== verification/SysfileSpec.v ===== *)
(** The system calls on path names: theorems on the calls of Sysfile.v.

    The state of the disk is described by [disk_ok]: the directory tree of FsPath.v, and
    files that do not share blocks. *)

From S2P Require Import Prelude Lock BlockCache Bio Log Transaction FsDisk FsBlocks FsInode FsFile FsDir FsPath FsTx FsSpec Sysfile.
Import Sleeplock.

Section disk.
Context {S H C : Type} `{!TxDisk S H} `{!TxDiskLaws S H} `{!UserCopy C}.
Context (x : superblock) (Hg : geom x).
Implicit Types (v w : Z -> bytes).

Definition daddrs v (n : Z) : list Z := d_addrs (dino x v n).

(** The inodes of the tree have well-formed files with blocks of their own. *)
Record disk_ok v (G : Z -> Prop) : Prop := {
  dk_blocks : blocks_ok x v;
  dk_tree : tree_ok x v G;
  dk_file : forall n, G n -> file_ok x v (daddrs v n);
  dk_dino : forall n, G n -> dinode_ok (dino x v n) /\ 1 <= d_nlink (dino x v n);
  dk_disj : forall n m b, G n -> G m -> n <> m -> owns v (daddrs v n) b -> owns v (daddrs v m) b -> False }.

(** ** What stays as it is *)

(** The file of inode [n] has the same blocks with the same content. *)
Record same_file v w (n : Z) : Prop := {
  sf_type : d_type (dino x w n) = d_type (dino x v n);
  sf_size : d_size (dino x w n) = d_size (dino x v n);
  sf_addrs : daddrs w n = daddrs v n;
  sf_blocks : forall b, owns v (daddrs v n) b -> w b = v b /\ used x w b = true }.

Lemma file_frame v w l :
  file_ok x v l -> (forall b, owns v l b -> w b = v b /\ used x w b = true) ->
  file_ok x w l /\ (forall bn, blk w l bn = blk v l bn) /\ (forall b, owns w l b <-> owns v l b) /\
  (forall bn, 0 <= bn < MAXFILE -> fblock w l bn = fblock v l bn).
Proof.
  intros Hf Hs. assert (forall bn, blk w l bn = blk v l bn) as Hb.
  { intros bn. unfold blk. destruct (bn <? NDIRECT); [done|]. destruct (Z.eqb_spec (ind l) 0) as [|Hi]; [done|].
    destruct (Hs (ind l)) as [-> _]; [split; [done|by left]|done]. }
  assert (forall b, owns v l b -> live x v b -> live x w b) as Hl.
  { intros b Ho [Hd _]. split; [done|]. by apply Hs. }
  destruct Hf as [F1 F2 F3 F4]. split; [|split; [done|split]].
  - split; [done| | |].
    + intros bn Hbn. rewrite Hb. intros Hnz. destruct (F2 bn Hbn Hnz) as [? ?]. split; [|done].
      apply Hl; [|done]. split; [done|]. right. eauto.
    + intros Hi. apply Hl; [|by apply F3]. split; [done|by left].
    + intros bn bn' Hbn Hbn'. rewrite !Hb. by apply F4.
  - intros b. unfold owns. by setoid_rewrite Hb.
  - intros bn Hbn. unfold fblock. rewrite Hb. destruct (Z.eqb_spec (blk v l bn) 0) as [|Hnz]; [done|].
    apply Hs. split; [done|]. right. eauto.
Qed.

Lemma owns_live v l b : file_ok x v l -> owns v l b -> live x v b.
Proof.
  intros Hf [Hnz [->|(bn & Hbn & ->)]]; [by apply (fo_ind _ _ _ Hf)|by apply (fo_blk _ _ _ Hf)].
Qed.

Lemma same_file_refl v n : file_ok x v (daddrs v n) -> same_file v v n.
Proof.
  intros Hf. split; try done. intros b Hb. split; [done|]. by apply (owns_live v _ b Hf).
Qed.

Lemma same_file_trans v w u n : file_ok x v (daddrs v n) -> same_file v w n -> same_file w u n -> same_file v u n.
Proof.
  intros Hf [A1 A2 A3 A4] [B1 B2 B3 B4]. destruct (file_frame v w (daddrs v n) Hf A4) as (_ & _ & Ho & _).
  rewrite A3 in B3, B4. split; try congruence. intros b Hb. destruct (A4 b Hb) as [<- _]. apply B4. by apply Ho.
Qed.

Lemma same_file_ok v w n :
  same_file v w n -> file_ok x v (daddrs v n) ->
  file_ok x w (daddrs w n) /\ forall b, owns w (daddrs w n) b <-> owns v (daddrs v n) b.
Proof. intros [_ _ E Hs] Hf. destruct (file_frame v w _ Hf Hs) as (? & _ & ? & _). by rewrite E. Qed.

Lemma same_file_dir v w n :
  same_file v w n -> file_ok x v (daddrs v n) -> no_holes v (disk_inode x v n) ->
  dir_entries x w n = dir_entries x v n /\ no_holes w (disk_inode x w n) /\ (dir_ok (disk_inode x v n) -> dir_ok (disk_inode x w n)) /\
  is_dir x w n = is_dir x v n.
Proof.
  intros [E1 E2 E3 Hs] Hf [Hsz Hnh]. destruct (file_frame v w _ Hf Hs) as (_ & Hb & _ & Hfb).
  change (i_size (disk_inode x v n)) with (d_size (dino x v n)) in *.
  change (i_addrs (disk_inode x v n)) with (daddrs v n) in *.
  split; [|split; [|split]].
  - unfold dir_entries, dents. change (i_size (disk_inode x ?u n)) with (d_size (dino x u n)).
    change (i_addrs (disk_inode x ?u n)) with (daddrs u n). rewrite E2, E3.
    apply list_fmap_ext. intros k q Hk. apply lookup_seq in Hk as [-> Hk]. f_equal. unfold dent, fread.
    apply list_fmap_ext. intros j y Hj. apply lookup_seq in Hj as [-> Hj]. unfold fbyte. rewrite Hfb; [done|].
    apply div_max. pose proof (Z.div_mod (d_size (dino x v n)) DIRENT ltac:(unfold DIRENT; lia)).
    pose proof (Z.mod_pos_bound (d_size (dino x v n)) DIRENT). unfold DIRENT in *. lia.
  - split; change (i_size (disk_inode x w n)) with (d_size (dino x w n)); rewrite E2; [done|].
    intros o Ho. change (i_addrs (disk_inode x w n)) with (daddrs w n). rewrite E3, Hb. by apply Hnh.
  - unfold dir_ok. change (i_size (disk_inode x ?u n)) with (d_size (dino x u n)).
    change (i_type (disk_inode x ?u n)) with (d_type (dino x u n)). by rewrite E1, E2.
  - unfold is_dir. by rewrite E1.
Qed.

(** Steps that leave a file alone. *)
Lemma iupdate_other v ip n :
  blocks_ok x v -> inode_ok x ip -> 0 <= n < sb_ninodes x -> file_ok x v (daddrs v n) -> n <> i_inum ip ->
  same_file v (iupdate_view x v ip) n /\ dino x (iupdate_view x v ip) n = dino x v n.
Proof using Hg.
  intros Hok Hino Hn Hf Hne. destruct (iupdate_view_ok x Hg v ip Hok Hino) as (_ & D2 & D3 & D4 & D5).
  rewrite D2 by done. split; [|done].
  assert (daddrs (iupdate_view x v ip) n = daddrs v n) as Ea by (unfold daddrs; by rewrite D2).
  split; rewrite ?D2 by done; try done.
  destruct (same_file_refl v n Hf) as [_ _ _ Hs]. destruct (meta_update x Hg v _ _ Hok D4 D5) as (_ & M2 & _).
  intros b Hb. pose proof (layout_order x Hg). destruct (owns_live v _ b Hf Hb) as [[B1 B2] Hu].
  split; [apply D3; lia|]. change (fupd _ _ _) with (iupdate_view x v ip) in M2. rewrite M2 by lia. done.
Qed.

(** [iupdate] of an inode in which only the link count (or the type) differs from the disk. *)
Lemma iupdate_self v ip :
  blocks_ok x v -> inode_ok x ip -> file_ok x v (daddrs v (i_inum ip)) ->
  i_size ip = d_size (dino x v (i_inum ip)) -> i_addrs ip = daddrs v (i_inum ip) -> i_type ip = d_type (dino x v (i_inum ip)) ->
  same_file v (iupdate_view x v ip) (i_inum ip) /\ dino x (iupdate_view x v ip) (i_inum ip) = dinode_of ip.
Proof using Hg.
  intros Hok Hino Hf Hs Ha Ht. destruct (iupdate_view_ok x Hg v ip Hok Hino) as (D1 & _ & D3 & D4 & D5).
  split; [|done]. destruct (same_file_refl v _ Hf) as [_ _ _ Hb0].
  destruct (meta_update x Hg v _ _ Hok D4 D5) as (_ & M2 & _).
  split; unfold daddrs; rewrite ?D1; try done. intros b Hb. destruct (Hb0 b Hb) as [_ Hu].
  pose proof (layout_order x Hg). destruct (owns_live v _ b Hf Hb) as [[B1 B2] _].
  split; [apply D3; lia|]. change (fupd _ _ _) with (iupdate_view x v ip) in M2. rewrite M2 by lia. done.
Qed.

Lemma iupdate_blocks v ip : blocks_ok x v -> inode_ok x ip -> blocks_ok x (iupdate_view x v ip).
Proof using Hg.
  intros Hok Hino. destruct (iupdate_view_ok x Hg v ip Hok Hino) as (_ & _ & _ & D4 & D5).
  by destruct (meta_update x Hg v _ _ Hok D4 D5).
Qed.

Lemma frees_other v F w n :
  frees x v F w -> 0 <= n < sb_ninodes x -> file_ok x v (daddrs v n) -> (forall b, owns v (daddrs v n) b -> b ∉ F) ->
  same_file v w n /\ dino x w n = dino x v n.
Proof using Hg.
  intros [_ F2 F3] Hn Hf HF. pose proof (layout_order x Hg). pose proof (IBLOCK_range x Hg n Hn).
  assert (dino x w n = dino x v n) as Ed by (unfold dino; rewrite F2; [done|unfold is_bmap; lia]).
  split; [|done]. destruct (same_file_refl v n Hf) as [_ _ _ Hs].
  split; unfold daddrs; rewrite ?Ed; try done. intros b Hb. destruct (Hs b Hb) as [_ Hu].
  destruct (owns_live v _ b Hf Hb) as [[B1 B2] _].
  split; [apply F2; unfold is_bmap; lia|]. rewrite F3, Hu, bool_decide_true by (try apply HF; try done; lia). done.
Qed.

Lemma written_other v ip w ip' off bs n :
  written x v ip w ip' off bs -> 0 <= n < sb_ninodes x -> file_ok x v (daddrs v n) -> n <> i_inum ip ->
  (forall b, owns v (daddrs v n) b -> ~ owns v (i_addrs ip) b) ->
  same_file v w n /\ dino x w n = dino x v n.
Proof.
  intros Hw Hn Hf Hne Hdis. pose proof (wn_dinos _ _ _ _ _ _ _ Hw n Hn Hne) as Ed. split; [|done].
  destruct (same_file_refl v n Hf) as [_ _ _ Hs].
  split; unfold daddrs; rewrite ?Ed; try done. intros b Hb. destruct (Hs b Hb) as [_ Hu].
  destruct (owns_live v _ b Hf Hb) as [Hd _].
  by apply (wn_frame _ _ _ _ _ _ _ Hw); [| |apply Hdis].
Qed.

(** ** The tree after a change *)

(** A change of the files of the tree in which at most [d] gets new blocks. *)
Lemma disk_ok_step v w (G G' : Z -> Prop) d :
  disk_ok v G -> blocks_ok x w -> (forall n, G' n -> G n) ->
  (forall n, G' n -> n <> d -> same_file v w n) ->
  (G' d -> d_type (dino x w d) = d_type (dino x v d) /\ file_ok x w (daddrs w d) /\
     (forall b, owns w (daddrs w d) b -> owns v (daddrs v d) b \/ 0 <= b < sb_size x /\ used x v b = false) /\
     (is_dir x w d = true -> no_holes w (disk_inode x w d) /\ dir_ok (disk_inode x w d))) ->
  (forall n, G' n -> dinode_ok (dino x w n) /\ 1 <= d_nlink (dino x w n)) ->
  (forall n e, G' n -> is_dir x w n = true -> e ∈ dir_entries x w n -> e.1 <> 0 -> G' e.1) ->
  disk_ok w G'.
Proof.
  intros [K1 K2 K3 K4 K5] Hok HG Hsame Hd Hdino Hents.
  assert (forall n, G' n -> d_type (dino x w n) = d_type (dino x v n) /\ file_ok x w (daddrs w n)) as Hfile.
  { intros n Hn. destruct (decide (n = d)) as [->|Hne]; [by destruct (Hd Hn) as (? & ? & _)|].
    pose proof (Hsame n Hn Hne) as Hs. split; [apply Hs|]. by apply (same_file_ok v w n Hs), K3, HG. }
  assert (forall n b, G' n -> owns w (daddrs w n) b -> owns v (daddrs v n) b \/ n = d /\ 0 <= b < sb_size x /\ used x v b = false) as Hown.
  { intros n b Hn Hb. destruct (decide (n = d)) as [->|Hne].
    - destruct (Hd Hn) as (_ & _ & Ho & _). destruct (Ho b Hb) as [|[? ?]]; auto.
    - left. apply (same_file_ok v w n (Hsame n Hn Hne)); [by apply K3, HG|done]. }
  split; [done| |by intros n Hn; apply Hfile|done|].
  - split.
    + intros n Hn. by apply (to_range _ _ _ K2), HG.
    + intros n Hn. destruct (Hfile n Hn) as [-> _]. destruct (to_type _ _ _ K2 n (HG n Hn)). destruct (Hdino n Hn). split; [done|lia].
    + intros n Hn Hdir. split; [by apply Hfile|]. destruct (decide (n = d)) as [->|Hne]; [by apply Hd|].
      pose proof (Hsame n Hn Hne) as Hs.
      assert (is_dir x v n = true) as Hdv by (unfold is_dir in *; by rewrite <-(sf_type _ _ _ Hs)).
      destruct (to_dir _ _ _ K2 n (HG n Hn) Hdv) as (Hf & Hh & Hok').
      destruct (same_file_dir v w n Hs Hf Hh) as (_ & ? & Hdok & _). auto.
    + exact Hents.
  - assert (forall n m b, G' n -> G' m -> n <> m -> owns v (daddrs v n) b -> m = d /\ 0 <= b < sb_size x /\ used x v b = false -> False) as Hnew.
    { intros n m b Hn Hm Hne Hb (_ & _ & Hu). destruct (owns_live v _ b (K3 n (HG n Hn)) Hb) as [_ Hu']. congruence. }
    intros n m b Hn Hm Hne Hb1 Hb2. destruct (Hown n b Hn Hb1) as [Ho1|Ho1], (Hown m b Hm Hb2) as [Ho2|Ho2].
    + by apply (K5 n m b (HG n Hn) (HG m Hm)).
    + by apply (Hnew n m b).
    + by apply (Hnew m n b).
    + destruct Ho1 as [-> _], Ho2 as [-> _]. done.
Qed.

(** Only slot [j] holds inode [n]. *)
Definition only_slot (c : list inode) (n : Z) (j : nat) : Prop :=
  forall q qp, c !! q = Some qp -> 0 < i_ref qp -> i_inum qp = n -> q = j.

Lemma uniq_only c j jp : cache_uniq c -> c !! j = Some jp -> 0 < i_ref jp -> only_slot c (i_inum jp) j.
Proof. intros Hu Hj Hr q qp Hq Hrq E. by apply (Hu q j qp jp). Qed.

(** Two slots were used for [d] and [m]; the cache agrees with the new disk. *)
Lemma cache_two v w G G' c j k jp kp fj fk d m :
  cache_ok x v G None c -> j <> k -> c !! j = Some jp -> c !! k = Some kp -> d <> m ->
  only_slot c d j -> only_slot c m k ->
  entry_ok x w G' false fj -> entry_ok x w G' false fk -> i_inum fj = d -> i_inum fk = m ->
  (forall n, G n -> n <> d -> n <> m -> G' n /\ dino x w n = dino x v n) ->
  cache_ok x w G' None (<[k := fk]> (<[j := fj]> c)).
Proof.
  intros [Hc Hu] Hjk Hj Hk Hdm Hod Hom Hej Hek Ed Em Hsame.
  assert (j < length c)%nat as Hjl by (by eapply lookup_lt_Some).
  assert (k < length c)%nat as Hkl by (by eapply lookup_lt_Some).
  assert (forall q qp, (<[k := fk]> (<[j := fj]> c)) !! q = Some qp ->
    q = k /\ qp = fk \/ q = j /\ qp = fj \/ q <> k /\ q <> j /\ c !! q = Some qp) as Hcase.
  { intros q qp [(<- & <- & _)|[N1 [(<- & <- & _)|[N2 Hq]]%list_lookup_insert_Some]]%list_lookup_insert_Some; auto. }
  assert (forall q qp, q <> k -> q <> j -> c !! q = Some qp -> 0 < i_ref qp -> i_inum qp <> d /\ i_inum qp <> m) as Hout.
  { intros q qp Hqk Hqj Hq Hr. split; intros E; [by apply Hqj, (Hod q qp)|by apply Hqk, (Hom q qp)]. }
  split.
  - intros q qp [[-> ->]|[[-> ->]|(Hqk & Hqj & Hq)]]%Hcase; [by rewrite bool_decide_false by done..|].
    destruct (Hc q qp Hq) as (H1 & H2 & H3). split; [done|]. split; [done|]. intros Hr.
    destruct (H3 Hr) as (Hdev & HG & Hval). destruct (Hout q qp Hqk Hqj Hq Hr). destruct (Hsame (i_inum qp)) as [HG' ->]; auto.
  - intros q1 q2 p1 p2 [[-> ->]|[[-> ->]|(N1 & N2 & Hq1)]]%Hcase [[-> ->]|[[-> ->]|(N3 & N4 & Hq2)]]%Hcase R1 R2 E; try done; try congruence.
    + destruct (Hout q2 p2 N3 N4 Hq2 R2). congruence.
    + destruct (Hout q2 p2 N3 N4 Hq2 R2). congruence.
    + destruct (Hout q1 p1 N1 N2 Hq1 R1). congruence.
    + destruct (Hout q1 p1 N1 N2 Hq1 R1). congruence.
    + by apply (Hu q1 q2 p1 p2).
Qed.

(** ** An empty directory *)

Definition dir_empty (ds : list (Z * bytes)) : bool := forallb (fun e => e.1 =? 0) (drop 2 ds).

Section empty.
Context (i : nat) (ip : inode) (t : tx H).
Context (Hd : i_dev ip = ROOTDEV) (Hid : idle t) (Hok : blocks_ok x (t_view t)) (Hf : file_ok x (t_view t) (i_addrs ip))
  (Hnh : no_holes (t_view t) ip) (Hdir : dir_ok ip).

Lemma wp_isdirempty_loop fuel k Q (vs : fvars C) :
  icache vs !! i = Some ip -> length (kbuf vs) = 16%nat ->
  (0 < fuel)%nat -> (Z.to_nat (i_size ip / DIRENT) < fuel + k)%nat ->
  (forall vs', same_fs vs vs' -> Q (forallb (fun e => e.1 =? 0) (drop k (dents (t_view t) ip))) vs' t) ->
  wp (isdirempty_loop fuel i (DIRENT * Z.of_nat k)) Q vs t.
Proof using Hg Hd Hid Hok Hf Hnh Hdir.
  revert k vs. induction fuel as [|fuel IH]; intros k vs Hi Hlen Hf0 Hfuel HQ; [lia|].
  pose proof (dir_size ip t Hnh Hdir) as [Hsz Hs0]. cbn [isdirempty_loop]. apply wp_bind, (wp_get_ino i ip); [done|].
  destruct (Z.ltb_spec (DIRENT * Z.of_nat k) (i_size ip)) as [Hlt|Hge].
  - assert (Z.of_nat k < i_size ip / DIRENT) as Hk' by (unfold DIRENT in *; lia).
    apply wp_bind, (wp_read_dirent x Hg i ip t Hd Hid Hok Hf Hnh Hdir); [done|done|done|]. intros vs1 Hs1 Hb1.
    cbn [Z.eqb negb Pos.eqb DIRENT]. apply wp_bind, wp_getv. rewrite Hb1.
    assert (length (kbuf vs1) = 16%nat) as Hlen1 by (rewrite Hb1; apply length_fread).
    assert (icache vs1 !! i = Some ip) as Hi1 by (by rewrite Hs1).
    rewrite (dents_drop ip t k Hk') in HQ. cbn [forallb entry fst] in HQ.
    destruct (Z.eqb_spec (de_inum (dent (t_view t) (i_addrs ip) k)) 0) as [Hz|Hz]; cbn [negb andb] in *.
    + replace (DIRENT * Z.of_nat k + DIRENT) with (DIRENT * Z.of_nat (Datatypes.S k)) by (unfold DIRENT; lia).
      apply IH; [done|done|unfold DIRENT in *; lia|lia|]. intros vs' Hs'. apply HQ. unfold same_fs in *. rewrite Hs', Hs1. done.
    + apply wp_ret. by apply HQ.
  - apply wp_ret. rewrite (dents_end ip t) in HQ by (unfold DIRENT in *; lia). apply HQ. by destruct vs.
Qed.

Lemma wp_isdirempty Q (vs : fvars C) :
  icache vs !! i = Some ip ->
  (forall vs', same_fs vs vs' -> Q (dir_empty (dents (t_view t) ip)) vs' t) ->
  wp (isdirempty i) Q vs t.
Proof using Hg Hd Hid Hok Hf Hnh Hdir.
  intros Hi HQ. apply wp_bind, wp_modv. apply wp_bind, (wp_get_ino i ip); [done|].
  change (2 * DIRENT) with (DIRENT * Z.of_nat 2).
  apply (wp_isdirempty_loop _ 2); [done|apply length_replicate|unfold dir_fuel; lia|unfold dir_fuel; lia|].
  intros vs' Hs'. apply HQ. unfold same_fs in *. rewrite Hs'. done.
Qed.
End empty.

(** ** The last reference to an inode without links *)

Definition stays v w (n : Z) : Prop := same_file v w n /\ dino x w n = dino x v n.

Lemma stays_trans v w u n : file_ok x v (daddrs v n) -> stays v w n -> stays w u n -> stays v u n.
Proof. intros Hf [A1 A2] [B1 B2]. split; [by apply (same_file_trans v w u)|congruence]. Qed.

Lemma stays_file v w n : stays v w n -> file_ok x v (daddrs v n) -> file_ok x w (daddrs w n).
Proof. intros [Hs _] Hf. by apply (same_file_ok v w n Hs). Qed.

Lemma iupdate_used v ip b :
  blocks_ok x v -> inode_ok x ip -> 0 <= b < sb_size x -> used x (iupdate_view x v ip) b = used x v b.
Proof using Hg.
  intros Hok Hino Hb. destruct (iupdate_view_ok x Hg v ip Hok Hino) as (_ & _ & _ & D4 & D5).
  destruct (meta_update x Hg v _ _ Hok D4 D5) as (_ & M2 & _). by apply M2.
Qed.

(** [iput] frees the blocks and the inode; nothing else changes. *)
Lemma wp_iput_free B i ip p Q (vs : fvars C) t :
  all_bmap x B -> IBLOCK (i_inum ip) x ∈ B -> room B t -> sb vs = x -> f_pid vs = Some p ->
  icache vs !! i = Some ip -> inode_ok x ip -> locked (i_lock ip) = false ->
  i_ref ip = 1 -> i_valid ip = true -> i_nlink ip = 0 -> idle t ->
  blocks_ok x (t_view t) -> file_ok x (t_view t) (i_addrs ip) ->
  (forall t' ip', idle t' -> blocks_ok x (t_view t') -> d_type (dino x (t_view t') (i_inum ip)) = 0 ->
     (forall b, owns (t_view t) (i_addrs ip) b -> used x (t_view t') b = false) ->
     (forall n, 0 <= n < sb_ninodes x -> n <> i_inum ip -> file_ok x (t_view t) (daddrs (t_view t) n) ->
        (forall b, owns (t_view t) (daddrs (t_view t) n) b -> ~ owns (t_view t) (i_addrs ip) b) ->
        stays (t_view t) (t_view t') n) ->
     i_ref ip' = 0 -> i_inum ip' = i_inum ip -> locked (i_lock ip') = false ->
     Q tt (set_icache (<[i := ip']> (icache vs)) vs) t') ->
  wp (iput i) Q vs t.
Proof using Hg.
  intros HB HI Hroom Hsb Hpid Hi Hino Hl Hr Hval Hnl Hid Hok Hf HQ.
  assert (i < length (icache vs))%nat as Hil by (by eapply lookup_lt_Some).
  unfold iput. apply wp_bind, (wp_get_ino i ip); [done|]. rewrite Hr, Hval, Hnl. cbn [Z.eqb Pos.eqb andb when].
  apply wp_bind, wp_bind. unfold ino_acquiresleep. apply wp_bind, (wp_get_ino i ip); [done|]. apply wp_bind, wp_getv.
  unfold acquiresleep. rewrite Hl, Hpid. apply wp_modv.
  set (ip1 := with_lock (mksl true p) ip).
  apply wp_bind, (wp_itrunc x Hg B i ip1); try done; [by apply list_lookup_insert_eq|].
  intros t1 w1 Hfr Hv1 Hino1 Hid1 Hr1. cbn [icache set_icache]. rewrite list_insert_insert_eq.
  set (ip2 := with_size 0 _) in *.
  apply wp_bind, (wp_mod_ino i ip2); [by apply list_lookup_insert_eq|]. cbn [icache set_icache]. rewrite list_insert_insert_eq.
  set (ip3 := with_type 0 ip2).
  assert (inode_ok x ip3) as Hino3.
  { destruct Hino1 as (H1 & H2 & H3 & H4 & H5). split; [done|]. split; [done|]. split; [|done].
    intros z Hz. cbn [dinode_of d_type d_major d_minor d_nlink] in Hz. apply elem_of_cons in Hz as [->|Hz]; [cbn; lia|].
    apply H3. cbn [dinode_of d_type d_major d_minor d_nlink]. set_solver. }
  assert (blocks_ok x (t_view t1)) as Hok1 by (rewrite Hv1; apply iupdate_blocks; [apply Hfr|done]).
  apply wp_bind, (wp_iupdate_room x Hg B i ip3); try done; [by apply list_lookup_insert_eq|].
  intros t2 Hv2 Hid2 Hr2. apply wp_bind, (wp_mod_ino i ip3); [by apply list_lookup_insert_eq|].
  cbn [icache set_icache]. rewrite list_insert_insert_eq.
  apply (wp_mod_ino i (with_valid false ip3)); [by apply list_lookup_insert_eq|].
  cbn [icache set_icache]. rewrite list_insert_insert_eq.
  apply (wp_mod_ino i (with_lock (releasesleep (i_lock (with_valid false ip3))) (with_valid false ip3))); [by apply list_lookup_insert_eq|].
  cbn [icache set_icache]. rewrite list_insert_insert_eq.
  assert (dino x (t_view t2) (i_inum ip) = dinode_of ip3) as Ed2.
  { rewrite Hv2. destruct (iupdate_view_ok x Hg (t_view t1) ip3 Hok1 Hino3) as (D1 & _). exact D1. }
  match goal with |- Q tt (set_icache (<[i := ?f]> _) _) t2 => change (Q tt (set_icache (<[i := f]> (icache vs)) vs) t2); apply (HQ t2 f) end; try done.
  - rewrite Hv2. by apply iupdate_blocks.
  - by rewrite Ed2.
  - intros b Hb. destruct (owns_live _ _ b Hf Hb) as [[B1 B2] _]. pose proof (layout_order x Hg).
    rewrite Hv2, Hv1, !iupdate_used by (try done; try apply Hfr; try apply iupdate_blocks; try apply Hfr; try done; lia).
    rewrite (fr_used _ _ _ _ Hfr) by lia. rewrite bool_decide_false; [by rewrite andb_false_r|].
    intros Hn. apply Hn. by apply (elem_file_blocks x _ _ b Hf).
  - intros n Hn Hne Hfn Hdis. apply (stays_trans _ w1 _ n Hfn).
    + apply (frees_other _ (file_blocks (t_view t) (i_addrs ip1)) w1 n); try done.
      intros b Hb Hin. apply (Hdis b Hb). by apply (elem_file_blocks x _ _ b Hf).
    + assert (stays (t_view t) w1 n) as Hs1.
      { apply (frees_other _ (file_blocks (t_view t) (i_addrs ip1)) w1 n); try done.
        intros b Hb Hin. apply (Hdis b Hb). by apply (elem_file_blocks x _ _ b Hf). }
      pose proof (stays_file _ _ _ Hs1 Hfn) as Hf1.
      assert (stays w1 (t_view t1) n) as Hs2 by (rewrite Hv1; by apply iupdate_other; [apply Hfr| | | |]).
      apply (stays_trans _ (t_view t1) _ n Hf1 Hs2). rewrite Hv2.
      apply iupdate_other; try done. by apply (stays_file w1).
  - cbn. lia.
Qed.

(** ** Removing an entry *)

Lemma dents_ext w ip ip' : i_size ip = i_size ip' -> i_addrs ip = i_addrs ip' -> dents w ip = dents w ip'.
Proof. intros E1 E2. unfold dents. by rewrite E1, E2. Qed.

Lemma no_holes_ext w ip ip' : i_size ip = i_size ip' -> i_addrs ip = i_addrs ip' -> no_holes w ip -> no_holes w ip'.
Proof. intros E1 E2. unfold no_holes. by rewrite E1, E2. Qed.

Lemma dir_entries_len v n : length (dir_entries x v n) = Z.to_nat (d_size (dino x v n) / DIRENT).
Proof. unfold dir_entries, dents. by rewrite length_fmap, length_seq. Qed.

(** The entry at [pos] of directory [d] was cleared, and [k] was taken off its link count. *)
Record cleared v (G : Z -> Prop) w (d : Z) (pos : nat) (k : Z) : Prop := {
  cl_blocks : blocks_ok x w;
  cl_others : forall n, G n -> n <> d -> stays v w n;
  cl_type : d_type (dino x w d) = d_type (dino x v d);
  cl_size : d_size (dino x w d) = d_size (dino x v d);
  cl_ents : dir_entries x w d = <[pos := (0, [])]> (dir_entries x v d);
  cl_file : file_ok x w (daddrs w d);
  cl_own : forall b, owns w (daddrs w d) b -> owns v (daddrs v d) b \/ 0 <= b < sb_size x /\ used x v b = false;
  cl_holes : no_holes w (disk_inode x w d);
  cl_dino : dinode_ok (dino x w d);
  cl_nlink : d_nlink (dino x w d) = d_nlink (dino x v d) - k }.

(** The inode in memory is locked, and has what is on disk. *)
Record locked_as v (p n r : Z) (ip : inode) : Prop := {
  la_dev : i_dev ip = ROOTDEV;
  la_inum : i_inum ip = n;
  la_ref : i_ref ip = r;
  la_lock : i_lock ip = mksl true p;
  la_valid : i_valid ip = true;
  la_dino : dinode_of ip = dino x v n }.

Lemma la_fields v p n r ip :
  locked_as v p n r ip -> i_type ip = d_type (dino x v n) /\ i_nlink ip = d_nlink (dino x v n) /\
  i_size ip = d_size (dino x v n) /\ i_addrs ip = daddrs v n.
Proof. intros [_ _ _ _ _ E]. unfold daddrs. by rewrite <-E. Qed.

Lemma la_inode_ok v G p n r ip : disk_ok v G -> G n -> locked_as v p n r ip -> inode_ok x ip.
Proof.
  intros Hdk HG La. split; [apply La|]. rewrite (la_inum _ _ _ _ _ La), (la_dino _ _ _ _ _ La).
  split; [by apply (to_range _ _ _ (dk_tree _ _ Hdk))|by apply (dk_dino _ _ Hdk)].
Qed.

Lemma entry_zero : entry (replicate (Z.to_nat DIRENT) 0) = (0, []).
Proof. vm_compute. reflexivity. Qed.

Lemma cleared_written v G p d r ip w pos :
  disk_ok v G -> G d -> is_dir x v d = true -> locked_as v p d r ip -> (pos < length (dir_entries x v d))%nat ->
  written x v ip w ip (DIRENT * Z.of_nat pos) (replicate (Z.to_nat DIRENT) 0) ->
  cleared v G w d pos 0.
Proof.
  intros Hdk HG Hdir La Hpos Hw. destruct (la_fields _ _ _ _ _ La) as (E1 & E2 & E3 & E4).
  pose proof (la_inum _ _ _ _ _ La) as En. pose proof (la_dino _ _ _ _ _ La) as Ed.
  assert (dino x w d = dino x v d) as Edw.
  { rewrite <-En. rewrite (wn_dino _ _ _ _ _ _ _ Hw). by rewrite En. }
  assert (i_size (disk_inode x w d) = i_size ip /\ i_addrs (disk_inode x w d) = i_addrs ip) as [Sw Aw].
  { change (d_size (dino x w d) = i_size ip /\ daddrs w d = i_addrs ip). unfold daddrs. rewrite Edw, E3, E4. done. }
  assert (i_size (disk_inode x v d) = i_size ip /\ i_addrs (disk_inode x v d) = i_addrs ip) as [Sv Av] by (by rewrite E3, E4).
  destruct (to_dir _ _ _ (dk_tree _ _ Hdk) d HG Hdir) as (Hf & [Hsz Hnh] & Hdok).
  rewrite dir_entries_len in Hpos.
  change (i_size (disk_inode x v d)) with (d_size (dino x v d)) in Hsz.
  assert (0 <= d_size (dino x v d) / DIRENT) by (apply Z.div_pos; unfold DIRENT; lia).
  assert (DIRENT * (d_size (dino x v d) / DIRENT) <= d_size (dino x v d)) by (apply Z.mul_div_le; unfold DIRENT; lia).
  destruct (dents_written x v ip w ip pos (replicate (Z.to_nat DIRENT) 0)) as [Hents _]; try done.
  { split; [rewrite E1; by apply Z.eqb_eq|rewrite E3; apply Hdok]. }
  { rewrite E3. lia. }
  { rewrite E3. lia. }
  { rewrite E3. lia. }
  { rewrite E3. unfold DIRENT in *. lia. }
  split.
  - apply Hw.
  - intros n Hn Hne. apply (written_other v ip w ip _ _ n Hw); try congruence.
    + by apply (to_range _ _ _ (dk_tree _ _ Hdk)).
    + by apply (dk_file _ _ Hdk).
    + intros b Hb. rewrite E4. intros Hb'. by apply (dk_disj _ _ Hdk n d b).
  - by rewrite Edw.
  - by rewrite Edw.
  - unfold dir_entries. rewrite (dents_ext w (disk_inode x w d) ip Sw Aw), (dents_ext v (disk_inode x v d) ip Sv Av).
    rewrite Hents, entry_zero. unfold dput. rewrite decide_True; [done|].
    unfold dents. rewrite length_fmap, length_seq, E3. lia.
  - unfold daddrs at 1. rewrite Edw. fold (daddrs v d). rewrite <-E4. apply Hw.
  - intros b. unfold daddrs. rewrite Edw. fold (daddrs v d). rewrite <-E4. apply Hw.
  - by apply (no_holes_ext w ip); [| |apply Hw].
  - rewrite Edw. by apply (dk_dino _ _ Hdk).
  - rewrite Edw. lia.
Qed.

(** Later steps that leave the directory alone. *)
Lemma cleared_step v (G G' : Z -> Prop) w u d pos k :
  cleared v G w d pos k -> (forall n, G' n -> G n) -> (forall n, G n -> file_ok x v (daddrs v n)) ->
  blocks_ok x u -> stays w u d -> (forall n, G' n -> n <> d -> stays w u n) -> cleared v G' u d pos k.
Proof.
  intros [C1 C2 C3 C4 C5 C6 C7 C8 C9 C10] HG Hf Hok [Hsd Hdd] Hs.
  destruct (same_file_dir w u d Hsd C6 C8) as (E & Hh & _). destruct (same_file_ok w u d Hsd C6) as [Hfu Hou].
  split; try done; rewrite ?Hdd, ?E; try done.
  - intros n Hn Hne. apply (stays_trans v w u n); [by apply Hf, HG|by apply C2, Hne; apply HG|by apply Hs].
  - intros b Hb. apply C7. by apply Hou.
Qed.

Lemma inode_ok_nlink ip n : inode_ok x ip -> - 2 ^ 15 <= n < 2 ^ 15 -> inode_ok x (with_nlink n ip).
Proof.
  intros (H1 & H2 & H3 & H4 & H5) Hn. split; [done|]. split; [done|]. split; [|done].
  intros z Hz. cbn [dinode_of with_nlink d_type d_major d_minor d_nlink i_type i_major i_minor i_nlink] in Hz.
  rewrite !elem_of_cons in Hz. destruct Hz as [->|[->|[->|[->|Hz]]]]; [..|by apply elem_of_nil in Hz];
    try (apply H3; cbn [dinode_of d_type d_major d_minor d_nlink]; set_solver). done.
Qed.

Lemma decr_ok ip : inode_ok x ip -> 1 <= i_nlink ip -> inode_ok x (decr_nlink ip) /\ i_nlink (decr_nlink ip) = i_nlink ip - 1.
Proof.
  intros Hino Hn. assert (i_nlink ip < 2 ^ 15) as Hlt.
  { destruct Hino as (_ & _ & H3 & _). apply (H3 (i_nlink ip)). cbn [dinode_of d_type d_major d_minor d_nlink]. set_solver. }
  assert (s16 (i_nlink ip - 1) = i_nlink ip - 1) as E by (unfold s16, wrap; rewrite Z.mod_small by lia; lia).
  unfold decr_nlink. rewrite E. split; [apply inode_ok_nlink; [done|lia]|done].
Qed.

Lemma cleared_decr v G w d pos ip :
  cleared v G w d pos 0 -> (forall n, G n -> file_ok x v (daddrs v n)) -> (forall n, G n -> 0 <= n < sb_ninodes x) ->
  inode_ok x ip -> i_inum ip = d -> dinode_of ip = dino x w d -> 1 <= i_nlink ip ->
  cleared v G (iupdate_view x w (decr_nlink ip)) d pos 1.
Proof using Hg.
  intros [C1 C2 C3 C4 C5 C6 C7 C8 C9 C10] Hf Hr Hino <- Ed Hn. destruct (decr_ok ip Hino Hn) as [Hino' En].
  assert (i_size ip = d_size (dino x w (i_inum ip)) /\ i_addrs ip = daddrs w (i_inum ip) /\ i_type ip = d_type (dino x w (i_inum ip)) /\
    i_nlink ip = d_nlink (dino x w (i_inum ip))) as (Es & Ea & Et & Enl) by (unfold daddrs; by rewrite <-Ed).
  destruct (iupdate_self w (decr_nlink ip) C1 Hino') as [Hs Hd]; try done.
  change (i_inum (decr_nlink ip)) with (i_inum ip) in Hs, Hd. set (u := iupdate_view x w (decr_nlink ip)) in *.
  destruct (same_file_dir w u _ Hs C6 C8) as (E & Hh & _). destruct (same_file_ok w u _ Hs C6) as [Hfu Hou].
  split; try done.
  - by apply iupdate_blocks.
  - intros n HG Hne. apply (stays_trans v w u n); [by apply Hf|by apply C2|].
    apply iupdate_other; try done; [by apply Hr|]. apply (stays_file v w n); [by apply C2|by apply Hf].
  - rewrite (sf_type _ _ _ Hs). done.
  - rewrite (sf_size _ _ _ Hs). done.
  - rewrite E. done.
  - intros b Hb. apply C7. by apply Hou.
  - rewrite Hd. apply Hino'.
  - rewrite Hd. cbn [d_nlink dinode_of]. rewrite En. lia.
Qed.

(** Entry [pos] of [d], a name of [m], was removed: the link count of [m] is one less; if
    that was the last link and [m] is not [open], [m] and its blocks are free. *)
Record removed v (G : Z -> Prop) w (d : Z) (pos : nat) (m : Z) (open : bool) : Prop := {
  rm_cleared : cleared v (fun n => G n /\ n <> m) w d pos (if is_dir x v m then 1 else 0);
  rm_link : d_nlink (dino x v m) <> 1 \/ open = true ->
    same_file v w m /\ dinode_ok (dino x w m) /\ d_nlink (dino x w m) = d_nlink (dino x v m) - 1;
  rm_free : d_nlink (dino x v m) = 1 -> open = false ->
    d_type (dino x w m) = 0 /\ forall b, owns v (daddrs v m) b -> used x w b = false }.

(** A slot that was unlocked and given back. *)
Definition slot_after w (n r : Z) (f : inode) : Prop :=
  i_inum f = n /\ i_ref f = r /\ locked (i_lock f) = false /\ (0 < r -> i_dev f = ROOTDEV /\ dinode_of f = dino x w n).

Lemma room_size (B : gset Z) (t : tx H) : (size B <= t_budget t)%nat -> room B t.
Proof. intros Hs. unfold room. etransitivity; [|exact Hs]. apply subseteq_size. set_solver. Qed.

Lemma wp_drop_link B v G k kp d pos m p r Q (vs : fvars C) t :
  let w := t_view t in
  disk_ok v G -> G d -> G m -> d <> m -> all_bmap x B -> IBLOCK m x ∈ B -> (size B + 1 <= t_budget t)%nat ->
  sb vs = x -> f_pid vs = Some p -> p <> -1 -> idle t ->
  cleared v G w d pos (if is_dir x v m then 1 else 0) ->
  icache vs !! k = Some kp -> locked_as w p m (r + 1) kp -> 0 <= r ->
  (forall t' fk, idle t' -> removed v G (t_view t') d pos m (bool_decide (0 < r)) -> dino x (t_view t') d = dino x w d ->
     slot_after (t_view t') m r fk -> Q 0 (set_icache (<[k := fk]> (icache vs)) vs) t') ->
  wp (mod_ino k decr_nlink;; iupdate k;; iunlockput k;; ret 0) Q vs t.
Proof using Hg.
  intros w Hdk HGd HGm Hdm HB HI Hbud Hsb Hpid Hp Hid Hcl Hk La Hr0 HQ.
  pose proof (dk_file _ _ Hdk) as Hfile. pose proof (to_range _ _ _ (dk_tree _ _ Hdk)) as Hrange.
  destruct (cl_others _ _ _ _ _ _ Hcl m HGm ltac:(congruence)) as [Hsm Hdm'].
  destruct (la_fields _ _ _ _ _ La) as (E1 & E2 & E3 & E4). pose proof (la_inum _ _ _ _ _ La) as En.
  destruct (dk_dino _ _ Hdk m HGm) as [Hdok Hnl]. rewrite Hdm' in E1, E2, E3.
  pose proof (stays_file v w m (conj Hsm Hdm') (Hfile m HGm)) as Hfm.
  assert (inode_ok x kp) as Hino.
  { split; [apply La|]. rewrite En, (la_dino _ _ _ _ _ La), Hdm'. split; [by apply Hrange|done]. }
  destruct (decr_ok kp Hino ltac:(lia)) as [Hino' Enl]. set (kp1 := decr_nlink kp) in *.
  assert (k < length (icache vs))%nat as Hkl by (by eapply lookup_lt_Some).
  pose proof (cl_blocks _ _ _ _ _ _ Hcl) as Hokw.
  apply wp_bind, (wp_mod_ino k kp); [done|].
  apply wp_bind, (wp_iupdate x Hg k kp1); try done; [by apply list_lookup_insert_eq|lia|]. fold w.
  set (t1 := with_view _ 1 t). set (w1 := iupdate_view x w kp1).
  assert (blocks_ok x w1) as Hok1 by (by apply iupdate_blocks).
  destruct (iupdate_self w kp1 Hokw Hino') as [Hs1 Hd1]; cbn [kp1 decr_nlink with_nlink i_inum i_size i_addrs i_type]; rewrite ?En; try done; try congruence.
  change (i_inum kp1) with (i_inum kp) in Hs1, Hd1. rewrite En in Hs1, Hd1. fold w1 in Hs1, Hd1.
  assert (forall n, G n -> n <> m -> stays w w1 n) as Hothers.
  { intros n Hn Hne. apply iupdate_other; try done; [by apply Hrange| |cbn; congruence].
    destruct (decide (n = d)) as [->|Hnd]; [apply Hcl|]. apply (stays_file v w n); [by apply Hcl|by apply Hfile]. }
  assert (cleared v (fun n => G n /\ n <> m) w1 d pos (if is_dir x v m then 1 else 0)) as Hcl1.
  { apply (cleared_step v G _ w); try done; [tauto|by apply Hothers|]. intros n [Hn Hne] _. by apply Hothers. }
  assert (stays v w m) as Hstm by done.
  destruct (decide (i_nlink kp1 = 0 /\ r = 0)) as [[Hz ->]|Hnz].
  - assert (d_nlink (dino x v m) = 1) as H1 by lia.
    apply wp_bind. unfold iunlockput. set (vs1 := set_icache _ vs).
    assert (icache vs1 !! k = Some kp1) as Hk1 by (by apply list_lookup_insert_eq).
    apply wp_bind, (wp_iunlock k kp1 p); try done; [apply La|change (i_ref kp1) with (i_ref kp); rewrite (la_ref _ _ _ _ _ La); lia|].
    set (kp2 := with_lock _ kp1).
    assert (forall n, G n -> n <> m -> file_ok x w1 (daddrs w1 n) /\ forall b, owns w1 (daddrs w1 n) b -> ~ owns w1 (i_addrs kp2) b) as Hdis.
    { intros n Hn Hne. assert (file_ok x w (daddrs w n)) as Hfn.
      { destruct (decide (n = d)) as [->|Hnd]; [apply Hcl|]. apply (stays_file v w n); [by apply Hcl|by apply Hfile]. }
      destruct (same_file_ok w w1 n (proj1 (Hothers n Hn Hne)) Hfn) as [Hfn1 Hon]. split; [done|].
      destruct (same_file_ok w w1 m Hs1 Hfm) as [_ Hom]. destruct (same_file_ok v w m Hsm (Hfile m HGm)) as [_ Hom'].
      intros b Hb1 Hb2. change (i_addrs kp2) with (i_addrs kp) in Hb2. rewrite E4 in Hb2.
      rewrite <-(sf_addrs _ _ _ Hs1) in Hb2. apply Hom, Hom' in Hb2. apply Hon in Hb1.
      destruct (decide (n = d)) as [->|Hnd].
      - destruct (cl_own _ _ _ _ _ _ Hcl b Hb1) as [Hb3|[_ Hu]]; [by apply (dk_disj _ _ Hdk d m b)|].
        destruct (owns_live v _ b (Hfile m HGm) Hb2) as [_ Hu']. congruence.
      - apply (same_file_ok v w n (proj1 (cl_others _ _ _ _ _ _ Hcl n Hn Hnd)) (Hfile n Hn)) in Hb1.
        by apply (dk_disj _ _ Hdk n m b). }
    assert (i_addrs kp2 = daddrs v m) as Ea2.
    { change (i_addrs kp2) with (i_addrs kp). rewrite E4. apply Hsm. }
    apply (wp_iput_free B k kp2 p); try done.
    + change (i_inum kp2) with (i_inum kp). by rewrite En.
    + apply room_size. cbn [t_budget t1 with_view]. lia.
    + cbn. rewrite list_lookup_insert_eq; [done|]. by rewrite length_insert.
    + change (i_ref kp2) with (i_ref kp). rewrite (la_ref _ _ _ _ _ La). lia.
    + apply La.
    + change (t_view t1) with w1. rewrite Ea2, <-(sf_addrs _ _ _ Hsm), <-(sf_addrs _ _ _ Hs1). by apply (same_file_ok w w1 m).
    + change (t_view t1) with w1. change (i_inum kp2) with (i_inum kp). rewrite En.
      intros t2 fk Hid2 Hok2 Ht2 Hu2 Hst2 Hrf Hnf Hlf. apply wp_ret. cbn [icache set_icache vs1]. rewrite !list_insert_insert_eq.
      assert (stays w1 (t_view t2) d) as Hd2.
      { destruct (Hdis d HGd Hdm). apply Hst2; try done. by apply Hrange. }
      apply (HQ t2 fk); [done| |destruct Hd2 as [_ ->]; by apply Hothers|].
      * split; [|intros [?|?]; done|intros _ _; split; [done|]].
        -- apply (cleared_step v (fun n => G n /\ n <> m) _ w1); try done; [by intros n [? _]; apply Hfile|].
           intros n [Hn Hne] _. destruct (Hdis n Hn Hne). apply Hst2; try done. by apply Hrange.
        -- intros b Hb. apply Hu2. rewrite Ea2.
           destruct (same_file_ok w w1 m Hs1 Hfm) as [_ Hom]. destruct (same_file_ok v w m Hsm (Hfile m HGm)) as [_ Hom'].
           rewrite <-(sf_addrs _ _ _ Hsm), <-(sf_addrs _ _ _ Hs1). by apply Hom, Hom'.
      * split; [done|]. split; [done|]. split; [done|lia].
  - apply wp_bind. unfold iunlockput.
    apply wp_bind, (wp_iunlock k kp1 p); try done; [by apply list_lookup_insert_eq|apply La|change (i_ref kp1) with (i_ref kp); rewrite (la_ref _ _ _ _ _ La); lia|].
    cbn [icache set_icache]. rewrite list_insert_insert_eq.
    apply (wp_iput_keep k (with_lock (mksl false 0) kp1)); [by apply list_lookup_insert_eq| |].
    { change (i_ref (with_lock (mksl false 0) kp1)) with (i_ref kp). change (i_nlink (with_lock (mksl false 0) kp1)) with (i_nlink kp1).
      rewrite (la_ref _ _ _ _ _ La). destruct (decide (r = 0)) as [->|]; [right; right; naive_solver|left; lia]. }
    apply wp_ret. cbn [icache set_icache]. rewrite list_insert_insert_eq.
    match goal with |- Q 0 (set_icache (<[k := ?f]> _) _) _ => change (Q 0 (set_icache (<[k := f]> (icache vs)) vs) t1); apply (HQ t1 f) end; try done.
    + split; [done| |]; [intros _|intros H1 Ho; apply bool_decide_eq_false in Ho; exfalso; apply Hnz; lia]. change (t_view t1) with w1. split; [by apply (same_file_trans v w w1); [apply Hfile| |]|].
      rewrite Hd1. split; [apply Hino'|]. cbn [d_nlink dinode_of]. rewrite Enl, E2. done.
    + by apply Hothers.
    + change (t_view t1) with w1. split; [done|]. split; [cbn; rewrite (la_ref _ _ _ _ _ La); lia|]. split; [done|].
      intros _. split; [apply La|]. rewrite Hd1. done.
Qed.

(** From the two locked inodes to the end of [sys_unlink]. *)
Lemma wp_unlink_entry B v G c j k jp kp d pos m nm p rj rk Q (vs : fvars C) t :
  disk_ok v G -> G d -> G m -> d <> m -> is_dir x v d = true -> dir_entries x v d !! pos = Some (m, nm) ->
  all_bmap x B -> IBLOCK m x ∈ B -> (size B + 4 <= t_budget t)%nat ->
  sb vs = x -> f_pid vs = Some p -> p <> -1 -> idle t -> t_view t = v ->
  icache vs = <[k := kp]> (<[j := jp]> c) -> j <> k -> (j < length c)%nat -> (k < length c)%nat ->
  locked_as v p d (rj + 1) jp -> locked_as v p m (rk + 1) kp -> 0 <= rj -> 0 <= rk ->
  (is_dir x v m = true -> 2 <= d_nlink (dino x v d)) ->
  (forall vs' t' fj fk, idle t' -> removed v G (t_view t') d pos m (bool_decide (0 < rk)) ->
     slot_after (t_view t') d rj fj -> slot_after (t_view t') m rk fk ->
     same_fs (set_icache (<[k := fk]> (<[j := fj]> c)) vs) vs' -> Q 0 vs' t') ->
  wp (unlink_entry j k (DIRENT * Z.of_nat pos)) Q vs t.
Proof using Hg.
  intros Hdk HGd HGm Hdm Hdir Hpos HB HI Hbud Hsb Hpid Hp Hid Hv Hc Hjk Hjl Hkl Lj Lk Hrj Hrk Hdl HQ.
  destruct (la_fields _ _ _ _ _ Lj) as (J1 & J2 & J3 & J4). destruct (la_fields _ _ _ _ _ Lk) as (K1 & K2 & K3 & K4).
  pose proof (la_inode_ok _ _ _ _ _ _ Hdk HGd Lj) as Hinoj. pose proof (la_inode_ok _ _ _ _ _ _ Hdk HGm Lk) as Hinok.
  destruct (to_dir _ _ _ (dk_tree _ _ Hdk) d HGd Hdir) as (Hf & Hnh & Hdok).
  pose proof (dk_file _ _ Hdk) as Hfile. pose proof (to_range _ _ _ (dk_tree _ _ Hdk)) as Hrange.
  destruct (dk_dino _ _ Hdk d HGd) as [_ Hnld].
  assert (pos < length (dir_entries x v d))%nat as Hlt by (by eapply lookup_lt_Some).
  pose proof Hlt as Hlt'. rewrite dir_entries_len in Hlt'. pose proof Hnh as [Hsz _].
  change (i_size (disk_inode x v d)) with (d_size (dino x v d)) in Hsz.
  assert (DIRENT * (d_size (dino x v d) / DIRENT) <= d_size (dino x v d)) by (apply Z.mul_div_le; unfold DIRENT; lia).
  assert (icache vs !! j = Some jp /\ icache vs !! k = Some kp) as [Hj Hk].
  { rewrite Hc, list_lookup_insert_ne, !list_lookup_insert_eq by (try rewrite length_insert; done). done. }
  unfold unlink_entry. apply wp_bind, wp_modv. set (vs1 := set_kbuf _ vs).
  apply wp_bind, (wp_writei_over x Hg j jp); try done; rewrite ?Hv, ?J4; try done.
  { apply (dk_blocks _ _ Hdk). }
  { by apply (no_holes_ext v (disk_inode x v d)). }
  { unfold DIRENT. lia. }
  { rewrite J3. unfold DIRENT in *. lia. }
  { apply dirent_fits. }
  { lia. }
  change (kbuf vs1) with (replicate (Z.to_nat DIRENT) 0). intros w1 Hw1. cbn [Z.eqb Pos.eqb DIRENT negb].
  pose proof (cleared_written v G p d _ jp w1 pos Hdk HGd Hdir Lj Hlt Hw1) as Hcl1.
  apply wp_bind, (wp_get_ino k kp); [done|]. rewrite K1. change (d_type (dino x v m) =? T_DIR) with (is_dir x v m).
  set (ll := if is_dir x v m then 1 else 0). assert (0 <= ll <= 1) as Hll by (unfold ll; destruct (is_dir x v m); lia).
  apply wp_bind.
  assert (forall jp2 t2, idle t2 -> (size B + 1 <= t_budget t2)%nat -> cleared v G (t_view t2) d pos ll ->
    i_ref jp2 = rj + 1 -> i_inum jp2 = d -> i_dev jp2 = ROOTDEV -> i_lock jp2 = mksl true p ->
    dinode_of jp2 = dino x (t_view t2) d -> 
    wp (iunlockput j;; mod_ino k decr_nlink;; iupdate k;; iunlockput k;; ret 0) Q (set_icache (<[j := jp2]> (icache vs1)) vs1) t2) as Hrest.
  { intros jp2 t2 Hid2 Hb2 Hcl2 R2 N2 D2 L2 Di2.
    assert (i_nlink jp2 = d_nlink (dino x v d) - ll) as El.
    { rewrite <-(cl_nlink _ _ _ _ _ _ Hcl2), <-Di2. done. }
    set (vs2 := set_icache _ vs1).
    assert (icache vs2 !! j = Some jp2) as Hj2 by (apply list_lookup_insert_eq; by eapply lookup_lt_Some).
    apply wp_bind, (wp_iunlockput j jp2 p); try done; [lia| |].
    { rewrite El. unfold ll. destruct (is_dir x v m); [specialize (Hdl eq_refl)|]; lia. }
    set (fj := with_ref _ (with_lock _ jp2)). set (vs3 := set_icache _ vs2).
    destruct (cl_others _ _ _ _ _ _ Hcl2 m HGm ltac:(congruence)) as [_ Edm].
    apply (wp_drop_link B v G k kp d pos m p rk); try done.
    { cbn [icache vs3 set_icache vs2 vs1 set_kbuf]. rewrite !list_lookup_insert_ne by done. done. }
    { destruct Lk as [A1 A2 A3 A4 A5 A6]. split; try done. congruence. }
    intros t3 fk Hid3 Hrm Ed3 Hsk. apply (HQ _ t3 fj fk); try done.
    - split; [done|]. split; [cbn; lia|]. split; [done|]. intros _. split; [done|]. rewrite Ed3. done.
    - unfold same_fs, vs3, vs2, vs1. cbn [icache set_icache set_kbuf sb kbuf umem f_pid f_cpu f_cwd]. f_equal.
      rewrite Hc. rewrite (list_insert_insert_ne _ k j kp) by done. rewrite !list_insert_insert_eq.
      rewrite (list_insert_insert_ne c j k) by done. by rewrite list_insert_insert_eq. }
  pose proof (dk_blocks _ _ Hdk) as Hokv. destruct (is_dir x v m) eqn:Edm; cbn [when].
  - apply wp_bind, (wp_mod_ino j jp); [done|]. destruct (decr_ok jp Hinoj ltac:(lia)) as [Hino' En'].
    assert (dino x w1 d = dino x v d) as Ed1.
    { rewrite <-(la_inum _ _ _ _ _ Lj), (wn_dino _ _ _ _ _ _ _ Hw1). rewrite (la_inum _ _ _ _ _ Lj). apply Lj. }
    assert (cleared v G (iupdate_view x w1 (decr_nlink jp)) d pos 1) as Hcl2.
    { apply (cleared_decr v G w1 d pos jp Hcl1); try done; [apply Lj|rewrite Ed1; apply Lj|lia]. }
    apply (wp_iupdate x Hg j (decr_nlink jp)); try done.
    { apply list_lookup_insert_eq. by eapply lookup_lt_Some. }
    { cbn [t_budget with_view]. lia. }
    apply Hrest; try done; [cbn [t_budget with_view]; lia|apply Lj|apply Lj|apply Lj|apply Lj|].
    cbn [t_view with_view]. destruct (iupdate_view_ok x Hg w1 (decr_nlink jp)) as (D1 & _); [apply Hcl1|done|].
    change (i_inum (decr_nlink jp)) with (i_inum jp) in D1. rewrite (la_inum _ _ _ _ _ Lj) in D1. by rewrite D1.
  - apply wp_ret. specialize (Hrest jp (with_view w1 2 t)). rewrite list_insert_id in Hrest by done.
    replace (set_icache (icache vs1) vs1) with vs1 in Hrest by (by destruct vs).
    apply Hrest; try done; [cbn [t_budget with_view]; lia|apply Lj|apply Lj|apply Lj|apply Lj|].
    cbn [t_view with_view]. rewrite <-(la_inum _ _ _ _ _ Lj), (wn_dino _ _ _ _ _ _ _ Hw1). done.
Qed.

(** The inodes of the tree after the removal. *)
Definition without v (G : Z -> Prop) (m : Z) : Z -> Prop := fun n => G n /\ (n = m -> d_nlink (dino x v m) <> 1).

(** The tree is well formed after the removal, when the last link of [m] was the only one. *)
Lemma removed_disk_ok v G w d pos m nm open :
  disk_ok v G -> G d -> G m -> d <> m -> is_dir x v d = true -> dir_entries x v d !! pos = Some (m, nm) ->
  (is_dir x v m = true -> 2 <= d_nlink (dino x v d)) ->
  (d_nlink (dino x v m) = 1 -> forall n q e, G n -> n <> m -> is_dir x v n = true -> dir_entries x v n !! q = Some e -> e.1 = m ->
     n = d /\ q = pos) ->
  removed v G w d pos m open -> disk_ok w (without v G m).
Proof.
  intros Hdk HGd HGm Hdm Hdir Hpos Hdl Honly [Hcl Hlk Hfr].
  pose proof (dk_tree _ _ Hdk) as Htree. destruct (to_dir _ _ _ Htree d HGd Hdir) as (_ & _ & Hdok).
  assert (forall n, without v G m n -> n <> d -> same_file v w n) as Hsame.
  { intros n [Hn Hne] Hnd. destruct (decide (n = m)) as [->|Hnm]; [by apply Hlk; left; apply Hne|]. by apply (cl_others _ _ _ _ _ _ Hcl). }
  assert (forall n, without v G m n -> is_dir x w n = is_dir x v n) as Hisd.
  { intros n Hn. unfold is_dir. destruct (decide (n = d)) as [->|Hnd]; [by rewrite (cl_type _ _ _ _ _ _ Hcl)|].
    by rewrite (sf_type _ _ _ (Hsame n Hn Hnd)). }
  apply (disk_ok_step v w G _ d); try done.
  - apply Hcl.
  - by intros n [Hn _].
  - intros _. destruct Hcl as [_ _ C3 C4 _ C6 C7 C8 _ _]. split; [done|]. split; [done|]. split; [done|]. intros _. split; [done|].
    unfold dir_ok in *. change (i_type (disk_inode x w d)) with (d_type (dino x w d)). change (i_size (disk_inode x w d)) with (d_size (dino x w d)).
    by rewrite C3, C4.
  - intros n [Hn Hne]. destruct (dk_dino _ _ Hdk n Hn) as [? ?]. destruct (decide (n = d)) as [->|Hnd].
    + split; [apply Hcl|]. rewrite (cl_nlink _ _ _ _ _ _ Hcl). destruct (is_dir x v m); [specialize (Hdl eq_refl)|]; lia.
    + destruct (decide (n = m)) as [->|Hnm].
      * destruct (Hlk (or_introl (Hne eq_refl))) as (_ & ? & ->). specialize (Hne eq_refl). split; [done|lia].
      * destruct (cl_others _ _ _ _ _ _ Hcl n) as [_ ->]; done.
  - intros n e Hn Hd He Hz. rewrite (Hisd n Hn) in Hd. pose proof Hn as [HGn Hne].
    assert (exists q, dir_entries x v n !! q = Some e /\ (n = d -> q <> pos)) as (q & Hq & Hqp).
    { apply list_elem_of_lookup in He as [q Hq]. destruct (decide (n = d)) as [->|Hnd].
      - rewrite (cl_ents _ _ _ _ _ _ Hcl) in Hq. apply list_lookup_insert_Some in Hq as [(_ & <- & _)|[Hqn Hq]]; [done|]. exists q. auto.
      - destruct (to_dir _ _ _ Htree n HGn Hd) as (Hf & Hnh & _).
        destruct (same_file_dir v w n (Hsame n Hn Hnd) Hf Hnh) as (E & _). rewrite E in Hq. exists q. auto. }
    split; [apply (to_ents _ _ _ Htree n e HGn Hd); [|done]; by apply list_elem_of_lookup; exists q|].
    intros Em H1. assert (n <> m) as Hnm by (intros E; by apply (Hne E)).
    destruct (Honly H1 n q e HGn Hnm Hd Hq Em) as [-> ->]. by apply Hqp.
Qed.

(** ** The name to remove *)

Definition is_dot (nm : bytes) : bool := bool_decide (nm = [46]) || bool_decide (nm = [46; 46]).

(** The directory, the position of the entry and the inode that [unlink] of a path
    removes. *)
Definition unlink_finds v (n : Z) (es : list bytes) : option (Z * nat * Z) :=
  match walk_parent x v n es with
  | None => None
  | Some (d, nm) =>
      if is_dot nm then None
      else match dfind nm (dir_entries x v d) 0 with
           | None => None
           | Some (pos, m) =>
               if is_dir x v m && negb (dir_empty (dir_entries x v m)) then None else Some (d, pos, m)
           end
  end.

Lemma dot_test name : (namecmp name DOT =? 0) || (namecmp name DOTDOT =? 0) = is_dot (name14 name).
Proof.
  unfold is_dot. assert (forall s, (namecmp name s =? 0) = bool_decide (name14 name = name14 s)) as E.
  { intros s. destruct (Z.eqb_spec (namecmp name s) 0) as [Hn|Hn].
    - symmetry. apply bool_decide_true. by apply namecmp_eq.
    - symmetry. apply bool_decide_false. intros E. by apply Hn, namecmp_eq. }
  by rewrite !E.
Qed.

Lemma walk_parent_dir v n es d nm : walk_parent x v n es = Some (d, nm) -> is_dir x v d = true.
Proof.
  revert n. induction es as [|e es IH]; intros n; cbn [walk_parent]; [done|].
  destruct (is_dir x v n) eqn:E; [|done]. destruct es as [|e' es']; [by intros [= <- <-]|].
  destruct (dfind (take 14 e) (dir_entries x v n) 0) as [[pos n']|]; [|done]. apply IH.
Qed.

Lemma dfind_lookup nm ds k pos n : dfind nm ds k = Some (pos, n) -> (k <= pos)%nat /\ ds !! (pos - k)%nat = Some (n, nm) /\ n <> 0.
Proof.
  revert k. induction ds as [|[n' m'] ds IH]; intros k; cbn [dfind]; [done|].
  destruct (negb (n' =? 0) && bool_decide (m' = nm)) eqn:E.
  - intros [= <- <-]. apply andb_true_iff in E as [E1 E2%bool_decide_eq_true]. subst m'.
    split; [done|]. rewrite Nat.sub_diag. split; [done|]. by destruct (Z.eqb_spec n' 0).
  - intros Hf. destruct (IH _ Hf) as (Hk & Hl & Hz). split; [lia|]. split; [|done].
    replace (pos - k)%nat with (Datatypes.S (pos - Datatypes.S k)) by lia. done.
Qed.

(** ** The calls *)

Section call.
Context (v : Z -> bytes) (G : Z -> Prop) (Hdk : disk_ok v G) (Hroot : G ROOTINO)
  (p : Z) (Hp : p <> -1) (R0 : list Z) (a b : nat) (Hab : a <> b) (Ha : R0 !! a = Some 0) (Hb : R0 !! b = Some 0).

Let Htree := dk_tree v G Hdk.

Lemma loaded_locked ip r :
  i_dev ip = ROOTDEV -> i_ref ip = r -> locked_as v p (i_inum ip) r (loaded x v p ip).
Proof. intros Hd Hr. by split. Qed.

(** The slot of an inode that was locked and is given back as it was. *)
Lemma slot_back w ip r n k :
  locked_as w p n (r + 1) ip -> i_ref ip - 1 = k -> k = r -> slot_after w n r (with_ref k (with_lock (mksl false 0) ip)).
Proof.
  intros La E ->. split; [apply La|]. split; [done|]. split; [done|]. intros _. split; [apply La|]. by rewrite <-(la_dino _ _ _ _ _ La).
Qed.

Lemma slot_entry w G' n r f : slot_after w n r f -> 0 <= r -> G' n -> entry_ok x w G' false f.
Proof.
  intros (<- & <- & Hl & Hd) Hr HG. split; [done|]. split; [done|]. intros Hr'. destruct (Hd Hr') as [? ?]. auto.
Qed.

(** Two inodes are locked: [d] in slot [j], [m] in slot [k]. *)
Record two_locked (c : list inode) (vs : fvars C) (j k : nat) (d m rj rk : Z) : Prop := {
  tl_cache : cache_ok x v G None c;
  tl_neq : j <> k;
  tl_j : R0 !! j = Some rj;
  tl_k : R0 !! k = Some rk;
  tl_pos : 0 <= rj /\ 0 <= rk;
  tl_refs : refs c = <[j := rj + 1]> R0;
  tl_only : only_slot c d j /\ only_slot c m k;
  tl_sb : sb vs = x;
  tl_pid : f_pid vs = Some p;
  tl_slots : exists jp kp, icache vs = <[k := kp]> (<[j := jp]> c) /\
    locked_as v p d (rj + 1) jp /\ locked_as v p m (rk + 1) kp }.

(** The state in which nothing is locked, and the references are the ones of the caller. *)
Definition calm_state w (G' : Z -> Prop) (vs : fvars C) : Prop := path_state x w G' p vs /\ refs (icache vs) = R0.

Lemma two_length c vs j k d m rj rk : two_locked c vs j k d m rj rk -> (j < length c)%nat /\ (k < length c)%nat.
Proof.
  intros T. assert (length c = length R0) as E.
  { pose proof (f_equal length (tl_refs _ _ _ _ _ _ _ _ T)) as E. rewrite length_insert in E. unfold refs in E. by rewrite length_fmap in E. }
  rewrite E. split; eapply lookup_lt_Some; [apply (tl_j _ _ _ _ _ _ _ _ T)|apply (tl_k _ _ _ _ _ _ _ _ T)].
Qed.

Lemma two_release c vs j k d m rj rk w G' vs' fj fk :
  two_locked c vs j k d m rj rk -> d <> m -> G' d ->
  (forall n, G n -> n <> d -> n <> m -> G' n /\ dino x w n = dino x v n) ->
  slot_after w d rj fj -> slot_after w m rk fk -> (0 < rk -> G' m) ->
  same_fs (set_icache (<[k := fk]> (<[j := fj]> c)) vs) vs' -> calm_state w G' vs'.
Proof.
  intros T Hdm HGd Hsame Hsj Hsk HGm Hs. pose proof (two_length _ _ _ _ _ _ _ _ T) as [Hjl Hkl].
  destruct T as [T1 T2 T3 T4 [T5 T5'] T6 [T7 T8] T9 T10 _].
  assert (icache vs' = <[k := fk]> (<[j := fj]> c) /\ sb vs' = x /\ f_pid vs' = Some p) as (Ec & Es & Ep) by (rewrite Hs; done).
  destruct (lookup_lt_is_Some_2 c j Hjl) as [jp Hj]. destruct (lookup_lt_is_Some_2 c k Hkl) as [kp Hk].
  split; [split; [done|split; [done|]]|].
  - rewrite Ec. apply (cache_two v w G G' c j k jp kp fj fk d m); try done; [by apply (slot_entry w G' d rj)| |apply Hsj|apply Hsk].
    destruct Hsk as (<- & <- & Hl & Hd). split; [done|]. split; [done|]. intros Hr. destruct (Hd Hr). auto.
  - rewrite Ec, !refs_insert, T6. destruct Hsj as (_ & -> & _), Hsk as (_ & -> & _).
    rewrite list_insert_insert_eq, (list_insert_id R0 j) by done. by apply list_insert_id.
Qed.
(** [iget] and [ilock] of [m] while [d] is locked in slot [j]. *)
Lemma wp_lock_second c j ip m t (Q : nat -> fvars C -> tx H -> Prop) (vs : fvars C) :
  cache_ok x v G None c -> holds R0 j (i_inum ip) c -> c !! j = Some ip -> G m -> m <> i_inum ip ->
  sb vs = x -> f_pid vs = Some p -> icache vs = <[j := loaded x v p ip]> c -> idle t -> t_view t = v ->
  (forall k rj rk vs', two_locked c vs' j k (i_inum ip) m rj rk -> f_cwd vs' = f_cwd vs -> Q k vs' t) ->
  wp (iget ROOTDEV m) (fun k vs' t' => wp (ilock k) (fun _ => Q k) vs' t') vs t.
Proof using Hg Hdk Hab Ha Hb.
  intros Hc Hh Hj HGm Hne Hsb Hpid Hic Hid Hv HQ. pose proof Hh as (ip0 & r & Hj0 & _ & HR & Hr0 & Hr & Hrefs).
  rewrite Hj in Hj0. injection Hj0 as <-.
  assert (j < length c)%nat as Hjl by (by eapply lookup_lt_Some).
  destruct (proj1 Hc j ip Hj) as (_ & _ & He). destruct (He ltac:(lia)) as (Hd & HGd & _).
  apply wp_iget.
  { destruct (other_slot R0 a b Hab Ha Hb j (r + 1) c Hrefs) as (q & qp & Hq & Hqj & Hz).
    exists q, qp. rewrite Hic, list_lookup_insert_ne by done. auto. }
  intros k kp kp' Hk Hcase. rewrite Hic in Hk, Hcase |- *.
  assert (k <> j) as Hkj.
  { intros ->. rewrite list_lookup_insert_eq in Hk by done. injection Hk as <-.
    destruct Hcase as [[(_ & _ & E) _]|(_ & E & _)]; [by apply Hne|]. cbn in E. lia. }
  rewrite list_lookup_insert_ne in Hk by done. destruct (proj1 Hc k kp Hk) as (Hk1 & Hk2 & Hk3).
  assert (k < length c)%nat as Hkl by (by eapply lookup_lt_Some).
  assert (R0 !! k = Some (i_ref kp)) as HRk.
  { assert (refs c !! k = Some (i_ref kp)) as E by (unfold refs; by rewrite list_lookup_fmap, Hk).
    rewrite Hrefs, list_lookup_insert_ne in E by done. done. }
  assert (entry_ok x v G false kp' /\ i_inum kp' = m /\ i_ref kp' = i_ref kp + 1 /\ i_dev kp' = ROOTDEV) as (Hek & Hnk & Hrk & Hdk').
  { destruct Hcase as [[(Hcr & Hcd & Hcn) ->]|(_ & Hz & ->)].
    - destruct (Hk3 Hcr) as (? & ? & ?). split; [|done]. split; [cbn; lia|]. split; [exact Hk2|]. intros _. done.
    - split; [|split; [done|split; [cbn; lia|done]]]. split; [cbn; lia|]. split; [exact Hk2|]. intros _. done. }
  apply (wp_ilock x Hg v G Htree k kp' p); try done; [cbn; by apply list_lookup_insert_eq; rewrite length_insert|lia|].
  intros kp2 ->. fold (loaded x v p kp'). cbn [icache set_icache]. rewrite list_insert_insert_eq.
  apply (HQ k r (i_ref kp)); [|done]. split; try done.
  - split; [by apply uniq_only; [apply Hc| |lia]|]. destruct Hcase as [[(Hcr & Hcd & Hcn) ->]|(Hall & Hz & ->)].
    + rewrite <-Hcn. by apply uniq_only; [apply Hc| |].
    + intros q qp Hq Hrq E. exfalso. destruct (decide (q = j)) as [->|Hqj].
      * rewrite Hj in Hq. injection Hq as <-. by apply Hne.
      * rewrite Forall_lookup in Hall. apply (Hall q qp); [by rewrite list_lookup_insert_ne|].
        split; [done|]. split; [by apply (proj1 Hc q qp Hq)|done].
  - exists (loaded x v p ip), (loaded x v p kp'). split; [done|]. split; [by apply loaded_locked|].
    rewrite <-Hnk. by apply loaded_locked.
Qed.

(** No directory has itself as an entry, but for the dots. *)
Definition no_self : Prop :=
  forall n e, G n -> is_dir x v n = true -> e ∈ dir_entries x v n -> e.1 = n -> is_dot e.2 = true.
(** The inodes that are in use after the removal: an open file keeps its inode. *)
Definition kept (m : Z) (open : bool) : Z -> Prop := fun n => G n /\ (n = m -> d_nlink (dino x v m) <> 1 \/ open = true).

Definition has_open (c : list inode) (m : Z) : Prop := exists q qp, c !! q = Some qp /\ cached ROOTDEV m qp.

Lemma two_open c vs j k d m rj rk w fj fk :
  two_locked c vs j k d m rj rk -> d <> m -> slot_after w d rj fj -> slot_after w m rk fk ->
  has_open (<[k := fk]> (<[j := fj]> c)) m <-> 0 < rk.
Proof.
  intros T Hdm (Nj & Rj & _ & Dj) (Nk & Rk & _ & Dk). pose proof (two_length _ _ _ _ _ _ _ _ T) as [Hjl Hkl].
  destruct (tl_only _ _ _ _ _ _ _ _ T) as [_ Hom]. split.
  - intros (q & qp & Hq & Hr & _ & E).
    apply list_lookup_insert_Some in Hq as [(<- & <- & _)|[N1 [(<- & <- & _)|[N2 Hq]]%list_lookup_insert_Some]].
    + by rewrite <-Rk.
    + by rewrite Nj in E.
    + exfalso. by apply N1, eq_sym, (Hom q qp).
  - intros Hr. exists k, fk. split; [apply list_lookup_insert_eq; by rewrite length_insert|].
    destruct (Dk Hr). split; [by rewrite Rk|done].
Qed.

(** What [unlink] of a path from the directory [n] does. *)
Definition unlink_post (n : Z) (es : list bytes) (t : tx H) (r : Z) (vs : fvars C) (t' : tx H) : Prop :=
  match unlink_finds v n es with
  | None => r = -1 /\ t' = t /\ calm_state v G vs
  | Some (d, pos, m) =>
      r = 0 /\ idle t' /\ exists open, removed v G (t_view t') d pos m open /\
        calm_state (t_view t') (kept m open) vs /\ (open = true <-> has_open (icache vs) m)
  end.

Lemma wp_unlink_bad j ip c (Q : Z -> fvars C -> tx H -> Prop) (vs : fvars C) t :
  cache_ok x v G None c -> holds R0 j (i_inum ip) c -> c !! j = Some ip ->
  sb vs = x -> f_pid vs = Some p -> icache vs = <[j := loaded x v p ip]> c ->
  (forall vs', calm_state v G vs' -> Q (-1) vs' t) -> wp (unlink_bad j) Q vs t.
Proof using Hp Hdk Hab.
  intros Hc Hh Hj Hsb Hpid Hic HQ. pose proof Hh as (ip0 & r & Hj0 & _ & HR & Hr0 & Hr & Hrefs).
  rewrite Hj in Hj0. injection Hj0 as <-. destruct (proj1 Hc j ip Hj) as (_ & _ & He). destruct (He ltac:(lia)) as (Hd & HGd & _).
  assert (j < length c)%nat as Hjl by (by eapply lookup_lt_Some).
  pose proof (to_type _ _ _ Htree _ HGd) as [_ Hnl].
  unfold unlink_bad. apply wp_bind, (wp_iunlockput j (loaded x v p ip) p); try done; [rewrite Hic; by apply list_lookup_insert_eq|cbn; lia|].
  apply wp_ret. rewrite Hic, list_insert_insert_eq. destruct (drop_ref x v G p R0 a b Hab j ip c Hc Hh Hj) as [Hc' Hr'].
  apply HQ. split; [|exact Hr']. split; [done|]. split; [done|exact Hc'].
Qed.

Lemma wp_unlink_tx B path n (vs : fvars C) t :
  no_self -> all_bmap x B ->
  (forall d pos m, unlink_finds v n (elems path) = Some (d, pos, m) ->
     (is_dir x v m = true -> 2 <= d_nlink (dino x v d)) /\ IBLOCK m x ∈ B) ->
  (size B + 4 <= t_budget t)%nat -> Forall (fun ch => ch <> 0) path -> idle t -> t_view t = v ->
  calm_state v G vs -> starts path vs n ->
  wp (unlink_tx path) (unlink_post n (elems path) t) vs t.
Proof using Hg Hdk Hroot Hp Hab Ha Hb.
  intros Hself HB Hpre Hbud Hpath Hid Hv [Hps HR] Hst. pose proof (dk_blocks _ _ Hdk) as Hok.
  unfold unlink_post, unlink_finds in *. unfold unlink_tx.
  apply wp_bind, (wp_namex x Hg v Hok G Htree Hroot p Hp R0 a b Hab Ha Hb path true name_buf n); try done.
  intros o nm vs1 Hps1 Hfound. unfold found in Hfound. destruct (walk_parent x v n (elems path)) as [[d e]|] eqn:Ewp.
  2: { destruct Hfound as [-> HR1]. apply wp_ret. done. }
  destruct Hfound as (j & -> & <- & Hh). pose proof Hps1 as (Hsb1 & Hpid1 & Hc1). set (c := icache vs1) in *.
  pose proof Hh as (ip & rj & Hj & Hn & HRj & Hrj & Hrip & Hrefs). subst d.
  pose proof (walk_parent_dir _ _ _ _ _ Ewp) as Hdir.
  pose proof (proj1 Hc1 j ip Hj) as Hent. pose proof Hent as (_ & _ & He). destruct (He ltac:(lia)) as (Hdev & HGd & _).
  apply wp_bind, (wp_ilock x Hg v G Htree j ip p); try done; [lia|]. intros ip' ->. fold (loaded x v p ip). fold c.
  set (vs2 := set_icache _ vs1). rewrite dot_test. destruct (is_dot (name14 nm)) eqn:Edot.
  { apply (wp_unlink_bad j ip c); done. }
  destruct (to_dir _ _ _ Htree _ HGd Hdir) as (Hf & Hnh & Hdok).
  assert (icache vs2 !! j = Some (loaded x v p ip)) as Hj2 by (apply list_lookup_insert_eq; by eapply lookup_lt_Some).
  apply wp_bind, (wp_dirlookup x Hg j (loaded x v p ip) t Hdev Hid); rewrite ?Hv; try done.
  change (dents v (loaded x v p ip)) with (dir_entries x v (i_inum ip)).
  intros vs3 Hs3 _. destruct (same_fs_fields _ _ Hs3) as (Es3 & Ep3 & Ec3).
  destruct (dfind (name14 nm) (dir_entries x v (i_inum ip)) 0) as [[pos m]|] eqn:Efind.
  2: { apply (wp_unlink_bad j ip c); try done; by etransitivity. }
  destruct (dfind_lookup _ _ _ _ _ Efind) as (_ & Hpos & Hm0). rewrite Nat.sub_0_r in Hpos.
  assert (m <> i_inum ip) as Hne.
  { intros E. assert ((m, name14 nm) ∈ dir_entries x v (i_inum ip)) as Hin by (apply list_elem_of_lookup; eauto).
    pose proof (Hself _ _ HGd Hdir Hin E) as Hd'. cbn in Hd'. congruence. }
  assert (G m) as HGm.
  { apply (to_ents _ _ _ Htree _ (m, name14 nm) HGd Hdir); [apply list_elem_of_lookup; eauto|done]. }
  destruct (dk_dino _ _ Hdk m HGm) as [_ Hnlm].
  apply wp_bind. eapply wp_mono.
  { apply (wp_lock_second c j ip m t (fun k vs' t' => t' = t /\ exists rj rk, two_locked c vs' j k (i_inum ip) m rj rk)); try done;
      [by etransitivity|by etransitivity|]. intros k rj' rk vs' T _. eauto. }
  cbn beta. intros k vs4 t4 Hlock. apply wp_ret. apply wp_bind. eapply wp_mono; [exact Hlock|]. clear Hlock vs4 t4.
  intros [] vs4 t4 (-> & rj' & rk & T). destruct (tl_slots _ _ _ _ _ _ _ _ T) as (jp & kp & Ec4 & Lj & Lk).
  pose proof (two_length _ _ _ _ _ _ _ _ T) as [Hjl Hkl]. pose proof (tl_neq _ _ _ _ _ _ _ _ T) as Hjk.
  pose proof (tl_pos _ _ _ _ _ _ _ _ T) as [Hrj' Hrk]. pose proof (tl_sb _ _ _ _ _ _ _ _ T) as Hsb4. pose proof (tl_pid _ _ _ _ _ _ _ _ T) as Hpid4.
  assert (icache vs4 !! j = Some jp /\ icache vs4 !! k = Some kp) as [Hj4 Hk4].
  { rewrite Ec4, list_lookup_insert_ne, !list_lookup_insert_eq by (try rewrite length_insert; done). done. }
  destruct (la_fields _ _ _ _ _ Lk) as (K1 & K2 & K3 & K4).
  apply wp_bind, (wp_get_ino k kp); [done|]. rewrite K2. destruct (Z.ltb_spec (d_nlink (dino x v m)) 1); [lia|].
  rewrite K1. change (d_type (dino x v m) =? T_DIR) with (is_dir x v m).
  apply wp_bind. assert (wp (if is_dir x v m then isdirempty k else ret true)
    (fun e vs' t' => e = negb (is_dir x v m && negb (dir_empty (dir_entries x v m))) /\ same_fs vs4 vs' /\ t' = t) vs4 t) as Hemp.
  { destruct (is_dir x v m) eqn:Edm; [|apply wp_ret; split; [done|split; [apply same_fs_refl|done]]].
    destruct (to_dir _ _ _ Htree m HGm Edm) as (Hfm & Hnhm & Hdokm).
    apply (wp_isdirempty k kp t); rewrite ?Hv, ?K4; try done; [apply Lk|by apply (no_holes_ext v (disk_inode x v m))|by split; [rewrite K1; apply Hdokm|rewrite K3; apply Hdokm]|].
    intros vs' Hs'. split; [|done]. cbn [andb]. rewrite negb_involutive. f_equal. by apply dents_ext. }
  eapply wp_mono; [exact Hemp|]. clear Hemp. intros e vs5 t5 (-> & Hs5 & ->).
  destruct (same_fs_fields _ _ Hs5) as (Es5 & Ep5 & Ec5). rewrite negb_involutive.
  destruct (is_dir x v m && negb (dir_empty (dir_entries x v m))) eqn:Efull.
  - pose proof (to_type _ _ _ Htree _ HGd) as [_ Hnld]. destruct (la_fields _ _ _ _ _ Lj) as (_ & J2 & _ & _).
    apply wp_bind, (wp_iunlockput k kp p); try congruence; [apply Lk|rewrite (la_ref _ _ _ _ _ Lk); lia|lia|].
    apply wp_bind, (wp_iunlockput j jp p); try congruence.
    { cbn. congruence. }
    { cbn. rewrite list_lookup_insert_ne by done. congruence. }
    { apply Lj. }
    { rewrite (la_ref _ _ _ _ _ Lj). lia. }
    apply wp_ret. split; [done|]. split; [done|].
    eapply (two_release c vs4 j k (i_inum ip) m rj' rk v G); try done.
    + apply slot_back with (k := rj'); [exact Lj|rewrite (la_ref _ _ _ _ _ Lj); lia|done].
    + apply slot_back with (k := rk); [exact Lk|rewrite (la_ref _ _ _ _ _ Lk); lia|done].
    + unfold same_fs. cbn [icache set_icache sb kbuf umem f_pid f_cpu f_cwd]. rewrite Hs5. cbn [icache set_icache sb kbuf umem f_pid f_cpu f_cwd].
      unfold set_icache. cbn [icache sb kbuf umem f_pid f_cpu f_cwd]. f_equal. rewrite Ec4, list_insert_insert_eq.
      rewrite (list_insert_insert_ne _ j k) by done. rewrite list_insert_insert_eq. rewrite (la_ref _ _ _ _ _ Lj), (la_ref _ _ _ _ _ Lk).
      by rewrite !Z.add_simpl_r.
  - destruct (Hpre _ _ _ eq_refl) as [Hdl HI].
    apply (wp_unlink_entry B v G c j k jp kp (i_inum ip) pos m (name14 nm) p rj' rk); try done; try congruence.
    intros vs' t' fj fk Hid' Hrm Hsj Hsk Hs'. split; [done|]. split; [done|]. exists (bool_decide (0 < rk)). split; [done|].
    assert (has_open (<[k := fk]> (<[j := fj]> c)) m <-> 0 < rk) as Hopen.
    { by apply (two_open c vs4 j k (i_inum ip) m rj' rk (t_view t') fj fk). }
    split.
    + apply (two_release c vs5 j k (i_inum ip) m rj' rk (t_view t') (kept m (bool_decide (0 < rk))) vs' fj fk); try done.
      * destruct T as [T1 T2 T3 T4 T5 T6 T7 T9 T10 T11]. split; try done; try congruence. exists jp, kp. split; [congruence|done].
      * intros q Hq Hqd Hqm. destruct (cl_others _ _ _ _ _ _ (rm_cleared _ _ _ _ _ _ _ Hrm) q) as [_ Hdq]; try done.
      * intros Hrk'. split; [done|]. intros _. right. by apply bool_decide_true.
    + assert (icache vs' = <[k := fk]> (<[j := fj]> c)) as -> by (by rewrite Hs'). rewrite Hopen. apply bool_decide_eq_true.
Qed.
End call.

(** ** Names in a directory with a cleared entry *)

Lemma dfind_skip nm ds k pos m nm0 :
  ds !! pos = Some (m, nm0) -> (forall q n', ds !! q = Some (n', nm) -> n' <> 0 -> q = pos) -> dfind nm (<[pos := (0, [])]> ds) k = None.
Proof.
  revert k pos. induction ds as [|[n' m'] ds IH]; intros k pos Hpos Hu; [done|]. destruct pos as [|pos].
  - change (<[0%nat := (0, [])]> ((n', m') :: ds)) with ((0, []) :: ds : list (Z * bytes)). cbn [dfind Z.eqb negb andb].
    assert (forall q n0, ds !! q = Some (n0, nm) -> n0 = 0) as Hall.
    { intros q n0 Hq. destruct (decide (n0 = 0)) as [|Hz]; [done|]. by specialize (Hu (Datatypes.S q) n0 Hq Hz). }
    clear -Hall. generalize (Datatypes.S k) as k'. induction ds as [|[n' m'] ds IH]; intros k'; [done|]. cbn [dfind].
    destruct (Z.eqb_spec n' 0) as [|Hn]; cbn [negb andb]; [apply IH; intros q; apply (Hall (Datatypes.S q))|].
    rewrite bool_decide_false; [apply IH; intros q; apply (Hall (Datatypes.S q))|]. intros ->. apply Hn. by apply (Hall 0%nat).
  - change (<[Datatypes.S pos := (0, [])]> ((n', m') :: ds)) with ((n', m') :: <[pos := (0, [])]> ds). cbn [dfind].
    assert (dfind nm (<[pos := (0, [])]> ds) (Datatypes.S k) = None) as ->.
    { apply IH; [done|]. intros q n0 Hq Hz. specialize (Hu (Datatypes.S q) n0 Hq Hz). lia. }
    destruct (Z.eqb_spec n' 0) as [|Hn]; [done|]. cbn [negb andb]. rewrite bool_decide_false; [done|]. intros ->.
    by specialize (Hu 0%nat n' eq_refl Hn).
Qed.

Lemma dfind_keep nm ds k pos m nm0 :
  ds !! pos = Some (m, nm0) -> nm0 <> nm -> dfind nm (<[pos := (0, [])]> ds) k = dfind nm ds k.
Proof.
  revert k pos. induction ds as [|[n' m'] ds IH]; intros k pos Hpos Hne; [done|]. destruct pos as [|pos].
  - injection Hpos as -> ->. change (<[0%nat := (0, [])]> ((m, nm0) :: ds)) with ((0, []) :: ds : list (Z * bytes)).
    cbn [dfind Z.eqb negb andb]. rewrite bool_decide_false by done. by rewrite andb_false_r.
  - change (<[Datatypes.S pos := (0, [])]> ((n', m') :: ds)) with ((n', m') :: <[pos := (0, [])]> ds). cbn [dfind].
    rewrite IH by done. done.
Qed.

(** No name twice. *)
Definition names_unique (ds : list (Z * bytes)) : Prop :=
  forall q q' n n' nm, ds !! q = Some (n, nm) -> ds !! q' = Some (n', nm) -> n <> 0 -> n' <> 0 -> q = q'.

Lemma finds_entry v n es d pos m :
  unlink_finds v n es = Some (d, pos, m) ->
  exists nm, walk_parent x v n es = Some (d, nm) /\ dir_entries x v d !! pos = Some (m, nm) /\ m <> 0 /\ is_dir x v d = true /\
    is_dot nm = false.
Proof.
  unfold unlink_finds. destruct (walk_parent x v n es) as [[d' nm]|] eqn:Ewp; [|done].
  destruct (is_dot nm) eqn:Ed; [done|]. destruct (dfind nm (dir_entries x v d') 0) as [[pos' m']|] eqn:Ef; [|done].
  destruct (is_dir x v m' && negb (dir_empty (dir_entries x v m'))); [done|]. intros [= -> -> ->].
  destruct (dfind_lookup _ _ _ _ _ Ef) as (_ & Hl & Hz). rewrite Nat.sub_0_r in Hl.
  exists nm. split; [done|]. split; [done|]. split; [done|]. split; [by apply (walk_parent_dir v n es d nm)|done].
Qed.

Lemma walk_parent_in v G n es d nm : tree_ok x v G -> G n -> walk_parent x v n es = Some (d, nm) -> G d.
Proof.
  intros Ht. revert n. induction es as [|e es IH]; intros n Hn; cbn [walk_parent]; [done|].
  destruct (is_dir x v n) eqn:E; [|done]. destruct es as [|e' es']; [by intros [= <- <-]|].
  destruct (dfind (take 14 e) (dir_entries x v n) 0) as [[pos n']|] eqn:Ef; [|done]. apply IH.
  destruct (dfind_lookup _ _ _ _ _ Ef) as (_ & Hl & Hz). apply (to_ents _ _ _ Ht n (n', take 14 e) Hn E); [|done].
  apply list_elem_of_lookup. eauto.
Qed.

(** What is known of a name before [unlink] removes it: a parent's link count covers its
    subdirectories, and a last link is the only one. *)
Definition link_ok v (G : Z -> Prop) (d : Z) (pos : nat) (m : Z) : Prop :=
  (is_dir x v m = true -> 2 <= d_nlink (dino x v d)) /\
  (d_nlink (dino x v m) = 1 -> forall n q e, G n -> n <> m -> is_dir x v n = true -> dir_entries x v n !! q = Some e -> e.1 = m ->
     n = d /\ q = pos).

(** The name of a path is gone from the tree: its entry is cleared, every other name leads
    where it led, the link was taken off the inode, and the tree is well formed. *)
Record unlinked v (G : Z -> Prop) w (d : Z) (pos : nat) (m : Z) (nm : bytes) (open : bool) : Prop := {
  un_removed : removed v G w d pos m open;
  un_gone : names_unique (dir_entries x v d) -> dfind nm (dir_entries x w d) 0 = None;
  un_names : forall nm', nm' <> nm -> dfind nm' (dir_entries x w d) 0 = dfind nm' (dir_entries x v d) 0;
  un_disk : disk_ok w (without v G m) }.

Lemma unlinked_of v G n es d pos m w open :
  disk_ok v G -> G n -> no_self v G -> unlink_finds v n es = Some (d, pos, m) -> link_ok v G d pos m ->
  removed v G w d pos m open -> exists nm, walk_parent x v n es = Some (d, nm) /\ unlinked v G w d pos m nm open.
Proof.
  intros Hdk HGn Hself Hf [Hdl Honly] Hrm. destruct (finds_entry _ _ _ _ _ _ Hf) as (nm & Hwp & Hl & Hm & Hdir & Hdot).
  exists nm. split; [done|]. pose proof (walk_parent_in v G n es d nm (dk_tree _ _ Hdk) HGn Hwp) as HGd.
  assert ((m, nm) ∈ dir_entries x v d) as Hin by (apply list_elem_of_lookup; eauto).
  pose proof (to_ents _ _ _ (dk_tree _ _ Hdk) d (m, nm) HGd Hdir Hin Hm) as HGm.
  assert (d <> m) as Hdm. { intros E. pose proof (Hself d (m, nm) HGd Hdir Hin (eq_sym E)) as Hd. cbn in Hd. congruence. }
  pose proof (cl_ents _ _ _ _ _ _ (rm_cleared _ _ _ _ _ _ _ Hrm)) as He.
  split; [done| | |by apply (removed_disk_ok v G w d pos m nm open)].
  - intros Hu. rewrite He. apply (dfind_skip nm _ 0 pos m nm Hl). intros q n' Hq Hz. by apply (Hu q pos n' m nm).
  - intros nm' Hne. rewrite He. by apply (dfind_keep nm' _ 0 pos m nm).
Qed.
(** ** Allocating an inode *)

(** The first free inode. *)
Definition first_inode v (ni : Z) : Prop :=
  1 <= ni < sb_ninodes x /\ d_type (dino x v ni) = 0 /\ forall k, 1 <= k < ni -> d_type (dino x v k) <> 0.

Definition blank_inode (ni type : Z) : inode := mkino ROOTDEV ni 0 initsleeplock true type 0 0 0 0 (replicate 13 0).

Lemma dinode_blank type major minor nlink :
  - 2 ^ 15 <= type < 2 ^ 15 -> - 2 ^ 15 <= major < 2 ^ 15 -> - 2 ^ 15 <= minor < 2 ^ 15 -> - 2 ^ 15 <= nlink < 2 ^ 15 ->
  dinode_ok (mkdi type major minor nlink 0 (replicate 13 0)).
Proof.
  intros Ht Hma Hmi Hn. split; [|split; [cbn; lia|split; [done|apply Forall_replicate; lia]]].
  intros z Hz. cbn [d_type d_major d_minor d_nlink] in Hz. rewrite !elem_of_cons in Hz.
  destruct Hz as [->|[->|[->|[->|Hz]]]]; [done..|by apply elem_of_nil in Hz].
Qed.

Lemma blank_ok ni type : 0 <= ni < sb_ninodes x -> 0 <= type < 2 ^ 15 -> inode_ok x (blank_inode ni type).
Proof. intros Hn Ht. split; [done|]. split; [done|]. apply (dinode_blank type 0 0 0); lia. Qed.

Lemma wp_ialloc_loop fuel k ni type Q (vs : fvars C) t :
  first_inode (t_view t) ni -> 1 <= k <= ni -> (Z.to_nat (ni - k) < fuel)%nat -> sb vs = x -> idle t -> (1 <= t_budget t)%nat ->
  wp (iget ROOTDEV ni) Q vs (with_view (iupdate_view x (t_view t) (blank_inode ni type)) 1 t) ->
  wp (ialloc_loop fuel ROOTDEV type k) Q vs t.
Proof using Hg.
  intros (Hr & Hz & Hall). revert k. induction fuel as [|fuel IH]; intros k Hk Hf Hsb Hid Hbud HQ; [lia|].
  cbn [ialloc_loop]. apply wp_bind, wp_getv. rewrite Hsb. destruct (Z.ltb_spec k (sb_ninodes x)); [|lia].
  pose proof (IBLOCK_range x Hg k ltac:(lia)) as Hb. pose proof (layout_order x Hg). pose proof (g_data _ Hg).
  apply wp_read; [done|apply (idle_can_read x Hg); [done|lia]|]. intros h. fold (dino x (t_view t) k).
  destruct (Z.eqb_spec (d_type (dino x (t_view t) k)) 0) as [E|E].
  - assert (k = ni) as ->. { destruct (decide (k = ni)); [done|]. exfalso. by apply (Hall k); [lia|]. }
    apply wp_put_block; [apply Hid|destruct Hid as [-> _]; done|lia|]. exact HQ.
  - apply wp_bind, wp_brelse_back; [apply Hid|destruct Hid as [-> _]; done|].
    assert (k <> ni) by (intros ->; done). apply IH; try done; lia.
Qed.

Lemma wp_ialloc ni type Q (vs : fvars C) t :
  first_inode (t_view t) ni -> sb vs = x -> idle t -> (1 <= t_budget t)%nat ->
  wp (iget ROOTDEV ni) Q vs (with_view (iupdate_view x (t_view t) (blank_inode ni type)) 1 t) ->
  wp (ialloc ROOTDEV type) Q vs t.
Proof using Hg.
  intros Hfi Hsb Hid Hbud HQ. apply wp_bind, wp_getv. rewrite Hsb. pose proof Hfi as (? & _).
  apply (wp_ialloc_loop _ 1 ni); try done; lia.
Qed.

(** [ilock] of an inode that was not loaded yet. *)
Lemma wp_ilock_load i ip p d Q (vs : fvars C) t :
  sb vs = x -> f_pid vs = Some p -> idle t -> icache vs !! i = Some ip -> i_dev ip = ROOTDEV -> 0 <= i_inum ip < sb_ninodes x ->
  locked (i_lock ip) = false -> 0 < i_ref ip -> i_valid ip = false -> dino x (t_view t) (i_inum ip) = d -> d_type d <> 0 ->
  Q tt (set_icache (<[i := load_inode d (with_valid true (with_lock (mksl true p) ip))]> (icache vs)) vs) t ->
  wp (ilock i) Q vs t.
Proof using Hg.
  intros Hsb Hpid Hid Hi Hd Hn Hl Hr Hval Ed Ht HQ. unfold ilock. apply wp_bind, (wp_get_ino i ip); [done|].
  destruct (Z.ltb_spec (i_ref ip) 1); [lia|]. assert (i < length (icache vs))%nat as Hil by (by eapply lookup_lt_Some).
  apply wp_bind. unfold ino_acquiresleep. apply wp_bind, (wp_get_ino i ip); [done|]. apply wp_bind, wp_getv.
  unfold acquiresleep. rewrite Hl, Hpid. apply wp_modv. set (ip1 := with_lock (mksl true p) ip). set (vs1 := set_icache _ vs).
  assert (icache vs1 !! i = Some ip1) as Hi1 by (by apply list_lookup_insert_eq).
  apply wp_bind, (wp_get_ino i ip1); [done|]. change (i_valid ip1) with (i_valid ip). rewrite Hval.
  apply wp_bind, wp_getv. change (sb vs1) with (sb vs). rewrite Hsb. change (i_inum ip1) with (i_inum ip).
  pose proof (IBLOCK_range x Hg (i_inum ip) Hn) as Hb. pose proof (layout_order x Hg). pose proof (g_data _ Hg).
  apply wp_read; [done|apply (idle_can_read x Hg); [done|lia]|]. intros h. cbv zeta. fold (dino x (t_view t) (i_inum ip)). rewrite Ed.
  apply wp_bind, (wp_mod_ino i ip1); [done|].
  apply wp_bind, wp_brelse_back; [apply Hid|destruct Hid as [-> _]; done|].
  apply wp_bind, (wp_mod_ino i (load_inode d ip1)); [cbn; apply list_lookup_insert_eq; by rewrite length_insert|].
  destruct (Z.eqb_spec (d_type d) 0); [done|]. apply wp_ret. unfold vs1. cbn [icache set_icache]. rewrite !list_insert_insert_eq. exact HQ.
Qed.

(** The tree with a new inode that is no directory and has no blocks. *)
Lemma disk_ok_new v w (G : Z -> Prop) ni type major minor :
  disk_ok v G -> blocks_ok x w -> ~ G ni -> 0 <= ni < sb_ninodes x -> 0 < type < 2 ^ 15 -> type <> T_DIR ->
  - 2 ^ 15 <= major < 2 ^ 15 -> - 2 ^ 15 <= minor < 2 ^ 15 ->
  (forall n, G n -> stays v w n) -> dino x w ni = mkdi type major minor 1 0 (replicate 13 0) ->
  disk_ok w (fun n => G n \/ n = ni).
Proof.
  intros [K1 K2 K3 K4 K5] Hok Hni Hr Ht Htd Hma Hmi Hs Ed.
  assert (daddrs w ni = replicate 13 0) as Ea by (unfold daddrs; by rewrite Ed).
  assert (is_dir x w ni = false) as Hnd by (unfold is_dir; rewrite Ed; by apply Z.eqb_neq).
  assert (forall b, ~ owns w (replicate 13 0) b) as Hno.
  { intros b [Hnz [E|(bn & Hbn & E)]]; [done|]. subst b. unfold blk in Hnz. change (ind (replicate 13 0)) with 0 in Hnz. cbn [Z.eqb] in Hnz.
    destruct (bn <? NDIRECT); [|done]. apply Hnz. unfold nth_addr. destruct (replicate 13 0 !! Z.to_nat bn) as [z|] eqn:E; [|done].
    by apply lookup_replicate in E as [-> _]. }
  assert (forall n, G n -> file_ok x w (daddrs w n) /\ forall b, owns w (daddrs w n) b <-> owns v (daddrs v n) b) as Hf.
  { intros n Hn. apply (same_file_ok v w n); [by apply Hs|by apply K3]. }
  split; [done| | | |].
  - split.
    + intros n [Hn| ->]; [by apply (to_range _ _ _ K2)|done].
    + intros n [Hn| ->]; [destruct (Hs n Hn) as [_ ->]; by apply (to_type _ _ _ K2)|rewrite Ed; cbn; lia].
    + intros n [Hn| ->] Hd; [|congruence]. destruct (Hs n Hn) as [Hsf Hdn].
      assert (is_dir x v n = true) as Hdv by (unfold is_dir in *; by rewrite <-Hdn).
      destruct (to_dir _ _ _ K2 n Hn Hdv) as (Hfv & Hh & Hdok). destruct (same_file_dir v w n Hsf Hfv Hh) as (_ & ? & Hdw & _).
      split; [by apply Hf|auto].
    + intros n e [Hn| ->] Hd He Hz; [|congruence]. destruct (Hs n Hn) as [Hsf Hdn].
      assert (is_dir x v n = true) as Hdv by (unfold is_dir in *; by rewrite <-Hdn).
      destruct (to_dir _ _ _ K2 n Hn Hdv) as (Hfv & Hh & Hdok). destruct (same_file_dir v w n Hsf Hfv Hh) as (E & _).
      rewrite E in He. left. by apply (to_ents _ _ _ K2 n).
  - intros n [Hn| ->]; [by apply Hf|]. rewrite Ea. split; [done| |done|].
    + intros bn Hbn Hnz. exfalso. apply (Hno (blk w (replicate 13 0) bn)). split; [done|]. right. eauto.
    + intros bn bn' Hbn Hbn' Hnz _. exfalso. apply (Hno (blk w (replicate 13 0) bn)). split; [done|]. right. eauto.
  - intros n [Hn| ->]; [destruct (Hs n Hn) as [_ ->]; by apply K4|]. rewrite Ed. split; [apply dinode_blank; lia|cbn; lia].
  - intros n m b [Hn| ->] [Hm| ->] Hne; rewrite ?Ea; intros Hb1 Hb2; try (by apply (Hno b)).
    exact (K5 n m b Hn Hm Hne (proj1 (proj2 (Hf n Hn) b) Hb1) (proj1 (proj2 (Hf m Hm) b) Hb2)).
Qed.

(** ** A new name *)

Lemma s16_range z : - 2 ^ 15 <= s16 z < 2 ^ 15.
Proof. unfold s16, wrap. pose proof (Z.mod_pos_bound (z + 2 ^ 15) (2 ^ 16) ltac:(lia)). lia. Qed.

Record created v (G : Z -> Prop) w (d : Z) (nm : bytes) (ni type major minor : Z) : Prop := {
  cr_dino : dino x w ni = mkdi type major minor 1 0 (replicate 13 0);
  cr_others : forall n, G n -> n <> d -> stays v w n;
  cr_type : d_type (dino x w d) = d_type (dino x v d);
  cr_ents : dir_entries x w d = dput (free_slot (dir_entries x v d)) (ni, nm) (dir_entries x v d);
  cr_find : exists pos, dfind nm (dir_entries x w d) 0 = Some (pos, ni);
  cr_names : forall nm', nm' <> nm -> dfind nm' (dir_entries x w d) 0 = dfind nm' (dir_entries x v d) 0;
  cr_disk : disk_ok w (fun n => G n \/ n = ni) }.

Lemma elem_dput k e (ds : list (Z * bytes)) e' : e' ∈ dput k e ds -> e' = e \/ e' ∈ ds.
Proof.
  unfold dput. case_decide.
  - intros [q Hq]%list_elem_of_lookup. apply list_lookup_insert_Some in Hq as [(_ & <- & _)|[_ Hq]]; [by left|right].
    apply list_elem_of_lookup. eauto.
  - rewrite elem_of_app, list_elem_of_singleton. tauto.
Qed.

Lemma created_of v (G : Z -> Prop) w1 w d dp dp' nm ni type major minor off bs :
  let G1 := fun n => G n \/ n = ni in
  disk_ok v G -> disk_ok w1 G1 -> ~ G ni -> ni <> 0 -> G d -> is_dir x v d = true -> (forall n, G n -> stays v w1 n) ->
  dino x w1 ni = mkdi type major minor 1 0 (replicate 13 0) ->
  i_inum dp = d -> dinode_of dp = dino x v d -> inode_ok x dp' -> dir_ok dp' ->
  dp' = with_size (i_size dp') (with_addrs (i_addrs dp') dp) -> written x w1 dp w dp' off bs ->
  dents w dp' = dput (free_slot (dir_entries x v d)) (ni, nm) (dir_entries x v d) ->
  dfind nm (dir_entries x v d) 0 = None ->
  created v G w d nm ni type major minor.
Proof.
  intros G1 Hdk Hdk1 Hni Hn0 HGd Hdir Hst Edn Hinum Edp Hino' Hdok' Hdp' Hw Hents Hnone.
  destruct (Hst d HGd) as [Hsd Edd].
  assert (i_addrs dp = daddrs w1 d) as Eaddr by (unfold daddrs; by rewrite Edd, <-Edp).
  assert (dino x w d = dinode_of dp') as Ewd by (rewrite <-Hinum; apply Hw).
  assert (dir_entries x w d = dents w dp') as Edir by (apply dents_ext; [by change (d_size (dino x w d) = i_size dp'); rewrite Ewd|by change (d_addrs (dino x w d) = i_addrs dp'); rewrite Ewd]).
  assert (d_type (dino x w d) = d_type (dino x v d) /\ d_nlink (dino x w d) = d_nlink (dino x v d)) as [Et En].
  { rewrite Ewd, Hdp', <-Edp. done. }
  assert (forall n, G1 n -> n <> d -> stays w1 w n) as Hother.
  { intros n Hn Hne. apply (written_other w1 dp w dp' off bs n Hw); try congruence.
    - by apply (to_range _ _ _ (dk_tree _ _ Hdk1)).
    - by apply (dk_file _ _ Hdk1).
    - intros b Hb. rewrite Eaddr. intros Hb'. apply (dk_disj _ _ Hdk1 n d b); try done. by left. }
  destruct (dfind_dput nm ni (dir_entries x v d) 0 Hn0 Hnone) as [Hf1 Hf2]. rewrite <-Hents, <-Edir in Hf1, Hf2.
  assert (is_dir x w d = true) as Hdw by (unfold is_dir in *; by rewrite Et).
  split.
  - destruct (Hother ni) as [_ ->]; [by right|intros ->; done|done].
  - intros n Hn Hne. apply (stays_trans v w1 w n); [by apply (dk_file _ _ Hdk)|by apply Hst|apply Hother; [by left|done]].
  - done.
  - by rewrite Edir.
  - eauto.
  - exact Hf2.
  - apply (disk_ok_step w1 w G1 G1 d); try done.
    + apply Hw.
    + intros n Hn Hne. by apply Hother.
    + intros _. split; [by rewrite Et, Edd|]. unfold daddrs. rewrite Ewd. split; [apply Hw|]. split.
      * intros b Hb. rewrite Edd. fold (daddrs v d). rewrite <-(sf_addrs _ _ _ Hsd), <-Eaddr. by apply (wn_own _ _ _ _ _ _ _ Hw).
      * intros _. split.
        -- apply (no_holes_ext w dp'); [by change (i_size dp' = d_size (dino x w d)); rewrite Ewd|by change (i_addrs dp' = d_addrs (dino x w d)); rewrite Ewd|apply Hw].
        -- unfold dir_ok in *. change (i_type (disk_inode x w d)) with (d_type (dino x w d)). change (i_size (disk_inode x w d)) with (d_size (dino x w d)).
           by rewrite Ewd.
    + intros n Hn. destruct (decide (n = d)) as [->|Hne].
      * rewrite En. split; [rewrite Ewd; apply Hino'|]. by apply (dk_dino _ _ Hdk).
      * destruct (Hother n Hn Hne) as [_ ->]. by apply (dk_dino _ _ Hdk1).
    + intros n e Hn Hd He Hz. destruct (decide (n = d)) as [->|Hne].
      * rewrite Edir, Hents in He. apply elem_dput in He as [->|He]; [by right|].
        left. by apply (to_ents _ _ _ (dk_tree _ _ Hdk) d e HGd Hdir).
      * destruct (Hother n Hn Hne) as [Hsf Hdn].
        assert (is_dir x w1 n = true) as Hdv by (unfold is_dir in *; by rewrite <-Hdn).
        destruct (to_dir _ _ _ (dk_tree _ _ Hdk1) n Hn Hdv) as (Hfv & Hh & _). destruct (same_file_dir w1 w n Hsf Hfv Hh) as (E & _).
        rewrite E in He. by apply (to_ents _ _ _ (dk_tree _ _ Hdk1) n).
Qed.

(** The new name is found by a path lookup. *)
Lemma created_walk v G w d nm ni type major minor n es :
  disk_ok v G -> G n -> created v G w d nm ni type major minor -> dfind nm (dir_entries x v d) 0 = None ->
  walk_parent x v n es = Some (d, nm) -> walk_path x w n es = Some ni.
Proof.
  intros Hdk Hn Hcr Hnone. revert n Hn. induction es as [|e es IH]; intros n Hn; cbn [walk_parent walk_path]; [done|].
  pose proof (dk_tree _ _ Hdk) as Ht. destruct (is_dir x v n) eqn:Ed; [|done].
  assert (is_dir x w n = true /\ forall nm', nm' <> nm -> dfind nm' (dir_entries x w n) 0 = dfind nm' (dir_entries x v n) 0) as [Edw Hsame].
  { destruct (decide (n = d)) as [->|Hne].
    - split; [|apply (cr_names _ _ _ _ _ _ _ _ _ Hcr)]. unfold is_dir in *. by rewrite (cr_type _ _ _ _ _ _ _ _ _ Hcr).
    - destruct (cr_others _ _ _ _ _ _ _ _ _ Hcr n Hn Hne) as [Hsf Hdn]. destruct (to_dir _ _ _ Ht n Hn Ed) as (Hf & Hh & _).
      destruct (same_file_dir v w n Hsf Hf Hh) as (-> & _ & _ & ->). done. }
  rewrite Edw. destruct es as [|e' es'].
  - intros [= -> <-]. destruct (cr_find _ _ _ _ _ _ _ _ _ Hcr) as [pos ->]. done.
  - destruct (dfind (take 14 e) (dir_entries x v n) 0) as [[pos n']|] eqn:Ef; [|done]. intros Hwp.
    assert (dfind (take 14 e) (dir_entries x w n) 0 = Some (pos, n')) as ->.
    { rewrite <-Ef. destruct (decide (n = d)) as [->|Hne].
      - apply Hsame. intros E. rewrite E in Ef. congruence.
      - destruct (cr_others _ _ _ _ _ _ _ _ _ Hcr n Hn Hne) as [Hsf Hdn]. destruct (to_dir _ _ _ Ht n Hn Ed) as (Hf & Hh & _).
        by destruct (same_file_dir v w n Hsf Hf Hh) as (-> & _). }
    apply IH; [|done]. destruct (dfind_lookup _ _ _ _ _ Ef) as (_ & Hl & Hz).
    apply (to_ents _ _ _ Ht n (n', take 14 e) Hn Ed); [|done]. apply list_elem_of_lookup. eauto.
Qed.

Section create.
Context (v : Z -> bytes) (G : Z -> Prop) (Hdk : disk_ok v G) (Hroot : G ROOTINO)
  (p : Z) (Hp : p <> -1) (R0 : list Z) (a b : nat) (Hab : a <> b) (Ha : R0 !! a = Some 0) (Hb : R0 !! b = Some 0)
  (ni : Z) (Hni : first_inode v ni) (Hni16 : sb_ninodes x <= 2 ^ 16).

Let Htree := dk_tree v G Hdk.

Lemma new_not_in : ~ G ni.
Proof using Hdk Hni. intros HG. destruct (to_type _ _ _ Htree ni HG) as [Ht _]. by destruct Hni as (_ & ? & _). Qed.

(** There is room for one more entry in directory [d]. *)
Definition entry_room (d : Z) : Prop :=
  nfree x v 2 /\ DIRENT * Z.of_nat (free_slot (dir_entries x v d)) + DIRENT <= MAXFILE * BSIZE.

(** Directory [d] is locked in slot [j], the new inode [ni] in slot [k]: what is in memory after
    its fields are set and written. *)
Lemma wp_new_inode {A} c j ip type major minor t (K : nat -> M (fsstate S C) A) (Q : A -> fvars C -> tx H -> Prop) (vs : fvars C) :
  0 < type < 2 ^ 15 -> - 2 ^ 15 <= major < 2 ^ 15 -> - 2 ^ 15 <= minor < 2 ^ 15 ->
  cache_ok x v G None c -> holds R0 j (i_inum ip) c -> c !! j = Some ip ->
  sb vs = x -> f_pid vs = Some p -> icache vs = <[j := loaded x v p ip]> c -> idle t -> t_view t = v -> (2 <= t_budget t)%nat ->
  (forall k kp w, k <> j -> c !! k = Some kp -> i_ref kp = 0 -> blocks_ok x w ->
     (forall n, G n -> stays v w n) -> dino x w ni = mkdi type major minor 1 0 (replicate 13 0) ->
     (forall q, 0 <= q < sb_size x -> used x w q = used x v q) ->
     forall kp', locked_as w p ni 1 kp' -> wp (K k) Q (set_icache (<[k := kp']> (icache vs)) vs) (with_view w 2 t)) ->
  wp (i ← ialloc ROOTDEV type; ilock i;; mod_ino i (with_node major minor);; iupdate i;; K i) Q vs t.
Proof using Hg Hdk Hab Ha Hb Hni.
  intros Hty Hma Hmi Hc Hh Hj Hsb Hpid Hic Hid Hv Hbud HQ. pose proof new_not_in as Hnot. destruct Hni as (Hnr & Hn0 & _).
  pose proof Hh as (ip0 & r & Hj0 & _ & HR & Hr0 & Hr & Hrefs). rewrite Hj in Hj0. injection Hj0 as <-.
  assert (j < length c)%nat as Hjl by (by eapply lookup_lt_Some). pose proof (dk_blocks _ _ Hdk) as Hok.
  destruct (proj1 Hc j ip Hj) as (_ & _ & He). destruct (He ltac:(lia)) as (Hd & HGd & _).
  pose proof (blank_ok ni type ltac:(lia) ltac:(lia)) as Hbl.
  set (w0 := iupdate_view x v (blank_inode ni type)). assert (blocks_ok x w0) as Hok0 by (by apply iupdate_blocks).
  assert (forall n, G n -> stays v w0 n) as Hst0.
  { intros n Hn. apply iupdate_other; try done; [by apply (to_range _ _ _ Htree)|by apply (dk_file _ _ Hdk)|]. intros ->. done. }
  assert (dino x w0 ni = mkdi type 0 0 0 0 (replicate 13 0)) as Ed0.
  { destruct (iupdate_view_ok x Hg v (blank_inode ni type) Hok Hbl) as (D1 & _). exact D1. }
  apply wp_bind, (wp_ialloc ni); rewrite ?Hv; try done; [lia|]. fold w0.
  apply wp_iget.
  { destruct (other_slot R0 a b Hab Ha Hb j (r + 1) c Hrefs) as (q & qp & Hq & Hqj & Hz).
    exists q, qp. rewrite Hic, list_lookup_insert_ne by done. auto. }
  intros k kp kp' Hk Hcase. rewrite Hic in Hk, Hcase.
  assert (k <> j /\ i_ref kp = 0 /\ kp' = fresh_inode ROOTDEV ni kp) as (Hkj & Hz & ->).
  { destruct (decide (k = j)) as [->|Hkj].
    - rewrite list_lookup_insert_eq in Hk by done. injection Hk as <-. exfalso.
      destruct Hcase as [[(_ & _ & E) _]|(_ & E & _)]; [|cbn in E; lia]. cbn in E. apply Hnot. by rewrite <-E.
    - rewrite list_lookup_insert_ne in Hk by done. destruct Hcase as [[(Hcr & _ & E) _]|(_ & ? & ?)]; [|done].
      exfalso. apply Hnot. rewrite <-E. by apply (proj1 Hc k kp Hk). }
  rewrite list_lookup_insert_ne in Hk by done. assert (k < length c)%nat as Hkl by (by eapply lookup_lt_Some).
  assert (k < length (icache vs))%nat as Hkl' by (rewrite Hic, length_insert; done).
  destruct (proj1 Hc k kp Hk) as (_ & Hul & _).
  set (kp1 := fresh_inode ROOTDEV ni kp). set (d0 := mkdi type 0 0 0 0 (replicate 13 0)).
  apply wp_bind, (wp_ilock_load k kp1 p d0); try done; [by apply list_lookup_insert_eq|cbn; lia|apply Hul; by rewrite bool_decide_false|cbn; lia|].
  cbn [icache set_icache]. rewrite list_insert_insert_eq. set (kp2 := load_inode d0 _).
  apply wp_bind, (wp_mod_ino k kp2); [by apply list_lookup_insert_eq|]. cbn [icache set_icache]. rewrite list_insert_insert_eq.
  set (kp3 := with_node major minor kp2).
  assert (inode_ok x kp3) as Hino3 by (split; [done|split; [cbn; lia|apply (dinode_blank type major minor 1); lia]]).
  apply wp_bind, (wp_iupdate x Hg k kp3); try done; [by apply list_lookup_insert_eq|cbn [t_budget with_view]; lia|].
  cbn [t_view with_view]. rewrite with_view_view.
  destruct (iupdate_view_ok x Hg w0 kp3 Hok0 Hino3) as (D1 & _).
  apply (HQ k kp (iupdate_view x w0 kp3)); try done.
  - by apply iupdate_blocks.
  - intros n Hn. apply (stays_trans v w0 _ n); [by apply (dk_file _ _ Hdk)|by apply Hst0|].
    apply iupdate_other; try done; [by apply (to_range _ _ _ Htree)|apply (stays_file v w0 n); [by apply Hst0|by apply (dk_file _ _ Hdk)]|]. intros ->. done.
  - intros q Hq. rewrite iupdate_used by done. unfold w0. by rewrite iupdate_used.
Qed.

(** What [mknod] of a path from the directory [n] does. *)
Definition mknod_post (n : Z) (es : list bytes) (type major minor : Z) (t : tx H) (r : Z) (vs : fvars C) (t' : tx H) : Prop :=
  match walk_parent x v n es with
  | None => r = -1 /\ t' = t /\ calm_state p R0 v G vs
  | Some (d, nm) =>
      match dfind nm (dir_entries x v d) 0 with
      | Some _ => r = -1 /\ t' = t /\ calm_state p R0 v G vs
      | None => r = 0 /\ idle t' /\ created v G (t_view t') d nm ni type major minor /\
          calm_state p R0 (t_view t') (fun m => G m \/ m = ni) vs
      end
  end.

(** The name exists: [create] for a device gives everything back. *)
Lemma wp_create_exists c j ip m t (Q : option nat -> fvars C -> tx H -> Prop) (vs : fvars C) :
  cache_ok x v G None c -> holds R0 j (i_inum ip) c -> c !! j = Some ip -> G m ->
  sb vs = x -> f_pid vs = Some p -> icache vs = <[j := loaded x v p ip]> c -> idle t -> t_view t = v ->
  (forall vs', calm_state p R0 v G vs' -> Q None vs' t) ->
  wp (iget ROOTDEV m) (fun i vs' t' => wp (iunlockput j;; ilock i;; ip ← get_ino i;
        if (T_DEVICE =? T_FILE) && ((i_type ip =? T_FILE) || (i_type ip =? T_DEVICE)) then ret (Some i)
        else iunlockput i;; ret None) Q vs' t') vs t.
Proof using Hg Hdk Hp Hab Ha Hb.
  intros Hc Hh Hj HGm Hsb Hpid Hic Hid Hv HQ. pose proof Hh as (ip0 & r & Hj0 & _ & HR & Hr0 & Hr & Hrefs).
  rewrite Hj in Hj0. injection Hj0 as <-.
  destruct (proj1 Hc j ip Hj) as (_ & _ & He). destruct (He ltac:(lia)) as (Hd & HGd & _).
  apply wp_iget.
  { destruct (other_slot R0 a b Hab Ha Hb j (r + 1) c Hrefs) as (q & qp & Hq & Hqj & Hz).
    exists q, qp. rewrite Hic, list_lookup_insert_ne by done. auto. }
  rewrite Hic. intros k kp kp' Hk Hcase.
  destruct (step_down x v G p R0 a b Hab j ip k kp kp' c m Hc Hh Hj HGm Hk Hcase) as (ip2 & Hi2 & Hl2 & Hr2 & Hnl2 & Hc3 & Hh3).
  apply wp_bind, (wp_iunlockput j ip2 p); try done.
  { rewrite Hnl2. by apply (to_type _ _ _ Htree). }
  cbn [icache set_icache]. set (c3 := <[j := with_ref _ _]> _) in *. pose proof Hh3 as (mp & rm & Hm & Hnm & HRm & Hrm0 & Hrm & Hrefs3). subst m.
  pose proof (proj1 Hc3 k mp Hm) as Hent.
  apply wp_bind, (wp_ilock x Hg v G Htree k mp p); try done; [lia|]. intros mp' ->. fold (loaded x v p mp).
  assert (k < length c3)%nat as Hkl by (by eapply lookup_lt_Some).
  apply wp_bind, (wp_get_ino k (loaded x v p mp)); [by apply list_lookup_insert_eq|]. cbn [Z.eqb Pos.eqb T_DEVICE T_FILE andb].
  destruct (drop_ref x v G p R0 a b Hab k mp c3 Hc3 Hh3 Hm) as [Hdc Hdr].
  apply wp_bind, (wp_iunlockput k (loaded x v p mp) p); try done; [by apply list_lookup_insert_eq|cbn; lia|by apply (to_type _ _ _ Htree)|].
  apply wp_ret. cbn [icache set_icache]. rewrite list_insert_insert_eq. apply HQ. split; [|exact Hdr]. split; [done|]. split; [done|exact Hdc].
Qed.

Lemma wp_mknod_tx path major minor n (vs : fvars C) t :
  (forall d nm, walk_parent x v n (elems path) = Some (d, nm) -> dfind nm (dir_entries x v d) 0 = None -> entry_room d) ->
  (9 <= t_budget t)%nat -> Forall (fun ch => ch <> 0) path -> idle t -> t_view t = v ->
  calm_state p R0 v G vs -> starts path vs n ->
  wp (mknod_tx path major minor) (mknod_post n (elems path) T_DEVICE (s16 major) (s16 minor) t) vs t.
Proof using Hg Hdk Hroot Hp Hab Ha Hb Hni Hni16.
  intros Hroom Hbud Hpath Hid Hv [Hps HR] Hst. pose proof (dk_blocks _ _ Hdk) as Hok. pose proof new_not_in as Hnot.
  unfold mknod_post in *. unfold mknod_tx, create. apply wp_bind.
  apply wp_bind, (wp_namex x Hg v Hok G Htree Hroot p Hp R0 a b Hab Ha Hb path true name_buf n); try done.
  intros o nm vs1 Hps1 Hfound. unfold found in Hfound. destruct (walk_parent x v n (elems path)) as [[d e]|] eqn:Ewp.
  2: { destruct Hfound as [-> HR1]. apply wp_ret, wp_ret. done. }
  destruct Hfound as (j & -> & <- & Hh). pose proof Hps1 as (Hsb1 & Hpid1 & Hc1). set (c := icache vs1) in *.
  pose proof Hh as (ip & rj & Hj & Hn & HRj & Hrj & Hrip & Hrefs). subst d.
  pose proof (walk_parent_dir _ _ _ _ _ Ewp) as Hdir.
  pose proof (proj1 Hc1 j ip Hj) as Hent. pose proof Hent as (_ & _ & He). destruct (He ltac:(lia)) as (Hdev & HGd & _).
  apply wp_bind, (wp_ilock x Hg v G Htree j ip p); try done; [lia|]. intros ip' ->. fold (loaded x v p ip). fold c.
  set (vs2 := set_icache _ vs1). destruct (to_dir _ _ _ Htree _ HGd Hdir) as (Hf & Hnh & Hdok).
  assert (j < length c)%nat as Hjl by (by eapply lookup_lt_Some).
  assert (icache vs2 !! j = Some (loaded x v p ip)) as Hj2 by (by apply list_lookup_insert_eq).
  apply wp_bind, (wp_dirlookup x Hg j (loaded x v p ip) t Hdev Hid); rewrite ?Hv; try done.
  change (dents v (loaded x v p ip)) with (dir_entries x v (i_inum ip)).
  intros vs3 Hs3 _. destruct (same_fs_fields _ _ Hs3) as (Es3 & Ep3 & Ec3).
  destruct (dfind (name14 nm) (dir_entries x v (i_inum ip)) 0) as [[pos m]|] eqn:Efind.
  { destruct (dfind_lookup _ _ _ _ _ Efind) as (_ & Hpos & Hm0). rewrite Nat.sub_0_r in Hpos.
    assert (G m) as HGm by (apply (to_ents _ _ _ Htree _ (m, name14 nm) HGd Hdir); [apply list_elem_of_lookup; eauto|done]).
    apply wp_bind. eapply wp_mono; [apply (wp_create_exists c j ip m t (fun o vs' t' => o = None /\ t' = t /\ calm_state p R0 v G vs')); try done; by etransitivity|].
    intros i vs' t' Hw. apply wp_ret. eapply wp_mono; [exact Hw|]. cbn beta. intros o vs4 t4 (-> & -> & Hcs). by apply wp_ret. }
  destruct (Hroom _ _ eq_refl Efind) as [Hnf Hmax].
  apply wp_bind, (wp_get_ino j (loaded x v p ip)); [by rewrite Ec3|]. change (i_dev (loaded x v p ip)) with (i_dev ip). rewrite Hdev.
  pose proof (s16_range major) as Hma. pose proof (s16_range minor) as Hmi.
  apply (wp_new_inode c j ip T_DEVICE (s16 major) (s16 minor) t); try done; try lia; try (by etransitivity).
  intros k kp w Hkj Hk Hkz Hokw Hst1 Edn Hused kp' Lk. set (vs4 := set_icache _ vs3).
  assert (icache vs4 = <[k := kp']> (<[j := loaded x v p ip]> c)) as Ec4 by (unfold vs4; cbn; by rewrite Ec3).
  assert (k < length c)%nat as Hkl by (by eapply lookup_lt_Some).
  set (dp := loaded x v p ip) in *.
  assert (icache vs4 !! k = Some kp' /\ icache vs4 !! j = Some dp) as [Hk4 Hj4].
  { rewrite Ec4. split; [apply list_lookup_insert_eq; by rewrite length_insert|].
    rewrite list_lookup_insert_ne by done. by apply list_lookup_insert_eq. }
  pose proof (loaded_locked v p ip (rj + 1) Hdev Hrip) as Lj. fold dp in Lj.
  destruct (la_fields _ _ _ _ _ Lj) as (J1 & J2 & J3 & J4). destruct (la_fields _ _ _ _ _ Lk) as (K1 & K2 & K3 & K4). rewrite Edn in K2.
  destruct (Hst1 _ HGd) as [Hsd Edd]. destruct (same_file_dir v w _ Hsd Hf Hnh) as (Ede & Hnhw & _).
  destruct (same_file_ok v w _ Hsd Hf) as [Hfw _].
  assert (dents w dp = dir_entries x v (i_inum ip)) as Edents.
  { rewrite <-Ede. apply dents_ext; [change (i_size dp = d_size (dino x w (i_inum ip))); by rewrite Edd|change (i_addrs dp = d_addrs (dino x w (i_inum ip))); by rewrite Edd]. }
  apply wp_bind, (wp_get_ino k kp'); [done|]. cbn [Z.eqb Pos.eqb T_DEVICE T_DIR when]. apply wp_bind, wp_ret.
  rewrite (la_inum _ _ _ _ _ Lk). apply wp_bind.
  destruct (Hni) as (Hnr & _ & _).
  apply (wp_dirlink_new x Hg j dp nm ni); cbn [t_view with_view t_budget]; rewrite ?Edents; try done; try lia.
  { unfold vs4. cbn. by etransitivity. }
  { by apply (la_inode_ok v G p (i_inum ip) (rj + 1)). }
  { change (i_addrs dp) with (daddrs v (i_inum ip)). by rewrite <-(sf_addrs _ _ _ Hsd). }
  { apply (no_holes_ext w (disk_inode x w (i_inum ip))); [change (d_size (dino x w (i_inum ip)) = i_size dp); by rewrite Edd|change (d_addrs (dino x w (i_inum ip)) = i_addrs dp); by rewrite Edd|done]. }
  { destruct Hnf as (fl & N1 & N2 & N3). exists fl. split; [done|]. split; [done|]. eapply Forall_impl; [exact N3|].
    intros q [Hq Hu]. split; [done|]. by rewrite Hused. }
  intros vs5 dp' w' nb bs Hnb Hs5 Hino' Hdok' Hdp' Hw' Hents. cbn [Z.ltb Z.compare].
  rewrite (u16_small ni) in Hents by lia.
  destruct (same_fs_fields _ _ Hs5) as (Es5 & Ep5 & Ec5). cbn [sb f_pid icache set_icache vs4] in Es5, Ep5. cbn [icache set_icache] in Ec5.
  assert (i_lock dp' = mksl true p /\ i_ref dp' = rj + 1 /\ i_nlink dp' = i_nlink dp /\ i_inum dp' = i_inum ip /\ i_dev dp' = ROOTDEV) as (L5 & R5 & N5 & I5 & D5).
  { rewrite Hdp'. cbn. done. }
  apply wp_bind, (wp_iunlockput j dp' p); try done.
  { by rewrite Ep5; etransitivity. }
  { rewrite Ec5. apply list_lookup_insert_eq. by rewrite Ec4, !length_insert. }
  { lia. }
  { rewrite N5, J2. by apply (to_type _ _ _ Htree). }
  apply wp_ret. set (fj := with_ref _ (with_lock _ dp')).
  assert (<[j := fj]> (icache vs5) = <[k := kp']> (<[j := fj]> c)) as Ec6.
  { rewrite Ec5, list_insert_insert_eq, Ec4. rewrite (list_insert_insert_ne _ j k) by done. by rewrite list_insert_insert_eq. }
  cbn [icache set_icache]. rewrite Ec6.
  apply wp_bind, (wp_iunlockput k kp' p); try done.
  { cbn. rewrite Ep5. by etransitivity. }
  { cbn. apply list_lookup_insert_eq. by rewrite length_insert. }
  { apply Lk. }
  { rewrite (la_ref _ _ _ _ _ Lk). lia. }
  { rewrite K2. done. }
  apply wp_ret. cbn [icache set_icache]. rewrite list_insert_insert_eq. set (fk := with_ref _ (with_lock _ kp')).
  assert (disk_ok w (fun m => G m \/ m = ni)) as Hdk1.
  { apply (disk_ok_new v w G ni T_DEVICE (s16 major) (s16 minor)); try done; lia. }
  assert (created v G w' (i_inum ip) (name14 nm) ni T_DEVICE (s16 major) (s16 minor)) as Hcr.
  { apply (created_of v G w w' (i_inum ip) dp dp' (name14 nm) ni _ _ _ (DIRENT * Z.of_nat (free_slot (dir_entries x v (i_inum ip)))) bs); try done. lia. }
  split; [done|]. split; [exact Hid|]. split; [exact Hcr|].
  assert (i_ref fj = rj /\ i_ref fk = 0) as [Rfj Rfk] by (cbn; rewrite (la_ref _ _ _ _ _ Lk); lia).
  assert (dino x w' (i_inum ip) = dinode_of dp') as Ewd by (apply (wn_dino _ _ _ _ _ _ _ Hw')).
  split; [split; [|split]|].
  - cbn. by rewrite Es5; etransitivity.
  - cbn. by rewrite Ep5; etransitivity.
  - cbn [icache set_icache]. apply (cache_two v w' G _ c j k ip kp fj fk (i_inum ip) ni); try done.
    + intros E. by rewrite E in HGd.
    + apply uniq_only; [apply Hc1|done|lia].
    + intros q qp Hq Hrq E. exfalso. apply Hnot. rewrite <-E. by apply (proj1 Hc1 q qp Hq).
    + split; [lia|]. split; [done|]. intros _. split; [done|]. split; [left; cbn; by rewrite I5|]. intros _. cbn [i_inum fj with_ref with_lock]. rewrite I5, Ewd. done.
    + split; [lia|]. split; [done|]. rewrite Rfk. lia.
    + apply Lk.
    + intros m Hm Hmd Hmn. split; [by left|]. by destruct (cr_others _ _ _ _ _ _ _ _ _ Hcr m Hm Hmd).
  - cbn [icache set_icache]. rewrite !refs_insert, Hrefs, Rfj, Rfk, list_insert_insert_eq, (list_insert_id R0 j) by done.
    apply list_insert_id. assert (refs c !! k = Some 0) as E by (unfold refs; by rewrite list_lookup_fmap, Hk, <-Hkz).
    by rewrite Hrefs, list_lookup_insert_ne in E by done.
Qed.
End create.

End disk.

(** * unlink over the log *)



(** ** Examples *)

Import MemDisk.

Lemma owns_single v k b : owns v (k :: replicate 12 0) b -> b = k.
Proof.
  intros [Hnz [E|(bn & Hbn & E)]]; [done|]. subst b. unfold blk in *. change (ind (k :: replicate 12 0)) with 0 in *. cbn [Z.eqb] in *.
  destruct (Z.ltb_spec bn NDIRECT); [|done]. unfold nth_addr in *. destruct (decide (bn = 0)) as [->|Hne]; [done|].
  rewrite lookup_cons_ne_0 in Hnz by lia. exfalso. apply Hnz.
  destruct (replicate 12 0 !! pred (Z.to_nat bn)) as [z|] eqn:E; [|done]. by apply lookup_replicate in E as [-> _].
Qed.

Lemma image_disk_ok : disk_ok Image.sblk Image.disk0 image_tree.
Proof.
  destruct image_dino as [E1 E2].
  assert (daddrs Image.sblk Image.disk0 1 = 35 :: replicate 12 0 /\ daddrs Image.sblk Image.disk0 2 = 36 :: replicate 12 0) as [A1 A2].
  { unfold daddrs. by rewrite E1, E2. }
  split.
  - apply Image.blocks0.
  - apply image_tree_ok.
  - intros n [->| ->]; rewrite ?A1, ?A2; apply Image.file_ok0; lia.
  - intros n [->| ->]; rewrite ?E1, ?E2; (split; [apply Image.dinode_ok0; unfold T_DIR; lia|cbn; lia]).
  - intros n m b [->| ->] [->| ->] Hne; rewrite ?A1, ?A2; try done; intros ->%owns_single Hb%owns_single; done.
Qed.

Lemma image_no_self : no_self Image.sblk Image.disk0 image_tree.
Proof.
  destruct image_dino as [E1 E2].
  intros n e [->| ->] Hd He; [|unfold is_dir in Hd; by rewrite E2 in Hd]. rewrite image_entries in He.
  repeat (apply elem_of_cons in He as [->|He]; [done|]). by apply elem_of_nil in He.
Qed.

Lemma image_calm : calm_state Image.sblk 3 [0; 0; 0] Image.disk0 image_tree (Image.vars empty_icache []).
Proof. split; [|done]. split; [done|]. split; [done|]. apply empty_icache_ok. Qed.

Lemma image_all_bmap : all_bmap Image.sblk {[34; 32]}.
Proof.
  intros b Hb. assert (BBLOCK b Image.sblk = 34) as ->; [|set_solver].
  unfold BBLOCK. cbn in Hb |- *. rewrite Z.div_small; [done|unfold BPB, BSIZE; lia].
Qed.

Lemma image_finds : unlink_finds Image.sblk Image.disk0 1 (elems [47; 102]) = Some (1, 2%nat, 2).
Proof. vm_compute. reflexivity. Qed.

Lemma image_link_ok : link_ok Image.sblk Image.disk0 image_tree 1 2 2.
Proof.
  destruct image_dino as [E1 E2]. split.
  - unfold is_dir. by rewrite E2.
  - intros _ n q e [->| ->] Hne Hd Hq Em; [|done]. split; [done|]. rewrite image_entries in Hq.
    destruct q as [|[|[|q]]]; cbn in Hq; try (injection Hq as <-; done). done.
Qed.

Lemma image_layout : fs_layout 2 Image.sblk.
Proof. split; cbn; unfold BPB, BSIZE, LOGSIZE; try lia; done. Qed.

Lemma image_cache_calm : calm 2 (empty_acache Image.disk0).
Proof. split; [done|]. cbn. rewrite map_size_empty. unfold NBUF, MAXHELD, MAXOPBLOCKS. lia. Qed.

(** The small disk with no inode in use. *)
Definition kernel1 : fsstate (lstate bcache) unit :=
  mkfs (Image.vars empty_icache []) (mkls log0 (binit (boot_cache 3 Image.disk0))).


Lemma image_first_inode : first_inode Image.sblk Image.disk0 3.
Proof.
  split; [cbn; lia|]. split; [vm_compute; reflexivity|]. intros k Hk. assert (k = 1 \/ k = 2) as [->| ->] by lia; vm_compute; discriminate.
Qed.

