(* ===== verification/Socket.v ===== *)
(** Sockets: kernel/net/socket.c and the calls of kernel/sys/sysnet.c.

    The control blocks of TCP are the table of Tcp.v; those of UDP are a second table,
    which shares the ports.  A pointer to a control block is its location together with
    its kind: [true] for a block whose [socktype] is [SOCK_TCP].  The [struct file]s are
    behind the interface [SockFile], the memory of the process behind [UserCopy]; the flags
    [is_copyin] and [is_copyout] are 1 in every call of the kernel.  A loop that polls an
    empty queue stops with [Sleep]. *)

From S2P Require Import Prelude Mbuf DList SockCb Ipv4 Tcp FsDisk.

(** [sizeof(struct eth)] is 14, of an IPv4 header 20, of a UDP header 8. *)
Definition TCP_MAX_DATA : Z := ETH_MAX_SIZE - 14 - 20 - 20.
Definition UDP_MAX_DATA : Z := ETH_MAX_SIZE - 14 - 20 - 8.

(** A socket: is it TCP, and where is the block. *)
Definition sock := (bool * positive)%type.

(** What sockets need of the open files.  [sf_alloc] is [filealloc]; the flag is what
    the memory of the file holds in [nonblockable].  [sf_sock f s nb] sets the type, the
    flags [readable] and [writable], and the control block of the file.  [sf_clear_fd] is
    [p->ofile[fd] = 0]. *)
Class SockFile (F : Type) := {
  sf_alloc : M F (option (positive * bool));
  sf_sock : positive -> sock -> M F unit;
  sf_close : positive -> M F unit;
  sf_fdalloc : positive -> M F Z;
  sf_clear_fd : Z -> M F unit }.

Section code.
Context {C F : Type} `{!UserCopy C} `{!SockFile F} (local_ip : Z).

Record sst := mksst { net : nst; udp_tab : scbtab; udp_out : list mbuf; smem : C; sfiles : F }.
Abbreviation sM := (M sst).

Definition lift_st {T A} (get_t : sst -> T) (put_t : T -> sst -> sst) (m : M T A) : sM A := fun s =>
  match m (get_t s) with
  | Ok a t => Ok a (put_t t s)
  | Panic msg => Panic msg
  | Sleep t => Sleep (put_t t s)
  | OutOfFuel => OutOfFuel
  | Undef => Undef
  end.
Definition memM {A} : M C A -> sM A :=
  lift_st smem (fun c s => mksst (net s) (udp_tab s) (udp_out s) c (sfiles s)).
Definition fileM {A} : M F A -> sM A :=
  lift_st sfiles (fun f s => mksst (net s) (udp_tab s) (udp_out s) (smem s) f).
(** Code on the table of the protocol. *)
Definition netM {A} (tcp : bool) (m : M nst A) : sM A :=
  if tcp then lift_st net (fun n s => mksst n (udp_tab s) (udp_out s) (smem s) (sfiles s)) m
  else lift_st (fun s => mknst (udp_tab s) (nports (net s)) (nout (net s)) (nfreed (net s)))
         (fun n s => mksst (mknst (ntab (net s)) (nports n) (nout n) (nfreed n)) (ntab n) (udp_out s) (smem s) (sfiles s)) m.
Definition get_cb (s : sock) : sM sock_cb := netM s.1 (on_scb s.2 get_scb).
Definition upd_cb (s : sock) (g : sock_cb -> sock_cb) : sM unit := netM s.1 (on_scb s.2 (upd g)).

Definition set_sport (p : Z) (c : sock_cb) : sock_cb :=
  mkscb (sfile c) (nonblockable c) (slocked c) (socktype c) (acpt_scb c) (state c) p (sraddr c)
    (dport c) (snd c) (rcv c) (txq c) (rxq c) (sprev c) (snext c).
Definition set_acpt (o : option positive) (c : sock_cb) : sock_cb :=
  mkscb (sfile c) (nonblockable c) (slocked c) (socktype c) o (state c) (sport c) (sraddr c)
    (dport c) (snd c) (rcv c) (txq c) (rxq c) (sprev c) (snext c).

(** ** Making sockets *)

Definition socket_init : sM unit :=
  modify (fun s =>
    let empty := mkhtab (hheap (ntab (net s))) (replicate (Z.to_nat SOCK_CB_LEN) None) in
    mksst (mknst empty (mkports (replicate (Z.to_nat SPORT_ELEM) 0) (current_sport (nports (net s)))) (nout (net s)) (nfreed (net s)))
      (mkhtab (hheap (udp_tab s)) (replicate (Z.to_nat SOCK_CB_LEN) None)) (udp_out s) (smem s) (sfiles s)).

Definition sockalloc (socktype : Z) : sM (option (positive * sock)) :=
  r ← fileM sf_alloc;
  match r with
  | None => ret None
  | Some (f, nb) =>
      let tcp := socktype =? SOCK_TCP in
      x ← netM tcp (on_tab (alloc_sock_cb (Some f) nb 0 0 0 socktype));
      fileM (sf_sock f (tcp, x));;
      ret (Some (f, (tcp, x)))
  end.

(** [sockcopy(scb->f)]: a new file with a new block of the same addresses. *)
Definition sockcopy (s : sock) : sM (option (positive * sock)) :=
  r ← fileM sf_alloc;
  match r with
  | None => ret None
  | Some (f, _) =>
      c ← get_cb s;
      x ← netM s.1 (on_tab (alloc_sock_cb (Some f) (nonblockable c) (sraddr c) (sport c) (dport c) (socktype c)));
      upd_cb (s.1, x) (set_state (state c));;
      fileM (sf_sock f (s.1, x));;
      ret (Some (f, (s.1, x)))
  end.

Definition sockfree (s : sock) : sM unit := netM s.1 (free_sock_cb s.2).

Definition socklisten (s : sock) (sport : Z) : sM Z :=
  p ← netM s.1 (on_ports (get_specified_sport sport));
  if p <? 0 then ret (-1)
  else
    upd_cb s (set_sport p);;
    if s.1 then
      r ← netM true (on_scb s.2 tcp_listen);
      if r <? 0 then ret (-1) else ret 0
    else ret 0.

(** The label [bad]. *)
Definition accept_bad (new_fd : Z) : sM Z :=
  when (negb (new_fd =? 0)) (fileM (sf_clear_fd new_fd));; ret (-1).

(** The result and what was stored at [raddr] and [dport]. *)
Definition sockaccept (s : sock) (killed : bool) : sM (Z * option (Z * Z)) :=
  c ← get_cb s;
  r ← (match acpt_scb c with
       | Some x =>
           c' ← get_cb (s.1, x);
           match sfile c' with Some f => ret (Some (f, (s.1, x))) | None => undef end
       | None =>
           r ← sockcopy s;
           match r with
           | None => ret None
           | Some (f, s') =>
               upd_cb s (set_acpt (Some s'.2));;
               netM s'.1 (on_tab (add_sock_cb s'.2));;
               ret (Some (f, s'))
           end
       end);
  match r with
  | None => x ← accept_bad 0; ret (x, None)
  | Some (f, s') =>
      new_fd ← fileM (sf_fdalloc f);
      if new_fd <? 0 then x ← accept_bad new_fd; ret (x, None)
      else
        a ← (if s'.1 then netM true (on_scb s'.2 (tcp_accept killed)) else ret 0);
        if a <? 0 then x ← accept_bad new_fd; ret (x, None)
        else
          c' ← get_cb s';
          upd_cb s (set_acpt None);;
          ret (new_fd, Some (sraddr c', dport c'))
  end.

Definition sockconnect (s : sock) (raddr dport : Z) (killed : bool) : sM Z :=
  p ← netM s.1 (on_ports get_new_sport);
  upd_cb s (fun c => set_sport p (set_remote raddr dport c));;
  netM s.1 (on_tab (add_sock_cb s.2));;
  if s.1 then
    r ← netM true (on_scb s.2 (tcp_connect local_ip killed));
    if r <? 0 then ret (-1) else ret 0
  else ret 0.

(** ** Sending *)

(** A packet with [bufsize] bytes of the process at [addr]. *)
Definition user_mbuf (addr bufsize : Z) : sM mbuf :=
  match mbufpush new_mbuf bufsize with
  | None => panic "mbufpush"
  | Some (p, m) => ' (got, _) ← memM (uc_copyin addr bufsize); ret (mwrite p got m)
  end.

(** [while (n > 0)]; it returns [res], or -1. *)
Fixpoint socksend_loop (fuel : nat) (s : sock) (addr n res : Z) : sM Z :=
  match fuel with
  | O => nofuel
  | S fuel' =>
      if 0 <? n then
        let max := if s.1 then TCP_MAX_DATA else UDP_MAX_DATA in
        let bufsize := if n <? max then n else max in
        m ← user_mbuf addr bufsize;
        ok ← (if s.1 then
                let flg := if n <? TCP_MAX_DATA then Z.lor TCP_FLG_PSH TCP_FLG_ACK else TCP_FLG_ACK in
                r ← netM true (on_scb s.2 (tcp_send local_ip m flg));
                ret (negb (r =? -1))
              else
                c ← get_cb s;
                match udp_send local_ip m (sraddr c) (sport c) (dport c) with
                | None => panic "mbufpush"
                | Some m' =>
                    modify (fun s => mksst (net s) (udp_tab s) (udp_out s ++ [m']) (smem s) (sfiles s));; ret true
                end);
        if ok : bool then socksend_loop fuel' s (u64 (addr + bufsize)) (n - bufsize) (res + bufsize) else ret (-1)
      else ret res
  end.
Definition send_fuel (n : Z) : nat := S (Z.to_nat n).
Definition socksend (s : sock) (addr n : Z) : sM Z := socksend_loop (send_fuel n) s addr n 0.

(** ** Receiving *)

(** [pop_from_scb_rxq]. *)
Definition pop_rxq (s : sock) : sM (option mbuf) :=
  c ← get_cb s;
  let '(m, c') := pop_from_scb_rxq c in
  upd_cb s (fun _ => c');; ret m.
(** [mbufq_pushhead(&scb->rxq, m)]. *)
Definition push_head (s : sock) (m : mbuf) : sM unit := upd_cb s (fun c => set_queues (txq c) (m :: rxq c) c).

(** [copyout] of the first [k] bytes of the packet; the result is not looked at. *)
Definition copy_head (addr k : Z) (m : mbuf) : sM unit :=
  memM (uc_copyout addr (sub_bytes (Z.to_nat (head m)) (Z.to_nat k) (mdata m)));; ret tt.

(** The TCP branch: the block is looked up again in every round. *)
Fixpoint sockrecv_tcp (fuel : nat) (sport raddr dp addr n res : Z) : sM Z :=
  match fuel with
  | O => nofuel
  | S fuel' =>
      o ← netM true (on_tab (get_sock_cb sport raddr dp));
      match o with
      | None => ret (-1)
      | Some x =>
          let s := (true, x) in
          c ← get_cb s;
          if bool_decide (state c = SOCK_CB_CLOSE_WAIT) then ret (-1)
          else
            om ← pop_rxq s;
            match om with
            | None => if nonblockable c then ret res else block
            | Some m =>
                let k := if len m <? u32 n then len m else n in
                copy_head addr k m;;
                upd_cb s (fun c => set_rcv_wnd (rcv_wnd (rcv c) + k) c);;
                if len m <? u32 n then
                  if TCP_FLG_ISSET (th_flg (seg_header m)) TCP_FLG_PSH then ret (res + k)
                  else sockrecv_tcp fuel' (SockCb.sport c) (sraddr c) (dport c) (u64 (addr + k)) (n - k) (res + k)
                else
                  push_head s (mbufpull m (u32 k)).2;;
                  ret (res + k)
            end
      end
  end.

Definition sockrecv_udp (s : sock) (addr n : Z) (nonblock : bool) : sM Z :=
  om ← pop_rxq s;
  match om with
  | None => if nonblock then ret 0 else block
  | Some m =>
      let k := if len m <? u32 n then len m else n in
      copy_head addr k m;;
      when (u32 (n - 1) <? len m) (push_head s (mbufpull m (u32 (n - 1))).2);;
      ret k
  end.

(** Every round takes a packet from a queue of the table. *)
Definition rx_total (t : scbtab) : nat := map_fold (fun _ c k => (length (rxq c) + k)%nat) O (hheap t).
Definition recv_fuel (t : scbtab) : nat := S (rx_total t).
Definition sockrecv (s : sock) (addr n : Z) (nonblock : bool) : sM Z :=
  if s.1 then
    c ← get_cb s;
    t ← gets (fun s => ntab (net s));
    sockrecv_tcp (recv_fuel t) (sport c) (sraddr c) (dport c) addr n 0
  else sockrecv_udp s addr n nonblock.

Definition sockclose (s : sock) : sM unit :=
  if s.1 then
    r ← netM true (on_scb s.2 (tcp_close local_ip));
    when (r =? 0) (netM true (free_sock_cb s.2))
  else netM false (free_sock_cb s.2).

(** ** System calls *)

Definition sys_socket (socktype : Z) : sM Z :=
  r ← sockalloc socktype;
  match r with
  | None => ret (-1)
  | Some (f, _) =>
      fd ← fileM (sf_fdalloc f);
      if fd <? 0 then ret (-1) else ret fd
  end.

(** The socket of the descriptor: [None] when it is none or closed. *)
Definition sys_socklisten (s : option sock) (sport : Z) : sM Z :=
  match s with None => ret (-1) | Some s => socklisten s sport end.
(** The values stored by [sockaccept]; on an error they are not initialised. *)
Definition sys_sockaccept (s : option sock) (killed : bool) (junk : Z * Z) (raddrp dportp : Z) : sM Z :=
  match s with
  | None => ret (-1)
  | Some s =>
      ' (res, o) ← sockaccept s killed;
      let '(raddr, dport) := default junk o in
      memM (uc_copyout raddrp (le_enc 4 raddr));;
      memM (uc_copyout dportp (le_enc 2 dport));;
      ret res
  end.
Definition sys_sockconnect (s : option sock) (raddr dport : Z) (killed : bool) : sM Z :=
  match s with None => ret (-1) | Some s => sockconnect s raddr dport killed end.
End code.
Arguments sst : clear implicits.
