(* ===== verification/SocketSpec.v ===== *)
(** What [socksend] and [sockrecv] do on a connection: the bytes of the process go out
    as consecutive segments, and the bytes that were received come back in order. *)

From S2P Require Import Prelude Mbuf DList NetUtil SockCb Ipv4 Tcp FsDisk Socket.

Section spec.
Context {C F : Type} `{!UserCopy C} `{!SockFile F} (local_ip : Z).
Implicit Types (st : sst C F) (c : sock_cb) (x : positive).

(** ** The block of a socket in the state *)

Definition tcp_cb st x : option sock_cb := hheap (ntab (net st)) !! x.

(** The state with another block at [x], other packets sent and another memory. *)
Definition put_cb x c (o : list (mbuf * Z)) (u : C) st : sst C F :=
  mksst (mknst (hupd x (fun _ => c) (ntab (net st))) (nports (net st)) o (nfreed (net st)))
    (udp_tab st) (udp_out st) u (sfiles st).

Lemma hupd_id x c (t : scbtab) : hheap t !! x = Some c -> hupd x (fun _ => c) t = t.
Proof.
  intros Hx. destruct t as [h hd]. unfold hupd. simpl in *. f_equal.
  apply map_eq. intros y. destruct (decide (y = x)) as [->|]; [by rewrite lookup_alter_eq, Hx|].
  by rewrite lookup_alter_ne by done.
Qed.

Lemma hupd_twice x c c' (t : scbtab) : hupd x (fun _ => c') (hupd x (fun _ => c) t) = hupd x (fun _ => c') t.
Proof.
  unfold hupd. simpl. f_equal. apply map_eq. intros y. destruct (decide (y = x)) as [->|].
  - rewrite !lookup_alter_eq. by destruct (hheap t !! x).
  - by rewrite !lookup_alter_ne by done.
Qed.

Lemma put_cb_lookup x c c' o u st : tcp_cb st x = Some c -> tcp_cb (put_cb x c' o u st) x = Some c'.
Proof. unfold tcp_cb. intros Hx. simpl. by rewrite lookup_alter_eq, Hx. Qed.

Lemma put_cb_twice x c c' o o' u u' st : put_cb x c' o' u' (put_cb x c o u st) = put_cb x c' o' u' st.
Proof. unfold put_cb. simpl. by rewrite hupd_twice. Qed.

Lemma put_cb_id x c st : tcp_cb st x = Some c -> put_cb x c (nout (net st)) (smem st) st = st.
Proof. intros Hx. unfold put_cb. rewrite hupd_id by done. by destruct st as [[] ? ? ? ?]. Qed.

(** Code on the block, from what it does to the block alone. *)
Lemma on_cb_ok {A} x c (m : M tst A) a c' o st :
  tcp_cb st x = Some c -> m (mktst c (nout (net st))) = Ok a (mktst c' o) ->
  netM true (on_scb x m) st = Ok a (put_cb x c' o (smem st) st).
Proof. unfold tcp_cb. intros Hx Hm. unfold netM, lift_st, on_scb. by rewrite Hx, Hm. Qed.

Lemma get_cb_ok x c st : tcp_cb st x = Some c -> get_cb (true, x) st = Ok c st.
Proof.
  intros Hx. etransitivity; [by apply (on_cb_ok x c get_scb c c (nout (net st)))|].
  by rewrite put_cb_id.
Qed.

Lemma upd_cb_ok x c g st :
  tcp_cb st x = Some c -> upd_cb (true, x) g st = Ok tt (put_cb x (g c) (nout (net st)) (smem st) st).
Proof. intros Hx. by apply (on_cb_ok x c (upd g)). Qed.

(** ** Finding the block again *)

(** The lookup with the addresses of the block gives the block. *)
Definition listed st x c : Prop :=
  tcp_cb st x = Some c /\
  get_sock_cb (sport c) (sraddr c) (dport c) (ntab (net st)) = Ok (Some x) (ntab (net st)).

Definition same_addr c c' : Prop :=
  sport c' = sport c /\ sraddr c' = sraddr c /\ dport c' = dport c /\ snext c' = snext c.

Lemma dfind_alter fuel (h : gmap positive sock_cb) q x c c' p o :
  h !! x = Some c -> q c' = q c -> snext c' = snext c ->
  dfind fuel (alter (fun _ => c') x h) q p o = dfind fuel h q p o.
Proof.
  intros Hx Hq Hn. revert p o. induction fuel as [|fuel IH]; intros p o; [done|]. cbn [dfind].
  destruct o as [y|]; [|done]. destruct (decide (y = x)) as [->|].
  - rewrite lookup_alter_eq, Hx. simpl. rewrite Hq, Hn. by rewrite IH.
  - rewrite lookup_alter_ne by done. destruct (h !! y); [|done]. by rewrite IH.
Qed.

Lemma get_hupd x c c' sp ra dp (t : scbtab) r :
  hheap t !! x = Some c -> same_addr c c' -> get_sock_cb sp ra dp t = Ok r t ->
  get_sock_cb sp ra dp (hupd x (fun _ => c') t) = Ok r (hupd x (fun _ => c') t).
Proof.
  intros Hx (E1 & E2 & E3 & E4). unfold get_sock_cb. cbn [hupd hheap hheads].
  assert (list_fuel (alter (fun _ : sock_cb => c') x (hheap t)) = list_fuel (hheap t)) as ->.
  { unfold list_fuel. f_equal. rewrite <-!size_dom, dom_alter_L. done. }
  destruct (hheads t !! entry_of sp) as [hd|]; [|done].
  rewrite (dfind_alter _ _ _ _ c) by (done || unfold scb_match; by rewrite E1, E2, E3).
  destruct (dfind _ _ _ _ _) as [[]|]; [|done]. intros [= ->]. done.
Qed.

Lemma listed_put x c c' o u st :
  listed st x c -> same_addr c c' -> listed (put_cb x c' o u st) x c'.
Proof.
  intros [Hx Hg] Hs. split; [by apply put_cb_lookup with c|]. simpl.
  pose proof Hs as (E1 & E2 & E3 & _). rewrite E1, E2, E3. by apply get_hupd with c.
Qed.

Lemma listed_get x c st : listed st x c -> 
  netM true (on_tab (get_sock_cb (sport c) (sraddr c) (dport c))) st = Ok (Some x) st.
Proof.
  intros [_ Hg]. unfold netM, lift_st, on_tab. rewrite Hg. by destruct st as [[] ? ? ? ?].
Qed.

(** ** Receiving *)

(** The memory of the process has [n] bytes at [addr] that can be written; [f bs] is the
    memory once the bytes [bs] are stored there. *)
Definition user_area (addr n : Z) (f : bytes -> C) (u : C) : Prop :=
  f [] = u /\
  forall bs bs', Z.of_nat (length (bs ++ bs')) <= n ->
    uc_copyout (u64 (addr + Z.of_nat (length bs))) bs' (f bs) = Ok 0 (f (bs ++ bs')).

(** The packet [m] ends a push of the sender. *)
Definition is_push (m : mbuf) : bool := TCP_FLG_ISSET (th_flg (seg_header m)) TCP_FLG_PSH.

(** What the reader has taken: [k] bytes, from the front of the queue. *)
Definition taken c c' (k n : Z) : Prop :=
  0 <= k <= n /\ delivered c' = drop (Z.to_nat k) (delivered c) /\ k <= Z.of_nat (length (delivered c)) /\
  u32 (rcv_wnd (rcv c')) = u32 (rcv_wnd (rcv c) + k) /\ same_addr c c' /\ state c' = state c /\ txq c' = txq c /\
  (k = n \/ rxq c' = [] \/ exists before m, rxq c = before ++ m :: rxq c' /\ is_push m = true).

Lemma pull_payload m k :
  mbuf_ok m -> 0 <= k <= len m ->
  payload (mbufpull m k).2 = drop (Z.to_nat k) (payload m) /\ mbuf_ok (mbufpull m k).2.
Proof.
  intros (H1 & H2 & H3 & H4) Hk. unfold mbufpull. destruct (Z.ltb_spec (len m) k); [lia|]. simpl.
  split; [|unfold mbuf_ok, MBUF_SIZE in *; simpl; lia].
  unfold payload, sub_bytes. simpl. rewrite skipn_firstn_comm, drop_drop.
  rewrite Z2Nat.inj_add, Z2Nat.inj_sub by lia. done.
Qed.

Lemma head_bytes m k :
  k <= len m -> sub_bytes (Z.to_nat (head m)) (Z.to_nat k) (mdata m) = take (Z.to_nat k) (payload m).
Proof. intros Hk. unfold payload, sub_bytes. rewrite take_take. f_equal. lia. Qed.

Lemma rx_total_le (t : scbtab) x c : hheap t !! x = Some c -> (length (rxq c) <= rx_total t)%nat.
Proof.
  intros Hx. unfold rx_total. rewrite (map_fold_delete_L _ _ x c (hheap t)) by (done || intros; lia). lia.
Qed.

(** The states in which a read can stop. *)
Definition recv_ends st x c n f (bs : bytes) (r : outcome (sst C F) Z) : Prop :=
  exists k c', taken c c' k n /\
    let st' := put_cb x c' (nout (net st)) (f (bs ++ take (Z.to_nat k) (delivered c))) st in
    (r = Ok (Z.of_nat (length bs) + k) st' \/
     (r = Sleep st' /\ nonblockable c = false /\ rxq c' = [] /\ k < n)).

(** A packet that fits is taken whole. *)
Definition after_packet (q : list mbuf) (k : Z) c : sock_cb :=
  set_rcv_wnd (rcv_wnd (rcv c) + k) (set_queues (txq c) q c).

Lemma taken_more c m q k n j c' :
  rxq c = m :: q -> mbuf_ok m -> len m < n -> k = len m -> taken (after_packet q k c) c' j (n - k) ->
  taken c c' (k + j) n.
Proof.
  intros Hq Hok Hlen -> (Hj & Hd & Hl & Hw & Ha & Hs & Ht & He).
  pose proof (length_payload m Hok) as Hp. pose proof Hok as (_ & O2 & _).
  assert (delivered c = payload m ++ delivered (after_packet q (len m) c)) as Ed
    by (unfold delivered; by rewrite Hq).
  split; [lia|]. split; [|split; [|split; [|split; [done|split; [done|split; [done|]]]]]].
  - rewrite Hd, Ed. rewrite drop_app_ge by lia. f_equal. lia.
  - rewrite Ed, length_app. lia.
  - rewrite Hw. simpl. unfold u32. rewrite wrap_add_l. f_equal. lia.
  - destruct He as [->|[->|(before & m' & E & Hm')]]; [left; lia|by right; left|].
    right; right. exists (m :: before), m'. simpl in E. rewrite Hq, E. done.
Qed.

Lemma copy_head_ok x c addr k m u st :
  tcp_cb st x = Some c -> k <= len m -> uc_copyout addr (take (Z.to_nat k) (payload m)) (smem st) = Ok 0 u ->
  copy_head addr k m st = Ok tt (put_cb x c (nout (net st)) u st).
Proof.
  intros Hx Hk Hu. unfold copy_head. rewrite head_bytes by done.
  rewrite (bind_ok _ _ _ 0 (put_cb x c (nout (net st)) u st)); [done|].
  unfold memM, lift_st. rewrite Hu. f_equal. unfold put_cb. rewrite hupd_id by done.
  by destruct st as [[] ? ? ? ?].
Qed.

Lemma pop_rxq_ok x c st :
  tcp_cb st x = Some c ->
  pop_rxq (true, x) st = Ok (pop_from_scb_rxq c).1 (put_cb x (pop_from_scb_rxq c).2 (nout (net st)) (smem st) st).
Proof.
  intros Hx. unfold pop_rxq. rewrite (bind_ok _ _ _ _ _ (get_cb_ok x c st Hx)).
  destruct (pop_from_scb_rxq c) as [m c1]. by rewrite (bind_ok _ _ _ _ _ (upd_cb_ok x c _ st Hx)).
Qed.

(** A packet that is longer than what is left to read stays at the head of the queue. *)
Definition after_part (m : mbuf) (q : list mbuf) (n : Z) c : sock_cb :=
  let c1 := after_packet q n c in set_queues (txq c1) ((mbufpull m (u32 n)).2 :: q) c1.

Lemma taken_part c m q n :
  rxq c = m :: q -> mbuf_ok m -> 0 < n < 2 ^ 31 -> n <= len m -> taken c (after_part m q n c) n n.
Proof.
  intros Hq Hok Hn Hlen. destruct (pull_payload m n Hok) as [Hp _]; [lia|].
  pose proof (length_payload m Hok). unfold taken, delivered. simpl. rewrite Hq. simpl.
  rewrite (u32_small n), Hp, length_app by lia. rewrite drop_app_le by lia.
  split; [lia|]. split; [done|]. split; [lia|]. split; [unfold u32; by rewrite wrap_idemp|].
  repeat split; try done. by left.
Qed.

Lemma taken_none c n : rxq c = [] -> 0 < n -> taken c c 0 n.
Proof.
  intros Hq Hn. unfold taken. rewrite Z.add_0_r. repeat split; try (done || lia). by right; left.
Qed.

Lemma taken_push c m q n :
  rxq c = m :: q -> mbuf_ok m -> len m < n -> is_push m = true -> taken c (after_packet q (len m) c) (len m) n.
Proof.
  intros Hq Hok Hlen Hp. pose proof (length_payload m Hok). pose proof Hok as (_ & ? & _).
  unfold taken, delivered. simpl. rewrite Hq. simpl. rewrite length_app, drop_app_length' by lia.
  split; [lia|]. split; [done|]. split; [lia|].
  split; [unfold u32; by rewrite wrap_idemp|].
  repeat split; try done. right; right. by exists [], m.
Qed.

(** The rest of a read after a packet that was taken whole. *)
Lemma ends_more st x c m q n f bs r :
  rxq c = m :: q -> mbuf_ok m -> len m < n ->
  recv_ends (put_cb x (after_packet q (len m) c) (nout (net st)) (f (bs ++ payload m)) st) x
    (after_packet q (len m) c) (n - len m) f (bs ++ payload m) r ->
  recv_ends st x c n f bs r.
Proof.
  intros Eq Hm Hlt (j & c' & Ht & Hr). pose proof (length_payload m Hm) as Hp. pose proof Hm as (_ & M2 & _).
  pose proof Ht as [Hj0 _]. exists (len m + j), c'. split; [by eapply taken_more|].
  assert (delivered c = payload m ++ delivered (after_packet q (len m) c)) as Ed
    by (unfold delivered; by rewrite Eq).
  rewrite Ed, take_app_ge by lia.
  replace (Z.to_nat (len m + j) - length (payload m))%nat with (Z.to_nat j) by lia.
  cbv zeta in *. rewrite put_cb_twice, <-app_assoc, length_app, Nat2Z.inj_add, Hp, <-Z.add_assoc in Hr.
  destruct Hr as [Hr|(Hr & Hnb & He & Hj)]; [by left|right]. repeat split; try done. lia.
Qed.

(** One packet is taken off the queue and its first [k] bytes are copied. *)
Lemma take_packet x c m q addr k u st :
  tcp_cb st x = Some c -> rxq c = m :: q -> k <= len m ->
  uc_copyout addr (take (Z.to_nat k) (payload m)) (smem st) = Ok 0 u ->
  exists st1, pop_rxq (true, x) st = Ok (Some m) st1 /\
  exists st2, copy_head addr k m st1 = Ok tt st2 /\
  upd_cb (true, x) (fun c => set_rcv_wnd (rcv_wnd (rcv c) + k) c) st2 =
    Ok tt (put_cb x (after_packet q k c) (nout (net st)) u st).
Proof.
  intros Hx Hq Hk Hu. pose proof (pop_rxq_ok x c st Hx) as E. unfold pop_from_scb_rxq in E. rewrite Hq in E. simpl in E.
  eexists. split; [exact E|].
  set (c1 := set_queues (txq c) q c) in *.
  assert (tcp_cb (put_cb x c1 (nout (net st)) (smem st) st) x = Some c1) as H1 by by apply put_cb_lookup with c.
  eexists. split; [apply (copy_head_ok x c1); [done|done|exact Hu]|]. rewrite put_cb_twice.
  rewrite (upd_cb_ok x c1); [by rewrite put_cb_twice|]. by apply put_cb_lookup with c.
Qed.

Lemma push_head_ok x c m st :
  tcp_cb st x = Some c ->
  push_head (true, x) m st = Ok tt (put_cb x (set_queues (txq c) (m :: rxq c) c) (nout (net st)) (smem st) st).
Proof. intros Hx. exact (upd_cb_ok x c _ st Hx). Qed.

(** The bytes [bs] are stored at [a0]; [n] more can be. *)
Definition area_at (a0 addr n : Z) (f : bytes -> C) (bs : bytes) (u : C) : Prop :=
  u = f bs /\ addr = u64 (a0 + Z.of_nat (length bs)) /\
  forall b b', Z.of_nat (length (b ++ b')) <= Z.of_nat (length bs) + n ->
    uc_copyout (u64 (a0 + Z.of_nat (length b))) b' (f b) = Ok 0 (f (b ++ b')).

Lemma area_store a0 addr n f bs b u :
  area_at a0 addr n f bs u -> Z.of_nat (length b) <= n -> uc_copyout addr b u = Ok 0 (f (bs ++ b)).
Proof. intros (-> & -> & H) Hb. apply H. rewrite length_app. lia. Qed.

Lemma area_next a0 addr n f bs b u :
  area_at a0 addr n f bs u ->
  area_at a0 (u64 (addr + Z.of_nat (length b))) (n - Z.of_nat (length b)) f (bs ++ b) (f (bs ++ b)).
Proof.
  intros (-> & -> & H). split; [done|]. rewrite length_app. split.
  - unfold u64. rewrite wrap_add_l. f_equal. lia.
  - intros b1 b2 Hl. apply H. lia.
Qed.

Lemma recv_loop a0 f fuel st x c addr n bs :
  listed st x c -> state c <> SOCK_CB_CLOSE_WAIT -> 0 < n < 2 ^ 31 -> Forall mbuf_ok (rxq c) ->
  (length (rxq c) < fuel)%nat -> area_at a0 addr n f bs (smem st) ->
  recv_ends st x c n f bs
    (sockrecv_tcp fuel (sport c) (sraddr c) (dport c) addr n (Z.of_nat (length bs)) st).
Proof.
  revert st c addr n bs. induction fuel as [|fuel IH]; intros st c addr n bs Hl Hst Hn Hq Hf Ha; [lia|].
  cbn [sockrecv_tcp]. rewrite (bind_ok _ _ _ _ _ (listed_get x c st Hl)). pose proof Hl as [Hx _].
  rewrite (bind_ok _ _ _ _ _ (get_cb_ok x c st Hx)). rewrite bool_decide_eq_false_2 by done.
  destruct (rxq c) as [|m q] eqn:Eq.
  - rewrite (bind_ok _ _ _ _ _ (pop_rxq_ok x c st Hx)). unfold pop_from_scb_rxq. rewrite Eq. simpl.
    exists 0, c. split; [apply taken_none; [done|lia]|]. simpl. rewrite app_nil_r.
    pose proof Ha as [<- _]. rewrite put_cb_id by done. rewrite Z.add_0_r.
    destruct (nonblockable c); [by left|]. right. repeat split; try done. lia.
  - apply Forall_cons in Hq as [Hm Hq]. pose proof (length_payload m Hm) as Hp. pose proof Hm as (_ & M2 & _).
    rewrite u32_small by lia.
    set (k := if len m <? n then len m else n) in *.
    assert (0 <= k <= len m /\ k <= n) as [Hk1 Hk2] by (unfold k; destruct (Z.ltb_spec (len m) n); lia).
    assert (Z.of_nat (length (take (Z.to_nat k) (payload m))) = k) as Hb by (rewrite length_take; lia).
    destruct (take_packet x c m q addr k (f (bs ++ take (Z.to_nat k) (payload m))) st)
      as (st1 & E1 & st2 & E2 & E3); [done|done|lia|by eapply area_store; [exact Ha|lia]|].
    rewrite (bind_ok _ _ _ _ _ E1). rewrite (bind_ok _ _ _ _ _ E2). rewrite (bind_ok _ _ _ _ _ E3).
    unfold k in *. clear k E1 E2 E3 st1 st2.
    destruct (Z.ltb_spec (len m) n) as [Hlt|Hge].
    + rewrite (take_ge (payload m)) in * by lia. set (st3 := put_cb _ _ _ _ st). fold (is_push m). destruct (is_push m) eqn:Ep.
      * exists (len m), (after_packet q (len m) c). split; [by apply taken_push|]. left.
        unfold ret. f_equal. unfold st3. f_equal. f_equal. unfold delivered. rewrite Eq. simpl.
        by rewrite take_app_length' by lia.
      * pose proof (area_next _ _ _ _ _ (payload m) _ Ha) as Ha'. rewrite Hb in Ha'.
        assert (listed st3 x (after_packet q (len m) c)) as Hl3 by by apply listed_put with c.
        apply (ends_more st x c m q n f bs); [done|done|done|]. fold st3.
        replace (Z.of_nat (length bs) + len m) with (Z.of_nat (length (bs ++ payload m)))
          by (rewrite length_app; lia).
        apply (IH st3 (after_packet q (len m) c)); try done; [lia|simpl in Hf |- *; lia].
    + rewrite (bind_ok _ _ _ _ _ (push_head_ok x (after_packet q n c) _ _ (put_cb_lookup _ _ _ _ _ _ Hx))).
      exists n, (after_part m q n c). split; [by apply taken_part|]. left. unfold ret. f_equal.
      rewrite put_cb_twice. unfold delivered. rewrite Eq. simpl.
      by rewrite take_app_le by lia.
Qed.

(** C13: reading from a connection.  [sockrecv] on an open TCP socket gives the process the
    first [k] bytes that were received and not yet read, in order: they are what is
    stored at [addr], [k] is the result, and the bytes after them are what is left for
    the next read; the receive window grows by [k].  Less than [n] bytes are given only
    when the queue is empty or the last packet taken has the push flag.  A socket that blocks
    waits only with the queue empty and less than [n] bytes stored.  The fuel is
    always enough. *)
Theorem sockrecv_stream st x c addr n nb f :
  listed st x c -> state c <> SOCK_CB_CLOSE_WAIT -> 0 < n < 2 ^ 31 -> Forall mbuf_ok (rxq c) ->
  0 <= addr < 2 ^ 64 -> user_area addr n f (smem st) ->
  exists k c', taken c c' k n /\
    let st' := put_cb x c' (nout (net st)) (f (take (Z.to_nat k) (delivered c))) st in
    (sockrecv (true, x) addr n nb st = Ok k st' \/
     (sockrecv (true, x) addr n nb st = Sleep st' /\ nonblockable c = false /\ rxq c' = [] /\ k < n)).
Proof.
  intros Hl Hst Hn Hq Ha [Hf Hu]. pose proof Hl as [Hx _].
  apply (recv_loop addr f (recv_fuel (ntab (net st))) st x c addr n []) in Hq as (k & c' & Ht & Hr); try done.
  - exists k, c'. split; [done|]. unfold sockrecv. simpl.
    rewrite (bind_ok _ _ _ _ _ (get_cb_ok x c st Hx)). exact Hr.
  - unfold recv_fuel. pose proof (rx_total_le _ x c Hx). lia.
  - split; [done|]. simpl. rewrite Z.add_0_r. split; [|exact Hu]. unfold u64. by rewrite wrap_small.
Qed.

(** ** Sending *)

(** The memory of the process holds [data] at [addr]. *)
Definition user_holds (u : C) (addr : Z) (data : bytes) : Prop :=
  forall off k, (off + k <= length data)%nat ->
    uc_copyin (u64 (addr + Z.of_nat off)) (Z.of_nat k) u = Ok (sub_bytes off k data, 0) u.

(** The flags of a segment with [k] bytes of data. *)
Definition data_flg (k : Z) : Z := if k <? TCP_MAX_DATA then Z.lor TCP_FLG_PSH TCP_FLG_ACK else TCP_FLG_ACK.

(** The packets [segs] carry [data] from the sequence number [seq] on: each has the
    header of the connection, a correct checksum and at most [TCP_MAX_DATA] bytes. *)
Fixpoint sent c (seq : Z) (data : bytes) (segs : list (mbuf * Z)) : Prop :=
  match segs with
  | [] => data = []
  | (m, ra) :: segs' =>
      exists pl rest ck, data = pl ++ rest /\ 0 < Z.of_nat (length pl) <= TCP_MAX_DATA /\ ra = sraddr c /\
        payload m = tcp_bytes (tcp_header (sport c) (dport c) seq (rcv_nxt_seq (rcv c)) (rcv_wnd (rcv c))
                                 (data_flg (Z.of_nat (length pl))) ck) ++ pl /\
        tcp_checksum (htonl local_ip) (htonl ra) IPPROTO_TCP (payload m) (len m) = 0 /\
        sent c (u32 (seq + Z.of_nat (length pl))) rest segs'
  end.

Lemma user_mbuf_ok addr bs st :
  0 < Z.of_nat (length bs) <= ETH_MAX_SIZE ->
  uc_copyin addr (Z.of_nat (length bs)) (smem st) = Ok (bs, 0) (smem st) ->
  exists m, user_mbuf addr (Z.of_nat (length bs)) st = Ok m st /\ mbuf_ok m /\ payload m = bs /\
    len m = Z.of_nat (length bs) /\ head m = ETH_MAX_SIZE - Z.of_nat (length bs).
Proof.
  intros Hk Hu. destruct (mbuf_push_pull new_mbuf bs new_mbuf_ok) as (m' & E & Hok & Hl & Hp & _);
    [exact (proj2 Hk)|].
  exists (mwrite (head new_mbuf - Z.of_nat (length bs)) bs m'). unfold user_mbuf. rewrite E. split.
  - rewrite (bind_ok _ _ _ (bs, 0) st); [done|]. unfold memM, lift_st. rewrite Hu.
    by destruct st as [[] ? ? ? ?].
  - split; [done|]. split; [by rewrite Hp, new_mbuf_payload, app_nil_r|]. split; [done|].
    unfold mbufpush in E. destruct (_ <? 0); [done|]. by injection E as <-.
Qed.

Lemma data_flg_byte k : is_byte (data_flg k).
Proof. unfold data_flg. destruct (_ <? _); split; vm_compute; congruence. Qed.

(** One segment on an established connection with nothing queued. *)
Lemma tcp_send_estab c m o k :
  state c = SOCK_CB_ESTAB -> txq c = [] -> 0 <= snd_nxt_seq (snd c) < 2 ^ 32 ->
  mbuf_ok m -> TCP_HDR <= head m -> Forall is_byte (payload m) -> len m + TCP_HDR < 2 ^ 16 ->
  exists m3 ck, tcp_send local_ip m (data_flg k) (mktst c o) =
      Ok 0 (mktst (set_snd_nxt (snd_nxt_seq (snd c) + len m) c) (o ++ [(m3, sraddr c)])) /\
    payload m3 = tcp_bytes (tcp_header (sport c) (dport c) (snd_nxt_seq (snd c)) (rcv_nxt_seq (rcv c))
                              (rcv_wnd (rcv c)) (data_flg k) ck) ++ payload m /\
    tcp_checksum (htonl local_ip) (htonl (sraddr c)) IPPROTO_TCP (payload m3) (len m3) = 0.
Proof.
  intros Hst Hq Hs Hok Hh Hb Hl. pose proof (data_flg_byte k) as Hf. pose proof Hok as (_ & O2 & _).
  set (mq := mkmbuf (raddr m) None (head m) (len m) (mdata m)
               (mkparams (u32 (snd_nxt_seq (snd c))) (u8 (data_flg k)) (u16 (len m))) (tcphdr m)).
  destruct (send_core_packet local_ip mq (sraddr c) (sport c) (dport c) (snd_nxt_seq (snd c))
    (rcv_nxt_seq (rcv c)) (rcv_wnd (rcv c)) (data_flg k) (mktst c o))
    as (m3 & ck & E & _ & _ & _ & _ & Hp & Hc); try done.
  assert (u32 (snd_nxt_seq (snd c)) = snd_nxt_seq (snd c)) as Hu by by apply u32_small.
  assert (u16 (len m) = len m) as Hu16 by (apply u16_small; unfold TCP_HDR in *; lia).
  assert (u8 (data_flg k) = data_flg k) as Hu8 by by apply u8_small.
  exists m3, ck. split; [|done]. unfold tcp_send. mpure. cbn [scb]. rewrite Hst. mpure. mpure. cbn [scb out].
  set (c1 := push_to_scb_txq m (snd_nxt_seq (snd c)) (data_flg k) (len m) c).
  assert (txq c1 = [mq]) as Hq1 by (unfold c1; simpl; by rewrite Hq).
  assert (send_queue local_ip 2 (mktst c1 o) =
    Ok tt (mktst (set_snd_nxt (snd_nxt_seq (snd c) + len m) c) (o ++ [(m3, sraddr c)]))) as Eq.
  { cbn [send_queue]. mpure. cbn [scb]. unfold pop_from_scb_txq. rewrite Hq1. mpure. cbn [scb out].
    assert (set_queues [] (rxq c1) c1 = c) as -> by (unfold c1; destruct c; simpl in *; by subst).
    change (params mq) with (mkparams (u32 (snd_nxt_seq (snd c))) (u8 (data_flg k)) (u16 (len m))).
    cbn [sndnxt pflg datalen]. rewrite Hu, Hu16, Hu8. mrun E. mpure. cbn [scb out].
    mpure. cbn [scb]. change (txq (set_snd_nxt (snd_nxt_seq (snd c) + len m) c)) with (txq c).
    by rewrite Hq. }
  rewrite Hq1. mrun Eq. done.
Qed.

(** The size of the next segment. *)
Definition chunk (n : Z) : Z := if n <? TCP_MAX_DATA then n else TCP_MAX_DATA.

Lemma chunk_flg n :
  (if n <? TCP_MAX_DATA then Z.lor TCP_FLG_PSH TCP_FLG_ACK else TCP_FLG_ACK) = data_flg (chunk n).
Proof.
  unfold data_flg, chunk. destruct (n <? TCP_MAX_DATA) eqn:E; [by rewrite E|]. by rewrite Z.ltb_irrefl.
Qed.

Lemma chunk_le n : 0 < n -> 0 < chunk n <= n /\ chunk n <= TCP_MAX_DATA.
Proof. unfold chunk, TCP_MAX_DATA, ETH_MAX_SIZE. intros. destruct (Z.ltb_spec n (4000 - 14 - 20 - 20)); lia. Qed.

(** The sequence number after two stretches of data. *)
Lemma set_snd_nxt_twice a b c :
  set_snd_nxt (snd_nxt_seq (snd (set_snd_nxt a c)) + b) (set_snd_nxt a c) = set_snd_nxt (a + b) c.
Proof. unfold set_snd_nxt, set_snd. simpl. unfold u32. by rewrite wrap_add_l. Qed.

Lemma set_snd_nxt_id c :
  0 <= snd_nxt_seq (snd c) < 2 ^ 32 -> set_snd_nxt (snd_nxt_seq (snd c) + 0) c = c.
Proof.
  intros H. unfold set_snd_nxt, set_snd. rewrite Z.add_0_r, u32_small by done.
  by destruct c as [? ? ? ? ? ? ? ? ? [] ? ? ? ? ?].
Qed.

Lemma sent_nxt a c seq data segs : sent (set_snd_nxt a c) seq data segs -> sent c seq data segs.
Proof.
  revert seq data. induction segs as [|[m ra] segs IH]; intros seq data; [done|]. simpl.
  intros (pl & rest & ck & H1 & H2 & H3 & H4 & H5 & H6). exists pl, rest, ck. eauto 10.
Qed.

Lemma send_loop x fuel a0 data off c res st :
  tcp_cb st x = Some c -> state c = SOCK_CB_ESTAB -> txq c = [] -> 0 <= snd_nxt_seq (snd c) < 2 ^ 32 ->
  user_holds (smem st) a0 data -> Forall is_byte data -> (off <= length data)%nat ->
  (length data - off < fuel)%nat ->
  exists segs, let n := Z.of_nat (length data) - Z.of_nat off in
    socksend_loop local_ip fuel (true, x) (u64 (a0 + Z.of_nat off)) n res st =
      Ok (res + n) (put_cb x (set_snd_nxt (snd_nxt_seq (snd c) + n) c) (nout (net st) ++ segs) (smem st) st) /\
    sent c (snd_nxt_seq (snd c)) (drop off data) segs.
Proof.
  revert off c res st. induction fuel as [|fuel IH]; intros off c res st Hx Hst Hq Hs Hu Hb Ho Hf; [lia|].
  cbv zeta. cbn [socksend_loop]. destruct (Z.ltb_spec 0 (Z.of_nat (length data) - Z.of_nat off)) as [Hn|Hn].
  - set (n := Z.of_nat (length data) - Z.of_nat off) in *. change ((true, x).1) with true. cbv iota.
    fold (chunk n). rewrite chunk_flg. destruct (chunk_le n Hn) as [Hb1 Hb2]. set (b := chunk n) in *.
    set (pl := sub_bytes off (Z.to_nat b) data).
    assert (Z.of_nat (length pl) = b) as Hpl by (unfold pl; rewrite length_sub_bytes; lia).
    destruct (user_mbuf_ok (u64 (a0 + Z.of_nat off)) pl st) as (m & Em & Hok & Hp & Hlen & Hh);
      [unfold TCP_MAX_DATA in *; lia|rewrite Hpl; replace b with (Z.of_nat (Z.to_nat b)) by lia; apply Hu; lia|].
    rewrite Hpl in Em. rewrite (bind_ok _ _ _ _ _ Em).
    destruct (tcp_send_estab c m (nout (net st)) b) as (m3 & ck & Es & Hp3 & Hck);
      [done|done|done|done|unfold TCP_HDR, TCP_MAX_DATA, ETH_MAX_SIZE in *; lia| |
       unfold TCP_HDR, TCP_MAX_DATA, ETH_MAX_SIZE in *; lia|].
    { rewrite Hp. apply Forall_take, Forall_drop, Hb. }
    set (c2 := set_snd_nxt (snd_nxt_seq (snd c) + len m) c) in *.
    set (st2 := put_cb x c2 (nout (net st) ++ [(m3, sraddr c)]) (smem st) st).
    rewrite (bind_ok _ _ _ true st2).
    2: { rewrite (bind_ok _ _ _ _ _ (on_cb_ok x c _ _ _ _ _ Hx Es)). done. }
    destruct (IH (off + Z.to_nat b)%nat c2 (res + b) st2) as (segs & E & Hsent);
      [by apply put_cb_lookup with c|done|done|apply u32_range|done|done|lia|lia|].
    cbv zeta in E. replace (u64 (a0 + Z.of_nat (off + Z.to_nat b))) with (u64 (u64 (a0 + Z.of_nat off) + b)) in E
      by (unfold u64; rewrite wrap_add_l; f_equal; lia).
    replace (Z.of_nat (length data) - Z.of_nat (off + Z.to_nat b)) with (n - b) in E by lia.
    exists ((m3, sraddr c) :: segs). split.
    + etransitivity; [exact E|]. unfold st2. rewrite put_cb_twice. simpl nout. rewrite <-app_assoc.
      unfold c2. rewrite set_snd_nxt_twice, Hlen, Hpl. f_equal; [lia|]. f_equal. f_equal. lia.
    + exists pl, (drop (off + Z.to_nat b) data), ck. rewrite Hpl.
      split; [unfold pl, sub_bytes; by rewrite <-drop_drop, take_drop|]. split; [lia|]. split; [done|].
      split; [by rewrite Hp3, Hp|]. split; [done|].
      apply (sent_nxt (snd_nxt_seq (snd c) + len m)).
      replace (snd_nxt_seq (snd c) + b) with (snd_nxt_seq (snd c) + len m) by lia. exact Hsent.
  - exists []. rewrite !app_nil_r. replace (Z.of_nat (length data) - Z.of_nat off) with 0 by lia.
    rewrite set_snd_nxt_id, put_cb_id by done. split; [by rewrite Z.add_0_r|]. apply drop_ge. lia.
Qed.

End spec.

(** ** Instances *)

(** A process whose memory is an array of bytes from address 0 on. *)
#[export] Instance array_user : UserCopy bytes := {
  uc_copyout a bs := fun m =>
    if a + Z.of_nat (length bs) <=? Z.of_nat (length m) then Ok 0 (upd_bytes (Z.to_nat a) bs m) else Ok (-1) m;
  uc_copyin a n := fun m =>
    if a + n <=? Z.of_nat (length m) then Ok (sub_bytes (Z.to_nat a) (Z.to_nat n) m, 0) m else Ok ([], -1) m }.

Lemma array_area a n (m : bytes) :
  0 <= a -> 0 <= n -> a + n <= Z.of_nat (length m) -> Z.of_nat (length m) < 2 ^ 64 ->
  user_area a n (fun bs => upd_bytes (Z.to_nat a) bs m) m.
Proof.
  intros Ha Hn Hl Hm. split; [unfold upd_bytes; simpl; by rewrite Nat.add_0_r, take_drop|].
  intros bs bs'. rewrite length_app. intros Hb. unfold u64. rewrite wrap_small by lia. simpl.
  rewrite length_upd_bytes by lia. destruct (Z.leb_spec (a + Z.of_nat (length bs) + Z.of_nat (length bs')) (Z.of_nat (length m))); [|lia].
  replace (Z.to_nat (a + Z.of_nat (length bs))) with (Z.to_nat a + length bs)%nat by lia.
  rewrite upd_bytes_app by lia. done.
Qed.

Lemma array_holds (m : bytes) : Z.of_nat (length m) < 2 ^ 64 -> user_holds m 0 m.
Proof.
  intros Hm off k Hk. simpl. unfold u64. rewrite wrap_small, Z.add_0_l by lia.
  destruct (Z.leb_spec (Z.of_nat off + Z.of_nat k) (Z.of_nat (length m))); [|lia]. by rewrite !Nat2Z.id.
Qed.

(** The connection of [wit_conn] with the two packets "abc" and "de" received. *)
Definition wit_rx (t : bytes) : mbuf :=
  mkmbuf 0 None 20 (Z.of_nat (length t)) (upd_bytes 20 t (upd_bytes 0 (tcp_bytes (wit_hdr 16)) (mdata new_mbuf)))
    zero_params (Some 0).
Definition wit_open : sock_cb := set_queues [] [wit_rx [97; 98; 99]; wit_rx [100; 101]] wit_conn.
Definition wit_net (u : bytes) : sst bytes unit :=
  mksst (mknst (mkhtab {[1%positive := wit_open]} (<[entry_of 8080 := Some 1%positive]> (hheads wit_scbtab)))
           wit_ports [] []) wit_scbtab [] u tt.

Lemma wit_rx_ok t : (length t <= 10)%nat -> mbuf_ok (wit_rx t).
Proof.
  intros Ht. unfold mbuf_ok, wit_rx, MBUF_SIZE. cbn [head len mdata].
  pose proof new_mbuf_ok as (_ & _ & _ & Hm). unfold MBUF_SIZE in Hm.
  rewrite !length_upd_bytes; [lia| |rewrite length_upd_bytes]; change (length (tcp_bytes (wit_hdr 16))) with 20%nat; lia.
Qed.

Lemma sockrecv_stream_witness :
  exists k c', taken wit_open c' k 4 /\
    sockrecv (true, 1%positive) 2 4 false (wit_net (replicate 8 0)) =
      Ok k (put_cb 1 c' [] (upd_bytes 2 (take (Z.to_nat k) [97; 98; 99; 100; 101]) (replicate 8 0)) (wit_net (replicate 8 0))).
Proof.
  destruct (sockrecv_stream (wit_net (replicate 8 0)) 1 wit_open 2 4 false (fun bs => upd_bytes 2 bs (replicate 8 0)))
    as (k & c' & Ht & Hr).
  - split; [reflexivity|]. vm_compute. reflexivity.
  - discriminate.
  - lia.
  - repeat constructor; apply wit_rx_ok; simpl; lia.
  - lia.
  - apply (array_area 2 4); simpl; lia.
  - exists k, c'. split; [exact Ht|]. destruct Hr as [Hr|(Hr & _)]; [exact Hr|].
    exfalso. vm_compute in Hr. discriminate.
Defined.

