(* ===== verification/Virtio.v ===== *)
(** The driver of the disk: kernel/dev/virtio_disk.c.

    The driver and the device share the rings of queue 0.  Each stretch of the driver from
    taking [vdisk_lock] to releasing it, or to a [sleep] that releases it, is one function
    below and one step of the system in VirtioSpec.v.  A physical address is the object
    that it is the address of.  The local variables of a call ([idx] and the header
    [buf0] on the kernel stack) belong to the process. *)

From S2P Require Import Prelude.

Definition NUM : nat := 8.
Definition VRING_DESC_F_NEXT : Z := 1.
Definition VRING_DESC_F_WRITE : Z := 2.
Definition VIRTIO_BLK_T_IN : Z := 0.
Definition VIRTIO_BLK_T_OUT : Z := 1.
Definition VBSIZE : Z := 1024.

(** Where a descriptor points: nowhere, to the header of the process [p], to the data of the
    buffer [b], to the status byte [info[i].status]. *)
Inductive paddr := PNull | PHdr (p : nat) | PData (b : nat) | PStatus (i : nat).

Record VRingDesc := mkdesc { d_addr : paddr; d_len : Z; d_flags : Z; d_next : nat }.
Definition zero_desc : VRingDesc := mkdesc PNull 0 0 0.

(** [avail[1]] is [avail_idx], [avail[2..]] is [avail_ring]; of an element of the used
    ring only the id is read.  [info[i].b] and [info[i].status] are two arrays. *)
Record disk := mkdisk {
  desc : list VRingDesc; avail_idx : Z; avail_ring : list nat;
  used_id : Z; used_elems : list nat;
  dfree : list bool; used_idx : Z; info_b : list (option nat); info_status : list Z }.

Record vbuf := mkvbuf { b_disk : bool; b_blockno : Z; b_data : bytes }.
Record virtio_blk_outhdr := mkhdr { h_type : Z; h_reserved : Z; h_sector : Z }.

(** A process in [virtio_disk_rw] of a buffer: it waits for descriptors, or it has made
    its request and waits for the buffer, with the indices of its chain.  The flag says
    whether it sleeps. *)
Inductive vproc :=
| NeedDesc (b : nat) (write asleep : bool)
| OnDisk (b : nat) (write : bool) (i0 i1 i2 : nat) (asleep : bool).

(** The channels: [&disk.free[0]] and the buffer. *)
Inductive vchan := ChFree | ChBuf (b : nat).

(** What the device keeps: how far it has looked in the available ring, the requests it
    works on, and the bytes of the disk. *)
Record device := mkdev { dev_seen : Z; dev_work : list nat; image : Z -> Z }.

Record vst := mkvst {
  dk : disk; vbufs : gmap nat vbuf; vhdrs : gmap nat virtio_blk_outhdr;
  vprocs : gmap nat vproc; dev : device; mmio : list (Z * Z) }.
Abbreviation vM := (M vst).

(** ** Access to the state *)

Definition put_disk (d : disk) : vM unit :=
  modify (fun s => mkvst d (vbufs s) (vhdrs s) (vprocs s) (dev s) (mmio s)).
Definition get_disk : vM disk := gets dk.
Definition at_ {A} (l : list A) (i : nat) : vM A :=
  match l !! i with Some a => ret a | None => undef end.
Definition set_desc (f : list VRingDesc -> list VRingDesc) (d : disk) : disk :=
  mkdisk (f (desc d)) (avail_idx d) (avail_ring d) (used_id d) (used_elems d) (dfree d) (used_idx d) (info_b d) (info_status d).
Definition set_dfree (f : list bool -> list bool) (d : disk) : disk :=
  mkdisk (desc d) (avail_idx d) (avail_ring d) (used_id d) (used_elems d) (f (dfree d)) (used_idx d) (info_b d) (info_status d).
Definition set_avail (i : Z) (r : list nat) (d : disk) : disk :=
  mkdisk (desc d) i r (used_id d) (used_elems d) (dfree d) (used_idx d) (info_b d) (info_status d).
Definition set_used_idx (i : Z) (d : disk) : disk :=
  mkdisk (desc d) (avail_idx d) (avail_ring d) (used_id d) (used_elems d) (dfree d) i (info_b d) (info_status d).
Definition set_info (i : nat) (o : option nat) (d : disk) : disk :=
  mkdisk (desc d) (avail_idx d) (avail_ring d) (used_id d) (used_elems d) (dfree d) (used_idx d) (<[i := o]> (info_b d)) (info_status d).
Definition set_status (i : nat) (z : Z) (d : disk) : disk :=
  mkdisk (desc d) (avail_idx d) (avail_ring d) (used_id d) (used_elems d) (dfree d) (used_idx d) (info_b d) (<[i := z]> (info_status d)).
Definition upd_disk (f : disk -> disk) : vM unit := d ← get_disk; put_disk (f d).

Definition get_vbuf (b : nat) : vM vbuf := fun s =>
  match vbufs s !! b with Some x => Ok x s | None => Undef end.
Definition put_vbuf (b : nat) (x : vbuf) : vM unit :=
  modify (fun s => mkvst (dk s) (<[b := x]> (vbufs s)) (vhdrs s) (vprocs s) (dev s) (mmio s)).
Definition set_b_disk (z : bool) (x : vbuf) : vbuf := mkvbuf z (b_blockno x) (b_data x).
Definition put_hdr (p : nat) (h : virtio_blk_outhdr) : vM unit :=
  modify (fun s => mkvst (dk s) (vbufs s) (<[p := h]> (vhdrs s)) (vprocs s) (dev s) (mmio s)).
Definition set_procs (f : gmap nat vproc -> gmap nat vproc) : vM unit :=
  modify (fun s => mkvst (dk s) (vbufs s) (vhdrs s) (f (vprocs s)) (dev s) (mmio s)).
Definition write_reg (r v : Z) : vM unit :=
  modify (fun s => mkvst (dk s) (vbufs s) (vhdrs s) (vprocs s) (dev s) (mmio s ++ [(r, v)])).

(** [wakeup(chan)]. *)
Definition sleeps_on (ch : vchan) (q : vproc) : bool :=
  match ch, q with
  | ChFree, NeedDesc _ _ a => a
  | ChBuf b, OnDisk b' _ _ _ _ a => a && (b =? b')%nat
  | _, _ => false
  end.
Definition awake (q : vproc) : vproc :=
  match q with NeedDesc b w _ => NeedDesc b w false | OnDisk b w i0 i1 i2 _ => OnDisk b w i0 i1 i2 false end.
Definition vwakeup (ch : vchan) : vM unit :=
  set_procs (fmap (fun q => if sleeps_on ch q then awake q else q)).

(** ** Descriptors *)

(** The index of the descriptor, [None] for -1. *)
Fixpoint alloc_desc_loop (k i : nat) : vM (option nat) :=
  match k with
  | O => ret None
  | S k' =>
      d ← get_disk;
      f ← at_ (dfree d) i;
      if f : bool then upd_disk (set_dfree (fun l => <[i := false]> l));; ret (Some i)
      else alloc_desc_loop k' (S i)
  end.
Definition alloc_desc : vM (option nat) := alloc_desc_loop NUM 0.

Definition free_desc (i : nat) : vM unit :=
  if (NUM <=? i)%nat then panic "virtio_disk_intr 1"
  else
    d ← get_disk;
    f ← at_ (dfree d) i;
    if f : bool then panic "virtio_disk_intr 2"
    else
      x ← at_ (desc d) i;
      upd_disk (set_desc (fun l => <[i := mkdesc PNull (d_len x) (d_flags x) (d_next x)]> l));;
      upd_disk (set_dfree (fun l => <[i := true]> l));;
      vwakeup ChFree.

Fixpoint free_chain (fuel : nat) (i : nat) : vM unit :=
  match fuel with
  | O => nofuel
  | S fuel' =>
      free_desc i;;
      d ← get_disk;
      x ← at_ (desc d) i;
      if negb (Z.land (d_flags x) VRING_DESC_F_NEXT =? 0) then free_chain fuel' (d_next x) else ret tt
  end.
(** A chain has three descriptors. *)
Definition chain_fuel : nat := 3.

Fixpoint free_all (l : list nat) : vM unit :=
  match l with [] => ret tt | i :: l' => free_desc i;; free_all l' end.
(** The array [idx], [None] for -1. *)
Fixpoint alloc3_loop (k : nat) (idx : list nat) : vM (option (list nat)) :=
  match k with
  | O => ret (Some idx)
  | S k' =>
      o ← alloc_desc;
      match o with
      | None => free_all idx;; ret None
      | Some i => alloc3_loop k' (idx ++ [i])
      end
  end.
Definition alloc3_desc : vM (option (list nat)) := alloc3_loop 3 [].

(** ** Requests *)

(** Lines 188 to 238: the descriptors, the header, the available ring. *)
Definition submit (p b : nat) (write : bool) (i0 i1 i2 : nat) : vM unit :=
  x ← get_vbuf b;
  let sector := u32 (b_blockno x * (VBSIZE / 512)) in
  put_hdr p (mkhdr (if write then VIRTIO_BLK_T_OUT else VIRTIO_BLK_T_IN) 0 sector);;
  upd_disk (set_desc (fun l => <[i0 := mkdesc (PHdr p) 16 VRING_DESC_F_NEXT i1]> l));;
  upd_disk (set_desc (fun l =>
    <[i1 := mkdesc (PData b) VBSIZE (Z.lor (if write then 0 else VRING_DESC_F_WRITE) VRING_DESC_F_NEXT) i2]> l));;
  upd_disk (set_status i0 0);;
  upd_disk (set_desc (fun l => <[i2 := mkdesc (PStatus i0) 1 VRING_DESC_F_WRITE 0]> l));;
  put_vbuf b (set_b_disk true x);;
  upd_disk (set_info i0 (Some b));;
  d ← get_disk;
  upd_disk (set_avail (avail_idx d) (<[Z.to_nat (avail_idx d mod Z.of_nat NUM) := i0]> (avail_ring d)));;
  upd_disk (fun d => set_avail (u16 (avail_idx d + 1)) (avail_ring d) d);;
  write_reg 80 0.

(** [while(b->disk == 1) sleep(b, &disk.vdisk_lock)] and what follows; the call has
    returned when the process is in the driver no more. *)
Definition rw_wait (p b : nat) (write : bool) (i0 i1 i2 : nat) : vM unit :=
  x ← get_vbuf b;
  if b_disk x then set_procs (fun l => <[p := OnDisk b write i0 i1 i2 true]> l)
  else
    upd_disk (set_info i0 None);;
    free_chain chain_fuel i0;;
    set_procs (delete p).

(** [virtio_disk_rw] from the start, or from the [sleep] of line 185, on. *)
Definition virtio_disk_rw (p b : nat) (write : bool) : vM unit :=
  r ← alloc3_desc;
  match r with
  | Some [i0; i1; i2] => submit p b write i0 i1 i2;; rw_wait p b write i0 i1 i2
  | Some _ => undef
  | None => set_procs (fun l => <[p := NeedDesc b write true]> l)
  end.

(** ** The interrupt *)

Fixpoint virtio_disk_intr_loop (fuel : nat) : vM unit :=
  match fuel with
  | O => nofuel
  | S fuel' =>
      d ← get_disk;
      if negb (used_idx d mod Z.of_nat NUM =? used_id d mod Z.of_nat NUM) then
        id ← at_ (used_elems d) (Z.to_nat (used_idx d));
        st ← at_ (info_status d) id;
        if negb (st =? 0) then panic "virtio_disk_intr status"
        else
          o ← at_ (info_b d) id;
          match o with
          | None => undef
          | Some b =>
              x ← get_vbuf b;
              put_vbuf b (set_b_disk false x);;
              vwakeup (ChBuf b);;
              upd_disk (set_used_idx ((used_idx d + 1) mod Z.of_nat NUM));;
              virtio_disk_intr_loop fuel'
          end
      else ret tt
  end.
(** The distance of the two counters modulo [NUM] is less than [NUM]. *)
Definition virtio_disk_intr : vM unit := virtio_disk_intr_loop NUM.

(** ** Set-up *)

Section init.
(** The registers of the device, which do not change while it is set up. *)
Context (R : Z -> Z) (pages : Z).

Definition clear_feature (f b : Z) : Z := Z.land f (Z.lnot (Z.shiftl 1 b)).
Definition virtio_disk_init : vM unit :=
  if negb (R 0 =? 1953655158) || negb (R 4 =? 1) || negb (R 8 =? 2) || negb (R 12 =? 1431127377) then
    panic "could not find virtio disk"
  else
    write_reg 112 1;;
    write_reg 112 (Z.lor 1 2);;
    let features := foldl clear_feature (R 16) [5; 7; 11; 12; 27; 29; 28] in
    write_reg 32 features;;
    write_reg 112 (Z.lor (Z.lor 1 2) 8);;
    write_reg 112 (Z.lor (Z.lor (Z.lor 1 2) 8) 4);;
    write_reg 40 4096;;
    write_reg 48 0;;
    if R 52 =? 0 then panic "virtio disk has no queue 0"
    else if R 52 <? Z.of_nat NUM then panic "virtio disk max queue too short"
    else
      write_reg 56 (Z.of_nat NUM);;
      upd_disk (fun d => mkdisk (replicate NUM zero_desc) 0 (replicate NUM O) 0 (replicate NUM O)
                 (dfree d) (used_idx d) (info_b d) (info_status d));;
      write_reg 64 (Z.shiftr pages 12);;
      upd_disk (set_dfree (fun _ => replicate NUM true)).
End init.
