(* ===== verification/VirtioSpec.v ===== *)
(** The disk driver and the device together: every request reaches the disk, and the
    driver returns when it is done.

    The device is the one of the virtio specification (legacy interface): it takes the chains
    of the available ring in order, serves them in any order, and puts each that it has
    served on the used ring.  [vstep] interleaves the calls of the driver, its interrupt
    and the device. *)

From S2P Require Import Prelude Virtio.

(** ** The device *)

(** The [n] bytes from sector [s] on; the disk after [data] was stored there. *)
Definition rd_image (im : Z -> Z) (s : Z) (n : nat) : bytes := map (fun k => im (512 * s + Z.of_nat k)) (seq 0 n).
Definition wr_image (im : Z -> Z) (s : Z) (data : bytes) (o : Z) : Z :=
  if 512 * s <=? o then default (im o) (data !! Z.to_nat (o - 512 * s)) else im o.

Definition put_dev (v : device) : vM unit :=
  modify (fun s => mkvst (dk s) (vbufs s) (vhdrs s) (vprocs s) v (mmio s)).

(** The next chain of the available ring. *)
Definition dev_take : vM unit :=
  s ← get;
  let v := dev s in
  id ← at_ (avail_ring (dk s)) (Z.to_nat (dev_seen v mod Z.of_nat NUM));
  put_dev (mkdev (u16 (dev_seen v + 1)) (dev_work v ++ [id]) (image v)).

(** Serve the chain of [id]: header, data, status.  A chain of another form has no meaning. *)
Definition dev_done (id : nat) : vM unit :=
  s ← get;
  let d := dk s in let v := dev s in
  d0 ← at_ (desc d) id;
  d1 ← at_ (desc d) (d_next d0);
  d2 ← at_ (desc d) (d_next d1);
  match d_addr d0, d_addr d1, d_addr d2 with
  | PHdr p, PData b, PStatus i =>
      match vhdrs s !! p, vbufs s !! b with
      | Some h, Some x =>
          if (d_len d0 =? 16) && (d_flags d0 =? VRING_DESC_F_NEXT) && (d_len d2 =? 1) &&
             (d_flags d2 =? VRING_DESC_F_WRITE) && (d_len d1 =? Z.of_nat (length (b_data x))) then
            let fin im :=
              put_dev (mkdev (dev_seen v) (remove Nat.eq_dec id (dev_work v)) im);;
              upd_disk (set_status i 0);;
              upd_disk (fun d => mkdisk (desc d) (avail_idx d) (avail_ring d) (u16 (used_id d + 1))
                (<[Z.to_nat (used_id d mod Z.of_nat NUM) := id]> (used_elems d)) (dfree d) (used_idx d) (info_b d) (info_status d)) in
            if (h_type h =? VIRTIO_BLK_T_OUT) && (d_flags d1 =? VRING_DESC_F_NEXT) then
              fin (wr_image (image v) (h_sector h) (b_data x))
            else if (h_type h =? VIRTIO_BLK_T_IN) && (d_flags d1 =? Z.lor VRING_DESC_F_WRITE VRING_DESC_F_NEXT) then
              put_vbuf b (mkvbuf (b_disk x) (b_blockno x) (rd_image (image v) (h_sector h) (length (b_data x))));;
              fin (image v)
            else undef
          else undef
      | _, _ => undef
      end
  | _, _, _ => undef
  end.

(** ** The system *)

Definition buf_of (q : vproc) : nat := match q with NeedDesc b _ _ => b | OnDisk b _ _ _ _ _ => b end.
Definition chain_of (q : vproc) : list nat := match q with NeedDesc _ _ _ => [] | OnDisk _ _ i0 i1 i2 _ => [i0; i1; i2] end.

(** The buffer is in no call of the driver. *)
Definition buf_idle (b : nat) (st : vst) : Prop :=
  forall p q, vprocs st !! p = Some q -> buf_of q <> b.
(** No call of the driver is about the block. *)
Definition block_idle (n : Z) (st : vst) : Prop :=
  forall p q x, vprocs st !! p = Some q -> vbufs st !! buf_of q = Some x -> b_blockno x <> n.
Definition buf_ok (x : vbuf) : Prop := 0 <= b_blockno x < 2 ^ 31 /\ length (b_data x) = Z.to_nat VBSIZE.

(** The steps of the system.  A caller holds the sleep lock of its buffer, and the cache
    has one buffer for a block: the buffer and its block are in no other call. *)
Inductive vact :=
| ACall (p b : nat) (write : bool) | ARetry (p : nat) | AWait (p : nat) | AIntr
| ATake | ADone (id : nat) | AStore (b : nat) (x : vbuf).

(** The code that an action runs, when it can happen. *)
Definition vrun (a : vact) (st : vst) (m : vM unit) : Prop :=
  match a with
  | ACall p b w => vprocs st !! p = None /\ buf_idle b st /\
      (exists x, vbufs st !! b = Some x /\ buf_ok x /\ block_idle (b_blockno x) st) /\ m = virtio_disk_rw p b w
  | ARetry p => exists b w, vprocs st !! p = Some (NeedDesc b w false) /\ m = virtio_disk_rw p b w
  | AWait p => exists b w i0 i1 i2, vprocs st !! p = Some (OnDisk b w i0 i1 i2 false) /\ m = rw_wait p b w i0 i1 i2
  | AIntr => m = virtio_disk_intr
  | ATake => dev_seen (dev st) <> avail_idx (dk st) /\ m = dev_take
  | ADone id => id ∈ dev_work (dev st) /\ m = dev_done id
  | AStore b x => buf_idle b st /\ m = put_vbuf b x
  end.

Definition vstep (st st' : vst) : Prop := exists a m, vrun a st m /\ m st = Ok tt st'.

(** ** Running the parts of the driver *)

Definition dset (d : disk) (s : vst) : vst := mkvst d (vbufs s) (vhdrs s) (vprocs s) (dev s) (mmio s).
Definition wake1 (ch : vchan) (q : vproc) : vproc := if sleeps_on ch q then awake q else q.
Definition wake (ch : vchan) (s : vst) : vst :=
  mkvst (dk s) (vbufs s) (vhdrs s) (wake1 ch <$> vprocs s) (dev s) (mmio s).

Lemma wake1_idem ch q : wake1 ch (wake1 ch q) = wake1 ch q.
Proof.
  unfold wake1. destruct ch as [|c], q as [b w [] | b w i0 i1 i2 []]; simpl; try done.
  destruct (c =? b)%nat eqn:E; simpl; by rewrite ?E.
Qed.

Lemma wake_wake ch d s : wake ch (dset d (wake ch s)) = dset d (wake ch s).
Proof.
  unfold wake, dset. simpl. f_equal. rewrite <-map_fmap_compose. apply map_fmap_ext.
  intros. apply wake1_idem.
Qed.

Definition is_free (d : disk) (i : nat) : Prop := dfree d !! i = Some true.
Definition zap (x : VRingDesc) : VRingDesc := mkdesc PNull (d_len x) (d_flags x) (d_next x).

Lemma alloc_desc_loop_spec k i st :
  length (dfree (dk st)) = NUM -> (i + k = NUM)%nat ->
  (exists j, alloc_desc_loop k i st = Ok (Some j) (dset (set_dfree (fun l => <[j := false]> l) (dk st)) st) /\
     is_free (dk st) j /\ (i <= j)%nat) \/
  (alloc_desc_loop k i st = Ok None st /\ forall j, (i <= j)%nat -> ~ is_free (dk st) j).
Proof.
  intros Hl. revert i. induction k as [|k IH]; intros i Hk; cbn [alloc_desc_loop].
  - right. split; [done|]. intros j Hj Hf. apply lookup_lt_Some in Hf. lia.
  - mstep. destruct (lookup_lt_is_Some_2 (dfree (dk st)) i) as [f Hf]; [lia|].
    unfold at_. rewrite Hf. simpl. destruct f; [left; by exists i|].
    destruct (IH (S i)) as [(j & E & Hj & Hle)|[E Hno]]; [lia| |].
    + left. exists j. split; [exact E|]. split; [done|lia].
    + right. split; [exact E|]. intros j Hj. destruct (decide (j = i)) as [->|]; [|apply Hno; lia].
      unfold is_free. congruence.
Qed.

Lemma alloc_desc_spec st :
  length (dfree (dk st)) = NUM ->
  (exists j, alloc_desc st = Ok (Some j) (dset (set_dfree (fun l => <[j := false]> l) (dk st)) st) /\ is_free (dk st) j) \/
  (alloc_desc st = Ok None st /\ forall j, ~ is_free (dk st) j).
Proof.
  intros Hl. destruct (alloc_desc_loop_spec NUM 0 st Hl) as [(j & E & Hf & _)|[E Hn]]; [done| |].
  - left. by exists j.
  - right. split; [exact E|]. intros j. apply Hn. lia.
Qed.

Lemma free_desc_ok i x st :
  dfree (dk st) !! i = Some false -> (i < NUM)%nat -> desc (dk st) !! i = Some x ->
  free_desc i st =
    Ok tt (wake ChFree (dset (set_dfree (fun l => <[i := true]> l) (set_desc (fun l => <[i := zap x]> l) (dk st))) st)).
Proof.
  intros Hf Hi Hx. unfold free_desc. destruct (Nat.leb_spec NUM i); [lia|]. mstep. unfold at_.
  rewrite Hf. simpl. rewrite Hx. done.
Qed.

(** Changes of the driver that no request notices: addresses of free descriptors are
    cleared, sleepers on [free] are woken. *)
Definition quiet (st st' : vst) : Prop :=
  exists g, (length (g (desc (dk st))) = length (desc (dk st)) /\
     forall i, ~ is_free (dk st) i -> g (desc (dk st)) !! i = desc (dk st) !! i) /\
  exists f, (f = id \/ f = wake1 ChFree) /\
  st' = mkvst (set_desc g (dk st)) (vbufs st) (vhdrs st) (f <$> vprocs st) (dev st) (mmio st).

(** Mark the descriptors [idx]. *)
Definition mark (b : bool) (idx : list nat) (l : list bool) : list bool := foldl (fun l i => <[i := b]> l) l idx.
#[local] Arguments mark : simpl never.

Lemma length_mark b idx l : length (mark b idx l) = length l.
Proof. unfold mark. revert l. induction idx as [|i idx IH]; intros l; [done|]. simpl. rewrite IH. apply length_insert. Qed.

Lemma mark_lookup b idx l i :
  mark b idx l !! i = if decide (i ∈ idx /\ (i < length l)%nat) then Some b else l !! i.
Proof.
  unfold mark. revert l. induction idx as [|j idx IH]; intros l; simpl.
  - done.
  - rewrite IH, length_insert. destruct (decide (i = j)) as [->|Hne].
    + destruct (decide (j < length l)%nat).
      * rewrite (decide_True (P := j ∈ j :: idx /\ _)) by set_solver.
        destruct (decide (j ∈ idx /\ _)); [done|]. by rewrite list_lookup_insert_eq.
      * rewrite !decide_False by tauto. by rewrite list_insert_ge by lia.
    + rewrite list_lookup_insert_ne by done. repeat case_decide; try done; set_solver.
Qed.

Lemma mark_app b idx j l : mark b (idx ++ [j]) l = <[j := b]> (mark b idx l).
Proof. unfold mark. by rewrite foldl_app. Qed.

(** Marking free descriptors and unmarking them. *)
Lemma mark_mark idx l : (forall i, i ∈ idx -> l !! i = Some true) -> mark true idx (mark false idx l) = l.
Proof.
  intros H. apply list_eq. intros i. rewrite !mark_lookup, length_mark.
  case_decide as Hd; [by rewrite H by apply Hd|]. done.
Qed.

Lemma free_all_spec idx st :
  NoDup idx -> (forall i, i ∈ idx -> dfree (dk st) !! i = Some false) ->
  length (dfree (dk st)) = NUM -> length (desc (dk st)) = NUM ->
  exists ds f, free_all idx st = Ok tt (mkvst (set_dfree (mark true idx) (set_desc (fun _ => ds) (dk st)))
      (vbufs st) (vhdrs st) (f <$> vprocs st) (dev st) (mmio st)) /\
    (f = id \/ f = wake1 ChFree) /\ length ds = NUM /\ forall i, i ∉ idx -> ds !! i = desc (dk st) !! i.
Proof.
  revert st. induction idx as [|i idx IH]; intros st Hnd Hm Hf Hd; cbn [free_all].
  - exists (desc (dk st)), id. rewrite map_fmap_id. destruct st as [[] ? ? ? ? ?]. simpl in *. auto.
  - apply NoDup_cons in Hnd as [Hi Hnd]. assert (dfree (dk st) !! i = Some false) as Hfi by (apply Hm; set_solver).
    assert (i < NUM)%nat as Li by (apply lookup_lt_Some in Hfi; lia).
    destruct (lookup_lt_is_Some_2 (desc (dk st)) i) as [x X]; [lia|].
    rewrite (bind_ok _ _ _ _ _ (free_desc_ok i x st Hfi Li X)). set (st1 := wake _ _).
    destruct (IH st1) as (ds & f & E & Hff & Hl & Hds); [done| |by simpl; rewrite length_insert|by simpl; rewrite length_insert|].
    { intros j Hj. simpl. rewrite list_lookup_insert_ne by congruence. apply Hm. set_solver. }
    exists ds, (wake1 ChFree). rewrite E. split; [|split; [by right|split; [done|]]].
    + f_equal. unfold st1, wake, dset. simpl. f_equal. rewrite <-map_fmap_compose. apply map_fmap_ext.
      intros k q _. destruct Hff as [->| ->]; [done|]. apply wake1_idem.
    + intros j Hj. rewrite Hds by set_solver. simpl. apply list_lookup_insert_ne. set_solver.
Qed.

(** At most two descriptors are free. *)
Definition few_free (d : disk) : Prop := exists l, (length l <= 2)%nat /\ forall i, is_free d i -> i ∈ l.

Lemma alloc3_loop_spec k idx st :
  length (dfree (dk st)) = NUM -> length (desc (dk st)) = NUM -> (length idx + k <= 3)%nat ->
  NoDup idx -> (forall i, i ∈ idx -> is_free (dk st) i) ->
  (exists idx', length idx' = k /\
     alloc3_loop k idx (dset (set_dfree (mark false idx) (dk st)) st) =
       Ok (Some (idx ++ idx')) (dset (set_dfree (mark false (idx ++ idx')) (dk st)) st) /\
     NoDup (idx ++ idx') /\ forall i, i ∈ idx ++ idx' -> is_free (dk st) i) \/
  (exists st', alloc3_loop k idx (dset (set_dfree (mark false idx) (dk st)) st) = Ok None st' /\
     quiet st st' /\ few_free (dk st)).
Proof.
  intros Hf Hd. revert idx. induction k as [|k IH]; intros idx Hk Hnd Hfr; cbn [alloc3_loop].
  - left. exists []. rewrite app_nil_r. done.
  - set (st1 := dset _ st).
    assert (forall i, is_free (dk st1) i <-> is_free (dk st) i /\ i ∉ idx) as F1.
    { intros i. unfold is_free, st1. simpl. rewrite mark_lookup. case_decide as Hi; [split; [done|tauto]|].
      split; [|tauto]. intros Hx. split; [done|]. intros Hin. apply Hi. split; [done|]. by apply lookup_lt_Some in Hx. }
    assert (length (dfree (dk st1)) = NUM) as Hf1 by (simpl; by rewrite length_mark).
    destruct (alloc_desc_spec st1 Hf1) as [(j & E & Hj)|[E Hno]]; rewrite (bind_ok _ _ _ _ _ E).
    + apply F1 in Hj as [Hj Hji].
      assert (dset (set_dfree (fun l => <[j := false]> l) (dk st1)) st1 =
        dset (set_dfree (mark false (idx ++ [j])) (dk st)) st) as ->
        by (unfold st1, dset, set_dfree; simpl; by rewrite mark_app).
      destruct (IH (idx ++ [j])) as [(idx' & Hl & E' & Hnd' & Hfr')|(st' & E' & Hq)].
      * rewrite length_app. simpl. lia.
      * apply NoDup_app. split; [done|]. split; [set_solver|]. apply NoDup_singleton.
      * intros i [Hi|Hi]%elem_of_app; [by apply Hfr|]. apply list_elem_of_singleton in Hi as ->. done.
      * left. exists (j :: idx'). rewrite <-app_assoc in *. simpl in *. split; [lia|]. done.
      * right. by exists st'.
    + right. destruct (free_all_spec idx st1) as (ds & f & Ef & Hff & Hl & Hds); [done| |done|done|].
      { intros i Hi. simpl. rewrite mark_lookup. apply decide_True. split; [done|].
        specialize (Hfr i Hi). by apply lookup_lt_Some in Hfr. }
      eexists. rewrite (bind_ok _ _ _ _ _ Ef). split; [reflexivity|]. split.
      * exists (fun _ => ds). split; [split; [congruence|]|].
        { intros i Hi. apply Hds. intros Hin. by apply Hi, Hfr. }
        exists f. split; [done|]. f_equal. unfold set_dfree, set_desc. simpl. f_equal. by apply mark_mark.
      * exists idx. split; [lia|]. intros i Hi. destruct (decide (i ∈ idx)); [done|].
        exfalso. apply (Hno i). by apply F1.
Qed.

Lemma alloc3_spec st :
  length (dfree (dk st)) = NUM -> length (desc (dk st)) = NUM ->
  (exists i0 i1 i2, alloc3_desc st = Ok (Some [i0; i1; i2]) (dset (set_dfree (mark false [i0; i1; i2]) (dk st)) st) /\
     NoDup [i0; i1; i2] /\ forall i, i ∈ [i0; i1; i2] -> is_free (dk st) i) \/
  (exists st', alloc3_desc st = Ok None st' /\ quiet st st' /\ few_free (dk st)).
Proof.
  intros Hf Hd. assert (dset (set_dfree (mark false []) (dk st)) st = st) as E0 by by destruct st as [[] ? ? ? ? ?].
  destruct (alloc3_loop_spec 3 [] st) as [(idx & Hl & E & Hnd & Hfr)|(st' & E & H)];
    [done|done|simpl; lia|constructor|set_solver| |]; rewrite E0 in E.
  - left. destruct idx as [|i0 [|i1 [|i2 []]]]; try done. by exists i0, i1, i2.
  - right. by exists st'.
Qed.

(** ** The invariant *)

(** The content of block [n]. *)
Definition vblock (im : Z -> Z) (n : Z) : bytes := rd_image im (n * 2) (Z.to_nat VBSIZE).
#[local] Arguments rd_image : simpl never.
#[local] Arguments vblock : simpl never.

(** The chain of a request is in the form the device expects. *)
Definition req_ok (st : vst) (p b : nat) (w : bool) (i0 i1 i2 : nat) : Prop :=
  desc (dk st) !! i0 = Some (mkdesc (PHdr p) 16 VRING_DESC_F_NEXT i1) /\
  desc (dk st) !! i1 = Some (mkdesc (PData b) VBSIZE (Z.lor (if w then 0 else VRING_DESC_F_WRITE) VRING_DESC_F_NEXT) i2) /\
  desc (dk st) !! i2 = Some (mkdesc (PStatus i0) 1 VRING_DESC_F_WRITE 0) /\
  info_b (dk st) !! i0 = Some (Some b) /\ info_status (dk st) !! i0 = Some 0 /\
  exists x, vbufs st !! b = Some x /\
    vhdrs st !! p = Some (mkhdr (if w then VIRTIO_BLK_T_OUT else VIRTIO_BLK_T_IN) 0 (b_blockno x * 2)).

(** A request that the interrupt has not yet reported. *)
Definition pending (st : vst) (i : nat) : Prop :=
  exists p b w i1 i2 a x, vprocs st !! p = Some (OnDisk b w i i1 i2 a) /\ vbufs st !! b = Some x /\ b_disk x = true.

(** The ring holds [q] from the counter [c] on. *)
Definition ring (r : list nat) (c : Z) (q : list nat) : Prop :=
  length r = NUM /\ forall k i, q !! k = Some i -> r !! Z.to_nat ((c + Z.of_nat k) mod Z.of_nat NUM) = Some i.

(** [aq] are the chains that the device has not taken, [uq] those it has served and the
    interrupt has not looked at. *)
Record vinv (st : vst) (aq uq : list nat) : Prop := {
  vi_desc : length (desc (dk st)) = NUM;
  vi_free : length (dfree (dk st)) = NUM;
  vi_info : length (info_b (dk st)) = NUM;
  vi_stat : length (info_status (dk st)) = NUM;
  (* a descriptor is in use when it is in a chain, and in one chain only *)
  vi_used : forall i, (i < NUM)%nat -> (dfree (dk st) !! i = Some false <-> exists p q, vprocs st !! p = Some q /\ i ∈ chain_of q);
  vi_chain : forall p q, vprocs st !! p = Some q -> NoDup (chain_of q) /\ forall i, i ∈ chain_of q -> (i < NUM)%nat;
  vi_own : forall p p' q q' i, vprocs st !! p = Some q -> vprocs st !! p' = Some q' ->
    i ∈ chain_of q -> i ∈ chain_of q' -> p = p';
  vi_req : forall p b w i0 i1 i2 a, vprocs st !! p = Some (OnDisk b w i0 i1 i2 a) -> req_ok st p b w i0 i1 i2;
  (* the buffers and the blocks of different calls are different *)
  vi_buf : forall p q, vprocs st !! p = Some q -> exists x, vbufs st !! buf_of q = Some x /\ buf_ok x;
  vi_excl : forall p p' q q' x x', vprocs st !! p = Some q -> vprocs st !! p' = Some q' ->
    vbufs st !! buf_of q = Some x -> vbufs st !! buf_of q' = Some x' -> b_blockno x = b_blockno x' -> p = p';
  (* the rings *)
  vi_avail : ring (avail_ring (dk st)) (dev_seen (dev st)) aq;
  vi_aidx : avail_idx (dk st) = u16 (dev_seen (dev st) + Z.of_nat (length aq)) /\ 0 <= dev_seen (dev st) < 2 ^ 16;
  vi_uring : ring (used_elems (dk st)) (used_idx (dk st)) uq;
  vi_uidx : used_id (dk st) mod Z.of_nat NUM = (used_idx (dk st) + Z.of_nat (length uq)) mod Z.of_nat NUM /\
    0 <= used_idx (dk st) < Z.of_nat NUM /\ 0 <= used_id (dk st) < 2 ^ 16;
  (* every pending request is in exactly one place *)
  vi_once : NoDup (aq ++ dev_work (dev st) ++ uq);
  vi_pend : forall i, i ∈ aq ++ dev_work (dev st) ++ uq <-> pending st i;
  (* what the device has served is on the disk and in the buffer *)
  vi_done : forall p b w i0 i1 i2 a x, vprocs st !! p = Some (OnDisk b w i0 i1 i2 a) -> vbufs st !! b = Some x ->
    i0 ∉ aq ++ dev_work (dev st) -> b_data x = vblock (image (dev st)) (b_blockno x);
  (* who sleeps has a reason to *)
  vi_sleepf : forall p b w, vprocs st !! p = Some (NeedDesc b w true) -> few_free (dk st);
  vi_sleepb : forall p b w i0 i1 i2 x, vprocs st !! p = Some (OnDisk b w i0 i1 i2 true) -> vbufs st !! b = Some x ->
    b_disk x = true }.

(** ** Rings *)

Lemma u16_mod8 z : u16 z mod Z.of_nat NUM = z mod Z.of_nat NUM.
Proof. unfold u16, wrap. apply Z.mod_mod_divide. by exists 8192. Qed.

Lemma mod8_lt z : (Z.to_nat (z mod Z.of_nat NUM) < NUM)%nat.
Proof. pose proof (Z.mod_pos_bound z (Z.of_nat NUM) ltac:(done)). lia. Qed.

Lemma ring_push r c q i :
  ring r c q -> (length q < NUM)%nat ->
  ring (<[Z.to_nat ((c + Z.of_nat (length q)) mod Z.of_nat NUM) := i]> r) c (q ++ [i]).
Proof.
  intros [Hl Hr] Hq. split; [by rewrite length_insert|]. intros k j Hk.
  destruct (decide (k = length q)) as [->|Hne].
  - rewrite lookup_app_r, Nat.sub_diag in Hk by lia. injection Hk as ->.
    apply list_lookup_insert_eq. rewrite Hl. apply mod8_lt.
  - assert (k < length (q ++ [i]))%nat as Hlt by (by apply lookup_lt_Some in Hk). rewrite length_app in Hlt. simpl in Hlt.
    rewrite lookup_app_l in Hk by lia. rewrite list_lookup_insert_ne; [by apply Hr|].
    intros E. apply (f_equal Z.of_nat) in E.
    rewrite !Z2Nat.id in E by (apply Z.mod_pos_bound; done).
    unfold NUM in *. Z.to_euclidean_division_equations; lia.
Qed.

Lemma ring_ext r c c' q : c mod Z.of_nat NUM = c' mod Z.of_nat NUM -> ring r c q -> ring r c' q.
Proof.
  intros E [Hl Hr]. split; [done|]. intros k i Hk. rewrite <-(Hr k i Hk). do 2 f_equal.
  rewrite Zplus_mod, <-E, <-Zplus_mod. done.
Qed.

Lemma ring_pop r c i q : ring r c (i :: q) -> r !! Z.to_nat (c mod Z.of_nat NUM) = Some i /\ ring r (c + 1) q.
Proof.
  intros [Hl Hr]. split.
  - specialize (Hr O i eq_refl). by rewrite Z.add_0_r in Hr.
  - split; [done|]. intros k j Hk. rewrite <-(Hr (S k) j Hk). do 3 f_equal. lia.
Qed.

(** ** At most two requests are in the rings and in the device *)

Lemma chains_of_heads st l :
  (forall p q, vprocs st !! p = Some q -> NoDup (chain_of q) /\ forall i, i ∈ chain_of q -> (i < NUM)%nat) ->
  (forall p p' q q' i, vprocs st !! p = Some q -> vprocs st !! p' = Some q' ->
    i ∈ chain_of q -> i ∈ chain_of q' -> p = p') ->
  NoDup l -> (forall i, i ∈ l -> pending st i) ->
  exists ch, length ch = (3 * length l)%nat /\ NoDup ch /\ forall j, j ∈ ch -> (j < NUM)%nat /\
    exists p b w i i1 i2 a, vprocs st !! p = Some (OnDisk b w i i1 i2 a) /\ i ∈ l /\ j ∈ [i; i1; i2].
Proof.
  intros Hc Ho. induction l as [|i l IH]; intros Hnd Hp.
  - exists []. split; [done|]. split; [constructor|]. set_solver.
  - apply NoDup_cons in Hnd as [Hi Hnd]. destruct (IH Hnd) as (ch & Hl & Hn & Hj); [set_solver|].
    destruct (Hp i) as (p & b & w & i1 & i2 & a & x & Hq & _); [set_solver|].
    destruct (Hc p _ Hq) as [Hnq Hlt]. exists ([i; i1; i2] ++ ch).
    split; [simpl; lia|]. split.
    + apply NoDup_app. split; [exact Hnq|]. split; [|done]. intros j Hj1 Hj2.
      destruct (Hj j Hj2) as (_ & p' & b' & w' & i' & i1' & i2' & a' & Hq' & Hi' & Hj').
      pose proof (Ho p p' _ _ j Hq Hq' Hj1 Hj') as <-. rewrite Hq in Hq'. injection Hq' as _ _ <- _ _ _. done.
    + intros j [Hj1|Hj2]%elem_of_app.
      * split; [by apply Hlt|]. exists p, b, w, i, i1, i2, a. split; [done|]. split; [set_solver|done].
      * destruct (Hj j Hj2) as (? & p' & b' & w' & i' & i1' & i2' & a' & Hq' & Hi' & Hj').
        split; [done|]. exists p', b', w', i', i1', i2', a'. split; [done|]. split; [set_solver|done].
Qed.

Lemma in_flight st aq uq : vinv st aq uq -> (length (aq ++ dev_work (dev st) ++ uq) <= 2)%nat.
Proof.
  intros Hi. destruct (chains_of_heads st (aq ++ dev_work (dev st) ++ uq)) as (ch & Hl & Hn & Hj);
    [apply Hi|apply Hi|apply Hi|apply Hi|].
  assert (length ch <= NUM)%nat; [|unfold NUM in *; lia].
  rewrite <-(length_seq NUM 0). apply submseteq_length, NoDup_submseteq; [done|].
  intros j Hjc. apply elem_of_seq. destruct (Hj j Hjc). lia.
Qed.

(** ** Waking processes *)

(** The same call, possibly no longer asleep. *)
Inductive roused : vproc -> vproc -> Prop :=
| roused_desc b w a a' : (a' = true -> a = true) -> roused (NeedDesc b w a) (NeedDesc b w a')
| roused_disk b w i0 i1 i2 a a' : (a' = true -> a = true) -> roused (OnDisk b w i0 i1 i2 a) (OnDisk b w i0 i1 i2 a').

Lemma roused_wake1 ch q : roused q (wake1 ch q).
Proof. unfold wake1. destruct (sleeps_on ch q); [|by destruct q; constructor]. destruct q; simpl; constructor; done. Qed.
Lemma roused_refl q : roused q q.
Proof. destruct q; by constructor. Qed.
Lemma roused_chain q q' : roused q q' -> chain_of q' = chain_of q /\ buf_of q' = buf_of q.
Proof. by destruct 1. Qed.

(** A map of the processes to the same calls. *)
Definition rouses (f : vproc -> vproc) : Prop := forall q, roused q (f q).

Lemma rouses_inv f (m : gmap nat vproc) p q' :
  rouses f -> (f <$> m) !! p = Some q' -> exists q, m !! p = Some q /\ roused q q'.
Proof. intros Hf. rewrite lookup_fmap_Some. intros (q & <- & H). eauto. Qed.

Lemma roused_to_disk q b w i0 i1 i2 a' :
  roused q (OnDisk b w i0 i1 i2 a') -> exists a, q = OnDisk b w i0 i1 i2 a /\ (a' = true -> a = true).
Proof. inversion 1; subst. eauto. Qed.
Lemma roused_to_desc q b w a' : roused q (NeedDesc b w a') -> exists a, q = NeedDesc b w a /\ (a' = true -> a = true).
Proof. inversion 1; subst. eauto. Qed.
Lemma roused_from_disk q' b w i0 i1 i2 a : roused (OnDisk b w i0 i1 i2 a) q' -> exists a', q' = OnDisk b w i0 i1 i2 a'.
Proof. inversion 1; subst. eauto. Qed.

(** The state after processes were woken. *)
Definition rouse (f : vproc -> vproc) (st : vst) : vst :=
  mkvst (dk st) (vbufs st) (vhdrs st) (f <$> vprocs st) (dev st) (mmio st).

Lemma pending_rouse f st i : rouses f -> pending (rouse f st) i <-> pending st i.
Proof.
  intros Hf. split; intros (p & b & w & i1 & i2 & a & x & Hp & Hx).
  - apply rouses_inv in Hp as (q & Hq & Hr); [|done]. apply roused_to_disk in Hr as (a' & -> & _).
    by exists p, b, w, i1, i2, a', x.
  - destruct (roused_from_disk _ _ _ _ _ _ _ (Hf (OnDisk b w i i1 i2 a))) as [a' E].
    exists p, b, w, i1, i2, a', x. split; [|done]. simpl. by rewrite lookup_fmap, Hp, <-E.
Qed.

Lemma rouse_used f st i :
  rouses f -> (exists p q, vprocs (rouse f st) !! p = Some q /\ i ∈ chain_of q) <->
  exists p q, vprocs st !! p = Some q /\ i ∈ chain_of q.
Proof.
  intros Hf. split; intros (p & q & Hp & Hi).
  - apply rouses_inv in Hp as (q0 & Hq & Hr); [|done]. apply roused_chain in Hr as [E _].
    exists p, q0. by rewrite <-E.
  - exists p, (f q). split; [simpl; by rewrite lookup_fmap, Hp|].
    destruct (roused_chain _ _ (Hf q)) as [-> _]. done.
Qed.

Ltac unrouse :=
  repeat match goal with
  | Hf : rouses ?f, H : vprocs (rouse ?f ?st) !! ?p = Some ?q |- _ =>
      let q0 := fresh "q" in let H0 := fresh "Hr" in let Hc := fresh "Hc" in let Hb := fresh "Hb" in
      apply (rouses_inv f (vprocs st) p q Hf) in H as (q0 & H & H0);
      pose proof (roused_chain _ _ H0) as [Hc Hb]; rewrite ?Hc, ?Hb in *
  end.

(** Waking processes keeps the invariant. *)
Lemma vinv_rouse f st aq uq : rouses f -> vinv st aq uq -> vinv (rouse f st) aq uq.
Proof.
  intros Hf I. split; try apply I; intros; unrouse.
  - rewrite rouse_used by done. by apply I.
  - by apply (vi_chain _ _ _ I) in H.
  - by eapply (vi_own _ _ _ I); eauto.
  - apply roused_to_disk in Hr as (a' & -> & _). by apply (vi_req _ _ _ I) in H.
  - by apply (vi_buf _ _ _ I) in H.
  - by eapply (vi_excl _ _ _ I p p'); eauto.
  - rewrite pending_rouse by done. by apply I.
  - apply roused_to_disk in Hr as (a' & -> & _). by eapply (vi_done _ _ _ I); eauto.
  - apply roused_to_desc in Hr as (a & -> & Ha). rewrite Ha in H by done. by eapply (vi_sleepf _ _ _ I).
  - apply roused_to_disk in Hr as (a' & -> & Ha). rewrite Ha in H by done. by eapply (vi_sleepb _ _ _ I).
Qed.

Lemma chain_not_free st aq uq p q i : vinv st aq uq -> vprocs st !! p = Some q -> i ∈ chain_of q -> ~ is_free (dk st) i.
Proof.
  intros I Hp Hi Hf. destruct (vi_chain _ _ _ I p q Hp) as [_ Hl].
  assert (dfree (dk st) !! i = Some false) as E by (apply (vi_used _ _ _ I i); eauto).
  unfold is_free in Hf. congruence.
Qed.

(** Descriptors that are free can be changed. *)
Lemma vinv_desc g st aq uq :
  vinv st aq uq -> length (g (desc (dk st))) = NUM ->
  (forall i, ~ is_free (dk st) i -> g (desc (dk st)) !! i = desc (dk st) !! i) ->
  vinv (dset (set_desc g (dk st)) st) aq uq.
Proof.
  intros I Hl Hg. split; try apply I; [done|]. intros p b w i0 i1 i2 a Hp.
  destruct (vi_req _ _ _ I p b w i0 i1 i2 a Hp) as (H0 & H1 & H2 & H3).
  assert (forall i, i ∈ [i0; i1; i2] -> g (desc (dk st)) !! i = desc (dk st) !! i) as E
    by (intros i Hi; apply Hg; by eapply chain_not_free).
  split; [simpl; rewrite E by set_solver; done|]. split; [simpl; rewrite E by set_solver; done|].
  split; [simpl; rewrite E by set_solver; done|]. exact H3.
Qed.

Lemma rouses_id : rouses id.
Proof. intros q. apply roused_refl. Qed.
Lemma rouses_wake ch : rouses (wake1 ch).
Proof. intros q. apply roused_wake1. Qed.

Lemma vinv_quiet st st' aq uq : vinv st aq uq -> quiet st st' -> vinv st' aq uq.
Proof.
  intros I (g & [Hl Hg] & f & Hf & ->).
  apply (vinv_rouse f (dset (set_desc g (dk st)) st)); [destruct Hf as [-> | ->]; auto using rouses_id, rouses_wake|].
  apply vinv_desc; [done| |done]. rewrite Hl. apply I.
Qed.

(** ** Steps that move no data *)

(** The disk and the contents of the buffers stay, and every call goes on. *)
Definition calm (st st' : vst) : Prop :=
  image (dev st') = image (dev st) /\
  (forall b x, vbufs st !! b = Some x -> exists x', vbufs st' !! b = Some x' /\
     b_blockno x' = b_blockno x /\ b_data x' = b_data x) /\
  forall p, is_Some (vprocs st !! p) -> is_Some (vprocs st' !! p).

Lemma calm_trans st1 st2 st3 : calm st1 st2 -> calm st2 st3 -> calm st1 st3.
Proof.
  intros (I1 & B1 & P1) (I2 & B2 & P2). split; [congruence|]. split; [|eauto].
  intros b x Hx. destruct (B1 b x Hx) as (x1 & H1 & E1 & F1). destruct (B2 b x1 H1) as (x2 & H2 & E2 & F2).
  exists x2. split; [done|]. split; congruence.
Qed.

Lemma calm_bufs b x x' st st' :
  image (dev st') = image (dev st) -> vbufs st !! b = Some x -> vbufs st' = <[b := x']> (vbufs st) ->
  b_blockno x' = b_blockno x -> b_data x' = b_data x ->
  (forall p, is_Some (vprocs st !! p) -> is_Some (vprocs st' !! p)) -> calm st st'.
Proof.
  intros Hi Hx E E1 E2 Hp. split; [done|]. split; [|done]. intros b' y Hy. rewrite E.
  destruct (decide (b' = b)) as [->|Hne]; [|exists y; by rewrite lookup_insert_ne].
  exists x'. rewrite lookup_insert_eq. assert (y = x) as -> by congruence. done.
Qed.

Lemma calm_same st st' :
  image (dev st') = image (dev st) -> vbufs st' = vbufs st ->
  (forall p, is_Some (vprocs st !! p) -> is_Some (vprocs st' !! p)) -> calm st st'.
Proof. intros Hi E Hp. split; [done|]. split; [|done]. intros b x Hx. rewrite E. eauto. Qed.

Lemma is_Some_insert p q (m : gmap nat vproc) p' : is_Some (m !! p') -> is_Some (<[p := q]> m !! p').
Proof. destruct (decide (p = p')) as [->|]; [by rewrite lookup_insert_eq|by rewrite lookup_insert_ne]. Qed.
Lemma is_Some_wake (f : vproc -> vproc) (m : gmap nat vproc) p' : is_Some (m !! p') -> is_Some ((f <$> m) !! p').
Proof. by rewrite lookup_fmap, fmap_is_Some. Qed.

Lemma calm_quiet st st' : quiet st st' -> calm st st'.
Proof. intros (g & _ & f & _ & ->). apply calm_same; [done|done|]. intros p. apply is_Some_wake. Qed.

(** ** A process enters the driver *)

Definition pset (p : nat) (q : vproc) (st : vst) : vst :=
  mkvst (dk st) (vbufs st) (vhdrs st) (<[p := q]> (vprocs st)) (dev st) (mmio st).

(** [p] holds no descriptor, and nobody else is about the block of [b]. *)
Definition enters (st : vst) (p b : nat) : Prop :=
  (forall q, vprocs st !! p = Some q -> chain_of q = []) /\
  exists x, vbufs st !! b = Some x /\ buf_ok x /\
    forall p' q x', p' <> p -> vprocs st !! p' = Some q -> vbufs st !! buf_of q = Some x' -> b_blockno x' <> b_blockno x.

Lemma pset_used p b w a st i :
  (forall q, vprocs st !! p = Some q -> chain_of q = []) ->
  (exists p' q, vprocs (pset p (NeedDesc b w a) st) !! p' = Some q /\ i ∈ chain_of q) <->
  exists p' q, vprocs st !! p' = Some q /\ i ∈ chain_of q.
Proof.
  intros He. split; intros (p' & q & Hp & Hi).
  - simpl in Hp. apply lookup_insert_Some in Hp as [[<- <-]|[Hne Hp]]; [by apply elem_of_nil in Hi|eauto].
  - exists p', q. split; [|done]. simpl. rewrite lookup_insert_ne; [done|]. intros ->.
    rewrite (He q Hp) in Hi. by apply elem_of_nil in Hi.
Qed.

Lemma pset_pending p b w a st i :
  (forall q, vprocs st !! p = Some q -> chain_of q = []) ->
  pending (pset p (NeedDesc b w a) st) i <-> pending st i.
Proof.
  intros He. split; intros (p' & b' & w' & i1 & i2 & a' & x & Hp & Hx); exists p', b', w', i1, i2, a', x;
    (split; [|done]); simpl in *.
  - apply lookup_insert_Some in Hp as [[_ ?]|[_ Hp]]; [done|exact Hp].
  - rewrite lookup_insert_ne; [done|]. intros ->. by apply He in Hp.
Qed.

(** It sleeps for want of descriptors. *)
Lemma vinv_need p b w st aq uq :
  vinv st aq uq -> enters st p b -> few_free (dk st) -> vinv (pset p (NeedDesc b w true) st) aq uq.
Proof.
  intros I [He (x & Hx & Hok & Hex)] Hfew.
  assert (forall p' q, vprocs (pset p (NeedDesc b w true) st) !! p' = Some q ->
    (p' = p /\ q = NeedDesc b w true) \/ (p' <> p /\ vprocs st !! p' = Some q)) as Hc.
  { intros p' q H. simpl in H. apply lookup_insert_Some in H as [[<- <-]|[Hne H]]; auto. }
  split; try apply I.
  - intros i Hi. rewrite pset_used by done. by apply I.
  - intros p' q H. apply Hc in H as [[-> ->]|[Hne H]]; [|by apply I in H].
    split; [constructor|]. intros i Hi. by apply elem_of_nil in Hi.
  - intros p1 p2 q1 q2 i H1 H2 Hi1 Hi2. apply Hc in H1 as [[-> ->]|[Hn1 H1]]; [by apply elem_of_nil in Hi1|].
    apply Hc in H2 as [[-> ->]|[Hn2 H2]]; [by apply elem_of_nil in Hi2|]. by eapply (vi_own _ _ _ I).
  - intros p' b' w' i0 i1 i2 a H. apply Hc in H as [[_ ?]|[_ H]]; [done|]. by apply (vi_req _ _ _ I) in H.
  - intros p' q H. apply Hc in H as [[-> ->]|[_ H]]; [by exists x|]. by apply (vi_buf _ _ _ I) in H.
  - intros p1 p2 q1 q2 x1 x2 H1 H2 Hx1 Hx2 Heq.
    apply Hc in H1 as [[-> ->]|[Hn1 H1]]; apply Hc in H2 as [[-> ->]|[Hn2 H2]]; try done.
    + simpl in Hx1. assert (x1 = x) as -> by congruence. by destruct (Hex p2 q2 x2).
    + simpl in Hx2. assert (x2 = x) as -> by congruence. by destruct (Hex p1 q1 x1).
    + by eapply (vi_excl _ _ _ I p1 p2); eauto.
  - intros i. rewrite pset_pending by done. apply I.
  - intros p' b' w' i0 i1 i2 a x' H. apply Hc in H as [[_ ?]|[_ H]]; [done|]. by eapply (vi_done _ _ _ I); eauto.
  - intros p' b' w' H. done.
  - intros p' b' w' i0 i1 i2 x' H. apply Hc in H as [[_ ?]|[_ H]]; [done|]. by eapply (vi_sleepb _ _ _ I); eauto.
Qed.

(** ** A request is made *)

Definition req_descs (p b : nat) (w : bool) (i0 i1 i2 : nat) (l : list VRingDesc) : list VRingDesc :=
  <[i2 := mkdesc (PStatus i0) 1 VRING_DESC_F_WRITE 0]>
    (<[i1 := mkdesc (PData b) VBSIZE (Z.lor (if w then 0 else VRING_DESC_F_WRITE) VRING_DESC_F_NEXT) i2]>
      (<[i0 := mkdesc (PHdr p) 16 VRING_DESC_F_NEXT i1]> l)).

Definition requested (p b : nat) (w : bool) (i0 i1 i2 : nat) (x : vbuf) (st : vst) : vst :=
  let d := dk st in
  mkvst (mkdisk (req_descs p b w i0 i1 i2 (desc d)) (u16 (avail_idx d + 1))
           (<[Z.to_nat (avail_idx d mod Z.of_nat NUM) := i0]> (avail_ring d)) (used_id d) (used_elems d)
           (mark false [i0; i1; i2] (dfree d)) (used_idx d) (<[i0 := Some b]> (info_b d)) (<[i0 := 0]> (info_status d)))
    (<[b := set_b_disk true x]> (vbufs st))
    (<[p := mkhdr (if w then VIRTIO_BLK_T_OUT else VIRTIO_BLK_T_IN) 0 (b_blockno x * 2)]> (vhdrs st))
    (<[p := OnDisk b w i0 i1 i2 true]> (vprocs st)) (dev st) (mmio st ++ [(80, 0)]).

(** The other parts of the state. *)
Definition hset (p : nat) (h : virtio_blk_outhdr) (s : vst) : vst :=
  mkvst (dk s) (vbufs s) (<[p := h]> (vhdrs s)) (vprocs s) (dev s) (mmio s).
Definition bset (b : nat) (x : vbuf) (s : vst) : vst :=
  mkvst (dk s) (<[b := x]> (vbufs s)) (vhdrs s) (vprocs s) (dev s) (mmio s).
Definition mset (r v : Z) (s : vst) : vst :=
  mkvst (dk s) (vbufs s) (vhdrs s) (vprocs s) (dev s) (mmio s ++ [(r, v)]).

Lemma upd_dset f d s : upd_disk f (dset d s) = Ok tt (dset (f d) s).
Proof. done. Qed.
Lemma get_disk_dset d s : get_disk (dset d s) = Ok d (dset d s).
Proof. done. Qed.
Lemma put_hdr_dset p h d s : put_hdr p h (dset d s) = Ok tt (dset d (hset p h s)).
Proof. done. Qed.
Lemma put_vbuf_dset b x d s : put_vbuf b x (dset d s) = Ok tt (dset d (bset b x s)).
Proof. done. Qed.
Lemma write_reg_dset r v d s : write_reg r v (dset d s) = Ok tt (dset d (mset r v s)).
Proof. done. Qed.

Lemma submit_ok p b w i0 i1 i2 x st :
  vbufs st !! b = Some x -> buf_ok x ->
  (submit p b w i0 i1 i2;; rw_wait p b w i0 i1 i2) (dset (set_dfree (mark false [i0; i1; i2]) (dk st)) st) =
    Ok tt (requested p b w i0 i1 i2 x st).
Proof.
  intros Hx [Hb _]. set (d := set_dfree _ _).
  assert (u32 (b_blockno x * (VBSIZE / 512)) = b_blockno x * 2) as E.
  { change (VBSIZE / 512) with 2. apply u32_small. lia. }
  set (s2 := mset 80 0 (bset b (set_b_disk true x) (hset p (mkhdr (if w then VIRTIO_BLK_T_OUT else VIRTIO_BLK_T_IN) 0 (b_blockno x * 2)) st))).
  assert (submit p b w i0 i1 i2 (dset d st) = Ok tt (dset (dk (requested p b w i0 i1 i2 x st)) s2)) as Es.
  { unfold submit. rewrite (bind_ok _ _ _ x (dset d st)) by (unfold get_vbuf; simpl; by rewrite Hx).
    cbv zeta. rewrite E. mrun (put_hdr_dset p (mkhdr (if w then VIRTIO_BLK_T_OUT else VIRTIO_BLK_T_IN) 0 (b_blockno x * 2)) d st).
    do 4 (etransitivity; [eapply bind_ok; apply upd_dset|]; cbv beta).
    etransitivity; [eapply bind_ok; apply put_vbuf_dset|]; cbv beta.
    etransitivity; [eapply bind_ok; apply upd_dset|]; cbv beta.
    etransitivity; [eapply bind_ok; apply get_disk_dset|]; cbv beta.
    do 2 (etransitivity; [eapply bind_ok; apply upd_dset|]; cbv beta).
    etransitivity; [apply write_reg_dset|]. reflexivity. }
  rewrite (bind_ok _ _ _ _ _ Es). unfold rw_wait.
  rewrite (bind_ok _ _ _ (set_b_disk true x) (dset (dk (requested p b w i0 i1 i2 x st)) s2));
    [done|unfold get_vbuf; simpl; by rewrite lookup_insert_eq].
Qed.

Lemma req_descs_lookup p b w i0 i1 i2 l :
  NoDup [i0; i1; i2] -> (forall i, i ∈ [i0; i1; i2] -> (i < length l)%nat) ->
  let l' := req_descs p b w i0 i1 i2 l in
  length l' = length l /\
  l' !! i0 = Some (mkdesc (PHdr p) 16 VRING_DESC_F_NEXT i1) /\
  l' !! i1 = Some (mkdesc (PData b) VBSIZE (Z.lor (if w then 0 else VRING_DESC_F_WRITE) VRING_DESC_F_NEXT) i2) /\
  l' !! i2 = Some (mkdesc (PStatus i0) 1 VRING_DESC_F_WRITE 0) /\
  forall i, i ∉ [i0; i1; i2] -> l' !! i = l !! i.
Proof.
  intros [H0 [H1 _]%NoDup_cons]%NoDup_cons Hl. simpl. unfold req_descs.
  assert (i0 <> i1 /\ i0 <> i2 /\ i1 <> i2) as (N1 & N2 & N3) by set_solver.
  pose proof (Hl i0 ltac:(set_solver)). pose proof (Hl i1 ltac:(set_solver)). pose proof (Hl i2 ltac:(set_solver)).
  split; [by rewrite !length_insert|].
  split; [rewrite !list_lookup_insert_ne by done; by apply list_lookup_insert_eq|].
  split; [rewrite list_lookup_insert_ne by done; apply list_lookup_insert_eq; by rewrite length_insert|].
  split; [apply list_lookup_insert_eq; by rewrite !length_insert|].
  intros i Hi. rewrite !list_lookup_insert_ne by set_solver. done.
Qed.

Section requested.
Context (p b : nat) (w : bool) (i0 i1 i2 : nat) (x : vbuf) (st : vst) (aq uq : list nat).
Context (I : vinv st aq uq) (He : forall q, vprocs st !! p = Some q -> chain_of q = []).
Context (Hx : vbufs st !! b = Some x) (Hok : buf_ok x).
Context (Hex : forall p' q x', p' <> p -> vprocs st !! p' = Some q -> vbufs st !! buf_of q = Some x' ->
  b_blockno x' <> b_blockno x).
Context (Hnd : NoDup [i0; i1; i2]) (Hfr : forall i, i ∈ [i0; i1; i2] -> is_free (dk st) i).
Let st' := requested p b w i0 i1 i2 x st.

Lemma req_procs p' q :
  vprocs st' !! p' = Some q -> (p' = p /\ q = OnDisk b w i0 i1 i2 true) \/ (p' <> p /\ vprocs st !! p' = Some q).
Proof. intros H. simpl in H. apply lookup_insert_Some in H as [[<- <-]|[Hne H]]; auto. Qed.

Lemma req_lt i : i ∈ [i0; i1; i2] -> (i < NUM)%nat.
Proof. intros Hi. apply Hfr, lookup_lt_Some in Hi. rewrite (vi_free _ _ _ I) in Hi. done. Qed.

(** The buffers of the other calls are not touched. *)
Lemma req_other_buf p' q : p' <> p -> vprocs st !! p' = Some q -> vbufs st' !! buf_of q = vbufs st !! buf_of q.
Proof.
  intros Hne Hq. simpl. apply lookup_insert_ne. intros E. destruct (vi_buf _ _ _ I p' q Hq) as (y & Hy & _).
  eapply (Hex p' q y); [done|done|done|]. rewrite <-E in Hy. congruence.
Qed.

Lemma req_fresh p' q i : vprocs st !! p' = Some q -> i ∈ chain_of q -> i ∉ [i0; i1; i2].
Proof. intros Hq Hi Hn. eapply chain_not_free; eauto. Qed.

Lemma req_used i : (i < NUM)%nat ->
  dfree (dk st') !! i = Some false <-> exists p q, vprocs st' !! p = Some q /\ i ∈ chain_of q.
Proof.
  intros Hi. simpl. rewrite mark_lookup, (vi_free _ _ _ I). case_decide as Hd.
  - split; [|done]. intros _. exists p, (OnDisk b w i0 i1 i2 true). rewrite lookup_insert_eq. by destruct Hd.
  - assert (i ∉ [i0; i1; i2]) as Hn by tauto. rewrite (vi_used _ _ _ I i Hi). split.
    + intros (p' & q & Hq & Hc). exists p', q. split; [|done]. rewrite lookup_insert_ne; [done|]. intros ->.
      rewrite (He _ Hq) in Hc. by apply elem_of_nil in Hc.
    + intros (p' & q & Hq & Hc). apply req_procs in Hq as [[-> ->]|[_ Hq]]; [done|eauto].
Qed.

Lemma req_reqs p' b' w' j0 j1 j2 a :
  vprocs st' !! p' = Some (OnDisk b' w' j0 j1 j2 a) -> req_ok st' p' b' w' j0 j1 j2.
Proof.
  intros H. pose proof req_lt as Hlt.
  destruct (req_descs_lookup p b w i0 i1 i2 (desc (dk st)) Hnd) as (_ & D0 & D1 & D2 & Dn);
    [intros i Hi; rewrite (vi_desc _ _ _ I); by apply Hlt|].
  assert (i0 < NUM)%nat by (apply Hlt; set_solver).
  apply req_procs in H as [[-> E]|[Hne H]].
  - injection E as -> -> -> -> -> ->. split; [exact D0|]. split; [exact D1|]. split; [exact D2|]. simpl.
    rewrite !list_lookup_insert_eq by (rewrite ?(vi_info _ _ _ I), ?(vi_stat _ _ _ I); done).
    split; [done|]. split; [done|]. exists (set_b_disk true x). by rewrite !lookup_insert_eq.
  - destruct (vi_req _ _ _ I _ _ _ _ _ _ _ H) as (R0 & R1 & R2 & R3 & R4 & y & Hy & Hh).
    assert (forall i, i ∈ [j0; j1; j2] -> i ∉ [i0; i1; i2]) as Hf by (intros i Hi; by eapply req_fresh).
    assert (i0 <> j0) as Hij by (intros <-; apply (Hf i0); set_solver).
    unfold req_ok. simpl. rewrite !Dn by (apply Hf; set_solver).
    rewrite !list_lookup_insert_ne by done. repeat (split; [done|]).
    exists y. pose proof (req_other_buf p' _ Hne H) as Eb. simpl in Eb. split; [by rewrite Eb|]. by rewrite lookup_insert_ne by done.
Qed.

Lemma req_pend i : i ∈ (aq ++ [i0]) ++ dev_work (dev st) ++ uq <-> pending st' i.
Proof.
  rewrite <-app_assoc, !elem_of_app. split.
  - intros [Hi|[->%list_elem_of_singleton|Hi]].
    2: { exists p, b, w, i1, i2, true, (set_b_disk true x). simpl. by rewrite !lookup_insert_eq. }
    all: assert (pending st i) as (p' & b' & w' & j1 & j2 & a & y & Hp & Hy & Hd)
      by (apply (vi_pend _ _ _ I); rewrite !elem_of_app; tauto).
    all: assert (p' <> p) as Hne by (intros ->; by apply He in Hp).
    all: exists p', b', w', j1, j2, a, y; split; [simpl; by rewrite lookup_insert_ne|].
    all: pose proof (req_other_buf p' _ Hne Hp) as Eb; simpl in Eb |- *; by rewrite Eb.
  - intros (p' & b' & w' & j1 & j2 & a & y & Hp & Hy & Hd). apply req_procs in Hp as [[-> E]|[Hne Hp]].
    + injection E as -> -> -> _ _ _. right; left. by apply list_elem_of_singleton.
    + assert (i ∈ aq ++ dev_work (dev st) ++ uq) as H.
      { apply (vi_pend _ _ _ I). exists p', b', w', j1, j2, a, y. split; [done|].
        pose proof (req_other_buf p' _ Hne Hp) as Eb. simpl in Eb, Hy. by rewrite Eb in Hy. }
      rewrite !elem_of_app in H. tauto.
Qed.

Lemma vinv_requested : vinv st' (aq ++ [i0]) uq.
Proof.
  pose proof req_lt as Hlt.
  assert (i0 ∉ aq ++ dev_work (dev st) ++ uq) as Hnew.
  { intros (p' & b' & w' & j1 & j2 & a & y & Hp & _)%(vi_pend _ _ _ I). by apply (req_fresh _ _ i0 Hp); set_solver. }
  pose proof (in_flight _ _ _ I) as Hfl. rewrite !length_app in Hfl.
  destruct (vi_aidx _ _ _ I) as [Ha Hsn].
  split.
  - simpl. rewrite (proj1 (req_descs_lookup p b w i0 i1 i2 (desc (dk st)) Hnd
      (fun i Hi => eq_ind_r (fun n => (i < n)%nat) (Hlt i Hi) (vi_desc _ _ _ I)))). apply I.
  - simpl. rewrite length_mark. apply I.
  - simpl. rewrite length_insert. apply I.
  - simpl. rewrite length_insert. apply I.
  - apply req_used.
  - intros p' q H. apply req_procs in H as [[-> ->]|[_ H]]; [by split|]. by apply (vi_chain _ _ _ I) in H.
  - intros p1 p2 q1 q2 i H1 H2 Hi1 Hi2.
    apply req_procs in H1 as [[-> ->]|[Hn1 H1]]; apply req_procs in H2 as [[-> ->]|[Hn2 H2]]; [done| | |].
    + by destruct (req_fresh _ _ _ H2 Hi2).
    + by destruct (req_fresh _ _ _ H1 Hi1).
    + by eapply (vi_own _ _ _ I); eauto.
  - apply req_reqs.
  - intros p' q H. apply req_procs in H as [[-> ->]|[Hne H]].
    + exists (set_b_disk true x). simpl. by rewrite lookup_insert_eq.
    + rewrite (req_other_buf p' q Hne H). by apply (vi_buf _ _ _ I) in H.
  - intros p1 p2 q1 q2 x1 x2 H1 H2 Hx1 Hx2 Heq.
    apply req_procs in H1 as [[-> ->]|[Hn1 H1]]; apply req_procs in H2 as [[-> ->]|[Hn2 H2]]; [done| | |].
    + rewrite (req_other_buf _ _ Hn2 H2) in Hx2. simpl in Hx1. rewrite lookup_insert_eq in Hx1. injection Hx1 as <-.
      by destruct (Hex p2 q2 x2 Hn2 H2 Hx2).
    + rewrite (req_other_buf _ _ Hn1 H1) in Hx1. simpl in Hx2. rewrite lookup_insert_eq in Hx2. injection Hx2 as <-.
      by destruct (Hex p1 q1 x1 Hn1 H1 Hx1).
    + rewrite (req_other_buf _ _ Hn1 H1) in Hx1. rewrite (req_other_buf _ _ Hn2 H2) in Hx2.
      by eapply (vi_excl _ _ _ I p1 p2); eauto.
  - simpl. rewrite Ha, u16_mod8. apply ring_push; [apply I|unfold NUM; lia].
  - simpl. rewrite Ha, length_app. simpl. split; [|done]. unfold u16. rewrite wrap_add_l. f_equal. lia.
  - apply I.
  - apply I.
  - rewrite <-app_assoc. apply NoDup_app. pose proof (vi_once _ _ _ I) as Ho.
    apply NoDup_app in Ho as (Ho1 & Ho2 & Ho3). split; [done|]. split; [|].
    + intros i Hi [->|Hi2]%elem_of_cons; [set_solver|]. by apply (Ho2 i).
    + simpl. apply NoDup_cons. split; [set_solver|done].
  - apply req_pend.
  - intros p' b' w' j0 j1 j2 a y H Hy Hni. apply req_procs in H as [[-> E]|[Hne H]].
    + injection E as -> -> -> _ _ _. set_solver.
    + pose proof (req_other_buf _ _ Hne H) as Eb. simpl in Eb, Hy. rewrite Eb in Hy. eapply (vi_done _ _ _ I); [exact H|exact Hy|set_solver].
  - intros p' b' w' H. apply req_procs in H as [[_ ?]|[_ H]]; [done|].
    destruct (vi_sleepf _ _ _ I _ _ _ H) as (l & Hl & Hin). exists l. split; [done|]. intros i Hi.
    apply Hin. unfold is_free in *. simpl in Hi. rewrite mark_lookup in Hi. by case_decide.
  - intros p' b' w' j0 j1 j2 y H Hy. apply req_procs in H as [[-> E]|[Hne H]].
    + injection E as -> _ _ _ _. simpl in Hy. rewrite lookup_insert_eq in Hy. by injection Hy as <-.
    + pose proof (req_other_buf _ _ Hne H) as Eb. simpl in Eb, Hy. rewrite Eb in Hy. by eapply (vi_sleepb _ _ _ I).
Qed.
End requested.

Lemma enters_quiet st st' p b : quiet st st' -> enters st p b -> enters st' p b.
Proof.
  intros (g & _ & f & Hf & ->) [He (x & Hx & Hok & Hex)].
  assert (rouses f) as Hr by (destruct Hf as [-> | ->]; auto using rouses_id, rouses_wake).
  split.
  - intros q Hq. simpl in Hq. apply rouses_inv in Hq as (q0 & Hq & H); [|done].
    apply roused_chain in H as [-> _]. by apply He.
  - exists x. split; [done|]. split; [done|]. intros p' q x' Hne Hq. simpl in Hq.
    apply rouses_inv in Hq as (q0 & Hq & H); [|done]. apply roused_chain in H as [_ ->]. by apply (Hex p' q0).
Qed.

Lemma few_free_quiet st st' : quiet st st' -> few_free (dk st) -> few_free (dk st').
Proof. by intros (g & _ & f & _ & ->). Qed.

(** [virtio_disk_rw] up to the point where it sleeps. *)
Lemma rw_ok p b w st aq uq :
  vinv st aq uq -> enters st p b ->
  exists st' aq', virtio_disk_rw p b w st = Ok tt st' /\ vinv st' aq' uq /\ calm st st'.
Proof.
  intros I Hen. unfold virtio_disk_rw.
  destruct (alloc3_spec st) as [(i0 & i1 & i2 & E & Hnd & Hfr)|(st' & E & Hq & Hfew)]; [apply I|apply I| |];
    rewrite (bind_ok _ _ _ _ _ E).
  - destruct Hen as [He (x & Hx & Hok & Hex)]. eexists _, _. split; [by apply submit_ok|].
    split; [by apply vinv_requested|]. eapply (calm_bufs b x); [done|done|done|done|done|].
    intros p'. apply is_Some_insert.
  - exists (pset p (NeedDesc b w true) st'), aq. split; [done|]. split.
    + apply vinv_need; [by eapply vinv_quiet|by eapply enters_quiet|by eapply few_free_quiet].
    + eapply calm_trans; [by apply calm_quiet|]. apply calm_same; [done|done|]. intros p'. apply is_Some_insert.
Qed.

Lemma enters_retry st aq uq p b w a : vinv st aq uq -> vprocs st !! p = Some (NeedDesc b w a) -> enters st p b.
Proof.
  intros I Hp. split; [intros q Hq; rewrite Hp in Hq; by injection Hq as <-|].
  destruct (vi_buf _ _ _ I p _ Hp) as (x & Hx & Hok). exists x. split; [done|]. split; [done|].
  intros p' q x' Hne Hq Hx' E. apply Hne. by eapply (vi_excl _ _ _ I p' p); eauto.
Qed.

Lemma enters_call st p b x :
  vprocs st !! p = None -> vbufs st !! b = Some x -> buf_ok x -> block_idle (b_blockno x) st -> enters st p b.
Proof. intros Hp Hx Hok Hbi. split; [intros q Hq; congruence|]. exists x. eauto. Qed.

(** ** A process sleeps on its buffer again *)

Lemma vinv_resleep p b w i0 i1 i2 a x st aq uq :
  vinv st aq uq -> vprocs st !! p = Some (OnDisk b w i0 i1 i2 a) -> vbufs st !! b = Some x -> b_disk x = true ->
  vinv (pset p (OnDisk b w i0 i1 i2 true) st) aq uq.
Proof.
  intros I Hp Hx Hd.
  assert (forall p' q, vprocs (pset p (OnDisk b w i0 i1 i2 true) st) !! p' = Some q ->
    exists q0, vprocs st !! p' = Some q0 /\ chain_of q = chain_of q0 /\ buf_of q = buf_of q0 /\
      ((p' = p /\ q = OnDisk b w i0 i1 i2 true) \/ q = q0)) as Hc.
  { intros p' q H. simpl in H. apply lookup_insert_Some in H as [[<- <-]|[_ H]]; eauto 10. }
  assert (forall p' b' w' j0 j1 j2 a', vprocs (pset p (OnDisk b w i0 i1 i2 true) st) !! p' = Some (OnDisk b' w' j0 j1 j2 a') ->
    exists a0, vprocs st !! p' = Some (OnDisk b' w' j0 j1 j2 a0)) as Hdk.
  { intros p' b' w' j0 j1 j2 a' H. simpl in H. apply lookup_insert_Some in H as [[<- E]|[_ H]]; [|eauto].
    injection E as -> -> -> -> -> _. eauto. }
  split; try apply I.
  - intros i Hi. rewrite (vi_used _ _ _ I i Hi). split; intros (p' & q & Hq & Hin).
    + destruct (decide (p' = p)) as [->|Hne].
      * exists p, (OnDisk b w i0 i1 i2 true). simpl. rewrite lookup_insert_eq. rewrite Hp in Hq. by injection Hq as <-.
      * exists p', q. simpl. by rewrite lookup_insert_ne.
    + apply Hc in Hq as (q0 & Hq & E & _). exists p', q0. by rewrite <-E.
  - intros p' q H. apply Hc in H as (q0 & Hq & E & _). rewrite E. by apply (vi_chain _ _ _ I p').
  - intros p1 p2 q1 q2 i H1 H2 Hi1 Hi2. apply Hc in H1 as (r1 & H1 & E1 & _). apply Hc in H2 as (r2 & H2 & E2 & _).
    rewrite E1 in Hi1. rewrite E2 in Hi2. by eapply (vi_own _ _ _ I).
  - intros p' b' w' j0 j1 j2 a' H. apply Hdk in H as [a0 H]. by apply (vi_req _ _ _ I) in H.
  - intros p' q H. apply Hc in H as (q0 & Hq & _ & E & _). rewrite E. by apply (vi_buf _ _ _ I p').
  - intros p1 p2 q1 q2 x1 x2 H1 H2 Hx1 Hx2 Heq. apply Hc in H1 as (r1 & H1 & _ & E1 & _).
    apply Hc in H2 as (r2 & H2 & _ & E2 & _). rewrite E1 in Hx1. rewrite E2 in Hx2. by eapply (vi_excl _ _ _ I p1 p2); eauto.
  - intros i. rewrite (vi_pend _ _ _ I). split; intros (p' & b' & w' & j1 & j2 & a' & y & Hq & Hy).
    + destruct (decide (p' = p)) as [->|Hne].
      * rewrite Hp in Hq. injection Hq as <- <- <- <- <- <-. exists p, b, w, i1, i2, true, y. simpl. by rewrite lookup_insert_eq.
      * exists p', b', w', j1, j2, a', y. simpl. by rewrite lookup_insert_ne.
    + apply Hdk in Hq as [a0 Hq]. by exists p', b', w', j1, j2, a0, y.
  - intros p' b' w' j0 j1 j2 a' y H. apply Hdk in H as [a0 H]. by eapply (vi_done _ _ _ I).
  - intros p' b' w' H. apply Hc in H as (q0 & H & _ & _ & [[_ ?]|<-]); [done|]. by eapply (vi_sleepf _ _ _ I).
  - intros p' b' w' j0 j1 j2 y H Hy. apply Hc in H as (q0 & H & _ & _ & [[-> E]|<-]).
    + injection E as -> _ _ _ _. simpl in Hy. congruence.
    + by eapply (vi_sleepb _ _ _ I).
Qed.

(** ** A request is finished *)

Lemma free_chain_step fuel i x st :
  dfree (dk st) !! i = Some false -> (i < NUM)%nat -> desc (dk st) !! i = Some x -> length (desc (dk st)) = NUM ->
  let st1 := wake ChFree (dset (set_dfree (fun l => <[i := true]> l) (set_desc (fun l => <[i := zap x]> l) (dk st))) st) in
  free_chain (S fuel) i st =
    (if negb (Z.land (d_flags x) VRING_DESC_F_NEXT =? 0) then free_chain fuel (d_next x) else ret tt) st1.
Proof.
  intros Hf Hi Hx Hl st1. cbn [free_chain]. rewrite (bind_ok _ _ _ _ _ (free_desc_ok i x st Hf Hi Hx)). fold st1.
  unfold bind at 1. unfold get_disk, gets.
  assert (desc (dk st1) !! i = Some (zap x)) as E by (simpl; apply list_lookup_insert_eq; lia).
  unfold bind, at_. rewrite E. done.
Qed.

(** The state when the call of [p] has returned. *)
Definition finished (p i0 i1 i2 : nat) (ds : list VRingDesc) (st : vst) : vst :=
  mkvst (set_dfree (mark true [i0; i1; i2]) (set_desc (fun _ => ds) (set_info i0 None (dk st))))
    (vbufs st) (vhdrs st) (delete p (wake1 ChFree <$> vprocs st)) (dev st) (mmio st).

Lemma wake_dset ch d s : wake ch (dset d s) = dset d (wake ch s).
Proof. done. Qed.
Lemma dset_dset d d' s : dset d (dset d' s) = dset d s.
Proof. done. Qed.

Lemma finish_ok p b w i0 i1 i2 x st aq uq :
  vinv st aq uq -> vprocs st !! p = Some (OnDisk b w i0 i1 i2 false) -> vbufs st !! b = Some x -> b_disk x = false ->
  exists ds, rw_wait p b w i0 i1 i2 st = Ok tt (finished p i0 i1 i2 ds st) /\ length ds = NUM /\
    forall i, i ∉ [i0; i1; i2] -> ds !! i = desc (dk st) !! i.
Proof.
  intros I Hp Hx Hd. destruct (vi_chain _ _ _ I p _ Hp) as [Hnd Hlt]. simpl in Hnd, Hlt.
  destruct (vi_req _ _ _ I _ _ _ _ _ _ _ Hp) as (R0 & R1 & R2 & _).
  assert (forall i, i ∈ [i0; i1; i2] -> dfree (dk st) !! i = Some false) as Hf.
  { intros i Hi. apply (vi_used _ _ _ I); [by apply Hlt|]. eauto. }
  assert (i0 <> i1 /\ i0 <> i2 /\ i1 <> i2) as (N1 & N2 & N3).
  { apply NoDup_cons in Hnd as [? [? _]%NoDup_cons]. set_solver. }
  pose proof (Hlt i0 ltac:(set_solver)) as L0. pose proof (Hlt i1 ltac:(set_solver)) as L1. pose proof (Hlt i2 ltac:(set_solver)) as L2.
  pose proof (Hf i0 ltac:(set_solver)) as F0. pose proof (Hf i1 ltac:(set_solver)) as F1. pose proof (Hf i2 ltac:(set_solver)) as F2.
  pose proof (vi_desc _ _ _ I) as Hl.
  unfold rw_wait. unfold bind at 1, get_vbuf. rewrite Hx, Hd.
  set (sa := dset (set_info i0 None (dk st)) st).
  rewrite (bind_ok (upd_disk (set_info i0 None)) _ st tt sa) by done.
  exists (<[i2 := zap (mkdesc (PStatus i0) 1 VRING_DESC_F_WRITE 0)]>
    (<[i1 := zap (mkdesc (PData b) VBSIZE (Z.lor (if w then 0 else VRING_DESC_F_WRITE) VRING_DESC_F_NEXT) i2)]>
      (<[i0 := zap (mkdesc (PHdr p) 16 VRING_DESC_F_NEXT i1)]> (desc (dk st))))). split.
  - unfold chain_fuel. unfold bind at 1.
    rewrite (free_chain_step 2 i0 _ sa F0 L0 R0 Hl). cbn [d_flags d_next].
    change (negb (Z.land VRING_DESC_F_NEXT VRING_DESC_F_NEXT =? 0)) with true. cbv iota. set (sb := wake _ _).
    rewrite (free_chain_step 1 i1 (mkdesc (PData b) VBSIZE (Z.lor (if w then 0 else VRING_DESC_F_WRITE) VRING_DESC_F_NEXT) i2) sb);
      [|simpl; by rewrite list_lookup_insert_ne|done|simpl; by rewrite list_lookup_insert_ne|simpl; by rewrite length_insert].
    cbn [d_flags d_next]. assert (Z.land (Z.lor (if w then 0 else VRING_DESC_F_WRITE) VRING_DESC_F_NEXT) VRING_DESC_F_NEXT = 1) as ->
      by by destruct w.
    change (negb (1 =? 0)) with true. cbv iota. set (sc := wake _ _).
    rewrite (free_chain_step 0 i2 (mkdesc (PStatus i0) 1 VRING_DESC_F_WRITE 0) sc);
      [|simpl; by rewrite !list_lookup_insert_ne|done|simpl; by rewrite !list_lookup_insert_ne|simpl; by rewrite !length_insert].
    cbn [d_flags d_next]. change (negb (Z.land VRING_DESC_F_WRITE VRING_DESC_F_NEXT =? 0)) with false. cbv iota. set (sd := wake _ _).
    unfold ret, set_procs, modify. f_equal. unfold finished. f_equal.
    unfold sd, sc, sb, wake. simpl. f_equal. rewrite <-!map_fmap_compose. apply map_fmap_ext.
    intros k q _. simpl. by rewrite !wake1_idem.
  - split; [by rewrite !length_insert|]. intros i Hi. rewrite !list_lookup_insert_ne by set_solver. done.
Qed.

Lemma vinv_finish p b w i0 i1 i2 ds x st aq uq :
  vinv st aq uq -> vprocs st !! p = Some (OnDisk b w i0 i1 i2 false) -> vbufs st !! b = Some x -> b_disk x = false ->
  length ds = NUM -> (forall i, i ∉ [i0; i1; i2] -> ds !! i = desc (dk st) !! i) ->
  vinv (finished p i0 i1 i2 ds st) aq uq.
Proof.
  intros I Hp Hx Hd Hl Hds. set (st' := finished p i0 i1 i2 ds st).
  assert (forall p' q, vprocs st' !! p' = Some q -> exists q0, p' <> p /\ vprocs st !! p' = Some q0 /\ q = wake1 ChFree q0) as Hc.
  { intros p' q H. simpl in H. apply lookup_delete_Some in H as [Hne H]. apply lookup_fmap_Some in H as (q0 & <- & H).
    eauto 10. }
  assert (forall p' q0, p' <> p -> vprocs st !! p' = Some q0 -> forall i, i ∈ chain_of q0 -> i ∉ [i0; i1; i2]) as Hdis.
  { intros p' q0 Hne H i Hi Hin. apply Hne. eapply (vi_own _ _ _ I p' p _ _ i H Hp); done. }
  assert (forall p' q, vprocs st' !! p' = Some q -> exists q0, p' <> p /\ vprocs st !! p' = Some q0 /\
    chain_of q = chain_of q0 /\ buf_of q = buf_of q0) as Hcb.
  { intros p' q H. apply Hc in H as (q0 & Hne & H & ->). exists q0. destruct (roused_chain _ _ (roused_wake1 ChFree q0)). done. }
  assert (forall p' b' w' j0 j1 j2 a, vprocs st' !! p' = Some (OnDisk b' w' j0 j1 j2 a) ->
    p' <> p /\ vprocs st !! p' = Some (OnDisk b' w' j0 j1 j2 a)) as Hdk.
  { intros p' b' w' j0 j1 j2 a H. apply Hc in H as (q0 & Hne & H & E). split; [done|]. rewrite H. f_equal.
    destruct q0 as [? ? []|]; unfold wake1 in E; simpl in E; congruence. }
  destruct (vi_chain _ _ _ I p _ Hp) as [Hnd Hlt]. simpl in Hnd, Hlt.
  split; try apply I.
  - done.
  - simpl. rewrite length_mark. apply I.
  - simpl. rewrite length_insert. apply I.
  - intros i Hi. simpl. rewrite mark_lookup, (vi_free _ _ _ I). case_decide as Hin.
    + split; [done|]. intros (p' & q & Hq & Hiq). apply Hcb in Hq as (q0 & Hne & Hq & E & _). rewrite E in Hiq.
      by destruct (Hdis p' q0 Hne Hq i Hiq), Hin.
    + rewrite (vi_used _ _ _ I i Hi). split; intros (p' & q & Hq & Hiq).
      * destruct (decide (p' = p)) as [->|Hne]; [rewrite Hp in Hq; injection Hq as <-; tauto|].
        exists p', (wake1 ChFree q). rewrite lookup_delete_ne, lookup_fmap, Hq by done. split; [done|].
        destruct (roused_chain _ _ (roused_wake1 ChFree q)) as [-> _]. done.
      * apply Hcb in Hq as (q0 & Hne & Hq & E & _). exists p', q0. by rewrite <-E.
  - intros p' q H. apply Hcb in H as (q0 & Hne & Hq & E & _). rewrite E. by apply (vi_chain _ _ _ I p').
  - intros p1 p2 q1 q2 i H1 H2 Hi1 Hi2. apply Hcb in H1 as (r1 & _ & H1 & E1 & _). apply Hcb in H2 as (r2 & _ & H2 & E2 & _).
    rewrite E1 in Hi1. rewrite E2 in Hi2. by eapply (vi_own _ _ _ I).
  - intros p' b' w' j0 j1 j2 a H. apply Hdk in H as [Hne H].
    destruct (vi_req _ _ _ I _ _ _ _ _ _ _ H) as (R0 & R1 & R2 & R3 & R4).
    pose proof (Hdis p' _ Hne H) as Hf. simpl in Hf.
    unfold req_ok. simpl. rewrite !Hds by (apply Hf; set_solver). rewrite list_lookup_insert_ne; [done|].
    intros ->. apply (Hf j0); set_solver.
  - intros p' q H. apply Hcb in H as (q0 & _ & Hq & _ & E). rewrite E. by apply (vi_buf _ _ _ I p').
  - intros p1 p2 q1 q2 x1 x2 H1 H2 Hx1 Hx2 Heq. apply Hcb in H1 as (r1 & _ & H1 & _ & E1).
    apply Hcb in H2 as (r2 & _ & H2 & _ & E2). rewrite E1 in Hx1. rewrite E2 in Hx2. by eapply (vi_excl _ _ _ I p1 p2); eauto.
  - intros i. change (dev st') with (dev st). rewrite (vi_pend _ _ _ I). split; intros (p' & b' & w' & j1 & j2 & a' & y & Hq & Hy & Hyd).
    + destruct (decide (p' = p)) as [->|Hne]; [rewrite Hp in Hq; injection Hq as <- <- <- <- <- <-; congruence|].
      exists p', b', w', j1, j2, a', y. simpl. by rewrite lookup_delete_ne, lookup_fmap, Hq.
    + apply Hdk in Hq as [_ Hq]. by exists p', b', w', j1, j2, a', y.
  - intros p' b' w' j0 j1 j2 a' y H. apply Hdk in H as [_ H]. by eapply (vi_done _ _ _ I).
  - intros p' b' w' H. apply Hc in H as (q0 & _ & _ & E). destruct q0 as [? ? []|? ? ? ? ? []]; done.
  - intros p' b' w' j0 j1 j2 y H. apply Hdk in H as [_ H]. by eapply (vi_sleepb _ _ _ I).
Qed.

(** The step of a process that waits for its buffer. *)
Lemma wait_ok p b w i0 i1 i2 st aq uq :
  vinv st aq uq -> vprocs st !! p = Some (OnDisk b w i0 i1 i2 false) ->
  exists st', rw_wait p b w i0 i1 i2 st = Ok tt st' /\ vinv st' aq uq /\
    (calm st st' \/
     exists x, vprocs st' !! p = None /\ vbufs st' = vbufs st /\ dev st' = dev st /\ vbufs st !! b = Some x /\
       b_data x = vblock (image (dev st)) (b_blockno x) /\
       forall p', p' <> p -> is_Some (vprocs st !! p') -> is_Some (vprocs st' !! p')).
Proof.
  intros I Hp. destruct (vi_buf _ _ _ I p _ Hp) as (x & Hx & _). simpl in Hx.
  destruct (b_disk x) eqn:Hd.
  - exists (pset p (OnDisk b w i0 i1 i2 true) st). split; [|split; [by eapply vinv_resleep|left]].
    2: { apply calm_same; [done|done|]. intros p'. apply is_Some_insert. }
    unfold rw_wait. rewrite (bind_ok _ _ _ x st) by (unfold get_vbuf; by rewrite Hx). by rewrite Hd.
  - destruct (finish_ok p b w i0 i1 i2 x st aq uq I Hp Hx Hd) as (ds & E & Hl & Hds).
    exists (finished p i0 i1 i2 ds st). split; [done|]. split; [by eapply vinv_finish|right]. exists x.
    split; [simpl; apply lookup_delete_eq|]. repeat (split; [done|]). split.
    + eapply (vi_done _ _ _ I); [exact Hp|exact Hx|]. intros Hin.
      assert (pending st i0) as (p' & b' & w' & j1 & j2 & a' & y & Hq & Hy & Hyd)
        by (apply (vi_pend _ _ _ I); rewrite app_assoc; by apply elem_of_app; left).
      assert (p' = p) as -> by (eapply (vi_own _ _ _ I p' p _ _ i0 Hq Hp); set_solver).
      rewrite Hp in Hq. injection Hq as <- _ _ _ _. congruence.
    + intros p' Hne H. simpl. rewrite lookup_delete_ne by done. by apply is_Some_wake.
Qed.

(** ** The interrupt *)

(** The buffer [b] is reported. *)
Definition reported (b : nat) (x : vbuf) (st : vst) : vst :=
  rouse (wake1 (ChBuf b)) (bset b (set_b_disk false x)
    (dset (set_used_idx ((used_idx (dk st) + 1) mod Z.of_nat NUM) (dk st)) st)).

Section reported.
Context (p b : nat) (w : bool) (i i1 i2 : nat) (a : bool) (x : vbuf) (st : vst) (aq uq : list nat).
Context (I : vinv st aq (i :: uq)) (Hp : vprocs st !! p = Some (OnDisk b w i i1 i2 a)).
Context (Hx : vbufs st !! b = Some x).
Let st' := reported b x st.

Lemma rep_procs p' q' :
  vprocs st' !! p' = Some q' -> exists q, vprocs st !! p' = Some q /\ q' = wake1 (ChBuf b) q /\
    chain_of q' = chain_of q /\ buf_of q' = buf_of q.
Proof.
  intros H. simpl in H. apply lookup_fmap_Some in H as (q & <- & H). exists q.
  destruct (roused_chain _ _ (roused_wake1 (ChBuf b) q)). done.
Qed.

Lemma rep_disk p' b' w' j0 j1 j2 a' :
  vprocs st' !! p' = Some (OnDisk b' w' j0 j1 j2 a') ->
  exists a0, vprocs st !! p' = Some (OnDisk b' w' j0 j1 j2 a0) /\ (a' = true -> a0 = true /\ b' <> b).
Proof.
  intros H. apply rep_procs in H as (q & H & E & _). unfold wake1, sleeps_on in E.
  destruct q as [b0 w0 a0|b0 w0 k0 k1 k2 a0].
  - done.
  - destruct a0; simpl in E; [destruct (Nat.eqb_spec b b0)|]; simplify_eq/=; eauto 10.
Qed.

(** Another call has another buffer. *)
Lemma rep_other p' q : vprocs st !! p' = Some q -> p' <> p -> buf_of q <> b.
Proof.
  intros Hq Hne E. apply Hne. destruct (vi_buf _ _ _ I p' q Hq) as (y & Hy & _).
  eapply (vi_excl _ _ _ I p' p q _ y y Hq Hp Hy); [|done]. simpl. by rewrite <-E.
Qed.

Lemma rep_buf b' y : vbufs st' !! b' = Some y ->
  exists y0, vbufs st !! b' = Some y0 /\ b_blockno y = b_blockno y0 /\ b_data y = b_data y0 /\
    b_disk y = (if decide (b' = b) then false else b_disk y0).
Proof.
  intros H. simpl in H. apply lookup_insert_Some in H as [[<- <-]|[Hne H]].
  - exists x. by rewrite decide_True.
  - exists y. by rewrite decide_False.
Qed.

Lemma rep_pend j : j ∈ aq ++ dev_work (dev st) ++ uq <-> pending st' j.
Proof.
  assert (i ∉ aq ++ dev_work (dev st) ++ uq) as Hn.
  { pose proof (vi_once _ _ _ I) as Ho. rewrite app_assoc in Ho. apply NoDup_app in Ho as (_ & Ho1 & Ho2).
    apply NoDup_cons in Ho2 as [Hi _]. intros Hin. rewrite app_assoc in Hin. apply elem_of_app in Hin as [Hin|Hin]; [|done].
    apply (Ho1 i Hin). set_solver. }
  split.
  - intros Hj. assert (pending st j) as (p' & b' & w' & j1 & j2 & a' & y & Hq & Hy & Hd)
      by (apply (vi_pend _ _ _ I); set_solver).
    assert (p' <> p) as Hne by (intros ->; rewrite Hp in Hq; injection Hq as -> -> -> -> -> ->; done).
    pose proof (rep_other p' _ Hq Hne) as Hb. simpl in Hb.
    destruct (roused_from_disk _ _ _ _ _ _ _ (roused_wake1 (ChBuf b) (OnDisk b' w' j j1 j2 a'))) as [a0 E].
    exists p', b', w', j1, j2, a0, y. simpl. rewrite lookup_fmap, Hq. simpl. rewrite E.
    by rewrite lookup_insert_ne by done.
  - intros (p' & b' & w' & j1 & j2 & a' & y & Hq & Hy & Hd). apply rep_disk in Hq as (a0 & Hq & _).
    apply rep_buf in Hy as (y0 & Hy & _ & _ & E). case_decide; [congruence|].
    assert (pending st j) as Hpj by (exists p', b', w', j1, j2, a0, y0; split; [done|]; split; [done|]; congruence).
    apply (vi_pend _ _ _ I) in Hpj. assert (j <> i); [|set_solver]. intros ->.
    assert (p' = p) as -> by (eapply (vi_own _ _ _ I p' p _ _ i Hq Hp); set_solver).
    rewrite Hp in Hq. by injection Hq as ->.
Qed.

Lemma vinv_reported : vinv st' aq uq.
Proof.
  destruct (vi_uidx _ _ _ I) as (U1 & U2 & U3). destruct (ring_pop _ _ _ _ (vi_uring _ _ _ I)) as [_ Hr].
  split; try apply I.
  - intros j Hj. simpl. rewrite (vi_used _ _ _ I j Hj). split; intros (p' & q & Hq & Hin).
    + exists p', (wake1 (ChBuf b) q). rewrite lookup_fmap, Hq. split; [done|].
      by destruct (roused_chain _ _ (roused_wake1 (ChBuf b) q)) as [-> _].
    + apply rep_procs in Hq as (q0 & Hq & _ & E & _). exists p', q0. by rewrite <-E.
  - intros p' q H. apply rep_procs in H as (q0 & H & _ & E & _). rewrite E. by apply (vi_chain _ _ _ I p').
  - intros p1 p2 q1 q2 j H1 H2 Hi1 Hi2. apply rep_procs in H1 as (r1 & H1 & _ & E1 & _).
    apply rep_procs in H2 as (r2 & H2 & _ & E2 & _). rewrite E1 in Hi1. rewrite E2 in Hi2. by eapply (vi_own _ _ _ I).
  - intros p' b' w' j0 j1 j2 a' H. apply rep_disk in H as (a0 & H & _).
    destruct (vi_req _ _ _ I _ _ _ _ _ _ _ H) as (R0 & R1 & R2 & R3 & R4 & y & Hy & Hh).
    repeat (split; [done|]). simpl. destruct (decide (b' = b)) as [->|Hne].
    + exists (set_b_disk false x). rewrite lookup_insert_eq. split; [done|]. assert (y = x) as -> by congruence. done.
    + exists y. by rewrite lookup_insert_ne by done.
  - intros p' q H. apply rep_procs in H as (q0 & H & _ & _ & E). rewrite E.
    destruct (vi_buf _ _ _ I p' q0 H) as (y & Hy & Hok). simpl. destruct (decide (buf_of q0 = b)) as [Eb|Hne]; [rewrite Eb in *|].
    + exists (set_b_disk false x). rewrite lookup_insert_eq. split; [done|]. assert (y = x) as -> by congruence. done.
    + exists y. by rewrite lookup_insert_ne by done.
  - intros p1 p2 q1 q2 x1 x2 H1 H2 Hx1 Hx2 Heq. apply rep_procs in H1 as (r1 & H1 & _ & _ & E1).
    apply rep_procs in H2 as (r2 & H2 & _ & _ & E2). rewrite E1 in Hx1. rewrite E2 in Hx2.
    apply rep_buf in Hx1 as (y1 & Hy1 & N1 & _). apply rep_buf in Hx2 as (y2 & Hy2 & N2 & _).
    eapply (vi_excl _ _ _ I p1 p2); eauto. congruence.
  - simpl. eapply ring_ext; [|exact Hr]. symmetry. apply Zmod_mod.
  - simpl. split; [|split; [apply Z.mod_pos_bound; done|done]]. rewrite U1. simpl length.
    rewrite Zplus_mod_idemp_l. f_equal. lia.
  - pose proof (vi_once _ _ _ I) as Ho. rewrite app_assoc in Ho |- *. apply NoDup_app in Ho as (Ho1 & Ho2 & Ho3).
    apply NoDup_cons in Ho3 as [_ Ho3]. apply NoDup_app. split; [done|]. split; [|done]. intros j Hj1 Hj2.
    apply (Ho2 j Hj1). set_solver.
  - apply rep_pend.
  - intros p' b' w' j0 j1 j2 a' y H Hy Hni. apply rep_disk in H as (a0 & H & _).
    apply rep_buf in Hy as (y0 & Hy & -> & -> & _). by eapply (vi_done _ _ _ I).
  - intros p' b' w' H. apply rep_procs in H as (q & H & E & _).
    destruct q as [b0 w0 a0|? ? ? ? ? []]; unfold wake1 in E; simpl in E; simplify_eq/=.
    + by eapply (vi_sleepf _ _ _ I).
    + by destruct (b =? _)%nat.
  - intros p' b' w' j0 j1 j2 y H Hy. apply rep_disk in H as (a0 & H & Ha). destruct (Ha eq_refl) as [-> Hne].
    apply rep_buf in Hy as (y0 & Hy & _ & _ & ->). rewrite decide_False by done. by eapply (vi_sleepb _ _ _ I).
Qed.
End reported.

Lemma used_nonempty st aq uq :
  vinv st aq uq ->
  negb (used_idx (dk st) mod Z.of_nat NUM =? used_id (dk st) mod Z.of_nat NUM) = bool_decide (uq <> []).
Proof.
  intros I. destruct (vi_uidx _ _ _ I) as (-> & Hu & _). pose proof (in_flight _ _ _ I) as Hf.
  rewrite !length_app in Hf. unfold NUM in *. destruct uq as [|i uq].
  - simpl. rewrite Z.add_0_r, Z.eqb_refl. done.
  - rewrite bool_decide_eq_true_2 by done. simpl length in *. apply negb_true_iff, Z.eqb_neq.
    Z.to_euclidean_division_equations; lia.
Qed.

Lemma intr_ok fuel st aq uq :
  vinv st aq uq -> (length uq < fuel)%nat ->
  exists st', virtio_disk_intr_loop fuel st = Ok tt st' /\ vinv st' aq [] /\ calm st st'.
Proof.
  revert st uq. induction fuel as [|fuel IH]; intros st uq I Hf; [lia|]. cbn [virtio_disk_intr_loop].
  rewrite (bind_ok get_disk _ st (dk st) st) by done. rewrite (used_nonempty _ _ _ I).
  destruct uq as [|i uq]; [exists st; split; [done|]; split; [done|]; by apply calm_same|].
  rewrite bool_decide_eq_true_2 by done.
  destruct (ring_pop _ _ _ _ (vi_uring _ _ _ I)) as [He _]. destruct (vi_uidx _ _ _ I) as (_ & Hu & _).
  rewrite Z.mod_small in He by done.
  assert (pending st i) as (p & b & w & i1 & i2 & a & x & Hp & Hx & Hd) by (apply (vi_pend _ _ _ I); set_solver).
  destruct (vi_req _ _ _ I _ _ _ _ _ _ _ Hp) as (_ & _ & _ & R3 & R4 & _).
  rewrite (bind_ok (at_ (used_elems (dk st)) _) _ st i st) by (unfold at_; by rewrite He).
  rewrite (bind_ok (at_ (info_status (dk st)) i) _ st 0 st) by (unfold at_; by rewrite R4). change (negb (0 =? 0)) with false. cbv iota.
  rewrite (bind_ok (at_ (info_b (dk st)) i) _ st (Some b) st) by (unfold at_; by rewrite R3).
  rewrite (bind_ok (get_vbuf b) _ st x st) by (unfold get_vbuf; by rewrite Hx).
  assert (forall (k : vM unit), (put_vbuf b (set_b_disk false x);; vwakeup (ChBuf b);;
      upd_disk (set_used_idx ((used_idx (dk st) + 1) mod Z.of_nat NUM));; k) st = k (reported b x st)) as -> by done.
  destruct (IH (reported b x st) uq) as (st' & E & I' & Hc); [by eapply vinv_reported|simpl in Hf; lia|].
  exists st'. split; [exact E|]. split; [done|]. eapply calm_trans; [|exact Hc].
  eapply (calm_bufs b x); [done|done|done|done|done|]. intros p'. apply is_Some_wake.
Qed.

(** ** The device *)

Lemma take_ok st aq uq :
  vinv st aq uq -> dev_seen (dev st) <> avail_idx (dk st) ->
  exists st' aq', dev_take st = Ok tt st' /\ vinv st' aq' uq /\ calm st st'.
Proof.
  intros I Hne. destruct (vi_aidx _ _ _ I) as [Ha Hs]. destruct aq as [|i aq].
  { exfalso. apply Hne. rewrite Ha. simpl. rewrite Z.add_0_r. symmetry. apply u16_small. lia. }
  destruct (ring_pop _ _ _ _ (vi_avail _ _ _ I)) as [He Hr].
  set (v := mkdev (u16 (dev_seen (dev st) + 1)) (dev_work (dev st) ++ [i]) (image (dev st))).
  exists (mkvst (dk st) (vbufs st) (vhdrs st) (vprocs st) v (mmio st)), aq. split.
  { unfold dev_take. rewrite (bind_ok get _ st st st) by done. cbv zeta.
    rewrite (bind_ok _ _ st i st) by (unfold at_; by rewrite He). done. }
  assert (i :: aq ++ dev_work (dev st) ++ uq ≡ₚ aq ++ (dev_work (dev st) ++ [i]) ++ uq) as Hperm
    by (rewrite <-app_assoc, Permutation_middle; f_equiv; simpl; apply Permutation_middle).
  split; [|by apply calm_same]. split; try apply I.
  - simpl. eapply ring_ext; [|exact Hr]. by rewrite u16_mod8.
  - simpl. split; [|apply u16_range]. rewrite Ha. simpl length. unfold u16. rewrite wrap_add_l. f_equal. lia.
  - simpl. rewrite <-Hperm. apply (vi_once _ _ _ I).
  - intros j. simpl. rewrite <-Hperm. apply (vi_pend _ _ _ I).
  - intros p b w i0 i1 i2 a x Hp Hx Hni. simpl in *. eapply (vi_done _ _ _ I); [done|done|set_solver].
Qed.

Lemma remove_notin (i : nat) l : i ∉ l -> remove Nat.eq_dec i l = l.
Proof.
  induction l as [|j l IH]; [done|]. intros [Hne Hl]%not_elem_of_cons. simpl.
  destruct (Nat.eq_dec i j); [done|]. by rewrite IH.
Qed.

Lemma remove_perm (i : nat) l : NoDup l -> i ∈ l -> l ≡ₚ i :: remove Nat.eq_dec i l.
Proof.
  induction l as [|j l IH]; intros Hnd Hi; [by apply elem_of_nil in Hi|].
  apply NoDup_cons in Hnd as [Hj Hnd]. simpl. destruct (Nat.eq_dec i j) as [->|Hne].
  - by rewrite remove_notin.
  - apply elem_of_cons in Hi as [->|Hi]; [done|]. rewrite (IH Hnd Hi) at 1. constructor.
Qed.

(** Blocks of the image. *)
Lemma rd_image_lookup im s n k : (k < n)%nat -> rd_image im s n !! k = Some (im (512 * s + Z.of_nat k)).
Proof. intros Hk. unfold rd_image. rewrite list_lookup_fmap, lookup_seq_lt by done. done. Qed.
Lemma length_rd_image im s n : length (rd_image im s n) = n.
Proof. unfold rd_image. by rewrite length_map, length_seq. Qed.

Lemma vblock_ext im im' n :
  (forall o, n * 1024 <= o < n * 1024 + 1024 -> im' o = im o) -> vblock im' n = vblock im n.
Proof.
  intros H. unfold vblock, VBSIZE. apply list_eq. intros k. destruct (decide (k < Z.to_nat 1024)%nat).
  - rewrite !rd_image_lookup by done. f_equal. apply H. lia.
  - rewrite !lookup_ge_None_2; [done| |]; rewrite length_rd_image; lia.
Qed.

Lemma vblock_written im n data : length data = Z.to_nat VBSIZE -> vblock (wr_image im (n * 2) data) n = data.
Proof.
  intros Hl. unfold vblock. apply list_eq. intros k. destruct (decide (k < Z.to_nat VBSIZE)%nat) as [Hk|Hk].
  - rewrite rd_image_lookup by done. unfold wr_image.
    destruct (Z.leb_spec (512 * (n * 2)) (512 * (n * 2) + Z.of_nat k)); [|lia].
    replace (Z.to_nat (512 * (n * 2) + Z.of_nat k - 512 * (n * 2))) with k by lia.
    by destruct (lookup_lt_is_Some_2 data k) as [v ->]; [lia|].
  - rewrite !lookup_ge_None_2; [done|lia|rewrite length_rd_image; lia].
Qed.

Lemma vblock_other im n n' data :
  length data = Z.to_nat VBSIZE -> n' <> n -> vblock (wr_image im (n * 2) data) n' = vblock im n'.
Proof.
  intros Hl Hne. apply vblock_ext. intros o Ho. unfold wr_image.
  destruct (Z.leb_spec (512 * (n * 2)) o); [|done]. rewrite lookup_ge_None_2; [done|].
  rewrite Hl. unfold VBSIZE. assert (n < n' \/ n' < n) as [?|?] by lia; lia.
Qed.

(** The state after the device has served the request. *)
Definition served_bufs (b : nat) (w : bool) (x : vbuf) (im : Z -> Z) (m : gmap nat vbuf) : gmap nat vbuf :=
  if w then m else <[b := mkvbuf (b_disk x) (b_blockno x) (vblock im (b_blockno x))]> m.
Definition served_image (w : bool) (x : vbuf) (im : Z -> Z) : Z -> Z :=
  if w then wr_image im (b_blockno x * 2) (b_data x) else im.
Definition served (b : nat) (w : bool) (id : nat) (x : vbuf) (st : vst) : vst :=
  let d := dk st in let v := dev st in
  mkvst (mkdisk (desc d) (avail_idx d) (avail_ring d) (u16 (used_id d + 1))
           (<[Z.to_nat (used_id d mod Z.of_nat NUM) := id]> (used_elems d)) (dfree d) (used_idx d) (info_b d) (<[id := 0]> (info_status d)))
    (served_bufs b w x (image v) (vbufs st)) (vhdrs st) (vprocs st)
    (mkdev (dev_seen v) (remove Nat.eq_dec id (dev_work v)) (served_image w x (image v))) (mmio st).

Lemma dev_done_ok st aq uq p b w id i1 i2 a x :
  vinv st aq uq -> vprocs st !! p = Some (OnDisk b w id i1 i2 a) -> vbufs st !! b = Some x ->
  dev_done id st = Ok tt (served b w id x st).
Proof.
  intros I Hp Hx. destruct (vi_req _ _ _ I _ _ _ _ _ _ _ Hp) as (R0 & R1 & R2 & _ & _ & y & Hy & Hh).
  assert (y = x) as -> by congruence.
  destruct (vi_buf _ _ _ I p _ Hp) as (y & Hy' & _ & Hl). simpl in Hy'. assert (y = x) as -> by congruence.
  unfold dev_done. rewrite (bind_ok get _ st st st) by done. cbv zeta.
  rewrite (bind_ok (at_ _ id) _ st _ st) by (unfold at_; by rewrite R0). cbn [d_next].
  rewrite (bind_ok (at_ _ i1) _ st _ st) by (unfold at_; by rewrite R1). cbn [d_next].
  rewrite (bind_ok (at_ _ i2) _ st _ st) by (unfold at_; by rewrite R2). cbn [d_addr d_len d_flags].
  rewrite Hh, Hx, Hl. change (VBSIZE =? Z.of_nat (Z.to_nat VBSIZE)) with true.
  unfold served, served_bufs, served_image. destruct w; reflexivity.
Qed.

Section served.
Context (p b : nat) (w : bool) (id i1 i2 : nat) (a : bool) (x : vbuf) (st : vst) (aq uq : list nat).
Context (I : vinv st aq uq) (Hp : vprocs st !! p = Some (OnDisk b w id i1 i2 a)).
Context (Hx : vbufs st !! b = Some x) (Hw : id ∈ dev_work (dev st)).
Let st' := served b w id x st.

Lemma srv_x_ok : buf_ok x.
Proof. destruct (vi_buf _ _ _ I p _ Hp) as (y & Hy & Hok). simpl in Hy. by assert (y = x) as <- by congruence. Qed.

Lemma srv_buf b' y : vbufs st' !! b' = Some y ->
  exists y0, vbufs st !! b' = Some y0 /\ b_blockno y = b_blockno y0 /\ b_disk y = b_disk y0 /\
    length (b_data y) = length (b_data y0) /\ (b' <> b \/ w = true -> y = y0).
Proof.
  pose proof srv_x_ok as [_ Hl]. unfold st', served, served_bufs. simpl. destruct w; [intros H; exists y; auto|].
  intros H. apply lookup_insert_Some in H as [[<- <-]|[Hne H]]; [|exists y; auto].
  exists x. split; [done|]. split; [done|]. split; [done|]. split; [|intros [?|?]; done].
  cbn [b_data]. unfold vblock. rewrite length_rd_image. done.
Qed.

Lemma srv_buf' b' y0 : vbufs st !! b' = Some y0 ->
  exists y, vbufs st' !! b' = Some y /\ b_blockno y = b_blockno y0 /\ b_disk y = b_disk y0 /\
    length (b_data y) = length (b_data y0).
Proof.
  intros Hy. assert (is_Some (vbufs st' !! b')) as [y H].
  { unfold st', served, served_bufs. simpl. destruct w; [eauto|]. destruct (decide (b' = b)) as [->|];
      [rewrite lookup_insert_eq; eauto|rewrite lookup_insert_ne by done; eauto]. }
  exists y. split; [done|]. apply srv_buf in H as (y1 & Hy1 & H). assert (y1 = y0) as -> by congruence. tauto.
Qed.

Lemma srv_perm : aq ++ dev_work (dev st) ++ uq ≡ₚ aq ++ remove Nat.eq_dec id (dev_work (dev st)) ++ uq ++ [id].
Proof.
  pose proof (vi_once _ _ _ I) as Ho. apply NoDup_app in Ho as (_ & _ & Ho). apply NoDup_app in Ho as (Ho & _).
  rewrite (remove_perm id _ Ho Hw) at 1. f_equiv. rewrite (app_assoc _ uq [id]), <-Permutation_cons_append. done.
Qed.

Lemma srv_pend j : pending st' j <-> pending st j.
Proof.
  split; intros (p' & b' & w' & j1 & j2 & a' & y & Hq & Hy & Hd).
  - apply srv_buf in Hy as (y0 & Hy & _ & E & _). exists p', b', w', j1, j2, a', y0. split; [done|]. split; [done|congruence].
  - apply srv_buf' in Hy as (y0 & Hy & _ & E & _). exists p', b', w', j1, j2, a', y0. split; [done|]. split; [done|congruence].
Qed.

(** The buffer and the block of the request are the same now; the others are as before. *)
Lemma srv_done p' b' w' j0 j1 j2 a' y :
  vprocs st !! p' = Some (OnDisk b' w' j0 j1 j2 a') -> vbufs st' !! b' = Some y ->
  j0 ∉ aq ++ remove Nat.eq_dec id (dev_work (dev st)) -> b_data y = vblock (image (dev st')) (b_blockno y).
Proof.
  intros Hq Hy Hni. pose proof srv_x_ok as [_ Hl]. destruct (decide (p' = p)) as [->|Hne].
  - rewrite Hp in Hq. injection Hq as <- <- <- <- <- <-. unfold st', served, served_bufs, served_image in *. simpl in *.
    destruct w.
    + assert (y = x) as -> by congruence. by rewrite vblock_written.
    + rewrite lookup_insert_eq in Hy. by injection Hy as <-.
  - assert (b' <> b) as Hb.
    { intros ->. apply Hne. by eapply (vi_excl _ _ _ I p' p _ _ x x Hq Hp Hx Hx). }
    assert (j0 <> id) as Hj by (intros ->; apply Hne; eapply (vi_own _ _ _ I p' p _ _ id Hq Hp); set_solver).
    apply srv_buf in Hy as (y0 & Hy & _ & _ & _ & E). rewrite E in * by by left. clear E.
    assert (b_blockno y0 <> b_blockno x) as Hbn.
    { intros E. apply Hne. by eapply (vi_excl _ _ _ I p' p _ _ y0 x Hq Hp Hy Hx). }
    rewrite (vi_done _ _ _ I _ _ _ _ _ _ _ _ Hq Hy).
    + simpl. unfold served_image. destruct w; [|done]. by rewrite vblock_other.
    + intros Hin. apply Hni. apply elem_of_app in Hin as [Hin|Hin]; [set_solver|]. apply elem_of_app. right.
      apply list_elem_of_In, in_in_remove; [done|]. by apply list_elem_of_In.
Qed.

Lemma vinv_served : vinv st' aq (uq ++ [id]).
Proof.
  destruct (vi_uidx _ _ _ I) as (U1 & U2 & U3). pose proof (in_flight _ _ _ I) as Hf. rewrite !length_app in Hf.
  split; try apply I.
  - simpl. rewrite length_insert. apply I.
  - intros p' b' w' j0 j1 j2 a' H. destruct (vi_req _ _ _ I _ _ _ _ _ _ _ H) as (R0 & R1 & R2 & R3 & R4 & y & Hy & Hh).
    repeat (split; [done|]). split.
    + simpl. destruct (decide (j0 = id)) as [->|]; [|by rewrite list_lookup_insert_ne].
      apply list_lookup_insert_eq. by apply lookup_lt_Some in R4.
    + apply srv_buf' in Hy as (y' & Hy & E & _). exists y'. by rewrite E.
  - intros p' q H. destruct (vi_buf _ _ _ I p' q H) as (y & Hy & Hok). apply srv_buf' in Hy as (y' & Hy & E & _ & El).
    exists y'. split; [done|]. unfold buf_ok. by rewrite E, El.
  - intros p1 p2 q1 q2 x1 x2 H1 H2 Hx1 Hx2 Heq. apply srv_buf in Hx1 as (y1 & Hy1 & E1 & _).
    apply srv_buf in Hx2 as (y2 & Hy2 & E2 & _). eapply (vi_excl _ _ _ I p1 p2); eauto. congruence.
  - simpl. rewrite U1. apply ring_push; [apply I|unfold NUM; lia].
  - simpl. split; [|split; [done|apply u16_range]]. rewrite u16_mod8, length_app, Zplus_mod, U1, <-Zplus_mod.
    f_equal. simpl. lia.
  - simpl. rewrite <-srv_perm. apply I.
  - intros j. simpl. rewrite <-srv_perm, srv_pend. apply I.
  - intros p' b' w' j0 j1 j2 a' y. apply srv_done.
  - intros p' b' w' j0 j1 j2 y H Hy. apply srv_buf in Hy as (y0 & Hy & _ & -> & _). by eapply (vi_sleepb _ _ _ I).
Qed.
End served.

(** ** A buffer that is in no call changes *)

Lemma vinv_store b x st aq uq : vinv st aq uq -> buf_idle b st -> vinv (bset b x st) aq uq.
Proof.
  intros I Hb.
  assert (forall p q, vprocs st !! p = Some q -> vbufs (bset b x st) !! buf_of q = vbufs st !! buf_of q) as E.
  { intros p q Hq. simpl. apply lookup_insert_ne. intros ->. by eapply Hb. }
  assert (forall p b' w i0 i1 i2 a, vprocs st !! p = Some (OnDisk b' w i0 i1 i2 a) ->
    vbufs (bset b x st) !! b' = vbufs st !! b') as Ed by (intros p b' w i0 i1 i2 a H; exact (E p _ H)).
  split; try apply I.
  - intros p b' w i0 i1 i2 a H. destruct (vi_req _ _ _ I _ _ _ _ _ _ _ H) as (R0 & R1 & R2 & R3 & R4 & y & Hy & Hh).
    repeat (split; [done|]). exists y. by rewrite (Ed _ _ _ _ _ _ _ H).
  - intros p q H. rewrite (E p q H). by apply (vi_buf _ _ _ I p).
  - intros p1 p2 q1 q2 x1 x2 H1 H2. rewrite (E p1 q1 H1), (E p2 q2 H2). by eapply (vi_excl _ _ _ I).
  - intros i. rewrite (vi_pend _ _ _ I). split; intros (p & b' & w & i1 & i2 & a & y & H & Hy);
      exists p, b', w, i1, i2, a, y; (split; [done|]).
    + by rewrite (Ed _ _ _ _ _ _ _ H).
    + by rewrite (Ed _ _ _ _ _ _ _ H) in Hy.
  - intros p b' w i0 i1 i2 a y H Hy. rewrite (Ed _ _ _ _ _ _ _ H) in Hy. by eapply (vi_done _ _ _ I).
  - intros p b' w i0 i1 i2 y H Hy. rewrite (Ed _ _ _ _ _ _ _ H) in Hy. by eapply (vi_sleepb _ _ _ I).
Qed.

(** ** Every step *)

(** What a step does to the disk and to the buffers. *)
Definition transfers (st st' : vst) : Prop :=
  (* a block changes when it is written, and becomes what the buffer holds *)
  (forall n, vblock (image (dev st')) n = vblock (image (dev st)) n \/
     exists p b i0 i1 i2 a x, vprocs st !! p = Some (OnDisk b true i0 i1 i2 a) /\ vbufs st !! b = Some x /\
       b_blockno x = n /\ vblock (image (dev st')) n = b_data x) /\
  (* the buffer of a call changes when it is read, and becomes what the block holds *)
  (forall p q x, vprocs st !! p = Some q -> vbufs st !! buf_of q = Some x ->
     exists x', vbufs st' !! buf_of q = Some x' /\ b_blockno x' = b_blockno x /\
       (b_data x' = b_data x \/
        exists i0 i1 i2 a, q = OnDisk (buf_of q) false i0 i1 i2 a /\ b_data x' = vblock (image (dev st)) (b_blockno x))) /\
  (* a call that returns leaves the buffer and the block the same *)
  (forall p q, vprocs st !! p = Some q -> vprocs st' !! p = None ->
     exists x, vbufs st' !! buf_of q = Some x /\ b_data x = vblock (image (dev st')) (b_blockno x)).

Lemma calm_transfers st st' : calm st st' -> transfers st st'.
Proof.
  intros (Hi & Hb & Hp). unfold transfers. rewrite Hi. split; [by left|]. split.
  - intros p q x Hq Hx. destruct (Hb _ _ Hx) as (x' & Hx' & E & F). exists x'. auto.
  - intros p q Hq Hn. destruct (Hp p) as [q' Hq']; [eauto|congruence].
Qed.

Lemma served_transfers st aq uq p b w id i1 i2 a x :
  vinv st aq uq -> vprocs st !! p = Some (OnDisk b w id i1 i2 a) -> vbufs st !! b = Some x ->
  transfers st (served b w id x st).
Proof.
  intros I Hp Hx. destruct (vi_buf _ _ _ I p _ Hp) as (y & Hy & Hok). simpl in Hy.
  assert (y = x) as -> by congruence. pose proof Hok as [_ Hl]. split; [|split].
  - intros n. simpl. unfold served_image. destruct w; [|by left].
    destruct (decide (n = b_blockno x)) as [->|Hne]; [right|left; by apply vblock_other].
    exists p, b, id, i1, i2, a, x. by rewrite vblock_written.
  - intros p' q y Hq Hy'. simpl. unfold served_bufs. destruct w; [exists y; auto|].
    destruct (decide (buf_of q = b)) as [Eb|Hne]; [|exists y; rewrite lookup_insert_ne by done; auto].
    assert (p' = p) as ->.
    { eapply (vi_excl _ _ _ I p' p q _ y y Hq Hp Hy'); [|done]. simpl. by rewrite <-Eb. }
    rewrite Hp in Hq. injection Hq as <-. simpl in *. assert (y = x) as -> by congruence.
    rewrite lookup_insert_eq. eexists. split; [done|]. split; [done|]. right. by exists id, i1, i2, a.
  - intros p' q Hq Hn. simpl in Hn. congruence.
Qed.

(** The code of every action that can happen runs to its end. *)
Lemma vact_ok a m st aq uq :
  vinv st aq uq -> vrun a st m -> exists st' aq' uq', m st = Ok tt st' /\ vinv st' aq' uq' /\ transfers st st'.
Proof.
  intros I. destruct a as [p b w|p|p| | |id|b x]; simpl.
  - intros (Hp & _ & (x & Hx & Hok & Hbi) & ->).
    destruct (rw_ok p b w st aq uq I) as (st' & aq' & E & I' & Hc); [by eapply enters_call|eauto 10 using calm_transfers].
  - intros (b & w & Hp & ->).
    destruct (rw_ok p b w st aq uq I) as (st' & aq' & E & I' & Hc); [by eapply enters_retry|eauto 10 using calm_transfers].
  - intros (b & w & i0 & i1 & i2 & Hp & ->).
    destruct (wait_ok p b w i0 i1 i2 st aq uq I Hp) as (st' & E & I' & [Hc|(x & Hn & Hb & Hd & Hx & Hdat & Hk)]);
      [eauto 10 using calm_transfers|].
    exists st', aq, uq. split; [done|]. split; [done|]. unfold transfers. rewrite Hb, Hd. split; [by left|]. split.
    + intros p' q y Hq Hy. exists y. auto.
    + intros p' q Hq Hn'. destruct (decide (p' = p)) as [->|Hne].
      * rewrite Hp in Hq. injection Hq as <-. eauto.
      * destruct (Hk p' Hne) as [q' Hq']; [eauto|congruence].
  - intros ->. destruct (intr_ok NUM st aq uq I) as (st' & E & I' & Hc); [|eauto 10 using calm_transfers].
    pose proof (in_flight _ _ _ I) as Hf. rewrite !length_app in Hf. unfold NUM. lia.
  - intros [Hne ->]. destruct (take_ok st aq uq I Hne) as (st' & aq' & E & I' & Hc); eauto 10 using calm_transfers.
  - intros [Hw ->]. assert (pending st id) as (p & b & w & i1 & i2 & a & x & Hp & Hx & _)
      by (apply (vi_pend _ _ _ I); set_solver).
    exists (served b w id x st), aq, (uq ++ [id]). split; [by eapply dev_done_ok|]. split; [by eapply vinv_served|].
    by eapply served_transfers.
  - intros [Hb ->]. exists (bset b x st), aq, uq. split; [done|]. split; [by apply vinv_store|].
    split; [by left|]. split; [|intros p q Hq Hn; simpl in Hn; congruence].
    intros p q y Hq Hy. exists y. simpl. rewrite lookup_insert_ne; [auto|]. intros ->. by eapply Hb.
Qed.

(** The state after [virtio_disk_init]: nobody is in the driver. *)
Definition started (st : vst) : Prop :=
  exists R pages st0, virtio_disk_init R pages st0 = Ok tt st /\
    used_idx (dk st0) = 0 /\ length (info_b (dk st0)) = NUM /\ length (info_status (dk st0)) = NUM /\
    vprocs st0 = ∅ /\ dev_seen (dev st0) = 0 /\ dev_work (dev st0) = [].

Lemma init_run R pages st0 st :
  virtio_disk_init R pages st0 = Ok tt st ->
  exists m, st = mkvst (mkdisk (replicate NUM zero_desc) 0 (replicate NUM O) 0 (replicate NUM O)
      (replicate NUM true) (used_idx (dk st0)) (info_b (dk st0)) (info_status (dk st0)))
    (vbufs st0) (vhdrs st0) (vprocs st0) (dev st0) m.
Proof.
  unfold virtio_disk_init. destruct (_ || _); [done|]. unfold bind, write_reg, modify. cbn -[NUM].
  destruct (R 52 =? 0); [done|]. destruct (R 52 <? _); [done|]. cbn -[NUM]. intros [= <-]. eauto.
Qed.

Lemma started_inv st : started st -> vinv st [] [].
Proof.
  intros (R & pages & st0 & E & Hu & Hi & Hs & Hp & Hsn & Hwk). apply init_run in E as [m ->].
  assert (forall p q, vprocs st0 !! p = Some q -> False) as Hno by (intros p q H; rewrite Hp in H; by apply lookup_empty_Some in H).
  split; simpl; try done.
  - intros i Hi'. split; [intros Hf; change (replicate NUM true !! i = Some false) in Hf; by apply lookup_replicate_1 in Hf as [? _]|]. intros (p & q & H & _). by destruct (Hno p q).
  - intros p q H. by destruct (Hno p q).
  - intros p p' q q' i H. by destruct (Hno p q).
  - intros p b w i0 i1 i2 a H. by destruct (Hno _ _ H).
  - intros p q H. by destruct (Hno p q).
  - intros p p' q q' x x' H. by destruct (Hno p q).
  - by rewrite Hsn.
  - by rewrite Hu.
  - rewrite Hwk. constructor.
  - intros i. rewrite Hwk. split; [intros H; by apply elem_of_nil in H|].
    intros (p & b & w & i1 & i2 & a & x & H & _). by destruct (Hno _ _ H).
  - intros p b w i0 i1 i2 a x H. by destruct (Hno _ _ H).
  - intros p b w H. by destruct (Hno _ _ H).
  - intros p b w i0 i1 i2 x H. by destruct (Hno _ _ H).
Qed.

Lemma reachable_inv st0 st : started st0 -> star vstep st0 st -> exists aq uq, vinv st aq uq.
Proof.
  intros Hs. apply (star_invariant vstep (fun s => exists aq uq, vinv s aq uq)); [|by exists [], []; apply started_inv].
  intros a b (aq & uq & I) (act & m & Hr & E). destruct (vact_ok act m a aq uq I Hr) as (b' & aq' & uq' & E' & I' & _).
  rewrite E in E'. injection E' as <-. eauto.
Qed.

(** ** Properties *)


(** C10: the driver moves the right data.  Along every execution a block of the disk changes
    only when a call writes it, and then becomes the content of the buffer of that call;
    the buffer of a call changes only when the call reads, and then becomes the content
    of its block; and when the call of [virtio_disk_rw] returns, the buffer and its block
    are the same.  So the disk under the buffer cache is a store of blocks that are read and
    written one at a time. *)
Theorem virtio_rw_transfers st0 st st' :
  started st0 -> star vstep st0 st -> vstep st st' -> transfers st st'.
Proof.
  intros Hs Hr (a & m & Ha & E). destruct (reachable_inv st0 st Hs Hr) as (aq & uq & I).
  destruct (vact_ok a m st aq uq I Ha) as (st1 & _ & _ & E1 & _ & Ht). rewrite E in E1. by injection E1 as <-.
Qed.

(** C12: no wakeup is lost.  A process that sleeps on its buffer has a request that is still
    under way: the device has chains to take or works on this one, or completions wait
    for the interrupt.  A process that sleeps for want of descriptors sleeps while another
    call holds some, which wakes it when it returns them. *)
Theorem virtio_no_lost_wakeup st0 st :
  started st0 -> star vstep st0 st ->
  (forall p b w i0 i1 i2, vprocs st !! p = Some (OnDisk b w i0 i1 i2 true) ->
     dev_seen (dev st) <> avail_idx (dk st) \/ i0 ∈ dev_work (dev st) \/
     used_idx (dk st) mod Z.of_nat NUM <> used_id (dk st) mod Z.of_nat NUM) /\
  (forall p b w, vprocs st !! p = Some (NeedDesc b w true) ->
     exists p' b' w' i0 i1 i2 a, vprocs st !! p' = Some (OnDisk b' w' i0 i1 i2 a)).
Proof.
  intros Hs Hr. destruct (reachable_inv st0 st Hs Hr) as (aq & uq & I). split.
  - intros p b w i0 i1 i2 Hp. destruct (vi_buf _ _ _ I p _ Hp) as (x & Hx & _). simpl in Hx.
    assert (i0 ∈ aq ++ dev_work (dev st) ++ uq) as Hin.
    { apply (vi_pend _ _ _ I). exists p, b, w, i1, i2, true, x. split; [done|]. split; [done|].
      by eapply (vi_sleepb _ _ _ I). }
    pose proof (in_flight _ _ _ I) as Hf. rewrite !length_app in Hf. destruct (vi_aidx _ _ _ I) as [Ha Hsn].
    apply elem_of_app in Hin as [Hin|Hin]; [|apply elem_of_app in Hin as [Hin|Hin]; [by right; left|right; right]].
    + left. intros E. destruct aq as [|j aq]; [by apply elem_of_nil in Hin|]. simpl length in *. rewrite E in Ha at 1.
      unfold u16, wrap in Ha. rewrite <-E in Ha. Z.to_euclidean_division_equations; lia.
    + pose proof (used_nonempty _ _ _ I) as Hu. rewrite bool_decide_eq_true_2 in Hu by (intros ->; by apply elem_of_nil in Hin).
      by apply negb_true_iff, Z.eqb_neq in Hu.
  - intros p b w Hp. destruct (vi_sleepf _ _ _ I _ _ _ Hp) as (l & Hl & Hfr).
    destruct (decide (Forall (fun i => i ∈ l) (seq 0 NUM))) as [Hall|Hnot].
    + exfalso. assert (seq 0 NUM ⊆+ l) as Hsub by (apply NoDup_submseteq; [apply NoDup_seq|by apply Forall_forall]).
      apply submseteq_length in Hsub. rewrite length_seq in Hsub. unfold NUM in Hsub. lia.
    + apply not_Forall_Exists in Hnot; [|apply _]. apply Exists_exists in Hnot as (i & Hi & Hni). apply elem_of_seq in Hi.
      destruct (lookup_lt_is_Some_2 (dfree (dk st)) i) as [f Hf]; [rewrite (vi_free _ _ _ I); lia|].
      destruct f; [by apply Hfr in Hf|]. apply (vi_used _ _ _ I) in Hf as (p' & q & Hq & Hc); [|lia].
      destruct q as [? ? ?|b' w' i0 i1 i2 a]; [by apply elem_of_nil in Hc|]. by exists p', b', w', i0, i1, i2, a.
Qed.

(** ** Instances *)

(** A device of the right kind, and a driver with one buffer, of block 3. *)
Definition wit_regs (r : Z) : Z :=
  if r =? 0 then 1953655158 else if r =? 4 then 1 else if r =? 8 then 2 else if r =? 12 then 1431127377
  else if r =? 52 then 1024 else 0.
Definition wit_vbuf : vbuf := mkvbuf false 3 (replicate (Z.to_nat VBSIZE) 7).
Definition wit_off : vst :=
  mkvst (mkdisk [] 0 [] 0 [] [] 0 (replicate NUM None) (replicate NUM 0))
    {[O := wit_vbuf]} ∅ ∅ (mkdev 0 [] (fun _ => 0)) [].
Definition out_st (o : outcome vst unit) : vst := match o with Ok _ s => s | _ => wit_off end.
Definition wit_on : vst := out_st (virtio_disk_init wit_regs 4096 wit_off).
Definition wit_called : vst := out_st (virtio_disk_rw 1 0 true wit_on).
Definition wit_sent : vst := out_st (dev_take wit_called).

Lemma wit_started : started wit_on.
Proof. exists wit_regs, 4096, wit_off. split; [vm_compute; reflexivity|]. repeat split. Qed.

Lemma wit_call : vrun (ACall 1 0 true) wit_on (virtio_disk_rw 1 0 true).
Proof.
  split; [reflexivity|]. split; [intros p q H; change (vprocs wit_on) with (∅ : gmap nat vproc) in H; by apply lookup_empty_Some in H|]. split; [|done].
  exists wit_vbuf. split; [reflexivity|]. split.
  - split; [simpl; lia|]. unfold wit_vbuf. cbn [b_data]. apply length_replicate.
  - intros p q x H. change (vprocs wit_on) with (∅ : gmap nat vproc) in H. by apply lookup_empty_Some in H.
Qed.

Lemma wit_reach1 : star vstep wit_on wit_called.
Proof.
  eapply star_step; [|apply star_refl]. exists (ACall 1 0 true), (virtio_disk_rw 1 0 true).
  split; [apply wit_call|vm_compute; reflexivity].
Qed.

Lemma wit_reach2 : star vstep wit_on wit_sent.
Proof.
  eapply star_step; [exists (ACall 1 0 true), (virtio_disk_rw 1 0 true); split; [apply wit_call|vm_compute; reflexivity]|].
  eapply star_step; [|apply star_refl]. exists ATake, dev_take. split; [split; [by vm_compute|done]|vm_compute; reflexivity].
Qed.


Lemma virtio_rw_transfers_witness : transfers wit_sent (out_st (dev_done 0 wit_sent)).
Proof.
  apply (virtio_rw_transfers wit_on); [apply wit_started|apply wit_reach2|].
  exists (ADone 0), (dev_done 0). split; [split; [vm_compute; left|reflexivity]|vm_compute; reflexivity].
Defined.

Lemma virtio_no_lost_wakeup_witness : dev_seen (dev wit_called) <> avail_idx (dk wit_called).
Proof.
  destruct (virtio_no_lost_wakeup wit_on wit_called) as [H _]; [apply wit_started|apply wit_reach1|].
  destruct (H 1%nat 0%nat true 0%nat 1%nat 2%nat) as [H1|[H1|H1]]; [reflexivity|exact H1|exfalso|exfalso].
  - vm_compute in H1. inversion H1.
  - vm_compute in H1. congruence.
Defined.
