(* ===== verification/Exec.v ===== *)
(** Program loading: kernel/proc/exec.c.

    The page tables are those of Vm.v.  The inode of the program and the transaction around
    it are behind the interface [ExecFs]; [xf_readi] gives the bytes that [readi] copied to the
    kernel.  A string of [argv] is its bytes without the zero at the end; [None] as the
    result of a part stands for [goto bad].  The trap frame and the fields of the process that
    [exec] sets are the record [xproc]. *)

From S2P Require Import Prelude PageAlloc Vm.

Definition ELF_MAGIC : Z := 0x464C457F.
Definition ELF_PROG_LOAD : Z := 1.
Definition MAXARG : Z := 32.

(** The fields of the headers that are used. *)
Record elfhdr := mkelf { e_magic : Z; e_entry : Z; e_phoff : Z; e_phnum : Z }.
Definition ELFHDR : Z := 64.
Definition elf_parse (b : bytes) : elfhdr :=
  mkelf (get_le 4 0 b) (get_le 8 24 b) (get_le 8 32 b) (get_le 2 56 b).
Record proghdr := mkph { ph_type : Z; ph_off : Z; ph_vaddr : Z; ph_filesz : Z; ph_memsz : Z }.
Definition PROGHDR : Z := 56.
Definition ph_parse (b : bytes) : proghdr :=
  mkph (get_le 4 0 b) (get_le 8 8 b) (get_le 8 16 b) (get_le 8 32 b) (get_le 8 40 b).

Class ExecFs (F I : Type) := {
  xf_begin_op : M F unit;
  xf_end_op : M F unit;
  xf_namei : bytes -> M F (option I);
  xf_ilock : I -> M F unit;
  xf_iunlockput : I -> M F unit;
  xf_readi : I -> Z -> Z -> M F bytes }.

Record xproc := mkxp {
  x_pagetable : Z; x_sz : Z; x_tf : Z; x_a1 : Z; x_epc : Z; x_sp : Z; x_name : bytes }.

Section code.
Context {A F I : Type} `{!PageAlloc A} `{!ExecFs F I} (trampoline : Z).

Record xst := mkxst { xvm : vst A; xfs : F; xp : xproc }.
Abbreviation xM := (M xst).

Definition vmM {B} (m : M (vst A) B) : xM B := fun s =>
  match m (xvm s) with
  | Ok a v => Ok a (mkxst v (xfs s) (xp s))
  | Panic msg => Panic msg
  | Sleep v => Sleep (mkxst v (xfs s) (xp s))
  | OutOfFuel => OutOfFuel
  | Undef => Undef
  end.
Definition fsM {B} (m : M F B) : xM B := fun s =>
  match m (xfs s) with
  | Ok a f => Ok a (mkxst (xvm s) f (xp s))
  | Panic msg => Panic msg
  | Sleep f => Sleep (mkxst (xvm s) f (xp s))
  | OutOfFuel => OutOfFuel
  | Undef => Undef
  end.

(** ** Page tables of a process *)

Definition vm_pagetable (tf : Z) : M (vst A) Z :=
  pt ← uvmcreate;
  mappages pt TRAMPOLINE PGSIZE trampoline (Z.lor PTE_R PTE_X);;
  mappages pt TRAPFRAME PGSIZE tf (Z.lor PTE_R PTE_W);;
  ret pt.
Definition vm_freepagetable (pt sz : Z) : M (vst A) unit :=
  uvmunmap pt TRAMPOLINE PGSIZE false;;
  uvmunmap pt TRAPFRAME PGSIZE false;;
  when (0 <? sz) (uvmfree pt sz).

(** ** Loading the segments *)

Fixpoint loadseg_loop (fuel : nat) (pagetable va : Z) (ip : I) (offset i sz : Z) : xM Z :=
  match fuel with
  | O => nofuel
  | S fuel' =>
      if i <? sz then
        pa ← vmM (walkaddr pagetable (u64 (va + i)));
        if pa =? 0 then panic "loadseg: address should exist"
        else
          let n := if sz - i <? PGSIZE then sz - i else PGSIZE in
          bs ← fsM (xf_readi ip (u32 (offset + i)) n);
          vmM (copy_to_page pa 0 bs);;
          if negb (Z.of_nat (length bs) =? n) then ret (-1)
          else loadseg_loop fuel' pagetable va ip offset (u32 (i + PGSIZE)) sz
      else ret 0
  end.
(** At least a page is loaded in every round. *)
Definition loadseg (pagetable va : Z) (ip : I) (offset sz : Z) : xM Z :=
  if negb (va mod PGSIZE =? 0) then panic "loadseg: va must be page aligned"
  else loadseg_loop (S (S (Z.to_nat (sz / PGSIZE)))) pagetable va ip offset 0 sz.

(** The loop over the program headers, from the [i]-th on, [k] of them; the size of the
    program, or [inl] of the size at [goto bad]. *)
Fixpoint load_loop (k : nat) (pagetable : Z) (ip : I) (off sz : Z) : xM (Z + Z) :=
  match k with
  | O => ret (inr sz)
  | S k' =>
      b ← fsM (xf_readi ip (u32 off) PROGHDR);
      if negb (Z.of_nat (length b) =? PROGHDR) then ret (inl sz)
      else
        let ph := ph_parse b in
        let off' := s32 (off + PROGHDR) in
        if negb (ph_type ph =? ELF_PROG_LOAD) then load_loop k' pagetable ip off' sz
        else if ph_memsz ph <? ph_filesz ph then ret (inl sz)
        else if u64 (ph_vaddr ph + ph_memsz ph) <? ph_vaddr ph then ret (inl sz)
        else
          sz' ← vmM (uvmalloc pagetable sz (u64 (ph_vaddr ph + ph_memsz ph)));
          if sz' =? 0 then ret (inl sz')
          else if negb (ph_vaddr ph mod PGSIZE =? 0) then ret (inl sz')
          else
            r ← loadseg pagetable (ph_vaddr ph) ip (u32 (ph_off ph)) (u32 (ph_filesz ph));
            if r <? 0 then ret (inl sz') else load_loop k' pagetable ip off' sz'
  end.

(** ** The stack *)

(** [sp -= n; sp -= sp % 16]. *)
Definition sp_down (sp n : Z) : Z := let sp := u64 (sp - n) in u64 (sp - sp mod 16).

(** The loop over the arguments: [ustack] and [sp]. *)
Fixpoint push_args (argv : list bytes) (pagetable stackbase : Z) (ustack : list Z) (sp : Z) :
    M (vst A) (option (list Z * Z)) :=
  match argv with
  | [] => ret (Some (ustack, sp))
  | a :: argv' =>
      if MAXARG <=? Z.of_nat (length ustack) then ret None
      else
        let sp := sp_down sp (Z.of_nat (length a) + 1) in
        if sp <? stackbase then ret None
        else
          r ← copyout pagetable sp (a ++ [0]);
          if r <? 0 then ret None
          else push_args argv' pagetable stackbase (ustack ++ [sp]) sp
  end.

(** The arguments and the array of pointers to them, on the page below [sz]; [argc] and
    the stack pointer. *)
Definition push_stack (argv : list bytes) (pagetable sz : Z) : M (vst A) (option (Z * Z)) :=
  let stackbase := u64 (sz - PGSIZE) in
  r ← push_args argv pagetable stackbase [] sz;
  match r with
  | None => ret None
  | Some (ustack, sp) =>
      let argc := Z.of_nat (length ustack) in
      let sp := sp_down sp ((argc + 1) * 8) in
      if sp <? stackbase then ret None
      else
        r ← copyout pagetable sp (concat (map (le_enc 8) (ustack ++ [0])));
        if r <? 0 then ret None else ret (Some (argc, sp))
  end.

(** What follows the last slash of the path. *)
Fixpoint last_elem (path last : bytes) : bytes :=
  match path with
  | [] => last
  | c :: path' => last_elem path' (if c =? 47 then path' else last)
  end.
(** [safestrcpy(p->name, last, sizeof(p->name))], with [sizeof(p->name)] 16: it copies at most
    15 bytes, the zero included, and stores one more zero. *)
Definition exec_name (last name : bytes) : bytes :=
  upd_bytes 0 (if (length last <? 15)%nat then last ++ [0; 0] else take 15 last ++ [0]) name.

(** ** exec *)

(** The label [bad]; [ip] is the inode that is still held. *)
Definition exec_bad (pagetable sz : Z) (ip : option I) : xM Z :=
  when (negb (pagetable =? 0)) (vmM (vm_freepagetable pagetable sz));;
  (match ip with Some ip => fsM (xf_iunlockput ip);; fsM xf_end_op | None => ret tt end);;
  ret (-1).

(** Lines 66 to 95: the two pages for the stack, and what is put on it.  [inl] of the
    size at [goto bad], or the size, [argc] and the stack pointer. *)
Definition exec_stack (argv : list bytes) (pagetable sz : Z) : M (vst A) (Z + Z * Z * Z) :=
  let sz := PGROUNDUP sz in
  sz ← uvmalloc pagetable sz (u64 (sz + 2 * PGSIZE));
  if sz =? 0 then ret (inl sz)
  else
    uvmclear pagetable (u64 (sz - 2 * PGSIZE));;
    r ← push_stack argv pagetable sz;
    match r with
    | None => ret (inl sz)
    | Some (argc, sp) => ret (inr (sz, argc, sp))
    end.

(** From line 63 on: the stack, and the new image. *)
Definition exec_image (path : bytes) (argv : list bytes) (pagetable sz entry : Z) : xM Z :=
  r ← vmM (exec_stack argv pagetable sz);
  match r with
  | inl sz => exec_bad pagetable sz None
  | inr (sz, argc, sp) =>
      p ← gets xp;
      modify (fun s => mkxst (xvm s) (xfs s)
        (mkxp pagetable sz (x_tf p) sp entry sp (exec_name (last_elem path path) (x_name p))));;
      vmM (vm_freepagetable (x_pagetable p) (x_sz p));;
      ret argc
  end.

Definition exec (path : bytes) (argv : list bytes) : xM Z :=
  fsM xf_begin_op;;
  o ← fsM (xf_namei path);
  match o with
  | None => fsM xf_end_op;; ret (-1)
  | Some ip =>
      fsM (xf_ilock ip);;
      b ← fsM (xf_readi ip 0 ELFHDR);
      if negb (Z.of_nat (length b) =? ELFHDR) then exec_bad 0 0 (Some ip)
      else
        let elf := elf_parse b in
        if negb (e_magic elf =? ELF_MAGIC) then exec_bad 0 0 (Some ip)
        else
          p ← gets xp;
          pagetable ← vmM (vm_pagetable (x_tf p));
          if pagetable =? 0 then exec_bad 0 0 (Some ip)
          else
            r ← load_loop (Z.to_nat (e_phnum elf)) pagetable ip (s32 (e_phoff elf)) 0;
            match r with
            | inl sz => exec_bad pagetable sz (Some ip)
            | inr sz =>
                fsM (xf_iunlockput ip);;
                fsM xf_end_op;;
                exec_image path argv pagetable sz (e_entry elf)
            end
  end.

(** ** The system call *)

Definition fetchaddr (addr : Z) : xM (option Z) :=
  p ← gets xp;
  if (x_sz p <=? addr) || (x_sz p <? u64 (addr + 8)) then ret None
  else
    ' (r, b) ← vmM (copyin (x_pagetable p) addr 8);
    if negb (r =? 0) then ret None else ret (Some (le_dec b)).

(** The bytes in front of the first zero. *)
Fixpoint before_nul (b : bytes) : bytes :=
  match b with [] => [] | c :: b' => if c =? 0 then [] else c :: before_nul b' end.
Definition fetchstr (addr max : Z) : xM (option bytes) :=
  p ← gets xp;
  ' (err, b) ← vmM (copyinstr (x_pagetable p) addr max);
  if err <? 0 then ret None else ret (Some (before_nul b)).

(** The loop of [sys_exec] from entry [i] of the array on, [k] entries before its end: did
    it find the null pointer, the arguments, and the pages that hold them. *)
Fixpoint exec_argv (k : nat) (i uargv : Z) (argv : list bytes) (pages : list Z) : xM (bool * list bytes * list Z) :=
  match k with
  | O => ret (false, argv, pages)
  | S k' =>
      o ← fetchaddr (u64 (uargv + 8 * i));
      match o with
      | None => ret (false, argv, pages)
      | Some uarg =>
          if uarg =? 0 then ret (true, argv, pages)
          else
            pg ← vmM ufkalloc;
            if pg =? 0 then panic "sys_exec kalloc"
            else
              a ← fetchstr uarg PGSIZE;
              match a with
              | None => ret (false, argv, pages ++ [pg])
              | Some a => exec_argv k' (i + 1) uargv (argv ++ [a]) (pages ++ [pg])
              end
      end
  end.
Fixpoint free_pages (pages : list Z) : xM unit :=
  match pages with [] => ret tt | pg :: pages' => vmM (ufkfree pg);; free_pages pages' end.

(** [path] is what [argstr] has fetched. *)
Definition sys_exec (path : option bytes) (uargv : Z) : xM Z :=
  match path with
  | None => ret (-1)
  | Some path =>
      ' (ok, argv, pages) ← exec_argv (Z.to_nat MAXARG) 0 uargv [] [];
      if ok : bool then r ← exec path argv; free_pages pages;; ret r
      else free_pages pages;; ret (-1)
  end.
End code.
