(* ===== verification/ExecSpec.v ===== *)
(** What a program finds on its stack: the arguments that [exec] was called with. *)

From S2P Require Import Prelude PageAlloc Vm UserMem Exec.

(** ** The layout of the stack *)

(** Down by [n] bytes and to a multiple of 16. *)
Definition down (sp n : Z) : Z := (sp - n) - (sp - n) mod 16.

(** The addresses of the arguments, and the stack pointer behind the last one. *)
Fixpoint arg_sps (argv : list bytes) (sp : Z) : list Z :=
  match argv with
  | [] => []
  | a :: argv' => let sp := down sp (Z.of_nat (length a) + 1) in sp :: arg_sps argv' sp
  end.
Definition last_sp (argv : list bytes) (sp : Z) : Z := default sp (last (arg_sps argv sp)).
Definition stack_sp (argv : list bytes) (sz : Z) : Z :=
  down (last_sp argv sz) ((Z.of_nat (length argv) + 1) * 8).

Lemma down_le sp n : 0 <= n -> down sp n <= sp - n /\ sp - n - 15 <= down sp n /\ down sp n mod 16 = 0.
Proof. intros Hn. unfold down. Z.to_euclidean_division_equations; lia. Qed.

Lemma sp_down_eq sp n : 0 <= n <= sp -> sp < 2 ^ 64 -> sp_down sp n = down sp n.
Proof.
  intros Hn Hs. unfold sp_down, down. cbv zeta. rewrite (u64_small (sp - n)) by lia. apply u64_small.
  pose proof (Z.mod_pos_bound (sp - n) 16 ltac:(lia)). pose proof (Z.mod_le (sp - n) 16 ltac:(lia) ltac:(lia)). lia.
Qed.

Lemma last_sp_cons a argv sp : last_sp (a :: argv) sp = last_sp argv (down sp (Z.of_nat (length a) + 1)).
Proof. unfold last_sp. cbn [arg_sps]. cbv zeta. rewrite last_cons. by destruct (last _). Qed.

Lemma last_sp_le argv sp : last_sp argv sp <= sp.
Proof.
  revert sp. induction argv as [|a argv IH]; intros sp; [unfold last_sp; simpl; lia|].
  rewrite last_sp_cons. specialize (IH (down sp (Z.of_nat (length a) + 1))).
  pose proof (down_le sp (Z.of_nat (length a) + 1)). lia.
Qed.

Section spec.
Context {A : Type} `{!PageAlloc A} `{!PageAllocLaws A}.
Implicit Types (s : vst A) (o : gmap Z (list Z)).

(** User memory holds [bs] at [va]. *)
Definition holds s (root va : Z) (bs : bytes) : Prop :=
  forall k b, bs !! k = Some b -> ubyte s root (va + Z.of_nat k) = Some b.

(** User memory is the same outside of [lo, hi). *)
Definition same_outside s s' (root lo hi : Z) : Prop :=
  forall va, ~ (lo <= va < hi) -> ubyte s' root va = ubyte s root va.

Lemma copyout_stack s root o va bs :
  vm_ok s root o -> 0 <= va < 2 ^ 64 ->
  (forall a, va <= a < va + Z.of_nat (length bs) -> ubyte s root a <> None) ->
  exists s', copyout root va bs s = Ok 0 s' /\ vm_ok s' root o /\ holds s' root va bs /\
    same_outside s s' root va (va + Z.of_nat (length bs)) /\
    forall a, ubyte s root a <> None -> ubyte s' root a <> None.
Proof.
  intros Hok Hva Hmap. destruct (copyout_loop_ok (S (length bs)) s root o va bs Hok Hva)
    as (r & s' & n & E & Hok' & _ & Hu & Hr); [lia|].
  destruct Hr as [[-> ->]|(_ & Hn & Hno)]; [|exfalso; apply (Hmap (va + Z.of_nat n)); [lia|done]].
  exists s'. split; [exact E|]. split; [done|]. split; [|split].
  - intros k b Hk. rewrite Hu. pose proof (lookup_lt_Some _ _ _ Hk). rewrite decide_True by lia.
    rewrite <-Hk. f_equal. lia.
  - intros a Ha. rewrite Hu. by rewrite decide_False.
  - intros a Ha. rewrite Hu. case_decide as Hd; [|done].
    destruct (lookup_lt_is_Some_2 bs (Z.to_nat (a - va))) as [b ->]; [lia|done].
Qed.

Lemma holds_same s s' root lo hi va bs :
  holds s root va bs -> same_outside s s' root lo hi -> hi <= va -> holds s' root va bs.
Proof. intros Hh Hs Hva k b Hk. rewrite Hs by lia. by apply Hh. Qed.

(** The arguments that fit are stored; the others make [exec] fail. *)
Lemma push_args_ok argv root o base sz us sp s :
  vm_ok s root o -> 4096 <= base -> base <= sp <= sz -> sz < 2 ^ 64 ->
  (forall a, base <= a < sz -> ubyte s root a <> None) ->
  Forall (fun a => Z.of_nat (length a) < 4096) argv ->
  exists r s', push_args argv root base us sp s = Ok r s' /\ vm_ok s' root o /\
    same_outside s s' root base sp /\ (forall a, ubyte s root a <> None -> ubyte s' root a <> None) /\
    match r with
    | Some (us', sp') => us' = us ++ arg_sps argv sp /\ sp' = last_sp argv sp /\ base <= sp' /\
        Z.of_nat (length us + length argv) <= Z.max MAXARG (Z.of_nat (length us)) /\
        forall i a p, argv !! i = Some a -> arg_sps argv sp !! i = Some p ->
          sp' <= p /\ p + Z.of_nat (length a) + 1 <= sp /\ holds s' root p (a ++ [0])
    | None => MAXARG < Z.of_nat (length us + length argv) \/ last_sp argv sp < base
    end.
Proof.
  revert us sp s. induction argv as [|a argv IH]; intros us sp s Hok Hb Hsp Hsz Hm Hl; cbn [push_args].
  - eexists _, s. split; [reflexivity|]. split; [done|]. split; [done|]. split; [done|].
    simpl. rewrite app_nil_r. unfold last_sp. simpl. repeat split; try done; lia.
  - apply Forall_cons in Hl as [Ha Hl].
    destruct (Z.leb_spec MAXARG (Z.of_nat (length us))) as [Hmax|Hmax].
    { eexists _, s. split; [reflexivity|]. split; [done|]. split; [done|]. split; [done|].
      left. simpl. lia. }
    rewrite sp_down_eq by lia. rewrite last_sp_cons. cbn [arg_sps]. cbv zeta.
    set (sp1 := down sp (Z.of_nat (length a) + 1)).
    pose proof (down_le sp (Z.of_nat (length a) + 1) ltac:(lia)) as Hd. fold sp1 in Hd.
    destruct (Z.ltb_spec sp1 base) as [Hlt|Hge].
    { eexists _, s. split; [reflexivity|]. split; [done|]. split; [done|]. split; [done|].
      right. pose proof (last_sp_le argv sp1). lia. }
    destruct (copyout_stack s root o sp1 (a ++ [0])) as (s1 & E1 & Hok1 & Hh1 & Hs1 & Hn1); [done|lia| |].
    { rewrite length_app. simpl. intros va Hva. apply Hm. lia. }
    rewrite (bind_ok _ _ _ _ _ E1). cbn [Z.ltb Z.compare]. rewrite length_app in Hs1. simpl in Hs1.
    destruct (IH (us ++ [sp1]) sp1 s1) as (r & s' & E & Hok' & Hs' & Hn' & Hr); [done|done|lia|done| |done|].
    { intros va Hva. by apply Hn1, Hm. }
    exists r, s'. split; [exact E|]. split; [done|]. split; [|split; [auto|]].
    + intros va Hva. rewrite Hs' by lia. apply Hs1. lia.
    + destruct r as [[us' sp']|].
      * destruct Hr as (-> & -> & Hb' & Hmx & Hi). rewrite length_app in Hmx. simpl in Hmx.
        rewrite <-app_assoc. split; [done|]. split; [done|]. split; [done|]. split; [simpl; lia|].
        intros [|i] b p Hib Hip; simpl in Hib, Hip.
        -- injection Hib as <-. injection Hip as <-. pose proof (last_sp_le argv sp1). split; [done|]. split; [lia|].
           eapply holds_same; [exact Hh1|exact Hs'|lia].
        -- destruct (Hi i b p Hib Hip) as (? & ? & ?). split; [done|]. split; [lia|done].
      * rewrite length_app in Hr. simpl in *. destruct Hr; [left; lia|by right].
Qed.

Lemma length_arg_sps argv sp : length (arg_sps argv sp) = length argv.
Proof. revert sp. induction argv as [|a argv IH]; intros sp; [done|]. simpl. by rewrite IH. Qed.

Lemma length_ptr_words l : length (concat (map (le_enc 8) l)) = (8 * length l)%nat.
Proof. induction l as [|z l IH]; [done|]. cbn [map concat length]. rewrite length_app, length_le_enc, IH. lia. Qed.

(** The stack of a program with the arguments [argv]: [argc] pointers and a null pointer at
    [sp], each pointer leading to its argument. *)
Definition args_at s (root sp sz : Z) (argv : list bytes) : Prop :=
  holds s root sp (concat (map (le_enc 8) (arg_sps argv sz ++ [0]))) /\
  forall i a p, argv !! i = Some a -> arg_sps argv sz !! i = Some p ->
    sp + 8 * (Z.of_nat (length argv) + 1) <= p /\ p + Z.of_nat (length a) + 1 <= sz /\ holds s root p (a ++ [0]).

(** Everything fits on the page. *)
Definition args_fit (argv : list bytes) (sz : Z) : Prop :=
  Z.of_nat (length argv) <= MAXARG /\ sz - PGSIZE <= stack_sp argv sz.

Lemma push_stack_ok argv root o sz s :
  vm_ok s root o -> 8192 <= sz < 2 ^ 64 -> (forall a, sz - 4096 <= a < sz -> ubyte s root a <> None) ->
  Forall (fun a => Z.of_nat (length a) < 4096) argv ->
  exists r s', push_stack argv root sz s = Ok r s' /\ vm_ok s' root o /\ same_outside s s' root (sz - 4096) sz /\
    match r with
    | Some (argc, sp) => args_fit argv sz /\ argc = Z.of_nat (length argv) /\ sp = stack_sp argv sz /\
        args_at s' root sp sz argv
    | None => ~ args_fit argv sz
    end.
Proof.
  intros Hok Hsz Hm Hl. unfold push_stack, args_fit, PGSIZE. rewrite u64_small by lia.
  destruct (push_args_ok argv root o (sz - 4096) sz [] sz s) as (r & s1 & E & Hok1 & Hs1 & Hn1 & Hr);
    [done|lia|lia|lia|done|done|].
  rewrite (bind_ok _ _ _ _ _ E). unfold stack_sp.
  pose proof (down_le (last_sp argv sz) ((Z.of_nat (length argv) + 1) * 8) ltac:(lia)) as Hd.
  destruct r as [[us sp]|].
  2: { exists None, s1. split; [done|]. split; [done|]. split; [done|]. simpl in Hr. lia. }
  destruct Hr as (-> & -> & Hb & Hmx & Hi). simpl in Hmx. cbn [app].
  rewrite length_arg_sps. assert (Z.of_nat (length argv) <= 32) as Hmx' by (unfold MAXARG in *; lia).
  pose proof (last_sp_le argv sz).
  rewrite sp_down_eq by lia. set (sp := down _ _) in *.
  destruct (Z.ltb_spec sp (sz - 4096)) as [Hlt|Hge].
  { exists None, s1. split; [done|]. split; [done|]. split; [done|]. lia. }
  set (ws := concat (map (le_enc 8) (arg_sps argv sz ++ [0]))).
  assert (Z.of_nat (length ws) = 8 * (Z.of_nat (length argv) + 1)) as Hws
    by (unfold ws; rewrite length_ptr_words, length_app, length_arg_sps; simpl; lia).
  destruct (copyout_stack s1 root o sp ws) as (s2 & E2 & Hok2 & Hh2 & Hs2 & Hn2); [done|lia| |].
  { intros va Hva. apply Hn1, Hm. lia. }
  rewrite (bind_ok _ _ _ _ _ E2). cbn [Z.ltb Z.compare].
  eexists _, s2. split; [reflexivity|]. split; [done|]. split.
  - intros va Hva. rewrite Hs2 by lia. apply Hs1. lia.
  - split; [unfold MAXARG; lia|]. split; [done|]. split; [done|]. split; [exact Hh2|].
    intros i a p Ha Hp. destruct (Hi i a p Ha Hp) as (Hp1 & Hp2 & Hp3). split; [lia|]. split; [done|].
    eapply holds_same; [exact Hp3|exact Hs2|lia].
Qed.

(** ** The page under the stack *)

Lemma clear_user mem :
  0 <= mem < 2 ^ 54 /\ mem mod PGSIZE = 0 -> Z.land (leaf_pte mem (Z.lor (Z.lor PTE_W PTE_X) (Z.lor PTE_R PTE_U))) (Z.lnot PTE_U) = leaf_pte mem 14.
Proof.
  intros Hm. unfold leaf_pte. rewrite !Z.land_lor_distr_l, (PA2PTE_eq mem Hm).
  change (Z.land (Z.lor (Z.lor PTE_W PTE_X) (Z.lor PTE_R PTE_U)) (Z.lnot PTE_U)) with 14.
  change (Z.land PTE_V (Z.lnot PTE_U)) with PTE_V. do 2 f_equal.
  apply Z.bits_inj'. intros n Hn. rewrite Z.land_spec, Z.lnot_spec by done.
  destruct (Z.eq_dec n 4) as [->|Hne]; [by rewrite Z.shiftl_spec_low by lia|].
  change PTE_U with (2 ^ 4). rewrite Z.pow2_bits_false by lia. apply andb_true_r.
Qed.

Lemma uvmclear_ok s root o va :
  vm_ok s root o -> 0 <= va < MAXVA -> user_leaf (ram s) root va ->
  exists s', uvmclear root va s = Ok tt s' /\ vm_ok s' root o /\
    forall va', ubyte s' root va' = if decide (va' / 4096 = va / 4096) then None else ubyte s root va'.
Proof.
  intros Hok Hva (mem & Hv & Hm1 & Hm2). destruct (vmap_walk _ _ _ _ Hv) as (q & Hq & Hrd & Hval).
  pose proof (leaf_owner _ _ _ _ _ (vo_pt _ _ _ Hok) Hq) as Hown.
  assert (0 <= mem < 2 ^ 54 /\ mem mod PGSIZE = 0) as Hm by (split; [lia|done]). pose proof (leaf_pte_range mem 14 Hm ltac:(lia)) as Hr.
  set (s' := mkvst (wr (ram s) q (PX 0 va) (leaf_pte mem 14)) (al s)). exists s'.
  assert (forall va', 0 <= va' < MAXVA -> vmap (ram s') root va' =
    if decide (va' / 4096 = va / 4096) then Some (leaf_pte mem 14) else vmap (ram s) root va') as Hv'.
  { intros va' Hva'. unfold s'. cbn [ram].
    rewrite (wr_leaf_vmap _ _ _ va q _ (vo_ram _ _ _ Hok) (vo_pt _ _ _ Hok) Hq Hr) by done.
    by rewrite leaf_pte_valid by lia. }
  assert (forall va' pte', 0 <= va' < MAXVA -> vmap (ram s') root va' = Some pte' ->
    exists pte0, vmap (ram s) root va' = Some pte0 /\ PTE2PA pte' = PTE2PA pte0) as Hpa.
  { intros va' pte' Hva'. rewrite Hv' by done. case_decide as Hd; [|eauto]. intros [= <-].
    rewrite (vmap_same _ _ va' va Hd), Hv. eexists. split; [done|]. by rewrite !PTE2PA_leaf by (done || lia). }
  split; [|split].
  - unfold uvmclear. rewrite (bind_ok _ _ _ _ _ (walk_read root va s ltac:(lia))), Hq. cbn [fmap option_fmap option_map].
    unfold bind, get_pte, gets. cbn [fst Datatypes.snd]. fold (rd (ram s) q (PX 0 va)). rewrite Hrd, clear_user by done. done.
  - split.
    + apply wr_ok; [apply Hok|apply PX_range].
    + by apply (wr_leaf_inv _ _ _ va q _ (vo_ram _ _ _ Hok)); [apply Hok|..].
    + apply Hok.
    + apply Hok.
    + intros va' pte' Hva' E. destruct (Hpa va' pte' Hva' E) as (pte0 & E0 & ->). by apply (vo_leaf _ _ _ Hok va').
    + intros v1 v2 p1 p2 H1 H2 E1 E2. destruct (Hpa _ _ H1 E1) as (q1 & F1 & ->). destruct (Hpa _ _ H2 E2) as (q2 & F2 & ->).
      by apply (vo_inj _ _ _ Hok).
  - intros va'. unfold ubyte. destruct (decide (0 <= va' < MAXVA)) as [Hva'|]; [|by case_decide].
    rewrite Hv' by done. case_decide as Hd.
    + rewrite leaf_pte_user by (done || lia). done.
    + destruct (vmap (ram s) root va') as [pte'|] eqn:E; [|done]. destruct (has pte' PTE_U); [|done].
      destruct (vo_leaf _ _ _ Hok va' pte' Hva' E) as (Hno & _). unfold s'. cbn [ram]. unfold wr. rewrite fupd_ne; [done|].
      intros <-. apply Hno. by eapply elem_of_dom_2.
Qed.

(** C36: the stack of a new program.  With memory for the two pages and room below the trap
    frame, [exec] puts a page that the program cannot access above the program, and the
    stack above that page.  When there are at most [MAXARG] arguments and they fit on the
    page, the program starts with [argc] their number and the stack pointer aligned to 16, at
    an array of [argc] pointers and a null pointer, and each pointer leads to its argument
    with a zero behind it; nothing else of the program changes.  Otherwise [exec] fails. *)
Theorem exec_stack_args argv root o sz s :
  user_space s root o sz -> PGROUNDUP sz + 2 * PGSIZE <= TRAPFRAME -> 6 <= Z.of_nat (size (pool s)) ->
  Forall (fun a => Z.of_nat (length a) < PGSIZE) argv ->
  let top := PGROUNDUP sz + 2 * PGSIZE in
  exists r s' o', exec_stack argv root sz s = Ok r s' /\ vm_ok s' root o' /\
    (forall va, 0 <= va < PGROUNDUP sz -> ubyte s' root va = ubyte s root va) /\
    (forall va, PGROUNDUP sz <= va < PGROUNDUP sz + PGSIZE -> ubyte s' root va = None) /\
    match r with
    | inr (sz', argc, sp) => args_fit argv top /\ sz' = top /\ argc = Z.of_nat (length argv) /\
        sp = stack_sp argv top /\ sp mod 16 = 0 /\ args_at s' root sp top argv
    | inl sz' => ~ args_fit argv top /\ sz' = top
    end.
Proof.
  intros Hus Htop Hpool Hl top. pose proof (us_size _ _ _ _ Hus) as Hsz.
  assert (PGROUNDUP sz = 4096 * npages sz) as Hup
    by (apply PGROUNDUP_eq; unfold TRAPFRAME, TRAMPOLINE, PGSIZE in *; lia).
  set (n := npages sz) in *. assert (top = 4096 * (n + 2)) as Et by (unfold top, PGSIZE; lia).
  assert (0 <= n) by (apply Z.div_pos; lia).
  assert (top <= TRAPFRAME /\ TRAPFRAME < MAXVA) as [Ht1 Ht2] by (unfold TRAPFRAME, TRAMPOLINE, PGSIZE in *; lia).
  assert (user_space s root o (4096 * n)) as Hus'
    by (eapply us_resize; [exact Hus|by rewrite npages_mul|lia]).
  destruct (uvmalloc_ok (4096 * n) top s root o Hus') as (r & s1 & E & -> & o1 & Hus1 & _ & Hu1 & _ & Hlf1 & _);
    [lia|rewrite Et, !npages_mul; lia|].
  rewrite Et, !npages_mul in Hu1, Hlf1.
  assert (forall va, n <= va / 4096 < n + 2 <-> 4096 * n <= va < top) as Hpg
    by (intros va; rewrite page_lt, Et; assert (va / 4096 < n <-> va < 4096 * n) by apply page_lt; lia).
  destruct (uvmclear_ok s1 root o1 (4096 * n) (us_ok _ _ _ _ Hus1)) as (s2 & E2 & Hok2 & Hu2);
    [lia|apply Hlf1; [lia|apply Hpg; lia]|].
  replace (4096 * n / 4096) with n in Hu2 by (rewrite Z.mul_comm, Z.div_mul; lia).
  assert (forall va, va / 4096 = n <-> 4096 * n <= va < 4096 * n + 4096) as Hpn
    by (intros va; pose proof (Z.div_mod va 4096 ltac:(lia)); pose proof (Z.mod_pos_bound va 4096 ltac:(lia)); nia).
  destruct (push_stack_ok argv root o1 top s2 Hok2) as (r & s3 & E3 & Hok3 & Hs3 & Hr); [unfold MAXVA in *; lia| |done|].
  { intros va Hva. rewrite Hu2, decide_False by (rewrite Hpn; lia). rewrite Hu1 by lia.
    by rewrite decide_True by (apply Hpg; lia). }
  exists (match r with None => inl top | Some (argc, sp) => inr (top, argc, sp) end), s3, o1. split; [|split; [done|split; [|split]]].
  - unfold exec_stack. rewrite Hup. unfold PGSIZE. rewrite u64_small by (unfold MAXVA in *; lia).
    replace (4096 * n + 2 * 4096) with top by lia. rewrite (bind_ok _ _ _ _ _ E).
    destruct (Z.eqb_spec top 0); [lia|]. rewrite u64_small by (unfold MAXVA in *; lia).
    replace (top - 2 * 4096) with (4096 * n) by lia.
    rewrite (bind_ok _ _ _ _ _ E2), (bind_ok _ _ _ _ _ E3). by destruct r as [[]|].
  - intros va Hva. rewrite Hs3 by lia. rewrite Hu2, decide_False by (rewrite Hpn; lia).
    rewrite Hu1 by (unfold MAXVA in *; lia). by rewrite decide_False by (rewrite Hpg; lia).
  - intros va Hva. unfold PGSIZE in Hva. rewrite Hs3 by lia. rewrite Hu2. by rewrite decide_True by (apply Hpn; lia).
  - destruct r as [[argc sp]|]; [|done]. destruct Hr as (H1 & H2 & -> & H4).
    split; [done|]. split; [done|]. split; [done|]. split; [done|]. split; [|done].
    unfold stack_sp. apply down_le. lia.
Qed.
End spec.

(** ** An instance: the process of UserMem.v with the arguments "a" and "bc" *)

#[local] Existing Instance wit_pages.
#[local] Existing Instance wit_laws.

Lemma exec_stack_args_witness : exists root s s',
  exec_stack [[97]; [98; 99]] root 5000 s = Ok (inr (16384, 2, 16320)) s' /\
  ubyte s' root 16368 = Some 97 /\ ubyte s' root 8192 = None.
Proof.
  destruct wit_space as (root & _ & s & o & _ & _ & Hus & Hs & _).
  assert (PGROUNDUP 5000 = 8192) as Eup by reflexivity.
  destruct (exec_stack_args [[97]; [98; 99]] root o 5000 s) as (r & s' & o' & E & _ & _ & Hg & Hr).
  - exact Hus.
  - rewrite Eup. unfold TRAPFRAME, TRAMPOLINE, MAXVA, PGSIZE. lia.
  - lia.
  - repeat constructor; unfold PGSIZE; simpl; lia.
  - rewrite Eup in *. change (8192 + 2 * PGSIZE) with 16384 in *.
    exists root, s, s'. destruct r as [sz'|[[sz' argc] sp]].
    + exfalso. apply (proj1 Hr). split; vm_compute; congruence.
    + destruct Hr as (_ & -> & -> & -> & _ & _ & Hi). split; [exact E|]. split.
      * destruct (Hi 0%nat [97] 16368 eq_refl eq_refl) as (_ & _ & Hh). apply (Hh 0%nat 97). reflexivity.
      * apply Hg. unfold PGSIZE. lia.
Defined.
