(* ===== verification/HashMap.v ===== *)
(** The kernel's hash map (kernel/lib/hashmap.c): open addressing with Robin Hood hashing.

    An item is a C value of a type [T] (the code copies [elsize] bytes); the hash and the
    comparison are the function pointers of the map.  The allocator that
    [hashmap_set_allocator] installs is an interface, [Hmalloc]: a request may fail, and a
    block it hands out is separate from every other one.  SipHash and MurmurHash, the hash
    functions of the library, are at the end of the definitions. *)

From S2P Require Import Prelude.

(** [hmmalloc] and [hmfree] *)
Class Hmalloc (A : Type) := {
  hmmalloc : Z -> A -> option Z * A;
  hmfree : Z -> A -> A;
}.

Record bucket (T : Type) := mkbucket { bhash : Z; dib : Z; item : T }.
Arguments mkbucket {T}. Arguments bhash {T}. Arguments dib {T}. Arguments item {T}.

(** [hm_at] is the address of the structure, [hm_bat] that of its array of buckets.  The
    spare bucket behind the structure is scratch space: a function that returns a pointer to
    it returns its contents here. *)
Record hashmap (T : Type) := mkmap {
  hm_oom : bool;
  hm_elsize : Z;
  hm_cap : Z;
  hm_seed0 : Z;
  hm_seed1 : Z;
  hm_hash : T -> Z -> Z -> Z;
  hm_compare : T -> T -> Z -> Z;
  hm_udata : Z;
  hm_bucketsz : Z;
  hm_nbuckets : Z;
  hm_count : Z;
  hm_mask : Z;
  hm_growat : Z;
  hm_shrinkat : Z;
  hm_buckets : list (bucket T);
  hm_bat : Z;
  hm_at : Z;
}.
Arguments mkmap {T}. Arguments hm_oom {T}. Arguments hm_elsize {T}. Arguments hm_cap {T}.
Arguments hm_seed0 {T}. Arguments hm_seed1 {T}. Arguments hm_hash {T}. Arguments hm_compare {T}.
Arguments hm_udata {T}. Arguments hm_bucketsz {T}. Arguments hm_nbuckets {T}.
Arguments hm_count {T}. Arguments hm_mask {T}. Arguments hm_growat {T}.
Arguments hm_shrinkat {T}. Arguments hm_buckets {T}. Arguments hm_bat {T}. Arguments hm_at {T}.

Section hashmap.
Context {T : Type} `{Inhabited T} {A : Type} `{Hmalloc A}.
Implicit Types (m : hashmap T) (e b : bucket T).

Definition set_oom (x : bool) m : hashmap T :=
  mkmap x (hm_elsize m) (hm_cap m) (hm_seed0 m) (hm_seed1 m) (hm_hash m) (hm_compare m)
    (hm_udata m) (hm_bucketsz m) (hm_nbuckets m) (hm_count m) (hm_mask m) (hm_growat m)
    (hm_shrinkat m) (hm_buckets m) (hm_bat m) (hm_at m).
Definition set_count (x : Z) m : hashmap T :=
  mkmap (hm_oom m) (hm_elsize m) (hm_cap m) (hm_seed0 m) (hm_seed1 m) (hm_hash m) (hm_compare m)
    (hm_udata m) (hm_bucketsz m) (hm_nbuckets m) x (hm_mask m) (hm_growat m)
    (hm_shrinkat m) (hm_buckets m) (hm_bat m) (hm_at m).
Definition set_buckets (x : list (bucket T)) m : hashmap T :=
  mkmap (hm_oom m) (hm_elsize m) (hm_cap m) (hm_seed0 m) (hm_seed1 m) (hm_hash m) (hm_compare m)
    (hm_udata m) (hm_bucketsz m) (hm_nbuckets m) (hm_count m) (hm_mask m) (hm_growat m)
    (hm_shrinkat m) x (hm_bat m) (hm_at m).
(** The fields that [resize] takes over from the new map. *)
Definition take_table m2 m : hashmap T :=
  mkmap (hm_oom m) (hm_elsize m) (hm_cap m) (hm_seed0 m) (hm_seed1 m) (hm_hash m) (hm_compare m)
    (hm_udata m) (hm_bucketsz m) (hm_nbuckets m2) (hm_count m) (hm_mask m2) (hm_growat m2)
    (hm_shrinkat m2) (hm_buckets m2) (hm_bat m2) (hm_at m).

(** A bucket of all zero bytes *)
Definition zero_bucket : bucket T := mkbucket 0 0 inhabitant.

Definition set_dib (d : Z) b : bucket T := mkbucket (bhash b) (u16 d) (item b).
Definition set_item (x : T) b : bucket T := mkbucket (bhash b) (dib b) x.

Definition bucket_at m (index : Z) : M A (bucket T) :=
  match hm_buckets m !! Z.to_nat index with Some b => ret b | None => undef end.
Definition put_bucket (index : Z) b m : hashmap T :=
  set_buckets (<[Z.to_nat index := b]> (hm_buckets m)) m.

Definition get_hash m (key : T) : Z :=
  Z.shiftr (u64 (Z.shiftl (hm_hash m key (hm_seed0 m) (hm_seed1 m)) 16)) 16.

(** [ncap] is an [int]: doubling it past [INT_MAX] has no meaning. *)
Fixpoint ncap_loop (fuel : nat) (ncap cap : Z) : M A Z :=
  match fuel with
  | O => nofuel
  | S fuel =>
      if ncap <? cap then
        if 2 ^ 30 <=? ncap then undef else ncap_loop fuel (ncap * 2) cap
      else ret ncap
  end.

Fixpoint pad_loop (fuel : nat) (bucketsz : Z) : M A Z :=
  match fuel with
  | O => nofuel
  | S fuel => if Z.land bucketsz 7 =? 0 then ret bucketsz else pad_loop fuel (u64 (bucketsz + 1))
  end.

Definition SIZEOF_BUCKET : Z := 8.
Definition SIZEOF_HASHMAP : Z := 128.

(** The argument of the allocator is an [int]. *)
Definition hm_alloc (size : Z) : M A (option Z) := fun s => let '(p, s') := hmmalloc (s32 size) s in Ok p s'.
Definition hm_free (p : Z) : M A unit := modify (hmfree p).

Definition hashmap_new (elsize cap seed0 seed1 : Z) (hash : T -> Z -> Z -> Z)
    (compare : T -> T -> Z -> Z) (udata : Z) : M A (option (hashmap T)) :=
  cap ← (if cap <? 16 then ret 16 else ncap_loop 32 16 cap);
  bucketsz ← pad_loop 8 (u64 (SIZEOF_BUCKET + elsize));
  mp ← hm_alloc (u64 (SIZEOF_HASHMAP + bucketsz));
  match mp with
  | None => ret None
  | Some map =>
      bp ← hm_alloc (u64 (bucketsz * cap));
      match bp with
      | None => hm_free map;; ret None
      | Some bat =>
          ret (Some (mkmap false elsize cap seed0 seed1 hash compare udata bucketsz cap 0
            (cap - 1) (cap / 2) (cap / 10) (replicate (Z.to_nat cap) zero_bucket) bat map))
      end
  end.

(** The inner loop of [resize]: the entry carried sits in a slot of the old table, which is
    freed afterwards. *)
Fixpoint rehash_loop (fuel : nat) (map2 : hashmap T) (j : Z) (entry : bucket T) : M A (hashmap T) :=
  match fuel with
  | O => nofuel
  | S fuel =>
      bucket ← bucket_at map2 j;
      if dib bucket =? 0 then ret (put_bucket j entry map2)
      else
        let '(map2, entry) :=
          if dib bucket <? dib entry then (put_bucket j entry map2, bucket) else (map2, entry) in
        rehash_loop fuel map2 (Z.land (u64 (j + 1)) (hm_mask map2)) (set_dib (dib entry + 1) entry)
  end.

(** The outer loop: the [n] buckets of [map] from [i] on. *)
Fixpoint resize_loop (n : nat) (i : Z) (map map2 : hashmap T) : M A (hashmap T) :=
  match n with
  | O => ret map2
  | S n =>
      entry ← bucket_at map i;
      map2 ← (if dib entry =? 0 then ret map2
              else rehash_loop (Z.to_nat (hm_nbuckets map2)) map2
                     (Z.land (bhash entry) (hm_mask map2)) (set_dib 1 entry));
      resize_loop n (i + 1) map map2
  end.

Definition resize m (new_cap : Z) : M A (bool * hashmap T) :=
  om ← hashmap_new (hm_elsize m) new_cap (hm_seed1 m) (hm_seed1 m) (hm_hash m) (hm_compare m)
         (hm_udata m);
  match om with
  | None => ret (false, m)
  | Some map2 =>
      map2 ← resize_loop (Z.to_nat (hm_nbuckets m)) 0 m map2;
      hm_free (hm_bat m);;
      hm_free (hm_at map2);;
      ret (true, take_table map2 m)
  end.

Fixpoint set_loop (fuel : nat) m (i : Z) (entry : bucket T) : M A (option T * hashmap T) :=
  match fuel with
  | O => nofuel
  | S fuel =>
      bucket ← bucket_at m i;
      if dib bucket =? 0 then
        ret (None, set_count (u64 (hm_count m + 1)) (put_bucket i entry m))
      else if (bhash entry =? bhash bucket)
           && (hm_compare m (item entry) (item bucket) (hm_udata m) =? 0) then
        ret (Some (item bucket), put_bucket i (set_item (item entry) bucket) m)
      else
        let '(m, entry) :=
          if dib bucket <? dib entry then (put_bucket i entry m, bucket) else (m, entry) in
        set_loop fuel m (Z.land (u64 (i + 1)) (hm_mask m)) (set_dib (dib entry + 1) entry)
  end.

(** The item replaced is what the returned pointer (to the spare) points to. *)
Definition hashmap_set m (pitem : option T) : M A (option T * hashmap T) :=
  match pitem with None => panic "item is null" | Some item =>
  let m := set_oom false m in
  '(ok, m) ← (if hm_count m =? hm_growat m then resize m (u64 (hm_nbuckets m * 2)) else ret (true, m));
  if ok : bool then
    let entry := mkbucket (get_hash m item) 1 item in
    set_loop (Z.to_nat (hm_nbuckets m)) m (Z.land (bhash entry) (hm_mask m)) entry
  else ret (None, set_oom true m)
  end.

Definition entry_matches m (hash : Z) (key : T) b : bool :=
  (bhash b =? hash) && (hm_compare m key (item b) (hm_udata m) =? 0).

(** The index at which the probe of [hashmap_get] and of [hashmap_delete] ends: with the
    bucket found, or none at an empty bucket. *)
Fixpoint probe_loop (fuel : nat) m (i : Z) (hash : Z) (key : T) : M A (option (Z * bucket T)) :=
  match fuel with
  | O => nofuel
  | S fuel =>
      bucket ← bucket_at m i;
      if dib bucket =? 0 then ret None
      else if entry_matches m hash key bucket then ret (Some (i, bucket))
      else probe_loop fuel m (Z.land (u64 (i + 1)) (hm_mask m)) hash key
  end.

(** A null pointer is [None]. *)
Definition hashmap_get m (pkey : option T) : M A (option T) :=
  match pkey with None => panic "key is null" | Some key =>
  let hash := get_hash m key in
  r ← probe_loop (Z.to_nat (hm_nbuckets m)) m (Z.land hash (hm_mask m)) hash key;
  ret (option_map (fun ib => item ib.2) r)
  end.

Definition hashmap_probe m (position : Z) : M A (option T) :=
  bucket ← bucket_at m (Z.land position (hm_mask m));
  ret (if dib bucket =? 0 then None else Some (item bucket)).

(** The inner loop of [hashmap_delete]: [i] is the index of [prev]. *)
Fixpoint shift_loop (fuel : nat) m (i : Z) : M A (hashmap T) :=
  match fuel with
  | O => nofuel
  | S fuel =>
      prev ← bucket_at m i;
      let i' := Z.land (u64 (i + 1)) (hm_mask m) in
      bucket ← bucket_at m i';
      if dib bucket <=? 1 then ret (put_bucket i (set_dib 0 prev) m)
      else shift_loop fuel (put_bucket i (set_dib (dib bucket - 1) bucket) m) i'
  end.

Definition hashmap_delete m (pkey : option T) : M A (option T * hashmap T) :=
  match pkey with None => panic "key is null" | Some key =>
  let m := set_oom false m in
  let hash := get_hash m key in
  r ← probe_loop (Z.to_nat (hm_nbuckets m)) m (Z.land hash (hm_mask m)) hash key;
  match r with
  | None => ret (None, m)
  | Some (i, bucket) =>
      let m := put_bucket i (set_dib 0 bucket) m in
      m ← shift_loop (Z.to_nat (hm_nbuckets m)) m i;
      let m := set_count (u64 (hm_count m - 1)) m in
      '(_, m) ← (if (hm_cap m <? hm_nbuckets m) && (hm_count m <=? hm_shrinkat m)
                 then resize m (hm_nbuckets m / 2) else ret (true, m));
      ret (Some (item bucket), m)
  end
  end.

Definition hashmap_count m : Z := hm_count m.
Definition hashmap_oom m : bool := hm_oom m.

Definition hashmap_free (om : option (hashmap T)) : M A unit :=
  match om with
  | None => ret tt
  | Some m => hm_free (hm_bat m);; hm_free (hm_at m)
  end.

(** The callback [iter] threads a state of its own. *)
Fixpoint scan_loop {B} (n : nat) (i : Z) m (iter : T -> B -> bool * B) (s : B) : M A (bool * B) :=
  match n with
  | O => ret (true, s)
  | S n =>
      bucket ← bucket_at m i;
      if dib bucket =? 0 then scan_loop n (i + 1) m iter s
      else
        let '(go, s) := iter (item bucket) s in
        if go : bool then scan_loop n (i + 1) m iter s else ret (false, s)
  end.

Definition hashmap_scan {B} m (iter : T -> B -> bool * B) (s : B) : M A (bool * B) :=
  scan_loop (Z.to_nat (hm_nbuckets m)) 0 m iter s.
End hashmap.

(** * SipHash-2-4 *)

Definition ROTL (x b : Z) : Z := u64 (Z.lor (u64 (Z.shiftl x b)) (Z.shiftr x (64 - b))).

Definition U8TO64_LE (p : bytes) : Z := le_dec (take 8 p).

Definition SIPROUND (v : Z * Z * Z * Z) : Z * Z * Z * Z :=
  let '(v0, v1, v2, v3) := v in
  let v0 := u64 (v0 + v1) in let v1 := ROTL v1 13 in
  let v1 := Z.lxor v1 v0 in let v0 := ROTL v0 32 in
  let v2 := u64 (v2 + v3) in let v3 := ROTL v3 16 in
  let v3 := Z.lxor v3 v2 in
  let v0 := u64 (v0 + v3) in let v3 := ROTL v3 21 in
  let v3 := Z.lxor v3 v0 in
  let v2 := u64 (v2 + v1) in let v1 := ROTL v1 17 in
  let v1 := Z.lxor v1 v2 in let v2 := ROTL v2 32 in
  (v0, v1, v2, v3).

(** One word of the message: [v3 ^= m; SIPROUND; SIPROUND; v0 ^= m] *)
Definition sip_word (m : Z) (v : Z * Z * Z * Z) : Z * Z * Z * Z :=
  let '(v0, v1, v2, v3) := v in
  let '(v0, v1, v2, v3) := SIPROUND (SIPROUND (v0, v1, v2, Z.lxor v3 m)) in
  (Z.lxor v0 m, v1, v2, v3).

(** The loop over the whole words: [n] words from [inp] on; the rest of the input is left. *)
Fixpoint sip_words (n : nat) (inp : bytes) (v : Z * Z * Z * Z) : bytes * (Z * Z * Z * Z) :=
  match n with
  | O => (inp, v)
  | S n => sip_words n (drop 8 inp) (sip_word (U8TO64_LE inp) v)
  end.

(** The last word: the length in its top byte, the bytes left over below (the cases of the
    [switch] fall through). *)
Definition sip_last (inlen : Z) (rest : bytes) : Z :=
  let left := Z.land inlen 7 in
  let byte k := if k <? left then Z.shiftl (rest !!! Z.to_nat k) (8 * k) else 0 in
  Z.lor (Z.lor (Z.lor (Z.lor (Z.lor (Z.lor (Z.lor (u64 (Z.shiftl inlen 56)) (byte 6)) (byte 5))
    (byte 4)) (byte 3)) (byte 2)) (byte 1)) (byte 0).

Definition SIP64 (inp : bytes) (inlen seed0 seed1 : Z) : Z :=
  let v3 := Z.lxor 0x7465646279746573 seed1 in
  let v2 := Z.lxor 0x6c7967656e657261 seed0 in
  let v1 := Z.lxor 0x646f72616e646f6d seed1 in
  let v0 := Z.lxor 0x736f6d6570736575 seed0 in
  let '(rest, v) := sip_words (Z.to_nat (inlen / 8)) inp (v0, v1, v2, v3) in
  let '(v0, v1, v2, v3) := sip_word (sip_last inlen rest) v in
  let '(v0, v1, v2, v3) := SIPROUND (SIPROUND (SIPROUND (SIPROUND (v0, v1, Z.lxor v2 0xff, v3)))) in
  Z.lxor (Z.lxor (Z.lxor v0 v1) v2) v3.

Definition hashmap_sip (data : bytes) (len seed0 seed1 : Z) : Z := SIP64 data len seed0 seed1.

(** The reference vectors of SipHash-2-4 for the empty message and for 15 bytes. *)
Example sip_vector_0 :
  hashmap_sip [] 0 0x0706050403020100 0x0f0e0d0c0b0a0908 = 0x726fdb47dd0e0e31.
Proof. vm_compute. reflexivity. Qed.
Example sip_vector_15 :
  hashmap_sip (Z.of_nat <$> seq 0 15) 15 0x0706050403020100 0x0f0e0d0c0b0a0908 = 0xa129ca6149be45e5.
Proof. vm_compute. reflexivity. Qed.

(** * MurmurHash3, the 128-bit variant for 32-bit machines *)

Definition ROTL32 (x r : Z) : Z := Z.lor (u32 (Z.shiftl x r)) (Z.shiftr x (32 - r)).

Definition FMIX32 (h : Z) : Z :=
  let h := Z.lxor h (Z.shiftr h 16) in let h := u32 (h * 0x85ebca6b) in
  let h := Z.lxor h (Z.shiftr h 13) in let h := u32 (h * 0xc2b2ae35) in
  Z.lxor h (Z.shiftr h 16).

Definition c1 : Z := 0x239b961b.
Definition c2 : Z := 0xab0e9789.
Definition c3 : Z := 0x38b34ae5.
Definition c4 : Z := 0xa1e38b93.

(** [k *= c; k = ROTL32(k,r); k *= c'] *)
Definition mm_mix (k c r c' : Z) : Z := u32 (ROTL32 (u32 (k * c)) r * c').

Definition mm_block (blk : bytes) (h : Z * Z * Z * Z) : Z * Z * Z * Z :=
  let '(h1, h2, h3, h4) := h in
  let h1 := Z.lxor h1 (mm_mix (get_le 4 0 blk) c1 15 c2) in
  let h1 := ROTL32 h1 19 in let h1 := u32 (h1 + h2) in let h1 := u32 (h1 * 5 + 0x561ccd1b) in
  let h2 := Z.lxor h2 (mm_mix (get_le 4 4 blk) c2 16 c3) in
  let h2 := ROTL32 h2 17 in let h2 := u32 (h2 + h3) in let h2 := u32 (h2 * 5 + 0x0bcaa747) in
  let h3 := Z.lxor h3 (mm_mix (get_le 4 8 blk) c3 17 c4) in
  let h3 := ROTL32 h3 15 in let h3 := u32 (h3 + h4) in let h3 := u32 (h3 * 5 + 0x96cd1c35) in
  let h4 := Z.lxor h4 (mm_mix (get_le 4 12 blk) c4 18 c1) in
  let h4 := ROTL32 h4 13 in let h4 := u32 (h4 + h1) in let h4 := u32 (h4 * 5 + 0x32ac3b17) in
  (h1, h2, h3, h4).

Fixpoint mm_blocks (n : nat) (data : bytes) (h : Z * Z * Z * Z) : Z * Z * Z * Z :=
  match n with
  | O => h
  | S n => mm_blocks n (drop 16 data) (mm_block (take 16 data) h)
  end.

(** The [switch] on the bytes left: a word of the tail is assembled from the bytes there are,
    and mixed in only when there is one ([h1] to [h4] are changed from the last word on). *)
Definition mm_tail (tail : bytes) (left : Z) (h : Z * Z * Z * Z) : Z * Z * Z * Z :=
  let '(h1, h2, h3, h4) := h in
  let k off := le_dec (sub_bytes off 4 tail) in
  let h4 := if 13 <=? left then Z.lxor h4 (mm_mix (k 12%nat) c4 18 c1) else h4 in
  let h3 := if 9 <=? left then Z.lxor h3 (mm_mix (k 8%nat) c3 17 c4) else h3 in
  let h2 := if 5 <=? left then Z.lxor h2 (mm_mix (k 4%nat) c2 16 c3) else h2 in
  let h1 := if 1 <=? left then Z.lxor h1 (mm_mix (k 0%nat) c1 15 c2) else h1 in
  (h1, h2, h3, h4).

(** [h1 += h2; h1 += h3; h1 += h4; h2 += h1; h3 += h1; h4 += h1] *)
Definition mm_sum (h : Z * Z * Z * Z) : Z * Z * Z * Z :=
  let '(h1, h2, h3, h4) := h in
  let h1 := u32 (u32 (u32 (h1 + h2) + h3) + h4) in
  (h1, u32 (h2 + h1), u32 (h3 + h1), u32 (h4 + h1)).

(** [key] is the [len] bytes of the data. *)
Definition MM86128 (key : bytes) (len seed : Z) : bytes :=
  let nblocks := Z.to_nat (len / 16) in
  let '(h1, h2, h3, h4) :=
    mm_tail (drop (nblocks * 16) key) (Z.land len 15) (mm_blocks nblocks key (seed, seed, seed, seed)) in
  let '(h1, h2, h3, h4) := mm_sum (Z.lxor h1 len, Z.lxor h2 len, Z.lxor h3 len, Z.lxor h4 len) in
  let '(h1, h2, h3, h4) := mm_sum (FMIX32 h1, FMIX32 h2, FMIX32 h3, FMIX32 h4) in
  le_enc 4 h1 ++ le_enc 4 h2 ++ le_enc 4 h3 ++ le_enc 4 h4.

(** The seed is converted to 32 bits; the result is the first 8 of the 16 bytes. *)
Definition hashmap_murmur (data : bytes) (len seed0 seed1 : Z) : Z :=
  le_dec (take 8 (MM86128 data len (u32 seed0))).

(** The published verification value of MurmurHash3_x86_128: the hash of the hashes of the
    keys 0, 01, 012, ... with the seeds 256, 255, ... *)
Example murmur_verification :
  take 4 (MM86128 (concat ((fun i => MM86128 (Z.of_nat <$> seq 0 i) (Z.of_nat i) (256 - Z.of_nat i))
    <$> seq 0 256)) 4096 0) = le_enc 4 0xB3ECE62A.
Proof. vm_compute. reflexivity. Qed.
