(* ===== verification/HashMapTable.v ===== *)
(** The tables of the hash map: the Robin Hood invariant and the loops of hashmap.c.

    The proof follows the probe with positions that do not wrap around: position [p] stands
    for the bucket of index [p mod n].  The invariant is the Robin Hood one, in the only form
    that the proofs need: a bucket is at most one further from its home than the bucket
    before it. *)

From S2P Require Import Prelude HashMap.

(** What the hash and the comparison of a map promise: both look only at the key of an item. *)
Class HashKey {T K : Type} (hash : T -> Z -> Z -> Z) (compare : T -> T -> Z -> Z) := {
  key : T -> K;
  key_compare a b u : compare a b u = 0 <-> key a = key b;
  key_hash a b s0 s1 : key a = key b -> hash a s0 s1 = hash b s0 s1;
}.

(** * Circular arrays *)

Section circular.
Context {T : Type} `{Inhabited T}.
Implicit Types (bs : list (bucket T)) (b e : bucket T).

#[local] Instance bucket_inhabited : Inhabited (bucket T) := populate zero_bucket.

Definition slot bs (p : nat) : bucket T := bs !!! (p mod length bs)%nat.

Lemma slot_lookup bs p : (0 < length bs)%nat -> bs !! (p mod length bs)%nat = Some (slot bs p).
Proof. intros. apply list_lookup_lookup_total_lt. apply Nat.mod_upper_bound. lia. Qed.

Lemma slot_lt bs p : (p < length bs)%nat -> slot bs p = bs !!! p.
Proof. intros. unfold slot. by rewrite Nat.mod_small. Qed.

Lemma slot_mod bs p q : (p mod length bs = q mod length bs)%nat -> slot bs p = slot bs q.
Proof. unfold slot. by intros ->. Qed.

Lemma slot_insert bs p q b :
  (0 < length bs)%nat ->
  slot (<[(p mod length bs)%nat := b]> bs) q =
  if decide (p mod length bs = q mod length bs)%nat then b else slot bs q.
Proof.
  intros. unfold slot. rewrite length_insert. case_decide as E.
  - rewrite <-E. apply list_lookup_total_insert_eq. apply Nat.mod_upper_bound. lia.
  - by apply list_lookup_total_insert_ne.
Qed.

(** A bucket is at most one further from its home than the one before it. *)
Definition robin bs : Prop := forall p, dib (slot bs (S p)) <= dib (slot bs p) + 1.

Lemma robin_back bs p k : robin bs -> dib (slot bs (p + k)) <= dib (slot bs p) + Z.of_nat k.
Proof.
  intros R. induction k as [|k IH]; [rewrite Nat.add_0_r; lia|].
  rewrite Nat.add_succ_r. specialize (R (p + k)%nat). lia.
Qed.

(** There is an empty bucket ahead of every position. *)
Lemma empty_ahead bs z p :
  (z < length bs)%nat -> dib (slot bs z) = 0 ->
  exists k, (k < length bs)%nat /\ dib (slot bs (p + k)) = 0.
Proof.
  intros Hz Hd. set (n := length bs) in *.
  exists ((z + n - p mod n) mod n)%nat. split; [apply Nat.mod_upper_bound; lia|].
  rewrite <-Hd. f_equal. apply slot_mod. fold n.
  rewrite Nat.Div0.add_mod_idemp_r. rewrite <-Nat.Div0.add_mod_idemp_l.
  pose proof (Nat.mod_upper_bound p n ltac:(lia)).
  replace (p mod n + (z + n - p mod n))%nat with (z + 1 * n)%nat by lia.
  apply Nat.Div0.mod_add.
Qed.

Lemma slot_period bs p : slot bs (p + length bs) = slot bs p.
Proof.
  apply slot_mod. rewrite <-(Nat.mul_1_l (length bs)) at 1. apply Nat.Div0.mod_add.
Qed.

(** So the distances are below the number of buckets. *)
Lemma robin_bound bs z p :
  robin bs -> (z < length bs)%nat -> dib (slot bs z) = 0 ->
  dib (slot bs p) < Z.of_nat (length bs).
Proof.
  intros R Hz Hd. destruct (empty_ahead bs z (S p) Hz Hd) as (k & Hk & Hke).
  pose proof (robin_back bs (S p + k) (length bs - 1 - k) R) as Hb.
  replace (S p + k + (length bs - 1 - k))%nat with (p + length bs)%nat in Hb by lia.
  rewrite slot_period in Hb. lia.
Qed.

Lemma mod_add_ne n p j : (0 < j < n)%nat -> ((p + j) mod n <> p mod n)%nat.
Proof.
  intros Hj E. pose proof (Nat.Div0.div_mod (p + j) n). pose proof (Nat.Div0.div_mod p n).
  rewrite E in *. assert (n * ((p + j) / n) = j + n * (p / n))%nat as E' by lia.
  apply (f_equal (fun x => x mod n)%nat) in E'.
  rewrite (Nat.mul_comm n ((p + j) / n)), (Nat.mul_comm n (p / n)), Nat.Div0.mod_mul, Nat.Div0.mod_add in E'.
  rewrite Nat.mod_small in E' by lia. lia.
Qed.

Lemma mod_succ_ne n p : (2 <= n)%nat -> (S p mod n <> p mod n)%nat.
Proof. intros. rewrite <-Nat.add_1_r. apply mod_add_ne. lia. Qed.

Lemma mod_succ_cong n p q : (p mod n = q mod n -> S p mod n = S q mod n)%nat.
Proof.
  intros E. rewrite <-(Nat.add_1_r p), <-(Nat.add_1_r q).
  by rewrite <-Nat.Div0.add_mod_idemp_l, E, Nat.Div0.add_mod_idemp_l.
Qed.

Lemma mod_succ_inj n p q : (0 < n -> S p mod n = S q mod n -> p mod n = q mod n)%nat.
Proof.
  intros Hn E.
  assert (forall x, (S x + (n - 1)) mod n = x mod n)%nat as Hx.
  { intros x. replace (S x + (n - 1))%nat with (x + 1 * n)%nat by lia. apply Nat.Div0.mod_add. }
  rewrite <-(Hx p), <-(Hx q). by rewrite <-Nat.Div0.add_mod_idemp_l, E, Nat.Div0.add_mod_idemp_l.
Qed.

(** The sizes of the tables: powers of two, with every distance within 16 bits. *)
Definition pow2_size (n : nat) : Prop := exists k, n = (2 ^ k)%nat /\ (4 <= k <= 15)%nat.

Lemma pow2_len n : pow2_size n -> (16 <= n)%nat /\ Z.of_nat n <= 32768.
Proof.
  intros (k & -> & Hk). split.
  - change 16%nat with (2 ^ 4)%nat. apply Nat.pow_le_mono_r; lia.
  - rewrite Nat2Z.inj_pow. change 32768 with (2 ^ 15). apply Z.pow_le_mono_r; lia.
Qed.

Lemma land_pow2 n h :
  pow2_size n -> 0 <= h -> Z.land h (Z.of_nat n - 1) = Z.of_nat (Z.to_nat h mod n).
Proof.
  intros (k & E & Hk) Hh. rewrite E, Nat2Z.inj_mod, Nat2Z.inj_pow.
  rewrite Z2Nat.id by done. change (Z.of_nat 2) with 2.
  replace (2 ^ Z.of_nat k - 1) with (Z.ones (Z.of_nat k)) by (rewrite Z.ones_equiv; lia).
  apply Z.land_ones. lia.
Qed.

Lemma next_index n p :
  pow2_size n -> Z.land (u64 (Z.of_nat (p mod n) + 1)) (Z.of_nat n - 1) = Z.of_nat (S p mod n).
Proof.
  intros Hn. pose proof (pow2_len n Hn). pose proof (Nat.mod_upper_bound p n ltac:(lia)).
  rewrite u64_small by lia. rewrite land_pow2 by (done || lia). f_equal.
  rewrite <-(Nat.add_1_r p), <-(Nat.Div0.add_mod_idemp_l p). f_equal. lia.
Qed.

(** Storing a bucket keeps the invariant when it fits between its neighbours. *)
Lemma robin_insert bs p b :
  (2 <= length bs)%nat -> robin bs ->
  dib b <= dib (slot bs p) + 1 -> dib (slot bs (S (S p))) <= dib b + 1 ->
  robin (<[(S p mod length bs)%nat := b]> bs).
Proof.
  intros Hn R H1 H2 q. rewrite !slot_insert by lia.
  destruct (decide (S p mod length bs = S q mod length bs)%nat) as [E|E];
    destruct (decide (S p mod length bs = q mod length bs)%nat) as [E'|E'].
  - exfalso. apply (mod_succ_ne (length bs) q Hn). congruence.
  - apply mod_succ_inj in E; [|lia]. by rewrite <-(slot_mod bs p q E).
  - apply mod_succ_cong in E'. by rewrite <-(slot_mod bs _ _ E').
  - apply R.
Qed.

(** * The items of a table *)

Definition items bs : list T := item <$> filter (fun b => dib b <> 0) bs.

Definition load b : list T := if decide (dib b <> 0) then [item b] else [].

Lemma items_app bs bs' : items (bs ++ bs') = items bs ++ items bs'.
Proof. unfold items. by rewrite filter_app, fmap_app. Qed.

Lemma items_cons b bs : items (b :: bs) = load b ++ items bs.
Proof. unfold items, load. rewrite filter_cons. by case_decide. Qed.

(** The items before and after a bucket is replaced differ in its item only. *)
Lemma items_insert bs i b b' :
  bs !! i = Some b ->
  exists l, items bs ≡ₚ load b ++ l /\ items (<[i := b']> bs) ≡ₚ load b' ++ l.
Proof.
  intros Hi. exists (items (take i bs) ++ items (drop (S i) bs)).
  apply lookup_lt_Some in Hi as Hlt. split.
  - rewrite <-(take_drop_middle bs i b Hi) at 1. rewrite items_app, items_cons.
    rewrite !app_assoc. by rewrite (Permutation_app_comm (load b)).
  - rewrite insert_take_drop by done. rewrite items_app, items_cons.
    rewrite !app_assoc. by rewrite (Permutation_app_comm (load b')).
Qed.

Lemma items_slot bs x :
  x ∈ items bs <-> exists p, (p < length bs)%nat /\ dib (slot bs p) <> 0 /\ item (slot bs p) = x.
Proof.
  unfold items. rewrite list_elem_of_fmap. split.
  - intros (b & -> & Hb). apply list_elem_of_filter in Hb as [Hd Hb].
    apply list_elem_of_lookup in Hb as (p & Hp). apply lookup_lt_Some in Hp as Hlt.
    exists p. rewrite slot_lt by done. by rewrite (list_lookup_total_correct _ _ _ Hp).
  - intros (p & Hp & Hd & <-). exists (slot bs p). split; [done|].
    apply list_elem_of_filter. split; [done|]. rewrite slot_lt by done.
    by apply list_elem_of_lookup_total_2.
Qed.

Lemma items_full bs : (length (items bs) <= length bs)%nat.
Proof. unfold items. rewrite length_fmap. apply length_filter. Qed.

Lemma items_room bs :
  (length (items bs) < length bs)%nat -> exists z, (z < length bs)%nat /\ dib (slot bs z) = 0.
Proof.
  intros Hl. destruct (decide (Exists (fun b => dib b = 0) bs)) as [He|He].
  - apply Exists_exists in He as (b & Hb & Hd). apply list_elem_of_lookup in Hb as (z & Hz).
    apply lookup_lt_Some in Hz as Hlt. exists z. rewrite slot_lt by done.
    by rewrite (list_lookup_total_correct _ _ _ Hz).
  - apply not_Exists_Forall in He; [|intros; apply _]. exfalso.
    assert (length (items bs) = length bs); [|lia]. unfold items. rewrite length_fmap.
    clear Hl. induction He as [|b bs Hb _ IH]; [done|].
    rewrite filter_cons_True by done. simpl. by rewrite IH.
Qed.
End circular.

(** * Tables *)

Section table.
Context {T K : Type} `{Inhabited T} `{Countable K} (hash : T -> Z -> Z -> Z)
  (compare : T -> T -> Z -> Z) `{HK : !HashKey (K:=K) hash compare} (s0 s1 : Z).
Implicit Types (bs : list (bucket T)) (b e : bucket T).

(** [get_hash] *)
Definition hash48 (x : T) : Z := Z.shiftr (u64 (Z.shiftl (hash x s0 s1) 16)) 16.

Lemma hash48_range x : 0 <= hash48 x < 2 ^ 48.
Proof.
  unfold hash48. pose proof (u64_range (Z.shiftl (hash x s0 s1) 16)).
  rewrite Z.shiftr_div_pow2 by lia. split; [apply Z.div_pos; lia|].
  apply Z.div_lt_upper_bound; lia.
Qed.

Lemma hash48_key x y : key x = key y -> hash48 x = hash48 y.
Proof. intros E. unfold hash48. by rewrite (key_hash x y s0 s1 E). Qed.

(** The bucket [b] is where its hash and its distance say, [dib] being counted from 1. *)
Definition placed (n : nat) b (p : nat) : Prop :=
  ((Z.to_nat (bhash b) + Z.to_nat (dib b)) mod n = S p mod n)%nat.

Record rh_table bs : Prop := {
  t_size : pow2_size (length bs);
  t_robin : robin bs;
  t_dib p : 0 <= dib (slot bs p);
  t_place p : dib (slot bs p) <> 0 -> placed (length bs) (slot bs p) p;
  t_hash p : dib (slot bs p) <> 0 -> bhash (slot bs p) = hash48 (item (slot bs p));
  t_keys : NoDup (key <$> items bs);
}.

Lemma t_len bs : rh_table bs -> (16 <= length bs)%nat /\ Z.of_nat (length bs) <= 32768.
Proof. intros Ht. apply pow2_len, (t_size bs Ht). Qed.

(** Two buckets with the same hash: the difference of their distances is that of their places. *)
Lemma placed_same n b e p r :
  (0 < n)%nat -> placed n e p -> placed n b r -> bhash b = bhash e -> 0 <= dib e <= dib b ->
  (r mod n = (p + Z.to_nat (dib b - dib e)) mod n)%nat.
Proof.
  unfold placed. intros Hn He Hb Eh Hd. apply mod_succ_inj; [done|]. rewrite <-Hb, Eh.
  replace (Z.to_nat (dib b)) with (Z.to_nat (dib e) + Z.to_nat (dib b - dib e))%nat by lia.
  rewrite Nat.add_assoc, <-Nat.Div0.add_mod_idemp_l, He, Nat.Div0.add_mod_idemp_l. done.
Qed.

Lemma placed_next n b p d :
  dib b = d -> 0 <= d < 65535 -> placed n b p -> placed n (set_dib (d + 1) b) (S p).
Proof.
  unfold placed. intros <- Hd Hp. simpl. rewrite u16_small by lia.
  replace (Z.to_nat (dib b + 1)) with (Z.to_nat (dib b) + 1)%nat by lia.
  rewrite Nat.add_assoc, <-Nat.Div0.add_mod_idemp_l, Hp, Nat.Div0.add_mod_idemp_l.
  f_equal. lia.
Qed.

(** Two buckets with items of the same key are the same bucket. *)
Lemma table_inj bs p r :
  rh_table bs -> dib (slot bs p) <> 0 -> dib (slot bs r) <> 0 ->
  key (item (slot bs p)) = key (item (slot bs r)) -> (p mod length bs = r mod length bs)%nat.
Proof.
  intros Ht Hp Hr E. pose proof (t_len bs Ht).
  assert (bhash (slot bs p) = bhash (slot bs r)) as Eh.
  { rewrite !(t_hash bs Ht) by done. by apply hash48_key. }
  pose proof (slot_lookup bs p ltac:(lia)) as Lp. pose proof (slot_lookup bs r ltac:(lia)) as Lr.
  destruct (decide (p mod length bs = r mod length bs)%nat) as [|Hne]; [done|].
  exfalso. destruct (items_insert bs _ _ zero_bucket Lp) as (l & El & El').
  pose proof (t_keys bs Ht) as Hnd. rewrite El in Hnd.
  unfold load in Hnd. rewrite decide_True in Hnd by done. simpl in Hnd.
  apply NoDup_cons in Hnd as [Hnin _]. apply Hnin. rewrite E.
  apply list_elem_of_fmap. exists (item (slot bs r)). split; [done|].
  assert (item (slot bs r) ∈ items (<[(p mod length bs)%nat := zero_bucket]> bs)) as Hin.
  { apply items_slot. exists (r mod length bs)%nat. rewrite length_insert.
    pose proof (Nat.mod_upper_bound r (length bs) ltac:(lia)). split; [done|].
    rewrite !slot_insert by lia. rewrite Nat.Div0.mod_mod, decide_False by done.
    rewrite (slot_mod bs (r mod length bs) r) by apply Nat.Div0.mod_mod. done. }
  by rewrite El' in Hin.
Qed.

(** The invariant of the insertion loops: the entry [e] is carried to position [S q]. *)
Record carry bs (q : nat) e : Prop := {
  c_table : rh_table bs;
  c_dib : 1 <= dib e;
  c_place : placed (length bs) e (S q);
  c_robin : dib e <= dib (slot bs q) + 1;
  c_hash : bhash e = hash48 (item e);
  c_ahead r : dib (slot bs r) <> 0 -> key (item (slot bs r)) = key (item e) ->
    dib e <= dib (slot bs r);
}.

(** A bucket with the key of the entry carried is ahead: the buckets up to it are at least as
    far from their homes. *)
Lemma carry_before bs q e r :
  carry bs q e -> dib (slot bs r) <> 0 -> key (item (slot bs r)) = key (item e) ->
  dib e <= dib (slot bs (S q)).
Proof.
  intros Hc Hr Ek. pose proof (c_ahead _ _ _ Hc r Hr Ek) as Hd.
  pose proof (c_table _ _ _ Hc) as Ht. pose proof (t_len bs Ht).
  pose proof (c_dib _ _ _ Hc).
  assert (bhash (slot bs r) = bhash e) as Eh.
  { rewrite (t_hash bs Ht), (c_hash _ _ _ Hc) by done. by apply hash48_key. }
  assert (0 < length bs)%nat as Hn by lia. assert (0 <= dib e <= dib (slot bs r)) as Hed by lia.
  pose proof (placed_same _ _ _ _ _ Hn (c_place _ _ _ Hc) (t_place bs Ht r Hr) Eh Hed) as E.
  pose proof (robin_back bs (S q) (Z.to_nat (dib (slot bs r) - dib e)) (t_robin bs Ht)) as Hb.
  rewrite <-(slot_mod bs _ _ E) in Hb. lia.
Qed.

Lemma fresh_key bs (k : K) :
  (forall r, dib (slot bs r) <> 0 -> key (item (slot bs r)) <> k) -> k ∉ (key <$> items bs).
Proof.
  intros Hr Hin. apply list_elem_of_fmap in Hin as (x & -> & Hx).
  apply items_slot in Hx as (p & _ & Hd & <-). by apply (Hr p Hd).
Qed.

Lemma carry_fresh bs q e :
  carry bs q e -> dib (slot bs (S q)) < dib e -> key (item e) ∉ (key <$> items bs).
Proof.
  intros Hc Hlt. apply fresh_key. intros r Hr E. pose proof (carry_before bs q e r Hc Hr E). lia.
Qed.

(** Storing a bucket of the right hash and place that fits between its neighbours. *)
Lemma table_insert bs q b :
  rh_table bs -> 0 <= dib b -> dib b <= dib (slot bs q) + 1 -> dib (slot bs (S (S q))) <= dib b + 1 ->
  (dib b <> 0 -> placed (length bs) b (S q) /\ bhash b = hash48 (item b)) ->
  NoDup (key <$> items (<[(S q mod length bs)%nat := b]> bs)) ->
  rh_table (<[(S q mod length bs)%nat := b]> bs).
Proof.
  intros Ht Hd H1 H2 Hb Hnd. pose proof (t_len bs Ht) as [Hl _]. split; rewrite ?length_insert.
  - apply (t_size bs Ht).
  - apply robin_insert; [lia|apply (t_robin bs Ht)|done|done].
  - intros p. rewrite slot_insert by lia. case_decide; [done|]. apply (t_dib bs Ht).
  - intros p. rewrite slot_insert by lia. case_decide as E; [|apply (t_place bs Ht)].
    intros Hne. destruct (Hb Hne) as [Hp _]. unfold placed in *. rewrite Hp. by apply mod_succ_cong.
  - intros p. rewrite slot_insert by lia. case_decide as E; [|apply (t_hash bs Ht)].
    intros Hne. by apply Hb.
  - done.
Qed.

(** The items when the bucket at position [p] is replaced. *)
Lemma items_put bs p b :
  (0 < length bs)%nat ->
  exists l, items bs ≡ₚ load (slot bs p) ++ l /\ items (<[(p mod length bs)%nat := b]> bs) ≡ₚ load b ++ l.
Proof. intros. by apply items_insert, slot_lookup. Qed.

Lemma load_item b : dib b <> 0 -> load b = [item b].
Proof. intros. unfold load. by rewrite decide_True. Qed.
Lemma load_none b : dib b = 0 -> load b = [].
Proof. intros. unfold load. by rewrite decide_False by lia. Qed.

Lemma carry_next_robin bs q e :
  carry bs q e -> dib (slot bs (S (S q))) <= dib (slot bs (S q)) + 1.
Proof. intros Hc. apply (t_robin bs (c_table _ _ _ Hc)). Qed.

Lemma keys_perm l l' : l ≡ₚ l' -> NoDup (key <$> l) -> NoDup (key (K:=K) <$> l').
Proof. by intros ->. Qed.

(** An empty bucket: the entry is stored. *)
Lemma carry_place bs q e :
  carry bs q e -> dib (slot bs (S q)) = 0 ->
  (key (item e) ∉ (key <$> items bs)) /\ rh_table (<[(S q mod length bs)%nat := e]> bs) /\
  items (<[(S q mod length bs)%nat := e]> bs) ≡ₚ item e :: items bs.
Proof.
  intros Hc Hd. pose proof (c_table _ _ _ Hc) as Ht. pose proof (t_len bs Ht) as [Hl _].
  pose proof (c_dib _ _ _ Hc). pose proof (carry_next_robin bs q e Hc).
  assert (key (item e) ∉ (key <$> items bs)) as Hf by (apply (carry_fresh bs q e Hc); lia).
  destruct (items_put bs (S q) e ltac:(lia)) as (l & El & El').
  rewrite load_none in El by done. rewrite load_item in El' by lia. simpl in El, El'.
  assert (items (<[(S q mod length bs)%nat := e]> bs) ≡ₚ item e :: items bs) as Ei by (by rewrite El', El).
  split; [done|]. split; [|done]. apply table_insert; try done; try lia.
  - apply (c_robin _ _ _ Hc).
  - intros _. split; [apply (c_place _ _ _ Hc)|apply (c_hash _ _ _ Hc)].
  - apply (keys_perm _ _ (symmetry Ei)). simpl. apply NoDup_cons. split; [done|apply (t_keys bs Ht)].
Qed.

(** The key is found: the item is replaced. *)
Lemma carry_found bs q e :
  carry bs q e -> dib (slot bs (S q)) <> 0 -> key (item (slot bs (S q))) = key (item e) ->
  rh_table (<[(S q mod length bs)%nat := set_item (item e) (slot bs (S q))]> bs) /\
  exists l, items bs ≡ₚ item (slot bs (S q)) :: l /\
    items (<[(S q mod length bs)%nat := set_item (item e) (slot bs (S q))]> bs) ≡ₚ item e :: l.
Proof.
  intros Hc Hd Ek. pose proof (c_table _ _ _ Hc) as Ht. pose proof (t_len bs Ht) as [Hl _].
  set (b := set_item (item e) (slot bs (S q))).
  destruct (items_put bs (S q) b ltac:(lia)) as (l & El & El').
  rewrite load_item in El by done. rewrite load_item in El' by done. simpl in El, El'.
  split; [|by exists l]. apply table_insert; try done.
  - apply (t_dib bs Ht).
  - apply (t_robin bs Ht).
  - apply (t_robin bs Ht).
  - intros _. split; [apply (t_place bs Ht (S q) Hd)|]. simpl. rewrite (t_hash bs Ht) by done.
    by apply hash48_key.
  - apply (keys_perm _ _ (symmetry El')). pose proof (keys_perm _ _ El (t_keys bs Ht)) as Hnd.
    simpl in *. by rewrite <-Ek.
Qed.

(** A bucket nearer its home than the entry: they change places. *)
Lemma carry_swap bs q e z :
  carry bs q e -> (z < length bs)%nat -> dib (slot bs z) = 0 ->
  dib (slot bs (S q)) <> 0 -> dib (slot bs (S q)) < dib e ->
  let b := slot bs (S q) in let bs' := <[(S q mod length bs)%nat := e]> bs in
  carry bs' (S q) (set_dib (dib b + 1) b) /\ (key (item e) ∉ (key <$> items bs)) /\
  (key (item b) ∉ (key <$> items bs')) /\ (item b :: items bs') ≡ₚ item e :: items bs.
Proof.
  intros Hc Hz Hze Hd Hlt b bs'. pose proof (c_table _ _ _ Hc) as Ht. pose proof (t_len bs Ht) as [Hl Hl'].
  pose proof (c_dib _ _ _ Hc). pose proof (carry_next_robin bs q e Hc).
  assert (key (item e) ∉ (key <$> items bs)) as Hf by (apply (carry_fresh bs q e Hc); lia).
  destruct (items_put bs (S q) e ltac:(lia)) as (l & El & El').
  rewrite load_item in El by done. rewrite load_item in El' by lia. simpl in El, El'. fold b in El. fold bs' in El'.
  pose proof (keys_perm _ _ El (t_keys bs Ht)) as Hnd. simpl in Hnd. apply NoDup_cons in Hnd as [Hb Hnd].
  assert ((key (item e) ∉ (key <$> l)) /\ key (item b) <> key (item e)) as [Hel Hbe].
  { rewrite El in Hf. simpl in Hf. apply not_elem_of_cons in Hf as [? ?]. by split. }
  assert (key (item b) ∉ key <$> items bs') as Hbf.
  { rewrite El'. simpl. by apply not_elem_of_cons. }
  assert (rh_table bs') as Ht'.
  { apply table_insert; try done; try lia.
    - apply (c_robin _ _ _ Hc).
    - intros _. split; [apply (c_place _ _ _ Hc)|apply (c_hash _ _ _ Hc)].
    - apply (keys_perm _ _ (symmetry El')). simpl. by apply NoDup_cons. }
  pose proof (robin_bound bs z (S q) (t_robin bs Ht) Hz Hze). pose proof (t_dib bs Ht (S q)).
  split; [|split; [done|split; [done|]]].
  - split; [done| | | | |].
    + simpl. rewrite u16_small by (unfold b; lia). unfold b; lia.
    + unfold bs'. rewrite length_insert. apply placed_next; [done|unfold b; lia|apply (t_place bs Ht (S q) Hd)].
    + simpl. rewrite u16_small by (unfold b; lia). unfold bs'. rewrite slot_insert by lia.
      rewrite decide_True by done. unfold b; lia.
    + simpl. apply (t_hash bs Ht (S q) Hd).
    + intros r Hr Ek. exfalso. apply Hbf. simpl in Ek. rewrite <-Ek. apply list_elem_of_fmap_2.
      apply items_slot. exists (r mod length bs')%nat. split; [apply Nat.mod_upper_bound; unfold bs'; rewrite length_insert; lia|].
      rewrite (slot_mod bs' (r mod length bs') r) by apply Nat.Div0.mod_mod. done.
  - rewrite El', El. apply Permutation_swap.
Qed.

(** Any other bucket: the entry moves on. *)
Lemma carry_next bs q e z :
  carry bs q e -> (z < length bs)%nat -> dib (slot bs z) = 0 ->
  dib e <= dib (slot bs (S q)) -> key (item (slot bs (S q))) <> key (item e) ->
  carry bs (S q) (set_dib (dib e + 1) e).
Proof.
  intros Hc Hz Hze Hle Hne. pose proof (c_table _ _ _ Hc) as Ht. pose proof (t_len bs Ht) as [Hl Hl'].
  pose proof (c_dib _ _ _ Hc). pose proof (robin_bound bs z (S q) (t_robin bs Ht) Hz Hze).
  assert (dib (set_dib (dib e + 1) e) = dib e + 1) as Ed by (simpl; rewrite u16_small; lia).
  split; rewrite ?Ed; try done; try lia.
  - apply placed_next; [done|lia|apply (c_place _ _ _ Hc)].
  - apply (c_hash _ _ _ Hc).
  - intros r Hr Ek. simpl in Ek. pose proof (c_ahead _ _ _ Hc r Hr Ek).
    destruct (decide (dib (slot bs r) = dib e)) as [E|]; [|lia]. exfalso. apply Hne. rewrite <-Ek.
    assert (bhash (slot bs r) = bhash e) as Eh.
    { rewrite (t_hash bs Ht), (c_hash _ _ _ Hc) by done. by apply hash48_key. }
    assert (0 < length bs)%nat as Hn by lia. assert (0 <= dib e <= dib (slot bs r)) as Hed by lia.
    pose proof (placed_same _ _ _ _ _ Hn (c_place _ _ _ Hc) (t_place bs Ht r Hr) Eh Hed) as Em.
    rewrite E, Z.sub_diag, Nat.add_0_r in Em. by rewrite (slot_mod bs _ _ Em).
Qed.

(** * The loops *)

Context {A : Type} `{Hmalloc A}.
Implicit Types (m : hashmap T) (st : A).



Lemma bucket_at_ok m p st :
  (0 < length (hm_buckets m))%nat ->
  bucket_at m (Z.of_nat (p mod length (hm_buckets m))) st = Ok (slot (hm_buckets m) p) st.
Proof. intros. unfold bucket_at. rewrite Nat2Z.id. by rewrite slot_lookup. Qed.

Lemma match_key b e u :
  bhash b = hash48 (item b) -> bhash e = hash48 (item e) ->
  ((bhash e =? bhash b) && (compare (item e) (item b) u =? 0)) = true <-> key (item b) = key (item e).
Proof.
  intros Hb He. rewrite andb_true_iff, !Z.eqb_eq, key_compare, Hb, He. split; [by intros [_ ->]|].
  intros E. split; [|done]. symmetry. by apply hash48_key.
Qed.

(** The empty bucket ahead stays ahead when an entry is stored in an occupied one. *)
Lemma ahead_insert bs q k e :
  (0 < length bs)%nat -> dib (slot bs (S q)) <> 0 -> dib (slot bs (S q + S k)) = 0 ->
  dib (slot (<[(S q mod length bs)%nat := e]> bs) (S (S q) + k)) = 0.
Proof.
  intros Hn Hd He. rewrite slot_insert by done. rewrite Nat.add_succ_r in He. case_decide as E; [|done].
  exfalso. apply Hd. by rewrite (slot_mod bs _ _ E).
Qed.

Lemma slot_wrap bs p : (0 < length bs)%nat ->
  (p mod length bs < length bs)%nat /\ slot bs (p mod length bs) = slot bs p.
Proof.
  intros. split; [apply Nat.mod_upper_bound; lia|]. apply slot_mod, Nat.Div0.mod_mod.
Qed.

Lemma mod_idx bs q : Z.to_nat (Z.of_nat (S q mod length bs)) = (S q mod length bs)%nat.
Proof. apply Nat2Z.id. Qed.

(** The loop of [resize] stores an entry whose key is not in the table. *)
Lemma rehash_loop_ok fuel m q e k st :
  hm_mask m = Z.of_nat (length (hm_buckets m)) - 1 -> carry (hm_buckets m) q e ->
  dib (slot (hm_buckets m) (S q + k)) = 0 -> (k < fuel)%nat ->
  (key (item e) ∉ (key <$> items (hm_buckets m))) ->
  exists bs', rh_table bs' /\ length bs' = length (hm_buckets m) /\
    items bs' ≡ₚ item e :: items (hm_buckets m) /\
    rehash_loop fuel m (Z.of_nat (S q mod length (hm_buckets m))) e st = Ok (set_buckets bs' m) st.
Proof.
  revert m q e k. induction fuel as [|fuel IH]; intros m q e k Em Hc He Hk Hf; [lia|].
  set (bs := hm_buckets m) in *. pose proof (c_table _ _ _ Hc) as Ht. pose proof (t_len bs Ht) as [Hl _].
  cbn [rehash_loop]. rewrite (bind_ok _ _ _ _ _ (bucket_at_ok m (S q) st ltac:(fold bs; lia))). fold bs.
  destruct (Z.eqb_spec (dib (slot bs (S q))) 0) as [Hd|Hd].
  { destruct (carry_place _ _ _ Hc Hd) as (_ & Ht' & Ei).
    exists (<[(S q mod length bs)%nat := e]> bs). split; [done|]. rewrite length_insert.
    split; [done|]. split; [done|]. unfold put_bucket. by rewrite mod_idx. }
  destruct k as [|k]; [by rewrite Nat.add_0_r in He|].
  destruct (slot_wrap bs (S q + S k) ltac:(lia)) as [Hz Ez]. rewrite <-Ez in He.
  destruct (Z.ltb_spec (dib (slot bs (S q))) (dib e)) as [Hlt|Hle].
  - destruct (carry_swap _ _ _ _ Hc Hz He Hd Hlt) as (Hc' & _ & Hf' & Ei).
    set (bs1 := <[(S q mod length bs)%nat := e]> bs) in *.
    assert (length bs1 = length bs) as El by apply length_insert.
    destruct (IH (set_buckets bs1 m) (S q) (set_dib (dib (slot bs (S q)) + 1) (slot bs (S q))) k)
      as (bs' & Ht' & El' & Ei' & E); cbn [set_buckets hm_buckets hm_mask]; try done; try lia.
    { rewrite Ez in He. apply ahead_insert; [lia|done|done]. }
    exists bs'. cbn [set_buckets hm_buckets hm_count] in *. rewrite El in *. split; [done|]. split; [done|]. split; [by rewrite Ei'|].
    unfold put_bucket. rewrite mod_idx. fold bs. fold bs1. cbn [set_buckets hm_mask].
    rewrite Em, next_index by apply Ht. exact E.
  - assert (key (item (slot bs (S q))) <> key (item e)) as Hne.
    { intros Ek. apply Hf. rewrite <-Ek. apply list_elem_of_fmap_2, items_slot.
      exists (S q mod length bs)%nat. destruct (slot_wrap bs (S q) ltac:(lia)) as [? ->]. done. }
    pose proof (carry_next _ _ _ _ Hc Hz He Hle Hne) as Hc'.
    destruct (IH m (S q) (set_dib (dib e + 1) e) k) as (bs' & Ht' & El' & Ei' & E); try done; try lia.
    { rewrite Ez in He. by rewrite Nat.add_succ_r in He. }
    exists bs'. split; [done|]. split; [done|]. split; [done|].
    rewrite Em. fold bs. rewrite next_index by apply Ht. exact E.
Qed.

(** The loop of [hashmap_set] stores the entry, or replaces the item of its key. *)
Lemma set_loop_ok fuel m q e k st :
  hm_mask m = Z.of_nat (length (hm_buckets m)) - 1 -> hm_compare m = compare ->
  carry (hm_buckets m) q e -> dib (slot (hm_buckets m) (S q + k)) = 0 -> (k < fuel)%nat ->
  exists bs', rh_table bs' /\ length bs' = length (hm_buckets m) /\
    ((key (item e) ∉ (key <$> items (hm_buckets m))) /\
     items bs' ≡ₚ item e :: items (hm_buckets m) /\
     set_loop fuel m (Z.of_nat (S q mod length (hm_buckets m))) e st
     = Ok (None, set_count (u64 (hm_count m + 1)) (set_buckets bs' m)) st \/
     exists x l, key x = key (item e) /\ items (hm_buckets m) ≡ₚ x :: l /\ items bs' ≡ₚ item e :: l /\
     set_loop fuel m (Z.of_nat (S q mod length (hm_buckets m))) e st
     = Ok (Some x, set_buckets bs' m) st).
Proof.
  revert m q e k. induction fuel as [|fuel IH]; intros m q e k Em Ecm Hc He Hk; [lia|].
  set (bs := hm_buckets m) in *. pose proof (c_table _ _ _ Hc) as Ht. pose proof (t_len bs Ht) as [Hl _].
  cbn [set_loop]. rewrite (bind_ok _ _ _ _ _ (bucket_at_ok m (S q) st ltac:(fold bs; lia))). fold bs.
  destruct (Z.eqb_spec (dib (slot bs (S q))) 0) as [Hd|Hd].
  { destruct (carry_place _ _ _ Hc Hd) as (Hf & Ht' & Ei).
    exists (<[(S q mod length bs)%nat := e]> bs). split; [done|]. rewrite length_insert.
    split; [done|]. left. split; [done|]. split; [done|]. unfold put_bucket. by rewrite mod_idx. }
  rewrite Ecm. destruct (match_key (slot bs (S q)) e (hm_udata m) (t_hash bs Ht _ Hd) (c_hash _ _ _ Hc)) as [Hm1 Hm2].
  destruct (_ && _) eqn:Em'.
  { destruct (carry_found _ _ _ Hc Hd (Hm1 eq_refl)) as (Ht' & l & El & El').
    eexists. split; [exact Ht'|]. rewrite length_insert. split; [done|]. right.
    exists (item (slot bs (S q))), l. split; [by apply Hm1|]. split; [done|]. split; [done|].
    unfold put_bucket. by rewrite mod_idx. }
  assert (key (item (slot bs (S q))) <> key (item e)) as Hne by (intros E; by specialize (Hm2 E)).
  clear Hm1 Hm2 Em'. destruct k as [|k]; [by rewrite Nat.add_0_r in He|].
  destruct (slot_wrap bs (S q + S k) ltac:(lia)) as [Hz Ez]. rewrite <-Ez in He.
  destruct (Z.ltb_spec (dib (slot bs (S q))) (dib e)) as [Hlt|Hle].
  - destruct (carry_swap _ _ _ _ Hc Hz He Hd Hlt) as (Hc' & Hf & Hf' & Ei).
    set (bs1 := <[(S q mod length bs)%nat := e]> bs) in *.
    assert (length bs1 = length bs) as El by apply length_insert.
    destruct (IH (set_buckets bs1 m) (S q) (set_dib (dib (slot bs (S q)) + 1) (slot bs (S q))) k)
      as (bs' & Ht' & El' & Hr); cbn [set_buckets hm_buckets hm_mask hm_compare]; try done; try lia.
    { rewrite Ez in He. apply ahead_insert; [lia|done|done]. }
    exists bs'. cbn [set_buckets hm_buckets hm_count] in *. rewrite El in *. split; [done|]. split; [done|]. left. split; [done|].
    unfold put_bucket. rewrite mod_idx. fold bs. fold bs1. cbn [set_buckets hm_mask].
    rewrite Em, next_index by apply Ht.
    destruct Hr as [(_ & Ei' & E)|(x & l & Ex & Ei1 & _)]; [split; [by rewrite Ei'|exact E]|].
    exfalso. apply Hf'. rewrite Ei1. simpl. rewrite Ex. left.
  - pose proof (carry_next _ _ _ _ Hc Hz He Hle Hne) as Hc'.
    destruct (IH m (S q) (set_dib (dib e + 1) e) k) as (bs' & Ht' & El' & Hr); try done; try lia.
    { rewrite Ez in He. by rewrite Nat.add_succ_r in He. }
    exists bs'. split; [done|]. split; [done|].
    rewrite Em. fold bs. rewrite next_index by apply Ht. exact Hr.
Qed.

(** ** The probe *)

Lemma matches_key m x p :
  hm_compare m = compare -> rh_table (hm_buckets m) -> dib (slot (hm_buckets m) p) <> 0 ->
  entry_matches m (hash48 x) x (slot (hm_buckets m) p) = true <-> key (item (slot (hm_buckets m) p)) = key x.
Proof.
  intros Ec Ht Hd. unfold entry_matches. rewrite Ec, Z.eqb_sym.
  apply (match_key _ (mkbucket (hash48 x) 1 x)); [by apply (t_hash _ Ht)|done].
Qed.

(** No bucket has the key: the probe stops at the empty bucket ahead. *)
Lemma probe_miss fuel m x p k st :
  hm_mask m = Z.of_nat (length (hm_buckets m)) - 1 -> hm_compare m = compare ->
  rh_table (hm_buckets m) -> (key x ∉ (key <$> items (hm_buckets m))) ->
  dib (slot (hm_buckets m) (p + k)) = 0 -> (k < fuel)%nat ->
  probe_loop fuel m (Z.of_nat (p mod length (hm_buckets m))) (hash48 x) x st = Ok None st.
Proof.
  intros Em Ec Ht Hf. revert p k. induction fuel as [|fuel IH]; intros p k He Hk; [lia|].
  pose proof (t_len _ Ht) as [Hl _]. cbn [probe_loop].
  rewrite (bind_ok _ _ _ _ _ (bucket_at_ok m p st ltac:(lia))).
  destruct (Z.eqb_spec (dib (slot (hm_buckets m) p)) 0) as [|Hd]; [done|].
  destruct (matches_key m x p Ec Ht Hd) as [Hm _]. destruct (entry_matches _ _ _ _).
  { exfalso. apply Hf. rewrite <-Hm by done. apply list_elem_of_fmap_2, items_slot.
    exists (p mod length (hm_buckets m))%nat. destruct (slot_wrap (hm_buckets m) p ltac:(lia)) as [? ->]. done. }
  destruct k as [|k]; [by rewrite Nat.add_0_r in He|].
  rewrite Em, next_index by apply Ht. apply (IH (S p) k); [|lia]. by rewrite Nat.add_succ_r in He.
Qed.

(** The bucket [k] ahead has the key, with no empty bucket before it: the probe finds it. *)
Lemma probe_hit fuel m x p k st :
  hm_mask m = Z.of_nat (length (hm_buckets m)) - 1 -> hm_compare m = compare ->
  rh_table (hm_buckets m) -> (forall j, (j <= k)%nat -> dib (slot (hm_buckets m) (p + j)) <> 0) ->
  key (item (slot (hm_buckets m) (p + k))) = key x -> (k < fuel)%nat ->
  probe_loop fuel m (Z.of_nat (p mod length (hm_buckets m))) (hash48 x) x st
  = Ok (Some (Z.of_nat ((p + k) mod length (hm_buckets m)), slot (hm_buckets m) (p + k))) st.
Proof.
  intros Em Ec Ht. revert p k. induction fuel as [|fuel IH]; intros p k Hj Ek Hk; [lia|].
  pose proof (t_len _ Ht) as [Hl _]. cbn [probe_loop].
  rewrite (bind_ok _ _ _ _ _ (bucket_at_ok m p st ltac:(lia))).
  pose proof (Hj 0%nat ltac:(lia)) as Hd. rewrite Nat.add_0_r in Hd.
  destruct (Z.eqb_spec (dib (slot (hm_buckets m) p)) 0) as [|_]; [done|].
  destruct (matches_key m x p Ec Ht Hd) as [Hm Hm']. destruct (entry_matches _ _ _ _).
  { assert (p mod length (hm_buckets m) = (p + k) mod length (hm_buckets m))%nat as E.
    { apply table_inj; [done|done|by apply Hj|]. rewrite Ek. by apply Hm. }
    by rewrite (slot_mod _ _ _ E), E. }
  destruct k as [|k].
  { rewrite Nat.add_0_r in Ek. by specialize (Hm' Ek). }
  rewrite Em, next_index by apply Ht. rewrite Nat.add_succ_r. apply (IH (S p) k); [|by rewrite Nat.add_succ_r in Ek|lia].
  intros j Hjk. replace (S p + j)%nat with (p + S j)%nat by lia. apply Hj. lia.
Qed.

(** A bucket is reached from its home without meeting an empty one. *)
Lemma home_run bs r :
  rh_table bs -> dib (slot bs r) <> 0 ->
  let h := Z.to_nat (bhash (slot bs r)) in let d := Z.to_nat (dib (slot bs r) - 1) in
  ((h + d) mod length bs = r mod length bs)%nat /\
  forall j, (j <= d)%nat -> dib (slot bs (h + j)) <> 0.
Proof.
  intros Ht Hd h d. pose proof (t_len bs Ht) as [Hl _]. pose proof (t_dib bs Ht r).
  assert ((h + d) mod length bs = r mod length bs)%nat as E.
  { apply mod_succ_inj; [lia|]. rewrite <-(t_place bs Ht r Hd). unfold h, d. f_equal. lia. }
  split; [done|]. intros j Hj.
  pose proof (robin_back bs (h + j) (d - j) (t_robin bs Ht)) as Hb.
  replace (h + j + (d - j))%nat with (h + d)%nat in Hb by lia.
  rewrite (slot_mod bs _ _ E) in Hb. unfold d in *. lia.
Qed.

(** ** Closing the gap after a deletion *)

(** A table but for the bucket at position [S q], which is the gap. *)
Record hole bs (q : nat) : Prop := {
  h_size : pow2_size (length bs);
  h_robin r : (r mod length bs <> S q mod length bs)%nat ->
    (S r mod length bs <> S q mod length bs)%nat -> dib (slot bs (S r)) <= dib (slot bs r) + 1;
  h_jump : dib (slot bs (S (S q))) <= dib (slot bs q) + 2;
  h_dib r : (r mod length bs <> S q mod length bs)%nat -> 0 <= dib (slot bs r) < 65536;
  h_place r : (r mod length bs <> S q mod length bs)%nat -> dib (slot bs r) <> 0 ->
    placed (length bs) (slot bs r) r;
  h_hash r : (r mod length bs <> S q mod length bs)%nat -> dib (slot bs r) <> 0 ->
    bhash (slot bs r) = hash48 (item (slot bs r));
  h_keys : NoDup (key <$> items (<[(S q mod length bs)%nat := zero_bucket]> bs));
}.

Lemma h_len bs q : hole bs q -> (16 <= length bs)%nat /\ Z.of_nat (length bs) <= 32768.
Proof. intros Hh. apply pow2_len, (h_size bs q Hh). Qed.

Lemma table_hole bs q z :
  rh_table bs -> (z < length bs)%nat -> dib (slot bs z) = 0 -> dib (slot bs (S q)) <> 0 -> hole bs q.
Proof.
  intros Ht Hz Hze Hd. pose proof (t_len bs Ht) as [Hl Hl'].
  assert (forall r, 0 <= dib (slot bs r) < 65536) as Hb.
  { intros r. pose proof (t_dib bs Ht r). pose proof (robin_bound bs z r (t_robin bs Ht) Hz Hze). lia. }
  split.
  - apply (t_size bs Ht).
  - intros r _ _. apply (t_robin bs Ht).
  - pose proof (t_robin bs Ht q). pose proof (t_robin bs Ht (S q)). lia.
  - intros r _. apply Hb.
  - intros r _. apply (t_place bs Ht).
  - intros r _. apply (t_hash bs Ht).
  - destruct (items_put bs (S q) zero_bucket ltac:(lia)) as (l & El & El').
    apply (keys_perm _ _ (symmetry El')). simpl. pose proof (keys_perm _ _ El (t_keys bs Ht)) as Hnd.
    rewrite load_item in Hnd by done. simpl in Hnd. by apply NoDup_cons in Hnd as [_ ?].
Qed.

(** What is in the gap does not matter. *)
Lemma hole_put bs q b : hole bs q -> hole (<[(S q mod length bs)%nat := b]> bs) q.
Proof.
  intros Hh. pose proof (h_len bs q Hh) as [Hl _].
  assert (forall r, (r mod length bs <> S q mod length bs)%nat ->
    slot (<[(S q mod length bs)%nat := b]> bs) r = slot bs r) as Es.
  { intros r Hr. rewrite slot_insert by lia. by rewrite decide_False by congruence. }
  assert (S (S q) mod length bs <> S q mod length bs)%nat as N1 by (apply mod_succ_ne; lia).
  assert (q mod length bs <> S q mod length bs)%nat as N2 by (apply not_eq_sym, mod_succ_ne; lia).
  split; rewrite ?length_insert.
  - apply Hh.
  - intros r N3 N4. rewrite !Es by done. by apply (h_robin bs q Hh).
  - rewrite !Es by done. apply (h_jump bs q Hh).
  - intros r Hr. rewrite Es by done. by apply (h_dib bs q Hh).
  - intros r Hr. rewrite Es by done. by apply (h_place bs q Hh).
  - intros r Hr. rewrite Es by done. by apply (h_hash bs q Hh).
  - rewrite list_insert_insert_eq. apply (h_keys bs q Hh).
Qed.

(** The last step: the gap becomes an empty bucket. *)
Lemma hole_close bs q :
  hole bs q -> dib (slot bs (S (S q))) <= 1 ->
  let bs' := <[(S q mod length bs)%nat := set_dib 0 (slot bs (S q))]> bs in
  rh_table bs' /\ items bs' ≡ₚ items (<[(S q mod length bs)%nat := zero_bucket]> bs).
Proof.
  intros Hh Hd bs'. pose proof (h_len bs q Hh) as [Hl _].
  assert (items bs' ≡ₚ items (<[(S q mod length bs)%nat := zero_bucket]> bs)) as Ei.
  { destruct (items_put bs (S q) zero_bucket ltac:(lia)) as (l & El & El').
    destruct (items_put (<[(S q mod length bs)%nat := zero_bucket]> bs) (S q)
      (set_dib 0 (slot bs (S q)))) as (l' & Fl & Fl'); [rewrite length_insert; lia|].
    rewrite length_insert, list_insert_insert_eq in Fl'. fold bs' in Fl'.
    rewrite slot_insert, decide_True in Fl by (done || lia). simpl in Fl, Fl'. by rewrite Fl', Fl. }
  split; [|done].
  assert (forall r, slot bs' r = if decide (S q mod length bs = r mod length bs)%nat
    then set_dib 0 (slot bs (S q)) else slot bs r) as Es by (intros; apply slot_insert; lia).
  assert (length bs' = length bs) as El by apply length_insert.
  split; rewrite ?El.
  - apply (h_size bs q Hh).
  - intros r. rewrite !Es. destruct (decide (S q mod length bs = S r mod length bs)%nat) as [E|E];
      destruct (decide (S q mod length bs = r mod length bs)%nat) as [E'|E']; simpl.
    + done.
    + pose proof (h_dib bs q Hh r ltac:(congruence)). unfold u16, wrap. simpl. rewrite Zmod_0_l. lia.
    + apply mod_succ_cong in E'. rewrite <-(slot_mod bs _ _ E'). done.
    + apply (h_robin bs q Hh); congruence.
  - intros r. rewrite Es. case_decide; [done|]. by apply (h_dib bs q Hh).
  - intros r. rewrite Es. case_decide; [done|]. apply (h_place bs q Hh). congruence.
  - intros r. rewrite Es. case_decide; [done|]. apply (h_hash bs q Hh). congruence.
  - apply (keys_perm _ _ (symmetry Ei)). apply (h_keys bs q Hh).
Qed.

(** A step: the next bucket moves into the gap, nearer its home. *)
Lemma hole_step bs q :
  hole bs q -> 1 < dib (slot bs (S (S q))) ->
  let b := slot bs (S (S q)) in
  let bs' := <[(S q mod length bs)%nat := set_dib (dib b - 1) b]> bs in
  hole bs' (S q) /\
  items (<[(S (S q) mod length bs)%nat := zero_bucket]> bs')
  ≡ₚ items (<[(S q mod length bs)%nat := zero_bucket]> bs).
Proof.
  intros Hh Hd b bs'. pose proof (h_len bs q Hh) as [Hl _].
  assert (S (S q) mod length bs <> S q mod length bs)%nat as N1 by (apply mod_succ_ne; lia).
  assert (S (S (S q)) mod length bs <> S q mod length bs)%nat as N2.
  { replace (S (S (S q)))%nat with (S q + 2)%nat by lia. apply mod_add_ne. lia. }
  pose proof (h_dib bs q Hh _ N1) as Hdb. fold b in Hdb, Hd.
  assert (dib (set_dib (dib b - 1) b) = dib b - 1) as Ed by (simpl; rewrite u16_small; lia).
  assert (length bs' = length bs) as El by apply length_insert.
  assert (items (<[(S (S q) mod length bs)%nat := zero_bucket]> bs')
    ≡ₚ items (<[(S q mod length bs)%nat := zero_bucket]> bs)) as Ei.
  { set (bz := <[(S q mod length bs)%nat := zero_bucket]> bs).
    assert (length bz = length bs) as Ez by apply length_insert.
    destruct (items_put bz (S (S q)) zero_bucket ltac:(lia)) as (l & F1 & F2).
    rewrite Ez in F2. unfold bz in F1 at 2. rewrite slot_insert, decide_False in F1 by (congruence || lia).
    fold b in F1. rewrite load_item in F1 by lia. simpl in F1, F2.
    destruct (items_put (<[(S (S q) mod length bs)%nat := zero_bucket]> bz) (S q)
      (set_dib (dib b - 1) b)) as (l' & G1 & G2); [rewrite length_insert; lia|].
    rewrite length_insert, Ez in G2. rewrite load_item in G2 by lia.
    assert (slot (<[(S (S q) mod length bs)%nat := zero_bucket]> bz) (S q) = zero_bucket) as Esl.
    { rewrite <-Ez. rewrite slot_insert, Ez, decide_False by (done || lia). unfold bz.
      rewrite slot_insert, decide_True by (done || lia). done. }
    rewrite Esl, F2 in G1. simpl in G1, G2.
    rewrite list_insert_insert_ne in G2 by done. unfold bz in G2. rewrite list_insert_insert_eq in G2.
    fold bs' in G2. fold bz in F1 |- *. by rewrite G2, <-G1, F1. }
  split; [|done].
  assert (forall r, slot bs' r = if decide (S q mod length bs = r mod length bs)%nat
    then set_dib (dib b - 1) b else slot bs r) as Es by (intros; apply slot_insert; lia).
  split; rewrite ?El.
  - apply (h_size bs q Hh).
  - intros r Hr1 Hr2. rewrite !Es.
    destruct (decide (S q mod length bs = S r mod length bs)%nat) as [E|E];
      destruct (decide (S q mod length bs = r mod length bs)%nat) as [E'|E']; rewrite ?Ed.
    + lia.
    + apply mod_succ_inj in E; [|lia]. rewrite <-(slot_mod bs _ _ E).
      pose proof (h_jump bs q Hh) as Hj. fold b in Hj. lia.
    + exfalso. apply Hr2. symmetry. by apply mod_succ_cong.
    + apply (h_robin bs q Hh); congruence.
  - rewrite !Es, decide_False, decide_True, Ed by congruence.
    pose proof (h_robin bs q Hh (S (S q)) N1 N2) as Hj. fold b in Hj. lia.
  - intros r Hr. rewrite Es. case_decide as E; [rewrite Ed; lia|]. apply (h_dib bs q Hh). congruence.
  - intros r Hr. rewrite Es. case_decide as E; [|apply (h_place bs q Hh); congruence].
    intros _. pose proof (h_place bs q Hh _ N1 ltac:(fold b; lia)) as Hp. fold b in Hp.
    unfold placed in *. rewrite Ed. simpl. rewrite <-(mod_succ_cong _ _ _ E). apply mod_succ_inj; [lia|].
    rewrite <-Hp. f_equal. lia.
  - intros r Hr. rewrite Es. case_decide as E; [|apply (h_hash bs q Hh); congruence].
    intros _. apply (h_hash bs q Hh _ N1). fold b; lia.
  - apply (keys_perm _ _ (symmetry Ei)). apply (h_keys bs q Hh).
Qed.

Lemma shift_loop_ok fuel m q k st :
  hm_mask m = Z.of_nat (length (hm_buckets m)) - 1 -> hole (hm_buckets m) q ->
  dib (slot (hm_buckets m) (S (S q) + k)) = 0 -> (S k < length (hm_buckets m))%nat -> (k < fuel)%nat ->
  exists bs', rh_table bs' /\ length bs' = length (hm_buckets m) /\
    items bs' ≡ₚ items (<[(S q mod length (hm_buckets m))%nat := zero_bucket]> (hm_buckets m)) /\
    shift_loop fuel m (Z.of_nat (S q mod length (hm_buckets m))) st = Ok (set_buckets bs' m) st.
Proof.
  revert m q k. induction fuel as [|fuel IH]; intros m q k Em Hh He Hkn Hk; [lia|].
  set (bs := hm_buckets m) in *. pose proof (h_len bs q Hh) as [Hl Hl']. cbn [shift_loop].
  rewrite (bind_ok _ _ _ _ _ (bucket_at_ok m (S q) st ltac:(fold bs; lia))). fold bs. rewrite Em.
  rewrite next_index by apply Hh. rewrite (bind_ok _ _ _ _ _ (bucket_at_ok m (S (S q)) st ltac:(fold bs; lia))). fold bs.
  destruct (Z.leb_spec (dib (slot bs (S (S q)))) 1) as [Hd|Hd].
  { destruct (hole_close bs q Hh Hd) as (Ht & Eit). eexists. split; [exact Ht|]. rewrite length_insert.
    split; [done|]. split; [done|]. unfold put_bucket. by rewrite mod_idx. }
  destruct k as [|k]; [rewrite Nat.add_0_r in He; lia|].
  destruct (hole_step bs q Hh Hd) as (Hh' & Eit).
  set (bs1 := <[(S q mod length bs)%nat := set_dib (dib (slot bs (S (S q))) - 1) (slot bs (S (S q)))]> bs) in *.
  assert (length bs1 = length bs) as El by apply length_insert.
  destruct (IH (set_buckets bs1 m) (S q) k) as (bs' & Ht' & El' & Ei' & E);
    cbn [set_buckets hm_buckets hm_mask]; try done; try lia.
  { unfold bs1. rewrite slot_insert by lia. rewrite decide_False.
    - rewrite <-He. f_equal. f_equal. lia.
    - replace (S (S (S q)) + k)%nat with (S q + (S (S k)))%nat by lia. apply not_eq_sym, mod_add_ne. lia. }
  exists bs'. cbn [set_buckets hm_buckets] in *. rewrite El in *. split; [done|]. split; [done|].
  split; [by rewrite Ei'|]. unfold put_bucket. rewrite mod_idx. fold bs. fold bs1. exact E.
Qed.

(** ** Where an entry starts *)

Lemma carry_start bs e :
  rh_table bs -> dib e = 1 -> bhash e = hash48 (item e) ->
  exists q, carry bs q e /\ Z.land (bhash e) (Z.of_nat (length bs) - 1) = Z.of_nat (S q mod length bs).
Proof.
  intros Ht Hd Hh. pose proof (t_len bs Ht) as [Hl _]. pose proof (hash48_range (item e)) as Hr.
  rewrite <-Hh in Hr. set (h := Z.to_nat (bhash e)).
  assert ((h + length bs) mod length bs = h mod length bs)%nat as Em.
  { rewrite <-(Nat.mul_1_l (length bs)) at 1. apply Nat.Div0.mod_add. }
  exists (h + length bs - 1)%nat. replace (S (h + length bs - 1)) with (h + length bs)%nat by lia. split.
  - split; try done; try lia.
    + unfold placed. rewrite Hd. fold h. replace (S (S (h + length bs - 1))) with (S (h + length bs)) by lia.
      change (Z.to_nat 1) with 1%nat. rewrite Nat.add_1_r. symmetry. by apply mod_succ_cong.
    + pose proof (t_dib bs Ht (h + length bs - 1)). lia.
    + intros r Hne _. pose proof (t_dib bs Ht r). lia.
  - rewrite land_pow2 by (lia || apply Ht). by rewrite Em.
Qed.

Lemma table_room bs p :
  rh_table bs -> (length (items bs) < length bs)%nat ->
  exists k, (k < length bs)%nat /\ dib (slot bs (p + k)) = 0.
Proof. intros Ht Hr. destruct (items_room bs Hr) as (z & Hz & He). by apply (empty_ahead bs z). Qed.

Lemma slot_replicate n b p : (0 < n)%nat -> slot (replicate n b) p = b.
Proof.
  intros. unfold slot. rewrite length_replicate. apply lookup_total_replicate_2. apply Nat.mod_upper_bound. lia.
Qed.

Lemma items_replicate n : items (T:=T) (replicate n zero_bucket) = [].
Proof. induction n as [|n IH]; [done|]. cbn [replicate]. rewrite items_cons, IH. done. Qed.

Lemma table_replicate n : pow2_size n -> rh_table (replicate n zero_bucket).
Proof.
  intros Hn. pose proof (pow2_len n Hn).
  assert (forall p, slot (replicate n (zero_bucket (T:=T))) p = zero_bucket) as Es
    by (intros; apply slot_replicate; lia).
  split; rewrite ?length_replicate, ?items_replicate; try done; try (intros p; rewrite !Es; simpl; done).
  apply NoDup_nil_2.
Qed.

(** ** The new table of [resize] *)

Lemma resize_loop_ok n i m m2 st :
  (i + n = length (hm_buckets m))%nat -> rh_table (hm_buckets m) -> rh_table (hm_buckets m2) ->
  hm_mask m2 = Z.of_nat (length (hm_buckets m2)) - 1 ->
  hm_nbuckets m2 = Z.of_nat (length (hm_buckets m2)) ->
  NoDup (key <$> items (drop i (hm_buckets m)) ++ items (hm_buckets m2)) ->
  (length (items (drop i (hm_buckets m)) ++ items (hm_buckets m2)) < length (hm_buckets m2))%nat ->
  exists bs', rh_table bs' /\ length bs' = length (hm_buckets m2) /\
    items bs' ≡ₚ items (drop i (hm_buckets m)) ++ items (hm_buckets m2) /\
    resize_loop n (Z.of_nat i) m m2 st = Ok (set_buckets bs' m2) st.
Proof.
  intros Hi Ht. revert i m2 Hi. induction n as [|n IH]; intros i m2 Hi Ht2 Em En Hnd Hlen.
  { exists (hm_buckets m2). rewrite drop_ge by lia.
    split; [done|]. split; [done|]. split; [done|]. by destruct m2. }
  cbn [resize_loop]. pose proof (t_len _ Ht) as [Hl _].
  pose proof (bucket_at_ok m i st ltac:(lia)) as Eb. rewrite Nat.mod_small in Eb by lia.
  rewrite (bind_ok _ _ _ _ _ Eb). set (b := slot (hm_buckets m) i) in *.
  assert (drop i (hm_buckets m) = b :: drop (S i) (hm_buckets m)) as Edr.
  { apply drop_S. unfold b. rewrite slot_lt by lia. apply list_lookup_lookup_total_lt. lia. }
  rewrite Edr, items_cons in Hnd, Hlen |- *.
  replace (Z.of_nat i + 1) with (Z.of_nat (S i)) by lia.
  destruct (Z.eqb_spec (dib b) 0) as [Hd|Hd].
  { rewrite load_none in * by done. rewrite (bind_ok _ _ _ _ _ (ret_ok _ _)). apply IH; (done || lia). }
  rewrite load_item in * by done. cbn [app] in *.
  destruct (carry_start (hm_buckets m2) (set_dib 1 b) Ht2 eq_refl) as (q & Hc & Eq).
  { apply (t_hash _ Ht i Hd). }
  cbn [set_dib bhash] in Eq. rewrite Em, Eq, En, Nat2Z.id. cbn [length app] in Hlen. rewrite length_app in Hlen.
  destruct (table_room _ (S q) Ht2 ltac:(lia)) as (k & Hk & Hke).
  cbn [fmap list_fmap] in Hnd. apply NoDup_cons in Hnd as [Hni Hnd].
  destruct (rehash_loop_ok (length (hm_buckets m2)) m2 q (set_dib 1 b) k st Em Hc Hke Hk)
    as (bs1 & Ht1 & El1 & Ei1 & E1).
  { cbn [set_dib item]. intros Hin. apply Hni. rewrite fmap_app. apply elem_of_app. by right. }
  rewrite (bind_ok _ _ _ _ _ E1). cbn [set_dib item] in Ei1.
  destruct (IH (S i) (set_buckets bs1 m2)) as (bs' & Ht' & El' & Ei' & E'); cbn [set_buckets hm_buckets hm_mask hm_nbuckets];
    rewrite ?El1; try done; try lia.
  - rewrite Ei1, <-Permutation_middle. by apply NoDup_cons.
  - rewrite Ei1, length_app. simpl. lia.
  - exists bs'. cbn [set_buckets hm_buckets] in *. rewrite El1 in *. split; [done|]. split; [done|].
    split; [|exact E']. rewrite Ei', Ei1. symmetry. apply Permutation_middle.
Qed.
End table.
