(* ===== verification/HashMapSpec.v ===== *)
(** The hash map refines a finite map.

    [abs m] is the finite map of the items of [m] by their keys; every operation of
    hashmap.c returns what the operation on [abs m] returns and leaves a map that stands for
    its result.  A run of operations on a new map returns, and its results are those of the
    same operations on an empty finite map, but for the insertions that found no memory. *)

From S2P Require Import Prelude HashMap HashMapTable.

(** The fields of an updated map *)
Ltac fields := cbn [take_table set_buckets set_count set_oom hm_hash hm_compare hm_seed0 hm_seed1
  hm_buckets hm_nbuckets hm_mask hm_growat hm_shrinkat hm_count hm_cap hm_oom].

Section spec.
Context {T K : Type} `{Inhabited T} `{Countable K} (hash : T -> Z -> Z -> Z)
  (compare : T -> T -> Z -> Z) `{HK : !HashKey (K:=K) hash compare} {A : Type} `{Hmalloc A}.
Implicit Types (m : hashmap T) (st : A).

#[local] Abbreviation tbl m := (rh_table (K:=K) hash compare (hm_seed0 m) (hm_seed1 m)).

(** The invariant of a map *)
Record wf m : Prop := {
  w_hash : hm_hash m = hash;
  w_cmp : hm_compare m = compare;
  w_table : tbl m (hm_buckets m);
  w_n : hm_nbuckets m = Z.of_nat (length (hm_buckets m));
  w_mask : hm_mask m = Z.of_nat (length (hm_buckets m)) - 1;
  w_grow : hm_growat m = hm_nbuckets m / 2;
  w_shrink : hm_shrinkat m = hm_nbuckets m / 10;
  w_count : hm_count m = Z.of_nat (length (items (hm_buckets m)));
  w_room : hm_count m <= hm_growat m;
  w_cap : 16 <= hm_cap m;
}.

Definition abs_items (l : list T) : gmap K T := list_to_map ((fun x => (key x, x)) <$> l).

(** The finite map that a map stands for *)
Definition abs m : gmap K T := abs_items (items (hm_buckets m)).

Lemma fst_keys (l : list T) : ((fun x => (key (K:=K) x, x)) <$> l).*1 = key <$> l.
Proof. rewrite <-list_fmap_compose. by apply list_fmap_ext. Qed.

Lemma abs_perm l l' : NoDup (key (K:=K) <$> l) -> l ≡ₚ l' -> abs_items l = abs_items l'.
Proof.
  intros Hnd Hp. apply list_to_map_proper; [by rewrite fst_keys|]. by apply fmap_Permutation.
Qed.

Lemma abs_lookup l x : NoDup (key (K:=K) <$> l) -> x ∈ l -> abs_items l !! key x = Some x.
Proof.
  intros Hnd Hx. apply elem_of_list_to_map_1; [by rewrite fst_keys|]. by apply (list_elem_of_fmap_2 (fun x => (key x, x))).
Qed.

Lemma abs_none l (k : K) : (k ∉ (key <$> l)) -> abs_items l !! k = None.
Proof. intros Hk. apply not_elem_of_list_to_map_1. by rewrite fst_keys. Qed.

Lemma abs_size l : NoDup (key (K:=K) <$> l) -> size (abs_items l) = length l.
Proof.
  intros Hnd. unfold abs_items. rewrite <-(length_fmap (fun x => (key x, x)) l).
  rewrite <-length_map_to_list. apply Permutation_length, map_to_list_to_map. by rewrite fst_keys.
Qed.

Lemma wf_room m : wf m -> (length (items (hm_buckets m)) < length (hm_buckets m))%nat.
Proof.
  intros Hw. pose proof (w_room m Hw) as Hr. rewrite (w_count m Hw), (w_grow m Hw), (w_n m Hw) in Hr.
  pose proof (t_len _ _ _ _ _ (w_table m Hw)).
  pose proof (Z.div_lt (Z.of_nat (length (hm_buckets m))) 2 ltac:(lia) ltac:(lia)). lia.
Qed.

Lemma wf_hash48 m x : wf m -> get_hash m x = hash48 hash (hm_seed0 m) (hm_seed1 m) x.
Proof. intros Hw. unfold get_hash, hash48. by rewrite (w_hash m Hw). Qed.

(** * [hashmap_new] *)

Lemma pad_loop_ok fuel z st : 0 <= z -> (- z) mod 8 < Z.of_nat fuel -> exists b, pad_loop (A:=A) fuel z st = Ok b st.
Proof.
  revert z. induction fuel as [|fuel IH]; intros z Hz Hf.
  { pose proof (Z.mod_pos_bound (- z) 8 ltac:(lia)). lia. }
  cbn [pad_loop]. change 7 with (Z.ones 3). rewrite Z.land_ones by lia. change (2 ^ 3) with 8.
  destruct (Z.eqb_spec (z mod 8) 0) as [|Hne]; [by exists z|]. apply IH; [apply u64_range|].
  assert ((- u64 (z + 1)) mod 8 = (- (z + 1)) mod 8) as ->.
  { unfold u64, wrap. rewrite (Z.mod_eq (z + 1) (2 ^ 64)) by lia. set (c := (z + 1) / 2 ^ 64).
    replace (- (z + 1 - 2 ^ 64 * c)) with (- (z + 1) + 2 ^ 61 * c * 8) by lia. apply Z_mod_plus_full. }
  revert Hf Hne. clear. pose proof (Z.div_mod z 8 ltac:(lia)) as E. pose proof (Z.mod_pos_bound z 8 ltac:(lia)) as B.
  set (q := z / 8) in *. set (r := z mod 8) in *. rewrite E. intros Hf Hne.
  replace (- (8 * q + r)) with ((8 - r) + (- q - 1) * 8) in Hf by ring.
  replace (- (8 * q + r + 1)) with ((7 - r) + (- q - 1) * 8) by ring.
  rewrite Z_mod_plus_full in *. rewrite Z.mod_small in * by lia. lia.
Qed.

Lemma ncap_loop_ok fuel j cap st :
  (4 <= j)%nat -> (15 - j < fuel)%nat -> (j <= 15)%nat -> cap <= 2 ^ 15 ->
  (j = 4%nat \/ 2 ^ Z.of_nat (j - 1) < cap) ->
  exists k, (j <= k <= 15)%nat /\ cap <= 2 ^ Z.of_nat k /\ (k = 4%nat \/ 2 ^ Z.of_nat (k - 1) < cap) /\
    ncap_loop (A:=A) fuel (2 ^ Z.of_nat j) cap st = Ok (2 ^ Z.of_nat k) st.
Proof.
  revert j. induction fuel as [|fuel IH]; intros j Hj Hf Hj' Hc Hs; [lia|].
  cbn [ncap_loop]. destruct (Z.ltb_spec (2 ^ Z.of_nat j) cap) as [Hlt|Hge].
  - assert (j < 15)%nat as Hj15.
    { assert (j <> 15%nat); [|lia]. intros ->. change (2 ^ Z.of_nat 15) with (2 ^ 15) in Hlt. lia. }
    destruct (Z.leb_spec (2 ^ 30) (2 ^ Z.of_nat j)) as [Hb|_].
    { exfalso. pose proof (Z.pow_le_mono_r 2 (Z.of_nat j) 29 ltac:(lia) ltac:(lia)). lia. }
    replace (2 ^ Z.of_nat j * 2) with (2 ^ Z.of_nat (S j)) by (rewrite Nat2Z.inj_succ, Z.pow_succ_r; lia).
    destruct (IH (S j)) as (k & Hk & Hck & Hmin & E); try lia; [|by exists k; split; [lia|]].
    right. by replace (S j - 1)%nat with j by lia.
  - exists j. split; [lia|]. split; [lia|]. split; [|done]. done.
Qed.

(** The allocator can fail. *)
Definition no_memory : Prop := exists z (s : A), (hmmalloc z s).1 = None.

Lemma no_memory_intro z (s s' : A) : hmmalloc z s = (None, s') -> no_memory.
Proof. intros E. exists z, s. by rewrite E. Qed.

(** A table of [2 ^ k] empty buckets, or no memory. *)
Lemma hashmap_new_ok elsize cap sd0 sd1 u st :
  0 <= cap <= 2 ^ 15 ->
  exists om st', hashmap_new elsize cap sd0 sd1 hash compare u st = Ok om st' /\
  match om with
  | None => no_memory
  | Some m => exists k bsz bat at_, (4 <= k <= 15)%nat /\ cap <= 2 ^ Z.of_nat k /\
      (k = 4%nat \/ 2 ^ Z.of_nat (k - 1) < cap) /\
      m = mkmap false elsize (2 ^ Z.of_nat k) sd0 sd1 hash compare u bsz (2 ^ Z.of_nat k) 0
        (2 ^ Z.of_nat k - 1) (2 ^ Z.of_nat k / 2) (2 ^ Z.of_nat k / 10)
        (replicate (2 ^ k) zero_bucket) bat at_
  end.
Proof.
  intros Hcap. unfold hashmap_new.
  assert (exists k, (4 <= k <= 15)%nat /\ cap <= 2 ^ Z.of_nat k /\ (k = 4%nat \/ 2 ^ Z.of_nat (k - 1) < cap) /\
    (if cap <? 16 then ret 16 else ncap_loop 32 16 cap) st = Ok (2 ^ Z.of_nat k) st) as (k & Hk & Hck & Hmin & E).
  { destruct (Z.ltb_spec cap 16); [exists 4%nat; change (2 ^ Z.of_nat 4) with 16; split; [lia|]; split; [lia|]; auto|].
    apply (ncap_loop_ok 32 4 cap st); lia || auto. }
  rewrite (bind_ok _ _ _ _ _ E).
  destruct (pad_loop_ok 8 (u64 (SIZEOF_BUCKET + elsize)) st) as (bsz & Eb).
  { apply u64_range. } { apply Z.mod_pos_bound. lia. }
  rewrite (bind_ok _ _ _ _ _ Eb). unfold bind, hm_alloc.
  destruct (hmmalloc _ st) as [[mp|] st1] eqn:E1;
    [|eexists _, _; split; [reflexivity|by apply no_memory_intro in E1]].
  destruct (hmmalloc _ st1) as [[bat|] st2] eqn:E2;
    [|eexists _, _; split; [reflexivity|by apply no_memory_intro in E2]].
  eexists _, _. split; [reflexivity|]. exists k, bsz, bat, mp. split; [done|]. split; [done|]. split; [done|].
  f_equal. f_equal. change 2 with (Z.of_nat 2). by rewrite <-Nat2Z.inj_pow, Nat2Z.id.
Qed.

Lemma pow2_ok k : (4 <= k <= 15)%nat -> pow2_size (2 ^ k).
Proof. intros. by exists k. Qed.

Lemma pow2_Z k : Z.of_nat (2 ^ k) = 2 ^ Z.of_nat k.
Proof. by rewrite Nat2Z.inj_pow. Qed.

(** * [resize] *)

Lemma resize_ok m k st :
  wf m -> (4 <= k <= 15)%nat -> hm_count m <= 2 ^ Z.of_nat k / 2 ->
  exists ok m' st', resize m (2 ^ Z.of_nat k) st = Ok (ok, m') st' /\
  if (ok : bool) then wf m' /\ hm_nbuckets m' = 2 ^ Z.of_nat k /\ hm_count m' = hm_count m /\
    items (hm_buckets m') ≡ₚ items (hm_buckets m) /\ hm_oom m' = hm_oom m /\ hm_cap m' = hm_cap m
  else m' = m /\ no_memory.
Proof.
  intros Hw Hk Hcnt. unfold resize. rewrite (w_hash m Hw), (w_cmp m Hw).
  pose proof (Z.pow_le_mono_r 2 (Z.of_nat k) 15 ltac:(lia) ltac:(lia)).
  pose proof (Z.pow_le_mono_r 2 4 (Z.of_nat k) ltac:(lia) ltac:(lia)).
  destruct (hashmap_new_ok (hm_elsize m) (2 ^ Z.of_nat k) (hm_seed1 m) (hm_seed1 m) (hm_udata m) st)
    as (om & st1 & En & Hom); [lia|].
  rewrite (bind_ok _ _ _ _ _ En). destruct om as [m2|]; [|by exists false, m, st1].
  destruct Hom as (k' & bsz & bat & at_ & Hk' & Hle & Hmin & E2).
  assert (k' = k) as ->.
  { apply Z.pow_le_mono_r_iff in Hle; [|lia|lia]. destruct Hmin as [->|Hmin]; [lia|].
    apply Z.pow_lt_mono_r_iff in Hmin; [|lia|lia]. lia. }
  pose proof (w_table m Hw) as Ht. pose proof (wf_room m Hw).
  assert (hm_buckets m2 = replicate (2 ^ k) zero_bucket) as Eb by (by rewrite E2).
  assert (length (hm_buckets m2) = (2 ^ k)%nat) as El by (rewrite Eb; apply length_replicate).
  pose proof (Z.div_lt (2 ^ Z.of_nat k) 2 ltac:(lia) ltac:(lia)) as Hdl.
  destruct (resize_loop_ok hash compare (hm_seed0 m) (hm_seed1 m) (Z.to_nat (hm_nbuckets m)) 0 m m2 st1)
    as (bs' & Ht' & El' & Ei' & Er).
  { rewrite (w_n m Hw). lia. }
  { done. }
  { rewrite Eb. apply table_replicate. by apply pow2_ok. }
  { rewrite El, pow2_Z, E2. done. }
  { rewrite El, pow2_Z, E2. done. }
  { rewrite Eb, items_replicate, app_nil_r. apply (t_keys _ _ _ _ _ Ht). }
  { rewrite El, Eb, items_replicate, app_nil_r, drop_0. apply Nat2Z.inj_lt.
    rewrite pow2_Z, <-(w_count m Hw). lia. }
  cbn [drop] in Ei'. rewrite Eb, items_replicate, app_nil_r in Ei'.
  change (Z.of_nat 0) with 0 in Er. rewrite (bind_ok _ _ _ _ _ Er).
  eexists true, _, _. split; [reflexivity|]. rewrite El in El'.
  split; [|rewrite E2; done].
  split; rewrite ?E2; fields; rewrite ?El', ?pow2_Z; try done.
  - apply Hw.
  - apply Hw.
  - rewrite (w_count m Hw). by rewrite Ei'.
  - apply Hw.
Qed.

(** A size that is a power of two, as one *)
Lemma wf_pow m : wf m -> exists k, (4 <= k <= 15)%nat /\ hm_nbuckets m = 2 ^ Z.of_nat k.
Proof.
  intros Hw. destruct (t_size _ _ _ _ _ (w_table m Hw)) as (k & E & Hk). exists k. split; [done|].
  by rewrite (w_n m Hw), E, pow2_Z.
Qed.

Lemma wf_oom b m : wf m -> wf (set_oom b m).
Proof. intros Hw. split; fields; apply Hw. Qed.

(** Replacing the buckets by a table of the same size. *)
Lemma wf_buckets m bs' :
  wf m -> tbl m bs' -> length bs' = length (hm_buckets m) -> length (items bs') = length (items (hm_buckets m)) ->
  wf (set_buckets bs' m).
Proof. intros Hw Ht El Ei. split; fields; rewrite ?El, ?Ei; done || apply Hw. Qed.

Lemma wf_buckets_count m bs' c :
  wf m -> tbl m bs' -> length bs' = length (hm_buckets m) -> c = Z.of_nat (length (items bs')) ->
  c <= hm_growat m -> wf (set_count c (set_buckets bs' m)).
Proof. intros Hw Ht El Ei Hc. split; fields; rewrite ?El; done || apply Hw. Qed.

(** Insertion once there is room *)
Lemma set_room m x st :
  wf m -> hm_count m < hm_growat m ->
  exists m', set_loop (Z.to_nat (hm_nbuckets m)) m (Z.land (get_hash m x) (hm_mask m))
      (mkbucket (get_hash m x) 1 x) st = Ok (abs m !! key x, m') st /\
    wf m' /\ abs m' = <[key x := x]> (abs m) /\ hm_oom m' = hm_oom m.
Proof.
  intros Hw Hc. pose proof (w_table m Hw) as Ht. pose proof (t_keys _ _ _ _ _ Ht) as Hnd.
  rewrite (wf_hash48 m x Hw). set (e := mkbucket (hash48 hash (hm_seed0 m) (hm_seed1 m) x) 1 x).
  destruct (carry_start _ _ _ _ _ e Ht eq_refl eq_refl) as (q & Hcar & Eq). cbn [bhash e] in Eq.
  destruct (table_room _ _ _ _ _ (S q) Ht (wf_room m Hw)) as (k & Hk & Hke).
  rewrite (w_mask m Hw), Eq, (w_n m Hw), Nat2Z.id.
  destruct (set_loop_ok _ _ _ _ (length (hm_buckets m)) m q e k st (w_mask m Hw) (w_cmp m Hw) Hcar Hke Hk)
    as (bs' & Ht' & El' & [(Hf & Ei & E)|(y & l & Ey & Ei & Ei' & E)]); rewrite E; cbn [item e] in *; unfold abs.
  - rewrite abs_none by done. eexists. split; [reflexivity|].
    assert (u64 (hm_count m + 1) = Z.of_nat (length (items bs'))) as Eu.
    { pose proof (w_count m Hw). pose proof (wf_room m Hw). pose proof (t_len _ _ _ _ _ Ht).
      rewrite u64_small by lia. rewrite Ei. simpl. lia. }
    split; [|split; [|done]].
    + apply wf_buckets_count; try done. pose proof (w_count m Hw). rewrite Eu, Ei. simpl. lia.
    + fields. rewrite (abs_perm _ _ (t_keys _ _ _ _ _ Ht') Ei). done.
  - assert (abs_items (items (hm_buckets m)) !! key x = Some y) as Ea.
    { rewrite <-Ey. apply abs_lookup; [done|]. rewrite Ei. left. }
    rewrite Ea. eexists. split; [reflexivity|]. split; [|split; [|done]].
    + apply wf_buckets; try done. by rewrite Ei, Ei'.
    + fields. rewrite (abs_perm _ _ (t_keys _ _ _ _ _ Ht') Ei'), (abs_perm _ _ Hnd Ei).
      unfold abs_items. cbn. by rewrite Ey, insert_insert_eq.
Qed.

(** [hashmap_set]: the old item of the key is returned and the new one stored, or there was no
    memory for a larger table, and nothing is changed but the flag. *)
Lemma hashmap_set_ok m x st :
  wf m -> hm_count m < 2 ^ 14 ->
  exists r m' st', hashmap_set m (Some x) st = Ok (r, m') st' /\ wf m' /\
  if hm_oom m' then r = None /\ abs m' = abs m /\ hm_count m = hm_growat m /\ no_memory
  else r = abs m !! key x /\ abs m' = <[key x := x]> (abs m).
Proof.
  intros Hw Hc. unfold hashmap_set. set (m0 := set_oom false m).
  assert (wf m0) as Hw0 by (by apply wf_oom). change (hm_count m0) with (hm_count m).
  change (hm_growat m0) with (hm_growat m). change (hm_nbuckets m0) with (hm_nbuckets m).
  destruct (Z.eqb_spec (hm_count m) (hm_growat m)) as [Eg|Hg].
  - destruct (wf_pow m Hw) as (k & Hk & En). pose proof (w_grow m Hw) as Egr. rewrite En in Egr.
    replace (2 ^ Z.of_nat k) with (2 ^ Z.of_nat (k - 1) * 2) in Egr
      by (rewrite Z.mul_comm, <-Z.pow_succ_r by lia; f_equal; lia).
    rewrite Z.div_mul in Egr by lia.
    assert (k < 15)%nat as Hk15.
    { rewrite Eg, Egr in Hc. apply Z.pow_lt_mono_r_iff in Hc; lia. }
    assert (u64 (hm_nbuckets m * 2) = 2 ^ Z.of_nat (S k)) as ->.
    { rewrite En, Z.mul_comm, <-Z.pow_succ_r, <-Nat2Z.inj_succ by lia. apply u64_small.
      pose proof (Z.pow_le_mono_r 2 (Z.of_nat (S k)) 15 ltac:(lia) ltac:(lia)). lia. }
    assert (2 ^ Z.of_nat (S k) / 2 = 2 ^ Z.of_nat k) as Eh.
    { rewrite Nat2Z.inj_succ, Z.pow_succ_r, Z.mul_comm by lia. by rewrite Z.div_mul by lia. }
    assert (hm_count m < 2 ^ Z.of_nat k) as Hck.
    { rewrite Eg, Egr. apply Z.pow_lt_mono_r; lia. }
    destruct (resize_ok m0 (S k) st Hw0 ltac:(lia)) as (ok & m1 & st1 & Er & Hr).
    { rewrite Eh. unfold m0. fields. lia. }
    rewrite (bind_ok _ _ _ _ _ Er). destruct ok; cbv beta iota.
    + destruct Hr as (Hw1 & En1 & Ec1 & Ei1 & Eo1 & _).
      destruct (set_room m1 x st1 Hw1) as (m' & E & Hw' & Ea & Eo).
      { rewrite Ec1, (w_grow m1 Hw1), En1, Eh. exact Hck. }
      assert (abs m1 = abs m) as Eab.
      { unfold abs. apply abs_perm; [apply (t_keys _ _ _ _ _ (w_table m1 Hw1))|done]. }
      exists (abs m1 !! key x), m', st1. split; [exact E|]. split; [done|].
      rewrite Eo, Eo1. fields. by rewrite Ea, Eab.
    + destruct Hr as [-> Hm]. eexists None, _, st1. split; [reflexivity|]. split; [by apply wf_oom|]. done.
  - rewrite (bind_ok _ _ _ _ _ (ret_ok _ _)). cbv beta iota.
    destruct (set_room m0 x st Hw0) as (m' & E & Hw' & Ea & Eo).
    { pose proof (w_room m Hw). unfold m0. fields. lia. }
    exists (abs m0 !! key x), m', st. split; [exact E|]. split; [done|]. rewrite Eo. done.
Qed.

(** The probe of [hashmap_get] and [hashmap_delete] *)
Lemma probe_ok m x st :
  wf m ->
  exists r, probe_loop (Z.to_nat (hm_nbuckets m)) m (Z.land (get_hash m x) (hm_mask m)) (get_hash m x) x st
    = Ok r st /\ abs m !! key x = option_map (fun ib => item ib.2) r /\
  match r with
  | None => True
  | Some (i, b) => exists q, i = Z.of_nat (S q mod length (hm_buckets m)) /\
      b = slot (hm_buckets m) (S q) /\ dib b <> 0 /\ key (item b) = key x
  end.
Proof.
  intros Hw. pose proof (w_table m Hw) as Ht. pose proof (t_len _ _ _ _ _ Ht) as [Hl _].
  pose proof (t_keys _ _ _ _ _ Ht) as Hnd. rewrite (wf_hash48 m x Hw), (w_mask m Hw), (w_n m Hw), Nat2Z.id.
  set (h := hash48 hash (hm_seed0 m) (hm_seed1 m) x).
  rewrite land_pow2 by (apply Ht || apply hash48_range).
  destruct (decide (key x ∈ (key <$> items (hm_buckets m)))) as [Hin|Hin].
  - apply list_elem_of_fmap in Hin as (y & Ey & Hy). pose proof Hy as Hy'.
    apply items_slot in Hy as (r & Hr & Hd & Eit).
    destruct (home_run _ _ _ _ _ r Ht Hd) as (Em & Hrun). cbv zeta in *.
    assert (bhash (slot (hm_buckets m) r) = h) as Eh.
    { rewrite (t_hash _ _ _ _ _ Ht r Hd), Eit. by apply (hash48_key hash compare). }
    rewrite Eh in Em, Hrun. set (d := Z.to_nat (dib (slot (hm_buckets m) r) - 1)) in *.
    destruct (items_room _ (wf_room m Hw)) as (z & Hz & Hze).
    pose proof (robin_bound _ z r (t_robin _ _ _ _ _ Ht) Hz Hze). pose proof (t_dib _ _ _ _ _ Ht r).
    eexists. split.
    { apply (probe_hit hash compare _ _ _ m x (Z.to_nat h) d st (w_mask m Hw) (w_cmp m Hw) Ht Hrun);
        [by rewrite (slot_mod _ _ _ Em), Eit|unfold d; lia]. }
    cbn [option_map snd]. rewrite (slot_mod _ _ _ Em), Em. split.
    + rewrite Eit, Ey. by apply abs_lookup.
    + exists (r + length (hm_buckets m) - 1)%nat.
      replace (S (r + length (hm_buckets m) - 1)) with (r + length (hm_buckets m))%nat by lia.
      rewrite slot_period, Eit. split; [|done]. f_equal. symmetry.
      rewrite <-(Nat.mul_1_l (length (hm_buckets m))) at 1. apply Nat.Div0.mod_add.
  - destruct (table_room _ _ _ _ _ (Z.to_nat h) Ht (wf_room m Hw)) as (k & Hk & Hke).
    exists None. split; [|unfold abs; by rewrite abs_none].
    by apply (probe_miss hash compare _ _ _ m x (Z.to_nat h) k); try apply Hw.
Qed.

(** [hashmap_get]: the item of the key. *)
Lemma hashmap_get_ok m x st : wf m -> hashmap_get m (Some x) st = Ok (abs m !! key x) st.
Proof.
  intros Hw. destruct (probe_ok m x st Hw) as (r & E & Er & _). unfold hashmap_get.
  rewrite (bind_ok _ _ _ _ _ E). by rewrite Er.
Qed.

(** Deleting an item from the abstract map *)
Lemma abs_delete l l' x y :
  NoDup (key (K:=K) <$> l) -> l ≡ₚ y :: l' -> key y = key (K:=K) x -> abs_items l' = delete (key x) (abs_items l).
Proof.
  intros Hnd Hp Ek. rewrite (abs_perm _ _ Hnd Hp). unfold abs_items. cbn. rewrite Ek, delete_insert_id; [done|].
  apply abs_none. rewrite Hp in Hnd. cbn in Hnd. apply NoDup_cons in Hnd as [Hn _]. by rewrite <-Ek.
Qed.

(** The shrinking at the end of a deletion *)
Lemma shrink_ok m st :
  wf m ->
  exists ok m' st', (if (hm_cap m <? hm_nbuckets m) && (hm_count m <=? hm_shrinkat m)
      then resize m (hm_nbuckets m / 2) else ret (true, m)) st = Ok (ok, m') st' /\
    wf m' /\ abs m' = abs m /\ hm_count m' = hm_count m /\ hm_oom m' = hm_oom m.
Proof.
  intros Hw. destruct (_ && _) eqn:Eif; [|by exists true, m, st].
  apply andb_true_iff in Eif as [H1' H2']. apply Z.ltb_lt in H1'. apply Z.leb_le in H2'.
  pose proof (w_cap m Hw). rewrite (w_shrink m Hw) in H2'.
  destruct (wf_pow m Hw) as ([|k] & Hk & En); [lia|].
  assert (hm_nbuckets m / 2 = 2 ^ Z.of_nat k) as Eh.
  { rewrite En, Nat2Z.inj_succ, Z.pow_succ_r, Z.mul_comm by lia. by rewrite Z.div_mul by lia. }
  rewrite En in *. rewrite Eh.
  assert (4 <= k)%nat as Hk4.
  { assert (2 ^ 4 < 2 ^ Z.of_nat (S k)) as Hp by lia. apply Z.pow_lt_mono_r_iff in Hp; lia. }
  destruct (resize_ok m k st Hw ltac:(lia)) as (ok & m' & st' & Er & Hr).
  { assert (2 ^ Z.of_nat (S k) / 10 <= 2 ^ Z.of_nat k / 2); [|lia]. rewrite <-Eh, Z.div_div by lia.
    apply Z.div_le_compat_l; lia. }
  exists ok, m', st'. split; [done|]. destruct ok; [|by destruct Hr as [-> _]].
  destruct Hr as (Hw' & _ & Ec & Ei & Eo & _). split; [done|]. split; [|done].
  apply abs_perm; [apply (t_keys _ _ _ _ _ (w_table m' Hw'))|done].
Qed.

(** [hashmap_delete]: the item of the key is returned and removed; a table that has become too
    large is halved when there is memory. *)
Lemma hashmap_delete_ok m x st :
  wf m ->
  exists m' st', hashmap_delete m (Some x) st = Ok (abs m !! key x, m') st' /\ wf m' /\
    hm_oom m' = false /\ abs m' = delete (key x) (abs m) /\ hm_count m' <= hm_count m.
Proof.
  intros Hw. unfold hashmap_delete. set (m0 := set_oom false m).
  assert (wf m0) as Hw0 by (by apply wf_oom). pose proof (w_table m0 Hw0) as Ht.
  pose proof (t_keys _ _ _ _ _ Ht) as Hnd. pose proof (t_len _ _ _ _ _ Ht) as [Hl Hl'].
  destruct (probe_ok m0 x st Hw0) as (r & E & Er & Hr). change (abs m0) with (abs m) in Er.
  rewrite (bind_ok _ _ _ _ _ E). destruct r as [[i b]|]; cbn [option_map snd] in Er.
  2:{ exists m0, st. rewrite Er. split; [done|]. split; [done|]. split; [done|].
      split; [|done]. by rewrite delete_id. }
  destruct Hr as (q & -> & Eb & Hd & Ek). set (bs := hm_buckets m0) in *.
  destruct (items_room _ (wf_room m0 Hw0)) as (z & Hz & Hze).
  destruct (empty_ahead bs z (S q) Hz Hze) as ([|k] & Hk & Hke); [rewrite Nat.add_0_r in Hke; congruence|].
  set (bs1 := <[(S q mod length bs)%nat := set_dib 0 b]> bs).
  assert (length bs1 = length bs) as El1 by apply length_insert.
  assert (put_bucket (Z.of_nat (S q mod length bs)) (set_dib 0 b) m0 = set_buckets bs1 m0) as ->
    by (unfold put_bucket; by rewrite mod_idx).
  destruct (shift_loop_ok hash compare (hm_seed0 m) (hm_seed1 m) (Z.to_nat (hm_nbuckets m0)) (set_buckets bs1 m0) q k st)
    as (bs' & Ht' & El' & Ei' & Es); fields; fold bs; rewrite ?El1; try apply Hw0.
  { apply hole_put. apply (table_hole _ _ _ _ bs q z Ht Hz Hze). by rewrite <-Eb. }
  { apply ahead_insert; [lia|by rewrite <-Eb|done]. }
  { lia. }
  { rewrite (w_n m0 Hw0). fold bs. lia. }
  cbn [set_buckets hm_buckets] in Ei', El', Es. rewrite El1 in *. rewrite (bind_ok _ _ _ _ _ Es).
  unfold bs1 in Ei'. rewrite list_insert_insert_eq in Ei'.
  destruct (items_put bs (S q) zero_bucket ltac:(lia)) as (l & F1 & F2).
  rewrite <-Eb, load_item in F1 by done. change (load zero_bucket ++ l) with l in F2.
  cbn [app] in F1. rewrite F2 in Ei'.
  set (m1 := set_count (u64 (hm_count m0 - 1)) (set_buckets bs' m0)).
  assert (u64 (hm_count m0 - 1) = Z.of_nat (length (items bs'))) as Eu.
  { pose proof (w_count m0 Hw0) as Ec. fold bs in Ec. rewrite F1 in Ec. cbn [length] in Ec.
    pose proof (wf_room m0 Hw0) as Hr. fold bs in Hr. rewrite F1 in Hr. cbn [length] in Hr.
    rewrite u64_small by lia. rewrite Ei'. lia. }
  assert (hm_count m1 <= hm_count m) as Hcm.
  { unfold m1. fields. rewrite Eu, Ei'. change (hm_count m) with (hm_count m0). rewrite (w_count m0 Hw0).
    fold bs. rewrite F1. cbn [length]. lia. }
  assert (wf m1) as Hw1.
  { apply wf_buckets_count; try done. pose proof (w_room m0 Hw0). unfold m1 in Hcm. cbn [set_count hm_count] in Hcm.
    change (hm_count m) with (hm_count m0) in Hcm. lia. }
  destruct (shrink_ok m1 st Hw1) as (ok & m' & st' & Em & Hw' & Ea & Ec & Eo).
  exists m', st'. split; [|split; [done|split; [by rewrite Eo|split; [|by rewrite Ec]]]].
  - etransitivity; [apply bind_ok; exact Em|]. by rewrite Er.
  - rewrite Ea. apply (abs_delete _ (items bs') x (item b)); [exact Hnd| |done].
    change (items (hm_buckets m)) with (items bs). by rewrite Ei', F1.
Qed.

(** * Runs of operations *)

Inductive hop := HSet (x : T) | HGet (x : T) | HDelete (x : T).

(** The result of an operation, and whether an insertion reported that it had no memory. *)
Definition run_op m (o : hop) : M A ((option T * bool) * hashmap T) :=
  match o with
  | HSet x => '(r, m) ← hashmap_set m (Some x); ret ((r, hashmap_oom m), m)
  | HGet x => r ← hashmap_get m (Some x); ret ((r, false), m)
  | HDelete x => '(r, m) ← hashmap_delete m (Some x); ret ((r, false), m)
  end.

Fixpoint run_ops m (os : list hop) : M A (list (option T * bool) * hashmap T) :=
  match os with
  | [] => ret ([], m)
  | o :: os => '(r, m) ← run_op m o; '(rs, m) ← run_ops m os; ret (r :: rs, m)
  end.

(** The operations on a finite map; an insertion without memory does nothing. *)
Definition abs_op (M : gmap K T) (o : hop) (oom : bool) : option T * gmap K T :=
  match o with
  | HSet x => if oom then (None, M) else (M !! key x, <[key x := x]> M)
  | HGet x => (M !! key x, M)
  | HDelete x => (M !! key x, delete (key x) M)
  end.

Fixpoint abs_ops (M : gmap K T) (os : list (hop * bool)) : list (option T) * gmap K T :=
  match os with
  | [] => ([], M)
  | (o, oom) :: os =>
      let '(r, M1) := abs_op M o oom in let '(rs, M2) := abs_ops M1 os in (r :: rs, M2)
  end.

Lemma wf_size m : wf m -> hm_count m = Z.of_nat (size (abs m)).
Proof.
  intros Hw. rewrite (w_count m Hw). unfold abs. by rewrite (abs_size _ (t_keys _ _ _ _ _ (w_table m Hw))).
Qed.

Lemma run_op_ok m o st :
  wf m -> hm_count m < 2 ^ 14 ->
  exists r b m' st', run_op m o st = Ok ((r, b), m') st' /\ wf m' /\
    abs_op (abs m) o b = (r, abs m') /\ hm_count m' <= hm_count m + 1 /\ (b = true -> no_memory).
Proof.
  intros Hw Hc. pose proof (wf_size m Hw) as Es. destruct o as [x|x|x]; cbn [run_op abs_op].
  - destruct (hashmap_set_ok m x st Hw Hc) as (r & m' & st' & E & Hw' & Hr). pose proof (wf_size m' Hw') as Es'.
    exists r, (hm_oom m'), m', st'. rewrite (bind_ok _ _ _ _ _ E). split; [done|]. split; [done|].
    destruct (hm_oom m'); destruct Hr as [-> Hr].
    + destruct Hr as (Ea & _ & Hm). rewrite Es', Ea, <-Es. split; [done|]. split; [lia|done].
    + rewrite Hr. split; [done|]. split; [|done]. rewrite Es', Es, Hr, map_size_insert. destruct (abs m !! key x); unfold id; lia.
  - exists (abs m !! key x), false, m, st. rewrite (bind_ok _ _ _ _ _ (hashmap_get_ok m x st Hw)).
    split; [done|]. split; [done|]. split; [done|]. split; [lia|done].
  - destruct (hashmap_delete_ok m x st Hw) as (m' & st' & E & Hw' & Eo & Ea & Hc').
    exists (abs m !! key x), false, m', st'. rewrite (bind_ok _ _ _ _ _ E), Ea. split; [done|]. split; [done|].
    split; [done|]. split; [lia|done].
Qed.

Lemma run_ops_ok os m st :
  wf m -> hm_count m + Z.of_nat (length os) <= 2 ^ 14 ->
  exists rs m' st', run_ops m os st = Ok (rs, m') st' /\ wf m' /\ length rs = length os /\
    abs_ops (abs m) (zip os rs.*2) = (rs.*1, abs m') /\ (true ∈ rs.*2 -> no_memory).
Proof.
  revert m st. induction os as [|o os IH]; intros m st Hw Hc.
  { exists [], m, st. split; [done|]. split; [done|]. split; [done|]. split; [done|]. by intros ?%elem_of_nil. }
  cbn [length] in Hc. destruct (run_op_ok m o st Hw ltac:(lia)) as (r & b & m1 & st1 & E & Hw1 & Ea & Hc1 & Hb).
  destruct (IH m1 st1 Hw1 ltac:(lia)) as (rs & m' & st' & E' & Hw' & El & Ea' & Hbs).
  exists ((r, b) :: rs), m', st'. cbn [run_ops]. rewrite (bind_ok _ _ _ _ _ E), (bind_ok _ _ _ _ _ E').
  split; [done|]. split; [done|]. split; [by cbn; rewrite El|]. cbn [fmap list_fmap zip zip_with fst snd abs_ops]. split.
  - rewrite Ea. change (zip_with pair os (list_fmap _ _ snd rs)) with (zip os rs.*2). by rewrite Ea'.
  - intros [Hin|Hin]%elem_of_cons; auto.
Qed.

Lemma new_wf k elsize sd0 sd1 u bsz bat at_ :
  (4 <= k <= 15)%nat ->
  let m := mkmap false elsize (2 ^ Z.of_nat k) sd0 sd1 hash compare u bsz (2 ^ Z.of_nat k) 0
    (2 ^ Z.of_nat k - 1) (2 ^ Z.of_nat k / 2) (2 ^ Z.of_nat k / 10) (replicate (2 ^ k) zero_bucket) bat at_ in
  wf m /\ abs m = ∅.
Proof.
  intros Hk m. split; [|unfold abs; cbn [hm_buckets m]; by rewrite items_replicate].
  pose proof (Z.pow_le_mono_r 2 4 (Z.of_nat k) ltac:(lia) ltac:(lia)).
  split; unfold m; fields; rewrite ?length_replicate, ?pow2_Z, ?items_replicate; try done; try lia.
  - by apply table_replicate, pow2_ok.
  - apply Z.div_pos; lia.
Qed.

(** C15: The hash map refines a finite map.  For every sequence of insertions, lookups and
    deletions on a map that [hashmap_new] made (fewer than 2^14 of them, so that the 16-bit
    probe distances cannot overflow), each operation returns -- no loop runs forever, no
    bucket outside the table is touched -- and returns what the same operation on a finite
    map from keys to items returns: the item replaced, found or removed.  Growing, shrinking
    and moving buckets are invisible.  An insertion has no effect only when it reports that
    memory ran out, which happens only when the allocator can fail, and the count is the number
    of keys. *)
Theorem hashmap_refines elsize cap sd0 sd1 u os st :
  0 <= cap <= 2 ^ 15 -> Z.of_nat (length os) <= 2 ^ 14 ->
  exists om st1, hashmap_new elsize cap sd0 sd1 hash compare u st = Ok om st1 /\
  match om with
  | None => no_memory
  | Some m => exists rs m' st', run_ops m os st1 = Ok (rs, m') st' /\ length rs = length os /\
      abs_ops ∅ (zip os rs.*2) = (rs.*1, abs m') /\ (true ∈ rs.*2 -> no_memory) /\
      hashmap_count m' = Z.of_nat (size (abs m'))
  end.
Proof.
  intros Hcap Hlen. destruct (hashmap_new_ok elsize cap sd0 sd1 u st Hcap) as (om & st1 & E & Hom).
  exists om, st1. split; [done|]. destruct om as [m|]; [|done].
  destruct Hom as (k & bsz & bat & at_ & Hk & _ & _ & Em).
  destruct (new_wf k elsize sd0 sd1 u bsz bat at_ Hk) as [Hw Ha]. rewrite <-Em in Hw, Ha.
  destruct (run_ops_ok os m st1 Hw) as (rs & m' & st' & Er & Hw' & El & Eab & Hb).
  { rewrite (wf_size m Hw), Ha, map_size_empty. lia. }
  exists rs, m', st'. rewrite <-Ha. split; [done|]. split; [done|]. split; [done|]. split; [done|].
  by apply wf_size.
Qed.

(** [hashmap_scan] visits every item once, in the order of the buckets, until the callback
    says stop. *)
Fixpoint iterate {B} (iter : T -> B -> bool * B) (l : list T) (s : B) : bool * B :=
  match l with
  | [] => (true, s)
  | x :: l => let '(go, s) := iter x s in if go : bool then iterate iter l s else (false, s)
  end.

Lemma scan_loop_ok {B} n i m (iter : T -> B -> bool * B) s st :
  (i + n = length (hm_buckets m))%nat ->
  scan_loop n (Z.of_nat i) m iter s st = Ok (iterate iter (items (drop i (hm_buckets m))) s) st.
Proof.
  revert i s. induction n as [|n IH]; intros i s Hi; cbn [scan_loop].
  { by rewrite drop_ge by lia. }
  destruct (lookup_lt_is_Some_2 (hm_buckets m) i ltac:(lia)) as (b & Eb).
  unfold bucket_at. rewrite Nat2Z.id, Eb, (bind_ok _ _ _ _ _ (ret_ok _ _)).
  rewrite (drop_S _ _ _ Eb), items_cons. replace (Z.of_nat i + 1) with (Z.of_nat (S i)) by lia.
  destruct (Z.eqb_spec (dib b) 0) as [Hd|Hd].
  - rewrite load_none by done. apply IH. lia.
  - rewrite load_item by done. cbn. destruct (iter (item b) s) as [[|] s']; [|done]. apply IH. lia.
Qed.

Lemma hashmap_scan_ok {B} m (iter : T -> B -> bool * B) s st :
  wf m ->
  exists l, abs_items l = abs m /\ NoDup (key (K:=K) <$> l) /\ hashmap_scan m iter s st = Ok (iterate iter l s) st.
Proof.
  intros Hw. exists (items (hm_buckets m)). split; [done|]. split; [apply (t_keys _ _ _ _ _ (w_table m Hw))|].
  unfold hashmap_scan. rewrite (w_n m Hw), Nat2Z.id. apply (scan_loop_ok _ 0). lia.
Qed.
End spec.

(** * An example: all keys collide *)

#[local] Instance pair_key : HashKey (T:=Z * Z) (K:=Z) (fun _ _ _ => 5) (fun a b _ => a.1 - b.1).
Proof. refine {| key := fst |}; intros; [cbn; lia|done]. Defined.

(** An allocator that never fails *)
#[local] Instance bump : Hmalloc Z := { hmmalloc z s := (Some s, s + z); hmfree p s := s }.

Lemma hashmap_refines_witness :
  exists om st1, hashmap_new 16 0 0 0 (fun _ _ _ => 5) (fun a b _ => a.1 - b.1) 0 (0 : Z) = Ok om st1 /\
  match om with
  | None => no_memory (A:=Z)
  | Some m => exists rs m' st',
      run_ops m [HSet (1, 10); HSet (2, 20); HSet (1, 11); HGet (1, 0); HDelete (1, 0); HGet (1, 0)] st1
        = Ok (rs, m') st' /\ length rs = 6%nat /\
      abs_ops (K:=Z) (fun _ _ _ => 5) (fun a b _ => a.1 - b.1) ∅
        (zip [HSet (1, 10); HSet (2, 20); HSet (1, 11); HGet (1, 0); HDelete (1, 0); HGet (1, 0)] rs.*2)
        = (rs.*1, abs _ _ m') /\ (true ∈ rs.*2 -> no_memory (A:=Z)) /\
      hashmap_count m' = Z.of_nat (size (abs (K:=Z) (fun _ _ _ => 5) (fun a b _ => a.1 - b.1) m'))
  end.
Proof. apply hashmap_refines; cbn; lia. Defined.

Example collide :
  match hashmap_new 16 0 0 0 (fun _ _ _ => 5) (fun a b _ => a.1 - b.1) 0 (0 : Z) with
  | Ok (Some m) st => match run_ops m
      ((HSet ∘ (fun i => (Z.of_nat i, 7)) <$> seq 0 9) ++ [HDelete (3, 0); HGet (3, 0); HGet (8, 0)]) st with
    | Ok (rs, m') _ => drop 9 rs.*1 = [Some (3, 7); None; Some (8, 7)] /\ hm_nbuckets m' = 32
    | _ => False end
  | _ => False
  end.
Proof. vm_compute. auto. Qed.
