(* ===== verification/Syscall.v ===== *)
(** System calls: kernel/sys/syscall.c and kernel/sys/sysproc.c.

    The kernel as the system calls see it: the processes of Proc.v over an environment in
    which the words of the trap frames are memory ([kenv]), and the clock.  A call reads its
    number and its arguments from the trap frame of its process and leaves its result there.
    The calls on files, on sockets and [exec] are the entries [sys_other] of the table; they
    are modelled in the files Sysfile, File, Socket and Exec.  A call that gives up the
    processor ends in [Sleep], with the state it left. *)

From S2P Require Import Prelude Proc.

(** The environment of Proc.v with the physical memory that holds the trap frames and the
    kernel stacks, one value for each word. *)
Record kenv (R : Type) := mkenv { words : Z -> Z; rest : R }.
Arguments mkenv {R}. Arguments words {R}. Arguments rest {R}.

Section lift.
Context {R : Type}.
Definition restM {B} (m : M R B) : M (kenv R) B := fun e =>
  match m (rest e) with
  | Ok a r => Ok a (mkenv (words e) r)
  | Panic msg => Panic msg
  | Sleep r => Sleep (mkenv (words e) r)
  | OutOfFuel => OutOfFuel
  | Undef => Undef
  end.
Definition load_word (a : Z) : M (kenv R) Z := gets (fun e => words e a).
Definition store_word (a v : Z) : M (kenv R) unit := modify (fun e => mkenv (fupd (words e) a v) (rest e)).
End lift.

(** The 36 words of a trap frame *)
Definition TF_WORDS : nat := 36.

Fixpoint copy_words {R} (n : nat) (dst src : Z) : M (kenv R) unit :=
  match n with
  | O => ret tt
  | S n => v ← load_word src; store_word dst v;; copy_words n (dst + 8) (src + 8)
  end.

#[export] Instance kenv_procenv {R} `{!ProcEnv R} : ProcEnv (kenv R) := {
  pe_ufkalloc := restM pe_ufkalloc;
  pe_ufkfree a := restM (pe_ufkfree a);
  pe_uvmcreate := restM pe_uvmcreate;
  pe_mappages pt va n pa perm := restM (pe_mappages pt va n pa perm);
  pe_uvmunmap pt va n f := restM (pe_uvmunmap pt va n f);
  pe_uvmfree pt n := restM (pe_uvmfree pt n);
  pe_uvmcopy o n z := restM (pe_uvmcopy o n z);
  pe_uvminit pt c := restM (pe_uvminit pt c);
  pe_uvmalloc pt o n := restM (pe_uvmalloc pt o n);
  pe_uvmdealloc pt o n := restM (pe_uvmdealloc pt o n);
  pe_copyout pt a d := restM (pe_copyout pt a d);
  pe_tf_copy d s := copy_words TF_WORDS d s;
  pe_tf_set t off v := store_word (t + off) v;
  pe_filedup f := restM (pe_filedup f);
  pe_fileclose f := restM (pe_fileclose f);
  pe_idup d := restM (pe_idup d);
  pe_iput d := restM (pe_iput d);
  pe_root := restM pe_root;
}.

Definition TF_A7 : Z := 168.

(** The channel [&ticks]; its address is of no consequence but that nothing else sleeps there. *)
Definition TICKS : chan := ChAddr 0.

(** [NUM_LOOP] of [sys_calc] *)
Definition calc_loops (num : Z) : Z := Z.quot 1000000000 num.

Section syscall.
Context {R : Type} `{!ProcEnv R} (trampoline forkret : Z).

Record sysst := mksys { kp : pst (kenv R); ticks : Z }.

Definition procM {B} (m : M (pst (kenv R)) B) : M sysst B := fun s =>
  match m (kp s) with
  | Ok a p => Ok a (mksys p (ticks s))
  | Panic msg => Panic msg
  | Sleep p => Sleep (mksys p (ticks s))
  | OutOfFuel => OutOfFuel
  | Undef => Undef
  end.

(** A word of the trap frame of process [me] *)
Definition tf_get (me : nat) (off : Z) : M sysst Z :=
  p ← procM (get_proc me); procM (envM (load_word (tf p + off))).
Definition tf_put (me : nat) (off v : Z) : M sysst unit :=
  p ← procM (get_proc me); procM (envM (pe_tf_set (tf p) off v)).

Definition argraw (me : nat) (n : Z) : M sysst Z :=
  if n =? 0 then tf_get me 112
  else if n =? 1 then tf_get me 120
  else if n =? 2 then tf_get me 128
  else if n =? 3 then tf_get me 136
  else if n =? 4 then tf_get me 144
  else if n =? 5 then tf_get me 152
  else panic "argraw".

(** [argint] and [argaddr] always succeed. *)
Definition argint (me : nat) (n : Z) : M sysst Z := v ← argraw me n; ret (s32 v).
Definition argaddr (me : nat) (n : Z) : M sysst Z := argraw me n.

(** ** sysproc.c *)

(** [exit] does not return: the process is a zombie when it leaves the processor. *)
Definition exit_now {B} (me : nat) (status : Z) : M sysst B := procM (exit me status);; block.

Definition sys_exit (me : nat) : M sysst Z := n ← argint me 0; exit_now me n.

Definition sys_getpid (me : nat) : M sysst Z := p ← procM (get_proc me); ret (pid p).

Definition sys_fork (me : nat) : M sysst Z := procM (fork trampoline forkret me).

(** One round of [wait]: when it sleeps, the loop goes on when the process is woken. *)
Definition sys_wait (me : nat) : M sysst Z :=
  p ← argaddr me 0;
  r ← procM (wait me p);
  match r with WDone r => ret r | WSleep => block end.

(** The old size is returned as an [int]. *)
Definition sys_sbrk (me : nat) : M sysst Z :=
  n ← argint me 0;
  p ← procM (get_proc me);
  let addr := s32 (sz p) in
  r ← procM (growproc me n);
  if r <? 0 then ret (-1) else ret addr.

(** The loop of [sys_sleep] from one sleep to the next: [ticks - ticks0 < n] compares as
    unsigned numbers of 32 bits. *)
Definition sleep_round (me : nat) (ticks0 n : Z) : M sysst wait_result :=
  t ← gets ticks;
  if u32 (t - ticks0) <? u32 n then
    p ← procM (get_proc me);
    if killed p then ret (WDone (-1))
    else procM (sleep me TICKS);; ret WSleep
  else ret (WDone 0).

Definition sys_sleep (me : nat) : M sysst Z :=
  n ← argint me 0;
  ticks0 ← gets ticks;
  r ← sleep_round me ticks0 n;
  match r with WDone r => ret r | WSleep => block end.

Definition sys_kill (me : nat) : M sysst Z := pid ← argint me 0; procM (kill pid).

Definition sys_uptime (me : nat) : M sysst Z := gets ticks.

(** ** syscall.c *)

Definition sys_calc (me : nat) : M sysst Z :=
  num ← argint me 0;
  if num =? 0 then undef
  else ret (Z.iter (calc_loops num) (fun res => u64 (res + 1)) 0).

(** The calls on files and sockets, and [exec] *)
Context (sys_other : Z -> nat -> M sysst Z).

Definition NSYSCALLS : Z := 28.

Definition syscalls (num : Z) : nat -> M sysst Z :=
  if num =? 1 then sys_fork
  else if num =? 2 then sys_exit
  else if num =? 3 then sys_wait
  else if num =? 6 then sys_kill
  else if num =? 11 then sys_getpid
  else if num =? 12 then sys_sbrk
  else if num =? 13 then sys_sleep
  else if num =? 14 then sys_uptime
  else if num =? 26 then sys_calc
  else sys_other num.

(** Every entry of the table but the first is filled.  The message about an unknown call is
    left out. *)
Definition syscall (me : nat) : M sysst unit :=
  v ← tf_get me TF_A7;
  let num := s32 v in
  if (0 <? num) && (num <? NSYSCALLS) then
    r ← syscalls num me; tf_put me TF_A0 (u64 r)
  else tf_put me TF_A0 (u64 (-1)).
End syscall.
Arguments sysst : clear implicits.
