(* ===== verification/Trap.v ===== *)
(** Traps: kernel/trap.c, with kernel/trampoline.S and the entry and exit of
    kernel/kernelvec.S.

    A hart has its integer registers, its program counter and the supervisor CSRs that the
    kernel uses; [trap_enter] and [sret] are what the processor does.  The assembly is the
    list of its instructions, run by a small interpreter; a load or store goes through the
    page table in force, [trans].  The C functions read and write the CSRs as the code does.
    Three things are parameters: the interrupt controller, what a device handler does, and
    what happens between a [yield] and the moment the process runs again ([resched]), which
    may be on another hart. *)

From S2P Require Import Prelude Proc HashMap Syscall.

(** * The processor *)

(** Register numbers *)
Definition ra : nat := 1.
Definition sp : nat := 2.
Definition gp : nat := 3.
Definition tp : nat := 4.
Definition t0 : nat := 5.
Definition t1 : nat := 6.
Definition t2 : nat := 7.
Definition s0 : nat := 8.
Definition s1 : nat := 9.
Definition a0 : nat := 10.
Definition a1 : nat := 11.
Definition a2 : nat := 12.
Definition a3 : nat := 13.
Definition a4 : nat := 14.
Definition a5 : nat := 15.
Definition a6 : nat := 16.
Definition a7 : nat := 17.
Definition s2 : nat := 18.
Definition s3 : nat := 19.
Definition s4 : nat := 20.
Definition s5 : nat := 21.
Definition s6 : nat := 22.
Definition s7 : nat := 23.
Definition s8 : nat := 24.
Definition s9 : nat := 25.
Definition s10 : nat := 26.
Definition s11 : nat := 27.
Definition t3 : nat := 28.
Definition t4 : nat := 29.
Definition t5 : nat := 30.
Definition t6 : nat := 31.

(** [umode]: the hart runs in user mode. *)
Record hart := mkhart {
  regs : nat -> Z; pc : Z; umode : bool;
  sstatus : Z; sie : Z; sip : Z; stvec : Z; sepc : Z; scause : Z; stval : Z; satp : Z; sscratch : Z }.

Definition set_regs x h := mkhart x (pc h) (umode h) (sstatus h) (sie h) (sip h) (stvec h) (sepc h) (scause h) (stval h) (satp h) (sscratch h).
Definition set_pc x h := mkhart (regs h) x (umode h) (sstatus h) (sie h) (sip h) (stvec h) (sepc h) (scause h) (stval h) (satp h) (sscratch h).
Definition w_sstatus x h := mkhart (regs h) (pc h) (umode h) x (sie h) (sip h) (stvec h) (sepc h) (scause h) (stval h) (satp h) (sscratch h).
Definition w_sie x h := mkhart (regs h) (pc h) (umode h) (sstatus h) x (sip h) (stvec h) (sepc h) (scause h) (stval h) (satp h) (sscratch h).
Definition w_sip x h := mkhart (regs h) (pc h) (umode h) (sstatus h) (sie h) x (stvec h) (sepc h) (scause h) (stval h) (satp h) (sscratch h).
Definition w_stvec x h := mkhart (regs h) (pc h) (umode h) (sstatus h) (sie h) (sip h) x (sepc h) (scause h) (stval h) (satp h) (sscratch h).
Definition w_sepc x h := mkhart (regs h) (pc h) (umode h) (sstatus h) (sie h) (sip h) (stvec h) x (scause h) (stval h) (satp h) (sscratch h).
Definition w_satp x h := mkhart (regs h) (pc h) (umode h) (sstatus h) (sie h) (sip h) (stvec h) (sepc h) (scause h) (stval h) x (sscratch h).
Definition w_sscratch x h := mkhart (regs h) (pc h) (umode h) (sstatus h) (sie h) (sip h) (stvec h) (sepc h) (scause h) (stval h) (satp h) x.

Definition SSTATUS_SPP : Z := Z.shiftl 1 8.
Definition SSTATUS_SPIE : Z := Z.shiftl 1 5.
Definition SSTATUS_SIE : Z := Z.shiftl 1 1.
Definition SIE_SEIE : Z := Z.shiftl 1 9.
Definition SIE_STIE : Z := Z.shiftl 1 5.
Definition SIE_SSIE : Z := Z.shiftl 1 1.

Definition MAKE_SATP (pagetable : Z) : Z := Z.lor (Z.shiftl 8 60) (Z.shiftr pagetable 12).

Definition set_bit (n : Z) (b : bool) (x : Z) : Z := if b then Z.lor x (2 ^ n) else Z.ldiff x (2 ^ n).

(** A trap to supervisor mode: SPIE takes SIE, SIE is cleared, SPP is the mode left. *)
Definition trap_enter (cause tval : Z) (h : hart) : hart :=
  mkhart (regs h) (stvec h) false
    (set_bit 8 (negb (umode h)) (set_bit 1 false (set_bit 5 (Z.testbit (sstatus h) 1) (sstatus h))))
    (sie h) (sip h) (stvec h) (pc h) cause tval (satp h) (sscratch h).

(** The return: SIE takes SPIE, SPIE is set, SPP cleared. *)
Definition sret (h : hart) : hart :=
  mkhart (regs h) (sepc h) (negb (Z.testbit (sstatus h) 8))
    (set_bit 8 false (set_bit 5 true (set_bit 1 (Z.testbit (sstatus h) 5) (sstatus h))))
    (sie h) (sip h) (stvec h) (sepc h) (scause h) (stval h) (satp h) (sscratch h).

Definition intr_on (h : hart) : hart :=
  let h := w_sie (Z.lor (Z.lor (Z.lor (sie h) SIE_SEIE) SIE_STIE) SIE_SSIE) h in
  w_sstatus (Z.lor (sstatus h) SSTATUS_SIE) h.
Definition intr_off (h : hart) : hart := w_sstatus (Z.ldiff (sstatus h) SSTATUS_SIE) h.
Definition intr_get (h : hart) : bool := negb (Z.land (sstatus h) SSTATUS_SIE =? 0).

(** * Device interrupts *)

Record devintr_map := mkdev { irq : Z; callback : Z }.
#[export] Instance devintr_map_inhabited : Inhabited devintr_map := populate (mkdev 0 0).

(** The key of the hash is the four bytes of [irq]. *)
Definition devintr_hash (m : devintr_map) (seed0 seed1 : Z) : Z := hashmap_sip (le_enc 4 (irq m)) 4 0 0.
Definition devintr_compare (ma mb : devintr_map) (udata : Z) : Z := if irq ma =? irq mb then 0 else 1.

Definition UART0_IRQ : Z := 10.
Definition VIRTIO0_IRQ : Z := 1.

(** * The instructions of the assembly files *)

Inductive csr := CSR_sscratch | CSR_satp.

Inductive instr :=
| SD (rs : nat) (off : Z) (base : nat)
| LD (rd : nat) (off : Z) (base : nat)
| ADDI (rd rs : nat) (imm : Z)
| CSRRW (rd : nat) (c : csr) (rs : nat)
| CSRR (rd : nat) (c : csr)
| CSRW (c : csr) (rs : nat)
| SFENCE_VMA
| JR (rs : nat).

(** trampoline.S *)
Definition uservec : list instr := [
  CSRRW a0 CSR_sscratch a0;
  SD ra 40 a0; SD sp 48 a0; SD gp 56 a0; SD tp 64 a0; SD t0 72 a0; SD t1 80 a0; SD t2 88 a0;
  SD s0 96 a0; SD s1 104 a0; SD a1 120 a0; SD a2 128 a0; SD a3 136 a0; SD a4 144 a0;
  SD a5 152 a0; SD a6 160 a0; SD a7 168 a0; SD s2 176 a0; SD s3 184 a0; SD s4 192 a0;
  SD s5 200 a0; SD s6 208 a0; SD s7 216 a0; SD s8 224 a0; SD s9 232 a0; SD s10 240 a0;
  SD s11 248 a0; SD t3 256 a0; SD t4 264 a0; SD t5 272 a0; SD t6 280 a0;
  CSRR t0 CSR_sscratch; SD t0 112 a0;
  LD sp 8 a0; LD tp 32 a0; LD t0 16 a0; LD t1 0 a0;
  CSRW CSR_satp t1; SFENCE_VMA; JR t0 ].

(** Up to the final [sret] *)
Definition userret : list instr := [
  CSRW CSR_satp a1; SFENCE_VMA;
  LD t0 112 a0; CSRW CSR_sscratch t0;
  LD ra 40 a0; LD sp 48 a0; LD gp 56 a0; LD tp 64 a0; LD t0 72 a0; LD t1 80 a0; LD t2 88 a0;
  LD s0 96 a0; LD s1 104 a0; LD a1 120 a0; LD a2 128 a0; LD a3 136 a0; LD a4 144 a0;
  LD a5 152 a0; LD a6 160 a0; LD a7 168 a0; LD s2 176 a0; LD s3 184 a0; LD s4 192 a0;
  LD s5 200 a0; LD s6 208 a0; LD s7 216 a0; LD s8 224 a0; LD s9 232 a0; LD s10 240 a0;
  LD s11 248 a0; LD t3 256 a0; LD t4 264 a0; LD t5 272 a0; LD t6 280 a0;
  CSRRW a0 CSR_sscratch a0 ].

(** kernelvec.S, before and after the call of [kerneltrap] *)
Definition kernelvec_save : list instr := [
  ADDI sp sp (-256);
  SD ra 0 sp; SD sp 8 sp; SD gp 16 sp; SD tp 24 sp; SD t0 32 sp; SD t1 40 sp; SD t2 48 sp;
  SD s0 56 sp; SD s1 64 sp; SD a0 72 sp; SD a1 80 sp; SD a2 88 sp; SD a3 96 sp; SD a4 104 sp;
  SD a5 112 sp; SD a6 120 sp; SD a7 128 sp; SD s2 136 sp; SD s3 144 sp; SD s4 152 sp;
  SD s5 160 sp; SD s6 168 sp; SD s7 176 sp; SD s8 184 sp; SD s9 192 sp; SD s10 200 sp;
  SD s11 208 sp; SD t3 216 sp; SD t4 224 sp; SD t5 232 sp; SD t6 240 sp ].

Definition kernelvec_restore : list instr := [
  LD ra 0 sp; LD sp 8 sp; LD gp 16 sp; LD t0 32 sp; LD t1 40 sp; LD t2 48 sp;
  LD s0 56 sp; LD s1 64 sp; LD a0 72 sp; LD a1 80 sp; LD a2 88 sp; LD a3 96 sp; LD a4 104 sp;
  LD a5 112 sp; LD a6 120 sp; LD a7 128 sp; LD s2 136 sp; LD s3 144 sp; LD s4 152 sp;
  LD s5 160 sp; LD s6 168 sp; LD s7 176 sp; LD s8 184 sp; LD s9 192 sp; LD s10 200 sp;
  LD s11 208 sp; LD t3 216 sp; LD t4 224 sp; LD t5 232 sp; LD t6 240 sp;
  ADDI sp sp 256 ].

(** * The kernel *)

(** The addresses of the entry points; [uservec_off] and [userret_off] are the offsets of
    [uservec] and [userret] from [trampoline]. *)
Record addrs := mkaddrs {
  kernelvec_at : Z; usertrap_at : Z; uservec_off : Z; userret_off : Z; uartintr_at : Z; virtio_disk_intr_at : Z }.

Section trap.
Context {R : Type} `{!ProcEnv R} {A : Type} `{!Hmalloc A} (trampoline forkret : Z)
  (sys_other : Z -> nat -> M (sysst R) Z) (ad : addrs)
  (trans : Z -> Z -> option Z).

(** A hart, the kernel's data, the interrupt handlers with the allocator of their table, and
    the process that each hart runs. *)
Record mach := mkmach {
  hrt : hart; ks : sysst R; devintr_callbacks : option (hashmap devintr_map); hmst : A; cpus : Z -> option nat }.

Definition hartM (f : hart -> hart) : M mach unit :=
  modify (fun m => mkmach (f (hrt m)) (ks m) (devintr_callbacks m) (hmst m) (cpus m)).
Definition csrr {B} (f : hart -> B) : M mach B := gets (fun m => f (hrt m)).

Definition sysM {B} (f : M (sysst R) B) : M mach B := fun m =>
  match f (ks m) with
  | Ok a k => Ok a (mkmach (hrt m) k (devintr_callbacks m) (hmst m) (cpus m))
  | Panic msg => Panic msg
  | Sleep k => Sleep (mkmach (hrt m) k (devintr_callbacks m) (hmst m) (cpus m))
  | OutOfFuel => OutOfFuel
  | Undef => Undef
  end.
Definition hmM {B} (f : M A B) : M mach B := fun m =>
  match f (hmst m) with
  | Ok a k => Ok a (mkmach (hrt m) (ks m) (devintr_callbacks m) k (cpus m))
  | Panic msg => Panic msg
  | Sleep k => Sleep (mkmach (hrt m) (ks m) (devintr_callbacks m) k (cpus m))
  | OutOfFuel => OutOfFuel
  | Undef => Undef
  end.

(** ** Running the assembly *)

Definition rget (h : hart) (r : nat) : Z := regs h r.
Definition rset (r : nat) (v : Z) (h : hart) : hart :=
  set_regs (fun i => if decide (i = r) then v else regs h i) h.
Definition csr_get (c : csr) (h : hart) : Z := match c with CSR_sscratch => sscratch h | CSR_satp => satp h end.
Definition csr_set (c : csr) (v : Z) (h : hart) : hart :=
  match c with CSR_sscratch => w_sscratch v h | CSR_satp => w_satp v h end.

(** An address that is not mapped: the page fault cannot be served here. *)
Definition translate (va : Z) : M mach Z :=
  st ← csrr satp; match trans st (u64 va) with Some pa => ret pa | None => undef end.
Definition memM {B} (f : M (kenv R) B) : M mach B := sysM (procM (envM f)).

Definition step (i : instr) : M mach unit :=
  match i with
  | SD rs off base =>
      b ← csrr (fun h => rget h base); v ← csrr (fun h => rget h rs);
      pa ← translate (b + off); memM (store_word pa v)
  | LD rd off base =>
      b ← csrr (fun h => rget h base);
      pa ← translate (b + off); v ← memM (load_word pa); hartM (rset rd v)
  | ADDI rd rs imm => v ← csrr (fun h => rget h rs); hartM (rset rd (u64 (v + imm)))
  | CSRRW rd c rs =>
      v ← csrr (fun h => rget h rs); o ← csrr (csr_get c); hartM (csr_set c v);; hartM (rset rd o)
  | CSRR rd c => o ← csrr (csr_get c); hartM (rset rd o)
  | CSRW c rs => v ← csrr (fun h => rget h rs); hartM (csr_set c v)
  | SFENCE_VMA => ret tt
  | JR rs => v ← csrr (fun h => rget h rs); hartM (set_pc v)
  end.

Fixpoint run (l : list instr) : M mach unit :=
  match l with
  | [] => ret tt
  | i :: l => step i;; run l
  end.

(** ** What trap.c calls *)

Context (plic_claim : M mach Z) (plic_complete : Z -> M mach unit)
  (call : Z -> M mach unit)
  (resched : nat -> M mach unit)
  (clobber : (nat -> Z) -> (nat -> Z)).

Definition cpuid : M mach Z := csrr (fun h => rget h tp).
Definition myproc : M mach (option nat) := id ← cpuid; gets (fun m => cpus m id).

(** The process gives up the processor and, later, runs again. *)
Definition yield_cpu (me : nat) : M mach unit := sysM (procM (yield me));; resched me.

(** ** Device interrupts *)

Definition devintr_register_callback (i cb : Z) : M mach (option devintr_map) :=
  om ← gets devintr_callbacks;
  match om with
  | None => undef
  | Some map =>
      '(r, map) ← hmM (hashmap_set map (Some (mkdev i cb)));
      modify (fun m => mkmach (hrt m) (ks m) (Some map) (hmst m) (cpus m));;
      ret r
  end.

Definition SIZEOF_DEVINTR_MAP : Z := 16.

Definition trapinit : M mach unit :=
  om ← hmM (hashmap_new SIZEOF_DEVINTR_MAP 0 0 0 devintr_hash devintr_compare 0);
  modify (fun m => mkmach (hrt m) (ks m) om (hmst m) (cpus m));;
  match om with
  | None => panic "cannot init devintr_callbacks hashmap"
  | Some _ =>
      devintr_register_callback UART0_IRQ (uartintr_at ad);;
      devintr_register_callback VIRTIO0_IRQ (virtio_disk_intr_at ad);;
      ret tt
  end.

Definition trapinithart : M mach unit := hartM (w_stvec (kernelvec_at ad)).

Definition clockintr : M mach unit :=
  sysM (modify (fun k => mksys (kp k) (u32 (ticks k + 1)));; procM (wakeup TICKS)).

Definition devintr : M mach Z :=
  cause ← csrr scause;
  if negb (Z.land cause 0x8000000000000000 =? 0) && (Z.land cause 0xff =? 9) then
    i ← plic_claim;
    om ← gets devintr_callbacks;
    match om with
    | None => undef
    | Some tbl =>
        r ← hmM (hashmap_get tbl (Some (mkdev i 0)));
        match r with Some map => call (callback map) | None => ret tt end;;
        plic_complete i;;
        ret 1
    end
  else if cause =? 0x8000000000000001 then
    id ← cpuid;
    when (id =? 0) clockintr;;
    hartM (fun h => w_sip (Z.ldiff (sip h) 2) h);;
    ret 2
  else ret 0.

(** ** User traps *)

(** Ends with the jump to [userret] of the trampoline, with its two arguments; what the other
    registers hold then is [clobber]'s. *)
Definition usertrapret : M mach unit :=
  op ← myproc;
  match op with
  | None => undef
  | Some me =>
      hartM intr_off;;
      hartM (w_stvec (TRAMPOLINE + uservec_off ad));;
      st ← csrr satp;
      sysM (tf_put me 0 st);;
      p ← sysM (procM (get_proc me));
      sysM (tf_put me 8 (u64 (kstack p + PGSIZE)));;
      sysM (tf_put me 16 (usertrap_at ad));;
      id ← cpuid;
      sysM (tf_put me 32 id);;
      x ← csrr sstatus;
      let x := Z.ldiff x SSTATUS_SPP in
      let x := Z.lor x SSTATUS_SPIE in
      hartM (w_sstatus x);;
      epc ← sysM (tf_get me TF_EPC);
      hartM (w_sepc epc);;
      hartM (fun h => set_regs (clobber (regs h)) h);;
      hartM (rset a0 TRAPFRAME);;
      hartM (rset a1 (MAKE_SATP (pagetable p)));;
      hartM (set_pc (TRAMPOLINE + userret_off ad))
  end.

(** The messages about an unexpected trap are left out. *)
Definition usertrap : M mach unit :=
  ss ← csrr sstatus;
  if negb (Z.land ss SSTATUS_SPP =? 0) then panic "usertrap: not from user mode"
  else
    hartM (w_stvec (kernelvec_at ad));;
    op ← myproc;
    match op with
    | None => undef
    | Some me =>
        epc ← csrr sepc;
        sysM (tf_put me TF_EPC epc);;
        cause ← csrr scause;
        which_dev ←
          (if cause =? 8 then
             p ← sysM (procM (get_proc me));
             when (killed p) (sysM (exit_now me (-1)));;
             e ← sysM (tf_get me TF_EPC);
             sysM (tf_put me TF_EPC (u64 (e + 4)));;
             hartM intr_on;;
             sysM (syscall trampoline forkret sys_other me);;
             ret 0
           else
             d ← devintr;
             when (d =? 0) (sysM (procM (mod_proc me (set_killed true))));;
             ret d);
        p ← sysM (procM (get_proc me));
        when (killed p) (sysM (exit_now me (-1)));;
        when (which_dev =? 2) (yield_cpu me);;
        usertrapret
    end.

(** Code that starts at address [a] runs only when the hart is there. *)
Definition at_pc (a : Z) (x : M mach unit) : M mach unit :=
  p ← csrr pc; if p =? a then x else undef.

(** A trap from user space, from the instruction it interrupts to the return. *)
Definition user_trap (cause tval : Z) : M mach unit :=
  hartM (trap_enter cause tval);;
  at_pc (TRAMPOLINE + uservec_off ad) (run uservec);;
  at_pc (usertrap_at ad) usertrap;;
  at_pc (TRAMPOLINE + userret_off ad) (run userret);;
  hartM sret.

(** ** Kernel traps *)

Definition kerneltrap : M mach unit :=
  epc ← csrr sepc;
  ss ← csrr sstatus;
  cause ← csrr scause;
  if Z.land ss SSTATUS_SPP =? 0 then panic "kerneltrap: not from supervisor mode"
  else
    on ← csrr intr_get;
    if on : bool then panic "kerneltrap: interrupts enabled"
    else
      which_dev ← devintr;
      if which_dev =? 0 then panic "kerneltrap"
      else
        op ← myproc;
        match op with
        | Some me =>
            p ← sysM (procM (get_proc me));
            when ((which_dev =? 2) && is_state RUNNING p) (yield_cpu me)
        | None => ret tt
        end;;
        hartM (w_sepc epc);;
        hartM (w_sstatus ss).

(** A trap from the kernel: [kernelvec] calls [kerneltrap], which may clobber every register
    that the calling convention does not protect; [clobber] keeps the stack pointer. *)
Definition kernel_trap (cause tval : Z) : M mach unit :=
  hartM (trap_enter cause tval);;
  at_pc (kernelvec_at ad) (run kernelvec_save);;
  kerneltrap;;
  hartM (fun h => set_regs (clobber (regs h)) h);;
  run kernelvec_restore;;
  hartM sret.
End trap.

(** [scause_desc] *)
Definition intr_desc (code : Z) : string :=
  if code =? 0 then "user software interrupt"
  else if code =? 1 then "supervisor software interrupt"
  else if code =? 4 then "user timer interrupt"
  else if code =? 5 then "supervisor timer interrupt"
  else if code =? 8 then "user external interrupt"
  else if code =? 9 then "supervisor external interrupt"
  else "<reserved for future standard use>".

Definition nointr_desc (code : Z) : string :=
  if code =? 0 then "instruction address misaligned"
  else if code =? 1 then "instruction access fault"
  else if code =? 2 then "illegal instruction"
  else if code =? 3 then "breakpoint"
  else if code =? 4 then "load address misaligned"
  else if code =? 5 then "load access fault"
  else if code =? 6 then "store/AMO address misaligned"
  else if code =? 7 then "store/AMO access fault"
  else if code =? 8 then "environment call from U-mode"
  else if code =? 9 then "environment call from S-mode"
  else if code =? 12 then "instruction page fault"
  else if code =? 13 then "load page fault"
  else if code =? 15 then "store/AMO page fault"
  else "<reserved for future standard use>".

Definition scause_desc (stval : Z) : string :=
  let interrupt := Z.land stval 0x8000000000000000 in
  let code := Z.ldiff stval 0x8000000000000000 in
  if negb (interrupt =? 0) then
    if code <? 16 then intr_desc code else "<reserved for platform use>"
  else if code <? 16 then nointr_desc code
  else if code <=? 23 then "<reserved for future standard use>"
  else if code <=? 31 then "<reserved for custom use>"
  else if code <=? 47 then "<reserved for future standard use>"
  else if code <=? 63 then "<reserved for custom use>"
  else "<reserved for future standard use>".
