(* ===== verification/TrapSpec.v ===== *)
(** Traps are transparent: theorems on Trap.v.

    A trap from user space comes back to the interrupted program with all its registers, in
    user mode, on its own page table, with interrupts enabled, and with the trampoline ready
    for the next trap; a system call comes back after the [ecall], with its result in [a0].
    A trap from the kernel comes back with all registers but the hart's number.  An
    interrupt of a device runs the handler that was registered for it. *)

From S2P Require Import Prelude Proc HashMap HashMapTable HashMapSpec Syscall Trap.

(** The interrupt handlers are kept by their number. *)
#[export] Instance devintr_key : HashKey (K:=Z) devintr_hash devintr_compare.
Proof.
  refine {| key := irq |}.
  - intros a b u. unfold devintr_compare. destruct (Z.eqb_spec (irq a) (irq b)); naive_solver.
  - intros a b sd0 sd1 E. unfold devintr_hash. by rewrite E.
Defined.

Section machine.
Context {R : Type} `{!ProcEnv R} {A : Type} `{!Hmalloc A} (trampoline forkret : Z)
  (sys_other : Z -> nat -> M (sysst R) Z) (ad : addrs) (trans : Z -> Z -> option Z).
Implicit Types (m : mach (R:=R) (A:=A)) (h : hart) (w : Z -> Z).

Definition mprocs m : list proc := procs (kp (ks m)).
Definition mwords m : Z -> Z := words (env (kp (ks m))).
Definition with_words w m : mach (R:=R) (A:=A) :=
  mkmach (hrt m) (mksys (mkpst (procs (kp (ks m))) (nextpid (kp (ks m))) (initproc (kp (ks m)))
    (mkenv w (rest (env (kp (ks m)))))) (ticks (ks m))) (devintr_callbacks m) (hmst m) (cpus m).
Definition with_hart h m : mach (R:=R) (A:=A) := mkmach h (ks m) (devintr_callbacks m) (hmst m) (cpus m).

Lemma with_words_id m : with_words (mwords m) m = m.
Proof. by destruct m as [? [[? ? ? [? ?]] ?] ? ? ?]. Qed.
Lemma with_hart_id m : with_hart (hrt m) m = m.
Proof. by destruct m. Qed.

(** ** Reading and writing the memory *)

Lemma load_ok a m : memM (load_word a) m = Ok (mwords m a) m.
Proof. by destruct m as [? [[? ? ? [? ?]] ?] ? ? ?]. Qed.
Lemma mem_store_ok a v m : memM (store_word a v) m = Ok tt (with_words (fupd (mwords m) a v) m).
Proof. done. Qed.
Lemma proc_ok i p m : mprocs m !! i = Some p -> sysM (procM (get_proc i)) m = Ok p m.
Proof.
  unfold mprocs. intros E. unfold sysM, procM, get_proc. rewrite E. by destruct m as [? [[? ? ? [? ?]] ?] ? ? ?].
Qed.
Lemma sysM_bind {B C} (f : M (sysst R) B) (g : B -> M (sysst R) C) m :
  sysM (bind f g) m = bind (sysM f) (fun b => sysM (g b)) m.
Proof. unfold sysM, bind. destruct (f (ks m)); done. Qed.
Lemma tf_get_ok i p off m : mprocs m !! i = Some p -> sysM (tf_get i off) m = Ok (mwords m (tf p + off)) m.
Proof. intros E. unfold tf_get. rewrite sysM_bind, (bind_ok _ _ _ _ _ (proc_ok _ _ _ E)). apply load_ok. Qed.
Lemma tf_put_ok i p off v m :
  mprocs m !! i = Some p ->
  sysM (tf_put i off v) m = Ok tt (with_words (fupd (mwords m) (tf p + off) v) m).
Proof. intros E. unfold tf_put. by rewrite sysM_bind, (bind_ok _ _ _ _ _ (proc_ok _ _ _ E)). Qed.

Lemma hartM_ok f m : hartM f m = Ok tt (with_hart (f (hrt m)) m).
Proof. done. Qed.
Lemma csrr_ok {B} (f : hart -> B) m : csrr f m = Ok (f (hrt m)) m.
Proof. done. Qed.

Lemma translate_ok va pa m : trans (satp (hrt m)) (u64 va) = Some pa -> translate trans va m = Ok pa m.
Proof. intros E. unfold translate. rewrite (bind_ok _ _ _ _ _ (csrr_ok _ _)). by rewrite E. Qed.

(** ** Blocks of stores and loads *)

Definition saves (base : nat) (l : list (nat * Z)) : list instr := (fun ro => SD ro.1 ro.2 base) <$> l.
Definition loads (base : nat) (l : list (nat * Z)) : list instr := (fun ro => LD ro.1 ro.2 base) <$> l.

Lemma run_app l l' m : run trans (l ++ l') m = bind (run trans l) (fun _ => run trans l') m.
Proof.
  revert m. induction l as [|i l IH]; intros m; [done|]. cbn [app run]. unfold bind at 1 2 3.
  destruct (step trans i m); [apply IH|done..].
Qed.

(** The memory after the stores of the registers [f] at [b] *)
Definition saved (b : Z) (f : nat -> Z) (l : list (nat * Z)) w : Z -> Z :=
  foldl (fun w ro => fupd w (b + ro.2) (f ro.1)) w l.

Lemma saves_ok base b l m :
  (forall ro, ro ∈ l -> trans (satp (hrt m)) (u64 (regs (hrt m) base + ro.2)) = Some (b + ro.2)) ->
  run trans (saves base l) m = Ok tt (with_words (saved b (regs (hrt m)) l (mwords m)) m).
Proof.
  revert m. induction l as [|[r o] l IH]; intros m Ht; [cbn; by rewrite with_words_id|].
  cbn [saves fmap list_fmap run step fst snd].
  rewrite (bind_ok _ _ m tt (with_words (fupd (mwords m) (b + o) (regs (hrt m) r)) m)).
  - etransitivity; [apply (IH (with_words _ m)); intros ro Hro; apply Ht; by right|]. done.
  - rewrite (bind_ok _ _ _ _ _ (csrr_ok _ _)), (bind_ok _ _ _ _ _ (csrr_ok _ _)). unfold rget.
    rewrite (bind_ok _ _ _ _ _ (translate_ok _ _ _ (Ht (r, o) ltac:(left)))). done.
Qed.

Lemma saved_other b f l w a : (forall ro, ro ∈ l -> a <> b + ro.2) -> saved b f l w a = w a.
Proof.
  revert w. induction l as [|ro l IH]; intros w Ha; [done|]. cbn [saved foldl].
  etransitivity; [apply IH; intros; apply Ha; by right|]. apply fupd_ne, Ha. left.
Qed.

Lemma saved_at b f l w r o : NoDup l.*2 -> (r, o) ∈ l -> saved b f l w (b + o) = f r.
Proof.
  revert w. induction l as [|[r' o'] l IH]; intros w Hnd Hin; [by apply elem_of_nil in Hin|].
  cbn [fmap list_fmap] in Hnd. apply NoDup_cons in Hnd as [Hn Hnd]. cbn [saved foldl fst snd].
  apply elem_of_cons in Hin as [[= -> ->]|Hin]; [|by apply IH].
  etransitivity; [apply saved_other|apply fupd_eq].
  intros [r1 o1] Hro. cbn. intros E. apply Hn. assert (o' = o1) as -> by lia. by apply (list_elem_of_fmap_2 snd _ (r1, o1)).
Qed.

(** The registers after the loads *)
Definition loaded (b : Z) w (l : list (nat * Z)) (f : nat -> Z) : nat -> Z :=
  foldl (fun f ro i => if decide (i = ro.1) then w (b + ro.2) else f i) f l.

Lemma loads_ok base b l m :
  base ∉ l.*1 ->
  (forall ro, ro ∈ l -> trans (satp (hrt m)) (u64 (regs (hrt m) base + ro.2)) = Some (b + ro.2)) ->
  run trans (loads base l) m
  = Ok tt (with_hart (set_regs (loaded b (mwords m) l (regs (hrt m))) (hrt m)) m).
Proof.
  revert m. induction l as [|[r o] l IH]; intros m Hb Ht.
  { cbn. f_equal. destruct m as [[] ? ? ? ?]. done. }
  cbn [fmap list_fmap] in Hb. apply not_elem_of_cons in Hb as [Hne Hb].
  cbn [loads fmap list_fmap run step fst snd].
  rewrite (bind_ok _ _ m tt (with_hart (rset r (mwords m (b + o)) (hrt m)) m)).
  - etransitivity; [apply (IH (with_hart _ m) Hb)|done]. intros ro Hro. cbn.
    rewrite decide_False by done. apply Ht. by right.
  - rewrite (bind_ok _ _ _ _ _ (csrr_ok _ _)). unfold rget.
    rewrite (bind_ok _ _ _ _ _ (translate_ok _ _ _ (Ht (r, o) ltac:(left)))).
    rewrite (bind_ok _ _ _ _ _ (load_ok _ _)). done.
Qed.

Lemma loaded_other b w l f i : (i ∉ l.*1) -> loaded b w l f i = f i.
Proof.
  revert f. induction l as [|ro l IH]; intros f Hi; [done|]. cbn [loaded foldl].
  cbn [fmap list_fmap] in Hi. apply not_elem_of_cons in Hi as [Hne Hi].
  etransitivity; [by apply IH|]. cbn. by rewrite decide_False.
Qed.

Lemma loaded_at b w l f r o : NoDup l.*1 -> (r, o) ∈ l -> loaded b w l f r = w (b + o).
Proof.
  revert f. induction l as [|[r' o'] l IH]; intros f Hnd Hin; [by apply elem_of_nil in Hin|].
  cbn [fmap list_fmap fst] in Hnd. apply NoDup_cons in Hnd as [Hn Hnd]. cbn [loaded foldl].
  apply elem_of_cons in Hin as [[= -> ->]|Hin]; [|by apply IH].
  etransitivity; [by apply loaded_other|]. cbn. by rewrite decide_True.
Qed.

(** ** The trampoline *)

(** The place of a register in the trap frame *)
Definition tf_slot (r : nat) : Z := 32 + 8 * Z.of_nat r.

(** The registers that [uservec] saves directly: all but [a0] *)
Definition plain_regs : list nat := seq 1 9 ++ seq 11 21.
Definition tf_pairs : list (nat * Z) := (fun r => (r, tf_slot r)) <$> plain_regs.

Lemma uservec_eq :
  uservec = CSRRW a0 CSR_sscratch a0 :: saves a0 tf_pairs
    ++ [CSRR t0 CSR_sscratch] ++ saves a0 [(t0, 112)] ++ loads a0 [(sp, 8); (tp, 32); (t0, 16); (t1, 0)]
    ++ [CSRW CSR_satp t1; SFENCE_VMA; JR t0].
Proof. reflexivity. Qed.

Lemma userret_eq :
  userret = [CSRW CSR_satp a1; SFENCE_VMA] ++ loads a0 [(t0, 112)] ++ [CSRW CSR_sscratch t0]
    ++ loads a0 tf_pairs ++ [CSRRW a0 CSR_sscratch a0].
Proof. reflexivity. Qed.

Lemma tf_pairs_elem r o : (r, o) ∈ tf_pairs <-> ((1 <= r <= 31)%nat /\ r <> 10%nat) /\ o = tf_slot r.
Proof.
  unfold tf_pairs, plain_regs. rewrite list_elem_of_fmap. split.
  - intros (x & [= -> ->] & Hx). split; [|done]. rewrite elem_of_app, !elem_of_seq in Hx. lia.
  - intros [Hr ->]. exists r. split; [done|]. rewrite elem_of_app, !elem_of_seq. lia.
Qed.

Lemma tf_pairs_offs : NoDup tf_pairs.*2.
Proof. apply (bool_decide_unpack _). vm_compute. done. Qed.
Lemma tf_pairs_regs : NoDup tf_pairs.*1.
Proof. apply (bool_decide_unpack _). vm_compute. done. Qed.

(** The page table [st] maps the trap frame page, at [t] in memory. *)
Definition maps_tf (st t : Z) : Prop := forall o, 0 <= o < 288 -> trans st (TRAPFRAME + o) = Some (t + o).

Lemma maps_tf_slot st t r : maps_tf st t -> (1 <= r <= 31)%nat -> trans st (u64 (TRAPFRAME + tf_slot r)) = Some (t + tf_slot r).
Proof.
  intros Hm Hr. unfold tf_slot. rewrite u64_small by (unfold TRAPFRAME, TRAMPOLINE, PGSIZE; lia). apply Hm. lia.
Qed.
Lemma maps_tf_off st t o : maps_tf st t -> 0 <= o < 288 -> trans st (u64 (TRAPFRAME + o)) = Some (t + o).
Proof. intros Hm Ho. rewrite u64_small by (unfold TRAPFRAME, TRAMPOLINE, PGSIZE; lia). by apply Hm. Qed.

(** The registers of the trap that the C code reads are not changed by the assembly. *)
Definition same_csrs h h' : Prop :=
  sstatus h' = sstatus h /\ sie h' = sie h /\ sip h' = sip h /\ stvec h' = stvec h /\
  sepc h' = sepc h /\ scause h' = scause h /\ stval h' = stval h /\ umode h' = umode h.

(** A machine by its hart and its memory *)
Definition at_ h w m : mach (R:=R) (A:=A) := with_hart h (with_words w m).

Lemma at_id m : at_ (hrt m) (mwords m) m = m.
Proof. by destruct m as [? [[? ? ? [? ?]] ?] ? ? ?]. Qed.

Lemma saves_at base b l h w m k :
  (forall ro, ro ∈ l -> trans (satp h) (u64 (regs h base + ro.2)) = Some (b + ro.2)) ->
  run trans (saves base l ++ k) (at_ h w m) = run trans k (at_ h (saved b (regs h) l w) m).
Proof. intros Ht. rewrite run_app.
  rewrite (bind_ok _ _ _ _ _ (saves_ok base b l (at_ h w m) Ht)). done. Qed.

Lemma loads_at base b l h w m k :
  (base ∉ l.*1) ->
  (forall ro, ro ∈ l -> trans (satp h) (u64 (regs h base + ro.2)) = Some (b + ro.2)) ->
  run trans (loads base l ++ k) (at_ h w m) = run trans k (at_ (set_regs (loaded b w l (regs h)) h) w m).
Proof. intros Hb Ht. rewrite run_app.
  rewrite (bind_ok _ _ _ _ _ (loads_ok base b l (at_ h w m) Hb Ht)). done. Qed.

(** An instruction that changes only the hart *)
Definition hart_step (i : instr) h : hart :=
  match i with
  | ADDI rd rs imm => rset rd (u64 (regs h rs + imm)) h
  | CSRRW rd c rs => rset rd (csr_get c h) (csr_set c (regs h rs) h)
  | CSRR rd c => rset rd (csr_get c h) h
  | CSRW c rs => csr_set c (regs h rs) h
  | JR rs => set_pc (regs h rs) h
  | _ => h
  end.
Definition is_hart (i : instr) : Prop := match i with SD _ _ _ | LD _ _ _ => False | _ => True end.

Lemma hart_at i h w m k : is_hart i -> run trans (i :: k) (at_ h w m) = run trans k (at_ (hart_step i h) w m).
Proof. destruct i; try done. Qed.

(** [uservec] saves the 31 registers in the trap frame and enters the kernel as the frame says. *)
Lemma uservec_ok t h w m :
  sscratch h = TRAPFRAME -> maps_tf (satp h) t ->
  exists h' w', run trans uservec (at_ h w m) = Ok tt (at_ h' w' m) /\ same_csrs h h' /\
    (forall r, (1 <= r <= 31)%nat -> w' (t + tf_slot r) = regs h r) /\
    (forall a, (forall r, (1 <= r <= 31)%nat -> a <> t + tf_slot r) -> w' a = w a) /\
    satp h' = w t /\ regs h' tp = w (t + 32) /\ pc h' = w (t + 16).
Proof.
  intros Hs Hm. rewrite uservec_eq, hart_at by done.
  set (h1 := hart_step (CSRRW a0 CSR_sscratch a0) h).
  rewrite (saves_at a0 t).
  2:{ intros [r o] Hro. apply tf_pairs_elem in Hro as [Hr ->]. cbn. rewrite Hs. apply maps_tf_slot; [done|lia]. }
  set (w1 := saved t (regs h1) tf_pairs w).
  assert (forall r, (1 <= r <= 31)%nat -> r <> 10%nat -> w1 (t + tf_slot r) = regs h r) as Hw1.
  { intros r Hr Hne. unfold w1. rewrite (saved_at _ _ _ _ r (tf_slot r));
      [cbn; by rewrite decide_False|apply tf_pairs_offs|by apply tf_pairs_elem]. }
  assert (forall a, (forall r, (1 <= r <= 31)%nat -> a <> t + tf_slot r) -> w1 a = w a) as Hw1'.
  { intros a Ha. apply saved_other. intros [r o] Hro. apply tf_pairs_elem in Hro as [Hr ->]. apply Ha. lia. }
  clearbody w1. cbn [app]. rewrite hart_at by done. set (h2 := hart_step (CSRR t0 CSR_sscratch) h1).
  rewrite (saves_at a0 t).
  2:{ intros ro Hro. apply list_elem_of_singleton in Hro as ->. cbn. rewrite Hs. by apply maps_tf_off. }
  set (w2 := saved t (regs h2) [(t0, 112)] w1).
  assert (w2 = fupd w1 (t + 112) (regs h a0)) as Ew2 by done. clearbody w2. subst w2.
  set (w2 := fupd w1 (t + 112) (regs h a0)).
  assert (forall a, (forall r, (1 <= r <= 31)%nat -> a <> t + tf_slot r) -> w2 a = w a) as Hkeep.
  { intros a Ha. unfold w2. rewrite fupd_ne by (apply (Ha 10%nat); lia). by apply Hw1'. }
  assert (forall r, (1 <= r <= 31)%nat -> w2 (t + tf_slot r) = regs h r) as Hsaved.
  { intros r Hr. unfold w2. destruct (decide (r = 10%nat)) as [->|Hne]; [apply fupd_eq|].
    rewrite fupd_ne by (unfold tf_slot; lia). by apply Hw1. }
  assert (forall o, 0 <= o < 40 -> w2 (t + o) = w (t + o)) as Hlow.
  { intros o Ho. apply Hkeep. intros r Hr. unfold tf_slot. lia. }
  clearbody w2. rewrite (loads_at a0 t).
  2:{ by apply (bool_decide_unpack _). }
  2:{ intros ro Hro. rewrite !elem_of_cons in Hro. cbn. rewrite Hs.
      destruct Hro as [->|[->|[->|[->|Hro%elem_of_nil]]]]; try done; by apply maps_tf_off. }
  rewrite !hart_at by done. eexists _, w2. split; [reflexivity|]. split; [done|]. split; [done|]. split; [done|].
  cbn. rewrite !Hlow by lia. by rewrite Z.add_0_r.
Qed.

(** [userret] restores the 31 registers from the trap frame and leaves the trampoline ready. *)
Lemma userret_ok t h w m :
  regs h a0 = TRAPFRAME -> maps_tf (regs h a1) t ->
  exists h', run trans userret (at_ h w m) = Ok tt (at_ h' w m) /\ same_csrs h h' /\
    (forall r, (1 <= r <= 31)%nat -> regs h' r = w (t + tf_slot r)) /\
    satp h' = regs h a1 /\ sscratch h' = TRAPFRAME.
Proof.
  intros Ha Hm. rewrite userret_eq. cbn [app]. rewrite !hart_at by done. cbn [hart_step csr_set].
  rewrite (loads_at a0 t).
  2:{ by apply (bool_decide_unpack _). }
  2:{ intros ro Hro. apply list_elem_of_singleton in Hro as ->. cbn. rewrite Ha. by apply maps_tf_off. }
  cbn [app]. rewrite hart_at by done.
  set (h3 := hart_step (CSRW CSR_sscratch t0) _).
  assert (regs h3 a0 = TRAPFRAME /\ sscratch h3 = w (t + 112) /\ satp h3 = regs h a1 /\ same_csrs h h3)
    as (E1 & E2 & E3 & E4) by (split; [done|split; [done|split; done]]).
  clearbody h3. assert (a0 ∉ tf_pairs.*1) as Hna by (apply (bool_decide_unpack _); vm_compute; done).
  rewrite (loads_at a0 t).
  2:{ done. }
  2:{ intros [r o] Hro. apply tf_pairs_elem in Hro as [Hr ->]. cbn. rewrite E1, E3. apply maps_tf_slot; [done|lia]. }
  set (f := loaded t w tf_pairs (regs h3)).
  assert (f a0 = TRAPFRAME) as Hf0 by (unfold f; by rewrite loaded_other).
  assert (forall r, (1 <= r <= 31)%nat -> r <> 10%nat -> f r = w (t + tf_slot r)) as Hf.
  { intros r Hr Hne. unfold f. apply loaded_at; [apply tf_pairs_regs|by apply tf_pairs_elem]. }
  clearbody f. rewrite hart_at by done. eexists. split; [reflexivity|]. split; [done|]. cbn. split; [|by split].
  intros r Hr. case_decide as E; [by subst r|]. by apply Hf.
Qed.

(** ** In the kernel for a process *)

(** What the code of a user trap relies on while it is in the kernel for process [me], whose
    trap frame is at [t], page table at [pt] and kernel stack at [kst]: the frame holds the user
    registers [f] and the user program counter [e], the kernel's page table is in force, and
    this hart runs the process. *)
Record inkernel (me : nat) (t pt kst ksatp : Z) (f : nat -> Z) (e : Z) m : Prop := {
  i_proc : exists p, mprocs m !! me = Some p /\ tf p = t /\ pagetable p = pt /\ kstack p = kst;
  i_regs r : (1 <= r <= 31)%nat -> mwords m (t + tf_slot r) = f r;
  i_epc : mwords m (t + TF_EPC) = e;
  i_satp : satp (hrt m) = ksatp;
  i_cpu : cpus m (regs (hrt m) tp) = Some me;
  i_devs : exists tbl, devintr_callbacks m = Some tbl /\ wf devintr_hash devintr_compare tbl;
}.

Definition is_killed (me : nat) m : bool :=
  match mprocs m !! me with Some p => killed p | None => false end.

(** A part of the kernel that leaves the process as it was; the [quiet] ones do not kill it. *)
Definition keeps (me : nat) (t pt kst ksatp : Z) {B} (x : M (mach (R:=R) (A:=A)) B) : Prop :=
  forall f e m, inkernel me t pt kst ksatp f e m ->
  exists b m', x m = Ok b m' /\ inkernel me t pt kst ksatp f e m'.
Definition quiet (me : nat) (t pt kst ksatp : Z) {B} (x : M (mach (R:=R) (A:=A)) B) : Prop :=
  forall f e m, inkernel me t pt kst ksatp f e m ->
  exists b m', x m = Ok b m' /\ inkernel me t pt kst ksatp f e m' /\ is_killed me m' = is_killed me m.

(** A process that is in user mode, with the trampoline ready for its next trap. *)
Record user_ready (me : nat) (t pt kst ksatp : Z) m : Prop := {
  u_proc : exists p, mprocs m !! me = Some p /\ tf p = t /\ pagetable p = pt /\ kstack p = kst;
  u_mode : umode (hrt m) = true;
  u_stvec : stvec (hrt m) = TRAMPOLINE + uservec_off ad;
  u_scratch : sscratch (hrt m) = TRAPFRAME;
  u_satp : satp (hrt m) = MAKE_SATP pt;
  u_ksatp : mwords m t = ksatp;
  u_ksp : mwords m (t + 8) = u64 (kst + PGSIZE);
  u_ktrap : mwords m (t + 16) = usertrap_at ad;
  u_cpu : cpus m (mwords m (t + 32)) = Some me;
  u_devs : exists tbl, devintr_callbacks m = Some tbl /\ wf devintr_hash devintr_compare tbl;
}.

Section user.
Context (me : nat) (t pt kst ksatp : Z).
#[local] Abbreviation ink := (inkernel me t pt kst ksatp).

(** Changing the hart or a word of the frame that is not looked at *)
Lemma ink_hart f e m h :
  ink f e m -> satp h = satp (hrt m) -> regs h tp = regs (hrt m) tp -> ink f e (with_hart h m).
Proof.
  intros Hi Es Et. destruct Hi as [Hp Hr He Hs Hc Hd]. split; try done; cbn; congruence.
Qed.

Lemma ink_word f e m o v :
  ink f e m -> (forall r, (1 <= r <= 31)%nat -> o <> tf_slot r) -> o <> TF_EPC ->
  ink f e (with_words (fupd (mwords m) (t + o) v) m).
Proof.
  intros Hi Ho He. destruct Hi as [Hp Hr Hep Hs Hc Hd]. split; try done.
  - intros r Hr1. cbn. rewrite fupd_ne; [by apply Hr|]. specialize (Ho r Hr1). lia.
  - cbn. rewrite fupd_ne; [done|]. unfold TF_EPC in *. lia.
Qed.

Lemma ink_epc f e e' m : ink f e m -> ink f e' (with_words (fupd (mwords m) (t + TF_EPC) e') m).
Proof.
  intros Hi. destruct Hi as [Hp Hr Hep Hs Hc Hd]. split; try done.
  - intros r Hr1. cbn. rewrite fupd_ne; [by apply Hr|]. unfold tf_slot, TF_EPC. lia.
  - cbn. apply fupd_eq.
Qed.

Lemma ink_put f e m off v :
  ink f e m -> sysM (tf_put me off v) m = Ok tt (with_words (fupd (mwords m) (t + off) v) m).
Proof. intros Hi. destruct (i_proc _ _ _ _ _ _ _ _ Hi) as (p & Ep & <- & _). by apply tf_put_ok. Qed.
Lemma ink_get f e m off : ink f e m -> sysM (tf_get me off) m = Ok (mwords m (t + off)) m.
Proof. intros Hi. destruct (i_proc _ _ _ _ _ _ _ _ Hi) as (p & Ep & <- & _). by apply tf_get_ok. Qed.
Lemma ink_me f e m : ink f e m -> myproc m = Ok (Some me) m.
Proof. intros Hi. unfold myproc, bind, cpuid, csrr, gets, rget. by rewrite (i_cpu _ _ _ _ _ _ _ _ Hi). Qed.

(** Changing the state of the processes, but not what the frame of [me] is *)
Definition with_procs (l : list proc) m : mach (R:=R) (A:=A) :=
  mkmach (hrt m) (mksys (mkpst l (nextpid (kp (ks m))) (initproc (kp (ks m))) (env (kp (ks m)))) (ticks (ks m)))
    (devintr_callbacks m) (hmst m) (cpus m).

Lemma ink_procs f e m l p p' :
  ink f e m -> mprocs m !! me = Some p -> l !! me = Some p' ->
  tf p' = tf p -> pagetable p' = pagetable p -> kstack p' = kstack p -> ink f e (with_procs l m).
Proof.
  intros Hi Ep El E1 E2 E3. destruct Hi as [(q & Eq & Et & Ept & Ek) Hr Hep Hs Hc Hd]. simplify_eq. split; try done.
  exists p'. by split.
Qed.

(** ** The return to user space *)

Context (clobber : (nat -> Z) -> (nat -> Z)).

Lemma hartM_at g h w m : hartM g (at_ h w m) = Ok tt (at_ (g h) w m).
Proof. done. Qed.
Lemma csrr_at {B} (g : hart -> B) h w m : csrr g (at_ h w m) = Ok (g h) (at_ h w m).
Proof. done. Qed.
Lemma put_at i p off v h w m :
  mprocs m !! i = Some p -> sysM (tf_put i off v) (at_ h w m) = Ok tt (at_ h (fupd w (tf p + off) v) m).
Proof. intros E. by apply (tf_put_ok i p off v (at_ h w m)). Qed.
Lemma get_at i p off h w m :
  mprocs m !! i = Some p -> sysM (tf_get i off) (at_ h w m) = Ok (w (tf p + off)) (at_ h w m).
Proof. intros E. by apply (tf_get_ok i p off (at_ h w m)). Qed.
Lemma proc_at i p h w m : mprocs m !! i = Some p -> sysM (procM (get_proc i)) (at_ h w m) = Ok p (at_ h w m).
Proof. intros E. by apply (proc_ok i p (at_ h w m)). Qed.

Lemma usertrapret_ok f e h w m :
  ink f e (at_ h w m) ->
  exists h' w', usertrapret ad clobber (at_ h w m) = Ok tt (at_ h' w' m) /\
    (forall r, (1 <= r <= 31)%nat -> w' (t + tf_slot r) = f r) /\
    w' t = ksatp /\ w' (t + 8) = u64 (kst + PGSIZE) /\ w' (t + 16) = usertrap_at ad /\ cpus m (w' (t + 32)) = Some me /\
    stvec h' = TRAMPOLINE + uservec_off ad /\ sepc h' = e /\
    sstatus h' = Z.lor (Z.ldiff (Z.ldiff (sstatus h) SSTATUS_SIE) SSTATUS_SPP) SSTATUS_SPIE /\
    regs h' a0 = TRAPFRAME /\ regs h' a1 = MAKE_SATP pt /\ pc h' = TRAMPOLINE + userret_off ad.
Proof.
  intros Hi. unfold usertrapret. rewrite (bind_ok _ _ _ _ _ (ink_me _ _ _ Hi)).
  destruct (i_proc _ _ _ _ _ _ _ _ Hi) as (p & Ep & Et & Ept & Ek). change (mprocs m !! me = Some p) in Ep.
  do 2 rewrite (bind_ok _ _ _ _ _ (hartM_at _ _ _ _)). rewrite (bind_ok _ _ _ _ _ (csrr_at _ _ _ _)).
  rewrite (bind_ok _ _ _ _ _ (put_at me p _ _ _ _ _ Ep)), (bind_ok _ _ _ _ _ (proc_at me p _ _ _ Ep)).
  do 2 rewrite (bind_ok _ _ _ _ _ (put_at me p _ _ _ _ _ Ep)). unfold cpuid.
  rewrite (bind_ok _ _ _ _ _ (csrr_at _ _ _ _)), (bind_ok _ _ _ _ _ (put_at me p _ _ _ _ _ Ep)).
  rewrite (bind_ok _ _ _ _ _ (csrr_at _ _ _ _)). cbv zeta. rewrite (bind_ok _ _ _ _ _ (hartM_at _ _ _ _)).
  rewrite (bind_ok _ _ _ _ _ (get_at me p _ _ _ _ Ep)). do 4 rewrite (bind_ok _ _ _ _ _ (hartM_at _ _ _ _)).
  rewrite hartM_at, Et. set (w' := fupd _ (t + 32) _).
  eexists _, w'. split; [reflexivity|]. rewrite Ept.
  assert (forall o, o <> 0 -> o <> 8 -> o <> 16 -> o <> 32 -> w' (t + o) = w (t + o)) as Hw'.
  { intros o ? ? ? ?. unfold w'. rewrite !fupd_ne by lia. done. }
  split; [|split; [|split; [|split; [|split; [|split; [done|split; [|split; [done|split; [done|split; [done|done]]]]]]]]]].
  - intros r Hr. rewrite Hw' by (unfold tf_slot; lia). by apply (i_regs _ _ _ _ _ _ _ _ Hi).
  - unfold w'. rewrite !fupd_ne by lia. rewrite <-(Z.add_0_r t) at 2. rewrite fupd_eq. apply (i_satp _ _ _ _ _ _ _ _ Hi).
  - unfold w'. rewrite !fupd_ne by lia. by rewrite fupd_eq, Ek.
  - unfold w'. rewrite !fupd_ne by lia. by rewrite fupd_eq.
  - unfold w'. rewrite fupd_eq. apply (i_cpu _ _ _ _ _ _ _ _ Hi).
  - change (w' (t + TF_EPC) = e). rewrite Hw' by (unfold TF_EPC; lia). apply (i_epc _ _ _ _ _ _ _ _ Hi).
Qed.

(** ** Device interrupts *)

Context (plic_claim : M (mach (R:=R) (A:=A)) Z) (plic_complete : Z -> M (mach (R:=R) (A:=A)) unit)
  (call : Z -> M (mach (R:=R) (A:=A)) unit) (resched : nat -> M (mach (R:=R) (A:=A)) unit).

Definition TIMER : Z := 0x8000000000000001.
(** A supervisor external interrupt *)
Definition is_external (cause : Z) : bool :=
  negb (Z.land cause 0x8000000000000000 =? 0) && (Z.land cause 0xff =? 9).

Definition with_ticks (x : Z) m : mach (R:=R) (A:=A) :=
  mkmach (hrt m) (mksys (kp (ks m)) x) (devintr_callbacks m) (hmst m) (cpus m).

Lemma ink_ticks f e m x : ink f e m -> ink f e (with_ticks x m).
Proof. intros Hi. destruct Hi. by split. Qed.

Definition wake_ticks (p : proc) : proc :=
  if is_state SLEEPING p then if decide (pchan p = Some TICKS) then set_state RUNNABLE p else p else p.

Lemma clockintr_ok m :
  clockintr m = Ok tt (with_procs (wake_ticks <$> mprocs m) (with_ticks (u32 (ticks (ks m) + 1)) m)).
Proof. done. Qed.

Lemma wake_ticks_keeps p :
  tf (wake_ticks p) = tf p /\ pagetable (wake_ticks p) = pagetable p /\ kstack (wake_ticks p) = kstack p /\
  killed (wake_ticks p) = killed p.
Proof. unfold wake_ticks. destruct (is_state SLEEPING p); [|done]. by case_decide. Qed.

Lemma clockintr_quiet : quiet me t pt kst ksatp clockintr.
Proof.
  intros f e m Hi. rewrite clockintr_ok. eexists _, _. split; [reflexivity|].
  destruct (i_proc _ _ _ _ _ _ _ _ Hi) as (p & Ep & _). destruct (wake_ticks_keeps p) as (E1 & E2 & E3 & E4).
  assert ((wake_ticks <$> mprocs m) !! me = Some (wake_ticks p)) as El by (by rewrite list_lookup_fmap, Ep).
  split.
  - by apply (ink_procs f e (with_ticks _ m) _ p (wake_ticks p)); [apply ink_ticks|..].
  - unfold is_killed. change (mprocs (with_procs (wake_ticks <$> mprocs m) _)) with (wake_ticks <$> mprocs m).
    by rewrite El, Ep.
Qed.

Lemma quiet_bind {B C} (x : M (mach (R:=R) (A:=A)) B) (g : B -> M (mach (R:=R) (A:=A)) C) :
  quiet me t pt kst ksatp x -> (forall b, quiet me t pt kst ksatp (g b)) -> quiet me t pt kst ksatp (bind x g).
Proof.
  intros Hx Hg f e m Hi. destruct (Hx f e m Hi) as (b & m1 & E1 & Hi1 & Ek1).
  destruct (Hg b f e m1 Hi1) as (c & m2 & E2 & Hi2 & Ek2). exists c, m2.
  rewrite (bind_ok _ _ _ _ _ E1). split; [done|]. split; [done|]. congruence.
Qed.
Lemma quiet_ret {B} (b : B) : quiet me t pt kst ksatp (ret b).
Proof. intros f e m Hi. by exists b, m. Qed.
Lemma quiet_sip : quiet me t pt kst ksatp (hartM (fun h => w_sip (Z.ldiff (sip h) 2) h)).
Proof. intros f e m Hi. eexists _, _. split; [reflexivity|]. split; [|done]. by apply ink_hart. Qed.

Lemma timer_not_external : is_external TIMER = false.
Proof. vm_compute. done. Qed.

(** The timer: the clock ticks on hart 0, the interrupt is acknowledged. *)
Lemma devintr_timer f e m :
  ink f e m -> scause (hrt m) = TIMER ->
  exists m', devintr plic_claim plic_complete call m = Ok 2 m' /\ ink f e m' /\ is_killed me m' = is_killed me m.
Proof.
  intros Hi Ec. unfold devintr. rewrite (bind_ok _ _ _ _ _ (csrr_ok _ _)), Ec.
  change (negb (Z.land TIMER 0x8000000000000000 =? 0) && (Z.land TIMER 0xff =? 9)) with (is_external TIMER).
  rewrite timer_not_external. change (TIMER =? 0x8000000000000001) with true. cbv iota.
  assert (quiet me t pt kst ksatp (bind cpuid (fun id => bind (when (id =? 0) clockintr)
    (fun _ => bind (hartM (fun h => w_sip (Z.ldiff (sip h) 2) h)) (fun _ => ret 2))))) as Hq.
  { apply quiet_bind; [intros f' e' m' Hi'; by eexists _, m'|]. intros id. apply quiet_bind.
    - unfold when. destruct (id =? 0); [apply clockintr_quiet|apply quiet_ret].
    - intros _. apply quiet_bind; [apply quiet_sip|]. intros _. apply quiet_ret. }
  destruct (Hq f e m Hi) as (b & m' & E & Hi' & Ek). exists m'. split; [|done]. rewrite E. f_equal.
  clear -E. by minv E.
Qed.

Lemma hm_get_ok m tbl i :
  wf devintr_hash devintr_compare tbl ->
  hmM (hashmap_get tbl (Some (mkdev i 0))) m = Ok (abs (K:=Z) devintr_hash devintr_compare tbl !! i) m.
Proof.
  intros Hw. unfold hmM. rewrite (hashmap_get_ok devintr_hash devintr_compare tbl _ _ Hw). by destruct m.
Qed.

Hypothesis claim_quiet : quiet me t pt kst ksatp plic_claim.
Hypothesis complete_quiet : forall i, quiet me t pt kst ksatp (plic_complete i).
Hypothesis call_quiet : forall a, quiet me t pt kst ksatp (call a).
Hypothesis resched_keeps : keeps me t pt kst ksatp (resched me).

(** A device: its handler runs, if one is registered. *)
Lemma devintr_external f e m :
  ink f e m -> is_external (scause (hrt m)) = true ->
  exists m', devintr plic_claim plic_complete call m = Ok 1 m' /\ ink f e m' /\ is_killed me m' = is_killed me m.
Proof.
  intros Hi Ec. unfold devintr. rewrite (bind_ok _ _ _ _ _ (csrr_ok _ _)).
  change (negb (Z.land (scause (hrt m)) 0x8000000000000000 =? 0) && (Z.land (scause (hrt m)) 0xff =? 9))
    with (is_external (scause (hrt m))). rewrite Ec.
  destruct (claim_quiet f e m Hi) as (i & m1 & E1 & Hi1 & Ek1). rewrite (bind_ok _ _ _ _ _ E1).
  destruct (i_devs _ _ _ _ _ _ _ _ Hi1) as (tbl & Et & Hw).
  rewrite (bind_ok (gets devintr_callbacks) _ m1 (Some tbl) m1) by (unfold gets; by rewrite Et). cbv iota.
  rewrite (bind_ok _ _ _ _ _ (hm_get_ok m1 tbl i Hw)).
  assert (quiet me t pt kst ksatp (match abs (K:=Z) devintr_hash devintr_compare tbl !! i with
    | Some map => call (callback map) | None => ret tt end)) as Hq by (destruct (abs _ _ tbl !! i); [apply call_quiet|apply quiet_ret]).
  destruct (Hq f e m1 Hi1) as ([] & m2 & E2 & Hi2 & Ek2). rewrite (bind_ok _ _ _ _ _ E2).
  destruct (complete_quiet i f e m2 Hi2) as ([] & m3 & E3 & Hi3 & Ek3). rewrite (bind_ok _ _ _ _ _ E3).
  exists m3. split; [done|]. split; [done|]. congruence.
Qed.

(** ** [usertrap] *)

#[local] Abbreviation usertrap' :=
  (usertrap trampoline forkret sys_other ad plic_claim plic_complete call resched clobber).
#[local] Abbreviation user_trap' :=
  (user_trap trampoline forkret sys_other ad trans plic_claim plic_complete call resched clobber).

Lemma yield_keeps : keeps me t pt kst ksatp (yield_cpu resched me).
Proof.
  intros f e m Hi. destruct (i_proc _ _ _ _ _ _ _ _ Hi) as (p & Ep & _).
  assert (sysM (procM (yield me)) m = Ok tt (with_procs (<[me := set_state RUNNABLE p]> (mprocs m)) m)) as E.
  { unfold sysM, procM, yield, mod_proc. change (procs (kp (ks m))) with (mprocs m). by rewrite Ep. }
  unfold yield_cpu. rewrite (bind_ok _ _ _ _ _ E). apply resched_keeps.
  apply (ink_procs f e m _ p (set_state RUNNABLE p)); try done.
  apply list_lookup_insert_eq. by eapply lookup_lt_Some.
Qed.

Lemma not_killed f e m : ink f e m -> is_killed me m = false ->
  exists p, sysM (procM (get_proc me)) m = Ok p m /\ killed p = false.
Proof.
  intros Hi Hk. destruct (i_proc _ _ _ _ _ _ _ _ Hi) as (p & Ep & _). exists p. split; [by apply proc_ok|].
  unfold is_killed in Hk. by rewrite Ep in Hk.
Qed.

(** An interrupt: the kernel serves it and returns. *)
Lemma usertrap_intr f e0 m :
  ink f e0 m -> Z.land (sstatus (hrt m)) SSTATUS_SPP = 0 -> is_killed me m = false ->
  scause (hrt m) = TIMER \/ is_external (scause (hrt m)) = true ->
  exists m1, ink f (sepc (hrt m)) m1 /\ usertrap' m = usertrapret ad clobber m1.
Proof.
  intros Hi Hs Hk Hc. unfold usertrap. rewrite (bind_ok _ _ _ _ _ (csrr_ok _ _)), Hs. change (negb (0 =? 0)) with false. cbv iota.
  rewrite (bind_ok _ _ _ _ _ (hartM_ok _ _)). set (m1 := with_hart _ m).
  assert (ink f e0 m1) as Hi1 by (by apply ink_hart).
  rewrite (bind_ok _ _ _ _ _ (ink_me _ _ _ Hi1)), (bind_ok _ _ _ _ _ (csrr_ok _ _)).
  rewrite (bind_ok _ _ _ _ _ (ink_put _ _ _ _ _ Hi1)), (bind_ok _ _ _ _ _ (csrr_ok _ _)).
  pose proof (ink_epc f e0 (sepc (hrt m1)) m1 Hi1) as Hi2. set (m2 := with_words _ m1) in *.
  change (sepc (hrt m1)) with (sepc (hrt m)) in Hi2. change (scause (hrt m2)) with (scause (hrt m)).
  assert ((scause (hrt m) =? 8) = false) as ->.
  { apply Z.eqb_neq. intros E8. destruct Hc as [Hc|Hc]; rewrite E8 in Hc; vm_compute in Hc; done. }
  assert (exists d m3, devintr plic_claim plic_complete call m2 = Ok d m3 /\ d <> 0 /\
    ink f (sepc (hrt m)) m3 /\ is_killed me m3 = false) as (d & m3 & E3 & Hd & Hi3 & Hk3).
  { destruct Hc as [Hc|Hc].
    - destruct (devintr_timer _ _ m2 Hi2 Hc) as (m3 & E & Hi3 & Ek). exists 2, m3. rewrite Ek. done.
    - destruct (devintr_external _ _ m2 Hi2 Hc) as (m3 & E & Hi3 & Ek). exists 1, m3. rewrite Ek. done. }
  assert (bind (devintr plic_claim plic_complete call) (fun d => bind (when (d =? 0) (sysM (procM (mod_proc me (set_killed true)))))
    (fun _ => ret d)) m2 = Ok d m3) as Ed.
  { rewrite (bind_ok _ _ _ _ _ E3). apply Z.eqb_neq in Hd as ->. done. }
  rewrite (bind_ok _ _ _ _ _ Ed). destruct (not_killed _ _ _ Hi3 Hk3) as (p & Ep & Hkp).
  rewrite (bind_ok _ _ _ _ _ Ep), Hkp. rewrite (bind_ok _ _ _ _ _ (ret_ok tt m3)).
  unfold when. destruct (d =? 2).
  - destruct (yield_keeps _ _ _ Hi3) as ([] & m4 & E4 & Hi4). exists m4. split; [done|]. by rewrite (bind_ok _ _ _ _ _ E4).
  - exists m3. split; [done|]. by rewrite (bind_ok _ _ _ _ _ (ret_ok tt m3)).
Qed.

(** ** Into the kernel and back *)

Hypothesis tf_mapped : maps_tf (MAKE_SATP pt) t.
#[local] Abbreviation ready := (user_ready me t pt kst ksatp).

Lemma spp_clear x : Z.land (Z.ldiff x (2 ^ 8)) SSTATUS_SPP = 0.
Proof.
  apply Z.bits_inj'. intros n Hn. rewrite Z.land_spec, Z.ldiff_spec, Z.bits_0. change SSTATUS_SPP with (2 ^ 8).
  destruct (Z.testbit (2 ^ 8) n); by rewrite ?andb_false_r.
Qed.

Lemma at_pc_ok a x m : pc (hrt m) = a -> at_pc a x m = x m.
Proof. intros E. unfold at_pc. rewrite (bind_ok _ _ _ _ _ (csrr_ok _ _)), E, Z.eqb_refl. done. Qed.

(** The trap and [uservec] *)
Lemma user_enter cause tval m :
  ready m ->
  exists m1 e0, bind (hartM (trap_enter cause tval))
      (fun _ => at_pc (TRAMPOLINE + uservec_off ad) (run trans uservec)) m = Ok tt m1 /\ pc (hrt m1) = usertrap_at ad /\
    ink (regs (hrt m)) e0 m1 /\ Z.land (sstatus (hrt m1)) SSTATUS_SPP = 0 /\ scause (hrt m1) = cause /\
    sepc (hrt m1) = pc (hrt m) /\ mprocs m1 = mprocs m.
Proof.
  intros Hu. rewrite (bind_ok _ _ _ _ _ (hartM_ok _ _)). set (h := trap_enter cause tval (hrt m)).
  assert (with_hart h m = at_ h (mwords m) m) as -> by (by rewrite <-(at_id m) at 1).
  rewrite at_pc_ok by apply Hu.
  destruct (uservec_ok t h (mwords m) m) as (h' & w' & E & Hcs & Hsav & Hkeep & Esatp & Etp & Epc).
  { apply Hu. } { change (satp h) with (satp (hrt m)). by rewrite (u_satp _ _ _ _ _ _ Hu). }
  destruct Hcs as (Ess & _ & _ & _ & Esepc & Ecause & _).
  exists (at_ h' w' m), (w' (t + TF_EPC)). split; [done|].
  split; [change (pc h' = usertrap_at ad); rewrite Epc; apply Hu|]. split; [|split; [|split; [done|split; [done|done]]]].
  - split; try done.
    + apply Hu.
    + cbn. rewrite Esatp. apply Hu.
    + cbn. rewrite Etp. apply Hu.
    + apply Hu.
  - cbn. rewrite Ess. unfold h, trap_enter. cbn [sstatus]. rewrite (u_mode _ _ _ _ _ _ Hu). apply spp_clear.
Qed.

(** [usertrapret], [userret] and the return *)
Lemma user_return f e m :
  ink f e m ->
  exists m', bind (usertrapret ad clobber) (fun _ => bind (at_pc (TRAMPOLINE + userret_off ad) (run trans userret))
      (fun _ => hartM sret)) m = Ok tt m' /\
    ready m' /\ (forall r, (1 <= r <= 31)%nat -> regs (hrt m') r = f r) /\ pc (hrt m') = e /\
    Z.testbit (sstatus (hrt m')) 1 = true /\ mprocs m' = mprocs m.
Proof.
  intros Hi. rewrite <-(at_id m) in Hi.
  destruct (usertrapret_ok f e (hrt m) (mwords m) m Hi) as (h1 & w1 & E1 & Hr & Ek & Esp & Etr & Ecpu & Est & Eepc & Ess & Ea0 & Ea1 & Epc).
  destruct (userret_ok t h1 w1 m Ea0) as (h2 & E2 & Hcs & Hr2 & Es2 & Esc2); [by rewrite Ea1|].
  destruct Hcs as (Ess2 & _ & _ & Estv2 & Eepc2 & _).
  exists (at_ (sret h2) w1 m). split; [|split; [|split; [|split; [|split]]]].
  - rewrite (at_id m) in E1. rewrite (bind_ok _ _ _ _ _ E1).
    rewrite (bind_ok _ _ (at_ h1 w1 m) tt (at_ h2 w1 m)); [done|]. by rewrite at_pc_ok.
  - destruct (i_proc _ _ _ _ _ _ _ _ Hi) as (p & Ep & Hp). destruct (i_devs _ _ _ _ _ _ _ _ Hi) as (tbl & Etb & Hw).
    split; try done.
    + by exists p.
    + change (negb (Z.testbit (sstatus h2) 8) = true). rewrite Ess2, Ess, Z.lor_spec, Z.ldiff_spec.
      change (Z.testbit SSTATUS_SPP 8) with true. by rewrite andb_false_r.
    + cbn. by rewrite Estv2.
    + cbn. by rewrite Es2, Ea1.
    + by exists tbl.
  - intros r Hr1. change (regs h2 r = f r). by rewrite Hr2, Hr.
  - cbn. by rewrite Eepc2.
  - cbn [hrt at_ with_hart sret sstatus]. rewrite Ess2, Ess. unfold set_bit.
    rewrite !Z.lor_spec, Z.ldiff_spec. change (Z.testbit SSTATUS_SPIE 5) with true. rewrite orb_true_r.
    rewrite !Z.lor_spec. change (Z.testbit (2 ^ 1) 1) with true. change (Z.testbit (2 ^ 8) 1) with false.
    by rewrite orb_true_r.
  - done.
Qed.

Lemma bind_eq {S B C} (x y : M S B) (g : B -> M S C) s1 s2 : x s1 = y s2 -> bind x g s1 = bind y g s2.
Proof. intros E. unfold bind. by rewrite E. Qed.

(** A trap that [usertrap] serves and returns from *)
Lemma user_trap_through cause tval m f e m0 m1 :
  bind (hartM (trap_enter cause tval)) (fun _ => at_pc (TRAMPOLINE + uservec_off ad) (run trans uservec)) m = Ok tt m0 ->
  pc (hrt m0) = usertrap_at ad ->
  ink f e m1 -> usertrap' m0 = usertrapret ad clobber m1 ->
  exists m', user_trap' cause tval m = Ok tt m' /\
    ready m' /\ (forall r, (1 <= r <= 31)%nat -> regs (hrt m') r = f r) /\ pc (hrt m') = e /\
    Z.testbit (sstatus (hrt m')) 1 = true /\ mprocs m' = mprocs m1.
Proof.
  intros E0 Hpc Hi E1. destruct (user_return f e m1 Hi) as (m' & E & H'). exists m'. split; [|done].
  apply bind_inv in E0 as ([] & mx & Ex & Ey). unfold user_trap.
  rewrite (bind_ok _ _ _ _ _ Ex), (bind_ok _ _ _ _ _ Ey), <-E. apply bind_eq. by rewrite at_pc_ok.
Qed.

(** C16: An interrupt is invisible to the program it interrupts.  A user program is running,
    with the trampoline ready and not killed; a timer or device interrupt comes.  Through
    [uservec], [usertrap], the handler, possibly a [yield] to other processes and a return on
    another hart, [usertrapret] and [userret], the program goes on: in user mode, at the same
    instruction, with the same 31 registers, on its own page table, with interrupts enabled,
    and the trampoline is ready for the next trap. *)
Theorem user_interrupt_transparent cause tval m :
  ready m -> is_killed me m = false -> cause = TIMER \/ is_external cause = true ->
  exists m', user_trap' cause tval m = Ok tt m' /\ ready m' /\
    (forall r, (1 <= r <= 31)%nat -> regs (hrt m') r = regs (hrt m) r) /\
    pc (hrt m') = pc (hrt m) /\ Z.testbit (sstatus (hrt m')) 1 = true.
Proof.
  intros Hu Hk Hc. destruct (user_enter cause tval m Hu) as (m0 & e0 & E0 & Ep0 & Hi & Hs & Ec & Eepc & Epr).
  destruct (usertrap_intr _ e0 m0 Hi Hs) as (m1 & Hi1 & E1); [unfold is_killed; by rewrite Epr|by rewrite Ec|].
  destruct (user_trap_through cause tval m _ _ m0 m1 E0 Ep0 Hi1 E1) as (m' & E & Hu' & Hr & Hpc & Hb & _).
  exists m'. rewrite Hpc, Eepc. done.
Qed.

(** ** System calls *)

#[local] Abbreviation syscalls' := (syscalls trampoline forkret sys_other).

Definition set_a0 (v : Z) (f : nat -> Z) : nat -> Z := fun r => if decide (r = a0) then v else f r.

Lemma ink_a0 f e m v :
  ink f e m -> ink (set_a0 v f) e (with_words (fupd (mwords m) (t + TF_A0) v) m).
Proof.
  intros Hi. destruct Hi as [Hp Hr Hep Hs Hc Hd]. split; try done.
  - intros r Hr1. cbn. unfold set_a0. case_decide as E.
    + subst r. apply fupd_eq.
    + rewrite fupd_ne; [by apply Hr|]. unfold tf_slot, TF_A0, a0 in *. lia.
  - cbn. rewrite fupd_ne; [done|]. unfold TF_EPC, TF_A0. lia.
Qed.

(** What the call with number [num] returned: the result of the entry of the table, run in the
    kernel for this process with the processes [ps], or -1 for a number without an entry. *)
Definition sys_result (num : Z) (f : nat -> Z) (e : Z) (ps : list proc) (r : Z) : Prop :=
  if (0 <? num) && (num <? NSYSCALLS)
  then exists k k', ink f e k /\ mprocs k = ps /\ sysM (syscalls' num me) k = Ok r k'
  else r = -1.

Lemma syscall_ok f e m :
  ink f e m -> is_killed me m = false ->
  (0 < s32 (f a7) < NSYSCALLS -> quiet me t pt kst ksatp (sysM (syscalls' (s32 (f a7)) me))) ->
  exists r m', sysM (syscall trampoline forkret sys_other me) m = Ok tt m' /\ ink (set_a0 (u64 r) f) e m' /\
    is_killed me m' = false /\ sys_result (s32 (f a7)) f e (mprocs m) r.
Proof.
  intros Hi Hk Hq. unfold syscall. rewrite sysM_bind, (bind_ok _ _ _ _ _ (ink_get _ _ _ _ Hi)).
  change TF_A7 with (tf_slot 17). rewrite (i_regs _ _ _ _ _ _ _ _ Hi 17%nat) by lia. change (f 17%nat) with (f a7).
  cbv zeta. unfold sys_result. destruct ((0 <? s32 (f a7)) && (s32 (f a7) <? NSYSCALLS)) eqn:En.
  - apply andb_true_iff in En as [N1 N2]. apply Z.ltb_lt in N1. apply Z.ltb_lt in N2.
    destruct (Hq (conj N1 N2) f e m Hi) as (r & m1 & E1 & Hi1 & Ek1). exists r.
    eexists. rewrite sysM_bind, (bind_ok _ _ _ _ _ E1), (ink_put _ _ _ _ _ Hi1). split; [reflexivity|].
    split; [by apply ink_a0|]. split; [by rewrite <-Hk, <-Ek1|]. by exists m, m1.
  - exists (-1). eexists. rewrite (ink_put _ _ _ _ _ Hi). split; [reflexivity|]. split; [by apply ink_a0|]. by split.
Qed.

Lemma usertrap_syscall f e0 m :
  ink f e0 m -> Z.land (sstatus (hrt m)) SSTATUS_SPP = 0 -> is_killed me m = false -> scause (hrt m) = 8 ->
  (0 < s32 (f a7) < NSYSCALLS -> quiet me t pt kst ksatp (sysM (syscalls' (s32 (f a7)) me))) ->
  exists r m1, ink (set_a0 (u64 r) f) (u64 (sepc (hrt m) + 4)) m1 /\ usertrap' m = usertrapret ad clobber m1 /\
    sys_result (s32 (f a7)) f (u64 (sepc (hrt m) + 4)) (mprocs m) r.
Proof.
  intros Hi Hs Hk Hc Hq. unfold usertrap. rewrite (bind_ok _ _ _ _ _ (csrr_ok _ _)), Hs. change (negb (0 =? 0)) with false. cbv iota.
  rewrite (bind_ok _ _ _ _ _ (hartM_ok _ _)). set (m1 := with_hart _ m).
  assert (ink f e0 m1) as Hi1 by (by apply ink_hart).
  rewrite (bind_ok _ _ _ _ _ (ink_me _ _ _ Hi1)), (bind_ok _ _ _ _ _ (csrr_ok _ _)).
  rewrite (bind_ok _ _ _ _ _ (ink_put _ _ _ _ _ Hi1)), (bind_ok _ _ _ _ _ (csrr_ok _ _)).
  pose proof (ink_epc f e0 (sepc (hrt m1)) m1 Hi1) as Hi2. set (m2 := with_words _ m1) in *.
  change (sepc (hrt m1)) with (sepc (hrt m)) in Hi2. change (scause (hrt m2)) with (scause (hrt m)).
  rewrite Hc. change (8 =? 8) with true. cbv iota.
  destruct (not_killed _ _ m2 Hi2 Hk) as (p & Ep & Hkp).
  pose proof (ink_epc f _ (u64 (sepc (hrt m) + 4)) m2 Hi2) as Hi3. set (m3 := with_words _ m2) in *.
  assert (ink f (u64 (sepc (hrt m) + 4)) (with_hart (intr_on (hrt m3)) m3)) as Hi4 by (by apply ink_hart).
  destruct (syscall_ok _ _ _ Hi4 Hk Hq) as (r & m5 & E5 & Hi5 & Hk5 & Hres).
  exists r, m5. split; [done|]. split; [|done].
  assert (bind (sysM (procM (get_proc me))) (fun p => bind (when (killed p) (sysM (exit_now me (-1))))
    (fun _ => bind (sysM (tf_get me TF_EPC)) (fun e => bind (sysM (tf_put me TF_EPC (u64 (e + 4))))
    (fun _ => bind (hartM intr_on) (fun _ => bind (sysM (syscall trampoline forkret sys_other me)) (fun _ => ret 0)))))) m2
    = Ok 0 m5) as Eb.
  { rewrite (bind_ok _ _ _ _ _ Ep), Hkp. rewrite (bind_ok _ _ _ _ _ (ret_ok tt m2)).
    rewrite (bind_ok _ _ _ _ _ (ink_get _ _ _ _ Hi2)), (i_epc _ _ _ _ _ _ _ _ Hi2).
    rewrite (bind_ok _ _ _ _ _ (ink_put _ _ _ _ _ Hi2)). fold m3. rewrite (bind_ok _ _ _ _ _ (hartM_ok _ _)).
    by rewrite (bind_ok _ _ _ _ _ E5). }
  rewrite (bind_ok _ _ _ _ _ Eb). destruct (not_killed _ _ _ Hi5 Hk5) as (p5 & Ep5 & Hkp5).
  rewrite (bind_ok _ _ _ _ _ Ep5), Hkp5. rewrite (bind_ok _ _ _ _ _ (ret_ok tt m5)). done.
Qed.

(** C17: A system call returns to its caller.  A user program executes [ecall] with a call
    number in [a7]; the call itself is one that returns (and does not replace the program).
    Then the program goes on in user mode at the instruction after the [ecall], with the
    result -- what the entry of the system-call table returned, or -1 when there is none -- in
    [a0] and the other 30 registers as they were, and the trampoline is ready for the next trap. *)
Theorem system_call_returns tval m :
  ready m -> is_killed me m = false ->
  (0 < s32 (regs (hrt m) a7) < NSYSCALLS ->
   quiet me t pt kst ksatp (sysM (syscalls' (s32 (regs (hrt m) a7)) me))) ->
  exists r m', user_trap' 8 tval m = Ok tt m' /\ ready m' /\ regs (hrt m') a0 = u64 r /\
    sys_result (s32 (regs (hrt m) a7)) (regs (hrt m)) (u64 (pc (hrt m) + 4)) (mprocs m) r /\
    (forall i, (1 <= i <= 31)%nat -> i <> a0 -> regs (hrt m') i = regs (hrt m) i) /\
    pc (hrt m') = u64 (pc (hrt m) + 4) /\ Z.testbit (sstatus (hrt m')) 1 = true.
Proof.
  intros Hu Hk Hq. destruct (user_enter 8 tval m Hu) as (m0 & e0 & E0 & Ep0 & Hi & Hs & Ec & Eepc & Epr).
  destruct (usertrap_syscall _ e0 m0 Hi Hs) as (r & m1 & Hi1 & E1 & Hres); [unfold is_killed; by rewrite Epr|done|done|].
  destruct (user_trap_through 8 tval m _ _ m0 m1 E0 Ep0 Hi1 E1) as (m' & E & Hu' & Hr & Hpc & Hb & _).
  rewrite Eepc, ?Epr in *. exists r, m'. split; [done|]. split; [done|]. split; [|split; [done|split; [|done]]].
  - rewrite Hr by (unfold a0; lia). unfold set_a0. by rewrite decide_True.
  - intros i H1 H2. rewrite Hr by done. unfold set_a0. by rewrite decide_False.
Qed.
End user.
End machine.

(** * Examples *)

(** A machine with one process in user mode, at address 1000, with its trap frame at 4096 *)
Definition wit_ad : addrs := mkaddrs 100 200 0 400 500 600.
Definition wit_trans (st va : Z) : option Z :=
  if (TRAPFRAME <=? va) && (va <? TRAPFRAME + 4096) then Some (4096 + (va - TRAPFRAME)) else Some va.
Definition wit_words (a : Z) : Z := if a =? 4096 then 77 else if a =? 4104 then 12288 else if a =? 4112 then 200 else 0.
Definition wit_proc : proc := mkproc RUNNING None None false 0 5 8192 4096 16384 4096 (0, 0) [] None [].
Definition wit_hart : hart := mkhart (fun r => if decide (r = a7) then 11 else 40 + Z.of_nat r) 1000 true 0 0 2 TRAMPOLINE 0 0 0 (MAKE_SATP 16384) TRAPFRAME.
Definition wit_tbl : hashmap devintr_map :=
  mkmap false 16 (2 ^ Z.of_nat 4) 0 0 devintr_hash devintr_compare 0 24 (2 ^ Z.of_nat 4) 0
    (2 ^ Z.of_nat 4 - 1) (2 ^ Z.of_nat 4 / 2) (2 ^ Z.of_nat 4 / 10) (replicate (2 ^ 4) zero_bucket) 0 0.
Definition wit_mach : mach (R:=unit) (A:=Z) :=
  mkmach wit_hart (mksys (mkpst [wit_proc] 6 (Some 0%nat) (mkenv wit_words tt)) 3) (Some wit_tbl) 0 (fun _ => Some 0%nat).

Lemma wit_tbl_wf : wf devintr_hash devintr_compare wit_tbl.
Proof. apply new_wf. lia. Qed.

Lemma wit_ready : user_ready wit_ad 0 4096 16384 8192 77 wit_mach.
Proof. split; try done; [by exists wit_proc|]. exists wit_tbl. split; [done|apply wit_tbl_wf]. Qed.

Lemma wit_maps : maps_tf wit_trans (MAKE_SATP 16384) 4096.
Proof.
  intros o Ho. unfold wit_trans. destruct (Z.leb_spec TRAPFRAME (TRAPFRAME + o)); [|lia].
  destruct (Z.ltb_spec (TRAPFRAME + o) (TRAPFRAME + 4096)); [|lia]. cbn [andb]. do 2 f_equal. lia.
Qed.

(** [getpid] returns, whatever the kernel is doing *)
Lemma getpid_quiet : quiet (R:=unit) (A:=Z) 0 4096 16384 8192 77 (sysM (syscalls 0 0 (fun _ _ => undef) 11 0)).
Proof.
  intros f e m Hi. destruct (i_proc _ _ _ _ _ _ _ _ Hi) as (p & Ep & _). exists (pid p), m. split; [|done].
  change (syscalls 0 0 (fun _ _ => undef) 11 0) with (sys_getpid (R:=unit) 0). unfold sys_getpid.
  by rewrite sysM_bind, (bind_ok _ _ _ _ _ (proc_ok _ _ _ Ep)); destruct m.
Qed.

Lemma user_interrupt_transparent_witness :
  exists m', user_trap 0 0 (fun _ _ => undef) wit_ad wit_trans (ret 10) (fun _ => ret tt) (fun _ => ret tt)
      (fun _ => ret tt) (fun f => f) TIMER 0 wit_mach = Ok tt m' /\
    (forall r, (1 <= r <= 31)%nat -> regs (hrt m') r = regs (hrt wit_mach) r) /\ pc (hrt m') = 1000.
Proof.
  destruct (user_interrupt_transparent (R:=unit) (A:=Z) 0 0 (fun _ _ => undef) wit_ad wit_trans 0 4096 16384 8192 77 (fun f => f)
    (ret 10) (fun _ => ret tt) (fun _ => ret tt) (fun _ => ret tt)) with (cause := TIMER) (tval := 0) (m := wit_mach)
    as (m' & E & _ & Hr & Hpc & _).
  - apply quiet_ret.
  - intros. apply quiet_ret.
  - intros. apply quiet_ret.
  - intros f e m Hi. by exists tt, m.
  - apply wit_maps.
  - apply wit_ready.
  - reflexivity.
  - by left.
  - exists m'. by split; [|split].
Defined.

Lemma system_call_returns_witness :
  exists r m', user_trap 0 0 (fun _ _ => undef) wit_ad wit_trans (ret 10) (fun _ => ret tt) (fun _ => ret tt)
      (fun _ => ret tt) (fun f => f) 8 0 wit_mach = Ok tt m' /\ regs (hrt m') a0 = u64 r /\ pc (hrt m') = 1004.
Proof.
  destruct (system_call_returns (R:=unit) (A:=Z) 0 0 (fun _ _ => undef) wit_ad wit_trans 0 4096 16384 8192 77 (fun f => f)
    (ret 10) (fun _ => ret tt) (fun _ => ret tt) (fun _ => ret tt)) with (tval := 0) (m := wit_mach)
    as (r & m' & E & _ & Ha & _ & _ & Hpc & _).
  - apply wit_maps.
  - apply wit_ready.
  - reflexivity.
  - intros _. apply getpid_quiet.
  - exists r, m'. by split; [|split].
Defined.

(** [getpid] by running the machine: the process has number 5. *)
Example getpid_runs :
  match user_trap 0 0 (fun _ _ => undef) wit_ad wit_trans (ret 10) (fun _ => ret tt) (fun _ => ret tt)
      (fun _ => ret tt) (fun f => f) 8 0 wit_mach with
  | Ok _ m' => regs (hrt m') a0 = 5 /\ regs (hrt m') s11 = 67 /\ pc (hrt m') = 1004 /\ umode (hrt m') = true
  | _ => False
  end.
Proof. vm_compute. auto. Qed.
