(* ===== verification/TrapKernel.v ===== *)
(** Traps from the kernel and the dispatch of device interrupts: theorems on Trap.v.

    An interrupt of kernel code goes through [kernelvec] and [kerneltrap]; a device interrupt
    reaches the handler that was registered last for its number in the hash map that
    [trapinit] makes. *)

From S2P Require Import Prelude Proc HashMap HashMapTable HashMapSpec Syscall Trap TrapSpec.

Section kernel.
Context {R : Type} `{!ProcEnv R} {A : Type} `{!Hmalloc A} (ad : addrs) (trans : Z -> Z -> option Z).
Implicit Types (m : mach (R:=R) (A:=A)) (h : hart) (w : Z -> Z).

(** ** [kernelvec] *)

(** The place of a register on the stack *)
Definition kv_slot (r : nat) : Z := 8 * Z.of_nat r - 8.
Definition kv_pairs : list (nat * Z) := (fun r => (r, kv_slot r)) <$> seq 1 31.
(** The registers loaded after the stack pointer: not [tp] *)
Definition kv_rest : list (nat * Z) := (fun r => (r, kv_slot r)) <$> (3%nat :: seq 5 27).

Lemma save_eq : kernelvec_save = ADDI sp sp (-256) :: saves sp kv_pairs ++ [].
Proof. reflexivity. Qed.
Lemma restore_eq :
  kernelvec_restore = loads sp [(ra, 0)] ++ LD sp 8 sp :: loads sp kv_rest ++ [ADDI sp sp 256].
Proof. reflexivity. Qed.

Lemma kv_pairs_elem r o : (r, o) ∈ kv_pairs <-> (1 <= r <= 31)%nat /\ o = kv_slot r.
Proof.
  unfold kv_pairs. rewrite list_elem_of_fmap. split.
  - intros (x & [= -> ->] & Hx). rewrite elem_of_seq in Hx. split; [lia|done].
  - intros [Hr ->]. exists r. split; [done|]. rewrite elem_of_seq. lia.
Qed.
Lemma kv_rest_elem r o : (r, o) ∈ kv_rest <-> ((3 <= r <= 31)%nat /\ r <> 4%nat) /\ o = kv_slot r.
Proof.
  unfold kv_rest. rewrite list_elem_of_fmap. split.
  - intros (x & [= -> ->] & Hx). rewrite elem_of_cons, elem_of_seq in Hx. split; [lia|done].
  - intros [Hr ->]. exists r. split; [done|]. rewrite elem_of_cons, elem_of_seq. lia.
Qed.
Lemma kv_pairs_offs : NoDup kv_pairs.*2.
Proof. apply (bool_decide_unpack _). vm_compute. done. Qed.
Lemma kv_rest_regs : NoDup kv_rest.*1.
Proof. apply (bool_decide_unpack _). vm_compute. done. Qed.

(** A load that may change its own base register *)
Lemma ld_at rd off base pa h w m k :
  trans (satp h) (u64 (regs h base + off)) = Some pa ->
  run trans (LD rd off base :: k) (at_ h w m) = run trans k (at_ (rset rd (w pa) h) w m).
Proof.
  intros E. cbn [run step]. rewrite (bind_ok _ _ (at_ h w m) tt (at_ (rset rd (w pa) h) w m)); [done|].
  rewrite (bind_ok _ _ _ _ _ (csrr_ok _ _)). unfold rget.
  rewrite (bind_ok _ _ _ _ _ (translate_ok trans _ _ (at_ h w m) E)), (bind_ok _ _ _ _ _ (load_ok _ _)). done.
Qed.

(** The 256 bytes below the stack pointer [s] are mapped, at [b] in memory. *)
Definition maps_stack (st s b : Z) : Prop :=
  forall o, 0 <= o < 256 -> trans st (u64 (u64 (s - 256) + o)) = Some (b + o).

Lemma save_ok b h w m :
  maps_stack (satp h) (regs h sp) b ->
  exists w', run trans kernelvec_save (at_ h w m) = Ok tt (at_ (rset sp (u64 (regs h sp - 256)) h) w' m) /\
    w' (b + 8) = u64 (regs h sp - 256) /\
    forall r, (1 <= r <= 31)%nat -> r <> sp -> w' (b + kv_slot r) = regs h r.
Proof.
  intros Hm. rewrite save_eq, hart_at by done.
  set (h1 := hart_step (ADDI sp sp (-256)) h). assert (regs h1 sp = u64 (regs h sp - 256)) as Es by done.
  rewrite (saves_at trans sp b).
  2:{ intros [r o] Hro. apply kv_pairs_elem in Hro as [Hr ->]. cbn [snd]. rewrite Es. apply Hm. unfold kv_slot. lia. }
  eexists. split; [reflexivity|].
  assert (forall r, (1 <= r <= 31)%nat -> saved b (regs h1) kv_pairs w (b + kv_slot r) = regs h1 r) as Hs.
  { intros r Hr. apply saved_at; [apply kv_pairs_offs|by apply kv_pairs_elem]. }
  split; [apply (Hs 2%nat); lia|]. intros r Hr Hne. rewrite Hs by done. cbn. by rewrite decide_False.
Qed.

Lemma restore_ok b s h w m :
  regs h sp = u64 (s - 256) -> w (b + 8) = u64 (s - 256) -> maps_stack (satp h) s b ->
  exists h', run trans kernelvec_restore (at_ h w m) = Ok tt (at_ h' w m) /\ same_csrs h h' /\ satp h' = satp h /\
    pc h' = pc h /\ regs h' tp = regs h tp /\ regs h' sp = u64 s /\
    forall r, (1 <= r <= 31)%nat -> r <> sp -> r <> tp -> regs h' r = w (b + kv_slot r).
Proof.
  intros Es Ew Hm. rewrite restore_eq. rewrite (loads_at trans sp b).
  2:{ by apply (bool_decide_unpack _). }
  2:{ intros ro Hro. apply list_elem_of_singleton in Hro as ->. rewrite Es. apply Hm. cbn. lia. }
  set (h1 := set_regs _ h). assert (regs h1 sp = u64 (s - 256) /\ regs h1 ra = w (b + 0) /\ regs h1 tp = regs h tp)
    as (E1 & E2 & E3) by done.
  rewrite (ld_at sp 8 sp (b + 8)) by (rewrite E1; apply Hm; lia).
  set (h2 := rset sp (w (b + 8)) h1).
  assert (regs h2 sp = u64 (s - 256) /\ regs h2 ra = w (b + 0) /\ regs h2 tp = regs h tp) as (F1 & F2 & F3) by done.
  rewrite (loads_at trans sp b).
  2:{ apply (bool_decide_unpack _). vm_compute. done. }
  2:{ intros [r o] Hro. apply kv_rest_elem in Hro as [Hr ->]. cbn [snd]. rewrite F1. apply Hm. unfold kv_slot. lia. }
  set (f := loaded b w kv_rest (regs h2)).
  assert (f sp = u64 (s - 256)) as G1.
  { unfold f. rewrite loaded_other; [done|]. apply (bool_decide_unpack _). vm_compute. done. }
  assert (f ra = w (b + 0)) as G2.
  { unfold f. rewrite loaded_other; [done|]. apply (bool_decide_unpack _). vm_compute. done. }
  assert (f tp = regs h tp) as G3.
  { unfold f. rewrite loaded_other; [done|]. apply (bool_decide_unpack _). vm_compute. done. }
  assert (forall r, (3 <= r <= 31)%nat -> r <> 4%nat -> f r = w (b + kv_slot r)) as G4.
  { intros r Hr Hne. unfold f. apply loaded_at; [apply kv_rest_regs|]. by apply kv_rest_elem. }
  clearbody f. rewrite hart_at by done. eexists. split; [reflexivity|]. split; [done|]. split; [done|]. split; [done|].
  split; [done|]. split.
  - cbn. rewrite G1. unfold u64. rewrite wrap_add_l. f_equal. lia.
  - intros r Hr N1 N2. cbn. rewrite decide_False by done. destruct (decide (r = ra)) as [->|N3]; [done|].
    apply G4; unfold sp, tp, ra in *; lia.
Qed.

(** ** [kerneltrap] *)

Context (plic_claim : M (mach (R:=R) (A:=A)) Z) (plic_complete : Z -> M (mach (R:=R) (A:=A)) unit)
  (call : Z -> M (mach (R:=R) (A:=A)) unit) (resched : nat -> M (mach (R:=R) (A:=A)) unit)
  (clobber : (nat -> Z) -> (nat -> Z)) (b s ksatp : Z).

(** What an interrupted kernel thread relies on while its trap is served: the 256 bytes that
    [kernelvec] has saved (as in [w0]), its stack pointer and its page table. *)
Record instack (w0 : Z -> Z) m : Prop := {
  k_words o : 0 <= o < 256 -> mwords m (b + o) = w0 (b + o);
  k_sp : regs (hrt m) sp = s;
  k_satp : satp (hrt m) = ksatp;
  k_proc me : cpus m (regs (hrt m) tp) = Some me -> exists p, mprocs m !! me = Some p;
  k_devs : exists tbl, devintr_callbacks m = Some tbl /\ wf devintr_hash devintr_compare tbl;
}.

Definition keeps_stack {B} (x : M (mach (R:=R) (A:=A)) B) : Prop :=
  forall w0 m, instack w0 m -> exists v m', x m = Ok v m' /\ instack w0 m'.

Hypothesis claim_keeps : keeps_stack plic_claim.
Hypothesis complete_keeps : forall i, keeps_stack (plic_complete i).
Hypothesis call_keeps : forall a, keeps_stack (call a).
Hypothesis resched_stack : forall me, keeps_stack (resched me).
Hypothesis clobber_sp : forall f, clobber f sp = f sp.

Lemma ks_bind {B C} (x : M (mach (R:=R) (A:=A)) B) (g : B -> M (mach (R:=R) (A:=A)) C) :
  keeps_stack x -> (forall v, keeps_stack (g v)) -> keeps_stack (bind x g).
Proof.
  intros Hx Hg w0 m Hi. destruct (Hx w0 m Hi) as (v & m1 & E1 & Hi1). destruct (Hg v w0 m1 Hi1) as (c & m2 & E2 & Hi2).
  exists c, m2. by rewrite (bind_ok _ _ _ _ _ E1).
Qed.
Lemma ks_ret {B} (v : B) : keeps_stack (ret v).
Proof. intros w0 m Hi. by exists v, m. Qed.
Lemma keeps_csrr {B} (g : hart -> B) : keeps_stack (csrr g).
Proof. intros w0 m Hi. by exists (g (hrt m)), m. Qed.
Lemma keeps_hartM g : (forall h, regs (g h) = regs h /\ satp (g h) = satp h) -> keeps_stack (hartM g).
Proof.
  intros Hg w0 m Hi. eexists _, _. split; [reflexivity|]. destruct (Hg (hrt m)) as [E1 E2], Hi as [H1 H2 H3 H4 H5].
  split; try done; cbn; rewrite ?E1, ?E2; done.
Qed.

Lemma instack_procs w0 m l : instack w0 m -> length l = length (mprocs m) -> instack w0 (with_procs l m).
Proof.
  intros [H1 H2 H3 H4 H5] El. split; try done. intros me E. cbn. destruct (H4 me E) as (p & Ep).
  apply lookup_lt_is_Some_2. rewrite El. by apply lookup_lt_Some in Ep.
Qed.

Lemma keeps_clockintr : keeps_stack clockintr.
Proof.
  intros w0 m Hi. rewrite clockintr_ok. eexists _, _. split; [reflexivity|]. apply instack_procs.
  - destruct Hi. by split.
  - by rewrite length_fmap.
Qed.

Lemma keeps_yield me w0 m :
  instack w0 m -> cpus m (regs (hrt m) tp) = Some me -> exists m', yield_cpu resched me m = Ok tt m' /\ instack w0 m'.
Proof.
  intros Hi E. destruct (k_proc _ _ Hi me E) as (p & Ep).
  assert (sysM (procM (yield me)) m = Ok tt (with_procs (<[me := set_state RUNNABLE p]> (mprocs m)) m)) as Ey.
  { unfold sysM, procM, yield, mod_proc. change (procs (kp (ks m))) with (mprocs m). by rewrite Ep. }
  destruct (resched_stack me w0 (with_procs (<[me := set_state RUNNABLE p]> (mprocs m)) m)) as ([] & m' & E' & Hi').
  { apply instack_procs; [done|]. apply length_insert. }
  exists m'. split; [|done]. unfold yield_cpu. by rewrite (bind_ok _ _ _ _ _ Ey).
Qed.

(** The device part never fails, and says which kind of interrupt it was. *)
Lemma devintr_stack w0 m :
  instack w0 m -> scause (hrt m) = TIMER \/ is_external (scause (hrt m)) = true ->
  exists d m', devintr plic_claim plic_complete call m = Ok d m' /\ d <> 0 /\ instack w0 m'.
Proof.
  intros Hi Hc. unfold devintr. rewrite (bind_ok _ _ _ _ _ (csrr_ok _ _)).
  change (negb (Z.land (scause (hrt m)) 0x8000000000000000 =? 0) && (Z.land (scause (hrt m)) 0xff =? 9))
    with (is_external (scause (hrt m))). destruct (is_external (scause (hrt m))) eqn:Ex.
  - destruct (claim_keeps w0 m Hi) as (i & m1 & E1 & Hi1). rewrite (bind_ok _ _ _ _ _ E1).
    destruct (k_devs _ _ Hi1) as (tbl & Et & Hw).
    rewrite (bind_ok (gets devintr_callbacks) _ m1 (Some tbl) m1) by (unfold gets; by rewrite Et). cbv iota.
    rewrite (bind_ok _ _ _ _ _ (hm_get_ok m1 tbl i Hw)).
    assert (keeps_stack (match abs (K:=Z) devintr_hash devintr_compare tbl !! i with
      | Some map => call (callback map) | None => ret tt end)) as Hq
      by (destruct (abs _ _ tbl !! i); [apply call_keeps|apply ks_ret]).
    destruct (Hq w0 m1 Hi1) as ([] & m2 & E2 & Hi2). rewrite (bind_ok _ _ _ _ _ E2).
    destruct (complete_keeps i w0 m2 Hi2) as ([] & m3 & E3 & Hi3). rewrite (bind_ok _ _ _ _ _ E3). by exists 1, m3.
  - destruct Hc as [Hc|]; [|done]. rewrite Hc. change (TIMER =? 0x8000000000000001) with true. cbv iota.
    assert (keeps_stack (bind cpuid (fun id => bind (when (id =? 0) clockintr)
      (fun _ => hartM (fun h => w_sip (Z.ldiff (sip h) 2) h))))) as Hq.
    { apply ks_bind; [apply keeps_csrr|]. intros id. apply ks_bind; [|intros _; by apply keeps_hartM].
      unfold when. destruct (id =? 0); [apply keeps_clockintr|apply ks_ret]. }
    destruct (Hq w0 m Hi) as ([] & m' & E & Hi'). exists 2, m'. split; [|done].
    apply bind_inv in E as (id & m1 & E1 & E2). apply bind_inv in E2 as (u & m2 & E2 & E3).
    by rewrite (bind_ok _ _ _ _ _ E1), (bind_ok _ _ _ _ _ E2), (bind_ok _ _ _ _ _ E3).
Qed.

#[local] Abbreviation kerneltrap' := (kerneltrap plic_claim plic_complete call resched).

Lemma kerneltrap_ok w0 m :
  instack w0 m -> scause (hrt m) = TIMER \/ is_external (scause (hrt m)) = true ->
  Z.land (sstatus (hrt m)) SSTATUS_SPP <> 0 -> intr_get (hrt m) = false ->
  exists m', kerneltrap' m = Ok tt m' /\ instack w0 m' /\ sepc (hrt m') = sepc (hrt m) /\ sstatus (hrt m') = sstatus (hrt m).
Proof.
  intros Hi Hc Hs Hg. unfold kerneltrap. do 3 rewrite (bind_ok _ _ _ _ _ (csrr_ok _ _)).
  apply Z.eqb_neq in Hs as ->. rewrite (bind_ok _ _ _ _ _ (csrr_ok _ _)), Hg.
  destruct (devintr_stack w0 m Hi Hc) as (d & m1 & E1 & Hd & Hi1). rewrite (bind_ok _ _ _ _ _ E1).
  apply Z.eqb_neq in Hd as ->. unfold myproc at 1, cpuid.
  rewrite (bind_ok _ _ m1 (cpus m1 (regs (hrt m1) tp)) m1) by done.
  assert (exists m2, (match cpus m1 (regs (hrt m1) tp) with
    | Some me => bind (sysM (procM (get_proc me))) (fun p => when ((d =? 2) && is_state RUNNING p) (yield_cpu resched me))
    | None => ret tt end) m1 = Ok tt m2 /\ instack w0 m2) as (m2 & E2 & Hi2).
  { destruct (cpus m1 (regs (hrt m1) tp)) as [me|] eqn:Ec; [|by exists m1].
    destruct (k_proc _ _ Hi1 me Ec) as (p & Ep). rewrite (bind_ok _ _ _ _ _ (proc_ok _ _ _ Ep)).
    unfold when. destruct (_ && _); [by apply keeps_yield|by exists m1]. }
  rewrite (bind_ok _ _ _ _ _ E2). do 1 rewrite (bind_ok _ _ _ _ _ (hartM_ok _ _)). rewrite hartM_ok.
  eexists. split; [reflexivity|]. split; [|done]. destruct Hi2 as [H1 H2 H3 H4 H5]. by split.
Qed.

Lemma set_bit_spec k v x n : 0 <= k -> 0 <= n -> Z.testbit (set_bit k v x) n = if n =? k then v else Z.testbit x n.
Proof.
  intros Hk Hn. unfold set_bit. destruct v; [rewrite Z.lor_spec|rewrite Z.ldiff_spec]; rewrite Z.pow2_bits_eqb by done;
    rewrite (Z.eqb_sym k n); destruct (n =? k), (Z.testbit x n); done.
Qed.

Lemma land_one_bit x k : 0 <= k -> Z.land x (2 ^ k) = if Z.testbit x k then 2 ^ k else 0.
Proof.
  intros Hk. apply Z.bits_inj'. intros n Hn. rewrite Z.land_spec, Z.pow2_bits_eqb by done.
  destruct (Z.eqb_spec k n) as [->|Hne].
  - destruct (Z.testbit x n); [by rewrite Z.pow2_bits_true|by rewrite Z.bits_0].
  - rewrite andb_false_r. destruct (Z.testbit x k); [|by rewrite Z.bits_0]. by rewrite Z.pow2_bits_false.
Qed.

#[local] Abbreviation kernel_trap' := (kernel_trap ad trans plic_claim plic_complete call resched clobber).

(** C18: An interrupt of kernel code is invisible to it.  A kernel thread runs with interrupts
    enabled and 256 bytes of mapped stack below its stack pointer; a timer or device interrupt
    comes.  Through [kernelvec], [kerneltrap], the handler and possibly a [yield], the thread
    goes on at the same instruction, in supervisor mode, with interrupts enabled and all its
    registers but [tp], the number of the hart, which may be another one. *)
Theorem kernel_interrupt_transparent cause tval m :
  umode (hrt m) = false -> Z.testbit (sstatus (hrt m)) 1 = true -> stvec (hrt m) = kernelvec_at ad ->
  satp (hrt m) = ksatp -> 0 <= regs (hrt m) sp < 2 ^ 64 -> s = u64 (regs (hrt m) sp - 256) ->
  maps_stack ksatp (regs (hrt m) sp) b ->
  (forall me, cpus m (regs (hrt m) tp) = Some me -> exists p, mprocs m !! me = Some p) ->
  (exists tbl, devintr_callbacks m = Some tbl /\ wf devintr_hash devintr_compare tbl) ->
  cause = TIMER \/ is_external cause = true ->
  exists m', kernel_trap' cause tval m = Ok tt m' /\ umode (hrt m') = false /\ pc (hrt m') = pc (hrt m) /\
    satp (hrt m') = satp (hrt m) /\
    (forall r, (1 <= r <= 31)%nat -> r <> tp -> regs (hrt m') r = regs (hrt m) r) /\
    (forall n, 0 <= n -> n <> 5 -> n <> 8 -> Z.testbit (sstatus (hrt m')) n = Z.testbit (sstatus (hrt m)) n).
Proof.
  intros Hum Hie Hst Hsa Hsp Es Hms Hpr Hdv Hc. unfold kernel_trap.
  set (h := trap_enter cause tval (hrt m)).
  assert (Z.testbit (sstatus h) 8 = true /\ Z.testbit (sstatus h) 1 = false /\ Z.testbit (sstatus h) 5 = true /\
    forall n, 0 <= n -> n <> 1 -> n <> 5 -> n <> 8 -> Z.testbit (sstatus h) n = Z.testbit (sstatus (hrt m)) n)
    as (B8 & B1 & B5 & Bn).
  { unfold h, trap_enter. cbn [sstatus]. rewrite Hum. change (negb false) with true.
    rewrite !set_bit_spec by lia. rewrite Hie. repeat split. intros n Hn N1 N5 N8. rewrite !set_bit_spec by lia.
    apply Z.eqb_neq in N1 as ->. apply Z.eqb_neq in N5 as ->. by apply Z.eqb_neq in N8 as ->. }
  assert (at_ h (mwords m) m = with_hart h m) as Eat by (unfold at_; by rewrite with_words_id).
  rewrite (bind_ok _ _ m tt (at_ h (mwords m) m)) by (by rewrite Eat).
  destruct (save_ok b h (mwords m) m) as (w' & Esv & Ew8 & Hsv).
  { change (satp h) with (satp (hrt m)). by rewrite Hsa. }
  change (regs h sp) with (regs (hrt m) sp) in Esv, Ew8. rewrite <-Es in Esv, Ew8.
  rewrite (bind_ok _ _ (at_ h (mwords m) m) tt (at_ (rset sp s h) w' m)) by (by rewrite at_pc_ok).
  set (m1 := at_ (rset sp s h) w' m).
  assert (instack w' m1) as Hi1.
  { split; try done. }
  destruct (kerneltrap_ok w' m1 Hi1) as (m2 & E2 & Hi2 & Eepc & Ess).
  { done. }
  { change (sstatus (hrt m1)) with (sstatus h). change SSTATUS_SPP with (2 ^ 8). rewrite land_one_bit, B8 by lia. done. }
  { unfold intr_get. change (sstatus (hrt m1)) with (sstatus h). change SSTATUS_SIE with (2 ^ 1). by rewrite land_one_bit, B1 by lia. }
  rewrite (bind_ok _ _ _ _ _ E2). set (h3 := set_regs (clobber (regs (hrt m2))) (hrt m2)).
  rewrite (bind_ok _ _ m2 tt (at_ h3 (mwords m2) m2)) by (unfold at_; by rewrite with_words_id).
  destruct Hi2 as [K1 K2 K3 _ _].
  destruct (restore_ok b (regs (hrt m) sp) h3 (mwords m2) m2) as (h4 & E4 & Hcs & Es4 & Epc4 & _ & Esp4 & Hr4).
  { unfold h3. cbn. rewrite clobber_sp, K2. done. }
  { rewrite K1 by lia. by rewrite Ew8. }
  { change (satp h3) with (satp (hrt m2)). by rewrite K3. }
  rewrite (bind_ok _ _ _ _ _ E4), hartM_at. destruct Hcs as (S1 & _ & _ & _ & S5 & _).
  change (sstatus h3) with (sstatus (hrt m2)) in S1. change (sepc h3) with (sepc (hrt m2)) in S5.
  rewrite Ess in S1. rewrite Eepc in S5. change (sstatus (hrt m1)) with (sstatus h) in S1. change (sepc (hrt m1)) with (pc (hrt m)) in S5.
  eexists. split; [reflexivity|]. cbn [hrt at_ with_hart]. unfold sret. cbn [umode pc satp regs sstatus].
  split; [by rewrite S1, B8|]. split; [done|]. split; [rewrite Es4; change (satp h3) with (satp (hrt m2)); congruence|]. split.
  - intros r Hr Ht. destruct (decide (r = sp)) as [->|Hns]; [rewrite Esp4; by apply u64_small|].
    rewrite Hr4 by done. rewrite K1 by (unfold kv_slot; lia). by rewrite Hsv.
  - intros n Hn N5 N8. rewrite S1, B5, !set_bit_spec by lia. apply Z.eqb_neq in N8 as N8'. rewrite N8'.
    apply Z.eqb_neq in N5 as N5'. rewrite N5'. destruct (Z.eqb_spec n 1) as [->|N1]; [by rewrite Hie|]. by apply Bn.
Qed.
End kernel.

(** ** The handlers of the devices *)

Section devices.
Context {R : Type} `{!ProcEnv R} {A : Type} `{!Hmalloc A} (ad : addrs)
  (plic_claim : M (mach (R:=R) (A:=A)) Z) (plic_complete : Z -> M (mach (R:=R) (A:=A)) unit)
  (call : Z -> M (mach (R:=R) (A:=A)) unit).
Implicit Types (m : mach (R:=R) (A:=A)).

#[local] Abbreviation habs := (abs (K:=Z) devintr_hash devintr_compare).
#[local] Abbreviation hwf := (wf (K:=Z) devintr_hash devintr_compare).

(** Registrations, one after the other *)
Fixpoint register_all (l : list (Z * Z)) : M (mach (R:=R) (A:=A)) unit :=
  match l with
  | [] => ret tt
  | (i, cb) :: l => devintr_register_callback i cb;; register_all l
  end.

(** The handler that was registered last for a number *)
Definition add_handlers (H : gmap Z devintr_map) (l : list (Z * Z)) : gmap Z devintr_map :=
  foldl (fun H ic => <[ic.1 := mkdev ic.1 ic.2]> H) H l.

Lemma register_ok i cb m tbl :
  ~ no_memory (A:=A) -> devintr_callbacks m = Some tbl -> hwf tbl -> hm_count tbl < 2 ^ 14 ->
  exists r m' tbl', devintr_register_callback i cb m = Ok r m' /\ devintr_callbacks m' = Some tbl' /\ hwf tbl' /\
    habs tbl' = <[i := mkdev i cb]> (habs tbl) /\ hm_count tbl' <= hm_count tbl + 1.
Proof.
  intros Hm Et Hw Hc. unfold devintr_register_callback.
  rewrite (bind_ok (gets devintr_callbacks) _ m (Some tbl) m) by (unfold gets; by rewrite Et). cbv iota.
  destruct (hashmap_set_ok devintr_hash devintr_compare tbl (mkdev i cb) (hmst m) Hw Hc) as (r & tbl' & st' & E & Hw' & Hr).
  assert (hmM (hashmap_set tbl (Some (mkdev i cb))) m = Ok (r, tbl') (mkmach (hrt m) (ks m) (devintr_callbacks m) st' (cpus m)))
    as Eh by (unfold hmM; by rewrite E).
  rewrite (bind_ok _ _ _ _ _ Eh). eexists r, _, tbl'. split; [reflexivity|]. split; [done|]. split; [done|].
  destruct (hm_oom tbl'); [naive_solver|]. destruct Hr as [_ Ea]. split; [done|].
  rewrite (wf_size _ _ tbl' Hw'), (wf_size _ _ tbl Hw), Ea, map_size_insert. destruct (habs tbl !! _); unfold id; lia.
Qed.

Lemma register_all_ok l m tbl :
  ~ no_memory (A:=A) -> devintr_callbacks m = Some tbl -> hwf tbl -> hm_count tbl + Z.of_nat (length l) <= 2 ^ 14 ->
  exists m' tbl', register_all l m = Ok tt m' /\ devintr_callbacks m' = Some tbl' /\ hwf tbl' /\
    habs tbl' = add_handlers (habs tbl) l.
Proof.
  intros Hm. revert m tbl. induction l as [|[i cb] l IH]; intros m tbl Et Hw Hc; [by exists m, tbl|].
  cbn [length] in Hc. destruct (register_ok i cb m tbl Hm Et Hw ltac:(lia)) as (r & m1 & tbl1 & E1 & Et1 & Hw1 & Ea1 & Hc1).
  destruct (IH m1 tbl1 Et1 Hw1 ltac:(lia)) as (m2 & tbl2 & E2 & Et2 & Hw2 & Ea2).
  exists m2, tbl2. cbn [register_all]. rewrite (bind_ok _ _ _ _ _ E1). split; [done|]. split; [done|]. split; [done|].
  by rewrite Ea2, Ea1.
Qed.

(** C19: A device interrupt reaches the handler of its device.  After [trapinit] and any further
    registrations, an external interrupt runs the handler that was registered last for the
    number that the interrupt controller reports -- the UART's for 10 and the disk's for 1
    unless they were replaced -- and tells the controller that it is done; a number without a
    handler is only acknowledged.  The hash map between the two keeps every registration. *)
Theorem devintr_dispatch l m :
  ~ no_memory (A:=A) -> Z.of_nat (length l) < 2 ^ 14 - 2 ->
  exists m2, bind (trapinit ad) (fun _ => register_all l) m = Ok tt m2 /\
  forall m3 i m4, devintr_callbacks m3 = devintr_callbacks m2 -> is_external (scause (hrt m3)) = true ->
    plic_claim m3 = Ok i m4 -> devintr_callbacks m4 = devintr_callbacks m3 ->
    devintr plic_claim plic_complete call m3 =
    bind (match add_handlers ∅ ((10, uartintr_at ad) :: (1, virtio_disk_intr_at ad) :: l) !! i with
          | Some d => call (callback d) | None => ret tt end)
      (fun _ => bind (plic_complete i) (fun _ => ret 1)) m4.
Proof.
  intros Hm Hl.
  destruct (hashmap_new_ok devintr_hash devintr_compare SIZEOF_DEVINTR_MAP 0 0 0 0 (hmst m)) as (om & st1 & En & Hom); [lia|].
  destruct om as [tbl|]; [|done]. destruct Hom as (k & bsz & bat & at_ & Hk & _ & _ & Em).
  destruct (new_wf devintr_hash devintr_compare k SIZEOF_DEVINTR_MAP 0 0 0 bsz bat at_ Hk) as [Hw Ha]. rewrite <-Em in Hw, Ha.
  set (m1 := mkmach (hrt m) (ks m) (Some tbl) st1 (cpus m)).
  destruct (register_all_ok ((10, uartintr_at ad) :: (1, virtio_disk_intr_at ad) :: l) m1 tbl Hm eq_refl Hw)
    as (m2 & tbl2 & E2 & Et2 & Hw2 & Ea2).
  { rewrite (wf_size _ _ tbl Hw), Ha, map_size_empty. cbn [length]. lia. }
  exists m2. split.
  - cbn [register_all] in E2. unfold trapinit.
    assert (hmM (hashmap_new SIZEOF_DEVINTR_MAP 0 0 0 devintr_hash devintr_compare 0) m
      = Ok (Some tbl) (mkmach (hrt m) (ks m) (devintr_callbacks m) st1 (cpus m))) as Eh by (unfold hmM; by rewrite En).
    apply bind_inv in E2 as (r1 & ma & Er1 & E2). apply bind_inv in E2 as (r2 & mb & Er2 & E2).
    rewrite (bind_ok _ _ m tt mb); [done|]. rewrite (bind_ok _ _ _ _ _ Eh).
    rewrite (bind_ok _ _ _ tt m1) by done. rewrite (bind_ok _ _ _ _ _ Er1). by rewrite (bind_ok _ _ _ _ _ Er2).
  - intros m3 i m4 Ec3 Hx Ei Ec4. unfold devintr. rewrite (bind_ok _ _ _ _ _ (csrr_ok _ _)).
    change (negb (Z.land (scause (hrt m3)) 0x8000000000000000 =? 0) && (Z.land (scause (hrt m3)) 0xff =? 9))
      with (is_external (scause (hrt m3))). rewrite Hx, (bind_ok _ _ _ _ _ Ei).
    rewrite (bind_ok (gets devintr_callbacks) _ m4 (Some tbl2) m4) by (unfold gets; congruence). cbv iota.
    rewrite (bind_ok _ _ _ _ _ (hm_get_ok m4 tbl2 i Hw2)), Ea2, Ha. done.
Qed.
End devices.

(** * Examples *)

(** The machine of TrapSpec.v, in the kernel with interrupts on *)
Definition wit_kmach : mach (R:=unit) (A:=Z) :=
  with_hart (mkhart (fun r => if decide (r = sp) then 12000 else Z.of_nat r) 5000 false 2 0 2 100 0 0 0 77 TRAPFRAME) wit_mach.

Lemma keeps_none {B} (v : B) b s ksatp : keeps_stack (R:=unit) (A:=Z) b s ksatp (ret v).
Proof. intros w0 m Hi. by exists v, m. Qed.

Lemma kernel_interrupt_transparent_witness :
  exists m', kernel_trap wit_ad (fun _ va => Some va) (ret 10) (fun _ => ret tt) (fun _ => ret tt) (fun _ => ret tt)
      (fun f => f) TIMER 0 wit_kmach = Ok tt m' /\ pc (hrt m') = 5000 /\
    (forall r, (1 <= r <= 31)%nat -> r <> tp -> regs (hrt m') r = regs (hrt wit_kmach) r).
Proof.
  destruct (kernel_interrupt_transparent (R:=unit) (A:=Z) wit_ad (fun _ va => Some va) (ret 10) (fun _ => ret tt) (fun _ => ret tt)
    (fun _ => ret tt) (fun f => f) 11744 11744 77) with (cause := TIMER) (tval := 0) (m := wit_kmach)
    as (m' & E & _ & Hpc & _ & Hr & _).
  - apply keeps_none.
  - intros. apply keeps_none.
  - intros. apply keeps_none.
  - intros. apply keeps_none.
  - reflexivity.
  - reflexivity.
  - reflexivity.
  - reflexivity.
  - reflexivity.
  - split; [|reflexivity]. apply Z.leb_le. reflexivity.
  - reflexivity.
  - intros o Ho. cbn [hrt wit_kmach with_hart regs sp]. f_equal. change (u64 (12000 - 256)) with 11744. apply u64_small. lia.
  - intros me [= <-]. by exists wit_proc.
  - exists wit_tbl. split; [done|apply wit_tbl_wf].
  - by left.
  - exists m'. by split; [|split].
Defined.

#[local] Instance bump_alloc : Hmalloc Z := { hmmalloc z s := (Some s, s + z); hmfree p s := s }.

Lemma devintr_dispatch_witness :
  exists m2, bind (trapinit wit_ad) (fun _ => register_all [(33, 900); (10, 901)]) wit_mach = Ok tt m2 /\
  forall m3 i m4, devintr_callbacks m3 = devintr_callbacks m2 -> is_external (scause (hrt m3)) = true ->
    (ret 10 : M (mach (R:=unit) (A:=Z)) Z) m3 = Ok i m4 -> devintr_callbacks m4 = devintr_callbacks m3 ->
    devintr (ret 10) (fun _ => ret tt) (fun _ => ret tt) m3 =
    bind (match add_handlers ∅ [(10, 500); (1, 600); (33, 900); (10, 901)] !! i with
          | Some d => ret tt | None => ret tt end) (fun _ => bind (ret tt) (fun _ => ret 1)) m4.
Proof.
  apply (devintr_dispatch wit_ad (ret 10) (fun _ => ret tt) (fun _ => ret tt) [(33, 900); (10, 901)] wit_mach).
  - intros (z & s & E). done.
  - cbn. lia.
Defined.
