(* ===== verification/Mkfs.v ===== *)
(** The image builder: mkfs/mkfs.c.

    The image is the contents of its sectors; [freeinode] and [freeblock] are the counters
    of the program.  The host's files work: only reading past the end of the image, a failed
    [assert] and an argument that cannot be opened end the program early.  Structures on disk
    are those of the kernel (FsBlocks.v, FsInode.v, FsDir.v); the host is little-endian, as
    the byte order that [xshort] and [xint] write. *)

From S2P Require Import Prelude KString FsDisk FsBlocks FsInode FsDir.

Definition FSSIZE : Z := 2000.
Definition NINODES : Z := 200.
Definition nbitmap : Z := FSSIZE / (BSIZE * 8) + 1.
Definition ninodeblocks : Z := NINODES / IPB + 1.
Definition nlog : Z := 30.
Definition nmeta : Z := 2 + nlog + ninodeblocks + nbitmap.
Definition nblocks : Z := FSSIZE - nmeta.
Definition T_FILE : Z := 2.

Definition xshort (x : Z) : Z := le_dec (le_enc 2 x).
Definition xint (x : Z) : Z := le_dec (le_enc 4 x).

(** The superblock, as [main] fills it *)
Definition mk_sb : superblock :=
  mksb FSMAGIC (xint FSSIZE) (xint nblocks) (xint NINODES) (xint nlog) (xint 2) (xint (2 + nlog))
    (xint (2 + nlog + ninodeblocks)).

Definition sb_bytes (x : superblock) : bytes :=
  le_enc 4 (sb_magic x) ++ le_enc 4 (sb_size x) ++ le_enc 4 (sb_nblocks x) ++ le_enc 4 (sb_ninodes x)
  ++ le_enc 4 (sb_nlog x) ++ le_enc 4 (sb_logstart x) ++ le_enc 4 (sb_inodestart x) ++ le_enc 4 (sb_bmapstart x).

Record mkst := mkm { img : Z -> bytes; freeinode : Z; freeblock : Z }.

Definition wsect (sec : Z) (buf : bytes) : M mkst unit :=
  modify (fun s => mkm (fupd (img s) sec buf) (freeinode s) (freeblock s)).

(** Nothing is ever written behind the last block before it is read. *)
Definition rsect (sec : Z) : M mkst bytes :=
  if sec <? FSSIZE then gets (fun s => img s sec) else panic "read".

Definition take_block : M mkst Z :=
  b ← gets freeblock; modify (fun s => mkm (img s) (freeinode s) (u32 (freeblock s + 1)));; ret b.

Definition winode (inum : Z) (ip : dinode) : M mkst unit :=
  let bn := IBLOCK inum mk_sb in
  buf ← rsect bn; wsect bn (dinode_put (ipos inum) ip buf).

Definition rinode (inum : Z) : M mkst dinode :=
  let bn := IBLOCK inum mk_sb in
  buf ← rsect bn; ret (dinode_get (ipos inum) buf).

Definition mk_ialloc (type : Z) : M mkst Z :=
  inum ← gets freeinode;
  modify (fun s => mkm (img s) (u32 (freeinode s + 1)) (freeblock s));;
  winode inum (mkdi (xshort type) 0 0 (xshort 1) (xint 0) (replicate 13 0));;
  ret inum.

Definition set_addr (din : dinode) (k a : Z) : dinode :=
  mkdi (d_type din) (d_major din) (d_minor din) (d_nlink din) (d_size din) (<[Z.to_nat k := a]> (d_addrs din)).
Definition set_size (din : dinode) (n : Z) : dinode :=
  mkdi (d_type din) (d_major din) (d_minor din) (d_nlink din) n (d_addrs din).

Definition assert (b : bool) : M mkst unit := if b then ret tt else panic "assert".

(** The block of the file at position [fbn], allocated when there is none: the first half of
    the loop of [iappend]. *)
Definition file_block (din : dinode) (fbn : Z) : M mkst (Z * dinode) :=
  if fbn <? NDIRECT then
    din ← (if xint (nth_addr (d_addrs din) fbn) =? 0
           then b ← take_block; ret (set_addr din fbn (xint b)) else ret din);
    ret (xint (nth_addr (d_addrs din) fbn), din)
  else
    din ← (if xint (nth_addr (d_addrs din) NDIRECT) =? 0
           then b ← take_block; ret (set_addr din NDIRECT (xint b)) else ret din);
    let i := xint (nth_addr (d_addrs din) NDIRECT) in
    indirect ← rsect i;
    let slot := (4 * Z.to_nat (fbn - NDIRECT))%nat in
    indirect ← (if get_le 4 slot indirect =? 0
                then b ← take_block; let indirect := put_le 4 slot (xint b) indirect in
                     wsect i indirect;; ret indirect
                else ret indirect);
    ret (xint (get_le 4 slot indirect), din).

(** [p] are the bytes that remain ([n] is their number). *)
Fixpoint iappend_loop (fuel : nat) (din : dinode) (off : Z) (p : bytes) : M mkst (dinode * Z) :=
  match fuel with
  | O => nofuel
  | S fuel =>
      match p with
      | [] => ret (din, off)
      | _ =>
          let fbn := off / BSIZE in
          assert (fbn <? MAXFILE);;
          '(x, din) ← file_block din fbn;
          let n1 := Z.min (Z.of_nat (length p)) ((fbn + 1) * BSIZE - off) in
          buf ← rsect x;
          wsect x (upd_bytes (Z.to_nat (off - fbn * BSIZE)) (take (Z.to_nat n1) p) buf);;
          iappend_loop fuel din (off + n1) (drop (Z.to_nat n1) p)
      end
  end.

Definition iappend (inum : Z) (xp : bytes) : M mkst unit :=
  din ← rinode inum;
  '(din, off) ← iappend_loop (S (length xp)) din (xint (d_size din)) xp;
  winode inum (set_size din (xint off)).

(** The bitmap: the first [used] blocks *)
Fixpoint bitmap_loop (n : nat) (i : Z) (buf : bytes) : bytes :=
  match n with
  | O => buf
  | S n => bitmap_loop n (i + 1) (bit_set buf i)
  end.

Definition mk_balloc (used : Z) : M mkst unit :=
  assert (used <? BSIZE * 8);;
  wsect (sb_bmapstart mk_sb) (bitmap_loop (Z.to_nat used) 0 zero_block).

(** [strncpy(de.name, s, DIRSIZ)] into a cleared entry *)
Definition mk_dirent (inum : Z) (s : bytes) : bytes :=
  le_enc 2 (xshort inum) ++ take 14 (cut_nul s ++ replicate 14 0).

(** "build/user/" *)
Definition PREFIX : bytes := [98; 117; 105; 108; 100; 47; 117; 115; 101; 114; 47].

Definition shortname (arg : bytes) : bytes :=
  if bool_decide (take 11 arg = PREFIX) then drop 11 arg else arg.

(** Without the leading underscore *)
Definition strip (s : bytes) : bytes := match s with 95 :: s' => s' | _ => s end.

(** [read] returns [BSIZE] bytes until the last piece. *)
Fixpoint copy_loop (fuel : nat) (inum : Z) (data : bytes) : M mkst unit :=
  match fuel with
  | O => nofuel
  | S fuel =>
      match data with
      | [] => ret tt
      | _ => iappend inum (take (Z.to_nat BSIZE) data);; copy_loop fuel inum (drop (Z.to_nat BSIZE) data)
      end
  end.

(** The loop over the arguments: a path and the contents of the file, [None] when it cannot be
    opened. *)
Fixpoint add_files (rootino : Z) (args : list (bytes * option bytes)) : M mkst unit :=
  match args with
  | [] => ret tt
  | (arg, file) :: args =>
      let s := shortname arg in
      assert (bool_decide (47 ∉ s));;
      match file with
      | None => panic "exit"
      | Some data =>
          inum ← mk_ialloc T_FILE;
          iappend rootino (mk_dirent inum (strip s));;
          copy_loop (S (length data)) inum data;;
          add_files rootino args
      end
  end.

Fixpoint zero_loop (n : nat) (i : Z) : M mkst unit :=
  match n with
  | O => ret tt
  | S n => wsect i zero_block;; zero_loop n (i + 1)
  end.

Definition main (args : list (bytes * option bytes)) : M mkst unit :=
  modify (fun s => mkm (img s) (freeinode s) nmeta);;
  zero_loop (Z.to_nat FSSIZE) 0;;
  wsect 1 (upd_bytes 0 (sb_bytes mk_sb) zero_block);;
  rootino ← mk_ialloc T_DIR;
  assert (rootino =? ROOTINO);;
  iappend rootino (mk_dirent rootino [46]);;
  iappend rootino (mk_dirent rootino [46; 46]);;
  add_files rootino args;;
  din ← rinode rootino;
  let off := xint (d_size din) in
  let off := u32 ((off / BSIZE + 1) * BSIZE) in
  winode rootino (set_size din (xint off));;
  used ← gets freeblock;
  mk_balloc used.

(** The state in which the program starts *)
Definition mk_start : mkst := mkm (fun _ => []) 1 0.

Example small_image :
  match main [([95; 99; 97; 116], Some (replicate 3000 7)); (PREFIX ++ [95; 108; 115], Some [1; 2; 3])] mk_start with
  | Ok _ s => freeblock s = 46 + 1 + 3 + 1 /\ sb_parse (img s 1) = mksb FSMAGIC 2000 1954 200 30 2 32 45 /\
      dinode_get (ipos 3) (img s (IBLOCK 3 mk_sb)) = mkdi 2 0 0 1 3 (50 :: replicate 12 0)
  | _ => False
  end.
Proof. vm_compute. auto. Qed.
