(* ===== verification/MkfsFile.v ===== *)
(** The files of an image under construction: what [iappend] of mkfs/mkfs.c does to the
    blocks and the contents of a file. *)

From S2P Require Import Prelude KString FsDisk FsBlocks FsInode FsFile FsDir Mkfs.

(** ** The blocks of a file *)

(** The blocks that [n] bytes need, and the blocks that a file of [k] blocks takes with its indirect block. *)
Definition nblk (n : Z) : Z := (n + 1023) / BSIZE.
Definition cost (k : Z) : Z := k + (if 12 <? k then 1 else 0).

(** Blocks have their size, and those from [fb] on are still zero. *)
Record fresh (v : Z -> bytes) (fb : Z) : Prop := {
  fr_len : forall b, 0 <= b < FSSIZE -> length (v b) = Z.to_nat BSIZE;
  fr_zero : forall b, fb <= b < FSSIZE -> v b = zero_block }.

(** The first [k] blocks of the file are there, distinct, and below [fb]; [i]: it has an indirect block. *)
Record shape (v : Z -> bytes) (fb : Z) (l : list Z) (k : Z) (i : bool) : Prop := {
  sh_len : length l = 13%nat;
  sh_ind : (ind l =? 0) = negb i;
  sh_k : 0 <= k <= MAXFILE /\ (12 < k -> i = true);
  sh_some : forall bn, 0 <= bn < MAXFILE -> blk v l bn = 0 <-> k <= bn;
  sh_own : forall b, owns v l b -> nmeta <= b < fb;
  sh_ne : forall bn, 0 <= bn < MAXFILE -> blk v l bn <> 0 -> blk v l bn <> ind l;
  sh_inj : forall bn bn', 0 <= bn < MAXFILE -> 0 <= bn' < MAXFILE ->
    blk v l bn <> 0 -> blk v l bn = blk v l bn' -> bn = bn' }.

(** The file got blocks from [fb] on and has the same contents. *)
Record ext (v : Z -> bytes) (fb : Z) (l : list Z) (v' : Z -> bytes) (fb' : Z) (l' : list Z) : Prop := {
  e_fb : fb <= fb';
  e_data : forall bn, 0 <= bn < MAXFILE -> fblock v' l' bn = fblock v l bn;
  e_own : forall b, owns v' l' b -> owns v l b \/ fb <= b < fb';
  e_frame : forall b, 0 <= b < fb -> ~ owns v l b -> v' b = v b;
  e_fresh : fresh v' fb' }.

Lemma ext_refl v fb l : fresh v fb -> ext v fb l v fb l.
Proof. intros Hf. split; try done. intros b Ho. by left. Qed.

Lemma ext_trans v0 f0 l0 v1 f1 l1 v2 f2 l2 : ext v0 f0 l0 v1 f1 l1 -> ext v1 f1 l1 v2 f2 l2 -> ext v0 f0 l0 v2 f2 l2.
Proof.
  intros [A1 A2 A3 A4 A5] [B1 B2 B3 B4 B5]. split; [lia| | | |done].
  - intros bn Hbn. by rewrite B2, A2.
  - intros b Ho. destruct (B3 b Ho) as [Ho'|?]; [|right; lia]. destruct (A3 b Ho'); [by left|right; lia].
  - intros b Hb Hno. rewrite B4; [by apply A4|lia|]. intros Ho'. destruct (A3 b Ho') as [|]; [done|lia].
Qed.

Lemma nz_spec a b : (a =? 0) = negb b -> if b then a <> 0 else a = 0.
Proof. destruct (Z.eqb_spec a 0), b; simpl; intros; done. Qed.

Lemma FSSIZE_u32 a : 0 <= a <= FSSIZE -> u32 a = a.
Proof. intros Ha. apply u32_small. unfold FSSIZE in Ha. lia. Qed.
Lemma xint_small a : 0 <= a <= FSSIZE -> xint a = a.
Proof.
  intros Ha. unfold xint. rewrite le_dec_enc. apply Z.mod_small. change (256 ^ Z.of_nat 4) with (2 ^ 32).
  unfold FSSIZE in Ha. lia.
Qed.

(** A new direct block *)
Lemma shape_direct v fb l k i :
  shape v fb l k i -> fresh v fb -> k < NDIRECT -> nmeta <= fb < FSSIZE ->
  let l' := <[Z.to_nat k := fb]> l in
  shape v (fb + 1) l' (k + 1) i /\ ext v fb l v (fb + 1) l' /\ blk v l' k = fb.
Proof.
  intros [S1 S2 [S3 S3'] S4 S5 S6 S7] Hf Hk Hfb l'. assert (0 < nmeta) as Hm by (vm_compute; done).
  unfold NDIRECT in Hk.
  assert (ind l' = ind l) as Ei.
  { unfold ind, l'. rewrite nth_insert by (unfold NDIRECT; lia). destruct (Z.eqb_spec k NDIRECT); [unfold NDIRECT in *; lia|done]. }
  assert (forall bn, 0 <= bn -> blk v l' bn = if k =? bn then fb else blk v l bn) as Eb.
  { intros bn Hbn. unfold blk. rewrite Ei. destruct (Z.ltb_spec bn NDIRECT) as [Hb|Hb].
    - unfold l'. rewrite nth_insert by lia. done.
    - destruct (Z.eqb_spec k bn); [unfold NDIRECT in *; lia|done]. }
  assert (forall b, owns v l' b -> owns v l b \/ b = fb) as Ho.
  { intros b [Hb [->|(bn & Hbn & ->)]]; [left; split; [done|left; by rewrite Ei]|].
    rewrite Eb in * by lia. destruct (k =? bn); [by right|]. left. split; [done|right; eauto]. }
  assert (forall bn, 0 <= bn < MAXFILE -> blk v l bn <> 0 -> blk v l bn < fb) as Hlt.
  { intros bn Hbn Hnz. apply S5. split; [done|right; eauto]. }
  split; [split|split; [split|]].
  - unfold l'. by rewrite length_insert.
  - by rewrite Ei.
  - unfold MAXFILE, NDIRECT, NINDIRECT. split; [lia|]. intros. apply S3'. lia.
  - intros bn Hbn. rewrite Eb by lia. destruct (Z.eqb_spec k bn); [lia|]. rewrite S4 by lia. lia.
  - intros b Hb. destruct (Ho b Hb) as [Hb'| ->]; [specialize (S5 b Hb')|]; lia.
  - intros bn Hbn. rewrite Eb, Ei by lia. destruct (k =? bn); [|by apply S6]. intros _ E.
    assert (ind l < fb); [|lia]. apply S5. split; [lia|by left].
  - intros bn bn' Hbn Hbn'. rewrite !Eb by lia.
    destruct (Z.eqb_spec k bn), (Z.eqb_spec k bn'); intros Hnz E; [lia| | |by apply S7].
    + exfalso. specialize (Hlt bn' Hbn' ltac:(lia)). lia.
    + exfalso. specialize (Hlt bn Hbn Hnz). lia.
  - lia.
  - intros bn Hbn. unfold fblock. rewrite Eb by lia. destruct (Z.eqb_spec k bn) as [<-|]; [|done].
    destruct (Z.eqb_spec fb 0); [lia|]. rewrite (proj2 (S4 k Hbn)) by lia. simpl. apply (fr_zero _ _ Hf). lia.
  - intros b Hb. destruct (Ho b Hb) as [?| ->]; [by left|right; lia].
  - done.
  - split; [apply Hf|]. intros b Hb. apply Hf. lia.
  - rewrite Eb by lia. by rewrite Z.eqb_refl.
Qed.

(** A new indirect block *)
Lemma shape_indirect v fb l k :
  shape v fb l k false -> fresh v fb -> nmeta <= fb < FSSIZE ->
  let l' := <[Z.to_nat NDIRECT := fb]> l in
  shape v (fb + 1) l' k true /\ ext v fb l v (fb + 1) l' /\ ind l' = fb.
Proof.
  intros [S1 S2 [S3 S3'] S4 S5 S6 S7] Hf Hfb l'. assert (0 < nmeta) as Hm by (vm_compute; done).
  apply nz_spec in S2. simpl in S2. assert (k <= 12) as Hk by (destruct (Z.le_gt_cases k 12); [done|]; by discriminate S3').
  assert (forall j, 0 <= j -> nth_addr l' j = if NDIRECT =? j then fb else nth_addr l j) as En.
  { intros j Hj. unfold l'. rewrite nth_insert by (unfold NDIRECT; lia). done. }
  assert (ind l' = fb) as Ei by (unfold ind; rewrite En by (unfold NDIRECT; lia); by rewrite Z.eqb_refl).
  assert (forall bn, 0 <= bn -> blk v l' bn = blk v l bn) as Eb.
  { intros bn Hbn. unfold blk. rewrite Ei, S2. destruct (Z.ltb_spec bn NDIRECT) as [Hb|Hb].
    - rewrite En by done. destruct (Z.eqb_spec NDIRECT bn); [lia|done].
    - destruct (Z.eqb_spec fb 0); [done|]. rewrite (fr_zero _ _ Hf) by lia. simpl. apply get_le_zero. }
  assert (forall b, owns v l' b -> owns v l b \/ b = fb) as Ho.
  { intros b [Hb [->|(bn & Hbn & ->)]]; [by right|]. rewrite Eb in * by lia. left. split; [done|right; eauto]. }
  assert (forall bn, 0 <= bn < MAXFILE -> blk v l bn <> 0 -> blk v l bn < fb) as Hlt.
  { intros bn Hbn Hnz. apply S5. split; [done|right; eauto]. }
  split; [split|split; [split|done]].
  - unfold l'. by rewrite length_insert.
  - rewrite Ei. destruct (Z.eqb_spec fb 0); [lia|done].
  - done.
  - intros bn Hbn. rewrite Eb by lia. by apply S4.
  - intros b Hb. destruct (Ho b Hb) as [Hb'| ->]; [specialize (S5 b Hb')|]; lia.
  - intros bn Hbn. rewrite Eb, Ei by lia. intros Hnz. specialize (Hlt bn Hbn Hnz). lia.
  - intros bn bn' Hbn Hbn'. rewrite !Eb by lia. by apply S7.
  - lia.
  - intros bn Hbn. unfold fblock. by rewrite Eb by lia.
  - intros b Hb. destruct (Ho b Hb) as [?| ->]; [by left|right; lia].
  - done.
  - split; [apply Hf|]. intros b Hb. apply Hf. lia.
Qed.

Definition slot (bn : Z) : nat := (4 * Z.to_nat (bn - NDIRECT))%nat.

Lemma slot_fit bn : NDIRECT <= bn < MAXFILE -> (slot bn + 4 <= Z.to_nat BSIZE)%nat.
Proof. unfold slot, MAXFILE, NDIRECT, NINDIRECT, BSIZE. lia. Qed.

(** A new block in the indirect block *)
Lemma shape_slot v fb l k :
  shape v fb l k true -> fresh v fb -> NDIRECT <= k < MAXFILE -> nmeta <= fb < FSSIZE ->
  let v' := fupd v (ind l) (put_le 4 (slot k) fb (v (ind l))) in
  shape v' (fb + 1) l (k + 1) true /\ ext v fb l v' (fb + 1) l /\ blk v' l k = fb.
Proof.
  intros [S1 S2 [S3 S3'] S4 S5 S6 S7] Hf Hk Hfb v'. assert (0 < nmeta) as Hm by (vm_compute; done).
  apply nz_spec in S2. simpl in S2.
  assert (nmeta <= ind l < fb) as Hi by (apply S5; split; [done|by left]).
  pose proof (fr_len _ _ Hf (ind l) ltac:(lia)) as Hl. pose proof (slot_fit k Hk) as Hs.
  assert (forall bn, 0 <= bn < MAXFILE -> blk v' l bn = if k =? bn then fb else blk v l bn) as Eb.
  { intros bn Hbn. unfold blk. destruct (Z.ltb_spec bn NDIRECT) as [Hb|Hb].
    - destruct (Z.eqb_spec k bn); [lia|done].
    - destruct (Z.eqb_spec (ind l) 0); [done|]. unfold v'. rewrite fupd_eq. fold (slot bn).
      destruct (Z.eqb_spec k bn) as [<-|Hne].
      + apply get_put_le; [lia|]. change (256 ^ Z.of_nat 4) with (2 ^ 32). unfold FSSIZE in *. lia.
      + apply get_put_le_ne; [lia|]. unfold slot. lia. }
  assert (forall b, owns v' l b -> owns v l b \/ b = fb) as Ho.
  { intros b [Hb [->|(bn & Hbn & ->)]]; [left; split; [done|by left]|].
    rewrite Eb in * by lia. destruct (k =? bn); [by right|]. left. split; [done|right; eauto]. }
  assert (forall bn, 0 <= bn < MAXFILE -> blk v l bn <> 0 -> blk v l bn < fb) as Hlt.
  { intros bn Hbn Hnz. apply S5. split; [done|right; eauto]. }
  split; [split|split; [split|]].
  - done.
  - destruct (Z.eqb_spec (ind l) 0); done.
  - split; [lia|done].
  - intros bn Hbn. rewrite Eb by lia. destruct (Z.eqb_spec k bn); [lia|]. rewrite S4 by lia. lia.
  - intros b Hb. destruct (Ho b Hb) as [Hb'| ->]; [specialize (S5 b Hb')|]; lia.
  - intros bn Hbn. rewrite Eb by lia. destruct (k =? bn); [lia|]. by apply S6.
  - intros bn bn' Hbn Hbn'. rewrite !Eb by lia.
    destruct (Z.eqb_spec k bn), (Z.eqb_spec k bn'); intros Hnz E; [lia| | |by apply S7].
    + exfalso. specialize (Hlt bn' Hbn' ltac:(lia)). lia.
    + exfalso. specialize (Hlt bn Hbn Hnz). lia.
  - lia.
  - intros bn Hbn. unfold fblock. rewrite Eb by lia. destruct (Z.eqb_spec k bn) as [<-|].
    + destruct (Z.eqb_spec fb 0); [lia|]. rewrite (proj2 (S4 k Hbn)) by lia. simpl. unfold v'.
      rewrite fupd_ne by lia. apply (fr_zero _ _ Hf). lia.
    + destruct (Z.eqb_spec (blk v l bn) 0) as [|Hnz]; [done|]. unfold v'. apply fupd_ne. by apply S6.
  - intros b Hb. destruct (Ho b Hb) as [?| ->]; [by left|right; lia].
  - intros b Hb Hno. unfold v'. apply fupd_ne. intros ->. apply Hno. split; [done|by left].
  - split; intros b Hb; unfold v'.
    + unfold fupd. destruct (Z.eqb_spec b (ind l)) as [->|]; [rewrite length_put_le; lia|by apply Hf].
    + rewrite fupd_ne by lia. apply Hf. lia.
  - rewrite Eb by lia. by rewrite Z.eqb_refl.
Qed.

(** ** [file_block] *)

Lemma runs_take_block v fi fb Q :
  0 <= fb < FSSIZE -> Q fb (mkm v fi (fb + 1)) -> runs take_block (mkm v fi fb) Q.
Proof.
  intros Hfb HQ. unfold take_block. eexists _, _. split; [reflexivity|]. cbn [freeblock].
  rewrite FSSIZE_u32 by lia. done.
Qed.

Lemma runs_rsect sec (s : mkst) (Q : bytes -> mkst -> Prop) : sec < FSSIZE -> Q (img s sec) s -> runs (rsect sec) s Q.
Proof. intros Hs HQ. unfold rsect. destruct (Z.ltb_spec sec FSSIZE); [|lia]. by eexists _, _. Qed.
Lemma runs_wsect sec w (s : mkst) (Q : unit -> mkst -> Prop) :
  Q tt (mkm (fupd (img s) sec w) (freeinode s) (freeblock s)) -> runs (wsect sec w) s Q.
Proof. intros HQ. by eexists _, _. Qed.

Lemma blk_direct v l bn : bn < NDIRECT -> nth_addr l bn = blk v l bn.
Proof. intros Hb. unfold blk. destruct (Z.ltb_spec bn NDIRECT); [done|lia]. Qed.
Lemma blk_slot v l bn : NDIRECT <= bn -> ind l <> 0 -> get_le 4 (slot bn) (v (ind l)) = blk v l bn.
Proof. intros Hb Hi. unfold blk. destruct (Z.ltb_spec bn NDIRECT); [lia|]. destruct (Z.eqb_spec (ind l) 0); done. Qed.

Definition with_daddrs (d : dinode) (l : list Z) : dinode :=
  mkdi (d_type d) (d_major d) (d_minor d) (d_nlink d) (d_size d) l.

Lemma shape_blk v fb l k i bn :
  shape v fb l k i -> 0 <= bn < MAXFILE -> bn < k -> nmeta <= blk v l bn < fb.
Proof.
  intros Hs Hbn Hk. apply (sh_own _ _ _ _ _ Hs). split; [|right; eauto].
  intros E. apply (sh_some _ _ _ _ _ Hs) in E; lia.
Qed.

Lemma shape_has_ind v fb l k : shape v fb l k true -> nmeta <= ind l < fb.
Proof.
  intros Hs. apply (sh_own _ _ _ _ _ Hs). pose proof (nz_spec _ _ (sh_ind _ _ _ _ _ Hs)) as Hi. split; [done|by left].
Qed.

Lemma set_addr_with din k a : set_addr din k a = with_daddrs din (<[Z.to_nat k := a]> (d_addrs din)).
Proof. done. Qed.

(** The second half of [file_block]: the block from the indirect block. *)
Lemma runs_slot (din : dinode) v fi fb bn k (Q : Z * dinode -> mkst -> Prop) :
  let l := d_addrs din in
  shape v fb l k true -> fresh v fb -> nmeta <= fb <= FSSIZE -> NDIRECT <= bn < MAXFILE -> bn <= k <= bn + 1 ->
  fb + (bn + 1 - k) <= FSSIZE ->
  (forall v', let fb' := fb + (bn + 1 - k) in
     shape v' fb' l (bn + 1) true -> ext v fb l v' fb' l -> Q (blk v' l bn, din) (mkm v' fi fb')) ->
  runs (let i := xint (nth_addr (d_addrs din) NDIRECT) in
        indirect ← rsect i;
        indirect ← (if get_le 4 (slot bn) indirect =? 0
                    then b ← take_block; let indirect := put_le 4 (slot bn) (xint b) indirect in
                         wsect i indirect;; ret indirect
                    else ret indirect);
        ret (xint (get_le 4 (slot bn) indirect), din)) (mkm v fi fb) Q.
Proof.
  intros l Hsh Hf Hfb Hbn Hk Hroom HQ. assert (0 < nmeta) as Hm by (vm_compute; done).
  pose proof (shape_has_ind _ _ _ _ Hsh) as Hi. change (nth_addr (d_addrs din) NDIRECT) with (ind l).
  cbv zeta. rewrite xint_small by lia. apply runs_bind, runs_rsect; [lia|]. cbn [img].
  rewrite blk_slot by lia. assert (0 <= bn < MAXFILE) as Hbn' by (unfold NDIRECT in *; lia).
  destruct (Z.eqb_spec (blk v l bn) 0) as [E|E].
  - apply (sh_some _ _ _ _ _ Hsh) in E; [|lia]. assert (k = bn) as -> by lia.
    destruct (shape_slot v fb l bn Hsh Hf Hbn ltac:(lia)) as (Hsh' & Hext & Eb). set (v' := fupd _ _ _) in *.
    apply runs_bind, runs_bind, runs_take_block; [lia|]. rewrite xint_small by lia.
    apply runs_bind, runs_wsect, runs_ret, runs_ret. cbn [img freeinode freeblock].
    replace (get_le 4 (slot bn) (put_le 4 (slot bn) fb (v (ind l)))) with (blk v' l bn).
    2: { rewrite <-blk_slot by lia. unfold v'. by rewrite fupd_eq. }
    rewrite xint_small by lia. replace (fb + (bn + 1 - bn)) with (fb + 1) in HQ by lia. by apply (HQ v').
  - assert (k = bn + 1) as ->.
    { destruct (decide (k = bn + 1)); [done|]. exfalso. apply E. apply (sh_some _ _ _ _ _ Hsh); lia. }
    apply runs_bind, runs_ret, runs_ret. rewrite blk_slot by lia.
    pose proof (shape_blk _ _ _ _ _ bn Hsh ltac:(lia) ltac:(lia)). rewrite xint_small by lia.
    replace (fb + (bn + 1 - (bn + 1))) with fb in HQ by lia. apply (HQ v); [done|by apply ext_refl].
Qed.

Lemma runs_file_block (din : dinode) v fi fb bn k (Q : Z * dinode -> mkst -> Prop) :
  let l := d_addrs din in
  shape v fb l k (12 <? k) -> fresh v fb -> nmeta <= fb -> 0 <= bn < MAXFILE -> bn <= k <= bn + 1 ->
  fb + (cost (bn + 1) - cost k) <= FSSIZE ->
  (forall v' l', let fb' := fb + (cost (bn + 1) - cost k) in
     shape v' fb' l' (bn + 1) (12 <? bn + 1) -> ext v fb l v' fb' l' ->
     Q (blk v' l' bn, with_daddrs din l') (mkm v' fi fb')) ->
  runs (file_block din bn) (mkm v fi fb) Q.
Proof.
  intros l Hsh Hf Hfb Hbn Hk Hroom HQ. assert (0 < nmeta) as Hm by (vm_compute; done).
  assert (k <= 12 -> cost k = k) as Ck by (unfold cost; destruct (Z.ltb_spec 12 k); lia).
  assert (12 < k -> cost k = k + 1) as Ck' by (unfold cost; destruct (Z.ltb_spec 12 k); lia).
  unfold file_block. destruct (Z.ltb_spec bn NDIRECT) as [Hd|Hd]; unfold NDIRECT in Hd.
  - assert (cost (bn + 1) = bn + 1) as Cb by (unfold cost; destruct (Z.ltb_spec 12 (bn + 1)); lia).
    rewrite Cb, Ck in * by lia. change (d_addrs din) with l. rewrite (blk_direct v) by done.
    destruct (Z.ltb_spec 12 k); [lia|]. destruct (Z.ltb_spec 12 (bn + 1)); [lia|].
    destruct (decide (k = bn)) as [->|Hne].
    + rewrite (proj2 (sh_some _ _ _ _ _ Hsh bn Hbn)) by lia. rewrite (xint_small 0) by (unfold FSSIZE; lia).
      destruct (shape_direct v fb l bn false Hsh Hf Hd ltac:(lia)) as (Hsh' & Hext & Eb).
      apply runs_bind. cbn [Z.eqb]. apply runs_bind, runs_take_block; [lia|]. apply runs_ret, runs_ret.
      rewrite set_addr_with. cbn [with_daddrs d_addrs]. change (d_addrs din) with l. rewrite (xint_small fb) by lia.
      rewrite (blk_direct v) by done. rewrite xint_small by lia.
      replace (fb + (bn + 1 - bn)) with (fb + 1) in HQ by lia. by apply HQ.
    + assert (k = bn + 1) as -> by lia. pose proof (shape_blk _ _ _ _ _ bn Hsh Hbn ltac:(lia)).
      rewrite xint_small by lia. destruct (Z.eqb_spec (blk v l bn) 0); [lia|].
      apply runs_bind, runs_ret, runs_ret. change (d_addrs din) with l. rewrite (blk_direct v) by done. rewrite xint_small by lia.
      replace (fb + (bn + 1 - (bn + 1))) with fb in HQ by lia. specialize (HQ v l Hsh (ext_refl _ _ _ Hf)). by destruct din.
  - assert (cost (bn + 1) = bn + 2) as Cb by (unfold cost; destruct (Z.ltb_spec 12 (bn + 1)); lia). rewrite Cb in *.
    destruct (Z.ltb_spec 12 (bn + 1)); [|lia].
    change (nth_addr (d_addrs din) NDIRECT) with (ind l). apply runs_bind. fold (slot bn).
    destruct (Z.ltb_spec 12 k) as [Hk12|Hk12].
    + rewrite Ck' in * by done. pose proof (shape_has_ind _ _ _ _ Hsh). rewrite xint_small by lia.
      destruct (Z.eqb_spec (ind l) 0); [lia|]. apply runs_ret.
      apply (runs_slot din v fi fb bn k); try done; try lia; [unfold NDIRECT; lia|].
      intros v' fb' Hsh' Hext. replace (fb + (bn + 2 - (k + 1))) with fb' in HQ by (unfold fb'; lia).
      specialize (HQ v' l Hsh' Hext). by destruct din.
    + rewrite Ck in * by done. pose proof (nz_spec _ _ (sh_ind _ _ _ _ _ Hsh)) as Hi. simpl in Hi.
      rewrite Hi, (xint_small 0) by (unfold FSSIZE; lia). cbn [Z.eqb].
      destruct (shape_indirect v fb l k Hsh Hf ltac:(lia)) as (Hsh1 & Hext1 & Ei).
      apply runs_bind, runs_take_block; [lia|]. apply runs_ret. rewrite (xint_small fb) by lia. rewrite set_addr_with.
      change (d_addrs din) with l. set (l1 := <[_ := fb]> l) in *.
      apply (runs_slot (with_daddrs din l1) v fi (fb + 1) bn k); try done; try lia;
        [by destruct Hext1|unfold NDIRECT; lia|].
      intros v' fb' Hsh' Hext. replace (fb + (bn + 2 - k)) with fb' in HQ by (unfold fb'; lia).
      apply (HQ v' l1 Hsh'). eapply ext_trans; eauto.
Qed.

(** ** Writing bytes *)

(** What a file with its blocks has done to the image: it took blocks from [fb] on and changed its own. *)
Record keeps (v : Z -> bytes) (fb : Z) (l : list Z) (v' : Z -> bytes) (fb' : Z) (l' : list Z) : Prop := {
  k_fb : fb <= fb';
  k_own : forall b, owns v' l' b -> owns v l b \/ fb <= b < fb';
  k_frame : forall b, 0 <= b < fb -> ~ owns v l b -> v' b = v b;
  k_fresh : fresh v' fb' }.

Lemma ext_keeps v fb l v' fb' l' : ext v fb l v' fb' l' -> keeps v fb l v' fb' l'.
Proof. intros []. by split. Qed.

Lemma keeps_trans v0 f0 l0 v1 f1 l1 v2 f2 l2 :
  keeps v0 f0 l0 v1 f1 l1 -> keeps v1 f1 l1 v2 f2 l2 -> keeps v0 f0 l0 v2 f2 l2.
Proof.
  intros [A1 A3 A4 A5] [B1 B3 B4 B5]. split; [lia| | |done].
  - intros b Ho. destruct (B3 b Ho) as [Ho'|?]; [|right; lia]. destruct (A3 b Ho'); [by left|right; lia].
  - intros b Hb Hno. rewrite B4; [by apply A4|lia|]. intros Ho'. destruct (A3 b Ho') as [|]; [done|lia].
Qed.

Definition contents (v : Z -> bytes) (l : list Z) (c : bytes) : Prop :=
  forall o, 0 <= o < MAXFILE * BSIZE -> fbyte v l o = byte_at c o.

(** The file with the addresses [l] contains [c]. *)
Record holds (v : Z -> bytes) (fb : Z) (l : list Z) (c : bytes) : Prop := {
  ho_shape : shape v fb l (nblk (Z.of_nat (length c))) (12 <? nblk (Z.of_nat (length c)));
  ho_data : contents v l c }.

Lemma byte_at_app c p o :
  0 <= o -> byte_at (c ++ p) o =
  if decide (Z.of_nat (length c) <= o < Z.of_nat (length c + length p)) then byte_at p (o - Z.of_nat (length c)) else byte_at c o.
Proof.
  intros Ho. unfold byte_at. case_decide as Hd.
  - rewrite lookup_app_r by lia. do 2 f_equal. lia.
  - destruct (decide (o < Z.of_nat (length c))); [by rewrite lookup_app_l by lia|].
    rewrite lookup_app_r by lia. rewrite !lookup_ge_None_2 by lia. done.
Qed.

(** [blk] and [owns] only look at the indirect block. *)
Lemma blk_ind v v' l bn : (ind l <> 0 -> v' (ind l) = v (ind l)) -> blk v' l bn = blk v l bn.
Proof.
  intros Hi. unfold blk. destruct (bn <? NDIRECT); [done|]. destruct (Z.eqb_spec (ind l) 0); [done|]. by rewrite Hi.
Qed.
Lemma owns_ind v v' l b : (ind l <> 0 -> v' (ind l) = v (ind l)) -> owns v' l b <-> owns v l b.
Proof. intros Hi. unfold owns. by setoid_rewrite (blk_ind v v' l _ Hi). Qed.

Lemma shape_ind v v' fb fb' l k i :
  (ind l <> 0 -> v' (ind l) = v (ind l)) -> fb <= fb' -> shape v fb l k i -> shape v' fb' l k i.
Proof.
  intros Hi Hfb [S1 S2 S3 S4 S5 S6 S7]. pose proof (fun bn => blk_ind v v' l bn Hi) as Eb. split; try done.
  - intros bn Hbn. rewrite Eb. by apply S4.
  - intros b Hb. rewrite (owns_ind v v') in Hb by done. specialize (S5 b Hb). lia.
  - intros bn Hbn. rewrite Eb. by apply S6.
  - intros bn bn' Hbn Hbn'. rewrite !Eb. by apply S7.
Qed.

Section write.
Context (v : Z -> bytes) (fb : Z) (l : list Z) (c p : bytes) (bn : Z) (i : bool).
Context (Hsh : shape v fb l (bn + 1) i) (Hf : fresh v fb) (Hfb : fb <= FSSIZE) (Hc : contents v l c).
Context (Hbn : bn = Z.of_nat (length c) / BSIZE) (Hfit : Z.of_nat (length c + length p) <= (bn + 1) * BSIZE).

Let x := blk v l bn.
Let pos := Z.to_nat (Z.of_nat (length c) - bn * BSIZE).
Let v' := fupd v x (upd_bytes pos p (v x)).

Lemma wr_range : 0 <= bn < MAXFILE /\ nmeta <= x < fb /\ x <> 0 /\ length (v x) = Z.to_nat BSIZE.
Proof using All.
  assert (0 <= bn) by (rewrite Hbn; apply Z.div_pos; unfold BSIZE; lia).
  pose proof (proj1 (sh_k _ _ _ _ _ Hsh)). assert (0 <= bn < MAXFILE) as Hb by lia.
  pose proof (shape_blk _ _ _ _ _ bn Hsh Hb ltac:(lia)) as Hx. assert (0 < nmeta) by (vm_compute; done).
  fold x in Hx. split; [done|]. split; [done|]. split; [lia|]. apply (fr_len _ _ Hf). lia.
Qed.

Lemma wr_pos : (pos + length p <= Z.to_nat BSIZE)%nat.
Proof using All.
  unfold pos. pose proof (Z.div_mod (Z.of_nat (length c)) BSIZE ltac:(unfold BSIZE; lia)).
  pose proof (Z.mod_pos_bound (Z.of_nat (length c)) BSIZE ltac:(unfold BSIZE; lia)). unfold BSIZE in *. lia.
Qed.

Lemma wr_ind : ind l <> 0 -> v' (ind l) = v (ind l).
Proof using All.
  intros Hi. destruct wr_range as (Hb & _ & Hx & _). unfold v'. apply fupd_ne. intros E.
  by apply (sh_ne _ _ _ _ _ Hsh bn Hb Hx).
Qed.

Lemma wr_contents : contents v' l (c ++ p).
Proof using All.
  intros o Ho. destruct wr_range as (Hb & Hx & Hx0 & Hl). pose proof wr_pos as Hp.
  rewrite byte_at_app by lia. pose proof (Z.div_mod o BSIZE ltac:(unfold BSIZE; lia)) as Ed.
  pose proof (Z.mod_pos_bound o BSIZE ltac:(unfold BSIZE; lia)) as Em.
  pose proof (Z.div_mod (Z.of_nat (length c)) BSIZE ltac:(unfold BSIZE; lia)) as Edc.
  pose proof (Z.mod_pos_bound (Z.of_nat (length c)) BSIZE ltac:(unfold BSIZE; lia)) as Emc.
  assert (0 <= o / BSIZE < MAXFILE) as Hob by (split; [apply Z.div_pos|apply Z.div_lt_upper_bound]; unfold BSIZE in *; lia).
  rewrite <-(Hc o Ho). unfold fbyte, fblock. rewrite (blk_ind v v') by apply wr_ind.
  destruct (decide (o / BSIZE = bn)) as [Eb|Hne].
  - rewrite Eb. fold x. destruct (Z.eqb_spec x 0); [done|]. unfold v'. rewrite fupd_eq.
    unfold byte_at at 1. rewrite lookup_upd_bytes by lia. unfold pos, byte_at.
    rewrite Eb in Ed. rewrite <-Hbn in Edc. unfold BSIZE in *.
    destruct (decide (Z.of_nat (length c) <= o < Z.of_nat (length c + length p))).
    + rewrite decide_True by lia. do 2 f_equal. lia.
    + by rewrite decide_False by lia.
  - rewrite decide_False by (unfold BSIZE in *; nia).
    destruct (Z.eqb_spec (blk v l (o / BSIZE)) 0) as [|Hnz]; [done|]. unfold v'. rewrite fupd_ne; [done|].
    intros E. apply Hne. by apply (sh_inj _ _ _ _ _ Hsh).
Qed.

Lemma wr_keeps : shape v' fb l (bn + 1) i /\ keeps v fb l v' fb l.
Proof using All.
  destruct wr_range as (Hb & Hx & Hx0 & Hl). pose proof wr_pos as Hp. split; [by eapply shape_ind; [apply wr_ind| |]|].
  split; [done| | |split].
  - intros b Ho. left. by apply (owns_ind v v' l b wr_ind).
  - intros b Hbb Hno. unfold v'. apply fupd_ne. intros ->. apply Hno. split; [done|]. right. by exists bn.
  - intros b Hbb. unfold v', fupd. destruct (Z.eqb_spec b x) as [->|]; [rewrite length_upd_bytes; lia|by apply Hf].
  - intros b Hbb. unfold v'. rewrite fupd_ne by lia. by apply Hf.
Qed.
End write.

(** ** [iappend] *)

Lemma cost_mono a b : a <= b -> cost a <= cost b.
Proof. unfold cost. destruct (Z.ltb_spec 12 a), (Z.ltb_spec 12 b); lia. Qed.

Lemma nblk_mono a b : a <= b -> nblk a <= nblk b.
Proof. intros. unfold nblk. apply Z.div_le_mono; unfold BSIZE; lia. Qed.

(** The block of the next byte is the last one or the next one. *)
Lemma nblk_next n : 0 <= n -> n / BSIZE <= nblk n <= n / BSIZE + 1.
Proof. unfold nblk, BSIZE. intros. Z.div_mod_to_equations. lia. Qed.

Lemma nblk_in n m : 0 <= n -> n / BSIZE * BSIZE < m <= (n / BSIZE + 1) * BSIZE -> nblk m = n / BSIZE + 1.
Proof. unfold nblk, BSIZE. intros. Z.div_mod_to_equations. lia. Qed.

Lemma contents_ext v l v' l' c :
  (forall bn, 0 <= bn < MAXFILE -> fblock v' l' bn = fblock v l bn) -> contents v l c -> contents v' l' c.
Proof.
  intros He Hc o Ho. rewrite <-(Hc o Ho). unfold fbyte. rewrite He; [done|].
  split; [apply Z.div_pos|apply Z.div_lt_upper_bound]; unfold BSIZE in *; lia.
Qed.

Lemma runs_iappend_loop fuel p (din : dinode) v fi fb c (Q : dinode * Z -> mkst -> Prop) :
  (length p < fuel)%nat -> holds v fb (d_addrs din) c -> fresh v fb -> nmeta <= fb ->
  Z.of_nat (length (c ++ p)) <= MAXFILE * BSIZE ->
  let fb' := fb + (cost (nblk (Z.of_nat (length (c ++ p)))) - cost (nblk (Z.of_nat (length c)))) in
  fb' <= FSSIZE ->
  (forall v' l', holds v' fb' l' (c ++ p) -> keeps v fb (d_addrs din) v' fb' l' ->
     Q (with_daddrs din l', Z.of_nat (length (c ++ p))) (mkm v' fi fb')) ->
  runs (iappend_loop fuel din (Z.of_nat (length c)) p) (mkm v fi fb) Q.
Proof.
  revert p din v fb c. induction fuel as [|fuel IH]; intros p din v fb c Hfuel [Hsh Hc] Hf Hfb Hmax fb' Hroom HQ; [lia|].
  cbn [iappend_loop]. destruct p as [|b0 p0].
  { unfold fb' in *. rewrite app_nil_r in *. apply runs_ret.
    replace (fb + (_ - _)) with fb in HQ by lia. specialize (HQ v (d_addrs din)). destruct din. apply HQ; [done|].
    apply ext_keeps. by apply ext_refl. }
  set (p := b0 :: p0) in *. assert (0 < length p)%nat as Hp by (simpl; lia). clearbody p. clear b0 p0.
  set (n := Z.of_nat (length c)) in *. set (bn := n / BSIZE). rewrite length_app in Hmax.
  assert (0 <= n) as Hn by lia. pose proof (Z.div_mod n BSIZE ltac:(unfold BSIZE; lia)) as Ed. fold bn in Ed.
  pose proof (Z.mod_pos_bound n BSIZE ltac:(unfold BSIZE; lia)) as Em.
  assert (0 <= bn < MAXFILE) as Hbn by (split; [apply Z.div_pos|apply Z.div_lt_upper_bound]; unfold BSIZE in *; lia).
  pose proof (nblk_next n Hn) as Hk. fold bn in Hk.
  set (n1 := Z.min (Z.of_nat (length p)) ((bn + 1) * BSIZE - n)).
  assert (0 < n1 <= Z.of_nat (length p) /\ n + n1 <= (bn + 1) * BSIZE) as Hn1 by (unfold n1, BSIZE in *; lia).
  assert (nblk (n + n1) = bn + 1) as Hk1 by (apply nblk_in; fold bn; unfold BSIZE in *; lia).
  assert (cost (bn + 1) <= cost (nblk (Z.of_nat (length (c ++ p))))) as Hcm.
  { apply cost_mono. rewrite <-Hk1. apply nblk_mono. rewrite length_app. lia. }
  unfold assert. destruct (Z.ltb_spec bn MAXFILE); [|lia]. apply runs_bind, runs_ret.
  apply runs_bind. apply (runs_file_block din v fi fb bn (nblk n)); try done; [unfold fb' in *; lia|].
  intros v1 l1 fb1 Hsh1 He1. cbv beta iota. set (x := blk v1 l1 bn).
  assert (fb1 <= FSSIZE) as Hfb1 by (unfold fb1, fb' in *; lia).
  set (p1 := take (Z.to_nat n1) p). assert (length p1 = Z.to_nat n1) as Hp1 by (unfold p1; rewrite length_take; lia).
  assert (contents v1 l1 c) as Hc1 by (eapply contents_ext; [apply He1|done]).
  assert (Z.of_nat (length c + length p1) <= (bn + 1) * BSIZE) as Hfit by (rewrite Hp1; fold n in Hn1 |- *; lia).
  pose proof (wr_range v1 fb1 l1 c p1 bn _ Hsh1 (e_fresh _ _ _ _ _ _ He1) Hfb1 Hc1 eq_refl Hfit) as (_ & Hx & _). fold x in Hx.
  pose proof (wr_contents v1 fb1 l1 c p1 bn _ Hsh1 (e_fresh _ _ _ _ _ _ He1) Hfb1 Hc1 eq_refl Hfit) as Hc2.
  pose proof (wr_keeps v1 fb1 l1 c p1 bn _ Hsh1 (e_fresh _ _ _ _ _ _ He1) Hfb1 Hc1 eq_refl Hfit) as [Hsh2 Hk2].
  fold x in Hc2, Hsh2, Hk2. set (v2 := fupd v1 x _) in *.
  apply runs_bind, runs_rsect; [lia|]. apply runs_bind, runs_wsect. cbn [img freeinode freeblock].
  change (runs (iappend_loop fuel (with_daddrs din l1) (n + n1) (drop (Z.to_nat n1) p)) (mkm v2 fi fb1) Q).
  assert (Z.of_nat (length (c ++ p1)) = n + n1) as El by (rewrite length_app, Hp1; unfold n; lia).
  assert ((c ++ p1) ++ drop (Z.to_nat n1) p = c ++ p) as Ec by (rewrite <-app_assoc; unfold p1; by rewrite take_drop).
  rewrite <-El. assert (fb1 + (cost (nblk (Z.of_nat (length ((c ++ p1) ++ drop (Z.to_nat n1) p)))) - cost (nblk (Z.of_nat (length (c ++ p1))))) = fb') as Efb.
  { rewrite Ec, El, Hk1. unfold fb1, fb'. fold n. lia. }
  apply IH; rewrite ?Efb, ?Ec; try done.
  - rewrite length_drop. lia.
  - split; [|done]. by rewrite El, Hk1.
  - apply Hk2.
  - pose proof (e_fb _ _ _ _ _ _ He1). lia.
  - rewrite length_app. lia.
  - intros v' l' Hh Hke. apply HQ; [done|]. eapply keeps_trans; [|exact Hke].
    eapply keeps_trans; [by apply ext_keeps|exact Hk2].
Qed.
