(* ===== verification/MkfsImage.v ===== *)
(** The image that mkfs/mkfs.c builds, step by step: after each step the inodes from 1 on are
    the files so far, with their contents, on blocks of their own. *)

From S2P Require Import Prelude KString FsDisk FsBlocks FsInode FsFile FsDir Mkfs MkfsFile.

(** ** Inodes *)

(** The inodes that fit into the blocks of inodes. *)
Definition NINO : Z := ninodeblocks * IPB.

Abbreviation mdino v n := (dino mk_sb v n).
Abbreviation maddrs v n := (d_addrs (dino mk_sb v n)).

Lemma mk_iblock n : 0 <= n < NINO -> IBLOCK n mk_sb = n / 16 + 32 /\ 32 <= IBLOCK n mk_sb < 45.
Proof.
  intros Hn. change NINO with 208 in Hn. unfold IBLOCK. change (sb_inodestart mk_sb) with 32. unfold IPB.
  assert (0 <= n / 16 < 13) by (split; [apply Z.div_pos|apply Z.div_lt_upper_bound]; lia). rewrite u32_small by lia. lia.
Qed.

Lemma mk_ipos_ne n m : IBLOCK n mk_sb = IBLOCK m mk_sb -> 0 <= n < NINO -> 0 <= m < NINO -> n <> m ->
  (ipos n + 64 <= ipos m \/ ipos m + 64 <= ipos n)%nat.
Proof.
  intros E Hn Hm Hne. destruct (mk_iblock n Hn) as [En _], (mk_iblock m Hm) as [Em _].
  assert (n / 16 = m / 16) as Ed by lia. unfold ipos, DINODE, IPB.
  pose proof (Z.div_mod n 16 ltac:(lia)). pose proof (Z.div_mod m 16 ltac:(lia)).
  pose proof (Z.mod_pos_bound n 16 ltac:(lia)). pose proof (Z.mod_pos_bound m 16 ltac:(lia)). lia.
Qed.

(** What writing an inode does to the image. *)
Record wrote_inode (v : Z -> bytes) (n : Z) (d : dinode) (v' : Z -> bytes) : Prop := {
  wi_this : mdino v' n = d;
  wi_other : forall m, 0 <= m < NINO -> m <> n -> mdino v' m = mdino v m;
  wi_frame : forall b, b < 32 \/ 45 <= b -> v' b = v b }.

Lemma runs_winode n d v fi fb (Q : unit -> mkst -> Prop) :
  0 <= n < NINO -> dinode_ok d -> fresh v fb -> nmeta <= fb ->
  (forall v', wrote_inode v n d v' -> fresh v' fb -> Q tt (mkm v' fi fb)) -> runs (winode n d) (mkm v fi fb) Q.
Proof.
  intros Hn Hd Hf Hfb HQ. destruct (mk_iblock n Hn) as [_ Hb]. change nmeta with 46 in Hfb.
  pose proof (fr_len _ _ Hf (IBLOCK n mk_sb) ltac:(unfold FSSIZE; lia)) as Hl. pose proof (ipos_fit n) as Hp.
  assert (length (d_addrs d) = 13%nat) as Hl13 by apply Hd.
  unfold winode. cbv zeta. apply runs_bind, runs_rsect; [unfold FSSIZE; lia|]. apply runs_wsect. cbn [img freeinode freeblock].
  apply HQ; split.
  - unfold dino. rewrite fupd_eq. apply dinode_get_put; [lia|done].
  - intros m Hm Hne. unfold dino, fupd. destruct (Z.eqb_spec (IBLOCK m mk_sb) (IBLOCK n mk_sb)) as [E|]; [|done].
    rewrite E. apply dinode_get_put_ne; [lia| |done]. by apply mk_ipos_ne.
  - intros b Hbb. apply fupd_ne. lia.
  - intros b Hbb. unfold fupd. destruct (b =? _); [rewrite length_dinode_put; lia|by apply Hf].
  - intros b Hbb. rewrite fupd_ne by lia. by apply Hf.
Qed.

(** ** Files that are not touched *)

Lemma holds_frame v v' fb fb' l c :
  holds v fb l c -> fb <= fb' -> (forall b, owns v l b -> v' b = v b) ->
  holds v' fb' l c /\ forall b, owns v' l b <-> owns v l b.
Proof.
  intros [Hs Hc] Hfb He. assert (ind l <> 0 -> v' (ind l) = v (ind l)) as Hi.
  { intros Hi. apply He. split; [done|by left]. }
  split; [|intros b; by apply owns_ind]. split; [by eapply shape_ind|].
  eapply contents_ext; [|done]. intros bn Hbn. unfold fblock. rewrite (blk_ind v v') by done.
  destruct (Z.eqb_spec (blk v l bn) 0) as [|Hnz]; [done|]. apply He. split; [done|]. right. eauto.
Qed.

Lemma holds_own v fb l c b : holds v fb l c -> owns v l b -> nmeta <= b < fb.
Proof. intros [Hs _]. apply (sh_own _ _ _ _ _ Hs). Qed.

Lemma holds_addrs v fb l c : holds v fb l c -> fb <= FSSIZE -> length l = 13%nat /\ Forall (fun z => 0 <= z < 2 ^ 32) l.
Proof.
  intros [Hs _] Hfb. pose proof (sh_len _ _ _ _ _ Hs) as Hl. split; [done|]. apply Forall_lookup. intros j a Hj.
  assert (j < 13)%nat by (rewrite <-Hl; by eapply lookup_lt_Some).
  assert (nth_addr l (Z.of_nat j) = a) as E by (unfold nth_addr; by rewrite Nat2Z.id, Hj).
  destruct (decide (a = 0)) as [->|Hnz]; [lia|]. assert (0 < nmeta) by (vm_compute; done).
  assert (nmeta <= a < fb); [|unfold FSSIZE in *; lia]. apply (sh_own _ _ _ _ _ Hs). split; [done|].
  destruct (decide (j = 12)%nat) as [->|].
  - left. by rewrite <-E.
  - right. exists (Z.of_nat j). split; [unfold MAXFILE, NDIRECT, NINDIRECT; lia|]. rewrite <-E. apply blk_direct. unfold NDIRECT. lia.
Qed.

Lemma holds_max v fb l c : holds v fb l c -> 0 <= Z.of_nat (length c) <= MAXFILE * BSIZE.
Proof.
  intros [Hs _]. pose proof (proj1 (sh_k _ _ _ _ _ Hs)) as Hk. unfold nblk, MAXFILE, NDIRECT, NINDIRECT, BSIZE in *.
  Z.div_mod_to_equations. lia.
Qed.

(** ** The image under construction *)

Definition fcost (c : bytes) : Z := cost (nblk (Z.of_nat (length c))).
Definition total (cs : list (Z * bytes)) : Z := nmeta + foldr (fun f a => fcost f.2 + a) 0 cs.

(** The blocks in front of the inodes, and the bitmap, until the end. *)
Definition base (b : Z) : bytes := if b =? 1 then upd_bytes 0 (sb_bytes mk_sb) zero_block else zero_block.

(** Inode [n] is a file of the type and the contents. *)
Record is_file (v : Z -> bytes) (fb n : Z) (t : Z) (c : bytes) : Prop := {
  if_dino : mdino v n = mkdi t 0 0 1 (Z.of_nat (length c)) (maddrs v n);
  if_type : t = T_DIR \/ t = T_FILE;
  if_holds : holds v fb (maddrs v n) c }.

(** The files [cs] are the inodes from 1 on. *)
Record built (s : mkst) (cs : list (Z * bytes)) : Prop := {
  bu_fresh : fresh (img s) (freeblock s);
  bu_inode : freeinode s = Z.of_nat (length cs) + 1;
  bu_block : freeblock s = total cs;
  bu_file : forall i t c, cs !! i = Some (t, c) -> is_file (img s) (freeblock s) (Z.of_nat i + 1) t c;
  bu_disj : forall i j b, (i < length cs)%nat -> (j < length cs)%nat -> i <> j ->
    owns (img s) (maddrs (img s) (Z.of_nat i + 1)) b -> ~ owns (img s) (maddrs (img s) (Z.of_nat j + 1)) b;
  bu_meta : forall b, 0 <= b < 32 \/ b = 45 -> img s b = base b;
  bu_free : forall n, Z.of_nat (length cs) < n < NINO -> d_type (mdino (img s) n) = 0 }.

Lemma fcost_nonneg c : 0 <= fcost c.
Proof.
  unfold fcost, cost, nblk, BSIZE. assert (0 <= (Z.of_nat (length c) + 1023) / 1024) by (apply Z.div_pos; lia).
  destruct (12 <? _); lia.
Qed.

Lemma total_app cs cs' : total (cs ++ cs') = total cs + (total cs' - nmeta).
Proof. unfold total. induction cs as [|f cs IH]; simpl in *; lia. Qed.

Lemma total_ge cs : nmeta <= total cs.
Proof. unfold total. induction cs as [|f cs IH]; simpl in *; [lia|]. pose proof (fcost_nonneg f.2). lia. Qed.

Lemma total_insert cs i t c c' :
  cs !! i = Some (t, c) -> total (<[i := (t, c')]> cs) = total cs + (fcost c' - fcost c).
Proof.
  unfold total. revert i. induction cs as [|f cs IH]; intros [|i] Hi; try done; simpl in *.
  - injection Hi as ->. simpl. lia.
  - specialize (IH i Hi). lia.
Qed.

Lemma file_dinode_ok v fb n t c : is_file v fb n t c -> fb <= FSSIZE -> dinode_ok (mdino v n).
Proof.
  intros [E Ht Hh] Hfb. rewrite E. destruct (holds_addrs _ _ _ _ Hh Hfb) as [Hl Ha]. pose proof (holds_max _ _ _ _ Hh) as Hm.
  unfold MAXFILE, NDIRECT, NINDIRECT, BSIZE in Hm. split; [|cbn [d_size d_addrs]; split; [lia|done]].
  intros z. cbn [d_type d_major d_minor d_nlink]. rewrite !elem_of_cons, elem_of_nil. unfold T_DIR, T_FILE in Ht. intros. lia.
Qed.

(** A file that owns no changed block, and whose inode is the same, is the same. *)
Lemma is_file_frame v v' fb fb' n t c :
  is_file v fb n t c -> fb <= fb' -> mdino v' n = mdino v n -> (forall b, owns v (maddrs v n) b -> v' b = v b) ->
  is_file v' fb' n t c /\ forall b, owns v' (maddrs v' n) b <-> owns v (maddrs v n) b.
Proof.
  intros [E Ht Hh] Hfb Ed He. destruct (holds_frame v v' fb fb' _ c Hh Hfb He) as [Hh' Ho].
  rewrite Ed. split; [|done]. split; [by rewrite Ed|done|by rewrite Ed].
Qed.

(** The same state but for the file at [i]. *)
Lemma built_change v fi fb v' fb' cs i t c c' :
  built (mkm v fi fb) cs -> cs !! i = Some (t, c) -> is_file v' fb' (Z.of_nat i + 1) t c' ->
  fb <= fb' -> fb' = fb + (fcost c' - fcost c) -> fresh v' fb' ->
  (forall b, 0 <= b < 32 \/ b = 45 -> v' b = v b) ->
  (forall n, 0 <= n < NINO -> n <> Z.of_nat i + 1 -> mdino v' n = mdino v n) ->
  (forall b, nmeta <= b < fb -> ~ owns v (maddrs v (Z.of_nat i + 1)) b -> v' b = v b) ->
  (forall b, owns v' (maddrs v' (Z.of_nat i + 1)) b -> owns v (maddrs v (Z.of_nat i + 1)) b \/ fb <= b) ->
  (length cs < 208)%nat -> built (mkm v' fi fb') (<[i := (t, c')]> cs).
Proof.
  intros [B1 B2 B3 B4 B5 B6 B7] Hi Hnew Hfb Efb Hf Hmeta Hino Hdata Hown Hlen. cbn [img freeinode freeblock] in *.
  pose proof (lookup_lt_Some _ _ _ Hi) as Hil. change NINO with 208 in *.
  assert (forall j, (j < length cs)%nat -> j <> i -> exists t c, cs !! j = Some (t, c) /\
    is_file v' fb' (Z.of_nat j + 1) t c /\
    (forall b, owns v' (maddrs v' (Z.of_nat j + 1)) b <-> owns v (maddrs v (Z.of_nat j + 1)) b)) as Hoth.
  { intros j Hj Hne. destruct (lookup_lt_is_Some_2 cs j Hj) as [[tj cj] Ej]. exists tj, cj. split; [done|].
    apply (is_file_frame v v' fb); [by apply B4|done|apply Hino; lia|]. intros b Ho. apply Hdata.
    - by eapply holds_own; [apply (if_holds _ _ _ _ _ (B4 _ _ _ Ej))|].
    - intros Ho'. by apply (B5 j i b). }
  assert (forall j b, (j < length cs)%nat -> j <> i -> owns v' (maddrs v' (Z.of_nat i + 1)) b -> ~ owns v' (maddrs v' (Z.of_nat j + 1)) b) as Hd.
  { intros j b Hj Hne Ho Ho'. destruct (Hoth j Hj Hne) as (tj & cj & Ej & _ & Hoj). rewrite Hoj in Ho'.
    destruct (Hown b Ho) as [Ho1|Hge]; [by apply (B5 i j b); auto|].
    pose proof (holds_own _ _ _ _ _ (if_holds _ _ _ _ _ (B4 _ _ _ Ej)) Ho'). lia. }
  split; cbn [img freeinode freeblock]; rewrite ?length_insert; try done.
  - by rewrite (total_insert _ _ _ c) by done; lia.
  - intros j tj cj [(<- & [= <- <-] & _)|[Hne Hj]]%list_lookup_insert_Some; [done|].
    destruct (Hoth j) as (t0 & c0 & E0 & Hf0 & _); [by eapply lookup_lt_Some|done|]. rewrite Hj in E0. by injection E0 as <- <-.
  - intros j k b Hj Hk Hne. destruct (decide (j = i)) as [->|]; [by apply Hd; auto|].
    destruct (decide (k = i)) as [->|]; [intros Ho Ho'; by apply (Hd j b)|].
    destruct (Hoth j Hj) as (? & ? & _ & _ & Ej); [done|]. destruct (Hoth k Hk) as (? & ? & _ & _ & Ek); [done|].
    rewrite Ej, Ek. by apply B5.
  - intros b Hb. rewrite Hmeta by done. by apply B6.
  - change NINO with 208. intros n Hn. rewrite Hino by lia. by apply B7.
Qed.

(** ** [iappend] and [ialloc] on the image *)

Lemma runs_rinode n (s : mkst) (Q : dinode -> mkst -> Prop) :
  0 <= n < NINO -> Q (mdino (img s) n) s -> runs (rinode n) s Q.
Proof.
  intros Hn HQ. destruct (mk_iblock n Hn) as [_ Hb]. unfold rinode. cbv zeta.
  apply runs_bind, runs_rsect; [unfold FSSIZE; lia|]. by apply runs_ret.
Qed.

Lemma xint_32 a : 0 <= a < 2 ^ 32 -> xint a = a.
Proof. intros Ha. unfold xint. rewrite le_dec_enc. apply Z.mod_small. done. Qed.

Lemma runs_iappend (s : mkst) cs i t c p (Q : unit -> mkst -> Prop) :
  built s cs -> cs !! i = Some (t, c) -> (length cs < 208)%nat -> Z.of_nat (length (c ++ p)) <= MAXFILE * BSIZE ->
  total (<[i := (t, c ++ p)]> cs) <= FSSIZE ->
  (forall s', built s' (<[i := (t, c ++ p)]> cs) -> Q tt s') -> runs (iappend (Z.of_nat i + 1) p) s Q.
Proof.
  intros Hb Hi Hlen Hmax Hroom HQ. destruct s as [v fi fb]. pose proof Hb as [B1 B2 B3 B4 B5 B6 B7]. cbn [img freeinode freeblock] in *.
  pose proof (lookup_lt_Some _ _ _ Hi) as Hil. destruct (B4 i t c Hi) as [Ed Ht Hh]. set (n := Z.of_nat i + 1) in *.
  assert (0 <= n < NINO) as Hn by (change NINO with 208; unfold n; lia).
  rewrite (total_insert _ _ _ c) in Hroom by done. pose proof (total_ge cs) as Hge.
  assert (MAXFILE * BSIZE < 2 ^ 31) as HM by (unfold MAXFILE, NDIRECT, NINDIRECT, BSIZE; lia).
  unfold iappend. apply runs_bind, runs_rinode; [done|]. cbn [img]. apply runs_bind. rewrite Ed at 2. cbn [d_size].
  pose proof (holds_max _ _ _ _ Hh). rewrite xint_32 by lia.
  apply (runs_iappend_loop _ p (mdino v n) v fi fb c); try done; [lia|lia|unfold fcost in *; lia|].
  set (fb' := fb + _). assert (fb' = fb + (fcost (c ++ p) - fcost c)) as Efb by done. clearbody fb'.
  intros v1 l1 Hh1 Hk1. rewrite xint_32 by lia. rewrite Ed.
  unfold set_size, with_daddrs. cbn [d_type d_major d_minor d_nlink d_addrs].
  destruct Hk1 as [K1 K2 K3 K4]. assert (fb' <= FSSIZE) as Hfb' by lia.
  apply (runs_winode n _ v1 fi fb'); [done| |done|lia|].
  { destruct (holds_addrs _ _ _ _ Hh1 Hfb') as [Hl Ha]. split; [|cbn [d_size d_addrs]; split; [lia|done]].
    intros z. cbn. rewrite !elem_of_cons, elem_of_nil. unfold T_DIR, T_FILE in Ht. intros. lia. }
  intros v2 [W1 W2 W3] Hf2. change nmeta with 46 in *.
  assert (forall b, owns v1 l1 b -> v2 b = v1 b) as Hsame.
  { intros b Ho. apply W3. pose proof (holds_own _ _ _ _ _ Hh1 Ho) as Hob. change nmeta with 46 in Hob. lia. }
  destruct (holds_frame v1 v2 fb' fb' l1 _ Hh1 ltac:(lia) Hsame) as [Hh2 Ho2].
  assert (forall b, 0 <= b < 46 -> v1 b = v b) as Hlow.
  { intros b Hbb. apply K3; [lia|]. intros Ho. pose proof (holds_own _ _ _ _ _ Hh Ho) as Hob. change nmeta with 46 in Hob. lia. }
  apply HQ. apply (built_change v fi fb v2 fb' cs i t c); fold n; try done.
  - split; rewrite ?W1; done.
  - intros b Hbb. rewrite W3 by lia. apply Hlow. lia.
  - intros m Hm Hne. rewrite W2 by done. unfold dino. rewrite Hlow; [done|]. pose proof (mk_iblock m Hm). lia.
  - change nmeta with 46. intros b Hbb Hno. rewrite W3 by lia. apply K3; [lia|done].
  - rewrite W1. cbn [d_addrs]. intros b Ho. rewrite Ho2 in Ho. destruct (K2 b Ho); [by left|right; lia].
Qed.

Lemma holds_nil v fb : nmeta <= fb -> holds v fb (replicate 13 0) [].
Proof.
  intros Hfb. assert (forall k, nth_addr (replicate 13 0) k = 0) as En.
  { intros k. unfold nth_addr. destruct (replicate 13 0 !! Z.to_nat k) as [a|] eqn:E; [|done].
    apply lookup_replicate in E as [-> _]. done. }
  assert (forall bn, blk v (replicate 13 0) bn = 0) as Eb.
  { intros bn. unfold blk, ind. rewrite !En. by destruct (bn <? NDIRECT). }
  split; [split|]; try done.
  - intros bn Hbn. rewrite Eb. change (nblk _) with 0. lia.
  - intros b [Hb [->|(bn & _ & ->)]]; [done|]. by rewrite Eb in Hb.
  - intros bn bn' Hbn Hbn' Hnz. by rewrite Eb in Hnz.
  - intros o Ho. unfold fbyte, fblock. rewrite Eb. cbn [Z.eqb]. unfold byte_at, zero_block.
    destruct (replicate (Z.to_nat BSIZE) 0 !! Z.to_nat (o mod BSIZE)) as [a|] eqn:E; [|done].
    apply lookup_replicate in E as [-> _]. done.
Qed.

Lemma own_nil v b : ~ owns v (replicate 13 0) b.
Proof.
  intros Ho. pose proof (holds_nil v nmeta ltac:(lia)) as Hh. pose proof (holds_own _ _ _ _ _ Hh Ho). lia.
Qed.

Lemma runs_ialloc (s : mkst) cs t (Q : Z -> mkst -> Prop) :
  built s cs -> (length cs < 206)%nat -> t = T_DIR \/ t = T_FILE ->
  (forall s', built s' (cs ++ [(t, [])]) -> Q (Z.of_nat (length cs) + 1) s') -> runs (mk_ialloc t) s Q.
Proof.
  intros Hb Hlen Ht HQ. destruct s as [v fi fb]. destruct Hb as [B1 B2 B3 B4 B5 B6 B7]. cbn [img freeinode freeblock] in *.
  set (n := Z.of_nat (length cs) + 1) in *. assert (0 <= n < NINO) as Hn by (change NINO with 208; unfold n; lia).
  pose proof (total_ge cs) as Hge. change NINO with 208 in *.
  unfold mk_ialloc. apply runs_bind, runs_gets. apply runs_bind, runs_modify. cbn [freeinode]. apply runs_bind. rewrite B2.
  assert (xshort t = t) as Et by (destruct Ht as [-> | ->]; reflexivity). rewrite Et. change (xshort 1) with 1. change (xint 0) with 0.
  cbn [img freeblock]. apply runs_winode; [done| |done|lia|].
  { split; [|cbn; split; [lia|split; [done|repeat constructor; lia]]].
    intros z. cbn. rewrite !elem_of_cons, elem_of_nil. unfold T_DIR, T_FILE in Ht. intros. lia. }
  intros v2 [W1 W2 W3] Hf2. apply runs_ret. apply HQ. change nmeta with 46 in *.
  assert (forall i, (i < length cs)%nat -> exists t c, cs !! i = Some (t, c) /\ is_file v2 fb (Z.of_nat i + 1) t c /\
    forall b, owns v2 (maddrs v2 (Z.of_nat i + 1)) b <-> owns v (maddrs v (Z.of_nat i + 1)) b) as Hold.
  { intros i Hi. destruct (lookup_lt_is_Some_2 cs i Hi) as [[ti ci] Ei]. exists ti, ci. split; [done|].
    apply (is_file_frame v v2 fb); [by apply B4|lia|apply W2; change NINO with 208; unfold n; lia|]. intros b Ho. apply W3.
    pose proof (holds_own _ _ _ _ _ (if_holds _ _ _ _ _ (B4 _ _ _ Ei)) Ho) as Hob. change nmeta with 46 in Hob. lia. }
  assert (maddrs v2 (Z.of_nat (length cs) + 1) = replicate 13 0) as Enew by (fold n; by rewrite W1).
  split; cbn [img freeinode freeblock]; rewrite ?length_app; cbn [length].
  - done.
  - rewrite u32_small by (unfold n; lia). unfold n. lia.
  - rewrite total_app, B3. unfold total at 3. simpl. change (fcost []) with 0. lia.
  - intros i ti ci [Hi|[Hge' Hi]]%lookup_app_Some.
    + destruct (Hold i) as (t0 & c0 & E0 & Hf0 & _); [by eapply lookup_lt_Some|]. rewrite Hi in E0. by injection E0 as <- <-.
    + apply list_lookup_singleton_Some in Hi as [Hi [= <- <-]]. assert (i = length cs) as -> by lia.
      split; [|done|rewrite Enew; apply holds_nil; change nmeta with 46; lia]. fold n. by rewrite W1.
  - intros i j b Hi Hj Hne. destruct (decide (i = length cs)) as [->|]; [rewrite Enew; intros Ho; by destruct (own_nil _ _ Ho)|].
    destruct (decide (j = length cs)) as [->|]; [rewrite Enew; intros _ Ho; by destruct (own_nil _ _ Ho)|].
    destruct (Hold i ltac:(lia)) as (? & ? & _ & _ & Ei). destruct (Hold j ltac:(lia)) as (? & ? & _ & _ & Ej).
    rewrite Ei, Ej. apply B5; [lia|lia|done].
  - intros b Hbb. rewrite W3 by lia. by apply B6.
  - change NINO with 208. intros m Hm. rewrite W2; [apply B7; lia|change NINO with 208; lia|unfold n; lia].
Qed.

(** ** The loops *)

Lemma total_insert_mono cs i t c c' :
  cs !! i = Some (t, c) -> (length c <= length c')%nat -> total cs <= total (<[i := (t, c')]> cs).
Proof.
  intros Hi Hl. rewrite (total_insert _ _ _ c) by done. assert (fcost c <= fcost c'); [|lia].
  apply cost_mono, nblk_mono. lia.
Qed.

Lemma runs_copy_loop fuel (s : mkst) cs i t c data (Q : unit -> mkst -> Prop) :
  (length data < fuel)%nat ->
  built s cs -> cs !! i = Some (t, c) -> (length cs < 208)%nat -> Z.of_nat (length (c ++ data)) <= MAXFILE * BSIZE ->
  total (<[i := (t, c ++ data)]> cs) <= FSSIZE ->
  (forall s', built s' (<[i := (t, c ++ data)]> cs) -> Q tt s') -> runs (copy_loop fuel (Z.of_nat i + 1) data) s Q.
Proof.
  revert s cs c data. induction fuel as [|fuel IH]; intros s cs c data Hfuel Hb Hi Hlen Hmax Hroom HQ; [lia|].
  cbn [copy_loop]. destruct data as [|b0 data0].
  { apply runs_ret, HQ. by rewrite app_nil_r, list_insert_id. }
  set (data := b0 :: data0) in *. assert (0 < length data)%nat as Hd by (simpl; lia). clearbody data. clear b0 data0.
  set (p := take (Z.to_nat BSIZE) data). set (q := drop (Z.to_nat BSIZE) data).
  assert (c ++ data = (c ++ p) ++ q) as Ec by (rewrite <-app_assoc; unfold p, q; by rewrite take_drop).
  assert (length q < length data)%nat as Hq by (unfold q; rewrite length_drop; unfold BSIZE; lia).
  pose proof (lookup_lt_Some _ _ _ Hi) as Hil.
  assert (<[i := (t, c ++ p)]> cs !! i = Some (t, c ++ p)) as Hi' by (by rewrite list_lookup_insert_eq).
  assert (<[i := (t, (c ++ p) ++ q)]> (<[i := (t, c ++ p)]> cs) = <[i := (t, c ++ data)]> cs) as Eins by (by rewrite list_insert_insert_eq, Ec).
  assert (total (<[i := (t, c ++ p)]> cs) <= FSSIZE) as Hroom1.
  { etransitivity; [|exact Hroom]. rewrite <-Eins. apply (total_insert_mono _ i t (c ++ p)); [done|]. rewrite (length_app (c ++ p)). lia. }
  apply runs_bind. apply (runs_iappend s cs i t c p); try done; [rewrite Ec, length_app in Hmax; lia|].
  intros s1 Hb1. apply (IH s1 (<[i := (t, c ++ p)]> cs) (c ++ p)); rewrite ?length_insert, ?Eins, <-?Ec; try done. lia.
Qed.

(** The arguments: paths of the host that can be opened, with the contents of the files. *)
Definition opened (args : list (bytes * bytes)) : list (bytes * option bytes) := (fun a => (a.1, Some a.2)) <$> args.
(** The name of an argument in the image. *)
Definition mname (a : bytes * bytes) : bytes := strip (shortname a.1).
Definition good_arg (a : bytes * bytes) : Prop := (47 ∉ shortname a.1) /\ (0 ∉ a.1) /\ Z.of_nat (length a.2) <= MAXFILE * BSIZE.

#[global] Instance good_arg_dec a : Decision (good_arg a).
Proof. unfold good_arg. apply _. Defined.

(** The entries of the root directory, from inode [n] on. *)
Fixpoint ents (n : Z) (args : list (bytes * bytes)) : bytes :=
  match args with
  | [] => []
  | a :: args => mk_dirent n (mname a) ++ ents (n + 1) args
  end.
Definition files (args : list (bytes * bytes)) : list (Z * bytes) := (fun a => (T_FILE, a.2)) <$> args.

Lemma length_mk_dirent n s : length (mk_dirent n s) = 16%nat.
Proof. unfold mk_dirent. rewrite length_app, length_le_enc, length_take, length_app, length_replicate. lia. Qed.

Lemma length_ents n args : length (ents n args) = (16 * length args)%nat.
Proof. revert n. induction args as [|a args IH]; intros n; [done|]. cbn [ents]. rewrite length_app, length_mk_dirent, IH. simpl. lia. Qed.

Lemma total_cons t c cs : total ((t, c) :: cs) = fcost c + total cs.
Proof. unfold total. simpl. lia. Qed.

Lemma fcost_mono c c' : (length c <= length c')%nat -> fcost c <= fcost c'.
Proof. intros. apply cost_mono, nblk_mono. lia. Qed.

Lemma runs_add_files args (s : mkst) d fs (Q : unit -> mkst -> Prop) :
  let n := Z.of_nat (length fs) + 2 in
  built s ((T_DIR, d) :: fs) -> (length fs + length args <= 198)%nat -> Forall good_arg args ->
  Z.of_nat (length (d ++ ents n args)) <= MAXFILE * BSIZE ->
  total ((T_DIR, d ++ ents n args) :: fs ++ files args) <= FSSIZE ->
  (forall s', built s' ((T_DIR, d ++ ents n args) :: fs ++ files args) -> Q tt s') ->
  runs (add_files 1 (opened args)) s Q.
Proof.
  revert s d fs. induction args as [|a args IH]; intros s d fs n Hb Hlen Hgood Hmax Hroom HQ.
  { cbn. apply runs_ret, HQ. cbn. by rewrite !app_nil_r. }
  apply Forall_cons in Hgood as [(Hsl & _ & Hfit) Hgood]. cbn [opened fmap list_fmap add_files fst snd]. cbn [length] in Hlen.
  cbn [ents files fmap list_fmap] in Hmax, Hroom, HQ. set (de := mk_dirent n (mname a)) in *.
  assert ((Z.of_nat (length (fs ++ [(T_FILE, a.2)])) + 2) = n + 1) as En by (rewrite length_app; cbn [length]; unfold n; lia).
  rewrite !length_app in Hmax. pose proof (fcost_nonneg a.2) as Hca. pose proof (fcost_nonneg (d ++ de)) as Hcd.
  pose proof (fcost_mono (d ++ de) (d ++ de ++ ents (n + 1) args) ltac:(rewrite !length_app; lia)) as Hcm.
  rewrite total_cons, total_app in Hroom. change (total (_ :: _)) with (total ((T_FILE, a.2) :: files args)) in Hroom.
  rewrite total_cons in Hroom. pose proof (total_ge (files args)) as Hge. pose proof (total_ge fs) as Hgf.
  unfold assert. rewrite bool_decide_eq_true_2 by done. apply runs_bind, runs_ret. apply runs_bind.
  apply (runs_ialloc s ((T_DIR, d) :: fs)); [done|simpl; lia|by right|]. intros s1 Hb1. cbn [length app] in *.
  replace (Z.of_nat (S (length fs)) + 1) with n by (unfold n; lia).
  apply runs_bind. change 1 with (Z.of_nat 0 + 1) at 1.
  assert (total (fs ++ [(T_FILE, [])]) = total fs) as Ef.
  { rewrite total_app, total_cons. change (fcost []) with 0. change (total []) with nmeta. lia. }
  apply (runs_iappend s1 ((T_DIR, d) :: fs ++ [(T_FILE, [])]) 0 T_DIR d de); [done|done|simpl; rewrite length_app; simpl; lia| | |].
  { rewrite length_app. lia. }
  { cbn [insert list_insert]. rewrite total_cons, Ef. lia. }
  cbn [insert list_insert]. intros s2 Hb2. apply runs_bind.
  replace n with (Z.of_nat (S (length fs)) + 1) by (unfold n; lia).
  assert (((T_DIR, d ++ de) :: fs ++ [(T_FILE, [])]) !! S (length fs) = Some (T_FILE, [])) as Hi.
  { simpl. rewrite lookup_app_r, Nat.sub_diag by lia. done. }
  assert (<[S (length fs) := (T_FILE, [] ++ a.2)]> ((T_DIR, d ++ de) :: fs ++ [(T_FILE, [])])
    = (T_DIR, d ++ de) :: fs ++ [(T_FILE, a.2)]) as Eins.
  { simpl. f_equal. rewrite insert_app_r_alt, Nat.sub_diag by lia. done. }
  apply (runs_copy_loop _ s2 ((T_DIR, d ++ de) :: fs ++ [(T_FILE, [])]) _ T_FILE [] a.2); [lia|done|done| | | |].
  - simpl. rewrite length_app. simpl. lia.
  - done.
  - rewrite Eins, total_cons, total_app, total_cons. change (total []) with nmeta. lia.
  - rewrite Eins. intros s3 Hb3.
    assert (fs ++ (T_FILE, a.2) :: files args = (fs ++ [(T_FILE, a.2)]) ++ files args) as Es by (by rewrite <-app_assoc).
    apply (IH s3 (d ++ de) (fs ++ [(T_FILE, a.2)]) Hb3); rewrite ?En, <-?(app_assoc d); try done.
    + rewrite length_app. simpl. lia.
    + rewrite !length_app. lia.
    + rewrite <-Es, total_cons, total_app, total_cons. lia.
    + intros s4. rewrite <-Es. apply HQ.
Qed.

(** ** The start *)

Lemma runs_zero_loop k i (s : mkst) (Q : unit -> mkst -> Prop) :
  (forall v', (forall b, i <= b < i + Z.of_nat k -> v' b = zero_block) -> (forall b, b < i \/ i + Z.of_nat k <= b -> v' b = img s b) ->
     Q tt (mkm v' (freeinode s) (freeblock s))) -> runs (zero_loop k i) s Q.
Proof.
  revert i s. induction k as [|k IH]; intros i s HQ; cbn [zero_loop].
  - apply runs_ret. destruct s as [v fi fb]. apply (HQ v); [intros; lia|done].
  - apply runs_bind, runs_wsect, IH. cbn [img freeinode freeblock]. intros v' Hz Ho. apply (HQ v').
    + intros b Hb. destruct (decide (b = i)) as [->|]; [rewrite Ho by lia; apply fupd_eq|apply Hz; lia].
    + intros b Hb. rewrite Ho by lia. apply fupd_ne. lia.
Qed.

Lemma base_len b : length (base b) = Z.to_nat BSIZE.
Proof. unfold base. by destruct (b =? 1). Qed.

Lemma built_start v : (forall b, 0 <= b < FSSIZE -> v b = base b) -> built (mkm v 1 nmeta) [].
Proof.
  intros Hv. split; cbn [img freeinode freeblock length]; try done; try (intros; lia).
  - split; intros b Hb; [rewrite Hv by done; apply base_len|]. change nmeta with 46 in Hb. rewrite Hv by lia.
    unfold base. destruct (Z.eqb_spec b 1); [lia|done].
  - intros b Hb. apply Hv. unfold FSSIZE. lia.
  - intros n Hn. destruct (mk_iblock n ltac:(lia)) as [_ Hb]. unfold dino. rewrite Hv by (unfold FSSIZE; lia).
    unfold base. destruct (Z.eqb_spec (IBLOCK n mk_sb) 1); [lia|]. unfold dinode_get. cbn [d_type]. rewrite get_le_zero. done.
Qed.

(** The root directory, and the files of the image. *)
Definition root_data (args : list (bytes * bytes)) : bytes := mk_dirent 1 [46] ++ mk_dirent 1 [46; 46] ++ ents 2 args.
Definition image_files (args : list (bytes * bytes)) : list (Z * bytes) := (T_DIR, root_data args) :: files args.

Lemma length_root_data args : length (root_data args) = (16 * (length args + 2))%nat.
Proof. unfold root_data. rewrite !length_app, !length_mk_dirent, length_ents. lia. Qed.

(** What [main] has built before the last two steps. *)
Lemma runs_build args (k : Z -> M mkst unit) (s : mkst) (Q : unit -> mkst -> Prop) :
  (length args <= 198)%nat -> Forall good_arg args -> total (image_files args) <= FSSIZE ->
  built s [] -> (forall s', built s' (image_files args) -> runs (k 1) s' Q) ->
  runs (rootino ← mk_ialloc T_DIR;
        assert (rootino =? ROOTINO);;
        iappend rootino (mk_dirent rootino [46]);;
        iappend rootino (mk_dirent rootino [46; 46]);;
        add_files rootino (opened args);; k rootino) s Q.
Proof.
  intros Hlen Hgood Hroom Hb HQ. pose proof (length_root_data args) as Hrl.
  assert (10000 < MAXFILE * BSIZE) as HM by (unfold MAXFILE, NDIRECT, NINDIRECT, BSIZE; lia).
  unfold image_files in Hroom. rewrite total_cons in Hroom. pose proof (total_ge (files args)) as Hge.
  assert (forall c, (length c <= length (root_data args))%nat -> total [(T_DIR, c)] <= FSSIZE) as Hsmall.
  { intros c Hc. rewrite total_cons. change (total []) with nmeta. pose proof (fcost_mono _ _ Hc). lia. }
  apply runs_bind. apply (runs_ialloc s []); [done|simpl; lia|by left|]. intros s1 Hb1. cbn [length app] in *.
  change (Z.of_nat 0 + 1) with 1. unfold assert. cbn [Z.eqb Pos.eqb ROOTINO]. apply runs_bind, runs_ret.
  apply runs_bind. apply (runs_iappend s1 [(T_DIR, [])] 0 T_DIR []); [done|done|simpl; lia|rewrite app_nil_l, length_mk_dirent; lia| |].
  { apply Hsmall. rewrite app_nil_l, length_mk_dirent. lia. }
  cbn [insert list_insert app]. intros s2 Hb2. apply runs_bind.
  apply (runs_iappend s2 [(T_DIR, mk_dirent 1 [46])] 0 T_DIR (mk_dirent 1 [46])); [done|done|simpl; lia|rewrite length_app, !length_mk_dirent; lia| |].
  { apply Hsmall. rewrite length_app, !length_mk_dirent. lia. }
  cbn [insert list_insert app]. intros s3 Hb3. apply runs_bind.
  apply (runs_add_files args s3 (mk_dirent 1 [46] ++ mk_dirent 1 [46; 46]) []); [done|simpl; lia|done| | |];
    cbn [length app]; rewrite <-app_assoc; change (Z.of_nat 0 + 2) with 2; fold (root_data args).
  - lia.
  - by rewrite total_cons.
  - exact HQ.
Qed.
