(* ===== verification/MkfsSpec.v ===== *)
(** The image that mkfs/mkfs.c builds is a file system of the kernel, with the files that it
    was given. *)

From S2P Require Import Prelude KString Lock BlockCache Bio Log FsDisk FsBlocks FsInode FsFile FsDir FsPath FsTx FsSpec Sysfile SysfileSpec Mkfs MkfsFile MkfsImage.

(** ** The bitmap *)

Lemma bitmap_loop_spec k i w j :
  length w = Z.to_nat BSIZE -> 0 <= i -> i + Z.of_nat k <= BPB -> 0 <= j < BPB ->
  length (bitmap_loop k i w) = Z.to_nat BSIZE /\
  bit_free (bitmap_loop k i w) j = bit_free w j && negb ((i <=? j) && (j <? i + Z.of_nat k)).
Proof.
  revert i w. induction k as [|k IH]; intros i w Hw Hi Hk Hj; cbn [bitmap_loop].
  { split; [done|]. destruct (Z.leb_spec i j), (Z.ltb_spec j (i + Z.of_nat 0)); simpl; try lia; by rewrite andb_true_r. }
  destruct (IH (i + 1) (bit_set w i)) as [E1 E2]; [by rewrite length_bit_set|lia|lia|done|]. split; [done|].
  rewrite E2, bit_free_set by (done || lia). rewrite <-andb_assoc. f_equal.
  destruct (Z.leb_spec (i + 1) j), (Z.leb_spec i j), (Z.ltb_spec j (i + 1 + Z.of_nat k)), (Z.ltb_spec j (i + Z.of_nat (S k))), (Z.eqb_spec i j); simpl; lia || done.
Qed.

Lemma bit_free_zero j : bit_free zero_block j = true.
Proof.
  unfold bit_free, byte_at, zero_block. destruct (replicate (Z.to_nat BSIZE) 0 !! Z.to_nat (j / 8)) as [a|] eqn:E; [|done].
  apply lookup_replicate in E as [-> _]. done.
Qed.

Definition bitmap (fb : Z) : bytes := bitmap_loop (Z.to_nat fb) 0 zero_block.

Lemma mk_bblock b : 0 <= b < FSSIZE -> BBLOCK b mk_sb = 45.
Proof.
  intros Hb. unfold BBLOCK. rewrite Z.div_small by (unfold FSSIZE, BPB, BSIZE in *; lia). reflexivity.
Qed.

Lemma mk_used v fb b : v 45 = bitmap fb -> 0 <= fb <= FSSIZE -> 0 <= b < FSSIZE -> used mk_sb v b = (b <? fb).
Proof.
  intros Hv Hfb Hb. unfold used. rewrite mk_bblock, Hv by done. rewrite Z.mod_small by (unfold FSSIZE, BPB, BSIZE in *; lia).
  unfold bitmap. destruct (bitmap_loop_spec (Z.to_nat fb) 0 zero_block b) as [_ ->];
    [done|lia|unfold FSSIZE, BPB, BSIZE in *; lia|unfold FSSIZE, BPB, BSIZE in *; lia|].
  rewrite bit_free_zero. destruct (Z.leb_spec 0 b); [|lia]. destruct (Z.ltb_spec b (0 + Z.of_nat (Z.to_nat fb))), (Z.ltb_spec b fb); simpl; lia || done.
Qed.

(** ** The entries of the root directory *)

(** Inode numbers and names *)
Fixpoint names (n : Z) (args : list (bytes * bytes)) : list (Z * bytes) :=
  match args with
  | [] => []
  | a :: args => (n, mname a) :: names (n + 1) args
  end.
Definition elist (args : list (bytes * bytes)) : list (Z * bytes) := (1, [46]) :: (1, [46; 46]) :: names 2 args.

Lemma names_lookup n args k : names n args !! k = (fun a => (n + Z.of_nat k, mname a)) <$> args !! k.
Proof.
  revert n k. induction args as [|a args IH]; intros n [|k]; cbn [names lookup list_lookup]; try done.
  - cbn. do 2 f_equal. lia.
  - rewrite IH. destruct (args !! k); simpl; [|done]. do 2 f_equal. lia.
Qed.

Lemma length_names n args : length (names n args) = length args.
Proof. revert n. induction args as [|a args IH]; intros n; cbn; [done|]. by rewrite IH. Qed.

(** The bytes of entry [k] *)
Lemma ents_sub es k e :
  es !! k = Some e -> sub_bytes (16 * k) 16 (concat ((fun e => mk_dirent e.1 e.2) <$> es)) = mk_dirent e.1 e.2.
Proof.
  revert k. induction es as [|e' es IH]; intros [|k] Hk; try done; cbn [fmap list_fmap concat].
  - injection Hk as ->. unfold sub_bytes. rewrite Nat.mul_0_r, drop_0.
    rewrite take_app_le by (rewrite length_mk_dirent; lia). apply take_ge. rewrite length_mk_dirent. lia.
  - rewrite <-(IH k Hk). unfold sub_bytes. rewrite drop_app_ge by (rewrite length_mk_dirent; lia).
    rewrite length_mk_dirent. do 2 f_equal. lia.
Qed.

Lemma root_data_concat args : root_data args = concat ((fun e => mk_dirent e.1 e.2) <$> elist args).
Proof.
  unfold root_data, elist. cbn [fmap list_fmap concat fst snd]. do 2 f_equal. generalize 2.
  induction args as [|a args IH]; intros n; [done|]. cbn [ents names fmap list_fmap concat fst snd]. by rewrite IH.
Qed.

Lemma cut_nul_pad k s : cut_nul (take k (cut_nul s ++ replicate k 0)) = cut_nul (take k s).
Proof.
  revert s. induction k as [|k IH]; intros s; [done|]. destruct s as [|b s]; [done|]. cbn [cut_nul].
  destruct (Z.eqb_spec b 0) as [->|Hb]; [done|]. cbn [app take cut_nul]. destruct (Z.eqb_spec b 0); [done|]. f_equal.
  rewrite <-(IH s). f_equal. rewrite replicate_S_end, app_assoc. apply take_app_le. rewrite length_app, length_replicate. lia.
Qed.

Lemma entry_dirent n s : 0 <= n < 2 ^ 16 -> entry (mk_dirent n s) = (n, name14 s).
Proof.
  intros Hn. unfold entry, mk_dirent, xshort. rewrite le_dec_enc, Z.mod_small by done. set (nm := take 14 _).
  assert (length nm = 14%nat) as Hl by (unfold nm; rewrite length_take, length_app, length_replicate; lia). f_equal.
  - unfold de_inum, get_le, sub_bytes. rewrite drop_0, take_app_le by (rewrite length_le_enc; lia).
    rewrite take_ge, le_dec_enc by (rewrite length_le_enc; lia). by apply Z.mod_small.
  - unfold de_name, sub_bytes. rewrite drop_app_ge by (rewrite length_le_enc; lia). rewrite length_le_enc, Nat.sub_diag, drop_0, take_ge by lia.
    unfold name14. rewrite take_ge by lia. apply cut_nul_pad.
Qed.

(** The contents as the kernel reads them *)
Lemma contents_fread v l c off k :
  contents v l c -> 0 <= off -> off + Z.of_nat k <= MAXFILE * BSIZE -> (Z.to_nat off + k <= length c)%nat ->
  fread v l off k = sub_bytes (Z.to_nat off) k c.
Proof.
  intros Hc Hoff Hmax Hk. apply list_eq. intros j. rewrite lookup_sub_bytes. case_decide as Hj.
  - rewrite lookup_fread by done. rewrite Hc by lia. unfold byte_at.
    replace (Z.to_nat (off + Z.of_nat j)) with (Z.to_nat off + j)%nat by lia.
    destruct (lookup_lt_is_Some_2 c (Z.to_nat off + j)%nat ltac:(lia)) as [b ->]. done.
  - apply lookup_ge_None_2. rewrite length_fread. lia.
Qed.

Lemma contents_zero v l c off k :
  contents v l c -> 0 <= off -> off + Z.of_nat k <= MAXFILE * BSIZE -> Z.of_nat (length c) <= off ->
  fread v l off k = replicate k 0.
Proof.
  intros Hc Hoff Hmax Hk. apply list_eq. intros j. destruct (decide (j < k)%nat) as [Hj|Hj].
  - rewrite lookup_fread, lookup_replicate_2 by done. rewrite Hc by lia. unfold byte_at. by rewrite lookup_ge_None_2 by lia.
  - rewrite !lookup_ge_None_2; rewrite ?length_fread, ?length_replicate; (done || lia).
Qed.

(** ** The finished image *)

(** The size of the root directory at the end. *)
Definition root_size (args : list (bytes * bytes)) : Z := (Z.of_nat (length (root_data args)) / BSIZE + 1) * BSIZE.

Record finished (args : list (bytes * bytes)) (v : Z -> bytes) (fb : Z) : Prop := {
  fi_fb : fb = total (image_files args) /\ nmeta <= fb <= FSSIZE;
  fi_len : forall b, 0 <= b < FSSIZE -> length (v b) = Z.to_nat BSIZE;
  fi_map : v 45 = bitmap fb;
  fi_root : mdino v 1 = mkdi T_DIR 0 0 1 (root_size args) (maddrs v 1);
  fi_file : forall k a, args !! k = Some a ->
    mdino v (Z.of_nat k + 2) = mkdi T_FILE 0 0 1 (Z.of_nat (length a.2)) (maddrs v (Z.of_nat k + 2));
  fi_holds : forall i f, image_files args !! i = Some f -> holds v fb (maddrs v (Z.of_nat i + 1)) f.2;
  fi_disj : forall i j b, (i < length (image_files args))%nat -> (j < length (image_files args))%nat -> i <> j ->
    owns v (maddrs v (Z.of_nat i + 1)) b -> ~ owns v (maddrs v (Z.of_nat j + 1)) b;
  fi_meta : forall b, 0 <= b < 32 -> v b = base b;
  fi_free : forall n, Z.of_nat (length (image_files args)) < n < NINO -> d_type (mdino v n) = 0 }.

Lemma length_image_files args : length (image_files args) = S (length args).
Proof. unfold image_files, files. cbn [length]. by rewrite length_fmap. Qed.

(** The size of the root, and the bitmap *)
Lemma built_finished v fi fb args v1 :
  built (mkm v fi fb) (image_files args) -> fb <= FSSIZE -> (length args <= 198)%nat ->
  wrote_inode v 1 (mkdi T_DIR 0 0 1 (root_size args) (maddrs v 1)) v1 -> fresh v1 fb ->
  finished args (fupd v1 45 (bitmap fb)) fb.
Proof.
  intros [B1 B2 B3 B4 B5 B6 B7] Hfb Hlen [W1 W2 W3] Hf1. cbn [img freeinode freeblock] in *. set (v2 := fupd v1 45 _).
  pose proof (total_ge (image_files args)) as Hge. rewrite length_image_files in *. change nmeta with 46 in *.
  assert (forall n, 0 <= n < NINO -> mdino v2 n = mdino v1 n) as Ed2.
  { intros n Hn. unfold dino, v2. rewrite fupd_ne; [done|]. pose proof (mk_iblock n Hn). lia. }
  assert (forall n, 0 <= n < NINO -> maddrs v2 n = maddrs v n) as Ea.
  { intros n Hn. rewrite Ed2 by done. destruct (decide (n = 1)) as [->|]; [by rewrite W1|by rewrite W2]. }
  assert (forall i f, image_files args !! i = Some f -> holds v2 fb (maddrs v2 (Z.of_nat i + 1)) f.2 /\
    forall b, owns v2 (maddrs v2 (Z.of_nat i + 1)) b <-> owns v (maddrs v (Z.of_nat i + 1)) b) as Hh.
  { intros i [t c] Hi. pose proof (lookup_lt_Some _ _ _ Hi) as Hil. rewrite length_image_files in Hil.
    rewrite Ea by (change NINO with 208; lia). pose proof (if_holds _ _ _ _ _ (B4 i t c Hi)) as Hh.
    apply (holds_frame v v2 fb fb); [done|lia|]. intros b Ho. pose proof (holds_own _ _ _ _ _ Hh Ho) as Hob. change nmeta with 46 in Hob.
    unfold v2. rewrite fupd_ne by lia. apply W3. lia. }
  split; rewrite ?length_image_files; try (change NINO with 208; change nmeta with 46).
  - lia.
  - intros b Hb. unfold v2, fupd. destruct (Z.eqb_spec b 45); [|by apply Hf1].
    apply (bitmap_loop_spec _ _ _ 0); unfold FSSIZE, BPB, BSIZE in *; done || lia.
  - apply fupd_eq.
  - rewrite Ed2 by (change NINO with 208; lia). rewrite W1. done.
  - intros k a Hk. pose proof (lookup_lt_Some _ _ _ Hk). rewrite Ed2 by (change NINO with 208; lia).
    rewrite W2 by (change NINO with 208; lia). replace (Z.of_nat k + 2) with (Z.of_nat (S k) + 1) by lia.
    apply (if_dino _ _ _ _ _ (B4 (S k) T_FILE a.2 ltac:(simpl; unfold files; by rewrite list_lookup_fmap, Hk))).
  - intros i f Hi. by apply Hh.
  - intros i j b Hi Hj Hne. destruct (lookup_lt_is_Some_2 (image_files args) i ltac:(by rewrite length_image_files)) as [f1 E1].
    destruct (lookup_lt_is_Some_2 (image_files args) j ltac:(by rewrite length_image_files)) as [f2 E2].
    rewrite (proj2 (Hh i f1 E1)), (proj2 (Hh j f2 E2)). by apply B5.
  - intros b Hb. unfold v2. rewrite fupd_ne, W3 by lia. apply B6. lia.
  - intros n Hn. rewrite Ed2, W2; [apply B7; change NINO with 208; lia| | |]; change NINO with 208; lia.
Qed.

Lemma root_size_range args : (length args <= 198)%nat -> 0 < root_size args < 2 ^ 32 /\ root_size args <= 4096.
Proof.
  intros Hl. unfold root_size. rewrite length_root_data. unfold BSIZE.
  assert (0 <= Z.of_nat (16 * (length args + 2)) / 1024 < 4) by (split; [apply Z.div_pos|apply Z.div_lt_upper_bound]; lia). lia.
Qed.

Lemma runs_main args (Q : unit -> mkst -> Prop) :
  (length args <= 198)%nat -> Forall good_arg args -> total (image_files args) <= FSSIZE ->
  (forall s, finished args (img s) (freeblock s) -> Q tt s) -> runs (main (opened args)) mk_start Q.
Proof.
  intros Hlen Hgood Hroom HQ. unfold main. apply runs_bind, runs_modify. cbn [img freeinode mk_start].
  apply runs_bind, runs_zero_loop. cbn [img freeinode freeblock]. intros v0 Hz _. apply runs_bind, runs_wsect. cbn [img freeinode freeblock].
  assert (built (mkm (fupd v0 1 (upd_bytes 0 (sb_bytes mk_sb) zero_block)) 1 nmeta) []) as Hb0.
  { apply built_start. intros b Hb. unfold base, fupd. destruct (b =? 1); [done|]. apply Hz. unfold FSSIZE in *. lia. }
  set (s0 := mkm _ _ _) in *. clearbody s0. clear v0 Hz.
  apply (runs_build args (fun rootino => din ← rinode rootino;
    winode rootino (set_size din (xint (u32 ((xint (d_size din) / BSIZE + 1) * BSIZE))));;
    used ← gets freeblock; mk_balloc used)); [done|done|done|done|].
  intros s Hb. destruct s as [v fi fb]. pose proof Hb as [B1 B2 B3 B4 B5 B6 B7]. cbn [img freeinode freeblock] in *.
    pose proof (if_dino _ _ _ _ _ (B4 0%nat T_DIR (root_data args) eq_refl)) as Ed. change (Z.of_nat 0 + 1) with 1 in Ed.
    pose proof (root_size_range args Hlen) as Hrs. pose proof (total_ge (image_files args)) as Hge.
    apply runs_bind, runs_rinode; [done|]. cbn [img]. apply runs_bind. rewrite Ed. cbn [d_size].
    rewrite (xint_32 (Z.of_nat _)) by (rewrite length_root_data; lia). fold (root_size args).
    rewrite u32_small, xint_32 by lia. unfold set_size. cbn [d_type d_major d_minor d_nlink d_addrs].
    apply runs_winode; [done| |done|lia|].
    { destruct (holds_addrs _ _ _ _ (if_holds _ _ _ _ _ (B4 0%nat T_DIR _ eq_refl)) ltac:(lia)) as [Hl Ha].
      change (Z.of_nat 0 + 1) with 1 in Hl, Ha. split; [|cbn [d_size d_addrs]; split; [lia|done]].
      intros z. cbn. rewrite !elem_of_cons, elem_of_nil. unfold T_DIR. intros. lia. }
    intros v1 Hw Hf1. apply runs_bind, runs_gets. cbn [freeblock]. unfold mk_balloc, assert.
    destruct (Z.ltb_spec fb (BSIZE * 8)); [|unfold FSSIZE, BSIZE in *; lia]. apply runs_bind, runs_ret, runs_wsect.
    apply HQ. cbn [img freeblock]. change (sb_bmapstart mk_sb) with 45. apply (built_finished v fi fb args v1); try done. lia.
Qed.

(** ** The kernel's view of the image *)

Section image.
Context (args : list (bytes * bytes)) (v : Z -> bytes) (fb : Z) (F : finished args v fb).
Context (Hlen : (length args <= 198)%nat) (Hfull : Z.of_nat (length args + 2) mod 64 <> 0).

Definition in_image (n : Z) : Prop := 1 <= n <= Z.of_nat (length args) + 1.

Lemma image_lookup n : in_image n -> exists i f, n = Z.of_nat i + 1 /\ (i < length (image_files args))%nat /\ image_files args !! i = Some f.
Proof using All.
  intros Hn. unfold in_image in Hn. exists (Z.to_nat (n - 1)).
  destruct (lookup_lt_is_Some_2 (image_files args) (Z.to_nat (n - 1))) as [f Hf]; [rewrite length_image_files; lia|].
  exists f. split; [lia|]. split; [by eapply lookup_lt_Some|done].
Qed.

Lemma image_live b : nmeta <= b < fb -> live mk_sb v b.
Proof using All.
  intros Hb. destruct F as [[_ Hfb] _ Hm _ _ _ _ _ _]. change nmeta with 46 in *. split.
  - unfold data_block. change (data_start mk_sb) with 46. change (sb_size mk_sb) with 2000. unfold FSSIZE in *. lia.
  - rewrite (mk_used v fb) by (done || lia). apply Z.ltb_lt. lia.
Qed.

Lemma mk_file_ok n : in_image n -> file_ok mk_sb v (maddrs v n).
Proof using All.
  intros Hn. destruct (image_lookup n Hn) as (i & f & -> & _ & Hi). destruct (fi_holds _ _ _ F i f Hi) as [Hs _].
  split; [apply Hs| | |apply Hs].
  - intros bn Hbn Hnz. split; [|by apply (sh_ne _ _ _ _ _ Hs)]. apply image_live, (sh_own _ _ _ _ _ Hs). split; [done|right; eauto].
  - intros Hi0. apply image_live, (sh_own _ _ _ _ _ Hs). split; [done|by left].
Qed.

(** Inodes: the root, or a file *)
Lemma mk_dino n : in_image n ->
  exists t z, mdino v n = mkdi t 0 0 1 z (maddrs v n) /\ 0 <= z < 2 ^ 32 /\ (n = 1 /\ t = T_DIR \/ n <> 1 /\ t = T_FILE).
Proof using All.
  intros Hn. unfold in_image in Hn. destruct (decide (n = 1)) as [->|Hne].
  - exists T_DIR, (root_size args). split; [apply F|]. split; [pose proof (root_size_range args Hlen); lia|by left].
  - destruct (lookup_lt_is_Some_2 args (Z.to_nat (n - 2))) as [a Ha]; [lia|]. exists T_FILE, (Z.of_nat (length a.2)).
    pose proof (fi_file _ _ _ F _ _ Ha) as E. replace (Z.of_nat (Z.to_nat (n - 2)) + 2) with n in E by lia.
    split; [done|]. split; [|by right].
    destruct (fi_holds _ _ _ F (S (Z.to_nat (n - 2))) (T_FILE, a.2)) as [Hs Hc]; [simpl; unfold files; by rewrite list_lookup_fmap, Ha|].
    pose proof (holds_max _ _ _ _ (Build_holds _ _ _ _ Hs Hc)) as Hm. cbn [snd] in Hm. unfold MAXFILE, NDIRECT, NINDIRECT, BSIZE in Hm. lia.
Qed.

Lemma image_is_dir n : in_image n -> is_dir mk_sb v n = true -> n = 1.
Proof using All.
  intros Hn. destruct (mk_dino n Hn) as (t & z & E & _ & Ht). unfold is_dir. rewrite E. cbn [d_type].
  destruct Ht as [[-> _]|[_ ->]]; [done|]. by intros.
Qed.

Lemma root_blocks : nblk (Z.of_nat (length (root_data args))) * BSIZE = root_size args.
Proof using All.
  unfold root_size. rewrite length_root_data. unfold nblk, BSIZE. f_equal. rewrite Nat2Z.inj_mul.
  change (Z.of_nat 16) with 16. Z.div_mod_to_equations. lia.
Qed.

Lemma mk_root_no_holes : no_holes v (disk_inode mk_sb v 1).
Proof using All.
  pose proof (root_size_range args Hlen) as Hr. unfold no_holes, disk_inode. rewrite (fi_root _ _ _ F). cbn [load_inode i_size i_addrs d_size d_addrs].
  destruct (fi_holds _ _ _ F 0%nat _ eq_refl) as [Hs _]. change (Z.of_nat 0 + 1) with 1 in Hs. cbn [snd] in Hs.
  split; [unfold MAXFILE, NDIRECT, NINDIRECT, BSIZE; lia|]. intros o Ho. rewrite <-root_blocks in Ho.
  assert (0 <= o / BSIZE < nblk (Z.of_nat (length (root_data args)))) as Hd.
  { split; [apply Z.div_pos|apply Z.div_lt_upper_bound]; unfold BSIZE in *; lia. }
  pose proof (proj1 (sh_k _ _ _ _ _ Hs)). rewrite (sh_some _ _ _ _ _ Hs) by lia. lia.
Qed.

Definition pad : nat := Z.to_nat (root_size args / DIRENT - Z.of_nat (length args + 2)).

Lemma elist_range e : e ∈ elist args -> 1 <= e.1 <= Z.of_nat (length args) + 1.
Proof using All.
  unfold elist. rewrite !elem_of_cons. intros [->|[->|(k & Hk)%list_elem_of_lookup_1]]; cbn [fst]; [lia|lia|].
  rewrite names_lookup in Hk. destruct (args !! k) eqn:E; [|done]. apply lookup_lt_Some in E. injection Hk as <-. cbn [fst]. lia.
Qed.

Lemma root_entries : dir_entries mk_sb v 1 = ((fun e => (e.1, name14 e.2)) <$> elist args) ++ replicate pad (0, []).
Proof using All.
  pose proof (root_size_range args Hlen) as Hr. pose proof root_blocks as Hrb. unfold dir_entries, dents, disk_inode, dent.
  rewrite (fi_root _ _ _ F). cbn [load_inode i_size i_addrs d_size d_addrs].
  destruct (fi_holds _ _ _ F 0%nat _ eq_refl) as [_ Hc]. change (Z.of_nat 0 + 1) with 1 in Hc. cbn [snd] in Hc.
  set (l := maddrs v 1) in *. assert (length (elist args) = (length args + 2)%nat) as He by (cbn; rewrite length_names; lia).
  assert (root_size args mod 16 = 0) as Hm by (rewrite <-Hrb; unfold BSIZE; Z.div_mod_to_equations; lia).
  assert (Z.of_nat (length args + 2) <= root_size args / DIRENT) as Hp.
  { unfold root_size, DIRENT. rewrite length_root_data. unfold BSIZE. Z.div_mod_to_equations. lia. }
  assert (40000 < MAXFILE * BSIZE) as HM by (unfold MAXFILE, NDIRECT, NINDIRECT, BSIZE; lia).
  apply list_eq. intros k. rewrite list_lookup_fmap. destruct (decide (Z.of_nat k < root_size args / DIRENT)) as [Hk|Hk].
  2: { rewrite lookup_seq_ge by lia. symmetry. apply lookup_ge_None_2. rewrite length_app, length_fmap, length_replicate, He. unfold pad. lia. }
  rewrite lookup_seq_lt by lia. cbn [fmap option_fmap option_map Nat.add]. unfold DIRENT in *.
  assert (16 * (root_size args / 16) <= 4096) as H16 by (Z.div_mod_to_equations; lia).
  destruct (decide (k < length args + 2)%nat) as [Hk2|Hk2].
  - rewrite lookup_app_l by (rewrite length_fmap; lia). rewrite list_lookup_fmap.
    destruct (lookup_lt_is_Some_2 (elist args) k) as [e Ek]; [lia|]. rewrite Ek. cbn [fmap option_fmap option_map].
    rewrite (contents_fread _ _ _ _ _ Hc) by (rewrite ?length_root_data; lia).
    rewrite root_data_concat. replace (Z.to_nat (16 * Z.of_nat k)) with (16 * k)%nat by lia. rewrite (ents_sub _ _ _ Ek).
    rewrite entry_dirent; [done|]. apply list_elem_of_lookup_2, elist_range in Ek. lia.
  - rewrite lookup_app_r by (rewrite length_fmap; lia). rewrite length_fmap, He.
    rewrite (lookup_replicate_2 pad) by (unfold pad, DIRENT; lia).
    rewrite (contents_zero _ _ _ _ _ Hc) by (rewrite ?length_root_data; lia). reflexivity.
Qed.

(** The image is a well-formed disk with the tree of the root and its files. *)
Lemma mk_disk_ok : disk_ok mk_sb v in_image.
Proof using All.
  assert (forall n, in_image n -> 0 <= n < 200) as Hrange by (unfold in_image; intros; lia).
  split.
  - split; [intros b Hb; apply (fi_len _ _ _ F); change (sb_inodestart mk_sb) with 32 in Hb; change (sb_size mk_sb) with FSSIZE in Hb; lia|].
    change (data_start mk_sb) with 46. intros b Hb. destruct (fi_fb _ _ _ F) as [_ Hfb]. change nmeta with 46 in Hfb.
    rewrite (mk_used v fb) by (apply F || unfold FSSIZE in *; lia). apply Z.ltb_lt. lia.
  - split.
    + intros n Hn. apply Hrange. done.
    + intros n Hn. destruct (mk_dino n Hn) as (t & z & E & _ & Ht). rewrite E. cbn [d_type d_nlink]. unfold T_DIR, T_FILE in Ht. lia.
    + intros n Hn Hd. pose proof (image_is_dir n Hn Hd) as ->. split; [by apply mk_file_ok|]. split; [apply mk_root_no_holes|].
      pose proof root_blocks as Hrb. unfold dir_ok, disk_inode. rewrite (fi_root _ _ _ F). cbn [load_inode i_type i_size d_type d_size].
      split; [done|]. rewrite <-Hrb. unfold DIRENT, BSIZE. Z.div_mod_to_equations. lia.
    + intros n e Hn Hd He Hnz. pose proof (image_is_dir n Hn Hd) as ->. rewrite root_entries in He.
      apply elem_of_app in He as [He|He].
      * apply list_elem_of_fmap in He as (e' & -> & He'). apply elist_range in He'. done.
      * apply elem_of_replicate in He as [-> _]. done.
  - intros n Hn. by apply mk_file_ok.
  - intros n Hn. destruct (mk_dino n Hn) as (t & z & E & Hz & Ht). split; [|rewrite E; done].
    destruct (image_lookup n Hn) as (i & f & En & _ & Hi). pose proof (fi_holds _ _ _ F i f Hi) as Hh. rewrite <-En in Hh.
    destruct (holds_addrs _ _ _ _ Hh (proj2 (proj2 (fi_fb _ _ _ F)))) as [Hl Ha]. rewrite E.
    split; [|cbn [d_size d_addrs]; split; done].
    intros y. cbn. rewrite !elem_of_cons, elem_of_nil. unfold T_DIR, T_FILE in Ht. intros. lia.
  - intros n m b Hn Hm Hne. destruct (image_lookup n Hn) as (i & f & -> & Hil & Hi).
    destruct (image_lookup m Hm) as (j & g & -> & Hjl & Hj). apply (fi_disj _ _ _ F i j b Hil Hjl). lia.
Qed.

Lemma mk_no_self : no_self mk_sb v in_image.
Proof using All.
  intros n e Hn Hd He E. pose proof (image_is_dir n Hn Hd) as ->. rewrite root_entries in He.
  apply elem_of_app in He as [He|He]; [|apply elem_of_replicate in He as [-> _]; done].
  apply list_elem_of_fmap in He as (e' & -> & He'). cbn [fst snd] in *. unfold elist in He'. rewrite !elem_of_cons in He'.
  destruct He' as [->|[->|(k & Hk)%list_elem_of_lookup_1]]; [done|done|]. rewrite names_lookup in Hk.
  destruct (args !! k); [|done]. injection Hk as <-. cbn [fst] in E. lia.
Qed.

Lemma mname_nul a : 0 ∉ a.1 -> name14 (mname a) = take 14 (mname a).
Proof using.
  clear. intros Ha. unfold name14. apply cut_nul_id, Forall_forall. intros c0 Hin ->. assert (0 ∉ shortname a.1) as Hs.
  { unfold shortname. case_bool_decide; [|done]. intros H'. apply Ha. rewrite <-(take_drop 11 a.1). set_solver. }
  apply Hs. unfold mname in Hin. assert (0 ∈ strip (shortname a.1)) as Hin'.
  { rewrite <-(take_drop 14 (strip _)). apply elem_of_app. by left. }
  unfold strip in Hin'. destruct (shortname a.1) as [|c s]; [done|]. apply elem_of_cons.
  destruct (decide (c = 95)) as [->|Hne]; [by right|]. apply elem_of_cons.
  destruct c as [|c|c]; try done. repeat (destruct c as [c|c|]; try done).
Qed.

Lemma dfind_at nm ds q p n :
  ds !! p = Some (n, nm) -> n <> 0 -> (forall j e, (j < p)%nat -> ds !! j = Some e -> e.2 <> nm) ->
  dfind nm ds q = Some ((q + p)%nat, n).
Proof using.
  clear. revert q p. induction ds as [|[m s] ds IH]; intros q p Hp Hn Hlt; [done|]. cbn [dfind]. destruct p as [|p].
  - injection Hp as -> ->. destruct (Z.eqb_spec n 0); [done|]. rewrite bool_decide_eq_true_2 by done. simpl. do 2 f_equal. lia.
  - rewrite (bool_decide_eq_false_2 (s = nm)) by (apply (Hlt 0%nat (m, s)); [lia|done]). rewrite andb_false_r.
    rewrite (IH (S q) p); [do 2 f_equal; lia|done|done|]. intros j e Hj. apply (Hlt (S j)). lia.
Qed.

(** The names in the root directory *)
Definition root_names : list bytes := [46] :: [46; 46] :: ((fun a => take 14 (mname a)) <$> args).

Lemma mk_walk k a :
  Forall good_arg args -> NoDup root_names -> args !! k = Some a ->
  walk_path mk_sb v ROOTINO [mname a] = Some (Z.of_nat k + 2).
Proof using All.
  intros Hgood Hnd Hk. assert (forall j b, args !! j = Some b -> name14 (mname b) = take 14 (mname b)) as Hnm.
  { intros j b Hj. apply mname_nul. rewrite Forall_lookup in Hgood. apply (Hgood j b Hj). }
  assert ((fun e => name14 e.2) <$> elist args = root_names) as Enames.
  { unfold elist, root_names. cbn. do 2 f_equal. apply list_eq. intros j. rewrite !list_lookup_fmap, names_lookup.
    destruct (args !! j) as [b|] eqn:E; simpl; [|done]. f_equal. by apply (Hnm j). }
  unfold walk_path. unfold is_dir. change ROOTINO with 1. rewrite (fi_root _ _ _ F) at 1. cbn [d_type].
  change (T_DIR =? T_DIR) with true. cbv iota. rewrite root_entries.
  rewrite (dfind_at _ _ 0 (k + 2) (Z.of_nat k + 2)); [done| |lia|].
  - rewrite lookup_app_l by (rewrite length_fmap; cbn; rewrite length_names; apply lookup_lt_Some in Hk; lia).
    rewrite list_lookup_fmap. unfold elist. rewrite Nat.add_comm. cbn. rewrite names_lookup, Hk. simpl.
    rewrite (Hnm k a Hk). do 2 f_equal. lia.
  - intros j e Hj He Eq. pose proof (lookup_lt_Some _ _ _ Hk) as Hkl.
    rewrite lookup_app_l, list_lookup_fmap in He by (rewrite length_fmap; cbn; rewrite length_names; lia).
    destruct (elist args !! j) as [e0|] eqn:E0; [|done]. injection He as <-. cbn [snd] in Eq.
    assert (root_names !! j = Some (take 14 (mname a))) as E1 by (rewrite <-Enames, list_lookup_fmap, E0; simpl; by rewrite Eq).
    assert (root_names !! (k + 2)%nat = Some (take 14 (mname a))) as E2 by (rewrite Nat.add_comm; change (((fun a => take 14 (mname a)) <$> args) !! k = Some (take 14 (mname a))); by rewrite list_lookup_fmap, Hk).
    pose proof (NoDup_lookup _ _ _ _ Hnd E1 E2). lia.
Qed.
End image.

(** ** The theorem *)

(** What the kernel finds on the image of the files [args]. *)
Record fs_image (args : list (bytes * bytes)) (v : Z -> bytes) : Prop := {
  im_sb : sb_parse (v 1) = mk_sb;
  im_log : v (sb_logstart mk_sb) = zero_block;
  im_disk : disk_ok mk_sb v (in_image args);
  im_no_self : no_self mk_sb v (in_image args);
  im_used : forall b, 0 <= b < FSSIZE -> used mk_sb v b = (b <? total (image_files args));
  im_unused : forall n, Z.of_nat (length args) + 1 < n < sb_ninodes mk_sb -> d_type (dino mk_sb v n) = 0;
  im_files : forall k a, args !! k = Some a ->
    let n := Z.of_nat k + 2 in
    walk_path mk_sb v ROOTINO [mname a] = Some n /\ d_type (dino mk_sb v n) = T_FILE /\
    d_size (dino mk_sb v n) = Z.of_nat (length a.2) /\ fread v (d_addrs (dino mk_sb v n)) 0 (length a.2) = a.2 }.

Lemma mk_layout : fs_layout (sb_logstart mk_sb) mk_sb.
Proof. split; vm_compute; done || (split; done). Qed.

Lemma finished_image args v fb :
  finished args v fb -> (length args <= 198)%nat -> Z.of_nat (length args + 2) mod 64 <> 0 ->
  Forall good_arg args -> NoDup (root_names args) -> fs_image args v.
Proof.
  intros F Hlen Hfull Hgood Hnd. split.
  - rewrite (fi_meta _ _ _ F) by lia. vm_compute. done.
  - change (sb_logstart mk_sb) with 2. by rewrite (fi_meta _ _ _ F) by lia.
  - by apply (mk_disk_ok args v fb).
  - by apply (mk_no_self args v fb).
  - intros b Hb. destruct (fi_fb _ _ _ F) as [<- Hfb]. change nmeta with 46 in Hfb.
    apply mk_used; [apply F|lia|done].
  - change (sb_ninodes mk_sb) with 200. intros n Hn. apply (fi_free _ _ _ F). rewrite length_image_files.
    change NINO with 208. lia.
  - intros k a Hk n. split; [by apply (mk_walk args v fb)|]. pose proof (fi_file _ _ _ F k a Hk) as E. fold n in E.
    rewrite E. cbn [d_type d_size]. split; [done|]. split; [done|]. rewrite <-E.
    destruct (fi_holds _ _ _ F (S k) (T_FILE, a.2)) as [Hs Hc]; [simpl; unfold files; by rewrite list_lookup_fmap, Hk|].
    replace (Z.of_nat (S k) + 1) with n in Hs, Hc by (unfold n; lia). cbn [snd] in Hs, Hc.
    pose proof (holds_max _ _ _ _ (Build_holds _ _ _ _ Hs Hc)).
    rewrite (contents_fread _ _ _ _ _ Hc) by lia. unfold sub_bytes. rewrite drop_0. by apply take_ge.
Qed.

(** C8: mkfs builds a file system of the kernel.  For up to 198 files that can be opened, with
    different names without a slash, that fit on the disk (and whose entries do not fill the last
    block of the root directory exactly), [main] returns.  The image has the super block, an
    empty log, and the well-formed tree of the root directory and the files, as the theorems on the
    kernel's calls ask for; the bitmap marks exactly the blocks in use; and every file is found
    by its name in the root directory, with its size and its bytes. *)
Theorem mkfs_image args :
  (length args <= 198)%nat -> Z.of_nat (length args + 2) mod 64 <> 0 -> Forall good_arg args ->
  NoDup (root_names args) -> total (image_files args) <= FSSIZE ->
  fs_layout (sb_logstart mk_sb) mk_sb /\ runs (main (opened args)) mk_start (fun _ s => fs_image args (img s)).
Proof.
  intros Hlen Hfull Hgood Hnd Hroom. split; [apply mk_layout|]. apply runs_main; try done.
  intros s F. by apply (finished_image args _ (freeblock s)).
Qed.

(** [cat] and [ls] *)
Definition two_args : list (bytes * bytes) :=
  [([95; 99; 97; 116], replicate 3000 7); (PREFIX ++ [95; 108; 115], [1; 2; 3])].

Lemma mkfs_image_witness :
  exists s, main (opened two_args) mk_start = Ok tt s /\ disk_ok mk_sb (img s) (in_image two_args) /\
    walk_path mk_sb (img s) ROOTINO [[108; 115]] = Some 3.
Proof.
  destruct (mkfs_image two_args) as [_ ([] & s & Hrun & Him)].
  - vm_compute. lia.
  - vm_compute. done.
  - apply (bool_decide_unpack _). vm_compute. exact I.
  - apply (bool_decide_unpack _). vm_compute. exact I.
  - vm_compute. done.
  - exists s. split; [exact Hrun|]. split; [apply Him|].
    exact (proj1 (im_files _ _ Him 1%nat (PREFIX ++ [95; 108; 115], [1; 2; 3]) eq_refl)).
Defined.
